(* ===== verification/_CoqProject ===== *)
-Q . S2P
Prelude.v
KernelEnv.v
Pmm.v
PmmSpec.v
Spinlock.v
SpinlockSpec.v
FaultInjection.v
FaultRaces.v
Platform.v
Results.v
Handle.v
HandleSpec.v
Graphics2d.v
Graphics2dSpec.v
DisplayOwner.v
KernelObjects.v
KernelObjectsSpec.v
RingBuffer.v
Mailbox.v
MailboxSpec.v
InputQueue.v
ServiceRegistry.v
ServiceRegistrySpec.v
Ipc.v
IpcSpec.v
Scheduler.v
SchedulerSpec.v
ThreadSync.v
ThreadSyncSpec.v
Paging.v
PagingSpec.v
PagingMemory.v
PagingRoots.v
PagingFamily.v
Vm.v
VmSpec.v
SurfaceBacking.v
SurfaceSpec.v
SurfaceHistory.v
AddressSpace.v
AddressRegions.v
AddressSpaceSpec.v
AddressIsolation.v
AccessGate.v
UserMemory.v
Utf8Spec.v
UserMemorySpec.v
UserMemoryCopies.v
DriverRecords.v
DriverVa.v
DriverExtents.v
DriverVaSpec.v
DriverVaHistory.v
DriverQuiesce.v
DriverSpec.v
DriverHistory.v
LinkedList.v
MemFs.v
MemFsTree.v
MemFsEdit.v
MemFsSpec.v
Vfs.v
VfsSpec.v
VfsFiles.v
VfsOps.v
VfsHistory.v
Heap.v
HeapBlocks.v
HeapSteps.v
HeapSpec.v
VfsHeap.v
