(* ===== verification/Prelude.v ===== *)
(** * mini-kernel: a verification development of the kernel core

    mini-kernel is an x86-64 operating system kernel in C++.  This library
    models its core logic in Rocq, function by function, and proves the
    properties that make the parts correct.  Definitions carry the names of the
    C++ functions and types; every source file named below is under [src/].

    ** The program and its parts

    Two services sit below everything: interrupt-safe spinlocks ordered by lock
    class, and diagnostic fault points that make chosen operations fail.  The
    physical memory manager hands out 4 KiB blocks from a bitmap; page tables
    map them, for the kernel and for the address spaces of processes, and the
    kernel heap carves mapped pages into blocks.  Processes own handle tables, whose
    entries name reference-counted kernel objects (shared memory, graphics
    surfaces, synchronisation objects).  Threads wait for events and are picked
    from a run queue by the scheduler; mutexes, semaphores and condition
    variables are built on that waiting.  Processes exchange messages through
    mailboxes, messages carry handles, and a registry maps service names to
    processes.  Input events are queued, and drawing is clipped and tracked as
    dirty rectangles; the memory of surfaces is mapped page by page, and the terminal
    and a window server take turns on the display.  Files are reached through a table of mounts; an open file
    keeps its bytes in a buffer on the heap and writes them back when it is
    closed, and a small file system lives in memory.  Drivers are registered in
    a table, own resources, and are unloaded when no activity of theirs is left;
    their images get addresses from an arena of their own.  System calls reach the
    memory of the calling process through leases.

    ** Files

    Shared:
    - [Prelude]: record update, machine-width integers ([u8], [u32], [u64], with
      wrap-around written out), masks, counted loops ([for_range]), first-match
      search ([find_first]), fixed-size arrays indexed by [Z] ([aget], [aset]),
      counts and sums over them, the tactics and the hint database [kernel].
    - [KernelEnv]: the interface of locks and fault points, a class over an
      environment type [E], with the laws clients may use ([LockLaws]).  Every
      operation that locks or tests a fault point threads a value of [E].
      [Platform] implements the interface with the modelled services.
    - [Results]: result codes.  [RingBuffer], [LinkedList]: ring buffers; linked
      segments and tilings.

    Components (model, then theorems):
    - [Pmm], [PmmSpec]: [kernel/mm/pmm.cpp].  State [PmmState] is the static
      variables, the bitmap as bytes.
    - [Spinlock], [SpinlockSpec]: [kernel/sync/spinlock.cpp].  A machine of
      several CPUs; [kernel_spinlock_acquire] is split at its spin loop into
      [acquire_enter] and [acquire_spin], and the machine steps interleave.
    - [FaultInjection], [FaultRaces]: [kernel/debug/fault_injection.cpp], a call
      on its own and calls interleaved at their atomic accesses.
    - [Handle], [HandleSpec]: [kernel/handle/kernel_handle.cpp].
    - [KernelObjects], [KernelObjectsSpec]: [kernel/handle/kernel_objects.cpp].
    - [Scheduler], [SchedulerSpec]: the run queue, claiming, priorities,
      affinity, waiting and time-outs of [kernel/process/process64.cpp].
    - [ThreadSync], [ThreadSyncSpec]: [kernel/sync/thread_sync.cpp].
    - [Paging], [PagingSpec], [PagingMemory], [PagingRoots]:
      [arch/x86_64/mm/paging.cpp].  Physical memory is a map of 64-bit words; the
      kernel reaches tables at their physical addresses.  [tab] follows a path
      of indices to a table, [tables_ok] says that the tables form a tree.
    - [PagingFamily]: the roots of several processes side by side.
    - [Vm], [VmSpec]: [kernel/mm/vm.cpp].
    - [SurfaceBacking], [SurfaceSpec], [SurfaceHistory]:
      [kernel/graphics/surface_backing.cpp], over [Vm] and [Pmm].  The arena of all
      surfaces is one partly mapped range; [surface_ok] is the invariant.
    - [AddressSpace], [AddressRegions], [AddressSpaceSpec], [AddressIsolation],
      [AccessGate]: [kernel/mm/address_space.cpp].  A call that has to wait at the
      gate of a space answers [None]; [AccessGate] interleaves the atomic
      accesses of the gate over any number of threads.
    - [UserMemory], [Utf8Spec], [UserMemorySpec], [UserMemoryCopies]:
      [kernel/syscall/user_memory.cpp].  [grantable] says when a lease is given,
      [touches] what a call may do with its environment.
    - [Heap], [HeapBlocks], [HeapSteps], [HeapSpec]: [kernel/mm/heap.cpp].
    - [MemFs], [MemFsTree], [MemFsEdit], [MemFsSpec]: [kernel/vfs/vfs_memfs.cpp] and
      the string helpers of [vfs_common.cpp].  [fs_wf] says that the node table
      is a tree, [fs_view] shows it as a map from paths to entries.
    - [Vfs], [VfsSpec], [VfsFiles], [VfsOps], [VfsHistory]: [kernel/vfs/vfs_core.cpp],
      [vfs_open.cpp].  [file_view] shows an open file as bytes with a position;
      [VfsLaws] says what the heap and other backends promise.  [VfsHeap]
      discharges it with the model of the kernel heap.
    - [DriverRecords], [DriverSpec], [DriverHistory]: [kernel/driver/driver_manager.cpp],
      [driver_resource.cpp].  State [DriverState] is the tables of drivers, quiesce
      slots and resources; [driver_ok] is the invariant.
    - [DriverQuiesce]: pinning and quiescing a driver ([driver_manager.cpp]), the
      accesses of any number of threads and of the manager interleaved; each thread
      alone does what the calls of [DriverRecords] do.
    - [DriverVa], [DriverExtents], [DriverVaSpec], [DriverVaHistory]:
      [kernel/driver/driver_va.cpp].  [holds] says which list of extents the array
      carries, [va_ok] that free extents and reservations cut up the arena.
    - [Mailbox], [MailboxSpec], [Ipc], [IpcSpec]: [kernel/ipc/ipc_mailbox.cpp],
      [kernel/ipc/ipc.cpp].
    - [ServiceRegistry], [ServiceRegistrySpec]:
      [kernel/service/service_registry.cpp].
    - [InputQueue]: [kernel/input/input_event_queue.cpp], [input_events.cpp].
    - [Graphics2d], [Graphics2dSpec]: [kernel/graphics/graphics_surface.cpp],
      [graphics_clip.cpp], [graphics_dirty.cpp].
    - [DisplayOwner]: [kernel/graphics/display_owner.cpp], with its theorems.

    ** Correspondence

    Static variables and structs are records, enums and flag words stay
    integers, pointers are addresses or slots with 0 as the null pointer, and
    integers are [Z] with [u32] or [u64] at every operation that can wrap.  A
    function that changes state takes the state and returns it; a function that
    may be turned away by its lock returns the code's failure value then.  Code
    outside a component is reached through a class ([KernelEnv], [HeapVm],
    [TlbHost], [SpaceHost], [ObjectEnv], [ServiceHost], [InputHost], [IpcHost],
    [VfsHost], [DriverHost], [UserHost]); its theorems hold for every instance, and the witnesses use concrete ones.

    ** What the theorems show

    - Memory: in every state reachable from boot the free count is the number
      of clear bits and no reserved block is free; the four allocation routines
      are exact first-fit or next-fit allocators; live heap allocations never
      overlap, whatever the history, and each heap operation changes one
      allocation only (for requests outside 0xFFFFEFD1..0xFFFFFFC0, where the growth
      wraps and breaks this).
    - Page tables: mapping or unmapping a page changes the translation of that
      page and of no other, also when a 2 MiB page is split; mapping succeeds
      with three free blocks, no injected fault and no 1 GiB page in the way; a new root translates as the kernel does, and
      mapping into it never changes a translation of the kernel.  Mapping a
      range that was unmapped is all or nothing, and unmapping it gives every block back.
    - Address spaces: mapping into one space changes nothing that another space
      or the kernel sees; a buffer is found accessible exactly when each of its
      bytes is; adding and removing regions changes the rights of exactly the
      range (with the one exception stated); while a mutator holds the gate no
      user access is in progress, and the gate never deadlocks.
    - User memory: a lease is given exactly for the bytes the process may access;
      every copy touches such bytes only and leaves no lease behind, on every path;
      a structure is consistent although the program changes it during the call;
      strings are terminated; what is copied out is read back; the UTF-8 check
      accepts exactly the encodings of Unicode scalar values.
    - Locks: mutual exclusion, strict class order and deadlock freedom over all
      interleavings of CPUs; the lock services meet the interface that the
      components assume.
    - Capabilities: handle tables refine capability maps, closed tokens stay
      dead for a generation cycle, reference counts equal the open handles,
      shared memory returns what was written.
    - Threads: the run queue is a ring of distinct threads that are ready and
      run nowhere, claiming picks the right one, signals wake the oldest
      waiter; mutexes exclude and semaphores stay in bounds over all
      interleavings of locked sections, units are conserved, unlocking hands
      over, a broadcast ends.
    - Files: the memory file system refines a tree of files and directories,
      listing a directory shows each entry once; a path is served by the
      longest mount that covers it; open files refine byte sequences with a
      position, closing one writes back what it shows; every history of calls
      in which no write ends past 2^31 bytes keeps the table of open files and the
      node table sound, also with the buffers on the kernel heap; growing a buffer
      ends exactly up to 2^31 bytes.
    - Drivers: free extents and reservations partition the image arena after any
      history, allocation is first fit, a release never fails for lack of a slot
      and restores the extents; every active resource belongs to a registered
      driver and names shorter than 32 bytes are unique; a slot that was closed stays
      closed until it is registered again, and a driver found quiet after that has no
      activity and gets none; the wait for it ends; on a slot nobody closed the answer
      of the wait says nothing, and across a re-registration the counting can fail,
      and schedules show both.
    - Display: no two pages of surfaces share a block, none is lost, and the
      statistics are exact after any history; allocating a surface is all or
      nothing.  All drawing tokens belong to one owner, the terminal holds none
      while a window server has the screen, and only the parties of a session
      present to it or release it; when one of them dies the console returns.
    - Messages, services, input and graphics: mailboxes refine bounded queues, a
      send delivers exactly what was written or leaves nothing behind, names
      are unique and found, the input queue keeps the newest events, clipping
      is intersection and no dirty pixel is lost.

    ** Fuel and bounds

    Loops over arrays are [for_range] or structural.  Fuel is used only where a
    loop follows data: the compare-exchange loop of a fault point (one
    iteration decides when a call runs alone, [FaultRaces] bounds it otherwise),
    the input queue's discard loop (one more than the capacity), the hand-over
    and broadcast loops of [ThreadSync] (one round per thread), the merge loop
    of the dirty tracker (each round removes a rectangle), the walks of the
    heap ([walk_fuel], one more than the number of headers in memory) and the
    retire loops of [Vm] and [AddressSpace] (each round retires a page) and
    the walk over the pages of a buffer (their number), the walks of the memory
    file system ([chain_fuel], one more than the nodes; path loops, the length of
    the path), the chunks of a string and the bytes of a UTF-8 text (their
    number) and the doubling of a capacity (32 rounds; [None] where no number
    is enough).  Each is shown to be
    enough, or is bounded by the count it runs to.

    ** Not modelled

    The TLB shoot-down of [kernel/cpu/smp.cpp]; creation and exit of processes and
    threads; system-call marshalling; FAT32 and
    the functions of the virtual file system that print listings; device drivers, the driver loader,
    bindings, driver interrupts and DMA; ACPI and PCI;
    interrupt and processor start-up; the shell, log and boot loader; user
    programs. *)

From stdpp Require Export base list gmap sets numbers fin_sets.
From Stdlib Require Export ZArith Lia Bool.

#[global] Set Default Goal Selector "1".
#[export] Set Warnings "-clear-no-such-hyp,-notation-overridden,-postfix-notation-not-level-1".

Declare Scope kernel_scope.
Delimit Scope kernel_scope with kernel.
#[global] Open Scope Z_scope.

(** ** Record update

    C++ code assigns one field of a struct at a time; [r <| f := v |>] is that
    assignment on a record value.  A record is [Settable] through its
    eta-expansion and every projection then gets a [Setter]. *)

Class Settable (R : Type) := { eta_expand : R -> R }.
Class Setter {R T : Type} (p : R -> T) := { set_field : (T -> T) -> R -> R }.
Arguments set_field {R T} p {Setter} f r.

Ltac solve_setter :=
  lazymatch goal with
  | |- @Setter ?R ?T ?p =>
    let e := constr:(fun r : R =>
      ltac:(let x := eval hnf in (eta_expand r) in exact x)) in
    let s := constr:(fun (f : T -> T) (r : R) =>
      ltac:(let b := eval cbv beta in (e r) in
            lazymatch eval pattern (p r) in b with
            | ?g _ => let t := eval cbv beta in (g (f (p r))) in exact t
            end)) in
    exact {| set_field := s |}
  end.
#[export] Hint Extern 0 (Setter _) => solve_setter : typeclass_instances.

Notation "r <| p := v |>" := (set_field p (fun _ => v) r)
  (at level 1, left associativity, p at level 200, v at level 200,
   format "r <| p  :=  v |>") : kernel_scope.
#[global] Open Scope kernel_scope.

(** ** Machine integers

    A w-bit unsigned integer is a [Z]; [u8], [u16], [u32], [u64] are the
    reductions the C++ conversions and arithmetic perform. *)

Definition u8 (x : Z) : Z := x mod 2 ^ 8.
Definition u16 (x : Z) : Z := x mod 2 ^ 16.
Definition u32 (x : Z) : Z := x mod 2 ^ 32.
Definition u64 (x : Z) : Z := x mod 2 ^ 64.

Definition is_u8 (x : Z) : Prop := 0 <= x < 2 ^ 8.
Definition is_u32 (x : Z) : Prop := 0 <= x < 2 ^ 32.
Definition is_u64 (x : Z) : Prop := 0 <= x < 2 ^ 64.

(** [~mask] on a w-bit operand. *)
Definition not32 (x : Z) : Z := 2 ^ 32 - 1 - x.
Definition not64 (x : Z) : Z := 2 ^ 64 - 1 - x.

(** C truth value of an integer. *)
Definition nonzero (x : Z) : bool := negb (x =? 0).

Create HintDb kernel.
Create Rewrite HintDb kernel_rw.

Lemma u8_small x : is_u8 x -> u8 x = x.
Proof. unfold u8, is_u8. intros. by apply Z.mod_small. Qed.
Lemma u32_small x : is_u32 x -> u32 x = x.
Proof. unfold u32, is_u32. intros. by apply Z.mod_small. Qed.
Lemma u64_small x : is_u64 x -> u64 x = x.
Proof. unfold u64, is_u64. intros. by apply Z.mod_small. Qed.

Lemma u8_range x : is_u8 (u8 x).
Proof. apply Z.mod_pos_bound. lia. Qed.
Lemma u32_range x : is_u32 (u32 x).
Proof. apply Z.mod_pos_bound. lia. Qed.
Lemma u64_range x : is_u64 (u64 x).
Proof. apply Z.mod_pos_bound. lia. Qed.
#[export] Hint Resolve u8_range u32_range u64_range : kernel.

(** Rewrites every wrap whose argument is visibly in range. *)
Ltac unwrap :=
  repeat match goal with
  | |- context [u32 ?x] => rewrite (u32_small x) by (unfold is_u32; lia)
  | |- context [u64 ?x] => rewrite (u64_small x) by (unfold is_u64; lia)
  | |- context [u8 ?x] => rewrite (u8_small x) by (unfold is_u8; lia)
  end.
Ltac unwrap_in H :=
  repeat match type of H with
  | context [u32 ?x] => rewrite (u32_small x) in H by (unfold is_u32; lia)
  | context [u64 ?x] => rewrite (u64_small x) in H by (unfold is_u64; lia)
  | context [u8 ?x] => rewrite (u8_small x) in H by (unfold is_u8; lia)
  end.

(** Boolean comparisons of the code turned into propositions. *)
Ltac bprop :=
  repeat match goal with
  | H : andb _ _ = true |- _ => apply andb_true_iff in H as [? ?]
  | H : andb _ _ = false |- _ => apply andb_false_iff in H as [? | ?]
  | H : orb _ _ = false |- _ => apply orb_false_iff in H as [? ?]
  | H : orb _ _ = true |- _ => apply orb_true_iff in H as [? | ?]
  | H : negb _ = true |- _ => apply negb_true_iff in H
  | H : negb _ = false |- _ => apply negb_false_iff in H
  | H : (_ =? _) = true |- _ => apply Z.eqb_eq in H
  | H : (_ =? _) = false |- _ => apply Z.eqb_neq in H
  | H : (_ <? _) = true |- _ => apply Z.ltb_lt in H
  | H : (_ <? _) = false |- _ => apply Z.ltb_ge in H
  | H : (_ <=? _) = true |- _ => apply Z.leb_le in H
  | H : (_ <=? _) = false |- _ => apply Z.leb_gt in H
  | H : (_ >=? _) = _ |- _ => rewrite Z.geb_leb in H
  | H : (_ >? _) = _ |- _ => rewrite Z.gtb_ltb in H
  | H : nonzero _ = _ |- _ => unfold nonzero in H
  end.

(** Case analysis on the next [if] or [match] of the goal, keeping the equation. *)
Ltac csplit :=
  match goal with
  | |- context [if ?b then _ else _] =>
      lazymatch b with
      | context [if _ then _ else _] => fail
      | _ => let H := fresh "Hif" in destruct b eqn:H
      end
  | |- context [match ?x with _ => _ end] =>
      lazymatch x with
      | context [match _ with _ => _ end] => fail
      | _ => let H := fresh "Hm" in destruct x eqn:H
      end
  end.

(** Case analysis on the outermost [if] of an equation [(if b then _ else _) = r -> G]. *)
Ltac if_eqn H :=
  lazymatch goal with |- (if ?b then _ else _) = _ -> _ => destruct b eqn:H end.

(** Names the answer, the state and the environment of the call a goal of the
    shape [(let '(a, s, e) := call in body) = r -> P] starts with. *)
Ltac call_eqn a s e H :=
  lazymatch goal with |- match ?c with _ => _ end = _ -> _ => destruct c as [[a s] e] eqn:H end.

Lemma list_filter_iff_in {A} (P Q : A -> Prop) `{forall x, Decision (P x), forall x, Decision (Q x)}
    (l : list A) : (forall x, x ∈ l -> P x <-> Q x) -> filter P l = filter Q l.
Proof.
  induction l as [|x l IH]; intros Hpq; [done|].
  rewrite !filter_cons, IH by (intros y Hy; apply Hpq; by right).
  pose proof (Hpq x ltac:(by left)). repeat case_decide; tauto.
Qed.

(** ** Masks and alignment *)

Lemma land_ones_mod x k : 0 <= k -> Z.land x (2 ^ k - 1) = x mod 2 ^ k.
Proof. intros. by rewrite <- Z.land_ones, Z.ones_equiv, Z.sub_1_r by lia. Qed.

(** [x & ~(2^k - 1)] on 64-bit operands clears the low [k] bits. *)
Lemma land_not64 x k : is_u64 x -> 0 <= k <= 64 ->
  Z.land x (not64 (2 ^ k - 1)) = x / 2 ^ k * 2 ^ k.
Proof.
  intros Hx Hk.
  replace (not64 (2 ^ k - 1)) with (Z.shiftl (Z.ones (64 - k)) k).
  2: { unfold not64. rewrite Z.shiftl_mul_pow2, Z.ones_equiv by lia.
       rewrite <- Z.sub_1_r, Z.mul_sub_distr_r, <- Z.pow_add_r by lia.
       replace (64 - k + k) with 64 by lia. lia. }
  rewrite <- Z.shiftr_div_pow2, <- Z.shiftl_mul_pow2 by lia.
  apply Z.bits_inj'. intros n Hn. rewrite Z.land_spec.
  destruct (Z.lt_ge_cases n k) as [Hlt|Hge].
  - rewrite !Z.shiftl_spec_low by lia. apply andb_false_r.
  - rewrite !Z.shiftl_spec_high, Z.shiftr_spec by lia.
    replace (n - k + k) with n by lia.
    destruct (Z.lt_ge_cases n 64).
    + rewrite Z.ones_spec_low by lia. apply andb_true_r.
    + rewrite Z.ones_spec_high by lia.
      replace x with (x mod 2 ^ 64) by (by apply Z.mod_small).
      by rewrite Z.mod_pow2_bits_high by lia.
Qed.

(** [hi << k | lo] with [lo] below [2^k]. *)
Lemma lor_shifted hi lo k : 0 <= k -> 0 <= lo < 2 ^ k ->
  Z.lor (hi * 2 ^ k) lo = hi * 2 ^ k + lo.
Proof.
  intros Hk Hlo. pose proof (Z.add_lor_land (hi * 2 ^ k) lo) as Hs.
  assert (Z.land (hi * 2 ^ k) lo = 0) as Hz; [|lia].
  apply Z.bits_inj'. intros n Hn. rewrite Z.land_spec, Z.bits_0.
  destruct (Z.lt_ge_cases n k).
  - by rewrite Z.mul_pow2_bits_low by lia.
  - replace lo with (lo mod 2 ^ k) by (by apply Z.mod_small).
    by rewrite Z.mod_pow2_bits_high, andb_false_r by lia.
Qed.

(** ** Loops

    [for (i = lo; i < hi; i++) s = body(i, s)] *)

Definition for_range {S : Type} (lo hi : Z) (body : Z -> S -> S) (s : S) : S :=
  foldl (fun s i => body i s) s (seqZ lo (hi - lo)).

Lemma for_range_done {S} lo hi (body : Z -> S -> S) s :
  hi <= lo -> for_range lo hi body s = s.
Proof. intros. unfold for_range. rewrite seqZ_nil by lia. done. Qed.

Lemma for_range_step {S} lo hi (body : Z -> S -> S) s :
  lo < hi -> for_range lo hi body s = for_range (lo + 1) hi body (body lo s).
Proof.
  intros. unfold for_range. rewrite seqZ_cons by lia. simpl.
  replace (Z.pred (hi - lo)) with (hi - (lo + 1)) by lia.
  by replace (Z.succ lo) with (lo + 1) by lia.
Qed.

(** The loop rule: an invariant indexed by the counter. *)
Lemma for_range_inv {S} (I : Z -> S -> Prop) lo hi (body : Z -> S -> S) s :
  lo <= hi -> I lo s ->
  (forall i s, lo <= i < hi -> I i s -> I (i + 1) (body i s)) ->
  I hi (for_range lo hi body s).
Proof.
  intros Hle H0 Hstep.
  remember (Z.to_nat (hi - lo)) as n eqn:Hn. revert lo s Hle H0 Hstep Hn.
  induction n as [|n IH]; intros lo s Hle H0 Hstep Hn.
  - rewrite for_range_done by lia. by replace hi with lo by lia.
  - rewrite for_range_step by lia. apply IH; [lia | | | lia].
    + apply Hstep; [lia | done].
    + intros. apply Hstep; [lia | done].
Qed.

(** A loop that stops at the first index satisfying a test. *)
Fixpoint find_first (p : Z -> bool) (lo : Z) (n : nat) : option Z :=
  match n with
  | O => None
  | S n => if p lo then Some lo else find_first p (lo + 1) n
  end.

Lemma find_first_Some p lo n i :
  find_first p lo n = Some i ->
  lo <= i < lo + Z.of_nat n /\ p i = true /\ forall j, lo <= j < i -> p j = false.
Proof.
  revert lo. induction n as [|n IH]; intros lo; simpl; [done|].
  destruct (p lo) eqn:Hp.
  - intros [= <-]. split_and!; [lia | lia | done | lia].
  - intros (Hr & Hpi & Hlt)%IH. split_and!; [lia | lia | done |].
    intros j Hj. destruct (decide (j = lo)) as [->|]; [done|]. apply Hlt. lia.
Qed.

Lemma find_first_None p lo n :
  find_first p lo n = None -> forall j, lo <= j < lo + Z.of_nat n -> p j = false.
Proof.
  revert lo. induction n as [|n IH]; intros lo; simpl; [lia|].
  destruct (p lo) eqn:Hp; [done|]. intros Hn j Hj.
  destruct (decide (j = lo)) as [->|]; [done|]. apply (IH (lo + 1)); [done | lia].
Qed.

Lemma find_first_is_Some p lo n j :
  lo <= j < lo + Z.of_nat n -> p j = true -> is_Some (find_first p lo n).
Proof.
  intros Hj Hp. destruct (find_first p lo n) eqn:Hf; [done|].
  by rewrite (find_first_None _ _ _ Hf j Hj) in Hp.
Qed.

Lemma find_first_ext p q lo n :
  (forall j, lo <= j < lo + Z.of_nat n -> p j = q j) ->
  find_first p lo n = find_first q lo n.
Proof.
  revert lo. induction n as [|n IH]; intros lo H; simpl; [done|].
  rewrite H by lia. destruct (q lo); [done|]. apply IH. intros. apply H. lia.
Qed.

(** ** Arrays

    A C array is a list read with a default (the element type is inhabited;
    integers by 0, so that a C string reads NUL after its characters) and written with list insertion; every access of the code is in range,
    which the components' invariants establish. *)

#[export] Instance Z_zero_inhabited : Inhabited Z | 0 := populate 0.

Definition aget {A} `{Inhabited A} (l : list A) (i : Z) : A :=
  nth (Z.to_nat i) l inhabitant.
Definition aset {A} (l : list A) (i : Z) (x : A) : list A :=
  <[Z.to_nat i := x]> l.
Definition alen {A} (l : list A) : Z := Z.of_nat (length l).

Section Arrays.
Context {A : Type} `{Inhabited A}.
Implicit Types l : list A.

Lemma aget_lookup l i x : l !! Z.to_nat i = Some x -> aget l i = x.
Proof. intros Hl. unfold aget. by apply nth_lookup_Some. Qed.
Lemma lookup_aget l i : 0 <= i < alen l -> l !! Z.to_nat i = Some (aget l i).
Proof.
  unfold alen. intros. destruct (lookup_lt_is_Some_2 l (Z.to_nat i)) as [x Hx]; [lia|].
  by rewrite (aget_lookup _ _ _ Hx).
Qed.
Lemma alen_aset l i x : alen (aset l i x) = alen l.
Proof. unfold alen, aset. by rewrite length_insert. Qed.
Lemma aget_aset_eq l i x : 0 <= i < alen l -> aget (aset l i x) i = x.
Proof. unfold alen. intros. apply aget_lookup. apply list_lookup_insert_eq. lia. Qed.
Lemma aget_aset_ne l i j x : 0 <= i -> 0 <= j -> i <> j -> aget (aset l i x) j = aget l j.
Proof.
  intros. unfold aget. rewrite !nth_lookup. unfold aset.
  rewrite list_lookup_insert_ne by lia. done.
Qed.
Lemma aget_aset l i j x : 0 <= i < alen l -> 0 <= j ->
  aget (aset l i x) j = if decide (i = j) then x else aget l j.
Proof.
  intros. case_decide; [subst; by apply aget_aset_eq | by apply aget_aset_ne; lia].
Qed.
Lemma alen_nonneg l : 0 <= alen l.
Proof. unfold alen. lia. Qed.
Lemma alen_replicate n (x : A) : alen (replicate n x) = Z.of_nat n.
Proof. unfold alen. by rewrite length_replicate. Qed.
Lemma aget_replicate n (x : A) i : 0 <= i < Z.of_nat n -> aget (replicate n x) i = x.
Proof. intros. apply aget_lookup. by apply lookup_replicate_2; lia. Qed.
Lemma array_ext l k : alen l = alen k ->
  (forall i, 0 <= i < alen l -> aget l i = aget k i) -> l = k.
Proof.
  unfold alen. intros Hlen He. apply list_eq. intros i.
  destruct (decide (i < length l)%nat) as [Hi|Hi].
  - rewrite <- (Nat2Z.id i), !lookup_aget; unfold alen; [|lia|lia].
    by rewrite He by (unfold alen; lia).
  - rewrite !lookup_ge_None_2 by lia. done.
Qed.
End Arrays.
#[export] Hint Rewrite @alen_aset @alen_replicate : kernel_rw.

(** ** Counting and in-place loops over arrays *)

(** The number of elements satisfying a test. *)
Fixpoint acount {A} (p : A -> bool) (l : list A) : Z :=
  match l with [] => 0 | x :: l => (if p x then 1 else 0) + acount p l end.

Section Counting.
Context {A : Type} `{Inhabited A}.
Implicit Types (p : A -> bool) (l : list A).

Lemma acount_bounds p l : 0 <= acount p l <= alen l.
Proof. unfold alen. induction l as [|x l IH]; simpl; [lia|]. destruct (p x); lia. Qed.

Lemma acount_app p l k : acount p (l ++ k) = acount p l + acount p k.
Proof. induction l as [|x l IH]; simpl; [done | lia]. Qed.

Lemma acount_aset p l i x : 0 <= i < alen l ->
  acount p (aset l i x)
  = acount p l - (if p (aget l i) then 1 else 0) + (if p x then 1 else 0).
Proof.
  intros Hi. pose proof (lookup_aget l i Hi) as Hl.
  unfold aset. rewrite insert_take_drop by (unfold alen in Hi; lia).
  rewrite <- (take_drop_middle _ _ _ Hl) at 3. rewrite !acount_app. simpl. lia.
Qed.

Lemma acount_pos p l i : 0 <= i < alen l -> p (aget l i) = true -> 0 < acount p l.
Proof.
  intros Hi Hp. pose proof (lookup_aget l i Hi) as Hl.
  rewrite <- (take_drop_middle _ _ _ Hl), acount_app. simpl. rewrite Hp.
  pose proof (acount_bounds p (take (Z.to_nat i) l)).
  pose proof (acount_bounds p (drop (S (Z.to_nat i)) l)). lia.
Qed.

Lemma acount_zero p l : acount p l = 0 -> forall i, 0 <= i < alen l -> p (aget l i) = false.
Proof.
  intros Hz i Hi. destruct (p (aget l i)) eqn:Hp; [|done].
  pose proof (acount_pos p l i Hi Hp). lia.
Qed.

Lemma acount_none p l : (forall i, 0 <= i < alen l -> p (aget l i) = false) -> acount p l = 0.
Proof.
  induction l as [|x l IH]; intros Hf; [done|]. simpl.
  pose proof (Hf 0 ltac:(unfold alen; simpl; lia)) as H0. unfold aget in H0. simpl in H0.
  rewrite H0, IH; [done|]. intros i Hi. unfold alen in *. simpl in *.
  pose proof (Hf (i + 1) ltac:(lia)) as H1. unfold aget in *.
  replace (Z.to_nat (i + 1)) with (S (Z.to_nat i)) in H1 by lia. done.
Qed.

Lemma acount_full p l : acount p l = alen l <-> forall i, 0 <= i < alen l -> p (aget l i) = true.
Proof.
  assert (acount p l + acount (fun x => negb (p x)) l = alen l) as Hsum.
  { unfold alen. induction l as [|x l IH]; simpl; [done|]. destruct (p x); simpl; lia. }
  split.
  - intros Hf i Hi. apply negb_false_iff.
    apply (acount_zero (fun x => negb (p x)) l); [lia | done].
  - intros Hf. rewrite (acount_none (fun x => negb (p x))) in Hsum; [lia|].
    intros i Hi. by rewrite Hf.
Qed.

Lemma acount_replicate p n x : acount p (replicate n x) = if p x then Z.of_nat n else 0.
Proof. induction n as [|n IH]; cbn [replicate acount]; [by case_match|]. rewrite IH. destruct (p x); lia. Qed.
End Counting.

(** An array whose first [i] elements have been replaced by [f] of them. *)
Definition mapped {A} (f : A -> A) (i : Z) (l : list A) : list A :=
  (f <$> take (Z.to_nat i) l) ++ drop (Z.to_nat i) l.

Section Mapped.
Context {A : Type} `{Inhabited A}.
Implicit Types (f : A -> A) (l : list A).

Lemma mapped_0 f l : mapped f 0 l = l.
Proof. done. Qed.
Lemma mapped_all f i l : alen l <= i -> mapped f i l = f <$> l.
Proof.
  unfold alen, mapped. intros. by rewrite take_ge, drop_ge, app_nil_r by lia.
Qed.
Lemma alen_mapped f i l : alen (mapped f i l) = alen l.
Proof.
  unfold alen, mapped. rewrite length_app, length_fmap, length_take, length_drop. lia.
Qed.
Lemma aget_mapped f i l : 0 <= i < alen l -> aget (mapped f i l) i = aget l i.
Proof.
  unfold alen. intros Hi. apply aget_lookup. unfold mapped.
  rewrite lookup_app_r; rewrite length_fmap, length_take; [|lia].
  rewrite lookup_drop. rewrite <- (lookup_aget l i) by (unfold alen; lia). f_equal. lia.
Qed.
Lemma aset_mapped f i l : 0 <= i < alen l ->
  aset (mapped f i l) i (f (aget l i)) = mapped f (i + 1) l.
Proof.
  intros Hi. pose proof (lookup_aget l i Hi) as Hl. unfold alen in Hi. unfold aset, mapped.
  rewrite insert_app_r_alt; rewrite length_fmap, length_take; [|lia].
  replace (Z.to_nat i - Z.to_nat i `min` length l)%nat with 0%nat by lia.
  replace (Z.to_nat (i + 1)) with (S (Z.to_nat i)) by lia.
  rewrite (take_S_r _ _ _ Hl), fmap_app, <- app_assoc. f_equal.
  by rewrite (drop_S _ _ _ Hl).
Qed.
Lemma mapped_skip f i l : 0 <= i < alen l -> f (aget l i) = aget l i ->
  mapped f (i + 1) l = mapped f i l.
Proof.
  intros Hi Hf. rewrite <- aset_mapped, Hf by done. unfold aset. apply list_insert_id.
  rewrite (lookup_aget _ i) by (by rewrite alen_mapped). by rewrite aget_mapped.
Qed.
Lemma acount_take (p : A -> bool) l i : 0 <= i < alen l ->
  acount p (take (Z.to_nat (i + 1)) l)
  = acount p (take (Z.to_nat i) l) + if p (aget l i) then 1 else 0.
Proof.
  intros Hi. pose proof (lookup_aget l i Hi) as Hl.
  replace (Z.to_nat (i + 1)) with (S (Z.to_nat i)) by lia.
  rewrite (take_S_r _ _ _ Hl), acount_app. simpl. lia.
Qed.
Lemma acount_take_all (p : A -> bool) l i : alen l <= i ->
  acount p (take (Z.to_nat i) l) = acount p l.
Proof. unfold alen. intros. by rewrite take_ge by lia. Qed.
Lemma acount_fmap (p : A -> bool) f l : acount p (f <$> l) = acount (fun x => p (f x)) l.
Proof. induction l as [|x l IH]; [done|]. rewrite fmap_cons. cbn [acount]. by rewrite IH. Qed.
Lemma acount_ext (p q : A -> bool) l : (forall x, p x = q x) -> acount p l = acount q l.
Proof. intros He. induction l as [|x l IH]; simpl; [done|]. by rewrite He, IH. Qed.
Lemma acount_split (p q : A -> bool) l :
  acount p l = acount (fun x => p x && q x) l + acount (fun x => p x && negb (q x)) l.
Proof. induction l as [|x l IH]; simpl; [done|]. destruct (p x), (q x); simpl; lia. Qed.
Lemma aget_fmap f l i : 0 <= i < alen l -> aget (f <$> l) i = f (aget l i).
Proof.
  intros Hi. apply aget_lookup. by rewrite list_lookup_fmap, (lookup_aget l i Hi).
Qed.
Lemma alen_fmap f l : alen (f <$> l) = alen l.
Proof. unfold alen. by rewrite length_fmap. Qed.

(** Folding over the elements already visited. *)
Lemma foldl_take {B} (g : B -> A -> B) b l i : 0 <= i < alen l ->
  foldl g b (take (Z.to_nat (i + 1)) l) = g (foldl g b (take (Z.to_nat i) l)) (aget l i).
Proof.
  intros Hi. pose proof (lookup_aget l i Hi) as Hl.
  replace (Z.to_nat (i + 1)) with (S (Z.to_nat i)) by lia.
  by rewrite (take_S_r _ _ _ Hl), foldl_app.
Qed.
Lemma foldl_take_all {B} (g : B -> A -> B) b l i : alen l <= i ->
  foldl g b (take (Z.to_nat i) l) = foldl g b l.
Proof. unfold alen. intros. by rewrite take_ge by lia. Qed.
End Mapped.
#[export] Hint Rewrite @alen_fmap @alen_mapped : kernel_rw.

(** ** Sums *)

Fixpoint asum {A} (g : A -> Z) (l : list A) : Z :=
  match l with [] => 0 | c :: l => g c + asum g l end.

Section Sums.
Context {A : Type}.
Implicit Types (g h : A -> Z) (l : list A).

Lemma asum_app g l1 l2 : asum g (l1 ++ l2) = asum g l1 + asum g l2.
Proof. induction l1; simpl; lia. Qed.
Lemma asum_aset `{Inhabited A} g l i c : 0 <= i < alen l -> asum g (aset l i c) = asum g l - g (aget l i) + g c.
Proof.
  intros Hi. pose proof (lookup_aget l i Hi) as Hl. unfold aset.
  rewrite <- (take_drop_middle _ _ _ Hl) at 2. rewrite insert_take_drop by (by eapply lookup_lt_Some).
  rewrite !asum_app. simpl. lia.
Qed.
Lemma asum_rise g h d l : (forall c, g c <= h c + d) -> asum g l <= asum h l + d * alen l.
Proof.
  intros Hgh. unfold alen. induction l as [|c l IH]; simpl asum; [simpl; lia|].
  specialize (Hgh c). rewrite length_cons, Nat2Z.inj_succ. lia.
Qed.
Lemma asum_nonneg g l : (forall c, c ∈ l -> 0 <= g c) -> 0 <= asum g l.
Proof.
  induction l as [|c l IH]; intros Hg; simpl; [lia|]. pose proof (Hg c ltac:(by left)).
  assert (0 <= asum g l) by (apply IH; intros; apply Hg; by right). lia.
Qed.
Lemma asum_replicate g n c : asum g (replicate n c) = Z.of_nat n * g c.
Proof. induction n as [|n IH]; [done|]. rewrite Nat2Z.inj_succ. cbn [replicate asum]. lia. Qed.
Lemma asum_ext g h l : (forall c, c ∈ l -> g c = h c) -> asum g l = asum h l.
Proof.
  induction l as [|c l IH]; intros Hgh; [done|]. simpl. rewrite Hgh by (by left). f_equal. apply IH.
  intros. apply Hgh. by right.
Qed.
End Sums.
