(* ===== verification/KernelEnv.v ===== *)
(** * The services every kernel component relies on

    Kernel components call two services outside themselves: the interrupt-safe
    spinlocks of [kernel/sync/spinlock.cpp] and the diagnostic fault points of
    [kernel/debug/fault_injection.cpp].  The components are modelled and proved
    against this interface; [FaultInjection] and [Spinlock] model the two
    services and [Platform] instantiates the interface with them. *)

From S2P Require Import Prelude.

(** The address of a [KernelSpinlock] object. *)
Definition lock_ref : Type := Z.

Class KernelEnv (E : Type) := {
  (** [kernel_spinlock_init(lock, lock_class, name)]. *)
  kernel_spinlock_setup : lock_ref -> Z -> E -> E;
  (** [kernel_spinlock_acquire(lock, &token)]: whether the lock was taken. *)
  kernel_spinlock_acquire : lock_ref -> E -> bool * E;
  (** [kernel_spinlock_release(lock, &token)], with the token of the acquire. *)
  kernel_spinlock_release : lock_ref -> E -> E;
  (** [kernel_fault_injection_should_fail(point)]. *)
  kernel_fault_injection_should_fail : Z -> E -> bool * E;
}.

(** Fault points, [include/kernel/fault_injection.h]. *)
Definition KERNEL_FAULT_POINT_PMM : Z := 0.
Definition KERNEL_FAULT_POINT_HEAP : Z := 1.
Definition KERNEL_FAULT_POINT_MAILBOX : Z := 3.
Definition KERNEL_FAULT_POINT_SERVICE : Z := 4.
Definition KERNEL_FAULT_POINT_HANDLE : Z := 5.
Definition KERNEL_FAULT_POINT_SHARED_MEMORY : Z := 6.
Definition KERNEL_FAULT_POINT_THREAD_WAIT : Z := 11.
Definition KERNEL_FAULT_POINT_SYNC_OBJECT : Z := 12.
Definition KERNEL_FAULT_POINT_SCHEDULER_CLAIM : Z := 16.
Definition KERNEL_FAULT_POINT_COUNT : Z := 31.

(** The quiet environment: locks are free and no fault point is armed. *)
#[export] Instance quiet_env : KernelEnv unit := {|
  kernel_spinlock_setup _ _ e := e;
  kernel_spinlock_acquire _ e := (true, e);
  kernel_spinlock_release _ e := e;
  kernel_fault_injection_should_fail _ e := (false, e);
|}.

Lemma quiet_no_fault point : kernel_fault_injection_should_fail point tt = (false, tt).
Proof. reflexivity. Qed.

(** ** Locked sections

    The shape of the short critical sections of the components: when the lock
    is refused the function returns [fail]; otherwise the body runs on the
    component's state and the lock is released on every path. *)

Section WithLock.
Context {E S A : Type} `{KernelEnv E}.

Definition with_lock (l : lock_ref) (fail : A) (body : S -> A * S) (s : S) (e : E) : A * S * E :=
  let '(ok, e) := kernel_spinlock_acquire l e in
  if ok then let '(a, s) := body s in (a, s, kernel_spinlock_release l e) else (fail, s, e).

(** The same for a body that calls the environment while it holds the lock. *)
Definition with_lock_env (l : lock_ref) (fail : A) (body : S -> E -> A * S * E) (s : S) (e : E)
    : A * S * E :=
  let '(ok, e) := kernel_spinlock_acquire l e in
  if ok then let '(a, s, e) := body s e in (a, s, kernel_spinlock_release l e) else (fail, s, e).

(** A property of the answer and the new state that the body and the refusal
    both establish. *)
Lemma with_lock_inv (P : A -> S -> Prop) l fail body s e :
  P fail s -> P (body s).1 (body s).2 ->
  P (with_lock l fail body s e).1.1 (with_lock l fail body s e).1.2.
Proof.
  intros Hf Hb. unfold with_lock. destruct (kernel_spinlock_acquire l e) as [[] e1]; [|done].
  by destruct (body s).
Qed.

(** Where the lock is granted the function is its body. *)
Lemma with_lock_granted l fail body s e e1 :
  kernel_spinlock_acquire l e = (true, e1) ->
  with_lock l fail body s e = (body s, kernel_spinlock_release l e1).
Proof. intros Hl. unfold with_lock. rewrite Hl. by destruct (body s). Qed.
Lemma with_lock_refused l fail body s e e1 :
  kernel_spinlock_acquire l e = (false, e1) -> with_lock l fail body s e = (fail, s, e1).
Proof. intros Hl. unfold with_lock. by rewrite Hl. Qed.
End WithLock.

(** ** When locks are granted

    [ready e l]: in state [e] the running CPU may take [l].  A component that
    takes its locks one at a time and gives each back before it takes the next
    keeps every lock ready. *)
Class LockLaws (E : Type) `{KernelEnv E} := {
  ready : E -> lock_ref -> Prop;
  ready_acquire e l : ready e l -> exists e1, kernel_spinlock_acquire l e = (true, e1) /\
    forall l', ready e l' -> ready (kernel_spinlock_release l e1) l';
  ready_fault e l point : ready e l -> ready (kernel_fault_injection_should_fail point e).2 l;
  (** the same when the fault point is tested inside a locked section *)
  ready_fault_held e l point l' : ready (kernel_spinlock_release l e) l' ->
    ready (kernel_spinlock_release l (kernel_fault_injection_should_fail point e).2) l';
}.

#[export] Instance quiet_laws : LockLaws unit.
Proof.
  refine {| ready _ _ := True |}; [|done|done]. intros [] l _. by exists tt.
Defined.

Section WithLockReady.
Context {E S A : Type} `{LockLaws E}.

(** A locked section whose lock is ready runs its body, and every lock that was
    ready still is. *)
Lemma with_lock_ready l (fail : A) (body : S -> A * S) s e : ready e l ->
  exists e', with_lock l fail body s e = (body s, e') /\ forall l', ready e l' -> ready e' l'.
Proof.
  intros (e1 & Ha & Hr)%ready_acquire. exists (kernel_spinlock_release l e1).
  by rewrite (with_lock_granted _ _ _ _ _ _ Ha).
Qed.
End WithLockReady.

