(* ===== verification/Pmm.v ===== *)
(** * Physical memory manager ([kernel/mm/pmm.cpp])

    The bitmap allocator of 4 KiB physical blocks: its state (the static
    variables of the file), the helpers that mark blocks and ranges, the
    initialisation from the firmware memory map and the allocation and release
    entry points.  The abstract view is the set of free block numbers. *)

From S2P Require Import Prelude KernelEnv.

(** ** Constants ([include/kernel/mm/pmm.h], [include/kernel/boot_info.h]) *)

Definition PMM_PAGE_SIZE : Z := 4096.
Definition PMM_MAX_RAM_SIZE : Z := 512 * 1024 * 1024.
Definition PMM_TOTAL_BLOCKS : Z := PMM_MAX_RAM_SIZE / PMM_PAGE_SIZE.
Definition PMM_BITMAP_SIZE : Z := PMM_TOTAL_BLOCKS / 8.
Definition E820_TYPE_USABLE : Z := 1.
Definition LOW_MEMORY_RESERVE_SIZE : Z := 2 * 1024 * 1024.
Definition BOOT_INFO_MAGIC : Z := 0x4649424D.
Definition E820_MAX_ENTRIES : Z := 128.
Definition BOOT_RESERVED_RANGE_MAX : Z := 16.
Definition sizeof_BootInfo : Z := 952.
Definition sizeof_BootReservedRange : Z := 24.

(** ** Boot information *)

Record E820Entry := {
  base_low : Z; base_high : Z; length_low : Z; length_high : Z;
  e820_type : Z; acpi_attrs : Z;
}.
#[export] Instance E820Entry_inhabited : Inhabited E820Entry :=
  populate {| base_low := 0; base_high := 0; length_low := 0; length_high := 0;
              e820_type := 0; acpi_attrs := 0 |}.

Record BootReservedRange := { range_base : Z; range_size : Z }.
#[export] Instance BootReservedRange_inhabited : Inhabited BootReservedRange :=
  populate {| range_base := 0; range_size := 0 |}.

(** The fields of [BootInfo] this component reads; [memory_map] is the array
    [memory_map_addr] points to. *)
Record BootInfo := {
  magic : Z;
  bi_size : Z;
  kernel_load_addr : Z;
  kernel_sector_count : Z;
  kernel_file_size : Z;
  memory_map : list E820Entry;
  memory_map_entry_count : Z;
  reserved_range_count : Z;
  reserved_range_entry_size : Z;
  reserved_ranges : list BootReservedRange;
}.

(** ** State: the static variables of the file *)

Record PmmState := {
  memory_bitmap64 : list Z;
  free_blocks64 : Z;
  next_free_hint64 : Z;
  alloc_requests64 : Z;
  alloc_contiguous_requests64 : Z;
  alloc_failures64 : Z;
  alloc_scan_steps64 : Z;
  free_requests64 : Z;
  peak_used_blocks64 : Z;
}.
#[export] Instance PmmState_settable : Settable PmmState := {| eta_expand s := {|
  memory_bitmap64 := memory_bitmap64 s; free_blocks64 := free_blocks64 s;
  next_free_hint64 := next_free_hint64 s; alloc_requests64 := alloc_requests64 s;
  alloc_contiguous_requests64 := alloc_contiguous_requests64 s;
  alloc_failures64 := alloc_failures64 s; alloc_scan_steps64 := alloc_scan_steps64 s;
  free_requests64 := free_requests64 s; peak_used_blocks64 := peak_used_blocks64 s |} |}.

(** ** Bitmap accessors *)

Definition mmap_set64 (bit : Z) (bm : list Z) : list Z :=
  aset bm (bit / 8) (u8 (Z.lor (aget bm (bit / 8)) (Z.shiftl 1 (bit mod 8)))).

Definition mmap_unset64 (bit : Z) (bm : list Z) : list Z :=
  aset bm (bit / 8) (u8 (Z.land (aget bm (bit / 8)) (Z.lnot (Z.shiftl 1 (bit mod 8))))).

Definition mmap_test64 (bit : Z) (bm : list Z) : Z :=
  Z.land (aget bm (bit / 8)) (Z.shiftl 1 (bit mod 8)).

Definition align_up64 (value align : Z) : Z :=
  Z.land (u64 (value + align - 1)) (not64 (align - 1)).

Definition align_down64 (value align : Z) : Z :=
  Z.land value (not64 (align - 1)).

(** ** Marking *)

Definition reset_stats64 (s : PmmState) : PmmState :=
  s <| next_free_hint64 := 0 |> <| alloc_requests64 := 0 |>
    <| alloc_contiguous_requests64 := 0 |> <| alloc_failures64 := 0 |>
    <| alloc_scan_steps64 := 0 |> <| free_requests64 := 0 |>
    <| peak_used_blocks64 := 0 |>.

Definition update_peak_used_blocks64 (s : PmmState) : PmmState :=
  let used := u32 (PMM_TOTAL_BLOCKS - free_blocks64 s) in
  if peak_used_blocks64 s <? used then s <| peak_used_blocks64 := used |> else s.

Definition mark_all_used64 (s : PmmState) : PmmState :=
  s <| memory_bitmap64 :=
         for_range 0 PMM_BITMAP_SIZE (fun i bm => aset bm i 0xFF) (memory_bitmap64 s) |>
    <| free_blocks64 := 0 |> <| next_free_hint64 := 0 |>.

Definition mark_block_used64 (index : Z) (s : PmmState) : PmmState :=
  if PMM_TOTAL_BLOCKS <=? index then s
  else if nonzero (mmap_test64 index (memory_bitmap64 s)) then s
  else
    let s := s <| memory_bitmap64 := mmap_set64 index (memory_bitmap64 s) |> in
    let s := if 0 <? free_blocks64 s
             then s <| free_blocks64 := u32 (free_blocks64 s - 1) |> else s in
    update_peak_used_blocks64 s.

Definition mark_block_free64 (index : Z) (s : PmmState) : PmmState :=
  if PMM_TOTAL_BLOCKS <=? index then s
  else if nonzero (mmap_test64 index (memory_bitmap64 s)) then
    let s := s <| memory_bitmap64 := mmap_unset64 index (memory_bitmap64 s) |> in
    let s := s <| free_blocks64 := u32 (free_blocks64 s + 1) |> in
    if index <? next_free_hint64 s then s <| next_free_hint64 := index |> else s
  else s.

Definition mark_range_used64 (start end_ : Z) (s : PmmState) : PmmState :=
  if end_ <=? start then s
  else
    let first_block := align_down64 start PMM_PAGE_SIZE / PMM_PAGE_SIZE in
    let last_block := align_up64 end_ PMM_PAGE_SIZE / PMM_PAGE_SIZE in
    let last_block := if PMM_TOTAL_BLOCKS <? last_block then PMM_TOTAL_BLOCKS
                      else last_block in
    for_range first_block last_block (fun i => mark_block_used64 (u32 i)) s.

Definition mark_range_size_used64 (start size : Z) (s : PmmState) : PmmState :=
  if size =? 0 then s
  else
    let end_ := u64 (start + size) in
    let end_ := if end_ <? start then PMM_MAX_RAM_SIZE else end_ in
    mark_range_used64 start end_ s.

Definition mark_range_free64 (start end_ : Z) (s : PmmState) : PmmState :=
  let first_block := align_up64 start PMM_PAGE_SIZE / PMM_PAGE_SIZE in
  let last_block := align_down64 end_ PMM_PAGE_SIZE / PMM_PAGE_SIZE in
  if PMM_TOTAL_BLOCKS <=? first_block then s
  else
    let last_block := if PMM_TOTAL_BLOCKS <? last_block then PMM_TOTAL_BLOCKS
                      else last_block in
    if last_block <=? first_block then s
    else for_range first_block last_block (fun i => mark_block_free64 (u32 i)) s.

(** ** Initialisation *)

Definition e820_base (entry : E820Entry) : Z :=
  Z.lor (u64 (Z.shiftl (base_high entry) 32)) (base_low entry).

Definition e820_entry_end64 (entry : E820Entry) : Z :=
  let base := e820_base entry in
  let length := Z.lor (u64 (Z.shiftl (length_high entry) 32)) (length_low entry) in
  let end_ := u64 (base + length) in
  if (end_ <? base) || (PMM_MAX_RAM_SIZE <? end_) then PMM_MAX_RAM_SIZE else end_.

Definition kernel_reserved_size64 (boot_info : BootInfo) : Z :=
  if nonzero (kernel_file_size boot_info) then kernel_file_size boot_info
  else if nonzero (kernel_sector_count boot_info)
       then u32 (kernel_sector_count boot_info * 512)
  else 0.

Definition reserve_boot_info_ranges64 (boot_info : BootInfo) (s : PmmState) : PmmState :=
  let kernel_size := kernel_reserved_size64 boot_info in
  let s := if nonzero (kernel_load_addr boot_info) && nonzero kernel_size
           then mark_range_size_used64 (kernel_load_addr boot_info) kernel_size s
           else s in
  if (bi_size boot_info <? sizeof_BootInfo)
     || (reserved_range_entry_size boot_info <? sizeof_BootReservedRange)
  then s
  else
    let count := reserved_range_count boot_info in
    let count := if BOOT_RESERVED_RANGE_MAX <? count then BOOT_RESERVED_RANGE_MAX
                 else count in
    for_range 0 count
      (fun i s => let range := aget (reserved_ranges boot_info) i in
                  mark_range_size_used64 (range_base range) (range_size range) s) s.

Definition init_from_e820_64 (boot_info : option BootInfo) (s : PmmState) : bool * PmmState :=
  match boot_info with
  | None => (false, s)
  | Some boot_info =>
    if negb (magic boot_info =? BOOT_INFO_MAGIC)
       || (memory_map_entry_count boot_info =? 0) then (false, s)
    else
      let entries := memory_map boot_info in
      let count := memory_map_entry_count boot_info in
      let count := if E820_MAX_ENTRIES <? count then E820_MAX_ENTRIES else count in
      let s := mark_all_used64 s in
      let s := for_range 0 count
        (fun i s =>
           let entry := aget entries i in
           if negb (e820_type entry =? E820_TYPE_USABLE) then s
           else
             let base := e820_base entry in
             let end_ := e820_entry_end64 entry in
             if PMM_MAX_RAM_SIZE <=? base then s
             else mark_range_free64 base end_ s) s in
      let s := mark_range_used64 0 LOW_MEMORY_RESERVE_SIZE s in
      (true, reserve_boot_info_ranges64 boot_info s)
  end.

Definition pmm_init (boot_info : option BootInfo) (s : PmmState) : PmmState :=
  let s := reset_stats64 s in
  let '(ok, s) := init_from_e820_64 boot_info s in
  let s := if ok then s else mark_all_used64 s in
  update_peak_used_blocks64 s.

(** ** Allocation *)

Definition count_failure (s : PmmState) : PmmState :=
  s <| alloc_failures64 := u64 (alloc_failures64 s + 1) |>.
Definition count_scan_step (s : PmmState) : PmmState :=
  s <| alloc_scan_steps64 := u64 (alloc_scan_steps64 s + 1) |>.
Definition wrap_hint (s : PmmState) : PmmState :=
  if PMM_TOTAL_BLOCKS <=? next_free_hint64 s then s <| next_free_hint64 := 0 |> else s.

Section Operations.
Context {E : Type} `{KernelEnv E}.

(** The scan of [pmm_alloc_block]; [fuel] counts the iterations left. *)
Fixpoint alloc_block_scan (fuel : nat) (start step : Z) (s : PmmState) : Z * PmmState :=
  match fuel with
  | O => (0, count_failure s)
  | S fuel =>
    let i := u32 (start + step) in
    let i := if PMM_TOTAL_BLOCKS <=? i then u32 (i - PMM_TOTAL_BLOCKS) else i in
    let s := count_scan_step s in
    if nonzero (mmap_test64 i (memory_bitmap64 s))
    then alloc_block_scan fuel start (step + 1) s
    else
      let s := mark_block_used64 i s in
      let s := wrap_hint (s <| next_free_hint64 := u32 (i + 1) |>) in
      (u64 (i * PMM_PAGE_SIZE), s)
  end.

Definition pmm_alloc_block (s : PmmState) (e : E) : Z * PmmState * E :=
  let s := s <| alloc_requests64 := u64 (alloc_requests64 s + 1) |> in
  let '(fault, e) := kernel_fault_injection_should_fail KERNEL_FAULT_POINT_PMM e in
  if fault then (0, count_failure s, e)
  else if free_blocks64 s =? 0 then (0, count_failure s, e)
  else
    let start := next_free_hint64 s in
    let start := if PMM_TOTAL_BLOCKS <=? start then 0 else start in
    let '(addr, s) := alloc_block_scan (Z.to_nat PMM_TOTAL_BLOCKS) start 0 s in
    (addr, s, e).

(** The run scan of [pmm_alloc_blocks]: [i] is the block examined next. *)
Fixpoint alloc_blocks_scan (fuel : nat) (count i run_start run_length : Z)
    (s : PmmState) : Z * PmmState :=
  match fuel with
  | O => (0, count_failure s)
  | S fuel =>
    let s := count_scan_step s in
    if nonzero (mmap_test64 i (memory_bitmap64 s))
    then alloc_blocks_scan fuel count (i + 1) run_start 0 s
    else
      let run_start := if run_length =? 0 then i else run_start in
      let run_length := u32 (run_length + 1) in
      if run_length =? count then
        let s := for_range 0 count (fun j => mark_block_used64 (u32 (run_start + j))) s in
        let s := wrap_hint (s <| next_free_hint64 := u32 (run_start + count) |>) in
        (u64 (run_start * PMM_PAGE_SIZE), s)
      else alloc_blocks_scan fuel count (i + 1) run_start run_length s
  end.

Definition pmm_alloc_blocks (count : Z) (s : PmmState) (e : E) : Z * PmmState * E :=
  let s := s <| alloc_requests64 := u64 (alloc_requests64 s + 1) |>
             <| alloc_contiguous_requests64 := u64 (alloc_contiguous_requests64 s + 1) |> in
  if count =? 0 then (0, count_failure s, e)
  else
    let '(fault, e) := kernel_fault_injection_should_fail KERNEL_FAULT_POINT_PMM e in
    if fault then (0, count_failure s, e)
    else if (free_blocks64 s <? count) || (PMM_TOTAL_BLOCKS <? count)
    then (0, count_failure s, e)
    else
      let '(addr, s) := alloc_blocks_scan (Z.to_nat PMM_TOTAL_BLOCKS) count 0 0 0 s in
      (addr, s, e).

(** The inner [while] of [pmm_alloc_blocks_constrained]. *)
Fixpoint available_scan (fuel : nat) (start count available : Z) (s : PmmState)
    : Z * PmmState :=
  match fuel with
  | O => (available, s)
  | S fuel =>
    if (available <? count)
       && negb (nonzero (mmap_test64 (u32 (start + available)) (memory_bitmap64 s)))
    then available_scan fuel start count (u32 (available + 1)) (count_scan_step s)
    else (available, s)
  end.

(** The outer [for] of [pmm_alloc_blocks_constrained]. *)
Fixpoint constrained_scan (fuel : nat) (count alignment_blocks boundary_bytes
    maximum_address start : Z) (s : PmmState) : Z * PmmState :=
  match fuel with
  | O => (0, count_failure s)
  | S fuel =>
    let next start s := constrained_scan fuel count alignment_blocks boundary_bytes
                          maximum_address (u32 (start + 1)) s in
    let bytes := count * PMM_PAGE_SIZE in
    if negb (u32 (start + count) <=? PMM_TOTAL_BLOCKS) then (0, count_failure s)
    else
      let s := count_scan_step s in
      if nonzero (Z.land start (u32 (alignment_blocks - 1))) then next start s
      else
        let address := start * PMM_PAGE_SIZE in
        if (maximum_address <? address)
           || (u64 (maximum_address - address) <? bytes - 1)
        then (0, count_failure s)
        else if nonzero boundary_bytes
                && negb (address / boundary_bytes =?
                         u64 (address + bytes - 1) / boundary_bytes)
        then next start s
        else
          let '(available, s) := available_scan (Z.to_nat count) start count 0 s in
          if negb (available =? count) then next (u32 (start + available)) s
          else
            let s := for_range 0 count (fun i => mark_block_used64 (u32 (start + i))) s in
            let s := wrap_hint (s <| next_free_hint64 := u32 (start + count) |>) in
            (address, s)
  end.

Definition pmm_alloc_blocks_constrained (count alignment_blocks boundary_bytes
    maximum_address : Z) (s : PmmState) (e : E) : Z * PmmState * E :=
  let s := s <| alloc_requests64 := u64 (alloc_requests64 s + 1) |>
             <| alloc_contiguous_requests64 := u64 (alloc_contiguous_requests64 s + 1) |> in
  if (count =? 0) || (alignment_blocks =? 0)
     || nonzero (Z.land alignment_blocks (u32 (alignment_blocks - 1)))
     || (free_blocks64 s <? count) || (PMM_TOTAL_BLOCKS <? count)
  then (0, count_failure s, e)
  else
    let '(fault, e) := kernel_fault_injection_should_fail KERNEL_FAULT_POINT_PMM e in
    if fault then (0, count_failure s, e)
    else
      let '(addr, s) := constrained_scan (S (Z.to_nat PMM_TOTAL_BLOCKS)) count
                          alignment_blocks boundary_bytes maximum_address 0 s in
      (addr, s, e).
End Operations.

(** ** Release and queries *)

Definition pmm_free_block (addr : Z) (s : PmmState) : PmmState :=
  let s := s <| free_requests64 := u64 (free_requests64 s + 1) |> in
  mark_block_free64 (u32 (addr / PMM_PAGE_SIZE)) s.

Definition pmm_free_blocks (addr count : Z) (s : PmmState) : PmmState :=
  let s := s <| free_requests64 := u64 (free_requests64 s + 1) |> in
  let block := addr / PMM_PAGE_SIZE in
  for_range 0 count (fun i => mark_block_free64 (u32 (block + i))) s.

Definition pmm_get_total_block_count : Z := PMM_TOTAL_BLOCKS.

Definition pmm_get_free_block_count (s : PmmState) : Z := free_blocks64 s.

Record PmmStats := {
  st_total_blocks : Z; st_free_blocks : Z; st_next_free_hint : Z;
  st_alloc_requests : Z; st_alloc_contiguous_requests : Z; st_alloc_failures : Z;
  st_alloc_scan_steps : Z; st_free_requests : Z; st_peak_used_blocks : Z;
}.

Definition pmm_get_stats (s : PmmState) : PmmStats := {|
  st_total_blocks := PMM_TOTAL_BLOCKS;
  st_free_blocks := free_blocks64 s;
  st_next_free_hint := next_free_hint64 s;
  st_alloc_requests := alloc_requests64 s;
  st_alloc_contiguous_requests := alloc_contiguous_requests64 s;
  st_alloc_failures := alloc_failures64 s;
  st_alloc_scan_steps := alloc_scan_steps64 s;
  st_free_requests := free_requests64 s;
  st_peak_used_blocks := peak_used_blocks64 s;
|}.

Definition pmm_range_is_marked_used (start size : Z) (s : PmmState) : bool :=
  if size =? 0 then true
  else
    let end_ := u64 (start + size) in
    let end_ := if end_ <? start then PMM_MAX_RAM_SIZE else end_ in
    if PMM_MAX_RAM_SIZE <=? start then true
    else
      let end_ := if PMM_MAX_RAM_SIZE <? end_ then PMM_MAX_RAM_SIZE else end_ in
      let first_block := align_down64 start PMM_PAGE_SIZE / PMM_PAGE_SIZE in
      let last_block := align_up64 end_ PMM_PAGE_SIZE / PMM_PAGE_SIZE in
      let last_block := if PMM_TOTAL_BLOCKS <? last_block then PMM_TOTAL_BLOCKS
                        else last_block in
      match find_first (fun i => negb (nonzero (mmap_test64 (u32 i) (memory_bitmap64 s))))
              first_block (Z.to_nat (last_block - first_block)) with
      | Some _ => false
      | None => true
      end.

(** ** The abstract view: the set of free blocks *)

Definition block_used (i : Z) (bm : list Z) : bool := nonzero (mmap_test64 i bm).

Definition free_blocks_of (bm : list Z) : gset Z :=
  list_to_set (filter (fun i => block_used i bm = false) (seqZ 0 PMM_TOTAL_BLOCKS)).

Definition free_set (s : PmmState) : gset Z := free_blocks_of (memory_bitmap64 s).

(** The block numbers [lo, hi). *)
Definition blocks (lo hi : Z) : gset Z := list_to_set (seqZ lo (hi - lo)).

(** The structural invariant: the bitmap has its size, the cached counter is
    the number of clear bits, the next-fit hint names a block. *)
Record pmm_core (s : PmmState) : Prop := {
  core_len : alen (memory_bitmap64 s) = PMM_BITMAP_SIZE;
  core_free : free_blocks64 s = Z.of_nat (size (free_set s));
  core_hint : 0 <= next_free_hint64 s < PMM_TOTAL_BLOCKS;
  core_peak : 0 <= peak_used_blocks64 s <= PMM_TOTAL_BLOCKS;
}.

(** The peak counter bounds the blocks in use. *)
Definition pmm_peak (s : PmmState) : Prop :=
  PMM_TOTAL_BLOCKS - free_blocks64 s <= peak_used_blocks64 s.

Definition pmm_wf (s : PmmState) : Prop := pmm_core s /\ pmm_peak s.

#[global] Arguments PMM_TOTAL_BLOCKS : simpl never.
#[global] Arguments PMM_BITMAP_SIZE : simpl never.
#[global] Arguments for_range : simpl never.

Lemma PMM_TOTAL_val : PMM_TOTAL_BLOCKS = 131072.
Proof. reflexivity. Qed.
Lemma PMM_BITMAP_val : PMM_BITMAP_SIZE = 16384.
Proof. reflexivity. Qed.

Ltac plia :=
  pose proof PMM_TOTAL_val; pose proof PMM_BITMAP_val;
  unfold PMM_PAGE_SIZE, PMM_MAX_RAM_SIZE, is_u32, is_u64 in *; lia.

Lemma elem_of_free_blocks_of i bm :
  i ∈ free_blocks_of bm <-> 0 <= i < PMM_TOTAL_BLOCKS /\ block_used i bm = false.
Proof.
  unfold free_blocks_of. rewrite elem_of_list_to_set, list_elem_of_filter, elem_of_seqZ.
  rewrite Z.add_0_l. tauto.
Qed.

Lemma elem_of_free_set i s :
  i ∈ free_set s <-> 0 <= i < PMM_TOTAL_BLOCKS /\ block_used i (memory_bitmap64 s) = false.
Proof. apply elem_of_free_blocks_of. Qed.

Lemma elem_of_blocks i lo hi : i ∈ blocks lo hi <-> lo <= i < hi.
Proof. unfold blocks. rewrite elem_of_list_to_set, elem_of_seqZ. lia. Qed.

#[global] Opaque free_blocks_of PMM_TOTAL_BLOCKS PMM_BITMAP_SIZE.

Lemma free_set_bound s : free_set s ⊆ blocks 0 PMM_TOTAL_BLOCKS.
Proof. intros i. rewrite elem_of_free_set, elem_of_blocks. naive_solver. Qed.

Lemma size_blocks lo hi : lo <= hi -> size (blocks lo hi) = Z.to_nat (hi - lo).
Proof.
  intros. unfold blocks. rewrite size_list_to_set by apply NoDup_seqZ.
  by rewrite length_seqZ.
Qed.

(** A block number clipped to the managed range. *)
Lemma clip_block (i : Z) :
  ({[i]} : gset Z) ∩ blocks 0 PMM_TOTAL_BLOCKS =
  if decide (0 <= i < PMM_TOTAL_BLOCKS) then {[i]} else ∅.
Proof.
  apply set_eq. intros j. rewrite elem_of_intersection, elem_of_singleton, elem_of_blocks.
  case_decide; set_solver by lia.
Qed.

Lemma free_set_size_le s : Z.of_nat (size (free_set s)) <= PMM_TOTAL_BLOCKS.
Proof.
  pose proof (subseteq_size _ _ (free_set_bound s)) as Hs.
  rewrite size_blocks in Hs by plia. plia.
Qed.

#[global] Opaque blocks.

(** *** Bits *)

Lemma testbit_mask b k : 0 <= k -> nonzero (Z.land b (Z.shiftl 1 k)) = Z.testbit b k.
Proof.
  intros Hk. unfold nonzero.
  destruct (Z.testbit b k) eqn:Hb.
  - apply negb_true_iff, Z.eqb_neq. intros H0.
    assert (Z.testbit (Z.land b (Z.shiftl 1 k)) k = true) as Ht.
    { rewrite Z.land_spec, Hb, Z.shiftl_spec, Z.sub_diag by lia. done. }
    by rewrite H0, Z.bits_0 in Ht.
  - apply negb_false_iff, Z.eqb_eq. apply Z.bits_inj'. intros n Hn.
    rewrite Z.land_spec, Z.bits_0, Z.shiftl_1_l.
    destruct (decide (n = k)) as [->|]; [by rewrite Hb|].
    rewrite Z.pow2_bits_false by done. apply andb_false_r.
Qed.

Lemma testbit_u8 x m : 0 <= m < 8 -> Z.testbit (u8 x) m = Z.testbit x m.
Proof. intros. unfold u8. by rewrite Z.mod_pow2_bits_low by lia. Qed.

Lemma block_used_testbit i bm :
  block_used i bm = Z.testbit (aget bm (i / 8)) (i mod 8).
Proof. unfold block_used, mmap_test64. apply testbit_mask. apply Z.mod_pos_bound. lia. Qed.

Lemma bit_index_eq i j : i / 8 = j / 8 -> i mod 8 = j mod 8 -> i = j.
Proof. intros. pose proof (Z.div_mod i 8). pose proof (Z.div_mod j 8). lia. Qed.

Lemma byte_index i : 0 <= i < PMM_TOTAL_BLOCKS -> 0 <= i / 8 < PMM_BITMAP_SIZE.
Proof.
  intros. rewrite PMM_BITMAP_val. rewrite PMM_TOTAL_val in *. split.
  - apply Z.div_pos; lia.
  - apply Z.div_lt_upper_bound; lia.
Qed.

Section BitmapUpdate.
Context (bm : list Z) (Hlen : alen bm = PMM_BITMAP_SIZE).

Lemma block_used_set i j : 0 <= i < PMM_TOTAL_BLOCKS -> 0 <= j < PMM_TOTAL_BLOCKS ->
  block_used j (mmap_set64 i bm) = (i =? j) || block_used j bm.
Proof.
  intros Hi Hj. rewrite !block_used_testbit. unfold mmap_set64.
  pose proof (byte_index i Hi). pose proof (byte_index j Hj).
  pose proof (Z.mod_pos_bound i 8). pose proof (Z.mod_pos_bound j 8).
  rewrite aget_aset by lia. case_decide as Hb.
  - rewrite testbit_u8, Z.lor_spec, Z.shiftl_1_l, Z.pow2_bits_eqb, <- Hb, orb_comm by lia.
    f_equal. apply eq_true_iff_eq. rewrite !Z.eqb_eq. split; [|by intros ->].
    by apply bit_index_eq.
  - destruct (i =? j) eqn:Hij; bprop; [by subst|done].
Qed.

Lemma block_used_unset i j : 0 <= i < PMM_TOTAL_BLOCKS -> 0 <= j < PMM_TOTAL_BLOCKS ->
  block_used j (mmap_unset64 i bm) = negb (i =? j) && block_used j bm.
Proof.
  intros Hi Hj. rewrite !block_used_testbit. unfold mmap_unset64.
  pose proof (byte_index i Hi). pose proof (byte_index j Hj).
  pose proof (Z.mod_pos_bound i 8). pose proof (Z.mod_pos_bound j 8).
  rewrite aget_aset by lia. case_decide as Hb.
  - rewrite testbit_u8, Z.land_spec, Z.lnot_spec, Z.shiftl_1_l, Z.pow2_bits_eqb,
      <- Hb, andb_comm by lia.
    f_equal. f_equal. apply eq_true_iff_eq. rewrite !Z.eqb_eq. split; [|by intros ->].
    by apply bit_index_eq.
  - destruct (i =? j) eqn:Hij; bprop; [by subst|done].
Qed.

Lemma free_blocks_of_set i : 0 <= i < PMM_TOTAL_BLOCKS ->
  free_blocks_of (mmap_set64 i bm) = free_blocks_of bm ∖ {[i]}.
Proof.
  intros Hi. apply set_eq. intros j.
  rewrite elem_of_difference, elem_of_singleton, !elem_of_free_blocks_of.
  split.
  - intros [Hj Hu]. rewrite block_used_set in Hu by done. bprop. done.
  - intros [[Hj Hu] Hne]. split; [done|]. rewrite block_used_set, Hu by done.
    destruct (i =? j) eqn:?; bprop; [lia|done].
Qed.

Lemma free_blocks_of_unset i : 0 <= i < PMM_TOTAL_BLOCKS ->
  free_blocks_of (mmap_unset64 i bm) = {[i]} ∪ free_blocks_of bm.
Proof.
  intros Hi. apply set_eq. intros j.
  rewrite elem_of_union, elem_of_singleton, !elem_of_free_blocks_of.
  split.
  - intros [Hj Hu]. rewrite block_used_unset in Hu by done. bprop; [by left | by right].
  - intros [->|[Hj Hu]]; (split; [done|]); rewrite block_used_unset by done.
    + by rewrite Z.eqb_refl.
    + rewrite Hu. apply andb_false_r.
Qed.
End BitmapUpdate.

Lemma alen_mmap_set i bm : alen (mmap_set64 i bm) = alen bm.
Proof. apply alen_aset. Qed.
Lemma alen_mmap_unset i bm : alen (mmap_unset64 i bm) = alen bm.
Proof. apply alen_aset. Qed.

(** *** Marking one block *)

(** What an operation may change beside the free set: it keeps the invariant,
    and the peak bound once established. *)
Definition pmm_step_ok (s s' : PmmState) : Prop :=
  pmm_core s' /\ (pmm_peak s -> pmm_peak s').

Lemma pmm_step_ok_refl s : pmm_core s -> pmm_step_ok s s.
Proof. by split. Qed.
Lemma pmm_step_ok_trans s1 s2 s3 :
  pmm_step_ok s1 s2 -> pmm_step_ok s2 s3 -> pmm_step_ok s1 s3.
Proof. unfold pmm_step_ok. naive_solver. Qed.
#[export] Hint Resolve pmm_step_ok_refl : kernel.

Lemma update_peak_spec s : pmm_core s ->
  let s' := update_peak_used_blocks64 s in
  pmm_core s' /\ pmm_peak s' /\ free_set s' = free_set s /\
  next_free_hint64 s' = next_free_hint64 s.
Proof.
  intros [Hl Hf Hh Hp]. pose proof (free_set_size_le s).
  unfold update_peak_used_blocks64, pmm_peak. rewrite u32_small by plia.
  csplit; bprop; simpl; split_and!; try done; try (constructor; simpl; done || plia); plia.
Qed.

Lemma mark_block_used_spec i s : pmm_core s -> 0 <= i ->
  let s' := mark_block_used64 i s in
  pmm_step_ok s s' /\ free_set s' = free_set s ∖ {[i]} /\
  next_free_hint64 s' = next_free_hint64 s.
Proof.
  intros Hc Hi. pose proof Hc as [Hl Hf Hh Hp]. unfold mark_block_used64.
  destruct (PMM_TOTAL_BLOCKS <=? i) eqn:Hr; bprop.
  { split_and!; [auto with kernel | | done]. pose proof (free_set_bound s).
    apply set_eq. intros j. pose proof (elem_of_free_set j s). set_solver by lia. }
  fold (block_used i (memory_bitmap64 s)).
  destruct (block_used i (memory_bitmap64 s)) eqn:Hu.
  { split_and!; [auto with kernel | | done]. pose proof (elem_of_free_set i s).
    apply set_eq. intros j. rewrite elem_of_difference, elem_of_singleton.
    split; [|tauto]. intros Hj. split; [done|]. intros ->. intuition congruence. }
  assert (i ∈ free_set s) as Hin by (apply elem_of_free_set; split; [lia|done]).
  assert (size (free_set s ∖ {[i]}) = size (free_set s) - 1)%nat as Hsz.
  { rewrite size_difference, size_singleton by set_solver. done. }
  assert (size (free_set s) <> 0)%nat as Hnz.
  { intros H0%size_empty_inv. set_solver. }
  pose proof (free_set_size_le s).
  assert (0 < free_blocks64 s) as Hpos by lia.
  cbn zeta. simpl (free_blocks64 _). rewrite (proj2 (Z.ltb_lt _ _) Hpos).
  match goal with |- context [update_peak_used_blocks64 ?x] => set (s1 := x) end.
  assert (free_set s1 = free_set s ∖ {[i]}) as Hset by (apply free_blocks_of_set; done || lia).
  assert (pmm_core s1) as Hc1.
  { constructor; rewrite ?Hset; simpl; [by rewrite alen_mmap_set | | done | done].
    rewrite u32_small by plia. lia. }
  destruct (update_peak_spec s1 Hc1) as (? & ? & -> & ->).
  split_and!; [by split | done | done].
Qed.

Lemma mark_block_free_spec i s : pmm_core s -> 0 <= i ->
  let s' := mark_block_free64 i s in
  pmm_step_ok s s' /\ free_set s' = free_set s ∪ ({[i]} ∩ blocks 0 PMM_TOTAL_BLOCKS) /\
  next_free_hint64 s' <= next_free_hint64 s.
Proof.
  intros Hc Hi. pose proof Hc as [Hl Hf Hh Hp]. unfold mark_block_free64.
  destruct (PMM_TOTAL_BLOCKS <=? i) eqn:Hr; bprop.
  { split_and!; [auto with kernel | | done].
    rewrite clip_block. case_decide; [lia|]. by rewrite (right_id_L ∅ (∪)). }
  rewrite clip_block. case_decide; [|lia].
  fold (block_used i (memory_bitmap64 s)).
  destruct (block_used i (memory_bitmap64 s)) eqn:Hu.
  2: { split_and!; [auto with kernel | | done].
       assert (i ∈ free_set s) by (apply elem_of_free_set; split; [lia|done]).
       set_solver. }
  assert (i ∉ free_set s) as Hin by (rewrite elem_of_free_set; intuition congruence).
  cbn zeta.
  match goal with |- context [next_free_hint64 ?x] => set (s1 := x) end.
  assert (free_set s1 = {[i]} ∪ free_set s) as Hset.
  { apply free_blocks_of_unset; [done|lia]. }
  assert (size (free_set s1) = S (size (free_set s))) as Hsz.
  { rewrite Hset, size_union, size_singleton by set_solver. done. }
  pose proof (free_set_size_le s1).
  assert (pmm_step_ok s s1) as [Hc1 Hp1].
  { split.
    - constructor; rewrite ?Hsz; simpl; [by rewrite alen_mmap_unset | | done | done].
      rewrite u32_small by plia. lia.
    - unfold pmm_peak; simpl. rewrite u32_small by plia. lia. }
  assert (free_set s1 = free_set s ∪ {[i]}) as Hset' by (rewrite Hset; set_solver).
  simpl. csplit; bprop; simpl.
  - split_and!; [|done|lia]. split; [|done].
    destruct Hc1. constructor; simpl; done || lia.
  - split_and!; [by split|done|lia].
Qed.

(** *** Marking ranges *)

Lemma blocks_empty lo hi : hi <= lo -> blocks lo hi = ∅.
Proof. intros. apply set_eq. intros j. rewrite elem_of_blocks. set_solver by lia. Qed.

Lemma blocks_snoc lo i : lo <= i -> blocks lo (i + 1) = blocks lo i ∪ {[i]}.
Proof.
  intros. apply set_eq. intros j.
  rewrite elem_of_union, elem_of_singleton, !elem_of_blocks. lia.
Qed.

Lemma difference_snoc (X A B : gset Z) : X ∖ A ∖ B = X ∖ (A ∪ B).
Proof. set_solver. Qed.
Lemma union_clip_snoc (X A B T : gset Z) : X ∪ (A ∩ T) ∪ (B ∩ T) = X ∪ ((A ∪ B) ∩ T).
Proof. set_solver. Qed.
Lemma difference_empty (X : gset Z) : X ∖ ∅ = X.
Proof. set_solver. Qed.
Lemma union_clip_empty (X T : gset Z) : X ∪ (∅ ∩ T) = X.
Proof. set_solver. Qed.

Section MarkRuns.
Context (g : Z -> Z) (base lo hi : Z).
Context (Hg : forall i, lo <= i < hi -> g i = base + i).
Context (Hbase : 0 <= base + lo) (Hle : lo <= hi).

Lemma mark_run_used s : pmm_core s ->
  let s' := for_range lo hi (fun i => mark_block_used64 (g i)) s in
  pmm_step_ok s s' /\ free_set s' = free_set s ∖ blocks (base + lo) (base + hi) /\
  next_free_hint64 s' = next_free_hint64 s.
Proof.
  intros Hc. cbn zeta.
  apply (for_range_inv (fun i s' => pmm_step_ok s s' /\
    free_set s' = free_set s ∖ blocks (base + lo) (base + i) /\
    next_free_hint64 s' = next_free_hint64 s)); [done | |].
  - rewrite blocks_empty, difference_empty by lia. auto with kernel.
  - intros i s1 Hi (Hok & Hset & Hh). rewrite Hg by done.
    destruct (mark_block_used_spec (base + i) s1) as (Hok' & Hset' & Hh'); [apply Hok|lia|].
    split_and!; [by eapply pmm_step_ok_trans | | by rewrite Hh'].
    rewrite Hset', Hset. replace (base + (i + 1)) with (base + i + 1) by lia.
    by rewrite blocks_snoc, difference_snoc by lia.
Qed.

Lemma mark_run_free s : pmm_core s ->
  let s' := for_range lo hi (fun i => mark_block_free64 (g i)) s in
  pmm_step_ok s s' /\
  free_set s' = free_set s ∪ (blocks (base + lo) (base + hi) ∩ blocks 0 PMM_TOTAL_BLOCKS) /\
  next_free_hint64 s' <= next_free_hint64 s.
Proof.
  intros Hc. cbn zeta.
  apply (for_range_inv (fun i s' => pmm_step_ok s s' /\
    free_set s' = free_set s ∪ (blocks (base + lo) (base + i) ∩ blocks 0 PMM_TOTAL_BLOCKS) /\
    next_free_hint64 s' <= next_free_hint64 s)); [done | |].
  - rewrite (blocks_empty (base + lo)), union_clip_empty by lia.
    split_and!; auto with kernel lia.
  - intros i s1 Hi (Hok & Hset & Hh). rewrite Hg by done.
    destruct (mark_block_free_spec (base + i) s1) as (Hok' & Hset' & Hh'); [apply Hok|lia|].
    split_and!; [by eapply pmm_step_ok_trans | | lia].
    rewrite Hset', Hset. replace (base + (i + 1)) with (base + i + 1) by lia.
    by rewrite blocks_snoc, union_clip_snoc by lia.
Qed.
End MarkRuns.

Lemma align_down_page x : is_u64 x ->
  align_down64 x PMM_PAGE_SIZE / PMM_PAGE_SIZE = x / PMM_PAGE_SIZE.
Proof.
  intros. unfold align_down64. change PMM_PAGE_SIZE with (2 ^ 12).
  rewrite land_not64 by (done || lia). apply Z.div_mul. lia.
Qed.

Lemma align_up_page x :
  align_up64 x PMM_PAGE_SIZE / PMM_PAGE_SIZE = u64 (x + 4095) / PMM_PAGE_SIZE.
Proof.
  unfold align_up64. rewrite <- Z.add_sub_assoc. change (PMM_PAGE_SIZE - 1) with 4095.
  rewrite <- (align_down_page (u64 (x + 4095))) by apply u64_range. done.
Qed.

Lemma free_set_minus_clip s lo hi :
  free_set s ∖ blocks lo (if PMM_TOTAL_BLOCKS <? hi then PMM_TOTAL_BLOCKS else hi) =
  free_set s ∖ blocks lo hi.
Proof.
  destruct (PMM_TOTAL_BLOCKS <? hi) eqn:Hc; bprop; [|done].
  apply set_eq. intros j. rewrite !elem_of_difference, !elem_of_blocks, elem_of_free_set. intuition lia.
Qed.

Lemma mark_range_used_spec start end_ s :
  pmm_core s -> is_u64 start -> is_u64 end_ -> start < end_ ->
  let s' := mark_range_used64 start end_ s in
  pmm_step_ok s s' /\ next_free_hint64 s' = next_free_hint64 s /\
  free_set s' = free_set s ∖
    blocks (start / PMM_PAGE_SIZE) (u64 (end_ + 4095) / PMM_PAGE_SIZE).
Proof.
  intros Hc Hs He Hlt. unfold mark_range_used64.
  rewrite (proj2 (Z.leb_gt _ _) Hlt), align_down_page, align_up_page by done. cbn zeta.
  rewrite <- free_set_minus_clip.
  set (lo := start / PMM_PAGE_SIZE).
  set (hi := if PMM_TOTAL_BLOCKS <? _ then _ else _).
  assert (0 <= lo) by (apply Z.div_pos; plia).
  assert (hi <= PMM_TOTAL_BLOCKS) by (unfold hi; csplit; bprop; lia).
  destruct (Z.le_gt_cases lo hi) as [Hlh|Hlh].
  - destruct (mark_run_used u32 0 lo hi) with (s := s) as (? & ? & ?); try done; try lia.
    intros i Hi. rewrite u32_small; plia.
  - rewrite for_range_done, blocks_empty, difference_empty by lia. auto with kernel.
Qed.

(** The end the code computes for a range, [start + size] saturated on wrap. *)
Definition range_end (start size : Z) : Z :=
  if u64 (start + size) <? start then PMM_MAX_RAM_SIZE else u64 (start + size).

Lemma range_end_u64 start size : is_u64 (range_end start size).
Proof. unfold range_end. csplit; [split; plia | apply u64_range]. Qed.

Lemma mark_range_size_used_spec start size s :
  pmm_core s -> is_u64 start -> is_u64 size ->
  let s' := mark_range_size_used64 start size s in
  pmm_step_ok s s' /\ next_free_hint64 s' = next_free_hint64 s /\
  free_set s' = free_set s ∖
    (if (size =? 0) || (range_end start size <=? start) then ∅ else
     blocks (start / PMM_PAGE_SIZE) (u64 (range_end start size + 4095) / PMM_PAGE_SIZE)).
Proof.
  intros Hc Hs Hz. unfold mark_range_size_used64.
  destruct (size =? 0); simpl.
  { rewrite difference_empty. auto with kernel. }
  fold (range_end start size).
  destruct (range_end start size <=? start) eqn:Hle.
  - unfold mark_range_used64. rewrite Hle, difference_empty. auto with kernel.
  - bprop. by apply mark_range_used_spec; [| | apply range_end_u64 |].
Qed.

Lemma mark_range_free_spec start end_ s :
  pmm_core s -> is_u64 start -> is_u64 end_ ->
  let s' := mark_range_free64 start end_ s in
  pmm_step_ok s s' /\ next_free_hint64 s' <= next_free_hint64 s /\
  free_set s' = free_set s ∪
    (blocks (u64 (start + 4095) / PMM_PAGE_SIZE) (end_ / PMM_PAGE_SIZE)
     ∩ blocks 0 PMM_TOTAL_BLOCKS).
Proof.
  intros Hc Hs He. unfold mark_range_free64. rewrite align_down_page, align_up_page by done.
  set (lo := u64 _ / PMM_PAGE_SIZE).
  assert (0 <= lo) as Hlo.
  { apply Z.div_pos; [apply u64_range | plia]. }
  assert (forall hi, hi <= lo \/ PMM_TOTAL_BLOCKS <= lo ->
    blocks lo hi ∩ blocks 0 PMM_TOTAL_BLOCKS = ∅) as Hempty.
  { intros hi Hor. apply set_eq. intros j.
    rewrite elem_of_intersection, !elem_of_blocks. set_solver by lia. }
  destruct (PMM_TOTAL_BLOCKS <=? lo) eqn:Hout; bprop.
  { rewrite Hempty, (right_id_L ∅ (∪)) by lia. auto with kernel lia. }
  cbn zeta. set (hi := if PMM_TOTAL_BLOCKS <? _ then _ else _).
  assert (blocks lo (end_ / PMM_PAGE_SIZE) ∩ blocks 0 PMM_TOTAL_BLOCKS =
          blocks lo hi ∩ blocks 0 PMM_TOTAL_BLOCKS) as ->.
  { unfold hi. destruct (PMM_TOTAL_BLOCKS <? _) eqn:?; bprop; [|done].
    apply set_eq. intros j. rewrite !elem_of_intersection, !elem_of_blocks. lia. }
  assert (hi <= PMM_TOTAL_BLOCKS) by (unfold hi; csplit; bprop; lia).
  destruct (hi <=? lo) eqn:Hhi; bprop.
  { rewrite Hempty, (right_id_L ∅ (∪)) by lia. auto with kernel lia. }
  destruct (mark_run_free u32 0 lo hi) with (s := s) as (? & ? & ?); try done; try lia.
  intros i Hi. rewrite u32_small; plia.
Qed.

(** *** Scans *)

(** Two states that differ in the request counters only. *)
Definition same_blocks (s s' : PmmState) : Prop :=
  memory_bitmap64 s' = memory_bitmap64 s /\ free_blocks64 s' = free_blocks64 s /\
  next_free_hint64 s' = next_free_hint64 s /\ peak_used_blocks64 s' = peak_used_blocks64 s.

#[export] Instance same_blocks_trans : PreOrder same_blocks.
Proof. split; [done|]. unfold same_blocks. intros ???. intuition congruence. Qed.

Lemma same_blocks_ok s s' : same_blocks s s' -> pmm_core s ->
  pmm_step_ok s s' /\ free_set s' = free_set s.
Proof.
  intros (Hb & Hf & Hh & Hp) [? ? ? ?]. unfold pmm_step_ok, pmm_peak, free_set.
  rewrite Hb, Hf, Hp. split_and!; [|done|done].
  constructor; unfold free_set; rewrite ?Hb, ?Hf, ?Hh, ?Hp; done.
Qed.

Lemma same_blocks_failure s : same_blocks s (count_failure s).
Proof. done. Qed.
Lemma same_blocks_scan s : same_blocks s (count_scan_step s).
Proof. done. Qed.
#[export] Hint Resolve same_blocks_failure same_blocks_scan : kernel.

Lemma set_hint_ok s h : pmm_core s -> 0 <= h <= PMM_TOTAL_BLOCKS ->
  let s' := wrap_hint (s <| next_free_hint64 := h |>) in
  pmm_step_ok s s' /\ free_set s' = free_set s.
Proof.
  intros [? ? ? ?] Hh. unfold wrap_hint, pmm_step_ok, pmm_peak. simpl.
  csplit; bprop; simpl; (split_and!; [|done|done]); constructor; simpl; done || plia.
Qed.

(** The effect of a successful allocation of the blocks [i, i + count). *)
Definition takes (s s' : PmmState) (i count : Z) : Prop :=
  pmm_step_ok s s' /\ blocks i (i + count) ⊆ free_set s /\
  free_set s' = free_set s ∖ blocks i (i + count).

Lemma takes_same s s1 s' i count : pmm_core s ->
  same_blocks s s1 -> takes s1 s' i count -> takes s s' i count.
Proof.
  intros Hc Hsame (Hok & Hin & Hset). destruct (same_blocks_ok _ _ Hsame Hc) as [Hok1 Heq].
  rewrite Heq in *. split_and!; [by eapply pmm_step_ok_trans | done | done].
Qed.

(** Marking a free run and moving the hint past it takes the run. *)
Lemma take_run s i count : pmm_core s -> 0 <= i -> 0 <= count ->
  i + count <= PMM_TOTAL_BLOCKS -> blocks i (i + count) ⊆ free_set s ->
  let s1 := for_range 0 count (fun j => mark_block_used64 (u32 (i + j))) s in
  takes s (wrap_hint (s1 <| next_free_hint64 := u32 (i + count) |>)) i count.
Proof.
  intros Hc Hi Hcount Hle Hin. cbn zeta.
  destruct (mark_run_used (fun j => u32 (i + j)) i 0 count) with (s := s)
    as (Hok & Hset & _); try done; try lia.
  { intros j Hj. rewrite u32_small; plia. }
  rewrite Z.add_0_r in Hset. rewrite u32_small by plia.
  set (s1 := for_range _ _ _ _) in *.
  destruct (set_hint_ok s1 (i + count)) as [Hok' Hset']; [apply Hok | lia |].
  split_and!; [by eapply pmm_step_ok_trans | done | by rewrite Hset'].
Qed.

Lemma take_block s i : pmm_core s -> i ∈ free_set s ->
  takes s (wrap_hint ((mark_block_used64 i s) <| next_free_hint64 := u32 (i + 1) |>)) i 1.
Proof.
  intros Hc Hin. pose proof Hin as [Hi _]%elem_of_free_set.
  destruct (mark_block_used_spec i s) as (Hok & Hset & _); [done | lia |].
  rewrite u32_small by plia.
  destruct (set_hint_ok (mark_block_used64 i s) (i + 1)) as [Hok' Hset']; [apply Hok | lia |].
  assert (blocks i (i + 1) = {[i]}) as Hb.
  { rewrite blocks_snoc, blocks_empty by lia. set_solver. }
  split_and!; [exact (pmm_step_ok_trans _ _ _ Hok Hok') | rewrite Hb; set_solver | by rewrite Hb, Hset'].
Qed.

Lemma alloc_block_scan_spec fuel start step s :
  pmm_core s -> 0 <= start < PMM_TOTAL_BLOCKS -> 0 <= step ->
  step + Z.of_nat fuel <= PMM_TOTAL_BLOCKS ->
  let at_ k := (start + k) mod PMM_TOTAL_BLOCKS in
  match find_first (fun k => negb (block_used (at_ k) (memory_bitmap64 s))) step fuel with
  | Some k => exists s', alloc_block_scan fuel start step s = (at_ k * PMM_PAGE_SIZE, s') /\
                         takes s s' (at_ k) 1
  | None => exists s', alloc_block_scan fuel start step s = (0, s') /\ same_blocks s s'
  end.
Proof.
  cbn zeta. revert step s. induction fuel as [|fuel IH]; intros step s Hc Hst Hstep Hfuel.
  { simpl. eauto with kernel. }
  cbn [find_first alloc_block_scan].
  assert ((if PMM_TOTAL_BLOCKS <=? u32 (start + step)
           then u32 (u32 (start + step) - PMM_TOTAL_BLOCKS) else u32 (start + step))
          = (start + step) mod PMM_TOTAL_BLOCKS) as ->.
  { rewrite (u32_small (start + step)) by plia. csplit; bprop.
    - rewrite u32_small by plia. apply (Z.mod_unique_pos _ _ 1); lia.
    - rewrite Z.mod_small; lia. }
  set (i := (start + step) mod PMM_TOTAL_BLOCKS).
  assert (0 <= i < PMM_TOTAL_BLOCKS) as Hi by (apply Z.mod_pos_bound; plia).
  cbn zeta. simpl (memory_bitmap64 (count_scan_step s)).
  fold (block_used i (memory_bitmap64 s)).
  destruct (block_used i (memory_bitmap64 s)) eqn:Hu; simpl negb; cbv iota.
  - specialize (IH (step + 1) (count_scan_step s)).
    simpl (memory_bitmap64 (count_scan_step s)) in IH.
    pose proof (same_blocks_ok s _ (same_blocks_scan s) Hc) as [[? _] _].
    specialize (IH ltac:(done) Hst ltac:(lia) ltac:(lia)).
    destruct (find_first _ (step + 1) fuel);
      destruct IH as (s' & -> & Hs'); exists s'; (split; [done|]).
    + by eapply takes_same; [| apply same_blocks_scan |].
    + by transitivity (count_scan_step s).
  - pose proof (same_blocks_ok s _ (same_blocks_scan s) Hc) as [[? _] Heq].
    eexists. split; [rewrite u64_small by plia; reflexivity|].
    eapply takes_same; [done | apply same_blocks_scan |]. apply take_block; [done|].
    rewrite Heq. by apply elem_of_free_set.
Qed.

(** [a] starts a run of [count] free blocks. *)
Definition free_run (s : PmmState) (a count : Z) : Prop :=
  0 <= a /\ blocks a (a + count) ⊆ free_set s.

Lemma free_run_used s a count j : free_run s a count -> a <= j < a + count ->
  block_used j (memory_bitmap64 s) = true -> False.
Proof.
  intros [_ Hsub] Hj Hu. specialize (Hsub j). rewrite elem_of_blocks, elem_of_free_set in Hsub.
  destruct Hsub as [_ Hf]; [lia | congruence].
Qed.

Lemma free_run_bound s a count : free_run s a count -> 0 < count ->
  a + count <= PMM_TOTAL_BLOCKS.
Proof.
  intros [_ Hsub] Hc. specialize (Hsub (a + count - 1)).
  rewrite elem_of_blocks, elem_of_free_set in Hsub. destruct Hsub; lia.
Qed.

(** What the scan knows before examining block [i]. *)
Record run_inv (s : PmmState) (count i run_start run_length : Z) : Prop := {
  ri_len : 0 <= run_length <= i /\ run_length < count;
  ri_start : run_length <> 0 -> run_start = i - run_length;
  ri_run : blocks (i - run_length) i ⊆ free_set s;
  ri_max : 0 < i - run_length -> block_used (i - run_length - 1) (memory_bitmap64 s) = true;
  ri_none : forall b, b + count <= i -> ~ free_run s b count;
}.

Lemma run_inv_used s count i rs rl : 0 < count -> 0 <= i ->
  run_inv s count i rs rl -> block_used i (memory_bitmap64 s) = true ->
  run_inv s count (i + 1) rs 0.
Proof.
  intros Hc Hi [] Hu. constructor; [lia | done | rewrite blocks_empty by lia; set_solver | |].
  - by replace (i + 1 - 0 - 1) with i by lia.
  - intros b Hb Hr. destruct (decide (b + count = i + 1)) as [He|].
    + apply (free_run_used _ _ _ i Hr); [lia | done].
    + by apply (ri_none0 b); [lia|].
Qed.

Lemma run_inv_free s count i rs rl :
  run_inv s count i rs rl -> i ∈ free_set s -> rl + 1 <> count ->
  run_inv s count (i + 1) (if rl =? 0 then i else rs) (rl + 1).
Proof.
  intros [] Hin Hne. replace (i - rl) with (i + 1 - (rl + 1)) in * by lia.
  constructor; [lia | | rewrite blocks_snoc by lia; set_solver | done |].
  - intros _. destruct (rl =? 0) eqn:?; bprop; lia.
  - intros b Hb Hr. destruct (decide (b + count = i + 1)) as [He|].
    + pose proof (proj1 Hr). apply (free_run_used _ _ _ (i + 1 - (rl + 1) - 1) Hr); [lia|].
      apply ri_max0. lia.
    + by apply (ri_none0 b); [lia|].
Qed.

(** The outcome of a first-fit search for a run that satisfies [fits]: the least
    one is taken, or there is none and no block changes. *)
Definition first_fit (s : PmmState) (count : Z) (fits : Z -> Prop) (out : Z * PmmState) : Prop :=
  (exists a s', out = (a * PMM_PAGE_SIZE, s') /\ takes s s' a count /\
                (free_run s a count /\ fits a) /\
                forall b, b < a -> free_run s b count -> ~ fits b) \/
  (exists s', out = (0, s') /\ same_blocks s s' /\ forall b, free_run s b count -> ~ fits b).

Lemma first_fit_same s s1 count fits out : pmm_core s ->
  same_blocks s s1 -> first_fit s1 count fits out -> first_fit s count fits out.
Proof.
  intros Hc Hsame Hf. destruct (same_blocks_ok _ _ Hsame Hc) as [_ Heq].
  unfold first_fit, free_run in *. rewrite Heq in Hf.
  destruct Hf as [(a & s' & ? & ? & ? & ?)|(s' & ? & ? & ?)].
  - left. exists a, s'. split; [done|]. split; [by eapply takes_same | done].
  - right. exists s'. split; [done|]. split; [by transitivity s1 | done].
Qed.

Lemma run_inv_scan s count i rs rl :
  run_inv s count i rs rl -> run_inv (count_scan_step s) count i rs rl.
Proof. intros []. by constructor. Qed.

Lemma alloc_blocks_scan_spec fuel count i rs rl s :
  pmm_core s -> 0 < count <= PMM_TOTAL_BLOCKS -> 0 <= i ->
  i + Z.of_nat fuel = PMM_TOTAL_BLOCKS -> run_inv s count i rs rl ->
  first_fit s count (fun _ => True) (alloc_blocks_scan fuel count i rs rl s).
Proof.
  revert i rs rl s. induction fuel as [|fuel IH]; intros i rs rl s Hc Hcount Hi Hfuel Hinv.
  { right. eexists. split_and!; [done | auto with kernel |].
    intros b Hr _. pose proof (free_run_bound _ _ _ Hr).
    apply (ri_none _ _ _ _ _ Hinv b); [lia | done]. }
  apply (first_fit_same s (count_scan_step s)); [done | auto with kernel |].
  apply run_inv_scan in Hinv.
  pose proof (same_blocks_ok s _ (same_blocks_scan s) Hc) as [[Hc1 _] _].
  cbn [alloc_blocks_scan]. cbn zeta. set (s1 := count_scan_step s) in *.
  fold (block_used i (memory_bitmap64 s1)).
  destruct (block_used i (memory_bitmap64 s1)) eqn:Hu.
  { apply IH; try done; try lia. by apply (run_inv_used _ _ _ _ rl); [lia | lia | |]. }
  assert (i ∈ free_set s1) as Hin by (apply elem_of_free_set; split; [lia | done]).
  pose proof Hinv as [Hlen Hstart Hrun _ Hnone].
  rewrite (u32_small (rl + 1)) by plia.
  destruct (rl + 1 =? count) eqn:Hfull; bprop.
  2: { apply IH; try done; try lia. by apply run_inv_free. }
  left. set (a := if rl =? 0 then i else rs).
  assert (a = i + 1 - count) as Ha.
  { unfold a. destruct (rl =? 0) eqn:?; bprop; lia. }
  assert (blocks a (a + count) ⊆ free_set s1) as Hsub.
  { rewrite Ha. replace (i + 1 - count + count) with (i + 1) by lia.
    replace (i + 1 - count) with (i - rl) by lia. rewrite blocks_snoc by lia. set_solver. }
  eexists a, _. split; [rewrite u64_small by plia; reflexivity|].
  split; [apply take_run; done || lia|].
  split; [split; [split; [lia | done] | done]|].
  intros b Hb Hr _. by apply (Hnone b); [lia|].
Qed.

(** *** The constrained search *)

Lemma available_scan_spec fuel start count k s :
  pmm_core s -> 0 <= start -> 0 <= k <= count -> start + count <= PMM_TOTAL_BLOCKS ->
  k + Z.of_nat fuel = count -> blocks start (start + k) ⊆ free_set s ->
  exists n s', available_scan fuel start count k s = (n, s') /\ same_blocks s s' /\
    0 <= n <= count /\ blocks start (start + n) ⊆ free_set s /\
    (n <> count -> block_used (start + n) (memory_bitmap64 s) = true).
Proof.
  revert k s. induction fuel as [|fuel IH]; intros k s Hc Hst Hk Hle Hfuel Hsub.
  { exists k, s. split_and!; try done; lia. }
  cbn [available_scan]. rewrite (proj2 (Z.ltb_lt k count)), u32_small by plia. simpl andb.
  fold (block_used (start + k) (memory_bitmap64 s)).
  destruct (block_used (start + k) (memory_bitmap64 s)) eqn:Hu; simpl.
  { exists k, s. split_and!; try done; lia. }
  rewrite u32_small by plia.
  pose proof (same_blocks_ok s _ (same_blocks_scan s) Hc) as [[Hc1 _] Heq].
  destruct (IH (k + 1) (count_scan_step s)) as (n & s' & ? & ? & ? & Hn & ?); try done; try lia.
  { rewrite Heq. replace (start + (k + 1)) with (start + k + 1) by lia.
    rewrite blocks_snoc by lia. apply union_subseteq. split; [done|].
    apply singleton_subseteq_l, elem_of_free_set. split; [lia | done]. }
  rewrite Heq in Hn. exists n, s'. split_and!; try done; try lia.
Qed.

Lemma pow2_of_mask n : 0 < n -> Z.land n (n - 1) = 0 -> n = 2 ^ Z.log2 n.
Proof.
  intros Hn Hl. pose proof (Z.log2_spec n Hn) as [H1 H2].
  destruct (decide (n = 2 ^ Z.log2 n)) as [|Hne]; [done|]. exfalso.
  pose proof (Z.log2_nonneg n).
  assert (Z.log2 (n - 1) = Z.log2 n) as He by (apply Z.log2_unique; lia).
  assert (Z.testbit (Z.land n (n - 1)) (Z.log2 n) = true) as Ht.
  { rewrite Z.land_spec, Z.bit_log2 by lia. rewrite <- He, Z.bit_log2 by lia. done. }
  by rewrite Hl, Z.bits_0 in Ht.
Qed.

(** The placement constraints of a DMA-style allocation at block [a]. *)
Definition placement_ok (count alignment_blocks boundary_bytes maximum_address a : Z) : Prop :=
  (alignment_blocks | a) /\
  a * PMM_PAGE_SIZE + count * PMM_PAGE_SIZE - 1 <= maximum_address /\
  (boundary_bytes <> 0 ->
   a * PMM_PAGE_SIZE / boundary_bytes =
   (a * PMM_PAGE_SIZE + count * PMM_PAGE_SIZE - 1) / boundary_bytes).

Section Constrained.
Context (count alignment_blocks boundary_bytes maximum_address : Z).
Context (Hcount : 0 < count <= PMM_TOTAL_BLOCKS).
Context (Halign : 0 < alignment_blocks < 2 ^ 32).
Context (Hpow : Z.land alignment_blocks (alignment_blocks - 1) = 0).
Context (Hmax : is_u64 maximum_address).
Abbreviation fits := (placement_ok count alignment_blocks boundary_bytes maximum_address).

Lemma aligned_mask a : 0 <= a ->
  nonzero (Z.land a (u32 (alignment_blocks - 1))) = false <-> (alignment_blocks | a).
Proof using Halign Hpow.
  intros Ha. rewrite u32_small by plia.
  pose proof (pow2_of_mask alignment_blocks ltac:(lia) Hpow) as Hp.
  rewrite Hp, land_ones_mod by apply Z.log2_nonneg. unfold nonzero.
  rewrite negb_false_iff, Z.eqb_eq. apply Z.mod_divide. apply Z.pow_nonzero; [lia|].
  apply Z.log2_nonneg.
Qed.

Lemma constrained_scan_spec fuel start s :
  pmm_core s -> 0 <= start <= PMM_TOTAL_BLOCKS ->
  PMM_TOTAL_BLOCKS < start + Z.of_nat fuel ->
  (forall b, b < start -> free_run s b count -> ~ fits b) ->
  first_fit s count fits
    (constrained_scan fuel count alignment_blocks boundary_bytes maximum_address start s).
Proof using Hcount Halign Hpow Hmax.
  revert start s. induction fuel as [|fuel IH]; intros start s Hc Hst Hfuel Hnone; [lia|].
  cbn [constrained_scan]. cbn zeta.
  destruct (u32 (start + count) <=? PMM_TOTAL_BLOCKS) eqn:Hle;
    rewrite u32_small in Hle by plia; bprop; simpl negb; cbv iota.
  2: { right. eexists. split; [done|]. split; [auto with kernel|]. intros b Hr.
       pose proof (free_run_bound _ _ _ Hr). apply Hnone; [lia | done]. }
  apply (first_fit_same s (count_scan_step s)); [done | auto with kernel |].
  pose proof (same_blocks_ok s _ (same_blocks_scan s) Hc) as [[Hc1 _] Heq1].
  assert (forall b, b < start -> free_run (count_scan_step s) b count -> ~ fits b) as Hnone1
    by (unfold free_run; rewrite Heq1; exact Hnone).
  clear Hnone Heq1. set (s1 := count_scan_step s) in *. clearbody s1.
  assert (forall t, same_blocks s1 t -> ~ (free_run s1 start count /\ fits start) ->
            first_fit s1 count fits (constrained_scan fuel count alignment_blocks
              boundary_bytes maximum_address (u32 (start + 1)) t)) as Hnext.
  { intros t Ht Hno. apply (first_fit_same s1 t); [done | done |].
    destruct (same_blocks_ok _ _ Ht Hc1) as [[Hct _] Heqt].
    rewrite u32_small by plia. apply IH; [done | lia | lia |].
    unfold free_run. rewrite Heqt. intros b Hb Hr Hf.
    destruct (decide (b = start)) as [->|]; [by apply Hno|]. apply (Hnone1 b); [lia|done|done]. }
  destruct (nonzero (Z.land start _)) eqn:Hmask.
  { apply Hnext; [done|]. intros [_ (Hd & _)]. apply aligned_mask in Hd; [congruence | lia]. }
  apply aligned_mask in Hmask; [|lia].
  destruct ((maximum_address <? start * PMM_PAGE_SIZE) || _) eqn:Hbreak.
  { right. eexists. split; [done|]. split; [auto with kernel|]. intros b Hr Hf.
    destruct (Z.lt_ge_cases b start) as [Hlt|Hge]; [by apply (Hnone1 b)|].
    destruct Hf as (_ & Hm & _). bprop; [plia|]. rewrite u64_small in * by plia. plia. }
  apply orb_false_iff in Hbreak as [Hb1 Hb2]. apply Z.ltb_ge in Hb1.
  rewrite u64_small in Hb2 by plia. apply Z.ltb_ge in Hb2.
  rewrite (u64_small (start * PMM_PAGE_SIZE + count * PMM_PAGE_SIZE - 1)) by plia.
  destruct (nonzero boundary_bytes && _) eqn:Hbd.
  { apply Hnext; [done|]. intros [_ (_ & _ & Hb)]. bprop. by apply Hb in H. }
  destruct (available_scan_spec (Z.to_nat count) start count 0 s1)
    as (n & s2 & -> & Hs2 & Hn & Hsub & Hstop); try done; try lia.
  { rewrite blocks_empty by lia. set_solver. }
  destruct (same_blocks_ok _ _ Hs2 Hc1) as [[Hc2 _] Heq2].
  destruct (n =? count) eqn:Hfull; simpl negb; cbv iota.
  - apply Z.eqb_eq in Hfull. subst n. apply (first_fit_same s1 s2); [done | done |]. left. eexists start, _.
    split; [reflexivity|]. unfold free_run. rewrite Heq2.
    split; [apply take_run; try done; try lia; by rewrite Heq2|].
    split; [|by intros b Hb; apply Hnone1].
    split; [split; [lia | done]|]. split_and!; [done | lia |].
    intros Hbnz. apply andb_false_iff in Hbd as [Hbd|Hbd]; bprop; congruence.
  - apply Z.eqb_neq in Hfull. apply (first_fit_same s1 s2); [done | done |].
    rewrite (u32_small (start + n)), u32_small by plia.
    apply IH; [done | lia | lia |]. unfold free_run at 1. rewrite Heq2.
    intros b Hb Hr. destruct (Z.lt_ge_cases b start) as [Hlt|Hge]; [by apply Hnone1|].
    exfalso. apply (free_run_used s1 b count (start + n)); [done | lia | by apply Hstop].
Qed.
End Constrained.

(** *** Initialisation *)

Lemma mark_all_used_spec s :
  alen (memory_bitmap64 s) = PMM_BITMAP_SIZE -> 0 <= peak_used_blocks64 s <= PMM_TOTAL_BLOCKS ->
  pmm_core (mark_all_used64 s) /\ free_set (mark_all_used64 s) = ∅.
Proof.
  intros Hl Hp. unfold mark_all_used64.
  set (bm := for_range _ _ _ _).
  assert (alen bm = PMM_BITMAP_SIZE /\ forall i, 0 <= i < PMM_BITMAP_SIZE -> aget bm i = 255)
    as [Hlen Hall].
  { unfold bm. apply (for_range_inv (fun n bm => alen bm = PMM_BITMAP_SIZE /\
      forall i, 0 <= i < n -> aget bm i = 255)); [plia | split; [done | lia] |].
    intros n b Hn [Hb Hi]. split; [by rewrite alen_aset|]. intros i Hin.
    rewrite aget_aset by lia. case_decide; [done|]. apply Hi. lia. }
  assert (free_blocks_of bm = ∅) as Hempty.
  { apply set_eq. intros i. rewrite elem_of_free_blocks_of. split; [|by intros []%not_elem_of_empty].
    intros [Hi Hu]. rewrite block_used_testbit, (Hall _ (byte_index _ Hi)) in Hu.
    pose proof (Z.mod_pos_bound i 8 ltac:(lia)).
    change 255 with (Z.ones 8) in Hu. rewrite Z.ones_spec_low in Hu by lia. done. }
  clearbody bm. split; [|done].
  constructor; unfold free_set; simpl; rewrite ?Hempty, ?size_empty; done || plia.
Qed.

(** The firmware's view of an E820 entry. *)
Definition entry_base (e : E820Entry) : Z := base_high e * 2 ^ 32 + base_low e.
Definition entry_length (e : E820Entry) : Z := length_high e * 2 ^ 32 + length_low e.
Definition entry_ok (e : E820Entry) : Prop :=
  is_u32 (base_low e) /\ is_u32 (base_high e) /\ is_u32 (length_low e) /\ is_u32 (length_high e).

Lemma join_u32 hi lo : is_u32 hi -> is_u32 lo ->
  Z.lor (u64 (Z.shiftl hi 32)) lo = hi * 2 ^ 32 + lo.
Proof.
  unfold is_u32. intros Hh Hl. rewrite Z.shiftl_mul_pow2, u64_small by plia.
  rewrite <- Z.shiftl_mul_pow2, <- Z.add_lor_land by lia.
  enough (Z.land (Z.shiftl hi 32) lo = 0) as -> by lia.
  apply Z.bits_inj'. intros n Hn. rewrite Z.land_spec, Z.bits_0.
  destruct (Z.lt_ge_cases n 32).
  - by rewrite Z.shiftl_spec_low by lia.
  - replace lo with (lo mod 2 ^ 32) by (apply Z.mod_small; lia).
    rewrite Z.mod_pow2_bits_high by lia. apply andb_false_r.
Qed.

Lemma e820_base_val e : entry_ok e -> e820_base e = entry_base e.
Proof. intros (? & ? & _). unfold e820_base, entry_base. by rewrite join_u32. Qed.

Lemma e820_end_val e : entry_ok e ->
  e820_entry_end64 e = Z.min PMM_MAX_RAM_SIZE (entry_base e + entry_length e).
Proof.
  intros He. pose proof He as (Hbl & Hbh & Hll & Hlh). unfold e820_entry_end64.
  rewrite e820_base_val, join_u32 by done. fold (entry_length e).
  unfold entry_base, entry_length. set (b := _ + base_low e). set (l := _ + length_low e).
  assert (is_u64 b) by (unfold b; plia). assert (is_u64 l) by (unfold l; plia).
  cbn zeta. destruct (Z.lt_ge_cases (b + l) (2 ^ 64)).
  - rewrite u64_small by plia. csplit; bprop; plia.
  - assert (u64 (b + l) = b + l - 2 ^ 64) as ->.
    { unfold u64. symmetry. apply (Z.mod_unique_pos _ _ 1); plia. }
    rewrite (proj2 (Z.ltb_lt _ _)) by plia. simpl. plia.
Qed.

(** [i] is a whole page of usable RAM according to the memory map. *)
Definition usable_page (bi : BootInfo) (i : Z) : Prop :=
  exists k, 0 <= k < Z.min (memory_map_entry_count bi) E820_MAX_ENTRIES /\
    let e := aget (memory_map bi) k in
    e820_type e = E820_TYPE_USABLE /\
    entry_base e <= i * PMM_PAGE_SIZE /\
    (i + 1) * PMM_PAGE_SIZE <= entry_base e + entry_length e.

(** Page [i] overlaps the byte range [base, base + size). *)
Definition page_overlaps (i base size : Z) : Prop :=
  0 < size /\ base < (i + 1) * PMM_PAGE_SIZE /\ i * PMM_PAGE_SIZE < base + size.

(** The ranges the boot information reserves: the kernel image and the table. *)
Definition kernel_page (bi : BootInfo) (i : Z) : Prop :=
  kernel_load_addr bi <> 0 /\
  page_overlaps i (kernel_load_addr bi) (kernel_reserved_size64 bi).

Definition table_valid (bi : BootInfo) : Prop :=
  sizeof_BootInfo <= bi_size bi /\ sizeof_BootReservedRange <= reserved_range_entry_size bi.

Definition reserved_page (bi : BootInfo) (i : Z) : Prop :=
  table_valid bi /\
  exists k, 0 <= k < Z.min (reserved_range_count bi) BOOT_RESERVED_RANGE_MAX /\
    let r := aget (reserved_ranges bi) k in page_overlaps i (range_base r) (range_size r).

(** Boot information whose fields have their C widths and whose reserved
    ranges end below the last page of the 64-bit address space. *)
Record boot_info_ok (bi : BootInfo) : Prop := {
  bio_load : is_u32 (kernel_load_addr bi);
  bio_file : is_u32 (kernel_file_size bi);
  bio_entries : 0 < memory_map_entry_count bi;
  bio_count : 0 <= reserved_range_count bi;
  bio_map : forall k, entry_ok (aget (memory_map bi) k);
  bio_ranges : forall k, let r := aget (reserved_ranges bi) k in
    is_u64 (range_base r) /\ is_u64 (range_size r) /\
    range_base r + range_size r <= 2 ^ 64 - 4096;
}.

Lemma kernel_size_u32 bi : boot_info_ok bi -> is_u32 (kernel_reserved_size64 bi).
Proof.
  intros []. unfold kernel_reserved_size64. repeat csplit; auto with kernel. split; lia.
Qed.

Lemma page_div x i : x / PMM_PAGE_SIZE <= i <-> x < (i + 1) * PMM_PAGE_SIZE.
Proof.
  unfold PMM_PAGE_SIZE. pose proof (Z.div_mod x 4096). pose proof (Z.mod_pos_bound x 4096). lia.
Qed.
Lemma page_ceil x i : i < (x + 4095) / PMM_PAGE_SIZE <-> i * PMM_PAGE_SIZE < x.
Proof.
  unfold PMM_PAGE_SIZE. pose proof (Z.div_mod (x + 4095) 4096).
  pose proof (Z.mod_pos_bound (x + 4095) 4096). lia.
Qed.

(** Reserving a byte range removes exactly the pages it overlaps. *)
Lemma reserve_range_pages start size s :
  pmm_core s -> is_u64 start -> is_u64 size -> start + size <= 2 ^ 64 - 4096 ->
  let s' := mark_range_size_used64 start size s in
  pmm_core s' /\ forall i, i ∈ free_set s' <-> i ∈ free_set s /\ ~ page_overlaps i start size.
Proof.
  intros Hc Hs Hz Hle.
  destruct (mark_range_size_used_spec start size s) as ([Hc' _] & _ & Hset); try done.
  split; [done|]. intros i. rewrite Hset, elem_of_difference. apply and_iff_compat_l.
  unfold page_overlaps, range_end. rewrite u64_small by plia.
  rewrite (proj2 (Z.ltb_ge _ _)) by plia.
  destruct (size =? 0) eqn:H0; bprop; simpl; [rewrite elem_of_empty; lia|].
  rewrite (proj2 (Z.leb_gt _ _)), (u64_small (start + size + 4095)) by plia.
  rewrite elem_of_blocks. pose proof (page_div start i). pose proof (page_ceil (start + size) i).
  plia.
Qed.

Lemma free_entry_pages e s : pmm_core s -> entry_ok e ->
  let s' := if PMM_MAX_RAM_SIZE <=? e820_base e then s
            else mark_range_free64 (e820_base e) (e820_entry_end64 e) s in
  pmm_core s' /\ forall i, i ∈ free_set s' <-> i ∈ free_set s \/
    (0 <= i < PMM_TOTAL_BLOCKS /\ entry_base e <= i * PMM_PAGE_SIZE /\
     (i + 1) * PMM_PAGE_SIZE <= entry_base e + entry_length e).
Proof.
  intros Hc He. rewrite e820_base_val by done. pose proof He as (? & ? & ? & ?).
  assert (0 <= entry_base e) by (unfold entry_base; plia).
  assert (0 <= entry_length e) by (unfold entry_length; plia).
  destruct (PMM_MAX_RAM_SIZE <=? entry_base e) eqn:Hout; bprop; cbn zeta.
  { split; [done|]. intros i. split; [tauto|]. intros [?|?]; [done | plia]. }
  rewrite e820_end_val by done.
  destruct (mark_range_free_spec (entry_base e)
    (Z.min PMM_MAX_RAM_SIZE (entry_base e + entry_length e)) s) as ([Hc' _] & _ & Hset);
    [done | split; plia | split; plia |].
  split; [done|]. intros i. rewrite Hset, elem_of_union, elem_of_intersection, !elem_of_blocks.
  rewrite u64_small by plia.
  pose proof (page_ceil (entry_base e) i).
  pose proof (page_div (Z.min PMM_MAX_RAM_SIZE (entry_base e + entry_length e)) i).
  split; (intros [?|?]; [by left | right]); plia.
Qed.

Lemma free_usable_pages bi n s : boot_info_ok bi -> 0 <= n ->
  pmm_core s -> free_set s = ∅ ->
  let s' := for_range 0 n (fun k s =>
        let entry := aget (memory_map bi) k in
        if negb (e820_type entry =? E820_TYPE_USABLE) then s
        else
          let base := e820_base entry in
          let end_ := e820_entry_end64 entry in
          if PMM_MAX_RAM_SIZE <=? base then s
          else mark_range_free64 base end_ s) s in
  pmm_core s' /\ forall i, i ∈ free_set s' <-> 0 <= i < PMM_TOTAL_BLOCKS /\
    exists k, 0 <= k < n /\ let e := aget (memory_map bi) k in
      e820_type e = E820_TYPE_USABLE /\ entry_base e <= i * PMM_PAGE_SIZE /\
      (i + 1) * PMM_PAGE_SIZE <= entry_base e + entry_length e.
Proof.
  intros Hbi Hn Hc Hempty. cbn zeta.
  apply (for_range_inv (fun n s' => pmm_core s' /\ forall i, i ∈ free_set s' <->
    0 <= i < PMM_TOTAL_BLOCKS /\ exists k, 0 <= k < n /\ let e := aget (memory_map bi) k in
      e820_type e = E820_TYPE_USABLE /\ entry_base e <= i * PMM_PAGE_SIZE /\
      (i + 1) * PMM_PAGE_SIZE <= entry_base e + entry_length e)); [done | |].
  { split; [done|]. intros i. rewrite Hempty. split; [by intros []%not_elem_of_empty|].
    intros (_ & k & ? & _). lia. }
  intros k s1 Hk [Hc1 Hs1]. set (e := aget (memory_map bi) k).
  assert (forall i, (exists k', 0 <= k' < k + 1 /\ let e := aget (memory_map bi) k' in
      e820_type e = E820_TYPE_USABLE /\ entry_base e <= i * PMM_PAGE_SIZE /\
      (i + 1) * PMM_PAGE_SIZE <= entry_base e + entry_length e) <->
    (exists k', 0 <= k' < k /\ let e := aget (memory_map bi) k' in
      e820_type e = E820_TYPE_USABLE /\ entry_base e <= i * PMM_PAGE_SIZE /\
      (i + 1) * PMM_PAGE_SIZE <= entry_base e + entry_length e) \/
    (e820_type e = E820_TYPE_USABLE /\ entry_base e <= i * PMM_PAGE_SIZE /\
      (i + 1) * PMM_PAGE_SIZE <= entry_base e + entry_length e)) as Hex.
  { intros i. split.
    - intros (k' & Hk' & Hp). destruct (decide (k' = k)) as [->|]; [by right|].
      left. exists k'. split; [lia | done].
    - intros [(k' & ? & ?)|?]; [exists k' | exists k]; (split; [lia | done]). }
  destruct (e820_type e =? E820_TYPE_USABLE) eqn:Ht; bprop; cbn [negb]; cbv iota.
  - destruct (free_entry_pages e s1 Hc1 (bio_map _ Hbi k)) as [Hc2 Hs2].
    split; [done|]. intros i. rewrite Hs2, Hs1, Hex. tauto.
  - split; [done|]. intros i. rewrite Hs1, Hex. tauto.
Qed.

Lemma reserve_table_pages bi n s : boot_info_ok bi -> 0 <= n -> pmm_core s ->
  let s' := for_range 0 n (fun k s => let range := aget (reserved_ranges bi) k in
              mark_range_size_used64 (range_base range) (range_size range) s) s in
  pmm_core s' /\ forall i, i ∈ free_set s' <-> i ∈ free_set s /\
    ~ exists k, 0 <= k < n /\ let r := aget (reserved_ranges bi) k in
        page_overlaps i (range_base r) (range_size r).
Proof.
  intros Hbi Hn Hc. cbn zeta.
  apply (for_range_inv (fun n s' => pmm_core s' /\ forall i, i ∈ free_set s' <->
    i ∈ free_set s /\ ~ exists k, 0 <= k < n /\ let r := aget (reserved_ranges bi) k in
        page_overlaps i (range_base r) (range_size r))); [done | |].
  { split; [done|]. intros i. split; [|tauto]. intros Hi. split; [done|].
    intros (k & ? & _). lia. }
  intros k s1 Hk [Hc1 Hs1]. destruct (bio_ranges _ Hbi k) as (? & ? & ?).
  set (r := aget (reserved_ranges bi) k) in *.
  destruct (reserve_range_pages (range_base r) (range_size r) s1) as [Hc2 Hs2]; try done.
  split; [done|]. intros i. rewrite Hs2, Hs1. split.
  - intros [[Hi Hno] Hnk]. split; [done|]. intros (k' & Hk' & Hp).
    destruct (decide (k' = k)) as [->|]; [done|]. apply Hno. exists k'. split; [lia | done].
  - intros [Hi Hno]. split; [split; [done|]|].
    + intros (k' & Hk' & Hp). apply Hno. exists k'. split; [lia | done].
    + intros Hp. apply Hno. exists k. split; [lia | done].
Qed.
