(* ===== verification/PmmSpec.v ===== *)
(** * What the physical memory manager guarantees

    The theorems on [kernel/mm/pmm.cpp]: the invariant of every reachable
    state, the exact free set after boot, the functional behaviour of the three
    allocators (next fit, first fit, constrained first fit) and of release. *)

From S2P Require Import Prelude KernelEnv Pmm.

Section Spec.
Context {E : Type} `{KernelEnv E}.

(** One call of an entry point; arguments have their C widths. *)
Inductive pmm_step : PmmState -> PmmState -> Prop :=
| step_alloc_block s e addr s' e' :
    pmm_alloc_block s e = (addr, s', e') -> pmm_step s s'
| step_alloc_blocks count s e addr s' e' :
    is_u32 count -> pmm_alloc_blocks count s e = (addr, s', e') -> pmm_step s s'
| step_alloc_constrained count align boundary maximum s e addr s' e' :
    is_u32 count -> is_u32 align -> is_u64 boundary -> is_u64 maximum ->
    pmm_alloc_blocks_constrained count align boundary maximum s e = (addr, s', e') ->
    pmm_step s s'
| step_free_block addr s : is_u64 addr -> pmm_step s (pmm_free_block addr s)
| step_free_blocks addr count s :
    is_u64 addr -> is_u32 count -> pmm_step s (pmm_free_blocks addr count s).

(** States reached from boot: [pmm_init], then any sequence of calls. *)
Inductive pmm_reachable : PmmState -> Prop :=
| reach_init bi s0 :
    alen (memory_bitmap64 s0) = PMM_BITMAP_SIZE ->
    (forall b, bi = Some b -> boot_info_ok b) ->
    pmm_reachable (pmm_init bi s0)
| reach_step s s' : pmm_reachable s -> pmm_step s s' -> pmm_reachable s'.

(** ** Lemmas *)

Lemma takes_wf s s' a count : pmm_wf s -> takes s s' a count -> pmm_wf s'.
Proof. intros [Hc Hp] [[Hc' Hp'] _]. split; auto. Qed.

Lemma same_blocks_wf s s' : pmm_wf s -> same_blocks s s' -> pmm_wf s'.
Proof.
  intros [Hc Hp] Hs. destruct (same_blocks_ok _ _ Hs Hc) as [[Hc' Hp'] _]. split; auto.
Qed.

Lemma first_fit_wf s count fits addr s' :
  pmm_wf s -> first_fit s count fits (addr, s') -> pmm_wf s'.
Proof.
  intros Hw [(a & t & [= -> ->] & Ht & _)|(t & [= -> ->] & Ht & _)].
  - by eapply takes_wf.
  - by eapply same_blocks_wf.
Qed.

Lemma no_run_without_blocks s count a :
  pmm_core s -> free_blocks64 s < count -> free_run s a count -> False.
Proof.
  intros Hc Hlt [Ha Hsub]. rewrite (core_free _ Hc) in Hlt.
  pose proof (subseteq_size _ _ Hsub) as Hs. rewrite size_blocks in Hs by lia. lia.
Qed.

Lemma add_member (X : gset Z) i : i ∈ X -> X ∪ {[i]} = X.
Proof. set_solver. Qed.
Lemma put_back (X : gset Z) i : i ∈ X -> X ∖ {[i]} ∪ {[i]} = X.
Proof. intros. rewrite difference_union_L. by apply add_member. Qed.

Lemma alloc_block_result s e e1 addr s' e' : pmm_core s ->
  kernel_fault_injection_should_fail KERNEL_FAULT_POINT_PMM e = (false, e1) ->
  pmm_alloc_block s e = (addr, s', e') ->
  (free_set s = ∅ /\ addr = 0 /\ same_blocks s s') \/
  exists k, let i := (next_free_hint64 s + k) mod PMM_TOTAL_BLOCKS in
    0 <= k < PMM_TOTAL_BLOCKS /\ i ∈ free_set s /\ addr = i * PMM_PAGE_SIZE /\
    takes s s' i 1 /\
    forall j, 0 <= j < k -> (next_free_hint64 s + j) mod PMM_TOTAL_BLOCKS ∉ free_set s.
Proof.
  intros Hc Hf. pose proof Hc as [_ Hfree Hh _]. unfold pmm_alloc_block. rewrite Hf.
  set (s1 := s <| alloc_requests64 := _ |>). assert (same_blocks s s1) as Hs1 by done.
  destruct (same_blocks_ok _ _ Hs1 Hc) as [[Hc1 _] Heq].
  change (free_blocks64 s1) with (free_blocks64 s). cbv iota.
  change (next_free_hint64 s1) with (next_free_hint64 s).
  destruct (free_blocks64 s =? 0) eqn:H0; bprop.
  { intros [= <- <- _]. left. split_and!; [|done|done].
    apply leibniz_equiv, size_empty_inv. lia. }
  rewrite (proj2 (Z.leb_gt _ _)) by apply Hh.
  pose proof (alloc_block_scan_spec (Z.to_nat PMM_TOTAL_BLOCKS) (next_free_hint64 s) 0 s1
    Hc1 Hh ltac:(lia) ltac:(plia)) as Hscan. cbn zeta in Hscan.
  change (memory_bitmap64 s1) with (memory_bitmap64 s) in Hscan.
  destruct (find_first _ 0 _) as [k|] eqn:Hk.
  - apply find_first_Some in Hk as (Hk & Hu & Hbefore).
    destruct Hscan as (s2 & -> & Ht). intros [= <- <- _]. right. exists k. cbn zeta.
    pose proof (Z.mod_pos_bound (next_free_hint64 s + k) PMM_TOTAL_BLOCKS ltac:(plia)).
    split; [lia|]. split; [apply elem_of_free_set; bprop; by split|]. split; [done|].
    split; [by eapply takes_same|]. intros j Hj [_ Hin]%elem_of_free_set.
    specialize (Hbefore j Hj). rewrite Hin in Hbefore. done.
  - exfalso. rewrite Hfree in H0.
    destruct (set_choose_L (free_set s)) as [i Hi].
    { intros He. rewrite He, size_empty in H0. done. }
    apply elem_of_free_set in Hi as [Hi Hu].
    set (k := (i - next_free_hint64 s) mod PMM_TOTAL_BLOCKS).
    assert (0 <= k < PMM_TOTAL_BLOCKS) by (apply Z.mod_pos_bound; plia).
    assert ((next_free_hint64 s + k) mod PMM_TOTAL_BLOCKS = i) as Hki.
    { unfold k. rewrite Z.add_mod_idemp_r, Zplus_minus by plia. apply Z.mod_small. plia. }
    pose proof (find_first_None _ _ _ Hk k ltac:(plia)) as Hn. cbv beta in Hn.
    by rewrite Hki, Hu in Hn.
Qed.

Lemma alloc_blocks_result count s e e1 addr s' e' : pmm_core s -> is_u32 count -> count <> 0 ->
  kernel_fault_injection_should_fail KERNEL_FAULT_POINT_PMM e = (false, e1) ->
  pmm_alloc_blocks count s e = (addr, s', e') ->
  first_fit s count (fun _ => True) (addr, s').
Proof.
  intros Hc Hcount Hnz Hf. unfold pmm_alloc_blocks. rewrite Hf.
  set (s1 := s <| alloc_requests64 := _ |> <| alloc_contiguous_requests64 := _ |>).
  assert (same_blocks s s1) as Hs1 by done.
  destruct (same_blocks_ok _ _ Hs1 Hc) as [[Hc1 _] Heq].
  rewrite (proj2 (Z.eqb_neq _ _) Hnz). cbv iota.
  change (free_blocks64 s1) with (free_blocks64 s).
  destruct (_ || _) eqn:Hbig.
  { intros [= <- <- _]. right. eexists. split; [done|]. split; [done|].
    intros b Hr _. pose proof (free_run_bound _ _ _ Hr). pose proof (proj1 Hr). bprop; [|plia].
    by eapply no_run_without_blocks. }
  bprop. destruct (alloc_blocks_scan _ count 0 0 0 s1) as [a s2] eqn:Hscan.
  intros [= -> -> _]. rewrite <- Hscan. apply (first_fit_same s s1); [done | done |].
  apply alloc_blocks_scan_spec; [done | plia | lia | plia |].
  constructor; [plia | done | rewrite blocks_empty by lia; set_solver | lia |].
  intros b Hb [Hb0 _]. plia.
Qed.

Lemma alloc_constrained_result count align boundary maximum s e e1 addr s' e' :
  pmm_core s -> is_u32 count -> count <> 0 -> is_u32 align -> is_u64 maximum ->
  align <> 0 -> Z.land align (align - 1) = 0 ->
  kernel_fault_injection_should_fail KERNEL_FAULT_POINT_PMM e = (false, e1) ->
  pmm_alloc_blocks_constrained count align boundary maximum s e = (addr, s', e') ->
  first_fit s count (placement_ok count align boundary maximum) (addr, s').
Proof.
  intros Hc Hcount Hnz Ha Hm Hanz Hpow Hf. unfold pmm_alloc_blocks_constrained.
  set (s1 := s <| alloc_requests64 := _ |> <| alloc_contiguous_requests64 := _ |>).
  assert (same_blocks s s1) as Hs1 by done.
  destruct (same_blocks_ok _ _ Hs1 Hc) as [[Hc1 _] Heq].
  rewrite (proj2 (Z.eqb_neq _ _) Hnz), (proj2 (Z.eqb_neq _ _) Hanz).
  rewrite (u32_small (align - 1)), Hpow by plia.
  change (free_blocks64 s1) with (free_blocks64 s). simpl orb.
  destruct (_ || _) eqn:Hbig.
  { intros [= <- <- _]. right. eexists. split; [done|]. split; [done|].
    intros b Hr _. pose proof (free_run_bound _ _ _ Hr). pose proof (proj1 Hr). bprop; [|plia].
    by eapply no_run_without_blocks. }
  rewrite Hf. bprop. destruct (constrained_scan _ _ _ _ _ _ s1) as [a s2] eqn:Hscan.
  intros [= -> -> _]. rewrite <- Hscan. apply (first_fit_same s s1); [done | done |].
  apply constrained_scan_spec; [plia | plia | done | done | done | plia | plia |].
  intros b Hb [Hb0 _]. lia.
Qed.

(** A request that is refused (bad arguments or an injected fault) leaves the
    blocks alone. *)
Lemma alloc_refused s e addr s' e' b :
  kernel_fault_injection_should_fail KERNEL_FAULT_POINT_PMM e = (true, b) ->
  (pmm_alloc_block s e = (addr, s', e') \/
   (exists count, pmm_alloc_blocks count s e = (addr, s', e')) \/
   (exists count align boundary maximum,
      pmm_alloc_blocks_constrained count align boundary maximum s e = (addr, s', e'))) ->
  addr = 0 /\ same_blocks s s' /\
  alloc_failures64 s' = u64 (alloc_failures64 s + 1).
Proof.
  intros Hf [Ha|[(count & Ha)|(count & align & boundary & maximum & Ha)]]; revert Ha.
  - unfold pmm_alloc_block. rewrite Hf. by intros [= <- <- _].
  - unfold pmm_alloc_blocks. rewrite Hf. csplit; by intros [= <- <- _].
  - unfold pmm_alloc_blocks_constrained. rewrite Hf. csplit; by intros [= <- <- _].
Qed.

Lemma free_run_step g lo hi s : pmm_core s -> lo <= hi ->
  (forall i, lo <= i < hi -> 0 <= g i) ->
  pmm_step_ok s (for_range lo hi (fun i => mark_block_free64 (g i)) s).
Proof.
  intros Hc Hle Hg. apply (for_range_inv (fun _ s' => pmm_step_ok s s')); [done | auto with kernel |].
  intros i s1 Hi Hok.
  destruct (mark_block_free_spec (g i) s1) as (Hok' & _); [apply Hok | by apply Hg |].
  by eapply pmm_step_ok_trans.
Qed.

Ltac fault_cases e Hf :=
  destruct (kernel_fault_injection_should_fail KERNEL_FAULT_POINT_PMM e) as [[] ?] eqn:Hf.

Lemma alloc_block_wf s e addr s' e' :
  pmm_wf s -> pmm_alloc_block s e = (addr, s', e') -> pmm_wf s'.
Proof.
  intros Hw Ha. fault_cases e Hf.
  - edestruct alloc_refused as (_ & ? & _); [exact Hf | eauto |]. by eapply same_blocks_wf.
  - edestruct alloc_block_result as [(_ & _ & ?)|(k & _ & _ & _ & ? & _)];
      [apply Hw | exact Hf | exact Ha | by eapply same_blocks_wf | by eapply takes_wf].
Qed.

Lemma alloc_blocks_wf count s e addr s' e' : is_u32 count ->
  pmm_wf s -> pmm_alloc_blocks count s e = (addr, s', e') -> pmm_wf s'.
Proof.
  intros Hcount Hw Ha. destruct (decide (count = 0)) as [->|Hnz].
  { revert Ha. unfold pmm_alloc_blocks. simpl. intros [= _ <- _]. by eapply same_blocks_wf. }
  fault_cases e Hf.
  - edestruct (alloc_refused s e addr s') as (_ & ? & _); [exact Hf | eauto |].
    by eapply same_blocks_wf.
  - eapply first_fit_wf; [done|]. 
    eapply (alloc_blocks_result count s); try eassumption. apply Hw.
Qed.

Lemma alloc_constrained_wf count align boundary maximum s e addr s' e' :
  is_u32 count -> is_u32 align -> is_u64 maximum -> pmm_wf s ->
  pmm_alloc_blocks_constrained count align boundary maximum s e = (addr, s', e') -> pmm_wf s'.
Proof.
  intros Hcount Hal Hmax Hw Ha. fault_cases e Hf.
  { edestruct (alloc_refused s e addr s') as (_ & ? & _); [exact Hf | eauto 10 |].
    by eapply same_blocks_wf. }
  destruct (decide (count <> 0 /\ align <> 0 /\ Z.land align (align - 1) = 0))
    as [(? & ? & ?)|Hbad].
  - eapply first_fit_wf; [done|]. 
    eapply (alloc_constrained_result count align boundary maximum s); try eassumption. apply Hw.
  - revert Ha. unfold pmm_alloc_blocks_constrained.
    destruct (_ || _) eqn:Hcond; [intros [= _ <- _]; by eapply same_blocks_wf|].
    exfalso. apply Hbad. bprop. rewrite u32_small in * by plia. done.
Qed.

Lemma release_wf s s1 s' : pmm_wf s -> same_blocks s s1 -> pmm_step_ok s1 s' -> pmm_wf s'.
Proof. intros Hw Hs [Hc' Hp']. destruct (same_blocks_wf _ _ Hw Hs). split; auto. Qed.

Lemma pmm_step_wf s s' : pmm_wf s -> pmm_step s s' -> pmm_wf s'.
Proof.
  intros Hw Hstep. inversion Hstep; subst.
  - by eapply alloc_block_wf.
  - by eapply alloc_blocks_wf.
  - by eapply (alloc_constrained_wf count).
  - set (s1 := s <| free_requests64 := u64 (free_requests64 s + 1) |>).
    apply (release_wf s s1); [done | done |].
    apply (mark_block_free_spec (u32 (addr / PMM_PAGE_SIZE)) s1);
      [apply (same_blocks_wf s); done | apply u32_range].
  - set (s1 := s <| free_requests64 := u64 (free_requests64 s + 1) |>).
    apply (release_wf s s1); [done | done |].
    apply free_run_step; [apply (same_blocks_wf s); done | apply H1 |].
    intros. apply u32_range.
Qed.

Lemma reserve_kernel_pages bi s : boot_info_ok bi -> pmm_core s ->
  let s' := if nonzero (kernel_load_addr bi) && nonzero (kernel_reserved_size64 bi)
            then mark_range_size_used64 (kernel_load_addr bi) (kernel_reserved_size64 bi) s
            else s in
  pmm_core s' /\ forall i, i ∈ free_set s' <-> i ∈ free_set s /\ ~ kernel_page bi i.
Proof.
  intros Hbi Hc. pose proof (bio_load _ Hbi). pose proof (kernel_size_u32 _ Hbi).
  unfold kernel_page. destruct (nonzero _ && nonzero _) eqn:Hk; cbn zeta.
  - bprop. destruct (reserve_range_pages (kernel_load_addr bi) (kernel_reserved_size64 bi) s)
      as [Hc' Hi]; [done | split; plia | split; plia | plia |].
    split; [done|]. intros i. rewrite Hi. tauto.
  - split; [done|]. intros i. unfold page_overlaps, nonzero in *.
    apply andb_false_iff in Hk as [Hk|Hk]; bprop; intuition lia.
Qed.

Lemma reserve_boot_info_pages bi s : boot_info_ok bi -> pmm_core s ->
  let s' := reserve_boot_info_ranges64 bi s in
  pmm_core s' /\ forall i, i ∈ free_set s' <->
    i ∈ free_set s /\ ~ kernel_page bi i /\ ~ reserved_page bi i.
Proof.
  intros Hbi Hc. unfold reserve_boot_info_ranges64. cbn zeta.
  destruct (reserve_kernel_pages bi s Hbi Hc) as [Hc3 Hs3].
  set (s3 := if nonzero (kernel_load_addr bi) && _ then _ else s) in *. clearbody s3.
  assert (table_valid bi <-> (bi_size bi <? sizeof_BootInfo)
    || (reserved_range_entry_size bi <? sizeof_BootReservedRange) = false) as Htab.
  { unfold table_valid. rewrite orb_false_iff, !Z.ltb_ge. done. }
  unfold reserved_page. destruct (_ || (reserved_range_entry_size bi <? _)) eqn:Ht.
  { split; [done|]. intros i. rewrite Hs3. intuition congruence. }
  set (m := if BOOT_RESERVED_RANGE_MAX <? _ then _ else _).
  assert (m = Z.min (reserved_range_count bi) BOOT_RESERVED_RANGE_MAX) as Hm.
  { unfold m, BOOT_RESERVED_RANGE_MAX. csplit; bprop; lia. }
  pose proof (bio_count _ Hbi).
  destruct (reserve_table_pages bi m s3 Hbi ltac:(unfold BOOT_RESERVED_RANGE_MAX in *; lia) Hc3)
    as [Hc4 Hs4]. split; [done|]. intros i. rewrite Hs4, Hs3, Hm. tauto.
Qed.

(** The low two megabytes are never handed out. *)
Lemma reserve_low_pages s : pmm_core s ->
  let s' := mark_range_used64 0 LOW_MEMORY_RESERVE_SIZE s in
  pmm_core s' /\ forall i, 0 <= i ->
    i ∈ free_set s' <-> i ∈ free_set s /\ LOW_MEMORY_RESERVE_SIZE <= i * PMM_PAGE_SIZE.
Proof.
  intros Hc. unfold LOW_MEMORY_RESERVE_SIZE.
  destruct (mark_range_used_spec 0 (2 * 1024 * 1024) s) as ([Hc2 _] & _ & Hs2);
    [done | split; lia | split; lia | lia |].
  split; [done|]. intros i Hi. rewrite Hs2, elem_of_difference, elem_of_blocks.
  rewrite u64_small by plia. change (0 / PMM_PAGE_SIZE) with 0.
  change ((2 * 1024 * 1024 + 4095) / PMM_PAGE_SIZE) with 512. unfold PMM_PAGE_SIZE.
  intuition lia.
Qed.

(** The state after a boot with valid, well-formed boot information. *)
Lemma init_from_e820_pages bi s : boot_info_ok bi -> magic bi = BOOT_INFO_MAGIC ->
  alen (memory_bitmap64 s) = PMM_BITMAP_SIZE -> 0 <= peak_used_blocks64 s <= PMM_TOTAL_BLOCKS ->
  exists s', init_from_e820_64 (Some bi) s = (true, s') /\ pmm_core s' /\
    forall i, i ∈ free_set s' <-> (0 <= i < PMM_TOTAL_BLOCKS /\ usable_page bi i) /\
      LOW_MEMORY_RESERVE_SIZE <= i * PMM_PAGE_SIZE /\ ~ kernel_page bi i /\ ~ reserved_page bi i.
Proof.
  intros Hbi Hm Hl Hp. unfold init_from_e820_64. pose proof (bio_entries _ Hbi).
  rewrite Hm, Z.eqb_refl, (proj2 (Z.eqb_neq _ _)) by lia. cbn [negb orb]. cbv iota zeta.
  destruct (mark_all_used_spec s Hl Hp) as [Hc0 He0].
  set (n := if E820_MAX_ENTRIES <? _ then _ else _).
  assert (n = Z.min (memory_map_entry_count bi) E820_MAX_ENTRIES) as Hn.
  { unfold n, E820_MAX_ENTRIES. csplit; bprop; lia. }
  destruct (free_usable_pages bi n _ Hbi ltac:(unfold E820_MAX_ENTRIES in *; lia) Hc0 He0)
    as [Hc1 Hs1].
  set (s1 := for_range 0 n _ _) in *. rewrite Hn in Hs1. clearbody s1.
  destruct (reserve_low_pages s1 Hc1) as [Hc2 Hs2].
  set (s2 := mark_range_used64 _ _ s1) in *. clearbody s2.
  destruct (reserve_boot_info_pages bi s2 Hbi Hc2) as [Hc3 Hs3].
  eexists. split; [reflexivity|]. split; [done|]. intros i. rewrite Hs3.
  destruct (Z.le_gt_cases 0 i).
  - rewrite Hs2, Hs1 by done. unfold usable_page. tauto.
  - rewrite elem_of_free_set. intuition lia.
Qed.

Lemma init_rejected bi s : (forall b, bi = Some b ->
    magic b <> BOOT_INFO_MAGIC \/ memory_map_entry_count b = 0) ->
  init_from_e820_64 bi s = (false, s).
Proof.
  intros Hbad. destruct bi as [b|]; [|done]. unfold init_from_e820_64.
  destruct (Hbad b eq_refl) as [Hm|Hm].
  - by rewrite (proj2 (Z.eqb_neq _ _) Hm).
  - rewrite Hm. simpl. by rewrite orb_true_r.
Qed.

Lemma pmm_init_wf bi s0 : alen (memory_bitmap64 s0) = PMM_BITMAP_SIZE ->
  (forall b, bi = Some b -> boot_info_ok b) -> pmm_wf (pmm_init bi s0).
Proof.
  intros Hl Hok. unfold pmm_init.
  set (s1 := reset_stats64 s0).
  assert (alen (memory_bitmap64 s1) = PMM_BITMAP_SIZE) as Hl1 by done.
  assert (0 <= peak_used_blocks64 s1 <= PMM_TOTAL_BLOCKS) as Hp1 by (simpl; plia).
  clearbody s1.
  assert (exists ok s2, init_from_e820_64 bi s1 = (ok, s2) /\
    pmm_core (if ok then s2 else mark_all_used64 s2)) as (ok & s2 & -> & Hc).
  { destruct bi as [b|].
    - destruct (decide (magic b = BOOT_INFO_MAGIC)) as [Hm|Hm].
      + destruct (init_from_e820_pages b s1 (Hok b eq_refl) Hm Hl1 Hp1) as (s2 & He & Hc & _).
        by exists true, s2.
      + exists false, s1. rewrite init_rejected by (intros ? [= <-]; by left).
        split; [done|]. by apply mark_all_used_spec.
    - exists false, s1. split; [done|]. by apply mark_all_used_spec. }
  destruct (update_peak_spec _ Hc) as (? & ? & _). by split.
Qed.

Lemma pmm_init_free_set bi s0 : boot_info_ok bi -> magic bi = BOOT_INFO_MAGIC ->
  alen (memory_bitmap64 s0) = PMM_BITMAP_SIZE ->
  forall i, i ∈ free_set (pmm_init (Some bi) s0) <->
    (0 <= i < PMM_TOTAL_BLOCKS /\ usable_page bi i) /\
    LOW_MEMORY_RESERVE_SIZE <= i * PMM_PAGE_SIZE /\ ~ kernel_page bi i /\ ~ reserved_page bi i.
Proof.
  intros Hbi Hm Hl i. unfold pmm_init.
  destruct (init_from_e820_pages bi (reset_stats64 s0) Hbi Hm) as (s' & -> & Hc & Hs);
    [done | simpl; plia |]. cbv iota zeta.
  destruct (update_peak_spec _ Hc) as (_ & _ & Hset & _). cbv zeta in Hset.
  rewrite Hset. exact (Hs i).
Qed.

(** ** The claims *)

(** C1: In every state reached from boot, without boot information or with a valid memory map
    ([boot_info_ok]: not empty, fields within their types, no range that wraps), by any sequence of allocation and release
    calls (any arguments, faults injected or not) the bitmap keeps its size, the
    cached free counter equals the number of clear bits, the next-fit hint names a
    block, and the peak counter bounds the number of blocks in use. *)
Theorem pmm_reachable_invariant s : pmm_reachable s -> pmm_wf s.
Proof. induction 1; [by apply pmm_init_wf | by eapply pmm_step_wf]. Qed.

(** C2: After boot with a valid memory map the free blocks are exactly the whole
    pages of usable RAM below 512 MiB that lie above the low two megabytes and
    overlap neither the kernel image nor a reserved range. *)
Theorem pmm_init_exact_free_set bi s0 : boot_info_ok bi -> magic bi = BOOT_INFO_MAGIC ->
  alen (memory_bitmap64 s0) = PMM_BITMAP_SIZE ->
  forall i, i ∈ free_set (pmm_init (Some bi) s0) <->
    (0 <= i < PMM_TOTAL_BLOCKS /\ usable_page bi i) /\
    LOW_MEMORY_RESERVE_SIZE <= i * PMM_PAGE_SIZE /\ ~ kernel_page bi i /\ ~ reserved_page bi i.
Proof. intros. by apply pmm_init_free_set. Qed.

(** Boot information that is absent, has a wrong magic or an empty memory map
    fails closed: afterwards no block is free. *)
Theorem pmm_init_fails_closed bi s0 : alen (memory_bitmap64 s0) = PMM_BITMAP_SIZE ->
  (forall b, bi = Some b -> magic b <> BOOT_INFO_MAGIC \/ memory_map_entry_count b = 0) ->
  free_set (pmm_init bi s0) = ∅ /\ pmm_get_free_block_count (pmm_init bi s0) = 0.
Proof.
  intros Hl Hbad. unfold pmm_init. rewrite init_rejected by done.
  destruct (mark_all_used_spec (reset_stats64 s0)) as [Hc He]; [done | simpl; plia |].
  cbv iota zeta. set (s1 := mark_all_used64 _) in *. clearbody s1.
  destruct (update_peak_spec _ Hc) as ([_ Hfree _ _] & _ & Hset & _).
  unfold pmm_get_free_block_count. rewrite Hfree, Hset, He, size_empty. done.
Qed.

(** [pmm_alloc_block] is a next-fit allocator: when no fault is injected it
    fails exactly when no block is free, and otherwise takes the first free block
    at or after the hint (cyclically), removes only that block from the free set
    and returns its address. *)
Theorem pmm_alloc_block_next_fit s e e1 addr s' e' : pmm_wf s ->
  kernel_fault_injection_should_fail KERNEL_FAULT_POINT_PMM e = (false, e1) ->
  pmm_alloc_block s e = (addr, s', e') ->
  (free_set s = ∅ /\ addr = 0 /\ free_set s' = free_set s) \/
  exists k i, i = (next_free_hint64 s + k) mod PMM_TOTAL_BLOCKS /\ 0 <= k /\
    i ∈ free_set s /\ addr = i * PMM_PAGE_SIZE /\ free_set s' = free_set s ∖ {[i]} /\
    forall j, 0 <= j < k -> (next_free_hint64 s + j) mod PMM_TOTAL_BLOCKS ∉ free_set s.
Proof.
  intros [Hc _] Hf Ha. edestruct alloc_block_result as [(? & ? & Hs)|(k & Hk & Hi & Ha' & Ht & Hb)];
    [done | exact Hf | exact Ha | |].
  - left. split_and!; [done | done |]. by apply same_blocks_ok.
  - right. exists k, ((next_free_hint64 s + k) mod PMM_TOTAL_BLOCKS).
    destruct Ht as (_ & _ & ->). split_and!; try done; [lia|].
    by rewrite blocks_snoc, blocks_empty, (left_id_L ∅ (∪)) by lia.
Qed.

(** [pmm_alloc_blocks] is a complete first-fit allocator of contiguous runs:
    without an injected fault it takes the lowest run of [count] free blocks, and
    returns 0 leaving every block as it was only when no such run exists. *)
Theorem pmm_alloc_blocks_first_fit count s e e1 addr s' e' :
  pmm_wf s -> is_u32 count -> count <> 0 ->
  kernel_fault_injection_should_fail KERNEL_FAULT_POINT_PMM e = (false, e1) ->
  pmm_alloc_blocks count s e = (addr, s', e') ->
  first_fit s count (fun _ => True) (addr, s').
Proof. intros [Hc _] ? ? Hf Ha. by eapply alloc_blocks_result. Qed.

(** [pmm_alloc_blocks_constrained] takes the lowest free run that is aligned,
    ends at or below the maximum address and does not cross a boundary, and fails
    only when no free run satisfies the constraints; skipping past a used block
    never skips a candidate. *)
Theorem pmm_alloc_constrained_first_fit count align boundary maximum s e e1 addr s' e' :
  pmm_wf s -> is_u32 count -> count <> 0 -> is_u32 align -> is_u64 maximum ->
  align <> 0 -> Z.land align (align - 1) = 0 ->
  kernel_fault_injection_should_fail KERNEL_FAULT_POINT_PMM e = (false, e1) ->
  pmm_alloc_blocks_constrained count align boundary maximum s e = (addr, s', e') ->
  first_fit s count (placement_ok count align boundary maximum) (addr, s').
Proof. intros [Hc _] ? ? ? ? ? ? Hf Ha. by eapply alloc_constrained_result. Qed.

(** Releasing a block adds it to the free ones. *)
Lemma free_block_ok addr i t : pmm_core t -> u32 (addr / PMM_PAGE_SIZE) = i -> 0 <= i < PMM_TOTAL_BLOCKS ->
  pmm_core (pmm_free_block addr t) /\ free_set (pmm_free_block addr t) = free_set t ∪ {[i]}.
Proof.
  intros Hct Hidx Hr. unfold pmm_free_block. rewrite Hidx.
  destruct (same_blocks_ok t (t <| free_requests64 := u64 (free_requests64 t + 1) |>))
    as [[Hct1 _] Heqt]; [done | done |].
  destruct (mark_block_free_spec i _ Hct1) as ([? _] & Hset & _); [lia|].
  split; [assumption|]. rewrite Hset, Heqt, clip_block, decide_True by lia. reflexivity.
Qed.

(** Releasing a block just allocated restores the free set and the free
    counter, and releasing it a second time changes neither. *)
Theorem pmm_alloc_free_roundtrip s e e1 addr s' e' : pmm_wf s ->
  kernel_fault_injection_should_fail KERNEL_FAULT_POINT_PMM e = (false, e1) ->
  free_blocks64 s <> 0 -> pmm_alloc_block s e = (addr, s', e') ->
  let s2 := pmm_free_block addr s' in
  free_set s2 = free_set s /\ pmm_get_free_block_count s2 = pmm_get_free_block_count s /\
  free_set (pmm_free_block addr s2) = free_set s.
Proof.
  intros Hw Hf Hne Ha. pose proof (alloc_block_wf _ _ _ _ _ Hw Ha) as Hw'.
  destruct Hw as [Hc _].
  edestruct alloc_block_result as [(He & _)|(k & Hk & Hi & Ha' & Ht & _)];
    [done | exact Hf | exact Ha | |].
  { rewrite (core_free _ Hc), He in Hne. done. }
  set (i := (next_free_hint64 s + k) mod PMM_TOTAL_BLOCKS) in *. clearbody i.
  pose proof Hi as [Hr _]%elem_of_free_set. destruct Ht as (_ & _ & Hs').
  rewrite blocks_snoc, blocks_empty, (left_id_L ∅ (∪)) in Hs' by lia.
  assert (u32 (addr / PMM_PAGE_SIZE) = i) as Hidx.
  { subst addr. rewrite Z.div_mul, u32_small by plia. done. }
  assert (forall t, pmm_core t -> pmm_core (pmm_free_block addr t) /\
    free_set (pmm_free_block addr t) = free_set t ∪ {[i]}) as Hrel by (intros t Hct; by apply free_block_ok).
  destruct (Hrel s' (proj1 Hw')) as [Hc2 Hs2]. destruct (Hrel _ Hc2) as [_ Hs3].
  assert (free_set (pmm_free_block addr s') = free_set s) as Heq.
  { rewrite Hs2, Hs'. by apply put_back. }
  cbn zeta. split_and!; [done | |].
  - unfold pmm_get_free_block_count. by rewrite (core_free _ Hc2), (core_free _ Hc), Heq.
  - rewrite Hs3, Heq. by apply add_member.
Qed.
End Spec.

(** ** Witnesses: a machine with six usable pages around the 2 MiB mark, one of
    them below it and one reserved. *)

Definition demo_entry : E820Entry := {|
  base_low := 0x1FF000; base_high := 0; length_low := 0x6000; length_high := 0;
  e820_type := 1; acpi_attrs := 1 |}.

Definition demo_boot : BootInfo := {|
  magic := BOOT_INFO_MAGIC; bi_size := sizeof_BootInfo; kernel_load_addr := 0x100000;
  kernel_sector_count := 0; kernel_file_size := 0x8000; memory_map := [demo_entry];
  memory_map_entry_count := 1; reserved_range_count := 1;
  reserved_range_entry_size := sizeof_BootReservedRange;
  reserved_ranges := [{| range_base := 0x202000; range_size := 0x1000 |}] |}.

(** The zero-initialised static state. *)
Definition pmm_bss : PmmState := {|
  memory_bitmap64 := replicate (Z.to_nat PMM_BITMAP_SIZE) 0; free_blocks64 := 0; next_free_hint64 := 0;
  alloc_requests64 := 0; alloc_contiguous_requests64 := 0; alloc_failures64 := 0;
  alloc_scan_steps64 := 0; free_requests64 := 0; peak_used_blocks64 := 0 |}.

Definition demo_state : PmmState := pmm_init (Some demo_boot) pmm_bss.

Lemma demo_boot_ok : boot_info_ok demo_boot.
Proof.
  constructor; try (simpl; unfold is_u32; lia).
  - intros k. destruct (Z.to_nat k) as [|n] eqn:Hk; unfold aget; rewrite Hk; [|destruct n];
      simpl; unfold entry_ok, is_u32; simpl; lia.
  - intros k. destruct (Z.to_nat k) as [|n] eqn:Hk; unfold aget; rewrite Hk; [|destruct n];
      simpl; unfold is_u64; simpl; lia.
Qed.

Lemma pmm_bss_len : alen (memory_bitmap64 pmm_bss) = PMM_BITMAP_SIZE.
Proof. simpl. rewrite alen_replicate. plia. Qed.

Lemma demo_wf : pmm_wf demo_state.
Proof. apply pmm_init_wf; [apply pmm_bss_len|]. intros b [= <-]. apply demo_boot_ok. Qed.

Lemma demo_usable i : 511 <= i < 517 -> usable_page demo_boot i.
Proof.
  intros Hi. exists 0. split; [unfold E820_MAX_ENTRIES; simpl; lia|].
  unfold entry_base, entry_length, PMM_PAGE_SIZE. simpl. split; [done | lia].
Qed.

Lemma demo_free i : 512 <= i < 517 -> i <> 514 -> i ∈ free_set demo_state.
Proof.
  intros Hi Hne. apply pmm_init_free_set; [apply demo_boot_ok | done | apply pmm_bss_len |].
  split; [split; [plia | apply demo_usable; lia]|].
  split; [unfold LOW_MEMORY_RESERVE_SIZE; plia|].
  unfold kernel_page, reserved_page, page_overlaps, PMM_PAGE_SIZE. split.
  - change (kernel_reserved_size64 demo_boot) with 0x8000. simpl. lia.
  - intros (_ & k & Hk & _ & Hp). unfold BOOT_RESERVED_RANGE_MAX in Hk. simpl in Hk.
    replace k with 0 in Hp by lia. simpl in Hp. lia.
Qed.

Lemma demo_nonempty : free_blocks64 demo_state <> 0.
Proof.
  rewrite (core_free _ (proj1 demo_wf)). pose proof (demo_free 512 ltac:(lia) ltac:(lia)) as Hin.
  intros H0. assert (size (free_set demo_state) = 0%nat) as Hs by lia.
  apply size_empty_inv, leibniz_equiv in Hs. rewrite Hs in Hin.
  exact (not_elem_of_empty _ Hin).
Qed.

Lemma pmm_reachable_invariant_witness :
  pmm_reachable (E := unit) demo_state /\ pmm_wf demo_state.
Proof.
  assert (pmm_reachable (E := unit) demo_state) as Hr.
  { apply reach_init; [apply pmm_bss_len|]. intros b [= <-]. apply demo_boot_ok. }
  split; [exact Hr | exact (pmm_reachable_invariant _ Hr)].
Defined.

Lemma pmm_init_exact_free_set_witness :
  513 ∈ free_set demo_state /\ (511 ∉ free_set demo_state) /\ (514 ∉ free_set demo_state).
Proof.
  pose proof (pmm_init_exact_free_set demo_boot pmm_bss demo_boot_ok eq_refl pmm_bss_len) as Hi.
  split; [apply demo_free; lia|]. unfold demo_state. rewrite !Hi. split.
  - intros (_ & Hlow & _). unfold LOW_MEMORY_RESERVE_SIZE, PMM_PAGE_SIZE in Hlow. lia.
  - intros (_ & _ & _ & Hr). apply Hr. split; [split; simpl; lia|].
    exists 0. split; [unfold BOOT_RESERVED_RANGE_MAX; simpl; lia|].
    unfold page_overlaps, PMM_PAGE_SIZE. simpl. lia.
Defined.

Lemma pmm_init_fails_closed_witness : free_set (pmm_init None pmm_bss) = ∅.
Proof. apply (pmm_init_fails_closed None pmm_bss pmm_bss_len). done. Defined.

#[local] Opaque demo_state.

Lemma pmm_alloc_block_next_fit_witness :
  exists addr s', pmm_alloc_block demo_state tt = (addr, s', tt) /\
    exists i, i ∈ free_set demo_state /\ addr = i * PMM_PAGE_SIZE /\
      free_set s' = free_set demo_state ∖ {[i]}.
Proof.
  destruct (pmm_alloc_block demo_state tt) as [[addr s'] []] eqn:Ha. exists addr, s'.
  split; [reflexivity|].
  destruct (pmm_alloc_block_next_fit (E := unit) demo_state tt tt addr s' tt demo_wf (quiet_no_fault _) Ha)
    as [(He & _)|(k & i & _ & _ & Hi & -> & Hs & _)].
  - exfalso. pose proof (demo_free 512 ltac:(lia) ltac:(lia)) as Hin. rewrite He in Hin.
    exact (not_elem_of_empty _ Hin).
  - exists i. split; [exact Hi | split; [reflexivity | exact Hs]].
Defined.

Lemma pmm_alloc_blocks_first_fit_witness :
  exists addr s', pmm_alloc_blocks 2 demo_state tt = (addr, s', tt) /\
    first_fit demo_state 2 (fun _ => True) (addr, s').
Proof.
  destruct (pmm_alloc_blocks 2 demo_state tt) as [[addr s'] []] eqn:Ha. exists addr, s'.
  split; [reflexivity|].
  apply (pmm_alloc_blocks_first_fit (E := unit) 2 demo_state tt tt addr s' tt demo_wf
    ltac:(split; lia) ltac:(lia) (quiet_no_fault _) Ha).
Defined.

Lemma pmm_alloc_constrained_first_fit_witness :
  exists addr s', pmm_alloc_blocks_constrained 1 4 0x10000 0xFFFFFFFF demo_state tt = (addr, s', tt) /\
    first_fit demo_state 1 (placement_ok 1 4 0x10000 0xFFFFFFFF) (addr, s').
Proof.
  destruct (pmm_alloc_blocks_constrained 1 4 0x10000 0xFFFFFFFF demo_state tt)
    as [[addr s'] []] eqn:Ha. exists addr, s'. split; [reflexivity|].
  apply (pmm_alloc_constrained_first_fit (E := unit) 1 4 0x10000 0xFFFFFFFF demo_state tt tt addr s' tt demo_wf
    ltac:(split; lia) ltac:(lia) ltac:(split; lia) ltac:(split; lia) ltac:(lia) eq_refl
    (quiet_no_fault _) Ha).
Defined.

Lemma pmm_alloc_free_roundtrip_witness :
  exists addr s', pmm_alloc_block demo_state tt = (addr, s', tt) /\
    free_set (pmm_free_block addr s') = free_set demo_state.
Proof.
  destruct (pmm_alloc_block demo_state tt) as [[addr s'] []] eqn:Ha. exists addr, s'.
  split; [reflexivity|].
  exact (proj1 (pmm_alloc_free_roundtrip (E := unit) demo_state tt tt addr s' tt demo_wf
    (quiet_no_fault _) demo_nonempty Ha)).
Defined.
