(* ===== verification/Spinlock.v ===== *)
(** * Interrupt-safe ordered spinlocks ([kernel/sync/spinlock.cpp])

    Lock objects, the per-CPU lock bookkeeping of [CpuLocal] that the file
    uses, the diagnostic counters, and the acquire and release operations of a
    CPU.  The busy-wait of an acquire is split at its atomic exchange, so that
    several CPUs interleave: [acquire_enter] is the code before the loop,
    [acquire_spin] one iteration of it with the exit path. *)

From S2P Require Import Prelude.

(** ** Constants ([include/kernel/spinlock.h]) *)

Definition KERNEL_LOCK_CLASS_NONE : Z := 0.
Definition KERNEL_LOCK_CLASS_PROCESS : Z := 1.
Definition KERNEL_LOCK_CLASS_ADDRESS_SPACE : Z := 2.
Definition KERNEL_LOCK_CLASS_HANDLE : Z := 3.
Definition KERNEL_LOCK_CLASS_IPC_SERVICE : Z := 4.
Definition KERNEL_LOCK_CLASS_VFS_DEVICE : Z := 5.
Definition KERNEL_LOCK_STACK_MAX : Z := 8.
Definition KERNEL_LOCK_NO_OWNER : Z := 0xFFFFFFFF.

(** ** Data *)

Record KernelSpinlock := { locked : Z; lock_class : Z; owner_cpu : Z }.
#[export] Instance KernelSpinlock_settable : Settable KernelSpinlock := {| eta_expand s := {|
  locked := locked s; lock_class := lock_class s; owner_cpu := owner_cpu s |} |}.
#[export] Instance KernelSpinlock_inhabited : Inhabited KernelSpinlock :=
  populate {| locked := 0; lock_class := 0; owner_cpu := 0 |}.

Record KernelSpinlockToken := {
  interrupt_flags : Z; previous_class : Z; tok_owner_cpu : Z; acquired : bool }.
#[export] Instance KernelSpinlockToken_settable : Settable KernelSpinlockToken :=
  {| eta_expand t := {| interrupt_flags := interrupt_flags t;
     previous_class := previous_class t; tok_owner_cpu := tok_owner_cpu t;
     acquired := acquired t |} |}.
#[export] Instance KernelSpinlockToken_inhabited : Inhabited KernelSpinlockToken :=
  populate {| interrupt_flags := 0; previous_class := 0; tok_owner_cpu := 0; acquired := false |}.

(** The fields of [CpuLocal] the lock code reads and writes. *)
Record CpuLocal := {
  held_locks : list Z;
  held_lock_depth : Z;
  preemption_disable_count : Z;
  tlb_wait_depth : Z;
}.
#[export] Instance CpuLocal_settable : Settable CpuLocal := {| eta_expand c := {|
  held_locks := held_locks c; held_lock_depth := held_lock_depth c;
  preemption_disable_count := preemption_disable_count c;
  tlb_wait_depth := tlb_wait_depth c |} |}.
#[export] Instance CpuLocal_inhabited : Inhabited CpuLocal :=
  populate {| held_locks := []; held_lock_depth := 0; preemption_disable_count := 0;
              tlb_wait_depth := 0 |}.

(** The [stat_] variables. *)
Record SpinStats := {
  stat_acquisitions : Z; stat_contentions : Z; stat_order_violations : Z;
  stat_recursion_violations : Z; stat_release_violations : Z;
  stat_wrong_cpu_violations : Z; stat_schedule_violations : Z;
  stat_tlb_wait_violations : Z; stat_tlb_wait_entries : Z; stat_maximum_depth : Z;
  stat_last_violation_type : Z; stat_last_held_class : Z; stat_last_requested_class : Z;
}.
#[export] Instance SpinStats_settable : Settable SpinStats := {| eta_expand s := {|
  stat_acquisitions := stat_acquisitions s; stat_contentions := stat_contentions s;
  stat_order_violations := stat_order_violations s;
  stat_recursion_violations := stat_recursion_violations s;
  stat_release_violations := stat_release_violations s;
  stat_wrong_cpu_violations := stat_wrong_cpu_violations s;
  stat_schedule_violations := stat_schedule_violations s;
  stat_tlb_wait_violations := stat_tlb_wait_violations s;
  stat_tlb_wait_entries := stat_tlb_wait_entries s;
  stat_maximum_depth := stat_maximum_depth s;
  stat_last_violation_type := stat_last_violation_type s;
  stat_last_held_class := stat_last_held_class s;
  stat_last_requested_class := stat_last_requested_class s |} |}.

(** The machine: lock objects by address, the [CpuLocal] of each CPU that has a
    valid one, the interrupt flag of each CPU, the counters. *)
Record SpinState := {
  lock_at : gmap Z KernelSpinlock;
  cpus : gmap Z CpuLocal;
  irq_on : gmap Z bool;
  stats : SpinStats;
}.
#[export] Instance SpinState_settable : Settable SpinState := {| eta_expand s := {|
  lock_at := lock_at s; cpus := cpus s; irq_on := irq_on s; stats := stats s |} |}.

Definition lock_get (s : SpinState) (l : Z) : KernelSpinlock := lock_at s !!! l.
Definition lock_put (l : Z) (k : KernelSpinlock) (s : SpinState) : SpinState :=
  s <| lock_at := <[l := k]> (lock_at s) |>.
Definition cpu_put (c : Z) (k : CpuLocal) (s : SpinState) : SpinState :=
  s <| cpus := <[c := k]> (cpus s) |>.

(** ** Helpers *)

(** The class of the innermost held lock, 0 when none is held. *)
Definition top_class (s : SpinState) (local : option CpuLocal) : Z :=
  match local with
  | Some k => if nonzero (held_lock_depth k)
              then lock_class (lock_get s (aget (held_locks k) (held_lock_depth k - 1))) else 0
  | None => 0
  end.

Definition stat_bump (f : SpinStats -> SpinStats) (s : SpinState) : SpinState :=
  s <| stats := f (stats s) |>.

Definition record_violation (c type_ requested_class : Z) (s : SpinState) : SpinState :=
  stat_bump (fun t => t <| stat_last_violation_type := type_ |>
                        <| stat_last_held_class := top_class s (cpus s !! c) |>
                        <| stat_last_requested_class := requested_class |>) s.

Definition order_violation (c type_ requested_class : Z) (s : SpinState) : SpinState :=
  record_violation c type_ requested_class
    (stat_bump (fun t => t <| stat_order_violations := u64 (stat_order_violations t + 1) |>) s).

(** [interrupt_save_disable] and [interrupt_restore]; bit 9 of RFLAGS is IF. *)
Definition irq_enabled (s : SpinState) (c : Z) : bool := default true (irq_on s !! c).

Definition interrupt_save_disable (c : Z) (s : SpinState) : Z * SpinState :=
  (if irq_enabled s c then Z.shiftl 1 9 else 0, s <| irq_on := <[c := false]> (irq_on s) |>).

Definition interrupt_restore (c flags : Z) (s : SpinState) : SpinState :=
  if nonzero (Z.land flags (Z.shiftl 1 9)) then s <| irq_on := <[c := true]> (irq_on s) |> else s.

Definition kernel_interrupts_enabled (c : Z) (s : SpinState) : bool := irq_enabled s c.

Definition kernel_spinlock_init (l class_ : Z) (s : SpinState) : SpinState :=
  if l =? 0 then s
  else lock_put l {| locked := 0; lock_class := class_; owner_cpu := KERNEL_LOCK_NO_OWNER |} s.

Definition kernel_in_tlb_wait (c : Z) (s : SpinState) : bool :=
  match cpus s !! c with Some k => nonzero (tlb_wait_depth k) | None => false end.

(** ** Acquire

    [acquire_enter] is the code of [kernel_spinlock_acquire] up to the loop: it
    answers whether the CPU goes on to spin. *)

Definition requested (s : SpinState) (l : Z) : Z :=
  if l =? 0 then 0 else lock_class (lock_get s l).

Definition acquire_enter (c l : Z) (s : SpinState) : bool * KernelSpinlockToken * SpinState :=
  let '(flags, s) := interrupt_save_disable c s in
  let owner := match cpus s !! c with Some _ => c | None => KERNEL_LOCK_NO_OWNER end in
  let token := {| interrupt_flags := flags; previous_class := top_class s (cpus s !! c);
                  tok_owner_cpu := owner; acquired := false |} in
  match cpus s !! c with
  | None =>
    (false, token, interrupt_restore c flags (order_violation c 1 (requested s l) s))
  | Some k =>
    if (owner =? KERNEL_LOCK_NO_OWNER) || kernel_in_tlb_wait c s then
      (false, token, interrupt_restore c flags (order_violation c 1 (requested s l) s))
    else
      let leave s := interrupt_restore c flags (cpu_put c k s) in
      let s := cpu_put c
        (k <| preemption_disable_count := u32 (preemption_disable_count k + 1) |>) s in
      if (l =? 0) || (lock_class (lock_get s l) =? KERNEL_LOCK_CLASS_NONE)
         || (KERNEL_LOCK_CLASS_VFS_DEVICE <? lock_class (lock_get s l))
         || (KERNEL_LOCK_STACK_MAX <=? held_lock_depth k) then
        (false, token, leave (order_violation c 1 (requested s l) s))
      else if nonzero (held_lock_depth k)
              && (aget (held_locks k) (held_lock_depth k - 1) =? l) then
        (false, token, leave (record_violation c 2 (lock_class (lock_get s l))
           (stat_bump (fun t =>
              t <| stat_recursion_violations := u64 (stat_recursion_violations t + 1) |>) s)))
      else if nonzero (held_lock_depth k)
              && (lock_class (lock_get s l) <=?
                  lock_class (lock_get s (aget (held_locks k) (held_lock_depth k - 1)))) then
        (false, token, leave (order_violation c 1 (lock_class (lock_get s l)) s))
      else (true, token, s)
  end.

(** One iteration of the busy-wait: the atomic exchange and, when the lock was
    free, the rest of the function. *)
Definition acquire_spin (c l : Z) (token : KernelSpinlockToken) (s : SpinState)
    : bool * KernelSpinlockToken * SpinState :=
  if nonzero (locked (lock_get s l)) then
    (false, token,
     stat_bump (fun t => t <| stat_contentions := u64 (stat_contentions t + 1) |>) s)
  else
    let k := cpus s !!! c in
    let s := lock_put l ((lock_get s l) <| locked := 1 |> <| owner_cpu := tok_owner_cpu token |>) s in
    let depth := u32 (held_lock_depth k + 1) in
    let s := cpu_put c (k <| held_locks := aset (held_locks k) (held_lock_depth k) l |>
                          <| held_lock_depth := depth |>) s in
    let s := stat_bump (fun t =>
      if stat_maximum_depth t <? depth then t <| stat_maximum_depth := depth |> else t) s in
    let s := stat_bump (fun t => t <| stat_acquisitions := u64 (stat_acquisitions t + 1) |>) s in
    (true, token <| acquired := true |>, s).

(** ** Release *)

Definition release_violation (c type_ class_ : Z) (s : SpinState) : SpinState :=
  record_violation c type_ class_
    (stat_bump (fun t => t <| stat_release_violations := u64 (stat_release_violations t + 1) |>) s).

Definition spinlock_release (c l : Z) (token : option KernelSpinlockToken) (s : SpinState)
    : option KernelSpinlockToken * SpinState :=
  match token, cpus s !! c with
  | Some tok, Some k =>
    if negb (acquired tok) || (l =? 0) then (token, release_violation c 3 (requested s l) s)
    else if negb (tok_owner_cpu tok =? c) || negb (owner_cpu (lock_get s l) =? c) then
      (token, record_violation c 4 (lock_class (lock_get s l))
         (stat_bump (fun t =>
            t <| stat_release_violations := u64 (stat_release_violations t + 1) |>
              <| stat_wrong_cpu_violations := u64 (stat_wrong_cpu_violations t + 1) |>) s))
    else if (held_lock_depth k =? 0)
            || negb (aget (held_locks k) (held_lock_depth k - 1) =? l)
            || (preemption_disable_count k =? 0) then
      (token, release_violation c 3 (lock_class (lock_get s l)) s)
    else
      let depth := held_lock_depth k - 1 in
      let s := lock_put l ((lock_get s l) <| owner_cpu := KERNEL_LOCK_NO_OWNER |>
                                          <| locked := 0 |>) s in
      let s := cpu_put c (k <| held_locks := aset (held_locks k) depth 0 |>
          <| held_lock_depth := depth |>
          <| preemption_disable_count := preemption_disable_count k - 1 |>) s in
      (Some (tok <| acquired := false |>), interrupt_restore c (interrupt_flags tok) s)
  | _, _ => (token, release_violation c 3 (requested s l) s)
  end.

(** ** Queries, scheduling and TLB waits *)

Definition kernel_spinlock_depth (c : Z) (s : SpinState) : Z :=
  match cpus s !! c with Some k => held_lock_depth k | None => 0 end.

Definition kernel_preemption_disable_depth (c : Z) (s : SpinState) : Z :=
  match cpus s !! c with Some k => preemption_disable_count k | None => 0 end.

Definition kernel_spinlock_assert_can_schedule (c : Z) (s : SpinState) : bool * SpinState :=
  if nonzero (kernel_spinlock_depth c s) || nonzero (kernel_preemption_disable_depth c s) then
    (false, record_violation c 5 0 (stat_bump (fun t =>
       t <| stat_schedule_violations := u64 (stat_schedule_violations t + 1) |>) s))
  else (true, s).

Definition tlb_violation (c : Z) (s : SpinState) : SpinState :=
  record_violation c 6 0 (stat_bump (fun t =>
    t <| stat_tlb_wait_violations := u64 (stat_tlb_wait_violations t + 1) |>) s).

Definition kernel_tlb_wait_enter (c : Z) (s : SpinState) : bool * SpinState :=
  match cpus s !! c with
  | None => (false, tlb_violation c s)
  | Some k =>
    if nonzero (kernel_spinlock_depth c s) || negb (kernel_interrupts_enabled c s)
       || nonzero (tlb_wait_depth k) then (false, tlb_violation c s)
    else
      let s := cpu_put c (k <| preemption_disable_count := u32 (preemption_disable_count k + 1) |>
                            <| tlb_wait_depth := 1 |>) s in
      (true, stat_bump (fun t =>
         t <| stat_tlb_wait_entries := u64 (stat_tlb_wait_entries t + 1) |>) s)
  end.

Definition kernel_tlb_wait_leave (c : Z) (s : SpinState) : SpinState :=
  match cpus s !! c with
  | None => tlb_violation c s
  | Some k =>
    if negb (tlb_wait_depth k =? 1) || (preemption_disable_count k =? 0) then tlb_violation c s
    else cpu_put c (k <| tlb_wait_depth := 0 |>
                      <| preemption_disable_count := preemption_disable_count k - 1 |>) s
  end.

Record KernelSpinlockStats := {
  ss_counters : SpinStats; ss_current_depth : Z; ss_current_class : Z;
  ss_preemption_disable_depth : Z; ss_interrupts_enabled : Z }.

Definition kernel_spinlock_get_stats (c : Z) (s : SpinState) : KernelSpinlockStats := {|
  ss_counters := stats s;
  ss_current_depth := kernel_spinlock_depth c s;
  ss_current_class := top_class s (cpus s !! c);
  ss_preemption_disable_depth := kernel_preemption_disable_depth c s;
  ss_interrupts_enabled := if kernel_interrupts_enabled c s then 1 else 0 |}.

Definition kernel_spinlock_reset_stats (c : Z) (s : SpinState) : SpinState :=
  s <| stats := {| stat_acquisitions := 0; stat_contentions := 0; stat_order_violations := 0;
    stat_recursion_violations := 0; stat_release_violations := 0;
    stat_wrong_cpu_violations := 0; stat_schedule_violations := 0;
    stat_tlb_wait_violations := 0; stat_tlb_wait_entries := 0;
    stat_maximum_depth := kernel_spinlock_depth c s; stat_last_violation_type := 0;
    stat_last_held_class := 0; stat_last_requested_class := 0 |} |>.
