(* ===== verification/SpinlockSpec.v ===== *)
(** * Mutual exclusion and deadlock freedom of the ordered spinlocks

    Several CPUs run the lock code of [kernel/sync/spinlock.cpp] concurrently.
    A step of the machine is a call that does not wait, the part of an acquire
    before its busy-wait, one iteration of the busy-wait, or a release with any
    arguments whatever.  The invariant of the reachable machines gives mutual
    exclusion, the class order of nested locks, and that CPUs never wait for
    each other in a cycle. *)

From S2P Require Import Prelude Spinlock.

(** The machine and, for each CPU in the busy-wait, its lock and token. *)
Record Machine := { mach : SpinState; waiting : gmap Z (Z * KernelSpinlockToken) }.

Inductive spin_step : Machine -> Machine -> Prop :=
| step_init_lock M l class_ :
    lock_at (mach M) !! l = None -> is_u32 class_ ->
    spin_step M {| mach := kernel_spinlock_init l class_ (mach M); waiting := waiting M |}
| step_refused M c l tok s :
    waiting M !! c = None -> acquire_enter c l (mach M) = (false, tok, s) ->
    spin_step M {| mach := s; waiting := waiting M |}
| step_enter M c l tok s :
    waiting M !! c = None -> acquire_enter c l (mach M) = (true, tok, s) ->
    spin_step M {| mach := s; waiting := <[c := (l, tok)]> (waiting M) |}
| step_spin M c l tok tok' s :
    waiting M !! c = Some (l, tok) -> acquire_spin c l tok (mach M) = (false, tok', s) ->
    spin_step M {| mach := s; waiting := waiting M |}
| step_taken M c l tok tok' s :
    waiting M !! c = Some (l, tok) -> acquire_spin c l tok (mach M) = (true, tok', s) ->
    spin_step M {| mach := s; waiting := delete c (waiting M) |}
| step_release M c l tok tok' s :
    waiting M !! c = None -> spinlock_release c l tok (mach M) = (tok', s) ->
    spin_step M {| mach := s; waiting := waiting M |}
| step_tlb_enter M c :
    waiting M !! c = None ->
    spin_step M {| mach := (kernel_tlb_wait_enter c (mach M)).2; waiting := waiting M |}
| step_tlb_leave M c :
    waiting M !! c = None ->
    spin_step M {| mach := kernel_tlb_wait_leave c (mach M); waiting := waiting M |}
| step_schedule M c :
    waiting M !! c = None ->
    spin_step M {| mach := (kernel_spinlock_assert_can_schedule c (mach M)).2;
                   waiting := waiting M |}.

(** CPU [c] holds lock [l] at position [i] of its lock stack. *)
Definition holds (s : SpinState) (c i l : Z) : Prop :=
  exists k, cpus s !! c = Some k /\ 0 <= i < held_lock_depth k /\ aget (held_locks k) i = l.

(** A boot state: no CPU holds or waits for a lock. *)
Definition initial (M : Machine) : Prop :=
  waiting M = ∅ /\ (forall l, locked (lock_get (mach M) l) = 0) /\
  (forall l, is_u32 (lock_class (lock_get (mach M) l))) /\
  forall c k, cpus (mach M) !! c = Some k ->
    c <> KERNEL_LOCK_NO_OWNER /\ alen (held_locks k) = KERNEL_LOCK_STACK_MAX /\
    held_lock_depth k = 0.

Inductive reachable : Machine -> Prop :=
| reachable_initial M : initial M -> reachable M
| reachable_step M M' : reachable M -> spin_step M M' -> reachable M'.

Record lock_inv (s : SpinState) : Prop := {
  li_cpu : forall c k, cpus s !! c = Some k ->
    c <> KERNEL_LOCK_NO_OWNER /\ alen (held_locks k) = KERNEL_LOCK_STACK_MAX /\
    0 <= held_lock_depth k;
  li_class : forall l, 0 <= lock_class (lock_get s l);
  li_held : forall c i l, holds s c i l ->
    i + 1 <= lock_class (lock_get s l) <= KERNEL_LOCK_CLASS_VFS_DEVICE /\
    locked (lock_get s l) = 1 /\ owner_cpu (lock_get s l) = c;
  li_order : forall c i j l l', holds s c i l -> holds s c j l' -> i < j ->
    lock_class (lock_get s l) < lock_class (lock_get s l');
  li_locked : forall l, locked (lock_get s l) <> 0 -> exists c i, holds s c i l;
}.

(** What holds of a CPU in the busy-wait for [l]. *)
Definition may_take (s : SpinState) (c l : Z) (tok : KernelSpinlockToken) : Prop :=
  tok_owner_cpu tok = c /\
  0 < lock_class (lock_get s l) <= KERNEL_LOCK_CLASS_VFS_DEVICE /\
  (exists k, cpus s !! c = Some k) /\
  forall i l', holds s c i l' -> lock_class (lock_get s l') < lock_class (lock_get s l).

Definition spin_inv (M : Machine) : Prop :=
  lock_inv (mach M) /\
  forall c l tok, waiting M !! c = Some (l, tok) -> may_take (mach M) c l tok.

(** ** States that agree on what matters *)

Definition same_locks (s s' : SpinState) : Prop :=
  (forall l, lock_get s' l = lock_get s l) /\
  (forall c i l, holds s' c i l <-> holds s c i l) /\
  (forall c k', cpus s' !! c = Some k' -> exists k, cpus s !! c = Some k /\
     held_locks k' = held_locks k /\ held_lock_depth k' = held_lock_depth k) /\
  (forall c k, cpus s !! c = Some k -> is_Some (cpus s' !! c)).

Lemma same_locks_inv s s' : same_locks s s' -> lock_inv s -> lock_inv s'.
Proof.
  intros (Hl & Hh & Hc & _) []. constructor.
  - intros c k' (k & Hk & He & Hd)%Hc. rewrite He, Hd. by apply li_cpu0.
  - intros l. by rewrite Hl.
  - intros c i l Hho. rewrite Hl. by apply (li_held0 c i), Hh.
  - intros c i j l l' H1 H2 Hij. rewrite !Hl. apply (li_order0 c i j); [by apply Hh | by apply Hh | done].
  - intros l. rewrite Hl. intros (c & i & ?)%li_locked0. exists c, i. by apply Hh.
Qed.

Lemma same_locks_may s s' c l tok : same_locks s s' -> may_take s c l tok -> may_take s' c l tok.
Proof.
  intros (Hl & Hh & _ & Hc) (? & ? & (k & Hk) & Hlt). unfold may_take. rewrite Hl.
  split_and!; try done; try lia; [by destruct (Hc _ _ Hk); eauto|].
  intros i l' Hho. rewrite Hl. by apply (Hlt i), Hh.
Qed.

Lemma same_locks_spin M s : same_locks (mach M) s -> spin_inv M ->
  spin_inv {| mach := s; waiting := waiting M |}.
Proof.
  intros Hs [Hi Hw]. split; [by eapply same_locks_inv|]. simpl. intros.
  eapply same_locks_may; eauto.
Qed.

Lemma same_locks_refl s : same_locks s s.
Proof. split_and!; eauto. Qed.

Lemma same_locks_trans s1 s2 s3 : same_locks s1 s2 -> same_locks s2 s3 -> same_locks s1 s3.
Proof.
  intros (L1 & H1 & C1 & D1) (L2 & H2 & C2 & D2). split_and!.
  - intros. by rewrite L2, L1.
  - intros. by rewrite H2, H1.
  - intros c k3 (k2 & Hk2 & Ha & Hb)%C2. destruct (C1 _ _ Hk2) as (k1 & ? & ? & ?).
    exists k1. split_and!; congruence.
  - intros c k Hk. destruct (D1 _ _ Hk) as [k2 Hk2]. eauto.
Qed.

(** Counters, interrupt flags and preemption counts do not matter. *)
Lemma same_locks_ext s s' : cpus s' = cpus s -> lock_at s' = lock_at s -> same_locks s s'.
Proof. intros Hc Hl. unfold same_locks, holds, lock_get. rewrite Hc, Hl. split_and!; eauto. Qed.
Lemma same_locks_irq_restore c flags s : same_locks s (interrupt_restore c flags s).
Proof. unfold interrupt_restore. csplit; by apply same_locks_ext. Qed.

Lemma same_locks_cpu_put c k k0 s : cpus s !! c = Some k0 ->
  held_locks k = held_locks k0 -> held_lock_depth k = held_lock_depth k0 ->
  same_locks s (cpu_put c k s).
Proof.
  intros Hk Hh Hd. unfold same_locks, holds, cpu_put. simpl. split_and!; [done | | |].
  - intros c' i l. destruct (decide (c' = c)) as [->|Hne].
    + rewrite lookup_insert_eq, Hk. split; intros (k' & [= <-] & Hi & Ha).
      * exists k0. by rewrite <- Hh, <- Hd.
      * exists k. by rewrite Hh, Hd.
    + by rewrite lookup_insert_ne.
  - intros c' k'. destruct (decide (c' = c)) as [->|Hne].
    + rewrite lookup_insert_eq. intros [= <-]. eauto.
    + rewrite lookup_insert_ne by done. eauto.
  - intros c' k' Hk'. destruct (decide (c' = c)) as [->|Hne].
    + rewrite lookup_insert_eq. eauto.
    + rewrite lookup_insert_ne by done. eauto.
Qed.

(** The order test against the innermost lock covers every held lock. *)
Lemma top_below s c l k : lock_inv s -> cpus s !! c = Some k ->
  nonzero (held_lock_depth k)
    && (lock_class (lock_get s l) <=?
        lock_class (lock_get s (aget (held_locks k) (held_lock_depth k - 1)))) = false ->
  forall i l', holds s c i l' -> lock_class (lock_get s l') < lock_class (lock_get s l).
Proof.
  intros Hinv Hk Hord i l' Hl'. pose proof Hl' as (k' & Hk' & Hi & Ha).
  replace k' with k in * by congruence. clear Hk'.
  set (d := held_lock_depth k - 1) in *.
  assert (holds s c d (aget (held_locks k) d)) as Hd by (exists k; split_and!; done || lia).
  apply andb_false_iff in Hord as [Hz|Hord]; bprop; [lia|].
  destruct (decide (i = d)) as [->|]; [by rewrite <- Ha|].
  pose proof (li_order _ Hinv c i d _ _ Hl' Hd ltac:(lia)). lia.
Qed.

(** The lock is not taken and the held stacks are as before when an acquire is
    refused; when it goes on to spin, the CPU may take the lock. *)
Lemma acquire_enter_spec c l s ok tok s' : lock_inv s ->
  acquire_enter c l s = (ok, tok, s') ->
  same_locks s s' /\ (ok = true -> may_take s' c l tok).
Proof.
  intros Hinv. unfold acquire_enter. destruct (interrupt_save_disable c s) as [flags s0] eqn:Hirq.
  assert (same_locks s s0) as H0 by (injection Hirq as _ <-; by apply same_locks_ext).
  pose proof (same_locks_inv _ _ H0 Hinv) as Hinv0. clear Hirq.
  assert (forall t r, same_locks s (interrupt_restore c flags (order_violation c t r s0))) as Hout.
  { intros t r. eapply same_locks_trans; [exact H0|].
    eapply same_locks_trans; [|apply same_locks_irq_restore]. by apply same_locks_ext. }
  cbv zeta. destruct (cpus s0 !! c) as [k|] eqn:Hk; [|intros [= <- <- <-]; by split].
  if_eqn Htlb; [intros [= <- <- <-]; by split|]. clear Hout.
  set (k1 := k <| preemption_disable_count := _ |>). set (s1 := cpu_put c k1 s0).
  assert (same_locks s0 s1) as H1 by (by apply (same_locks_cpu_put c k1 k)).
  assert (cpus s1 !! c = Some k1) as Hk1 by apply lookup_insert_eq.
  assert (forall s2, cpus s2 = cpus s1 -> lock_at s2 = lock_at s1 ->
    same_locks s (interrupt_restore c flags (cpu_put c k s2))) as Hleave.
  { intros s2 Hc Hl. eapply same_locks_trans; [exact H0|]. eapply same_locks_trans; [exact H1|].
    eapply same_locks_trans; [by apply same_locks_ext|].
    eapply same_locks_trans; [|apply same_locks_irq_restore].
    apply (same_locks_cpu_put c k k1); [by rewrite Hc | done | done]. }
  assert (held_locks k1 = held_locks k /\ held_lock_depth k1 = held_lock_depth k) as [Hh Hd] by done.
  pose proof (same_locks_inv _ _ H1 Hinv0) as Hinv1. clearbody s1 k1.
  if_eqn Hbad; [intros [= <- <- <-]; split; [by apply Hleave | done]|].
  if_eqn Hrec; [intros [= <- <- <-]; split; [by apply Hleave | done]|].
  if_eqn Hord; [intros [= <- <- <-]; split; [by apply Hleave | done]|].
  intros [= <- <- <-]. split; [exact (same_locks_trans _ _ _ H0 H1)|]. intros _.
  rewrite <- Hh, <- Hd in Hord. apply orb_false_iff in Hbad as [Hbad _].
  apply orb_false_iff in Hbad as [Hbad Hmax]. apply orb_false_iff in Hbad as [_ Hnone].
  unfold may_take, KERNEL_LOCK_CLASS_NONE in *. pose proof (li_class _ Hinv1 l).
  apply Z.eqb_neq in Hnone. apply Z.ltb_ge in Hmax.
  split; [done|]. split; [lia|]. split; [eauto|]. by apply (top_below s1 c l k1).
Qed.

(** ** Taking and releasing *)

Lemma lock_get_put s l l' k : lock_get (lock_put l k s) l' = if decide (l = l') then k else lock_get s l'.
Proof.
  unfold lock_get, lock_put. simpl. rewrite lookup_total_insert. by repeat case_decide.
Qed.

Lemma lock_get_bump f s l : lock_get (stat_bump f s) l = lock_get s l.
Proof. done. Qed.
Lemma lock_get_cpu_put c k s l : lock_get (cpu_put c k s) l = lock_get s l.
Proof. done. Qed.

(** Pushing [l] on the lock stack of [c]. *)
Lemma holds_push s c k k' l c' i l' : cpus s !! c = Some k ->
  0 <= held_lock_depth k < alen (held_locks k) ->
  held_locks k' = aset (held_locks k) (held_lock_depth k) l ->
  held_lock_depth k' = held_lock_depth k + 1 ->
  holds (cpu_put c k' s) c' i l' <->
  holds s c' i l' \/ (c' = c /\ i = held_lock_depth k /\ l' = l).
Proof.
  intros Hk Hd Hh Hdep. unfold holds, cpu_put. simpl.
  destruct (decide (c' = c)) as [->|Hne].
  - rewrite lookup_insert_eq, Hk. split.
    + intros (k1 & [= <-] & Hi & Ha). rewrite Hdep in Hi. rewrite Hh, aget_aset in Ha by lia.
      case_decide; [right; split_and!; congruence|]. left. exists k. split_and!; [done | lia | lia | done].
    + intros [(k1 & [= <-] & Hi & Ha)|(_ & -> & ->)]; exists k'; rewrite Hdep, Hh;
        (split; [done|]); (split; [lia|]); rewrite aget_aset by lia; case_decide; done || lia.
  - rewrite lookup_insert_ne by done. split; [by left|]. intros [?|(? & _)]; done.
Qed.

(** Popping the innermost lock of [c]. *)
Lemma holds_pop s c k k' x c' i l' : cpus s !! c = Some k ->
  0 < held_lock_depth k <= alen (held_locks k) ->
  held_locks k' = aset (held_locks k) (held_lock_depth k - 1) x ->
  held_lock_depth k' = held_lock_depth k - 1 ->
  holds (cpu_put c k' s) c' i l' <->
  holds s c' i l' /\ ~ (c' = c /\ i = held_lock_depth k - 1).
Proof.
  intros Hk Hd Hh Hdep. unfold holds, cpu_put. simpl.
  destruct (decide (c' = c)) as [->|Hne].
  - rewrite lookup_insert_eq, Hk. split.
    + intros (k1 & [= <-] & Hi & Ha). rewrite Hdep in Hi. rewrite Hh, aget_aset_ne in Ha by lia.
      split; [exists k; split_and!; done || lia | lia].
    + intros [(k1 & [= <-] & Hi & Ha) Hn]. exists k'. rewrite Hdep, Hh.
      rewrite aget_aset_ne by lia. split_and!; done || lia.
  - rewrite lookup_insert_ne by done. split; [|tauto]. intros ?. split; [done|]. by intros [? _].
Qed.

(** The depth of a lock stack is bounded by the classes: the stack never fills. *)
Lemma depth_bound s c k : lock_inv s -> cpus s !! c = Some k -> held_lock_depth k <= 5.
Proof.
  intros Hinv Hk. destruct (Z.le_gt_cases (held_lock_depth k) 0); [lia|].
  pose proof (li_held _ Hinv c (held_lock_depth k - 1) (aget (held_locks k) (held_lock_depth k - 1)))
    as [Hc _]; [exists k; split_and!; done || lia|].
  unfold KERNEL_LOCK_CLASS_VFS_DEVICE in Hc. lia.
Qed.

(** The invariant after pushing a free lock of a class above every held one. *)
Lemma push_inv s c l k k' l1 s2 : lock_inv s -> cpus s !! c = Some k ->
  0 < lock_class (lock_get s l) <= KERNEL_LOCK_CLASS_VFS_DEVICE ->
  (forall i l', holds s c i l' -> lock_class (lock_get s l') < lock_class (lock_get s l)) ->
  locked (lock_get s l) = 0 ->
  lock_class l1 = lock_class (lock_get s l) -> locked l1 = 1 -> owner_cpu l1 = c ->
  alen (held_locks k') = KERNEL_LOCK_STACK_MAX -> held_lock_depth k' = held_lock_depth k + 1 ->
  cpus s2 = <[c := k']> (cpus s) ->
  (forall l', lock_get s2 l' = if decide (l = l') then l1 else lock_get s l') ->
  (forall c' i l', holds s2 c' i l' <-> holds s c' i l' \/
     (c' = c /\ i = held_lock_depth k /\ l' = l)) ->
  lock_inv s2.
Proof.
  intros Hinv Hk Hcl Hbelow Hfree Hc1 Hl1 Ho1 Hlen' Hd' Hcpus Hget Hholds.
  pose proof (li_cpu _ Hinv c k Hk) as (Hid & Hlen & Hd0).
  assert (forall l', lock_class (lock_get s2 l') = lock_class (lock_get s l')) as Hclass.
  { intros l'. rewrite Hget. by case_decide; subst. }
  assert (forall c' i l', holds s c' i l' -> l <> l') as Hfresh.
  { intros c' i l' Hh <-. destruct (li_held _ Hinv _ _ _ Hh) as (_ & H1 & _). lia. }
  assert (held_lock_depth k + 1 <= lock_class (lock_get s l)) as Hnext.
  { destruct (decide (held_lock_depth k = 0)) as [|Hnz]; [lia|].
    assert (holds s c (held_lock_depth k - 1) (aget (held_locks k) (held_lock_depth k - 1))) as Ht
      by (exists k; split_and!; done || lia).
    pose proof (proj1 (li_held _ Hinv _ _ _ Ht)). pose proof (Hbelow _ _ Ht). lia. }
  constructor.
  - intros c' k1. rewrite Hcpus. destruct (decide (c' = c)) as [->|].
    + rewrite lookup_insert_eq. intros [= <-]. split_and!; done || lia.
    + rewrite lookup_insert_ne by done. apply Hinv.
  - intros l'. rewrite Hclass. apply Hinv.
  - intros c' i l' [Hh|(-> & -> & ->)]%Hholds; rewrite Hclass, Hget.
    + rewrite decide_False by (by eapply Hfresh). by apply (li_held _ Hinv).
    + rewrite decide_True by done. split_and!; done || lia.
  - intros c' i j l' l'' Hi%Hholds Hj%Hholds Hij. rewrite !Hclass.
    destruct Hi as [Hi|(-> & -> & ->)], Hj as [Hj|(Hcc & -> & ->)].
    + by apply (li_order _ Hinv c' i j).
    + subst c'. by apply (Hbelow i).
    + destruct Hj as (k1 & Hk1 & Hr & _). rewrite Hk in Hk1. injection Hk1 as <-. lia.
    + lia.
  - intros l'. rewrite Hget. case_decide as Hl'.
    + intros _. exists c, (held_lock_depth k). apply Hholds. subst. by right.
    + intros (c' & i & Hh)%(li_locked _ Hinv). exists c', i. apply Hholds. by left.
Qed.

Lemma acquire_spin_spec c l tok s tok' s' : lock_inv s -> may_take s c l tok ->
  acquire_spin c l tok s = (true, tok', s') ->
  lock_inv s' /\ locked (lock_get s l) = 0 /\
  (forall l', lock_class (lock_get s' l') = lock_class (lock_get s l')) /\
  (forall c' i l', holds s' c' i l' <-> holds s c' i l' \/
     exists k, cpus s !! c = Some k /\ c' = c /\ i = held_lock_depth k /\ l' = l) /\
  (forall c', is_Some (cpus s' !! c') <-> is_Some (cpus s !! c')).
Proof.
  intros Hinv (Htok & Hcl & (k & Hk) & Hbelow). unfold acquire_spin.
  if_eqn Hl; [done|]. rewrite (lookup_total_correct _ _ _ Hk). cbv zeta.
  pose proof (li_cpu _ Hinv c k Hk) as (Hid & Hlen & Hd0).
  pose proof (depth_bound _ _ _ Hinv Hk) as Hd5. unfold KERNEL_LOCK_STACK_MAX in Hlen.
  rewrite u32_small by (split; lia). intros [= _ <-].
  set (l1 := (lock_get s l) <| locked := 1 |> <| owner_cpu := tok_owner_cpu tok |>).
  set (k' := k <| held_locks := aset (held_locks k) (held_lock_depth k) l |>
               <| held_lock_depth := held_lock_depth k + 1 |>).
  match goal with |- lock_inv ?t /\ _ => set (s2 := t) end.
  assert (same_locks (cpu_put c k' (lock_put l l1 s)) s2) as Hsame by (by apply same_locks_ext).
  assert (forall c' i l', holds s2 c' i l' <-> holds s c' i l' \/
     (c' = c /\ i = held_lock_depth k /\ l' = l)) as Hholds.
  { intros c' i l'. rewrite (proj1 (proj2 Hsame)).
    by rewrite (holds_push (lock_put l l1 s) c k k' l) by (done || lia). }
  assert (forall l', lock_get s2 l' = if decide (l = l') then l1 else lock_get s l')
    as Hget by (intros l'; apply (lock_get_put s)).
  assert (cpus s2 = <[c := k']> (cpus s)) as Hcpus by done.
  clearbody s2. split; [|split; [unfold nonzero in Hl; bprop; done|]].
  - apply (push_inv s c l k k' l1 s2 Hinv Hk Hcl Hbelow); try done.
    + unfold nonzero in Hl. by bprop.
    + simpl. by rewrite alen_aset, Hlen.
  - split; [intros l'; rewrite Hget; by case_decide; subst|]. split.
    + intros c' i l'. rewrite Hholds, Hk. apply or_iff_compat_l.
      split; [eauto 10 | intros (? & [= <-] & ?); done].
    + intros c'. rewrite Hcpus. destruct (decide (c' = c)) as [->|].
      * rewrite lookup_insert_eq, Hk. done.
      * by rewrite lookup_insert_ne.
Qed.

(** The invariant after giving back the innermost lock. *)
Lemma pop_inv s c l k k' l1 s2 : lock_inv s -> cpus s !! c = Some k ->
  0 < held_lock_depth k -> aget (held_locks k) (held_lock_depth k - 1) = l ->
  lock_class l1 = lock_class (lock_get s l) -> locked l1 = 0 ->
  alen (held_locks k') = KERNEL_LOCK_STACK_MAX -> held_lock_depth k' = held_lock_depth k - 1 ->
  cpus s2 = <[c := k']> (cpus s) ->
  (forall l', lock_get s2 l' = if decide (l = l') then l1 else lock_get s l') ->
  (forall c' i l', holds s2 c' i l' <-> holds s c' i l' /\
     ~ (c' = c /\ i = held_lock_depth k - 1)) ->
  lock_inv s2.
Proof.
  intros Hinv Hk Hd Htop Hc1 Hl1 Hlen' Hd' Hcpus Hget Hholds.
  assert (holds s c (held_lock_depth k - 1) l) as Ht by (exists k; split_and!; done || lia).
  assert (forall l', lock_class (lock_get s2 l') = lock_class (lock_get s l')) as Hclass.
  { intros l'. rewrite Hget. by case_decide; subst. }
  assert (forall c' i l', holds s2 c' i l' -> l <> l') as Hother.
  { intros c' i l' [Hh Hn]%Hholds <-. apply Hn.
    pose proof (proj2 (proj2 (li_held _ Hinv _ _ _ Hh))) as Ho.
    rewrite (proj2 (proj2 (li_held _ Hinv _ _ _ Ht))) in Ho. subst c'. split; [done|].
    destruct (Z.lt_trichotomy i (held_lock_depth k - 1)) as [Hlt|[?|Hgt]]; [|done|].
    - pose proof (li_order _ Hinv _ _ _ _ _ Hh Ht Hlt). lia.
    - pose proof (li_order _ Hinv _ _ _ _ _ Ht Hh Hgt). lia. }
  constructor.
  - intros c' k1. rewrite Hcpus. destruct (decide (c' = c)) as [->|].
    + rewrite lookup_insert_eq. intros [= <-]. pose proof (li_cpu _ Hinv c k Hk).
      split_and!; tauto || lia.
    + rewrite lookup_insert_ne by done. apply Hinv.
  - intros l'. rewrite Hclass. apply Hinv.
  - intros c' i l' Hh. rewrite Hclass, Hget. rewrite decide_False by (by eapply Hother).
    apply (li_held _ Hinv). by apply Hholds in Hh as [].
  - intros c' i j l' l'' [Hi _]%Hholds [Hj _]%Hholds Hij. rewrite !Hclass.
    by apply (li_order _ Hinv c' i j).
  - intros l'. rewrite Hget. case_decide as Hl'; [by rewrite Hl1|].
    intros (c' & i & Hh)%(li_locked _ Hinv). exists c', i. apply Hholds. split; [done|].
    intros [-> ->]. apply Hl'. destruct Hh as (k1 & Hk1 & _ & <-). congruence.
Qed.

(** A release either leaves the locks alone or gives back the innermost lock of
    the calling CPU. *)
Lemma release_spec c l tok s tok' s' : lock_inv s ->
  spinlock_release c l tok s = (tok', s') ->
  same_locks s s' \/
  (lock_inv s' /\ (forall l', lock_class (lock_get s' l') = lock_class (lock_get s l')) /\
   (forall c' i l', holds s' c' i l' -> holds s c' i l') /\
   (forall c', is_Some (cpus s' !! c') <-> is_Some (cpus s !! c'))).
Proof.
  intros Hinv. unfold spinlock_release.
  destruct tok as [tok|]; [|intros [= _ <-]; left; by apply same_locks_ext].
  destruct (cpus s !! c) as [k|] eqn:Hk; [|intros [= _ <-]; left; by apply same_locks_ext].
  if_eqn Ha; [intros [= _ <-]; left; by apply same_locks_ext|].
  if_eqn Ho; [intros [= _ <-]; left; by apply same_locks_ext|].
  if_eqn Hd; [intros [= _ <-]; left; by apply same_locks_ext|].
  cbv zeta. intros [= _ <-]. right.
  pose proof (li_cpu _ Hinv c k Hk) as (Hid & Hlen & Hd0).
  pose proof (depth_bound _ _ _ Hinv Hk) as Hd5. unfold KERNEL_LOCK_STACK_MAX in Hlen.
  apply orb_false_iff in Hd as [Hd _]. apply orb_false_iff in Hd as [Hd Htop].
  apply Z.eqb_neq in Hd. apply negb_false_iff, Z.eqb_eq in Htop.
  set (l1 := (lock_get s l) <| owner_cpu := KERNEL_LOCK_NO_OWNER |> <| locked := 0 |>).
  set (k' := k <| held_locks := aset (held_locks k) (held_lock_depth k - 1) 0 |>
               <| held_lock_depth := held_lock_depth k - 1 |>
               <| preemption_disable_count := preemption_disable_count k - 1 |>).
  match goal with |- lock_inv ?t /\ _ => set (s2 := t) end.
  assert (same_locks (cpu_put c k' (lock_put l l1 s)) s2) as Hsame
    by apply same_locks_irq_restore.
  assert (forall c' i l', holds s2 c' i l' <-> holds s c' i l' /\
     ~ (c' = c /\ i = held_lock_depth k - 1)) as Hholds.
  { intros c' i l'. rewrite (proj1 (proj2 Hsame)).
    by rewrite (holds_pop (lock_put l l1 s) c k k' 0) by (done || lia). }
  assert (forall l', lock_get s2 l' = if decide (l = l') then l1 else lock_get s l')
    as Hget by (intros l'; rewrite (proj1 Hsame); apply (lock_get_put s)).
  assert (cpus s2 = <[c := k']> (cpus s)) as Hcpus
    by (unfold s2, interrupt_restore; by case_match).
  clearbody s2. split; [|split; [|split]].
  - apply (pop_inv s c l k k' l1 s2 Hinv Hk); try done; [lia|].
    simpl. by rewrite alen_aset, Hlen.
  - intros l'. rewrite Hget. by case_decide; subst.
  - intros c' i l' Hh%Hholds. tauto.
  - intros c'. rewrite Hcpus. destruct (decide (c' = c)) as [->|].
    + rewrite lookup_insert_eq, Hk. done.
    + by rewrite lookup_insert_ne.
Qed.

(** ** The invariant of the machine *)

Lemma may_take_mono s s' c l tok : may_take s c l tok ->
  (forall l', lock_class (lock_get s' l') = lock_class (lock_get s l')) ->
  (forall i l', holds s' c i l' -> holds s c i l') ->
  (is_Some (cpus s' !! c) <-> is_Some (cpus s !! c)) ->
  may_take s' c l tok.
Proof.
  intros (? & ? & (k & Hk) & Hlt) Hcl Hh Hs. unfold may_take. rewrite Hcl.
  split; [done|]. split; [done|]. split; [apply Hs; eauto|].
  intros i l' Hho. rewrite Hcl. by eapply Hlt, Hh.
Qed.

Lemma init_lock_inv M l class_ : lock_at (mach M) !! l = None -> is_u32 class_ ->
  spin_inv M ->
  spin_inv {| mach := kernel_spinlock_init l class_ (mach M); waiting := waiting M |}.
Proof.
  intros Hl Hc [Hinv Hw]. unfold kernel_spinlock_init.
  destruct (l =? 0); [by destruct M|].
  assert (lock_get (mach M) l = inhabitant) as Hdef
    by (unfold lock_get; by rewrite lookup_total_alt, Hl).
  assert (forall c i, ~ holds (mach M) c i l) as Hnot.
  { intros c i Hh. pose proof (li_held _ Hinv _ _ _ Hh) as (_ & Hlk & _).
    by rewrite Hdef in Hlk. }
  unfold is_u32 in Hc. set (k := {| locked := 0; lock_class := class_; owner_cpu := _ |}).
  assert (forall c i l', holds (lock_put l k (mach M)) c i l' -> l <> l') as Hne
    by (intros c i l' Hh <-; by eapply Hnot).
  split; simpl.
  - constructor; [apply Hinv | | | |].
    + intros l'. rewrite lock_get_put. case_decide; [simpl; lia | apply Hinv].
    + intros c i l' Hh. rewrite lock_get_put, decide_False by (by eapply Hne).
      by apply (li_held _ Hinv).
    + intros c i j l1 l2 H1 H2. rewrite !lock_get_put, !decide_False by (by eapply Hne).
      by apply (li_order _ Hinv c).
    + intros l'. rewrite lock_get_put. case_decide; [done | apply (li_locked _ Hinv)].
  - intros c l' tok' (? & Hcl & Hk & Hlt)%Hw.
    assert (l <> l') as Hne' by (intros <-; rewrite Hdef in Hcl; simpl in Hcl; lia).
    unfold may_take. rewrite lock_get_put, decide_False by done. split_and!; try done; try lia.
    intros i l2 Hh. rewrite lock_get_put, decide_False by (by eapply Hne). by apply (Hlt i).
Qed.

Lemma initial_inv M : initial M -> spin_inv M.
Proof.
  intros (Hw & Hfree & Hcl & Hcpu).
  assert (forall c i l, ~ holds (mach M) c i l) as Hno.
  { intros c i l (k & Hk & Hi & _). destruct (Hcpu _ _ Hk) as (_ & _ & Hd). lia. }
  split; [constructor|].
  - intros c k Hk. destruct (Hcpu _ _ Hk) as (? & ? & ->). done.
  - intros l. apply Hcl.
  - intros c i l Hh. by apply Hno in Hh.
  - intros c i j l l' Hh. by apply Hno in Hh.
  - intros l Hl. by rewrite Hfree in Hl.
  - rewrite Hw. done.
Qed.

Lemma spin_spinning c l tok s tok' s' : acquire_spin c l tok s = (false, tok', s') ->
  same_locks s s'.
Proof.
  unfold acquire_spin. if_eqn Hl; [|done]. intros [= _ <-]. by apply same_locks_ext.
Qed.

Lemma tlb_enter_same c s : same_locks s (kernel_tlb_wait_enter c s).2.
Proof.
  unfold kernel_tlb_wait_enter. destruct (cpus s !! c) as [k|] eqn:Hk; [|by apply same_locks_ext].
  case_match; [by apply same_locks_ext|]. simpl.
  eapply same_locks_trans; [|by apply same_locks_ext]. by eapply same_locks_cpu_put.
Qed.

Lemma tlb_leave_same c s : same_locks s (kernel_tlb_wait_leave c s).
Proof.
  unfold kernel_tlb_wait_leave. destruct (cpus s !! c) as [k|] eqn:Hk; [|by apply same_locks_ext].
  case_match; [by apply same_locks_ext|]. by eapply same_locks_cpu_put.
Qed.

Lemma spin_step_inv M M' : spin_step M M' -> spin_inv M -> spin_inv M'.
Proof.
  intros Hstep Hi. pose proof Hi as [Hinv Hw]. destruct Hstep.
  - by apply init_lock_inv.
  - eapply same_locks_spin; [|done]. by eapply acquire_enter_spec.
  - destruct (acquire_enter_spec _ _ _ _ _ _ Hinv H0) as [Hs Hm]. split; simpl.
    { by eapply same_locks_inv. }
    intros c' l' tok'. destruct (decide (c' = c)) as [->|].
    + rewrite lookup_insert_eq. intros [= <- <-]. by apply Hm.
    + rewrite lookup_insert_ne by done. intros ?%Hw. by eapply same_locks_may.
  - eapply same_locks_spin; [|done]. by eapply spin_spinning.
  - destruct (acquire_spin_spec _ _ _ _ _ _ Hinv (Hw _ _ _ H) H0) as (Hi' & _ & Hcl & Hh & Hs).
    split; [done|]. simpl. intros c' l' tk [Hne Hl']%lookup_delete_Some.
    apply (may_take_mono _ _ _ _ _ (Hw _ _ _ Hl') Hcl); [|apply Hs].
    intros i l2 [?|(? & _ & ? & _)]%Hh; [done | congruence].
  - destruct (release_spec _ _ _ _ _ _ Hinv H0) as [Hs|(Hi' & Hcl & Hh & Hs)].
    { by apply same_locks_spin. }
    split; [done|]. simpl. intros c' l' tk Hl'.
    apply (may_take_mono _ _ _ _ _ (Hw _ _ _ Hl') Hcl); [apply Hh | apply Hs].
  - eapply same_locks_spin; [|done]. apply tlb_enter_same.
  - eapply same_locks_spin; [|done]. apply tlb_leave_same.
  - eapply same_locks_spin; [|done]. unfold kernel_spinlock_assert_can_schedule.
    case_match; by apply same_locks_ext.
Qed.

Lemma reachable_inv M : reachable M -> spin_inv M.
Proof.
  induction 1 as [M Hi|M M' _ IH Hs]; [by apply initial_inv | by eapply spin_step_inv].
Qed.

(** ** Theorems *)

(** C3: mutual exclusion.  In every machine reachable from boot, whatever locks
    the CPUs acquire and release in whatever order and with whatever tokens, a
    lock is in the lock stack of at most one CPU and at most once; a lock that
    is in a stack is marked locked with that CPU as owner, and a lock marked
    locked is in the stack of some CPU. *)
Theorem spinlock_mutual_exclusion M l : reachable M ->
  (forall c c' i i', holds (mach M) c i l -> holds (mach M) c' i' l -> c = c' /\ i = i') /\
  (forall c i, holds (mach M) c i l ->
     locked (lock_get (mach M) l) = 1 /\ owner_cpu (lock_get (mach M) l) = c) /\
  (locked (lock_get (mach M) l) <> 0 -> exists c i, holds (mach M) c i l).
Proof.
  intros [Hinv _]%reachable_inv. split; [|split; [|apply (li_locked _ Hinv)]].
  - intros c c' i i' H1 H2.
    pose proof (proj2 (proj2 (li_held _ Hinv _ _ _ H1))) as Ho.
    rewrite (proj2 (proj2 (li_held _ Hinv _ _ _ H2))) in Ho. subst c'. split; [done|].
    destruct (Z.lt_trichotomy i i') as [Hlt|[?|Hgt]]; [|done|].
    + pose proof (li_order _ Hinv _ _ _ _ _ H1 H2 Hlt). lia.
    + pose proof (li_order _ Hinv _ _ _ _ _ H2 H1 Hgt). lia.
  - intros c i Hh. apply (li_held _ Hinv _ _ _ Hh).
Qed.

(** Lock order.  In every reachable machine the locks a CPU holds have
    strictly increasing classes from the outermost to the innermost, so that a
    CPU never holds more than one lock per class, its lock stack never has more
    than five entries, and the array [held_locks] never overflows. *)
Theorem spinlock_class_order M c k : reachable M -> cpus (mach M) !! c = Some k ->
  0 <= held_lock_depth k <= 5 /\ held_lock_depth k < alen (held_locks k) /\
  forall i j, 0 <= i < j -> j < held_lock_depth k ->
    lock_class (lock_get (mach M) (aget (held_locks k) i))
    < lock_class (lock_get (mach M) (aget (held_locks k) j)).
Proof.
  intros [Hinv _]%reachable_inv Hk. pose proof (li_cpu _ Hinv _ _ Hk) as (_ & Hlen & Hd).
  pose proof (depth_bound _ _ _ Hinv Hk). unfold KERNEL_LOCK_STACK_MAX in Hlen.
  split; [lia|]. split; [lia|]. intros i j Hij Hj.
  apply (li_order _ Hinv c i j); [exists k | exists k | lia]; split_and!; done || lia.
Qed.

(** Among the waiting CPUs one asks for a lock of maximal class. *)
Lemma maximal_waiter (f : Z * KernelSpinlockToken -> Z) (w : gmap Z (Z * KernelSpinlockToken)) :
  w <> ∅ -> exists c x, w !! c = Some x /\ forall c' x', w !! c' = Some x' -> f x' <= f x.
Proof.
  induction w as [|c x w Hn IH] using map_ind; [done|]. intros _.
  destruct (decide (w = ∅)) as [->|Hne].
  - exists c, x. split; [apply lookup_insert_eq|]. intros c' x'. rewrite lookup_insert_Some.
    rewrite lookup_empty. intros [[_ <-]|[_ ?]]; [lia | done].
  - destruct (IH Hne) as (c0 & x0 & H0 & Hmax).
    destruct (Z.le_gt_cases (f x0) (f x)).
    + exists c, x. split; [apply lookup_insert_eq|]. intros c' x'. rewrite lookup_insert_Some.
      intros [[_ <-]|[_ H1]]; [lia|]. pose proof (Hmax _ _ H1). lia.
    + exists c0, x0. split; [rewrite lookup_insert_ne; [done | congruence]|].
      intros c' x'. rewrite lookup_insert_Some.
      intros [[_ <-]|[_ H1]]; [lia|]. by apply (Hmax c').
Qed.

(** C4: deadlock freedom.  Whenever CPUs busy-wait in a reachable machine, one
    of them either takes its lock at its next atomic exchange, or waits for a
    lock whose holder is a CPU that is not itself waiting: the waits never form
    a cycle. *)
Theorem spinlock_deadlock_free M : reachable M -> waiting M <> ∅ ->
  exists c l tok, waiting M !! c = Some (l, tok) /\
    ((exists tok' s, acquire_spin c l tok (mach M) = (true, tok', s)) \/
     exists c' i, holds (mach M) c' i l /\ waiting M !! c' = None).
Proof.
  intros [Hinv Hw]%reachable_inv Hne.
  destruct (maximal_waiter (fun x => lock_class (lock_get (mach M) x.1)) _ Hne)
    as (c & [l tok] & Hc & Hmax).
  exists c, l, tok. split; [done|]. unfold acquire_spin.
  destruct (nonzero (locked (lock_get (mach M) l))) eqn:Hl; [right | left; eauto].
  destruct (li_locked _ Hinv l) as (c' & i & Hh); [unfold nonzero in Hl; by bprop|].
  exists c', i. split; [done|]. destruct (waiting M !! c') as [[l' tok']|] eqn:Hc'; [|done].
  exfalso. pose proof (Hmax _ _ Hc') as Hle. simpl in Hle.
  destruct (Hw _ _ _ Hc') as (_ & _ & _ & Hlt). specialize (Hlt _ _ Hh). lia.
Qed.

(** The fields of the state after each successful stage of an acquire. *)
Lemma acquire_enter_fields c l s k tok s1 : cpus s !! c = Some k ->
  acquire_enter c l s = (true, tok, s1) ->
  l <> 0 /\ lock_at s1 = lock_at s /\ irq_on s1 = <[c := false]> (irq_on s) /\
  cpus s1 = <[c := k <| preemption_disable_count := u32 (preemption_disable_count k + 1) |>]> (cpus s) /\
  tok_owner_cpu tok = c /\ interrupt_flags tok = if irq_enabled s c then Z.shiftl 1 9 else 0.
Proof.
  intros Hk. unfold acquire_enter. simpl. rewrite Hk. simpl.
  if_eqn Htlb; [done|]. if_eqn Hbad; [done|]. if_eqn Hrec; [done|]. if_eqn Hord; [done|].
  intros [= <- <-]. apply orb_false_iff in Hbad as [Hbad _].
  apply orb_false_iff in Hbad as [Hbad _]. apply orb_false_iff in Hbad as [Hl0 _].
  apply Z.eqb_neq in Hl0. done.
Qed.

Lemma acquire_spin_fields c l s k tok tok1 s1 : cpus s !! c = Some k ->
  acquire_spin c l tok s = (true, tok1, s1) ->
  locked (lock_get s l) = 0 /\ irq_on s1 = irq_on s /\ tok1 = tok <| acquired := true |> /\
  lock_at s1 = <[l := (lock_get s l) <| locked := 1 |> <| owner_cpu := tok_owner_cpu tok |>]> (lock_at s) /\
  cpus s1 = <[c := k <| held_locks := aset (held_locks k) (held_lock_depth k) l |>
                     <| held_lock_depth := u32 (held_lock_depth k + 1) |>]> (cpus s).
Proof.
  intros Hk. unfold acquire_spin. if_eqn Hl; [done|].
  rewrite (lookup_total_correct _ _ _ Hk). intros [= <- <-].
  unfold nonzero in Hl. bprop. done.
Qed.

Lemma release_fields c l s k tok : cpus s !! c = Some k -> acquired tok = true -> l <> 0 ->
  tok_owner_cpu tok = c -> owner_cpu (lock_get s l) = c -> held_lock_depth k <> 0 ->
  aget (held_locks k) (held_lock_depth k - 1) = l -> preemption_disable_count k <> 0 ->
  exists s1, spinlock_release c l (Some tok) s = (Some (tok <| acquired := false |>), s1) /\
    lock_at s1 = <[l := (lock_get s l) <| owner_cpu := KERNEL_LOCK_NO_OWNER |> <| locked := 0 |>]> (lock_at s) /\
    cpus s1 = <[c := k <| held_locks := aset (held_locks k) (held_lock_depth k - 1) 0 |>
          <| held_lock_depth := held_lock_depth k - 1 |>
          <| preemption_disable_count := preemption_disable_count k - 1 |>]> (cpus s) /\
    irq_on s1 = if nonzero (Z.land (interrupt_flags tok) (Z.shiftl 1 9))
                then <[c := true]> (irq_on s) else irq_on s.
Proof.
  intros Hk Ha Hl Ht Ho Hd Htop Hp. unfold spinlock_release.
  rewrite Hk, Ha, Ht, Ho, Htop, !Z.eqb_refl, !(proj2 (Z.eqb_neq _ 0)) by done.
  eexists. split; [reflexivity|]. unfold interrupt_restore. by case_match.
Qed.

(** Acquire then release is transparent.  When an acquire goes through and
    the same CPU releases the lock with the token it got, the lock is free
    again and unowned, the CPU's depth, preemption count and interrupt flag are
    what they were before, and no other CPU's data or other lock has changed. *)
Theorem spinlock_acquire_release c l M k tok tok1 s1 s2 : reachable M ->
  cpus (mach M) !! c = Some k -> 0 <= preemption_disable_count k < 2 ^ 32 - 1 ->
  acquire_enter c l (mach M) = (true, tok, s1) -> acquire_spin c l tok s1 = (true, tok1, s2) ->
  exists s3, spinlock_release c l (Some tok1) s2 = (Some (tok1 <| acquired := false |>), s3) /\
    lock_get s3 l = (lock_get (mach M) l) <| locked := 0 |> <| owner_cpu := KERNEL_LOCK_NO_OWNER |> /\
    (forall l', l' <> l -> lock_get s3 l' = lock_get (mach M) l') /\
    (forall c', c' <> c -> cpus s3 !! c' = cpus (mach M) !! c') /\
    (exists k3, cpus s3 !! c = Some k3 /\ held_lock_depth k3 = held_lock_depth k /\
       preemption_disable_count k3 = preemption_disable_count k) /\
    forall c', irq_enabled s3 c' = irq_enabled (mach M) c'.
Proof.
  intros [Hinv _]%reachable_inv Hk Hp He Hs. pose proof (depth_bound _ _ _ Hinv Hk) as Hd5.
  pose proof (li_cpu _ Hinv c k Hk) as (Hid & Hlen & Hd0). unfold KERNEL_LOCK_STACK_MAX in Hlen.
  apply (acquire_enter_fields _ _ _ k) in He as (Hl0 & Hl1 & Hi1 & Hc1 & Ho & Hf); [|done].
  eapply acquire_spin_fields in Hs as (Hfree & Hi2 & -> & Hl2 & Hc2);
    [|rewrite Hc1; apply lookup_insert_eq].
  simpl in Hc2. rewrite !u32_small in Hc2 by (split; lia).
  rewrite Hc1, insert_insert_eq in Hc2. rewrite Hi1 in Hi2.
  unfold lock_get in Hl2. rewrite Hl1 in Hl2.
  edestruct (release_fields c l s2) as (s3 & Hr & Hl3 & Hc3 & Hi3);
    [rewrite Hc2; apply lookup_insert_eq | ..|].
  8: { exists s3. split; [exact Hr|]. simpl in Hc3. rewrite Hc2, insert_insert_eq in Hc3.
       unfold lock_get in *. rewrite Hl2, lookup_total_insert, decide_True in Hl3 by done.
       rewrite insert_insert_eq in Hl3. simpl in Hl3, Hi3. rewrite Hl3, Hc3.
       split; [by rewrite lookup_total_insert, decide_True|].
       split; [intros l' ?; rewrite lookup_total_insert, decide_False by congruence; done|].
       split; [intros c' ?; by rewrite lookup_insert_ne by congruence|].
       split; [eexists; split; [apply lookup_insert_eq|]; simpl; lia|].
       intros c'. unfold irq_enabled in *. rewrite Hi3, Hf, Hi2.
       destruct (decide (c' = c)) as [->|Hne].
       - destruct (default true (irq_on (mach M) !! c));
           match goal with |- context [nonzero ?x] => change (nonzero x) with true
                                                   || change (nonzero x) with false end;
           cbv iota; by rewrite lookup_insert_eq.
       - match goal with |- context [nonzero ?x] => destruct (nonzero x) end;
           by rewrite !lookup_insert_ne by congruence. }
  all: simpl; try done; try lia.
  - unfold lock_get. rewrite Hl2, lookup_total_insert, decide_True by done. done.
  - replace (held_lock_depth k + 1 - 1) with (held_lock_depth k) by lia.
    apply aget_aset_eq. lia.
Qed.

(** ** A concrete run

    Two CPUs and one lock of class 3: CPU 0 takes it, CPU 1 waits for it. *)

Definition idle_cpu : CpuLocal := {| held_locks := [0; 0; 0; 0; 0; 0; 0; 0];
  held_lock_depth := 0; preemption_disable_count := 0; tlb_wait_depth := 0 |}.
Definition demo_boot : Machine := {| waiting := ∅; mach := {|
  lock_at := ∅; cpus := {[0 := idle_cpu; 1 := idle_cpu]}; irq_on := ∅;
  stats := {| stat_acquisitions := 0; stat_contentions := 0; stat_order_violations := 0;
    stat_recursion_violations := 0; stat_release_violations := 0;
    stat_wrong_cpu_violations := 0; stat_schedule_violations := 0;
    stat_tlb_wait_violations := 0; stat_tlb_wait_entries := 0; stat_maximum_depth := 0;
    stat_last_violation_type := 0; stat_last_held_class := 0;
    stat_last_requested_class := 0 |} |} |}.
Definition demo_lock : Machine :=
  {| mach := kernel_spinlock_init 100 3 (mach demo_boot); waiting := ∅ |}.
Definition demo_enter (c : Z) (M : Machine) : Machine :=
  let r := acquire_enter c 100 (mach M) in
  {| mach := r.2; waiting := <[c := (100, r.1.2)]> (waiting M) |}.
Definition demo_take (c : Z) (M : Machine) : Machine :=
  let r := acquire_spin c 100 (default (0, inhabitant) (waiting M !! c)).2 (mach M) in
  {| mach := r.2; waiting := delete c (waiting M) |}.
Definition demo_held : Machine := demo_take 0 (demo_enter 0 demo_lock).
Definition demo_contended : Machine := demo_enter 1 demo_held.

Lemma demo_boot_initial : initial demo_boot.
Proof.
  split; [reflexivity|]. split; [intros l; reflexivity|]. split; [intros l; split; reflexivity || discriminate|].
  intros c k. simpl. rewrite lookup_insert_Some, lookup_singleton_Some.
  intros [[<- <-]|[_ [<- <-]]]; done.
Qed.
Lemma demo_lock_reachable : reachable demo_lock.
Proof.
  eapply reachable_step; [apply reachable_initial, demo_boot_initial|].
  by apply (step_init_lock demo_boot 100 3).
Qed.
Lemma demo_held_reachable : reachable demo_held.
Proof.
  eapply reachable_step; [eapply reachable_step; [apply demo_lock_reachable|]|].
  - by eapply (step_enter demo_lock 0 100).
  - by eapply (step_taken (demo_enter 0 demo_lock) 0 100).
Qed.
Lemma demo_contended_reachable : reachable demo_contended.
Proof.
  eapply reachable_step; [apply demo_held_reachable|]. by eapply (step_enter demo_held 1 100).
Qed.
Lemma demo_holds : holds (mach demo_contended) 0 0 100.
Proof. eexists. split; [reflexivity|]. split; [done | reflexivity]. Qed.

Lemma spinlock_mutual_exclusion_witness :
  reachable demo_contended /\ holds (mach demo_contended) 0 0 100 /\
  forall i, ~ holds (mach demo_contended) 1 i 100.
Proof.
  split; [exact demo_contended_reachable|]. split; [exact demo_holds|]. intros i Hi.
  destruct (proj1 (spinlock_mutual_exclusion demo_contended 100 demo_contended_reachable)
              0 1 0 i demo_holds Hi). discriminate.
Defined.

Lemma spinlock_class_order_witness :
  exists k, cpus (mach demo_contended) !! 0 = Some k /\ held_lock_depth k = 1 /\
    held_lock_depth k < alen (held_locks k).
Proof.
  eexists. split; [reflexivity|]. split; [reflexivity|].
  apply (spinlock_class_order demo_contended 0); [exact demo_contended_reachable | reflexivity].
Defined.

Lemma spinlock_deadlock_free_witness :
  exists c l tok, waiting demo_contended !! c = Some (l, tok) /\
    ((exists tok' s, acquire_spin c l tok (mach demo_contended) = (true, tok', s)) \/
     exists c' i, holds (mach demo_contended) c' i l /\ waiting demo_contended !! c' = None).
Proof.
  apply (spinlock_deadlock_free demo_contended); [exact demo_contended_reachable|].
  intros He. apply (f_equal (fun m => m !! 1)) in He. discriminate He.
Defined.

Lemma spinlock_acquire_release_witness : exists tok s3,
  spinlock_release 0 100 (Some tok) (mach demo_held) = (Some (tok <| acquired := false |>), s3) /\
  locked (lock_get s3 100) = 0 /\ irq_enabled s3 0 = true.
Proof.
  edestruct (spinlock_acquire_release 0 100 demo_lock idle_cpu) as (s3 & Hr & Hl & _ & _ & _ & Hi);
    [exact demo_lock_reachable | reflexivity | split; reflexivity || discriminate
    | reflexivity | reflexivity |].
  eexists _, s3. split; [exact Hr|]. split; [by rewrite Hl|]. by rewrite Hi.
Defined.
