(* ===== verification/FaultInjection.v ===== *)
(** * Diagnostic fault points ([kernel/debug/fault_injection.cpp])

    The table of fault points, arming one, and the test every instrumented
    operation makes.  A compare-and-exchange is [cas]; the retry loop of
    [kernel_fault_injection_should_fail] is a loop with fuel whose iterations
    are atomic, and [should_fail_fuel] shows that one iteration decides.  This
    file runs a call on its own; [FaultRaces] interleaves the accesses of several
    calls on one point. *)

From stdpp Require Import strings.
From S2P Require Import Prelude KernelEnv.

Definition KERNEL_FAULT_POINT_INVALID : Z := 0xFFFFFFFF.

Record KernelFaultPointState := { attempts : Z; failures : Z; remaining : Z; armed : Z }.
#[export] Instance KernelFaultPointState_settable : Settable KernelFaultPointState :=
  {| eta_expand s := {| attempts := attempts s; failures := failures s;
     remaining := remaining s; armed := armed s |} |}.
#[export] Instance KernelFaultPointState_inhabited : Inhabited KernelFaultPointState :=
  populate {| attempts := 0; failures := 0; remaining := 0; armed := 0 |}.

Definition fault_names : list string :=
  ["pmm"; "heap"; "process"; "mailbox"; "service"; "handle"; "shared";
   "thread_record"; "thread_user_stack"; "thread_kernel_stack";
   "thread_mapping"; "thread_wait"; "sync_object"; "cpu_local";
   "ap_startup"; "local_timer"; "scheduler_claim"; "tlb_request";
   "irq_owner"; "driver_alloc"; "driver_va_record"; "driver_image_page";
   "driver_alloc_record"; "driver_page_run"; "driver_mmio_record";
   "driver_page_map"; "driver_dma_record"; "driver_dma_bounce";
   "driver_dma_domain"; "driver_irq_drain"; "driver_quiesce"]%string.

(** [text_equal]: the loop over both strings, [None] a null pointer. *)
Fixpoint text_equal_loop (left right : string) : bool :=
  match left, right with
  | String a left', String b right' =>
    if Ascii.eqb a b then text_equal_loop left' right' else false
  | EmptyString, EmptyString => true
  | _, _ => false
  end.

Definition text_equal (left right : option string) : bool :=
  match left, right with
  | Some l, Some r => text_equal_loop l r
  | _, _ => false
  end.

(** The array [fault_points]. *)
Definition FaultPoints : Type := list KernelFaultPointState.

Definition kernel_fault_injection_reset (fp : FaultPoints) : FaultPoints :=
  for_range 0 KERNEL_FAULT_POINT_COUNT (fun i fp => aset fp i
    ((aget fp i) <| attempts := 0 |> <| failures := 0 |> <| remaining := 0 |> <| armed := 0 |>)) fp.

Definition kernel_fault_injection_arm (point successes_before_failure : Z) (fp : FaultPoints)
    : Z * FaultPoints :=
  if KERNEL_FAULT_POINT_COUNT <=? point then (0, fp)
  else (1, aset fp point ((aget fp point) <| remaining := successes_before_failure |>
                                          <| armed := 1 |>)).

(** One iteration of the retry loop: [inl b] returns [b], [inr] goes round. *)
Definition should_fail_iter (st : KernelFaultPointState)
    : (bool + unit) * KernelFaultPointState :=
  if armed st =? 0 then (inl false, st)
  else
    let r := remaining st in
    if nonzero r then
      if remaining st =? r then (inl false, st <| remaining := u64 (r - 1) |>) else (inr (), st)
    else
      if armed st =? 1 then
        (inl true, st <| armed := 0 |> <| failures := u64 (failures st + 1) |>)
      else (inr (), st).

Fixpoint should_fail_loop (fuel : nat) (st : KernelFaultPointState)
    : option (bool * KernelFaultPointState) :=
  match fuel with
  | O => None
  | S fuel =>
    match should_fail_iter st with
    | (inl b, st') => Some (b, st')
    | (inr _, st') => should_fail_loop fuel st'
    end
  end.

Definition should_fail (point : Z) (fp : FaultPoints) : bool * FaultPoints :=
  if KERNEL_FAULT_POINT_COUNT <=? point then (false, fp)
  else
    let st := aget fp point in
    let st := st <| attempts := u64 (attempts st + 1) |> in
    if armed st =? 0 then (false, aset fp point st)
    else match should_fail_loop 1 st with
         | Some (b, st') => (b, aset fp point st')
         | None => (false, aset fp point st)
         end.

Definition kernel_fault_injection_get_snapshot (fp : FaultPoints)
    : list (Z * Z * Z * Z) :=
  (fun i => (attempts (aget fp i), failures (aget fp i), remaining (aget fp i),
             armed (aget fp i))) <$> seqZ 0 KERNEL_FAULT_POINT_COUNT.

Definition kernel_fault_point_name (point : Z) : string :=
  if point <? KERNEL_FAULT_POINT_COUNT then nth (Z.to_nat point) fault_names EmptyString
  else "invalid"%string.

Definition kernel_fault_point_from_name (name : option string) : Z :=
  default KERNEL_FAULT_POINT_INVALID
    (find_first (fun i => text_equal name (Some (nth (Z.to_nat i) fault_names EmptyString)))
       0 (Z.to_nat KERNEL_FAULT_POINT_COUNT)).

(** ** Well-formed tables *)

Record fault_ok (fp : FaultPoints) : Prop := {
  fo_len : alen fp = KERNEL_FAULT_POINT_COUNT;
  fo_armed : forall i, 0 <= i < KERNEL_FAULT_POINT_COUNT ->
    armed (aget fp i) = 0 \/ armed (aget fp i) = 1;
  fo_remaining : forall i, 0 <= i < KERNEL_FAULT_POINT_COUNT -> is_u64 (remaining (aget fp i));
}.

(** The loop decides in its first iteration when [armed] is 0 or 1: more fuel
    changes nothing. *)
Lemma should_fail_fuel st n : armed st = 0 \/ armed st = 1 ->
  is_Some (should_fail_loop 1 st) /\ should_fail_loop (S n) st = should_fail_loop 1 st.
Proof.
  intros Ha. simpl. unfold should_fail_iter. rewrite Z.eqb_refl.
  destruct Ha as [-> | ->]; simpl; [by split|]. destruct (nonzero (remaining st)); by split.
Qed.

Lemma fault_ok_set fp i st : fault_ok fp -> 0 <= i < KERNEL_FAULT_POINT_COUNT ->
  armed st = 0 \/ armed st = 1 -> is_u64 (remaining st) -> fault_ok (aset fp i st).
Proof.
  intros [Hl Ha Hr] Hi Hst Hrem. constructor; [by rewrite alen_aset| |];
    intros j Hj; rewrite aget_aset by lia; case_decide; auto.
Qed.

(** What a call does to the state of its point, as a table: not armed; armed
    with successes left; armed with none left. *)
Lemma should_fail_cases point fp : fault_ok fp -> 0 <= point < KERNEL_FAULT_POINT_COUNT ->
  let st := (aget fp point) <| attempts := u64 (attempts (aget fp point) + 1) |> in
  should_fail point fp =
    if armed st =? 0 then (false, aset fp point st)
    else if remaining st =? 0
    then (true, aset fp point (st <| armed := 0 |> <| failures := u64 (failures st + 1) |>))
    else (false, aset fp point (st <| remaining := remaining st - 1 |>)).
Proof.
  intros Hok Hp. cbv zeta. unfold should_fail.
  rewrite (proj2 (Z.leb_gt _ _)) by lia. simpl. unfold should_fail_iter. simpl.
  destruct (fo_armed _ Hok point Hp) as [-> | ->]; simpl; [done|].
  rewrite Z.eqb_refl. unfold nonzero. pose proof (fo_remaining _ Hok point Hp) as Hr.
  unfold is_u64 in Hr. destruct (remaining (aget fp point) =? 0) eqn:E; simpl; [done|].
  apply Z.eqb_neq in E. by rewrite (u64_small (remaining (aget fp point) - 1)) by (unfold is_u64; lia).
Qed.

Lemma should_fail_ok point fp : fault_ok fp -> 0 <= point < KERNEL_FAULT_POINT_COUNT ->
  fault_ok (should_fail point fp).2.
Proof.
  intros Hok Hp. rewrite should_fail_cases by done. cbv zeta.
  pose proof (fo_remaining _ Hok point Hp) as Hr. pose proof (fo_armed _ Hok point Hp).
  unfold is_u64 in Hr. simpl. repeat case_match; bprop; apply fault_ok_set;
    try done; unfold is_u64; simpl; try lia.
Qed.

(** The answers of [n] successive calls on a point. *)
Fixpoint should_fail_run (n : nat) (point : Z) (fp : FaultPoints) : list bool * FaultPoints :=
  match n with
  | O => ([], fp)
  | S n => let '(b, fp) := should_fail point fp in
           let '(bs, fp) := should_fail_run n point fp in (b :: bs, fp)
  end.

Lemma run_disarmed n point fp : fault_ok fp -> 0 <= point < KERNEL_FAULT_POINT_COUNT ->
  armed (aget fp point) = 0 -> (should_fail_run n point fp).1 = replicate n false.
Proof.
  intros Hok Hp. revert fp Hok. induction n as [|n IH]; intros fp Hok Ha; [done|]. simpl.
  pose proof (should_fail_ok point fp Hok Hp) as Hok'. revert Hok'.
  rewrite should_fail_cases by done. simpl. rewrite Ha. simpl. intros Hok'.
  destruct (should_fail_run n point _) as [bs fp'] eqn:Hrun. simpl. f_equal.
  change bs with ((bs, fp').1). rewrite <- Hrun. apply IH; [done|].
  rewrite aget_aset_eq by (rewrite (fo_len _ Hok); lia). done.
Qed.

Lemma run_armed k n point fp : fault_ok fp -> 0 <= point < KERNEL_FAULT_POINT_COUNT ->
  armed (aget fp point) = 1 -> remaining (aget fp point) = Z.of_nat k ->
  (should_fail_run (k + S n) point fp).1 = replicate k false ++ true :: replicate n false.
Proof.
  intros Hok Hp. revert fp Hok. induction k as [|k IH]; intros fp Hok Ha Hr; simpl;
    pose proof (should_fail_ok point fp Hok Hp) as Hok'; revert Hok';
    rewrite should_fail_cases by done; simpl; rewrite Ha, Hr; simpl; intros Hok';
    destruct (should_fail_run _ point _) as [bs fp'] eqn:Hrun; simpl; f_equal;
    change bs with ((bs, fp').1); rewrite <- Hrun.
  - apply run_disarmed; [done | done |]. rewrite aget_aset_eq by (rewrite (fo_len _ Hok); lia). done.
  - apply IH; [done| |]; rewrite aget_aset_eq by (rewrite (fo_len _ Hok); lia); simpl; [done|lia].
Qed.

(** A fault point armed with [k] successes makes exactly one call fail, and
    it is the call after [k] successful ones: the answers of any [k + 1 + n]
    calls on the point after [kernel_fault_injection_arm(point, k)] are [k]
    successes, one failure, [n] successes. *)
Theorem fault_point_fires_once k n point fp : fault_ok fp ->
  0 <= point < KERNEL_FAULT_POINT_COUNT -> Z.of_nat k < 2 ^ 64 ->
  (should_fail_run (k + S n) point (kernel_fault_injection_arm point (Z.of_nat k) fp).2).1
  = replicate k false ++ true :: replicate n false.
Proof.
  intros Hok Hp Hk. unfold kernel_fault_injection_arm.
  rewrite (proj2 (Z.leb_gt _ _)) by lia. simpl.
  apply run_armed; [|done| |].
  - apply fault_ok_set; [done | done | by right | unfold is_u64; simpl; lia].
  - rewrite aget_aset_eq by (rewrite (fo_len _ Hok); lia). done.
  - rewrite aget_aset_eq by (rewrite (fo_len _ Hok); lia). done.
Qed.

Definition fresh_points : FaultPoints := replicate 31 inhabitant.

Lemma fresh_points_ok : fault_ok fresh_points.
Proof.
  constructor; [reflexivity| |]; intros i Hi; unfold fresh_points;
    rewrite aget_replicate by (unfold KERNEL_FAULT_POINT_COUNT in Hi; lia); [by left|].
  unfold is_u64; simpl; lia.
Qed.

Lemma fault_point_fires_once_witness :
  (should_fail_run (2 + 3) KERNEL_FAULT_POINT_HEAP
     (kernel_fault_injection_arm KERNEL_FAULT_POINT_HEAP 2 fresh_points).2).1
  = [false; false; true; false; false].
Proof.
  apply (fault_point_fires_once 2 2); [apply fresh_points_ok | | ];
    unfold KERNEL_FAULT_POINT_HEAP, KERNEL_FAULT_POINT_COUNT; lia.
Defined.

(** ** Names *)

Lemma text_equal_loop_spec l r : text_equal_loop l r = bool_decide (l = r).
Proof.
  revert r. induction l as [|a l IH]; intros [|b r]; simpl; try done.
  destruct (Ascii.eqb_spec a b) as [->|Hne].
  - rewrite IH. apply bool_decide_ext. split; congruence.
  - rewrite bool_decide_eq_false_2; [done | congruence].
Qed.

(** The names of the fault points are distinct: looking up the name of a
    point gives that point back, and a name no point has gives the invalid
    point. *)
Theorem fault_name_roundtrip :
  (forall point, 0 <= point < KERNEL_FAULT_POINT_COUNT ->
     kernel_fault_point_from_name (Some (kernel_fault_point_name point)) = point) /\
  (forall name, name ∉ fault_names ->
     kernel_fault_point_from_name (Some name) = KERNEL_FAULT_POINT_INVALID) /\
  kernel_fault_point_from_name None = KERNEL_FAULT_POINT_INVALID.
Proof.
  split; [|split; [|reflexivity]].
  - assert (Forall (fun p => kernel_fault_point_from_name (Some (kernel_fault_point_name p)) = p)
              (seqZ 0 KERNEL_FAULT_POINT_COUNT)) as Hall by (by repeat constructor).
    rewrite Forall_forall in Hall. intros p Hp. apply Hall, elem_of_seqZ. lia.
  - intros name Hn. unfold kernel_fault_point_from_name.
    destruct (find_first _ _ _) as [i|] eqn:Hf; [|done].
    apply find_first_Some in Hf as (Hi & Ht & _). exfalso. apply Hn. unfold text_equal in Ht.
    rewrite text_equal_loop_spec, bool_decide_eq_true in Ht. subst name.
    apply list_elem_of_In, nth_In.
    change (length fault_names) with 31%nat. change (Z.to_nat KERNEL_FAULT_POINT_COUNT) with 31%nat in Hi. lia.
Qed.
