(* ===== verification/FaultRaces.v ===== *)
(** * One fault point, many CPUs ([kernel_fault_injection_should_fail])

    [FaultInjection] runs a call of [kernel_fault_injection_should_fail] on its
    own.  Here any number of calls on one point run at once: every atomic access
    of the function is a step, and the calls are interleaved by an arbitrary
    schedule.  A point armed with [k] successes still fails exactly one call,
    the compare-and-exchange loops end, and no schedule is longer than a bound
    in [k] and the number of calls. *)

From S2P Require Import Prelude KernelEnv FaultInjection.

(** Where a call is: before the increment of [attempts]; before the first test
    of [armed]; at the loop test; before the load of [remaining]; before the
    compare-and-exchange of [remaining] with the value loaded; before the one of
    [armed]; before the increment of [failures]; returned. *)
Inductive caller :=
| at_entry | at_first_test | at_loop_test | at_load | at_take (seen : Z) | at_fire | at_count
| returned (answer : bool).
#[export] Instance caller_inhabited : Inhabited caller := populate at_entry.
#[export] Instance caller_eq_dec : EqDecision caller.
Proof. solve_decision. Defined.

(** The next atomic access of a call. *)
Definition caller_step (c : caller) (st : KernelFaultPointState) : caller * KernelFaultPointState :=
  match c with
  | at_entry => (at_first_test, st <| attempts := u64 (attempts st + 1) |>)
  | at_first_test => (if armed st =? 0 then returned false else at_loop_test, st)
  | at_loop_test => (if armed st =? 0 then returned false else at_load, st)
  | at_load => (if nonzero (remaining st) then at_take (remaining st) else at_fire, st)
  | at_take seen =>
    if remaining st =? seen then (returned false, st <| remaining := u64 (seen - 1) |>)
    else (at_loop_test, st)
  | at_fire => if armed st =? 1 then (at_count, st <| armed := 0 |>) else (at_loop_test, st)
  | at_count => (returned true, st <| failures := u64 (failures st + 1) |>)
  | returned _ => (c, st)
  end.

Definition is_done (c : caller) : bool := match c with returned _ => true | _ => false end.

(** A schedule names, step by step, the call that moves; steps of calls that
    have returned do not occur. *)
Definition race_step (i : Z) (m : KernelFaultPointState * list caller)
    : KernelFaultPointState * list caller :=
  let '(c, st) := caller_step (aget m.2 i) m.1 in (st, aset m.2 i c).
Definition race (schedule : list Z) (m : KernelFaultPointState * list caller) :=
  foldl (fun m i => race_step i m) m schedule.
Fixpoint runnable (schedule : list Z) (m : KernelFaultPointState * list caller) : Prop :=
  match schedule with
  | [] => True
  | i :: schedule => 0 <= i < alen m.2 /\ is_done (aget m.2 i) = false /\ runnable schedule (race_step i m)
  end.

(** A call on its own: the answer of [should_fail]. *)
Example solo_call : race (replicate 8 0) (inhabitant <| armed := 1 |>, [at_entry])
  = (inhabitant <| attempts := 1 |> <| failures := 1 |>, [returned true]).
Proof. reflexivity. Qed.

(** ** The invariant *)

Definition passed (c : caller) : bool := match c with returned false => true | _ => false end.
Definition fired (c : caller) : bool := match c with at_count | returned true => true | _ => false end.
Definition counted (c : caller) : bool := match c with returned true => true | _ => false end.

(** What a call that is about to exchange knows. *)
Definition caller_ok (k : Z) (st : KernelFaultPointState) (c : caller) : Prop :=
  match c with
  | at_take seen => 0 < seen <= k
  | at_fire => remaining st = 0
  | _ => True
  end.

Record race_inv (k f : Z) (m : KernelFaultPointState * list caller) : Prop := {
  ri_range : 0 <= remaining m.1 <= k;
  ri_k : k < 2 ^ 64;
  ri_armed : (armed m.1 = 1 /\ acount passed m.2 = k - remaining m.1 /\ acount fired m.2 = 0) \/
             (armed m.1 = 0 /\ remaining m.1 = 0 /\ k <= acount passed m.2 /\ acount fired m.2 = 1);
  ri_callers : forall i, 0 <= i < alen m.2 -> caller_ok k m.1 (aget m.2 i);
  ri_failures : failures m.1 = u64 (f + acount counted m.2);
}.

Lemma callers_step k st st' cs i c : 0 <= i < alen cs ->
  (forall j, 0 <= j < alen cs -> caller_ok k st (aget cs j)) ->
  (remaining st = 0 -> remaining st' = 0) -> caller_ok k st' c ->
  forall j, 0 <= j < alen (aset cs i c) -> caller_ok k st' (aget (aset cs i c) j).
Proof.
  intros Hi Hok Hz Hc j. rewrite alen_aset. intros Hj. rewrite aget_aset by lia.
  case_decide; [done|]. specialize (Hok j Hj). destruct (aget cs j); try done. by apply Hz.
Qed.

Lemma race_step_inv k f i m : race_inv k f m -> 0 <= i < alen m.2 -> race_inv k f (race_step i m).
Proof.
  intros [Hr Hk Ha Hok Hf] Hi. destruct m as [st cs]. unfold race_step. cbn [fst snd] in *.
  pose proof (acount_aset passed cs i) as Hpa. pose proof (acount_aset fired cs i) as Hfi.
  pose proof (acount_aset counted cs i) as Hco. pose proof (Hok i Hi) as Hci.
  destruct (caller_step (aget cs i) st) as [c st'] eqn:Hs.
  specialize (Hpa c Hi). specialize (Hfi c Hi). specialize (Hco c Hi).
  pose proof (callers_step k st st' cs i c Hi Hok) as Hall.
  destruct (aget cs i) eqn:Hc; cbn [caller_step] in Hs; unfold nonzero in Hs;
    repeat match type of Hs with context [if ?b then _ else _] => destruct b eqn:?; bprop end;
    injection Hs as <- <-; cbn in Hpa, Hfi, Hco, Hci, Hall |- *;
    try (rewrite u64_small in * by (unfold is_u64; lia));
    (constructor; cbn [fst snd remaining armed failures attempts]; cbn;
       [try lia | done | try lia | try (apply Hall; try done; try lia) | try (rewrite ?Hf, ?Hco; f_equal; lia)]).
  rewrite Hf, Hco. unfold u64. rewrite Zplus_mod_idemp_l. f_equal. lia.
Qed.

Lemma race_inv_run k f schedule m : race_inv k f m -> runnable schedule m -> race_inv k f (race schedule m).
Proof.
  revert m. induction schedule as [|i schedule IH]; intros m Hm Hr; [done|].
  destruct Hr as (Hi & _ & Hr). by apply IH; [apply race_step_inv|].
Qed.

(** ** How long a race lasts *)

(** The accesses a call still makes when no other call succeeds in between. *)
Definition rank (st : KernelFaultPointState) (c : caller) : Z :=
  match c with
  | at_entry => 6
  | at_first_test => 5
  | at_loop_test => 4
  | at_load => if armed st =? 1 then 3 else 6
  | at_take seen => if remaining st =? seen then 1 else 5
  | at_fire => if armed st =? 1 then 2 else 5
  | at_count => 1
  | returned _ => 0
  end.

(** Every successful exchange uses up one of [remaining + armed], and raises
    the rank of each other call by at most 4. *)
Definition race_measure (m : KernelFaultPointState * list caller) : Z :=
  (remaining m.1 + armed m.1) * (4 * alen m.2 + 1) + asum (rank m.1) m.2.

Lemma rank_nonneg st c : 0 <= rank st c.
Proof. destruct c; simpl; repeat case_match; lia. Qed.
Lemma rank_rise st st' c : rank st' c <= rank st c + 4.
Proof. destruct c; simpl; repeat case_match; lia. Qed.
Lemma rank_same st st' c : armed st' = armed st -> remaining st' = remaining st -> rank st' c = rank st c.
Proof. intros Ha Hr. destruct c; simpl; by rewrite ?Ha, ?Hr. Qed.
(** A step either leaves [armed] and [remaining] and lowers the rank of the call
    that moves, or uses up a unit. *)
Lemma caller_step_rank k st c c' st' : (armed st = 0 \/ armed st = 1) -> 0 <= remaining st <= k -> k < 2 ^ 64 ->
  caller_ok k st c -> is_done c = false -> caller_step c st = (c', st') ->
  (armed st' = armed st /\ remaining st' = remaining st /\ rank st' c' <= rank st c - 1) \/
  (remaining st' + armed st' = remaining st + armed st - 1 /\ rank st' c' <= rank st c - 1).
Proof.
  intros Ha Hr Hk Hok Hd. destruct c; try done; cbn [caller_step caller_ok] in *; unfold nonzero;
    repeat match goal with |- context [if ?b then _ else _] => destruct b eqn:?; bprop end;
    intros [= <- <-]; simpl; rewrite ?u64_small by (unfold is_u64; lia);
    try (left; split_and!; try done; repeat case_match; bprop; lia);
    right; split; repeat case_match; bprop; lia.
Qed.

Lemma race_step_measure k f i m : race_inv k f m -> 0 <= i < alen m.2 -> is_done (aget m.2 i) = false ->
  race_measure (race_step i m) < race_measure m.
Proof.
  intros [Hr Hk Ha Hok _] Hi Hd. destruct m as [st cs]. unfold race_step, race_measure. cbn [fst snd] in *.
  destruct (caller_step (aget cs i) st) as [c st'] eqn:Hs. cbn [fst snd]. rewrite alen_aset.
  rewrite asum_aset by done.
  destruct (caller_step_rank k st (aget cs i) c st') as [(H1 & H2 & H3)|(H1 & H3)]; try done.
  { destruct Ha as [[? _]|[? _]]; auto. }
  { by apply Hok. }
  - rewrite (asum_ext (rank st') (rank st)) by (intros; by apply rank_same).
    rewrite (rank_same st st' (aget cs i)) by done. rewrite H1, H2. lia.
  - pose proof (asum_rise (rank st') (rank st) 4 (aset cs i at_count) (rank_rise st st')) as Hrise.
    rewrite !asum_aset, alen_aset in Hrise by done. cbn [rank] in Hrise. nia.
Qed.

Lemma race_bound k f schedule m : race_inv k f m -> runnable schedule m ->
  alen schedule <= race_measure m.
Proof.
  revert m. induction schedule as [|i schedule IH]; intros m Hm Hr.
  - unfold race_measure, alen. simpl. pose proof (asum_nonneg (rank m.1) m.2 (fun c _ => rank_nonneg m.1 c)).
    destruct Hm as [Hr1 _ Ha _ _]. destruct Ha as [[Ha _]|[Ha _]]; rewrite Ha; nia.
  - destruct Hr as (Hi & Hd & Hr). pose proof (race_step_measure k f i m Hm Hi Hd).
    specialize (IH _ (race_step_inv k f i m Hm Hi) Hr). unfold alen in *. rewrite length_cons. lia.
Qed.

Lemma all_done l : forallb is_done l = true ->
  acount passed l + acount counted l = alen l /\ acount fired l = acount counted l.
Proof.
  unfold alen. induction l as [|c l IH]; [done|]. cbn [forallb]. rewrite andb_true_iff.
  intros [Hc Hl]. destruct (IH Hl) as [IH1 IH2]. destruct c as [| | | | | | |[]]; try done;
    cbn [acount passed fired counted] in *; rewrite length_cons, Nat2Z.inj_succ; lia.
Qed.

(** A fault point fires once under every schedule.  Let [n] calls of
    [kernel_fault_injection_should_fail] start together on a point just armed
    with [k] successes and let their atomic accesses be interleaved in any way.
    At no time has more than one call decided to fail; no schedule has more
    than [(k + 1) * (4 * n + 1) + 6 * n] accesses, so the retry loops end; and
    when all calls have returned exactly one of them failed if [k < n] and none
    otherwise, and the counter of failures rose by that number. *)
Theorem fault_point_races_once n k point fp schedule : alen fp = KERNEL_FAULT_POINT_COUNT ->
  0 <= point < KERNEL_FAULT_POINT_COUNT -> is_u64 (failures (aget fp point)) -> 0 <= k < 2 ^ 64 ->
  let st := aget (kernel_fault_injection_arm point k fp).2 point in
  let m := (st, replicate n at_entry) in
  runnable schedule m ->
  let m' := race schedule m in
  acount fired m'.2 <= 1 /\
  alen schedule <= (k + 1) * (4 * Z.of_nat n + 1) + 6 * Z.of_nat n /\
  (forallb is_done m'.2 = true ->
   let failed := if k <? Z.of_nat n then 1 else 0 in
   acount counted m'.2 = failed /\ failures m'.1 = u64 (failures (aget fp point) + failed)).
Proof.
  intros Hl Hp Hfu Hk st m Hrun m'.
  assert (st = (aget fp point) <| remaining := k |> <| armed := 1 |>) as Hst.
  { unfold st, kernel_fault_injection_arm. rewrite (proj2 (Z.leb_gt _ _)) by lia. cbn [snd].
    by rewrite aget_aset_eq by lia. }
  assert (race_inv k (failures (aget fp point)) m) as Hm.
  { unfold m. rewrite Hst. constructor; cbn [fst snd]; rewrite ?acount_replicate; cbn [passed fired counted].
    - simpl. lia.
    - lia.
    - left. simpl. lia.
    - intros i Hi. rewrite alen_replicate in Hi. by rewrite aget_replicate.
    - by rewrite Z.add_0_r, u64_small. }
  pose proof (race_bound _ _ _ _ Hm Hrun) as Hb. pose proof (race_inv_run _ _ _ _ Hm Hrun) as [Hr _ Ha _ Hf].
  assert (alen m'.2 = Z.of_nat n) as Hn.
  { unfold m', race. clear. assert (alen m.2 = Z.of_nat n) as Hn by apply alen_replicate. revert Hn.
    generalize m. induction schedule as [|i l IH]; intros m0 Hn; [done|]. apply IH. unfold race_step.
    destruct (caller_step _ _). cbn [snd]. by rewrite alen_aset. }
  fold m' in Hr, Ha, Hf. split; [destruct Ha as [(_ & _ & ->)|(_ & _ & _ & ->)]; lia|]. split.
  { revert Hb. unfold race_measure, m. cbn [fst snd]. rewrite asum_replicate, alen_replicate, Hst. cbn. lia. }
  intros Hd. destruct (all_done _ Hd) as [H1 H2]. rewrite Hn in H1. rewrite Hf. cbv zeta.
  destruct (k <? Z.of_nat n) eqn:Hkn; bprop; destruct Ha as [(_ & Hpa & Hfi)|(_ & _ & Hpa & Hfi)];
    rewrite Hfi in H2; try lia; rewrite <- H2; done.
Qed.

(** Two calls on a point armed to fail at once, interleaved access by access. *)
Lemma fault_point_races_once_witness :
  let m := (aget (kernel_fault_injection_arm KERNEL_FAULT_POINT_HEAP 0 fresh_points).2 KERNEL_FAULT_POINT_HEAP,
            replicate 2 at_entry) in
  let schedule := [0; 1; 0; 1; 0; 1; 0; 1; 0; 1; 0; 1] in
  (race schedule m).2 = [returned true; returned false] /\ acount counted (race schedule m).2 = 1.
Proof.
  cbv zeta. split; [vm_compute; reflexivity|].
  refine (proj1 (proj2 (proj2 (fault_point_races_once 2 0 KERNEL_FAULT_POINT_HEAP fresh_points
    [0; 1; 0; 1; 0; 1; 0; 1; 0; 1; 0; 1] _ _ _ _ _)) _)).
  - vm_compute. reflexivity.
  - vm_compute. split; [discriminate | reflexivity].
  - vm_compute. split; [discriminate | reflexivity].
  - split; [lia | reflexivity].
  - vm_compute. repeat split; discriminate.
  - vm_compute. reflexivity.
Defined.
