(* ===== verification/Platform.v ===== *)
(** * The spinlocks and fault points behind the interface

    The components are proved against the class [KernelEnv] and, where they need
    their locks, [LockLaws].  This file instantiates both with the models of
    [kernel/sync/spinlock.cpp] and [kernel/debug/fault_injection.cpp], as one
    CPU sees them: the token of each acquire is kept on a stack, since every
    caller releases with the token it acquired with.

    A lock that another CPU holds is one the acquire would wait for.  That wait
    is the subject of [SpinlockSpec]; here [spin_only_for_others] shows that it
    does not arise while every taken lock is in this CPU's own stack. *)

From S2P Require Import Prelude KernelEnv Spinlock SpinlockSpec FaultInjection.

Record Platform := {
  pl_spin : SpinState; pl_faults : FaultPoints; pl_tokens : list KernelSpinlockToken }.
#[export] Instance Platform_settable : Settable Platform := {| eta_expand e := {|
  pl_spin := pl_spin e; pl_faults := pl_faults e; pl_tokens := pl_tokens e |} |}.

(** The operations of CPU [c]. *)
Definition platform_acquire (c : Z) (l : lock_ref) (e : Platform) : bool * Platform :=
  let '(go, token, s) := acquire_enter c l (pl_spin e) in
  if (go : bool) then
    let '(taken, token, s) := acquire_spin c l token s in
    (taken, if (taken : bool) then e <| pl_spin := s |> <| pl_tokens := token :: pl_tokens e |>
            else e <| pl_spin := s |>)
  else (false, e <| pl_spin := s |>).

Definition platform_release (c : Z) (l : lock_ref) (e : Platform) : Platform :=
  let '(_, s) := spinlock_release c l (head (pl_tokens e)) (pl_spin e) in
  e <| pl_spin := s |> <| pl_tokens := tail (pl_tokens e) |>.

Definition platform_env (c : Z) : KernelEnv Platform := {|
  kernel_spinlock_setup l class_ e := e <| pl_spin := kernel_spinlock_init l class_ (pl_spin e) |>;
  kernel_spinlock_acquire := platform_acquire c;
  kernel_spinlock_release := platform_release c;
  kernel_fault_injection_should_fail point e :=
    let '(b, fp) := should_fail point (pl_faults e) in (b, e <| pl_faults := fp |>);
|}.

(** ** When a lock is granted *)

(** The CPU is set up, does not wait for a TLB acknowledgement, has room for one
    more lock, and the lock is free, has a class and comes after the innermost
    one held. *)
Record lock_ready (c : Z) (s : SpinState) (l : lock_ref) (k : CpuLocal) : Prop := {
  lr_cpu : cpus s !! c = Some k;
  lr_id : c <> KERNEL_LOCK_NO_OWNER;
  lr_tlb : tlb_wait_depth k = 0;
  lr_stack : alen (held_locks k) = KERNEL_LOCK_STACK_MAX;
  lr_depth : 0 <= held_lock_depth k < KERNEL_LOCK_STACK_MAX;
  lr_preempt : 0 <= preemption_disable_count k < 2 ^ 32 - 1;
  lr_lock : l <> 0;
  lr_class : KERNEL_LOCK_CLASS_NONE < lock_class (lock_get s l) <= KERNEL_LOCK_CLASS_VFS_DEVICE;
  lr_free : locked (lock_get s l) = 0;
  lr_order : held_lock_depth k = 0 \/ top_class s (Some k) < lock_class (lock_get s l);
}.
Definition platform_ready (c : Z) (e : Platform) (l : lock_ref) : Prop :=
  exists k, lock_ready c (pl_spin e) l k.

Lemma ready_enter c s l k : lock_ready c s l k ->
  exists tok s1, acquire_enter c l s = (true, tok, s1).
Proof.
  intros []. unfold acquire_enter. simpl. rewrite lr_cpu0. unfold kernel_in_tlb_wait. simpl. rewrite lr_cpu0, lr_tlb0.
  rewrite (proj2 (Z.eqb_neq c _)) by done. cbn [nonzero Z.eqb negb orb].
  change (lock_get _ l) with (lock_get s l).
  rewrite (proj2 (Z.eqb_neq l 0)), (proj2 (Z.eqb_neq (lock_class _) _)), (proj2 (Z.ltb_ge _ _)), (proj2 (Z.leb_gt _ _)) by lia.
  cbn [orb]. unfold top_class in lr_order0. unfold nonzero in *.
  destruct (held_lock_depth k =? 0) eqn:Hd; cbn [negb andb] in *; [by eauto|]. apply Z.eqb_neq in Hd.
  destruct lr_order0 as [|Hlt]; [done|].
  destruct (aget (held_locks k) (held_lock_depth k - 1) =? l) eqn:He.
  - apply Z.eqb_eq in He. rewrite He in Hlt. lia.
  - match goal with |- context [lock_class ?a <=? lock_class ?b] =>
      rewrite (proj2 (Z.leb_gt (lock_class a) (lock_class b))) by exact Hlt end.
    by eauto.
Qed.

(** What an acquire and the matching release do to the machine. *)
Lemma ready_cycle c e l k : lock_ready c (pl_spin e) l k ->
  exists e1, platform_acquire c l e = (true, e1) /\
    locked (lock_get (pl_spin e1) l) = 1 /\ owner_cpu (lock_get (pl_spin e1) l) = c /\
    pl_tokens (platform_release c l e1) = pl_tokens e /\ pl_faults e1 = pl_faults e /\
    lock_at (pl_spin (platform_release c l e1)) = <[l := (lock_get (pl_spin e) l)
      <| locked := 0 |> <| owner_cpu := KERNEL_LOCK_NO_OWNER |>]> (lock_at (pl_spin e)) /\
    cpus (pl_spin (platform_release c l e1)) = <[c := k <| held_locks :=
      aset (aset (held_locks k) (held_lock_depth k) l) (held_lock_depth k) 0 |>]> (cpus (pl_spin e)).
Proof.
  intros Hr. destruct (ready_enter _ _ _ _ Hr) as (tok & s1 & He). destruct Hr.
  unfold platform_acquire. rewrite He.
  apply (acquire_enter_fields _ _ _ k) in He as (_ & Hl1 & _ & Hc1 & Ho & _); [|done].
  assert (locked (lock_get s1 l) = 0) as Hf1 by (unfold lock_get; by rewrite Hl1).
  destruct (acquire_spin c l tok s1) as [[taken tok1] s2] eqn:Hs.
  assert (taken = true) as ->.
  { revert Hs. unfold acquire_spin. rewrite Hf1. cbn [nonzero Z.eqb negb]. by intros [= <- _ _]. }
  eapply acquire_spin_fields in Hs as (_ & _ & -> & Hl2 & Hc2); [|rewrite Hc1; apply lookup_insert_eq].
  simpl in Hc2. unfold KERNEL_LOCK_STACK_MAX in *. rewrite !u32_small in Hc2 by (split; lia).
  rewrite Hc1, insert_insert_eq in Hc2. unfold lock_get in Hl2. rewrite Hl1 in Hl2.
  eexists. split; [reflexivity|]. unfold platform_release. cbn [pl_spin pl_tokens pl_faults head tail].
  change (pl_spin (_ <| pl_tokens := _ |>)) with s2.
  assert (lock_get s2 l = (lock_get (pl_spin e) l) <| locked := 1 |> <| owner_cpu := c |>) as Hg.
  { unfold lock_get. rewrite Hl2, lookup_total_insert, decide_True by done. by rewrite Ho. }
  rewrite Hg. split; [done|]. split; [done|]. cbn [head pl_tokens].
  edestruct (release_fields c l s2) as (s3 & Hrel & Hl3 & Hc3 & _);
    [rewrite Hc2; apply lookup_insert_eq | ..|].
  8: { match goal with |- context [spinlock_release c l ?t s2] =>
         change t with (Some (tok <| acquired := true |>)) end.
       rewrite Hrel. simpl. split; [done|]. split; [done|]. rewrite Hl3, Hc3, Hl2, Hc2, !insert_insert_eq, Hg.
       split; [done|]. simpl. rewrite !Z.add_simpl_r. by destruct k. }
  all: simpl; try done; try lia.
  - by rewrite Hg.
  - rewrite Z.add_simpl_r. apply aget_aset_eq. unfold KERNEL_LOCK_STACK_MAX in *. lia.
Qed.

(** After an acquire and its release every lock that was ready is ready. *)
Lemma ready_kept c e l k e1 l' : lock_ready c (pl_spin e) l k -> platform_acquire c l e = (true, e1) ->
  platform_ready c e l' -> platform_ready c (platform_release c l e1) l'.
Proof.
  intros Hr Ha [k' Hr']. destruct (ready_cycle c e l k Hr) as (e2 & Ha2 & _ & _ & _ & _ & Hl & Hc).
  rewrite Ha in Ha2. injection Ha2 as <-. destruct Hr, Hr'.
  assert (k' = k) as -> by congruence. set (s := pl_spin (platform_release c l e1)) in *.
  assert (forall x, lock_class (lock_get s x) = lock_class (lock_get (pl_spin e) x)) as Hclass.
  { intros x. unfold lock_get. rewrite Hl, lookup_total_insert. case_decide; [by subst | done]. }
  exists (k <| held_locks := aset (aset (held_locks k) (held_lock_depth k) l) (held_lock_depth k) 0 |>).
  constructor; fold s; try done.
  - rewrite Hc. apply lookup_insert_eq.
  - simpl. by rewrite !alen_aset.
  - by rewrite Hclass.
  - unfold lock_get. rewrite Hl, lookup_total_insert. case_decide; done.
  - destruct lr_order1 as [?|Hlt]; [by left | right]. rewrite Hclass. eapply Z.le_lt_trans; [|exact Hlt].
    unfold top_class. set (k3 := k <| held_locks := _ |>).
    assert (held_lock_depth k3 = held_lock_depth k) as -> by done.
    unfold nonzero. destruct (held_lock_depth k =? 0) eqn:Hd; [done|]. apply Z.eqb_neq in Hd. cbn [negb].
    rewrite Hclass. change (held_locks k3) with
      (aset (aset (held_locks k) (held_lock_depth k) l) (held_lock_depth k) 0).
    by rewrite !aget_aset_ne by lia.
Qed.

Lemma release_faults c l e fp :
  pl_spin (platform_release c l (e <| pl_faults := fp |>)) = pl_spin (platform_release c l e).
Proof.
  unfold platform_release. change (pl_tokens (e <| pl_faults := fp |>)) with (pl_tokens e).
  change (pl_spin (e <| pl_faults := fp |>)) with (pl_spin e). by destruct (spinlock_release _ _ _ _).
Qed.

#[export] Instance platform_laws (c : Z) : @LockLaws Platform (platform_env c).
Proof.
  refine {| ready e l := platform_ready c e l |}.
  - intros e l [k Hr]. destruct (ready_cycle c e l k Hr) as (e1 & Ha & _). exists e1.
    split; [exact Ha|]. intros l'. by apply (ready_kept c e l k e1).
  - intros e l point Hr. simpl. by destruct (should_fail point (pl_faults e)).
  - intros e l point l' [k Hr]. exists k.
    refine (eq_ind_r (fun s => lock_ready c s l' k) Hr _).
    unfold kernel_fault_injection_should_fail, platform_env.
    destruct (should_fail point (pl_faults e)) as [b fp]. apply release_faults.
Defined.

(** While every taken lock is in the CPU's own stack, whose classes rise, the
    CPU never waits: whatever it may ask for is free. *)
Definition locks_ours (c : Z) (s : SpinState) : Prop :=
  forall k, cpus s !! c = Some k ->
  0 <= held_lock_depth k /\
  (forall l, locked (lock_get s l) <> 0 -> exists i, 0 <= i < held_lock_depth k /\ aget (held_locks k) i = l) /\
  forall i j, 0 <= i < j -> j < held_lock_depth k ->
    lock_class (lock_get s (aget (held_locks k) i)) < lock_class (lock_get s (aget (held_locks k) j)).

Lemma spin_only_for_others c l s tok s1 : locks_ours c s -> acquire_enter c l s = (true, tok, s1) ->
  exists tok' s2, acquire_spin c l tok s1 = (true, tok', s2).
Proof.
  intros Ho He. destruct (cpus s !! c) as [k|] eqn:Hk.
  2: { revert He. unfold acquire_enter. simpl. by rewrite Hk. }
  destruct (Ho k Hk) as (Hd0 & Hlk & Hord).
  pose proof (acquire_enter_fields _ _ _ k _ _ Hk He) as (_ & Hl1 & _).
  assert (locked (lock_get s l) = 0) as Hfree.
  { destruct (Z.eq_dec (locked (lock_get s l)) 0) as [|Hn]; [done|]. exfalso.
    destruct (Hlk l Hn) as (i & Hi & Hli). revert He. unfold acquire_enter. simpl. rewrite Hk. simpl.
    if_eqn H1; [done|]. if_eqn H2; [done|]. if_eqn H3; [done|]. if_eqn H4; [done|]. intros _.
    assert (nonzero (held_lock_depth k) = true) as Hnz by (unfold nonzero; apply negb_true_iff, Z.eqb_neq; lia).
    rewrite Hnz in H3, H4. cbn [andb] in H3, H4. apply Z.eqb_neq in H3. apply Z.leb_gt in H4.
    change (lock_class (lock_get s (aget (held_locks k) (held_lock_depth k - 1)))
            < lock_class (lock_get s l)) in H4.
    assert (i <> held_lock_depth k - 1) as Hne by (intros ->; congruence).
    specialize (Hord i (held_lock_depth k - 1) ltac:(lia) ltac:(lia)). rewrite Hli in Hord. lia. }
  unfold acquire_spin, lock_get. rewrite Hl1. unfold lock_get in Hfree. rewrite Hfree. simpl. by eauto.
Qed.

(** C40: the spinlocks and fault points implement the interface the components
    are proved against.  On a CPU where a lock is ready, the acquire takes it
    and marks it with the CPU as owner, and its release leaves every lock that
    was ready ready, the lock free and unowned and the tokens and fault points
    as they were; testing a fault point, inside a locked section or outside,
    makes no lock less ready; and a CPU that may ask for a lock while all taken
    locks are its own gets it without waiting. *)
Theorem platform_implements_interface c e l : platform_ready c e l ->
  (exists e1, platform_acquire c l e = (true, e1) /\
     locked (lock_get (pl_spin e1) l) = 1 /\ owner_cpu (lock_get (pl_spin e1) l) = c /\
     let e2 := platform_release c l e1 in
     locked (lock_get (pl_spin e2) l) = 0 /\ owner_cpu (lock_get (pl_spin e2) l) = KERNEL_LOCK_NO_OWNER /\
     pl_tokens e2 = pl_tokens e /\ pl_faults e2 = pl_faults e /\
     forall l', platform_ready c e l' -> platform_ready c e2 l') /\
  (forall point, platform_ready c (@kernel_fault_injection_should_fail _ (platform_env c) point e).2 l) /\
  (forall l' tok s1, locks_ours c (pl_spin e) -> acquire_enter c l' (pl_spin e) = (true, tok, s1) ->
     exists tok' s2, acquire_spin c l' tok s1 = (true, tok', s2)).
Proof.
  intros [k Hr]. split; [|split].
  - destruct (ready_cycle c e l k Hr) as (e1 & Ha & H1 & H2 & H3 & H4 & H5 & _). exists e1.
    split; [done|]. split; [done|]. split; [done|]. cbv zeta. unfold lock_get.
    rewrite H5, lookup_total_insert, decide_True by done. split; [done|]. split; [done|]. split; [done|].
    split; [|intros l'; by apply (ready_kept c e l k e1)].
    rewrite <- H4. unfold platform_release. by destruct (spinlock_release _ _ _ _).
  - intros point. simpl. destruct (should_fail point (pl_faults e)). by exists k.
  - intros l' tok s1. apply spin_only_for_others.
Qed.

(** A CPU with two locks of classes 1 and 4, none taken. *)
Definition demo_platform : Platform := {|
  pl_spin := kernel_spinlock_init 200 4 (kernel_spinlock_init 100 1 (mach demo_boot));
  pl_faults := fresh_points; pl_tokens := [] |}.
Lemma demo_platform_ready l : l = 100 \/ l = 200 -> platform_ready 0 demo_platform l.
Proof. intros Hl. exists idle_cpu. destruct Hl as [-> | ->]; constructor; try done; by left. Qed.

Lemma platform_implements_interface_witness : exists e1,
  platform_acquire 0 100 demo_platform = (true, e1) /\
  platform_ready 0 (platform_release 0 100 e1) 200 /\ owner_cpu (lock_get (pl_spin e1) 100) = 0.
Proof.
  destruct (platform_implements_interface 0 demo_platform 100 (demo_platform_ready 100 ltac:(left; reflexivity)))
    as ((e1 & Ha & _ & Ho & Hk) & _).
  exists e1. split; [exact Ha|]. split; [|exact Ho]. apply Hk, demo_platform_ready. right. reflexivity.
Defined.
