(* ===== verification/Results.v ===== *)
(** * Result codes ([include/os64/result.h]) *)

From S2P Require Import Prelude.

Definition OS_SUCCESS : Z := 0.
Definition SYS_ERR_NOT_READY : Z := -1.
Definition SYS_ERR_INVALID_ARGUMENT : Z := -2.
Definition SYS_ERR_NOT_FOUND : Z := -3.
Definition SYS_ERR_BUFFER_TOO_SMALL : Z := -4.
Definition SYS_ERR_IO : Z := -5.
Definition SYS_ERR_ALREADY_EXISTS : Z := -6.
Definition SYS_ERR_NO_RESOURCES : Z := -7.
Definition SYS_ERR_UNSUPPORTED : Z := -8.
Definition SYS_ERR_WOULD_BLOCK : Z := -9.
Definition SYS_ERR_OUT_OF_MEMORY : Z := -10.
Definition SYS_ERR_OUT_OF_RANGE : Z := -11.
Definition SYS_ERR_NO_TARGET : Z := -12.
Definition SYS_ERR_QUEUE_FULL : Z := -13.
Definition SYS_ERR_MESSAGE_TOO_LARGE : Z := -14.
Definition SYS_ERR_PERMISSION_DENIED : Z := -15.
Definition SYS_ERR_BAD_BUFFER : Z := -16.
Definition SYS_ERR_TIMEOUT : Z := -17.
Definition SYS_ERR_CANCELLED : Z := -18.
Definition SYS_ERR_INVALID_HANDLE : Z := -19.
Definition SYS_ERR_STALE_HANDLE : Z := -20.
Definition SYS_ERR_WRONG_HANDLE_TYPE : Z := -21.
Definition SYS_ERR_OVERFLOW : Z := -22.
