(* ===== verification/Handle.v ===== *)
(** * Handle tables ([kernel/handle/kernel_handle.cpp])

    A process owns a table of 32 entries; user code holds 32-bit tokens made of
    a slot and a generation.  Tables live at addresses ([Tables]), 0 being the
    null pointer; a pointer to an entry is its slot.  Operations are modelled
    with their null checks, the lock of the table (its first member, hence its
    address) and the fault point of allocation. *)

From S2P Require Import Prelude KernelEnv Spinlock Results.

Definition OS_HANDLE_TOKEN_SLOT_BITS : Z := 8.
Definition OS_HANDLE_TOKEN_SLOT_MASK : Z := 0xFF.
Definition OS_HANDLE_TOKEN_GENERATION_MAX : Z := 0x00FFFFFF.
Definition KERNEL_HANDLE_TABLE_SIZE : Z := 32.
Definition KERNEL_HANDLE_TYPE_NONE : Z := 0.
Definition KERNEL_HANDLE_TYPE_SHARED_MEMORY : Z := 3.
Definition KERNEL_HANDLE_TYPE_GRAPHICS_SURFACE : Z := 4.
Definition KERNEL_HANDLE_TYPE_MUTEX : Z := 5.
Definition KERNEL_HANDLE_TYPE_SEMAPHORE : Z := 6.
Definition KERNEL_HANDLE_TYPE_CONDITION : Z := 7.

Record KernelHandle := {
  active : Z; type : Z; reserved0 : Z; rights : Z; generation : Z; reserved1 : Z;
  object : Z; extra : Z }.
#[export] Instance KernelHandle_settable : Settable KernelHandle := {| eta_expand h := {|
  active := active h; type := type h; reserved0 := reserved0 h; rights := rights h;
  generation := generation h; reserved1 := reserved1 h; object := object h;
  extra := extra h |} |}.
#[export] Instance KernelHandle_inhabited : Inhabited KernelHandle :=
  populate {| active := 0; type := 0; reserved0 := 0; rights := 0; generation := 0;
              reserved1 := 0; object := 0; extra := 0 |}.

Record KernelHandleTable := {
  next_gen : Z; active_count : Z; entries : list KernelHandle }.
#[export] Instance KernelHandleTable_settable : Settable KernelHandleTable :=
  {| eta_expand t := {| next_gen := next_gen t; active_count := active_count t;
     entries := entries t |} |}.
#[export] Instance KernelHandleTable_inhabited : Inhabited KernelHandleTable :=
  populate {| next_gen := 0; active_count := 0; entries := replicate 32 inhabitant |}.

(** ** Tokens *)

Definition encode_handle_token (slot gen : Z) : Z :=
  Z.lor (u64 (Z.shiftl gen OS_HANDLE_TOKEN_SLOT_BITS)) (u32 (slot + 1)).

Definition decode_handle_token (handle : Z) : option (Z * Z) :=
  if (Z.land handle OS_HANDLE_TOKEN_SLOT_MASK =? 0) || (0xFFFFFFFF <? handle) then None
  else
    let slot := u32 (u32 (Z.land handle OS_HANDLE_TOKEN_SLOT_MASK) - 1) in
    if KERNEL_HANDLE_TABLE_SIZE <=? slot then None
    else
      let gen := u32 (Z.shiftr handle OS_HANDLE_TOKEN_SLOT_BITS) in
      if gen =? 0 then None else Some (slot, gen).

Definition kernel_handle_is_valid_token (handle : Z) : bool :=
  match decode_handle_token handle with Some _ => true | None => false end.

(** [next_generation] calls itself when the counter was 0; the result and the
    counter after it. *)
Fixpoint next_generation (fuel : nat) (counter : Z) : Z * Z :=
  let gen := counter in
  let counter := u32 (counter + 1) in
  let counter := if (counter =? 0) || (OS_HANDLE_TOKEN_GENERATION_MAX <? counter)
                 then 1 else counter in
  match fuel with
  | O => (gen, counter)
  | S fuel => if gen =? 0 then next_generation fuel counter else (gen, counter)
  end.

(** Enough fuel: the second call never sees 0. *)
Lemma next_generation_fuel n counter : 0 <= counter < 2 ^ 32 ->
  next_generation (S n) counter = next_generation 1 counter /\
  (next_generation 1 counter).1 <> 0.
Proof.
  intros Hc. simpl. unfold OS_HANDLE_TOKEN_GENERATION_MAX.
  destruct (counter =? 0) eqn:E; bprop; [subst|by split].
  destruct n; by split.
Qed.

(** ** Lookup in a locked table *)

(** Result code and slot ([*resolved_out]). *)
Definition resolve_unlocked_result (t : KernelHandleTable) (handle expected_type required_rights : Z)
    : Z * option Z :=
  match decode_handle_token handle with
  | None => (SYS_ERR_INVALID_HANDLE, None)
  | Some (slot, gen) =>
    let entry := aget (entries t) slot in
    if (active entry =? 0) || negb (generation entry =? gen) then (SYS_ERR_STALE_HANDLE, None)
    else if negb (expected_type =? KERNEL_HANDLE_TYPE_NONE) && negb (type entry =? expected_type)
    then (SYS_ERR_WRONG_HANDLE_TYPE, None)
    else if negb (Z.land (rights entry) required_rights =? required_rights)
    then (SYS_ERR_PERMISSION_DENIED, None)
    else (OS_SUCCESS, Some slot)
  end.

Definition resolve_unlocked (t : KernelHandleTable) (handle expected_type required_rights : Z)
    : option Z :=
  let '(r, slot) := resolve_unlocked_result t handle expected_type required_rights in
  if r =? OS_SUCCESS then slot else None.

(** The assignments that empty an entry; the generation stays. *)
Definition clear_entry (entry : KernelHandle) : KernelHandle :=
  entry <| active := 0 |> <| type := KERNEL_HANDLE_TYPE_NONE |> <| rights := 0 |>
        <| object := 0 |> <| extra := 0 |>.

(** ** Bodies of the operations, on the locked table *)

Definition init_body (t : KernelHandleTable) : KernelHandleTable :=
  let t := t <| next_gen := 1 |> <| active_count := 0 |> in
  for_range 0 KERNEL_HANDLE_TABLE_SIZE (fun i t => t <| entries := aset (entries t) i
    {| active := 0; type := KERNEL_HANDLE_TYPE_NONE; reserved0 := 0; rights := 0;
       generation := 0; reserved1 := 0; object := 0; extra := 0 |} |>) t.

Definition alloc_body (ty r obj ext : Z) (t : KernelHandleTable) : Z * KernelHandleTable :=
  match find_first (fun i => active (aget (entries t) i) =? 0) 0
          (Z.to_nat KERNEL_HANDLE_TABLE_SIZE) with
  | None => (0, t)
  | Some i =>
    let '(gen, counter) := next_generation 1 (next_gen t) in
    let entry := {| active := 1; type := u8 ty; reserved0 := 0; rights := r;
                    generation := gen; reserved1 := 0; object := obj; extra := ext |} in
    (encode_handle_token i gen,
     t <| next_gen := counter |> <| entries := aset (entries t) i entry |>
       <| active_count := u32 (active_count t + 1) |>)
  end.

Definition restrict_body (handle r : Z) (t : KernelHandleTable) : Z * KernelHandleTable :=
  match resolve_unlocked t handle KERNEL_HANDLE_TYPE_NONE 0 with
  | None => (0, t)
  | Some slot =>
    let entry := aget (entries t) slot in
    if nonzero (Z.land r (not32 (rights entry))) then (0, t)
    else (1, t <| entries := aset (entries t) slot (entry <| rights := r |>) |>)
  end.

Definition close_body (handle : Z) (t : KernelHandleTable)
    : (Z * option KernelHandle) * KernelHandleTable :=
  match resolve_unlocked t handle KERNEL_HANDLE_TYPE_NONE 0 with
  | None => ((0, None), t)
  | Some slot =>
    let entry := aget (entries t) slot in
    let t := t <| entries := aset (entries t) slot (clear_entry entry) |> in
    let t := if nonzero (active_count t)
             then t <| active_count := active_count t - 1 |> else t in
    ((1, Some entry), t)
  end.

(** [detached[count++] = *entry] appends to the output array. *)
Definition detach_step (i : Z) (st : list KernelHandle * KernelHandleTable)
    : list KernelHandle * KernelHandleTable :=
  let '(out, t) := st in
  let entry := aget (entries t) i in
  if active entry =? 0 then (out, t)
  else (out ++ [entry], t <| entries := aset (entries t) i (clear_entry entry) |>).

Definition detach_body (t : KernelHandleTable) : list KernelHandle * KernelHandleTable :=
  let '(out, t) := for_range 0 KERNEL_HANDLE_TABLE_SIZE detach_step ([], t) in
  (out, t <| active_count := 0 |>).

Definition close_type_step (ty i : Z) (st : Z * KernelHandleTable) : Z * KernelHandleTable :=
  let '(closed, t) := st in
  let entry := aget (entries t) i in
  if (active entry =? 0) || (negb (ty =? KERNEL_HANDLE_TYPE_NONE) && negb (type entry =? ty))
  then (closed, t)
  else (u32 (closed + 1), t <| entries := aset (entries t) i (clear_entry entry) |>).

Definition close_type_body (ty : Z) (t : KernelHandleTable) : Z * KernelHandleTable :=
  let '(closed, t) := for_range 0 KERNEL_HANDLE_TABLE_SIZE (close_type_step ty) (0, t) in
  (closed, t <| active_count := if closed <? active_count t then active_count t - closed else 0 |>).

Definition count_type_body (ty : Z) (t : KernelHandleTable) : Z :=
  for_range 0 KERNEL_HANDLE_TABLE_SIZE (fun i count =>
    let entry := aget (entries t) i in
    if nonzero (active entry) && ((ty =? KERNEL_HANDLE_TYPE_NONE) || (type entry =? ty))
    then u32 (count + 1) else count) 0.

Arguments init_body : simpl never.
Arguments alloc_body : simpl never.
Arguments detach_body : simpl never.
Arguments close_type_body : simpl never.
Arguments count_type_body : simpl never.

(** ** The operations *)

Abbreviation Tables := (gmap Z KernelHandleTable).

Section Operations.
Context {E : Type} `{KernelEnv E}.

(** A body on one table, under the lock of that table. *)
Definition with_table {A} (table : Z) (fail : A)
    (body : KernelHandleTable -> A * KernelHandleTable) (ts : Tables) (e : E) : A * Tables * E :=
  with_lock table fail (fun ts : Tables =>
    let '(a, t) := body (ts !!! table) in (a, <[table := t]> ts)) ts e.

Definition kernel_handle_table_init (table : Z) (ts : Tables) (e : E) : Tables * E :=
  if table =? 0 then (ts, e)
  else (<[table := init_body (ts !!! table)]> ts,
        kernel_spinlock_setup table KERNEL_LOCK_CLASS_HANDLE e).

Definition kernel_handle_alloc (table ty r obj ext : Z) (ts : Tables) (e : E)
    : Z * Tables * E :=
  if (table =? 0) || (ty =? KERNEL_HANDLE_TYPE_NONE) then (0, ts, e)
  else
    let '(fault, e) := kernel_fault_injection_should_fail KERNEL_FAULT_POINT_HANDLE e in
    if fault then (0, ts, e)
    else with_table table 0 (alloc_body ty r obj ext) ts e.

(** The entry found is returned as its slot. *)
Definition kernel_handle_resolve (table handle expected_type required_rights : Z)
    (ts : Tables) (e : E) : option Z * Tables * E :=
  if table =? 0 then (None, ts, e)
  else with_table table None
    (fun t => (resolve_unlocked t handle expected_type required_rights, t)) ts e.

Definition kernel_handle_resolve_const := kernel_handle_resolve.

(** [resolved_out] tells whether that pointer is not null; the copy is in the answer. *)
Definition kernel_handle_resolve_copy_result (table handle expected_type required_rights : Z)
    (resolved_out : bool) (ts : Tables) (e : E) : (Z * option KernelHandle) * Tables * E :=
  if (table =? 0) || negb resolved_out then ((SYS_ERR_INVALID_ARGUMENT, None), ts, e)
  else with_table table (SYS_ERR_NOT_READY, None) (fun t =>
    let '(r, entry) := resolve_unlocked_result t handle expected_type required_rights in
    ((r, if r =? OS_SUCCESS then aget (entries t) <$> entry else None), t)) ts e.

Definition kernel_handle_resolve_copy (table handle expected_type required_rights : Z)
    (resolved_out : bool) (ts : Tables) (e : E) : (bool * option KernelHandle) * Tables * E :=
  let '(r, out, ts, e) := kernel_handle_resolve_copy_result table handle expected_type
    required_rights resolved_out ts e in
  ((r =? OS_SUCCESS, out), ts, e).

Definition kernel_handle_restrict_rights (table handle r : Z) (ts : Tables) (e : E)
    : Z * Tables * E :=
  if (table =? 0) || (r =? 0) then (0, ts, e)
  else with_table table 0 (restrict_body handle r) ts e.

Definition kernel_handle_close (table handle : Z) (ts : Tables) (e : E)
    : (Z * option KernelHandle) * Tables * E :=
  if table =? 0 then ((0, None), ts, e)
  else with_table table (0, None) (close_body handle) ts e.

(** The answer is the detached entries; the function returns their number. *)
Definition kernel_handle_detach_all (table : Z) (detached : bool) (capacity : Z)
    (ts : Tables) (e : E) : list KernelHandle * Tables * E :=
  if (table =? 0) || negb detached || (capacity <? KERNEL_HANDLE_TABLE_SIZE) then ([], ts, e)
  else with_table table [] detach_body ts e.

Definition kernel_handle_close_all_type (table ty : Z) (ts : Tables) (e : E) : Z * Tables * E :=
  if table =? 0 then (0, ts, e)
  else with_table table 0 (close_type_body ty) ts e.

Definition kernel_handle_count_type (table ty : Z) (ts : Tables) (e : E) : Z * Tables * E :=
  if table =? 0 then (0, ts, e)
  else with_table table 0 (fun t => (count_type_body ty t, t)) ts e.
End Operations.
