(* ===== verification/HandleSpec.v ===== *)
(** * Handle tables as capability maps

    A handle table promises its clients a map from tokens to capabilities:
    allocation adds a fresh token, closing removes one, restriction shrinks the
    rights of one, and nothing else changes.  The invariant of the table, the
    simulation of that specification by the code, the exact result codes of a
    lookup, and how long a closed token stays dead. *)

From S2P Require Import Prelude KernelEnv Results Handle.

(** ** Tokens *)

Definition is_slot (slot : Z) : Prop := 0 <= slot < KERNEL_HANDLE_TABLE_SIZE.
Definition is_generation (gen : Z) : Prop := 1 <= gen <= OS_HANDLE_TOKEN_GENERATION_MAX.

Ltac handle_consts := unfold is_slot, is_generation, KERNEL_HANDLE_TABLE_SIZE,
  OS_HANDLE_TOKEN_GENERATION_MAX, OS_HANDLE_TOKEN_SLOT_MASK, OS_HANDLE_TOKEN_SLOT_BITS in *.

Lemma encode_value slot gen : is_slot slot -> is_generation gen ->
  encode_handle_token slot gen = gen * 256 + (slot + 1).
Proof.
  handle_consts. intros Hs Hg. unfold encode_handle_token, OS_HANDLE_TOKEN_SLOT_BITS.
  rewrite Z.shiftl_mul_pow2 by lia. rewrite (u64_small (gen * 2 ^ 8)) by (unfold is_u64; lia).
  unwrap. by rewrite lor_shifted by lia.
Qed.

Lemma decode_encode slot gen : is_slot slot -> is_generation gen ->
  decode_handle_token (encode_handle_token slot gen) = Some (slot, gen).
Proof.
  intros Hs Hg. rewrite encode_value by done. unfold decode_handle_token. handle_consts.
  change 0xFF with (2 ^ 8 - 1). rewrite land_ones_mod by lia.
  rewrite Z.shiftr_div_pow2 by lia. change (2 ^ 8) with 256.
  rewrite (Z.add_comm (gen * 256)), Z.mod_add, Z.div_add, Z.mod_small, Z.div_small by lia.
  unwrap. replace (slot + 1 - 1) with slot by lia.
  rewrite (proj2 (Z.eqb_neq _ _)), (proj2 (Z.ltb_ge _ _)), (proj2 (Z.leb_gt _ _)),
    (proj2 (Z.eqb_neq _ _)) by lia. done.
Qed.

Lemma decode_Some h slot gen : 0 <= h -> decode_handle_token h = Some (slot, gen) ->
  is_slot slot /\ is_generation gen /\ h = encode_handle_token slot gen.
Proof.
  intros Hh. unfold decode_handle_token. handle_consts.
  change 0xFF with (2 ^ 8 - 1). rewrite land_ones_mod by lia.
  rewrite Z.shiftr_div_pow2 by lia. change (2 ^ 8) with 256.
  pose proof (Z.mod_pos_bound h 256 ltac:(lia)) as Hm. pose proof (Z.div_mod h 256 ltac:(lia)) as Hd.
  if_eqn H1; [done|]. apply orb_false_iff in H1 as [H1 H2].
  apply Z.eqb_neq in H1. apply Z.ltb_ge in H2.
  assert (0 <= h / 256 < 2 ^ 24) by (split; [apply Z.div_pos | apply Z.div_lt_upper_bound]; lia).
  unwrap. if_eqn H3; [done|]. if_eqn H4; [done|]. apply Z.leb_gt in H3. apply Z.eqb_neq in H4.
  intros [= <- <-]. split; [lia|]. split; [lia|].
  rewrite encode_value; handle_consts; lia.
Qed.

Lemma decode_slot h slot gen : decode_handle_token h = Some (slot, gen) -> is_slot slot.
Proof.
  unfold decode_handle_token. if_eqn H1; [done|]. if_eqn H2; [done|]. if_eqn H3; [done|].
  intros [= <- _]. apply Z.leb_gt in H2. split; [apply u32_range | done].
Qed.

(** A token is a slot and a generation and nothing else.  Decoding the
    token of any slot and any generation gives them back; a word decodes only
    if it is the token of a slot of the table and a nonzero 24-bit generation,
    and then it is the token of what it decodes to. *)
Theorem handle_token_roundtrip :
  (forall slot gen, is_slot slot -> is_generation gen ->
     decode_handle_token (encode_handle_token slot gen) = Some (slot, gen) /\
     0 < encode_handle_token slot gen < 2 ^ 32) /\
  (forall h slot gen, is_u64 h -> decode_handle_token h = Some (slot, gen) ->
     is_slot slot /\ is_generation gen /\ h = encode_handle_token slot gen).
Proof.
  split.
  - intros slot gen Hs Hg. split; [by apply decode_encode|].
    rewrite encode_value by done. handle_consts. lia.
  - intros h slot gen [Hh _]. by apply decode_Some.
Qed.

(** ** The invariant *)

Definition is_active (h : KernelHandle) : bool := nonzero (active h).

Record table_inv (t : KernelHandleTable) : Prop := {
  ti_len : alen (entries t) = KERNEL_HANDLE_TABLE_SIZE;
  ti_next : is_generation (next_gen t);
  ti_count : active_count t = acount is_active (entries t);
  ti_gen : forall i, is_slot i -> is_active (aget (entries t) i) = true ->
    is_generation (generation (aget (entries t) i));
}.

(** The capability behind a token. *)
Record Cap := { cap_type : Z; cap_rights : Z; cap_object : Z; cap_extra : Z }.
Definition cap_of (h : KernelHandle) : Cap :=
  {| cap_type := type h; cap_rights := rights h; cap_object := object h; cap_extra := extra h |}.

(** The open entry a token names. *)
Definition open_slot (t : KernelHandleTable) (h : Z) : option Z :=
  match decode_handle_token h with
  | Some (slot, gen) =>
    if is_active (aget (entries t) slot) && (generation (aget (entries t) slot) =? gen)
    then Some slot else None
  | None => None
  end.
Definition caps (t : KernelHandleTable) (h : Z) : option Cap :=
  (fun i => cap_of (aget (entries t) i)) <$> open_slot t h.

Lemma init_inv t : alen (entries t) = KERNEL_HANDLE_TABLE_SIZE ->
  table_inv (init_body t) /\ forall h, caps (init_body t) h = None.
Proof.
  intros Hl. unfold init_body.
  set (empty := {| active := 0; type := _; reserved0 := 0; rights := 0; generation := 0;
    reserved1 := 0; object := 0; extra := 0 |}).
  assert (entries (for_range 0 KERNEL_HANDLE_TABLE_SIZE (fun i t =>
       t <| entries := aset (entries t) i empty |>)
     (t <| next_gen := 1 |> <| active_count := 0 |>)) = (fun _ => empty) <$> entries t /\
    next_gen (for_range 0 KERNEL_HANDLE_TABLE_SIZE (fun i t =>
       t <| entries := aset (entries t) i empty |>)
     (t <| next_gen := 1 |> <| active_count := 0 |>)) = 1 /\
    active_count (for_range 0 KERNEL_HANDLE_TABLE_SIZE (fun i t =>
       t <| entries := aset (entries t) i empty |>)
     (t <| next_gen := 1 |> <| active_count := 0 |>)) = 0) as (He & Hn & Hc).
  { rewrite <- (mapped_all _ KERNEL_HANDLE_TABLE_SIZE) by lia.
    apply (for_range_inv (fun i t' => entries t' = mapped (fun _ => empty) i (entries t) /\
      next_gen t' = 1 /\ active_count t' = 0)); [done | done |].
    intros i t' Hi (He & Hn & Hc). simpl. rewrite He, Hn, Hc.
    by rewrite (aset_mapped (fun _ => empty)) by lia. }
  assert (forall i, is_slot i -> is_active (aget ((fun _ => empty) <$> entries t) i) = false) as Ha.
  { intros i Hi. unfold is_slot in Hi. by rewrite aget_fmap by lia. }
  split; [constructor|].
  - by rewrite He, alen_fmap.
  - rewrite Hn. handle_consts. lia.
  - rewrite Hc, He. symmetry. apply acount_none. intros i. rewrite alen_fmap, Hl. apply Ha.
  - intros i Hi. rewrite He, Ha by done. done.
  - intros h. unfold caps, open_slot. rewrite He.
    destruct (decode_handle_token h) as [[slot gen]|] eqn:Hd; [|done].
    by rewrite Ha by (by eapply decode_slot).
Qed.

(** ** One entry changes *)

Section OneEntry.
Context (t t' : KernelHandleTable) (i : Z) (x : KernelHandle).
Context (Hlen : alen (entries t) = KERNEL_HANDLE_TABLE_SIZE) (Hi : is_slot i).
Context (Hset : entries t' = aset (entries t) i x).

Lemma open_slot_set h slot gen : decode_handle_token h = Some (slot, gen) ->
  open_slot t' h = if decide (slot = i)
    then (if is_active x && (generation x =? gen) then Some i else None) else open_slot t h.
Proof.
  intros Hd. pose proof (decode_slot _ _ _ Hd) as Hs. unfold open_slot. rewrite Hd, Hset.
  unfold is_slot in *. rewrite aget_aset by lia.
  destruct (decide (slot = i)) as [->|]; [by rewrite decide_True | by rewrite decide_False].
Qed.

Lemma caps_set h slot gen : decode_handle_token h = Some (slot, gen) ->
  caps t' h = if decide (slot = i)
    then (if is_active x && (generation x =? gen) then Some (cap_of x) else None) else caps t h.
Proof.
  intros Hd. unfold caps. rewrite (open_slot_set h slot gen) by done.
  unfold is_slot in *. case_decide as Hsi.
  - case_match; [|done]. simpl. rewrite Hset, aget_aset_eq by lia. done.
  - unfold open_slot. rewrite Hd. case_match; [|done]. simpl. rewrite Hset.
    pose proof (decode_slot _ _ _ Hd) as Hs. unfold is_slot in Hs.
    by rewrite aget_aset_ne by lia.
Qed.

Lemma caps_set_bad h : decode_handle_token h = None -> caps t' h = None /\ caps t h = None.
Proof. intros Hd. unfold caps, open_slot. by rewrite Hd. Qed.

(** Two tokens of the same open slot are the same token. *)
Lemma open_slot_inj h h' j : 0 <= h -> 0 <= h' ->
  open_slot t h = Some j -> open_slot t h' = Some j -> h = h'.
Proof.
  intros Hh Hh'. unfold open_slot.
  destruct (decode_handle_token h) as [[s1 g1]|] eqn:H1; [|done].
  destruct (decode_handle_token h') as [[s2 g2]|] eqn:H2; [|done].
  case_match eqn:E1; [|done]. case_match eqn:E2; [|done]. intros [= ->] [= ->].
  apply decode_Some in H1 as (_ & _ & ->); [|done]. apply decode_Some in H2 as (_ & _ & ->); [|done].
  bprop. congruence.
Qed.
End OneEntry.

Lemma open_slot_is_slot t h i : open_slot t h = Some i ->
  is_slot i /\ is_active (aget (entries t) i) = true /\
  decode_handle_token h = Some (i, generation (aget (entries t) i)).
Proof.
  unfold open_slot. destruct (decode_handle_token h) as [[slot gen]|] eqn:Hd; [|done].
  case_match eqn:He; [|done]. intros [= <-]. bprop.
  split; [by eapply decode_slot|]. split; [done|]. by rewrite H0.
Qed.

(** [resolve_unlocked_result] in terms of the open entries. *)
Lemma resolve_open t h ty req :
  resolve_unlocked_result t h ty req =
    match open_slot t h with
    | None => (if kernel_handle_is_valid_token h then SYS_ERR_STALE_HANDLE
               else SYS_ERR_INVALID_HANDLE, None)
    | Some i =>
      let entry := aget (entries t) i in
      if negb (ty =? KERNEL_HANDLE_TYPE_NONE) && negb (type entry =? ty)
      then (SYS_ERR_WRONG_HANDLE_TYPE, None)
      else if negb (Z.land (rights entry) req =? req) then (SYS_ERR_PERMISSION_DENIED, None)
      else (OS_SUCCESS, Some i)
    end.
Proof.
  unfold resolve_unlocked_result, open_slot, kernel_handle_is_valid_token, is_active, nonzero.
  destruct (decode_handle_token h) as [[slot gen]|]; [|done].
  destruct (active _ =? 0); [done|]. simpl. by destruct (generation _ =? gen).
Qed.

Lemma resolve_any t h : resolve_unlocked t h KERNEL_HANDLE_TYPE_NONE 0 = open_slot t h.
Proof.
  unfold resolve_unlocked. rewrite resolve_open. destruct (open_slot t h); simpl.
  - by rewrite Z.land_0_r.
  - by case_match.
Qed.

(** ** Allocation *)

Lemma next_generation_step g : is_generation g ->
  next_generation 1 g = (g, if g =? OS_HANDLE_TOKEN_GENERATION_MAX then 1 else g + 1).
Proof.
  intros Hg. cbn [next_generation]. handle_consts. unwrap.
  rewrite (proj2 (Z.eqb_neq g 0)), (proj2 (Z.eqb_neq (g + 1) 0)), orb_false_l by lia. f_equal.
  destruct (g =? 0xFFFFFF) eqn:E, (0xFFFFFF <? g + 1) eqn:E2; bprop; lia.
Qed.

Lemma alloc_full ty r obj ext t : table_inv t ->
  active_count t = KERNEL_HANDLE_TABLE_SIZE -> alloc_body ty r obj ext t = (0, t).
Proof.
  intros [Hl _ Hc _] Hfull. unfold alloc_body. rewrite Hc, <- Hl in Hfull.
  destruct (find_first _ _ _) as [i|] eqn:Hf; [|done].
  apply find_first_Some in Hf as (Hi & Ha & _). handle_consts.
  rewrite acount_full in Hfull. specialize (Hfull i ltac:(lia)).
  unfold is_active, nonzero in Hfull. by rewrite Ha in Hfull.
Qed.

Lemma alloc_ok ty r obj ext t : table_inv t -> active_count t < KERNEL_HANDLE_TABLE_SIZE ->
  exists i, is_slot i /\ is_active (aget (entries t) i) = false /\
    (forall j, 0 <= j < i -> is_active (aget (entries t) j) = true) /\
    alloc_body ty r obj ext t =
      (encode_handle_token i (next_gen t),
       {| next_gen := if next_gen t =? OS_HANDLE_TOKEN_GENERATION_MAX then 1 else next_gen t + 1;
          active_count := active_count t + 1;
          entries := aset (entries t) i {| active := 1; type := u8 ty; reserved0 := 0;
            rights := r; generation := next_gen t; reserved1 := 0; object := obj; extra := ext |} |}).
Proof.
  intros Hinv Hlt. pose proof Hinv as [Hl Hn Hc _]. unfold alloc_body.
  pose proof (acount_bounds is_active (entries t)).
  destruct (find_first _ _ _) as [i|] eqn:Hf.
  - apply find_first_Some in Hf as (Hi & Ha & Hbefore). exists i. handle_consts. split; [lia|].
    split; [unfold is_active, nonzero; by rewrite Ha|].
    split; [intros j Hj; unfold is_active, nonzero; by rewrite Hbefore|].
    rewrite next_generation_step by done. handle_consts.
    unfold set_field. simpl. by rewrite u32_small by (unfold is_u32; lia).
  - exfalso. assert (acount is_active (entries t) = alen (entries t)); [|lia].
    apply acount_full. intros i Hi. pose proof (find_first_None _ _ _ Hf i) as Ha.
    handle_consts. unfold is_active, nonzero. rewrite Ha; [done | lia].
Qed.

Lemma set_inv t t' i x : table_inv t -> is_slot i -> entries t' = aset (entries t) i x ->
  is_generation (next_gen t') ->
  active_count t' = active_count t - (if is_active (aget (entries t) i) then 1 else 0)
                    + (if is_active x then 1 else 0) ->
  (is_active x = true -> is_generation (generation x)) -> table_inv t'.
Proof.
  intros [Hl Hn Hc Hg] Hi He Hn' Hc' Hgx. unfold is_slot in *. constructor.
  - by rewrite He, alen_aset.
  - done.
  - rewrite Hc', He, acount_aset by lia. by rewrite Hc.
  - intros j Hj. unfold is_slot in Hj. rewrite He, aget_aset by lia. case_decide; [done|]. by apply Hg.
Qed.

(** ** Closing many entries *)

Definition type_matches (ty : Z) (h : KernelHandle) : bool :=
  is_active h && ((ty =? KERNEL_HANDLE_TYPE_NONE) || (type h =? ty)).
Definition close_if (p : KernelHandle -> bool) (h : KernelHandle) : KernelHandle :=
  if p h then clear_entry h else h.

Lemma close_type_loop ty t : table_inv t ->
  close_type_body ty t =
    (acount (type_matches ty) (entries t),
     t <| entries := close_if (type_matches ty) <$> entries t |>
       <| active_count := active_count t - acount (type_matches ty) (entries t) |>).
Proof.
  intros [Hl _ Hc _]. unfold close_type_body.
  set (n := KERNEL_HANDLE_TABLE_SIZE) in *. set (p := type_matches ty).
  pose proof (acount_bounds p (entries t)) as Hb.
  assert (acount p (entries t) <= acount is_active (entries t)) as Hle.
  { rewrite (acount_split is_active p), (acount_ext (fun x => is_active x && p x) p).
    - pose proof (acount_bounds (fun x => is_active x && negb (p x)) (entries t)). lia.
    - intros x. unfold p, type_matches. by destruct (is_active x). }
  assert (for_range 0 n (close_type_step ty) (0, t)
    = (acount p (take (Z.to_nat n) (entries t)),
       t <| entries := mapped (close_if p) n (entries t) |>)) as ->.
  { apply (for_range_inv (fun i st => st = (acount p (take (Z.to_nat i) (entries t)),
       t <| entries := mapped (close_if p) i (entries t) |>))); [done | by destruct t |].
    intros i st Hi ->. unfold close_type_step. simpl. rewrite aget_mapped by lia.
    rewrite acount_take by lia.
    pose proof (acount_bounds p (take (Z.to_nat i) (entries t))) as Hb2.
    assert (alen (take (Z.to_nat i) (entries t)) <= 32) by (unfold alen; rewrite length_take; unfold n, KERNEL_HANDLE_TABLE_SIZE in Hi; lia).
    assert (type_matches ty (aget (entries t) i) = negb ((active (aget (entries t) i) =? 0)
      || negb (ty =? 0) && negb (type (aget (entries t) i) =? ty))) as Hm.
    { unfold type_matches, is_active, nonzero, KERNEL_HANDLE_TYPE_NONE.
      by destruct (active _ =? 0), (ty =? 0), (type _ =? ty). }
    unfold KERNEL_HANDLE_TYPE_NONE. destruct (_ || _) eqn:Hskip.
    - fold p in Hm. rewrite Hm. simpl. rewrite mapped_skip by (unfold close_if; by rewrite ?Hm || lia).
      by rewrite Z.add_0_r.
    - fold p in Hm. rewrite Hm. simpl. rewrite u32_small by (unfold is_u32; lia).
      f_equal. unfold set_field. simpl. f_equal. rewrite <- aset_mapped by lia.
      f_equal. unfold close_if. by rewrite Hm. }
  rewrite acount_take_all, mapped_all by lia. f_equal. unfold set_field. simpl. f_equal.
  case_match; bprop; lia.
Qed.

Lemma detach_loop t : table_inv t ->
  detach_body t = (List.filter is_active (entries t),
    t <| entries := close_if is_active <$> entries t |> <| active_count := 0 |>).
Proof.
  intros [Hl _ _ _]. unfold detach_body. set (n := KERNEL_HANDLE_TABLE_SIZE) in *.
  assert (for_range 0 n detach_step ([], t)
    = (List.filter is_active (take (Z.to_nat n) (entries t)),
       t <| entries := mapped (close_if is_active) n (entries t) |>)) as ->.
  { apply (for_range_inv (fun i st => st = (List.filter is_active (take (Z.to_nat i) (entries t)),
       t <| entries := mapped (close_if is_active) i (entries t) |>))); [done | by destruct t |].
    intros i st Hi ->. unfold detach_step. simpl. rewrite aget_mapped by lia.
    pose proof (lookup_aget (entries t) i ltac:(lia)) as Hli.
    replace (Z.to_nat (i + 1)) with (S (Z.to_nat i)) by lia.
    rewrite (take_S_r _ _ _ Hli), List.filter_app. cbn [List.filter].
    assert (is_active (aget (entries t) i) = negb (active (aget (entries t) i) =? 0)) as Hm by done.
    destruct (active _ =? 0); rewrite Hm; simpl.
    - rewrite mapped_skip by (unfold close_if; by rewrite ?Hm || lia). by rewrite app_nil_r.
    - f_equal. unfold set_field. simpl. f_equal. rewrite <- aset_mapped by lia.
      f_equal. unfold close_if. by rewrite Hm. }
  unfold alen in Hl. rewrite take_ge, mapped_all by (unfold alen; lia). done.
Qed.

Lemma length_filter_acount {A} (p : A -> bool) l : Z.of_nat (length (List.filter p l)) = acount p l.
Proof. induction l as [|x l IH]; simpl; [done|]. destruct (p x); simpl; lia. Qed.

(** Closing the entries that satisfy a test. *)
Lemma close_if_inv p t n : table_inv t -> (forall x, p x = true -> is_active x = true) ->
  n = active_count t - acount p (entries t) ->
  let t' := t <| entries := close_if p <$> entries t |> <| active_count := n |> in
  table_inv t' /\
  forall h, caps t' h = match open_slot t h with
    | Some i => if p (aget (entries t) i) then None else caps t h | None => None end.
Proof.
  intros [Hl Hn Hc Hg] Hp ->. cbv zeta. split; [constructor; simpl|].
  - by rewrite alen_fmap.
  - done.
  - rewrite Hc, acount_fmap, (acount_split is_active p).
    rewrite (acount_ext (fun x => is_active x && p x) p).
    2: { intros x. destruct (p x) eqn:Hx; [by rewrite Hp|]. apply andb_false_r. }
    rewrite (acount_ext (fun x => is_active (close_if p x)) (fun x => is_active x && negb (p x))); [lia|].
    intros x. unfold close_if. destruct (p x); [by rewrite andb_false_r | by rewrite andb_true_r].
  - intros i Hi. unfold is_slot in Hi. rewrite aget_fmap by lia. unfold close_if.
    case_match; [done|]. by apply Hg.
  - intros h. unfold caps, open_slot. simpl.
    destruct (decode_handle_token h) as [[slot gen]|] eqn:Hd; [|done].
    pose proof (decode_slot _ _ _ Hd) as Hs. unfold is_slot in Hs. rewrite aget_fmap by lia.
    unfold close_if. destruct (p (aget (entries t) slot)) eqn:Hps.
    + change (is_active (clear_entry _)) with false. simpl.
      destruct (is_active _ && _); [|done]. cbv iota beta. by rewrite Hps.
    + destruct (is_active _ && _); [|done]. simpl. rewrite aget_fmap by lia.
      unfold close_if. by rewrite Hps.
Qed.

(** ** The specification *)

Inductive HandleOp :=
| HAlloc (ty r obj ext : Z)
| HRestrict (handle r : Z)
| HClose (handle : Z)
| HCloseType (ty : Z)
| HDetachAll.

(** What a client sees: the capability of each token and how many are open. *)
Record CapMap := { cm_cap : Z -> option Cap; cm_live : Z }.
Definition abs (t : KernelHandleTable) : CapMap :=
  {| cm_cap := caps t; cm_live := active_count t |}.

(** Nothing changes except at [h]. *)
Definition only_at (h : Z) (v : option Cap) (a a' : CapMap) : Prop :=
  cm_cap a' h = v /\ forall h', is_u64 h' -> h' <> h -> cm_cap a' h' = cm_cap a h'.

Definition spec_step (a : CapMap) (op : HandleOp) (r : Z) (a' : CapMap) : Prop :=
  match op with
  | HAlloc ty ri obj ext =>
    (cm_live a = KERNEL_HANDLE_TABLE_SIZE /\ r = 0 /\ a' = a) \/
    (cm_live a < KERNEL_HANDLE_TABLE_SIZE /\ kernel_handle_is_valid_token r = true /\
     cm_cap a r = None /\
     only_at r (Some {| cap_type := u8 ty; cap_rights := ri; cap_object := obj; cap_extra := ext |}) a a' /\
     cm_live a' = cm_live a + 1)
  | HRestrict h ri =>
    match cm_cap a h with
    | Some c =>
      if nonzero (Z.land ri (not32 (cap_rights c))) then r = 0 /\ a' = a
      else r = 1 /\ cm_live a' = cm_live a /\
           only_at h (Some {| cap_type := cap_type c; cap_rights := ri;
                              cap_object := cap_object c; cap_extra := cap_extra c |}) a a'
    | None => r = 0 /\ a' = a
    end
  | HClose h =>
    match cm_cap a h with
    | Some _ => r = 1 /\ cm_live a' = cm_live a - 1 /\ only_at h None a a'
    | None => r = 0 /\ a' = a
    end
  | HCloseType ty =>
    cm_live a' = cm_live a - r /\ 0 <= r <= cm_live a /\
    forall h, cm_cap a' h =
      match cm_cap a h with
      | Some c => if (ty =? KERNEL_HANDLE_TYPE_NONE) || (cap_type c =? ty) then None else Some c
      | None => None
      end
  | HDetachAll => r = cm_live a /\ cm_live a' = 0 /\ forall h, cm_cap a' h = None
  end.

(** ** Each body implements the specification *)

(** The table after one entry [i] became [x], seen from the clients: only the
    token of [x] changes if it is the token the slot had or the slot was closed. *)
Lemma set_only_at t t' i x h v : table_inv t -> is_slot i -> entries t' = aset (entries t) i x ->
  decode_handle_token h = Some (i, generation x) -> is_u64 h ->
  is_active (aget (entries t) i) = false \/ generation (aget (entries t) i) = generation x ->
  v = (if is_active x then Some (cap_of x) else None) ->
  only_at h v (abs t) (abs t').
Proof.
  intros [Hl _ _ _] Hi He Hd Hh Hold ->. split; simpl.
  - rewrite (caps_set t t' i x Hl Hi He h _ _ Hd), decide_True, Z.eqb_refl, andb_true_r by done.
    by case_match.
  - intros h' Hh' Hne. destruct (decode_handle_token h') as [[s' g']|] eqn:Hd'.
    + rewrite (caps_set t t' i x Hl Hi He h' _ _ Hd'). case_decide as Hs; [subst s'|done].
      assert (generation x <> g') as Hg.
      { intros <-. apply Hne. destruct Hh, Hh'.
        apply decode_Some in Hd as (_ & _ & ->); [|done].
        by apply decode_Some in Hd' as (_ & _ & ->). }
      rewrite (proj2 (Z.eqb_neq _ _) Hg), andb_false_r.
      unfold caps, open_slot. rewrite Hd'. destruct Hold as [Ho|Ho]; rewrite Ho; [done|].
      by rewrite (proj2 (Z.eqb_neq _ _) Hg), andb_false_r.
    + unfold caps, open_slot. by rewrite Hd'.
Qed.

Lemma alloc_refines ty r obj ext t : table_inv t ->
  table_inv (alloc_body ty r obj ext t).2 /\
  spec_step (abs t) (HAlloc ty r obj ext) (alloc_body ty r obj ext t).1
    (abs (alloc_body ty r obj ext t).2).
Proof.
  intros Hinv. pose proof Hinv as [Hl Hn Hc _].
  pose proof (acount_bounds is_active (entries t)) as Hb.
  destruct (decide (active_count t = KERNEL_HANDLE_TABLE_SIZE)) as [Hfull|Hne].
  { rewrite alloc_full by done. split; [done|]. by left. }
  destruct (alloc_ok ty r obj ext t Hinv ltac:(lia)) as (i & Hi & Hfree & _ & ->).
  cbn [fst snd]. pose proof (decode_encode i (next_gen t) Hi Hn) as Hd.
  assert (is_u64 (encode_handle_token i (next_gen t))) as Hu.
  { rewrite encode_value by done. unfold is_u64. handle_consts. lia. }
  split.
  - eapply (set_inv t _ i); [done | done | reflexivity | | | done]; simpl.
    + handle_consts. case_match; bprop; lia.
    + rewrite Hfree. change (is_active _) with true. lia.
  - right. simpl. split; [lia|]. split; [unfold kernel_handle_is_valid_token; by rewrite Hd|].
    split; [unfold caps, open_slot; by rewrite Hd, Hfree|]. split; [|done].
    eapply (set_only_at t _ i); [done | done | reflexivity | done | done | by left | done].
Qed.

Lemma restrict_refines h r t : table_inv t -> is_u64 h ->
  table_inv (restrict_body h r t).2 /\
  spec_step (abs t) (HRestrict h r) (restrict_body h r t).1 (abs (restrict_body h r t).2).
Proof.
  intros Hinv Hh. unfold restrict_body, spec_step. rewrite resolve_any. simpl. unfold caps.
  destruct (open_slot t h) as [i|] eqn:Ho; [|by split]. simpl.
  apply open_slot_is_slot in Ho as (Hi & Ha & Hd).
  destruct (nonzero _); [by split|]. cbn [fst snd].
  assert (is_active ((aget (entries t) i) <| rights := r |>) = true) as Hx by exact Ha.
  simpl in Hx. split.
  - eapply (set_inv t _ i); [done | done | reflexivity | apply Hinv | | ].
    + rewrite Ha, Hx. simpl. lia.
    + intros _. by apply Hinv.
  - split; [done|]. split; [done|].
    eapply (set_only_at t _ i); [done | done | reflexivity | done | done | by right |].
    by rewrite Hx.
Qed.

Lemma close_refines h t : table_inv t -> is_u64 h ->
  table_inv (close_body h t).2 /\
  spec_step (abs t) (HClose h) (close_body h t).1.1 (abs (close_body h t).2).
Proof.
  intros Hinv Hh. unfold close_body, spec_step. rewrite resolve_any. simpl. unfold caps.
  destruct (open_slot t h) as [i|] eqn:Ho; [|by split].
  apply open_slot_is_slot in Ho as (Hi & Ha & Hd). simpl.
  assert (0 < active_count t) as Hpos.
  { rewrite (ti_count _ Hinv). pose proof (ti_len _ Hinv). unfold is_slot in Hi.
    apply (acount_pos _ _ i); [lia | done]. }
  unfold nonzero. rewrite (proj2 (Z.eqb_neq _ _)) by lia. simpl. split.
  - eapply (set_inv t _ i); [done | done | reflexivity | apply Hinv | | done]; simpl.
    rewrite Ha. change (is_active (clear_entry _)) with false. lia.
  - split; [done|]. split; [done|].
    eapply (set_only_at t _ i); [done | done | reflexivity | done | done | by right | done].
Qed.

Lemma close_type_refines ty t : table_inv t ->
  table_inv (close_type_body ty t).2 /\
  spec_step (abs t) (HCloseType ty) (close_type_body ty t).1 (abs (close_type_body ty t).2).
Proof.
  intros Hinv. rewrite close_type_loop by done. cbn [fst snd].
  destruct (close_if_inv (type_matches ty) t (active_count t - acount (type_matches ty) (entries t)))
    as [Hi Hcaps]; [done | | done |].
  { intros x. unfold type_matches. by intros [? _]%andb_true_iff. }
  split; [done|]. simpl. split; [lia|]. split.
  - pose proof (acount_bounds (type_matches ty) (entries t)).
    pose proof (ti_count _ Hi) as Hc. simpl in Hc.
    pose proof (acount_bounds is_active (close_if (type_matches ty) <$> entries t)). lia.
  - intros h. rewrite Hcaps. unfold caps. destruct (open_slot t h) as [i|] eqn:Ho; [|done].
    apply open_slot_is_slot in Ho as (_ & Ha & _). simpl. unfold type_matches. by rewrite Ha.
Qed.

Lemma detach_refines t : table_inv t ->
  table_inv (detach_body t).2 /\
  spec_step (abs t) HDetachAll (Z.of_nat (length (detach_body t).1)) (abs (detach_body t).2).
Proof.
  intros Hinv. rewrite detach_loop by done. cbn [fst snd].
  destruct (close_if_inv is_active t 0) as [Hi Hcaps]; [done | done | rewrite (ti_count _ Hinv); lia |].
  split; [done|]. simpl. rewrite length_filter_acount. split; [by rewrite (ti_count _ Hinv)|].
  split; [done|]. intros h. rewrite Hcaps. destruct (open_slot t h) as [i|] eqn:Ho; [|done].
  apply open_slot_is_slot in Ho as (_ & Ha & _). by rewrite Ha.
Qed.

Section Simulation.
Context {E : Type} `{KernelEnv E}.

(** The function call of an operation; the answer is its return value. *)
Definition handle_exec (op : HandleOp) (table : Z) (ts : Tables) (e : E) : Z * Tables * E :=
  match op with
  | HAlloc ty r obj ext => kernel_handle_alloc table ty r obj ext ts e
  | HRestrict h r => kernel_handle_restrict_rights table h r ts e
  | HClose h => let '(r, _, ts, e) := kernel_handle_close table h ts e in (r, ts, e)
  | HCloseType ty => kernel_handle_close_all_type table ty ts e
  | HDetachAll =>
    let '(l, ts, e) := kernel_handle_detach_all table true KERNEL_HANDLE_TABLE_SIZE ts e in
    (Z.of_nat (length l), ts, e)
  end.

(** The part of an operation that runs under the lock. *)
Definition handle_body (op : HandleOp) (t : KernelHandleTable) : Z * KernelHandleTable :=
  match op with
  | HAlloc ty r obj ext => alloc_body ty r obj ext t
  | HRestrict h r => restrict_body h r t
  | HClose h => let '(r, _, t) := close_body h t in (r, t)
  | HCloseType ty => close_type_body ty t
  | HDetachAll => let '(l, t) := detach_body t in (Z.of_nat (length l), t)
  end.

(** The environment or the arguments stop the operation before it runs. *)
Definition refused (op : HandleOp) (table : Z) (e : E) : Prop :=
  table = 0 \/
  match op with
  | HAlloc ty _ _ _ => ty = KERNEL_HANDLE_TYPE_NONE \/
      exists e1, kernel_fault_injection_should_fail KERNEL_FAULT_POINT_HANDLE e = (true, e1) \/
      (kernel_fault_injection_should_fail KERNEL_FAULT_POINT_HANDLE e = (false, e1) /\
       (kernel_spinlock_acquire table e1).1 = false)
  | HRestrict _ r => r = 0 \/ (kernel_spinlock_acquire table e).1 = false
  | _ => (kernel_spinlock_acquire table e).1 = false
  end.

Lemma with_table_cases {A} table (fail : A) body ts e r ts' e' :
  with_table table fail body ts e = (r, ts', e') ->
  ((kernel_spinlock_acquire table e).1 = false /\ r = fail /\ ts' = ts) \/
  (r = (body (ts !!! table)).1 /\ ts' = <[table := (body (ts !!! table)).2]> ts).
Proof.
  unfold with_table, with_lock. destruct (kernel_spinlock_acquire table e) as [[] e1].
  - destruct (body _). intros [= <- <- _]. by right.
  - intros [= <- <- _]. by left.
Qed.

(** A call is refused without effect or runs its body on the table. *)
Lemma handle_exec_cases op table ts e r ts' e' :
  handle_exec op table ts e = (r, ts', e') ->
  (refused op table e /\ r = 0 /\ ts' = ts) \/
  (r = (handle_body op (ts !!! table)).1 /\ ts' = <[table := (handle_body op (ts !!! table)).2]> ts).
Proof.
  unfold refused. destruct op; cbn [handle_exec handle_body].
  - unfold kernel_handle_alloc. if_eqn H1.
    { intros [= <- <- _]. left. split; [bprop; auto | by split]. }
    destruct (kernel_fault_injection_should_fail _ e) as [[] e1].
    { intros [= <- <- _]. left. eauto 8. }
    intros [(? & ? & ?)|?]%with_table_cases; [left; eauto 10 | by right].
  - unfold kernel_handle_restrict_rights. if_eqn H1.
    { intros [= <- <- _]. left. split; [bprop; auto | by split]. }
    intros [(? & ? & ?)|?]%with_table_cases; [left; eauto 10 | by right].
  - unfold kernel_handle_close. destruct (table =? 0) eqn:H1.
    { intros [= <- <- _]. left. split; [bprop; auto | by split]. }
    destruct (with_table _ _ _ _ _) as [[[r1 out] ts1] e1] eqn:Hw. intros [= <- <- <-].
    apply with_table_cases in Hw as [(? & [= -> ->] & ->)|[Hb ->]]; [left; eauto 10|]. right.
    destruct (close_body handle (ts !!! table)) as [[r2 o2] t2]. by injection Hb as -> ->.
  - unfold kernel_handle_close_all_type. if_eqn H1.
    { intros [= <- <- _]. left. split; [bprop; auto | by split]. }
    intros [(? & ? & ?)|?]%with_table_cases; [left; eauto 10 | by right].
  - unfold kernel_handle_detach_all. change (KERNEL_HANDLE_TABLE_SIZE <? KERNEL_HANDLE_TABLE_SIZE) with false.
    rewrite !orb_false_r. destruct (table =? 0) eqn:H1.
    { intros [= <- <- _]. left. split; [bprop; auto | by split]. }
    destruct (with_table _ _ _ _ _) as [[l1 ts1] e1] eqn:Hw. intros [= <- <- <-].
    apply with_table_cases in Hw as [(? & -> & ->)|[-> ->]]; [left; eauto 10|]. right.
    by destruct (detach_body (ts !!! table)).
Qed.

(** The tokens an operation names are 64-bit words. *)
Definition op_ok (op : HandleOp) : Prop :=
  match op with HRestrict h _ | HClose h => is_u64 h | _ => True end.

Lemma handle_body_refines op t : table_inv t -> op_ok op ->
  table_inv (handle_body op t).2 /\
  spec_step (abs t) op (handle_body op t).1 (abs (handle_body op t).2).
Proof.
  intros Hinv Hop. destruct op; cbn [handle_body].
  - by apply alloc_refines.
  - by apply restrict_refines.
  - pose proof (close_refines handle t Hinv Hop) as Hr. by destruct (close_body handle t) as [[]].
  - by apply close_type_refines.
  - pose proof (detach_refines t Hinv) as Hr. by destruct (detach_body t) as [].
Qed.

(** C5: handle tables are capability maps.  Every operation that changes a
    table keeps its invariant (32 entries, a 24-bit nonzero generation counter,
    [active_count] the number of active entries, open entries with valid
    generations) and either was refused (null table, invalid argument, armed
    fault point, lock not granted), answering 0 without any effect, or does
    exactly what the specification [spec_step] says on the map from tokens to
    capabilities: in particular an allocation never hands out a token that is
    open and never fails while a slot is free, a restriction only removes
    rights, closing removes one token and no other.  Other tables are not touched. *)
Theorem handle_table_refines op table ts e r ts' e' : op_ok op ->
  table_inv (ts !!! table) -> handle_exec op table ts e = (r, ts', e') ->
  (forall table', table' <> table -> ts' !! table' = ts !! table') /\
  table_inv (ts' !!! table) /\
  ((refused op table e /\ r = 0 /\ ts' = ts) \/
   spec_step (abs (ts !!! table)) op r (abs (ts' !!! table))).
Proof.
  intros Hop Hinv [(Hr & -> & ->)|[-> ->]]%handle_exec_cases.
  - split; [done|]. split; [done|]. left. by split.
  - destruct (handle_body_refines op (ts !!! table) Hinv Hop) as [Hi Hs].
    rewrite lookup_total_insert, decide_True by done.
    split; [intros table' Hne; by rewrite lookup_insert_ne|]. split; [done|]. by right.
Qed.
End Simulation.

(** ** Lookups *)

Section Lookup.
Context {E : Type} `{KernelEnv E}.

(** The result code of a lookup, in the order the code tests. *)
Definition lookup_code (c : option Cap) (h ty req : Z) : Z :=
  match c with
  | None => if kernel_handle_is_valid_token h then SYS_ERR_STALE_HANDLE else SYS_ERR_INVALID_HANDLE
  | Some c =>
    if negb (ty =? KERNEL_HANDLE_TYPE_NONE) && negb (cap_type c =? ty) then SYS_ERR_WRONG_HANDLE_TYPE
    else if negb (Z.land (cap_rights c) req =? req) then SYS_ERR_PERMISSION_DENIED
    else OS_SUCCESS
  end.

(** A lookup never changes a table and its answer is a function of the
    capability behind the token: malformed words are INVALID_HANDLE, closed
    ones STALE_HANDLE, then come the type and the rights; only a lookup that
    answers OS_SUCCESS copies an entry out, and the copy is the capability of
    the token, of the expected type and with at least the required rights. *)
Theorem handle_resolve_codes table h ty req ts e e1 r out ts' e' : table <> 0 ->
  kernel_spinlock_acquire table e = (true, e1) ->
  kernel_handle_resolve_copy_result table h ty req true ts e = ((r, out), ts', e') ->
  (forall table', ts' !!! table' = ts !!! table') /\
  r = lookup_code (caps (ts !!! table) h) h ty req /\
  (cap_of <$> out) = (if r =? OS_SUCCESS then caps (ts !!! table) h else None) /\
  (forall x, out = Some x -> (ty <> KERNEL_HANDLE_TYPE_NONE -> type x = ty) /\
     Z.land (rights x) req = req).
Proof.
  intros Ht Hl. unfold kernel_handle_resolve_copy_result, with_table.
  rewrite (proj2 (Z.eqb_neq _ _) Ht). simpl. rewrite (with_lock_granted _ _ _ _ _ _ Hl).
  rewrite resolve_open. set (t := ts !!! table).
  assert (forall table' : Z, (<[table := t]> ts : Tables) !!! table' = ts !!! table') as Hsame.
  { intros table'. rewrite lookup_total_insert. case_decide; by subst. }
  unfold caps, lookup_code. destruct (open_slot t h) as [i|]; simpl.
  2: { destruct (kernel_handle_is_valid_token h); intros [= <- <- <- _]; by split_and!. }
  destruct (negb (ty =? _) && _) eqn:Hty.
  { intros [= <- <- <- _]. split; [done|]. by split. }
  destruct (negb (Z.land _ _ =? _)) eqn:Hri; intros [= <- <- <- _].
  { split; [done|]. by split. }
  split; [done|]. split; [done|]. split; [done|]. intros x [= <-].
  apply negb_false_iff, Z.eqb_eq in Hri. split; [|done]. intros Hn.
  apply andb_false_iff in Hty as [Hty|Hty]; apply negb_false_iff, Z.eqb_eq in Hty; done.
Qed.

(** ** How long a closed token stays dead *)

Definition handle_run (ops : list HandleOp) (t : KernelHandleTable) : KernelHandleTable :=
  foldl (fun t op => (handle_body op t).2) t ops.
Definition is_alloc (op : HandleOp) : bool := match op with HAlloc _ _ _ _ => true | _ => false end.
Definition allocs (ops : list HandleOp) : Z := acount is_alloc ops.

(** How many allocations it takes until the counter reaches [gen] again. *)
Definition distance (gen : Z) (t : KernelHandleTable) : Z :=
  (gen - next_gen t) mod OS_HANDLE_TOKEN_GENERATION_MAX.

Lemma other_next_gen op t : table_inv t -> is_alloc op = false ->
  next_gen (handle_body op t).2 = next_gen t.
Proof.
  intros Hinv. destruct op; cbn [handle_body is_alloc]; [done|intros _..].
  - unfold restrict_body. by repeat case_match.
  - unfold close_body. rewrite resolve_any. destruct (open_slot t handle); [|done].
    simpl. by case_match.
  - by rewrite close_type_loop.
  - by rewrite detach_loop.
Qed.

(** A step never revives a dead token while its distance is positive, and uses
    up at most one unit of it, only if it allocates. *)
Lemma step_distance op t h slot gen : table_inv t -> op_ok op -> is_u64 h ->
  decode_handle_token h = Some (slot, gen) ->
  let t' := (handle_body op t).2 in
  distance gen t - (if is_alloc op then 1 else 0) <= distance gen t' \/ distance gen t = 0 /\ is_alloc op = true.
Proof.
  intros Hinv Hop Hh Hd. cbv zeta. destruct (is_alloc op) eqn:Ha.
  2: { left. unfold distance. rewrite other_next_gen by done. lia. }
  destruct op; try done. cbn [handle_body].
  apply decode_Some in Hd as (_ & Hg & _); [|apply Hh]. pose proof (ti_next _ Hinv) as Hn.
  destruct (decide (active_count t = KERNEL_HANDLE_TABLE_SIZE)) as [Hfull|Hne].
  { rewrite alloc_full by done. left. simpl. lia. }
  pose proof (acount_bounds is_active (entries t)) as Hb.
  rewrite <- (ti_count _ Hinv), (ti_len _ Hinv) in Hb.
  destruct (alloc_ok ty r obj ext t Hinv ltac:(lia)) as (i & _ & _ & _ & ->).
  unfold distance. simpl. handle_consts.
  destruct (decide (gen = next_gen t)) as [->|Hne2]; [right; by rewrite Z.sub_diag|]. left.
  destruct (next_gen t =? 0xFFFFFF) eqn:Hm; bprop.
  - rewrite Hm. rewrite (Z.mod_small (gen - 1)) by lia.
    replace (gen - 0xFFFFFF) with (gen + (-1) * 0xFFFFFF) by lia. rewrite Z.mod_add, Z.mod_small by lia. lia.
  - destruct (Z.lt_ge_cases gen (next_gen t)).
    + replace (gen - next_gen t) with (gen - next_gen t + 0xFFFFFF + (-1) * 0xFFFFFF) by lia.
      replace (gen - (next_gen t + 1)) with (gen - next_gen t - 1 + 0xFFFFFF + (-1) * 0xFFFFFF) by lia.
      rewrite !Z.mod_add, !Z.mod_small by lia. lia.
    + rewrite !Z.mod_small by lia. lia.
Qed.

Lemma abs_caps t t' h : abs t' = abs t -> caps t h = None -> caps t' h = None.
Proof. intros He <-. by apply (f_equal (fun a => cm_cap a h)) in He. Qed.
Lemma only_at_caps t t' h h' v : only_at h v (abs t) (abs t') -> is_u64 h' -> h' <> h ->
  caps t h' = None -> caps t' h' = None.
Proof. intros [_ Ho] Hu Hne <-. by apply Ho. Qed.

Lemma step_stays_dead op t h slot gen : table_inv t -> op_ok op -> is_u64 h ->
  decode_handle_token h = Some (slot, gen) -> caps t h = None ->
  0 < distance gen t \/ is_alloc op = false ->
  caps (handle_body op t).2 h = None.
Proof.
  intros Hinv Hop Hh Hd Hdead Hdist.
  destruct (handle_body_refines op t Hinv Hop) as [_ Hs].
  destruct op; cbn [spec_step abs cm_cap cm_live] in Hs.
  - destruct Hdist as [Hdist|?]; [|done]. cbn [handle_body] in *.
    destruct Hs as [(_ & _ & Heq)|(Hlt & _ & _ & Hother & _)]; [by apply (abs_caps t)|].
    apply (only_at_caps t _ _ _ _ Hother Hh); [|done]. intros ->.
    destruct (alloc_ok ty r obj ext t Hinv Hlt) as (i & Hi & _ & _ & Heq).
    rewrite Heq in Hd. cbn [fst] in Hd. rewrite decode_encode in Hd by (done || apply Hinv).
    injection Hd as _ <-. unfold distance in Hdist. by rewrite Z.sub_diag in Hdist.
  - destruct (caps t handle) eqn:Hc; [|by apply (abs_caps t _ _ (proj2 Hs))].
    destruct (nonzero _); [by apply (abs_caps t _ _ (proj2 Hs))|]. destruct Hs as (_ & _ & Hother).
    apply (only_at_caps t _ _ _ _ Hother Hh); congruence.
  - destruct (caps t handle) eqn:Hc; [|by apply (abs_caps t _ _ (proj2 Hs))].
    destruct Hs as (_ & _ & Hother). apply (only_at_caps t _ _ _ _ Hother Hh); congruence.
  - destruct Hs as (_ & _ & Hall). rewrite Hall. by rewrite Hdead.
  - destruct Hs as (_ & _ & Hall). apply Hall.
Qed.

Lemma run_inv ops t : table_inv t -> Forall op_ok ops -> table_inv (handle_run ops t).
Proof.
  intros Hinv Hops. revert t Hinv. induction Hops as [|op ops Hop _ IH]; intros t Hinv; [done|].
  apply IH. by apply handle_body_refines.
Qed.

Lemma run_distance ops t h slot gen : table_inv t -> Forall op_ok ops -> is_u64 h ->
  decode_handle_token h = Some (slot, gen) -> allocs ops <= distance gen t ->
  distance gen t - allocs ops <= distance gen (handle_run ops t).
Proof.
  intros Hinv Hops Hh Hd. revert t Hinv. unfold allocs.
  induction Hops as [|op ops Hop _ IH]; intros t Hinv Hle; cbn [acount handle_run foldl] in *; [lia|].
  pose proof (acount_bounds is_alloc ops).
  pose proof (handle_body_refines op t Hinv Hop) as [Hi _].
  destruct (step_distance op t h slot gen Hinv Hop Hh Hd) as [Hs|[Hz Ha]]; [|rewrite Ha in Hle; lia].
  pose proof (IH _ Hi ltac:(lia)) as Hr. unfold handle_run in Hr. lia.
Qed.

Lemma run_stays_dead ops t h slot gen : table_inv t -> Forall op_ok ops -> is_u64 h ->
  decode_handle_token h = Some (slot, gen) -> caps t h = None ->
  allocs ops <= distance gen t -> caps (handle_run ops t) h = None.
Proof.
  intros Hinv Hops Hh Hd. revert t Hinv. unfold allocs.
  induction Hops as [|op ops Hop _ IH]; intros t Hinv Hc Hle; cbn [acount handle_run foldl] in *; [done|].
  pose proof (acount_bounds is_alloc ops).
  pose proof (handle_body_refines op t Hinv Hop) as [Hi _].
  destruct (step_distance op t h slot gen Hinv Hop Hh Hd) as [Hs|[Hz Ha]]; [|rewrite Ha in Hle; lia].
  apply IH; [done | | lia]. apply (step_stays_dead op t h slot gen); try done.
  destruct (is_alloc op); [left; lia | by right].
Qed.

(** A closed token stays dead for a generation cycle.  Take the token an
    allocation returned; once it has been closed, by whatever operation, no
    sequence of operations makes it name a capability again as long as no more
    than 2^24 - 2 allocations have been made on the table since the one that
    returned it. *)
Theorem handle_stale_window ty r obj ext t h t1 ops1 ops2 : table_inv t ->
  alloc_body ty r obj ext t = (h, t1) -> h <> 0 -> Forall op_ok ops1 -> Forall op_ok ops2 ->
  caps (handle_run ops1 t1) h = None ->
  allocs ops1 + allocs ops2 <= OS_HANDLE_TOKEN_GENERATION_MAX - 1 ->
  caps (handle_run ops2 (handle_run ops1 t1)) h = None.
Proof.
  intros Hinv Ha Hnz Ho1 Ho2 Hdead Hle.
  pose proof (alloc_refines ty r obj ext t Hinv) as [Hinv1 _]. rewrite Ha in Hinv1. simpl in Hinv1.
  pose proof (acount_bounds is_active (entries t)) as Hb.
  rewrite <- (ti_count _ Hinv), (ti_len _ Hinv) in Hb. pose proof (ti_next _ Hinv) as Hn.
  assert (active_count t < KERNEL_HANDLE_TABLE_SIZE) as Hlt.
  { destruct (decide (active_count t = KERNEL_HANDLE_TABLE_SIZE)) as [Hf|]; [|lia].
    rewrite alloc_full in Ha by done. by injection Ha as <- _. }
  destruct (alloc_ok ty r obj ext t Hinv Hlt) as (i & Hi & _ & _ & Heq). rewrite Heq in Ha.
  injection Ha as <- Ht1. pose proof (decode_encode i (next_gen t) Hi Hn) as Hd.
  assert (is_u64 (encode_handle_token i (next_gen t))) as Hu.
  { rewrite encode_value by done. unfold is_u64. handle_consts. lia. }
  assert (distance (next_gen t) t1 = OS_HANDLE_TOKEN_GENERATION_MAX - 1) as Hdist.
  { rewrite <- Ht1. unfold distance. simpl. handle_consts. case_match; bprop; [by rewrite H0|].
    by replace (next_gen t - (next_gen t + 1)) with (-1) by lia. }
  pose proof (acount_bounds is_alloc ops1). pose proof (acount_bounds is_alloc ops2).
  unfold allocs in *.
  pose proof (run_distance ops1 t1 _ _ _ Hinv1 Ho1 Hu Hd) as Hr. unfold allocs in Hr.
  eapply run_stays_dead; [by apply run_inv | done | done | exact Hd | done |].
  unfold allocs. rewrite Hdist in Hr. specialize (Hr ltac:(lia)). lia.
Qed.
End Lookup.

(** ** Witnesses *)

Definition demo_table : KernelHandleTable := init_body inhabitant.
Definition demo_tables : Tables := {[4096 := demo_table]}.

Lemma demo_table_inv : table_inv demo_table.
Proof. apply init_inv. reflexivity. Qed.
Lemma demo_tables_at : demo_tables !!! 4096 = demo_table.
Proof. apply lookup_total_singleton_eq. Qed.

Lemma handle_table_refines_witness :
  spec_step (abs demo_table) (HAlloc 3 7 9 11) 257
    (abs ((handle_exec (E := unit) (HAlloc 3 7 9 11) 4096 demo_tables tt).1.2 !!! 4096)).
Proof.
  destruct (handle_table_refines (E := unit) (HAlloc 3 7 9 11) 4096 demo_tables tt 257
    (handle_exec (E := unit) (HAlloc 3 7 9 11) 4096 demo_tables tt).1.2 tt)
    as (_ & _ & [[_ [Hz _]]|Hs]); [done | | reflexivity | discriminate | ].
  - rewrite demo_tables_at. exact demo_table_inv.
  - rewrite demo_tables_at in Hs. exact Hs.
Defined.

Lemma handle_resolve_codes_witness :
  (kernel_handle_resolve_copy_result (E := unit) 4096 257 3 1 true demo_tables tt).1.1.1
  = SYS_ERR_STALE_HANDLE.
Proof.
  destruct (kernel_handle_resolve_copy_result (E := unit) 4096 257 3 1 true demo_tables tt)
    as [[[r out] ts'] e'] eqn:Hr.
  pose proof (handle_resolve_codes (E := unit) 4096 257 3 1 demo_tables tt tt r out ts' e'
    ltac:(discriminate) eq_refl Hr) as (_ & Hc & _).
  cbn [fst]. rewrite Hc, demo_tables_at. reflexivity.
Defined.

Lemma handle_stale_window_witness :
  caps (handle_run [HAlloc 3 7 9 11] (handle_run [HClose 257] (alloc_body 3 7 9 11 demo_table).2)) 257
  = None.
Proof.
  apply (handle_stale_window 3 7 9 11 demo_table 257 (alloc_body 3 7 9 11 demo_table).2
    [HClose 257] [HAlloc 3 7 9 11]).
  - exact demo_table_inv.
  - reflexivity.
  - discriminate.
  - apply Forall_singleton. split; reflexivity || discriminate.
  - by apply Forall_singleton.
  - reflexivity.
  - unfold allocs, OS_HANDLE_TOKEN_GENERATION_MAX. simpl. lia.
Defined.
