(* ===== verification/Graphics2d.v ===== *)
(** * Surfaces, clipping and dirty rectangles

    [kernel/graphics/graphics_surface.cpp], [graphics_clip.cpp] and
    [graphics_dirty.cpp].  A pointer argument the code tests against null is an
    [option]; an output pointer is a boolean "not null" and the value written
    is part of the answer.  Sums of two [int32_t] values taken in [int64_t]
    cannot overflow, so they are sums in Z; conversions back to [int32_t] are
    written out. *)

From S2P Require Import Prelude.

Definition INT32_MIN : Z := - 2 ^ 31.
Definition INT32_MAX : Z := 2 ^ 31 - 1.
Definition i32 (x : Z) : Z := (x + 2 ^ 31) mod 2 ^ 32 - 2 ^ 31.
Definition is_i32 (x : Z) : Prop := INT32_MIN <= x <= INT32_MAX.

Lemma i32_small x : is_i32 x -> i32 x = x.
Proof.
  unfold is_i32, i32, INT32_MIN, INT32_MAX. intros. rewrite Z.mod_small by lia. lia.
Qed.

Definition OS64_PIXEL_FORMAT_RGB : Z := 0.
Definition OS64_PIXEL_FORMAT_BGR : Z := 1.
Definition GFX_SURFACE_FLAG_PAGE_BACKED : Z := 4.
Definition GFX_DIRTY_MAX_RECTS : Z := 64.

(** ** Surfaces *)

Record GraphicsSurface := {
  pixels : Z; width : Z; height : Z; stride_pixels : Z; pixel_format : Z; flags : Z }.
#[export] Instance GraphicsSurface_inhabited : Inhabited GraphicsSurface :=
  populate {| pixels := 0; width := 0; height := 0; stride_pixels := 0; pixel_format := 0;
              flags := 0 |}.

Definition valid_pixel_format (f : Z) : bool :=
  (f =? OS64_PIXEL_FORMAT_RGB) || (f =? OS64_PIXEL_FORMAT_BGR).

(** The surface [clear_surface] leaves. *)
Definition clear_surface : GraphicsSurface :=
  {| pixels := 0; width := 0; height := 0; stride_pixels := 0;
     pixel_format := OS64_PIXEL_FORMAT_RGB; flags := 0 |}.

(** Result code and the contents of the surface, which is not null. *)
Definition gfx_surface_init (px w h stride fmt fl : Z) : Z * GraphicsSurface :=
  if (px =? 0) || (w =? 0) || (h =? 0) || (stride <? w) || (INT32_MAX <? w) || (INT32_MAX <? h)
     || negb (valid_pixel_format fmt)
  then (0, clear_surface)
  else (1, {| pixels := px; width := w; height := h; stride_pixels := stride;
              pixel_format := fmt; flags := fl |}).

Definition gfx_surface_is_valid (s : option GraphicsSurface) : bool :=
  match s with
  | None => false
  | Some s => negb (pixels s =? 0) && negb (width s =? 0) && negb (height s =? 0)
      && (width s <=? stride_pixels s) && (width s <=? INT32_MAX) && (height s <=? INT32_MAX)
      && valid_pixel_format (pixel_format s)
  end.

Record OsSurfaceInfo := { si_width : Z; si_height : Z; si_stride : Z; si_format : Z }.

(** The result and, when [info] is not null, what it receives. *)
Definition gfx_surface_get_info (s : option GraphicsSurface) (info : bool)
    : Z * option OsSurfaceInfo :=
  match s with
  | Some g =>
    if negb (gfx_surface_is_valid s) || negb info then
      (0, if info then Some {| si_width := 0; si_height := 0; si_stride := 0;
                               si_format := OS64_PIXEL_FORMAT_RGB |} else None)
    else (1, Some {| si_width := width g; si_height := height g; si_stride := stride_pixels g;
                     si_format := pixel_format g |})
  | None => (0, if info then Some {| si_width := 0; si_height := 0; si_stride := 0;
                                     si_format := OS64_PIXEL_FORMAT_RGB |} else None)
  end.

Definition gfx_surface_contains_point (s : option GraphicsSurface) (x y : Z) : bool :=
  match s with
  | Some g => if negb (gfx_surface_is_valid s) || (x <? 0) || (y <? 0) then false
              else (u32 x <? width g) && (u32 y <? height g)
  | None => false
  end.

(** ** Rectangles *)

Record OsRect := { rx : Z; ry : Z; rw : Z; rh : Z }.
#[export] Instance OsRect_inhabited : Inhabited OsRect :=
  populate {| rx := 0; ry := 0; rw := 0; rh := 0 |}.

(** The rectangle [clear_rect] and [zero_rect] write. *)
Definition zero_rect : OsRect := {| rx := 0; ry := 0; rw := 0; rh := 0 |}.

Definition gfx_surface_bounds (s : option GraphicsSurface) (bounds : bool) : Z * option OsRect :=
  match s with
  | Some g =>
    if negb (gfx_surface_is_valid s) || negb bounds
    then (0, if bounds then Some zero_rect else None)
    else (1, Some {| rx := 0; ry := 0; rw := i32 (width g); rh := i32 (height g) |})
  | None => (0, if bounds then Some zero_rect else None)
  end.

Definition gfx_rect_is_empty (r : option OsRect) : bool :=
  match r with None => true | Some r => (rw r <=? 0) || (rh r <=? 0) end.

Definition gfx_clip_rect (bounds input : option OsRect) (output : bool) : Z * option OsRect :=
  match bounds, input with
  | Some b, Some n =>
    if gfx_rect_is_empty bounds || gfx_rect_is_empty input || negb output
    then (0, if output then Some zero_rect else None)
    else
      let bounds_right := rx b + rw b in
      let bounds_bottom := ry b + rh b in
      let input_right := rx n + rw n in
      let input_bottom := ry n + rh n in
      let clipped_left := if rx n <? rx b then rx b else rx n in
      let clipped_top := if ry n <? ry b then ry b else ry n in
      let clipped_right := if bounds_right <? input_right then bounds_right else input_right in
      let clipped_bottom := if bounds_bottom <? input_bottom then bounds_bottom else input_bottom in
      if (clipped_right <=? clipped_left) || (clipped_bottom <=? clipped_top)
         || (clipped_left <? INT32_MIN) || (clipped_top <? INT32_MIN)
         || (INT32_MAX <? clipped_right) || (INT32_MAX <? clipped_bottom)
      then (0, Some zero_rect)
      else (1, Some {| rx := i32 clipped_left; ry := i32 clipped_top;
                       rw := i32 (clipped_right - clipped_left);
                       rh := i32 (clipped_bottom - clipped_top) |})
  | _, _ => (0, if output then Some zero_rect else None)
  end.

(** ** The dirty tracker *)

Record GraphicsDirtyTracker := {
  bounds : OsRect; rects : list OsRect; count : Z; full : Z }.
#[export] Instance GraphicsDirtyTracker_settable : Settable GraphicsDirtyTracker :=
  {| eta_expand t := {| bounds := bounds t; rects := rects t; count := count t; full := full t |} |}.

Definition reset_tracker (t : GraphicsDirtyTracker) : GraphicsDirtyTracker :=
  let t := t <| bounds := zero_rect |> in
  let t := for_range 0 GFX_DIRTY_MAX_RECTS (fun i t =>
             t <| rects := aset (rects t) i zero_rect |>) t in
  t <| count := 0 |> <| full := 0 |>.

Definition rects_touch_or_overlap (a b : OsRect) : bool :=
  (rx a <=? rx b + rw b) && (rx b <=? rx a + rw a)
  && (ry a <=? ry b + rh b) && (ry b <=? ry a + rh a).

Definition rect_union (a b : OsRect) : OsRect :=
  let left := if rx a <? rx b then rx a else rx b in
  let top := if ry a <? ry b then ry a else ry b in
  let right := if rx b + rw b <? rx a + rw a then rx a + rw a else rx b + rw b in
  let bottom := if ry b + rh b <? ry a + rh a then ry a + rh a else ry b + rh b in
  {| rx := i32 left; ry := i32 top; rw := i32 (right - left); rh := i32 (bottom - top) |}.

Definition remove_rect (index : Z) (t : GraphicsDirtyTracker) : GraphicsDirtyTracker :=
  if count t <=? index then t
  else
    let t := for_range index (count t - 1) (fun i t =>
               t <| rects := aset (rects t) i (aget (rects t) (i + 1)) |>) t in
    let t := t <| count := count t - 1 |> in
    t <| rects := aset (rects t) (count t) zero_rect |>.

(** The [while] loop of [compact_overlaps]; [None] when the fuel runs out. *)
Fixpoint compact_loop (fuel : nat) (start i : Z) (t : GraphicsDirtyTracker)
    : option GraphicsDirtyTracker :=
  match fuel with
  | O => None
  | S fuel =>
    if i <? count t then
      if i =? start then compact_loop fuel start (i + 1) t
      else if negb (rects_touch_or_overlap (aget (rects t) start) (aget (rects t) i))
      then compact_loop fuel start (i + 1) t
      else
        let t := t <| rects := aset (rects t) start
                        (rect_union (aget (rects t) start) (aget (rects t) i)) |> in
        let t := remove_rect i t in
        let start := if i <? start then start - 1 else start in
        compact_loop fuel start 0 t
    else Some t
  end.

(** More than [count * (count + 1) + count] iterations for any [count] up to 64. *)
Definition compact_fuel : nat := 4300.

Definition compact_overlaps (start : Z) (t : GraphicsDirtyTracker) : GraphicsDirtyTracker :=
  if count t <=? start then t else default t (compact_loop compact_fuel start 0 t).

Definition gfx_dirty_init (b : option OsRect) (t : GraphicsDirtyTracker) : GraphicsDirtyTracker :=
  let t := reset_tracker t in
  match b with
  | Some r => if gfx_rect_is_empty b then t else t <| bounds := r |>
  | None => t
  end.

Definition gfx_dirty_clear (t : GraphicsDirtyTracker) : GraphicsDirtyTracker :=
  let t := for_range 0 (count t) (fun i t => t <| rects := aset (rects t) i zero_rect |>) t in
  t <| count := 0 |> <| full := 0 |>.

Definition gfx_dirty_mark_full (t : GraphicsDirtyTracker) : GraphicsDirtyTracker :=
  if gfx_rect_is_empty (Some (bounds t)) then t
  else
    let t := t <| rects := aset (rects t) 0 (bounds t) |> in
    let t := for_range 1 GFX_DIRTY_MAX_RECTS (fun i t =>
               t <| rects := aset (rects t) i zero_rect |>) t in
    t <| count := 1 |> <| full := 1 |>.

Definition gfx_dirty_mark (rect : option OsRect) (t : GraphicsDirtyTracker) : GraphicsDirtyTracker :=
  if nonzero (full t) || gfx_rect_is_empty (Some (bounds t)) then t
  else
    match gfx_clip_rect (Some (bounds t)) rect true with
    | (1, Some clipped) =>
      match find_first (fun i => rects_touch_or_overlap (aget (rects t) i) clipped) 0
              (Z.to_nat (count t)) with
      | Some i =>
        compact_overlaps i
          (t <| rects := aset (rects t) i (rect_union (aget (rects t) i) clipped) |>)
      | None =>
        if GFX_DIRTY_MAX_RECTS <=? count t then gfx_dirty_mark_full t
        else t <| rects := aset (rects t) (count t) clipped |> <| count := count t + 1 |>
      end
    | _ => t
    end.

Definition gfx_dirty_count (t : option GraphicsDirtyTracker) : Z :=
  match t with Some t => count t | None => 0 end.
Definition gfx_dirty_is_full (t : option GraphicsDirtyTracker) : Z :=
  match t with Some t => full t | None => 0 end.
