(* ===== verification/Graphics2dSpec.v ===== *)
(** * What clipping and dirty tracking guarantee

    Rectangles as sets of pixels: clipping computes the intersection; the
    dirty tracker keeps at most 64 pairwise separate rectangles inside its
    bounds that cover every pixel marked since the last clear. *)

From S2P Require Import Prelude Graphics2d.

Definition inside (r : OsRect) (x y : Z) : Prop :=
  rx r <= x < rx r + rw r /\ ry r <= y < ry r + rh r.

(** A rectangle whose fields are 32-bit integers. *)
Definition rect32 (r : OsRect) : Prop :=
  is_i32 (rx r) /\ is_i32 (ry r) /\ is_i32 (rw r) /\ is_i32 (rh r).

(** A nonempty rectangle inside [B] whose edges are 32-bit integers. *)
Definition rect_ok (B r : OsRect) : Prop :=
  0 < rw r /\ 0 < rh r /\ rx B <= rx r /\ ry B <= ry r /\
  rx r + rw r <= rx B + rw B /\ ry r + rh r <= ry B + rh B /\
  rx r + rw r <= INT32_MAX /\ ry r + rh r <= INT32_MAX.

Definition touch (a b : OsRect) : Prop := rects_touch_or_overlap a b = true.

Ltac rect_consts := unfold rect_ok, rect32, is_i32, INT32_MIN, INT32_MAX in *.

Lemma touch_sym a b : touch a b <-> touch b a.
Proof. unfold touch, rects_touch_or_overlap. rewrite !andb_true_iff, !Z.leb_le. tauto. Qed.

(** ** Clipping *)

Lemma clip_value b n : rect32 b -> rect32 n -> 0 < rw b -> 0 < rh b -> 0 < rw n -> 0 < rh n ->
  let l := Z.max (rx b) (rx n) in let tp := Z.max (ry b) (ry n) in
  let r := Z.min (rx b + rw b) (rx n + rw n) in let bt := Z.min (ry b + rh b) (ry n + rh n) in
  gfx_clip_rect (Some b) (Some n) true =
    if (r <=? l) || (bt <=? tp) || (INT32_MAX <? r) || (INT32_MAX <? bt) then (0, Some zero_rect)
    else (1, Some {| rx := l; ry := tp; rw := r - l; rh := bt - tp |}).
Proof.
  intros Hb Hn H1 H2 H3 H4. cbv zeta. unfold gfx_clip_rect, gfx_rect_is_empty.
  rewrite !(proj2 (Z.leb_gt _ _)) by lia. simpl orb. cbv iota zeta.
  replace (if rx n <? rx b then rx b else rx n) with (Z.max (rx b) (rx n))
    by (case_match; bprop; lia).
  replace (if ry n <? ry b then ry b else ry n) with (Z.max (ry b) (ry n))
    by (case_match; bprop; lia).
  replace (if rx b + rw b <? rx n + rw n then rx b + rw b else rx n + rw n)
    with (Z.min (rx b + rw b) (rx n + rw n)) by (case_match; bprop; lia).
  replace (if ry b + rh b <? ry n + rh n then ry b + rh b else ry n + rh n)
    with (Z.min (ry b + rh b) (ry n + rh n)) by (case_match; bprop; lia).
  rect_consts.
  rewrite !(proj2 (Z.ltb_ge _ (- 2 ^ 31))) by lia. rewrite !orb_false_r.
  destruct (_ || _ || _ || _) eqn:Hc; [done|]. bprop.
  by rewrite !i32_small by (rect_consts; lia).
Qed.

Lemma gfx_clip_exact_cases b n r out : rect32 b -> rect32 n ->
  gfx_clip_rect (Some b) (Some n) true = (r, out) ->
  (r = 1 /\ exists o, out = Some o /\ rect_ok b o /\
     forall x y, inside o x y <-> inside b x y /\ inside n x y) \/
  (r = 0 /\ out = Some zero_rect /\
   ((forall x y, ~ (inside b x y /\ inside n x y)) \/
    INT32_MAX < Z.min (rx b + rw b) (rx n + rw n) \/
    INT32_MAX < Z.min (ry b + rh b) (ry n + rh n))).
Proof.
  intros Hb Hn. destruct (gfx_rect_is_empty (Some b) || gfx_rect_is_empty (Some n)) eqn:He.
  { unfold gfx_clip_rect. rewrite He. intros [= <- <-]. right. split; [done|]. split; [done|]. left.
    intros x y. unfold inside, gfx_rect_is_empty in *. bprop; lia. }
  unfold gfx_rect_is_empty in He. bprop. rewrite clip_value by done.
  if_eqn Hc; intros [= <- <-].
  - right. split; [done|]. split; [done|]. unfold inside. bprop; [left | left | lia | lia]; intros; lia.
  - left. split; [done|]. eexists. split; [done|]. rect_consts. unfold inside. simpl. bprop.
    split; [lia|]. intros. lia.
Qed.

(** C38: clipping is intersection.  For 32-bit rectangles, when
    [gfx_clip_rect] answers 1 the output is nonempty, lies inside the bounds,
    and its pixels are exactly those of both rectangles; it answers 0 only if
    an argument is empty, the rectangles share no pixel, or they share pixels
    up to an edge that does not fit 32 bits, and the output is then the zero
    rectangle. *)
Theorem gfx_clip_exact b n r out : rect32 b -> rect32 n ->
  gfx_clip_rect (Some b) (Some n) true = (r, out) ->
  (r = 1 /\ exists o, out = Some o /\ rect_ok b o /\
     forall x y, inside o x y <-> inside b x y /\ inside n x y) \/
  (r = 0 /\ out = Some zero_rect /\
   ((forall x y, ~ (inside b x y /\ inside n x y)) \/
    INT32_MAX < Z.min (rx b + rw b) (rx n + rw n) \/
    INT32_MAX < Z.min (ry b + rh b) (ry n + rh n))).
Proof. apply gfx_clip_exact_cases. Qed.

Lemma gfx_clip_exact_witness :
  exists o, gfx_clip_rect (Some {| rx := 0; ry := 0; rw := 10; rh := 10 |})
              (Some {| rx := -3; ry := 4; rw := 5; rh := 100 |}) true = (1, Some o) /\
  inside o 1 9 /\ ~ inside o 2 9.
Proof.
  eexists. split; [reflexivity|].
  destruct (gfx_clip_exact {| rx := 0; ry := 0; rw := 10; rh := 10 |}
    {| rx := -3; ry := 4; rw := 5; rh := 100 |} 1
    (Some {| rx := 0; ry := 4; rw := 2; rh := 6 |})) as [(_ & o & Ho & _ & Hin)|[? _]];
    [rect_consts; simpl; lia | rect_consts; simpl; lia | reflexivity | | discriminate].
  injection Ho as <-. split.
  - apply Hin. unfold inside. simpl. lia.
  - intros Hi. apply Hin in Hi. unfold inside in Hi. simpl in Hi. lia.
Defined.

(** ** Unions and removal *)

Lemma union_ok B a b : rect32 B -> rect_ok B a -> rect_ok B b ->
  rect_ok B (rect_union a b) /\
  forall x y, inside a x y \/ inside b x y -> inside (rect_union a b) x y.
Proof.
  intros HB Ha Hb.
  assert (rect_union a b = {| rx := Z.min (rx a) (rx b); ry := Z.min (ry a) (ry b);
    rw := Z.max (rx a + rw a) (rx b + rw b) - Z.min (rx a) (rx b);
    rh := Z.max (ry a + rh a) (ry b + rh b) - Z.min (ry a) (ry b) |}) as ->.
  { unfold rect_union. cbv zeta.
    replace (if rx a <? rx b then rx a else rx b) with (Z.min (rx a) (rx b))
      by (case_match; bprop; lia).
    replace (if ry a <? ry b then ry a else ry b) with (Z.min (ry a) (ry b))
      by (case_match; bprop; lia).
    replace (if rx b + rw b <? rx a + rw a then rx a + rw a else rx b + rw b)
      with (Z.max (rx a + rw a) (rx b + rw b)) by (case_match; bprop; lia).
    replace (if ry b + rh b <? ry a + rh a then ry a + rh a else ry b + rh b)
      with (Z.max (ry a + rh a) (ry b + rh b)) by (case_match; bprop; lia).
    rect_consts. by rewrite !i32_small by (rect_consts; lia). }
  split; [rect_consts; simpl; lia|]. unfold inside. simpl. intros. lia.
Qed.

(** The live rectangles. *)
Definition live (t : GraphicsDirtyTracker) (i : Z) : OsRect := aget (rects t) i.

Definition dirty (t : GraphicsDirtyTracker) (x y : Z) : Prop :=
  exists i, 0 <= i < count t /\ inside (live t i) x y.

Lemma remove_rect_spec index t : 0 <= index < count t -> count t <= alen (rects t) ->
  count (remove_rect index t) = count t - 1 /\ bounds (remove_rect index t) = bounds t /\
  full (remove_rect index t) = full t /\ alen (rects (remove_rect index t)) = alen (rects t) /\
  forall j, 0 <= j < count t - 1 ->
    live (remove_rect index t) j = live t (if j <? index then j else j + 1).
Proof.
  intros Hi Hc. unfold remove_rect. rewrite (proj2 (Z.leb_gt _ _)) by lia.
  set (body := fun i t => t <| rects := aset (rects t) i (aget (rects t) (i + 1)) |>).
  assert (let t' := for_range index (count t - 1) body t in
    count t' = count t /\ bounds t' = bounds t /\ full t' = full t /\
    alen (rects t') = alen (rects t) /\
    forall j, 0 <= j < count t -> live t' j =
      live t (if (j <? index) || (count t - 1 <=? j) then j else j + 1))
    as (H1 & H2 & H3 & H4 & H5).
  { apply (for_range_inv (fun i t' => count t' = count t /\ bounds t' = bounds t /\
      full t' = full t /\ alen (rects t') = alen (rects t) /\
      forall j, 0 <= j < count t -> live t' j =
        live t (if (j <? index) || (i <=? j) then j else j + 1))); [lia | |].
    - split_and!; try done. intros j Hj. by destruct (j <? index) eqn:E1, (index <=? j) eqn:E2; bprop; try lia.
    - intros i t' Hir (A1 & A2 & A3 & A4 & A5). unfold body. simpl. rewrite alen_aset.
      split_and!; try done. intros j Hj. unfold live. simpl. rewrite aget_aset by lia.
      case_decide as Hij.
      + subst j. change (aget (rects t') (i + 1)) with (live t' (i + 1)). rewrite A5 by lia.
        rewrite (proj2 (Z.ltb_ge i index)), (proj2 (Z.leb_gt (i + 1) i)) by lia.
        rewrite (proj2 (Z.leb_le i (i + 1))), orb_true_r by lia. done.
      + change (aget (rects t') j) with (live t' j). rewrite A5 by lia.
        unfold live. do 2 f_equal. by destruct (j <? index), (i <=? j) eqn:E1, (i + 1 <=? j) eqn:E2; bprop; try lia. }
  cbv zeta. simpl. rewrite H1, H2, H3, alen_aset, H4.
  split_and!; try done. intros j Hj. unfold live. simpl. rewrite aget_aset_ne by lia.
  fold (live (for_range index (count t - 1) body t) j). rewrite H5 by lia.
  rewrite (proj2 (Z.leb_gt (count t - 1) j)), orb_false_r by lia. done.
Qed.

(** ** The invariant *)

Record tracker_inv (t : GraphicsDirtyTracker) : Prop := {
  tk_len : alen (rects t) = GFX_DIRTY_MAX_RECTS;
  tk_count : 0 <= count t <= GFX_DIRTY_MAX_RECTS;
  tk_bounds : rect32 (bounds t);
  tk_ok : forall i, 0 <= i < count t -> rect_ok (bounds t) (live t i);
  tk_apart : forall i j, 0 <= i < count t -> 0 <= j < count t -> i <> j ->
    ~ touch (live t i) (live t j);
}.

(** The invariant while rectangle [start] grows: it may touch the ones from [i] on. *)
Record compact_inv (start i : Z) (t : GraphicsDirtyTracker) : Prop := {
  ck_len : alen (rects t) = GFX_DIRTY_MAX_RECTS;
  ck_count : 0 <= start < count t /\ count t <= GFX_DIRTY_MAX_RECTS /\ 0 <= i;
  ck_bounds : rect32 (bounds t);
  ck_ok : forall i, 0 <= i < count t -> rect_ok (bounds t) (live t i);
  ck_apart : forall i j, 0 <= i < count t -> 0 <= j < count t -> i <> j ->
    i <> start -> j <> start -> ~ touch (live t i) (live t j);
  ck_done : forall j, 0 <= j < i -> j < count t -> j <> start -> ~ touch (live t start) (live t j);
}.

Lemma compact_exit start i t : compact_inv start i t -> count t <= i -> tracker_inv t.
Proof.
  intros [] Hi. constructor; try done; [lia|]. intros a b Ha Hb Hab.
  destruct (decide (a = start)) as [->|]; [apply ck_done0; lia|].
  destruct (decide (b = start)) as [->|]; [|by apply ck_apart0].
  rewrite touch_sym. apply ck_done0; lia.
Qed.

Lemma compact_merge start i t : compact_inv start i t -> 0 <= i < count t -> i <> start ->
  let t1 := t <| rects := aset (rects t) start (rect_union (live t start) (live t i)) |> in
  let t2 := remove_rect i t1 in
  let start' := if i <? start then start - 1 else start in
  compact_inv start' 0 t2 /\ count t2 = count t - 1 /\ bounds t2 = bounds t /\ full t2 = full t /\
  forall x y, dirty t x y -> dirty t2 x y.
Proof.
  intros [Hl [Hs Hc] HB Hok Hap Hdone] Hi Hne t1 t2 start'.
  destruct (union_ok (bounds t) (live t start) (live t i) HB) as [Huok Huin]; [apply Hok; lia..|].
  set (u := rect_union (live t start) (live t i)) in *.
  assert (forall j, 0 <= j < count t -> live t1 j = if decide (start = j) then u else live t j) as Hl1.
  { intros j Hj. unfold live, t1. simpl. by rewrite aget_aset by lia. }
  destruct (remove_rect_spec i t1) as (R1 & R2 & R3 & R4 & R5).
  { done. }
  { unfold t1. simpl. rewrite alen_aset. lia. }
  fold t2 in R1, R2, R3, R4, R5. change (count t1) with (count t) in R1, R5.
  change (bounds t1) with (bounds t) in R2. change (full t1) with (full t) in R3.
  assert (alen (rects t1) = alen (rects t)) as Hlen by (unfold t1; simpl; by rewrite alen_aset).
  set (back := fun j => if j <? i then j else j + 1).
  assert (forall j, 0 <= j < count t2 -> 0 <= back j < count t /\ back j <> i /\
    live t2 j = (if decide (start = back j) then u else live t (back j)) /\
    (back j = start <-> j = start')) as Hback.
  { intros j Hj. unfold back, start'.
    split; [case_match; bprop; lia|]. split; [case_match; bprop; lia|].
    split; [rewrite R5 by lia; apply Hl1; case_match; bprop; lia|].
    destruct (j <? i) eqn:E1, (i <? start) eqn:E2; bprop; lia. }
  assert (forall a b, back a = back b -> a = b) as Hinj.
  { intros a b. unfold back. destruct (a <? i) eqn:E1, (b <? i) eqn:E2; bprop; lia. }
  assert (0 <= start' < count t2) as Hs' by (unfold start'; case_match; bprop; lia).
  split_and!; try done.
  - constructor; try done.
    + lia.
    + lia.
    + by rewrite R2.
    + intros j Hj. destruct (Hback j Hj) as (Hr & Hn & -> & _). rewrite R2.
      case_decide; [done | by apply Hok].
    + intros a b Ha Hb Hab Has Hbs. destruct (Hback a Ha) as (Hra & _ & -> & Hsa).
      destruct (Hback b Hb) as (Hrb & _ & -> & Hsb).
      rewrite !decide_False by (intros Heq; symmetry in Heq; tauto).
      apply Hap; try done; try tauto. intros Heq. by apply Hab, Hinj.
    + intros; lia.
  - intros x y (j & Hj & Hin).
    assert (forall k, 0 <= k < count t2 -> inside (if decide (start = back k) then u else live t (back k)) x y ->
      dirty t2 x y) as Hd.
    { intros k Hk Hu. exists k. split; [done|]. by destruct (Hback k Hk) as (_ & _ & -> & _). }
    destruct (decide (j = start \/ j = i)) as [Hor|Hno].
    + apply (Hd start' Hs'). destruct (Hback start' Hs') as (_ & _ & _ & Hb).
      rewrite decide_True by (symmetry; by apply Hb). apply Huin. destruct Hor as [->| ->]; auto.
    + apply (Hd (if j <? i then j else j - 1)); [case_match; bprop; lia|].
      assert (back (if j <? i then j else j - 1) = j) as ->.
      { unfold back. destruct (j <? i) eqn:E; [by rewrite E|]. bprop.
        destruct (j - 1 <? i) eqn:E2; bprop; lia. }
      rewrite decide_False by lia. done.
Qed.

Definition compact_measure (c i : Z) : Z := c * (c + 1) + (c - i).

(** The loop returns, and what it returns covers what was covered. *)
Lemma compact_loop_ok fuel start i t : compact_inv start i t ->
  compact_measure (count t) i < Z.of_nat fuel -> i <= count t + 1 ->
  exists t', compact_loop fuel start i t = Some t' /\ tracker_inv t' /\
    bounds t' = bounds t /\ full t' = full t /\ forall x y, dirty t x y -> dirty t' x y.
Proof.
  revert start i t. induction fuel as [|fuel IH]; intros start i t Hinv Hm Hi.
  { pose proof (ck_count _ _ _ Hinv). unfold compact_measure in Hm. nia. }
  pose proof (ck_count _ _ _ Hinv) as (Hs & Hc & Hi0). cbn [compact_loop].
  destruct (i <? count t) eqn:Hlt; bprop.
  2: { exists t. split; [done|]. split; [by eapply compact_exit|]. done. }
  destruct (i =? start) eqn:Hst; bprop.
  { subst i. apply IH; [|unfold compact_measure in *; lia | lia].
    destruct Hinv. constructor; try done; [lia|]. intros j Hj Hjc Hjs. apply ck_done0; lia. }
  destruct (rects_touch_or_overlap _ _) eqn:Ht; cbn [negb].
  - destruct (compact_merge start i t Hinv ltac:(lia) Hst) as (Hinv' & Hc' & HB' & Hf' & Hcov).
    set (t2 := remove_rect i _) in *.
    destruct (IH _ 0 t2 Hinv') as (t' & He & Hti & HB & Hf & Hcov').
    { rewrite Hc'. unfold compact_measure in *. nia. }
    { lia. }
    exists t'. unfold live in *. split; [exact He|]. split; [done|].
    split; [congruence|]. split; [congruence|]. auto.
  - apply IH; [|unfold compact_measure in *; lia | lia].
    destruct Hinv. constructor; try done; [lia|]. intros j Hj Hjc Hjs.
    destruct (decide (j = i)) as [->|]; [unfold touch, live; by rewrite Ht | apply ck_done0; lia].
Qed.

Lemma compact_overlaps_ok start t : compact_inv start 0 t ->
  tracker_inv (compact_overlaps start t) /\ bounds (compact_overlaps start t) = bounds t /\
  full (compact_overlaps start t) = full t /\
  forall x y, dirty t x y -> dirty (compact_overlaps start t) x y.
Proof.
  intros Hinv. pose proof (ck_count _ _ _ Hinv) as (Hs & Hc & _).
  unfold compact_overlaps. rewrite (proj2 (Z.leb_gt _ _)) by lia.
  destruct (compact_loop_ok compact_fuel start 0 t Hinv) as (t' & -> & H); [| lia | exact H].
  unfold compact_measure, compact_fuel, GFX_DIRTY_MAX_RECTS in *. nia.
Qed.

(** Zeroing a range of the array. *)
Lemma zero_range lo hi t : 0 <= lo <= hi -> hi <= alen (rects t) ->
  let t' := for_range lo hi (fun i t => t <| rects := aset (rects t) i zero_rect |>) t in
  alen (rects t') = alen (rects t) /\ bounds t' = bounds t /\ count t' = count t /\
  full t' = full t /\ forall j, 0 <= j < lo -> live t' j = live t j.
Proof.
  intros Hlo Hhi. apply (for_range_inv (fun i t' => alen (rects t') = alen (rects t) /\
    bounds t' = bounds t /\ count t' = count t /\ full t' = full t /\
    forall j, 0 <= j < lo -> live t' j = live t j)); [lia | done |].
  intros i t' Hi (H1 & H2 & H3 & H4 & H5). simpl. rewrite alen_aset.
  split_and!; try done. intros j Hj. unfold live. simpl. rewrite aget_aset_ne by lia. by apply H5.
Qed.

Lemma mark_full_ok t : tracker_inv t -> gfx_rect_is_empty (Some (bounds t)) = false ->
  rx (bounds t) + rw (bounds t) <= INT32_MAX -> ry (bounds t) + rh (bounds t) <= INT32_MAX ->
  tracker_inv (gfx_dirty_mark_full t) /\ bounds (gfx_dirty_mark_full t) = bounds t /\
  count (gfx_dirty_mark_full t) = 1 /\ full (gfx_dirty_mark_full t) = 1 /\
  live (gfx_dirty_mark_full t) 0 = bounds t.
Proof.
  intros [Hl Hc HB Hok _] He Hx Hy. unfold gfx_dirty_mark_full. rewrite He.
  set (t0 := t <| rects := aset (rects t) 0 (bounds t) |>).
  assert (alen (rects t0) = GFX_DIRTY_MAX_RECTS) as Hl0 by (unfold t0; simpl; by rewrite alen_aset).
  destruct (zero_range 1 GFX_DIRTY_MAX_RECTS t0) as (H1 & H2 & H3 & H4 & H5);
    [unfold GFX_DIRTY_MAX_RECTS; lia | lia |].
  set (t' := for_range 1 _ _ _) in *.
  assert (live t' 0 = bounds t) as H0.
  { rewrite H5 by lia. unfold live, t0. simpl. apply aget_aset_eq. unfold GFX_DIRTY_MAX_RECTS in *. lia. }
  assert (bounds t' = bounds t) as HBt by (by rewrite H2).
  clearbody t'. cbv zeta. unfold gfx_rect_is_empty in He. bprop.
  split; [|split; [done|]; split; [done|]; split; done].
  constructor; simpl; rewrite ?HBt.
  - by rewrite H1.
  - unfold GFX_DIRTY_MAX_RECTS. lia.
  - done.
  - intros i Hi. replace i with 0 by lia. unfold live in *. simpl. rewrite H0. rect_consts. lia.
  - intros i j Hi Hj. lia.
Qed.

Definition fits (r : OsRect) : Prop := rx r + rw r <= INT32_MAX /\ ry r + rh r <= INT32_MAX.

(** A tracker that says "full" covers its bounds. *)
Definition full_ok (t : GraphicsDirtyTracker) : Prop :=
  full t <> 0 -> forall x y, inside (bounds t) x y -> dirty t x y.

Lemma dirty_in_bounds t x y : tracker_inv t -> dirty t x y -> inside (bounds t) x y.
Proof.
  intros [_ _ _ Hok _] (i & Hi & Hin). specialize (Hok i Hi). rect_consts. unfold inside in *. lia.
Qed.

(** Growing rectangle [i] of the tracker by a rectangle that touches it. *)
Lemma grow_inv i c t : tracker_inv t -> 0 <= i < count t -> rect_ok (bounds t) c ->
  let t1 := t <| rects := aset (rects t) i (rect_union (live t i) c) |> in
  compact_inv i 0 t1 /\ (forall x y, dirty t x y \/ inside c x y -> dirty t1 x y).
Proof.
  intros [Hl Hc HB Hok Hap] Hi Hco t1.
  destruct (union_ok (bounds t) (live t i) c HB (Hok i Hi) Hco) as [Huok Huin].
  assert (forall j, 0 <= j < count t ->
    live t1 j = if decide (i = j) then rect_union (live t i) c else live t j) as Hl1.
  { intros j Hj. unfold live at 1, t1. simpl. by rewrite aget_aset by lia. }
  split.
  - constructor; simpl.
    + by rewrite alen_aset.
    + lia.
    + done.
    + intros j Hj. rewrite Hl1 by done. case_decide; [done | by apply Hok].
    + intros a b Ha Hb Hab Hai Hbi. rewrite !Hl1, !decide_False by lia. by apply Hap.
    + intros; lia.
  - intros x y [(j & Hj & Hin)|Hin].
    + exists j. split; [done|]. rewrite Hl1 by done. case_decide; [subst; auto | done].
    + exists i. split; [done|]. rewrite Hl1, decide_True by done. auto.
Qed.

(** Adding a rectangle that touches none. *)
Lemma append_ok c t : tracker_inv t -> rect_ok (bounds t) c -> count t < GFX_DIRTY_MAX_RECTS ->
  (forall i, 0 <= i < count t -> ~ touch (live t i) c) ->
  let t1 := t <| rects := aset (rects t) (count t) c |> <| count := count t + 1 |> in
  tracker_inv t1 /\ (forall x y, dirty t x y \/ inside c x y -> dirty t1 x y).
Proof.
  intros [Hl Hc HB Hok Hap] Hco Hlt Hno t1.
  assert (forall j, 0 <= j < count t + 1 ->
    live t1 j = if decide (count t = j) then c else live t j) as Hl1.
  { intros j Hj. unfold live at 1, t1. simpl. by rewrite aget_aset by lia. }
  split.
  - constructor; simpl.
    + by rewrite alen_aset.
    + lia.
    + done.
    + intros j Hj. rewrite Hl1 by done. case_decide; [done | apply Hok; lia].
    + intros a b Ha Hb Hab. rewrite !Hl1 by done. repeat case_decide.
      * lia.
      * rewrite touch_sym. apply Hno. lia.
      * apply Hno. lia.
      * apply Hap; lia.
  - intros x y [(j & Hj & Hin)|Hin].
    + exists j. simpl. split; [lia|]. rewrite Hl1, decide_False by lia. done.
    + exists (count t). simpl. split; [lia|]. by rewrite Hl1, decide_True by lia.
Qed.

(** The dirty tracker loses nothing.  Marking a rectangle keeps at most 64
    pairwise separate nonempty rectangles inside the bounds; every pixel that
    was dirty still is, every pixel of the marked rectangle that lies in the
    bounds is dirty, and no dirty pixel lies outside the bounds.  In particular
    the merging loop of [compact_overlaps] terminates. *)
Theorem gfx_dirty_mark_covers r t : tracker_inv t -> full_ok t -> fits (bounds t) -> rect32 r ->
  let t' := gfx_dirty_mark (Some r) t in
  tracker_inv t' /\ full_ok t' /\ bounds t' = bounds t /\
  (forall x y, dirty t x y \/ inside (bounds t) x y /\ inside r x y -> dirty t' x y) /\
  (forall x y, dirty t' x y -> inside (bounds t) x y).
Proof.
  intros Hinv Hfull Hfit Hr t'. pose proof (tk_bounds _ Hinv) as HB.
  assert (tracker_inv t' /\ full_ok t' /\ bounds t' = bounds t /\
    (forall x y, dirty t x y \/ inside (bounds t) x y /\ inside r x y -> dirty t' x y))
    as (H1 & H2 & H3 & H4).
  2: { split_and!; try done. intros x y Hd. rewrite <- H3. by apply dirty_in_bounds. }
  unfold t', gfx_dirty_mark. destruct (nonzero (full t) || _) eqn:Hstop.
  { split_and!; try done. intros x y [?|[Hb Hrr]]; [done|]. apply orb_true_iff in Hstop as [Hs|Hs].
    - apply Hfull; [|done]. unfold nonzero in Hs. by bprop.
    - unfold inside, gfx_rect_is_empty in *. bprop; lia. }
  apply orb_false_iff in Hstop as [Hnf Hne].
  assert (full t = 0) as Hf0 by (unfold nonzero in Hnf; by bprop).
  destruct (gfx_clip_rect (Some (bounds t)) (Some r) true) as [res out] eqn:Hclip.
  apply gfx_clip_exact_cases in Hclip; [|done|done].
  destruct Hclip as [(-> & c & -> & Hco & Hin)|(-> & -> & Hnone)].
  2: { split_and!; try done. intros x y [?|Hboth]; [done|]. exfalso. unfold fits in Hfit.
       destruct Hnone as [Hno|Hedge]; [by eapply Hno|]. destruct Hedge; lia. }
  cbv iota. destruct (find_first _ _ _) as [i|] eqn:Hfind.
  - apply find_first_Some in Hfind as (Hi & _ & _).
    destruct (grow_inv i c t Hinv ltac:(lia) Hco) as [Hc1 Hcov].
    destruct (compact_overlaps_ok _ _ Hc1) as (K1 & K2 & K3 & K4). unfold live in *.
    split_and!; try done.
    + intros Hf. by rewrite K3 in Hf.
    + intros x y [?|?]; apply K4, Hcov; [by left | right; by apply Hin].
  - assert (forall i, 0 <= i < count t -> ~ touch (live t i) c) as Hno.
    { intros i Hi Ht. pose proof (find_first_None _ _ _ Hfind i ltac:(lia)) as Hx. simpl in Hx.
      unfold touch, live in Ht. congruence. }
    destruct (GFX_DIRTY_MAX_RECTS <=? count t) eqn:Hmax; bprop.
    + destruct (mark_full_ok t Hinv Hne (proj1 Hfit) (proj2 Hfit)) as (M1 & M2 & M3 & M4 & M5).
      assert (forall x y, inside (bounds t) x y -> dirty (gfx_dirty_mark_full t) x y) as Hall.
      { intros x y Hb. exists 0. rewrite M3, M5. split; [lia | done]. }
      split_and!; try done.
      * intros _. by rewrite M2.
      * intros x y [Hd|[Hb _]]; [|by apply Hall]. by apply Hall, dirty_in_bounds.
    + destruct (append_ok c t Hinv Hco Hmax Hno) as [A1 A2]. split_and!; try done.
      * intros Hf. by rewrite <- Hf0 in Hf.
      * intros x y [?|?]; apply A2; [by left | right; by apply Hin].
Qed.

Definition demo_tracker : GraphicsDirtyTracker :=
  {| bounds := {| rx := 0; ry := 0; rw := 640; rh := 480 |}; rects := replicate 64 zero_rect;
     count := 0; full := 0 |}.

Lemma demo_tracker_inv : tracker_inv demo_tracker.
Proof. constructor; simpl; rect_consts; unfold GFX_DIRTY_MAX_RECTS; simpl; try done; lia. Qed.

Lemma gfx_dirty_mark_covers_witness :
  dirty (gfx_dirty_mark (Some {| rx := 600; ry := 5; rw := 100; rh := 3 |}) demo_tracker) 639 7.
Proof.
  apply (gfx_dirty_mark_covers {| rx := 600; ry := 5; rw := 100; rh := 3 |} demo_tracker).
  - exact demo_tracker_inv.
  - intros Hf. by destruct Hf.
  - unfold fits, INT32_MAX. simpl. lia.
  - rect_consts. simpl. lia.
  - right. unfold inside. simpl. lia.
Defined.
