(* ===== verification/DisplayOwner.v ===== *)
(** * Who draws on the display ([kernel/graphics/display_owner.cpp])

    The terminal and the graphics output draw in turns: a drawer holds a token
    while it draws.  A display session hands the whole screen from the console to
    a window server and back.  Every function runs under [display_state_lock] with
    interrupts off, so a history of the component is a sequence of calls
    ([display_call]); [irq_save] and [irq_restore] only fence them.

    Shown: all held tokens belong to one owner and are counted; the terminal draws
    never while a session holds or takes the screen; a session is committed,
    released and presented to only by those it was begun for; a session whose
    window server or display server dies always ends at the console. *)

From S2P Require Import Prelude.

Definition DISPLAY_OWNER_NONE : Z := 0.
Definition DISPLAY_OWNER_TERMINAL : Z := 1.
Definition DISPLAY_OWNER_GOP : Z := 2.
Definition OS_DISPLAY_SESSION_CONSOLE_ACTIVE : Z := 1.
Definition OS_DISPLAY_SESSION_GUI_ACQUIRING : Z := 2.
Definition OS_DISPLAY_SESSION_GUI_ACTIVE : Z := 3.
Definition OS_DISPLAY_SESSION_CONSOLE_RESTORING : Z := 4.
Definition OS_DISPLAY_SESSION_FALLBACK : Z := 5.
Definition OS64_DISPLAY_ABI_VERSION : Z := 1.
Definition sizeof_OsDisplaySessionInfo : Z := 40.

Record DisplayOwnerToken := { t_flags : Z; t_owner : Z; t_acquired : Z }.
#[export] Instance DisplayOwnerToken_settable : Settable DisplayOwnerToken := {| eta_expand t := {| t_flags := t_flags t; t_owner := t_owner t; t_acquired := t_acquired t |} |}.
#[export] Instance DisplayOwnerToken_inhabited : Inhabited DisplayOwnerToken := populate {| t_flags := 0; t_owner := 0; t_acquired := 0 |}.

Record DisplayState := {
  owner_state : Z; owner_depth : Z; acquire_count : Z; busy_count : Z;
  session_state : Z; session_generation : Z; session_window_pid : Z; session_window_generation : Z;
  session_display_pid : Z; session_display_generation : Z; session_width : Z; session_height : Z }.
#[export] Instance DisplayState_settable : Settable DisplayState := {| eta_expand s := {|
  owner_state := owner_state s; owner_depth := owner_depth s; acquire_count := acquire_count s; busy_count := busy_count s;
  session_state := session_state s; session_generation := session_generation s; session_window_pid := session_window_pid s;
  session_window_generation := session_window_generation s; session_display_pid := session_display_pid s;
  session_display_generation := session_display_generation s; session_width := session_width s; session_height := session_height s |} |}.
(** The initial values of the static variables. *)
Definition display_initial : DisplayState := {|
  owner_state := DISPLAY_OWNER_NONE; owner_depth := 0; acquire_count := 0; busy_count := 0;
  session_state := OS_DISPLAY_SESSION_CONSOLE_ACTIVE; session_generation := 0; session_window_pid := 0; session_window_generation := 0;
  session_display_pid := 0; session_display_generation := 0; session_width := 0; session_height := 0 |}.

Record DisplayOwnerStats := { st_current_owner : Z; st_depth : Z; st_acquire_count : Z; st_busy_count : Z }.
Record OsDisplaySessionInfo := {
  i_size : Z; i_abi_version : Z; i_state : Z; i_generation : Z; i_window_pid : Z; i_window_generation : Z; i_display_pid : Z; i_display_generation : Z;
  i_width : Z; i_height : Z }.

(** ** Drawing *)

Definition terminal_session (state : Z) : bool :=
  (state =? OS_DISPLAY_SESSION_CONSOLE_ACTIVE) || (state =? OS_DISPLAY_SESSION_CONSOLE_RESTORING) || (state =? OS_DISPLAY_SESSION_FALLBACK).
Definition gop_session (state : Z) : bool :=
  (state =? OS_DISPLAY_SESSION_CONSOLE_ACTIVE) || (state =? OS_DISPLAY_SESSION_GUI_ACTIVE) || (state =? OS_DISPLAY_SESSION_FALLBACK).
(** The token that is written, with the state. *)
Definition display_owner_begin (owner : Z) (s : DisplayState) : DisplayOwnerToken * DisplayState :=
  let token := {| t_flags := 0; t_owner := owner; t_acquired := 0 |} in
  if owner =? DISPLAY_OWNER_NONE then (token, s)
  else if ((owner =? DISPLAY_OWNER_TERMINAL) && negb (terminal_session (session_state s))) || ((owner =? DISPLAY_OWNER_GOP) && negb (gop_session (session_state s)))
  then (token, s <| busy_count := u64 (busy_count s + 1) |>)
  else if negb (owner_state s =? DISPLAY_OWNER_NONE) && negb (owner_state s =? owner) then (token, s <| busy_count := u64 (busy_count s + 1) |>)
  else (token <| t_acquired := 1 |>, s <| owner_state := owner |> <| owner_depth := u32 (owner_depth s + 1) |> <| acquire_count := u64 (acquire_count s + 1) |>).
Definition display_owner_end (token : DisplayOwnerToken) (s : DisplayState) : DisplayOwnerToken * DisplayState :=
  if t_acquired token =? 0 then (token, s)
  else
    (token <| t_acquired := 0 |>,
     if (owner_state s =? t_owner token) && (0 <? owner_depth s) then
       let s := s <| owner_depth := owner_depth s - 1 |> in if owner_depth s =? 0 then s <| owner_state := DISPLAY_OWNER_NONE |> else s
     else s).
Definition display_owner_current (s : DisplayState) : Z := owner_state s.
Definition display_owner_get_stats (s : DisplayState) : DisplayOwnerStats :=
  {| st_current_owner := owner_state s; st_depth := owner_depth s; st_acquire_count := acquire_count s; st_busy_count := busy_count s |}.

(** ** Sessions *)

Definition clear_session_owners (s : DisplayState) : DisplayState :=
  s <| session_window_pid := 0 |> <| session_window_generation := 0 |> <| session_display_pid := 0 |> <| session_display_generation := 0 |>
    <| session_width := 0 |> <| session_height := 0 |>.
(** The answer with [*generation_out]. *)
Definition display_session_begin (window_pid window_generation display_pid display_generation width height : Z) (s : DisplayState) : (Z * Z) * DisplayState :=
  if (window_pid =? 0) || (window_generation =? 0) || (display_pid =? 0) || (display_generation =? 0) || (width =? 0) || (height =? 0) then ((0, 0), s)
  else if (negb (session_state s =? OS_DISPLAY_SESSION_CONSOLE_ACTIVE) && negb (session_state s =? OS_DISPLAY_SESSION_FALLBACK)) || negb (owner_state s =? DISPLAY_OWNER_NONE)
  then ((0, 0), s)
  else
    let s := s <| session_generation := u32 (session_generation s + 1) |> in
    let s := if session_generation s =? 0 then s <| session_generation := 1 |> else s in
    let s := s <| session_window_pid := window_pid |> <| session_window_generation := window_generation |> <| session_display_pid := display_pid |>
               <| session_display_generation := display_generation |> <| session_width := width |> <| session_height := height |>
               <| session_state := OS_DISPLAY_SESSION_GUI_ACQUIRING |> in
    ((1, session_generation s), s).
Definition display_session_commit (generation : Z) (s : DisplayState) : Z * DisplayState :=
  if (session_state s =? OS_DISPLAY_SESSION_GUI_ACQUIRING) && nonzero generation && (generation =? session_generation s)
  then (1, s <| session_state := OS_DISPLAY_SESSION_GUI_ACTIVE |>) else (0, s).
Definition display_session_abort_acquire (generation : Z) (s : DisplayState) : DisplayState :=
  if (session_state s =? OS_DISPLAY_SESSION_GUI_ACQUIRING) && (generation =? session_generation s)
  then clear_session_owners (s <| session_state := OS_DISPLAY_SESSION_FALLBACK |>) else s.
Definition display_session_begin_release (window_pid window_generation generation : Z) (s : DisplayState) : Z * DisplayState :=
  if (session_state s =? OS_DISPLAY_SESSION_GUI_ACTIVE) && nonzero generation && (generation =? session_generation s) && (window_pid =? session_window_pid s)
     && (window_generation =? session_window_generation s)
  then (1, s <| session_state := OS_DISPLAY_SESSION_CONSOLE_RESTORING |>) else (0, s).
Definition display_session_begin_recovery (pid generation : Z) (s : DisplayState) : Z * DisplayState :=
  if (pid =? 0) || (generation =? 0) then (0, s)
  else
    let owner := ((pid =? session_window_pid s) && (generation =? session_window_generation s)) || ((pid =? session_display_pid s) && (generation =? session_display_generation s)) in
    if owner && ((session_state s =? OS_DISPLAY_SESSION_GUI_ACQUIRING) || (session_state s =? OS_DISPLAY_SESSION_GUI_ACTIVE))
    then (1, s <| session_state := OS_DISPLAY_SESSION_CONSOLE_RESTORING |>) else (0, s).
Definition display_session_finish_restore (s : DisplayState) : DisplayState :=
  if (session_state s =? OS_DISPLAY_SESSION_CONSOLE_RESTORING) || (session_state s =? OS_DISPLAY_SESSION_FALLBACK)
  then (clear_session_owners s) <| session_state := OS_DISPLAY_SESSION_CONSOLE_ACTIVE |> else s.
Definition display_session_gui_active (s : DisplayState) : bool := session_state s =? OS_DISPLAY_SESSION_GUI_ACTIVE.
Definition display_session_terminal_scanout_allowed (s : DisplayState) : bool :=
  (session_state s =? OS_DISPLAY_SESSION_CONSOLE_ACTIVE) || (session_state s =? OS_DISPLAY_SESSION_CONSOLE_RESTORING) || (session_state s =? OS_DISPLAY_SESSION_FALLBACK).
Definition display_session_present_allowed (display_pid display_generation : Z) (s : DisplayState) : bool :=
  (session_state s =? OS_DISPLAY_SESSION_GUI_ACTIVE) && nonzero display_pid && (display_pid =? session_display_pid s)
  && nonzero display_generation && (display_generation =? session_display_generation s).
Definition display_session_get_info (s : DisplayState) : OsDisplaySessionInfo := {|
  i_size := sizeof_OsDisplaySessionInfo; i_abi_version := OS64_DISPLAY_ABI_VERSION; i_state := session_state s; i_generation := session_generation s;
  i_window_pid := session_window_pid s; i_window_generation := session_window_generation s; i_display_pid := session_display_pid s;
  i_display_generation := session_display_generation s; i_width := session_width s; i_height := session_height s |}.

(** ** Histories *)

Inductive display_call :=
| call_begin (owner : Z)
| call_end (i : nat)
| call_session_begin (window_pid window_generation display_pid display_generation width height : Z)
| call_commit (generation : Z)
| call_abort (generation : Z)
| call_release (window_pid window_generation generation : Z)
| call_recovery (pid generation : Z)
| call_finish.

(** The tokens of the callers, in the order in which they were made, and the sessions begun so far, the latest first. *)
Record Begun := { b_generation : Z; b_window : Z * Z; b_display : Z * Z }.
Record DisplayHistory := { display : DisplayState; tokens : list DisplayOwnerToken; begun : list Begun }.

Definition run_display (c : display_call) (h : DisplayHistory) : DisplayHistory :=
  let s := display h in
  match c with
  | call_begin owner => let '(t, s) := display_owner_begin owner s in {| display := s; tokens := tokens h ++ [t]; begun := begun h |}
  | call_end i => match tokens h !! i with
                  | Some t => let '(t, s) := display_owner_end t s in {| display := s; tokens := <[i := t]> (tokens h); begun := begun h |}
                  | None => h
                  end
  | call_session_begin wp wg dp dg width height =>
    let '((ok, g), s) := display_session_begin wp wg dp dg width height s in
    {| display := s; tokens := tokens h; begun := if ok =? 1 then {| b_generation := g; b_window := (wp, wg); b_display := (dp, dg) |} :: begun h else begun h |}
  | call_commit g => {| display := (display_session_commit g s).2; tokens := tokens h; begun := begun h |}
  | call_abort g => {| display := display_session_abort_acquire g s; tokens := tokens h; begun := begun h |}
  | call_release wp wg g => {| display := (display_session_begin_release wp wg g s).2; tokens := tokens h; begun := begun h |}
  | call_recovery p g => {| display := (display_session_begin_recovery p g s).2; tokens := tokens h; begun := begun h |}
  | call_finish => {| display := display_session_finish_restore s; tokens := tokens h; begun := begun h |}
  end.
Definition display_start : DisplayHistory := {| display := display_initial; tokens := []; begun := [] |}.
Definition display_history (cs : list display_call) : DisplayHistory := foldl (fun h c => run_display c h) display_start cs.

(** ** The invariant *)

Definition holding (t : DisplayOwnerToken) : bool := nonzero (t_acquired t).
Definition gui_session (state : Z) : bool := (state =? OS_DISPLAY_SESSION_GUI_ACQUIRING) || (state =? OS_DISPLAY_SESSION_GUI_ACTIVE).
Definition latest_generation (l : list Begun) : Z := match l with [] => 0 | b :: _ => b_generation b end.

Record owners_ok (s : DisplayState) (ts : list DisplayOwnerToken) : Prop := {
  oo_count : owner_depth s = acount holding ts;
  oo_owner : Forall (fun t => holding t = true -> t_owner t = owner_state s) ts;
  oo_none : owner_state s = DISPLAY_OWNER_NONE <-> owner_depth s = 0;
  oo_terminal : gui_session (session_state s) = true -> owner_state s <> DISPLAY_OWNER_TERMINAL;
}.
(** A session in progress is the latest one begun, for the same parties. *)
Record session_ok (s : DisplayState) (l : list Begun) : Prop := {
  so_generation : session_generation s = latest_generation l;
  so_idle : session_state s = OS_DISPLAY_SESSION_CONSOLE_ACTIVE \/ session_state s = OS_DISPLAY_SESSION_FALLBACK ->
    session_window_pid s = 0 /\ session_window_generation s = 0 /\ session_display_pid s = 0 /\ session_display_generation s = 0;
  so_running : session_state s <> OS_DISPLAY_SESSION_CONSOLE_ACTIVE -> session_state s <> OS_DISPLAY_SESSION_FALLBACK ->
    exists b rest, l = b :: rest /\ b_window b = (session_window_pid s, session_window_generation s) /\ b_display b = (session_display_pid s, session_display_generation s) /\
      session_window_pid s <> 0 /\ session_window_generation s <> 0 /\ session_display_pid s <> 0 /\ session_display_generation s <> 0 /\ b_generation b <> 0;
  so_state : 1 <= session_state s <= 5;
}.

(** The functions on sessions leave the owners alone, and never let a session in while someone draws. *)
Lemma owners_session s s' ts : owners_ok s ts -> owner_state s' = owner_state s -> owner_depth s' = owner_depth s ->
  (gui_session (session_state s') = true -> gui_session (session_state s) = true \/ owner_state s = DISPLAY_OWNER_NONE) -> owners_ok s' ts.
Proof.
  intros [A B C D] Ho Hd Hg. constructor; rewrite ?Ho, ?Hd; try done. intros [Hx|Hx]%Hg; [by apply D | by rewrite Hx].
Qed.

(** Closes a goal about session states. *)
Ltac sessions :=
  unfold OS_DISPLAY_SESSION_CONSOLE_ACTIVE, OS_DISPLAY_SESSION_GUI_ACQUIRING, OS_DISPLAY_SESSION_GUI_ACTIVE, OS_DISPLAY_SESSION_CONSOLE_RESTORING, OS_DISPLAY_SESSION_FALLBACK in *; lia.
Lemma gui_iff v : gui_session v = true <-> v = OS_DISPLAY_SESSION_GUI_ACQUIRING \/ v = OS_DISPLAY_SESSION_GUI_ACTIVE.
Proof. unfold gui_session. by rewrite orb_true_iff, !Z.eqb_eq. Qed.
Lemma none_holding ts : acount holding ts = 0 -> Forall (fun t => holding t = false) ts.
Proof.
  induction ts as [|t ts IH]; cbn [acount]; intros Hz; constructor; pose proof (acount_bounds holding ts); destruct (holding t); try lia; try done; apply IH; lia.
Qed.
Lemma begin_owners owner s ts : owners_ok s ts -> alen ts < 2 ^ 32 - 1 -> owners_ok (display_owner_begin owner s).2 (ts ++ [(display_owner_begin owner s).1]).
Proof.
  intros [A B C D] Hl. unfold display_owner_begin.
  assert (forall s', owner_state s' = owner_state s -> owner_depth s' = owner_depth s -> session_state s' = session_state s -> owners_ok s' (ts ++ [{| t_flags := 0; t_owner := owner; t_acquired := 0 |}])) as Hno.
  { intros s' H1 H2 H3. constructor; rewrite ?H1, ?H2, ?H3; [rewrite acount_app; cbn; lia | apply Forall_app; split; [done|]; by constructor | done | done]. }
  destruct (Z.eqb_spec owner DISPLAY_OWNER_NONE) as [|Hne]; [by apply Hno|].
  destruct ((_ && negb (terminal_session _)) || _) eqn:Hs; [by apply Hno|]. destruct (negb (owner_state s =? _) && _) eqn:Hb; [by apply Hno|].
  pose proof (acount_bounds holding ts) as Hbd. assert (owner_state s = DISPLAY_OWNER_NONE \/ owner_state s = owner) as Hown by (apply andb_false_iff in Hb as [Hb|Hb]; bprop; auto).
  constructor; cbn -[acount].
  - rewrite u32_small by (unfold is_u32; lia). rewrite acount_app. cbn. lia.
  - apply Forall_app. split; [|by constructor]. destruct Hown as [Hown| <-]; [|done]. apply C in Hown. rewrite A in Hown. eapply Forall_impl; [by apply none_holding|].
    intros t Ht. cbn. by rewrite Ht.
  - rewrite u32_small by (unfold is_u32; lia). split; [done | lia].
  - intros Hg ->. apply orb_false_iff in Hs as [Hs _]. cbn in Hs. apply negb_false_iff in Hs. revert Hg Hs. unfold gui_session, terminal_session. intros Hg Hs. bprop; sessions.
Qed.
Lemma end_owners i t s ts : owners_ok s ts -> ts !! i = Some t -> owners_ok (display_owner_end t s).2 (<[i := (display_owner_end t s).1]> ts).
Proof.
  intros [A B C D] Hi. unfold display_owner_end. destruct (Z.eqb_spec (t_acquired t) 0) as [Hz|Hz]; [by rewrite list_insert_id|].
  pose proof (Forall_lookup_1 _ _ _ _ B Hi) as Ho. assert (holding t = true) as Hh by (unfold holding, nonzero; by rewrite (proj2 (Z.eqb_neq _ 0))).
  specialize (Ho Hh). assert (0 <= Z.of_nat i < alen ts) as Hr by (apply lookup_lt_Some in Hi; unfold alen; lia).
  assert (aget ts (Z.of_nat i) = t) as Hg by (apply aget_lookup; by rewrite Nat2Z.id).
  assert (acount holding (<[i := t <| t_acquired := 0 |>]> ts) = acount holding ts - 1) as Hc.
  { replace (<[i := t <| t_acquired := 0 |>]> ts) with (aset ts (Z.of_nat i) (t <| t_acquired := 0 |>)) by (unfold aset; by rewrite Nat2Z.id).
    rewrite acount_aset, Hg, Hh by done. cbn. lia. }
  pose proof (acount_pos holding ts (Z.of_nat i) Hr ltac:(by rewrite Hg)) as Hpos. cbn [fst snd]. rewrite (proj2 (Z.eqb_eq (owner_state s) (t_owner t))), (proj2 (Z.ltb_lt 0 _)) by lia. cbn [andb].
  assert (forall o, o = owner_state s \/ owner_depth s - 1 = 0 -> Forall (fun t => holding t = true -> t_owner t = o) (<[i := t <| t_acquired := 0 |>]> ts)) as Hf.
  { intros o [-> |Hd]; [by apply Forall_insert|]. rewrite A, <- Hc in Hd. eapply Forall_impl; [by apply none_holding|]. intros t' Ht'. cbn. by rewrite Ht'. }
  set (s1 := s <| owner_depth := owner_depth s - 1 |>). assert (owner_depth s1 = owner_depth s - 1 /\ owner_state s1 = owner_state s /\ session_state s1 = session_state s) as (E1 & E2 & E3) by done.
  clearbody s1. rewrite E1. destruct (Z.eqb_spec (owner_depth s - 1) 0) as [Hd|Hd].
  - constructor; [transitivity (owner_depth s1); [done | lia] | apply Hf; by right | | done].
    change (DISPLAY_OWNER_NONE = DISPLAY_OWNER_NONE <-> owner_depth s1 = 0). lia.
  - constructor; rewrite ?E1, ?E2, ?E3; [lia | apply Hf; by left | rewrite C; lia | done].
Qed.

Lemma session_only s s' l : session_ok s l -> session_state s' = session_state s -> session_generation s' = session_generation s -> session_window_pid s' = session_window_pid s ->
  session_window_generation s' = session_window_generation s -> session_display_pid s' = session_display_pid s -> session_display_generation s' = session_display_generation s -> session_ok s' l.
Proof. intros [A B C D] H1 H2 H3 H4 H5 H6. constructor; rewrite ?H1, ?H2, ?H3, ?H4, ?H5, ?H6; done. Qed.
Lemma begin_session_ok wp wg dp dg width height s l : session_ok s l -> let '((ok, g), s') := display_session_begin wp wg dp dg width height s in
  session_ok s' (if ok =? 1 then {| b_generation := g; b_window := (wp, wg); b_display := (dp, dg) |} :: l else l).
Proof.
  intros Hs. unfold display_session_begin. destruct (_ || (height =? 0)) eqn:Ha; [done|]. bprop. destruct (_ || negb (owner_state s =? DISPLAY_OWNER_NONE)) eqn:Hb; [done|].
  set (s1 := s <| session_generation := _ |>). set (s2 := if session_generation s1 =? 0 then _ else s1).
  assert (session_generation s2 <> 0) as Hg by (unfold s2; destruct (Z.eqb_spec (session_generation s1) 0); done). clearbody s2.
  constructor; cbn; [done | sessions | | sessions]. intros _ _. eexists _, _. split; [done|]. by split_and!.
Qed.

(** ** Every history *)

Record display_ok (h : DisplayHistory) : Prop := { dk_owners : owners_ok (display h) (tokens h); dk_sessions : session_ok (display h) (begun h) }.

(** A change of state within the session. *)
Lemma running_ok s l v : session_ok s l -> session_state s <> OS_DISPLAY_SESSION_CONSOLE_ACTIVE -> session_state s <> OS_DISPLAY_SESSION_FALLBACK ->
  1 <= v <= 5 -> v <> OS_DISPLAY_SESSION_CONSOLE_ACTIVE -> v <> OS_DISPLAY_SESSION_FALLBACK -> session_ok (s <| session_state := v |>) l.
Proof. intros [A B C D] H1 H2 H3 H4 H5. constructor; cbn; [done | by intros [?|?] | intros _ _; by apply C | done]. Qed.
Lemma idle_ok s l v : session_ok s l -> v = OS_DISPLAY_SESSION_CONSOLE_ACTIVE \/ v = OS_DISPLAY_SESSION_FALLBACK -> session_ok ((clear_session_owners s) <| session_state := v |>) l.
Proof. intros [A B C D] Hv. constructor; cbn; [done | done | intros ? ?; by destruct Hv | sessions]. Qed.

Lemma run_display_ok c h : display_ok h -> alen (tokens h) < 2 ^ 32 - 1 -> display_ok (run_display c h).
Proof.
  intros [Ho Hs] Hl. destruct c as [owner|i|wp wg dp dg width height|g|g|wp wg g|p g|]; unfold run_display.
  - pose proof (begin_owners owner _ _ Ho Hl) as Hb. assert (session_ok (display_owner_begin owner (display h)).2 (begun h)) as Hs'.
    { unfold display_owner_begin. repeat case_match; by apply (session_only (display h)). }
    destruct (display_owner_begin owner (display h)). by constructor.
  - destruct (tokens h !! i) as [t|] eqn:Hi; [|by constructor]. pose proof (end_owners i t _ _ Ho Hi) as Hb. assert (session_ok (display_owner_end t (display h)).2 (begun h)) as Hs'.
    { unfold display_owner_end. repeat case_match; by apply (session_only (display h)). }
    destruct (display_owner_end t (display h)). by constructor.
  - pose proof (begin_session_ok wp wg dp dg width height _ _ Hs) as Hb. assert (owners_ok (display_session_begin wp wg dp dg width height (display h)).2 (tokens h)) as Ho'.
    { unfold display_session_begin. destruct (_ || (height =? 0)); [done|]. destruct (_ || negb _) eqn:Hn; [done|]. apply (owners_session (display h)); [done| | |].
      - cbn [snd]. set (s1 := _ <| session_generation := _ |>). by destruct (session_generation s1 =? 0).
      - cbn [snd]. set (s1 := _ <| session_generation := _ |>). by destruct (session_generation s1 =? 0).
      - intros _. right. bprop; done. }
    destruct (display_session_begin wp wg dp dg width height (display h)) as [[ok g] s']. by constructor.
  - constructor; cbn [display tokens begun]; unfold display_session_commit; destruct (_ && (g =? _)) eqn:Hc; try done; bprop.
    + apply (owners_session (display h)); try done. intros _. left. apply gui_iff. by left.
    + apply running_ok; (done || sessions).
  - constructor; cbn [display tokens begun]; unfold display_session_abort_acquire; destruct (_ && (g =? _)) eqn:Hc; try done; bprop.
    + by apply (owners_session (display h)).
    + apply (session_only ((clear_session_owners (display h)) <| session_state := OS_DISPLAY_SESSION_FALLBACK |>)); try done. apply idle_ok; [done | by right].
  - constructor; cbn [display tokens begun]; unfold display_session_begin_release; destruct (_ && (wg =? _)) eqn:Hc; try done; bprop.
    + by apply (owners_session (display h)).
    + apply running_ok; (done || sessions).
  - constructor; cbn [display tokens begun]; unfold display_session_begin_recovery; (destruct (_ || (g =? 0)); [done|]); destruct (_ && (_ || (session_state _ =? _))) eqn:Hc; try done.
    + by apply (owners_session (display h)).
    + apply andb_true_iff in Hc as [_ Hc%gui_iff]. apply running_ok; (done || sessions).
  - constructor; cbn [display tokens begun]; unfold display_session_finish_restore; destruct (_ || _) eqn:Hc; try done.
    + by apply (owners_session (display h)).
    + apply idle_ok; [done | by left].
Qed.
Lemma display_history_ok cs : alen cs < 2 ^ 32 - 1 -> display_ok (display_history cs) /\ alen (tokens (display_history cs)) <= alen cs.
Proof.
  unfold display_history. induction cs as [|c cs IH] using rev_ind; intros Hl.
  { split; [|done]. constructor; constructor; done. }
  unfold alen in *. rewrite foldl_app, length_app in *. cbn [foldl length] in *. destruct IH as [Hk Hlen]; [lia|]. split; [apply run_display_ok; [done | unfold alen; lia]|].
  set (h := foldl _ _ cs) in *. clearbody h. destruct c; unfold run_display; repeat case_match; cbn [tokens]; rewrite ?length_app, ?length_insert; cbn [length]; lia.
Qed.

(** C39: Over every history of fewer than 2^32 - 1 calls, the display has one kind of owner at a time: every token that is held belongs to the current owner and the depth is the
    number of tokens held; while a window server holds or takes the screen no terminal token is held and none is given; and the rights in a session are exactly
    those of the parties it was begun for: only the display server of the latest session that was begun may present, only while that session is active, and only
    its window server may release it, with the generation it was given. *)
Theorem display_histories_safe cs : alen cs < 2 ^ 32 - 1 -> let h := display_history cs in let s := display h in
  (forall i t, tokens h !! i = Some t -> t_acquired t <> 0 -> t_owner t = display_owner_current s /\ t_owner t <> DISPLAY_OWNER_NONE) /\
  owner_depth s = acount (fun t => nonzero (t_acquired t)) (tokens h) /\
  (display_session_terminal_scanout_allowed s = false -> (forall i t, tokens h !! i = Some t -> t_acquired t <> 0 -> t_owner t <> DISPLAY_OWNER_TERMINAL) /\
    t_acquired (display_owner_begin DISPLAY_OWNER_TERMINAL s).1 = 0) /\
  (forall pid generation, display_session_present_allowed pid generation s = true <->
    display_session_gui_active s = true /\ exists b rest, begun h = b :: rest /\ b_display b = (pid, generation)) /\
  (forall pid generation g, (display_session_begin_release pid generation g s).1 = 1 <->
    display_session_gui_active s = true /\ exists b rest, begun h = b :: rest /\ b_window b = (pid, generation) /\ b_generation b = g).
Proof.
  intros Hl h s. destruct (display_history_ok cs Hl) as [[[A B C D] [F G I J]] _]. fold h in A, B, C, D, F, G, I, J. fold s in A, B, C, D, F, G, I, J.
  assert (forall i t, tokens h !! i = Some t -> t_acquired t <> 0 -> t_owner t = owner_state s) as Hown.
  { intros i t Hi Ha. apply (Forall_lookup_1 _ _ _ _ B Hi). unfold holding, nonzero. by rewrite (proj2 (Z.eqb_neq _ 0)). }
  split; [|split; [exact A|split; [|split]]].
  - intros i t Hi Ha. rewrite (Hown i t Hi Ha). split; [done|]. intros Hn%C. rewrite A in Hn. apply none_holding in Hn. pose proof (Forall_lookup_1 _ _ _ _ Hn Hi) as Hh.
    unfold holding, nonzero in Hh. cbn in Hh. by rewrite (proj2 (Z.eqb_neq _ 0)) in Hh.
  - intros Hg. assert (gui_session (session_state s) = true) as Hgui by (apply gui_iff; unfold display_session_terminal_scanout_allowed in Hg; bprop; sessions). split.
    + intros i t Hi Ha. rewrite (Hown i t Hi Ha). by apply D.
    + unfold display_owner_begin. change (terminal_session (session_state s)) with (display_session_terminal_scanout_allowed s). by rewrite Hg.
  - intros pid generation. unfold display_session_present_allowed, display_session_gui_active, nonzero. split.
    + intros Hp. bprop. split; [by apply Z.eqb_eq|]. destruct I as (b & rest & Hb & _ & Hd & _); [sessions.. |]. exists b, rest. split; [done|]. rewrite Hd. congruence.
    + intros (Hg & b & rest & Hb & Hbd). bprop. destruct I as (b' & rest' & Hb' & _ & Hd & _ & _ & N1 & N2 & _); [sessions.. |]. rewrite Hb in Hb'. injection Hb' as <- <-.
      rewrite Hbd in Hd. injection Hd as -> ->. rewrite Hg, !Z.eqb_refl, (proj2 (Z.eqb_neq _ 0) N1), (proj2 (Z.eqb_neq _ 0) N2). done.
  - intros pid generation g. unfold display_session_begin_release, display_session_gui_active, nonzero. split.
    + destruct (_ && (generation =? _)) eqn:Hp; [|done]. intros _. bprop. split; [by apply Z.eqb_eq|]. destruct I as (b & rest & Hb & Hw & _); [sessions.. |]. exists b, rest. split; [done|].
      rewrite Hw. rewrite Hb in F. cbn in F. split; congruence.
    + intros (Hg & b & rest & Hb & Hw & Hbg). bprop. destruct I as (b' & rest' & Hb' & Hw' & _ & _ & _ & _ & _ & Ng); [sessions.. |]. rewrite Hb in Hb'. injection Hb' as <- <-.
      rewrite Hw in Hw'. injection Hw' as -> ->. rewrite Hb in F. cbn in F. rewrite Hg, F, Hbg, !Z.eqb_refl. rewrite Hbg in Ng. by rewrite (proj2 (Z.eqb_neq _ 0) Ng).
Qed.
Lemma display_histories_safe_witness :
  let h := display_history [call_begin 1; call_session_begin 7 1 8 1 640 480; call_end 0; call_session_begin 7 1 8 1 640 480; call_commit 1; call_begin 1; call_begin 2] in
  display_session_present_allowed 8 1 (display h) = true /\ (exists b rest, begun h = b :: rest /\ b_display b = (8, 1)).
Proof.
  intros h. assert (display_session_present_allowed 8 1 (display h) = true) as Hp by reflexivity. split; [done|].
  eapply (display_histories_safe [call_begin 1; call_session_begin 7 1 8 1 640 480; call_end 0; call_session_begin 7 1 8 1 640 480; call_commit 1; call_begin 1; call_begin 2] ltac:(done)).
  exact Hp.
Defined.

(** A session always ends at the console when one of its servers dies.  In every reachable state in which the screen is being taken or held, the end of a
    process starts the recovery exactly when the process is the window server or the display server of the session; finishing it leaves the console active and
    the session without parties, and as soon as the tokens still held are given back the terminal gets one. *)
Theorem display_session_recovers cs pid generation : alen cs < 2 ^ 32 - 1 -> let h := display_history cs in let s := display h in
  display_session_terminal_scanout_allowed s = false ->
  ((display_session_begin_recovery pid generation s).1 = 1 <-> exists b rest, begun h = b :: rest /\ (b_window b = (pid, generation) \/ b_display b = (pid, generation))) /\
  ((display_session_begin_recovery pid generation s).1 = 1 -> let s' := display_session_finish_restore (display_session_begin_recovery pid generation s).2 in
    session_state s' = OS_DISPLAY_SESSION_CONSOLE_ACTIVE /\ session_window_pid s' = 0 /\ session_display_pid s' = 0 /\ owner_state s' = owner_state s /\
    (owner_state s = DISPLAY_OWNER_NONE -> t_acquired (display_owner_begin DISPLAY_OWNER_TERMINAL s').1 = 1)).
Proof.
  intros Hl h s Hg. destruct (display_history_ok cs Hl) as [[_ [F G I J]] _]. fold h in F, G, I, J. fold s in F, G, I, J.
  assert (session_state s = OS_DISPLAY_SESSION_GUI_ACQUIRING \/ session_state s = OS_DISPLAY_SESSION_GUI_ACTIVE) as Hgui by (unfold display_session_terminal_scanout_allowed in Hg; bprop; sessions).
  destruct I as (b & rest & Hb & Hw & Hd & N1 & N2 & N3 & N4 & _); [sessions.. |]. unfold display_session_begin_recovery.
  change ((session_state s =? OS_DISPLAY_SESSION_GUI_ACQUIRING) || (session_state s =? OS_DISPLAY_SESSION_GUI_ACTIVE)) with (gui_session (session_state s)).
  rewrite (proj2 (gui_iff _) Hgui), andb_true_r. split.
  - split.
    + destruct (_ || (generation =? 0)); [done|]. destruct (_ || _) eqn:Ho; [|done]. intros _. exists b, rest. split; [done|]. rewrite Hw, Hd. bprop; [left | right]; congruence.
    + intros (b' & rest' & Hb' & Hp). rewrite Hb in Hb'. injection Hb' as <- <-. rewrite Hw, Hd in Hp.
      destruct Hp as [[= <- <-]|[= <- <-]]; rewrite (proj2 (Z.eqb_neq _ 0)), (proj2 (Z.eqb_neq _ 0)), !Z.eqb_refl by done; cbn; by rewrite ?orb_true_r.
  - destruct (_ || (generation =? 0)); [done|]. destruct (_ || _); [|done]. intros _. cbn [snd]. split_and!; try done.
    intros Hn. unfold display_owner_begin, display_session_finish_restore. cbn. by rewrite Hn.
Qed.
Lemma display_session_recovers_witness : let s := display (display_history [call_session_begin 7 1 8 1 640 480; call_commit 1; call_begin 2]) in
  session_state (display_session_finish_restore (display_session_begin_recovery 8 1 s).2) = OS_DISPLAY_SESSION_CONSOLE_ACTIVE.
Proof.
  apply (display_session_recovers [call_session_begin 7 1 8 1 640 480; call_commit 1; call_begin 2] 8 1); [done | reflexivity | reflexivity].
Defined.
