(* ===== verification/KernelObjects.v ===== *)
(** * Shared memory and graphics surface objects ([kernel/handle/kernel_objects.cpp])

    Two static tables of reference-counted objects and the operations that
    create them with a first handle, clone a handle into another table, close
    a handle and release a whole table.  The state is both tables together with
    the handle tables of all processes; a pointer to an object is its index,
    a pointer to a handle copy an [option]. *)

From S2P Require Import Prelude KernelEnv Spinlock Results Handle Graphics2d.

Definition KERNEL_SHARED_MEMORY_MAX_OBJECTS : Z := 16.
Definition KERNEL_SHARED_MEMORY_MAX_PAGES : Z := 64.
Definition KERNEL_GRAPHICS_SURFACE_MAX_OBJECTS : Z := 16.
Definition KERNEL_GRAPHICS_SURFACE_MAX_PIXELS : Z := 1920 * 1080.
Definition VM_PAGE_SIZE : Z := 4096.
Definition KERNEL_OBJECT_OK : Z := 0.
Definition KERNEL_OBJECT_ERR_INVALID : Z := -2.
Definition KERNEL_OBJECT_ERR_NOT_FOUND : Z := -12.

(** The static lock [object_lock]; handle tables have positive addresses. *)
Definition object_lock : lock_ref := -1.

(** The heap, the surface backing store and the synchronisation objects, as far
    as this file calls them. *)
Class ObjectEnv (E : Type) := {
  kmalloc : Z -> E -> Z * E;
  kfree : Z -> E -> E;
  load8 : Z -> E -> Z;
  store8 : Z -> Z -> E -> E;
  (** pixels and page count when it succeeds *)
  kernel_graphics_surface_backing_allocate : Z -> Z -> E -> option (Z * Z) * E;
  kernel_graphics_surface_backing_release : Z -> E -> E;
  kernel_graphics_surface_backing_init : E -> E;
  kernel_sync_init : E -> E;
  kernel_sync_release_handle_object : KernelHandle -> E -> E;
}.

Record SharedMemoryObject := {
  so_active : Z; so_generation : Z; so_owner_pid : Z; so_ref_count : Z; so_size : Z;
  so_page_count : Z; so_rights : Z; so_bytes : Z }.
#[export] Instance SharedMemoryObject_settable : Settable SharedMemoryObject :=
  {| eta_expand o := {| so_active := so_active o; so_generation := so_generation o;
     so_owner_pid := so_owner_pid o; so_ref_count := so_ref_count o; so_size := so_size o;
     so_page_count := so_page_count o; so_rights := so_rights o; so_bytes := so_bytes o |} |}.
#[export] Instance SharedMemoryObject_inhabited : Inhabited SharedMemoryObject :=
  populate {| so_active := 0; so_generation := 0; so_owner_pid := 0; so_ref_count := 0;
              so_size := 0; so_page_count := 0; so_rights := 0; so_bytes := 0 |}.

Record GraphicsSurfaceObject := {
  go_active : Z; go_generation : Z; go_owner_pid : Z; go_ref_count : Z; go_byte_size : Z;
  go_page_count : Z; go_backing_slot : Z; go_surface : GraphicsSurface }.
#[export] Instance GraphicsSurfaceObject_settable : Settable GraphicsSurfaceObject :=
  {| eta_expand o := {| go_active := go_active o; go_generation := go_generation o;
     go_owner_pid := go_owner_pid o; go_ref_count := go_ref_count o;
     go_byte_size := go_byte_size o; go_page_count := go_page_count o;
     go_backing_slot := go_backing_slot o; go_surface := go_surface o |} |}.
#[export] Instance GraphicsSurfaceObject_inhabited : Inhabited GraphicsSurfaceObject :=
  populate {| go_active := 0; go_generation := 0; go_owner_pid := 0; go_ref_count := 0;
              go_byte_size := 0; go_page_count := 0; go_backing_slot := 0;
              go_surface := inhabitant |}.

Record ObjState := {
  shared_objects : list SharedMemoryObject;
  surface_objects : list GraphicsSurfaceObject;
  tables : Tables;
}.
#[export] Instance ObjState_settable : Settable ObjState := {| eta_expand s := {|
  shared_objects := shared_objects s; surface_objects := surface_objects s;
  tables := tables s |} |}.

Definition put_shared (i : Z) (o : SharedMemoryObject) (s : ObjState) : ObjState :=
  s <| shared_objects := aset (shared_objects s) i o |>.
Definition put_surface (i : Z) (o : GraphicsSurfaceObject) (s : ObjState) : ObjState :=
  s <| surface_objects := aset (surface_objects s) i o |>.

(** ** Object identifiers *)

Definition make_object_id (index gen : Z) : Z :=
  Z.lor (u64 (Z.shiftl gen 32)) (u32 (index + 1)).

Definition decode_object_id (object_id max_index : Z) : option (Z * Z) :=
  if Z.land object_id 0xFFFFFFFF =? 0 then None
  else
    let index := u32 (u32 (Z.land object_id 0xFFFFFFFF) - 1) in
    let gen := u32 (Z.shiftr object_id 32) in
    if (max_index <=? index) || (gen =? 0) then None else Some (index, gen).

Definition next_object_generation (gen : Z) : Z :=
  let gen := u32 (gen + 1) in if gen =? 0 then 1 else gen.

Definition shared_from_id (object_id : Z) (s : ObjState) : option Z :=
  match decode_object_id object_id KERNEL_SHARED_MEMORY_MAX_OBJECTS with
  | None => None
  | Some (index, gen) =>
    let o := aget (shared_objects s) index in
    if (so_active o =? 0) || negb (so_generation o =? gen) then None else Some index
  end.

Definition surface_from_id (object_id : Z) (s : ObjState) : option Z :=
  match decode_object_id object_id KERNEL_GRAPHICS_SURFACE_MAX_OBJECTS with
  | None => None
  | Some (index, gen) =>
    let o := aget (surface_objects s) index in
    if (go_active o =? 0) || negb (go_generation o =? gen) then None else Some index
  end.

(** ** Dropping a reference *)

(** The new state of the object and the memory to free (0 for none). *)
Definition release_shared_locked (index : option Z) (s : ObjState) : Z * ObjState :=
  match index with
  | None => (0, s)
  | Some i =>
    let o := aget (shared_objects s) i in
    if (so_active o =? 0) || (so_ref_count o =? 0) then (0, s)
    else
      let o := o <| so_ref_count := so_ref_count o - 1 |> in
      if nonzero (so_ref_count o) then (0, put_shared i o s)
      else
        (so_bytes o,
         put_shared i (o <| so_active := 0 |> <| so_owner_pid := 0 |> <| so_size := 0 |>
                         <| so_page_count := 0 |> <| so_rights := 0 |> <| so_bytes := 0 |>) s)
  end.

(** The backing slot to release, if any. *)
Definition release_surface_locked (index : option Z) (s : ObjState) : option Z * ObjState :=
  match index with
  | None => (None, s)
  | Some i =>
    let o := aget (surface_objects s) i in
    if (go_active o =? 0) || (go_ref_count o =? 0) then (None, s)
    else
      let o := o <| go_ref_count := go_ref_count o - 1 |> in
      if nonzero (go_ref_count o) then (None, put_surface i o s)
      else
        (Some (go_backing_slot o),
         put_surface i (o <| go_active := 0 |> <| go_owner_pid := 0 |> <| go_byte_size := 0 |>
                          <| go_page_count := 0 |> <| go_backing_slot := 0 |>
                          <| go_surface := (gfx_surface_init 0 0 0 0 OS64_PIXEL_FORMAT_RGB 0).2 |>) s)
  end.

Definition is_refcounted_object_type (ty : Z) : bool :=
  (ty =? KERNEL_HANDLE_TYPE_SHARED_MEMORY) || (ty =? KERNEL_HANDLE_TYPE_GRAPHICS_SURFACE).

(** The body of [kernel_object_retain_handle_object] under the lock. *)
Definition retain_body (h : KernelHandle) (s : ObjState) : Z * ObjState :=
  if type h =? KERNEL_HANDLE_TYPE_SHARED_MEMORY then
    match shared_from_id (object h) s with
    | None => (0, s)
    | Some i => let o := aget (shared_objects s) i in
                (1, put_shared i (o <| so_ref_count := u32 (so_ref_count o + 1) |>) s)
    end
  else if type h =? KERNEL_HANDLE_TYPE_GRAPHICS_SURFACE then
    match surface_from_id (object h) s with
    | None => (0, s)
    | Some i => let o := aget (surface_objects s) i in
                (1, put_surface i (o <| go_ref_count := u32 (go_ref_count o + 1) |>) s)
    end
  else (0, s).

(** [KernelHandle failed = {}] with its three fields set. *)
Definition failed_handle (ty obj : Z) : KernelHandle :=
  inhabitant <| active := 1 |> <| type := ty |> <| object := obj |>.

(** The first free slot of a table of objects. *)
Definition free_shared (s : ObjState) : option Z :=
  find_first (fun i => so_active (aget (shared_objects s) i) =? 0) 0
    (Z.to_nat KERNEL_SHARED_MEMORY_MAX_OBJECTS).
Definition free_surface (s : ObjState) : option Z :=
  find_first (fun i => go_active (aget (surface_objects s) i) =? 0) 0
    (Z.to_nat KERNEL_GRAPHICS_SURFACE_MAX_OBJECTS).

Record KernelSharedMemoryInfo := {
  mi_owner_pid : Z; mi_generation : Z; mi_size : Z; mi_page_count : Z; mi_rights : Z;
  mi_ref_count : Z }.
Record KernelGraphicsSurfaceInfo := {
  gi_owner_pid : Z; gi_generation : Z; gi_width : Z; gi_height : Z; gi_stride_pixels : Z;
  gi_pixel_format : Z; gi_byte_size : Z; gi_ref_count : Z }.
Record KernelObjectStats := {
  active_shared_memory : Z; active_surfaces : Z; surface_pages : Z;
  shared_memory_bytes : Z; surface_bytes : Z; surface_backing_bytes : Z }.
#[export] Instance KernelObjectStats_settable : Settable KernelObjectStats :=
  {| eta_expand o := {| active_shared_memory := active_shared_memory o;
     active_surfaces := active_surfaces o; surface_pages := surface_pages o;
     shared_memory_bytes := shared_memory_bytes o; surface_bytes := surface_bytes o;
     surface_backing_bytes := surface_backing_bytes o |} |}.

Section Operations.
Context {E : Type} `{KernelEnv E} `{ObjectEnv E}.

(** A handle operation on the tables of the state. *)
Definition on_tables {A} (f : Tables -> E -> A * Tables * E) (s : ObjState) (e : E)
    : A * ObjState * E :=
  let '(a, ts, e) := f (tables s) e in (a, s <| tables := ts |>, e).

Definition zero_bytes (bytes size : Z) (e : E) : E :=
  if bytes =? 0 then e else for_range 0 size (fun i e => store8 (bytes + i) 0 e) e.

Definition kernel_objects_init (s : ObjState) (e : E) : ObjState * E :=
  let e := kernel_spinlock_setup object_lock KERNEL_LOCK_CLASS_HANDLE e in
  let '(s, e) := for_range 0 KERNEL_SHARED_MEMORY_MAX_OBJECTS (fun i '(s, e) =>
    let o := aget (shared_objects s) i in
    let e := if nonzero (so_bytes o) then kfree (so_bytes o) e else e in
    (put_shared i (o <| so_active := 0 |> <| so_owner_pid := 0 |> <| so_ref_count := 0 |>
       <| so_size := 0 |> <| so_page_count := 0 |> <| so_rights := 0 |> <| so_bytes := 0 |>
       <| so_generation := 0 |>) s, e)) (s, e) in
  let '(s, e) := for_range 0 KERNEL_GRAPHICS_SURFACE_MAX_OBJECTS (fun i '(s, e) =>
    let o := aget (surface_objects s) i in
    let e := if nonzero (go_active o)
             then kernel_graphics_surface_backing_release (go_backing_slot o) e else e in
    (put_surface i (o <| go_active := 0 |> <| go_owner_pid := 0 |> <| go_ref_count := 0 |>
       <| go_byte_size := 0 |> <| go_page_count := 0 |> <| go_backing_slot := 0 |>
       <| go_surface := (gfx_surface_init 0 0 0 0 OS64_PIXEL_FORMAT_RGB 0).2 |>
       <| go_generation := 0 |>) s, e)) (s, e) in
  let e := kernel_graphics_surface_backing_init e in
  (s, kernel_sync_init e).

Definition stats_shared (s : ObjState) (i : Z) (st : KernelObjectStats) : KernelObjectStats :=
  let o := aget (shared_objects s) i in
  if nonzero (so_active o) then
    st <| active_shared_memory := u32 (active_shared_memory st + 1) |>
       <| shared_memory_bytes := u64 (shared_memory_bytes st + so_page_count o * VM_PAGE_SIZE) |>
  else st.
Definition stats_surface (s : ObjState) (i : Z) (st : KernelObjectStats) : KernelObjectStats :=
  let o := aget (surface_objects s) i in
  if nonzero (go_active o) then
    st <| active_surfaces := u32 (active_surfaces st + 1) |>
       <| surface_pages := u32 (surface_pages st + go_page_count o) |>
       <| surface_bytes := u64 (surface_bytes st + go_byte_size o) |>
       <| surface_backing_bytes := u64 (surface_backing_bytes st + go_page_count o * VM_PAGE_SIZE) |>
  else st.

Definition kernel_object_get_stats (s : ObjState) (e : E) : KernelObjectStats * ObjState * E :=
  let zero := {| active_shared_memory := 0; active_surfaces := 0; surface_pages := 0;
    shared_memory_bytes := 0; surface_bytes := 0; surface_backing_bytes := 0 |} in
  with_lock object_lock zero (fun s =>
    (for_range 0 KERNEL_GRAPHICS_SURFACE_MAX_OBJECTS (stats_surface s)
       (for_range 0 KERNEL_SHARED_MEMORY_MAX_OBJECTS (stats_shared s) zero), s)) s e.

(** ** References *)

Definition kernel_object_retain_handle_object (h : option KernelHandle) (s : ObjState) (e : E)
    : Z * ObjState * E :=
  match h with
  | None => (0, s, e)
  | Some h => if active h =? 0 then (0, s, e) else with_lock object_lock 0 (retain_body h) s e
  end.

Definition kernel_object_release_handle_object (h : option KernelHandle) (s : ObjState) (e : E)
    : ObjState * E :=
  match h with
  | None => (s, e)
  | Some h =>
    if type h =? KERNEL_HANDLE_TYPE_SHARED_MEMORY then
      let '(bytes, s, e) := with_lock object_lock 0
        (fun s => release_shared_locked (shared_from_id (object h) s) s) s e in
      (s, if nonzero bytes then kfree bytes e else e)
    else if type h =? KERNEL_HANDLE_TYPE_GRAPHICS_SURFACE then
      let '(slot, s, e) := with_lock object_lock None
        (fun s => release_surface_locked (surface_from_id (object h) s) s) s e in
      (s, match slot with Some b => kernel_graphics_surface_backing_release b e | None => e end)
    else (s, kernel_sync_release_handle_object h e)
  end.

(** The first handle of a new object, or the object released again. *)
Definition first_handle (table ty r object_id byte_size : Z) (s : ObjState) (e : E)
    : Z * ObjState * E :=
  let '(handle, s, e) := on_tables (kernel_handle_alloc table ty r object_id byte_size) s e in
  if handle =? 0 then
    let '(s, e) := kernel_object_release_handle_object (Some (failed_handle ty object_id)) s e in
    (0, s, e)
  else (handle, s, e).

(** ** Shared memory *)

(** The locked part of the creation: the new object's identifier, 0 for none. *)
Definition new_shared_body (owner_pid size page_count r bytes : Z) (s : ObjState) : Z * ObjState :=
  match free_shared s with
  | None => (0, s)
  | Some i =>
    let gen := next_object_generation (so_generation (aget (shared_objects s) i)) in
    (make_object_id i gen,
     put_shared i {| so_active := 1; so_generation := gen; so_owner_pid := owner_pid;
       so_ref_count := 1; so_size := size; so_page_count := page_count; so_rights := r;
       so_bytes := bytes |} s)
  end.

Definition kernel_shared_memory_create (table owner_pid size r : Z) (s : ObjState) (e : E)
    : Z * ObjState * E :=
  if (table =? 0) || (size =? 0) then (0, s, e)
  else
    let page_count := u32 ((size + VM_PAGE_SIZE - 1) / VM_PAGE_SIZE) in
    if (page_count =? 0) || (KERNEL_SHARED_MEMORY_MAX_PAGES <? page_count) then (0, s, e)
    else
      let '(fault, e) := kernel_fault_injection_should_fail KERNEL_FAULT_POINT_SHARED_MEMORY e in
      if fault then (0, s, e)
      else
        let byte_size := u32 (page_count * VM_PAGE_SIZE) in
        let '(bytes, e) := kmalloc byte_size e in
        if bytes =? 0 then (0, s, e)
        else
          let e := zero_bytes bytes byte_size e in
          let '(object_id, s, e) := with_lock object_lock 0
            (new_shared_body owner_pid size page_count r bytes) s e in
          if object_id =? 0 then (0, s, kfree bytes e)
          else first_handle table KERNEL_HANDLE_TYPE_SHARED_MEMORY r object_id byte_size s e.

Definition kernel_shared_memory_get_info (object_id : Z) (info : bool) (s : ObjState) (e : E)
    : (Z * option KernelSharedMemoryInfo) * ObjState * E :=
  if negb info then ((KERNEL_OBJECT_ERR_NOT_FOUND, None), s, e)
  else with_lock object_lock (KERNEL_OBJECT_ERR_NOT_FOUND, None) (fun s =>
    match shared_from_id object_id s with
    | None => ((KERNEL_OBJECT_ERR_NOT_FOUND, None), s)
    | Some i => let o := aget (shared_objects s) i in
      ((KERNEL_OBJECT_OK, Some {| mi_owner_pid := so_owner_pid o; mi_generation := so_generation o;
          mi_size := so_size o; mi_page_count := so_page_count o; mi_rights := so_rights o;
          mi_ref_count := so_ref_count o |}), s)
    end) s e.

(** The bounds test of read and write. *)
Definition shared_range (object_id offset size : Z) (s : ObjState) : option Z :=
  match shared_from_id object_id s with
  | None => None
  | Some i =>
    let o := aget (shared_objects s) i in
    if (so_size o <? offset) || (so_size o - offset <? size) then None else Some (so_bytes o)
  end.

(** The bytes read are in the answer. *)
Definition kernel_shared_memory_read (object_id offset : Z) (buffer : bool) (size : Z)
    (s : ObjState) (e : E) : (Z * list Z) * ObjState * E :=
  if negb buffer then ((KERNEL_OBJECT_ERR_INVALID, []), s, e)
  else
    let '(ok, e) := kernel_spinlock_acquire object_lock e in
    if negb ok then ((KERNEL_OBJECT_ERR_INVALID, []), s, e)
    else match shared_range object_id offset size s with
         | None => ((KERNEL_OBJECT_ERR_INVALID, []), s, kernel_spinlock_release object_lock e)
         | Some bytes =>
           let out := (fun i => load8 (bytes + (offset + i)) e) <$> seqZ 0 size in
           ((KERNEL_OBJECT_OK, out), s, kernel_spinlock_release object_lock e)
         end.

Definition kernel_shared_memory_write (object_id offset : Z) (buffer : option (list Z)) (size : Z)
    (s : ObjState) (e : E) : Z * ObjState * E :=
  match buffer with
  | None => (KERNEL_OBJECT_ERR_INVALID, s, e)
  | Some data =>
    let '(ok, e) := kernel_spinlock_acquire object_lock e in
    if negb ok then (KERNEL_OBJECT_ERR_INVALID, s, e)
    else match shared_range object_id offset size s with
         | None => (KERNEL_OBJECT_ERR_INVALID, s, kernel_spinlock_release object_lock e)
         | Some bytes =>
           let e := for_range 0 size (fun i e => store8 (bytes + (offset + i)) (aget data i) e) e in
           (KERNEL_OBJECT_OK, s, kernel_spinlock_release object_lock e)
         end
  end.

(** ** Surfaces *)

(** Reserving a slot: [active = 2]. *)
Definition reserve_surface_body (s : ObjState) : option Z * ObjState :=
  match free_surface s with
  | None => (None, s)
  | Some i => (Some i, put_surface i ((aget (surface_objects s) i) <| go_active := 2 |>) s)
  end.

(** [object->active = 0] when the lock can be taken. *)
Definition unreserve (i : Z) (s : ObjState) (e : E) : ObjState * E :=
  let '(_, s, e) := with_lock object_lock tt (fun s =>
    (tt, put_surface i ((aget (surface_objects s) i) <| go_active := 0 |>) s)) s e in (s, e).

Definition commit_surface_body (i owner_pid byte_size page_count : Z) (surface : GraphicsSurface)
    (s : ObjState) : Z * ObjState :=
  let o := aget (surface_objects s) i in
  let gen := next_object_generation (go_generation o) in
  (make_object_id i gen,
   put_surface i {| go_active := 1; go_generation := gen; go_owner_pid := owner_pid;
     go_ref_count := 1; go_byte_size := byte_size; go_page_count := page_count;
     go_backing_slot := i; go_surface := surface |} s).

Definition kernel_graphics_surface_create (table owner_pid w h fmt r : Z) (s : ObjState) (e : E)
    : Z * ObjState * E :=
  if (table =? 0) || (w =? 0) || (h =? 0)
     || (negb (fmt =? OS64_PIXEL_FORMAT_RGB) && negb (fmt =? OS64_PIXEL_FORMAT_BGR))
     || (KERNEL_GRAPHICS_SURFACE_MAX_PIXELS / h <? w) then (0, s, e)
  else
    let pixel_count := u32 (w * h) in
    if KERNEL_GRAPHICS_SURFACE_MAX_PIXELS <? pixel_count then (0, s, e)
    else
      let byte_size := u32 (pixel_count * 4) in
      let '(reserved, s, e) := with_lock object_lock None reserve_surface_body s e in
      match reserved with
      | None => (0, s, e)
      | Some i =>
        let '(backing, e) := kernel_graphics_surface_backing_allocate i byte_size e in
        match backing with
        | None =>
          let e := kernel_graphics_surface_backing_release i e in
          let '(s, e) := unreserve i s e in (0, s, e)
        | Some (px, page_count) =>
          let '(ok, surface) := gfx_surface_init px w h w fmt GFX_SURFACE_FLAG_PAGE_BACKED in
          if ok =? 0 then
            let e := kernel_graphics_surface_backing_release i e in
            let '(s, e) := unreserve i s e in (0, s, e)
          else
            let '(granted, e) := kernel_spinlock_acquire object_lock e in
            if negb granted then
              let e := kernel_graphics_surface_backing_release i e in
              (0, put_surface i ((aget (surface_objects s) i) <| go_active := 0 |>) s, e)
            else
              let '(object_id, s) := commit_surface_body i owner_pid byte_size page_count surface s in
              let e := kernel_spinlock_release object_lock e in
              first_handle table KERNEL_HANDLE_TYPE_GRAPHICS_SURFACE r object_id byte_size s e
        end
      end.

Definition kernel_graphics_surface_get_info (object_id : Z) (info : bool) (s : ObjState) (e : E)
    : (Z * option KernelGraphicsSurfaceInfo) * ObjState * E :=
  if negb info then ((KERNEL_OBJECT_ERR_NOT_FOUND, None), s, e)
  else with_lock object_lock (KERNEL_OBJECT_ERR_NOT_FOUND, None) (fun s =>
    match surface_from_id object_id s with
    | None => ((KERNEL_OBJECT_ERR_NOT_FOUND, None), s)
    | Some i => let o := aget (surface_objects s) i in let g := go_surface o in
      ((KERNEL_OBJECT_OK, Some {| gi_owner_pid := go_owner_pid o; gi_generation := go_generation o;
          gi_width := width g; gi_height := height g; gi_stride_pixels := stride_pixels g;
          gi_pixel_format := pixel_format g; gi_byte_size := go_byte_size o;
          gi_ref_count := go_ref_count o |}), s)
    end) s e.

(** A pointer to the surface of an object is its index. *)
Definition kernel_graphics_surface_get (object_id : Z) (s : ObjState) (e : E)
    : option Z * ObjState * E :=
  with_lock object_lock None (fun s => (surface_from_id object_id s, s)) s e.

Definition kernel_graphics_surface_get_backing (object_id : Z) (outputs : bool)
    (s : ObjState) (e : E) : (Z * option (Z * Z * Z)) * ObjState * E :=
  if negb outputs then ((KERNEL_OBJECT_ERR_INVALID, None), s, e)
  else with_lock object_lock (KERNEL_OBJECT_ERR_INVALID, None) (fun s =>
    match surface_from_id object_id s with
    | None => ((KERNEL_OBJECT_ERR_INVALID, None), s)
    | Some i => let o := aget (surface_objects s) i in
      ((KERNEL_OBJECT_OK, Some (go_backing_slot o, go_page_count o, go_byte_size o)), s)
    end) s e.

(** ** Handles of objects *)

Definition kernel_object_clone_handle_with_rights (target_table : Z) (source : option KernelHandle)
    (r : Z) (s : ObjState) (e : E) : Z * ObjState * E :=
  match source with
  | None => (0, s, e)
  | Some src =>
    if (target_table =? 0) || (active src =? 0) then (0, s, e)
    else if (r =? 0) || nonzero (Z.land r (not32 (rights src))) then (0, s, e)
    else if negb (is_refcounted_object_type (type src)) then (0, s, e)
    else
      let '(ok, s, e) := kernel_object_retain_handle_object source s e in
      if ok =? 0 then (0, s, e)
      else
        let '(cloned, s, e) := on_tables
          (kernel_handle_alloc target_table (type src) r (object src) (extra src)) s e in
        if cloned =? 0 then
          let '(s, e) := kernel_object_release_handle_object source s e in (cloned, s, e)
        else (cloned, s, e)
  end.

Definition kernel_object_clone_handle (target_table : Z) (source : option KernelHandle)
    (s : ObjState) (e : E) : Z * ObjState * E :=
  kernel_object_clone_handle_with_rights target_table source
    (match source with Some src => rights src | None => 0 end) s e.

(** The closed entry is in the answer. *)
Definition kernel_object_close_handle (table handle : Z) (s : ObjState) (e : E)
    : (Z * option KernelHandle) * ObjState * E :=
  let '(r, closed, s, e) := on_tables (kernel_handle_close table handle) s e in
  if r =? 0 then ((0, None), s, e)
  else
    let '(s, e) := kernel_object_release_handle_object closed s e in ((1, closed), s, e).

Definition kernel_object_release_table (table : Z) (s : ObjState) (e : E) : Z * ObjState * E :=
  if table =? 0 then (0, s, e)
  else
    let '(detached, s, e) := on_tables
      (kernel_handle_detach_all table true KERNEL_HANDLE_TABLE_SIZE) s e in
    let '(s, e) := foldl (fun '(s, e) h =>
      kernel_object_release_handle_object (Some h) s e) (s, e) detached in
    (Z.of_nat (length detached), s, e).
End Operations.
