(* ===== verification/KernelObjectsSpec.v ===== *)
(** * Reference counting of kernel objects

    The reference count of every live object is the number of open handles, over
    all handle tables, that name it: an object lives exactly as long as some
    handle names it, and no handle names a dead object.  Copies of handles that
    are on their way (retained but not yet in a table, or taken out of a table
    and not yet released) are counted as pending references. *)

From S2P Require Import Prelude KernelEnv Results Handle HandleSpec Graphics2d KernelObjects.

(** ** Identifiers *)

Lemma object_id_value index gen : 0 <= index < 2 ^ 32 - 1 -> 0 <= gen < 2 ^ 32 ->
  make_object_id index gen = gen * 2 ^ 32 + (index + 1).
Proof.
  intros Hi Hg. unfold make_object_id. rewrite Z.shiftl_mul_pow2 by lia.
  rewrite (u64_small (gen * 2 ^ 32)) by (unfold is_u64; lia). unwrap.
  by rewrite lor_shifted by lia.
Qed.

Lemma decode_object_id_make index gen n : 0 <= index < n -> n <= 16 -> 0 < gen < 2 ^ 32 ->
  decode_object_id (make_object_id index gen) n = Some (index, gen).
Proof.
  intros Hi Hn Hg. rewrite object_id_value by lia. unfold decode_object_id.
  change 0xFFFFFFFF with (2 ^ 32 - 1). rewrite land_ones_mod by lia.
  rewrite Z.shiftr_div_pow2 by lia.
  rewrite (Z.add_comm (gen * 2 ^ 32)), Z.mod_add, Z.div_add, Z.mod_small, Z.div_small by lia.
  unwrap. replace (index + 1 - 1) with index by lia.
  rewrite (proj2 (Z.eqb_neq _ _)), (proj2 (Z.leb_gt _ _)), (proj2 (Z.eqb_neq _ _)) by lia. done.
Qed.

Lemma decode_object_id_Some id n index gen : decode_object_id id n = Some (index, gen) ->
  0 <= index < n /\ 0 < gen < 2 ^ 32.
Proof.
  unfold decode_object_id. if_eqn H1; [done|]. if_eqn H2; [done|].
  apply orb_false_iff in H2 as [H2 H3]. apply Z.leb_gt in H2. apply Z.eqb_neq in H3.
  intros [= <- <-]. pose proof (u32_range (Z.shiftr id 32)) as [? ?].
  pose proof (u32_range (u32 (Z.land id 4294967295) - 1)) as [? ?]. lia.
Qed.

Lemma make_object_id_inj i g i' g' : 0 <= i < 16 -> 0 <= i' < 16 ->
  0 <= g < 2 ^ 32 -> 0 <= g' < 2 ^ 32 -> make_object_id i g = make_object_id i' g' ->
  i = i' /\ g = g'.
Proof.
  intros Hi Hi' Hg Hg'. rewrite !object_id_value by lia. lia.
Qed.

(** ** Both kinds of objects seen alike *)

Record View := { v_active : Z; v_gen : Z; v_refs : Z }.
#[export] Instance View_settable : Settable View := {| eta_expand v := {|
  v_active := v_active v; v_gen := v_gen v; v_refs := v_refs v |} |}.
#[export] Instance View_inhabited : Inhabited View :=
  populate {| v_active := 0; v_gen := 0; v_refs := 0 |}.

Definition shared_view (o : SharedMemoryObject) : View :=
  {| v_active := so_active o; v_gen := so_generation o; v_refs := so_ref_count o |}.
Definition surface_view (o : GraphicsSurfaceObject) : View :=
  {| v_active := go_active o; v_gen := go_generation o; v_refs := go_ref_count o |}.

(** The object an identifier names. *)
Definition view_from_id (V : Z -> View) (id : Z) : option Z :=
  match decode_object_id id 16 with
  | None => None
  | Some (index, gen) =>
    if (v_active (V index) =? 0) || negb (v_gen (V index) =? gen) then None else Some index
  end.

Definition views (ty : Z) (s : ObjState) (i : Z) : View :=
  if ty =? KERNEL_HANDLE_TYPE_SHARED_MEMORY then shared_view (aget (shared_objects s) i)
  else surface_view (aget (surface_objects s) i).

(** ** Counting handles *)

Definition names (ty id : Z) (h : KernelHandle) : bool := (type h =? ty) && (object h =? id).
Definition is_ref (ty id : Z) (h : KernelHandle) : bool := is_active h && names ty id h.
Definition refs_in (ty id : Z) (t : KernelHandleTable) : Z := acount (is_ref ty id) (entries t).
Definition refs (ty id : Z) (ts : Tables) : Z :=
  map_fold (fun _ t n => refs_in ty id t + n) 0 ts.
Definition pending (ty id : Z) (pend : list KernelHandle) : Z := acount (names ty id) pend.

Lemma refs_insert_new ty id ts k t : ts !! k = None ->
  refs ty id (<[k := t]> ts) = refs_in ty id t + refs ty id ts.
Proof.
  intros Hk. unfold refs. rewrite map_fold_insert_L; [done | intros; lia | done].
Qed.

Lemma refs_update ty id ts k t t' : ts !! k = Some t ->
  refs ty id (<[k := t']> ts) = refs ty id ts - refs_in ty id t + refs_in ty id t'.
Proof.
  intros Hk. rewrite <- insert_delete_eq. rewrite <- (insert_delete_id ts k t Hk) at 2.
  rewrite !refs_insert_new by apply lookup_delete_eq. lia.
Qed.

Lemma refs_bounds ty id ts : (forall k t, ts !! k = Some t -> table_inv t) ->
  0 <= refs ty id ts <= 32 * Z.of_nat (size ts).
Proof.
  induction ts as [|k t ts Hk IH] using map_ind; intros Hall.
  { unfold refs. rewrite map_fold_empty, map_size_empty. done. }
  rewrite refs_insert_new, map_size_insert_None by done.
  pose proof (acount_bounds (is_ref ty id) (entries t)) as Hb. fold (refs_in ty id t) in Hb.
  rewrite (ti_len t) in Hb by (apply (Hall k), lookup_insert_eq).
  unfold KERNEL_HANDLE_TABLE_SIZE in Hb.
  assert (0 <= refs ty id ts <= 32 * Z.of_nat (size ts)); [|lia].
  apply IH. intros k' t' Hk'. apply (Hall k'). rewrite lookup_insert_ne; [done | congruence].
Qed.

Lemma refs_pos ty id ts k t i : ts !! k = Some t -> table_inv t -> is_slot i ->
  is_ref ty id (aget (entries t) i) = true ->
  (forall k t, ts !! k = Some t -> table_inv t) -> 0 < refs ty id ts.
Proof.
  intros Hk Ht Hi Hr Hall. rewrite <- (insert_delete_id ts k t Hk).
  rewrite refs_insert_new by apply lookup_delete_eq.
  pose proof (acount_pos (is_ref ty id) (entries t) i) as Hp. rewrite (ti_len t Ht) in Hp.
  specialize (Hp Hi Hr). fold (refs_in ty id t) in Hp.
  pose proof (refs_bounds ty id (delete k ts)) as Hb.
  assert (0 <= refs ty id (delete k ts)); [|lia]. apply Hb.
  intros k' t' [_ Hk']%lookup_delete_Some. by apply (Hall k').
Qed.

Lemma pending_nonneg ty id pend : 0 <= pending ty id pend.
Proof. apply acount_bounds. Qed.

(** ** The invariant of one kind *)

(** [id] is the identifier of the live object [i]. *)
Definition resolves (V : Z -> View) (id i : Z) : Prop :=
  0 <= i < 16 /\ id = make_object_id i (v_gen (V i)) /\ v_active (V i) = 1.

Record rinv (ty : Z) (V : Z -> View) (ts : Tables) (pend : list KernelHandle) : Prop := {
  ri_gen : forall i, 0 <= i < 16 -> 0 <= v_gen (V i) < 2 ^ 32;
  ri_live : forall i, 0 <= i < 16 -> v_active (V i) = 0 \/
    v_active (V i) = 1 /\ 0 < v_gen (V i) /\ 0 < v_refs (V i) /\
    v_refs (V i) = refs ty (make_object_id i (v_gen (V i))) ts
                   + pending ty (make_object_id i (v_gen (V i))) pend;
  ri_handles : forall id, 0 < refs ty id ts + pending ty id pend -> exists i, resolves V id i;
}.

Definition upd (V : Z -> View) (i : Z) (v : View) (j : Z) : View := if decide (i = j) then v else V j.

Lemma upd_eq V i v : upd V i v i = v.
Proof. unfold upd. by rewrite decide_True. Qed.
Lemma upd_ne V i v j : i <> j -> upd V i v j = V j.
Proof. intros. unfold upd. by rewrite decide_False. Qed.

Lemma decode_object_id_id id i g : 0 <= id < 2 ^ 64 -> decode_object_id id 16 = Some (i, g) ->
  id = make_object_id i g.
Proof.
  intros Hid Hd. pose proof (decode_object_id_Some _ _ _ _ Hd) as [Hi Hg].
  rewrite object_id_value by lia. revert Hd. unfold decode_object_id.
  change 0xFFFFFFFF with (2 ^ 32 - 1). rewrite land_ones_mod, Z.shiftr_div_pow2 by lia.
  pose proof (Z.mod_pos_bound id (2 ^ 32) ltac:(lia)) as Hm.
  pose proof (Z.div_mod id (2 ^ 32) ltac:(lia)) as Hdm.
  assert (0 <= id / 2 ^ 32 < 2 ^ 32) by (split; [apply Z.div_pos | apply Z.div_lt_upper_bound]; lia).
  if_eqn H1; [done|]. apply Z.eqb_neq in H1.
  rewrite (u32_small (id mod 2 ^ 32)), (u32_small (id mod 2 ^ 32 - 1)), (u32_small (id / 2 ^ 32))
    by (unfold is_u32; lia).
  if_eqn H2; [done|]. intros [= <- <-]. lia.
Qed.

Section OneKind.
Context (ty : Z) (ts : Tables).
Context (Hts : forall k t, ts !! k = Some t -> table_inv t).
Implicit Types (V : Z -> View) (pend : list KernelHandle).

Lemma refs_nonneg id : 0 <= refs ty id ts.
Proof. by apply refs_bounds. Qed.

Lemma resolves_from_id V pend id i : rinv ty V ts pend -> resolves V id i ->
  view_from_id V id = Some i.
Proof.
  intros Hr (Hi & -> & Ha). destruct (ri_live _ _ _ _ Hr i Hi) as [?|(_ & Hg & _)]; [lia|].
  pose proof (ri_gen _ _ _ _ Hr i Hi). unfold view_from_id.
  rewrite decode_object_id_make by lia. by rewrite Ha, Z.eqb_refl.
Qed.

Lemma from_id_resolves V pend id i : rinv ty V ts pend -> 0 <= id < 2 ^ 64 ->
  view_from_id V id = Some i -> resolves V id i.
Proof.
  intros Hr Hid. unfold view_from_id.
  destruct (decode_object_id id 16) as [[index gen]|] eqn:Hd; [|done].
  if_eqn Hc; [done|]. intros [= <-]. apply orb_false_iff in Hc as [Ha Hg].
  apply Z.eqb_neq in Ha. apply negb_false_iff, Z.eqb_eq in Hg. subst gen.
  pose proof (decode_object_id_Some _ _ _ _ Hd) as [Hi _].
  split; [done|]. split; [by apply decode_object_id_id|].
  destruct (ri_live _ _ _ _ Hr index Hi) as [?|[? _]]; done.
Qed.

(** Two identifiers of live objects. *)
Lemma resolves_inj V pend id i j : rinv ty V ts pend -> resolves V id i -> resolves V id j -> i = j.
Proof.
  intros Hr (Hi & -> & _) (Hj & He & _).
  apply make_object_id_inj in He as [-> _]; try done; by apply (ri_gen _ _ _ _ Hr).
Qed.

Lemma pending_cons id h pend :
  pending ty id (h :: pend) = (if names ty id h then 1 else 0) + pending ty id pend.
Proof. done. Qed.

Lemma names_eq id h : type h = ty -> names ty id h = (object h =? id).
Proof. intros <-. unfold names. by rewrite Z.eqb_refl. Qed.

Lemma rinv_new V pend i g h : rinv ty V ts pend -> 0 <= i < 16 -> v_active (V i) = 0 ->
  0 < g < 2 ^ 32 -> type h = ty -> object h = make_object_id i g ->
  rinv ty (upd V i {| v_active := 1; v_gen := g; v_refs := 1 |}) ts (h :: pend).
Proof.
  intros Hr Hi Ha Hg Hty Hob.
  assert (refs ty (make_object_id i g) ts + pending ty (make_object_id i g) pend = 0) as Hzero.
  { pose proof (refs_nonneg (make_object_id i g)).
    pose proof (pending_nonneg ty (make_object_id i g) pend).
    destruct (Z.eq_dec (refs ty (make_object_id i g) ts + pending ty (make_object_id i g) pend) 0)
      as [|Hnz]; [done|].
    destruct (ri_handles _ _ _ _ Hr (make_object_id i g)) as (j & Hj & He & Hja); [lia|].
    apply make_object_id_inj in He as [-> _]; [lia | done | done | lia | by apply (ri_gen _ _ _ _ Hr)]. }
  constructor.
  - intros j Hj. destruct (decide (i = j)) as [<-|]; [rewrite upd_eq; simpl; lia|].
    rewrite upd_ne by done. by apply (ri_gen _ _ _ _ Hr).
  - intros j Hj. destruct (decide (i = j)) as [<-|Hij].
    + rewrite upd_eq. right. cbn [v_active v_gen v_refs].
      rewrite pending_cons, names_eq, Hob, Z.eqb_refl by done. lia.
    + rewrite upd_ne by done. rewrite pending_cons, names_eq, Hob by done.
      rewrite (proj2 (Z.eqb_neq _ _)); [by apply (ri_live _ _ _ _ Hr)|].
      intros He. apply make_object_id_inj in He as [? _]; try done; [lia|].
      by apply (ri_gen _ _ _ _ Hr).
  - intros id. rewrite pending_cons, names_eq, Hob by done.
    destruct (make_object_id i g =? id) eqn:He; bprop.
    + intros _. exists i. split; [done|]. by rewrite upd_eq.
    + intros (j & Hj & Hid & Hja)%(ri_handles _ _ _ _ Hr). exists j.
      assert (i <> j) by (intros <-; lia). unfold resolves. by rewrite upd_ne.
Qed.

Lemma rinv_retain V pend i h : rinv ty V ts pend -> resolves V (object h) i -> type h = ty ->
  rinv ty (upd V i ((V i) <| v_refs := v_refs (V i) + 1 |>)) ts (h :: pend).
Proof.
  intros Hr (Hi & Hob & Ha) Hty. constructor.
  - intros j Hj. destruct (decide (i = j)) as [<-|]; [rewrite upd_eq | rewrite upd_ne by done];
      by apply (ri_gen _ _ _ _ Hr).
  - intros j Hj. rewrite pending_cons, names_eq, Hob by done.
    pose proof (ri_live _ _ _ _ Hr j Hj) as Hl. destruct (decide (i = j)) as [<-|Hij].
    + rewrite upd_eq. simpl. rewrite Z.eqb_refl. lia.
    + rewrite upd_ne by done. rewrite (proj2 (Z.eqb_neq _ _)); [done|].
      intros He. apply make_object_id_inj in He as [? _]; try done; by apply (ri_gen _ _ _ _ Hr).
  - intros id Hpos.
    assert (exists j, resolves V id j) as (j & Hj & Hid & Hja).
    { rewrite pending_cons, names_eq in Hpos by done. destruct (object h =? id) eqn:He; bprop.
      - subst id. exists i. by split.
      - by apply (ri_handles _ _ _ _ Hr). }
    exists j. split; [done|]. unfold upd. case_decide; [subst j|]; done.
Qed.

Lemma rinv_release V pend h : rinv ty V ts (h :: pend) -> type h = ty ->
  exists i, resolves V (object h) i /\ 0 < v_refs (V i) /\
    rinv ty (upd V i ((V i) <| v_refs := v_refs (V i) - 1 |>
                            <| v_active := if v_refs (V i) - 1 =? 0 then 0 else 1 |>)) ts pend.
Proof.
  intros Hr Hty. pose proof (refs_nonneg (object h)). pose proof (pending_nonneg ty (object h) pend).
  destruct (ri_handles _ _ _ _ Hr (object h)) as (i & Hres).
  { rewrite pending_cons, names_eq, Z.eqb_refl by done. lia. }
  exists i. split; [done|]. pose proof Hres as (Hi & Hob & Ha).
  destruct (ri_live _ _ _ _ Hr i Hi) as [?|(_ & Hg & Hpos & Hcount)]; [lia|]. split; [done|].
  rewrite pending_cons, names_eq, <- Hob, Z.eqb_refl in Hcount by done.
  assert (forall j, 0 <= j < 16 -> i <> j -> make_object_id j (v_gen (V j)) <> object h) as Hne.
  { intros j Hj Hij He. rewrite Hob in He.
    apply make_object_id_inj in He as [? _]; try done; by apply (ri_gen _ _ _ _ Hr). }
  constructor.
  - intros j Hj. destruct (decide (i = j)) as [<-|]; [rewrite upd_eq | rewrite upd_ne by done];
      by apply (ri_gen _ _ _ _ Hr).
  - intros j Hj. destruct (decide (i = j)) as [<-|Hij].
    + rewrite upd_eq. simpl. rewrite <- Hob. destruct (v_refs (V i) - 1 =? 0) eqn:Hz; bprop; [by left|].
      right. lia.
    + rewrite upd_ne by done. pose proof (ri_live _ _ _ _ Hr j Hj) as Hl.
      rewrite pending_cons, names_eq, (proj2 (Z.eqb_neq _ _)) in Hl; [done | | done].
      intros He. by eapply Hne.
  - intros id Hp. destruct (ri_handles _ _ _ _ Hr id) as (j & Hj & Hid & Hja).
    { rewrite pending_cons. case_match; lia. }
    exists j. split; [done|]. destruct (decide (i = j)) as [<-|Hij]; [|by rewrite upd_ne].
    rewrite upd_eq. simpl. split; [done|]. rewrite <- Hob in Hid. subst id.
    destruct (v_refs (V i) - 1 =? 0) eqn:Hz; bprop; [lia | done].
Qed.

Lemma rinv_other V pend h : type h <> ty -> rinv ty V ts (h :: pend) <-> rinv ty V ts pend.
Proof.
  intros Hty.
  assert (forall id, pending ty id (h :: pend) = pending ty id pend) as He.
  { intros id. rewrite pending_cons. unfold names. by rewrite (proj2 (Z.eqb_neq _ _)). }
  split; intros []; constructor; try done; intros; rewrite ?He in *; auto.
  - by rewrite <- He; auto.
  - apply ri_handles0. by rewrite He.
Qed.
End OneKind.

(** Only the number of references to each identifier matters. *)
Lemma rinv_tables ty V ts pend ts' pend' :
  (forall id, refs ty id ts' + pending ty id pend' = refs ty id ts + pending ty id pend) ->
  rinv ty V ts pend -> rinv ty V ts' pend'.
Proof.
  intros He []. constructor; [done| |].
  - intros i Hi. rewrite He. by apply ri_live0.
  - intros id. rewrite He. apply ri_handles0.
Qed.

Lemma rinv_ext ty V V' ts pend : (forall i, 0 <= i < 16 -> V' i = V i) ->
  rinv ty V ts pend -> rinv ty V' ts pend.
Proof.
  intros He []. constructor.
  - intros i Hi. rewrite He by done. auto.
  - intros i Hi. rewrite He by done. auto.
  - intros id (i & Hi & Hid & Ha)%ri_handles0. exists i. unfold resolves. by rewrite He.
Qed.

(** ** The state *)

Record objs_ok (s : ObjState) (pend : list KernelHandle) : Prop := {
  ok_shared : alen (shared_objects s) = 16;
  ok_surfaces : alen (surface_objects s) = 16;
  ok_tables : forall k t, tables s !! k = Some t -> table_inv t;
  ok_few : 32 * Z.of_nat (size (tables s)) < 2 ^ 30;
  ok_rshared : rinv KERNEL_HANDLE_TYPE_SHARED_MEMORY
                 (views KERNEL_HANDLE_TYPE_SHARED_MEMORY s) (tables s) pend;
  ok_rsurface : rinv KERNEL_HANDLE_TYPE_GRAPHICS_SURFACE
                  (views KERNEL_HANDLE_TYPE_GRAPHICS_SURFACE s) (tables s) pend;
}.

Lemma views_put_shared i o s j : alen (shared_objects s) = 16 -> 0 <= i < 16 -> 0 <= j < 16 ->
  views KERNEL_HANDLE_TYPE_SHARED_MEMORY (put_shared i o s) j
  = upd (views KERNEL_HANDLE_TYPE_SHARED_MEMORY s) i (shared_view o) j.
Proof.
  intros Hl Hi Hj. unfold views, upd, put_shared. simpl. rewrite aget_aset by lia. by case_decide.
Qed.
Lemma views_put_surface i o s j : alen (surface_objects s) = 16 -> 0 <= i < 16 -> 0 <= j < 16 ->
  views KERNEL_HANDLE_TYPE_GRAPHICS_SURFACE (put_surface i o s) j
  = upd (views KERNEL_HANDLE_TYPE_GRAPHICS_SURFACE s) i (surface_view o) j.
Proof.
  intros Hl Hi Hj. unfold views, upd, put_surface. simpl. rewrite aget_aset by lia. by case_decide.
Qed.

(** Replacing one object, the other kind being untouched. *)
Lemma put_shared_ok s pend pend' i o : objs_ok s pend -> 0 <= i < 16 ->
  rinv KERNEL_HANDLE_TYPE_SHARED_MEMORY
    (upd (views KERNEL_HANDLE_TYPE_SHARED_MEMORY s) i (shared_view o)) (tables s) pend' ->
  rinv KERNEL_HANDLE_TYPE_GRAPHICS_SURFACE
    (views KERNEL_HANDLE_TYPE_GRAPHICS_SURFACE s) (tables s) pend' ->
  objs_ok (put_shared i o s) pend'.
Proof.
  intros [] Hi Hr Hg. constructor; simpl; try done.
  - by rewrite alen_aset.
  - eapply rinv_ext; [|exact Hr]. intros j Hj. by apply views_put_shared.
Qed.
Lemma put_surface_ok s pend pend' i o : objs_ok s pend -> 0 <= i < 16 ->
  rinv KERNEL_HANDLE_TYPE_GRAPHICS_SURFACE
    (upd (views KERNEL_HANDLE_TYPE_GRAPHICS_SURFACE s) i (surface_view o)) (tables s) pend' ->
  rinv KERNEL_HANDLE_TYPE_SHARED_MEMORY
    (views KERNEL_HANDLE_TYPE_SHARED_MEMORY s) (tables s) pend' ->
  objs_ok (put_surface i o s) pend'.
Proof.
  intros [] Hi Hr Hg. constructor; simpl; try done.
  - by rewrite alen_aset.
  - eapply rinv_ext; [|exact Hr]. intros j Hj. by apply views_put_surface.
Qed.

Definition refcounted (ty : Z) : Prop :=
  ty = KERNEL_HANDLE_TYPE_SHARED_MEMORY \/ ty = KERNEL_HANDLE_TYPE_GRAPHICS_SURFACE.

(** A live object's count is far below 2^32. *)
Lemma live_small s pend ty i : objs_ok s pend -> Z.of_nat (length pend) < 2 ^ 20 ->
  rinv ty (views ty s) (tables s) pend -> 0 <= i < 16 -> v_active (views ty s i) = 1 ->
  v_refs (views ty s i) < 2 ^ 31.
Proof.
  intros Ho Hp Hr Hi Ha. destruct (ri_live _ _ _ _ Hr i Hi) as [?|(_ & _ & _ & ->)]; [lia|].
  pose proof (refs_bounds ty (make_object_id i (v_gen (views ty s i))) (tables s) (ok_tables _ _ Ho)).
  pose proof (acount_bounds (names ty (make_object_id i (v_gen (views ty s i)))) pend) as Hb.
  unfold pending, alen in *. pose proof (ok_few _ _ Ho). lia.
Qed.

Lemma retain_ok h s pend r s' : objs_ok s pend -> Z.of_nat (length pend) < 2 ^ 20 ->
  0 <= object h < 2 ^ 64 -> retain_body h s = (r, s') ->
  (r = 0 /\ s' = s) \/
  (r = 1 /\ refcounted (type h) /\ tables s' = tables s /\ objs_ok s' (h :: pend)).
Proof.
  intros Ho Hp Hid. pose proof Ho as [Hl3 Hl4 Ht Hf H3 H4]. unfold retain_body. if_eqn Hty; bprop.
  - change (shared_from_id (object h) s)
      with (view_from_id (views KERNEL_HANDLE_TYPE_SHARED_MEMORY s) (object h)).
    destruct (view_from_id _ _) as [i|] eqn:Hv; intros [= <- <-]; [right | by left].
    pose proof (from_id_resolves _ _ _ _ _ _ H3 Hid Hv) as Hres. pose proof Hres as (Hi & _ & Ha).
    pose proof (live_small s pend _ i Ho Hp H3 Hi Ha) as Hs.
    pose proof (rinv_retain _ _ _ _ _ _ H3 Hres Hty) as Hr.
    split; [done|]. split; [by left|]. split; [done|]. apply (put_shared_ok s pend); try done.
    + rewrite u32_small; [exact Hr|]. destruct (ri_live _ _ _ _ H3 i Hi) as [?|(_ & _ & ? & _)]; [lia|].
      unfold views, shared_view in *. simpl in *. unfold is_u32. lia.
    + apply rinv_other; [rewrite Hty; discriminate | done].
  - if_eqn Hty2; [|intros [= <- <-]; by left]. bprop.
    change (surface_from_id (object h) s)
      with (view_from_id (views KERNEL_HANDLE_TYPE_GRAPHICS_SURFACE s) (object h)).
    destruct (view_from_id _ _) as [i|] eqn:Hv; intros [= <- <-]; [right | by left].
    pose proof (from_id_resolves _ _ _ _ _ _ H4 Hid Hv) as Hres. pose proof Hres as (Hi & _ & Ha).
    pose proof (live_small s pend _ i Ho Hp H4 Hi Ha) as Hs.
    pose proof (rinv_retain _ _ _ _ _ _ H4 Hres Hty2) as Hr.
    split; [done|]. split; [by right|]. split; [done|]. apply (put_surface_ok s pend); try done.
    + rewrite u32_small; [exact Hr|]. destruct (ri_live _ _ _ _ H4 i Hi) as [?|(_ & _ & ? & _)]; [lia|].
      unfold views, surface_view in *. simpl in *. unfold is_u32. lia.
    + apply rinv_other; [rewrite Hty2; discriminate | done].
Qed.

(** Dropping one pending reference to a shared memory object. *)
Lemma release_shared_ok h s pend : objs_ok s (h :: pend) ->
  type h = KERNEL_HANDLE_TYPE_SHARED_MEMORY ->
  objs_ok (release_shared_locked (shared_from_id (object h) s) s).2 pend /\
  tables (release_shared_locked (shared_from_id (object h) s) s).2 = tables s.
Proof.
  intros Ho Hty. pose proof Ho as [Hl3 Hl4 Ht Hf H3 H4].
  destruct (rinv_release _ _ Ht _ _ _ H3 Hty) as (i & Hres & Hpos & Hr).
  change (shared_from_id (object h) s)
    with (view_from_id (views KERNEL_HANDLE_TYPE_SHARED_MEMORY s) (object h)).
  rewrite (resolves_from_id _ _ _ _ _ _ H3 Hres). pose proof Hres as (Hi & _ & Ha).
  apply rinv_other in H4; [|rewrite Hty; discriminate].
  unfold views, shared_view in Ha, Hpos. simpl in Ha, Hpos. unfold release_shared_locked.
  rewrite Ha, (proj2 (Z.eqb_neq (so_ref_count _) 0)) by lia. cbn [orb].
  unfold nonzero. simpl. unfold views, shared_view in Hr. simpl in Hr.
  destruct (so_ref_count _ - 1 =? 0) eqn:Hz; simpl; (split; [|done]);
    (apply (put_shared_ok s (h :: pend)); [done | done | | done]);
    unfold shared_view; simpl; [exact Hr|].
  rewrite Ha. exact Hr.
Qed.

Lemma release_surface_ok h s pend : objs_ok s (h :: pend) ->
  type h = KERNEL_HANDLE_TYPE_GRAPHICS_SURFACE ->
  objs_ok (release_surface_locked (surface_from_id (object h) s) s).2 pend /\
  tables (release_surface_locked (surface_from_id (object h) s) s).2 = tables s.
Proof.
  intros Ho Hty. pose proof Ho as [Hl3 Hl4 Ht Hf H3 H4].
  destruct (rinv_release _ _ Ht _ _ _ H4 Hty) as (i & Hres & Hpos & Hr).
  change (surface_from_id (object h) s)
    with (view_from_id (views KERNEL_HANDLE_TYPE_GRAPHICS_SURFACE s) (object h)).
  rewrite (resolves_from_id _ _ _ _ _ _ H4 Hres). pose proof Hres as (Hi & _ & Ha).
  apply rinv_other in H3; [|rewrite Hty; discriminate].
  unfold views, surface_view in Ha, Hpos. simpl in Ha, Hpos. unfold release_surface_locked.
  rewrite Ha, (proj2 (Z.eqb_neq (go_ref_count _) 0)) by lia. cbn [orb].
  unfold nonzero. simpl. unfold views, surface_view in Hr. simpl in Hr.
  destruct (go_ref_count _ - 1 =? 0) eqn:Hz; simpl; (split; [|done]);
    (apply (put_surface_ok s (h :: pend)); [done | done | | done]);
    unfold surface_view; simpl; [exact Hr|].
  rewrite Ha. exact Hr.
Qed.

(** ** Operations *)

(** The operations of the rest of the kernel that this component calls give back
    every lock they take. *)
Class ObjectLaws (E : Type) `{LockLaws E} `{ObjectEnv E} := {
  kmalloc_ready e n l : ready e l -> ready (kmalloc n e).2 l;
  kfree_ready e p l : ready e l -> ready (kfree p e) l;
  store8_ready e a v l : ready e l -> ready (store8 a v e) l;
  backing_allocate_ready e i n l : ready e l ->
    ready (kernel_graphics_surface_backing_allocate i n e).2 l;
  backing_release_ready e i l : ready e l -> ready (kernel_graphics_surface_backing_release i e) l;
  sync_release_ready e h l : ready e l -> ready (kernel_sync_release_handle_object h e) l;
}.

Section ObjectOps.
Context {E : Type} {KE : KernelEnv E} {LL : LockLaws E} {OE : ObjectEnv E} {OL : ObjectLaws E}.

Definition keeps (e e' : E) : Prop := forall l, ready e l -> ready e' l.

(** The locks of this component are free for the running CPU. *)
Definition env_ok (s : ObjState) (e : E) : Prop :=
  ready e object_lock /\ forall k t, tables s !! k = Some t -> ready e k.

Lemma env_ok_keeps s s' e e' : env_ok s e -> keeps e e' -> dom (tables s') = dom (tables s) -> env_ok s' e'.
Proof.
  intros [Ho Ht] Hk Hd. split; [by apply Hk|]. intros k t Hkt. apply Hk.
  assert (k ∈ dom (tables s)) as [t' ?]%elem_of_dom by (rewrite <- Hd; by eapply elem_of_dom_2). eauto.
Qed.

Lemma release_handle_ok h s pend e s' e' : objs_ok s (h :: pend) -> ready e object_lock ->
  kernel_object_release_handle_object (Some h) s e = (s', e') ->
  objs_ok s' pend /\ tables s' = tables s /\ keeps e e'.
Proof.
  intros Ho He. unfold kernel_object_release_handle_object. if_eqn H3; bprop.
  - destruct (with_lock_ready object_lock 0
      (fun s => release_shared_locked (shared_from_id (object h) s) s) s e He) as (e1 & -> & Hk).
    pose proof (release_shared_ok h s pend Ho H3) as [Hok Ht].
    destruct (release_shared_locked _ s) as [b s1]. intros [= <- <-].
    split; [done|]. split; [done|]. intros l Hl. case_match; [apply kfree_ready|]; by apply Hk.
  - if_eqn H4; bprop.
    + destruct (with_lock_ready object_lock None
        (fun s => release_surface_locked (surface_from_id (object h) s) s) s e He) as (e1 & -> & Hk).
      pose proof (release_surface_ok h s pend Ho H4) as [Hok Ht].
      destruct (release_surface_locked _ s) as [b s1]. intros [= <- <-].
      split; [done|]. split; [done|]. intros l Hl.
      destruct b; [apply backing_release_ready|]; by apply Hk.
    + intros [= <- <-]. split; [|split; [done | intros l; apply sync_release_ready]].
      destruct Ho. constructor; try done; by eapply rinv_other.
Qed.

(** The effect of a table operation on the number of references. *)
Lemma refs_change ty s k t t' id : tables s !! k = Some t ->
  refs ty id (<[k := t']> (tables s)) = refs ty id (tables s) - refs_in ty id t + refs_in ty id t'.
Proof. apply refs_update. Qed.

Lemma size_update (ts : Tables) k t t' : ts !! k = Some t -> size (<[k := t']> ts) = size ts.
Proof. intros Hk. by apply map_size_insert_Some. Qed.
Lemma dom_update (ts : Tables) k t t' : ts !! k = Some t -> dom (<[k := t']> ts) = dom ts.
Proof. intros Hk. rewrite dom_insert_lookup_L; eauto. Qed.

(** Changing one table so that the pending references make up for it. *)
Lemma table_change_ok s pend pend' k t t' : objs_ok s pend -> tables s !! k = Some t ->
  table_inv t' ->
  (forall ty id, refcounted ty ->
     refs_in ty id t' + pending ty id pend' = refs_in ty id t + pending ty id pend) ->
  objs_ok (s <| tables := <[k := t']> (tables s) |>) pend'.
Proof.
  intros [] Hk Hi He. constructor; simpl; try done.
  - intros k' t1. rewrite lookup_insert_Some. intros [[<- <-]|[_ ?]]; eauto.
  - by rewrite (size_update _ _ _ _ Hk).
  - eapply (rinv_tables _ _ _ pend); [|exact ok_rshared0]. intros id.
    rewrite (refs_update _ _ _ _ _ _ Hk). specialize (He KERNEL_HANDLE_TYPE_SHARED_MEMORY id). unfold refcounted in He. lia.
  - eapply (rinv_tables _ _ _ pend); [|exact ok_rsurface0]. intros id.
    rewrite (refs_update _ _ _ _ _ _ Hk). specialize (He KERNEL_HANDLE_TYPE_GRAPHICS_SURFACE id). unfold refcounted in He. lia.
Qed.

Lemma with_table_ready {A} k t (fail : A) body (ts : Tables) e : ts !! k = Some t -> ready e k ->
  exists e', with_table k fail body ts e = ((body t).1, <[k := (body t).2]> ts, e') /\ keeps e e'.
Proof.
  intros Hk He. unfold with_table.
  match goal with |- context [with_lock k fail ?b ts e] =>
    destruct (with_lock_ready k fail b ts e He) as (e1 & -> & Hkeep) end.
  exists e1. rewrite (lookup_total_correct _ _ _ Hk). destruct (body t). by split.
Qed.

(** Turning a pending reference into a handle. *)
Lemma alloc_handle_ok h r ext s pend k t e hd ts' e' : objs_ok s (h :: pend) ->
  tables s !! k = Some t -> ready e k -> refcounted (type h) ->
  kernel_handle_alloc k (type h) r (object h) ext (tables s) e = (hd, ts', e') ->
  keeps e e' /\ dom ts' = dom (tables s) /\
  ((hd = 0 /\ ts' = tables s) \/ (hd <> 0 /\ objs_ok (s <| tables := ts' |>) pend)).
Proof.
  intros Ho Hk He Hty. unfold kernel_handle_alloc.
  if_eqn Hbad; [intros [= <- <- <-]; split; [by intros l|]; split; [done|]; by left|].
  pose proof (ready_fault e) as Hrf.
  destruct (kernel_fault_injection_should_fail _ e) as [fault e1] eqn:Hf.
  assert (keeps e e1) as Hk1 by (intros l Hl; specialize (Hrf l KERNEL_FAULT_POINT_HANDLE Hl); by rewrite Hf in Hrf).
  destruct fault; [intros [= <- <- <-]; split; [done|]; split; [done|]; by left|].
  destruct (with_table_ready k t 0 (alloc_body (type h) r (object h) ext) (tables s) e1 Hk (Hk1 _ He))
    as (e2 & -> & Hk2). intros [= <- <- <-].
  split; [intros l Hl; by apply Hk2, Hk1|]. split; [by eapply dom_update|].
  pose proof (ok_tables _ _ Ho k t Hk) as Hinv.
  destruct (decide (active_count t = KERNEL_HANDLE_TABLE_SIZE)) as [Hfull|Hne].
  { rewrite alloc_full by done. left. split; [done|]. by apply insert_id. }
  right. pose proof (acount_bounds is_active (entries t)) as Hb.
  rewrite <- (ti_count _ Hinv), (ti_len _ Hinv) in Hb.
  pose proof (alloc_refines (type h) r (object h) ext t Hinv) as [Hinv' _].
  destruct (alloc_ok (type h) r (object h) ext t Hinv ltac:(lia)) as (i & Hi & Hfree & _ & Heq).
  rewrite Heq in *. cbn [fst snd] in *. split.
  - rewrite encode_value by (done || apply Hinv). pose proof (ti_next _ Hinv). handle_consts. lia.
  - eapply table_change_ok; [done | done | done |]. intros ty id Hrc. unfold refs_in. simpl.
    unfold is_slot in Hi. rewrite acount_aset by (rewrite (ti_len _ Hinv); lia).
    unfold is_ref at 2. rewrite Hfree. cbn [andb]. rewrite pending_cons.
    assert (u8 (type h) = type h) as Hu.
    { apply u8_small. unfold is_u8.
      destruct Hty as [-> | ->]; unfold KERNEL_HANDLE_TYPE_SHARED_MEMORY, KERNEL_HANDLE_TYPE_GRAPHICS_SURFACE; lia. }
    assert (is_ref ty id {| active := 1; type := u8 (type h); reserved0 := 0; rights := r;
      generation := next_gen t; reserved1 := 0; object := object h; extra := ext |} = names ty id h) as ->.
    { unfold is_ref, names. simpl. by rewrite Hu. }
    lia.
Qed.

(** What every operation guarantees. *)
Definition op_done (s : ObjState) (e : E) (s' : ObjState) (e' : E) : Prop :=
  objs_ok s' [] /\ keeps e e' /\ dom (tables s') = dom (tables s).

Lemma op_done_same s e e' : objs_ok s [] -> keeps e e' -> op_done s e s e'.
Proof. by split. Qed.
Lemma keeps_refl e : keeps e e.
Proof. by intros l. Qed.
Lemma keeps_trans e1 e2 e3 : keeps e1 e2 -> keeps e2 e3 -> keeps e1 e3.
Proof. intros H1 H2 l Hl. by apply H2, H1. Qed.

(** A pending reference becomes a handle or is dropped. *)
Lemma handle_or_release_ok h r ext s k t e hd ts' e' s2 e2 : objs_ok s [h] ->
  tables s !! k = Some t -> env_ok s e -> refcounted (type h) ->
  kernel_handle_alloc k (type h) r (object h) ext (tables s) e = (hd, ts', e') ->
  kernel_object_release_handle_object (Some h) (s <| tables := ts' |>) e' = (s2, e2) ->
  (hd = 0 -> op_done s e s2 e2) /\ (hd <> 0 -> op_done s e (s <| tables := ts' |>) e').
Proof.
  intros Ho Hk [Hel Het] Hty Ha Hr.
  destruct (alloc_handle_ok h r ext s [] k t e hd ts' e' Ho Hk (Het _ _ Hk) Hty Ha) as (Hkeep & Hd & Hcase).
  split; intros Hz; destruct Hcase as [[Hz' ->]|[Hne Hok]]; try done.
  - assert (objs_ok (s <| tables := tables s |>) [h]) as Ho' by (by destruct s).
    destruct (release_handle_ok h _ [] e' s2 e2 Ho' (Hkeep _ Hel) Hr) as (Hok & Ht & Hk2).
    split; [done|]. split; [by eapply keeps_trans|]. by rewrite Ht.
Qed.

Lemma first_handle_ok k ty r id n s t e hd s' e' : objs_ok s [failed_handle ty id] ->
  tables s !! k = Some t -> env_ok s e -> refcounted ty ->
  first_handle k ty r id n s e = (hd, s', e') -> op_done s e s' e'.
Proof.
  intros Ho Hk He Hty. unfold first_handle, on_tables.
  destruct (kernel_handle_alloc k ty r id n (tables s) e) as [[hd1 ts1] e1] eqn:Ha.
  destruct (kernel_object_release_handle_object (Some (failed_handle ty id)) (s <| tables := ts1 |>) e1)
    as [s2 e2] eqn:Hr.
  destruct (handle_or_release_ok (failed_handle ty id) r n s k t e hd1 ts1 e1 s2 e2 Ho Hk He Hty Ha Hr)
    as [Hz Hnz].
  destruct (hd1 =? 0) eqn:E1; bprop; rewrite ?Hr; intros [= <- <- <-]; auto.
Qed.

Lemma next_object_generation_range g : 0 < next_object_generation g < 2 ^ 32.
Proof.
  unfold next_object_generation. pose proof (u32_range (g + 1)) as [? ?].
  destruct (u32 (g + 1) =? 0) eqn:E1; bprop; lia.
Qed.

Lemma zero_bytes_keeps b n e : keeps e (zero_bytes b n e).
Proof.
  unfold zero_bytes. case_match; [apply keeps_refl|].
  destruct (Z.le_gt_cases 0 n); [|rewrite for_range_done by lia; apply keeps_refl].
  apply (for_range_inv (fun _ e1 => keeps e e1)); [done | apply keeps_refl |].
  intros i e1 _ Hk. eapply keeps_trans; [done|]. intros l. apply store8_ready.
Qed.

Lemma new_shared_ok pid n pages r b s : objs_ok s [] ->
  (new_shared_body pid n pages r b s).1 = 0 /\ (new_shared_body pid n pages r b s).2 = s \/
  (new_shared_body pid n pages r b s).1 <> 0 /\
  tables (new_shared_body pid n pages r b s).2 = tables s /\
  objs_ok (new_shared_body pid n pages r b s).2
    [failed_handle KERNEL_HANDLE_TYPE_SHARED_MEMORY (new_shared_body pid n pages r b s).1].
Proof.
  intros Ho. unfold new_shared_body. destruct (free_shared s) as [i|] eqn:Hf; [right | by left].
  apply find_first_Some in Hf as (Hi & Ha & _). bprop.
  change (Z.of_nat (Z.to_nat KERNEL_SHARED_MEMORY_MAX_OBJECTS)) with 16 in Hi.
  pose proof (next_object_generation_range (so_generation (aget (shared_objects s) i))) as Hg.
  simpl. split; [rewrite object_id_value by lia; lia|]. split; [done|].
  pose proof Ho as [Hl3 Hl4 Ht Hf H3 H4]. apply (put_shared_ok s []); [done | lia | |].
  - eapply (rinv_new _ _ Ht); try done; lia.
  - apply rinv_other; [discriminate | done].
Qed.

Lemma create_shared_ok k pid n r s e hd s' e' : objs_ok s [] -> env_ok s e ->
  k = 0 \/ is_Some (tables s !! k) ->
  kernel_shared_memory_create k pid n r s e = (hd, s', e') -> op_done s e s' e'.
Proof.
  intros Ho He Hk. unfold kernel_shared_memory_create.
  if_eqn H1; [intros [= _ <- <-]; by apply op_done_same, keeps_refl|].
  if_eqn H2; [intros [= _ <- <-]; by apply op_done_same, keeps_refl|].
  destruct (kernel_fault_injection_should_fail _ e) as [fault e1] eqn:Hf.
  assert (keeps e e1) as Hk1.
  { intros l Hl. pose proof (ready_fault e l KERNEL_FAULT_POINT_SHARED_MEMORY Hl) as Hr.
    by rewrite Hf in Hr. }
  destruct fault; [intros [= _ <- <-]; by apply op_done_same|].
  set (bs := u32 _). destruct (kmalloc bs e1) as [b e2] eqn:Hm.
  assert (keeps e e2) as Hk2.
  { intros l Hl. pose proof (kmalloc_ready e1 bs l (Hk1 l Hl)) as Hr. by rewrite Hm in Hr. }
  if_eqn Hb; [intros [= _ <- <-]; by apply op_done_same|].
  pose proof (keeps_trans _ _ _ Hk2 (zero_bytes_keeps b bs e2)) as Hk3.
  set (e3 := zero_bytes b bs e2) in *. clearbody e3.
  set (body := new_shared_body _ _ _ _ _).
  destruct (with_lock_ready object_lock 0 body s e3 (Hk3 _ (proj1 He))) as (e4 & -> & Hk4).
  pose proof (keeps_trans _ _ _ Hk3 Hk4) as Hk5.
  pose proof (new_shared_ok pid n (u32 ((n + VM_PAGE_SIZE - 1) / VM_PAGE_SIZE)) r b s Ho) as Hnew.
  fold body in Hnew. destruct (body s) as [id s1]. cbn [fst snd] in Hnew.
  destruct Hnew as [[Hz Hs]|(Hnz & Ht & Hok)].
  - subst. simpl. intros [= _ <- <-]. apply op_done_same; [done|].
    eapply keeps_trans; [done|]. intros l. apply kfree_ready.
  - rewrite (proj2 (Z.eqb_neq _ _) Hnz). intros Hfirst. destruct Hk as [->|[t Hkt]]; [done|].
    rewrite <- Ht in Hkt.
    assert (env_ok s1 e4) as He1 by (by apply (env_ok_keeps s _ e); [| | rewrite Ht]).
    destruct (first_handle_ok _ _ _ _ _ _ t _ _ _ _ Hok Hkt He1 (or_introl eq_refl) Hfirst)
      as (A & B & C).
    split; [done|]. split; [by eapply keeps_trans|]. by rewrite C, Ht.
Qed.

Lemma put_surface_twice i x y s : put_surface i x (put_surface i y s) = put_surface i x s.
Proof. unfold put_surface, set_field, aset. simpl. by rewrite list_insert_insert_eq. Qed.

Lemma put_surface_same_view i o s pend : objs_ok s pend -> 0 <= i < 16 ->
  surface_view o = surface_view (aget (surface_objects s) i) -> objs_ok (put_surface i o s) pend.
Proof.
  intros Ho Hi Hv. apply (put_surface_ok s pend); [done | done | | apply Ho].
  eapply rinv_ext; [|apply Ho]. intros j Hj. unfold upd. case_decide; [|done]. subst j.
  rewrite Hv. unfold views. by simpl.
Qed.

Lemma unreserve_ok i s e s' e' : objs_ok s [] -> 0 <= i < 16 ->
  go_active (aget (surface_objects s) i) = 0 -> ready e object_lock ->
  unreserve i (put_surface i ((aget (surface_objects s) i) <| go_active := 2 |>) s) e = (s', e') ->
  objs_ok s' [] /\ tables s' = tables s /\ keeps e e'.
Proof.
  intros Ho Hi Ha He. unfold unreserve.
  match goal with |- context [with_lock object_lock tt ?b ?st e] =>
    destruct (with_lock_ready object_lock tt b st e He) as (e1 & -> & Hk) end.
  rewrite put_surface_twice. intros [= <- <-]. split; [|by split].
  pose proof (ok_surfaces _ _ Ho). apply put_surface_same_view; [done | done |].
  unfold put_surface. simpl. rewrite aget_aset_eq by lia. unfold surface_view. simpl. by rewrite Ha.
Qed.

Lemma commit_surface_ok i pid n pages g s : objs_ok s [] -> 0 <= i < 16 ->
  go_active (aget (surface_objects s) i) = 0 ->
  let s1 := put_surface i ((aget (surface_objects s) i) <| go_active := 2 |>) s in
  let r := commit_surface_body i pid n pages g s1 in
  tables r.2 = tables s /\ objs_ok r.2 [failed_handle KERNEL_HANDLE_TYPE_GRAPHICS_SURFACE r.1].
Proof.
  intros Ho Hi Ha. cbv zeta. unfold commit_surface_body. cbn [fst snd].
  rewrite put_surface_twice. pose proof Ho as [Hl3 Hl4 Ht Hf H3 H4]. split; [done|].
  unfold put_surface at 1. simpl. rewrite aget_aset_eq by lia. simpl.
  pose proof (next_object_generation_range (go_generation (aget (surface_objects s) i))) as Hg.
  apply (put_surface_ok s []); [done | done | |].
  - eapply (rinv_new _ _ Ht); done.
  - apply rinv_other; [discriminate | done].
Qed.

Lemma create_surface_ok k pid w h fmt r s e hd s' e' : objs_ok s [] -> env_ok s e ->
  k = 0 \/ is_Some (tables s !! k) ->
  kernel_graphics_surface_create k pid w h fmt r s e = (hd, s', e') -> op_done s e s' e'.
Proof.
  intros Ho He Hk. unfold kernel_graphics_surface_create.
  if_eqn H1; [intros [= _ <- <-]; by apply op_done_same, keeps_refl|].
  if_eqn H2; [intros [= _ <- <-]; by apply op_done_same, keeps_refl|].
  set (bs := u32 (_ * 4)). clearbody bs.
  destruct (with_lock_ready object_lock None reserve_surface_body s e (proj1 He)) as (e1 & -> & Hk1).
  unfold reserve_surface_body. destruct (free_surface s) as [i|] eqn:Hfree.
  2: { intros [= _ <- <-]. by apply op_done_same. }
  apply find_first_Some in Hfree as (Hi & Ha & _). apply Z.eqb_eq in Ha.
  change (Z.of_nat (Z.to_nat KERNEL_GRAPHICS_SURFACE_MAX_OBJECTS)) with 16 in Hi.
  destruct (kernel_graphics_surface_backing_allocate i bs e1) as [backing e2] eqn:Hb.
  assert (keeps e e2) as Hk2.
  { intros l Hl. pose proof (backing_allocate_ready e1 i bs l (Hk1 l Hl)) as Hr. by rewrite Hb in Hr. }
  assert (keeps e (kernel_graphics_surface_backing_release i e2)) as Hk3
    by (intros l Hl; by apply backing_release_ready, Hk2).
  destruct backing as [[px pages]|].
  2: { destruct (unreserve _ _ _) as [s2 e3] eqn:Hu. intros [= _ <- <-].
       destruct (unreserve_ok i s _ _ _ Ho ltac:(lia) Ha (Hk3 _ (proj1 He)) Hu) as (A & B & C).
       split; [done|]. split; [by eapply keeps_trans | by rewrite B]. }
  destruct (gfx_surface_init _ _ _ _ _ _) as [ok surface]. if_eqn Hok.
  { destruct (unreserve _ _ _) as [s2 e3] eqn:Hu. intros [= _ <- <-].
    destruct (unreserve_ok i s _ _ _ Ho ltac:(lia) Ha (Hk3 _ (proj1 He)) Hu) as (A & B & C).
    split; [done|]. split; [by eapply keeps_trans | by rewrite B]. }
  destruct (ready_acquire e2 object_lock (Hk2 _ (proj1 He))) as (e3 & -> & Hk4). cbn [negb].
  pose proof (commit_surface_ok i pid bs pages surface s Ho ltac:(lia) Ha) as Hcommit.
  cbv zeta in Hcommit. destruct (commit_surface_body i pid bs pages surface _) as [id s1].
  destruct Hcommit as [Ht Hc]. cbn [fst snd] in *. intros Hfirst.
  destruct Hk as [->|[t Hkt]]; [done|]. rewrite <- Ht in Hkt.
  assert (keeps e (kernel_spinlock_release object_lock e3)) as Hk5 by exact (keeps_trans _ _ _ Hk2 Hk4).
  assert (env_ok s1 (kernel_spinlock_release object_lock e3)) as He1
    by (by apply (env_ok_keeps s _ e); [| | rewrite Ht]).
  destruct (first_handle_ok _ _ _ _ _ _ t _ _ _ _ Hc Hkt He1 (or_intror eq_refl) Hfirst) as (A & B & C).
  split; [done|]. split; [by eapply keeps_trans | by rewrite C, Ht].
Qed.

Lemma clone_ok k src r s e hd s' e' : objs_ok s [] -> env_ok s e ->
  k = 0 \/ is_Some (tables s !! k) -> (forall h, src = Some h -> is_u64 (object h)) ->
  kernel_object_clone_handle_with_rights k src r s e = (hd, s', e') -> op_done s e s' e'.
Proof.
  intros Ho He Hk Hu. unfold kernel_object_clone_handle_with_rights.
  destruct src as [h|]; [|intros [= _ <- <-]; by apply op_done_same, keeps_refl].
  if_eqn H1; [intros [= _ <- <-]; by apply op_done_same, keeps_refl|].
  if_eqn H2; [intros [= _ <- <-]; by apply op_done_same, keeps_refl|].
  if_eqn H3; [intros [= _ <- <-]; by apply op_done_same, keeps_refl|].
  apply orb_false_iff in H1 as [Hk0 Ha]. unfold kernel_object_retain_handle_object. rewrite Ha.
  destruct (with_lock_ready object_lock 0 (retain_body h) s e (proj1 He)) as (e1 & -> & Hk1).
  destruct (retain_body h s) as [ok s1] eqn:Hret.
  destruct (retain_ok h s [] ok s1 Ho) as [[-> ->]|(-> & Hrc & Ht & Ho1)];
    [done | by apply Hu | done | intros [= _ <- <-]; by apply op_done_same |].
  cbn [Z.eqb]. destruct Hk as [->|[t Hkt]]; [done|]. rewrite <- Ht in Hkt.
  assert (env_ok s1 e1) as He1 by (by apply (env_ok_keeps s _ e); [| | rewrite Ht]).
  unfold on_tables.
  destruct (kernel_handle_alloc k (type h) r (object h) (extra h) (tables s1) e1) as [[hd1 ts1] e2] eqn:Hal.
  destruct (kernel_object_release_handle_object (Some h) (s1 <| tables := ts1 |>) e2) as [s2 e3] eqn:Hr.
  destruct (handle_or_release_ok h r (extra h) s1 k t e1 hd1 ts1 e2 s2 e3 Ho1 Hkt He1 Hrc Hal Hr) as [Hz Hnz].
  destruct (hd1 =? 0) eqn:E1; bprop; rewrite ?Hr; intros [= <- <- <-];
    [destruct (Hz E1) as (A & B & C) | destruct (Hnz E1) as (A & B & C)];
    (split; [done|]); (split; [by eapply keeps_trans | etrans; [exact C | by rewrite Ht]]).
Qed.

(** Taking one handle out of its table. *)
Lemma close_refs hd t i : table_inv t -> open_slot t hd = Some i ->
  forall ty id, refs_in ty id (close_body hd t).2 + pending ty id [aget (entries t) i]
                = refs_in ty id t.
Proof.
  intros Hinv Ho ty id. unfold close_body. rewrite resolve_any, Ho. simpl.
  apply open_slot_is_slot in Ho as (Hi & Ha & _). unfold is_slot in Hi.
  assert (forall x, refs_in ty id (if nonzero (active_count t)
     then x <| active_count := active_count t - 1 |> else x) = refs_in ty id x) as Hsame
    by (intros x; by case_match).
  unfold refs_in at 1. destruct (nonzero (active_count t)); simpl;
    rewrite acount_aset by (rewrite (ti_len _ Hinv); lia); unfold is_ref at 2; rewrite Ha;
    change (is_ref ty id (clear_entry _)) with false; unfold pending; simpl; unfold refs_in; lia.
Qed.

Lemma close_ok k hd s e r s' e' : objs_ok s [] -> env_ok s e ->
  k = 0 \/ is_Some (tables s !! k) -> is_u64 hd ->
  kernel_object_close_handle k hd s e = (r, s', e') -> op_done s e s' e'.
Proof.
  intros Ho He Hk Hu. unfold kernel_object_close_handle, on_tables, kernel_handle_close.
  destruct (k =? 0) eqn:Hk0.
  { intros [= _ <- <-]. match goal with |- op_done _ _ ?x _ => replace x with s by (by destruct s) end.
    by apply op_done_same, keeps_refl. }
  destruct Hk as [->|[t Hkt]]; [done|].
  destruct (with_table_ready k t (0, None) (close_body hd) (tables s) e Hkt (proj2 He _ _ Hkt))
    as (e1 & -> & Hk1).
  pose proof (ok_tables _ _ Ho k t Hkt) as Hinv.
  pose proof (close_refines hd t Hinv Hu) as [Hinv' _].
  destruct (open_slot t hd) as [i|] eqn:Hop.
  2: { unfold close_body. rewrite resolve_any, Hop. simpl. rewrite insert_id by done.
       intros [= _ <- <-]. match goal with |- op_done _ _ ?x _ => replace x with s by (by destruct s) end.
       by apply op_done_same. }
  pose proof (close_refs hd t i Hinv Hop) as Hrefs.
  assert ((close_body hd t).1 = (1, Some (aget (entries t) i))) as Hans
    by (unfold close_body; by rewrite resolve_any, Hop).
  rewrite Hans. cbn [Z.eqb].
  destruct (kernel_object_release_handle_object _ _ e1) as [s2 e2] eqn:Hr. intros [= _ <- <-].
  edestruct (fun a b => release_handle_ok _ _ [] e1 s2 e2 a b Hr) as (A & B & C).
  - eapply table_change_ok; [done | done | done |]. intros ty id _. rewrite Hrefs.
    change (pending ty id []) with 0. lia.
  - by apply Hk1, He.
  - split; [done|]. split; [by eapply keeps_trans|]. rewrite B. simpl. by eapply dom_update.
Qed.

Lemma release_all_ok l s e : objs_ok s l -> ready e object_lock ->
  let r := foldl (fun '(s, e) h => kernel_object_release_handle_object (Some h) s e) (s, e) l in
  objs_ok r.1 [] /\ tables r.1 = tables s /\ keeps e r.2.
Proof.
  revert s e. induction l as [|h l IH]; intros s e Ho He; cbv zeta; cbn [foldl].
  { split; [done|]. split; [done | apply keeps_refl]. }
  destruct (kernel_object_release_handle_object (Some h) s e) as [s1 e1] eqn:Hr.
  destruct (release_handle_ok h s l e s1 e1 Ho He Hr) as (A & B & C).
  destruct (IH s1 e1 A (C _ He)) as (A' & B' & C').
  split; [done|]. split; [by rewrite B' | by eapply keeps_trans].
Qed.

Lemma detach_refs t : table_inv t -> forall ty id,
  refs_in ty id (detach_body t).2 + pending ty id (detach_body t).1 = refs_in ty id t.
Proof.
  intros Hinv ty id. rewrite detach_loop by done. cbn [fst snd]. unfold refs_in, pending. simpl.
  rewrite acount_fmap, (acount_ext _ (fun _ => false)).
  2: { intros x. unfold close_if, is_ref. destruct (is_active x) eqn:Ha; [done|]. by rewrite Ha. }
  rewrite (acount_none (fun _ => false)), Z.add_0_l by done.
  induction (entries t) as [|x l IH]; [done|]. cbn [List.filter acount]. unfold is_ref at 1.
  destruct (is_active x); cbn [andb acount]; rewrite IH; lia.
Qed.

Lemma release_table_ok k s e r s' e' : objs_ok s [] -> env_ok s e ->
  k = 0 \/ is_Some (tables s !! k) ->
  kernel_object_release_table k s e = (r, s', e') -> op_done s e s' e'.
Proof.
  intros Ho He Hk. unfold kernel_object_release_table, on_tables, kernel_handle_detach_all.
  destruct (k =? 0) eqn:Hk0; [intros [= _ <- <-]; by apply op_done_same, keeps_refl|].
  change (KERNEL_HANDLE_TABLE_SIZE <? KERNEL_HANDLE_TABLE_SIZE) with false. cbn [negb orb].
  destruct Hk as [->|[t Hkt]]; [done|].
  destruct (with_table_ready k t [] detach_body (tables s) e Hkt (proj2 He _ _ Hkt)) as (e1 & -> & Hk1).
  pose proof (ok_tables _ _ Ho k t Hkt) as Hinv.
  pose proof (detach_refines t Hinv) as [Hinv' _]. pose proof (detach_refs t Hinv) as Hrefs.
  set (s1 := s <| tables := <[k := (detach_body t).2]> (tables s) |>).
  assert (objs_ok s1 (detach_body t).1) as Ho1.
  { eapply table_change_ok; [done | done | done |]. intros ty id _. rewrite Hrefs.
    change (pending ty id []) with 0. lia. }
  destruct (release_all_ok (detach_body t).1 s1 e1 Ho1 (Hk1 _ (proj1 He))) as (A & B & C).
  destruct (foldl _ _ _) as [s2 e2]. cbn [fst snd] in A, B, C.
  generalize (Z.of_nat (length (detach_body t).1)). intros n [= _ <- <-].
  split; [done|]. split; [exact (keeps_trans _ _ _ Hk1 C)|]. rewrite B. exact (dom_update _ _ _ _ Hkt).
Qed.
End ObjectOps.

(** ** Any sequence of operations *)

Inductive ObjOp :=
| OCreateShared (table owner_pid size r : Z)
| OCreateSurface (table owner_pid w h fmt r : Z)
| OClone (table : Z) (source : option KernelHandle) (r : Z)
| OClose (table handle : Z)
| OReleaseTable (table : Z).

(** The handle table an operation works on is null or one of the tables; words
    given by callers are 64-bit. *)
Definition obj_op_ok (ts : Tables) (op : ObjOp) : Prop :=
  match op with
  | OCreateShared k _ _ _ | OCreateSurface k _ _ _ _ _ | OReleaseTable k => k = 0 \/ k ∈ dom ts
  | OClone k src _ => (k = 0 \/ k ∈ dom ts) /\ forall h, src = Some h -> is_u64 (object h)
  | OClose k h => (k = 0 \/ k ∈ dom ts) /\ is_u64 h
  end.

Section Runs.
Context {E : Type} {KE : KernelEnv E} {LL : LockLaws E} {OE : ObjectEnv E} {OL : ObjectLaws E}.

Definition obj_exec (op : ObjOp) (st : ObjState * E) : ObjState * E :=
  let '(s, e) := st in
  match op with
  | OCreateShared k pid n r => let '(_, s, e) := kernel_shared_memory_create k pid n r s e in (s, e)
  | OCreateSurface k pid w h fmt r =>
    let '(_, s, e) := kernel_graphics_surface_create k pid w h fmt r s e in (s, e)
  | OClone k src r =>
    let '(_, s, e) := kernel_object_clone_handle_with_rights k src r s e in (s, e)
  | OClose k h => let '(_, s, e) := kernel_object_close_handle k h s e in (s, e)
  | OReleaseTable k => let '(_, s, e) := kernel_object_release_table k s e in (s, e)
  end.
Definition obj_run (ops : list ObjOp) (st : ObjState * E) : ObjState * E :=
  foldl (fun st op => obj_exec op st) st ops.

Lemma known_table ts k : k = 0 \/ k ∈ dom ts -> k = 0 \/ is_Some ((ts : Tables) !! k).
Proof. intros [?|?%elem_of_dom]; auto. Qed.

Lemma obj_exec_ok op s e : objs_ok s [] -> env_ok s e -> obj_op_ok (tables s) op ->
  op_done s e (obj_exec op (s, e)).1 (obj_exec op (s, e)).2.
Proof.
  intros Ho He Hop. destruct op; cbn [obj_exec obj_op_ok] in *.
  - destruct (kernel_shared_memory_create _ _ _ _ _ _) as [[? s1] e1] eqn:Hr.
    eapply create_shared_ok; eauto using known_table.
  - destruct (kernel_graphics_surface_create _ _ _ _ _ _ _ _) as [[? s1] e1] eqn:Hr.
    eapply create_surface_ok; eauto using known_table.
  - destruct Hop as [Hk Hu].
    destruct (kernel_object_clone_handle_with_rights _ _ _ _ _) as [[? s1] e1] eqn:Hr.
    eapply clone_ok; eauto using known_table.
  - destruct Hop as [Hk Hu].
    destruct (kernel_object_close_handle _ _ _ _) as [[? s1] e1] eqn:Hr.
    eapply close_ok; eauto using known_table.
  - destruct (kernel_object_release_table _ _ _) as [[? s1] e1] eqn:Hr.
    eapply release_table_ok; eauto using known_table.
Qed.

Lemma obj_run_ok ops s e : objs_ok s [] -> env_ok s e -> Forall (obj_op_ok (tables s)) ops ->
  objs_ok (obj_run ops (s, e)).1 [] /\ env_ok (obj_run ops (s, e)).1 (obj_run ops (s, e)).2.
Proof.
  revert s e. induction ops as [|op ops IH]; intros s e Ho He Hops; [by split|].
  apply Forall_cons in Hops as [Hop Hops].
  destruct (obj_exec_ok op s e Ho He Hop) as (A & B & C).
  unfold obj_run in *. cbn [foldl]. destruct (obj_exec op (s, e)) as [s1 e1]. cbn [fst snd] in *.
  apply IH; [done | by eapply env_ok_keeps |]. eapply Forall_impl; [exact Hops|].
  intros op'. unfold obj_op_ok. by rewrite C.
Qed.

(** Of one kind: the objects that live are those some open handle names. *)
Definition counted (ty : Z) (s : ObjState) : Prop :=
  (forall i, 0 <= i < 16 ->
     (v_active (views ty s i) <> 0 <->
      0 < refs ty (make_object_id i (v_gen (views ty s i))) (tables s)) /\
     (v_active (views ty s i) <> 0 ->
      v_refs (views ty s i) = refs ty (make_object_id i (v_gen (views ty s i))) (tables s))) /\
  (forall k t j, tables s !! k = Some t -> is_slot j ->
     is_active (aget (entries t) j) = true -> type (aget (entries t) j) = ty ->
     exists i, view_from_id (views ty s) (object (aget (entries t) j)) = Some i).

Lemma rinv_counted ty s : (forall k t, tables s !! k = Some t -> table_inv t) ->
  rinv ty (views ty s) (tables s) [] -> counted ty s.
Proof.
  intros Ht Hr. split.
  - intros i Hi. pose proof (ri_live _ _ _ _ Hr i Hi) as Hl.
    set (id := make_object_id i (v_gen (views ty s i))) in *.
    change (pending ty id []) with 0 in Hl. split; [|intros Ha; destruct Hl as [?|?]; lia].
    split; [intros Ha; destruct Hl as [?|?]; lia|]. intros Hp.
    destruct (ri_handles _ _ _ _ Hr id) as (j & Hj & Hid & Hja).
    { change (pending ty id []) with 0. lia. }
    apply make_object_id_inj in Hid as [-> _]; try done; [lia | by apply (ri_gen _ _ _ _ Hr)..].
  - intros k t j Hk Hj Ha Hty.
    destruct (ri_handles _ _ _ _ Hr (object (aget (entries t) j))) as (i & Hres).
    + pose proof (pending_nonneg ty (object (aget (entries t) j)) []).
      assert (0 < refs ty (object (aget (entries t) j)) (tables s)); [|lia].
      eapply (refs_pos _ _ _ k t j); eauto. unfold is_ref, names. by rewrite Ha, Hty, !Z.eqb_refl.
    + exists i. by eapply resolves_from_id.
Qed.

(** C6: objects live exactly as long as handles name them.  From a state in
    which the counts are right and the locks of the objects and of the tables can be taken, after any sequence of creations, clones, closes
    and table releases, with any faults and allocation failures on the way:
    a shared memory object (graphics surface) is live if and only if some open
    handle of some table names it, its reference count is the number of such
    handles, and every open handle of that type names a live object, so that
    nothing is freed while a handle can reach it and nothing is kept after. *)
Theorem kernel_object_refcounts ops s e : objs_ok s [] -> env_ok s e ->
  Forall (obj_op_ok (tables s)) ops ->
  counted KERNEL_HANDLE_TYPE_SHARED_MEMORY (obj_run ops (s, e)).1 /\
  counted KERNEL_HANDLE_TYPE_GRAPHICS_SURFACE (obj_run ops (s, e)).1.
Proof.
  intros Ho He Hops. destruct (obj_run_ok ops s e Ho He Hops) as [[] _].
  split; by apply rinv_counted.
Qed.

(** ** Shared memory contents *)

(** Memory behaves as memory and taking a lock does not write to it. *)
Class MemoryLaws := {
  load_store e a b v : load8 a (store8 b v e) = if a =? b then v else load8 a e;
  load_acquire e a l : load8 a (kernel_spinlock_acquire l e).2 = load8 a e;
  load_release e a l : load8 a (kernel_spinlock_release l e) = load8 a e;
}.

Lemma store_loop {ML : MemoryLaws} bytes offset n data e a : 0 <= n ->
  load8 a (for_range 0 n (fun i e => store8 (bytes + (offset + i)) (aget data i) e) e)
  = if (bytes + offset <=? a) && (a <? bytes + offset + n) then aget data (a - (bytes + offset))
    else load8 a e.
Proof.
  intros Hn. apply (for_range_inv (fun i e1 => load8 a e1 =
    if (bytes + offset <=? a) && (a <? bytes + offset + i) then aget data (a - (bytes + offset))
    else load8 a e)); [done | |].
  - destruct (bytes + offset <=? a) eqn:E1, (a <? bytes + offset + 0) eqn:E2; bprop; try done; lia.
  - intros i e1 Hi He. rewrite load_store, He.
    destruct (a =? bytes + (offset + i)) eqn:Ea; bprop.
    + subst a. rewrite (proj2 (Z.leb_le _ _)), (proj2 (Z.ltb_lt _ _)) by lia. cbn [andb]. f_equal. lia.
    + destruct (bytes + offset <=? a) eqn:E1, (a <? bytes + offset + i) eqn:E2,
        (a <? bytes + offset + (i + 1)) eqn:E3; bprop; try done; lia.
Qed.

Lemma store_keeps bytes offset n data e : 0 <= n ->
  keeps e (for_range 0 n (fun i e => store8 (bytes + (offset + i)) (aget data i) e) e).
Proof.
  intros Hn. apply (for_range_inv (fun _ e1 => keeps e e1)); [done | apply keeps_refl |].
  intros i e1 _ Hk. eapply keeps_trans; [done|]. intros l. apply store8_ready.
Qed.

(** Shared memory holds what was written.  A write with a data buffer
    answers INVALID without any effect unless the identifier names a live
    object and the range fits in its size; otherwise it changes exactly the
    bytes of that range, and a read of the same range then gives the data back. *)
Theorem shared_memory_write_read {ML : MemoryLaws} id offset data n s e r s' e' :
  ready e object_lock -> 0 <= n <= alen data -> 0 <= offset ->
  kernel_shared_memory_write id offset (Some data) n s e = (r, s', e') ->
  s' = s /\
  match shared_range id offset n s with
  | None => r = KERNEL_OBJECT_ERR_INVALID /\ forall a, load8 a e' = load8 a e
  | Some bytes =>
    r = KERNEL_OBJECT_OK /\
    (forall a, a < bytes + offset \/ bytes + offset + n <= a -> load8 a e' = load8 a e) /\
    (ready e' object_lock ->
     (kernel_shared_memory_read id offset true n s' e').1.1 = (KERNEL_OBJECT_OK, take (Z.to_nat n) data))
  end.
Proof.
  intros He Hn Ho. unfold kernel_shared_memory_write.
  destruct (ready_acquire e object_lock He) as (e1 & Hacq & _). rewrite Hacq. cbn [negb].
  assert (forall a, load8 a e1 = load8 a e) as Hl1
    by (intros a; pose proof (load_acquire e a object_lock) as Hx; by rewrite Hacq in Hx).
  destruct (shared_range id offset n s) as [bytes|] eqn:Hr; intros [= <- <- <-].
  2: { split; [done|]. split; [done|]. intros a. by rewrite load_release. }
  split; [done|]. split; [done|]. split.
  - intros a Ha. rewrite load_release, store_loop by lia. rewrite <- Hl1.
    destruct (bytes + offset <=? a) eqn:E1, (a <? bytes + offset + n) eqn:E2; bprop; try done; lia.
  - intros He2. unfold kernel_shared_memory_read. cbn [negb].
    match goal with |- context [kernel_spinlock_acquire object_lock ?x] => set (e2 := x) in * end.
    destruct (ready_acquire e2 object_lock He2) as (e3 & Hacq2 & _). rewrite Hacq2. cbn [negb].
    rewrite Hr. cbn [fst]. f_equal. apply list_eq. intros j. rewrite list_lookup_fmap.
    destruct (decide (j < Z.to_nat n)%nat) as [Hj|Hj].
    + rewrite lookup_seqZ_lt by lia. rewrite lookup_take_lt by done. simpl.
      pose proof (load_acquire e2 (bytes + (offset + Z.of_nat j)) object_lock) as Hx.
      replace (0 + Z.of_nat j) with (Z.of_nat j) by lia.
      rewrite Hacq2 in Hx. cbn [snd] in Hx. rewrite Hx. unfold e2.
      rewrite load_release, store_loop by lia.
      rewrite (proj2 (Z.leb_le _ _)), (proj2 (Z.ltb_lt _ _)) by lia. cbn [andb].
      replace (bytes + (offset + Z.of_nat j) - (bytes + offset)) with (Z.of_nat j) by lia.
      rewrite <- (Nat2Z.id j) at 2. symmetry. apply lookup_aget. lia.
    + rewrite lookup_seqZ_ge by lia. rewrite lookup_take_ge by lia. done.
Qed.
End Runs.

(** ** Witnesses: a kernel whose environment is a flat memory *)

Definition memory : Type := Z -> Z.
#[export] Instance memory_env : KernelEnv memory := {|
  kernel_spinlock_setup _ _ e := e;
  kernel_spinlock_acquire _ e := (true, e);
  kernel_spinlock_release _ e := e;
  kernel_fault_injection_should_fail _ e := (false, e) |}.
#[export] Instance memory_laws : LockLaws memory.
Proof. refine {| ready _ _ := True |}; [|done|done]. intros e l _. by exists e. Defined.
#[export] Instance memory_objects : ObjectEnv memory := {|
  kmalloc n e := (65536, e);
  kfree _ e := e;
  load8 a e := e a;
  store8 a v e := fun b => if b =? a then v else e b;
  kernel_graphics_surface_backing_allocate i n e := (Some (131072, (n + 4095) / 4096), e);
  kernel_graphics_surface_backing_release _ e := e;
  kernel_graphics_surface_backing_init e := e;
  kernel_sync_init e := e;
  kernel_sync_release_handle_object _ e := e |}.
#[export] Instance memory_object_laws : ObjectLaws memory.
Proof. constructor; done. Defined.
#[export] Instance memory_memory_laws : MemoryLaws (E := memory).
Proof. constructor; done. Defined.

Definition demo_objects : ObjState := {|
  shared_objects := replicate 16 inhabitant; surface_objects := replicate 16 inhabitant;
  tables := demo_tables |}.

Lemma demo_refs ty id : refs ty id demo_tables = 0.
Proof.
  unfold demo_tables. change ({[4096 := demo_table]} : Tables) with (<[4096 := demo_table]> ∅ : Tables).
  rewrite refs_insert_new by done. unfold refs. rewrite map_fold_empty.
  unfold refs_in. rewrite (acount_none (is_ref ty id)); [done|]. intros i Hi.
  destruct (is_active (aget (entries demo_table) i)) eqn:Ha; [|unfold is_ref; by rewrite Ha].
  exfalso. pose proof (acount_pos is_active (entries demo_table) i Hi Ha) as Hp.
  rewrite <- (ti_count _ demo_table_inv) in Hp. by vm_compute in Hp.
Qed.

Lemma demo_objects_ok : objs_ok demo_objects [].
Proof.
  assert (forall ty V, (forall i, 0 <= i < 16 -> v_active (V i) = 0 /\ v_gen (V i) = 0) ->
    rinv ty V demo_tables []) as Hr.
  { intros ty V HV. constructor.
    - intros i Hi. destruct (HV i Hi) as [_ ->]. lia.
    - intros i Hi. left. by apply HV.
    - intros id. rewrite demo_refs. change (pending ty id []) with 0. lia. }
  constructor; try reflexivity.
  - intros k t Hk. change (({[4096 := demo_table]} : Tables) !! k = Some t) in Hk.
    apply lookup_singleton_Some in Hk as [<- <-]. exact demo_table_inv.
  - apply Hr. intros i Hi. unfold views. rewrite Z.eqb_refl.
    assert (aget (shared_objects demo_objects) i = inhabitant) as -> by (apply (aget_replicate 16); lia).
    by split.
  - apply Hr. intros i Hi. unfold views.
    change (KERNEL_HANDLE_TYPE_GRAPHICS_SURFACE =? KERNEL_HANDLE_TYPE_SHARED_MEMORY) with false.
    assert (aget (surface_objects demo_objects) i = inhabitant) as -> by (apply (aget_replicate 16); lia).
    by split.
Qed.

Definition demo_ops : list ObjOp := [OCreateShared 4096 1 100 3; OReleaseTable 4096].

Lemma kernel_object_refcounts_witness :
  counted KERNEL_HANDLE_TYPE_SHARED_MEMORY
    (obj_run (E := memory) demo_ops (demo_objects, fun _ => 0)).1.
Proof.
  refine (proj1 (kernel_object_refcounts (E := memory) demo_ops demo_objects (fun _ => 0) _ _ _)).
  - exact demo_objects_ok.
  - split; [exact I | intros; exact I].
  - assert (4096 ∈ dom (tables demo_objects)) as Hd
      by (apply elem_of_dom; exists demo_table; apply lookup_singleton_eq).
    apply Forall_cons; split; [by right|]. apply Forall_cons; split; [by right | by apply Forall_nil].
Defined.

(** One live object of 100 bytes at address 65536. *)
Definition demo_shared : ObjState := put_shared 0 {| so_active := 1; so_generation := 1;
  so_owner_pid := 1; so_ref_count := 1; so_size := 100; so_page_count := 1; so_rights := 3;
  so_bytes := 65536 |} demo_objects.

Lemma shared_memory_write_read_witness : exists s' e',
  kernel_shared_memory_write (E := memory) (make_object_id 0 1) 98 (Some [7; 9]) 2 demo_shared
    (fun _ => 0) = (KERNEL_OBJECT_OK, s', e') /\
  (kernel_shared_memory_read (make_object_id 0 1) 98 true 2 s' e').1.1 = (KERNEL_OBJECT_OK, [7; 9]).
Proof.
  destruct (kernel_shared_memory_write (E := memory) (make_object_id 0 1) 98 (Some [7; 9]) 2
    demo_shared (fun _ => 0)) as [[r s'] e'] eqn:Hw.
  pose proof (shared_memory_write_read (E := memory) (make_object_id 0 1) 98 [7; 9] 2 demo_shared
    (fun _ => 0) r s' e' I ltac:(unfold alen; simpl; lia) ltac:(lia) Hw) as [_ Hm].
  change (shared_range (make_object_id 0 1) 98 2 demo_shared) with (Some 65536) in Hm.
  destruct Hm as (-> & _ & Hread). exists s', e'. split; [reflexivity|]. exact (Hread I).
Defined.
