(* ===== verification/RingBuffer.v ===== *)
(** * Ring buffers

    The mailboxes and the input queue keep their elements in a fixed array with
    a head index, a tail index and a count.  [ring] is the list such a buffer
    holds; the lemmas give the effect on it of writing at the tail, clearing at
    the head, and closing a gap by shifting. *)

From S2P Require Import Prelude.

Section Ring.
Context {A : Type} `{Inhabited A} (cap : Z) (Hcap : 0 < cap).
Implicit Types (l : list A).

(** The cell of the element number [i] from the head. *)
Definition cell (head i : Z) : Z := (head + i) mod cap.
Definition ring (head count : Z) (l : list A) : list A :=
  (fun i => aget l (cell head i)) <$> seqZ 0 count.

Lemma cell_range head i : 0 <= cell head i < cap.
Proof. apply Z.mod_pos_bound. lia. Qed.

Lemma cell_inj head i j : 0 <= i < cap -> 0 <= j < cap -> cell head i = cell head j -> i = j.
Proof.
  unfold cell. intros Hi Hj He.
  pose proof (Z.div_mod (head + i) cap ltac:(lia)). pose proof (Z.div_mod (head + j) cap ltac:(lia)).
  assert (i - j = cap * ((head + i) / cap - (head + j) / cap)) as Hd by lia.
  assert (- cap < i - j < cap) as Hr by lia.
  assert ((head + i) / cap - (head + j) / cap = 0) as Hz by nia. lia.
Qed.

Lemma cell_next head i : cell ((head + 1) mod cap) i = cell head (i + 1).
Proof. unfold cell. rewrite Z.add_mod_idemp_l by lia. f_equal. lia. Qed.

Lemma cell_0 head : 0 <= head < cap -> cell head 0 = head.
Proof. intros. unfold cell. rewrite Z.add_0_r. by apply Z.mod_small. Qed.

Lemma ring_length head count l : 0 <= count -> length (ring head count l) = Z.to_nat count.
Proof. intros. unfold ring. by rewrite length_fmap, length_seqZ. Qed.

Lemma ring_lookup head count l i : 0 <= i < count ->
  ring head count l !! Z.to_nat i = Some (aget l (cell head i)).
Proof.
  intros Hi. unfold ring. rewrite list_lookup_fmap, lookup_seqZ_lt by lia. simpl.
  do 3 f_equal. lia.
Qed.

Lemma ring_nil head l : ring head 0 l = [].
Proof. done. Qed.

Lemma ring_ext head count head' l l' :
  (forall i, 0 <= i < count -> aget l (cell head i) = aget l' (cell head' i)) ->
  ring head count l = ring head' count l'.
Proof.
  intros He. unfold ring. apply list_fmap_ext. intros i x Hx.
  apply lookup_seqZ in Hx as [-> Hi]. apply He. lia.
Qed.

(** Writing at the tail. *)
Lemma ring_push head count l x : 0 <= count < cap -> alen l = cap ->
  ring head (count + 1) (aset l (cell head count) x) = ring head count l ++ [x].
Proof.
  intros Hc Hl. unfold ring at 1. rewrite seqZ_app by lia. rewrite fmap_app. f_equal.
  - apply ring_ext. intros i Hi. pose proof (cell_range head i). pose proof (cell_range head count).
    apply aget_aset_ne; [lia | lia |]. intros He. apply cell_inj in He; lia.
  - assert (seqZ (0 + count) 1 = [count]) as -> by (unfold seqZ; simpl; f_equal; lia).
    pose proof (cell_range head count). rewrite list_fmap_singleton. by rewrite aget_aset_eq by lia.
Qed.

(** Taking the first element and clearing its cell. *)
Lemma ring_pop head count l z : 0 <= head < cap -> 0 < count <= cap -> alen l = cap ->
  ring head count l = aget l head :: ring ((head + 1) mod cap) (count - 1) (aset l head z).
Proof.
  intros Hh Hc Hl. unfold ring at 1. rewrite seqZ_cons by lia. rewrite fmap_cons, cell_0 by done. f_equal.
  unfold ring. replace (Z.pred count) with (count - 1) by lia.
  replace (seqZ (Z.succ 0) (count - 1)) with (Z.add 1 <$> seqZ 0 (count - 1))
    by (by rewrite fmap_add_seqZ).
  rewrite <- list_fmap_compose.
  apply list_fmap_ext. intros i x Hx. apply lookup_seqZ in Hx as [-> Hi]. cbn [compose].
  rewrite cell_next. replace (0 + Z.of_nat i + 1) with (1 + Z.of_nat i) by lia.
  replace (1 + (0 + Z.of_nat i)) with (1 + Z.of_nat i) by lia.
  pose proof (cell_range head (1 + Z.of_nat i)). symmetry. apply aget_aset_ne; [lia | lia |].
  rewrite <- (cell_0 head) at 1 by done. intros He. apply cell_inj in He; lia.
Qed.

(** Shifting everything after position [k] one cell towards the head. *)
Definition shift_gap (head k count : Z) (l : list A) : list A :=
  for_range k (count - 1) (fun i l => aset l (cell head i) (aget l (cell head (i + 1)))) l.

Lemma shift_gap_get head k count l : alen l = cap -> 0 <= k < count -> count <= cap ->
  alen (shift_gap head k count l) = cap /\
  forall j, 0 <= j < count - 1 ->
    aget (shift_gap head k count l) (cell head j)
    = aget l (cell head (if j <? k then j else j + 1)).
Proof.
  intros Hl Hk Hc. unfold shift_gap.
  assert (let l' := for_range k (count - 1)
            (fun i l => aset l (cell head i) (aget l (cell head (i + 1)))) l in
    alen l' = cap /\ forall j, 0 <= j < count -> aget l' (cell head j)
      = aget l (cell head (if (j <? k) || (count - 1 <=? j) then j else j + 1))) as [H1 H2].
  { apply (for_range_inv (fun i l' => alen l' = cap /\ forall j, 0 <= j < count ->
      aget l' (cell head j) = aget l (cell head (if (j <? k) || (i <=? j) then j else j + 1)))).
    - lia.
    - split; [done|]. intros j Hj.
      destruct (j <? k) eqn:E1, (k <=? j) eqn:E2; bprop; try done; lia.
    - intros i l' Hi [A1 A2]. pose proof (cell_range head i). rewrite alen_aset. split; [done|].
      intros j Hj. pose proof (cell_range head j). rewrite aget_aset by lia. case_decide as He.
      + apply cell_inj in He; [|lia|lia]. subst j. rewrite A2 by lia.
        rewrite (proj2 (Z.leb_le i (i + 1))), orb_true_r by lia.
        rewrite (proj2 (Z.ltb_ge i k)), (proj2 (Z.leb_gt (i + 1) i)) by lia. done.
      + rewrite A2 by lia. do 2 f_equal.
        assert (i <> j) by congruence.
        destruct (j <? k) eqn:E1, (i <=? j) eqn:E2, (i + 1 <=? j) eqn:E3; bprop; try done; lia. }
  split; [done|]. intros j Hj. rewrite H2 by lia.
  by rewrite (proj2 (Z.leb_gt (count - 1) j)), orb_false_r by lia.
Qed.

(** Removing element [k]: shift, then clear the last cell. *)
Lemma ring_remove head k count l z : alen l = cap -> 0 <= k < count -> count <= cap ->
  ring head (count - 1) (aset (shift_gap head k count l) (cell head (count - 1)) z)
  = delete (Z.to_nat k) (ring head count l).
Proof.
  intros Hl Hk Hc. destruct (shift_gap_get head k count l Hl Hk Hc) as [Hl' Hget].
  apply list_eq. intros n. destruct (decide (n < Z.to_nat (count - 1))%nat) as [Hn|Hn].
  2: { rewrite !lookup_ge_None_2; [done| |]; [|rewrite ring_length by lia; lia].
       rewrite length_delete by (rewrite ring_lookup by lia; eauto). rewrite ring_length by lia. lia. }
  rewrite <- (Nat2Z.id n), ring_lookup by lia. pose proof (cell_range head (Z.of_nat n)).
  pose proof (cell_range head (count - 1)).
  rewrite aget_aset_ne; [|lia|lia|intros He; apply cell_inj in He; lia].
  rewrite Hget by lia. rewrite Nat2Z.id.
  destruct (Z.of_nat n <? k) eqn:E; bprop.
  - rewrite list_lookup_delete_lt by lia. by rewrite <- (Nat2Z.id n), ring_lookup, Nat2Z.id by lia.
  - rewrite list_lookup_delete_ge by lia. replace (S n) with (Z.to_nat (Z.of_nat n + 1)) by lia.
    by rewrite ring_lookup by lia.
Qed.
End Ring.
