(* ===== verification/Mailbox.v ===== *)
(** * Process mailboxes ([kernel/ipc/ipc_mailbox.cpp])

    A mailbox is a ring of 16 version-2 messages with delivery counters.  The
    functions take the address of the mailbox (0 for a null pointer; its lock is
    the first member, hence at the same address) and the mailbox found there.
    Message pointers the code tests against null are options. *)

From S2P Require Import Prelude KernelEnv Spinlock RingBuffer.

Definition IPC_MAILBOX_CAPACITY : Z := 16.
Definition OS64_IPC_ABI_VERSION_V2 : Z := 2.
Definition OS_IPC_MESSAGE_PAYLOAD_SIZE : Z := 64.
Definition OS_IPC_V2_MESSAGE_PAYLOAD_SIZE : Z := 96.
Definition OS_IPC_V2_MAX_HANDLES : Z := 2.
Definition OS_IPC_MESSAGE_NONE : Z := 0.
Definition OS_IPC_FLAG_NONE : Z := 0.
Definition OS_IPC_FLAG_REQUEST_REPLY : Z := 1.
Definition OS_IPC_FLAG_HAS_HANDLES : Z := 2.
Definition OS_IPC_FILTER_SENDER : Z := 1.
Definition OS_IPC_FILTER_TYPE : Z := 2.
Definition OS_IPC_FILTER_REPLY_TO : Z := 4.
Definition sizeof_OsIpcMessage : Z := 88.
Definition sizeof_OsIpcMessageV2 : Z := 152.
Definition sizeof_OsIpcReceiveFilter : Z := 24.

Record OsIpcMessage := {
  v1_size : Z; v1_sender_pid : Z; v1_type : Z; v1_flags : Z; v1_length : Z;
  v1_sender_generation : Z; v1_payload : list Z }.
#[export] Instance OsIpcMessage_settable : Settable OsIpcMessage := {| eta_expand m := {|
  v1_size := v1_size m; v1_sender_pid := v1_sender_pid m; v1_type := v1_type m;
  v1_flags := v1_flags m; v1_length := v1_length m;
  v1_sender_generation := v1_sender_generation m; v1_payload := v1_payload m |} |}.

Record OsIpcMessageV2 := {
  v2_size : Z; v2_abi_version : Z; v2_sender_pid : Z; v2_sender_generation : Z; v2_type : Z;
  v2_flags : Z; v2_length : Z; v2_request_id : Z; v2_reply_to : Z; v2_handle_count : Z;
  v2_handles : list Z; v2_payload : list Z }.
#[export] Instance OsIpcMessageV2_settable : Settable OsIpcMessageV2 := {| eta_expand m := {|
  v2_size := v2_size m; v2_abi_version := v2_abi_version m; v2_sender_pid := v2_sender_pid m;
  v2_sender_generation := v2_sender_generation m; v2_type := v2_type m; v2_flags := v2_flags m;
  v2_length := v2_length m; v2_request_id := v2_request_id m; v2_reply_to := v2_reply_to m;
  v2_handle_count := v2_handle_count m; v2_handles := v2_handles m;
  v2_payload := v2_payload m |} |}.

Record OsIpcReceiveFilter := {
  f_size : Z; f_flags : Z; f_sender_pid : Z; f_sender_generation : Z; f_type : Z;
  f_reply_to : Z }.

(** ** Messages *)

(** The message [clear_message_v2] writes. *)
Definition clear_message_v2 : OsIpcMessageV2 := {|
  v2_size := sizeof_OsIpcMessageV2; v2_abi_version := OS64_IPC_ABI_VERSION_V2;
  v2_sender_pid := 0; v2_sender_generation := 0; v2_type := OS_IPC_MESSAGE_NONE;
  v2_flags := OS_IPC_FLAG_NONE; v2_length := 0; v2_request_id := 0; v2_reply_to := 0;
  v2_handle_count := 0; v2_handles := replicate (Z.to_nat OS_IPC_V2_MAX_HANDLES) 0;
  v2_payload := replicate (Z.to_nat OS_IPC_V2_MESSAGE_PAYLOAD_SIZE) 0 |}.
#[export] Instance OsIpcMessageV2_inhabited : Inhabited OsIpcMessageV2 := populate clear_message_v2.

Definition message_shape_valid_v2 (m : option OsIpcMessageV2) : bool :=
  match m with
  | None => false
  | Some m =>
    if negb (v2_size m =? sizeof_OsIpcMessageV2)
       || negb (v2_abi_version m =? OS64_IPC_ABI_VERSION_V2) then false
    else if (OS_IPC_V2_MESSAGE_PAYLOAD_SIZE <? v2_length m)
            || (OS_IPC_V2_MAX_HANDLES <? v2_handle_count m) then false
    else true
  end.

(** The loops copy the 64 payload bytes of a version-1 message over the zeros of
    the cleared target, and the first 64 bytes of a version-2 message back. *)
Definition message_v1_to_v2 (source : option OsIpcMessage) : OsIpcMessageV2 :=
  let target := clear_message_v2 in
  match source with
  | None => target
  | Some s =>
    let target := target <| v2_sender_pid := v1_sender_pid s |>
      <| v2_sender_generation := v1_sender_generation s |> <| v2_type := v1_type s |>
      <| v2_flags := Z.land (v1_flags s) OS_IPC_FLAG_REQUEST_REPLY |>
      <| v2_length := v1_length s |> in
    for_range 0 OS_IPC_MESSAGE_PAYLOAD_SIZE (fun i t =>
      t <| v2_payload := aset (v2_payload t) i (aget (v1_payload s) i) |>) target
  end.

Definition message_v2_to_v1 (s : OsIpcMessageV2) (target : OsIpcMessage) : OsIpcMessage :=
  let target := target <| v1_size := sizeof_OsIpcMessage |>
    <| v1_sender_pid := v2_sender_pid s |> <| v1_type := v2_type s |>
    <| v1_flags := Z.land (v2_flags s) OS_IPC_FLAG_REQUEST_REPLY |>
    <| v1_length := if v2_length s <? OS_IPC_MESSAGE_PAYLOAD_SIZE then v2_length s
                    else OS_IPC_MESSAGE_PAYLOAD_SIZE |>
    <| v1_sender_generation := v2_sender_generation s |> in
  for_range 0 OS_IPC_MESSAGE_PAYLOAD_SIZE (fun i t =>
    t <| v1_payload := aset (v1_payload t) i (aget (v2_payload s) i) |>) target.

Definition filter_matches (filter : option OsIpcReceiveFilter) (m : OsIpcMessageV2) : bool :=
  match filter with
  | None => true
  | Some f =>
    if f_flags f =? 0 then true
    else if negb (f_size f =? sizeof_OsIpcReceiveFilter) then false
    else if nonzero (Z.land (f_flags f) OS_IPC_FILTER_SENDER)
            && (negb (v2_sender_pid m =? f_sender_pid f)
                || negb (v2_sender_generation m =? f_sender_generation f)) then false
    else if nonzero (Z.land (f_flags f) OS_IPC_FILTER_TYPE)
            && negb (v2_type m =? f_type f) then false
    else if nonzero (Z.land (f_flags f) OS_IPC_FILTER_REPLY_TO)
            && negb (v2_reply_to m =? f_reply_to f) then false
    else Z.land (f_flags f)
           (not32 (Z.lor (Z.lor OS_IPC_FILTER_SENDER OS_IPC_FILTER_TYPE) OS_IPC_FILTER_REPLY_TO)) =? 0
  end.

(** ** The mailbox *)

Record KernelIpcMailbox := {
  messages : list OsIpcMessageV2; head : Z; tail : Z; mb_count : Z; delivered_count : Z;
  dropped_count : Z }.
#[export] Instance KernelIpcMailbox_settable : Settable KernelIpcMailbox := {| eta_expand m := {|
  messages := messages m; head := head m; tail := tail m; mb_count := mb_count m;
  delivered_count := delivered_count m; dropped_count := dropped_count m |} |}.

Record KernelIpcMailboxStats := {
  st_capacity : Z; st_count : Z; st_delivered_count : Z; st_dropped_count : Z }.

(** Bodies under the lock. *)

Definition push_body (message : OsIpcMessageV2) (m : KernelIpcMailbox) : Z * KernelIpcMailbox :=
  if mb_count m =? IPC_MAILBOX_CAPACITY then
    (0, m <| dropped_count := u32 (dropped_count m + 1) |>)
  else
    let m := m <| messages := aset (messages m) (tail m) message |> in
    let m := m <| tail := u32 (tail m + 1) mod IPC_MAILBOX_CAPACITY |> in
    (1, m <| mb_count := u32 (mb_count m + 1) |>).

(** The popped message is in the answer. *)
Definition pop_body (m : KernelIpcMailbox) : (Z * option OsIpcMessageV2) * KernelIpcMailbox :=
  if mb_count m =? 0 then ((0, None), m)
  else
    let message := aget (messages m) (head m) in
    let m := m <| messages := aset (messages m) (head m) clear_message_v2 |> in
    let m := m <| head := u32 (head m + 1) mod IPC_MAILBOX_CAPACITY |> in
    let m := m <| mb_count := mb_count m - 1 |> in
    ((1, Some message), m <| delivered_count := u32 (delivered_count m + 1) |>).

Definition pop_match_body (filter : option OsIpcReceiveFilter) (m : KernelIpcMailbox)
    : (Z * option OsIpcMessageV2) * KernelIpcMailbox :=
  if mb_count m =? 0 then ((0, None), m)
  else
    match find_first (fun i =>
            filter_matches filter (aget (messages m) (u32 (head m + i) mod IPC_MAILBOX_CAPACITY)))
            0 (Z.to_nat (mb_count m)) with
    | None => ((0, None), m)
    | Some found_offset =>
      let found_index := u32 (head m + found_offset) mod IPC_MAILBOX_CAPACITY in
      let message := aget (messages m) found_index in
      let m := for_range found_offset (mb_count m - 1) (fun i m =>
        let current := u32 (head m + i) mod IPC_MAILBOX_CAPACITY in
        let next := u32 (head m + i + 1) mod IPC_MAILBOX_CAPACITY in
        m <| messages := aset (messages m) current (aget (messages m) next) |>) m in
      let m := m <| tail := u32 (tail m + IPC_MAILBOX_CAPACITY - 1) mod IPC_MAILBOX_CAPACITY |> in
      let m := m <| messages := aset (messages m) (tail m) clear_message_v2 |> in
      let m := m <| mb_count := mb_count m - 1 |> in
      ((1, Some message), m <| delivered_count := u32 (delivered_count m + 1) |>)
    end.

Definition clear_all (m : KernelIpcMailbox) : KernelIpcMailbox :=
  for_range 0 IPC_MAILBOX_CAPACITY (fun i m =>
    m <| messages := aset (messages m) i clear_message_v2 |>) m.

Definition drop_all_body (m : KernelIpcMailbox) : KernelIpcMailbox :=
  let m := m <| dropped_count := u32 (dropped_count m + mb_count m) |> in
  (clear_all m) <| head := 0 |> <| tail := 0 |> <| mb_count := 0 |>.

Definition init_mailbox (m : KernelIpcMailbox) : KernelIpcMailbox :=
  clear_all (m <| head := 0 |> <| tail := 0 |> <| mb_count := 0 |> <| delivered_count := 0 |>
               <| dropped_count := 0 |>).

Section Operations.
Context {E : Type} `{KernelEnv E}.

Definition ipc_mailbox_init (mailbox : Z) (m : KernelIpcMailbox) (e : E) : KernelIpcMailbox * E :=
  if mailbox =? 0 then (m, e)
  else (init_mailbox m, kernel_spinlock_setup mailbox KERNEL_LOCK_CLASS_IPC_SERVICE e).

Definition ipc_mailbox_capacity (mailbox : Z) : Z := if mailbox =? 0 then 0 else IPC_MAILBOX_CAPACITY.

Definition ipc_mailbox_get_stats (mailbox : Z) (m : KernelIpcMailbox) (e : E)
    : KernelIpcMailboxStats * KernelIpcMailbox * E :=
  let zero := {| st_capacity := IPC_MAILBOX_CAPACITY; st_count := 0; st_delivered_count := 0;
                 st_dropped_count := 0 |} in
  if mailbox =? 0 then (zero, m, e)
  else with_lock mailbox zero (fun m =>
    ({| st_capacity := IPC_MAILBOX_CAPACITY; st_count := mb_count m;
        st_delivered_count := delivered_count m; st_dropped_count := dropped_count m |}, m)) m e.

Definition ipc_mailbox_count (mailbox : Z) (m : KernelIpcMailbox) (e : E) : Z * KernelIpcMailbox * E :=
  let '(st, m, e) := ipc_mailbox_get_stats mailbox m e in (st_count st, m, e).
Definition ipc_mailbox_delivered_count (mailbox : Z) (m : KernelIpcMailbox) (e : E)
    : Z * KernelIpcMailbox * E :=
  let '(st, m, e) := ipc_mailbox_get_stats mailbox m e in (st_delivered_count st, m, e).
Definition ipc_mailbox_dropped_count (mailbox : Z) (m : KernelIpcMailbox) (e : E)
    : Z * KernelIpcMailbox * E :=
  let '(st, m, e) := ipc_mailbox_get_stats mailbox m e in (st_dropped_count st, m, e).
Definition ipc_mailbox_is_empty (mailbox : Z) (m : KernelIpcMailbox) (e : E)
    : bool * KernelIpcMailbox * E :=
  let '(n, m, e) := ipc_mailbox_count mailbox m e in (n =? 0, m, e).
Definition ipc_mailbox_is_full (mailbox : Z) (m : KernelIpcMailbox) (e : E)
    : bool * KernelIpcMailbox * E :=
  let '(n, m, e) := ipc_mailbox_count mailbox m e in (n =? IPC_MAILBOX_CAPACITY, m, e).

Definition ipc_mailbox_push_v2 (mailbox : Z) (message : option OsIpcMessageV2)
    (m : KernelIpcMailbox) (e : E) : Z * KernelIpcMailbox * E :=
  match message with
  | None => (0, m, e)
  | Some msg =>
    if (mailbox =? 0) || negb (message_shape_valid_v2 message) then (0, m, e)
    else
      let '(fault, e) := kernel_fault_injection_should_fail KERNEL_FAULT_POINT_MAILBOX e in
      if fault then (0, m, e) else with_lock mailbox 0 (push_body msg) m e
  end.

Definition ipc_mailbox_pop_v2 (mailbox : Z) (message : bool) (m : KernelIpcMailbox) (e : E)
    : (Z * option OsIpcMessageV2) * KernelIpcMailbox * E :=
  if (mailbox =? 0) || negb message then ((0, None), m, e)
  else with_lock mailbox (0, None) pop_body m e.

Definition ipc_mailbox_pop_v2_match (mailbox : Z) (filter : option OsIpcReceiveFilter)
    (message : bool) (m : KernelIpcMailbox) (e : E)
    : (Z * option OsIpcMessageV2) * KernelIpcMailbox * E :=
  if (mailbox =? 0) || negb message then ((0, None), m, e)
  else with_lock mailbox (0, None) (pop_match_body filter) m e.

Definition ipc_mailbox_push (mailbox : Z) (message : option OsIpcMessage)
    (m : KernelIpcMailbox) (e : E) : Z * KernelIpcMailbox * E :=
  match message with
  | None => (0, m, e)
  | Some msg =>
    if negb (v1_size msg =? sizeof_OsIpcMessage) || (OS_IPC_MESSAGE_PAYLOAD_SIZE <? v1_length msg)
    then (0, m, e)
    else ipc_mailbox_push_v2 mailbox (Some (message_v1_to_v2 message)) m e
  end.

(** [message] is the caller's buffer, whose old contents the conversion overwrites. *)
Definition ipc_mailbox_pop (mailbox : Z) (message : option OsIpcMessage)
    (m : KernelIpcMailbox) (e : E) : (Z * option OsIpcMessage) * KernelIpcMailbox * E :=
  let '(r, converted, m, e) := ipc_mailbox_pop_v2 mailbox true m e in
  match converted with
  | Some c => if r =? 0 then ((0, message), m, e)
              else ((1, message_v2_to_v1 c <$> message), m, e)
  | None => ((0, message), m, e)
  end.

Definition ipc_mailbox_drop_all (mailbox : Z) (m : KernelIpcMailbox) (e : E) : KernelIpcMailbox * E :=
  if mailbox =? 0 then (m, e)
  else let '(_, m, e) := with_lock mailbox tt (fun m => (tt, drop_all_body m)) m e in (m, e).
End Operations.
