(* ===== verification/MailboxSpec.v ===== *)
(** * Mailboxes are bounded queues

    The abstract mailbox is a list of at most 16 messages with two counters;
    the operations of [kernel/ipc/ipc_mailbox.cpp] implement it. *)

From S2P Require Import Prelude KernelEnv RingBuffer Mailbox.

(** ** The invariant and the abstraction *)

Record mb_inv (m : KernelIpcMailbox) : Prop := {
  mb_len : alen (messages m) = IPC_MAILBOX_CAPACITY;
  mb_head : 0 <= head m < IPC_MAILBOX_CAPACITY;
  mb_cnt : 0 <= mb_count m <= IPC_MAILBOX_CAPACITY;
  mb_tail : tail m = (head m + mb_count m) mod IPC_MAILBOX_CAPACITY;
}.

Definition contents (m : KernelIpcMailbox) : list OsIpcMessageV2 :=
  ring IPC_MAILBOX_CAPACITY (head m) (mb_count m) (messages m).

(** The abstract mailbox. *)
Record Queue := { q_list : list OsIpcMessageV2; q_delivered : Z; q_dropped : Z }.
Definition abs_mailbox (m : KernelIpcMailbox) : Queue :=
  {| q_list := contents m; q_delivered := delivered_count m; q_dropped := dropped_count m |}.

Inductive MailboxOp :=
| MPush (message : option OsIpcMessageV2)
| MPop
| MPopMatch (filter : option OsIpcReceiveFilter)
| MDropAll.

(** The position of the first message a filter accepts. *)
Fixpoint first_match (filter : option OsIpcReceiveFilter) (q : list OsIpcMessageV2) : option nat :=
  match q with
  | [] => None
  | x :: q => if filter_matches filter x then Some 0%nat else S <$> first_match filter q
  end.

(** Return value, message handed out, and the queue after the operation. *)
Definition queue_step (op : MailboxOp) (q : Queue) : (Z * option OsIpcMessageV2) * Queue :=
  match op with
  | MPush None => ((0, None), q)
  | MPush (Some msg) =>
    if decide (length (q_list q) = 16%nat)
    then ((0, None), {| q_list := q_list q; q_delivered := q_delivered q;
                        q_dropped := u32 (q_dropped q + 1) |})
    else ((1, None), {| q_list := q_list q ++ [msg]; q_delivered := q_delivered q;
                        q_dropped := q_dropped q |})
  | MPop =>
    match q_list q with
    | [] => ((0, None), q)
    | x :: rest => ((1, Some x), {| q_list := rest; q_delivered := u32 (q_delivered q + 1);
                                    q_dropped := q_dropped q |})
    end
  | MPopMatch f =>
    match first_match f (q_list q) with
    | None => ((0, None), q)
    | Some k => ((1, q_list q !! k), {| q_list := delete k (q_list q);
                                        q_delivered := u32 (q_delivered q + 1);
                                        q_dropped := q_dropped q |})
    end
  | MDropAll => ((0, None), {| q_list := []; q_delivered := q_delivered q;
      q_dropped := u32 (q_dropped q + Z.of_nat (length (q_list q))) |})
  end.

Ltac mailbox_consts := unfold IPC_MAILBOX_CAPACITY in *.

Lemma contents_length m : mb_inv m -> Z.of_nat (length (contents m)) = mb_count m.
Proof. intros []. unfold contents. rewrite ring_length by lia. lia. Qed.

(** ** Push and pop *)

Lemma push_refines msg m : mb_inv m ->
  mb_inv (push_body msg m).2 /\
  queue_step (MPush (Some msg)) (abs_mailbox m)
  = (((push_body msg m).1, None), abs_mailbox (push_body msg m).2).
Proof.
  intros Hinv. pose proof (contents_length m Hinv) as Hn. pose proof Hinv as [Hl Hh Hc Ht].
  unfold push_body, queue_step. cbn [abs_mailbox q_list q_delivered q_dropped]. mailbox_consts.
  destruct (mb_count m =? 16) eqn:Hfull; bprop.
  - rewrite decide_True by lia. by split; [constructor|].
  - rewrite decide_False by lia. pose proof (Z.mod_pos_bound (head m + mb_count m) 16 ltac:(lia)).
    cbn [fst snd]. split.
    + constructor; simpl; mailbox_consts; [by rewrite alen_aset | lia | unwrap; lia |].
      rewrite Ht. unwrap. rewrite Z.add_mod_idemp_l by lia. f_equal. lia.
    + f_equal. unfold abs_mailbox. simpl. f_equal. unfold contents. simpl. mailbox_consts. unwrap.
      rewrite Ht. symmetry. apply (ring_push 16); lia.
Qed.

Lemma pop_refines m : mb_inv m ->
  mb_inv (pop_body m).2 /\
  queue_step MPop (abs_mailbox m) = ((pop_body m).1, abs_mailbox (pop_body m).2).
Proof.
  intros Hinv. pose proof Hinv as [Hl Hh Hc Ht]. unfold pop_body, queue_step.
  cbn [abs_mailbox q_list q_delivered q_dropped]. mailbox_consts.
  destruct (mb_count m =? 0) eqn:Hz; bprop.
  - unfold contents. rewrite Hz. by split.
  - unfold contents. mailbox_consts.
    rewrite (ring_pop 16 ltac:(lia) (head m) (mb_count m) (messages m) clear_message_v2) by lia.
    cbn [fst snd]. pose proof (Z.mod_pos_bound (head m + 1) 16 ltac:(lia)). split.
    + constructor; simpl; mailbox_consts; unwrap; [by rewrite alen_aset | lia | lia |].
      rewrite Ht, Z.add_mod_idemp_l by lia. f_equal. lia.
    + unfold abs_mailbox, contents. simpl. mailbox_consts. by unwrap.
Qed.

(** ** Selective receive *)

Lemma first_match_find f q (get : Z -> OsIpcMessageV2) base n :
  length q = n -> (forall i, 0 <= i < Z.of_nat n -> q !! Z.to_nat i = Some (get (base + i))) ->
  find_first (fun i => filter_matches f (get i)) base n
  = (fun k => base + Z.of_nat k) <$> first_match f q.
Proof.
  revert q base. induction n as [|n IH]; intros [|x q] base Hlen Hget; try done.
  cbn [find_first first_match].
  pose proof (Hget 0 ltac:(lia)) as H0. rewrite Z.add_0_r in H0. injection H0 as <-.
  destruct (filter_matches f x); [simpl; f_equal; lia|].
  rewrite (IH q).
  - destruct (first_match f q); simpl; [f_equal; lia | done].
  - by injection Hlen.
  - intros i Hi. pose proof (Hget (i + 1) ltac:(lia)) as H1.
    replace (Z.to_nat (i + 1)) with (S (Z.to_nat i)) in H1 by lia. simpl in H1. rewrite H1.
    do 2 f_equal. lia.
Qed.

(** The shifting loop on the mailbox is [shift_gap] on its array. *)
Lemma shift_loop k m : mb_inv m -> 0 <= k < mb_count m ->
  for_range k (mb_count m - 1) (fun i m =>
    let current := u32 (head m + i) mod IPC_MAILBOX_CAPACITY in
    let next := u32 (head m + i + 1) mod IPC_MAILBOX_CAPACITY in
    m <| messages := aset (messages m) current (aget (messages m) next) |>) m
  = m <| messages := shift_gap IPC_MAILBOX_CAPACITY (head m) k (mb_count m) (messages m) |>.
Proof.
  intros [Hl Hh Hc Ht] Hk. unfold shift_gap. mailbox_consts.
  assert (forall hi, k <= hi <= mb_count m - 1 ->
    for_range k hi (fun i m =>
      let current := u32 (head m + i) mod 16 in
      let next := u32 (head m + i + 1) mod 16 in
      m <| messages := aset (messages m) current (aget (messages m) next) |>) m
    = m <| messages := for_range k hi (fun i l =>
        aset l (cell 16 (head m) i) (aget l (cell 16 (head m) (i + 1)))) (messages m) |>) as Hloop.
  { intros hi Hhi. unfold for_range.
    assert (forall l m0, head m0 = head m -> (forall i, i ∈ l -> 0 <= i < 32) ->
      foldl (fun s i => let current := u32 (head s + i) mod 16 in
        let next := u32 (head s + i + 1) mod 16 in
        s <| messages := aset (messages s) current (aget (messages s) next) |>) m0 l
      = m0 <| messages := foldl (fun s i => aset s (cell 16 (head m) i)
                (aget s (cell 16 (head m) (i + 1)))) (messages m0) l |>) as Hf.
    { induction l as [|i l IH]; intros m0 Hm0 Hl0; [by destruct m0|]. cbn [foldl].
      pose proof (Hl0 i ltac:(left)) as Hi.
      rewrite IH; [|done | intros j Hj; apply Hl0; by right].
      simpl. rewrite Hm0. unfold cell. rewrite !u32_small by (unfold is_u32; lia).
      unfold set_field. simpl. by rewrite Z.add_assoc. }
    apply Hf; [done|]. intros i Hi%elem_of_seqZ. lia. }
  apply Hloop. lia.
Qed.

Lemma pop_match_refines f m : mb_inv m ->
  mb_inv (pop_match_body f m).2 /\
  queue_step (MPopMatch f) (abs_mailbox m)
  = ((pop_match_body f m).1, abs_mailbox (pop_match_body f m).2).
Proof.
  intros Hinv. pose proof Hinv as [Hl Hh Hc Ht]. unfold pop_match_body, queue_step.
  cbn [abs_mailbox q_list q_delivered q_dropped].
  destruct (mb_count m =? 0) eqn:Hz; bprop.
  { unfold contents. rewrite Hz. by split. }
  assert (find_first (fun i => filter_matches f
      (aget (messages m) (u32 (head m + i) mod IPC_MAILBOX_CAPACITY))) 0 (Z.to_nat (mb_count m))
    = (fun k => 0 + Z.of_nat k) <$> first_match f (contents m)) as Hfind.
  { apply (first_match_find f (contents m)
      (fun i => aget (messages m) (u32 (head m + i) mod IPC_MAILBOX_CAPACITY))).
    - unfold contents. rewrite ring_length by lia. done.
    - intros i Hi. unfold contents. mailbox_consts. rewrite (ring_lookup 16) by lia.
      unfold cell. rewrite Z.add_0_l. by rewrite u32_small by (unfold is_u32; lia). }
  rewrite Hfind. destruct (first_match f (contents m)) as [k|] eqn:Hk; [|by split].
  assert (0 <= Z.of_nat k < mb_count m) as Hkr.
  { pose proof Hfind as Hf2. simpl in Hf2. apply find_first_Some in Hf2 as (? & _). lia. }
  cbn [fmap option_fmap option_map]. rewrite Z.add_0_l, shift_loop by done.
  pose proof (cell_range 16 ltac:(lia) (head m) (mb_count m - 1)) as Hcell.
  pose proof (shift_gap_get 16 ltac:(lia) (head m) (Z.of_nat k) (mb_count m) (messages m)) as Hsg.
  mailbox_consts. destruct Hsg as [Hsl _]; [done | done | lia|].
  assert (u32 (tail m + 16 - 1) mod 16 = cell 16 (head m) (mb_count m - 1)) as Htail.
  { rewrite Ht. pose proof (Z.mod_pos_bound (head m + mb_count m) 16 ltac:(lia)).
    rewrite u32_small by (unfold is_u32; lia). unfold cell.
    replace ((head m + mb_count m) mod 16 + 16 - 1) with ((head m + mb_count m) mod 16 + 15) by lia.
    rewrite Z.add_mod_idemp_l by lia.
    replace (head m + mb_count m + 15) with (head m + (mb_count m - 1) + 1 * 16) by lia.
    by rewrite Z.mod_add by lia. }
  cbn [fst snd]. split.
  - constructor; simpl; mailbox_consts; rewrite ?Htail; [by rewrite alen_aset | lia | lia | done].
  - unfold abs_mailbox, contents. simpl. mailbox_consts. rewrite Htail.
    rewrite (ring_remove 16) by lia. rewrite Nat2Z.id. f_equal. f_equal.
    rewrite u32_small by (unfold is_u32; lia). rewrite <- (Nat2Z.id k) at 1.
    by rewrite (ring_lookup 16) by lia.
Qed.

(** ** Dropping everything *)

Lemma clear_all_spec m : alen (messages m) = IPC_MAILBOX_CAPACITY ->
  clear_all m = m <| messages := (fun _ => clear_message_v2) <$> messages m |>.
Proof.
  intros Hl. unfold clear_all. rewrite <- (mapped_all _ IPC_MAILBOX_CAPACITY) by lia.
  apply (for_range_inv (fun i m' =>
    m' = m <| messages := mapped (fun _ => clear_message_v2) i (messages m) |>));
    [done | by destruct m |].
  intros i m' Hi ->. unfold set_field. simpl. f_equal.
  by apply (aset_mapped (fun _ => clear_message_v2)); lia.
Qed.

Lemma drop_all_refines m : mb_inv m ->
  mb_inv (drop_all_body m) /\
  queue_step MDropAll (abs_mailbox m) = ((0, None), abs_mailbox (drop_all_body m)).
Proof.
  intros Hinv. pose proof (contents_length m Hinv) as Hn. pose proof Hinv as [Hl Hh Hc Ht].
  unfold drop_all_body. rewrite clear_all_spec by done. split.
  - constructor; simpl; mailbox_consts; [by rewrite alen_fmap | lia | lia | done].
  - unfold queue_step. cbn [abs_mailbox q_list q_delivered q_dropped]. by rewrite Hn.
Qed.

Lemma init_mailbox_inv m : alen (messages m) = IPC_MAILBOX_CAPACITY ->
  mb_inv (init_mailbox m) /\ contents (init_mailbox m) = [].
Proof.
  intros Hl. unfold init_mailbox. rewrite clear_all_spec by done.
  split; [constructor; simpl; mailbox_consts; [by rewrite alen_fmap | lia | lia | done] | done].
Qed.

(** ** The operations *)

Section Refinement.
Context {E : Type} `{KernelEnv E}.

Definition mailbox_exec (op : MailboxOp) (mailbox : Z) (m : KernelIpcMailbox) (e : E)
    : (Z * option OsIpcMessageV2) * KernelIpcMailbox * E :=
  match op with
  | MPush msg => let '(r, m, e) := ipc_mailbox_push_v2 mailbox msg m e in ((r, None), m, e)
  | MPop => ipc_mailbox_pop_v2 mailbox true m e
  | MPopMatch f => ipc_mailbox_pop_v2_match mailbox f true m e
  | MDropAll => let '(m, e) := ipc_mailbox_drop_all mailbox m e in ((0, None), m, e)
  end.

(** The operation is turned away before it touches the queue. *)
Definition mailbox_refused (op : MailboxOp) (mailbox : Z) (e : E) : Prop :=
  mailbox = 0 \/
  match op with
  | MPush msg => message_shape_valid_v2 msg = false \/
      exists e1, kernel_fault_injection_should_fail KERNEL_FAULT_POINT_MAILBOX e = (true, e1) \/
        (kernel_fault_injection_should_fail KERNEL_FAULT_POINT_MAILBOX e = (false, e1) /\
         (kernel_spinlock_acquire mailbox e1).1 = false)
  | _ => (kernel_spinlock_acquire mailbox e).1 = false
  end.

Lemma with_lock_cases {S A} l (fail : A) (body : S -> A * S) s (e : E) :
  ((kernel_spinlock_acquire l e).1 = false /\ (with_lock l fail body s e).1 = (fail, s)) \/
  (with_lock l fail body s e).1 = body s.
Proof.
  unfold with_lock. destruct (kernel_spinlock_acquire l e) as [[] e1]; [right | by left].
  by destruct (body s).
Qed.

(** C35: a mailbox is a bounded first-in first-out queue.  Every operation keeps
    the ring invariant and is either turned away without effect (null mailbox,
    malformed message, armed fault point, lock not granted) or acts on the list
    of waiting messages exactly as the abstract queue: a push appends, or on a
    queue of 16 only counts a drop; a pop takes the oldest message; a filtered
    pop takes the oldest message the filter accepts and leaves the others in
    their order; dropping empties the queue and counts what was lost. *)
Theorem mailbox_refines_queue op mailbox m e : mb_inv m ->
  let r := mailbox_exec op mailbox m e in
  mb_inv r.1.2 /\
  ((mailbox_refused op mailbox e /\ r.1 = ((0, None), m)) \/
   queue_step op (abs_mailbox m) = (r.1.1, abs_mailbox r.1.2)).
Proof.
  intros Hinv. cbv zeta. unfold mailbox_refused. destruct op as [msg| |f|]; cbn [mailbox_exec].
  - unfold ipc_mailbox_push_v2. destruct msg as [msg|]; [|split; [done|]; left; split; [by right; left | done]].
    destruct ((mailbox =? 0) || _) eqn:Hbad.
    { split; [done|]. left. split; [|done]. apply orb_true_iff in Hbad as [Hb|Hb]; bprop; auto. }
    destruct (kernel_fault_injection_should_fail _ e) as [[] e1] eqn:Hf.
    { split; [done|]. left. split; [|done]. eauto 8. }
    destruct (push_refines msg m Hinv) as [Hi Hs].
    destruct (with_lock_cases mailbox 0 (push_body msg) m e1) as [[Ha Hw]|Hw];
      destruct (with_lock _ _ _ _ _) as [[r m'] e2]; cbn [fst snd] in *.
    + injection Hw as -> ->. split; [done|]. left. split; [|done]. eauto 10.
    + rewrite <- Hw in *. cbn [fst snd] in *. split; [done|]. by right.
  - unfold ipc_mailbox_pop_v2. rewrite orb_false_r.
    destruct (mailbox =? 0) eqn:Hz; [split; [done|]; left; bprop; auto|].
    destruct (pop_refines m Hinv) as [Hi Hs].
    destruct (with_lock_cases mailbox (0, None) pop_body m e) as [[Ha Hw]|Hw]; rewrite Hw; cbn [fst snd].
    + split; [done|]. left. auto.
    + rewrite surjective_pairing in Hw. split; [done|]. right. done.
  - unfold ipc_mailbox_pop_v2_match. rewrite orb_false_r.
    destruct (mailbox =? 0) eqn:Hz; [split; [done|]; left; bprop; auto|].
    destruct (pop_match_refines f m Hinv) as [Hi Hs].
    destruct (with_lock_cases mailbox (0, None) (pop_match_body f) m e) as [[Ha Hw]|Hw]; rewrite Hw; cbn [fst snd].
    + split; [done|]. left. auto.
    + split; [done|]. right. done.
  - unfold ipc_mailbox_drop_all. destruct (mailbox =? 0) eqn:Hz; [split; [done|]; left; bprop; auto|].
    destruct (drop_all_refines m Hinv) as [Hi Hs].
    destruct (with_lock_cases mailbox tt (fun m => (tt, drop_all_body m)) m e) as [[Ha Hw]|Hw];
      destruct (with_lock _ _ _ _ _) as [[[] m'] e2]; cbn [fst snd] in *.
    + injection Hw as ->. split; [done|]. left. auto.
    + injection Hw as ->. split; [done|]. by right.
Qed.
End Refinement.

(** ** Version 1 messages *)

Lemma v1_to_v2_payload s :
  let base := clear_message_v2 <| v2_sender_pid := v1_sender_pid s |>
      <| v2_sender_generation := v1_sender_generation s |> <| v2_type := v1_type s |>
      <| v2_flags := Z.land (v1_flags s) OS_IPC_FLAG_REQUEST_REPLY |>
      <| v2_length := v1_length s |> in
  exists pl, message_v1_to_v2 (Some s) = base <| v2_payload := pl |> /\
    forall i, 0 <= i < OS_IPC_MESSAGE_PAYLOAD_SIZE -> aget pl i = aget (v1_payload s) i.
Proof.
  intros base. unfold message_v1_to_v2. fold base.
  destruct (for_range_inv (fun i t => exists pl, t = base <| v2_payload := pl |> /\ alen pl = 96 /\
      forall j, 0 <= j < i -> aget pl j = aget (v1_payload s) j) 0 OS_IPC_MESSAGE_PAYLOAD_SIZE
    (fun i t => t <| v2_payload := aset (v2_payload t) i (aget (v1_payload s) i) |>) base)
    as (pl & Heq & _ & Hpl); [done | | |].
  - exists (v2_payload base). split; [done|]. split; [done|]. lia.
  - intros i t Hi (pl & -> & Hl & Hpl). exists (aset pl i (aget (v1_payload s) i)).
    unfold OS_IPC_MESSAGE_PAYLOAD_SIZE in Hi.
    split; [done|]. split; [by rewrite alen_aset|]. intros j Hj. rewrite aget_aset by lia.
    case_decide; [by subst | apply Hpl; lia].
  - exists pl. split; [exact Heq | done].
Qed.

Lemma v2_to_v1_payload s t : alen (v1_payload t) = OS_IPC_MESSAGE_PAYLOAD_SIZE ->
  exists pl, message_v2_to_v1 s t = {| v1_size := sizeof_OsIpcMessage;
      v1_sender_pid := v2_sender_pid s; v1_type := v2_type s;
      v1_flags := Z.land (v2_flags s) OS_IPC_FLAG_REQUEST_REPLY;
      v1_length := Z.min (v2_length s) OS_IPC_MESSAGE_PAYLOAD_SIZE;
      v1_sender_generation := v2_sender_generation s; v1_payload := pl |} /\
    alen pl = OS_IPC_MESSAGE_PAYLOAD_SIZE /\
    forall i, 0 <= i < OS_IPC_MESSAGE_PAYLOAD_SIZE -> aget pl i = aget (v2_payload s) i.
Proof.
  intros Hl. unfold message_v2_to_v1.
  set (base := t <| v1_size := _ |> <| v1_sender_pid := _ |> <| v1_type := _ |> <| v1_flags := _ |>
                 <| v1_length := _ |> <| v1_sender_generation := _ |>).
  destruct (for_range_inv (fun i x => exists pl, x = base <| v1_payload := pl |> /\
      alen pl = OS_IPC_MESSAGE_PAYLOAD_SIZE /\
      forall j, 0 <= j < i -> aget pl j = aget (v2_payload s) j) 0 OS_IPC_MESSAGE_PAYLOAD_SIZE
    (fun i x => x <| v1_payload := aset (v1_payload x) i (aget (v2_payload s) i) |>) base)
    as (pl & Heq & Hpl & Hget); [done | | |].
  - exists (v1_payload base). split; [by destruct t|]. split; [done|]. lia.
  - intros i x Hi (pl & -> & Hpl & Hget). exists (aset pl i (aget (v2_payload s) i)).
    split; [done|]. split; [by rewrite alen_aset|]. intros j Hj. rewrite aget_aset by lia.
    case_decide; [by subst | apply Hget; lia].
  - exists pl. split; [|done]. rewrite Heq. unfold base, set_field. simpl. f_equal.
    case_match; bprop; lia.
Qed.

(** Version-1 messages survive the version-2 mailbox.  Converting a
    version-1 message for the mailbox and back, into any buffer, gives the
    message back with its sender, type, length and 64 payload bytes; of its
    flags only the request/reply flag is carried. *)
Theorem message_v1_roundtrip s t : v1_size s = sizeof_OsIpcMessage ->
  v1_length s <= OS_IPC_MESSAGE_PAYLOAD_SIZE ->
  alen (v1_payload s) = OS_IPC_MESSAGE_PAYLOAD_SIZE ->
  alen (v1_payload t) = OS_IPC_MESSAGE_PAYLOAD_SIZE ->
  message_v2_to_v1 (message_v1_to_v2 (Some s)) t
  = s <| v1_flags := Z.land (v1_flags s) OS_IPC_FLAG_REQUEST_REPLY |>.
Proof.
  intros Hsz Hlen Hs Ht. destruct (v1_to_v2_payload s) as (pl & -> & Hpl).
  match goal with |- message_v2_to_v1 ?m t = _ =>
    destruct (v2_to_v1_payload m t Ht) as (pl' & -> & Hl' & Hpl') end.
  simpl in Hpl' |- *. unfold set_field. simpl. f_equal; [done | | lia |].
  - by rewrite <- Z.land_assoc, Z.land_diag.
  - apply array_ext; [lia|]. intros i Hi. rewrite Hpl', Hpl by lia. done.
Qed.

(** ** Witnesses *)

Definition demo_mailbox : KernelIpcMailbox := init_mailbox
  {| messages := replicate 16 clear_message_v2; head := 0; tail := 0; mb_count := 0;
     delivered_count := 0; dropped_count := 0 |}.
Definition demo_message : OsIpcMessageV2 :=
  clear_message_v2 <| v2_sender_pid := 7 |> <| v2_type := 1 |>.

Lemma mailbox_refines_queue_witness :
  contents (mailbox_exec (E := unit) (MPush (Some demo_message)) 4096 demo_mailbox tt).1.2
  = [demo_message].
Proof.
  destruct (init_mailbox_inv {| messages := replicate 16 clear_message_v2; head := 0; tail := 0;
    mb_count := 0; delivered_count := 0; dropped_count := 0 |} eq_refl) as [Hinv Hempty].
  destruct (mailbox_refines_queue (E := unit) (MPush (Some demo_message)) 4096 demo_mailbox tt Hinv)
    as [_ [[[Hz|[Hv|[e1 [Hf|[_ Hf]]]]] _]|Hq]]; [discriminate.. | ].
  unfold queue_step in Hq. cbn [abs_mailbox q_list] in Hq. rewrite decide_False in Hq.
  - apply (f_equal (fun p => q_list p.2)) in Hq. cbn [snd q_list abs_mailbox] in Hq.
    symmetry in Hq. etransitivity; [exact Hq|]. cbn [q_list]. unfold demo_mailbox.
    rewrite Hempty. reflexivity.
  - unfold demo_mailbox. rewrite Hempty. discriminate.
Defined.

Lemma message_v1_roundtrip_witness : exists s,
  v1_payload (message_v2_to_v1 (message_v1_to_v2 (Some s)) s) = replicate 64 5 /\ v1_flags s = 3.
Proof.
  exists {| v1_size := 88; v1_sender_pid := 4; v1_type := 1; v1_flags := 3; v1_length := 10;
     v1_sender_generation := 2; v1_payload := replicate 64 5 |}.
  split; [|reflexivity]. rewrite message_v1_roundtrip; reflexivity || discriminate.
Defined.
