(* ===== verification/InputQueue.v ===== *)
(** * Input events ([kernel/input/input_event_queue.cpp], [kernel/input/input_events.cpp])

    A queue is a ring of 64 events; the global queue drops its oldest event when
    it is full.  As for mailboxes a queue is given with its address.  Pushing a
    global event also wakes the focused process or the input service, which are
    reached through [InputHost]. *)

From S2P Require Import Prelude KernelEnv Spinlock RingBuffer.

Definition INPUT_EVENT_QUEUE_CAPACITY : Z := 64.
Definition OS_INPUT_EVENT_NONE : Z := 0.
Definition OS_INPUT_EVENT_KEY : Z := 1.
Definition OS_KEY_EVENT_DOWN : Z := 1.
Definition sizeof_OsInputEvent : Z := 48.
Definition PROCESS_WAIT_KEY : Z := 5.
Definition PROCESS_WAIT_CHAR : Z := 6.
Definition PROCESS_WAIT_INPUT : Z := 4.
Definition PROCESS_WAIT_OK : Z := 0.

(** The union [data] is its eight 32-bit words; as a key event word 0 is the
    key event type and word 3 the character. *)
Record OsInputEvent := { ev_type : Z; ev_size : Z; timestamp_ticks : Z; data : list Z }.
Definition key_type (ev : OsInputEvent) : Z := aget (data ev) 0.
Definition key_character (ev : OsInputEvent) : Z := aget (data ev) 3.

(** The event [clear_event] writes. *)
Definition clear_event : OsInputEvent :=
  {| ev_type := OS_INPUT_EVENT_NONE; ev_size := sizeof_OsInputEvent; timestamp_ticks := 0;
     data := replicate 8 0 |}.
#[export] Instance OsInputEvent_inhabited : Inhabited OsInputEvent := populate clear_event.

Record KernelInputEventQueue := {
  events : list OsInputEvent; iq_head : Z; iq_tail : Z; iq_count : Z; iq_delivered_count : Z;
  iq_dropped_count : Z }.
#[export] Instance KernelInputEventQueue_settable : Settable KernelInputEventQueue :=
  {| eta_expand q := {| events := events q; iq_head := iq_head q; iq_tail := iq_tail q;
     iq_count := iq_count q; iq_delivered_count := iq_delivered_count q;
     iq_dropped_count := iq_dropped_count q |} |}.

Record KernelInputEventQueueStats := {
  is_capacity : Z; is_count : Z; is_delivered_count : Z; is_dropped_count : Z }.

(** ** Bodies under the lock *)

Definition init_queue (q : KernelInputEventQueue) : KernelInputEventQueue :=
  let q := q <| iq_head := 0 |> <| iq_tail := 0 |> <| iq_count := 0 |>
             <| iq_delivered_count := 0 |> <| iq_dropped_count := 0 |> in
  for_range 0 INPUT_EVENT_QUEUE_CAPACITY (fun i q =>
    q <| events := aset (events q) i clear_event |>) q.

Definition input_event_queue_has_key_unlocked (q : KernelInputEventQueue) (character_only : bool)
    : bool :=
  match find_first (fun i =>
          let event := aget (events q) (u32 (iq_head q + i) mod INPUT_EVENT_QUEUE_CAPACITY) in
          (ev_type event =? OS_INPUT_EVENT_KEY)
          && (negb character_only
              || (key_type event =? OS_KEY_EVENT_DOWN) && negb (key_character event =? 0)))
        0 (Z.to_nat (iq_count q)) with
  | Some _ => true
  | None => false
  end.

Definition push_unlocked (event : OsInputEvent) (q : KernelInputEventQueue)
    : Z * KernelInputEventQueue :=
  if iq_count q =? INPUT_EVENT_QUEUE_CAPACITY then (0, q)
  else
    let q := q <| events := aset (events q) (iq_tail q) event |> in
    let q := q <| iq_tail := u32 (iq_tail q + 1) mod INPUT_EVENT_QUEUE_CAPACITY |> in
    (1, q <| iq_count := u32 (iq_count q + 1) |>).

Definition push_drop_oldest_body (event : OsInputEvent) (q : KernelInputEventQueue)
    : Z * KernelInputEventQueue :=
  let q :=
    if iq_count q =? INPUT_EVENT_QUEUE_CAPACITY then
      let q := q <| events := aset (events q) (iq_head q) clear_event |> in
      let q := q <| iq_head := u32 (iq_head q + 1) mod INPUT_EVENT_QUEUE_CAPACITY |> in
      let q := q <| iq_count := iq_count q - 1 |> in
      q <| iq_dropped_count := u32 (iq_dropped_count q + 1) |>
    else q in
  push_unlocked event q.

Definition pop_event_body (q : KernelInputEventQueue)
    : (Z * option OsInputEvent) * KernelInputEventQueue :=
  if iq_count q =? 0 then ((0, None), q)
  else
    let event := aget (events q) (iq_head q) in
    let q := q <| events := aset (events q) (iq_head q) clear_event |> in
    let q := q <| iq_head := u32 (iq_head q + 1) mod INPUT_EVENT_QUEUE_CAPACITY |> in
    let q := q <| iq_count := iq_count q - 1 |> in
    ((1, Some event), q <| iq_delivered_count := u32 (iq_delivered_count q + 1) |>).

(** ** Queue operations *)

Section Operations.
Context {E : Type} `{KernelEnv E}.

Definition input_event_queue_init (queue : Z) (q : KernelInputEventQueue) (e : E)
    : KernelInputEventQueue * E :=
  if queue =? 0 then (q, e)
  else (init_queue q, kernel_spinlock_setup queue KERNEL_LOCK_CLASS_IPC_SERVICE e).

Definition input_event_queue_capacity (queue : Z) : Z :=
  if queue =? 0 then 0 else INPUT_EVENT_QUEUE_CAPACITY.

Definition input_event_queue_get_stats (queue : Z) (q : KernelInputEventQueue) (e : E)
    : KernelInputEventQueueStats * KernelInputEventQueue * E :=
  let zero := {| is_capacity := INPUT_EVENT_QUEUE_CAPACITY; is_count := 0;
                 is_delivered_count := 0; is_dropped_count := 0 |} in
  if queue =? 0 then (zero, q, e)
  else with_lock queue zero (fun q =>
    ({| is_capacity := INPUT_EVENT_QUEUE_CAPACITY; is_count := iq_count q;
        is_delivered_count := iq_delivered_count q; is_dropped_count := iq_dropped_count q |}, q)) q e.

Definition input_event_queue_count (queue : Z) (q : KernelInputEventQueue) (e : E)
    : Z * KernelInputEventQueue * E :=
  let '(st, q, e) := input_event_queue_get_stats queue q e in (is_count st, q, e).
Definition input_event_queue_delivered_count (queue : Z) (q : KernelInputEventQueue) (e : E)
    : Z * KernelInputEventQueue * E :=
  let '(st, q, e) := input_event_queue_get_stats queue q e in (is_delivered_count st, q, e).
Definition input_event_queue_dropped_count (queue : Z) (q : KernelInputEventQueue) (e : E)
    : Z * KernelInputEventQueue * E :=
  let '(st, q, e) := input_event_queue_get_stats queue q e in (is_dropped_count st, q, e).
Definition input_event_queue_is_empty (queue : Z) (q : KernelInputEventQueue) (e : E)
    : bool * KernelInputEventQueue * E :=
  let '(n, q, e) := input_event_queue_count queue q e in (n =? 0, q, e).
Definition input_event_queue_is_full (queue : Z) (q : KernelInputEventQueue) (e : E)
    : bool * KernelInputEventQueue * E :=
  let '(n, q, e) := input_event_queue_count queue q e in (n =? INPUT_EVENT_QUEUE_CAPACITY, q, e).

Definition input_event_queue_has_key (queue : Z) (q : KernelInputEventQueue) (e : E)
    : bool * KernelInputEventQueue * E :=
  if queue =? 0 then (false, q, e)
  else with_lock queue false (fun q => (input_event_queue_has_key_unlocked q false, q)) q e.
Definition input_event_queue_has_character (queue : Z) (q : KernelInputEventQueue) (e : E)
    : bool * KernelInputEventQueue * E :=
  if queue =? 0 then (false, q, e)
  else with_lock queue false (fun q => (input_event_queue_has_key_unlocked q true, q)) q e.

Definition input_event_queue_push (queue : Z) (event : option OsInputEvent)
    (q : KernelInputEventQueue) (e : E) : Z * KernelInputEventQueue * E :=
  match event with
  | None => (0, q, e)
  | Some ev => if queue =? 0 then (0, q, e) else with_lock queue 0 (push_unlocked ev) q e
  end.

Definition input_event_queue_push_drop_oldest (queue : Z) (event : option OsInputEvent)
    (q : KernelInputEventQueue) (e : E) : Z * KernelInputEventQueue * E :=
  match event with
  | None => (0, q, e)
  | Some ev => if queue =? 0 then (0, q, e) else with_lock queue 0 (push_drop_oldest_body ev) q e
  end.

Definition input_event_queue_pop (queue : Z) (event : bool) (q : KernelInputEventQueue) (e : E)
    : (Z * option OsInputEvent) * KernelInputEventQueue * E :=
  if (queue =? 0) || negb event then ((0, None), q, e)
  else with_lock queue (0, None) pop_event_body q e.
End Operations.

(** ** The global queue *)

(** The scheduler, the service registry and the display session, as far as
    [input_events.cpp] calls them; a process is its address, 0 for none. *)
Class InputHost (E : Type) := {
  gui_session_active : E -> bool;
  process_focused : E -> Z;
  process_event_queue_push : Z -> option OsInputEvent -> E -> E;
  process_wait_count : Z -> Z -> E -> Z;
  process_wait_signal : Z -> Z -> Z -> E -> E;
  (** [service_find_owner_identity("input", &owner)]: pid and generation *)
  input_service_owner : E -> option (Z * Z);
  find_process_by_identity_compat : Z -> Z -> E -> Z;
}.

(** The address of the static [input_queue]. *)
Definition input_queue : Z := -2.

Section Global.
Context {E : Type} `{KernelEnv E} `{InputHost E}.

Definition input_events_init (q : KernelInputEventQueue) (e : E) : KernelInputEventQueue * E :=
  input_event_queue_init input_queue q e.

(** The wake-up of the focused process. *)
Definition wake_focused (focused : Z) (event : option OsInputEvent) (e : E) : E :=
  match event with
  | Some ev =>
    if ev_type ev =? OS_INPUT_EVENT_KEY then
      if (key_type ev =? OS_KEY_EVENT_DOWN) && negb (key_character ev =? 0)
         && nonzero (process_wait_count focused PROCESS_WAIT_CHAR e)
      then process_wait_signal focused PROCESS_WAIT_CHAR PROCESS_WAIT_OK e
      else if nonzero (process_wait_count focused PROCESS_WAIT_KEY e)
      then process_wait_signal focused PROCESS_WAIT_KEY PROCESS_WAIT_OK e
      else process_wait_signal focused PROCESS_WAIT_INPUT PROCESS_WAIT_OK e
    else process_wait_signal focused PROCESS_WAIT_INPUT PROCESS_WAIT_OK e
  | None => process_wait_signal focused PROCESS_WAIT_INPUT PROCESS_WAIT_OK e
  end.

Definition input_events_push (event : option OsInputEvent) (q : KernelInputEventQueue) (e : E)
    : Z * KernelInputEventQueue * E :=
  let '(result, q, e) := input_event_queue_push_drop_oldest input_queue event q e in
  let gui_active := gui_session_active e in
  let focused := if gui_active then 0 else process_focused e in
  let e := if nonzero focused
           then wake_focused focused event (process_event_queue_push focused event e) else e in
  let e :=
    if gui_active then
      match input_service_owner e with
      | Some (pid, gen) =>
        let input_service := find_process_by_identity_compat pid gen e in
        if nonzero input_service && negb (input_service =? focused)
        then process_wait_signal input_service PROCESS_WAIT_INPUT PROCESS_WAIT_OK e else e
      | None => e
      end
    else e in
  (result, q, e).

Definition input_events_pop (event : bool) (q : KernelInputEventQueue) (e : E)
    : (Z * option OsInputEvent) * KernelInputEventQueue * E :=
  input_event_queue_pop input_queue event q e.

Definition input_events_pending (q : KernelInputEventQueue) (e : E) : Z * KernelInputEventQueue * E :=
  input_event_queue_count input_queue q e.

(** [while (pop) {}]; [None] when the fuel runs out. *)
Fixpoint discard_loop (fuel : nat) (q : KernelInputEventQueue) (e : E)
    : option (KernelInputEventQueue * E) :=
  match fuel with
  | O => None
  | S fuel =>
    let '(r, _, q, e) := input_event_queue_pop input_queue true q e in
    if r =? 0 then Some (q, e) else discard_loop fuel q e
  end.
(** A queue holds at most 64 events. *)
Definition input_events_discard_all (q : KernelInputEventQueue) (e : E)
    : option (KernelInputEventQueue * E) := discard_loop 65 q e.

Definition input_events_get_stats (q : KernelInputEventQueue) (e : E)
    : KernelInputEventQueueStats * KernelInputEventQueue * E :=
  let capacity := input_event_queue_capacity input_queue in
  let '(c, q, e) := input_event_queue_count input_queue q e in
  let '(d, q, e) := input_event_queue_delivered_count input_queue q e in
  let '(x, q, e) := input_event_queue_dropped_count input_queue q e in
  ({| is_capacity := capacity; is_count := c; is_delivered_count := d; is_dropped_count := x |}, q, e).
End Global.

(** ** The invariant *)

Record iq_inv (q : KernelInputEventQueue) : Prop := {
  iq_len : alen (events q) = INPUT_EVENT_QUEUE_CAPACITY;
  iq_hd : 0 <= iq_head q < INPUT_EVENT_QUEUE_CAPACITY;
  iq_cnt : 0 <= iq_count q <= INPUT_EVENT_QUEUE_CAPACITY;
  iq_tl : iq_tail q = (iq_head q + iq_count q) mod INPUT_EVENT_QUEUE_CAPACITY;
}.
Definition queued (q : KernelInputEventQueue) : list OsInputEvent :=
  ring INPUT_EVENT_QUEUE_CAPACITY (iq_head q) (iq_count q) (events q).

Lemma queued_length q : iq_inv q -> Z.of_nat (length (queued q)) = iq_count q.
Proof. intros []. unfold queued. rewrite ring_length by lia. lia. Qed.

Lemma push_unlocked_ok ev q : iq_inv q -> iq_count q < INPUT_EVENT_QUEUE_CAPACITY ->
  iq_inv (push_unlocked ev q).2 /\ (push_unlocked ev q).1 = 1 /\
  queued (push_unlocked ev q).2 = queued q ++ [ev] /\
  iq_dropped_count (push_unlocked ev q).2 = iq_dropped_count q.
Proof.
  intros [Hl Hh Hc Ht] Hlt. unfold push_unlocked, queued. unfold INPUT_EVENT_QUEUE_CAPACITY in *.
  rewrite (proj2 (Z.eqb_neq _ _)) by lia. cbn [fst snd].
  pose proof (Z.mod_pos_bound (iq_head q + iq_count q) 64 ltac:(lia)). split; [|split; [done|]; split; [|done]].
  - constructor; simpl; unfold INPUT_EVENT_QUEUE_CAPACITY; [by rewrite alen_aset | lia | unwrap; lia |].
    rewrite Ht. unwrap. rewrite Z.add_mod_idemp_l by lia. f_equal. lia.
  - simpl. unwrap. rewrite Ht. apply (ring_push 64); lia.
Qed.

Lemma drop_head_ok q : iq_inv q -> iq_count q <> 0 ->
  let q' := q <| events := aset (events q) (iq_head q) clear_event |>
              <| iq_head := u32 (iq_head q + 1) mod INPUT_EVENT_QUEUE_CAPACITY |>
              <| iq_count := iq_count q - 1 |> in
  iq_inv q' /\ queued q = aget (events q) (iq_head q) :: queued q'.
Proof.
  intros [Hl Hh Hc Ht] Hnz. unfold queued. unfold INPUT_EVENT_QUEUE_CAPACITY in *. cbv zeta.
  pose proof (Z.mod_pos_bound (iq_head q + 1) 64 ltac:(lia)). split.
  - constructor; simpl; unfold INPUT_EVENT_QUEUE_CAPACITY; unwrap; [by rewrite alen_aset | lia | lia |].
    rewrite Ht, Z.add_mod_idemp_l by lia. f_equal. lia.
  - simpl. unwrap. apply (ring_pop 64); lia.
Qed.

(** The input queue keeps the newest 64 events in order.  Pushing with
    [push_drop_oldest] always succeeds; the queue afterwards is the last 64
    events of the old queue followed by the new one, and an event is dropped,
    and counted as dropped, exactly when the queue was full. *)
Theorem input_push_keeps_newest ev q : iq_inv q ->
  let r := push_drop_oldest_body ev q in
  iq_inv r.2 /\ r.1 = 1 /\
  queued r.2 = drop (length (queued q) - 63) (queued q) ++ [ev] /\
  iq_dropped_count r.2 = if iq_count q =? INPUT_EVENT_QUEUE_CAPACITY
                         then u32 (iq_dropped_count q + 1) else iq_dropped_count q.
Proof.
  intros Hinv. pose proof (queued_length q Hinv) as Hn. pose proof (iq_cnt _ Hinv) as Hc.
  cbv zeta. unfold push_drop_oldest_body.
  destruct (iq_count q =? INPUT_EVENT_QUEUE_CAPACITY) eqn:Hfull; bprop.
  - destruct (drop_head_ok q Hinv) as [Hi Hq]; [unfold INPUT_EVENT_QUEUE_CAPACITY in *; lia|].
    set (q1 := q <| events := aset (events q) (iq_head q) clear_event |>
        <| iq_head := u32 (iq_head q + 1) mod INPUT_EVENT_QUEUE_CAPACITY |>
        <| iq_count := iq_count q - 1 |>) in *.
    destruct (push_unlocked_ok ev (q1 <| iq_dropped_count := u32 (iq_dropped_count q1 + 1) |>))
      as (A & B & C & D); [by destruct Hi | simpl; lia |].
    split; [exact A|]. split; [exact B|]. split; [|exact D]. etransitivity; [exact C|].
    replace (length (queued q) - 63)%nat with 1%nat by (unfold INPUT_EVENT_QUEUE_CAPACITY in *; lia).
    by rewrite Hq.
  - destruct (push_unlocked_ok ev q Hinv ltac:(lia)) as (A & B & C & D).
    split; [done|]. split; [done|]. split; [|done].
    replace (length (queued q) - 63)%nat with 0%nat by (unfold INPUT_EVENT_QUEUE_CAPACITY in *; lia). done.
Qed.

Section GlobalQueue.
Context {E : Type} `{KernelEnv E} `{InputHost E}.

Lemma pop_event_ok q : iq_inv q -> iq_count q <> 0 ->
  iq_inv (pop_event_body q).2 /\ (pop_event_body q).1.1 = 1 /\
  iq_count (pop_event_body q).2 = iq_count q - 1.
Proof.
  intros Hinv Hnz. destruct (drop_head_ok q Hinv Hnz) as [[] _]. unfold pop_event_body.
  rewrite (proj2 (Z.eqb_neq _ _)) by done. by split.
Qed.

(** Discarding terminates and leaves nothing.  The loop that pops until the
    queue is empty returns after at most 65 pops, whatever the environment
    does; if locks are granted the queue is empty then. *)
Theorem input_discard_all_empties q e : iq_inv q ->
  exists q' e', input_events_discard_all q e = Some (q', e') /\ iq_inv q' /\
    ((forall e1 : E, (kernel_spinlock_acquire input_queue e1).1 = true) -> iq_count q' = 0).
Proof.
  intros Hinv. unfold input_events_discard_all.
  assert (iq_count q < 65) as Hn by (pose proof (iq_cnt _ Hinv); unfold INPUT_EVENT_QUEUE_CAPACITY in *; lia).
  assert (exists n : nat, n = 65%nat) as [n Hfuel] by eauto. rewrite <- Hfuel.
  replace 65 with (Z.of_nat n) in Hn by (subst; done). clear Hfuel. revert q e Hinv Hn.
  induction n as [|fuel IH]; intros q e Hinv Hn; [pose proof (iq_cnt _ Hinv); lia|].
  cbn [discard_loop]. unfold input_event_queue_pop, with_lock. cbn [orb negb].
  change (input_queue =? 0) with false. cbn [orb].
  destruct (kernel_spinlock_acquire input_queue e) as [[] e1] eqn:Hacq.
  - destruct (decide (iq_count q = 0)) as [Hz|Hnz].
    + unfold pop_event_body. rewrite Hz. simpl. eauto.
    + destruct (pop_event_ok q Hinv Hnz) as (A & B & C).
      destruct (pop_event_body q) as [[r ev] q1]. cbn [fst snd] in *. subst r.
      change (1 =? 0) with false. cbn [orb]. apply IH; [done | lia].
  - change (0 =? 0) with true. exists q, e1. split; [done|]. split; [done|].
    intros Hg. specialize (Hg e). by rewrite Hacq in Hg.
Qed.
End GlobalQueue.

(** ** Witnesses *)

Definition demo_queue : KernelInputEventQueue :=
  {| events := replicate 64 clear_event; iq_head := 3; iq_tail := 3; iq_count := 0;
     iq_delivered_count := 0; iq_dropped_count := 0 |}.
Lemma demo_queue_inv : iq_inv demo_queue.
Proof. by constructor. Qed.

#[export] Instance quiet_input : InputHost unit := {|
  gui_session_active _ := false;
  process_focused _ := 0;
  process_event_queue_push _ _ e := e;
  process_wait_count _ _ _ := 0;
  process_wait_signal _ _ _ e := e;
  input_service_owner _ := None;
  find_process_by_identity_compat _ _ _ := 0 |}.

Lemma input_push_keeps_newest_witness :
  queued (push_drop_oldest_body clear_event demo_queue).2 = [clear_event].
Proof.
  destruct (input_push_keeps_newest clear_event demo_queue demo_queue_inv) as (_ & _ & Hq & _).
  rewrite Hq. reflexivity.
Defined.

Lemma input_discard_all_empties_witness :
  exists q' e', input_events_discard_all (E := unit) demo_queue tt = Some (q', e') /\ iq_count q' = 0.
Proof.
  destruct (input_discard_all_empties (E := unit) demo_queue tt demo_queue_inv) as (q' & e' & He & _ & Hz).
  exists q', e'. split; [exact He|]. apply Hz. intros e1. reflexivity.
Defined.
