(* ===== verification/ServiceRegistry.v ===== *)
(** * The service registry ([kernel/service/service_registry.cpp])

    A table of 16 named services, each owned by a process.  A C string is the
    list of its bytes, read past its end as the terminating NUL; the name field
    of an entry is an array of 16 bytes.  Processes are reached through
    [ServiceHost]. *)

From stdpp Require Import strings.
From S2P Require Import Prelude KernelEnv Spinlock.

Definition SERVICE_REGISTRY_CAPACITY : Z := 16.
Definition OS_SERVICE_NAME_MAX : Z := 16.
Definition OS_SERVICE_STATE_EMPTY : Z := 0.
Definition OS_SERVICE_STATE_REGISTERED : Z := 1.
Definition OS_SERVICE_FLAG_NONE : Z := 0.
Definition OS_SERVICE_FLAG_SYSTEM : Z := 1.
Definition PROCESS_STATE_EMPTY : Z := 0.
Definition PROCESS_STATE_RETURNED : Z := 3.
Definition PROCESS_STATE_FAILED : Z := 4.
Definition SERVICE_OK : Z := 0.
Definition SERVICE_ERR_NOT_READY : Z := -1.
Definition SERVICE_ERR_INVALID_ARGUMENT : Z := -2.
Definition SERVICE_ERR_NOT_FOUND : Z := -3.
Definition SERVICE_ERR_ALREADY_EXISTS : Z := -6.
Definition SERVICE_ERR_NO_RESOURCES : Z := -7.
Definition SERVICE_ERR_PERMISSION_DENIED : Z := -15.
Definition SERVICE_ERR_BAD_BUFFER : Z := -16.
Definition sizeof_OsServiceInfo : Z := 36.

(** The static lock [service_lock]. *)
Definition service_lock : lock_ref := -3.

(** The fields of [Process] this file reads. *)
Record ProcessRef := { pid : Z; p_generation : Z; p_active : Z; p_state : Z }.

Class ServiceHost (E : Type) := {
  find_process_by_identity : Z -> Z -> E -> option ProcessRef }.

Record ServiceEntry := {
  owner_pid : Z; owner_generation : Z; state : Z; s_flags : Z; s_generation : Z; name : list Z }.
#[export] Instance ServiceEntry_settable : Settable ServiceEntry := {| eta_expand s := {|
  owner_pid := owner_pid s; owner_generation := owner_generation s; state := state s;
  s_flags := s_flags s; s_generation := s_generation s; name := name s |} |}.
#[export] Instance ServiceEntry_inhabited : Inhabited ServiceEntry :=
  populate {| owner_pid := 0; owner_generation := 0; state := 0; s_flags := 0;
              s_generation := 0; name := replicate 16 0 |}.

Record ServiceState := { service_table : list ServiceEntry; service_generation_next : Z }.
#[export] Instance ServiceState_settable : Settable ServiceState := {| eta_expand s := {|
  service_table := service_table s; service_generation_next := service_generation_next s |} |}.

Definition entry_at (s : ServiceState) (i : Z) : ServiceEntry := aget (service_table s) i.
Definition put_entry (i : Z) (x : ServiceEntry) (s : ServiceState) : ServiceState :=
  s <| service_table := aset (service_table s) i x |>.
Definition registered (x : ServiceEntry) : bool := state x =? OS_SERVICE_STATE_REGISTERED.

(** ** Names *)

(** Characters are byte values: 'a' is 97, 'z' 122, '0' 48, '9' 57, '_' 95, '-' 45. *)
Definition is_name_char (ch : Z) : bool :=
  if (97 <=? ch) && (ch <=? 122) then true
  else if (48 <=? ch) && (ch <=? 57) then true
  else (ch =? 95) || (ch =? 45).

Fixpoint copy_name_loop (n : nat) (i : Z) (dest src : list Z) : list Z :=
  match n with
  | O => aset dest i 0
  | S n => if aget src i =? 0 then aset dest i 0
           else copy_name_loop n (i + 1) (aset dest i (aget src i)) src
  end.
(** [i + 1 < OS_SERVICE_NAME_MAX] holds for 15 values of [i]. *)
Definition service_copy_name (dest src : list Z) : list Z := copy_name_loop 15 0 dest src.

Fixpoint name_equal_loop (n : nat) (i : Z) (left right : list Z) : bool :=
  match n with
  | O => true
  | S n => if negb (aget left i =? aget right i) then false
           else if aget left i =? 0 then true else name_equal_loop n (i + 1) left right
  end.
Definition service_name_equal (left right : list Z) : bool := name_equal_loop 16 0 left right.

Fixpoint name_valid_loop (n : nat) (i : Z) (nm : list Z) : bool :=
  match n with
  | O => false
  | S n => if aget nm i =? 0 then true
           else if negb (is_name_char (aget nm i)) then false else name_valid_loop n (i + 1) nm
  end.
Definition service_name_valid (nm : option (list Z)) : bool :=
  match nm with
  | None => false
  | Some nm =>
    if aget nm 0 =? 0 then false
    else if negb ((97 <=? aget nm 0) && (aget nm 0 <=? 122)) then false
    else name_valid_loop 16 0 nm
  end.

(** ** Entries *)

Definition service_clear_entry (x : ServiceEntry) : ServiceEntry :=
  x <| owner_pid := 0 |> <| owner_generation := 0 |> <| state := OS_SERVICE_STATE_EMPTY |>
    <| s_flags := OS_SERVICE_FLAG_NONE |> <| name := aset (name x) 0 0 |>.

(** Calls itself when the counter was 0. *)
Fixpoint service_next_generation (fuel : nat) (next : Z) : Z * Z :=
  let gen := next in
  let next := u32 (next + 1) in
  let next := if next =? 0 then 1 else next in
  match fuel with
  | O => (gen, next)
  | S fuel => if gen =? 0 then service_next_generation fuel next else (gen, next)
  end.

Record OsServiceInfo := {
  i_size : Z; i_owner_pid : Z; i_state : Z; i_flags : Z; i_generation : Z; i_name : list Z }.
(** [info]'s old name bytes show after the terminator. *)
Definition service_fill_info (x : ServiceEntry) (old_name : list Z) : OsServiceInfo :=
  {| i_size := sizeof_OsServiceInfo; i_owner_pid := owner_pid x; i_state := state x;
     i_flags := s_flags x; i_generation := s_generation x;
     i_name := service_copy_name old_name (name x) |}.

Definition service_state_name (st : Z) : string :=
  if st =? OS_SERVICE_STATE_REGISTERED then "registered"%string else "empty"%string.

(** The scan of [service_register]: an entry with the name, or the first empty one. *)
Definition name_at (nm : list Z) (s : ServiceState) (i : Z) : bool :=
  registered (entry_at s i) && service_name_equal (name (entry_at s i)) nm.
Definition find_name (nm : list Z) (s : ServiceState) : option Z :=
  find_first (name_at nm s) 0 (Z.to_nat SERVICE_REGISTRY_CAPACITY).
Definition find_empty (s : ServiceState) : option Z :=
  find_first (fun i => negb (registered (entry_at s i))) 0 (Z.to_nat SERVICE_REGISTRY_CAPACITY).

Definition register_body (owner : ProcessRef) (nm : list Z) (fl : Z) (s : ServiceState)
    : Z * ServiceState :=
  match find_name nm s with
  | Some _ => (SERVICE_ERR_ALREADY_EXISTS, s)
  | None =>
    match find_empty s with
    | None => (SERVICE_ERR_NO_RESOURCES, s)
    | Some i =>
      let '(gen, next) := service_next_generation 1 (service_generation_next s) in
      let x := entry_at s i in
      (SERVICE_OK,
       put_entry i {| owner_pid := pid owner; owner_generation := p_generation owner;
         state := OS_SERVICE_STATE_REGISTERED; s_flags := fl; s_generation := gen;
         name := service_copy_name (name x) nm |} (s <| service_generation_next := next |>))
    end
  end.

Definition unregister_body (owner : ProcessRef) (nm : list Z) (s : ServiceState)
    : Z * ServiceState :=
  match find_name nm s with
  | None => (SERVICE_ERR_NOT_FOUND, s)
  | Some i =>
    if negb (owner_pid (entry_at s i) =? pid owner)
       || negb (owner_generation (entry_at s i) =? p_generation owner)
    then (SERVICE_ERR_PERMISSION_DENIED, s)
    else (SERVICE_OK, put_entry i (service_clear_entry (entry_at s i)) s)
  end.

Definition unregister_owner_body (o : Z) (s : ServiceState) : ServiceState :=
  for_range 0 SERVICE_REGISTRY_CAPACITY (fun i s =>
    if registered (entry_at s i) && (owner_pid (entry_at s i) =? o)
    then put_entry i (service_clear_entry (entry_at s i)) s else s) s.

Section Operations.
Context {E : Type} `{KernelEnv E} `{ServiceHost E}.

Definition service_process_alive (p g : Z) (e : E) : bool :=
  match find_process_by_identity p g e with
  | None => false
  | Some q =>
    if (pid q =? 0) || (p_active q =? 0) then false
    else negb (p_state q =? PROCESS_STATE_EMPTY) && negb (p_state q =? PROCESS_STATE_RETURNED)
         && negb (p_state q =? PROCESS_STATE_FAILED)
  end.

(** One iteration of [service_prune_stale]; [false] when it returns early. *)
Definition prune_step (i : Z) (s : ServiceState) (e : E) : bool * ServiceState * E :=
  let '(ok, e) := kernel_spinlock_acquire service_lock e in
  if negb ok then (false, s, e)
  else
    let x := entry_at s i in
    let '(o, og, eg) := if registered x then (owner_pid x, owner_generation x, s_generation x)
                        else (0, 0, 0) in
    let e := kernel_spinlock_release service_lock e in
    if (o =? 0) || service_process_alive o og e then (true, s, e)
    else
      let '(ok, e) := kernel_spinlock_acquire service_lock e in
      if negb ok then (false, s, e)
      else
        let x := entry_at s i in
        let s := if registered x && (s_generation x =? eg) && (owner_pid x =? o)
                    && (owner_generation x =? og)
                 then put_entry i (service_clear_entry x) s else s in
        (true, s, kernel_spinlock_release service_lock e).

Definition service_prune_stale (s : ServiceState) (e : E) : ServiceState * E :=
  let '(_, s, e) := for_range 0 SERVICE_REGISTRY_CAPACITY (fun i '(go, s, e) =>
    if (go : bool) then prune_step i s e else (go, s, e)) (true, s, e) in (s, e).

Definition service_registry_init (s : ServiceState) (e : E) : ServiceState * E :=
  let e := kernel_spinlock_setup service_lock KERNEL_LOCK_CLASS_IPC_SERVICE e in
  let s := for_range 0 SERVICE_REGISTRY_CAPACITY (fun i s =>
    put_entry i (service_clear_entry ((entry_at s i) <| s_generation := 0 |>)) s) s in
  (s <| service_generation_next := 1 |>, e).

Definition service_registry_count (s : ServiceState) (e : E) : Z * ServiceState * E :=
  let '(s, e) := service_prune_stale s e in
  with_lock service_lock 0 (fun s =>
    (for_range 0 SERVICE_REGISTRY_CAPACITY (fun i n =>
       if registered (entry_at s i) then u32 (n + 1) else n) 0, s)) s e.

(** [owner] and [nm] are [None] for null pointers. *)
Definition service_register (owner : option ProcessRef) (nm : option (list Z)) (fl : Z)
    (s : ServiceState) (e : E) : Z * ServiceState * E :=
  let '(s, e) := service_prune_stale s e in
  match owner with
  | None => (SERVICE_ERR_NOT_READY, s, e)
  | Some o =>
    if (pid o =? 0) || (p_active o =? 0) then (SERVICE_ERR_NOT_READY, s, e)
    else
      match nm with
      | None => (SERVICE_ERR_INVALID_ARGUMENT, s, e)
      | Some n =>
        if negb (service_name_valid nm) then (SERVICE_ERR_INVALID_ARGUMENT, s, e)
        else if nonzero (Z.land fl (not32 OS_SERVICE_FLAG_SYSTEM))
        then (SERVICE_ERR_INVALID_ARGUMENT, s, e)
        else
          let '(fault, e) := kernel_fault_injection_should_fail KERNEL_FAULT_POINT_SERVICE e in
          if fault then (SERVICE_ERR_NO_RESOURCES, s, e)
          else with_lock service_lock SERVICE_ERR_NOT_READY (register_body o n fl) s e
      end
  end.

(** [info] is the caller's buffer, of which the old name bytes matter. *)
Definition service_find (nm : option (list Z)) (info : option (list Z)) (s : ServiceState) (e : E)
    : (Z * option OsServiceInfo) * ServiceState * E :=
  let '(s, e) := service_prune_stale s e in
  match info, nm with
  | None, _ => ((SERVICE_ERR_BAD_BUFFER, None), s, e)
  | Some old, Some n =>
    if negb (service_name_valid nm) then ((SERVICE_ERR_INVALID_ARGUMENT, None), s, e)
    else with_lock service_lock (SERVICE_ERR_NOT_READY, None) (fun s =>
      match find_name n s with
      | Some i => ((SERVICE_OK, Some (service_fill_info (entry_at s i) old)), s)
      | None => ((SERVICE_ERR_NOT_FOUND, None), s)
      end) s e
  | Some _, None => ((SERVICE_ERR_INVALID_ARGUMENT, None), s, e)
  end.

Definition service_find_owner_identity (nm : option (list Z)) (identity : bool)
    (s : ServiceState) (e : E) : (Z * option (Z * Z)) * ServiceState * E :=
  let '(s, e) := service_prune_stale s e in
  if negb identity then ((SERVICE_ERR_BAD_BUFFER, None), s, e)
  else match nm with
  | None => ((SERVICE_ERR_INVALID_ARGUMENT, None), s, e)
  | Some n =>
    if negb (service_name_valid nm) then ((SERVICE_ERR_INVALID_ARGUMENT, None), s, e)
    else with_lock service_lock (SERVICE_ERR_NOT_READY, None) (fun s =>
      match find_name n s with
      | Some i => ((SERVICE_OK, Some (owner_pid (entry_at s i), owner_generation (entry_at s i))), s)
      | None => ((SERVICE_ERR_NOT_FOUND, None), s)
      end) s e
  end.

Definition service_unregister (owner : option ProcessRef) (nm : option (list Z))
    (s : ServiceState) (e : E) : Z * ServiceState * E :=
  let '(s, e) := service_prune_stale s e in
  match owner with
  | None => (SERVICE_ERR_NOT_READY, s, e)
  | Some o =>
    if pid o =? 0 then (SERVICE_ERR_NOT_READY, s, e)
    else match nm with
    | None => (SERVICE_ERR_INVALID_ARGUMENT, s, e)
    | Some n =>
      if negb (service_name_valid nm) then (SERVICE_ERR_INVALID_ARGUMENT, s, e)
      else with_lock service_lock SERVICE_ERR_NOT_READY (unregister_body o n) s e
    end
  end.

Definition service_unregister_owner (o : Z) (s : ServiceState) (e : E) : ServiceState * E :=
  if o =? 0 then (s, e)
  else let '(_, s, e) := with_lock service_lock tt (fun s => (tt, unregister_owner_body o s)) s e in
       (s, e).

Definition service_registry_get_info (index : Z) (info : option (list Z)) (s : ServiceState) (e : E)
    : (Z * option OsServiceInfo) * ServiceState * E :=
  let '(s, e) := service_prune_stale s e in
  match info with
  | None => ((SERVICE_ERR_BAD_BUFFER, None), s, e)
  | Some old =>
    if SERVICE_REGISTRY_CAPACITY <=? index then ((SERVICE_ERR_INVALID_ARGUMENT, None), s, e)
    else with_lock service_lock (SERVICE_ERR_NOT_READY, None) (fun s =>
      if negb (registered (entry_at s index)) then ((SERVICE_ERR_NOT_FOUND, None), s)
      else ((SERVICE_OK, Some (service_fill_info (entry_at s index) old)), s)) s e
  end.

(** The entries written to the snapshot, into buffers whose names were [old]. *)
Definition service_registry_get_snapshot (old : list Z) (s : ServiceState) (e : E)
    : list OsServiceInfo * ServiceState * E :=
  let '(s, e) := service_prune_stale s e in
  with_lock service_lock [] (fun s =>
    (for_range 0 SERVICE_REGISTRY_CAPACITY (fun i out =>
       if registered (entry_at s i) then out ++ [service_fill_info (entry_at s i) old] else out) [],
     s)) s e.
End Operations.
