(* ===== verification/ServiceRegistrySpec.v ===== *)
(** * The registry as a map from names to services

    Registered names are unique; registering adds one name, unregistering
    removes a name of the caller, and pruning removes exactly the services
    whose owner is dead.  Lookups find what was registered. *)

From S2P Require Import Prelude KernelEnv ServiceRegistry.

(** ** C strings *)

(** The bytes from [i] to the terminator, at most [n]. *)
Fixpoint cstr (n : nat) (l : list Z) (i : Z) : list Z :=
  match n with
  | O => []
  | S n => if aget l i =? 0 then [] else aget l i :: cstr n l (i + 1)
  end.

Lemma name_equal_cstr n i l r : name_equal_loop n i l r = bool_decide (cstr n l i = cstr n r i).
Proof.
  revert i. induction n as [|n IH]; intros i; [done|]. cbn [name_equal_loop cstr].
  destruct (aget l i =? aget r i) eqn:He; bprop; cbn [negb].
  - rewrite He. destruct (aget r i =? 0); [done|]. rewrite IH.
    apply bool_decide_ext. split; congruence.
  - symmetry. apply bool_decide_eq_false_2.
    destruct (aget l i =? 0) eqn:H1, (aget r i =? 0) eqn:H2; bprop; try congruence; try done.
Qed.

Lemma cstr_frame n l l' i : (forall j, i <= j < i + Z.of_nat n -> aget l j = aget l' j) ->
  cstr n l i = cstr n l' i.
Proof.
  revert i. induction n as [|n IH]; intros i He; [done|]. cbn [cstr].
  rewrite (He i) by lia. destruct (aget l' i =? 0); [done|]. f_equal. apply IH. intros. apply He. lia.
Qed.

Lemma copy_loop_frame n i dest src j : 0 <= j < i -> i + Z.of_nat n < alen dest ->
  aget (copy_name_loop n i dest src) j = aget dest j /\
  alen (copy_name_loop n i dest src) = alen dest.
Proof.
  revert i dest. induction n as [|n IH]; intros i dest Hj Hl; cbn [copy_name_loop].
  { rewrite alen_aset. split; [apply aget_aset_ne; lia | done]. }
  destruct (aget src i =? 0).
  { rewrite alen_aset. split; [apply aget_aset_ne; lia | done]. }
  destruct (IH (i + 1) (aset dest i (aget src i))) as [H1 H2]; [lia | rewrite alen_aset; lia |].
  rewrite H1, H2, alen_aset. split; [apply aget_aset_ne; lia | done].
Qed.

Lemma copy_loop_cstr n i dest src : 0 <= i -> i + Z.of_nat n < alen dest ->
  cstr (S n) (copy_name_loop n i dest src) i = cstr n src i.
Proof.
  revert i dest. induction n as [|n IH]; intros i dest Hi Hl.
  { cbn [copy_name_loop cstr]. rewrite aget_aset_eq by lia. done. }
  cbn [copy_name_loop]. destruct (aget src i =? 0) eqn:Hz.
  { cbn [cstr]. rewrite aget_aset_eq, Hz by lia. done. }
  set (d1 := aset dest i (aget src i)).
  assert (alen d1 = alen dest) as Hd1 by apply alen_aset.
  destruct (copy_loop_frame n (i + 1) d1 src i) as [Hfr _]; [lia | lia |].
  assert (cstr (S n) (copy_name_loop n (i + 1) d1 src) (i + 1) = cstr n src (i + 1)) as HIH
    by (apply IH; lia).
  remember (copy_name_loop n (i + 1) d1 src) as c. cbn [cstr]. cbn [cstr] in HIH.
  rewrite Hfr. unfold d1. rewrite aget_aset_eq, Hz by lia. by rewrite HIH.
Qed.

Lemma copy_loop_alen n i dest src : alen (copy_name_loop n i dest src) = alen dest.
Proof.
  revert i dest. induction n as [|n IH]; intros i dest; cbn [copy_name_loop]; [apply alen_aset|].
  destruct (aget src i =? 0); [apply alen_aset|]. by rewrite IH, alen_aset.
Qed.

Lemma copy_name_alen dest src : alen dest = 16 -> alen (service_copy_name dest src) = 16.
Proof. intros Hl. unfold service_copy_name. by rewrite copy_loop_alen. Qed.

Lemma valid_short n i nm : name_valid_loop (S n) i nm = true -> cstr (S n) nm i = cstr n nm i.
Proof.
  revert i. induction n as [|n IH]; intros i.
  { cbn [name_valid_loop cstr]. destruct (aget nm i =? 0); [done|]. by destruct (is_name_char _). }
  intros Hv. cbn [cstr]. remember (S n) as m eqn:Hm. cbn [name_valid_loop] in Hv.
  destruct (aget nm i =? 0) eqn:Hz; [done|]. destruct (is_name_char _); [|done]. cbn [negb] in Hv. subst m.
  specialize (IH (i + 1) Hv). cbn [cstr] in IH. by rewrite IH.
Qed.

(** The name of a valid C string, and of an entry. *)
Definition nstr (l : list Z) : list Z := cstr 16 l 0.

Lemma name_equal_nstr l r : service_name_equal l r = bool_decide (nstr l = nstr r).
Proof. apply name_equal_cstr. Qed.

Lemma valid_nstr nm : service_name_valid (Some nm) = true -> nstr nm <> [] /\ cstr 15 nm 0 = nstr nm.
Proof.
  unfold service_name_valid, nstr. destruct (aget nm 0 =? 0) eqn:Hz; [done|].
  destruct (negb _); [done|]. intros Hv. split.
  - cbn [cstr]. by rewrite Hz.
  - by rewrite (valid_short 15) by done.
Qed.

Lemma copy_name_nstr dest nm : alen dest = 16 -> service_name_valid (Some nm) = true ->
  nstr (service_copy_name dest nm) = nstr nm.
Proof.
  intros Hl Hv. destruct (valid_nstr nm Hv) as [_ <-]. unfold nstr, service_copy_name.
  apply (copy_loop_cstr 15); lia.
Qed.

(** ** The map *)

Record sr_inv (s : ServiceState) : Prop := {
  sr_len : alen (service_table s) = 16;
  sr_names : forall i, 0 <= i < 16 -> alen (name (entry_at s i)) = 16;
  sr_owner : forall i, 0 <= i < 16 -> registered (entry_at s i) = true -> owner_pid (entry_at s i) <> 0;
  sr_unique : forall i j, 0 <= i < 16 -> 0 <= j < 16 ->
    registered (entry_at s i) = true -> registered (entry_at s j) = true ->
    nstr (name (entry_at s i)) = nstr (name (entry_at s j)) -> i = j;
}.

(** Service [x] is registered under the name [n]. *)
Definition provides (s : ServiceState) (n : list Z) (x : ServiceEntry) : Prop :=
  exists i, 0 <= i < 16 /\ entry_at s i = x /\ registered x = true /\ nstr (name x) = n.

Lemma provides_unique s n x y : sr_inv s -> provides s n x -> provides s n y -> x = y.
Proof.
  intros Hs (i & Hi & <- & Hri & Hni) (j & Hj & <- & Hrj & Hnj).
  f_equal. apply (sr_unique _ Hs); congruence.
Qed.

Lemma entry_put i x s j : alen (service_table s) = 16 -> 0 <= i < 16 -> 0 <= j < 16 ->
  entry_at (put_entry i x s) j = if decide (i = j) then x else entry_at s j.
Proof. intros Hl Hi Hj. unfold entry_at, put_entry. simpl. by rewrite aget_aset by lia. Qed.

(** Clearing entry [i] removes its service and nothing else. *)
Lemma clear_ok i s : sr_inv s -> 0 <= i < 16 ->
  sr_inv (put_entry i (service_clear_entry (entry_at s i)) s) /\
  forall n x, provides (put_entry i (service_clear_entry (entry_at s i)) s) n x <->
    provides s n x /\ (registered (entry_at s i) = true -> nstr (name (entry_at s i)) <> n).
Proof.
  intros Hs Hi. pose proof Hs as [Hl Hn Ho Hu]. set (s' := put_entry i _ s).
  assert (forall j, 0 <= j < 16 -> entry_at s' j =
    if decide (i = j) then service_clear_entry (entry_at s i) else entry_at s j) as He
    by (intros; by apply entry_put).
  split.
  - constructor.
    + unfold s', put_entry. simpl. by rewrite alen_aset.
    + intros j Hj. rewrite He by done. case_decide; [simpl; rewrite alen_aset|]; by apply Hn.
    + intros j Hj. rewrite He by done. case_decide; [done | by apply Ho].
    + intros j k Hj Hk. rewrite !He by done. repeat case_decide; [done | done | done | by apply Hu].
  - intros n x. split.
    + intros (j & Hj & <- & Hr & Hnm). rewrite He in Hr, Hnm |- * by done.
      case_decide as Hij; [done|]. split; [by exists j|]. intros Hri Heq.
      apply Hij, Hu; [done | done | done | done | congruence].
    + intros ((j & Hj & <- & Hr & Hnm) & Hdiff). exists j. rewrite He by done.
      case_decide as Hij; [subst j; by apply Hdiff in Hr | done].
Qed.

Lemma find_name_Some nm s i : find_name nm s = Some i ->
  0 <= i < 16 /\ provides s (nstr nm) (entry_at s i).
Proof.
  intros Hf. apply find_first_Some in Hf as (Hi & Hp & _).
  change (Z.of_nat (Z.to_nat SERVICE_REGISTRY_CAPACITY)) with 16 in Hi. split; [lia|].
  unfold name_at in Hp. rewrite name_equal_nstr in Hp. apply andb_true_iff in Hp as [Hr Hn].
  apply bool_decide_eq_true in Hn. exists i. split; [lia | done].
Qed.
Lemma find_name_None nm s x : find_name nm s = None -> ~ provides s (nstr nm) x.
Proof.
  intros Hf (i & Hi & <- & Hr & Hn). pose proof (find_first_None _ _ _ Hf i) as Hx.
  change (Z.of_nat (Z.to_nat SERVICE_REGISTRY_CAPACITY)) with 16 in Hx. specialize (Hx ltac:(lia)).
  unfold name_at in Hx. rewrite Hr, name_equal_nstr, Hn, bool_decide_eq_true_2 in Hx; done.
Qed.

(** ** Registering *)

Lemma register_ok owner nm fl s : sr_inv s -> pid owner <> 0 -> service_name_valid (Some nm) = true ->
  let r := register_body owner nm fl s in
  sr_inv r.2 /\
  ((r.1 = SERVICE_ERR_ALREADY_EXISTS /\ r.2 = s /\ exists x, provides s (nstr nm) x) \/
   (r.1 = SERVICE_ERR_NO_RESOURCES /\ r.2 = s /\ (forall x, ~ provides s (nstr nm) x) /\
    forall i, 0 <= i < 16 -> registered (entry_at s i) = true) \/
   (r.1 = SERVICE_OK /\ (forall x, ~ provides s (nstr nm) x) /\
    exists new, owner_pid new = pid owner /\ owner_generation new = p_generation owner /\
      s_flags new = fl /\
      forall n x, provides r.2 n x <-> (provides s n x \/ (n = nstr nm /\ x = new)))).
Proof.
  intros Hs Hpid Hv. pose proof Hs as [Hl Hn Ho Hu]. cbv zeta. unfold register_body.
  destruct (find_name nm s) as [k|] eqn:Hf.
  { split; [done|]. left. apply find_name_Some in Hf as [_ Hp]. eauto. }
  assert (forall x, ~ provides s (nstr nm) x) as Hnone by (intros x; by apply find_name_None).
  destruct (find_empty s) as [i|] eqn:He.
  2: { split; [done|]. right. left. split; [done|]. split; [done|]. split; [done|]. intros i Hi.
       pose proof (find_first_None _ _ _ He i) as Hx.
       change (Z.of_nat (Z.to_nat SERVICE_REGISTRY_CAPACITY)) with 16 in Hx.
       apply negb_false_iff. apply Hx. lia. }
  apply find_first_Some in He as (Hi & Hr & _). apply negb_true_iff in Hr.
  change (Z.of_nat (Z.to_nat SERVICE_REGISTRY_CAPACITY)) with 16 in Hi.
  destruct (service_next_generation 1 _) as [gen next].
  match goal with |- context [put_entry i ?x ?st] => set (new := x); set (s1 := st) end.
  assert (forall j, 0 <= j < 16 -> entry_at (put_entry i new s1) j
    = if decide (i = j) then new else entry_at s j) as Hat
    by (intros j Hj; apply (entry_put i new s1 j); done || lia).
  assert (nstr (name new) = nstr nm) as Hnew.
  { apply copy_name_nstr; [apply Hn; lia | done]. }
  cbn [fst snd]. split.
  - constructor.
    + unfold put_entry, s1. simpl. by rewrite alen_aset.
    + intros j Hj. rewrite Hat by done. case_decide; [|by apply Hn].
      apply copy_name_alen, Hn. lia.
    + intros j Hj. rewrite Hat by done. case_decide; [done | by apply Ho].
    + intros j k Hj Hk. rewrite !Hat by done. repeat case_decide; [congruence | | | by apply Hu].
      * intros _ Hrk Heq. exfalso. apply (Hnone (entry_at s k)). exists k. split; [done|]. split; [done|]. split; congruence.
      * intros Hrj _ Heq. exfalso. apply (Hnone (entry_at s j)). exists j. split; [done|]. split; [done|]. split; congruence.
  - right. right. split; [done|]. split; [done|]. exists new.
    split; [done|]. split; [done|]. split; [done|]. intros n x. split.
    + intros (j & Hj & <- & Hrj & Hnj). rewrite Hat in Hrj, Hnj |- * by done. case_decide.
      * right. split; congruence.
      * left. by exists j.
    + intros [(j & Hj & <- & Hrj & Hnj)|[-> ->]].
      * exists j. rewrite Hat by done. case_decide; [subst; congruence | done].
      * exists i. rewrite Hat, decide_True by (done || lia). split; [lia|]. done.
Qed.

Lemma unregister_ok owner nm s : sr_inv s ->
  let r := unregister_body owner nm s in
  sr_inv r.2 /\
  ((r.1 = SERVICE_ERR_NOT_FOUND /\ r.2 = s /\ forall x, ~ provides s (nstr nm) x) \/
   (exists x, provides s (nstr nm) x /\
     ((r.1 = SERVICE_ERR_PERMISSION_DENIED /\ r.2 = s /\
       (owner_pid x <> pid owner \/ owner_generation x <> p_generation owner)) \/
      (r.1 = SERVICE_OK /\ owner_pid x = pid owner /\ owner_generation x = p_generation owner /\
       forall n y, provides r.2 n y <-> provides s n y /\ n <> nstr nm)))).
Proof.
  intros Hs. cbv zeta. unfold unregister_body. destruct (find_name nm s) as [i|] eqn:Hf.
  2: { split; [done|]. left. split; [done|]. split; [done|]. intros x. by apply find_name_None. }
  apply find_name_Some in Hf as [Hi Hp]. pose proof Hp as (_ & _ & _ & Hr & Hn).
  destruct (negb _ || negb _) eqn:Hown.
  - split; [done|]. right. exists (entry_at s i). split; [done|]. left.
    split; [done|]. split; [done|]. bprop; auto.
  - apply orb_false_iff in Hown as [H1 H2]. apply negb_false_iff, Z.eqb_eq in H1.
    apply negb_false_iff, Z.eqb_eq in H2.
    destruct (clear_ok i s Hs Hi) as [Hinv Hprov]. split; [done|]. right. exists (entry_at s i).
    split; [done|]. right. split; [done|]. split; [done|]. split; [done|].
    intros n y. cbn [snd]. rewrite Hprov, Hn. split; [intros [? Hne]; split; [done|]; intros ->; by apply Hne|].
    intros [? Hne]. split; [done|]. intros _ Heq. congruence.
Qed.

(** ** Removing many services *)

(** Clearing the registered entries that satisfy a test. *)
Lemma clear_many p s s' : sr_inv s -> alen (service_table s') = 16 ->
  (forall j, 0 <= j < 16 -> entry_at s' j =
     if registered (entry_at s j) && p (entry_at s j) then service_clear_entry (entry_at s j)
     else entry_at s j) ->
  sr_inv s' /\ forall n x, provides s' n x <-> provides s n x /\ p x = false.
Proof.
  intros [Hl Hn Ho Hu] Hl' He.
  assert (forall j, 0 <= j < 16 -> registered (entry_at s' j) = true ->
    entry_at s' j = entry_at s j /\ registered (entry_at s j) = true /\ p (entry_at s j) = false) as Hreg.
  { intros j Hj. rewrite He by done. destruct (registered (entry_at s j)) eqn:Hr; [|intros Hx; simpl in Hx; congruence].
    destruct (p (entry_at s j)) eqn:Hp; [done|]. done. }
  split.
  - constructor; [done | | |].
    + intros j Hj. rewrite He by done. case_match; [simpl; rewrite alen_aset|]; by apply Hn.
    + intros j Hj Hr. destruct (Hreg j Hj Hr) as (-> & ? & _). by apply Ho.
    + intros j k Hj Hk Hrj Hrk. destruct (Hreg j Hj Hrj) as (-> & ? & _).
      destruct (Hreg k Hk Hrk) as (-> & ? & _). by apply Hu.
  - intros n x. split.
    + intros (j & Hj & <- & Hr & Hnm). destruct (Hreg j Hj Hr) as (Heq & Hr' & Hp).
      rewrite Heq in Hnm |- *. split; [by exists j | done].
    + intros ((j & Hj & <- & Hr & Hnm) & Hp). exists j. split; [done|].
      assert (entry_at s' j = entry_at s j) as -> by (rewrite He by done; by rewrite Hr, Hp). done.
Qed.

Lemma unregister_owner_ok o s : sr_inv s ->
  sr_inv (unregister_owner_body o s) /\
  forall n x, provides (unregister_owner_body o s) n x <-> provides s n x /\ (owner_pid x =? o) = false.
Proof.
  intros Hs. pose proof Hs as [Hl _ _ _].
  assert (alen (service_table (unregister_owner_body o s)) = 16 /\
    forall j, 0 <= j < 16 -> entry_at (unregister_owner_body o s) j =
     if registered (entry_at s j) && (owner_pid (entry_at s j) =? o)
     then service_clear_entry (entry_at s j) else entry_at s j) as [Hl' He].
  { assert (let s' := unregister_owner_body o s in alen (service_table s') = 16 /\
      forall j, 0 <= j < 16 -> entry_at s' j =
        if (j <? 16) && (registered (entry_at s j) && (owner_pid (entry_at s j) =? o))
        then service_clear_entry (entry_at s j) else entry_at s j) as [H1 H2].
    { apply (for_range_inv (fun i s' => alen (service_table s') = 16 /\
        forall j, 0 <= j < 16 -> entry_at s' j =
          if (j <? i) && (registered (entry_at s j) && (owner_pid (entry_at s j) =? o))
          then service_clear_entry (entry_at s j) else entry_at s j)); [done | |].
      - split; [done|]. intros j Hj. by rewrite (proj2 (Z.ltb_ge j 0)) by lia.
      - intros i s' Hi [A B]. unfold SERVICE_REGISTRY_CAPACITY in Hi.
        assert (entry_at s' i = entry_at s i) as Hei by (rewrite B, Z.ltb_irrefl by lia; done).
        rewrite Hei. split.
        + case_match; [unfold put_entry; simpl; by rewrite alen_aset | done].
        + intros j Hj. destruct (decide (i = j)) as [<-|Hne].
          * rewrite (proj2 (Z.ltb_lt i (i + 1))) by lia. cbn [andb].
            case_match; [rewrite entry_put, decide_True by done; done | done].
          * assert ((j <? i + 1) = (j <? i)) as -> by (destruct (j <? i) eqn:X, (j <? i + 1) eqn:Y; bprop; lia).
            rewrite <- B by done. case_match; [by rewrite entry_put, decide_False | done]. }
    split; [done|]. intros j Hj. rewrite H2 by done. by rewrite (proj2 (Z.ltb_lt j 16)) by lia. }
  by apply clear_many.
Qed.

(** ** Pruning and the operations *)

Section RegistryOps.
Context {E : Type} {KE : KernelEnv E} {LL : LockLaws E} {SH : ServiceHost E}.

(** Taking locks and testing fault points does not change which processes exist. *)
Class ServiceLaws := {
  lookup_acquire p g l e : find_process_by_identity p g (kernel_spinlock_acquire l e).2
                           = find_process_by_identity p g e;
  lookup_release p g l e : find_process_by_identity p g (kernel_spinlock_release l e)
                           = find_process_by_identity p g e;
}.
Context {SL : ServiceLaws}.

Definition owner_alive (e : E) (x : ServiceEntry) : bool :=
  service_process_alive (owner_pid x) (owner_generation x) e.
(** The services with a living owner. *)
Definition live_service (s : ServiceState) (e : E) (n : list Z) (x : ServiceEntry) : Prop :=
  provides s n x /\ owner_alive e x = true.

Definition same_host (e e' : E) : Prop :=
  (forall l, ready e l -> ready e' l) /\
  forall p g, find_process_by_identity p g e' = find_process_by_identity p g e.

Lemma same_host_alive e e' x : same_host e e' -> owner_alive e' x = owner_alive e x.
Proof. intros [_ He]. unfold owner_alive, service_process_alive. by rewrite He. Qed.
Lemma same_host_trans e1 e2 e3 : same_host e1 e2 -> same_host e2 e3 -> same_host e1 e3.
Proof. intros [A1 B1] [A2 B2]. split; [auto|]. intros p g. by rewrite B2, B1. Qed.

Lemma lock_cycle l e : ready e l -> exists e1, kernel_spinlock_acquire l e = (true, e1) /\
  same_host e (kernel_spinlock_release l e1) /\
  forall x, owner_alive e1 x = owner_alive e x.
Proof.
  intros Hr. destruct (ready_acquire e l Hr) as (e1 & Ha & Hk). exists e1. split; [done|].
  assert (forall p g, find_process_by_identity p g e1 = find_process_by_identity p g e) as Hl
    by (intros p g; pose proof (lookup_acquire p g l e) as Hx; by rewrite Ha in Hx).
  split; [split; [done|]; intros p g; by rewrite lookup_release, Hl|].
  intros x. unfold owner_alive, service_process_alive. by rewrite Hl.
Qed.

Lemma prune_step_ok i s e : ready e service_lock ->
  (registered (entry_at s i) = true -> owner_pid (entry_at s i) <> 0) ->
  exists e', prune_step i s e = (true,
    if registered (entry_at s i) && negb (owner_alive e (entry_at s i))
    then put_entry i (service_clear_entry (entry_at s i)) s else s, e') /\ same_host e e'.
Proof.
  intros Hr Ho. unfold prune_step. destruct (lock_cycle service_lock e Hr) as (e1 & -> & Hs1 & _).
  cbn [negb]. destruct (registered (entry_at s i)) eqn:Hreg; cbn [andb].
  2: { eexists. by split. }
  rewrite (proj2 (Z.eqb_neq _ _) (Ho eq_refl)). cbn [orb].
  change (service_process_alive (owner_pid (entry_at s i)) (owner_generation (entry_at s i)) ?x)
    with (owner_alive x (entry_at s i)).
  rewrite (same_host_alive _ _ _ Hs1). destruct (owner_alive e (entry_at s i)); cbn [negb].
  { eexists. by split. }
  destruct (lock_cycle service_lock _ (proj1 Hs1 _ Hr)) as (e2 & -> & Hs2 & _). cbn [negb].
  rewrite !Z.eqb_refl. cbn [andb]. eexists. split; [done|]. by eapply same_host_trans.
Qed.

Lemma prune_ok s e : sr_inv s -> ready e service_lock ->
  exists s' e', service_prune_stale s e = (s', e') /\ same_host e e' /\ sr_inv s' /\
    forall n x, provides s' n x <-> live_service s e n x.
Proof.
  intros Hs Hr. pose proof Hs as [Hl _ Ho _]. unfold service_prune_stale.
  set (dead := fun x => negb (owner_alive e x)).
  assert (exists s' e', for_range 0 SERVICE_REGISTRY_CAPACITY (fun i '(go, s, e) =>
      if (go : bool) then prune_step i s e else (go, s, e)) (true, s, e) = (true, s', e') /\
    same_host e e' /\ alen (service_table s') = 16 /\
    forall j, 0 <= j < 16 -> entry_at s' j =
      if (j <? 16) && (registered (entry_at s j) && dead (entry_at s j))
      then service_clear_entry (entry_at s j) else entry_at s j) as (s' & e' & -> & Hh & Hl' & He).
  { apply (for_range_inv (fun i st => exists s' e', st = (true, s', e') /\
      same_host e e' /\ alen (service_table s') = 16 /\
      forall j, 0 <= j < 16 -> entry_at s' j =
        if (j <? i) && (registered (entry_at s j) && dead (entry_at s j))
        then service_clear_entry (entry_at s j) else entry_at s j)); [done | |].
    - exists s, e. split; [done|]. split; [by split|]. split; [done|]. intros j Hj.
      by rewrite (proj2 (Z.ltb_ge j 0)) by lia.
    - intros i st Hi (s1 & e1 & -> & Hh & A & B). unfold SERVICE_REGISTRY_CAPACITY in Hi.
      assert (entry_at s1 i = entry_at s i) as Hei by (rewrite B, Z.ltb_irrefl by lia; done).
      destruct (prune_step_ok i s1 e1) as (e2 & -> & Hh2); [by apply Hh | rewrite Hei; by apply Ho |].
      rewrite Hei, (same_host_alive _ _ _ Hh). fold (dead (entry_at s i)).
      eexists _, e2. split; [done|]. split; [by eapply same_host_trans|]. split.
      + case_match; [unfold put_entry; simpl; by rewrite alen_aset | done].
      + intros j Hj. destruct (decide (i = j)) as [<-|Hne].
        * rewrite (proj2 (Z.ltb_lt i (i + 1))) by lia. cbn [andb].
          case_match; [by rewrite entry_put, decide_True by done | done].
        * assert ((j <? i + 1) = (j <? i)) as -> by (destruct (j <? i) eqn:X, (j <? i + 1) eqn:Y; bprop; lia).
          rewrite <- B by done. case_match; [by rewrite entry_put, decide_False by done | done]. }
  exists s', e'. split; [done|]. split; [done|].
  destruct (clear_many dead s s' Hs Hl') as [Hi Hp].
  { intros j Hj. rewrite He by done. by rewrite (proj2 (Z.ltb_lt j 16)) by lia. }
  split; [done|]. intros n x. rewrite Hp. unfold live_service, dead.
  rewrite negb_false_iff. done.
Qed.

(** Registering.  [service_register] keeps the registered names unique.
    The services of dead processes go away; if it answers OK the name was not
    held by a living process and the registry afterwards has exactly the
    living services and the new one, with the caller's identity and flags;
    with any other answer it has exactly the living services; ALREADY_EXISTS
    is answered only if a living process holds the name. *)
Theorem service_register_spec owner nm fl s e r s' e' : sr_inv s -> ready e service_lock ->
  service_register owner nm fl s e = (r, s', e') ->
  sr_inv s' /\
  (r = SERVICE_OK -> exists o n new, owner = Some o /\ nm = Some n /\
     (forall x, ~ live_service s e (nstr n) x) /\
     owner_pid new = pid o /\ owner_generation new = p_generation o /\ s_flags new = fl /\
     forall n' x, provides s' n' x <-> live_service s e n' x \/ (n' = nstr n /\ x = new)) /\
  (r <> SERVICE_OK -> forall n x, provides s' n x <-> live_service s e n x) /\
  (r = SERVICE_ERR_ALREADY_EXISTS -> exists n x, nm = Some n /\ live_service s e (nstr n) x).
Proof.
  intros Hs Hr. unfold service_register.
  destruct (prune_ok s e Hs Hr) as (s1 & e1 & -> & Hh & Hs1 & Hp).
  destruct owner as [o|]; [|intros [= <- <- <-]; by split_and!].
  if_eqn Ho; [intros [= <- <- <-]; by split_and!|].
  destruct nm as [n|]; [|intros [= <- <- <-]; by split_and!].
  if_eqn Hv; [intros [= <- <- <-]; by split_and!|].
  if_eqn Hfl; [intros [= <- <- <-]; by split_and!|].
  pose proof (ready_fault e1 service_lock KERNEL_FAULT_POINT_SERVICE (proj1 Hh _ Hr)) as Hr2.
  destruct (kernel_fault_injection_should_fail _ e1) as [fault e2].
  destruct fault; [intros [= <- <- <-]; by split_and!|].
  destruct (with_lock_ready service_lock SERVICE_ERR_NOT_READY (register_body o n fl) s1 e2 Hr2)
    as (e3 & -> & _).
  apply orb_false_iff in Ho as [Hpid _]. apply Z.eqb_neq in Hpid. apply negb_false_iff in Hv.
  destruct (register_ok o n fl s1 Hs1 Hpid Hv) as [Hi Hcase].
  destruct (register_body o n fl s1) as [r1 s2]. cbn [fst snd] in *. intros [= <- <- <-].
  split; [done|].
  destruct Hcase as [(-> & -> & x & Hx)|[(-> & -> & Hno & _)|(-> & Hno & new & H1 & H2 & H3 & Hall)]].
  - split; [done|]. split; [done|]. intros _. exists n, x. split; [done|]. by apply Hp.
  - by split_and!.
  - split; [|by split]. intros _. exists o, n, new. split_and!; try done.
    + intros x Hx. apply (Hno x). by apply Hp.
    + intros n' x. rewrite Hall, Hp. done.
Qed.

(** Unregistering.  A service is removed only by its owner: [service_unregister]
    answers OK only if the living service of that name belongs to the caller
    (same pid and generation) and then removes that service and no other living
    one; PERMISSION_DENIED if it belongs to someone else, NOT_FOUND if there is
    none, and in these cases every living service stays. *)
Theorem service_unregister_spec o n s e r s' e' : sr_inv s -> ready e service_lock ->
  pid o <> 0 -> service_name_valid (Some n) = true ->
  service_unregister (Some o) (Some n) s e = (r, s', e') ->
  sr_inv s' /\
  ((r = SERVICE_ERR_NOT_FOUND /\ (forall x, ~ live_service s e (nstr n) x) /\
    forall n' y, provides s' n' y <-> live_service s e n' y) \/
   exists x, live_service s e (nstr n) x /\
     ((r = SERVICE_ERR_PERMISSION_DENIED /\
       (owner_pid x <> pid o \/ owner_generation x <> p_generation o) /\
       forall n' y, provides s' n' y <-> live_service s e n' y) \/
      (r = SERVICE_OK /\ owner_pid x = pid o /\ owner_generation x = p_generation o /\
       forall n' y, provides s' n' y <-> live_service s e n' y /\ n' <> nstr n))).
Proof.
  intros Hs Hr Hpid Hv. unfold service_unregister.
  destruct (prune_ok s e Hs Hr) as (s1 & e1 & -> & Hh & Hs1 & Hp).
  rewrite (proj2 (Z.eqb_neq _ _) Hpid), Hv. cbn [negb].
  destruct (with_lock_ready service_lock SERVICE_ERR_NOT_READY (unregister_body o n) s1 e1
    (proj1 Hh _ Hr)) as (e3 & -> & _).
  destruct (unregister_ok o n s1 Hs1) as [Hi Hcase].
  destruct (unregister_body o n s1) as [r1 s2]. cbn [fst snd] in *. intros [= <- <- <-].
  split; [done|].
  destruct Hcase as [(-> & -> & Hno)|(x & Hx & [(-> & -> & Hd)|(-> & H1 & H2 & Hall)])].
  - left. split; [done|]. split; [|done]. intros x Hx. apply (Hno x). by apply Hp.
  - right. exists x. split; [by apply Hp|]. left. done.
  - right. exists x. split; [by apply Hp|]. right. split; [done|]. split; [done|]. split; [done|].
    intros n' y. rewrite Hall, Hp. done.
Qed.

(** What was registered is found.  After a successful registration, as
    long as the owner lives, looking the name up answers the owner's identity;
    and a lookup answers NOT_FOUND exactly for names no living service has. *)
Theorem service_find_spec n s e r out s' e' : sr_inv s -> ready e service_lock ->
  service_name_valid (Some n) = true ->
  service_find_owner_identity (Some n) true s e = ((r, out), s', e') ->
  (forall n' x, provides s' n' x <-> live_service s e n' x) /\
  ((exists x, live_service s e (nstr n) x /\ r = SERVICE_OK /\
      out = Some (owner_pid x, owner_generation x)) \/
   ((forall x, ~ live_service s e (nstr n) x) /\ r = SERVICE_ERR_NOT_FOUND /\ out = None)).
Proof.
  intros Hs Hr Hv. unfold service_find_owner_identity.
  destruct (prune_ok s e Hs Hr) as (s1 & e1 & -> & Hh & Hs1 & Hp). cbn [negb]. rewrite Hv. cbn [negb].
  match goal with |- context [with_lock service_lock ?f ?b s1 e1] =>
    destruct (with_lock_ready service_lock f b s1 e1 (proj1 Hh _ Hr)) as (e3 & -> & _) end.
  destruct (find_name n s1) as [i|] eqn:Hf; intros [= <- <- <- <-]; (split; [done|]).
  - left. apply find_name_Some in Hf as [_ Hf]. exists (entry_at s1 i). split; [by apply Hp | done].
  - right. split; [|done]. intros x Hx. apply (find_name_None n s1 x Hf). by apply Hp.
Qed.
End RegistryOps.

(** ** Witnesses *)

#[export] Instance quiet_services : ServiceHost unit := {|
  find_process_by_identity p g _ :=
    if (p =? 5) && (g =? 1) then Some {| pid := 5; p_generation := 1; p_active := 1; p_state := 2 |}
    else None |}.
#[export] Instance quiet_service_laws : ServiceLaws (E := unit).
Proof. constructor; done. Defined.

Definition demo_owner : ProcessRef := {| pid := 5; p_generation := 1; p_active := 1; p_state := 2 |}.
Definition demo_registry : ServiceState :=
  {| service_table := replicate 16 inhabitant; service_generation_next := 1 |}.
(** "gui" *)
Definition demo_name : list Z := [103; 117; 105].

Lemma demo_entry i : 0 <= i < 16 -> entry_at demo_registry i = inhabitant.
Proof. intros Hi. apply (aget_replicate 16). lia. Qed.
Lemma demo_registry_inv : sr_inv demo_registry.
Proof.
  constructor; [reflexivity | | |]; intros i; [| |intros j]; intros Hi; [| |intros Hj];
    rewrite ?demo_entry by done; done.
Qed.
Lemma demo_empty e n x : ~ live_service (E := unit) demo_registry e n x.
Proof. intros [(i & Hi & Hx & Hr & _) _]. rewrite demo_entry in Hx by done. by subst x. Qed.

Lemma service_register_spec_witness : exists new,
  provides (service_register (E := unit) (Some demo_owner) (Some demo_name) 0 demo_registry tt).1.2
    (nstr demo_name) new /\ owner_pid new = 5.
Proof.
  destruct (service_register (E := unit) (Some demo_owner) (Some demo_name) 0 demo_registry tt)
    as [[r s'] e'] eqn:Hreg.
  assert (r = SERVICE_OK) as Hr.
  { change r with ((r, s', e').1.1). rewrite <- Hreg. reflexivity. }
  destruct (service_register_spec (E := unit) (LL := quiet_laws) (Some demo_owner) (Some demo_name) 0 demo_registry tt
    r s' e' demo_registry_inv I Hreg) as (_ & Hok & _).
  destruct (Hok Hr) as (o & n & new & [= <-] & [= <-] & _ & Hpid & _ & _ & Hall).
  exists new. split; [apply Hall; by right | exact Hpid].
Defined.

Lemma service_unregister_spec_witness :
  (service_unregister (E := unit) (Some demo_owner) (Some demo_name) demo_registry tt).1.1
  = SERVICE_ERR_NOT_FOUND.
Proof.
  destruct (service_unregister (E := unit) (Some demo_owner) (Some demo_name) demo_registry tt)
    as [[r s'] e'] eqn:Hu.
  destruct (service_unregister_spec (E := unit) (LL := quiet_laws) demo_owner demo_name demo_registry tt r s' e'
    demo_registry_inv I ltac:(discriminate) eq_refl Hu) as [_ [[Hr _]|(x & Hx & _)]].
  - exact Hr.
  - by apply demo_empty in Hx.
Defined.

Lemma service_find_spec_witness :
  (service_find_owner_identity (E := unit) (Some demo_name) true demo_registry tt).1.1
  = (SERVICE_ERR_NOT_FOUND, None).
Proof.
  destruct (service_find_owner_identity (E := unit) (Some demo_name) true demo_registry tt)
    as [[[r out] s'] e'] eqn:Hf.
  destruct (service_find_spec (E := unit) (LL := quiet_laws) demo_name demo_registry tt r out s' e'
    demo_registry_inv I eq_refl Hf) as [_ [(x & Hx & _)|(_ & -> & ->)]].
  - by apply demo_empty in Hx.
  - reflexivity.
Defined.
