(* ===== verification/Ipc.v ===== *)
(** * Message passing between processes ([kernel/ipc/ipc.cpp])

    Validation and preparation of user messages, the transfer of handles from
    the sender's table to the receiver's with its rollback, sending and
    receiving.  A process is the record of the fields this file reads, with the
    addresses of its handle table and mailbox; both live in the state.  A
    [Process*] the code tests against null is an option.  The scheduler
    notifications are reached through [IpcHost]. *)

From S2P Require Import Prelude KernelEnv Results Handle KernelObjects Mailbox.

Definition IPC_OK : Z := 0.
Definition IPC_ERR_NOT_READY : Z := -1.
Definition IPC_ERR_INVALID_ARGUMENT : Z := -2.
Definition IPC_ERR_WOULD_BLOCK : Z := -9.
Definition IPC_ERR_NO_TARGET : Z := -12.
Definition IPC_ERR_QUEUE_FULL : Z := -13.
Definition IPC_ERR_MESSAGE_TOO_LARGE : Z := -14.
Definition IPC_ERR_PERMISSION_DENIED : Z := -15.
Definition IPC_ERR_BAD_BUFFER : Z := -16.
Definition OS_IPC_MESSAGE_REQUEST : Z := 1.
Definition OS_IPC_MESSAGE_REPLY : Z := 2.
Definition OS_IPC_MESSAGE_EVENT : Z := 3.
Definition KERNEL_HANDLE_RIGHT_READ : Z := 1.
Definition KERNEL_HANDLE_RIGHT_MAP : Z := 16.
Definition KERNEL_HANDLE_RIGHT_TRANSFER : Z := 32.
Definition PROCESS_STATE_EMPTY : Z := 0.
Definition PROCESS_STATE_RETURNED : Z := 3.
Definition PROCESS_STATE_FAILED : Z := 4.
Definition PROCESS_WAIT_IPC : Z := 3.
Definition PROCESS_WAIT_OK : Z := 0.

Record Process := {
  p_pid : Z; p_gen : Z; p_is_active : Z; p_proc_state : Z; p_handle_table : Z; p_ipc_mailbox : Z }.

Class IpcHost (E : Type) := {
  process_wait_signal : Process -> Z -> Z -> E -> bool * E;
  process_notify_queued_ipc : Process -> E -> E;
  process_terminal_notify_message : Process -> E -> E;
}.

#[export] Instance KernelIpcMailbox_inhabited : Inhabited KernelIpcMailbox := populate
  {| messages := replicate 16 clear_message_v2; head := 0; tail := 0; mb_count := 0;
     delivered_count := 0; dropped_count := 0 |}.

Record IpcState := { objs : ObjState; mailboxes : gmap Z KernelIpcMailbox }.
#[export] Instance IpcState_settable : Settable IpcState := {| eta_expand s := {|
  objs := objs s; mailboxes := mailboxes s |} |}.

Definition ipc_process_can_receive (p : option Process) : bool :=
  match p with
  | None => false
  | Some p =>
    if (p_pid p =? 0) || (p_is_active p =? 0) then false
    else if (p_proc_state p =? PROCESS_STATE_EMPTY) || (p_proc_state p =? PROCESS_STATE_RETURNED)
            || (p_proc_state p =? PROCESS_STATE_FAILED) then false
    else true
  end.

(** ** Validation *)

Definition valid_message_type (ty : Z) : bool :=
  (ty =? OS_IPC_MESSAGE_REQUEST) || (ty =? OS_IPC_MESSAGE_REPLY) || (ty =? OS_IPC_MESSAGE_EVENT).

Definition ipc_validate_user_message (message : option OsIpcMessage) : Z :=
  match message with
  | None => IPC_ERR_BAD_BUFFER
  | Some m =>
    if negb (v1_size m =? sizeof_OsIpcMessage) then IPC_ERR_INVALID_ARGUMENT
    else if OS_IPC_MESSAGE_PAYLOAD_SIZE <? v1_length m then IPC_ERR_MESSAGE_TOO_LARGE
    else if negb (valid_message_type (v1_type m)) then IPC_ERR_INVALID_ARGUMENT
    else if nonzero (Z.land (v1_flags m) (not32 OS_IPC_FLAG_REQUEST_REPLY))
    then IPC_ERR_INVALID_ARGUMENT
    else if negb (v1_type m =? OS_IPC_MESSAGE_REQUEST)
            && nonzero (Z.land (v1_flags m) OS_IPC_FLAG_REQUEST_REPLY)
    then IPC_ERR_INVALID_ARGUMENT
    else IPC_OK
  end.

Definition ipc_validate_user_message_v2 (message : option OsIpcMessageV2) : Z :=
  match message with
  | None => IPC_ERR_BAD_BUFFER
  | Some m =>
    if negb (v2_size m =? sizeof_OsIpcMessageV2)
       || negb (v2_abi_version m =? OS64_IPC_ABI_VERSION_V2) then IPC_ERR_INVALID_ARGUMENT
    else if OS_IPC_V2_MESSAGE_PAYLOAD_SIZE <? v2_length m then IPC_ERR_MESSAGE_TOO_LARGE
    else if OS_IPC_V2_MAX_HANDLES <? v2_handle_count m then IPC_ERR_INVALID_ARGUMENT
    else if negb (valid_message_type (v2_type m)) then IPC_ERR_INVALID_ARGUMENT
    else if nonzero (Z.land (v2_flags m)
              (not32 (Z.lor OS_IPC_FLAG_REQUEST_REPLY OS_IPC_FLAG_HAS_HANDLES)))
    then IPC_ERR_INVALID_ARGUMENT
    else if negb (v2_type m =? OS_IPC_MESSAGE_REQUEST)
            && nonzero (Z.land (v2_flags m) OS_IPC_FLAG_REQUEST_REPLY)
    then IPC_ERR_INVALID_ARGUMENT
    else if (v2_handle_count m =? 0) && nonzero (Z.land (v2_flags m) OS_IPC_FLAG_HAS_HANDLES)
    then IPC_ERR_INVALID_ARGUMENT
    else if negb (v2_handle_count m =? 0) && (Z.land (v2_flags m) OS_IPC_FLAG_HAS_HANDLES =? 0)
    then IPC_ERR_INVALID_ARGUMENT
    else IPC_OK
  end.

(** ** Preparation *)

(** [prepared] tells whether that pointer is not null; the message written there
    is in the answer. *)
Definition ipc_prepare_message (sender_pid : Z) (source : option OsIpcMessage) (prepared : bool)
    : Z * option OsIpcMessage :=
  if negb prepared then (IPC_ERR_BAD_BUFFER, None)
  else
    match source with
    | Some src =>
      let result := ipc_validate_user_message source in
      if negb (result =? IPC_OK) then (result, None)
      else
        let p := src <| v1_size := sizeof_OsIpcMessage |> <| v1_sender_pid := sender_pid |>
                     <| v1_sender_generation := 0 |> in
        (IPC_OK, Some (for_range (v1_length p) OS_IPC_MESSAGE_PAYLOAD_SIZE (fun i p =>
           p <| v1_payload := aset (v1_payload p) i 0 |>) p))
    | None => (ipc_validate_user_message source, None)
    end.

Section Operations.
Context {E : Type} `{KernelEnv E} `{ObjectEnv E} `{IpcHost E}.

(** An operation on the objects and handle tables. *)
Definition on_objs {A} (f : ObjState -> E -> A * ObjState * E) (s : IpcState) (e : E)
    : A * IpcState * E :=
  let '(a, o, e) := f (objs s) e in (a, s <| objs := o |>, e).

(** An operation on the mailbox of a process. *)
Definition on_mailbox {A} (p : Process) (f : KernelIpcMailbox -> E -> A * KernelIpcMailbox * E)
    (s : IpcState) (e : E) : A * IpcState * E :=
  let '(a, m, e) := f (mailboxes s !!! p_ipc_mailbox p) e in
  (a, s <| mailboxes := <[p_ipc_mailbox p := m]> (mailboxes s) |>, e).

(** The handle array after the loop is in the answer. *)
Definition rollback_transferred_handles (target : option Process) (handles : list Z) (count : Z)
    (s : ObjState) (e : E) : list Z * ObjState * E :=
  match target with
  | None => (handles, s, e)
  | Some t =>
    for_range 0 count (fun i '(handles, s, e) =>
      if nonzero (aget handles i) then
        let '(_, s, e) := kernel_object_close_handle (p_handle_table t) (aget handles i) s e in
        (aset handles i 0, s, e)
      else (handles, s, e)) (handles, s, e)
  end.

(** One turn of the loop of [transfer_handles]: an error code after the rollback,
    or the new handle. *)
Definition transfer_one (sender target : Process) (handles new_handles : list Z) (i : Z)
    (s : ObjState) (e : E) : (Z + Z) * ObjState * E :=
  let '(ok, source, s, e) := on_tables (kernel_handle_resolve_copy (p_handle_table sender)
    (aget handles i) KERNEL_HANDLE_TYPE_NONE KERNEL_HANDLE_RIGHT_TRANSFER true) s e in
  match source with
  | Some src =>
    if negb ok then
      let '(_, s, e) := rollback_transferred_handles (Some target) new_handles i s e in
      (inl IPC_ERR_PERMISSION_DENIED, s, e)
    else
      let read_map := Z.lor KERNEL_HANDLE_RIGHT_READ KERNEL_HANDLE_RIGHT_MAP in
      let surface := type src =? KERNEL_HANDLE_TYPE_GRAPHICS_SURFACE in
      let receiver_rights := if surface then Z.land (rights src) read_map else rights src in
      if surface && negb (receiver_rights =? read_map) then
        let '(_, s, e) := rollback_transferred_handles (Some target) new_handles i s e in
        (inl IPC_ERR_PERMISSION_DENIED, s, e)
      else
        let '(cloned, s, e) := kernel_object_clone_handle_with_rights (p_handle_table target)
          source receiver_rights s e in
        if cloned =? 0 then
          let '(_, s, e) := rollback_transferred_handles (Some target) new_handles i s e in
          (inl IPC_ERR_QUEUE_FULL, s, e)
        else (inr cloned, s, e)
  | None =>
    let '(_, s, e) := rollback_transferred_handles (Some target) new_handles i s e in
    (inl IPC_ERR_PERMISSION_DENIED, s, e)
  end.

Fixpoint transfer_loop (n : nat) (i : Z) (sender target : Process) (handles new_handles : list Z)
    (s : ObjState) (e : E) : (Z * list Z) * ObjState * E :=
  match n with
  | O => ((IPC_OK, new_handles), s, e)
  | S n =>
    let '(r, s, e) := transfer_one sender target handles new_handles i s e in
    match r with
    | inl code => ((code, new_handles), s, e)
    | inr cloned => transfer_loop n (i + 1) sender target handles (aset new_handles i cloned) s e
    end
  end.

Definition transfer_handles (sender target : option Process) (prepared : OsIpcMessageV2)
    (s : ObjState) (e : E) : (Z * OsIpcMessageV2) * ObjState * E :=
  if v2_handle_count prepared =? 0 then ((IPC_OK, prepared), s, e)
  else
    match sender, target with
    | Some sd, Some t =>
      let '(r, new_handles, s, e) := transfer_loop (Z.to_nat (v2_handle_count prepared)) 0 sd t
        (v2_handles prepared) (replicate (Z.to_nat OS_IPC_V2_MAX_HANDLES) 0) s e in
      if negb (r =? IPC_OK) then ((r, prepared), s, e)
      else
        ((IPC_OK, for_range 0 (v2_handle_count prepared) (fun i p =>
            p <| v2_handles := aset (v2_handles p) i (aget new_handles i) |>) prepared), s, e)
    | _, _ => ((IPC_ERR_NOT_READY, prepared), s, e)
    end.

(** [*prepared] before the transfer: the source stamped with the sender's identity
    and zeroed past its length and handle count. *)
Definition stamp_message_v2 (sender : option Process) (src : OsIpcMessageV2) : OsIpcMessageV2 :=
  let p := src <| v2_size := sizeof_OsIpcMessageV2 |>
    <| v2_abi_version := OS64_IPC_ABI_VERSION_V2 |>
    <| v2_sender_pid := match sender with Some sd => p_pid sd | None => 0 end |>
    <| v2_sender_generation := match sender with Some sd => p_gen sd | None => 0 end |> in
  let p := for_range (v2_length p) OS_IPC_V2_MESSAGE_PAYLOAD_SIZE (fun i p =>
    p <| v2_payload := aset (v2_payload p) i 0 |>) p in
  for_range (v2_handle_count p) OS_IPC_V2_MAX_HANDLES (fun i p =>
    p <| v2_handles := aset (v2_handles p) i 0 |>) p.

Definition ipc_prepare_message_v2 (sender target : option Process) (source : option OsIpcMessageV2)
    (prepared : bool) (s : ObjState) (e : E) : (Z * option OsIpcMessageV2) * ObjState * E :=
  if negb prepared then ((IPC_ERR_BAD_BUFFER, None), s, e)
  else
    match source with
    | Some src =>
      let result := ipc_validate_user_message_v2 source in
      if negb (result =? IPC_OK) then ((result, None), s, e)
      else
        let '(r, p, s, e) := transfer_handles sender target (stamp_message_v2 sender src) s e in
        ((r, Some p), s, e)
    | None => ((ipc_validate_user_message_v2 source, None), s, e)
    end.

(** ** Sending *)

Definition process_ipc_mailbox_push (p : Process) (m : OsIpcMessage) (s : IpcState) (e : E) :=
  on_mailbox p (ipc_mailbox_push (p_ipc_mailbox p) (Some m)) s e.
Definition process_ipc_mailbox_push_v2 (p : Process) (m : OsIpcMessageV2) (s : IpcState) (e : E) :=
  on_mailbox p (ipc_mailbox_push_v2 (p_ipc_mailbox p) (Some m)) s e.
Definition process_ipc_mailbox_pop (p : Process) (m : option OsIpcMessage) (s : IpcState) (e : E) :=
  on_mailbox p (ipc_mailbox_pop (p_ipc_mailbox p) m) s e.
Definition process_ipc_mailbox_pop_v2 (p : Process) (m : bool) (s : IpcState) (e : E) :=
  on_mailbox p (ipc_mailbox_pop_v2 (p_ipc_mailbox p) m) s e.

(** The tail both senders share: wake a thread that waits for messages, or make a
    runnable one visible. *)
Definition signal_receiver (t : Process) (e : E) : E :=
  let '(signaled, e) := process_wait_signal t PROCESS_WAIT_IPC PROCESS_WAIT_OK e in
  if signaled then e else process_notify_queued_ipc t e.

Definition ipc_send_message (sender target : option Process) (message : option OsIpcMessage)
    (s : IpcState) (e : E) : Z * IpcState * E :=
  match sender with
  | None => (IPC_ERR_NOT_READY, s, e)
  | Some sd =>
    if (p_pid sd =? 0) || (p_is_active sd =? 0) then (IPC_ERR_NOT_READY, s, e)
    else
      match target with
      | None => (IPC_ERR_NO_TARGET, s, e)
      | Some t =>
        if negb (ipc_process_can_receive target) then (IPC_ERR_NO_TARGET, s, e)
        else if p_pid sd =? p_pid t then (IPC_ERR_PERMISSION_DENIED, s, e)
        else
          match ipc_prepare_message (p_pid sd) message true with
          | (result, None) => (result, s, e)
          | (result, Some prepared) =>
            if negb (result =? IPC_OK) then (result, s, e)
            else
              let prepared := prepared <| v1_sender_generation := p_gen sd |> in
              let '(pushed, s, e) := process_ipc_mailbox_push t prepared s e in
              if pushed =? 0 then (IPC_ERR_QUEUE_FULL, s, e)
              else (IPC_OK, s, signal_receiver t e)
          end
      end
  end.

Definition ipc_send_message_v2 (sender target : option Process) (message : option OsIpcMessageV2)
    (s : IpcState) (e : E) : Z * IpcState * E :=
  match sender with
  | None => (IPC_ERR_NOT_READY, s, e)
  | Some sd =>
    if (p_pid sd =? 0) || (p_is_active sd =? 0) then (IPC_ERR_NOT_READY, s, e)
    else
      match target with
      | None => (IPC_ERR_NO_TARGET, s, e)
      | Some t =>
        if negb (ipc_process_can_receive target) then (IPC_ERR_NO_TARGET, s, e)
        else if p_pid sd =? p_pid t then (IPC_ERR_PERMISSION_DENIED, s, e)
        else
          let '(r, s, e) := on_objs (ipc_prepare_message_v2 sender target message true) s e in
          match r with
          | (result, None) => (result, s, e)
          | (result, Some prepared) =>
            if negb (result =? IPC_OK) then (result, s, e)
            else
              let '(pushed, s, e) := process_ipc_mailbox_push_v2 t prepared s e in
              if pushed =? 0 then
                let '(_, s, e) := on_objs (rollback_transferred_handles target
                  (v2_handles prepared) (v2_handle_count prepared)) s e in
                (IPC_ERR_QUEUE_FULL, s, e)
              else (IPC_OK, s, process_terminal_notify_message t (signal_receiver t e))
          end
      end
  end.

(** ** Receiving *)

(** [message] is the caller's buffer before the call; what it holds after is in
    the answer. *)
Definition ipc_receive_message (receiver : option Process) (message : option OsIpcMessage)
    (s : IpcState) (e : E) : (Z * option OsIpcMessage) * IpcState * E :=
  match receiver with
  | None => ((IPC_ERR_NOT_READY, message), s, e)
  | Some p =>
    if negb (ipc_process_can_receive receiver) then ((IPC_ERR_NOT_READY, message), s, e)
    else if (match message with None => true | Some _ => false end)
    then ((IPC_ERR_BAD_BUFFER, message), s, e)
    else
      let '(r, out, s, e) := process_ipc_mailbox_pop p message s e in
      if r =? 0 then ((IPC_ERR_WOULD_BLOCK, out), s, e) else ((IPC_OK, out), s, e)
  end.

Definition ipc_receive_message_v2 (receiver : option Process) (message : bool)
    (s : IpcState) (e : E) : (Z * option OsIpcMessageV2) * IpcState * E :=
  match receiver with
  | None => ((IPC_ERR_NOT_READY, None), s, e)
  | Some p =>
    if negb (ipc_process_can_receive receiver) then ((IPC_ERR_NOT_READY, None), s, e)
    else if negb message then ((IPC_ERR_BAD_BUFFER, None), s, e)
    else
      let '(r, out, s, e) := process_ipc_mailbox_pop_v2 p message s e in
      if r =? 0 then ((IPC_ERR_WOULD_BLOCK, out), s, e) else ((IPC_OK, out), s, e)
  end.

Definition ipc_receive_message_v2_match (receiver : option Process)
    (filter : option OsIpcReceiveFilter) (message : bool) (s : IpcState) (e : E)
    : (Z * option OsIpcMessageV2) * IpcState * E :=
  match receiver with
  | None => ((IPC_ERR_NOT_READY, None), s, e)
  | Some p =>
    if negb (ipc_process_can_receive receiver) then ((IPC_ERR_NOT_READY, None), s, e)
    else
      match filter with
      | None => ((IPC_ERR_BAD_BUFFER, None), s, e)
      | Some f =>
        if negb message || negb (f_size f =? sizeof_OsIpcReceiveFilter)
        then ((IPC_ERR_BAD_BUFFER, None), s, e)
        else if nonzero (Z.land (f_flags f) (not32
                  (Z.lor (Z.lor OS_IPC_FILTER_SENDER OS_IPC_FILTER_TYPE) OS_IPC_FILTER_REPLY_TO)))
        then ((IPC_ERR_INVALID_ARGUMENT, None), s, e)
        else
          let '(r, out, s, e) :=
            on_mailbox p (ipc_mailbox_pop_v2_match (p_ipc_mailbox p) filter message) s e in
          if r =? 0 then ((IPC_ERR_WOULD_BLOCK, out), s, e) else ((IPC_OK, out), s, e)
      end
  end.
End Operations.
