(* ===== verification/IpcSpec.v ===== *)
(** * Sending messages with handles

    What [ipc_send_message_v2] does to the receiver: either the message is
    queued with the sender's identity and the receiver holds exactly the new
    handles the message names, or nothing the processes can see has changed. *)

From S2P Require Import Prelude KernelEnv Results Handle HandleSpec KernelObjects KernelObjectsSpec.
From S2P Require Import Mailbox MailboxSpec Ipc.

(** ** Handles granted to one table *)

(** From [ts] to [ts'] the table at [k] gained the capabilities [new] under fresh
    tokens; nothing else changed. *)
Record granted (k : Z) (ts ts' : Tables) (new : list (Z * Cap)) : Prop := {
  gr_dom : dom ts' = dom ts;
  gr_other : forall k', k' <> k -> ts' !! k' = ts !! k';
  gr_nodup : NoDup (fst <$> new);
  gr_new : forall h c, (h, c) ∈ new ->
    h <> 0 /\ is_u64 h /\ caps (ts !!! k) h = None /\ caps (ts' !!! k) h = Some c;
  gr_old : forall h, is_u64 h -> h ∉ (fst <$> new) -> caps (ts' !!! k) h = caps (ts !!! k) h;
}.

Lemma granted_refl k ts : granted k ts ts [].
Proof. constructor; try done; [constructor | intros h c Hc; by apply elem_of_nil in Hc]. Qed.

Lemma granted_total k ts ts' new k' : granted k ts ts' new -> k' <> k -> ts' !!! k' = ts !!! k'.
Proof. intros Hg Hk. unfold lookup_total, map_lookup_total. by rewrite (gr_other _ _ _ _ Hg). Qed.

Lemma granted_snoc k ts ts' new t h c : granted k ts ts' new -> k ∈ dom ts ->
  h <> 0 -> is_u64 h -> caps (ts' !!! k) h = None ->
  only_at h (Some c) (abs (ts' !!! k)) (abs t) ->
  granted k ts (<[k := t]> ts') (new ++ [(h, c)]).
Proof.
  intros [Hd Ho Hn Hnew Hold] Hk Hz Hu Hnone [Hat Hrest]. simpl in Hat, Hrest.
  assert (forall h' c', (h', c') ∈ new -> h' <> h) as Hne.
  { intros h' c' Hin ->. destruct (Hnew _ _ Hin) as (_ & _ & _ & Hs). by rewrite Hs in Hnone. }
  assert (h ∉ (fst <$> new)) as Hnin.
  { intros ([h' c'] & -> & Hin)%list_elem_of_fmap. by apply Hne in Hin. }
  constructor.
  - rewrite dom_insert_L, Hd. set_solver.
  - intros k' Hk'. rewrite lookup_insert_ne by done. by apply Ho.
  - rewrite fmap_app. apply NoDup_app. split; [done|]. split; [|apply NoDup_singleton].
    intros x Hx [= ->]%list_elem_of_singleton. done.
  - intros h' c'. rewrite elem_of_app, list_elem_of_singleton, lookup_total_insert_eq.
    intros [Hin|[= -> ->]].
    + destruct (Hnew _ _ Hin) as (A & B & C & D). split; [done|]. split; [done|]. split; [done|].
      rewrite Hrest; [done | done | by eapply Hne].
    + split; [done|]. split; [done|]. split; [|done]. by rewrite <- (Hold h Hu Hnin).
  - intros h' Hu'. rewrite fmap_app, not_elem_of_app, lookup_total_insert_eq.
    intros [Hn1 Hn2]. rewrite Hrest; [by apply Hold | done |].
    intros ->. apply Hn2. simpl. by apply list_elem_of_singleton.
Qed.

Lemma granted_close k ts ts' new t h c : granted k ts ts' ((h, c) :: new) -> k ∈ dom ts ->
  only_at h None (abs (ts' !!! k)) (abs t) -> granted k ts (<[k := t]> ts') new.
Proof.
  intros [Hd Ho Hn Hnew Hold] Hk [Hat Hrest]. simpl in Hat, Hrest.
  rewrite fmap_cons in Hn. apply NoDup_cons in Hn as [Hnin Hn].
  destruct (Hnew h c) as (_ & Hu & Hnone & _); [by left|].
  constructor.
  - rewrite dom_insert_L, Hd. set_solver.
  - intros k' Hk'. rewrite lookup_insert_ne by done. by apply Ho.
  - done.
  - intros h' c' Hin. rewrite lookup_total_insert_eq.
    destruct (Hnew h' c') as (A & B & C & D); [by right|].
    split; [done|]. split; [done|]. split; [done|]. rewrite Hrest; [done | done |].
    intros ->. apply Hnin. apply list_elem_of_fmap. by exists (h, c').
  - intros h' Hu' Hh'. rewrite lookup_total_insert_eq. destruct (decide (h' = h)) as [->|Hne].
    + by rewrite Hat, Hnone.
    + rewrite Hrest by done. apply Hold; [done|]. rewrite fmap_cons, not_elem_of_cons. done.
Qed.

(** ** Cloning and closing, as seen in the tables *)

Section Steps.
Context {E : Type} {KE : KernelEnv E} {LL : LockLaws E} {OE : ObjectEnv E} {OL : ObjectLaws E}.

Lemma alloc_caps ty r obj ext k t (ts : Tables) e hd ts' e' : ts !! k = Some t -> table_inv t ->
  ready e k -> kernel_handle_alloc k ty r obj ext ts e = (hd, ts', e') ->
  (hd = 0 /\ ts' = ts) \/
  exists t', ts' = <[k := t']> ts /\ hd <> 0 /\ is_u64 hd /\ caps t hd = None /\
    only_at hd (Some {| cap_type := u8 ty; cap_rights := r; cap_object := obj; cap_extra := ext |})
      (abs t) (abs t').
Proof.
  intros Hk Hinv He. unfold kernel_handle_alloc.
  if_eqn Hbad; [intros [= <- <- <-]; by left|].
  pose proof (ready_fault e k KERNEL_FAULT_POINT_HANDLE He) as Hrf.
  destruct (kernel_fault_injection_should_fail _ e) as [[] e1]; [intros [= <- <- <-]; by left|].
  destruct (with_table_ready k t 0 (alloc_body ty r obj ext) ts e1 Hk Hrf) as (e2 & -> & _).
  intros [= <- <- _]. destruct (alloc_refines ty r obj ext t Hinv) as [_ Hs].
  simpl in Hs. destruct Hs as [(Hfull & Hr & Hsame)|(Hlt & Hv & Hnone & Hat & _)].
  - left. split; [done|]. rewrite alloc_full by done. by apply insert_id.
  - right. eexists. split; [reflexivity|]. split; [intros Hz; by rewrite Hz in Hv|].
    split; [|done].
    destruct (alloc_ok ty r obj ext t Hinv Hlt) as (i & Hi & _ & _ & ->). cbn [fst].
    pose proof (ti_next _ Hinv). rewrite encode_value by done. unfold is_u64. handle_consts. lia.
Qed.

(** What a receiver gets for a handle. *)
Lemma clone_caps k h r s e hd s' e' : objs_ok s [] -> env_ok s e -> k ∈ dom (tables s) ->
  is_u64 (object h) -> kernel_object_clone_handle_with_rights k (Some h) r s e = (hd, s', e') ->
  (hd = 0 /\ tables s' = tables s) \/
  exists t', tables s' = <[k := t']> (tables s) /\ hd <> 0 /\ is_u64 hd /\
    caps (tables s !!! k) hd = None /\ refcounted (type h) /\ Z.land r (not32 (rights h)) = 0 /\
    only_at hd (Some {| cap_type := type h; cap_rights := r; cap_object := object h;
                        cap_extra := extra h |}) (abs (tables s !!! k)) (abs t').
Proof.
  intros Ho He [t Hk]%elem_of_dom Hu. unfold kernel_object_clone_handle_with_rights.
  if_eqn H1; [intros [= <- <- <-]; by left|].
  if_eqn H2; [intros [= <- <- <-]; by left|].
  if_eqn H3; [intros [= <- <- <-]; by left|].
  apply orb_false_iff in H1 as [_ Ha]. apply orb_false_iff in H2 as [_ Hr].
  unfold kernel_object_retain_handle_object. rewrite Ha.
  destruct (with_lock_ready object_lock 0 (retain_body h) s e (proj1 He)) as (e1 & -> & Hk1).
  destruct (retain_body h s) as [ok s1] eqn:Hret.
  destruct (retain_ok h s [] ok s1 Ho) as [[-> ->]|(-> & Hrc & Ht & Ho1)];
    [done | done | done | intros [= <- <- <-]; by left |].
  cbn [Z.eqb]. unfold on_tables.
  destruct (kernel_handle_alloc k (type h) r (object h) (extra h) (tables s1) e1)
    as [[hd1 ts1] e2] eqn:Hal.
  rewrite Ht in Hal.
  pose proof (alloc_caps _ _ _ _ k t (tables s) e1 hd1 ts1 e2 Hk (ok_tables _ _ Ho _ _ Hk)
    (Hk1 _ (proj2 He _ _ Hk)) Hal) as Hcase.
  rewrite (lookup_total_correct _ _ _ Hk).
  assert (u8 (type h) = type h) as Hu8.
  { apply u8_small. unfold is_u8. destruct Hrc as [-> | ->];
      unfold KERNEL_HANDLE_TYPE_SHARED_MEMORY, KERNEL_HANDLE_TYPE_GRAPHICS_SURFACE; lia. }
  rewrite Hu8 in Hcase.
  destruct Hcase as [[-> ->]|(t' & -> & Hnz & Hu' & Hnone & Hat)].
  - cbn [Z.eqb].
    destruct (kernel_object_release_handle_object (Some h) _ e2) as [s2 e3] eqn:Hrel.
    intros [= <- <- <-]. left. split; [done|].
    destruct (release_handle_ok h (s1 <| tables := tables s |>) [] e2 s2 e3) as (_ & -> & _);
      [rewrite <- Ht; by destruct s1 | | done | done].
    destruct (alloc_handle_ok h r (extra h) s1 [] k t e1 0 (tables s) e2) as (Hk2 & _);
      [done | by rewrite Ht | by apply Hk1, (proj2 He k t) | done | by rewrite Ht |].
    by apply Hk2, Hk1, He.
  - rewrite (proj2 (Z.eqb_neq _ _) Hnz). intros [= <- <- _]. right. exists t'.
    split; [done|]. split; [done|]. split; [done|]. split; [done|]. split; [done|].
    split; [|done]. unfold nonzero in Hr. bprop. done.
Qed.

Lemma close_caps k hd c s e r s' e' : objs_ok s [] -> env_ok s e -> k ∈ dom (tables s) ->
  k <> 0 -> is_u64 hd -> caps (tables s !!! k) hd = Some c ->
  kernel_object_close_handle k hd s e = (r, s', e') ->
  exists t', tables s' = <[k := t']> (tables s) /\
    only_at hd None (abs (tables s !!! k)) (abs t').
Proof.
  intros Ho He [t Hk]%elem_of_dom Hk0 Hu Hc. rewrite (lookup_total_correct _ _ _ Hk) in *.
  unfold kernel_object_close_handle, on_tables, kernel_handle_close.
  rewrite (proj2 (Z.eqb_neq _ _) Hk0).
  destruct (with_table_ready k t (0, None) (close_body hd) (tables s) e Hk (proj2 He _ _ Hk))
    as (e1 & -> & Hk1).
  pose proof (ok_tables _ _ Ho k t Hk) as Hinv.
  destruct (close_refines hd t Hinv Hu) as [Hinv' Hs]. simpl in Hs. rewrite Hc in Hs.
  destruct Hs as (Hone & _ & Hat).
  destruct (open_slot t hd) as [i|] eqn:Hop; [|unfold caps in Hc; by rewrite Hop in Hc].
  pose proof (close_refs hd t i Hinv Hop) as Hrefs.
  assert ((close_body hd t).1 = (1, Some (aget (entries t) i))) as ->
    by (unfold close_body; by rewrite resolve_any, Hop).
  cbn [Z.eqb].
  destruct (kernel_object_release_handle_object _ _ e1) as [s2 e2] eqn:Hr. intros [= _ <- <-].
  exists (close_body hd t).2. split; [|done].
  edestruct (fun a b => release_handle_ok _ _ [] e1 s2 e2 a b Hr) as (_ & B & _).
  - eapply table_change_ok; [done | done | done |]. intros ty id _. rewrite Hrefs.
    change (pending ty id []) with 0. lia.
  - by apply Hk1, He.
  - by rewrite B.
Qed.
End Steps.

(** ** The transfer of handles *)

(** The capability a receiver is given for a sender's capability: surfaces only
    to read and map. *)
Definition receiver_cap (c : Cap) : Cap :=
  {| cap_type := cap_type c; cap_object := cap_object c; cap_extra := cap_extra c;
     cap_rights := if cap_type c =? KERNEL_HANDLE_TYPE_GRAPHICS_SURFACE
                   then Z.lor KERNEL_HANDLE_RIGHT_READ KERNEL_HANDLE_RIGHT_MAP
                   else cap_rights c |}.

Section Transfer.
Context {E : Type} {KE : KernelEnv E} {LL : LockLaws E} {OE : ObjectEnv E} {OL : ObjectLaws E}.
Context (sd t : Process) (s0 : ObjState) (e0 : E).
Context (Hok0 : objs_ok s0 []) (Henv0 : env_ok s0 e0).
Context (Hdiff : p_handle_table sd <> p_handle_table t).
Context (Hsd : p_handle_table sd <> 0) (Hsd_dom : p_handle_table sd ∈ dom (tables s0)).
Context (Ht0 : p_handle_table t <> 0) (Ht_dom : p_handle_table t ∈ dom (tables s0)).
(** Object identifiers are 64-bit fields. *)
Context (Hobj : forall h c, caps (tables s0 !!! p_handle_table sd) h = Some c -> is_u64 (cap_object c)).

(** The state after [new] was granted to the receiver. *)
Definition granting (new : list (Z * Cap)) (s : ObjState) (e : E) : Prop :=
  objs_ok s [] /\ keeps e0 e /\ granted (p_handle_table t) (tables s0) (tables s) new.

Lemma granting_env new s e : granting new s e -> env_ok s e /\ p_handle_table t ∈ dom (tables s).
Proof.
  intros (Ho & Hk & Hg). pose proof (gr_dom _ _ _ _ Hg) as Hd. rewrite Hd. split; [|done].
  by eapply env_ok_keeps.
Qed.

Lemma close_granting h c new s e r s' e' : granting ((h, c) :: new) s e ->
  kernel_object_close_handle (p_handle_table t) h s e = (r, s', e') -> granting new s' e'.
Proof.
  intros Hgr Hc. destruct (granting_env _ _ _ Hgr) as [He Hd]. destruct Hgr as (Ho & Hk & Hg).
  destruct (gr_new _ _ _ _ Hg h c) as (Hz & Hu & _ & Hcap); [by left|].
  destruct (close_ok _ _ _ _ _ _ _ Ho He (or_intror (proj1 (elem_of_dom _ _) Hd)) Hu Hc) as (A & B & _).
  destruct (close_caps _ _ _ _ _ _ _ _ Ho He Hd Ht0 Hu Hcap Hc) as (t' & Heq & Hat).
  split; [done|]. split; [by eapply keeps_trans|]. rewrite Heq. by eapply granted_close.
Qed.

(** The handle array names the granted tokens in order. *)
Definition names_tokens (handles : list Z) (new : list (Z * Cap)) : Prop :=
  forall i h c, new !! i = Some (h, c) -> aget handles (Z.of_nat i) = h.

Lemma rollback_granting handles new s e handles' s' e' : granting new s e ->
  names_tokens handles new -> Z.of_nat (length new) <= alen handles ->
  rollback_transferred_handles (Some t) handles (Z.of_nat (length new)) s e = (handles', s', e') ->
  granting [] s' e'.
Proof.
  intros Hg Hn Hl Hr. unfold rollback_transferred_handles in Hr.
  match type of Hr with for_range _ _ ?b _ = _ =>
    pose proof (for_range_inv (fun i (x : list Z * ObjState * E) =>
      granting (drop (Z.to_nat i) new) x.1.2 x.2 /\ alen x.1.1 = alen handles /\
      forall j h c, i <= Z.of_nat j -> new !! j = Some (h, c) -> aget x.1.1 (Z.of_nat j) = h)
      0 (Z.of_nat (length new)) b (handles, s, e) ltac:(lia)) as Hinv end.
  destruct Hinv as [Hfin _]; [| |rewrite Hr in Hfin; cbn [fst snd] in Hfin;
    rewrite Nat2Z.id, drop_all in Hfin; exact Hfin].
  - split; [exact Hg|]. split; [done|]. intros j h c _. apply Hn.
  - intros i [[hs s1] e1] Hi (Hg1 & Hlen & Hat). cbn [fst snd] in *.
    destruct (lookup_lt_is_Some_2 new (Z.to_nat i) ltac:(lia)) as [[h c] Hnew].
    rewrite (drop_S _ _ _ Hnew) in Hg1.
    pose proof (Hat (Z.to_nat i) h c ltac:(lia) Hnew) as Hh. rewrite Z2Nat.id in Hh by lia.
    rewrite Hh. destruct (gr_new _ _ _ _ (proj2 (proj2 Hg1)) h c) as (Hz & _); [by left|].
    unfold nonzero. rewrite (proj2 (Z.eqb_neq _ _) Hz). cbn [negb].
    destruct (kernel_object_close_handle _ h s1 e1) as [[r s2] e2] eqn:Hc. cbn [fst snd].
    split; [|split].
    + replace (Z.to_nat (i + 1)) with (S (Z.to_nat i)) by lia. by eapply close_granting.
    + by rewrite alen_aset.
    + intros j h' c' Hj Hnj. rewrite aget_aset_ne by lia. apply (Hat j h' c'); [lia | done].
Qed.

(** What the sender must hold for the handle it names. *)
Definition may_transfer (h : Z) (g : Z * Cap) : Prop := exists c,
  caps (tables s0 !!! p_handle_table sd) h = Some c /\
  Z.land (cap_rights c) KERNEL_HANDLE_RIGHT_TRANSFER = KERNEL_HANDLE_RIGHT_TRANSFER /\
  Z.land (cap_rights (receiver_cap c)) (not32 (cap_rights c)) = 0 /\ g.2 = receiver_cap c.

Lemma resolve_copy_granting h new s e out s' e' : granting new s e ->
  on_tables (kernel_handle_resolve_copy (p_handle_table sd) h KERNEL_HANDLE_TYPE_NONE
    KERNEL_HANDLE_RIGHT_TRANSFER true) s e = (out, s', e') ->
  s' = s /\ granting new s' e' /\
  (out = (false, None) \/
   exists src, out = (true, Some src) /\
     caps (tables s0 !!! p_handle_table sd) h = Some (cap_of src) /\
     Z.land (rights src) KERNEL_HANDLE_RIGHT_TRANSFER = KERNEL_HANDLE_RIGHT_TRANSFER).
Proof.
  intros Hgr. destruct (granting_env _ _ _ Hgr) as [He _]. pose proof Hgr as (Ho & Hk & Hg).
  pose proof (gr_dom _ _ _ _ Hg) as Hd.
  assert (p_handle_table sd ∈ dom (tables s)) as [ts Hts]%elem_of_dom by (by rewrite Hd).
  rewrite <- (granted_total _ _ _ _ _ Hg Hdiff), (lookup_total_correct _ _ _ Hts).
  unfold on_tables, kernel_handle_resolve_copy, kernel_handle_resolve_copy_result.
  rewrite (proj2 (Z.eqb_neq _ _) Hsd). cbn [negb orb].
  match goal with |- context [with_table ?k ?f ?b ?x ?y] =>
    destruct (with_table_ready k ts f b x y Hts (proj2 He _ _ Hts)) as (e1 & -> & Hk1) end.
  rewrite resolve_open. unfold caps.
  assert (granting new s e1) as Hg1 by (split; [done|]; split; [by eapply keeps_trans | done]).
  assert (s <| tables := tables s |> = s) as Hid by (by destruct s).
  change (KERNEL_HANDLE_TYPE_NONE =? KERNEL_HANDLE_TYPE_NONE) with true.
  destruct (open_slot ts h) as [i|] eqn:Hop; cbv zeta; cbn [negb andb].
  - destruct (Z.land (rights (aget (entries ts) i)) KERNEL_HANDLE_RIGHT_TRANSFER
      =? KERNEL_HANDLE_RIGHT_TRANSFER) eqn:Hr; cbn [negb fst snd]; rewrite insert_id by done; cbn [negb andb fst snd]; rewrite Hid;
      intros [= <- <- <-]; (split; [done|]); (split; [done|]); [right | by left].
    eexists. split; [reflexivity|]. bprop. by split.
  - destruct (kernel_handle_is_valid_token h); cbn [fst snd]; rewrite insert_id by done; cbn [negb andb fst snd]; rewrite Hid;
      intros [= <- <- <-]; auto.
Qed.

(** A turn of the loop grants one more capability or takes all of them back. *)
Lemma transfer_one_ok handles new_handles new s e r s' e' : granting new s e ->
  names_tokens new_handles new -> Z.of_nat (length new) <= alen new_handles ->
  transfer_one sd t handles new_handles (Z.of_nat (length new)) s e = (r, s', e') ->
  match r with
  | inl code => code <> IPC_OK /\ granting [] s' e'
  | inr h => exists g, g.1 = h /\ granting (new ++ [g]) s' e' /\
      may_transfer (aget handles (Z.of_nat (length new))) g
  end.
Proof.
  intros Hg Hn Hl. unfold transfer_one.
  assert (forall code s1 e1, code <> IPC_OK -> granting new s1 e1 ->
    (let '(_, s2, e2) := rollback_transferred_handles (Some t) new_handles
       (Z.of_nat (length new)) s1 e1 in (inl code, s2, e2)) = (r, s', e') ->
    exists c, r = inl c /\ c <> IPC_OK /\ granting [] s' e') as Hroll.
  { intros code s1 e1 Hcode Hg1.
    destruct (rollback_transferred_handles _ _ _ s1 e1) as [[hs s2] e2] eqn:Hr. intros [= <- <- <-].
    exists code. split; [done|]. split; [done|]. by eapply rollback_granting. }
  destruct (on_tables _ s e) as [[out s1] e1] eqn:Hres.
  destruct (resolve_copy_granting _ _ _ _ _ _ _ Hg Hres)
    as (-> & Hg1 & [->|(src & -> & Hcap & Htr)]).
  { intros (c & -> & Hc)%Hroll; [done | discriminate | done]. }
  cbv zeta. cbn [negb].
  set (rr := if type src =? KERNEL_HANDLE_TYPE_GRAPHICS_SURFACE then _ else _).
  if_eqn Hbad.
  { intros (c & -> & Hc)%Hroll; [done | discriminate | done]. }
  destruct (kernel_object_clone_handle_with_rights _ (Some src) rr s e1) as [[hd s2] e2] eqn:Hcl.
  destruct (granting_env _ _ _ Hg1) as [He1 Hd1]. pose proof Hg1 as (Ho1 & Hk1 & Hgr1).
  pose proof (Hobj _ _ Hcap) as Hu. simpl in Hu.
  assert (forall h, Some src = Some h -> is_u64 (object h)) as Hu' by (by intros h [= <-]).
  destruct (clone_ok _ _ _ _ _ _ _ _ Ho1 He1 (or_intror (proj1 (elem_of_dom _ _) Hd1)) Hu' Hcl)
    as (Ho2 & Hk2 & _).
  destruct (clone_caps _ _ _ _ _ _ _ _ Ho1 He1 Hd1 Hu Hcl)
    as [[-> Hts]|(t' & Hts & Hz & Hhu & Hnone & Hrc & Hsub & Hat)].
  - cbn [Z.eqb]. intros (c & -> & Hc)%Hroll; [done | discriminate |].
    split; [done|]. split; [by eapply keeps_trans | by rewrite Hts].
  - rewrite (proj2 (Z.eqb_neq _ _) Hz). intros [= <- <- <-].
    assert (rr = cap_rights (receiver_cap (cap_of src))) as Hrr.
    { revert Hbad. unfold rr, receiver_cap. simpl. destruct (type src =? _); [|done].
      cbn [andb]. intros Hbad. bprop. done. }
    exists (hd, receiver_cap (cap_of src)). split; [done|]. split.
    + split; [done|]. split; [by eapply keeps_trans|]. rewrite Hts.
      apply granted_snoc; try done. unfold receiver_cap in *. simpl in *. by rewrite <- Hrr.
    + exists (cap_of src). split; [done|]. split; [done|]. split; [by rewrite <- Hrr | done].
Qed.

Lemma names_tokens_snoc handles new g : names_tokens handles new ->
  Z.of_nat (length new) < alen handles ->
  names_tokens (aset handles (Z.of_nat (length new)) g.1) (new ++ [g]).
Proof.
  intros Hn Hl i h c. rewrite lookup_snoc_Some. intros [[Hi Hnew]|[-> ->]].
  - rewrite aget_aset_ne by lia. by eapply Hn.
  - by rewrite aget_aset_eq by lia.
Qed.

(** The whole loop: all the named handles or none. *)
Lemma transfer_loop_ok n handles new_handles new s e r hs s' e' : granting new s e ->
  names_tokens new_handles new -> Z.of_nat (length new + n) <= alen new_handles ->
  (forall i g, new !! i = Some g -> may_transfer (aget handles (Z.of_nat i)) g) ->
  transfer_loop n (Z.of_nat (length new)) sd t handles new_handles s e = ((r, hs), s', e') ->
  (r <> IPC_OK /\ granting [] s' e') \/
  (r = IPC_OK /\ exists new', granting new' s' e' /\ length new' = (length new + n)%nat /\
     names_tokens hs new' /\
     forall i g, new' !! i = Some g -> may_transfer (aget handles (Z.of_nat i)) g).
Proof.
  revert new new_handles s e. induction n as [|n IH]; intros new nh s e Hg Hn Hl Hmay;
    cbn [transfer_loop].
  { intros [= <- <- <- <-]. right. split; [done|]. exists new. split; [done|]. split; [lia|]. done. }
  destruct (transfer_one _ _ _ _ _ s e) as [[r1 s1] e1] eqn:Hone.
  pose proof (transfer_one_ok _ _ _ _ _ _ _ _ Hg Hn ltac:(lia) Hone) as Hr1.
  destruct r1 as [code|h].
  { intros [= <- <- <- <-]. by left. }
  destruct Hr1 as (g & <- & Hg1 & Hm). intros Hloop.
  replace (Z.of_nat (length new) + 1) with (Z.of_nat (length (new ++ [g]))) in Hloop
    by (rewrite length_app; simpl; lia).
  destruct (IH (new ++ [g]) (aset nh (Z.of_nat (length new)) g.1) s1 e1) as [Hbad|(-> & new' & A & B & C)].
  - done.
  - apply names_tokens_snoc; [done | lia].
  - rewrite alen_aset, length_app. simpl. lia.
  - intros i g'. rewrite lookup_snoc_Some. intros [[Hi Hnew]|[-> ->]]; [by apply Hmay | done].
  - done.
  - by left.
  - right. split; [done|]. exists new'. split; [done|]. split; [|done].
    rewrite B, length_app. simpl. lia.
Qed.

(** Everything but the handle array. *)
Definition sans_handles (p : OsIpcMessageV2) : OsIpcMessageV2 := p <| v2_handles := [] |>.

Lemma write_handles_ok p hs n : alen (v2_handles p) = OS_IPC_V2_MAX_HANDLES ->
  0 <= n <= OS_IPC_V2_MAX_HANDLES ->
  let p' := for_range 0 n (fun i p => p <| v2_handles := aset (v2_handles p) i (aget hs i) |>) p in
  sans_handles p' = sans_handles p /\ alen (v2_handles p') = OS_IPC_V2_MAX_HANDLES /\
  forall i, 0 <= i < n -> aget (v2_handles p') i = aget hs i.
Proof.
  intros Hl Hn. apply (for_range_inv (fun i q => sans_handles q = sans_handles p /\
    alen (v2_handles q) = OS_IPC_V2_MAX_HANDLES /\
    forall j, 0 <= j < i -> aget (v2_handles q) j = aget hs j)); [lia | split; [done|]; split; [done | lia] |].
  intros i q Hi (A & B & C). split; [|split].
  - rewrite <- A. by destruct q.
  - simpl. by rewrite alen_aset.
  - intros j Hj. simpl. rewrite aget_aset by (unfold OS_IPC_V2_MAX_HANDLES in *; lia).
    case_decide; [by subst | apply C; lia].
Qed.

Lemma transfer_handles_ok p r p' s' e' : alen (v2_handles p) = OS_IPC_V2_MAX_HANDLES ->
  0 <= v2_handle_count p <= OS_IPC_V2_MAX_HANDLES ->
  transfer_handles (Some sd) (Some t) p s0 e0 = ((r, p'), s', e') ->
  (r <> IPC_OK /\ granting [] s' e') \/
  (r = IPC_OK /\ exists new, granting new s' e' /\ Z.of_nat (length new) = v2_handle_count p /\
     sans_handles p' = sans_handles p /\ alen (v2_handles p') = OS_IPC_V2_MAX_HANDLES /\
     names_tokens (v2_handles p') new /\
     forall i g, new !! i = Some g -> may_transfer (aget (v2_handles p) (Z.of_nat i)) g).
Proof.
  intros Hl Hc. unfold transfer_handles.
  assert (granting [] s0 e0) as Hg0
    by (split; [done|]; split; [apply keeps_refl | apply granted_refl]).
  if_eqn Hz; bprop.
  { intros [= <- <- <- <-]. right. split; [done|]. exists []. split; [done|]. split; [by rewrite Hz|].
    split; [done|]. split; [done|]. split; intros i *; rewrite lookup_nil; done. }
  destruct (transfer_loop _ _ _ _ _ _ s0 e0) as [[[r1 hs] s1] e1] eqn:Hloop.
  assert (Z.of_nat (length (@nil (Z * Cap)) + Z.to_nat (v2_handle_count p))
          <= alen (replicate (Z.to_nat OS_IPC_V2_MAX_HANDLES) 0)) as Hlen.
  { rewrite alen_replicate. simpl length. lia. }
  destruct (transfer_loop_ok (Z.to_nat (v2_handle_count p)) (v2_handles p)
    (replicate (Z.to_nat OS_IPC_V2_MAX_HANDLES) 0) [] s0 e0 r1 hs s1 e1 Hg0)
    as [[Hr Hg]|(-> & new & Hg & Hn & Hnames & Hmay)]; [done | exact Hlen | done | exact Hloop | |].
  - rewrite (proj2 (Z.eqb_neq _ _) Hr). intros [= <- <- <- <-]. by left.
  - change (IPC_OK =? IPC_OK) with true. cbn [negb]. intros [= <- <- <- <-]. right. split; [done|].
    exists new. destruct (write_handles_ok p hs (v2_handle_count p) Hl Hc) as (A & B & C).
    simpl length in Hn. split; [done|]. split; [lia|]. split; [done|]. split; [done|].
    split; [|done]. intros i h c Hi. rewrite C; [by eapply Hnames|].
    apply lookup_lt_Some in Hi. lia.
Qed.
End Transfer.

(** ** Preparing a message *)

(** The arrays have their declared sizes and the counters are unsigned. *)
Record message_wf (m : OsIpcMessageV2) : Prop := {
  mw_payload : alen (v2_payload m) = OS_IPC_V2_MESSAGE_PAYLOAD_SIZE;
  mw_handles : alen (v2_handles m) = OS_IPC_V2_MAX_HANDLES;
  mw_length : 0 <= v2_length m;
  mw_count : 0 <= v2_handle_count m;
}.

(** [p] is [src] as the receiver must see it, handles aside. *)
Record stamped (sd : Process) (src p : OsIpcMessageV2) : Prop := {
  st_shape : message_shape_valid_v2 (Some p) = true;
  st_pid : v2_sender_pid p = p_pid sd;
  st_gen : v2_sender_generation p = p_gen sd;
  st_type : v2_type p = v2_type src;
  st_flags : v2_flags p = v2_flags src;
  st_length : v2_length p = v2_length src;
  st_request : v2_request_id p = v2_request_id src;
  st_reply : v2_reply_to p = v2_reply_to src;
  st_handle_count : v2_handle_count p = v2_handle_count src;
  st_payload : forall i, 0 <= i < OS_IPC_V2_MESSAGE_PAYLOAD_SIZE ->
    aget (v2_payload p) i = if i <? v2_length src then aget (v2_payload src) i else 0;
}.

Lemma validate_v2_bounds src : ipc_validate_user_message_v2 (Some src) = IPC_OK ->
  v2_length src <= OS_IPC_V2_MESSAGE_PAYLOAD_SIZE /\ v2_handle_count src <= OS_IPC_V2_MAX_HANDLES.
Proof.
  unfold ipc_validate_user_message_v2. if_eqn H1; [done|]. if_eqn H2; [done|]. if_eqn H3; [done|].
  intros _. bprop. lia.
Qed.

Lemma zero_payload_ok p n : alen (v2_payload p) = OS_IPC_V2_MESSAGE_PAYLOAD_SIZE ->
  0 <= n <= OS_IPC_V2_MESSAGE_PAYLOAD_SIZE ->
  let p' := for_range n OS_IPC_V2_MESSAGE_PAYLOAD_SIZE (fun i p =>
    p <| v2_payload := aset (v2_payload p) i 0 |>) p in
  p' <| v2_payload := [] |> = p <| v2_payload := [] |> /\
  forall i, 0 <= i < OS_IPC_V2_MESSAGE_PAYLOAD_SIZE ->
    aget (v2_payload p') i = if i <? n then aget (v2_payload p) i else 0.
Proof.
  intros Hl Hn.
  pose proof (for_range_inv (fun i q => q <| v2_payload := [] |> = p <| v2_payload := [] |> /\
    alen (v2_payload q) = OS_IPC_V2_MESSAGE_PAYLOAD_SIZE /\
    forall j, 0 <= j < OS_IPC_V2_MESSAGE_PAYLOAD_SIZE ->
      aget (v2_payload q) j = if (n <=? j) && (j <? i) then 0 else aget (v2_payload p) j)
    n OS_IPC_V2_MESSAGE_PAYLOAD_SIZE (fun i p => p <| v2_payload := aset (v2_payload p) i 0 |>) p)
    as Hloop. cbv zeta in *.
  destruct Hloop as (A & _ & C); [lia | | |].
  - split; [done|]. split; [done|]. intros j Hj.
    destruct (n <=? j) eqn:H1, (j <? n) eqn:H2; bprop; try done; lia.
  - intros i q Hi (A & B & C). split; [rewrite <- A; by destruct q|]. simpl. split; [by rewrite alen_aset|].
    intros j Hj. rewrite aget_aset by lia. case_decide as Hd.
    + subst j. rewrite (proj2 (Z.leb_le _ _)), (proj2 (Z.ltb_lt _ _)) by lia. done.
    + rewrite C by done. replace (j <? i + 1) with (j <? i); [done|].
      destruct (j <? i) eqn:H1, (j <? i + 1) eqn:H2; bprop; try done; lia.
  - split; [done|]. intros j Hj. rewrite C by done. rewrite (proj2 (Z.ltb_lt j _)), andb_true_r by lia.
    destruct (n <=? j) eqn:H1, (j <? n) eqn:H2; bprop; try done; lia.
Qed.

Lemma zero_handles_ok p n : alen (v2_handles p) = OS_IPC_V2_MAX_HANDLES ->
  0 <= n <= OS_IPC_V2_MAX_HANDLES ->
  let p' := for_range n OS_IPC_V2_MAX_HANDLES (fun i p =>
    p <| v2_handles := aset (v2_handles p) i 0 |>) p in
  sans_handles p' = sans_handles p /\ alen (v2_handles p') = OS_IPC_V2_MAX_HANDLES /\
  forall i, 0 <= i < n -> aget (v2_handles p') i = aget (v2_handles p) i.
Proof.
  intros Hl Hn. cbv zeta.
  apply (for_range_inv (fun i q => sans_handles q = sans_handles p /\
    alen (v2_handles q) = OS_IPC_V2_MAX_HANDLES /\
    forall j, 0 <= j < n -> aget (v2_handles q) j = aget (v2_handles p) j)); [lia | done |].
  intros i q Hi (A & B & C). split; [rewrite <- A; by destruct q|]. simpl. split; [by rewrite alen_aset|].
  intros j Hj. rewrite aget_aset_ne by lia. by apply C.
Qed.

(** Two messages that agree but for their handles are stamped alike. *)
Lemma stamped_sans sd src p p' : sans_handles p' = sans_handles p -> stamped sd src p ->
  stamped sd src p'.
Proof.
  unfold sans_handles. destruct p, p'. unfold set_field. simpl. intros [=]. subst.
  intros []. constructor; done.
Qed.

Lemma stamp_ok sd src : message_wf src -> ipc_validate_user_message_v2 (Some src) = IPC_OK ->
  let p := stamp_message_v2 (Some sd) src in
  stamped sd src p /\ alen (v2_handles p) = OS_IPC_V2_MAX_HANDLES /\
  forall i, 0 <= i < v2_handle_count src -> aget (v2_handles p) i = aget (v2_handles src) i.
Proof.
  intros [Hp Hh Hlen Hcnt] Hv. destruct (validate_v2_bounds _ Hv) as [Hb1 Hb2].
  unfold stamp_message_v2. cbv zeta.
  set (q := src <| v2_size := _ |> <| v2_abi_version := _ |> <| v2_sender_pid := _ |> <| v2_sender_generation := _ |>).
  destruct (zero_payload_ok q (v2_length src)) as [A B]; [done | lia |].
  change (v2_length q) with (v2_length src).
  set (q1 := for_range (v2_length src) _ _ q) in *. clearbody q1.
  assert (v2_handle_count q1 = v2_handle_count src /\ v2_handles q1 = v2_handles src) as [Hc1 Hh1].
  { change (v2_handle_count src) with (v2_handle_count q). change (v2_handles src) with (v2_handles q).
    clear -A. destruct q1, q. unfold set_field in A. simpl in A. injection A. by intros; subst. }
  destruct (zero_handles_ok q1 (v2_handle_count q1)) as (C & D & F);
    [by rewrite Hh1 | rewrite Hc1; lia |].
  split; [|split; [done | rewrite <- Hc1, <- Hh1; exact F]].
  apply (stamped_sans _ _ q1 _ C).
  clear C D F Hc1 Hh1. destruct q1. unfold q, set_field in A. simpl in A. injection A. intros; subst.
  constructor; try done. unfold message_shape_valid_v2. simpl.
  rewrite (proj2 (Z.ltb_ge _ _)), (proj2 (Z.ltb_ge _ _)) by lia. done.
Qed.

(** ** Sending *)

Section Send.
Context {E : Type} {KE : KernelEnv E} {LL : LockLaws E} {OE : ObjectEnv E} {OL : ObjectLaws E}
  {IH : IpcHost E}.

(** A sender and a receiver of the running system: two processes with their own
    handle tables, well-formed objects and mailbox, and locks the CPU may take. *)
Record can_send (sd t : Process) (s : IpcState) (e : E) : Prop := {
  cs_objs : objs_ok (objs s) [];
  cs_env : env_ok (objs s) e;
  cs_mailbox : mb_inv (mailboxes s !!! p_ipc_mailbox t);
  cs_mailbox_ptr : p_ipc_mailbox t <> 0;
  cs_mailbox_lock : ready e (p_ipc_mailbox t);
  cs_sender : p_handle_table sd <> 0 /\ p_handle_table sd ∈ dom (tables (objs s));
  cs_target : p_handle_table t <> 0 /\ p_handle_table t ∈ dom (tables (objs s));
  cs_distinct : p_handle_table sd <> p_handle_table t;
  cs_object_ids : forall h c, caps (tables (objs s) !!! p_handle_table sd) h = Some c ->
    is_u64 (cap_object c);
}.

Lemma prepare_v2_ok sd t src s e r p s' e' : can_send sd t s e -> message_wf src ->
  ipc_prepare_message_v2 (Some sd) (Some t) (Some src) true (objs s) e = ((r, p), s', e') ->
  (r <> IPC_OK /\ granting t (objs s) e [] s' e') \/
  (r = IPC_OK /\ exists p' new, p = Some p' /\ stamped sd src p' /\
     granting t (objs s) e new s' e' /\ Z.of_nat (length new) = v2_handle_count src /\
     alen (v2_handles p') = OS_IPC_V2_MAX_HANDLES /\ v2_handle_count src <= OS_IPC_V2_MAX_HANDLES /\
     names_tokens (v2_handles p') new /\
     forall i g, new !! i = Some g -> may_transfer sd (objs s) (aget (v2_handles src) (Z.of_nat i)) g).
Proof.
  intros [] Hwf. unfold ipc_prepare_message_v2. cbv zeta. cbn [negb].
  destruct (ipc_validate_user_message_v2 (Some src) =? IPC_OK) eqn:Hv; cbn [negb].
  2: { intros [= <- <- <- <-]. left. split; [by apply Z.eqb_neq|].
       split; [done|]. split; [apply keeps_refl | apply granted_refl]. }
  apply Z.eqb_eq in Hv. destruct (stamp_ok sd src Hwf Hv) as (Hst & Hlen & Hsame).
  set (q := stamp_message_v2 (Some sd) src) in *.
  destruct (validate_v2_bounds _ Hv) as [_ Hb].
  destruct (transfer_handles (Some sd) (Some t) q (objs s) e) as [[[r1 p1] s1] e1] eqn:Htr.
  destruct cs_sender0, cs_target0.
  destruct (transfer_handles_ok sd t (objs s) e) with (p := q) (r := r1) (p' := p1) (s' := s1) (e' := e1)
    as [[Hr Hg]|(-> & new & Hg & Hn & Hs & Hl & Hnames & Hmay)]; try done.
  - rewrite (st_handle_count _ _ _ Hst). destruct Hwf. lia.
  - intros [= <- <- <- <-]. by left.
  - rewrite (st_handle_count _ _ _ Hst) in Hn. intros [= <- <- <- <-]. right. split; [done|].
    exists p1, new. split; [done|]. split; [by eapply stamped_sans|]. split; [done|]. split; [done|].
    split; [done|]. split; [done|]. split; [done|]. intros i g Hi.
    rewrite <- Hsame; [by apply Hmay|]. apply lookup_lt_Some in Hi. lia.
Qed.

(** Queueing a well-formed message. *)
Lemma push_v2_ok t p s e r s' e' : mb_inv (mailboxes s !!! p_ipc_mailbox t) -> p_ipc_mailbox t <> 0 ->
  ready e (p_ipc_mailbox t) -> message_shape_valid_v2 (Some p) = true ->
  process_ipc_mailbox_push_v2 t p s e = (r, s', e') ->
  objs s' = objs s /\ keeps e e' /\
  (forall b, b <> p_ipc_mailbox t -> mailboxes s' !!! b = mailboxes s !!! b) /\
  contents (mailboxes s' !!! p_ipc_mailbox t)
  = contents (mailboxes s !!! p_ipc_mailbox t) ++ (if r =? 0 then [] else [p]).
Proof.
  intros Hm Hz He Hv. unfold process_ipc_mailbox_push_v2, on_mailbox, ipc_mailbox_push_v2.
  rewrite Hv, (proj2 (Z.eqb_neq _ _) Hz). cbn [negb orb].
  pose proof (fun l => ready_fault e l KERNEL_FAULT_POINT_MAILBOX) as Hf.
  destruct (kernel_fault_injection_should_fail _ e) as [[] e1]; cbn [snd] in Hf.
  { intros [= <- <- <-]. simpl. split; [done|]. split; [exact Hf|]. split.
    - intros b Hb. by rewrite lookup_total_insert_ne.
    - by rewrite lookup_total_insert_eq, app_nil_r. }
  destruct (push_refines p _ Hm) as [_ Hq].
  destruct (with_lock_ready (p_ipc_mailbox t) 0 (push_body p) (mailboxes s !!! p_ipc_mailbox t) e1
    (Hf _ He)) as (e2 & -> & Hk2).
  destruct (push_body p _) as [r1 m1]. cbn [fst snd] in Hq. intros [= <- <- <-]. simpl.
  split; [done|]. split; [intros l Hl; by apply Hk2, Hf|].
  split; [intros b Hb; by rewrite lookup_total_insert_ne|]. rewrite lookup_total_insert_eq.
  unfold queue_step in Hq. cbn [abs_mailbox q_list q_delivered q_dropped] in Hq.
  destruct (decide _) in Hq; injection Hq as <- Hc _ _; rewrite <- Hc; [by rewrite app_nil_r | done].
Qed.

(** Both outcomes of a send. *)
Lemma send_v2_cases sd t src s e r s' e' : can_send sd t s e -> message_wf src ->
  ipc_send_message_v2 (Some sd) (Some t) (Some src) s e = (r, s', e') ->
  (r <> IPC_OK /\ granted (p_handle_table t) (tables (objs s)) (tables (objs s')) [] /\
   objs_ok (objs s') [] /\
   forall b, contents (mailboxes s' !!! b) = contents (mailboxes s !!! b)) \/
  (r = IPC_OK /\ exists p new, stamped sd src p /\ objs_ok (objs s') [] /\
   granted (p_handle_table t) (tables (objs s)) (tables (objs s')) new /\
   Z.of_nat (length new) = v2_handle_count src /\ names_tokens (v2_handles p) new /\
   (forall i g, new !! i = Some g -> may_transfer sd (objs s) (aget (v2_handles src) (Z.of_nat i)) g) /\
   contents (mailboxes s' !!! p_ipc_mailbox t) = contents (mailboxes s !!! p_ipc_mailbox t) ++ [p] /\
   forall b, b <> p_ipc_mailbox t -> mailboxes s' !!! b = mailboxes s !!! b).
Proof.
  intros Hcs Hwf. pose proof Hcs as []. unfold ipc_send_message_v2.
  assert (forall code, code <> IPC_OK -> (code, s, e) = (r, s', e') ->
    r <> IPC_OK /\ granted (p_handle_table t) (tables (objs s)) (tables (objs s')) [] /\
    objs_ok (objs s') [] /\ forall b, contents (mailboxes s' !!! b) = contents (mailboxes s !!! b)) as Hno.
  { intros code Hcode [= <- <- _]. split; [done|]. split; [apply granted_refl|]. by split. }
  if_eqn H1; [intros Hx; left; by apply Hno in Hx|].
  if_eqn H2; [intros Hx; left; by apply Hno in Hx|].
  if_eqn H3; [intros Hx; left; by apply Hno in Hx|].
  unfold on_objs at 1.
  destruct (ipc_prepare_message_v2 _ _ _ _ (objs s) e) as [[[r1 p1] o1] e1] eqn:Hprep.
  destruct (prepare_v2_ok _ _ _ _ _ _ _ _ _ Hcs Hwf Hprep)
    as [[Hr (Ho & _ & Hg)]|(-> & p & new & -> & Hst & Hgr & Hn & Hl & Hb & Hnames & Hmay)].
  { intros Heq. left. destruct p1; [rewrite (proj2 (Z.eqb_neq _ _) Hr) in Heq|]; injection Heq as <- <- <-; auto. }
  cbn [negb Z.eqb]. change (IPC_OK =? IPC_OK) with true. cbn [negb].
  destruct (process_ipc_mailbox_push_v2 t p _ e1) as [[r2 s2] e2] eqn:Hpush.
  destruct (push_v2_ok t p (s <| objs := o1 |>) e1 r2 s2 e2) as (Hobjs & Hk2 & Hother & Hcont);
    [done | done | by apply Hgr | by apply (st_shape _ _ _ Hst) | done |].
  simpl in Hobjs, Hother, Hcont.
  destruct (r2 =? 0) eqn:Hr2.
  - unfold on_objs. rewrite Hobjs, (st_handle_count _ _ _ Hst), <- Hn.
    assert (granting t (objs s) e new o1 e2) as Hgr2.
    { destruct Hgr as (A & B & C). split; [done|]. split; [by eapply keeps_trans | done]. }
    destruct (rollback_transferred_handles _ _ _ o1 e2) as [[hs o3] e3] eqn:Hroll.
    assert (granting t (objs s) e [] o3 e3) as (Ho & _ & Hg).
    { destruct cs_target0, cs_sender0. eapply (rollback_granting sd t (objs s) e); try done. lia. }
    intros [= <- <- <-]. left. simpl. split; [done|]. split; [done|]. split; [done|].
    intros b. destruct (decide (b = p_ipc_mailbox t)) as [->|Hb']; [|by rewrite Hother].
    by rewrite Hcont, app_nil_r.
  - intros [= <- <- _]. right. split; [done|]. destruct Hgr as (Ho & _ & Hg). rewrite Hobjs.
    exists p, new. by split_and!.
Qed.

(** C36: a sent message arrives as written.  Between two processes with handle tables of their own, when the reference
    counts are right and the locks can be taken: when the send succeeds, the
    receiver's queue is the old queue followed by the message: stamped with the
    sender's identity, its header and payload unchanged and everything past its
    length zeroed.  Each handle it names was transferable by the sender, and the
    receiver's table gained exactly one fresh handle for it, to the same object,
    with no right the sender lacked and, for a surface, only to read and map. *)
Theorem ipc_send_v2_delivers sd t src s e r s' e' : can_send sd t s e -> message_wf src ->
  ipc_send_message_v2 (Some sd) (Some t) (Some src) s e = (r, s', e') -> r = IPC_OK ->
  exists p new, stamped sd src p /\
    contents (mailboxes s' !!! p_ipc_mailbox t) = contents (mailboxes s !!! p_ipc_mailbox t) ++ [p] /\
    (forall b, b <> p_ipc_mailbox t -> mailboxes s' !!! b = mailboxes s !!! b) /\
    granted (p_handle_table t) (tables (objs s)) (tables (objs s')) new /\
    Z.of_nat (length new) = v2_handle_count src /\
    forall i, 0 <= i < v2_handle_count src -> exists c h,
      caps (tables (objs s) !!! p_handle_table sd) (aget (v2_handles src) i) = Some c /\
      Z.land (cap_rights c) KERNEL_HANDLE_RIGHT_TRANSFER = KERNEL_HANDLE_RIGHT_TRANSFER /\
      Z.land (cap_rights (receiver_cap c)) (not32 (cap_rights c)) = 0 /\
      new !! Z.to_nat i = Some (h, receiver_cap c) /\ aget (v2_handles p) i = h.
Proof.
  intros Hcs Hwf Hs ->. destruct (send_v2_cases _ _ _ _ _ _ _ _ Hcs Hwf Hs)
    as [[Hbad _]|(_ & p & new & Hst & _ & Hg & Hn & Hnames & Hmay & Hc & Ho)]; [done|].
  exists p, new. split; [done|]. split; [done|]. split; [done|]. split; [done|]. split; [done|].
  intros i Hi. destruct (lookup_lt_is_Some_2 new (Z.to_nat i)) as [[h g] Hg']; [lia|].
  destruct (Hmay _ _ Hg') as (c & A & B & C & D). simpl in D. subst g.
  pose proof (Hnames _ _ _ Hg') as Hh. rewrite Z2Nat.id in * by lia. by exists c, h.
Qed.

(** C37: a failed send leaves nothing behind.  Between two processes with handle tables of their own, when the reference
    counts are right and the locks can be taken: whatever made the send fail,
    handles already cloned into the receiver's table included, every capability
    of every process is as before, the queues hold the same messages and the
    reference counts still equal the number of handles. *)
Theorem ipc_send_v2_all_or_nothing sd t src s e r s' e' : can_send sd t s e -> message_wf src ->
  ipc_send_message_v2 (Some sd) (Some t) (Some src) s e = (r, s', e') -> r <> IPC_OK ->
  (forall k h, is_u64 h -> caps (tables (objs s') !!! k) h = caps (tables (objs s) !!! k) h) /\
  objs_ok (objs s') [] /\
  forall b, contents (mailboxes s' !!! b) = contents (mailboxes s !!! b).
Proof.
  intros Hcs Hwf Hs Hr. destruct (send_v2_cases _ _ _ _ _ _ _ _ Hcs Hwf Hs)
    as [(_ & Hg & Ho & Hc)|[? _]]; [|done].
  split; [|done]. intros k h Hu. destruct (decide (k = p_handle_table t)) as [->|Hk].
  - apply (gr_old _ _ _ _ Hg); [done | apply not_elem_of_nil].
  - by rewrite (granted_total _ _ _ _ _ Hg Hk).
Qed.
End Send.

(** ** Witnesses *)

#[export] Instance memory_ipc : IpcHost memory := {|
  process_wait_signal _ _ _ e := (true, e);
  process_notify_queued_ipc _ e := e;
  process_terminal_notify_message _ e := e |}.

(** Two processes: tables at 4096 and 8192, mailboxes at 12288 and 16384. *)
Definition demo_sender : Process :=
  {| p_pid := 5; p_gen := 1; p_is_active := 1; p_proc_state := 2; p_handle_table := 4096;
     p_ipc_mailbox := 12288 |}.
Definition demo_target : Process :=
  {| p_pid := 6; p_gen := 1; p_is_active := 1; p_proc_state := 2; p_handle_table := 8192;
     p_ipc_mailbox := 16384 |}.

Definition two_tables (ts : Tables) : Tables := <[8192 := demo_table]> ts.
(** The sender owns one transferable shared memory object. *)
Definition demo_ipc : IpcState :=
  {| objs := (kernel_shared_memory_create (E := memory) 4096 5 100 35
       (demo_objects <| tables := two_tables demo_tables |>) (fun _ => 0)).1.2;
     mailboxes := {[16384 := demo_mailbox]} |}.
Definition demo_handle : Z := (kernel_shared_memory_create (E := memory) 4096 5 100 35
       (demo_objects <| tables := two_tables demo_tables |>) (fun _ => 0)).1.1.
Definition demo_mail : OsIpcMessageV2 := clear_message_v2 <| v2_type := OS_IPC_MESSAGE_EVENT |>
  <| v2_flags := OS_IPC_FLAG_HAS_HANDLES |> <| v2_handle_count := 1 |>
  <| v2_handles := [demo_handle; 0] |>.

Lemma demo_table_refs ty id : refs_in ty id demo_table = 0.
Proof.
  pose proof (demo_refs ty id) as Hr. unfold demo_tables in Hr.
  change ({[4096 := demo_table]} : Tables) with (<[4096 := demo_table]> ∅ : Tables) in Hr.
  rewrite refs_insert_new in Hr by done. unfold refs in Hr. rewrite map_fold_empty in Hr. lia.
Qed.

Lemma two_tables_ok : objs_ok (demo_objects <| tables := two_tables demo_tables |>) [].
Proof.
  destruct demo_objects_ok as [Hl3 Hl4 Ht Hf H3 H4]. unfold two_tables.
  assert (forall ty id, refs ty id (<[8192 := demo_table]> demo_tables) = refs ty id demo_tables) as Hr.
  { intros ty id. rewrite refs_insert_new by done. by rewrite demo_table_refs. }
  constructor; [exact Hl3 | exact Hl4 | | reflexivity | |].
  - intros k t Hk. change (<[8192 := demo_table]> demo_tables !! k = Some t) in Hk.
    rewrite lookup_insert_Some in Hk. destruct Hk as [[<- <-]|[_ Hk]]; [exact demo_table_inv | by apply (Ht k)].
  - eapply rinv_tables; [|exact H3]. intros id. by rewrite Hr.
  - eapply rinv_tables; [|exact H4]. intros id. by rewrite Hr.
Qed.

Lemma demo_create_ok : op_done (E := memory) (demo_objects <| tables := two_tables demo_tables |>)
  (fun _ => 0) (objs demo_ipc) (fun _ => 0).
Proof.
  unfold demo_ipc. cbn [objs].
  destruct (kernel_shared_memory_create _ _ _ _ _ _) as [[hd s'] e'] eqn:Hc.
  assert (env_ok (E := memory) (demo_objects <| tables := two_tables demo_tables |>) (fun _ => 0)) as He
    by (split; [exact I | intros; exact I]).
  destruct (create_shared_ok (E := memory) 4096 5 100 35 _ _ _ _ _ two_tables_ok
    He (or_intror (ex_intro _ demo_table eq_refl)) Hc) as (A & B & C).
  split; [exact A|]. split; [by intros l | exact C].
Qed.

Lemma caps_object_u64 t h c : alen (entries t) = KERNEL_HANDLE_TABLE_SIZE ->
  forallb (fun x => (0 <=? object x) && (object x <? 2 ^ 64)) (entries t) = true ->
  caps t h = Some c -> is_u64 (cap_object c).
Proof.
  intros Hl Hall. unfold caps. destruct (open_slot t h) as [i|] eqn:Hop; [|done]. intros [= <-].
  apply open_slot_is_slot in Hop as (Hi & _). unfold is_slot in Hi. rewrite <- Hl in Hi.
  rewrite forallb_forall in Hall.
  pose proof (Hall _ (proj1 (list_elem_of_In _ _)
    (list_elem_of_lookup_2 _ _ _ (lookup_aget _ i Hi)))) as Hx.
  bprop. done.
Qed.

Lemma demo_can_send : can_send (E := memory) demo_sender demo_target demo_ipc (fun _ => 0).
Proof.
  destruct demo_create_ok as (Ho & _ & Hd).
  assert (forall k, k ∈ dom (two_tables demo_tables) -> k ∈ dom (tables (objs demo_ipc))) as Hdom
    by (intros k Hk; rewrite Hd; exact Hk).
  constructor; [done | split; [exact I | intros; exact I] | | done | exact I | | | done |].
  - apply (init_mailbox_inv {| messages := replicate 16 clear_message_v2; head := 0; tail := 0;
      mb_count := 0; delivered_count := 0; dropped_count := 0 |}). reflexivity.
  - split; [done|]. apply Hdom. unfold two_tables, demo_tables. set_solver.
  - split; [done|]. apply Hdom. unfold two_tables, demo_tables. set_solver.
  - intros h c. apply caps_object_u64; vm_compute; reflexivity.
Qed.

Lemma demo_mail_wf : message_wf demo_mail.
Proof. constructor; done. Qed.

(** The sender's handle arrives, without the rights being widened. *)
Lemma ipc_send_v2_delivers_witness : exists s' p,
  contents (mailboxes s' !!! 16384) = [p] /\ v2_sender_pid p = 5.
Proof.
  destruct (ipc_send_message_v2 (E := memory) (Some demo_sender) (Some demo_target) (Some demo_mail)
    demo_ipc (fun _ => 0)) as [[r s'] e'] eqn:Hs.
  assert (r = IPC_OK) as Hr.
  { change r with ((r, s', e').1.1). rewrite <- Hs. vm_compute. reflexivity. }
  destruct (ipc_send_v2_delivers (E := memory) demo_sender demo_target demo_mail demo_ipc (fun _ => 0)
    r s' e' demo_can_send demo_mail_wf Hs Hr) as (p & new & Hst & Hc & _).
  exists s', p. split; [|exact (st_pid _ _ _ Hst)]. etransitivity; [exact Hc|].
  assert (contents (mailboxes demo_ipc !!! 16384) = []) as Hempty by (vm_compute; reflexivity).
  simpl p_ipc_mailbox. rewrite Hempty. reflexivity.
Defined.

(** A message that names a handle the sender does not hold. *)
Lemma ipc_send_v2_all_or_nothing_witness : exists s',
  contents (mailboxes s' !!! 16384) = [].
Proof.
  destruct (ipc_send_message_v2 (E := memory) (Some demo_sender) (Some demo_target)
    (Some (demo_mail <| v2_handles := [777; 0] |>)) demo_ipc (fun _ => 0)) as [[r s'] e'] eqn:Hs.
  assert (r = IPC_ERR_PERMISSION_DENIED) as Hr.
  { change r with ((r, s', e').1.1). rewrite <- Hs. vm_compute. reflexivity. }
  assert (message_wf (demo_mail <| v2_handles := [777; 0] |>)) as Hwf by (constructor; done).
  destruct (ipc_send_v2_all_or_nothing (E := memory) demo_sender demo_target _ demo_ipc (fun _ => 0)
    r s' e' demo_can_send Hwf Hs ltac:(rewrite Hr; discriminate)) as (_ & _ & Hc).
  exists s'. rewrite Hc. vm_compute. reflexivity.
Defined.
