(* ===== verification/Scheduler.v ===== *)
(** * Threads, waiting and the run queue ([kernel/process/process64.cpp])

    The part of the process manager that decides which thread runs: the bounded
    run queue, claiming a thread for a CPU, and the wait state of threads.  A
    [Thread*] is an index into [thread_table] and a [Process*] one into
    [process_table] ([None] for null); only the fields these functions use are
    kept.  The logical id of the running CPU and its current thread, which the
    code reads from CPU-local data, are arguments ([cpu], [current]); the calls
    into the SMP layer are recorded in order in [sched_events]. *)

From S2P Require Import Prelude KernelEnv Spinlock Results.

Definition PROCESS_TABLE_SIZE : Z := 16.
Definition THREAD_TABLE_SIZE : Z := 128.
Definition SCHED_QUEUE_SIZE : Z := 128.
Definition SCHED_DEFAULT_TIMESLICE : Z := 6.
Definition THREAD_CPU_INVALID : Z := -1.
Definition CPU_MAX_COUNT : Z := 8.
Definition OS_THREAD_PRIORITY_LOW : Z := 0.
Definition OS_THREAD_PRIORITY_HIGH : Z := 2.
Definition OS_THREAD_PRIORITY_MAX : Z := 2.
Definition SCHED_STATE_READY : Z := 1.
Definition SCHED_STATE_RUNNING : Z := 2.
Definition SCHED_STATE_WAITING : Z := 3.
Definition SCHED_STATE_FINISHED : Z := 4.
Definition PROCESS_PAUSE_NONE : Z := 0.
Definition PROCESS_PAUSE_SLEEP : Z := 3.
Definition PROCESS_WAIT_NONE : Z := 0.
Definition PROCESS_WAIT_TIMER : Z := 1.
Definition PROCESS_WAIT_CHILD : Z := 2.
Definition PROCESS_WAIT_THREAD_JOIN : Z := 7.
Definition PROCESS_WAIT_MUTEX : Z := 8.
Definition PROCESS_WAIT_SEMAPHORE : Z := 9.
Definition PROCESS_WAIT_CONDITION : Z := 10.
Definition PROCESS_WAIT_OK : Z := 0.
Definition PROCESS_WAIT_TIMEOUT : Z := -17.
Definition PROCESS_WAIT_CANCELLED : Z := -18.

(** The static lock [process_lock]. *)
Definition process_lock : lock_ref := -4.

Record ThreadContext := {
  scheduler_state : Z; runtime_ticks : Z; runtime_ticks_total : Z; timeslice_ticks : Z;
  wake_tick : Z; resumable : Z; pause_reason : Z; wait_pending : Z; wait_has_deadline : Z;
  wait_reason : Z; wait_result : Z; wait_deadline : Z; wait_sequence : Z; wait_user_address : Z;
  wait_object_id : Z; wait_aux_object_id : Z; wait_target_tid : Z; wait_target_generation : Z;
  preemption_count : Z; yield_count : Z; block_count : Z; wake_count : Z; switch_count : Z }.
#[export] Instance ThreadContext_settable : Settable ThreadContext := {| eta_expand c := {|
  scheduler_state := scheduler_state c; runtime_ticks := runtime_ticks c;
  runtime_ticks_total := runtime_ticks_total c; timeslice_ticks := timeslice_ticks c;
  wake_tick := wake_tick c; resumable := resumable c; pause_reason := pause_reason c;
  wait_pending := wait_pending c; wait_has_deadline := wait_has_deadline c;
  wait_reason := wait_reason c; wait_result := wait_result c; wait_deadline := wait_deadline c;
  wait_sequence := wait_sequence c; wait_user_address := wait_user_address c;
  wait_object_id := wait_object_id c; wait_aux_object_id := wait_aux_object_id c;
  wait_target_tid := wait_target_tid c; wait_target_generation := wait_target_generation c;
  preemption_count := preemption_count c; yield_count := yield_count c;
  block_count := block_count c; wake_count := wake_count c; switch_count := switch_count c |} |}.
(** What [thread_context_reset] leaves. *)
Definition fresh_context : ThreadContext := {|
  scheduler_state := 0; runtime_ticks := 0; runtime_ticks_total := 0;
  timeslice_ticks := SCHED_DEFAULT_TIMESLICE; wake_tick := 0; resumable := 0; pause_reason := 0;
  wait_pending := 0; wait_has_deadline := 0; wait_reason := 0; wait_result := PROCESS_WAIT_OK;
  wait_deadline := 0; wait_sequence := 0; wait_user_address := 0; wait_object_id := 0;
  wait_aux_object_id := 0; wait_target_tid := 0; wait_target_generation := 0;
  preemption_count := 0; yield_count := 0; block_count := 0; wake_count := 0; switch_count := 0 |}.

(** [th_has_context]: the context pointer is not null. *)
Record Thread := {
  th_tid : Z; th_generation : Z; th_owner_pid : Z; th_owner : option Z; th_has_context : bool;
  th_context : ThreadContext; th_join_owner_tid : Z; th_join_owner_generation : Z;
  th_priority : Z; running_cpu : Z; last_cpu : Z; affinity_mask : Z; migration_count : Z;
  th_active : Z; th_is_main : Z; th_exited : Z; th_runtime_released : Z }.
#[export] Instance Thread_settable : Settable Thread := {| eta_expand t := {|
  th_tid := th_tid t; th_generation := th_generation t; th_owner_pid := th_owner_pid t;
  th_owner := th_owner t; th_has_context := th_has_context t; th_context := th_context t;
  th_join_owner_tid := th_join_owner_tid t; th_join_owner_generation := th_join_owner_generation t;
  th_priority := th_priority t; running_cpu := running_cpu t; last_cpu := last_cpu t;
  affinity_mask := affinity_mask t; migration_count := migration_count t;
  th_active := th_active t; th_is_main := th_is_main t; th_exited := th_exited t;
  th_runtime_released := th_runtime_released t |} |}.
(** What [thread_record_zero] leaves. *)
#[export] Instance Thread_inhabited : Inhabited Thread := populate {|
  th_tid := 0; th_generation := 0; th_owner_pid := 0; th_owner := None; th_has_context := true;
  th_context := fresh_context; th_join_owner_tid := 0; th_join_owner_generation := 0;
  th_priority := 1; running_cpu := THREAD_CPU_INVALID; last_cpu := THREAD_CPU_INVALID;
  affinity_mask := 0xFF; migration_count := 0; th_active := 0; th_is_main := 0; th_exited := 0;
  th_runtime_released := 0 |}.

Record ProcessRec := {
  pr_pid : Z; pr_generation : Z; pr_active : Z; pr_background : Z; pr_main_tid : Z;
  pr_main_generation : Z }.
#[export] Instance ProcessRec_inhabited : Inhabited ProcessRec := populate
  {| pr_pid := 0; pr_generation := 0; pr_active := 0; pr_background := 0; pr_main_tid := 0;
     pr_main_generation := 0 |}.

(** Calls into the SMP layer. *)
Inductive SchedEvent :=
| smp_notify_runnable (mask : Z)
| scheduler_claim_counted (cpu : Z)
| smp_request_reschedule (cpu : Z).

Record SchedState := {
  thread_table : list Thread; process_table : list ProcessRec; sched_queue : list (option Z);
  sched_queue_count : Z; sched_queue_head : Z; next_wait_sequence : Z; sched_last_pid : Z;
  sched_switch_count : Z; sched_yield_count : Z; sched_events : list SchedEvent }.
#[export] Instance SchedState_settable : Settable SchedState := {| eta_expand s := {|
  thread_table := thread_table s; process_table := process_table s; sched_queue := sched_queue s;
  sched_queue_count := sched_queue_count s; sched_queue_head := sched_queue_head s;
  next_wait_sequence := next_wait_sequence s; sched_last_pid := sched_last_pid s;
  sched_switch_count := sched_switch_count s; sched_yield_count := sched_yield_count s;
  sched_events := sched_events s |} |}.

Definition thread_at (s : SchedState) (i : Z) : Thread := aget (thread_table s) i.
Definition process_at (s : SchedState) (p : Z) : ProcessRec := aget (process_table s) p.
Definition upd_thread (i : Z) (f : Thread -> Thread) (s : SchedState) : SchedState :=
  s <| thread_table := aset (thread_table s) i (f (thread_at s i)) |>.
(** Assignments to [*thread->context]. *)
Definition upd_context (i : Z) (f : ThreadContext -> ThreadContext) (s : SchedState) : SchedState :=
  upd_thread i (fun t => t <| th_context := f (th_context t) |>) s.
Definition context_at (s : SchedState) (i : Z) : ThreadContext := th_context (thread_at s i).
(** [thread->owner != 0 && thread->owner->active] *)
Definition owner_active (s : SchedState) (t : Thread) : bool :=
  match th_owner t with None => false | Some p => nonzero (pr_active (process_at s p)) end.
Definition owner_background (s : SchedState) (t : Thread) : bool :=
  match th_owner t with None => false | Some p => nonzero (pr_background (process_at s p)) end.
Definition emit (ev : SchedEvent) (s : SchedState) : SchedState :=
  s <| sched_events := sched_events s ++ [ev] |>.

(** ** Identities *)

Definition thread_quantum (t : Thread) : Z :=
  if th_priority t =? OS_THREAD_PRIORITY_LOW then 4
  else if th_priority t =? OS_THREAD_PRIORITY_HIGH then 8
  else SCHED_DEFAULT_TIMESLICE.

(** An identity is a pair of a thread id and a generation. *)
Definition thread_identity (s : SchedState) (thread : option Z) : Z * Z :=
  match thread with
  | None => (0, 0)
  | Some i => (th_tid (thread_at s i), th_generation (thread_at s i))
  end.

Definition identity_matches (t : Thread) (identity : Z * Z) : bool :=
  nonzero identity.1 && nonzero identity.2 && (th_tid t =? identity.1)
  && (th_generation t =? identity.2).
Definition thread_identity_matches (s : SchedState) (thread : option Z) (identity : Z * Z) : bool :=
  match thread with None => false | Some i => identity_matches (thread_at s i) identity end.

Definition process_identity (s : SchedState) (process : option Z) : Z * Z :=
  match process with
  | None => (0, 0)
  | Some p => (pr_pid (process_at s p), pr_generation (process_at s p))
  end.

Definition find_thread (p : Thread -> bool) (s : SchedState) : option Z :=
  find_first (fun i => p (thread_at s i)) 0 (Z.to_nat THREAD_TABLE_SIZE).

Definition process_identity_matches (x : ProcessRec) (identity : Z * Z) : bool :=
  if (identity.1 =? 0) || negb (pr_pid x =? identity.1) then false
  else (identity.2 =? 0) || (pr_generation x =? identity.2).

Definition owned_by (process : option Z) (t : Thread) : bool := bool_decide (th_owner t = process).

Definition process_main_thread (s : SchedState) (process : option Z) : option Z :=
  match process with
  | None => None
  | Some p =>
    if pr_main_tid (process_at s p) =? 0 then None
    else find_thread (fun t =>
      identity_matches t (pr_main_tid (process_at s p), pr_main_generation (process_at s p))
      && owned_by process t && nonzero (th_is_main t)) s
  end.

(** [current] is [current_thread()]. *)
Definition wait_thread_for_process (current : option Z) (s : SchedState) (process : option Z)
    : option Z :=
  match current with
  | Some i => if owned_by process (thread_at s i) then current else process_main_thread s process
  | None => process_main_thread s process
  end.

(** ** The run queue *)

Definition queue_cell (s : SchedState) (i : Z) : Z := u32 (sched_queue_head s + i) mod SCHED_QUEUE_SIZE.

Definition scheduler_queue_contains (s : SchedState) (thread : Z) : bool :=
  match find_first (fun i => bool_decide (aget (sched_queue s) (queue_cell s i) = Some thread)) 0
          (Z.to_nat (sched_queue_count s)) with
  | Some _ => true
  | None => false
  end.

Definition scheduler_enqueue_unlocked (thread : option Z) (s : SchedState) : SchedState :=
  match thread with
  | None => s
  | Some i =>
    let t := thread_at s i in
    if negb (th_has_context t) || (th_active t =? 0) || negb (owner_active s t) then s
    else if scheduler_queue_contains s i then
      if (scheduler_state (th_context t) =? SCHED_STATE_READY)
         && (running_cpu t =? THREAD_CPU_INVALID)
      then upd_context i (fun c => c <| timeslice_ticks := thread_quantum t |>) s
      else s
    else if (SCHED_QUEUE_SIZE <=? sched_queue_count s) || negb (running_cpu t =? THREAD_CPU_INVALID)
    then s
    else
      let index := u32 (sched_queue_head s + sched_queue_count s) mod SCHED_QUEUE_SIZE in
      let s := s <| sched_queue := aset (sched_queue s) index (Some i) |> in
      let s := s <| sched_queue_count := u32 (sched_queue_count s + 1) |> in
      let s := upd_context i (fun c => c <| scheduler_state := SCHED_STATE_READY |>
                                         <| timeslice_ticks := thread_quantum t |>) s in
      emit (smp_notify_runnable (affinity_mask t)) s
  end.

(** The array [compacted] is the list of its first [kept] elements. *)
Definition compact_queue (s : SchedState) (i : Z) : list (option Z) :=
  for_range 0 (sched_queue_count s) (fun k compacted =>
    let x := aget (sched_queue s) (queue_cell s k) in
    if bool_decide (x <> Some i) then compacted ++ [x] else compacted) [].

Definition scheduler_remove_unlocked (thread : option Z) (s : SchedState) : SchedState :=
  match thread with
  | None => s
  | Some i =>
    if sched_queue_count s =? 0 then s
    else
      let compacted := compact_queue s i in
      let kept := alen compacted in
      let q := for_range 0 kept (fun k q => aset q k (aget compacted k)) (sched_queue s) in
      let q := for_range kept SCHED_QUEUE_SIZE (fun k q => aset q k None) q in
      s <| sched_queue := q |> <| sched_queue_head := 0 |> <| sched_queue_count := kept |>
  end.

(** ** Claiming a thread for a CPU *)

Definition thread_cpu_eligible (t : Thread) (logical_id : Z) : bool :=
  (logical_id <? CPU_MAX_COUNT) && nonzero (Z.land (affinity_mask t) (Z.shiftl 1 logical_id)).

Definition thread_release_cpu_unlocked (i : Z) (s : SchedState) : SchedState :=
  upd_thread i (fun t => t <| running_cpu := THREAD_CPU_INVALID |>) s.

Definition thread_claim_cpu_unlocked (i logical_id : Z) (s : SchedState) : Z * SchedState :=
  let t := thread_at s i in
  if negb (th_has_context t) || negb (running_cpu t =? THREAD_CPU_INVALID)
     || negb (thread_cpu_eligible t logical_id) then (0, s)
  else
    let s := if negb (last_cpu t =? THREAD_CPU_INVALID) && negb (last_cpu t =? logical_id)
             then upd_thread i (fun t => t <| migration_count := u32 (migration_count t + 1) |>) s
             else s in
    let s := upd_thread i (fun t => t <| running_cpu := logical_id |> <| last_cpu := logical_id |>) s in
    let s := upd_context i (fun c => c <| scheduler_state := SCHED_STATE_RUNNING |>
      <| pause_reason := PROCESS_PAUSE_NONE |> <| wake_tick := 0 |>
      <| timeslice_ticks := thread_quantum t |>) s in
    let s := s <| sched_last_pid := th_owner_pid t |>
               <| sched_switch_count := u32 (sched_switch_count s + 1) |> in
    let s := upd_context i (fun c => c <| switch_count := u64 (switch_count c + 1) |>) s in
    (1, emit (scheduler_claim_counted logical_id) s).

(** The conditions under which a thread may run on a CPU now. *)
Definition thread_ready (cpu : Z) (exclude : Z * Z) (exclude_pid : Z)
    (background_only sleeping_only : bool) (s : SchedState) (t : Thread) : bool :=
  negb (th_tid t =? 0) && negb (bool_decide (th_owner t = None))
  && negb (identity_matches t exclude)
  && negb (nonzero exclude_pid && (th_owner_pid t =? exclude_pid))
  && nonzero (th_active t) && owner_active s t && nonzero (resumable (th_context t))
  && (scheduler_state (th_context t) =? SCHED_STATE_READY)
  && (running_cpu t =? THREAD_CPU_INVALID) && thread_cpu_eligible t cpu
  && negb (background_only && negb (owner_background s t))
  && negb (sleeping_only && negb (pause_reason (th_context t) =? PROCESS_PAUSE_SLEEP)).

Definition find_next_ready_thread_unlocked (cpu : Z) (exclude : Z * Z) (exclude_pid : Z)
    (background_only sleeping_only : bool) (s : SchedState) : option Z * SchedState :=
  match find_first (fun i =>
          match aget (sched_queue s) (queue_cell s i) with
          | None => false
          | Some j => thread_ready cpu exclude exclude_pid background_only sleeping_only s (thread_at s j)
          end) 0 (Z.to_nat (sched_queue_count s)) with
  | Some i => (aget (sched_queue s) (queue_cell s i), s)
  | None =>
    match find_thread (thread_ready cpu exclude exclude_pid background_only sleeping_only s) s with
    | Some i => (Some i, scheduler_enqueue_unlocked (Some i) s)
    | None => (None, s)
    end
  end.

(** ** Waiting *)

Definition thread_wait_reset_unlocked (thread : option Z) (s : SchedState) : SchedState :=
  match thread with
  | None => s
  | Some i =>
    if negb (th_has_context (thread_at s i)) then s
    else upd_context i (fun c => c <| wait_pending := 0 |> <| wait_has_deadline := 0 |>
      <| wait_reason := PROCESS_WAIT_NONE |> <| wait_result := PROCESS_WAIT_OK |>
      <| wait_deadline := 0 |> <| wait_sequence := 0 |> <| wait_user_address := 0 |>
      <| wait_object_id := 0 |> <| wait_aux_object_id := 0 |> <| wait_target_tid := 0 |>
      <| wait_target_generation := 0 |> <| wake_tick := 0 |>) s
  end.

Definition wait_next_sequence_unlocked (s : SchedState) : Z * SchedState :=
  let sequence := next_wait_sequence s in
  let next := u64 (next_wait_sequence s + 1) in
  let next := if next =? 0 then 1 else next in
  if sequence =? 0 then (next, s <| next_wait_sequence := u64 (next + 1) |>)
  else (sequence, s <| next_wait_sequence := next |>).

Definition thread_join_release_claim_unlocked (waiter : Z) (s : SchedState) : SchedState :=
  let w := thread_at s waiter in
  if negb (th_has_context w) || (wait_target_tid (th_context w) =? 0) then s
  else
    let target := (wait_target_tid (th_context w), wait_target_generation (th_context w)) in
    match find_thread (fun t => identity_matches t target && (th_join_owner_tid t =? th_tid w)
                                && (th_join_owner_generation t =? th_generation w)) s with
    | None => s
    | Some i => upd_thread i (fun t => t <| th_join_owner_tid := 0 |>
                                         <| th_join_owner_generation := 0 |>) s
    end.

Definition thread_wait_signal_unlocked (thread : option Z) (reason result : Z) (s : SchedState)
    : Z * SchedState :=
  match thread with
  | None => (0, s)
  | Some i =>
    let t := thread_at s i in
    if negb (th_has_context t) || (wait_pending (th_context t) =? 0)
       || negb (wait_reason (th_context t) =? reason) then (0, s)
    else
      let s := if (reason =? PROCESS_WAIT_THREAD_JOIN) && negb (result =? PROCESS_WAIT_OK)
               then thread_join_release_claim_unlocked i s else s in
      let s := upd_context i (fun c => c <| wait_pending := 0 |> <| wait_has_deadline := 0 |>
        <| wait_result := result |> <| wait_deadline := 0 |> <| wake_tick := 0 |>
        <| wake_count := u64 (wake_count c + 1) |>) s in
      let t := thread_at s i in
      if nonzero (th_active t) && owner_active s t then
        let s := upd_context i (fun c => c <| scheduler_state := SCHED_STATE_READY |>
                                           <| timeslice_ticks := thread_quantum t |>) s in
        (1, if nonzero (resumable (context_at s i)) then scheduler_enqueue_unlocked thread s else s)
      else (1, s)
  end.

Definition thread_join_signal_owner_unlocked (target : Z) (s : SchedState) : SchedState :=
  let t := thread_at s target in
  if (th_exited t =? 0) || (th_runtime_released t =? 0) || (th_join_owner_tid t =? 0) then s
  else
    match find_thread (fun c => (th_tid c =? th_join_owner_tid t)
                                && (th_generation c =? th_join_owner_generation t)) s with
    | None => s
    | Some i => (thread_wait_signal_unlocked (Some i) PROCESS_WAIT_THREAD_JOIN PROCESS_WAIT_OK s).2
    end.

(** A thread of [process] that waits for [reason]. *)
Definition waits_for (process : option Z) (reason : Z) (t : Thread) : bool :=
  owned_by process t && th_has_context t && nonzero (wait_pending (th_context t))
  && (wait_reason (th_context t) =? reason).
Definition waits_on (process : option Z) (reason object_id : Z) (t : Thread) : bool :=
  waits_for process reason t && (wait_object_id (th_context t) =? object_id).

(** The scan for the thread with the smallest sequence number. *)
Definition select_oldest (p : Thread -> bool) (s : SchedState) : option Z :=
  for_range 0 THREAD_TABLE_SIZE (fun i selected =>
    if negb (p (thread_at s i)) then selected
    else
      match selected with
      | None => Some i
      | Some j => if wait_sequence (context_at s i) <? wait_sequence (context_at s j)
                  then Some i else selected
      end) None.

Definition thread_wait_is_pending (s : SchedState) (thread : option Z) : bool :=
  match thread with
  | None => false
  | Some i => th_has_context (thread_at s i) && nonzero (wait_pending (context_at s i))
  end.

Section Operations.
Context {E : Type} `{KernelEnv E}.

(** A section under [process_lock] that returns nothing. *)
Definition locked (body : SchedState -> SchedState) (s : SchedState) (e : E) : SchedState * E :=
  let '(_, s, e) := with_lock process_lock tt (fun s => (tt, body s)) s e in (s, e).

Definition find_thread_by_identity (identity : Z * Z) (s : SchedState) (e : E)
    : option Z * SchedState * E :=
  if (identity.1 =? 0) || (identity.2 =? 0) then (None, s, e)
  else with_lock process_lock None
    (fun s => (find_thread (fun t => identity_matches t identity) s, s)) s e.

Definition find_process_by_identity (identity : Z * Z) (s : SchedState) (e : E)
    : option Z * SchedState * E :=
  if (identity.1 =? 0) || (identity.2 =? 0) then (None, s, e)
  else with_lock process_lock None (fun s =>
    (find_first (fun p => process_identity_matches (process_at s p) identity) 0
       (Z.to_nat PROCESS_TABLE_SIZE), s)) s e.

Definition thread_wait_reset (thread : option Z) (s : SchedState) (e : E) :=
  locked (thread_wait_reset_unlocked thread) s e.
Definition process_wait_reset (current process : option Z) (s : SchedState) (e : E) :=
  locked (fun s => thread_wait_reset_unlocked (wait_thread_for_process current s process) s) s e.

Definition thread_wait_begin_unlocked (thread : option Z)
    (reason user_address timeout_ticks tick_now : Z) (s : SchedState) (e : E) : Z * SchedState * E :=
  match thread with
  | None => (0, s, e)
  | Some i =>
    let t := thread_at s i in
    if negb (th_has_context t) || (th_active t =? 0) || negb (owner_active s t)
       || (reason =? PROCESS_WAIT_NONE) || nonzero (wait_pending (th_context t)) then (0, s, e)
    else
      let '(fault, e) := kernel_fault_injection_should_fail KERNEL_FAULT_POINT_THREAD_WAIT e in
      if fault then (0, s, e)
      else
        let s := scheduler_remove_unlocked thread s in
        let s := upd_context i (fun c => c <| wait_pending := 1 |> <| wait_reason := reason |>
                                           <| wait_result := PROCESS_WAIT_OK |>) s in
        let '(sequence, s) := wait_next_sequence_unlocked s in
        let deadline := if nonzero timeout_ticks then u32 (tick_now + timeout_ticks) else 0 in
        (1, upd_context i (fun c => c <| wait_sequence := sequence |>
          <| wait_user_address := user_address |>
          <| wait_has_deadline := if nonzero timeout_ticks then 1 else 0 |>
          <| wait_deadline := deadline |> <| wake_tick := deadline |>
          <| scheduler_state := SCHED_STATE_WAITING |>
          <| block_count := u64 (block_count c + 1) |>) s, e)
  end.

Definition thread_wait_begin (thread : option Z) (reason user_address timeout_ticks tick_now : Z)
    (s : SchedState) (e : E) : Z * SchedState * E :=
  with_lock_env process_lock 0
    (thread_wait_begin_unlocked thread reason user_address timeout_ticks tick_now) s e.

Definition process_wait_begin (current process : option Z)
    (reason user_address timeout_ticks tick_now : Z) (s : SchedState) (e : E) : Z * SchedState * E :=
  with_lock_env process_lock 0 (fun s => thread_wait_begin_unlocked
    (wait_thread_for_process current s process) reason user_address timeout_ticks tick_now s) s e.

Definition thread_wait_signal (thread : option Z) (reason result : Z) (s : SchedState) (e : E)
    : Z * SchedState * E :=
  with_lock process_lock 0 (thread_wait_signal_unlocked thread reason result) s e.

Definition thread_wait_find_oldest (process : option Z) (reason object_id : Z)
    (s : SchedState) (e : E) : option Z * SchedState * E :=
  with_lock process_lock None (fun s =>
    (match process with
     | None => None
     | Some _ => select_oldest (waits_on process reason object_id) s
     end, s)) s e.

Definition thread_wait_set_objects (thread : option Z) (object_id aux_object_id : Z)
    (s : SchedState) (e : E) : Z * SchedState * E :=
  with_lock process_lock 0 (fun s =>
    match thread with
    | Some i =>
      if thread_wait_is_pending s thread
      then (1, upd_context i (fun c => c <| wait_object_id := object_id |>
                                         <| wait_aux_object_id := aux_object_id |>) s)
      else (0, s)
    | None => (0, s)
    end) s e.

Definition retarget_body (thread : option Z) (old_reason new_reason object_id aux_object_id
    resume_result : Z) (s : SchedState) : Z * SchedState :=
  match thread with
  | Some i =>
    if thread_wait_is_pending s thread && (wait_reason (context_at s i) =? old_reason) then
      let s := upd_context i (fun c => c <| wait_reason := new_reason |>
        <| wait_object_id := object_id |> <| wait_aux_object_id := aux_object_id |>
        <| wait_result := resume_result |> <| wait_has_deadline := 0 |> <| wait_deadline := 0 |>
        <| wake_tick := 0 |>) s in
      let '(sequence, s) := wait_next_sequence_unlocked s in
      (1, upd_context i (fun c => c <| wait_sequence := sequence |>) s)
    else (0, s)
  | None => (0, s)
  end.
Definition thread_wait_retarget (thread : option Z) (old_reason new_reason object_id aux_object_id
    resume_result : Z) (s : SchedState) (e : E) : Z * SchedState * E :=
  with_lock process_lock 0
    (retarget_body thread old_reason new_reason object_id aux_object_id resume_result) s e.

(** Signals every thread a test selects, with the reason it waits for. *)
Definition signal_all (p : Thread -> bool) (reason : Thread -> Z) (result : Z) (s : SchedState)
    : Z * SchedState :=
  for_range 0 THREAD_TABLE_SIZE (fun i '(cancelled, s) =>
    if negb (p (thread_at s i)) then (cancelled, s)
    else
      let '(r, s) := thread_wait_signal_unlocked (Some i) (reason (thread_at s i)) result s in
      (if nonzero r then cancelled + 1 else cancelled, s)) (0, s).

Definition thread_wait_cancel_object (process : option Z) (object_id result : Z)
    (s : SchedState) (e : E) : Z * SchedState * E :=
  with_lock process_lock 0 (fun s =>
    match process with
    | None => (0, s)
    | Some _ => signal_all (fun t => owned_by process t && th_has_context t
        && nonzero (wait_pending (th_context t))
        && ((wait_object_id (th_context t) =? object_id)
            || (wait_aux_object_id (th_context t) =? object_id)))
        (fun t => wait_reason (th_context t)) result s
    end) s e.

Definition process_wait_cancel (process : option Z) (reason result : Z) (s : SchedState) (e : E)
    : Z * SchedState * E :=
  with_lock process_lock 0 (fun s =>
    match process with
    | None => (0, s)
    | Some _ => signal_all (owned_by process) (fun _ => reason) result s
    end) s e.

Definition process_wait_count (process : option Z) (reason : Z) (s : SchedState) (e : E)
    : Z * SchedState * E :=
  with_lock process_lock 0 (fun s =>
    (match process with
     | None => 0
     | Some _ => for_range 0 THREAD_TABLE_SIZE (fun i count =>
         let t := thread_at s i in
         if owned_by process t && th_has_context t && nonzero (wait_pending (th_context t))
            && ((reason =? PROCESS_WAIT_NONE) || (wait_reason (th_context t) =? reason))
         then u32 (count + 1) else count) 0
     end, s)) s e.

Definition process_wait_signal (process : option Z) (reason result : Z) (s : SchedState) (e : E)
    : Z * SchedState * E :=
  with_lock process_lock 0 (fun s =>
    thread_wait_signal_unlocked (select_oldest (waits_for process reason) s) reason result s) s e.

Definition notify_queued_body (process : option Z) (s : SchedState) : SchedState :=
  match process with
  | None => s
  | Some _ =>
    match find_thread (fun t => owned_by process t && nonzero (th_active t)
              && nonzero (resumable (th_context t))
              && (wait_reason (th_context t) =? PROCESS_WAIT_NONE)) s with
    | Some i => scheduler_enqueue_unlocked (Some i) s
    | None => s
    end
  end.
Definition process_notify_queued_ipc (process : option Z) (s : SchedState) (e : E) :=
  locked (notify_queued_body process) s e.

(** The locked part of [process_wait_tick]: the threads whose synchronisation
    wait timed out, in table order. *)
Definition i32_neg (x : Z) : bool := 2 ^ 31 <=? x.
Definition wait_tick_step (tick_now i : Z) (st : list Z * SchedState) : list Z * SchedState :=
  let '(timeouts, s) := st in
  let t := thread_at s i in
  let c := th_context t in
  if (th_active t =? 0) || negb (owner_active s t) || (wait_pending c =? 0)
     || (wait_has_deadline c =? 0) then st
  else if i32_neg (u32 (tick_now - wait_deadline c)) then st
  else if (wait_reason c =? PROCESS_WAIT_MUTEX) || (wait_reason c =? PROCESS_WAIT_SEMAPHORE)
          || (wait_reason c =? PROCESS_WAIT_CONDITION) then
    (timeouts ++ [i], upd_context i (fun c => c <| wait_has_deadline := 0 |>
       <| wait_deadline := 0 |> <| wake_tick := 0 |>) s)
  else
    let result := if wait_reason c =? PROCESS_WAIT_TIMER then PROCESS_WAIT_OK
                  else PROCESS_WAIT_TIMEOUT in
    (timeouts, (thread_wait_signal_unlocked (Some i) (wait_reason c) result s).2).
Definition wait_tick_body (tick_now : Z) (s : SchedState) : list Z * SchedState :=
  for_range 0 THREAD_TABLE_SIZE (wait_tick_step tick_now) ([], s).

(** ** Scheduling *)

Definition scheduler_enqueue_thread (thread : option Z) (s : SchedState) (e : E) :=
  locked (scheduler_enqueue_unlocked thread) s e.
Definition scheduler_remove_thread (thread : option Z) (s : SchedState) (e : E) :=
  locked (scheduler_remove_unlocked thread) s e.

Definition mark_running_body (cpu i : Z) (s : SchedState) : SchedState :=
  let t := thread_at s i in
  if running_cpu t =? cpu then
    let s := if wait_reason (th_context t) =? PROCESS_WAIT_CHILD
             then thread_wait_reset_unlocked (Some i) s else s in
    upd_context i (fun c => c <| scheduler_state := SCHED_STATE_RUNNING |>
      <| pause_reason := PROCESS_PAUSE_NONE |> <| wake_tick := 0 |>
      <| timeslice_ticks := thread_quantum t |>) s
  else if negb (running_cpu t =? THREAD_CPU_INVALID) || negb (thread_cpu_eligible t cpu) then s
  else
    let s := if wait_reason (th_context t) =? PROCESS_WAIT_CHILD
             then thread_wait_reset_unlocked (Some i) s else s in
    let s := scheduler_remove_unlocked (Some i) s in
    (thread_claim_cpu_unlocked i cpu s).2.
Definition scheduler_mark_thread_running (cpu : Z) (thread : option Z) (s : SchedState) (e : E) :=
  match thread with
  | None => (s, e)
  | Some i =>
    if negb (th_has_context (thread_at s i)) || bool_decide (th_owner (thread_at s i) = None)
    then (s, e) else locked (mark_running_body cpu i) s e
  end.

Definition scheduler_mark_waiting (current process : option Z) (s : SchedState) (e : E) :=
  match wait_thread_for_process current s process with
  | None => (s, e)
  | Some i => locked (upd_context i (fun c => c <| scheduler_state := SCHED_STATE_WAITING |>)) s e
  end.

Definition scheduler_mark_sleeping (current process : option Z) (tick : Z) (s : SchedState) (e : E) :=
  match wait_thread_for_process current s process with
  | None => (s, e)
  | Some i => locked (fun s => upd_context i (fun c => c <| scheduler_state := SCHED_STATE_WAITING |>
      <| wake_tick := tick |>) (scheduler_remove_unlocked (Some i) s)) s e
  end.

Definition scheduler_mark_thread_finished (thread : option Z) (s : SchedState) (e : E) :=
  match thread with
  | None => (s, e)
  | Some i =>
    if negb (th_has_context (thread_at s i)) then (s, e)
    else locked (fun s => upd_context i (fun c => c <| scheduler_state := SCHED_STATE_FINISHED |>
           <| timeslice_ticks := 0 |>) (scheduler_remove_unlocked thread s)) s e
  end.

(** [can_schedule] is the answer of [kernel_spinlock_assert_can_schedule]. *)
Definition yield_body (i : Z) (s : SchedState) : SchedState :=
  let s := s <| sched_yield_count := u32 (sched_yield_count s + 1) |> in
  let s := upd_context i (fun c => c <| yield_count := u64 (yield_count c + 1) |>
    <| scheduler_state := SCHED_STATE_READY |>
    <| timeslice_ticks := thread_quantum (thread_at s i) |>) s in
  scheduler_enqueue_unlocked (Some i) (scheduler_remove_unlocked (Some i) s).
Definition scheduler_yield_current (can_schedule : bool) (current : option Z)
    (s : SchedState) (e : E) :=
  if negb can_schedule then (s, e)
  else
    match current with
    | None => (s, e)
    | Some i => if negb (th_has_context (thread_at s i)) then (s, e) else locked (yield_body i) s e
    end.

Definition kernel_return_body (cpu i : Z) (s : SchedState) : SchedState :=
  let s := if running_cpu (thread_at s i) =? cpu then thread_release_cpu_unlocked i s else s in
  let t := thread_at s i in
  if nonzero (th_active t) && owner_active s t && nonzero (resumable (th_context t))
     && (scheduler_state (th_context t) =? SCHED_STATE_READY)
  then scheduler_enqueue_unlocked (Some i) s else s.
Definition scheduler_complete_kernel_return (cpu : Z) (thread : option Z) (s : SchedState) (e : E) :=
  match thread with
  | None => (s, e)
  | Some i => if negb (th_has_context (thread_at s i)) then (s, e)
              else locked (kernel_return_body cpu i) s e
  end.

Definition scheduler_on_tick (current : option Z) (s : SchedState) (e : E) :=
  match current with
  | None => (s, e)
  | Some i =>
    if negb (th_has_context (thread_at s i)) then (s, e)
    else locked (upd_context i (fun c =>
      let c := c <| runtime_ticks := u32 (runtime_ticks c + 1) |>
                 <| runtime_ticks_total := u64 (runtime_ticks_total c + 1) |> in
      if 0 <? timeslice_ticks c then c <| timeslice_ticks := timeslice_ticks c - 1 |> else c)) s e
  end.

Definition scheduler_note_preemption (thread : option Z) (s : SchedState) (e : E) :=
  locked (fun s => match thread with
    | Some i => if th_has_context (thread_at s i)
        then upd_context i (fun c => c <| preemption_count := u64 (preemption_count c + 1) |>) s else s
    | None => s end) s e.

Definition scheduler_refresh_timeslice (thread : option Z) (s : SchedState) (e : E) :=
  locked (fun s => match thread with
    | Some i => if th_has_context (thread_at s i)
        then upd_context i (fun c => c <| timeslice_ticks := thread_quantum (thread_at s i) |>) s else s
    | None => s end) s e.

Definition thread_set_priority (requester : option Z) (identity : Z * Z) (priority : Z)
    (s : SchedState) (e : E) : Z * SchedState * E :=
  match requester with
  | None => (SYS_ERR_INVALID_ARGUMENT, s, e)
  | Some _ =>
    if OS_THREAD_PRIORITY_MAX <? priority then (SYS_ERR_INVALID_ARGUMENT, s, e)
    else with_lock process_lock SYS_ERR_NOT_READY (fun s =>
      match find_thread (fun t => identity_matches t identity && owned_by requester t) s with
      | None => (SYS_ERR_NOT_FOUND, s)
      | Some i =>
        let s := upd_thread i (fun t => t <| th_priority := priority |>) s in
        let t := thread_at s i in
        (0, if th_has_context t && (thread_quantum t <? timeslice_ticks (th_context t))
            then upd_context i (fun c => c <| timeslice_ticks := thread_quantum t |>) s else s)
      end) s e
  end.

(** [valid_mask] is [scheduler_online_cpu_mask()]. *)
Definition thread_set_affinity (valid_mask : Z) (requester : option Z) (identity : Z * Z) (mask : Z)
    (s : SchedState) (e : E) : Z * SchedState * E :=
  match requester with
  | None => (SYS_ERR_INVALID_ARGUMENT, s, e)
  | Some _ =>
    if (mask =? 0) || nonzero (Z.land mask (not32 (Z.shiftl 1 CPU_MAX_COUNT - 1)))
       || (Z.land mask valid_mask =? 0) then (SYS_ERR_INVALID_ARGUMENT, s, e)
    else
      let '(result, cpu, s, e) := with_lock process_lock (SYS_ERR_NOT_READY, None) (fun s =>
        match find_thread (fun t => identity_matches t identity && owned_by requester t) s with
        | None => ((SYS_ERR_NOT_FOUND, Some THREAD_CPU_INVALID), s)
        | Some i => ((0, Some (running_cpu (thread_at s i))),
                     upd_thread i (fun t => t <| affinity_mask := mask |>) s)
        end) s e in
      match cpu with
      | None => (result, s, e)
      | Some c =>
        if (result =? 0) && negb (c =? THREAD_CPU_INVALID)
           && (Z.land mask (Z.shiftl 1 c) =? 0)
        then (result, emit (smp_request_reschedule c) s, e) else (result, s, e)
      end
  end.

Definition claim_body (cpu : Z) (exclude : Z * Z) (exclude_pid : Z)
    (background_only sleeping_only : bool) (s : SchedState) : option Z * SchedState :=
  let '(thread, s) := find_next_ready_thread_unlocked cpu exclude exclude_pid background_only
    sleeping_only s in
  match thread with
  | None => (None, s)
  | Some i =>
    let s := scheduler_remove_unlocked thread s in
    let '(claimed, s) := thread_claim_cpu_unlocked i cpu s in
    (if claimed =? 0 then None else thread, s)
  end.
Definition scheduler_claim_ready_thread (cpu : Z) (exclude : Z * Z) (exclude_pid : Z)
    (background_only sleeping_only : bool) (s : SchedState) (e : E) : option Z * SchedState * E :=
  let '(fault, e) := kernel_fault_injection_should_fail KERNEL_FAULT_POINT_SCHEDULER_CLAIM e in
  if fault then (None, s, e)
  else with_lock process_lock None
    (claim_body cpu exclude exclude_pid background_only sleeping_only) s e.

Definition find_next_ready_thread (cpu : Z) (exclude : Z * Z) (s : SchedState) (e : E) :=
  with_lock process_lock None (find_next_ready_thread_unlocked cpu exclude 0 false false) s e.

(** The owner of the next ready thread; [find_next_ready_process],
    [find_next_background_ready_process] and [find_next_woken_process] differ in
    the flags. *)
Definition find_next_process (cpu exclude_pid : Z) (background_only sleeping_only : bool)
    (s : SchedState) (e : E) : option Z * SchedState * E :=
  with_lock process_lock None (fun s =>
    let '(thread, s) :=
      find_next_ready_thread_unlocked cpu (0, 0) exclude_pid background_only sleeping_only s in
    (match thread with Some i => th_owner (thread_at s i) | None => None end, s)) s e.
Definition find_next_ready_process (cpu exclude_pid : Z) := find_next_process cpu exclude_pid false false.
Definition find_next_background_ready_process (cpu exclude_pid : Z) :=
  find_next_process cpu exclude_pid true false.
Definition find_next_woken_process (cpu exclude_pid : Z) := find_next_process cpu exclude_pid false true.

Definition preempt_body (cpu i : Z) (s : SchedState) : bool * SchedState :=
  if negb (scheduler_state (context_at s i) =? SCHED_STATE_RUNNING) then (false, s)
  else if nonzero (timeslice_ticks (context_at s i)) then (false, s)
  else
    let '(next, s) := find_next_ready_thread_unlocked cpu (thread_identity s (Some i)) 0 false false s in
    (match next with Some _ => true | None => false end, s).
Definition scheduler_should_preempt_current (cpu : Z) (current : option Z) (s : SchedState) (e : E)
    : bool * SchedState * E :=
  match current with
  | None => (false, s, e)
  | Some i => if negb (th_has_context (thread_at s i)) then (false, s, e)
              else with_lock process_lock false (preempt_body cpu i) s e
  end.

Definition reschedule_body (cpu i : Z) (s : SchedState) : bool * SchedState :=
  if negb (scheduler_state (context_at s i) =? SCHED_STATE_RUNNING) then (false, s)
  else if negb (thread_cpu_eligible (thread_at s i) cpu) then (true, s)
  else
    let '(next, s) := find_next_ready_thread_unlocked cpu (thread_identity s (Some i)) 0 false false s in
    (match next with Some _ => true | None => false end, s).
Definition scheduler_should_reschedule_current (cpu : Z) (current : option Z) (s : SchedState) (e : E)
    : bool * SchedState * E :=
  match current with
  | None => (false, s, e)
  | Some i => if negb (th_has_context (thread_at s i)) then (false, s, e)
              else with_lock process_lock false (reschedule_body cpu i) s e
  end.
End Operations.
