(* ===== verification/SchedulerSpec.v ===== *)
(** * The run queue, claiming and waking

    The bounded queue holds each thread at most once and none that runs on a
    CPU; claiming takes the first thread that may run; signalling wakes the
    thread that has waited longest. *)

From S2P Require Import Prelude KernelEnv RingBuffer Scheduler.

Ltac sched_consts := unfold THREAD_TABLE_SIZE, SCHED_QUEUE_SIZE in *.

(** ** The invariant *)

Definition run_queue (s : SchedState) : list (option Z) :=
  ring SCHED_QUEUE_SIZE (sched_queue_head s) (sched_queue_count s) (sched_queue s).
Definition is_thread (i : Z) : Prop := 0 <= i < THREAD_TABLE_SIZE.
Definition runs_nowhere (s : SchedState) (i : Z) : Prop :=
  running_cpu (thread_at s i) = THREAD_CPU_INVALID.

Record sched_inv (s : SchedState) : Prop := {
  si_threads : alen (thread_table s) = THREAD_TABLE_SIZE;
  si_context : forall i, is_thread i -> th_has_context (thread_at s i) = true;
  si_queue : alen (sched_queue s) = SCHED_QUEUE_SIZE;
  si_head : 0 <= sched_queue_head s < SCHED_QUEUE_SIZE;
  si_count : 0 <= sched_queue_count s <= SCHED_QUEUE_SIZE;
  si_nodup : NoDup (run_queue s);
  si_queued : forall x, x ∈ run_queue s -> exists i, x = Some i /\ is_thread i /\ runs_nowhere s i;
}.

Lemma run_queue_length s : sched_inv s -> Z.of_nat (length (run_queue s)) = sched_queue_count s.
Proof. intros []. unfold run_queue. rewrite ring_length by lia. lia. Qed.

Lemma queue_cell_ring s i : sched_inv s -> 0 <= i < SCHED_QUEUE_SIZE ->
  queue_cell s i = cell SCHED_QUEUE_SIZE (sched_queue_head s) i.
Proof. intros [] Hi. unfold queue_cell, cell. sched_consts. by unwrap. Qed.

Lemma queue_at s i : sched_inv s -> 0 <= i < sched_queue_count s ->
  run_queue s !! Z.to_nat i = Some (aget (sched_queue s) (queue_cell s i)).
Proof.
  intros Hs Hi. pose proof (si_count _ Hs). rewrite queue_cell_ring by (done || lia).
  by apply ring_lookup.
Qed.

Lemma queue_elem s x : sched_inv s -> x ∈ run_queue s <->
  exists i, 0 <= i < sched_queue_count s /\ aget (sched_queue s) (queue_cell s i) = x.
Proof.
  intros Hs. pose proof (run_queue_length s Hs) as Hl. split.
  - intros [k Hk]%list_elem_of_lookup. pose proof (lookup_lt_Some _ _ _ Hk). exists (Z.of_nat k).
    split; [lia|]. pose proof (queue_at s (Z.of_nat k) Hs ltac:(lia)) as Hq.
    rewrite Nat2Z.id, Hk in Hq. by injection Hq.
  - intros (i & Hi & <-). eapply list_elem_of_lookup_2. by apply queue_at.
Qed.

Lemma queue_contains s i : sched_inv s ->
  scheduler_queue_contains s i = true <-> Some i ∈ run_queue s.
Proof.
  intros Hs. rewrite queue_elem by done. unfold scheduler_queue_contains. split.
  - destruct (find_first _ _ _) as [k|] eqn:Hf; [|done]. intros _.
    apply find_first_Some in Hf as (Hk & Hp & _). exists k. split; [lia|].
    by apply bool_decide_eq_true in Hp.
  - intros (k & Hk & He).
    destruct (find_first_is_Some (fun k => bool_decide (aget (sched_queue s) (queue_cell s k) = Some i))
      0 (Z.to_nat (sched_queue_count s)) k) as [? ->]; [lia | by apply bool_decide_eq_true | done].
Qed.

(** ** Steps that leave the queue alone *)

(** [s'] has the queue, the placements and the contexts of [s]. *)
Record same_queue (s s' : SchedState) : Prop := {
  sq_queue : sched_queue s' = sched_queue s;
  sq_head : sched_queue_head s' = sched_queue_head s;
  sq_count : sched_queue_count s' = sched_queue_count s;
  sq_threads : alen (thread_table s') = alen (thread_table s);
  sq_placed : forall i, running_cpu (thread_at s' i) = running_cpu (thread_at s i);
  sq_context : forall i, th_has_context (thread_at s' i) = th_has_context (thread_at s i);
}.

#[export] Instance same_queue_preorder : PreOrder same_queue.
Proof.
  split; [constructor; done|]. intros a b c [] []. constructor; intros; congruence.
Qed.

Lemma same_queue_run s s' : same_queue s s' -> run_queue s' = run_queue s.
Proof. intros []. unfold run_queue. congruence. Qed.

Lemma same_queue_inv s s' : same_queue s s' -> sched_inv s -> sched_inv s'.
Proof.
  intros Hq []. pose proof (same_queue_run _ _ Hq) as Hr. destruct Hq.
  constructor; rewrite ?Hr; try congruence.
  - intros i Hi. rewrite sq_context0. auto.
  - intros x (i & -> & Hi & Hp)%si_queued0. exists i. unfold runs_nowhere. by rewrite sq_placed0.
Qed.

(** Updating one thread. *)
Lemma aget_update {A} `{Inhabited A} (l : list A) i j f :
  aget (aset l i (f (aget l i))) j = f (aget l j) \/ aget (aset l i (f (aget l i))) j = aget l j.
Proof.
  unfold aget, aset. rewrite !nth_lookup.
  destruct (decide (Z.to_nat i = Z.to_nat j)) as [He|Hne]; [|rewrite list_lookup_insert_ne; auto].
  rewrite He. destruct (decide (Z.to_nat j < length l)%nat).
  - left. by rewrite list_lookup_insert_eq by lia.
  - right. by rewrite list_insert_ge by lia.
Qed.

Lemma thread_upd s i f : is_thread i -> alen (thread_table s) = THREAD_TABLE_SIZE ->
  thread_at (upd_thread i f s) i = f (thread_at s i).
Proof. intros Hi Hl. unfold thread_at, upd_thread. simpl. rewrite aget_aset_eq; [done|]. by rewrite Hl. Qed.
Lemma thread_upd_ne s i j f : is_thread i -> is_thread j -> i <> j ->
  thread_at (upd_thread i f s) j = thread_at s j.
Proof. intros [] [] Hn. unfold thread_at, upd_thread. simpl. by rewrite aget_aset_ne. Qed.

Lemma upd_thread_same s i f : (forall t, running_cpu (f t) = running_cpu t) ->
  (forall t, th_has_context (f t) = th_has_context t) -> same_queue s (upd_thread i f s).
Proof.
  intros Hr Hc. constructor; try done; [simpl; by rewrite alen_aset | |]; intros j;
    unfold upd_thread, thread_at; simpl;
    destruct (aget_update (thread_table s) i j f) as [-> | ->]; auto.
Qed.

Lemma upd_context_same s i f : same_queue s (upd_context i f s).
Proof. by apply upd_thread_same. Qed.
#[export] Hint Resolve upd_context_same : kernel.

Lemma find_thread_is s p i : find_thread p s = Some i -> is_thread i /\ p (thread_at s i) = true.
Proof. intros (Hi & Hp & _)%find_first_Some. sched_consts. split; [unfold is_thread; sched_consts; lia | done]. Qed.

(** ** Removing *)

Lemma foldl_filter {A B} (f : A -> B) (b : B -> bool) (P : B -> Prop) `{forall x, Decision (P x)}
    l acc : (forall x, b x = true <-> P x) ->
  foldl (fun acc k => if b (f k) then acc ++ [f k] else acc) acc l = acc ++ filter P (f <$> l).
Proof.
  intros Hb. revert acc.
  induction l as [|x l IH]; intros acc; cbn [foldl fmap list_fmap]; [by rewrite app_nil_r|].
  rewrite IH, filter_cons. specialize (Hb (f x)). destruct (b (f x)).
  - rewrite decide_True by (by apply Hb). by rewrite <- app_assoc.
  - rewrite decide_False; [done|]. intros Hp. by apply Hb in Hp.
Qed.

Lemma compact_queue_filter s i : sched_inv s ->
  compact_queue s i = filter (fun x => x <> Some i) (run_queue s).
Proof.
  intros Hs. pose proof (si_count _ Hs). unfold compact_queue, for_range, run_queue, ring.
  rewrite Z.sub_0_r.
  pose proof (foldl_filter (fun k => aget (sched_queue s) (queue_cell s k))
    (fun x => bool_decide (x <> Some i)) (fun x => x <> Some i) (seqZ 0 (sched_queue_count s)) []
    (fun x => bool_decide_eq_true _)) as Hf.
  etrans; [exact Hf|].
  cbn [app]. f_equal. apply list_fmap_ext. intros k x Hx. apply lookup_seqZ in Hx as [-> Hk].
  by rewrite queue_cell_ring by (done || lia).
Qed.

(** Copying a list over the front of an array and clearing the rest. *)
Lemma write_back {A} `{Inhabited A} (l c : list A) n z : alen l = n -> alen c <= n ->
  let q := for_range 0 (alen c) (fun k q => aset q k (aget c k)) l in
  let q := for_range (alen c) n (fun k q => aset q k z) q in
  alen q = n /\ ring n 0 (alen c) q = c.
Proof.
  intros Hl Hc. cbv zeta. pose proof (alen_nonneg c).
  set (q1 := for_range 0 (alen c) _ l).
  assert (alen q1 = n /\ forall j, 0 <= j < alen c -> aget q1 j = aget c j) as [Hl1 H1].
  { apply (for_range_inv (fun i q => alen q = n /\ forall j, 0 <= j < i -> aget q j = aget c j));
      [lia | split; [done | lia] |].
    intros i q Hi [A1 A2]. split; [by rewrite alen_aset|]. intros j Hj.
    rewrite aget_aset by lia. case_decide; [by subst | apply A2; lia]. }
  clearbody q1. set (q2 := for_range (alen c) n _ q1).
  assert (alen q2 = n /\ forall j, 0 <= j < alen c -> aget q2 j = aget c j) as [Hl2 H2].
  { apply (for_range_inv (fun _ q => alen q = n /\ forall j, 0 <= j < alen c -> aget q j = aget c j));
      [lia | done |].
    intros i q Hi [A1 A2]. split; [by rewrite alen_aset|]. intros j Hj.
    rewrite aget_aset_ne by lia. by apply A2. }
  split; [done|]. apply list_eq. intros k.
  destruct (decide (k < length c)%nat) as [Hk|Hk].
  - rewrite <- (Nat2Z.id k). unfold alen in *.
    rewrite ring_lookup, (lookup_aget c) by (unfold alen; lia).
    unfold cell. rewrite Z.add_0_l, Z.mod_small, H2 by lia. done.
  - rewrite !lookup_ge_None_2; [done | lia |]. rewrite ring_length by done. unfold alen. lia.
Qed.

Lemma remove_ok s i : sched_inv s ->
  let s' := scheduler_remove_unlocked (Some i) s in
  sched_inv s' /\ run_queue s' = filter (fun x => x <> Some i) (run_queue s) /\
  thread_table s' = thread_table s /\ process_table s' = process_table s.
Proof.
  intros Hs. cbv zeta. unfold scheduler_remove_unlocked. destruct (sched_queue_count s =? 0) eqn:Hz.
  { bprop. assert (run_queue s = []) as Hq by (unfold run_queue; by rewrite Hz). by rewrite Hq. }
  pose proof (compact_queue_filter s i Hs) as Hc. set (c := compact_queue s i) in *. clearbody c.
  assert (alen c <= SCHED_QUEUE_SIZE) as Hlen.
  { rewrite Hc. unfold alen. pose proof (length_filter (fun x => x <> Some i) (run_queue s)).
    pose proof (run_queue_length s Hs). pose proof (si_count _ Hs). lia. }
  destruct (write_back (sched_queue s) c SCHED_QUEUE_SIZE None (si_queue _ Hs) Hlen) as [Hl Hr].
  set (s' := _ <| sched_queue_count := _ |>).
  assert (run_queue s' = c) as Hrun by exact Hr.
  split; [|by rewrite Hrun]. destruct Hs. constructor; rewrite ?Hrun; try done.
  - change (0 <= alen c <= SCHED_QUEUE_SIZE). pose proof (alen_nonneg c). lia.
  - rewrite Hc. by apply NoDup_filter.
  - intros x. rewrite Hc, list_elem_of_filter. intros [_ Hx]. by apply si_queued0.
Qed.

(** ** Enqueueing *)

(** The queue never overflows: when it is full every thread is in it. *)
Lemma full_queue_all s i : sched_inv s -> sched_queue_count s = SCHED_QUEUE_SIZE -> is_thread i ->
  Some i ∈ run_queue s.
Proof.
  intros Hs Hfull Hi. pose proof (run_queue_length s Hs) as Hl. destruct Hs.
  destruct (decide (Some i ∈ run_queue s)) as [|Hn]; [done|]. exfalso.
  assert ((Some i :: run_queue s) ⊆+ (Some <$> seqZ 0 THREAD_TABLE_SIZE)) as Hsub.
  { apply NoDup_submseteq; [by apply NoDup_cons|]. intros x. rewrite list_elem_of_fmap.
    intros [->|(j & -> & Hj & _)%si_queued0]%elem_of_cons; eexists; (split; [done|]);
      apply elem_of_seqZ; unfold is_thread in *; lia. }
  apply submseteq_length in Hsub. rewrite length_fmap, length_seqZ in Hsub. simpl in Hsub.
  sched_consts. lia.
Qed.

Definition may_queue (s : SchedState) (t : Thread) : bool :=
  th_has_context t && nonzero (th_active t) && owner_active s t
  && (running_cpu t =? THREAD_CPU_INVALID).

(** What enqueueing does: nothing, a new time slice, or a place at the end. *)
Lemma enqueue_ok s i : sched_inv s -> is_thread i ->
  let s' := scheduler_enqueue_unlocked (Some i) s in
  sched_inv s' /\ (forall j, running_cpu (thread_at s' j) = running_cpu (thread_at s j)) /\
  (forall j, is_thread j -> j <> i -> thread_at s' j = thread_at s j) /\
  (run_queue s' = run_queue s \/
   ((Some i ∉ run_queue s) /\ run_queue s' = run_queue s ++ [Some i])) /\
  (may_queue s (thread_at s i) = true -> Some i ∈ run_queue s').
Proof.
  intros Hs Hi. cbv zeta. unfold scheduler_enqueue_unlocked, may_queue.
  assert (forall f, same_queue s (upd_context i f s)) as Hsame by (intros; apply upd_context_same).
  destruct (negb _ || _ || _) eqn:Hg.
  { split; [done|]. split; [done|]. split; [done|]. split; [by left|]. intros Hm. exfalso.
    unfold nonzero in Hm.
    by destruct (th_has_context _), (th_active _ =? 0), (owner_active _ _). }
  destruct (scheduler_queue_contains s i) eqn:Hin.
  { apply queue_contains in Hin; [|done].
    destruct (_ && _); [|split; [done|]; split; [done|]; split; [done|]; split; [by left | done]].
    rewrite (same_queue_run _ _ (Hsame _)).
    split; [eapply same_queue_inv; [apply Hsame | done]|].
    split; [intros j; apply (sq_placed _ _ (Hsame _))|].
    split; [intros j Hj Hne; by apply thread_upd_ne|]. split; [by left | done]. }
  assert (Some i ∉ run_queue s) as Hnin.
  { intros Hc. apply queue_contains in Hc; [congruence | done]. }
  assert (sched_queue_count s < SCHED_QUEUE_SIZE) as Hroom.
  { pose proof (si_count _ Hs). destruct (decide (sched_queue_count s = SCHED_QUEUE_SIZE)); [|lia].
    by destruct Hnin; apply full_queue_all. }
  rewrite (proj2 (Z.leb_gt _ _) Hroom). cbn [orb].
  destruct (running_cpu (thread_at s i) =? THREAD_CPU_INVALID) eqn:Hcpu; cbn [negb].
  2: { split; [done|]. split; [done|]. split; [done|]. split; [by left|]. intros Hm. bprop. done. }
  set (s1 := _ <| sched_queue_count := _ |>).
  assert (run_queue s1 = run_queue s ++ [Some i]) as Hrun.
  { unfold s1, run_queue. simpl. pose proof (si_count _ Hs). pose proof (si_head _ Hs).
    sched_consts. rewrite !u32_small by (unfold is_u32; lia).
    apply (ring_push 128); [lia | lia | apply (si_queue _ Hs)]. }
  assert (sched_inv s1) as Hs1.
  { destruct Hs. constructor; rewrite ?Hrun; try done.
    - simpl. by rewrite alen_aset.
    - simpl. sched_consts. unwrap. lia.
    - apply NoDup_app. split; [done|]. split; [|apply NoDup_singleton].
      intros x Hx ->%list_elem_of_singleton. done.
    - intros x [Hx| ->%list_elem_of_singleton]%elem_of_app; [by apply si_queued0|].
      exists i. bprop. done. }
  set (s2 := emit _ _).
  assert (same_queue s1 s2) as Hq by (etrans; [apply upd_context_same | constructor; done]).
  assert (forall j, is_thread j -> j <> i -> thread_at s2 j = thread_at s j) as Hoth.
  { intros j Hj Hne. unfold s2. change (thread_at s j) with (thread_at s1 j). by apply thread_upd_ne. }
  split; [by eapply same_queue_inv|]. split; [intros j; by rewrite (sq_placed _ _ Hq)|].
  split; [done|]. rewrite (same_queue_run _ _ Hq), Hrun. split; [by right|].
  intros _. apply elem_of_app. right. by apply list_elem_of_singleton.
Qed.

(** ** Signalling *)

(** No thread changes CPU and the invariant is kept. *)
Definition keeps_place (s s' : SchedState) : Prop :=
  sched_inv s' /\ forall j, running_cpu (thread_at s' j) = running_cpu (thread_at s j).

Lemma keeps_place_refl s : sched_inv s -> keeps_place s s.
Proof. by split. Qed.
Lemma keeps_place_trans s1 s2 s3 : keeps_place s1 s2 -> keeps_place s2 s3 -> keeps_place s1 s3.
Proof. intros [_ H1] [H2 H3]. split; [done|]. intros j. by rewrite H3. Qed.
Lemma same_queue_keeps s s' : sched_inv s -> same_queue s s' -> keeps_place s s'.
Proof. intros Hs Hq. split; [by eapply same_queue_inv | apply Hq]. Qed.
Lemma enqueue_keeps s i : sched_inv s -> is_thread i ->
  keeps_place s (scheduler_enqueue_unlocked (Some i) s).
Proof. intros Hs Hi. destruct (enqueue_ok s i Hs Hi) as (A & B & _). by split. Qed.
Lemma remove_keeps s i : sched_inv s -> keeps_place s (scheduler_remove_unlocked (Some i) s).
Proof.
  intros Hs. destruct (remove_ok s i Hs) as (A & _ & B & _). split; [done|].
  intros j. unfold thread_at. by rewrite B.
Qed.
#[export] Hint Resolve keeps_place_refl enqueue_keeps remove_keeps : kernel.

(** What a context update leaves of a thread. *)
Definition th_fixed (t : Thread) :=
  (th_tid t, th_generation t, th_owner t, th_active t, th_has_context t, running_cpu t,
   affinity_mask t).

Lemma upd_fixed s i j f : (forall t, th_fixed (f t) = th_fixed t) ->
  th_fixed (thread_at (upd_thread i f s) j) = th_fixed (thread_at s j).
Proof.
  intros Hf. unfold upd_thread, thread_at. simpl.
  destruct (aget_update (thread_table s) i j f) as [-> | ->]; auto.
Qed.
Lemma upd_other_context s i j f : (forall t, th_context (f t) = th_context t) ->
  context_at (upd_thread i f s) j = context_at s j.
Proof.
  intros Hf. unfold context_at, upd_thread, thread_at. simpl.
  destruct (aget_update (thread_table s) i j f) as [-> | ->]; auto.
Qed.
Lemma context_upd s i f : is_thread i -> alen (thread_table s) = THREAD_TABLE_SIZE ->
  context_at (upd_context i f s) i = f (context_at s i).
Proof. intros Hi Hl. unfold context_at, upd_context. by rewrite thread_upd. Qed.
Lemma context_upd_ne s i j f : is_thread i -> is_thread j -> i <> j ->
  context_at (upd_context i f s) j = context_at s j.
Proof. intros Hi Hj Hn. unfold context_at, upd_context. by rewrite thread_upd_ne. Qed.

Lemma may_queue_fixed s s' t t' : process_table s' = process_table s -> th_fixed t' = th_fixed t ->
  may_queue s' t' = may_queue s t.
Proof.
  unfold th_fixed. intros Hp [=]. unfold may_queue, owner_active, process_at.
  by rewrite Hp, H2, H3, H4, H5.
Qed.
Lemma owner_active_fixed s s' t t' : process_table s' = process_table s -> th_fixed t' = th_fixed t ->
  owner_active s' t' = owner_active s t.
Proof. unfold th_fixed. intros Hp [=]. unfold owner_active, process_at. by rewrite Hp, H2. Qed.

(** Only the context of thread [i] changed, and no thread changed CPU. *)
Record touches (i : Z) (s s' : SchedState) : Prop := {
  to_keeps : keeps_place s s';
  to_processes : process_table s' = process_table s;
  to_fixed : forall j, th_fixed (thread_at s' j) = th_fixed (thread_at s j);
  to_others : forall j, is_thread j -> j <> i -> context_at s' j = context_at s j;
}.

Lemma touches_refl i s : sched_inv s -> touches i s s.
Proof. intros Hs. by constructor. Qed.
Lemma touches_trans i s1 s2 s3 : touches i s1 s2 -> touches i s2 s3 -> touches i s1 s3.
Proof.
  intros [] []. constructor; [by eapply keeps_place_trans | congruence | congruence |].
  intros j Hj Hne. rewrite to_others1 by done. auto.
Qed.
Lemma touches_upd i s f : sched_inv s -> is_thread i -> touches i s (upd_context i f s).
Proof.
  intros Hs Hi. constructor.
  - apply same_queue_keeps; [done | apply upd_context_same].
  - done.
  - intros j. by apply upd_fixed.
  - intros j Hj Hne. by apply context_upd_ne.
Qed.
Lemma touches_inv i s s' : touches i s s' -> sched_inv s'.
Proof. by intros [[? _] _ _ _]. Qed.

Lemma touches_enqueue i s : sched_inv s -> is_thread i ->
  touches i s (scheduler_enqueue_unlocked (Some i) s) /\
  exists st ticks, (st = scheduler_state (context_at s i) \/ st = SCHED_STATE_READY) /\
    context_at (scheduler_enqueue_unlocked (Some i) s) i
    = (context_at s i) <| scheduler_state := st |> <| timeslice_ticks := ticks |>.
Proof.
  intros Hs Hi. destruct (enqueue_ok s i Hs Hi) as (A & B & C & _).
  assert (forall j, is_thread j -> j <> i ->
    context_at (scheduler_enqueue_unlocked (Some i) s) j = context_at s j) as Ho.
  { intros j Hj Hne. unfold context_at. by rewrite C. }
  assert (exists st ticks, (st = scheduler_state (context_at s i) \/ st = SCHED_STATE_READY) /\
    context_at s i = (context_at s i) <| scheduler_state := st |> <| timeslice_ticks := ticks |>) as Hid.
  { exists (scheduler_state (context_at s i)), (timeslice_ticks (context_at s i)).
    split; [by left|]. by destruct (context_at s i). }
  split; [constructor; [by split | | | done]|].
  - unfold scheduler_enqueue_unlocked. repeat case_match; done.
  - intros j. unfold scheduler_enqueue_unlocked. repeat case_match; try done;
      match goal with |- context [upd_context i ?f ?x] =>
        change (th_fixed (thread_at (upd_context i f x) j) = th_fixed (thread_at x j)) end;
      by apply upd_fixed.
  - unfold scheduler_enqueue_unlocked.
    destruct (_ || _); [done|]. destruct (scheduler_queue_contains s i).
    + destruct (_ && _); [|done].
      exists (scheduler_state (context_at s i)), (thread_quantum (thread_at s i)). split; [by left|].
      rewrite context_upd by (done || apply Hs). by destruct (context_at s i).
    + destruct (_ || _); [done|]. exists SCHED_STATE_READY, (thread_quantum (thread_at s i)).
      split; [by right|]. 
      match goal with |- context [upd_context i ?f ?x] =>
        change (context_at (upd_context i f x) i = f (context_at x i)) end.
      apply context_upd; [done | exact (si_threads _ Hs)].
Qed.

Lemma join_release_ok s i : sched_inv s ->
  touches i s (thread_join_release_claim_unlocked i s) /\
  context_at (thread_join_release_claim_unlocked i s) i = context_at s i.
Proof.
  intros Hs. unfold thread_join_release_claim_unlocked.
  destruct (_ || _); [by split; [apply touches_refl|]|].
  destruct (find_thread _ s); [|by split; [apply touches_refl|]].
  split; [|by apply upd_other_context]. constructor; [|done | |].
  - apply same_queue_keeps; [done | by apply upd_thread_same].
  - intros j. by apply upd_fixed.
  - intros j _ _. by apply upd_other_context.
Qed.

(** The whole effect of a successful signal. *)
Lemma signal_ok s i reason result : sched_inv s -> is_thread i ->
  nonzero (wait_pending (context_at s i)) = true -> wait_reason (context_at s i) = reason ->
  let r := thread_wait_signal_unlocked (Some i) reason result s in
  r.1 = 1 /\ touches i s r.2 /\
  wait_pending (context_at r.2 i) = 0 /\ wait_result (context_at r.2 i) = result /\
  (nonzero (th_active (thread_at s i)) && owner_active s (thread_at s i) = true ->
   scheduler_state (context_at r.2 i) = SCHED_STATE_READY /\
   (runs_nowhere s i -> nonzero (resumable (context_at s i)) = true -> Some i ∈ run_queue r.2)).
Proof.
  intros Hs Hi Hp Hr. cbv zeta. unfold thread_wait_signal_unlocked.
  change (th_context (thread_at s i)) with (context_at s i).
  unfold nonzero in Hp. apply negb_true_iff in Hp.
  rewrite (si_context _ Hs i Hi), Hr, Z.eqb_refl, Hp. cbn [negb orb].
  set (s1 := if _ && _ then thread_join_release_claim_unlocked i s else s).
  assert (touches i s s1 /\ context_at s1 i = context_at s i) as [H1 Hc1].
  { unfold s1. destruct (_ && _); [by apply join_release_ok | by split; [apply touches_refl|]]. }
  clearbody s1. pose proof (touches_inv _ _ _ H1) as Hs1.
  match goal with |- context [upd_context i ?f s1] =>
    pose proof (touches_upd i s1 f Hs1 Hi) as H2;
    pose proof (context_upd s1 i f Hi (si_threads _ Hs1)) as Hc2;
    set (s2 := upd_context i f s1) in * end.
  clearbody s2. rewrite Hc1 in Hc2. pose proof (touches_trans _ _ _ _ H1 H2) as H12.
  pose proof (touches_inv _ _ _ H2) as Hs2.
  rewrite (owner_active_fixed s s2 (thread_at s i) (thread_at s2 i)) by apply H12.
  assert (th_active (thread_at s2 i) = th_active (thread_at s i)) as ->.
  { pose proof (to_fixed _ _ _ H12 i) as Hf. unfold th_fixed in Hf. congruence. }
  destruct (nonzero (th_active (thread_at s i)) && owner_active s (thread_at s i)) eqn:Hact.
  2: { cbn [fst snd]. rewrite Hc2. by split_and!. }
  match goal with |- context [upd_context i ?f s2] =>
    pose proof (touches_upd i s2 f Hs2 Hi) as H3;
    pose proof (context_upd s2 i f Hi (si_threads _ Hs2)) as Hc3;
    set (s3 := upd_context i f s2) in * end.
  clearbody s3. rewrite Hc2 in Hc3. pose proof (touches_trans _ _ _ _ H12 H3) as H123.
  pose proof (touches_inv _ _ _ H3) as Hs3. cbn [fst snd]. split; [done|].
  assert (resumable (context_at s3 i) = resumable (context_at s i)) as -> by (by rewrite Hc3).
  destruct (nonzero (resumable (context_at s i))).
  2: { split; [done|]. rewrite Hc3. by split_and!. }
  destruct (touches_enqueue i s3 Hs3 Hi) as (H4 & st & ticks & Hst & Hc4).
  split; [by eapply touches_trans|]. rewrite Hc4, Hc3. split; [done|]. split; [done|]. intros _.
  split; [rewrite Hc3 in Hst; simpl; by destruct Hst as [-> | ->]|]. intros Hn _.
  destruct (enqueue_ok s3 i Hs3 Hi) as (_ & _ & _ & _ & Hin). apply Hin.
  rewrite (may_queue_fixed s s3 (thread_at s i)) by apply H123. unfold may_queue.
  rewrite (si_context _ Hs i Hi), Hn, Z.eqb_refl, andb_true_r. exact Hact.
Qed.

(** The scan finds a candidate of smallest sequence number when there is one. *)
Lemma select_oldest_ok p s :
  match select_oldest p s with
  | None => forall j, is_thread j -> p (thread_at s j) = false
  | Some i => is_thread i /\ p (thread_at s i) = true /\
      forall j, is_thread j -> p (thread_at s j) = true ->
        wait_sequence (context_at s i) <= wait_sequence (context_at s j)
  end.
Proof.
  unfold select_oldest.
  apply (for_range_inv (fun k sel =>
    match sel with
    | None => forall j, 0 <= j < k -> p (thread_at s j) = false
    | Some i => is_thread i /\ p (thread_at s i) = true /\
        forall j, 0 <= j < k -> p (thread_at s j) = true ->
          wait_sequence (context_at s i) <= wait_sequence (context_at s j)
    end)); [done | lia |].
  intros k sel Hk Hsel. destruct (p (thread_at s k)) eqn:Hp; cbn [negb].
  - destruct sel as [i|].
    + destruct Hsel as (Hi & Hpi & Hmin). destruct (_ <? _) eqn:Hlt; bprop.
      * split; [done|]. split; [done|]. intros j Hj Hpj.
        destruct (decide (j = k)) as [->|]; [lia|]. specialize (Hmin j ltac:(lia) Hpj). lia.
      * split; [done|]. split; [done|]. intros j Hj Hpj.
        destruct (decide (j = k)) as [->|]; [lia|]. apply Hmin; [lia | done].
    + split; [done|]. split; [done|]. intros j Hj Hpj.
      destruct (decide (j = k)) as [->|]; [lia|]. rewrite Hsel in Hpj by lia. done.
  - destruct sel as [i|].
    + destruct Hsel as (Hi & Hpi & Hmin). split; [done|]. split; [done|]. intros j Hj Hpj.
      destruct (decide (j = k)) as [->|]; [congruence|]. apply Hmin; [lia | done].
    + intros j Hj. destruct (decide (j = k)) as [->|]; [done|]. apply Hsel. lia.
Qed.

(** ** Claiming *)

Lemma upd_thread_id i f s : f (thread_at s i) = thread_at s i -> upd_thread i f s = s.
Proof.
  intros Hf. unfold upd_thread. rewrite Hf. unfold thread_at.
  assert (aset (thread_table s) i (aget (thread_table s) i) = thread_table s) as ->.
  { unfold aset, aget. rewrite nth_lookup.
    destruct (thread_table s !! Z.to_nat i) as [t|] eqn:Ht; simpl; [by apply list_insert_id|].
    apply lookup_ge_None in Ht. by rewrite list_insert_ge by lia. }
  by destruct s.
Qed.

Lemma thread_emit ev s j : thread_at (emit ev s) j = thread_at s j.
Proof. done. Qed.
Lemma thread_counters s pid n j :
  thread_at (s <| sched_last_pid := pid |> <| sched_switch_count := n |>) j = thread_at s j.
Proof. done. Qed.

Lemma len_upd i f s : alen (thread_table (upd_thread i f s)) = alen (thread_table s).
Proof. apply alen_aset. Qed.
Lemma len_emit ev s : alen (thread_table (emit ev s)) = alen (thread_table s).
Proof. done. Qed.
Lemma len_counters s pid n :
  alen (thread_table (s <| sched_last_pid := pid |> <| sched_switch_count := n |>)) = alen (thread_table s).
Proof. done. Qed.

Lemma claim_cpu_ok s i cpu : sched_inv s -> is_thread i -> Some i ∉ run_queue s ->
  let r := thread_claim_cpu_unlocked i cpu s in
  (r.1 = 0 /\ r.2 = s /\ (runs_nowhere s i -> thread_cpu_eligible (thread_at s i) cpu = false)) \/
  (r.1 = 1 /\ runs_nowhere s i /\ thread_cpu_eligible (thread_at s i) cpu = true /\
   sched_inv r.2 /\ run_queue r.2 = run_queue s /\
   running_cpu (thread_at r.2 i) = cpu /\
   scheduler_state (context_at r.2 i) = SCHED_STATE_RUNNING /\
   forall j, is_thread j -> j <> i -> thread_at r.2 j = thread_at s j).
Proof.
  intros Hs Hi Hn. cbv zeta. unfold thread_claim_cpu_unlocked.
  rewrite (si_context _ Hs i Hi). cbn [negb orb]. unfold runs_nowhere.
  destruct (running_cpu (thread_at s i) =? THREAD_CPU_INVALID) eqn:Hcpu; bprop; cbn [negb orb].
  2: { left. split; [done|]. split; [done|]. congruence. }
  destruct (thread_cpu_eligible (thread_at s i) cpu) eqn:Hel; cbn [negb].
  2: { left. done. }
  right. cbn [fst snd].
  set (s1 := if _ && _ then _ else s).
  assert (exists n, s1 = upd_thread i (fun t => t <| migration_count := n t |>) s) as [n Hs1].
  { unfold s1. destruct (_ && _); [by exists (fun t => u32 (migration_count t + 1))|].
    exists migration_count. symmetry. apply upd_thread_id. by destruct (thread_at s i). }
  clearbody s1. subst s1.
  set (s2 := upd_thread i _ (upd_thread i _ s)). set (s3 := emit _ _).
  assert (forall j, is_thread j -> j <> i -> thread_at s3 j = thread_at s j) as Hoth.
  { intros j Hj Hne. unfold s3, s2, upd_context. rewrite thread_emit.
    do 2 (rewrite thread_upd_ne by done; rewrite ?thread_counters). by rewrite !thread_upd_ne. }
  assert (alen (thread_table s) = THREAD_TABLE_SIZE) as Hl by apply Hs.
  assert (thread_at s3 i = (thread_at s i) <| migration_count := n (thread_at s i) |>
    <| running_cpu := cpu |> <| last_cpu := cpu |> <| th_context := th_context (thread_at s3 i) |> /\
    scheduler_state (context_at s3 i) = SCHED_STATE_RUNNING) as [Hat Hst].
  { unfold context_at, s3, s2, upd_context. rewrite thread_emit.
    rewrite thread_upd, thread_counters, !thread_upd; try done;
      by rewrite ?len_counters, ?len_upd. }
  assert (run_queue s3 = run_queue s) as Hq by done.
  split; [done|]. split; [done|]. split; [done|]. split; [|split; [done|]; split; [by rewrite Hat | done]].
  pose proof Hs as [A B C D F G H]. constructor; rewrite ?Hq; try done.
  - unfold s3, s2, upd_context. by rewrite len_emit, len_upd, len_counters, !len_upd.
  - intros j Hj. destruct (decide (j = i)) as [->|Hne]; [rewrite Hat; simpl; auto | rewrite Hoth; auto].
  - intros x Hx. destruct (H x Hx) as (j & -> & Hj & Hr). exists j. split; [done|]. split; [done|].
    unfold runs_nowhere. rewrite Hoth; [done | done |]. by intros ->.
Qed.

(** The first thread of the queue a test accepts. *)
Definition first_queued (p : Thread -> bool) (s : SchedState) (i : Z) : Prop :=
  exists k, run_queue s !! k = Some (Some i) /\
    forall j i', (j < k)%nat -> run_queue s !! j = Some (Some i') -> p (thread_at s i') = false.
(** No queued thread passes; the first of the table that does. *)
Definition first_unqueued (p : Thread -> bool) (s : SchedState) (i : Z) : Prop :=
  (forall j, Some j ∈ run_queue s -> p (thread_at s j) = false) /\
  forall j, 0 <= j < i -> p (thread_at s j) = false.

Lemma find_next_ok cpu ex pid bg sl s : sched_inv s ->
  let p := thread_ready cpu ex pid bg sl s in
  let r := find_next_ready_thread_unlocked cpu ex pid bg sl s in
  match r.1 with
  | None => r.2 = s /\ forall j, is_thread j -> p (thread_at s j) = false
  | Some i => is_thread i /\ p (thread_at s i) = true /\
      ((first_queued p s i /\ r.2 = s) \/
       (first_unqueued p s i /\ r.2 = scheduler_enqueue_unlocked (Some i) s))
  end.
Proof.
  intros Hs p. cbv zeta. unfold find_next_ready_thread_unlocked. fold p.
  pose proof (si_count _ Hs) as Hc.
  set (test := fun i => match aget (sched_queue s) (queue_cell s i) with
    | None => false | Some j => p (thread_at s j) end).
  change (find_first (fun i => match aget (sched_queue s) (queue_cell s i) with
    | None => false | Some j => thread_ready cpu ex pid bg sl s (thread_at s j) end))
    with (find_first test).
  destruct (find_first test 0 (Z.to_nat (sched_queue_count s))) as [k|] eqn:Hf.
  - apply find_first_Some in Hf as (Hk & Ht & Hbefore). cbn [fst snd]. unfold test in Ht.
    pose proof (queue_at s k Hs ltac:(lia)) as Hq.
    destruct (aget (sched_queue s) (queue_cell s k)) as [i|] eqn:Hi; [|done].
    destruct (si_queued _ Hs (Some i)) as (i' & [= <-] & Hit & _); [by eapply list_elem_of_lookup_2|].
    split; [done|]. split; [done|]. left. split; [|done]. exists (Z.to_nat k). split; [done|].
    intros j i' Hj Hq'. specialize (Hbefore (Z.of_nat j) ltac:(lia)). unfold test in Hbefore.
    pose proof (queue_at s (Z.of_nat j) Hs ltac:(lia)) as Hj'. rewrite Nat2Z.id, Hq' in Hj'.
    injection Hj' as Hj'. by rewrite <- Hj' in Hbefore.
  - assert (forall j, Some j ∈ run_queue s -> p (thread_at s j) = false) as Hnone.
    { intros j (k & Hk & Hq)%queue_elem; [|done].
      pose proof (find_first_None _ _ _ Hf k ltac:(lia)) as Ht. unfold test in Ht. by rewrite Hq in Ht. }
    change (find_thread (thread_ready cpu ex pid bg sl s) s) with (find_thread p s).
    destruct (find_thread p s) as [i|] eqn:Hft; cbn [fst snd].
    + pose proof Hft as [Hi Hp]%find_thread_is. split; [done|]. split; [done|]. right.
      split; [|done]. split; [done|]. by apply find_first_Some in Hft as (_ & _ & Hb).
    + split; [done|]. intros j Hj. apply (find_first_None _ _ _ Hft). unfold is_thread in Hj. sched_consts. lia.
Qed.

Lemma filter_snoc_other (l : list (option Z)) x :
  filter (fun y => y <> x) (l ++ [x]) = filter (fun y => y <> x) l.
Proof. rewrite filter_app, filter_cons_False by tauto. by rewrite app_nil_r. Qed.

Lemma ready_fixed cpu ex pid bg sl s t : thread_ready cpu ex pid bg sl s t = true ->
  running_cpu t = THREAD_CPU_INVALID /\ thread_cpu_eligible t cpu = true.
Proof. unfold thread_ready. intros H. bprop; done. Qed.

Lemma claim_body_ok cpu ex pid bg sl s : sched_inv s ->
  let p := thread_ready cpu ex pid bg sl s in
  let r := claim_body cpu ex pid bg sl s in
  match r.1 with
  | None => r.2 = s /\ forall j, is_thread j -> p (thread_at s j) = false
  | Some i => is_thread i /\ p (thread_at s i) = true /\
      (first_queued p s i \/ first_unqueued p s i) /\
      sched_inv r.2 /\ run_queue r.2 = filter (fun x => x <> Some i) (run_queue s) /\
      running_cpu (thread_at r.2 i) = cpu /\
      scheduler_state (context_at r.2 i) = SCHED_STATE_RUNNING /\
      forall j, is_thread j -> j <> i -> thread_at r.2 j = thread_at s j
  end.
Proof.
  intros Hs p. cbv zeta. unfold claim_body.
  pose proof (find_next_ok cpu ex pid bg sl s Hs) as Hfn. cbv zeta in Hfn. fold p in Hfn.
  destruct (find_next_ready_thread_unlocked cpu ex pid bg sl s) as [[i|] s1]; cbn [fst snd] in Hfn;
    [|exact Hfn].
  destruct Hfn as (Hi & Hp & Hcase).
  assert (sched_inv s1 /\ (forall j, is_thread j -> j <> i -> thread_at s1 j = thread_at s j) /\
    th_fixed (thread_at s1 i) = th_fixed (thread_at s i) /\
    filter (fun x => x <> Some i) (run_queue s1) = filter (fun x => x <> Some i) (run_queue s))
    as (Hs1 & Ho1 & Hf1 & Hq1).
  { destruct Hcase as [[_ ->]|[_ ->]]; [done|].
    destruct (enqueue_ok s i Hs Hi) as (A & _ & B & C & _).
    destruct (touches_enqueue i s Hs Hi) as (D & _). split; [done|]. split; [done|].
    split; [apply D|]. destruct C as [-> | [_ ->]]; [done | apply filter_snoc_other]. }
  destruct (remove_ok s1 i Hs1) as (Hs2 & Hq2 & Ht2 & Hp2). cbv zeta in *.
  set (s2 := scheduler_remove_unlocked (Some i) s1) in *. clearbody s2.
  assert (Some i ∉ run_queue s2) as Hn.
  { rewrite Hq2. intros [Hx _]%list_elem_of_filter. done. }
  assert (forall j, thread_at s2 j = thread_at s1 j) as Hat2 by (intros j; unfold thread_at; by rewrite Ht2).
  destruct (ready_fixed _ _ _ _ _ _ _ Hp) as [Hr He].
  pose proof (claim_cpu_ok s2 i cpu Hs2 Hi Hn) as Hcl. cbv zeta in Hcl.
  assert (runs_nowhere s2 i /\ thread_cpu_eligible (thread_at s2 i) cpu = true) as [Hr2 He2].
  { unfold runs_nowhere. rewrite Hat2. unfold th_fixed in Hf1. injection Hf1 as _ _ _ _ _ Hx Hy.
    unfold thread_cpu_eligible in *. rewrite Hx, Hy. done. }
  destruct (thread_claim_cpu_unlocked i cpu s2) as [ok s3]. cbn [fst snd] in *.
  destruct Hcl as [(_ & _ & Hbad)|(-> & _ & _ & Hs3 & Hq3 & Hc3 & Hst3 & Ho3)].
  { rewrite Hbad in He2 by done. done. }
  cbn [Z.eqb fst snd]. split; [done|]. split; [done|]. split; [destruct Hcase as [[? _]|[? _]]; auto|].
  split; [done|]. split; [by rewrite Hq3, Hq2, Hq1|]. split; [done|]. split; [done|].
  intros j Hj Hne. rewrite Ho3, Hat2, Ho1; done.
Qed.

(** ** Every operation *)

Definition ptr_ok (thread : option Z) : Prop :=
  match thread with None => True | Some i => is_thread i end.

(** One operation: the invariant holds after it, and a thread that runs on a CPU
    stays there or is released; only a thread that ran nowhere gets a CPU. *)
Definition step_ok (s s' : SchedState) : Prop :=
  sched_inv s' /\ forall i, is_thread i ->
    running_cpu (thread_at s' i) = running_cpu (thread_at s i) \/ runs_nowhere s i \/ runs_nowhere s' i.

Lemma keeps_step s s' : keeps_place s s' -> step_ok s s'.
Proof. intros [Hs Hk]. split; [done|]. intros i _. by left. Qed.

Lemma main_thread_ptr s p : ptr_ok (process_main_thread s p).
Proof.
  unfold process_main_thread. destruct p as [p|]; [|done]. destruct (_ =? 0); [done|].
  destruct (find_thread _ s) eqn:Hf; [|done]. by apply find_thread_is in Hf as [? _].
Qed.
Lemma wait_thread_ptr current s p : ptr_ok current -> ptr_ok (wait_thread_for_process current s p).
Proof.
  intros Hc. unfold wait_thread_for_process. destruct current as [i|]; [|apply main_thread_ptr].
  destruct (owned_by _ _); [done | apply main_thread_ptr].
Qed.
Lemma oldest_ptr p s : ptr_ok (select_oldest p s).
Proof. pose proof (select_oldest_ok p s) as Ho. destruct (select_oldest p s); [apply Ho | done]. Qed.

Lemma upd_keeps s i f : sched_inv s -> keeps_place s (upd_context i f s).
Proof. intros Hs. apply same_queue_keeps; [done | apply upd_context_same]. Qed.
Lemma upd_thread_keeps s i f : sched_inv s -> (forall t, running_cpu (f t) = running_cpu t) ->
  (forall t, th_has_context (f t) = th_has_context t) -> keeps_place s (upd_thread i f s).
Proof. intros Hs Hr Hc. apply same_queue_keeps; [done | by apply upd_thread_same]. Qed.

Lemma signal_keeps s thread reason result : sched_inv s -> ptr_ok thread ->
  keeps_place s (thread_wait_signal_unlocked thread reason result s).2.
Proof.
  intros Hs Hp. destruct thread as [i|]; [|by apply keeps_place_refl].
  destruct (nonzero (wait_pending (context_at s i)) && (wait_reason (context_at s i) =? reason)) eqn:Hw.
  - bprop. apply signal_ok; try done. unfold nonzero. apply negb_true_iff. by apply Z.eqb_neq.
  - unfold thread_wait_signal_unlocked, nonzero, context_at in *.
    destruct (wait_pending _ =? 0), (wait_reason _ =? reason); try done;
      rewrite ?orb_true_r; by apply keeps_place_refl.
Qed.

Lemma enqueue_ptr_keeps s thread : sched_inv s -> ptr_ok thread ->
  keeps_place s (scheduler_enqueue_unlocked thread s).
Proof. intros Hs Hp. destruct thread; [by apply enqueue_keeps | by apply keeps_place_refl]. Qed.
Lemma remove_ptr_keeps s thread : sched_inv s -> keeps_place s (scheduler_remove_unlocked thread s).
Proof. intros Hs. destruct thread; [by apply remove_keeps | by apply keeps_place_refl]. Qed.

Lemma reset_keeps s thread : sched_inv s -> keeps_place s (thread_wait_reset_unlocked thread s).
Proof.
  intros Hs. destruct thread; [|by apply keeps_place_refl]. simpl.
  destruct (negb _); [by apply keeps_place_refl | by apply upd_keeps].
Qed.

Lemma sequence_keeps s : sched_inv s -> keeps_place s (wait_next_sequence_unlocked s).2.
Proof.
  intros Hs. apply same_queue_keeps; [done|]. unfold wait_next_sequence_unlocked.
  destruct (next_wait_sequence s =? 0); constructor; done.
Qed.

Lemma signal_all_keeps p reason result s : sched_inv s -> keeps_place s (signal_all p reason result s).2.
Proof.
  intros Hs. unfold signal_all.
  apply (for_range_inv (fun _ (x : Z * SchedState) => keeps_place s x.2)); [done | by apply keeps_place_refl |].
  intros i [n s1] Hi Hk. cbn [fst snd] in *. destruct (negb _); [done|].
  pose proof (signal_keeps s1 (Some i) (reason (thread_at s1 i)) result (proj1 Hk) Hi) as Hk2.
  destruct (thread_wait_signal_unlocked _ _ _ s1) as [r s2]. by eapply keeps_place_trans.
Qed.

Lemma tick_keeps now s : sched_inv s -> keeps_place s (wait_tick_body now s).2.
Proof.
  intros Hs. unfold wait_tick_body.
  apply (for_range_inv (fun _ (x : list Z * SchedState) => keeps_place s x.2)); [done | by apply keeps_place_refl |].
  intros i [l s1] Hi Hk. cbn [fst snd] in *. unfold wait_tick_step.
  destruct (_ || _); [done|]. destruct (i32_neg _); [done|].
  destruct (_ || _); cbn [snd]; (eapply keeps_place_trans; [exact Hk|]);
    [apply upd_keeps, Hk | by apply signal_keeps; [apply Hk|]].
Qed.

Lemma retarget_keeps thread a b c d r s : sched_inv s -> keeps_place s (retarget_body thread a b c d r s).2.
Proof.
  intros Hs. unfold retarget_body. destruct thread as [i|]; [|by apply keeps_place_refl].
  destruct (_ && _); [|by apply keeps_place_refl].
  match goal with |- context [upd_context i ?f s] =>
    pose proof (upd_keeps s i f Hs) as H1; set (s1 := upd_context i f s) in * end.
  pose proof (sequence_keeps s1 (proj1 H1)) as H2.
  destruct (wait_next_sequence_unlocked s1) as [q s2]. cbn [fst snd] in *.
  eapply keeps_place_trans; [exact H1|]. eapply keeps_place_trans; [exact H2|]. apply upd_keeps, H2.
Qed.

Lemma find_next_keeps cpu ex pid bg sl s : sched_inv s ->
  keeps_place s (find_next_ready_thread_unlocked cpu ex pid bg sl s).2.
Proof.
  intros Hs. pose proof (find_next_ok cpu ex pid bg sl s Hs) as Hf. cbv zeta in Hf.
  destruct (find_next_ready_thread_unlocked _ _ _ _ _ s) as [[i|] s1]; cbn [fst snd] in *.
  - destruct Hf as (Hi & _ & [[_ ->]|[_ ->]]); [by apply keeps_place_refl | by apply enqueue_keeps].
  - destruct Hf as [-> _]. by apply keeps_place_refl.
Qed.

Lemma claim_body_step cpu ex pid bg sl s : sched_inv s -> step_ok s (claim_body cpu ex pid bg sl s).2.
Proof.
  intros Hs. pose proof (claim_body_ok cpu ex pid bg sl s Hs) as Hc. cbv zeta in Hc.
  destruct (claim_body cpu ex pid bg sl s) as [[i|] s1]; cbn [fst snd] in *.
  - destruct Hc as (Hi & Hp & _ & Hs1 & _ & Hr & _ & Ho). split; [done|]. intros j Hj.
    destruct (decide (j = i)) as [->|Hne]; [|left; by rewrite Ho].
    right. left. by apply ready_fixed in Hp as [? _].
  - destruct Hc as [-> _]. by apply keeps_step, keeps_place_refl.
Qed.

Lemma mark_running_step cpu i s : sched_inv s -> is_thread i -> step_ok s (mark_running_body cpu i s).
Proof.
  intros Hs Hi. unfold mark_running_body.
  set (s1 := if wait_reason _ =? _ then thread_wait_reset_unlocked (Some i) s else s).
  assert (keeps_place s s1) as H1
    by (unfold s1; destruct (_ =? PROCESS_WAIT_CHILD); [by apply reset_keeps | by apply keeps_place_refl]).
  clearbody s1. destruct (running_cpu (thread_at s i) =? cpu).
  { apply keeps_step. eapply keeps_place_trans; [exact H1|]. apply upd_keeps, H1. }
  destruct (negb _ || _); [by apply keeps_step, keeps_place_refl|].
  destruct (remove_ok s1 i (proj1 H1)) as (Hs2 & Hq2 & Ht2 & _). cbv zeta in *.
  pose proof (keeps_place_trans _ _ _ H1 (remove_keeps s1 i (proj1 H1))) as H2.
  set (s2 := scheduler_remove_unlocked (Some i) s1) in *. clearbody s2.
  assert (Some i ∉ run_queue s2) as Hn by (rewrite Hq2; intros [Hx _]%list_elem_of_filter; done).
  pose proof (claim_cpu_ok s2 i cpu Hs2 Hi Hn) as Hc. cbv zeta in Hc.
  destruct (thread_claim_cpu_unlocked i cpu s2) as [ok s3]. cbn [fst snd] in *.
  destruct Hc as [(_ & -> & _)|(_ & Hr & _ & Hs3 & _ & _ & _ & Ho)]; [by apply keeps_step|].
  split; [done|]. intros j Hj. destruct (decide (j = i)) as [->|Hne].
  - right. left. unfold runs_nowhere in *. by rewrite <- (proj2 H2).
  - left. rewrite Ho by done. apply H2.
Qed.

Lemma kernel_return_step cpu i s : sched_inv s -> is_thread i -> step_ok s (kernel_return_body cpu i s).
Proof.
  intros Hs Hi. unfold kernel_return_body.
  set (s1 := if _ =? cpu then thread_release_cpu_unlocked i s else s).
  assert (sched_inv s1 /\ forall j, is_thread j ->
    running_cpu (thread_at s1 j) = running_cpu (thread_at s j) \/ runs_nowhere s1 j) as [Hs1 H1].
  { unfold s1. destruct (_ =? cpu); [|by split; [done | intros; left]].
    unfold thread_release_cpu_unlocked.
    assert (forall j, is_thread j -> thread_at (upd_thread i (fun t => t <| running_cpu := THREAD_CPU_INVALID |>) s) j
      = (if decide (j = i) then (thread_at s j) <| running_cpu := THREAD_CPU_INVALID |> else thread_at s j)) as Hat.
    { intros j Hj. case_decide as Hd; [subst j; by apply thread_upd; [|apply Hs] | by apply thread_upd_ne]. }
    split.
    - destruct Hs. constructor; try done.
      + by rewrite len_upd.
      + intros j Hj. rewrite Hat by done. case_decide; simpl; auto.
      + intros x (j & -> & Hj & Hr)%si_queued0. exists j. split; [done|]. split; [done|].
        unfold runs_nowhere. rewrite Hat by done. by case_decide.
    - intros j Hj. unfold runs_nowhere. rewrite Hat by done. case_decide; auto. }
  clearbody s1. destruct (_ && _).
  - destruct (enqueue_ok s1 i Hs1 Hi) as (Hs2 & Hk & _). split; [done|]. intros j Hj.
    unfold runs_nowhere. rewrite Hk. destruct (H1 j Hj); auto.
  - split; [done|]. intros j Hj. destruct (H1 j Hj); auto.
Qed.

Section Runs.
Context {E : Type} {KE : KernelEnv E}.

Lemma wait_begin_keeps thread reason addr timeout now s (e : E) : sched_inv s ->
  keeps_place s (thread_wait_begin_unlocked thread reason addr timeout now s e).1.2.
Proof.
  intros Hs. unfold thread_wait_begin_unlocked. destruct thread as [i|]; [|by apply keeps_place_refl].
  destruct (_ || _); [by apply keeps_place_refl|].
  destruct (kernel_fault_injection_should_fail _ e) as [[] e1]; [by apply keeps_place_refl|].
  pose proof (remove_keeps s i Hs) as H1. set (s1 := scheduler_remove_unlocked _ s) in *.
  match goal with |- context [upd_context i ?f s1] =>
    pose proof (upd_keeps s1 i f (proj1 H1)) as H2; set (s2 := upd_context i f s1) in * end.
  pose proof (sequence_keeps s2 (proj1 H2)) as H3.
  destruct (wait_next_sequence_unlocked s2) as [q s3]. cbn [fst snd] in *.
  eapply keeps_place_trans; [exact H1|]. eapply keeps_place_trans; [exact H2|].
  eapply keeps_place_trans; [exact H3|]. apply upd_keeps, H3.
Qed.

Inductive SchedOp :=
| SEnqueue (thread : option Z)
| SRemove (thread : option Z)
| SClaim (cpu : Z) (exclude : Z * Z) (exclude_pid : Z) (background_only sleeping_only : bool)
| SKernelReturn (cpu : Z) (thread : option Z)
| SMarkRunning (cpu : Z) (thread : option Z)
| SMarkSleeping (current process : option Z) (tick : Z)
| SMarkFinished (thread : option Z)
| SYield (can_schedule : bool) (current : option Z)
| SShouldPreempt (cpu : Z) (current : option Z)
| SShouldReschedule (cpu : Z) (current : option Z)
| SNextProcess (cpu exclude_pid : Z) (background_only sleeping_only : bool)
| SWaitBegin (thread : option Z) (reason addr timeout now : Z)
| SWaitSignal (thread : option Z) (reason result : Z)
| SProcessSignal (process : option Z) (reason result : Z)
| SProcessCancel (process : option Z) (reason result : Z)
| SCancelObject (process : option Z) (object_id result : Z)
| SRetarget (thread : option Z) (old new object_id aux result : Z)
| SNotifyQueued (process : option Z)
| SWaitTick (now : Z).

Definition drop_answer {A} (r : A * SchedState * E) : SchedState * E := (r.1.2, r.2).
Definition sched_exec (op : SchedOp) (s : SchedState) (e : E) : SchedState * E :=
  match op with
  | SEnqueue t => scheduler_enqueue_thread t s e
  | SRemove t => scheduler_remove_thread t s e
  | SClaim cpu ex pid bg sl => drop_answer (scheduler_claim_ready_thread cpu ex pid bg sl s e)
  | SKernelReturn cpu t => scheduler_complete_kernel_return cpu t s e
  | SMarkRunning cpu t => scheduler_mark_thread_running cpu t s e
  | SMarkSleeping c p tick => scheduler_mark_sleeping c p tick s e
  | SMarkFinished t => scheduler_mark_thread_finished t s e
  | SYield ok c => scheduler_yield_current ok c s e
  | SShouldPreempt cpu c => drop_answer (scheduler_should_preempt_current cpu c s e)
  | SShouldReschedule cpu c => drop_answer (scheduler_should_reschedule_current cpu c s e)
  | SNextProcess cpu pid bg sl => drop_answer (find_next_process cpu pid bg sl s e)
  | SWaitBegin t r a d n => drop_answer (thread_wait_begin t r a d n s e)
  | SWaitSignal t r v => drop_answer (thread_wait_signal t r v s e)
  | SProcessSignal p r v => drop_answer (process_wait_signal p r v s e)
  | SProcessCancel p r v => drop_answer (process_wait_cancel p r v s e)
  | SCancelObject p o v => drop_answer (thread_wait_cancel_object p o v s e)
  | SRetarget t a b c d v => drop_answer (thread_wait_retarget t a b c d v s e)
  | SNotifyQueued p => process_notify_queued_ipc p s e
  | SWaitTick n => drop_answer (with_lock process_lock [] (wait_tick_body n) s e)
  end.
Definition sched_run (ops : list SchedOp) (st : SchedState * E) : SchedState * E :=
  foldl (fun '(s, e) op => sched_exec op s e) st ops.

(** The thread pointers an operation is given point into the table. *)
Definition sched_op_ok (op : SchedOp) : Prop :=
  match op with
  | SEnqueue t | SKernelReturn _ t | SMarkRunning _ t | SWaitSignal t _ _ => ptr_ok t
  | SYield _ c | SMarkSleeping c _ _ => ptr_ok c
  | _ => True
  end.

Lemma locked_step body s (e : E) : sched_inv s -> step_ok s (body s) -> step_ok s (locked body s e).1.
Proof.
  intros Hs Hb. unfold locked.
  pose proof (with_lock_inv (E := E) (fun (_ : unit) x => step_ok s x) process_lock tt (fun s => (tt, body s)) s e
    (keeps_step _ _ (keeps_place_refl s Hs)) Hb) as Hw.
  destruct (with_lock _ _ _ _ _) as [[[] s1] e1]. exact Hw.
Qed.
Lemma with_lock_step {A} (fail : A) body s (e : E) : sched_inv s -> step_ok s (body s).2 ->
  step_ok s (drop_answer (with_lock process_lock fail body s e)).1.
Proof.
  intros Hs Hb. apply (with_lock_inv (E := E) (fun _ x => step_ok s x)); [|done].
  by apply keeps_step, keeps_place_refl.
Qed.

Lemma sched_exec_ok op s e : sched_inv s -> sched_op_ok op -> step_ok s (sched_exec op s e).1.
Proof.
  intros Hs Hop. assert (step_ok s s) as Hid by (by apply keeps_step, keeps_place_refl).
  assert (forall f i, step_ok s (upd_context i f (scheduler_remove_unlocked (Some i) s))) as Hrm.
  { intros f i. pose proof (remove_keeps s i Hs) as H1. apply keeps_step.
    eapply keeps_place_trans; [exact H1|]. apply upd_keeps, H1. }
  destruct op as [t|t|cpu ex pid bg sl|cpu t|cpu t|c p tick|t|ok c|cpu c|cpu c|cpu pid bg sl|t r a d n
    |t r v|p r v|p r v|p o v|t a b c d v|p|n]; cbn [sched_exec sched_op_ok] in *.
  - by apply locked_step, keeps_step, enqueue_ptr_keeps.
  - by apply locked_step, keeps_step, remove_ptr_keeps.
  - unfold scheduler_claim_ready_thread.
    destruct (kernel_fault_injection_should_fail _ e) as [[] e1]; [done|].
    by apply with_lock_step, claim_body_step.
  - unfold scheduler_complete_kernel_return. destruct t as [i|]; [|done]. destruct (negb _); [done|].
    by apply locked_step, kernel_return_step.
  - unfold scheduler_mark_thread_running. destruct t as [i|]; [|done]. destruct (_ || _); [done|].
    by apply locked_step, mark_running_step.
  - unfold scheduler_mark_sleeping. destruct (wait_thread_for_process c s p); [|done]. by apply locked_step.
  - unfold scheduler_mark_thread_finished. destruct t; [|done]. destruct (negb _); [done|]. by apply locked_step.
  - unfold scheduler_yield_current. destruct (negb ok); [done|]. destruct c as [i|]; [|done].
    destruct (negb _); [done|]. apply locked_step; [done|]. apply keeps_step. unfold yield_body.
    match goal with |- context [upd_context i ?f ?x] => set (s1 := upd_context i f x) end.
    assert (keeps_place s s1) as H1.
    { apply same_queue_keeps; [done|]. unfold s1. etrans; [|apply upd_context_same]. constructor; done. }
    pose proof (remove_keeps s1 i (proj1 H1)) as H2.
    eapply keeps_place_trans; [exact H1|]. eapply keeps_place_trans; [exact H2|].
    by apply enqueue_keeps; [apply H2|].
  - unfold scheduler_should_preempt_current. destruct c as [i|]; [|done]. destruct (negb _); [done|].
    apply with_lock_step; [done|]. unfold preempt_body. destruct (negb _); [done|]. destruct (nonzero _); [done|].
    pose proof (find_next_keeps cpu (thread_identity s (Some i)) 0 false false s Hs) as Hf.
    destruct (find_next_ready_thread_unlocked _ _ _ _ _ s). by apply keeps_step.
  - unfold scheduler_should_reschedule_current. destruct c as [i|]; [|done]. destruct (negb _); [done|].
    apply with_lock_step; [done|]. unfold reschedule_body. destruct (negb _); [done|]. destruct (negb _); [done|].
    pose proof (find_next_keeps cpu (thread_identity s (Some i)) 0 false false s Hs) as Hf.
    destruct (find_next_ready_thread_unlocked _ _ _ _ _ s). by apply keeps_step.
  - apply with_lock_step; [done|]. pose proof (find_next_keeps cpu (0, 0) pid bg sl s Hs) as Hf.
    destruct (find_next_ready_thread_unlocked _ _ _ _ _ s). by apply keeps_step.
  - unfold thread_wait_begin, with_lock_env, drop_answer.
    destruct (kernel_spinlock_acquire process_lock e) as [[] e1]; [|done].
    pose proof (wait_begin_keeps t r a d n s e1 Hs) as Hk.
    destruct (thread_wait_begin_unlocked _ _ _ _ _ s e1) as [[x s1] e2]. by apply keeps_step.
  - by apply with_lock_step, keeps_step, signal_keeps.
  - apply with_lock_step, keeps_step, signal_keeps; [done | done | apply oldest_ptr].
  - apply with_lock_step; [done|]. destruct p; [by apply keeps_step, signal_all_keeps | done].
  - apply with_lock_step; [done|]. destruct p; [by apply keeps_step, signal_all_keeps | done].
  - by apply with_lock_step, keeps_step, retarget_keeps.
  - apply locked_step; [done|]. unfold notify_queued_body. destruct p; [|done].
    destruct (find_thread _ s) eqn:Hf; [|done]. apply keeps_step, enqueue_keeps; [done|].
    by apply find_thread_is in Hf as [? _].
  - by apply with_lock_step, keeps_step, tick_keeps.
Qed.

Lemma sched_run_inv ops s e : sched_inv s -> Forall sched_op_ok ops -> sched_inv (sched_run ops (s, e)).1.
Proof.
  revert s e. induction ops as [|op ops IH]; intros s e Hs Hops; [done|].
  apply Forall_cons in Hops as [Hop Hops].
  pose proof (sched_exec_ok op s e Hs Hop) as [Hs1 _]. unfold sched_run. cbn [foldl].
  destruct (sched_exec op s e) as [s1 e1]. by apply IH.
Qed.

(** C7: the scheduler never runs a thread twice.  Starting from a state that satisfies the invariant,
    whatever sequence of scheduler and wait operations ran before, on whichever CPUs, the run queue is a
    well-formed ring that holds each thread at most once and only threads that
    run nowhere; and any further operation leaves a running thread on its CPU or
    releases it: it never moves a thread from one CPU to another. *)
Theorem sched_queue_invariant ops op s e : sched_inv s -> Forall sched_op_ok ops -> sched_op_ok op ->
  let st := sched_run ops (s, e) in
  sched_inv st.1 /\ step_ok st.1 (sched_exec op st.1 st.2).1.
Proof.
  intros Hs Hops Hop st. assert (sched_inv st.1) as Hst by (by apply sched_run_inv).
  split; [done | by apply sched_exec_ok].
Qed.
End Runs.

Section Claims.
Context {E : Type} {KE : KernelEnv E} {LL : LockLaws E}.

(** Claiming takes the right thread.  With the lock granted and no fault
    injected, a CPU gets a thread exactly when some thread of the table may run
    there: the first such thread in queue order, or, when no queued thread may
    run, the first of the table, so that a thread missing from the bounded queue
    is not lost.  That thread ran nowhere, now runs on this CPU and left the
    queue; no other thread and no other place in the queue changed. *)
Theorem sched_claim_spec cpu ex pid bg sl s e e1 r s' e' : sched_inv s ->
  kernel_fault_injection_should_fail KERNEL_FAULT_POINT_SCHEDULER_CLAIM e = (false, e1) ->
  ready e1 process_lock ->
  scheduler_claim_ready_thread cpu ex pid bg sl s e = (r, s', e') ->
  let may_run := thread_ready cpu ex pid bg sl s in
  match r with
  | None => s' = s /\ forall j, is_thread j -> may_run (thread_at s j) = false
  | Some i => is_thread i /\ may_run (thread_at s i) = true /\
      (first_queued may_run s i \/ first_unqueued may_run s i) /\
      runs_nowhere s i /\ running_cpu (thread_at s' i) = cpu /\
      scheduler_state (context_at s' i) = SCHED_STATE_RUNNING /\
      run_queue s' = filter (fun x => x <> Some i) (run_queue s) /\
      forall j, is_thread j -> j <> i -> thread_at s' j = thread_at s j
  end.
Proof.
  intros Hs Hf He. unfold scheduler_claim_ready_thread. rewrite Hf.
  destruct (with_lock_ready process_lock None (claim_body cpu ex pid bg sl) s e1 He) as (e2 & -> & _).
  intros [= Hc <-]. pose proof (claim_body_ok cpu ex pid bg sl s Hs) as Hok. cbv zeta in *.
  rewrite Hc in Hok. cbn [fst snd] in Hok. destruct r as [i|]; [|done].
  destruct Hok as (A & B & C & _ & F & G & H & I). pose proof (ready_fixed _ _ _ _ _ _ _ B) as [D _].
  by split_and!.
Qed.

(** C8: a signal wakes the thread that has waited longest.  Signalling a process
    wakes one of its threads exactly when one waits for that reason: one with
    the smallest wait sequence number.  It stops waiting with the given result
    and, when it may run, is ready and in the run queue (the queue is never too
    full for it); the contexts of all other threads are as before. *)
Theorem process_signal_wakes_oldest process reason result s e r s' e' : sched_inv s ->
  ready e process_lock -> process_wait_signal process reason result s e = (r, s', e') ->
  (r = 0 /\ s' = s /\ forall j, is_thread j -> waits_for process reason (thread_at s j) = false) \/
  (r = 1 /\ exists i, is_thread i /\ waits_for process reason (thread_at s i) = true /\
     (forall j, is_thread j -> waits_for process reason (thread_at s j) = true ->
        wait_sequence (context_at s i) <= wait_sequence (context_at s j)) /\
     wait_pending (context_at s' i) = 0 /\ wait_result (context_at s' i) = result /\
     (nonzero (th_active (thread_at s i)) && owner_active s (thread_at s i) = true ->
      scheduler_state (context_at s' i) = SCHED_STATE_READY /\
      (runs_nowhere s i -> nonzero (resumable (context_at s i)) = true -> Some i ∈ run_queue s')) /\
     forall j, is_thread j -> j <> i -> context_at s' j = context_at s j).
Proof.
  intros Hs He. unfold process_wait_signal.
  match goal with |- context [with_lock process_lock 0 ?b s e] =>
    destruct (with_lock_ready process_lock 0 b s e He) as (e2 & -> & _) end.
  cbv beta. pose proof (select_oldest_ok (waits_for process reason) s) as Ho.
  destruct (select_oldest (waits_for process reason) s) as [i|].
  - destruct Ho as (Hi & Hw & Hmin). pose proof Hw as Hw'. unfold waits_for in Hw'. bprop.
    destruct (signal_ok s i reason result Hs Hi) as (A & B & C & D & F);
      [unfold nonzero; apply negb_true_iff; by apply Z.eqb_neq | done |].
    destruct (thread_wait_signal_unlocked (Some i) reason result s) as [r1 s1].
    intros [= <- <- _]. cbn [fst snd] in *. right. split; [done|]. exists i.
    pose proof (to_others _ _ _ B). by split_and!.
  - intros [= <- <- _]. left. done.
Qed.
End Claims.

(** ** Witnesses *)

(** A process with a runnable thread 0 and threads 1 and 2 waiting for messages. *)
Definition demo_thread (n st pending reason seq : Z) : Thread :=
  inhabitant <| th_tid := n |> <| th_generation := 1 |> <| th_owner_pid := 1 |>
    <| th_owner := Some 0 |> <| th_active := 1 |>
    <| th_context := fresh_context <| scheduler_state := st |> <| resumable := 1 |>
         <| wait_pending := pending |> <| wait_reason := reason |> <| wait_sequence := seq |> |>.
Definition demo_sched : SchedState := {|
  thread_table := [demo_thread 1 SCHED_STATE_READY 0 0 0; demo_thread 2 SCHED_STATE_WAITING 1 3 8;
                   demo_thread 3 SCHED_STATE_WAITING 1 3 5] ++ replicate 125 inhabitant;
  process_table := {| pr_pid := 1; pr_generation := 1; pr_active := 1; pr_background := 0;
                      pr_main_tid := 1; pr_main_generation := 1 |} :: replicate 15 inhabitant;
  sched_queue := Some 0 :: replicate 127 None; sched_queue_count := 1; sched_queue_head := 0;
  next_wait_sequence := 9; sched_last_pid := 0; sched_switch_count := 0; sched_yield_count := 0;
  sched_events := [] |}.

Lemma forallb_aget {A} `{Inhabited A} (p : A -> bool) l i : forallb p l = true -> 0 <= i < alen l ->
  p (aget l i) = true.
Proof.
  rewrite forallb_forall. intros Hall Hi. apply Hall, list_elem_of_In.
  eapply list_elem_of_lookup_2. by apply lookup_aget.
Qed.

Lemma demo_sched_inv : sched_inv demo_sched.
Proof.
  assert (run_queue demo_sched = [Some 0]) as Hq by reflexivity.
  constructor; rewrite ?Hq; try done.
  - intros i Hi. apply (forallb_aget th_has_context (thread_table demo_sched)); [reflexivity | exact Hi].
  - apply NoDup_singleton.
  - intros x ->%list_elem_of_singleton. exists 0. done.
Qed.

Lemma sched_queue_invariant_witness :
  sched_inv (sched_run (E := unit) [SClaim 0 (0, 0) 0 false false; SProcessSignal (Some 0) 3 0]
    (demo_sched, tt)).1.
Proof.
  refine (proj1 (sched_queue_invariant (E := unit)
    [SClaim 0 (0, 0) 0 false false; SProcessSignal (Some 0) 3 0] (SWaitTick 7) demo_sched tt _ _ _)).
  - exact demo_sched_inv.
  - repeat constructor.
  - exact I.
Defined.

Lemma sched_claim_spec_witness : exists s' e',
  scheduler_claim_ready_thread (E := unit) 2 (0, 0) 0 false false demo_sched tt = (Some 0, s', e') /\
  running_cpu (thread_at s' 0) = 2 /\ run_queue s' = [].
Proof.
  destruct (scheduler_claim_ready_thread (E := unit) 2 (0, 0) 0 false false demo_sched tt)
    as [[r s'] e'] eqn:Hc.
  pose proof (sched_claim_spec (E := unit) (LL := quiet_laws) 2 (0, 0) 0 false false demo_sched tt tt r s' e'
    demo_sched_inv eq_refl I Hc) as Hs. cbv zeta in Hs.
  assert (r = Some 0) as ->.
  { change r with ((r, s', e').1.1). rewrite <- Hc. vm_compute. reflexivity. }
  destruct Hs as (_ & _ & _ & _ & Hcpu & _ & Hq & _). exists s', e'.
  split; [reflexivity|]. split; [exact Hcpu|]. rewrite Hq. reflexivity.
Defined.

Lemma process_signal_wakes_oldest_witness : exists s' e',
  process_wait_signal (E := unit) (Some 0) 3 0 demo_sched tt = (1, s', e') /\
  exists i, wait_sequence (context_at demo_sched i) <= 5 /\ wait_pending (context_at s' i) = 0.
Proof.
  destruct (process_wait_signal (E := unit) (Some 0) 3 0 demo_sched tt) as [[r s'] e'] eqn:Hc.
  destruct (process_signal_wakes_oldest (E := unit) (LL := quiet_laws) (Some 0) 3 0 demo_sched tt r s' e'
    demo_sched_inv I Hc) as [(_ & _ & Hno)|(-> & i & Hi & _ & Hmin & Hp & _)].
  - specialize (Hno 2 ltac:(unfold is_thread; sched_consts; lia)). discriminate.
  - exists s', e'. split; [reflexivity|]. exists i. split; [|exact Hp].
    apply (Hmin 2); [unfold is_thread; sched_consts; lia | reflexivity].
Defined.
