(* ===== verification/ThreadSync.v ===== *)
(** * Mutexes, semaphores and condition variables ([kernel/sync/thread_sync.cpp])

    The table of synchronisation objects and the operations on it, with the
    tick that times out waits ([process_wait_tick]).  An object identifier names
    a slot and a generation; threads wait through [Scheduler], handles resolve
    through [Handle].  Every section under [sync_lock] or [process_lock] is one
    definition, so that the points where other threads may run are the points
    between those sections.

    Two loops of the code end only when other calls succeed: the one that hands
    a mutex over and the one that broadcasts a condition.  They carry fuel, and
    [None] is a loop that has not ended; [ThreadSyncSpec] shows how much fuel is
    enough. *)

From S2P Require Import Prelude KernelEnv Spinlock Results Handle Scheduler.

Definition KERNEL_SYNC_MAX_OBJECTS : Z := 32.
Definition OS_SEMAPHORE_MAX_COUNT : Z := 0x7FFFFFFF.
Definition SYSCALL_WAIT_TO_KERNEL : Z := 0xFFFFFFFF80005305 - 2 ^ 64.

(** The static lock [sync_lock]. *)
Definition sync_lock : lock_ref := -5.

(** Identities are pairs of an id and a generation. *)
Record KernelSyncObject := {
  sy_active : Z; sy_type : Z; sy_generation : Z; sy_owner : Z * Z; mutex_owner : Z * Z;
  semaphore_count : Z; semaphore_maximum : Z }.
#[export] Instance KernelSyncObject_settable : Settable KernelSyncObject := {| eta_expand o := {|
  sy_active := sy_active o; sy_type := sy_type o; sy_generation := sy_generation o;
  sy_owner := sy_owner o; mutex_owner := mutex_owner o; semaphore_count := semaphore_count o;
  semaphore_maximum := semaphore_maximum o |} |}.
#[export] Instance KernelSyncObject_inhabited : Inhabited KernelSyncObject := populate
  {| sy_active := 0; sy_type := KERNEL_HANDLE_TYPE_NONE; sy_generation := 0; sy_owner := (0, 0);
     mutex_owner := (0, 0); semaphore_count := 0; semaphore_maximum := 0 |}.

(** The static table with the parts of the kernel its operations work on. *)
Record SyncState := { sync_objects : list KernelSyncObject; sync_tables : Tables;
  sync_sched : SchedState }.
#[export] Instance SyncState_settable : Settable SyncState := {| eta_expand s := {|
  sync_objects := sync_objects s; sync_tables := sync_tables s; sync_sched := sync_sched s |} |}.

Definition make_object_id (index gen : Z) : Z :=
  Z.lor (u64 (Z.shiftl gen 32)) (u32 (index + 1)).

Definition next_generation (gen : Z) : Z :=
  let gen := u32 (gen + 1) in if gen =? 0 then 1 else gen.

Definition sync_at (s : SyncState) (i : Z) : KernelSyncObject := aget (sync_objects s) i.
Definition put_sync (i : Z) (o : KernelSyncObject) (s : SyncState) : SyncState :=
  s <| sync_objects := aset (sync_objects s) i o |>.

(** The object's slot. *)
Definition object_from_id (s : SyncState) (object_id ty : Z) : option Z :=
  let encoded_index := u32 object_id in
  let gen := u32 (Z.shiftr object_id 32) in
  if (encoded_index =? 0) || (KERNEL_SYNC_MAX_OBJECTS <? encoded_index) || (gen =? 0) then None
  else
    let o := sync_at s (encoded_index - 1) in
    if (sy_active o =? 0) || negb (sy_generation o =? gen)
       || (negb (ty =? KERNEL_HANDLE_TYPE_NONE) && negb (sy_type o =? ty)) then None
    else Some (encoded_index - 1).

(** ** Sections under [sync_lock] *)

(** The identifier of the new object, 0 when the table is full. *)
Definition new_object_body (process : option Z) (ty initial_count maximum_count : Z) (s : SyncState)
    : Z * SyncState :=
  match find_first (fun i => sy_active (sync_at s i) =? 0) 0 (Z.to_nat KERNEL_SYNC_MAX_OBJECTS) with
  | None => (0, s)
  | Some i =>
    let gen := next_generation (sy_generation (sync_at s i)) in
    (make_object_id i gen,
     put_sync i {| sy_active := 1; sy_type := u8 ty; sy_generation := gen;
       sy_owner := process_identity (sync_sched s) process; mutex_owner := (0, 0);
       semaphore_count := initial_count; semaphore_maximum := maximum_count |} s)
  end.

Definition drop_object_body (object_id ty : Z) (s : SyncState) : unit * SyncState :=
  match object_from_id s object_id ty with
  | None => (tt, s)
  | Some i => (tt, put_sync i ((sync_at s i) <| sy_active := 0 |>) s)
  end.

(** [error] is the value of [*error] before and after. *)
Definition try_acquire_body (object_id : Z) (process_identity_value identity : Z * Z) (error : Z)
    (s : SyncState) : (bool * Z) * SyncState :=
  match object_from_id s object_id KERNEL_HANDLE_TYPE_MUTEX with
  | None => ((false, SYS_ERR_NOT_FOUND), s)
  | Some i =>
    let o := sync_at s i in
    if negb ((sy_owner o).1 =? process_identity_value.1)
       || negb ((sy_owner o).2 =? process_identity_value.2)
    then ((false, SYS_ERR_NOT_FOUND), s)
    else if ((mutex_owner o).1 =? identity.1) && ((mutex_owner o).2 =? identity.2)
    then ((false, SYS_ERR_ALREADY_EXISTS), s)
    else if (mutex_owner o).1 =? 0
    then ((true, 0), put_sync i (o <| mutex_owner := identity |>) s)
    else ((false, error), s)
  end.

(** The section of [wake_mutex_waiter] that takes the mutex back from a waiter
    that could not be woken. *)
Definition take_back_body (waiter : option Z) (object_id : Z) (s : SyncState) : unit * SyncState :=
  match object_from_id s object_id KERNEL_HANDLE_TYPE_MUTEX with
  | None => (tt, s)
  | Some i =>
    if thread_identity_matches (sync_sched s) waiter (mutex_owner (sync_at s i))
    then (tt, put_sync i ((sync_at s i) <| mutex_owner := (0, 0) |>) s) else (tt, s)
  end.

Definition unlock_body (thread : option Z) (object_id : Z) (s : SyncState) : Z * SyncState :=
  match object_from_id s object_id KERNEL_HANDLE_TYPE_MUTEX with
  | None => (SYS_ERR_PERMISSION_DENIED, s)
  | Some i =>
    let o := sync_at s i in
    let identity := thread_identity (sync_sched s) thread in
    if negb ((mutex_owner o).1 =? identity.1) || negb ((mutex_owner o).2 =? identity.2)
    then (SYS_ERR_PERMISSION_DENIED, s)
    else (0, put_sync i (o <| mutex_owner := (0, 0) |>) s)
  end.

Definition try_take_body (object_id error : Z) (s : SyncState) : (bool * Z) * SyncState :=
  match object_from_id s object_id KERNEL_HANDLE_TYPE_SEMAPHORE with
  | None => ((false, SYS_ERR_NOT_FOUND), s)
  | Some i =>
    let o := sync_at s i in
    if nonzero (semaphore_count o)
    then ((true, 0), put_sync i (o <| semaphore_count := semaphore_count o - 1 |>) s)
    else ((false, error), s)
  end.

(** One unit for which no thread waits. *)
Definition post_unit_body (object_id : Z) (s : SyncState) : Z * SyncState :=
  match object_from_id s object_id KERNEL_HANDLE_TYPE_SEMAPHORE with
  | None => (SYS_ERR_NOT_FOUND, s)
  | Some i =>
    let o := sync_at s i in
    if semaphore_count o =? semaphore_maximum o then (SYS_ERR_OUT_OF_RANGE, s)
    else (0, put_sync i (o <| semaphore_count := u32 (semaphore_count o + 1) |>) s)
  end.

(** The identity of the process that owned the object, (0, 0) for none. *)
Definition release_object_body (object_id ty : Z) (s : SyncState) : (Z * Z) * SyncState :=
  match object_from_id s object_id ty with
  | None => ((0, 0), s)
  | Some i =>
    let o := sync_at s i in
    (sy_owner o, put_sync i (o <| sy_active := 0 |> <| sy_type := KERNEL_HANDLE_TYPE_NONE |>
       <| mutex_owner := (0, 0) |> <| semaphore_count := 0 |> <| semaphore_maximum := 0 |>) s)
  end.

(** The mutexes an exiting thread owned, released, in table order. *)
Definition thread_exit_step (identity : Z * Z) (i : Z) (st : list Z * SyncState)
    : list Z * SyncState :=
  let '(released, s) := st in
  let o := sync_at s i in
  if nonzero (sy_active o) && (sy_type o =? KERNEL_HANDLE_TYPE_MUTEX)
     && ((mutex_owner o).1 =? identity.1) && ((mutex_owner o).2 =? identity.2)
  then (released ++ [make_object_id i (sy_generation o)],
        put_sync i (o <| mutex_owner := (0, 0) |>) s)
  else st.
Definition thread_exit_body (identity : Z * Z) (s : SyncState) : list Z * SyncState :=
  for_range 0 KERNEL_SYNC_MAX_OBJECTS (thread_exit_step identity) ([], s).

(** What [kernel_sync_init] leaves in the table. *)
Definition kernel_sync_init_table (objs : list KernelSyncObject) : list KernelSyncObject :=
  for_range 0 KERNEL_SYNC_MAX_OBJECTS (fun i objs => aset objs i
    {| sy_active := 0; sy_type := KERNEL_HANDLE_TYPE_NONE; sy_generation := 0; sy_owner := (0, 0);
       mutex_owner := (0, 0); semaphore_count := 0; semaphore_maximum := 0 |}) objs.

Section Operations.
Context {E : Type} `{KernelEnv E}.
(** [&process->handle_table] of a slot of the process table. *)
Context (handle_table : Z -> Z).

Definition on_sched {A} (f : SchedState -> E -> A * SchedState * E) (s : SyncState) (e : E)
    : A * SyncState * E :=
  let '(a, sch, e) := f (sync_sched s) e in (a, s <| sync_sched := sch |>, e).

Definition kernel_sync_init (s : SyncState) (e : E) : SyncState * E :=
  (s <| sync_objects := kernel_sync_init_table (sync_objects s) |>,
   kernel_spinlock_setup sync_lock KERNEL_LOCK_CLASS_IPC_SERVICE e).

Definition resolve_object (process : option Z) (handle ty : Z) (s : SyncState) (e : E)
    : option Z * SyncState * E :=
  match process with
  | None => (None, s, e)
  | Some p =>
    let '((ok, resolved), ts, e) :=
      kernel_handle_resolve_copy (handle_table p) handle ty 0 true (sync_tables s) e in
    (if (ok : bool) then object <$> resolved else None, s <| sync_tables := ts |>, e)
  end.

Definition create_object (process : option Z) (ty initial_count maximum_count : Z)
    (s : SyncState) (e : E) : Z * SyncState * E :=
  match process with
  | None => (0, s, e)
  | Some p =>
    let '(fault, e) := kernel_fault_injection_should_fail KERNEL_FAULT_POINT_SYNC_OBJECT e in
    if fault then (0, s, e)
    else
      let '(object_id, s, e) :=
        with_lock sync_lock 0 (new_object_body process ty initial_count maximum_count) s e in
      if object_id =? 0 then (0, s, e)
      else
        let '(handle, ts, e) :=
          kernel_handle_alloc (handle_table p) ty 0 object_id 0 (sync_tables s) e in
        let s := s <| sync_tables := ts |> in
        if nonzero handle then (handle, s, e)
        else
          let '(_, s, e) := with_lock sync_lock tt (drop_object_body object_id ty) s e in
          (0, s, e)
  end.

(** ** Mutexes *)

Definition kernel_mutex_create (process : option Z) (s : SyncState) (e : E) : Z * SyncState * E :=
  create_object process KERNEL_HANDLE_TYPE_MUTEX 0 0 s e.

Definition mutex_try_acquire (object_id : Z) (process_identity_value identity : Z * Z) (error : Z)
    (s : SyncState) (e : E) : (bool * Z) * SyncState * E :=
  with_lock sync_lock (false, SYS_ERR_NOT_READY)
    (try_acquire_body object_id process_identity_value identity error) s e.

(** Begin waiting for an object: lines 182-186, 297-301 and 388-392. *)
Definition begin_wait (thread : option Z) (reason object_id aux_object_id timeout_ticks tick_now : Z)
    (s : SyncState) (e : E) : bool * SyncState * E :=
  let '(begun, s, e) :=
    on_sched (thread_wait_begin thread reason 0 timeout_ticks tick_now) s e in
  if begun =? 0 then (false, s, e)
  else
    let '(set, s, e) := on_sched (thread_wait_set_objects thread object_id aux_object_id) s e in
    (nonzero set, s, e).

(** The second attempt of [kernel_mutex_lock], when the thread is already
    waiting. *)
Definition mutex_lock_retry (process thread : option Z) (object_id error : Z) (s : SyncState) (e : E)
    : Z * SyncState * E :=
  let '((acquired, _), s, e) := mutex_try_acquire object_id
    (process_identity (sync_sched s) process) (thread_identity (sync_sched s) thread) error s e in
  let '(s, e) :=
    if acquired : bool then
      let '(_, s, e) := on_sched (thread_wait_signal thread PROCESS_WAIT_MUTEX PROCESS_WAIT_OK) s e in
      (s, e)
    else (s, e) in
  (SYSCALL_WAIT_TO_KERNEL, s, e).

(** The first part: [inl] an answer, [inr] the object the thread now waits for. *)
Definition mutex_lock_begin (process thread : option Z) (handle timeout_ticks tick_now : Z)
    (s : SyncState) (e : E) : (Z + Z * Z) * SyncState * E :=
  match thread with
  | None => (inl SYS_ERR_INVALID_ARGUMENT, s, e)
  | Some _ =>
    let '(id, s, e) := resolve_object process handle KERNEL_HANDLE_TYPE_MUTEX s e in
    match id with
    | None => (inl SYS_ERR_INVALID_ARGUMENT, s, e)
    | Some object_id =>
      let '((acquired, error), s, e) := mutex_try_acquire object_id
        (process_identity (sync_sched s) process) (thread_identity (sync_sched s) thread)
        SYS_ERR_WOULD_BLOCK s e in
      if acquired : bool then (inl 0, s, e)
      else if negb (error =? SYS_ERR_WOULD_BLOCK) then (inl error, s, e)
      else
        let '(ok, s, e) :=
          begin_wait thread PROCESS_WAIT_MUTEX object_id 0 timeout_ticks tick_now s e in
        (if ok : bool then inr (object_id, error) else inl SYS_ERR_NOT_READY, s, e)
    end
  end.

Definition kernel_mutex_lock (process thread : option Z) (handle timeout_ticks tick_now : Z)
    (s : SyncState) (e : E) : Z * SyncState * E :=
  let '(r, s, e) := mutex_lock_begin process thread handle timeout_ticks tick_now s e in
  match r with
  | inl answer => (answer, s, e)
  | inr (object_id, error) => mutex_lock_retry process thread object_id error s e
  end.

Fixpoint wake_mutex_waiter (fuel : nat) (process : option Z) (object_id : Z) (s : SyncState) (e : E)
    : option (SyncState * E) :=
  match fuel with
  | O => None
  | S fuel =>
    let '(waiter, s, e) := on_sched (thread_wait_find_oldest process PROCESS_WAIT_MUTEX object_id) s e in
    match waiter with
    | None => Some (s, e)
    | Some w =>
      let '((acquired, _), s, e) := mutex_try_acquire object_id
        (process_identity (sync_sched s) process) (thread_identity (sync_sched s) waiter)
        SYS_ERR_WOULD_BLOCK s e in
      if negb acquired then Some (s, e)
      else
        let result := wait_result (context_at (sync_sched s) w) in
        let '(woken, s, e) := on_sched (thread_wait_signal waiter PROCESS_WAIT_MUTEX result) s e in
        if nonzero woken then Some (s, e)
        else
          let '(_, s, e) := with_lock sync_lock tt (take_back_body waiter object_id) s e in
          wake_mutex_waiter fuel process object_id s e
    end
  end.

Definition kernel_mutex_unlock (fuel : nat) (process thread : option Z) (handle : Z)
    (s : SyncState) (e : E) : option (Z * SyncState * E) :=
  match thread with
  | None => Some (SYS_ERR_INVALID_ARGUMENT, s, e)
  | Some _ =>
    let '(id, s, e) := resolve_object process handle KERNEL_HANDLE_TYPE_MUTEX s e in
    match id with
    | None => Some (SYS_ERR_INVALID_ARGUMENT, s, e)
    | Some object_id =>
      let '(r, s, e) := with_lock sync_lock SYS_ERR_NOT_READY (unlock_body thread object_id) s e in
      if nonzero r then Some (r, s, e)
      else
        match wake_mutex_waiter fuel process object_id s e with
        | None => None
        | Some (s, e) => Some (0, s, e)
        end
    end
  end.

(** ** Semaphores *)

Definition kernel_semaphore_create (process : option Z) (initial_count maximum_count : Z)
    (s : SyncState) (e : E) : Z * SyncState * E :=
  if (maximum_count =? 0) || (OS_SEMAPHORE_MAX_COUNT <? maximum_count)
     || (maximum_count <? initial_count) then (0, s, e)
  else create_object process KERNEL_HANDLE_TYPE_SEMAPHORE initial_count maximum_count s e.

Definition semaphore_try_take (object_id error : Z) (s : SyncState) (e : E)
    : (bool * Z) * SyncState * E :=
  with_lock sync_lock (false, SYS_ERR_NOT_READY) (try_take_body object_id error) s e.

Definition semaphore_wait_retry (thread : option Z) (object_id error : Z) (s : SyncState) (e : E)
    : Z * SyncState * E :=
  let '((acquired, _), s, e) := semaphore_try_take object_id error s e in
  let '(s, e) :=
    if acquired : bool then
      let '(_, s, e) :=
        on_sched (thread_wait_signal thread PROCESS_WAIT_SEMAPHORE PROCESS_WAIT_OK) s e in (s, e)
    else (s, e) in
  (SYSCALL_WAIT_TO_KERNEL, s, e).

Definition semaphore_wait_begin (process thread : option Z) (handle timeout_ticks tick_now : Z)
    (s : SyncState) (e : E) : (Z + Z * Z) * SyncState * E :=
  match thread with
  | None => (inl SYS_ERR_INVALID_ARGUMENT, s, e)
  | Some _ =>
    let '(id, s, e) := resolve_object process handle KERNEL_HANDLE_TYPE_SEMAPHORE s e in
    match id with
    | None => (inl SYS_ERR_INVALID_ARGUMENT, s, e)
    | Some object_id =>
      let '((acquired, error), s, e) := semaphore_try_take object_id SYS_ERR_WOULD_BLOCK s e in
      if acquired : bool then (inl 0, s, e)
      else if negb (error =? SYS_ERR_WOULD_BLOCK) then (inl error, s, e)
      else
        let '(ok, s, e) :=
          begin_wait thread PROCESS_WAIT_SEMAPHORE object_id 0 timeout_ticks tick_now s e in
        (if ok : bool then inr (object_id, error) else inl SYS_ERR_NOT_READY, s, e)
    end
  end.

Definition kernel_semaphore_wait (process thread : option Z) (handle timeout_ticks tick_now : Z)
    (s : SyncState) (e : E) : Z * SyncState * E :=
  let '(r, s, e) := semaphore_wait_begin process thread handle timeout_ticks tick_now s e in
  match r with
  | inl answer => (answer, s, e)
  | inr (object_id, error) => semaphore_wait_retry thread object_id error s e
  end.

(** One iteration: [inl] returns, [inr] goes on. *)
Definition post_one (process : option Z) (object_id : Z) (s : SyncState) (e : E)
    : (Z + unit) * SyncState * E :=
  let '(waiter, s, e) :=
    on_sched (thread_wait_find_oldest process PROCESS_WAIT_SEMAPHORE object_id) s e in
  let '(woken, s, e) :=
    match waiter with
    | None => (0, s, e)
    | Some _ => on_sched (thread_wait_signal waiter PROCESS_WAIT_SEMAPHORE PROCESS_WAIT_OK) s e
    end in
  if nonzero woken then (inr tt, s, e)
  else
    let '(r, s, e) := with_lock sync_lock SYS_ERR_NOT_READY (post_unit_body object_id) s e in
    (if nonzero r then inl r else inr tt, s, e).

Fixpoint post_loop (n : nat) (process : option Z) (object_id : Z) (s : SyncState) (e : E)
    : Z * SyncState * E :=
  match n with
  | O => (0, s, e)
  | S n =>
    let '(r, s, e) := post_one process object_id s e in
    match r with
    | inl answer => (answer, s, e)
    | inr _ => post_loop n process object_id s e
    end
  end.

Definition kernel_semaphore_post (process : option Z) (handle release_count : Z)
    (s : SyncState) (e : E) : Z * SyncState * E :=
  if release_count =? 0 then (SYS_ERR_INVALID_ARGUMENT, s, e)
  else
    let '(id, s, e) := resolve_object process handle KERNEL_HANDLE_TYPE_SEMAPHORE s e in
    match id with
    | None => (SYS_ERR_INVALID_ARGUMENT, s, e)
    | Some object_id => post_loop (Z.to_nat release_count) process object_id s e
    end.

(** ** Conditions *)

Definition kernel_condition_create (process : option Z) (s : SyncState) (e : E)
    : Z * SyncState * E :=
  create_object process KERNEL_HANDLE_TYPE_CONDITION 0 0 s e.

Definition finish_condition_wait (waiter : option Z) (result : Z) (s : SyncState) (e : E)
    : SyncState * E :=
  match waiter with
  | None => (s, e)
  | Some w =>
    let t := thread_at (sync_sched s) w in
    if negb (th_has_context t) then (s, e)
    else
      let mutex_id := wait_aux_object_id (th_context t) in
      let '((acquired, error), s, e) := mutex_try_acquire mutex_id
        (process_identity (sync_sched s) (th_owner t)) (thread_identity (sync_sched s) waiter)
        SYS_ERR_WOULD_BLOCK s e in
      let '(_, s, e) :=
        if acquired : bool then
          on_sched (thread_wait_signal waiter PROCESS_WAIT_CONDITION result) s e
        else if error =? SYS_ERR_WOULD_BLOCK then
          on_sched (thread_wait_retarget waiter PROCESS_WAIT_CONDITION PROCESS_WAIT_MUTEX mutex_id
            (wait_object_id (context_at (sync_sched s) w)) result) s e
        else on_sched (thread_wait_signal waiter PROCESS_WAIT_CONDITION error) s e in
      (s, e)
  end.

Definition kernel_condition_wait (fuel : nat) (process thread : option Z)
    (condition_handle mutex_handle timeout_ticks tick_now : Z) (s : SyncState) (e : E)
    : option (Z * SyncState * E) :=
  match thread with
  | None => Some (SYS_ERR_INVALID_ARGUMENT, s, e)
  | Some _ =>
    let '(cid, s, e) := resolve_object process condition_handle KERNEL_HANDLE_TYPE_CONDITION s e in
    match cid with
    | None => Some (SYS_ERR_INVALID_ARGUMENT, s, e)
    | Some condition_id =>
      let '(mid, s, e) := resolve_object process mutex_handle KERNEL_HANDLE_TYPE_MUTEX s e in
      match mid with
      | None => Some (SYS_ERR_INVALID_ARGUMENT, s, e)
      | Some mutex_id =>
        let '(ok, s, e) := begin_wait thread PROCESS_WAIT_CONDITION condition_id mutex_id
          timeout_ticks tick_now s e in
        if negb ok then Some (SYS_ERR_NOT_READY, s, e)
        else
          match kernel_mutex_unlock fuel process thread mutex_handle s e with
          | None => None
          | Some (unlock_result, s, e) =>
            if nonzero unlock_result then
              let '(_, s, e) :=
                on_sched (thread_wait_signal thread PROCESS_WAIT_CONDITION unlock_result) s e in
              Some (SYSCALL_WAIT_TO_KERNEL, s, e)
            else Some (SYSCALL_WAIT_TO_KERNEL, s, e)
          end
      end
    end
  end.

Fixpoint condition_signal_loop (fuel : nat) (process : option Z) (condition_id : Z) (broadcast : bool)
    (s : SyncState) (e : E) : option (SyncState * E) :=
  match fuel with
  | O => None
  | S fuel =>
    let '(waiter, s, e) :=
      on_sched (thread_wait_find_oldest process PROCESS_WAIT_CONDITION condition_id) s e in
    match waiter with
    | None => Some (s, e)
    | Some _ =>
      let '(s, e) := finish_condition_wait waiter PROCESS_WAIT_OK s e in
      if broadcast then condition_signal_loop fuel process condition_id broadcast s e
      else Some (s, e)
    end
  end.

Definition kernel_condition_signal (fuel : nat) (process : option Z) (condition_handle : Z)
    (broadcast : bool) (s : SyncState) (e : E) : option (Z * SyncState * E) :=
  let '(id, s, e) := resolve_object process condition_handle KERNEL_HANDLE_TYPE_CONDITION s e in
  match id with
  | None => Some (SYS_ERR_INVALID_ARGUMENT, s, e)
  | Some condition_id =>
    match condition_signal_loop fuel process condition_id broadcast s e with
    | None => None
    | Some (s, e) => Some (0, s, e)
    end
  end.

(** ** Destruction, thread exit, time-outs *)

Definition kernel_sync_release_handle_object (handle : option KernelHandle) (s : SyncState) (e : E)
    : Z * SyncState * E :=
  match handle with
  | None => (0, s, e)
  | Some h =>
    if negb (type h =? KERNEL_HANDLE_TYPE_MUTEX) && negb (type h =? KERNEL_HANDLE_TYPE_SEMAPHORE)
       && negb (type h =? KERNEL_HANDLE_TYPE_CONDITION) then (0, s, e)
    else
      let '(owner_identity, s, e) :=
        with_lock sync_lock (0, 0) (release_object_body (object h) (type h)) s e in
      let '(owner, s, e) := on_sched (find_process_by_identity owner_identity) s e in
      match owner with
      | None => (1, s, e)
      | Some _ =>
        let '(_, s, e) :=
          on_sched (thread_wait_cancel_object owner (object h) PROCESS_WAIT_CANCELLED) s e in
        (1, s, e)
      end
  end.

Fixpoint wake_released (fuel : nat) (owner : option Z) (released : list Z) (s : SyncState) (e : E)
    : option (SyncState * E) :=
  match released with
  | [] => Some (s, e)
  | id :: released =>
    match wake_mutex_waiter fuel owner id s e with
    | None => None
    | Some (s, e) => wake_released fuel owner released s e
    end
  end.

Definition kernel_sync_thread_exit (fuel : nat) (thread : option Z) (s : SyncState) (e : E)
    : option (SyncState * E) :=
  match thread with
  | None => Some (s, e)
  | Some i =>
    let t := thread_at (sync_sched s) i in
    match th_owner t with
    | None => Some (s, e)
    | Some p =>
      let identity := thread_identity (sync_sched s) thread in
      let '(released, s, e) := with_lock sync_lock [] (thread_exit_body identity) s e in
      wake_released fuel (Some p) released s e
    end
  end.

Definition kernel_sync_timeout_thread (thread : option Z) (s : SyncState) (e : E) : SyncState * E :=
  match thread with
  | None => (s, e)
  | Some i =>
    if negb (thread_wait_is_pending (sync_sched s) thread) then (s, e)
    else
      let reason := wait_reason (context_at (sync_sched s) i) in
      if reason =? PROCESS_WAIT_CONDITION then finish_condition_wait thread PROCESS_WAIT_TIMEOUT s e
      else if (reason =? PROCESS_WAIT_MUTEX) || (reason =? PROCESS_WAIT_SEMAPHORE) then
        let '(_, s, e) := on_sched (thread_wait_signal thread reason PROCESS_WAIT_TIMEOUT) s e in
        (s, e)
      else (s, e)
  end.

Fixpoint timeout_all (threads : list Z) (s : SyncState) (e : E) : SyncState * E :=
  match threads with
  | [] => (s, e)
  | i :: threads =>
    let '(s, e) := kernel_sync_timeout_thread (Some i) s e in timeout_all threads s e
  end.

Definition process_wait_tick (tick_now : Z) (s : SyncState) (e : E) : SyncState * E :=
  let '(timeouts, s, e) := on_sched (with_lock process_lock [] (wait_tick_body tick_now)) s e in
  timeout_all timeouts s e.
End Operations.
