(* ===== verification/ThreadSyncSpec.v ===== *)
(** * Theorems about mutexes, semaphores and conditions

    - the invariant of the objects and the rule that a mutex passes from one
      thread to another only through being free, over every interleaving of the
      locked sections of all operations ([sync_section], [sync_exec]);
    - unlocking hands the mutex to the oldest waiter;
    - posting gives every unit to exactly one waiter or to the count;
    - broadcasting ends, and leaves nobody waiting for the condition;
    - the two attempts of a semaphore wait can take two units. *)

From S2P Require Import Prelude KernelEnv Spinlock Results Handle HandleSpec RingBuffer.
From S2P Require Import Scheduler SchedulerSpec ThreadSync.

(** ** The invariant *)

Definition is_sync_type (ty : Z) : Prop :=
  ty = KERNEL_HANDLE_TYPE_MUTEX \/ ty = KERNEL_HANDLE_TYPE_SEMAPHORE \/ ty = KERNEL_HANDLE_TYPE_CONDITION.
Definition is_slot (i : Z) : Prop := 0 <= i < KERNEL_SYNC_MAX_OBJECTS.

Record object_ok (o : KernelSyncObject) : Prop := {
  oo_active : sy_active o = 0 \/ (sy_active o = 1 /\ is_sync_type (sy_type o) /\ sy_generation o <> 0);
  oo_gen : is_u32 (sy_generation o);
  oo_count : 0 <= semaphore_count o <= semaphore_maximum o;
  oo_max : semaphore_maximum o <= OS_SEMAPHORE_MAX_COUNT;
  oo_mutex : (mutex_owner o).1 <> 0 -> sy_type o = KERNEL_HANDLE_TYPE_MUTEX;
}.

Record sync_inv (s : SyncState) : Prop := {
  sv_len : alen (sync_objects s) = KERNEL_SYNC_MAX_OBJECTS;
  sv_objects : forall i, is_slot i -> object_ok (sync_at s i);
  sv_sched : sched_inv (sync_sched s);
}.

(** A mutex changes hands only through being free. *)
Definition mutex_step (s s' : SyncState) : Prop :=
  forall i, is_slot i -> mutex_owner (sync_at s' i) = mutex_owner (sync_at s i) \/
    (mutex_owner (sync_at s i)).1 = 0 \/ (mutex_owner (sync_at s' i)).1 = 0.

Lemma sync_put i o s j : sync_inv s -> is_slot i -> is_slot j ->
  sync_at (put_sync i o s) j = if decide (i = j) then o else sync_at s j.
Proof.
  intros Hs [] []. unfold sync_at, put_sync. simpl. destruct (decide (i = j)) as [->|Hne].
  - apply aget_aset_eq. rewrite (sv_len _ Hs). lia.
  - by apply aget_aset_ne.
Qed.

Lemma put_ok i o s : sync_inv s -> is_slot i -> object_ok o -> sync_inv (put_sync i o s).
Proof.
  intros Hs Hi Ho. constructor.
  - unfold put_sync. simpl. rewrite alen_aset. apply Hs.
  - intros j Hj. rewrite sync_put by done. case_decide; [done | by apply Hs].
  - apply Hs.
Qed.
Lemma put_step i o s : sync_inv s -> is_slot i ->
  mutex_owner o = mutex_owner (sync_at s i) \/ (mutex_owner (sync_at s i)).1 = 0 \/ (mutex_owner o).1 = 0 ->
  mutex_step s (put_sync i o s).
Proof.
  intros Hs Hi Ho j Hj. rewrite sync_put by done. case_decide; [subst; done | by left].
Qed.

Lemma object_from_id_Some s id ty i : object_from_id s id ty = Some i ->
  is_slot i /\ sy_active (sync_at s i) <> 0 /\ (ty <> KERNEL_HANDLE_TYPE_NONE -> sy_type (sync_at s i) = ty) /\
  u32 id = i + 1 /\ u32 (Z.shiftr id 32) = sy_generation (sync_at s i) /\ sy_generation (sync_at s i) <> 0.
Proof.
  unfold object_from_id. if_eqn H1; [done|]. if_eqn H2; [done|].
  intros He0. injection He0 as <-. unfold is_slot.
  assert (0 <= u32 id < 2 ^ 32) by (apply Z.mod_pos_bound; lia).
  rewrite !orb_false_iff in H1, H2. destruct H1 as [[Ha Hb] Hc], H2 as [[Hd He] Hf].
  apply Z.eqb_neq in Ha, Hc, Hd. apply Z.ltb_ge in Hb. apply negb_false_iff, Z.eqb_eq in He.
  split; [lia|]. split; [done|]. split; [|split; [lia|split; congruence]].
  intros Hty. apply andb_false_iff in Hf as [Hf|Hf]; apply negb_false_iff, Z.eqb_eq in Hf; done.
Qed.

Lemma next_generation_ok g : is_u32 (next_generation g) /\ next_generation g <> 0.
Proof.
  unfold next_generation. pose proof (Z.mod_pos_bound (g + 1) (2 ^ 32) ltac:(lia)) as Hb.
  fold (u32 (g + 1)) in Hb. destruct (u32 (g + 1) =? 0) eqn:E; unfold is_u32; [lia|].
  apply Z.eqb_neq in E. lia.
Qed.

(** ** Locked sections *)

(** One locked section of one thread: of this component, or of the scheduler or
    the handle tables. *)
Inductive sync_section : SyncState -> SyncState -> Prop :=
| sec_new p ty initial maximum s : is_sync_type ty ->
    0 <= initial <= maximum -> maximum <= OS_SEMAPHORE_MAX_COUNT ->
    sync_section s (new_object_body p ty initial maximum s).2
| sec_drop id ty s : sync_section s (drop_object_body id ty s).2
| sec_try_acquire id p t error s : sync_section s (try_acquire_body id p t error s).2
| sec_take_back w id s : sync_section s (take_back_body w id s).2
| sec_unlock t id s : sync_section s (unlock_body t id s).2
| sec_try_take id error s : sync_section s (try_take_body id error s).2
| sec_post id s : sync_section s (post_unit_body id s).2
| sec_release id ty s : sync_section s (release_object_body id ty s).2
| sec_exit t s : sync_section s (thread_exit_body t s).2
| sec_sched sch s : keeps_place (sync_sched s) sch -> sync_section s (s <| sync_sched := sch |>)
| sec_tables ts s : sync_section s (s <| sync_tables := ts |>).

Definition section_ok (s s' : SyncState) : Prop := sync_inv s' /\ mutex_step s s'.

Lemma section_id s : sync_inv s -> section_ok s s.
Proof. intros Hs. split; [done|]. by left. Qed.
Lemma section_put i o s : sync_inv s -> is_slot i -> object_ok o ->
  mutex_owner o = mutex_owner (sync_at s i) \/ (mutex_owner (sync_at s i)).1 = 0 \/ (mutex_owner o).1 = 0 ->
  section_ok s (put_sync i o s).
Proof. intros. split; [by apply put_ok | by apply put_step]. Qed.

Lemma object_ok_free o : object_ok o -> object_ok (o <| mutex_owner := (0, 0) |>).
Proof. by intros []. Qed.

Lemma exit_step_ok identity i st s0 : sync_inv s0 -> is_slot i -> section_ok s0 st.2 ->
  section_ok s0 (thread_exit_step identity i st).2.
Proof.
  intros Hs0 Hi [Hs Hm]. destruct st as [l s]. unfold thread_exit_step. cbn [snd] in *.
  destruct (_ && _); [|by split]. cbn [snd]. split; [by apply put_ok; [| |apply object_ok_free, Hs]|].
  intros j Hj. rewrite sync_put by done. case_decide; [subst; by right; right | by apply Hm].
Qed.

Lemma sync_section_ok s s' : sync_section s s' -> sync_inv s -> section_ok s s'.
Proof.
  intros Hsec Hs. pose proof (section_id s Hs) as Hid. destruct Hsec.
  - unfold new_object_body. destruct (find_first _ _ _) as [i|] eqn:Hf; [|done].
    apply find_first_Some in Hf as (Hi & Hfree & _). rewrite Z2Nat.id in Hi by done.
    assert (is_slot i) as Hsl by (unfold is_slot; lia). cbn [snd]. apply section_put; [done | done | | by right; right].
    pose proof (next_generation_ok (sy_generation (sync_at s i))) as [].
    constructor; simpl; [|done|done|done|done]. right. split; [done|]. split; [|done].
    by destruct H as [->|[->| ->]]; [left | right; left | right; right].
  - unfold drop_object_body. destruct (object_from_id s id ty) as [i|] eqn:Hf; [|done].
    apply object_from_id_Some in Hf as (Hi & _). cbn [snd]. apply section_put; [done | done | | by left].
    destruct (sv_objects _ Hs i Hi). constructor; simpl; try done. by left.
  - unfold try_acquire_body. destruct (object_from_id s id _) as [i|] eqn:Hf; [|done].
    apply object_from_id_Some in Hf as (Hi & _ & Hty & _). destruct (_ || _); [done|]. destruct (_ && _); [done|].
    destruct (_ =? 0) eqn:Hz; [|done]. apply Z.eqb_eq in Hz. cbn [snd].
    apply section_put; [done | done | | by right; left].
    destruct (sv_objects _ Hs i Hi). constructor; simpl; try done. intros _. by apply Hty.
  - unfold take_back_body. destruct (object_from_id s id _) as [i|] eqn:Hf; [|done].
    apply object_from_id_Some in Hf as (Hi & _). destruct (thread_identity_matches _ _ _); [|done]. cbn [snd].
    apply section_put; [done | done | by apply object_ok_free, Hs | by right; right].
  - unfold unlock_body. destruct (object_from_id s id _) as [i|] eqn:Hf; [|done].
    apply object_from_id_Some in Hf as (Hi & _). destruct (_ || _); [done|]. cbn [snd].
    apply section_put; [done | done | by apply object_ok_free, Hs | by right; right].
  - unfold try_take_body. destruct (object_from_id s id _) as [i|] eqn:Hf; [|done].
    apply object_from_id_Some in Hf as (Hi & _). destruct (nonzero _) eqn:Hz; [|done]. cbn [snd].
    apply section_put; [done | done | | by left]. unfold nonzero in Hz. apply negb_true_iff, Z.eqb_neq in Hz.
    destruct (sv_objects _ Hs i Hi). constructor; simpl; try done. lia.
  - unfold post_unit_body. destruct (object_from_id s id _) as [i|] eqn:Hf; [|done].
    apply object_from_id_Some in Hf as (Hi & _). destruct (_ =? _) eqn:Hz; [done|]. cbn [snd].
    apply section_put; [done | done | | by left]. apply Z.eqb_neq in Hz.
    destruct (sv_objects _ Hs i Hi). unfold OS_SEMAPHORE_MAX_COUNT in *.
    constructor; simpl; try done. rewrite u32_small by (unfold is_u32; lia). lia.
  - unfold release_object_body. destruct (object_from_id s id ty) as [i|] eqn:Hf; [|done].
    apply object_from_id_Some in Hf as (Hi & _). cbn [snd]. apply section_put; [done | done | | by right; right].
    destruct (sv_objects _ Hs i Hi). constructor; simpl; try done. by left.
  - unfold thread_exit_body.
    apply (for_range_inv (fun _ (st : list Z * SyncState) => section_ok s st.2)); [done | done |].
    intros i st Hi Hst. by apply exit_step_ok.
  - split; [|by left]. constructor; [apply Hs | apply Hs | apply H].
  - split; [|by left]. constructor; apply Hs.
Qed.

(** ** Operations are sequences of sections *)

Definition leads (s s' : SyncState) : Prop := sync_inv s -> sync_inv s' /\ rtc sync_section s s'.

Lemma leads_refl s : leads s s.
Proof. by split. Qed.
Lemma leads_trans s1 s2 s3 : leads s1 s2 -> leads s2 s3 -> leads s1 s3.
Proof. intros H12 H23 H1. destruct (H12 H1) as [H2 A]. destruct (H23 H2) as [H3 B]. split; [done | by etrans]. Qed.
#[export] Instance leads_preorder : PreOrder leads.
Proof. split; [exact leads_refl | exact leads_trans]. Qed.
Lemma leads_section s s' : sync_section s s' -> leads s s'.
Proof. intros Hsec Hs. split; [by apply (sync_section_ok s s') | by apply rtc_once]. Qed.
Lemma leads_sched s sch : (sched_inv (sync_sched s) -> keeps_place (sync_sched s) sch) ->
  leads s (s <| sync_sched := sch |>).
Proof. intros Hk Hs. apply leads_section; [|done]. apply sec_sched, Hk, Hs. Qed.
Lemma leads_tables s ts : leads s (s <| sync_tables := ts |>).
Proof. apply leads_section, sec_tables. Qed.
#[export] Hint Resolve leads_refl leads_tables : kernel.

Section Handlers.
Context {E : Type} {KE : KernelEnv E} (handle_table : Z -> Z).

Lemma lock_leads {A} (fail : A) body s e r s1 e1 : sync_section s (body s).2 ->
  with_lock (E := E) sync_lock fail body s e = (r, s1, e1) -> leads s s1.
Proof.
  intros Hb Hw. pose proof (with_lock_inv (E := E) (fun _ x => leads s x) sync_lock fail body s e
    (leads_refl s) (leads_section _ _ Hb)) as Hl. by rewrite Hw in Hl.
Qed.

Lemma on_sched_leads {A} (f : SchedState -> E -> A * SchedState * E) s e r s1 e1 :
  (sched_inv (sync_sched s) -> keeps_place (sync_sched s) (f (sync_sched s) e).1.2) ->
  on_sched f s e = (r, s1, e1) -> leads s s1.
Proof.
  unfold on_sched. intros Hk. destruct (f (sync_sched s) e) as [[a sch] e2]. intros [= _ <- _].
  by apply leads_sched.
Qed.

Lemma sched_lock_keeps {A} (fail : A) body s (e : E) : sched_inv s -> keeps_place s (body s).2 ->
  keeps_place s (with_lock process_lock fail body s e).1.2.
Proof. intros Hs Hb. apply (with_lock_inv (E := E) (fun _ x => keeps_place s x)); [by apply keeps_place_refl | done]. Qed.

Lemma find_oldest_leads p reason id s e w s1 e1 :
  on_sched (E := E) (thread_wait_find_oldest p reason id) s e = (w, s1, e1) -> leads s s1 /\ ptr_ok w.
Proof.
  intros Hf. split.
  - eapply on_sched_leads; [|exact Hf]. intros Hs. apply sched_lock_keeps; [done | by apply keeps_place_refl].
  - revert Hf. unfold on_sched, thread_wait_find_oldest, with_lock.
    destruct (kernel_spinlock_acquire process_lock e) as [[] e2]; intros [= <- _ _]; [|done].
    destruct p; [apply oldest_ptr | done].
Qed.
Lemma signal_leads t reason result s e r s1 e1 : ptr_ok t ->
  on_sched (E := E) (thread_wait_signal t reason result) s e = (r, s1, e1) -> leads s s1.
Proof. intros Ht. apply on_sched_leads. intros Hs. apply sched_lock_keeps; [done | by apply signal_keeps]. Qed.
Lemma retarget_leads t a b c d v s e r s1 e1 :
  on_sched (E := E) (thread_wait_retarget t a b c d v) s e = (r, s1, e1) -> leads s s1.
Proof. apply on_sched_leads. intros Hs. apply sched_lock_keeps; [done | by apply retarget_keeps]. Qed.

Lemma try_acquire_leads id p t error s e r s1 e1 :
  mutex_try_acquire (E := E) id p t error s e = (r, s1, e1) -> leads s s1.
Proof. apply lock_leads, sec_try_acquire. Qed.
Lemma try_take_leads id error s e r s1 e1 : semaphore_try_take (E := E) id error s e = (r, s1, e1) -> leads s s1.
Proof. apply lock_leads, sec_try_take. Qed.

Lemma begin_wait_leads t reason id aux timeout now s e r s1 e1 :
  begin_wait (E := E) t reason id aux timeout now s e = (r, s1, e1) -> leads s s1.
Proof.
  unfold begin_wait. destruct (on_sched _ s e) as [[b s2] e2] eqn:Hb.
  apply on_sched_leads in Hb.
  2: { intros Hs. unfold thread_wait_begin, with_lock_env.
       destruct (kernel_spinlock_acquire process_lock e) as [[] e3]; [|by apply keeps_place_refl].
       pose proof (wait_begin_keeps t reason 0 timeout now (sync_sched s) e3 Hs) as Hk.
       by destruct (thread_wait_begin_unlocked _ _ _ _ _ _ e3) as [[x y] z]. }
  destruct (b =? 0); [by intros [= _ <- _]|].
  destruct (on_sched _ s2 e2) as [[c s3] e3] eqn:Hc. intros [= _ <- _].
  apply on_sched_leads in Hc; [by etrans|]. intros Hs. apply sched_lock_keeps; [done|].
  destruct t as [i|]; [|by apply keeps_place_refl].
  destruct (thread_wait_is_pending _ _); [by apply upd_keeps | by apply keeps_place_refl].
Qed.

Lemma resolve_leads p handle ty s e r s1 e1 :
  resolve_object (E := E) handle_table p handle ty s e = (r, s1, e1) -> leads s s1.
Proof.
  unfold resolve_object. destruct p as [p|]; [|by intros [= _ <- _]].
  destruct (kernel_handle_resolve_copy _ _ _ _ _ _ _) as [[[ok x] ts] e2]. intros [= _ <- _].
  apply leads_tables.
Qed.

Lemma create_leads p ty i m s e r s1 e1 : is_sync_type ty -> 0 <= i <= m -> m <= OS_SEMAPHORE_MAX_COUNT ->
  create_object (E := E) handle_table p ty i m s e = (r, s1, e1) -> leads s s1.
Proof.
  intros Hty Hi Hm. unfold create_object. destruct p as [p|]; [|by intros [= _ <- _]].
  destruct (kernel_fault_injection_should_fail _ e) as [[] e2]; [by intros [= _ <- _]|].
  destruct (with_lock sync_lock 0 _ s e2) as [[id s2] e3] eqn:Hw.
  apply lock_leads in Hw; [|by apply sec_new]. destruct (id =? 0); [by intros [= _ <- _]|].
  destruct (kernel_handle_alloc _ _ _ _ _ _ _) as [[h ts] e4].
  assert (leads s (s2 <| sync_tables := ts |>)) as H2 by (etrans; [exact Hw | apply leads_tables]).
  destruct (nonzero h); [by intros [= _ <- _]|].
  destruct (with_lock sync_lock tt _ _ e4) as [[[] s3] e5] eqn:Hd. intros [= _ <- _].
  apply lock_leads in Hd; [by etrans | apply sec_drop].
Qed.

Lemma wake_leads fuel p id s e s1 e1 : wake_mutex_waiter (E := E) fuel p id s e = Some (s1, e1) -> leads s s1.
Proof.
  revert s e. induction fuel as [|fuel IH]; intros s e; [done|]. cbn [wake_mutex_waiter].
  destruct (on_sched _ s e) as [[w s2] e2] eqn:Hf. apply find_oldest_leads in Hf as [H2 Hw].
  destruct w as [w|]; [|by intros [= <- _]].
  destruct (mutex_try_acquire _ _ _ _ s2 e2) as [[[acq err] s3] e3] eqn:Ha. apply try_acquire_leads in Ha.
  assert (leads s s3) as H3 by (by etrans). destruct (negb acq); [by intros [= <- _]|]. cbv zeta.
  destruct (on_sched _ s3 e3) as [[wk s4] e4] eqn:Hs. apply signal_leads in Hs; [|done].
  assert (leads s s4) as H4 by (by etrans). destruct (nonzero wk); [by intros [= <- _]|].
  destruct (with_lock sync_lock tt _ s4 e4) as [[[] s5] e5] eqn:Hb.
  apply lock_leads in Hb; [|apply sec_take_back]. intros Hrec%IH. etrans; [exact H4|]. by etrans.
Qed.

Lemma unlock_leads fuel p t h s e r s1 e1 :
  kernel_mutex_unlock (E := E) handle_table fuel p t h s e = Some (r, s1, e1) -> leads s s1.
Proof.
  unfold kernel_mutex_unlock. destruct t as [t|]; [|by intros [= _ <- _]].
  destruct (resolve_object _ _ _ _ s e) as [[id s2] e2] eqn:Hr. apply resolve_leads in Hr.
  destruct id as [id|]; [|by intros [= _ <- _]].
  destruct (with_lock sync_lock _ _ s2 e2) as [[x s3] e3] eqn:Hu. apply lock_leads in Hu; [|apply sec_unlock].
  assert (leads s s3) as H3 by (by etrans). destruct (nonzero x); [by intros [= _ <- _]|].
  destruct (wake_mutex_waiter fuel p id s3 e3) as [[s4 e4]|] eqn:Hw; [|done]. intros [= _ <- _].
  apply wake_leads in Hw. by etrans.
Qed.

Lemma finish_leads w result s e s1 e1 : ptr_ok w ->
  finish_condition_wait (E := E) w result s e = (s1, e1) -> leads s s1.
Proof.
  intros Hw. unfold finish_condition_wait. destruct w as [w|]; [|by intros [= <- _]].
  destruct (negb _); [by intros [= <- _]|]. cbv zeta.
  destruct (mutex_try_acquire _ _ _ _ s e) as [[[acq err] s2] e2] eqn:Ha. apply try_acquire_leads in Ha.
  call_eqn x s3 e3 Hc.
  intros [= <- _]. etrans; [exact Ha|]. clear Ha.
  destruct acq; [by apply signal_leads in Hc|].
  destruct (err =? SYS_ERR_WOULD_BLOCK); [by apply retarget_leads in Hc | by apply signal_leads in Hc].
Qed.

Lemma signal_loop_leads fuel p id b s e s1 e1 :
  condition_signal_loop (E := E) fuel p id b s e = Some (s1, e1) -> leads s s1.
Proof.
  revert s e. induction fuel as [|fuel IH]; intros s e; [done|]. cbn [condition_signal_loop].
  destruct (on_sched _ s e) as [[w s2] e2] eqn:Hf. apply find_oldest_leads in Hf as [H2 Hw].
  destruct w as [w|]; [|by intros [= <- _]].
  destruct (finish_condition_wait (Some w) PROCESS_WAIT_OK s2 e2) as [s3 e3] eqn:Hc.
  apply finish_leads in Hc; [|done]. assert (leads s s3) as H3 by (by etrans).
  destruct b; [intros Hrec%IH; by etrans | by intros [= <- _]].
Qed.

Lemma post_loop_leads n p id s e r s1 e1 : post_loop (E := E) n p id s e = (r, s1, e1) -> leads s s1.
Proof.
  revert s e. induction n as [|n IH]; intros s e; [by intros [= _ <- _]|]. cbn [post_loop].
  destruct (post_one p id s e) as [[x s2] e2] eqn:Hp.
  assert (leads s s2) as H2.
  { revert Hp. unfold post_one. destruct (on_sched _ s e) as [[w s3] e3] eqn:Hf.
    apply find_oldest_leads in Hf as [H3 Hw].
    call_eqn wk s4 e4 Hc.
    assert (leads s s4) as H4.
    { destruct w; [apply signal_leads in Hc; [by etrans | done] | by injection Hc as _ <- _]. }
    destruct (nonzero wk); [by intros [= _ <- _]|].
    destruct (with_lock sync_lock _ _ s4 e4) as [[y s5] e5] eqn:Hl.
    apply lock_leads in Hl; [|apply sec_post]. intros [= _ <- _]. by etrans. }
  destruct x; [by intros [= _ <- _] | intros Hrec%IH; by etrans].
Qed.

Lemma wake_released_leads fuel p l s e s1 e1 :
  wake_released (E := E) fuel p l s e = Some (s1, e1) -> leads s s1.
Proof.
  revert s e. induction l as [|id l IH]; intros s e; cbn [wake_released]; [by intros [= <- _]|].
  destruct (wake_mutex_waiter fuel p id s e) as [[s2 e2]|] eqn:Hw; [|done].
  apply wake_leads in Hw. intros Hrec%IH. by etrans.
Qed.

Lemma timeout_leads i s e s1 e1 : is_thread i ->
  kernel_sync_timeout_thread (E := E) (Some i) s e = (s1, e1) -> leads s s1.
Proof.
  intros Hi. unfold kernel_sync_timeout_thread. destruct (negb _); [by intros [= <- _]|]. cbv zeta.
  destruct (_ =? PROCESS_WAIT_CONDITION); [by apply finish_leads|].
  destruct (_ || _); [|by intros [= <- _]].
  destruct (on_sched _ s e) as [[x s2] e2] eqn:Hs. apply signal_leads in Hs; [by intros [= <- _] | done].
Qed.
Lemma timeout_all_leads l s e s1 e1 : Forall is_thread l ->
  timeout_all (E := E) l s e = (s1, e1) -> leads s s1.
Proof.
  intros Hl. revert s e. induction Hl as [|i l Hi Hl IH]; intros s e; cbn [timeout_all]; [by intros [= <- _]|].
  destruct (kernel_sync_timeout_thread (Some i) s e) as [s2 e2] eqn:Ht.
  apply timeout_leads in Ht; [|done]. intros Hrec%IH. by etrans.
Qed.
End Handlers.

(** ** Every interleaving *)

Inductive SyncOp :=
| OMutexCreate (p : option Z)
| OMutexLock (p t : option Z) (handle timeout now : Z)
| OMutexUnlock (p t : option Z) (handle : Z)
| OSemCreate (p : option Z) (initial maximum : Z)
| OSemWait (p t : option Z) (handle timeout now : Z)
| OSemPost (p : option Z) (handle n : Z)
| OCondCreate (p : option Z)
| OCondWait (p t : option Z) (condition mutex timeout now : Z)
| OCondSignal (p : option Z) (condition : Z) (broadcast : bool)
| OReleaseObject (h : option KernelHandle)
| OThreadExit (t : option Z)
| OTick (now : Z).

Definition sync_op_ok (op : SyncOp) : Prop :=
  match op with
  | OMutexLock _ t _ _ _ | OMutexUnlock _ t _ | OSemWait _ t _ _ _ | OCondWait _ t _ _ _ _
  | OThreadExit t => ptr_ok t
  | OSemCreate _ initial maximum => 0 <= initial /\ 0 <= maximum
  | _ => True
  end.

Section Interleaving.
Context {E : Type} {KE : KernelEnv E} (handle_table : Z -> Z).

Definition answered {A} (r : A * SyncState * E) : option (SyncState * E) := Some (r.1.2, r.2).
Definition may_end {A} (r : option (A * SyncState * E)) : option (SyncState * E) :=
  match r with Some (_, s, e) => Some (s, e) | None => None end.
Definition sync_exec (fuel : nat) (op : SyncOp) (s : SyncState) (e : E) : option (SyncState * E) :=
  match op with
  | OMutexCreate p => answered (kernel_mutex_create handle_table p s e)
  | OMutexLock p t h d n => answered (kernel_mutex_lock handle_table p t h d n s e)
  | OMutexUnlock p t h => may_end (kernel_mutex_unlock handle_table fuel p t h s e)
  | OSemCreate p i m => answered (kernel_semaphore_create handle_table p i m s e)
  | OSemWait p t h d n => answered (kernel_semaphore_wait handle_table p t h d n s e)
  | OSemPost p h n => answered (kernel_semaphore_post handle_table p h n s e)
  | OCondCreate p => answered (kernel_condition_create handle_table p s e)
  | OCondWait p t c m d n => may_end (kernel_condition_wait handle_table fuel p t c m d n s e)
  | OCondSignal p c b => may_end (kernel_condition_signal handle_table fuel p c b s e)
  | OReleaseObject h => answered (kernel_sync_release_handle_object h s e)
  | OThreadExit t => kernel_sync_thread_exit fuel t s e
  | OTick n => Some (process_wait_tick n s e)
  end.

Lemma mutex_lock_leads p t h d n s e r s1 e1 : ptr_ok t ->
  kernel_mutex_lock handle_table p t h d n s e = (r, s1, e1) -> leads s s1.
Proof.
  intros Ht. unfold kernel_mutex_lock. call_eqn x s2 e2 Hb.
  assert (leads s s2) as H2.
  { revert Hb. unfold mutex_lock_begin. destruct t as [t|]; [|by intros [= _ <- _]].
    call_eqn oid s3 e3 Hr. apply resolve_leads in Hr. destruct oid as [oid|]; [|by intros [= _ <- _]].
    call_eqn acq s4 e4 Ha. apply try_acquire_leads in Ha. assert (leads s s4) as H4 by (by etrans).
    destruct acq as [acq err]. destruct acq; [by intros [= _ <- _]|].
    destruct (negb _); [by intros [= _ <- _]|]. call_eqn ok s5 e5 Hw. apply begin_wait_leads in Hw.
    intros [= _ <- _]. by etrans. }
  destruct x as [x|[id err]]; [by intros [= _ <- _]|]. unfold mutex_lock_retry.
  call_eqn acq s3 e3 Ha. apply try_acquire_leads in Ha. destruct acq as [acq err'].
  destruct acq; [|intros [= _ <- _]; by etrans].
  destruct (on_sched _ s3 e3) as [[y s4] e4] eqn:Hs. apply signal_leads in Hs; [|done].
  intros [= _ <- _]. etrans; [exact H2|]. by etrans.
Qed.

Lemma sem_wait_leads p t h d n s e r s1 e1 : ptr_ok t ->
  kernel_semaphore_wait handle_table p t h d n s e = (r, s1, e1) -> leads s s1.
Proof.
  intros Ht. unfold kernel_semaphore_wait. call_eqn x s2 e2 Hb.
  assert (leads s s2) as H2.
  { revert Hb. unfold semaphore_wait_begin. destruct t as [t|]; [|by intros [= _ <- _]].
    call_eqn oid s3 e3 Hr. apply resolve_leads in Hr. destruct oid as [oid|]; [|by intros [= _ <- _]].
    call_eqn acq s4 e4 Ha. apply try_take_leads in Ha. assert (leads s s4) as H4 by (by etrans).
    destruct acq as [acq err]. destruct acq; [by intros [= _ <- _]|].
    destruct (negb _); [by intros [= _ <- _]|]. call_eqn ok s5 e5 Hw. apply begin_wait_leads in Hw.
    intros [= _ <- _]. by etrans. }
  destruct x as [x|[id err]]; [by intros [= _ <- _]|]. unfold semaphore_wait_retry.
  call_eqn acq s3 e3 Ha. apply try_take_leads in Ha. destruct acq as [acq err'].
  destruct acq; [|intros [= _ <- _]; by etrans].
  destruct (on_sched _ s3 e3) as [[y s4] e4] eqn:Hs. apply signal_leads in Hs; [|done].
  intros [= _ <- _]. etrans; [exact H2|]. by etrans.
Qed.

Lemma cond_wait_leads fuel p t c m d n s e r s1 e1 : ptr_ok t ->
  kernel_condition_wait handle_table fuel p t c m d n s e = Some (r, s1, e1) -> leads s s1.
Proof.
  intros Ht. unfold kernel_condition_wait. destruct t as [t|]; [|by intros [= _ <- _]].
  call_eqn cid s2 e2 Hc. apply resolve_leads in Hc. destruct cid as [cid|]; [|by intros [= _ <- _]].
  call_eqn mid s3 e3 Hm. apply resolve_leads in Hm. assert (leads s s3) as H3 by (by etrans).
  destruct mid as [mid|]; [|by intros [= _ <- _]].
  call_eqn ok s4 e4 Hb. apply begin_wait_leads in Hb. assert (leads s s4) as H4 by (by etrans).
  destruct (negb ok); [by intros [= _ <- _]|].
  destruct (kernel_mutex_unlock _ _ _ _ _ s4 e4) as [[[x s5] e5]|] eqn:Hu; [|done].
  apply unlock_leads in Hu. assert (leads s s5) as H5 by (by etrans).
  destruct (nonzero x); [|by intros [= _ <- _]].
  call_eqn y s6 e6 Hs. apply signal_leads in Hs; [|done]. intros [= _ <- _]. by etrans.
Qed.

Lemma tick_timeouts now s : sched_inv s -> Forall is_thread (wait_tick_body now s).1.
Proof.
  intros Hs. unfold wait_tick_body.
  apply (for_range_inv (fun _ (x : list Z * SchedState) => Forall is_thread x.1)); [done | done |].
  intros i [l s1] Hi Hl. unfold wait_tick_step. repeat (case_match; try done).
  cbn [fst] in *. apply Forall_app. split; [done|]. by constructor.
Qed.

Lemma tick_leads now s e s1 e1 : sync_inv s -> process_wait_tick (E := E) now s e = (s1, e1) -> leads s s1.
Proof.
  intros Hs. unfold process_wait_tick. destruct (on_sched _ s e) as [[l s2] e2] eqn:Ho.
  assert (Forall is_thread l) as Hl.
  { revert Ho. unfold on_sched, with_lock. destruct (kernel_spinlock_acquire process_lock e) as [[] e3].
    - pose proof (tick_timeouts now (sync_sched s) (sv_sched _ Hs)) as Hl.
      destruct (wait_tick_body now (sync_sched s)) as [l1 sch]. by intros [= <- _ _].
    - by intros [= <- _ _]. }
  apply on_sched_leads in Ho; [|intros Hi; by apply sched_lock_keeps; [|apply tick_keeps]].
  intros Ht. apply timeout_all_leads in Ht; [by etrans | done].
Qed.

Lemma release_leads h s e r s1 e1 :
  kernel_sync_release_handle_object (E := E) h s e = (r, s1, e1) -> leads s s1.
Proof.
  unfold kernel_sync_release_handle_object. destruct h as [h|]; [|by intros [= _ <- _]].
  destruct (_ && _); [by intros [= _ <- _]|]. call_eqn own s2 e2 Hl.
  apply lock_leads in Hl; [|apply sec_release].
  call_eqn x s3 e3 Hf. apply on_sched_leads in Hf.
  2: { intros Hi. unfold find_process_by_identity. destruct (_ || _); [by apply keeps_place_refl|].
       apply sched_lock_keeps; [done | by apply keeps_place_refl]. }
  assert (leads s s3) as H3 by (by etrans). destruct x as [x|]; [|by intros [= _ <- _]].
  call_eqn y s4 e4 Hc. apply on_sched_leads in Hc; [intros [= _ <- _]; by etrans|].
  intros Hi. apply sched_lock_keeps; [done|]. by apply signal_all_keeps.
Qed.

(** Every operation is a sequence of locked sections. *)
Lemma sync_exec_leads fuel op s e s1 e1 : sync_inv s -> sync_op_ok op ->
  sync_exec fuel op s e = Some (s1, e1) -> leads s s1.
Proof.
  assert (forall ty, is_sync_type ty -> forall p r s2 e2, create_object handle_table p ty 0 0 s e = (r, s2, e2) -> leads s s2) as Hcreate.
  { intros ty Hty p r s2 e2. apply create_leads; [done | lia | done]. }
  intros Hs Hop. destruct op; cbn [sync_exec sync_op_ok] in *; unfold answered, may_end.
  - destruct (kernel_mutex_create _ p s e) as [[r s2] e2] eqn:Hc. intros [= <- _].
    eapply Hcreate, Hc. by left.
  - destruct (kernel_mutex_lock _ _ _ _ _ _ s e) as [[r s2] e2] eqn:Hc. intros [= <- _].
    by eapply mutex_lock_leads.
  - destruct (kernel_mutex_unlock _ _ _ _ _ s e) as [[[r s2] e2]|] eqn:Hc; [|done]. intros [= <- _].
    by eapply unlock_leads.
  - unfold kernel_semaphore_create. destruct (_ || _) eqn:Hg; [by intros [= <- _]|].
    destruct (create_object _ _ _ _ _ s e) as [[r s2] e2] eqn:Hc. intros [= <- _].
    rewrite !orb_false_iff in Hg. destruct Hg as [[_ Hm] Hi].
    apply Z.ltb_ge in Hm, Hi. eapply create_leads; [by right; left | | exact Hm | exact Hc]. lia.
  - destruct (kernel_semaphore_wait _ _ _ _ _ _ s e) as [[r s2] e2] eqn:Hc. intros [= <- _].
    by eapply sem_wait_leads.
  - destruct (kernel_semaphore_post _ _ _ _ s e) as [[r s2] e2] eqn:Hc. intros [= <- _].
    revert Hc. unfold kernel_semaphore_post. destruct (_ =? 0); [by intros [= _ <- _]|].
    call_eqn oid s3 e3 Hr. apply resolve_leads in Hr. destruct oid as [oid|]; [|by intros [= _ <- _]].
    intros Hl%post_loop_leads. by etrans.
  - destruct (kernel_condition_create _ p s e) as [[r s2] e2] eqn:Hc. intros [= <- _].
    eapply Hcreate, Hc. by right; right.
  - destruct (kernel_condition_wait _ _ _ _ _ _ _ _ s e) as [[[r s2] e2]|] eqn:Hc; [|done]. intros [= <- _].
    by eapply cond_wait_leads.
  - destruct (kernel_condition_signal _ _ _ _ _ s e) as [[[r s2] e2]|] eqn:Hc; [|done]. intros [= <- _].
    revert Hc. unfold kernel_condition_signal. call_eqn oid s3 e3 Hr. apply resolve_leads in Hr.
    destruct oid as [oid|]; [|by intros [= _ <- _]].
    destruct (condition_signal_loop _ _ _ _ s3 e3) as [[s4 e4]|] eqn:Hl; [|done].
    apply signal_loop_leads in Hl. intros [= _ <- _]. by etrans.
  - destruct (kernel_sync_release_handle_object h s e) as [[r s2] e2] eqn:Hc. intros [= <- _].
    by eapply release_leads.
  - unfold kernel_sync_thread_exit. destruct t as [i|]; [|by intros [= <- _]].
    destruct (th_owner _); [|by intros [= <- _]].
    destruct (with_lock sync_lock [] _ s e) as [[l s2] e2] eqn:Hl. apply lock_leads in Hl; [|apply sec_exit].
    intros Hw%wake_released_leads. by etrans.
  - intros [= Ht]. by eapply tick_leads.
Qed.

(** C9: mutual exclusion and bounded counts, over every interleaving.  From a
    state that satisfies the invariant, after any sequence of locked sections of
    any number of threads (the sections of this component in any order, changes
    of the handle tables, and scheduler sections that leave threads where they
    run), a semaphore's count is between 0 and its maximum, only active objects
    of a synchronisation type with a non-zero generation are used and only
    mutexes have owners; the next section gives a mutex an owner only when it is
    free; and every operation, run to its end, is such a sequence of
    sections. *)
Theorem sync_sections_safe s s' : sync_inv s -> rtc sync_section s s' ->
  sync_inv s' /\ (forall s'', sync_section s' s'' -> mutex_step s' s'') /\
  (forall fuel op (e : E) s1 e1, sync_op_ok op -> sync_exec fuel op s' e = Some (s1, e1) ->
     rtc sync_section s' s1).
Proof.
  intros Hs Hr. assert (sync_inv s') as Hs'.
  { induction Hr as [|s1 s2 s3 H12 _ IH]; [done|]. apply IH. by apply (sync_section_ok _ _ H12). }
  split; [done|]. split; [intros s'' Hsec; by apply sync_section_ok|].
  intros fuel op e s1 e1 Hop Hx. by apply (sync_exec_leads fuel op s' e s1 e1).
Qed.
End Interleaving.

(** ** Waiters *)

(** The threads of [p] that wait for [reason] on an object. *)
Definition waiters (p : option Z) (reason id : Z) (s : SchedState) : list Z :=
  filter (fun i => waits_on p reason id (thread_at s i) = true) (seqZ 0 THREAD_TABLE_SIZE).

Lemma waiters_elem p reason id s i :
  i ∈ waiters p reason id s <-> is_thread i /\ waits_on p reason id (thread_at s i) = true.
Proof. unfold waiters, is_thread. rewrite list_elem_of_filter, elem_of_seqZ. sched_consts. naive_solver lia. Qed.
Lemma waiters_nodup p reason id s : NoDup (waiters p reason id s).
Proof. apply NoDup_filter, NoDup_seqZ. Qed.

Lemma waits_on_fixed p reason id s s' j : th_fixed (thread_at s' j) = th_fixed (thread_at s j) ->
  context_at s' j = context_at s j ->
  waits_on p reason id (thread_at s' j) = waits_on p reason id (thread_at s j).
Proof.
  unfold th_fixed, context_at. intros [= _ _ Ho _ Hc _ _] Hx. unfold waits_on, waits_for, owned_by.
  by rewrite Ho, Hc, Hx.
Qed.

(** A change that touches only thread [i] and makes it stop waiting takes [i]
    out of the waiters and changes nothing else there. *)
Lemma waiters_touch p reason id i s s' : touches i s s' ->
  waits_on p reason id (thread_at s' i) = false ->
  waiters p reason id s' = filter (fun j => j <> i) (waiters p reason id s).
Proof.
  intros Ht Hi. unfold waiters. rewrite list_filter_filter. apply list_filter_iff_in.
  intros j [Hj1 Hj2]%elem_of_seqZ. destruct (decide (j = i)) as [->|Hne].
  - rewrite Hi. naive_solver.
  - rewrite (waits_on_fixed p reason id s s' j); [naive_solver | apply Ht | apply Ht; [|done]].
    unfold is_thread. sched_consts. lia.
Qed.
Lemma filter_one_length (l : list Z) i : NoDup l -> i ∈ l ->
  length l = S (length (filter (fun j => j <> i) l)).
Proof.
  intros Hn. induction Hn as [|x l Hx Hn IH]; intros Hi; [by apply elem_of_nil in Hi|].
  apply elem_of_cons in Hi as [->|Hi].
  - rewrite filter_cons_False by tauto. simpl. f_equal. clear IH Hn. induction l as [|y l IH]; [done|].
    apply not_elem_of_cons in Hx as [Hy Hx]. rewrite filter_cons_True by done. simpl. f_equal. by apply IH.
  - assert (x <> i) by (intros ->; done). rewrite filter_cons_True by done. simpl. f_equal. by apply IH.
Qed.

Section Progress.
Context {E : Type} {KE : KernelEnv E} {LL : LockLaws E} (handle_table : Z -> Z).

(** Both locks of the component are ready. *)
Definition locks_ready (e : E) : Prop := ready e process_lock /\ ready e sync_lock.
(** Every lock that was ready still is. *)
Definition keeps_ready (e e' : E) : Prop := forall l, ready e l -> ready e' l.
#[local] Instance keeps_ready_preorder : PreOrder keeps_ready.
Proof. split; [by intros e l|]. intros e1 e2 e3 H12 H23 l Hl. by apply H23, H12. Qed.
Lemma keeps_locks e e' : keeps_ready e e' -> locks_ready e -> locks_ready e'.
Proof. intros Hk []. split; by apply Hk. Qed.

Lemma sched_same s : s <| sync_sched := sync_sched s |> = s.
Proof. by destruct s. Qed.

(** The oldest waiter, when there is one. *)
Lemma find_oldest_ready p reason id s e : ready e process_lock ->
  exists w e', on_sched (thread_wait_find_oldest (Some p) reason id) s e = (w, s, e') /\ keeps_ready e e' /\
    match w with
    | None => waiters (Some p) reason id (sync_sched s) = []
    | Some i => i ∈ waiters (Some p) reason id (sync_sched s) /\
        forall j, j ∈ waiters (Some p) reason id (sync_sched s) ->
          wait_sequence (context_at (sync_sched s) i) <= wait_sequence (context_at (sync_sched s) j)
    end.
Proof.
  intros Hr. unfold on_sched, thread_wait_find_oldest.
  match goal with |- context [with_lock process_lock None ?b ?x e] =>
    destruct (with_lock_ready process_lock None b x e Hr) as (e' & -> & Hk) end.
  cbv beta iota. rewrite sched_same. eexists _, e'. split; [reflexivity|]. split; [done|].
  pose proof (select_oldest_ok (waits_on (Some p) reason id) (sync_sched s)) as Ho.
  destruct (select_oldest _ _) as [i|].
  - destruct Ho as (Hi & Hw & Hmin). split; [by apply waiters_elem|].
    intros j [Hj Hwj]%waiters_elem. by apply Hmin.
  - destruct (waiters _ _ _ _) as [|j l] eqn:Hl; [done|].
    assert (j ∈ waiters (Some p) reason id (sync_sched s)) as [Hj Hw]%waiters_elem by (rewrite Hl; by left).
    by rewrite Ho in Hw.
Qed.

Lemma waits_on_inv p reason id t : waits_on p reason id t = true ->
  nonzero (wait_pending (th_context t)) = true /\ wait_reason (th_context t) = reason /\
  wait_object_id (th_context t) = id /\ th_owner t = p.
Proof.
  unfold waits_on, waits_for, owned_by. rewrite !andb_true_iff, !Z.eqb_eq, bool_decide_eq_true. tauto.
Qed.
Lemma not_pending p reason id t : wait_pending (th_context t) = 0 -> waits_on p reason id t = false.
Proof. intros Hp. unfold waits_on, waits_for. rewrite Hp. simpl. by rewrite andb_false_r. Qed.

Lemma signal_ready i reason result p id s e : sync_inv s -> ready e process_lock ->
  i ∈ waiters p reason id (sync_sched s) ->
  exists sch e', on_sched (thread_wait_signal (Some i) reason result) s e
      = (1, s <| sync_sched := sch |>, e') /\
    keeps_ready e e' /\ touches i (sync_sched s) sch /\
    wait_pending (context_at sch i) = 0 /\ wait_result (context_at sch i) = result /\
    waiters p reason id sch = filter (fun j => j <> i) (waiters p reason id (sync_sched s)).
Proof.
  intros Hs Hr [Hi Hw]%waiters_elem. apply waits_on_inv in Hw as (Hp & Hre & _ & _).
  destruct (signal_ok (sync_sched s) i reason result (sv_sched _ Hs) Hi Hp Hre) as (H1 & Ht & Hp' & Hres & _).
  unfold on_sched, thread_wait_signal.
  destruct (with_lock_ready process_lock 0 (thread_wait_signal_unlocked (Some i) reason result)
    (sync_sched s) e Hr) as (e' & -> & Hk).
  destruct (thread_wait_signal_unlocked _ _ _ _) as [r sch]. cbn [fst snd] in *. subst r. exists sch, e'.
  split_and!; try done. apply waiters_touch; [done|]. by apply not_pending.
Qed.

Lemma resolve_ready p handle ty s e r s0 e0 : ready e (handle_table p) ->
  resolve_object handle_table (Some p) handle ty s e = (r, s0, e0) ->
  exists ts, s0 = s <| sync_tables := ts |> /\ keeps_ready e e0.
Proof.
  intros Hr. unfold resolve_object, kernel_handle_resolve_copy, kernel_handle_resolve_copy_result.
  destruct (_ || _); [intros [= _ <- <-]; by eexists|]. unfold with_table.
  match goal with |- context [with_lock ?l ?f ?b ?x ?y] =>
    destruct (with_lock_ready (S := Tables) l f b x y Hr) as (e' & Hw & Hk) end.
  rewrite Hw. clear Hw.
  destruct (resolve_unlocked_result _ _ _ _) as [x y]. intros [= _ <- <-]. by eexists.
Qed.

(** The fields that decide whether an identifier names an object. *)
Definition same_name (o o' : KernelSyncObject) : Prop :=
  sy_active o' = sy_active o /\ sy_type o' = sy_type o /\ sy_generation o' = sy_generation o.

Lemma object_from_id_put s id ty k o : sync_inv s -> object_from_id s id ty = Some k ->
  same_name (sync_at s k) o -> object_from_id (put_sync k o s) id ty = Some k /\ sync_at (put_sync k o s) k = o.
Proof.
  intros Hs Hf (Ha & Ht & Hg). pose proof (object_from_id_Some _ _ _ _ Hf) as (Hk & _ & _ & Hu & _).
  assert (sync_at (put_sync k o s) k = o) as Hp by (rewrite sync_put by done; by case_decide).
  split; [|done]. revert Hf. unfold object_from_id. rewrite Hu, Z.add_simpl_r, Hp, Ha, Ht, Hg. done.
Qed.

(** One unit: a waiter, the oldest, gets it, or else the count does. *)
Lemma post_one_ok p id k s e x s1 e1 : sync_inv s -> locks_ready e ->
  object_from_id s id KERNEL_HANDLE_TYPE_SEMAPHORE = Some k ->
  post_one (Some p) id s e = (x, s1, e1) ->
  let W := waiters (Some p) PROCESS_WAIT_SEMAPHORE id in
  let count s := semaphore_count (sync_at s k) in
  sync_inv s1 /\ locks_ready e1 /\ object_from_id s1 id KERNEL_HANDLE_TYPE_SEMAPHORE = Some k /\
  semaphore_maximum (sync_at s1 k) = semaphore_maximum (sync_at s k) /\
  ((x = inr tt /\ count s1 = count s /\ exists i, i ∈ W (sync_sched s) /\
      (forall j, j ∈ W (sync_sched s) ->
         wait_sequence (context_at (sync_sched s) i) <= wait_sequence (context_at (sync_sched s) j)) /\
      W (sync_sched s1) = filter (fun j => j <> i) (W (sync_sched s)) /\
      touches i (sync_sched s) (sync_sched s1) /\ wait_pending (context_at (sync_sched s1) i) = 0 /\
      wait_result (context_at (sync_sched s1) i) = PROCESS_WAIT_OK) \/
   (x = inr tt /\ W (sync_sched s) = [] /\ sync_sched s1 = sync_sched s /\ count s1 = count s + 1) \/
   (x = inl SYS_ERR_OUT_OF_RANGE /\ W (sync_sched s) = [] /\ s1 = s /\
    count s = semaphore_maximum (sync_at s k))).
Proof.
  intros Hs Hr Hk. cbv zeta. unfold post_one.
  destruct (find_oldest_ready p PROCESS_WAIT_SEMAPHORE id s e (proj1 Hr)) as (w & e2 & -> & K2 & Hw).
  pose proof (keeps_locks _ _ K2 Hr) as Hr2. destruct w as [i|].
  - destruct Hw as [Hi Hmin].
    destruct (signal_ready i PROCESS_WAIT_SEMAPHORE PROCESS_WAIT_OK (Some p) id s e2 Hs (proj1 Hr2) Hi)
      as (sch & e3 & -> & K3 & Ht & Hp & Hres & HW). cbn [nonzero Z.eqb negb].
    intros [= <- <- <-]. split.
    { constructor; [apply Hs | apply Hs | by apply (touches_inv _ _ _ Ht)]. }
    split; [by apply (keeps_locks e2)|]. split; [done|]. split; [done|]. left.
    split; [done|]. split; [done|]. exists i. by split_and!.
  - cbn [nonzero Z.eqb negb].
    destruct (with_lock_ready sync_lock SYS_ERR_NOT_READY (post_unit_body id) s e2 (proj2 Hr2))
      as (e3 & -> & K3). assert (locks_ready e3) as Hr3 by (by apply (keeps_locks e2)).
    pose proof (sync_section_ok _ _ (sec_post id s) Hs) as [Hs1 _]. revert Hs1.
    unfold post_unit_body. rewrite Hk. destruct (_ =? _) eqn:Hfull; cbn [fst snd nonzero Z.eqb negb SYS_ERR_OUT_OF_RANGE];
      intros Hs1 [= <- <- <-].
    + apply Z.eqb_eq in Hfull. split_and!; try done. right. right. done.
    + apply Z.eqb_neq in Hfull. pose proof (object_from_id_Some _ _ _ _ Hk) as (Hsl & _).
      destruct (sv_objects _ Hs k Hsl). unfold OS_SEMAPHORE_MAX_COUNT in *.
      match goal with |- context [put_sync k ?o s] =>
        destruct (object_from_id_put s id _ k o Hs Hk) as [A B]; [done|]; rewrite B end.
      split_and!; try done. right. left. split_and!; try done. simpl.
      rewrite u32_small; [done | unfold is_u32; lia].
Qed.

(** What posting [n] units does: [given] units reach a waiter or the count. *)
Record posted (p id k n : Z) (s : SyncState) (r : Z) (s1 : SyncState) : Prop := {
  po_fewer : forall j, j ∈ waiters (Some p) PROCESS_WAIT_SEMAPHORE id (sync_sched s1) ->
    j ∈ waiters (Some p) PROCESS_WAIT_SEMAPHORE id (sync_sched s);
  po_oldest : forall i j, i ∈ waiters (Some p) PROCESS_WAIT_SEMAPHORE id (sync_sched s) ->
    i ∉ waiters (Some p) PROCESS_WAIT_SEMAPHORE id (sync_sched s1) ->
    j ∈ waiters (Some p) PROCESS_WAIT_SEMAPHORE id (sync_sched s1) ->
    wait_sequence (context_at (sync_sched s) i) <= wait_sequence (context_at (sync_sched s) j);
  po_woken : forall i, i ∈ waiters (Some p) PROCESS_WAIT_SEMAPHORE id (sync_sched s) ->
    i ∉ waiters (Some p) PROCESS_WAIT_SEMAPHORE id (sync_sched s1) ->
    wait_pending (context_at (sync_sched s1) i) = 0 /\
    wait_result (context_at (sync_sched s1) i) = PROCESS_WAIT_OK;
  po_others : forall j, is_thread j ->
    j ∉ waiters (Some p) PROCESS_WAIT_SEMAPHORE id (sync_sched s) ->
    context_at (sync_sched s1) j = context_at (sync_sched s) j;
  po_counted : semaphore_count (sync_at s k) <= semaphore_count (sync_at s1 k) /\
    (semaphore_count (sync_at s k) <> semaphore_count (sync_at s1 k) ->
     waiters (Some p) PROCESS_WAIT_SEMAPHORE id (sync_sched s1) = []);
  po_given : let given := alen (waiters (Some p) PROCESS_WAIT_SEMAPHORE id (sync_sched s))
      - alen (waiters (Some p) PROCESS_WAIT_SEMAPHORE id (sync_sched s1))
      + (semaphore_count (sync_at s1 k) - semaphore_count (sync_at s k)) in
    (r = 0 /\ given = n) \/
    (r = SYS_ERR_OUT_OF_RANGE /\ given < n /\
     semaphore_count (sync_at s1 k) = semaphore_maximum (sync_at s k) /\
     waiters (Some p) PROCESS_WAIT_SEMAPHORE id (sync_sched s1) = []);
}.

Lemma posted_wake p id k n s r s2 s1 i :
  let W s := waiters (Some p) PROCESS_WAIT_SEMAPHORE id (sync_sched s) in
  i ∈ W s -> (forall j, j ∈ W s ->
    wait_sequence (context_at (sync_sched s) i) <= wait_sequence (context_at (sync_sched s) j)) ->
  W s2 = filter (fun j => j <> i) (W s) -> touches i (sync_sched s) (sync_sched s2) ->
  wait_pending (context_at (sync_sched s2) i) = 0 ->
  wait_result (context_at (sync_sched s2) i) = PROCESS_WAIT_OK ->
  semaphore_count (sync_at s2 k) = semaphore_count (sync_at s k) ->
  semaphore_maximum (sync_at s2 k) = semaphore_maximum (sync_at s k) ->
  posted p id k n s2 r s1 -> posted p id k (n + 1) s r s1.
Proof.
  cbv zeta. intros Hi Hmin HW Ht Hp Hres Hc Hm [].
  assert (forall j, j ∈ waiters (Some p) PROCESS_WAIT_SEMAPHORE id (sync_sched s2) <->
    j ∈ waiters (Some p) PROCESS_WAIT_SEMAPHORE id (sync_sched s) /\ j <> i) as Hin.
  { intros j. rewrite HW, list_elem_of_filter. tauto. }
  assert (is_thread i) as Hti by (by apply waiters_elem in Hi as [? _]).
  assert (context_at (sync_sched s1) i = context_at (sync_sched s2) i) as Hci.
  { apply po_others0; [done|]. rewrite Hin. tauto. }
  assert (forall j, j ∈ waiters (Some p) PROCESS_WAIT_SEMAPHORE id (sync_sched s) -> j <> i ->
    context_at (sync_sched s2) j = context_at (sync_sched s) j) as Hcj.
  { intros j [Hj _]%waiters_elem Hne. by apply (to_others _ _ _ Ht). }
  constructor.
  - intros j Hj. by apply Hin, po_fewer0.
  - intros i0 j Hi0 Hn Hj. destruct (decide (i0 = i)) as [->|Hne].
    { apply Hmin. by apply Hin, po_fewer0. }
    pose proof (proj1 (Hin j) (po_fewer0 j Hj)) as [Hjs Hji].
    rewrite <- (Hcj i0 Hi0 Hne), <- (Hcj j Hjs Hji). apply po_oldest0; [by apply Hin | done | done].
  - intros i0 Hi0 Hn. destruct (decide (i0 = i)) as [->|Hne]; [by rewrite Hci|].
    apply po_woken0; [by apply Hin | done].
  - intros j Hj Hn. rewrite po_others0 by (try done; rewrite Hin; tauto).
    apply (to_others _ _ _ Ht); [done|]. intros ->. done.
  - by rewrite <- Hc.
  - cbv zeta in *. rewrite <- Hc, <- Hm.
    pose proof (filter_one_length _ i (waiters_nodup _ _ _ _) Hi) as Hl. rewrite <- HW in Hl.
    unfold alen in *. destruct po_given0 as [[-> H]|(-> & H & Hx & Hy)]; [left | right]; split_and!; try done; lia.
Qed.

Lemma post_loop_ok n p id k s e r s1 e1 : sync_inv s -> locks_ready e ->
  object_from_id s id KERNEL_HANDLE_TYPE_SEMAPHORE = Some k ->
  post_loop n (Some p) id s e = (r, s1, e1) ->
  posted p id k (Z.of_nat n) s r s1 /\ sync_inv s1 /\
  semaphore_maximum (sync_at s1 k) = semaphore_maximum (sync_at s k).
Proof.
  revert s e. induction n as [|n IH]; intros s e Hs Hr Hk; cbn [post_loop].
  - intros [= <- <- _]. split; [|done]. constructor; try done. left. split; [done|]. lia.
  - call_eqn x s2 e2 Hp.
    destruct (post_one_ok p id k s e x s2 e2 Hs Hr Hk Hp) as (Hs2 & Hr2 & Hk2 & Hm & Hcases). cbv zeta in Hcases.
    rewrite Nat2Z.inj_succ. unfold Z.succ.
    destruct Hcases as [(-> & Hc & i & Hi & Hmin & HW & Ht & Hpend & Hres)|[(-> & HW & Hsch & Hc)|(-> & HW & -> & Hc)]].
    + intros Hl. destruct (IH s2 e2 Hs2 Hr2 Hk2 Hl) as (Hpo & Hs1 & Hm1). split; [|split; [done | congruence]].
      by apply (posted_wake p id k (Z.of_nat n) s r s2 s1 i).
    + intros Hl. destruct (IH s2 e2 Hs2 Hr2 Hk2 Hl) as ([] & Hs1 & Hm1). split; [|split; [done | congruence]].
      rewrite Hsch in *. constructor; try done.
      * split; [lia|]. intros _. destruct (waiters _ _ _ (sync_sched s1)) as [|j l] eqn:Hj; [done|].
        specialize (po_fewer0 j ltac:(by left)). rewrite HW in po_fewer0. by apply elem_of_nil in po_fewer0.
      * cbv zeta in *. rewrite <- Hm.
        destruct po_given0 as [[-> H]|(-> & H & Hx & Hy)]; [left | right]; split_and!; try done; lia.
    + intros [= <- <- _]. split; [|done]. constructor; try done. right. split_and!; try done. lia.
Qed.

(** Posting conserves units.  With its locks granted, releasing [n] units of
    a live semaphore wakes waiting threads oldest first, each with success, and
    adds to the count only when no thread waits; the threads woken and the rise
    of the count make exactly [n] and the answer is 0, or they make fewer, the
    count is at its maximum, nobody waits and the answer is "out of range".  All
    other threads keep their wait state. *)
Theorem semaphore_post_conserves p handle n s e id s0 e0 k r s' e' : sync_inv s ->
  locks_ready e -> ready e (handle_table p) -> 0 < n ->
  resolve_object handle_table (Some p) handle KERNEL_HANDLE_TYPE_SEMAPHORE s e = (Some id, s0, e0) ->
  object_from_id s id KERNEL_HANDLE_TYPE_SEMAPHORE = Some k ->
  kernel_semaphore_post handle_table (Some p) handle n s e = (r, s', e') ->
  posted p id k n s r s'.
Proof.
  intros Hs Hr Ht Hn Hres Hk. unfold kernel_semaphore_post. rewrite (proj2 (Z.eqb_neq n 0)) by lia.
  rewrite Hres. destruct (resolve_ready _ _ _ _ _ _ _ _ Ht Hres) as (ts & -> & Kr).
  intros Hl. assert (sync_inv (s <| sync_tables := ts |>)) as Hs0 by (constructor; apply Hs).
  destruct (post_loop_ok _ _ _ k _ _ _ _ _ Hs0 (keeps_locks _ _ Kr Hr) Hk Hl) as [Hpo _].
  rewrite Z2Nat.id in Hpo by lia. destruct Hpo. by constructor.
Qed.

(** ** Handing a mutex over *)

(** A free mutex of the process is given to whoever asks. *)
Lemma acquire_free id k pid t error s : sync_inv s ->
  object_from_id s id KERNEL_HANDLE_TYPE_MUTEX = Some k -> sy_owner (sync_at s k) = pid ->
  mutex_owner (sync_at s k) = (0, 0) -> t.1 <> 0 ->
  try_acquire_body id pid t error s = ((true, 0), put_sync k ((sync_at s k) <| mutex_owner := t |>) s).
Proof.
  intros Hs Hk <- Hm Ht. unfold try_acquire_body. rewrite Hk, Hm, !Z.eqb_refl. cbn [negb orb fst snd].
  by rewrite (proj2 (Z.eqb_neq 0 t.1)) by congruence.
Qed.

Lemma wake_mutex_ok fuel p id k s e : sync_inv s -> locks_ready e ->
  object_from_id s id KERNEL_HANDLE_TYPE_MUTEX = Some k ->
  sy_owner (sync_at s k) = process_identity (sync_sched s) (Some p) ->
  mutex_owner (sync_at s k) = (0, 0) ->
  (forall i, i ∈ waiters (Some p) PROCESS_WAIT_MUTEX id (sync_sched s) -> th_tid (thread_at (sync_sched s) i) <> 0) ->
  exists s' e', wake_mutex_waiter (S fuel) (Some p) id s e = Some (s', e') /\
  ((waiters (Some p) PROCESS_WAIT_MUTEX id (sync_sched s) = [] /\ s' = s) \/
   exists i, i ∈ waiters (Some p) PROCESS_WAIT_MUTEX id (sync_sched s) /\
     (forall j, j ∈ waiters (Some p) PROCESS_WAIT_MUTEX id (sync_sched s) ->
        wait_sequence (context_at (sync_sched s) i) <= wait_sequence (context_at (sync_sched s) j)) /\
     mutex_owner (sync_at s' k) = thread_identity (sync_sched s) (Some i) /\
     touches i (sync_sched s) (sync_sched s') /\ wait_pending (context_at (sync_sched s') i) = 0 /\
     wait_result (context_at (sync_sched s') i) = wait_result (context_at (sync_sched s) i) /\
     waiters (Some p) PROCESS_WAIT_MUTEX id (sync_sched s')
     = filter (fun j => j <> i) (waiters (Some p) PROCESS_WAIT_MUTEX id (sync_sched s))).
Proof.
  intros Hs Hr Hk Ho Hm Htid. cbn [wake_mutex_waiter].
  destruct (find_oldest_ready p PROCESS_WAIT_MUTEX id s e (proj1 Hr)) as (w & e2 & -> & K2 & Hw).
  pose proof (keeps_locks _ _ K2 Hr) as Hr2. destruct w as [i|]; [|exists s, e2; by split; [|left]].
  destruct Hw as [Hi Hmin]. unfold mutex_try_acquire.
  match goal with |- context [with_lock sync_lock ?f ?b s e2] =>
    destruct (with_lock_ready sync_lock f b s e2 (proj2 Hr2)) as (e3 & -> & K3) end.
  rewrite (acquire_free id k _ (thread_identity (sync_sched s) (Some i)) _ s Hs Hk Ho Hm) by (by apply Htid).
  set (s2 := put_sync k _ s). cbn [negb]. cbv zeta.
  assert (sync_inv s2) as Hs2.
  { pose proof (sync_section_ok _ _ (sec_try_acquire id (process_identity (sync_sched s) (Some p))
      (thread_identity (sync_sched s) (Some i)) SYS_ERR_WOULD_BLOCK s) Hs) as [Hx _].
    by rewrite (acquire_free id k _ _ _ s Hs Hk Ho Hm) in Hx by (by apply Htid). }
  destruct (signal_ready i PROCESS_WAIT_MUTEX (wait_result (context_at (sync_sched s2) i)) (Some p) id s2 e3
    Hs2 (proj1 (keeps_locks _ _ K3 Hr2)) Hi) as (sch & e4 & -> & _ & Ht & Hp & Hres & HW).
  cbn [nonzero Z.eqb negb]. eexists _, e4. split; [reflexivity|]. right. exists i.
  split_and!; try done. change (sync_at (s2 <| sync_sched := sch |>) k) with (sync_at s2 k). unfold s2.
  match goal with |- context [put_sync k ?o s] => destruct (object_from_id_put s id _ k o Hs Hk) as [_ ->] end; done.
Qed.

(** Unlocking hands the mutex over.  When a thread unlocks a mutex it owns,
    of its own process, and the locks are granted, the call returns 0 after at
    most one round: if no thread of the process waits for the mutex it is free
    and no thread's wait changes; otherwise a waiter with the smallest sequence
    number owns it, that waiter stops waiting and keeps the result stored for
    it, it is the only one taken out of the waiters and no other context
    changes. *)
Theorem mutex_unlock_hands_over fuel p t handle s e id s0 e0 k : sync_inv s -> locks_ready e ->
  ready e (handle_table p) ->
  resolve_object handle_table (Some p) handle KERNEL_HANDLE_TYPE_MUTEX s e = (Some id, s0, e0) ->
  object_from_id s id KERNEL_HANDLE_TYPE_MUTEX = Some k ->
  sy_owner (sync_at s k) = process_identity (sync_sched s) (Some p) ->
  mutex_owner (sync_at s k) = thread_identity (sync_sched s) (Some t) ->
  (forall i, i ∈ waiters (Some p) PROCESS_WAIT_MUTEX id (sync_sched s) -> th_tid (thread_at (sync_sched s) i) <> 0) ->
  exists s' e', kernel_mutex_unlock handle_table (S fuel) (Some p) (Some t) handle s e = Some (0, s', e') /\
  let W := waiters (Some p) PROCESS_WAIT_MUTEX id in
  ((W (sync_sched s) = [] /\ mutex_owner (sync_at s' k) = (0, 0) /\ sync_sched s' = sync_sched s) \/
   exists i, i ∈ W (sync_sched s) /\
     (forall j, j ∈ W (sync_sched s) ->
        wait_sequence (context_at (sync_sched s) i) <= wait_sequence (context_at (sync_sched s) j)) /\
     mutex_owner (sync_at s' k) = thread_identity (sync_sched s) (Some i) /\
     wait_pending (context_at (sync_sched s') i) = 0 /\
     wait_result (context_at (sync_sched s') i) = wait_result (context_at (sync_sched s) i) /\
     W (sync_sched s') = filter (fun j => j <> i) (W (sync_sched s)) /\
     forall j, is_thread j -> j <> i -> context_at (sync_sched s') j = context_at (sync_sched s) j).
Proof.
  intros Hs Hr Hta Hres Hk Ho Hm Htid. cbv zeta. unfold kernel_mutex_unlock. rewrite Hres.
  destruct (resolve_ready _ _ _ _ _ _ _ _ Hta Hres) as (ts & -> & Kr). set (s1 := s <| sync_tables := ts |>).
  assert (sync_inv s1) as Hs1 by (constructor; apply Hs). pose proof (keeps_locks _ _ Kr Hr) as Hr0.
  destruct (with_lock_ready sync_lock SYS_ERR_NOT_READY (unlock_body (Some t) id) s1 e0 (proj2 Hr0))
    as (e2 & -> & K2). pose proof (keeps_locks _ _ K2 Hr0) as Hr2.
  pose proof (sync_section_ok _ _ (sec_unlock (Some t) id s1) Hs1) as [Hs2 _]. revert Hs2.
  assert (object_from_id s1 id KERNEL_HANDLE_TYPE_MUTEX = Some k) as Hk1 by done.
  unfold unlock_body. rewrite Hk1. change (sync_at s1 k) with (sync_at s k).
  change (sync_sched s1) with (sync_sched s). rewrite Hm, !Z.eqb_refl. cbn [negb orb fst snd nonzero Z.eqb].
  set (o := (sync_at s k) <| mutex_owner := (0, 0) |>). intros Hs2.
  destruct (object_from_id_put s1 id _ k o Hs1 Hk1) as [Hk2 Hat]; [done|].
  destruct (wake_mutex_ok fuel p id k (put_sync k o s1) e2 Hs2 Hr2 Hk2) as (s' & e' & -> & Hcases);
    [by rewrite Hat | by rewrite Hat | done |].
  exists s', e'. split; [done|]. destruct Hcases as [[HW ->]|(i & Hi & Hmin & Hown & Ht & Hp & Hre & HW)].
  - left. by rewrite Hat.
  - right. exists i. split_and!; try done. intros j Hj Hne. by apply (to_others _ _ _ Ht).
Qed.

(** ** Broadcasting *)

Lemma touches_sequence i s : sched_inv s -> touches i s (wait_next_sequence_unlocked s).2 /\
  forall j, context_at (wait_next_sequence_unlocked s).2 j = context_at s j.
Proof.
  intros Hs. pose proof (sequence_keeps s Hs) as Hk. unfold wait_next_sequence_unlocked in *.
  destruct (next_wait_sequence s =? 0); cbn [snd] in *; by split; [constructor|].
Qed.

Lemma retarget_ok i old new id aux result s : sched_inv s -> is_thread i ->
  nonzero (wait_pending (context_at s i)) = true -> wait_reason (context_at s i) = old ->
  let r := retarget_body (Some i) old new id aux result s in
  touches i s r.2 /\ wait_pending (context_at r.2 i) = wait_pending (context_at s i) /\
  wait_reason (context_at r.2 i) = new /\ wait_object_id (context_at r.2 i) = id /\
  wait_result (context_at r.2 i) = result.
Proof.
  intros Hs Hi Hp Hre. cbv zeta. unfold retarget_body, thread_wait_is_pending.
  rewrite (si_context _ Hs i Hi), Hp, Hre, Z.eqb_refl. cbn [andb].
  match goal with |- context [upd_context i ?f s] =>
    pose proof (touches_upd i s f Hs Hi) as H1; pose proof (context_upd s i f Hi (si_threads _ Hs)) as Hc1;
    set (s1 := upd_context i f s) in * end.
  clearbody s1. pose proof (touches_inv _ _ _ H1) as Hs1.
  pose proof (touches_sequence i s1 Hs1) as [H2 Hc2]. destruct (wait_next_sequence_unlocked s1) as [q s2].
  cbn [fst snd] in *. pose proof (touches_inv _ _ _ H2) as Hs2.
  match goal with |- context [upd_context i ?f s2] =>
    pose proof (touches_upd i s2 f Hs2 Hi) as H3; rewrite (context_upd s2 i f Hi (si_threads _ Hs2)) end.
  rewrite Hc2, Hc1. split; [|done]. eapply touches_trans; [exact H1|]. by eapply touches_trans.
Qed.

(** How a condition wait ends: the thread is woken, or it now waits for the
    mutex it gave up. *)
Definition wait_over (p id i : Z) (s s' : SchedState) : Prop :=
  wait_pending (context_at s' i) = 0 \/
  i ∈ waiters (Some p) PROCESS_WAIT_MUTEX (wait_aux_object_id (context_at s i)) s'.

Lemma over_touch p id i s s' : touches i s s' -> wait_over p id i s s' ->
  waits_on (Some p) PROCESS_WAIT_CONDITION id (thread_at s' i) = false.
Proof.
  intros Ht [Hp|[_ Hw]%waiters_elem]; [by apply not_pending|].
  apply waits_on_inv in Hw as (_ & Hre & _). unfold waits_on, waits_for. rewrite Hre.
  by rewrite andb_false_r.
Qed.

Lemma finish_ok p id i result s e s1 e1 : sync_inv s -> locks_ready e ->
  i ∈ waiters (Some p) PROCESS_WAIT_CONDITION id (sync_sched s) ->
  finish_condition_wait (Some i) result s e = (s1, e1) ->
  sync_inv s1 /\ locks_ready e1 /\ touches i (sync_sched s) (sync_sched s1) /\
  wait_over p id i (sync_sched s) (sync_sched s1).
Proof.
  intros Hs Hr Hi Hf. pose proof (finish_leads _ _ _ _ _ _ (proj1 (proj1 (waiters_elem _ _ _ _ _) Hi) : ptr_ok (Some i)) Hf Hs)
    as [Hs1 _]. split; [done|]. clear Hs1.
  pose proof Hi as [Ht Hw]%waiters_elem. apply waits_on_inv in Hw as (Hp & Hre & _ & Hown). revert Hf.
  unfold finish_condition_wait. rewrite (si_context _ (sv_sched _ Hs) i Ht). cbn [negb]. cbv zeta.
  unfold mutex_try_acquire.
  match goal with |- context [with_lock sync_lock ?f ?b s e] =>
    destruct (with_lock_ready sync_lock f b s e (proj2 Hr)) as (e2 & -> & K2);
    assert (sync_sched (b s).2 = sync_sched s) as Hsch;
    [|pose proof (sync_section_ok _ _ (sec_try_acquire _ _ _ SYS_ERR_WOULD_BLOCK s) Hs : section_ok s (b s).2) as [Hs2 _];
      destruct (b s) as [[acq err] s2]] end.
  { unfold try_acquire_body. repeat (case_match; try done). }
  cbn [snd] in *. pose proof (keeps_locks _ _ K2 Hr) as Hr2.
  assert (forall v s3 e3, on_sched (thread_wait_signal (Some i) PROCESS_WAIT_CONDITION v) s2 e2 = (s3, e3) ->
    locks_ready e3 /\ touches i (sync_sched s) (sync_sched s3.2) /\
    wait_over p id i (sync_sched s) (sync_sched s3.2)) as Hsig.
  { intros v s3 e3. rewrite <- Hsch in Hi |- *.
    destruct (signal_ready i PROCESS_WAIT_CONDITION v (Some p) id s2 e2 Hs2 (proj1 Hr2) Hi)
      as (sch & e4 & -> & K4 & Hto & Hpend & _). intros [= <- <-]. cbn [snd].
    split; [by apply (keeps_locks e2)|]. split; [done | by left]. }
  call_eqn x s3 e3 Hc. intros [= <- <-].
  destruct acq; [by apply Hsig in Hc|]. destruct (err =? SYS_ERR_WOULD_BLOCK); [|by apply Hsig in Hc].
  revert Hc. unfold on_sched, thread_wait_retarget.
  match goal with |- context [with_lock process_lock ?f ?b (sync_sched s2) e2] =>
    destruct (with_lock_ready process_lock f b (sync_sched s2) e2 (proj1 Hr2)) as (e4 & -> & K4) end.
  rewrite Hsch.
  match goal with |- context [retarget_body (Some i) ?a ?b ?c ?d result (sync_sched s)] =>
    destruct (retarget_ok i a b c d result (sync_sched s) (sv_sched _ Hs) Ht Hp Hre) as (Hto & Hp' & Hre' & Ho' & _);
    destruct (retarget_body (Some i) a b c d result (sync_sched s)) as [y sch] end.
  cbn [fst snd] in *. intros [= _ <- <-]. split; [by apply (keeps_locks e2)|]. split; [done|]. right.
  apply waiters_elem. split; [done|]. unfold waits_on, waits_for, owned_by.
  pose proof (to_fixed _ _ _ Hto i) as Hfx. unfold th_fixed in Hfx. injection Hfx as _ _ Hfo _ Hfc _ _.
  unfold context_at in Hp', Hre', Ho'. cbn [sync_sched] in *.
  change (sync_sched (s2 <| sync_sched := sch |>)) with sch.
  rewrite Hfo, Hown, Hfc, Hp', Hre', Ho', (si_context _ (sv_sched _ Hs) i Ht), Hp, bool_decide_true by done.
  by rewrite !Z.eqb_refl.
Qed.

Lemma waiters_bound p reason id s : (length (waiters p reason id s) <= Z.to_nat THREAD_TABLE_SIZE)%nat.
Proof. unfold waiters. etrans; [apply length_filter|]. by rewrite length_seqZ. Qed.

Lemma wait_over_frame p id i s s2 s' : is_thread i -> th_fixed (thread_at s' i) = th_fixed (thread_at s2 i) ->
  context_at s' i = context_at s2 i -> wait_over p id i s s2 -> wait_over p id i s s'.
Proof.
  intros Hi Hf Hc [Hp|Hw]; [left; by rewrite Hc | right]. apply waiters_elem in Hw as [_ Hw].
  apply waiters_elem. split; [done|]. by rewrite (waits_on_fixed _ _ _ s2 s' i).
Qed.

Lemma broadcast_ok fuel p id s e : sync_inv s -> locks_ready e ->
  (length (waiters (Some p) PROCESS_WAIT_CONDITION id (sync_sched s)) < fuel)%nat ->
  exists s' e', condition_signal_loop fuel (Some p) id true s e = Some (s', e') /\
    waiters (Some p) PROCESS_WAIT_CONDITION id (sync_sched s') = [] /\
    (forall i, i ∈ waiters (Some p) PROCESS_WAIT_CONDITION id (sync_sched s) ->
       wait_over p id i (sync_sched s) (sync_sched s')) /\
    (forall j, th_fixed (thread_at (sync_sched s') j) = th_fixed (thread_at (sync_sched s) j)) /\
    forall j, is_thread j -> j ∉ waiters (Some p) PROCESS_WAIT_CONDITION id (sync_sched s) ->
      context_at (sync_sched s') j = context_at (sync_sched s) j.
Proof.
  revert s e. induction fuel as [|fuel IH]; intros s e Hs Hr Hfuel; [lia|]. cbn [condition_signal_loop].
  destruct (find_oldest_ready p PROCESS_WAIT_CONDITION id s e (proj1 Hr)) as (w & e2 & -> & K2 & Hw).
  pose proof (keeps_locks _ _ K2 Hr) as Hr2. destruct w as [i|].
  2: { exists s, e2. split_and!; try done. rewrite Hw. intros i Hi. by apply elem_of_nil in Hi. }
  destruct Hw as [Hi _]. destruct (finish_condition_wait (Some i) PROCESS_WAIT_OK s e2) as [s3 e3] eqn:Hf.
  destruct (finish_ok p id i _ s e2 s3 e3 Hs Hr2 Hi Hf) as (Hs3 & Hr3 & Ht & Hover).
  pose proof (waiters_touch _ _ _ _ _ _ Ht (over_touch _ _ _ _ _ Ht Hover)) as HW.
  pose proof (filter_one_length _ i (waiters_nodup _ _ _ _) Hi) as Hlen. rewrite <- HW in Hlen.
  destruct (IH s3 e3 Hs3 Hr3 ltac:(lia)) as (s' & e' & -> & He & Hov & Hfix & Hoth).
  exists s', e'. split; [done|]. split; [done|].
  assert (forall j, j ∈ waiters (Some p) PROCESS_WAIT_CONDITION id (sync_sched s3) <->
    j ∈ waiters (Some p) PROCESS_WAIT_CONDITION id (sync_sched s) /\ j <> i) as Hin.
  { intros j. rewrite HW, list_elem_of_filter. tauto. }
  split_and!.
  - intros j Hj. destruct (decide (j = i)) as [->|Hne].
    + assert (is_thread i) as Hti by (by apply waiters_elem in Hi as [? _]).
      apply (wait_over_frame _ _ _ _ (sync_sched s3)); [done | done | | done].
      apply Hoth; [done|]. rewrite Hin. tauto.
    + specialize (Hov j ltac:(by apply Hin)). revert Hov. unfold wait_over.
      rewrite (to_others _ _ _ Ht j); [done | by apply waiters_elem in Hj as [? _] | done].
  - intros j. rewrite Hfix. apply (to_fixed _ _ _ Ht).
  - intros j Hj Hn. rewrite Hoth by (try done; rewrite Hin; tauto).
    apply (to_others _ _ _ Ht); [done|]. intros ->. done.
Qed.

(** A broadcast ends and leaves nobody behind.  With the locks granted,
    [kernel_condition_signal] with [broadcast] set returns 0 after at most one
    round per thread of the table and one more; then no thread of the process
    waits for the condition, every thread that did has been woken or waits for
    the mutex it gave up, and the wait state of all other threads is as
    before. *)
Theorem condition_broadcast_ends fuel p handle s e id s0 e0 : sync_inv s -> locks_ready e ->
  ready e (handle_table p) -> (Z.to_nat THREAD_TABLE_SIZE < fuel)%nat ->
  resolve_object handle_table (Some p) handle KERNEL_HANDLE_TYPE_CONDITION s e = (Some id, s0, e0) ->
  exists s' e', kernel_condition_signal handle_table fuel (Some p) handle true s e = Some (0, s', e') /\
    waiters (Some p) PROCESS_WAIT_CONDITION id (sync_sched s') = [] /\
    (forall i, i ∈ waiters (Some p) PROCESS_WAIT_CONDITION id (sync_sched s) ->
       wait_over p id i (sync_sched s) (sync_sched s')) /\
    forall j, is_thread j -> j ∉ waiters (Some p) PROCESS_WAIT_CONDITION id (sync_sched s) ->
      context_at (sync_sched s') j = context_at (sync_sched s) j.
Proof.
  intros Hs Hr Hta Hfuel Hres. unfold kernel_condition_signal. rewrite Hres.
  destruct (resolve_ready _ _ _ _ _ _ _ _ Hta Hres) as (ts & -> & Kr).
  assert (sync_inv (s <| sync_tables := ts |>)) as Hs1 by (constructor; apply Hs).
  destruct (broadcast_ok fuel p id (s <| sync_tables := ts |>) e0 Hs1 (keeps_locks _ _ Kr Hr))
    as (s' & e' & -> & A & B & _ & C); [|by exists s', e'].
  pose proof (waiters_bound (Some p) PROCESS_WAIT_CONDITION id (sync_sched s)). simpl. lia.
Qed.
End Progress.

(** ** Witnesses

    A process with three threads, a mutex, a semaphore with no units and a
    condition, created by the operations themselves. *)

Definition demo_handles (p : Z) : Z := 100 + p.
Definition sync_boot : SyncState := {|
  sync_objects := replicate 32 inhabitant;
  sync_tables := {[100 := init_body inhabitant]};
  sync_sched := {|
    thread_table := [demo_thread 1 SCHED_STATE_RUNNING 0 0 0; demo_thread 2 SCHED_STATE_RUNNING 0 0 0;
                     demo_thread 3 SCHED_STATE_RUNNING 0 0 0] ++ replicate 125 inhabitant;
    process_table := {| pr_pid := 1; pr_generation := 1; pr_active := 1; pr_background := 0;
                        pr_main_tid := 1; pr_main_generation := 1 |} :: replicate 15 inhabitant;
    sched_queue := replicate 128 None; sched_queue_count := 0; sched_queue_head := 0;
    next_wait_sequence := 1; sched_last_pid := 0; sched_switch_count := 0; sched_yield_count := 0;
    sched_events := [] |} |}.

Lemma sync_boot_inv : sync_inv sync_boot.
Proof.
  constructor; [reflexivity| |].
  - intros i Hi. unfold sync_at, sync_boot. cbn [sync_objects]. rewrite aget_replicate by (unfold is_slot, KERNEL_SYNC_MAX_OBJECTS in Hi; lia).
    constructor; simpl; unfold is_u32, OS_SEMAPHORE_MAX_COUNT; try done; try lia.
  - assert (run_queue (sync_sched sync_boot) = []) as Hq by reflexivity.
    constructor; rewrite ?Hq; try done.
    + intros i Hi. apply (forallb_aget th_has_context (thread_table (sync_sched sync_boot))); [reflexivity | exact Hi].
    + by apply NoDup_nil.
    + intros x Hx. by apply elem_of_nil in Hx.
Qed.

(** The state after a sequence of operations in the quiet environment. *)
Fixpoint demo_after (ops : list SyncOp) (s : SyncState) : SyncState :=
  match ops with
  | [] => s
  | op :: ops => demo_after ops
      match sync_exec (E := unit) demo_handles 2 op s tt with Some (s', _) => s' | None => s end
  end.
Lemma demo_after_inv ops s : Forall sync_op_ok ops -> sync_inv s -> sync_inv (demo_after ops s).
Proof.
  intros Hops. revert s. induction Hops as [|op ops Hop _ IH]; intros s Hs; [done|]. apply IH.
  destruct (sync_exec demo_handles 2 op s tt) as [[s' []]|] eqn:Hx; [|done].
  by apply (sync_exec_leads demo_handles 2 op s tt s' tt).
Qed.

(** Handles 1, 2 and 3 of the table. *)
Definition demo_mutex : Z := encode_handle_token 0 1.
Definition demo_semaphore : Z := encode_handle_token 1 2.
Definition demo_condition : Z := encode_handle_token 2 3.
Definition demo_creates : list SyncOp :=
  [OMutexCreate (Some 0); OSemCreate (Some 0) 0 5; OCondCreate (Some 0)].

(** Thread 0 holds the mutex, threads 1 and 2 wait for it. *)
Definition demo_contended : SyncState := demo_after (demo_creates ++
  [OMutexLock (Some 0) (Some 0) demo_mutex 0 0; OMutexLock (Some 0) (Some 1) demo_mutex 0 0;
   OMutexLock (Some 0) (Some 2) demo_mutex 0 0]) sync_boot.
(** Threads 1 and 2 wait for the semaphore. *)
Definition demo_waiting : SyncState := demo_after (demo_creates ++
  [OSemWait (Some 0) (Some 1) demo_semaphore 0 0; OSemWait (Some 0) (Some 2) demo_semaphore 0 0]) sync_boot.
(** Threads 1 and 2 wait for the condition, having held the mutex in turn. *)
Definition demo_conditions : SyncState := demo_after (demo_creates ++
  [OMutexLock (Some 0) (Some 1) demo_mutex 0 0;
   OCondWait (Some 0) (Some 1) demo_condition demo_mutex 0 0;
   OMutexLock (Some 0) (Some 2) demo_mutex 0 0;
   OCondWait (Some 0) (Some 2) demo_condition demo_mutex 0 0]) sync_boot.

Ltac demo_ops := apply demo_after_inv; [repeat constructor; unfold is_thread; simpl; sched_consts; lia | exact sync_boot_inv].
Lemma demo_contended_inv : sync_inv demo_contended.
Proof. demo_ops. Qed.
Lemma demo_waiting_inv : sync_inv demo_waiting.
Proof. demo_ops. Qed.
Lemma demo_conditions_inv : sync_inv demo_conditions.
Proof. demo_ops. Qed.

Lemma sync_sections_safe_witness : sync_inv demo_contended /\
  mutex_step demo_contended (unlock_body (Some 0) (make_object_id 0 1) demo_contended).2.
Proof.
  destruct (sync_sections_safe (E := unit) demo_handles demo_contended demo_contended
    demo_contended_inv ltac:(apply rtc_refl)) as (H1 & H2 & _).
  split; [exact H1 | apply H2, sec_unlock].
Defined.

Lemma semaphore_post_conserves_witness : exists r s' e',
  kernel_semaphore_post (E := unit) demo_handles (Some 0) demo_semaphore 3 demo_waiting tt = (r, s', e') /\
  r = 0 /\ posted 0 (make_object_id 1 1) 1 3 demo_waiting r s'.
Proof.
  destruct (kernel_semaphore_post (E := unit) demo_handles (Some 0) demo_semaphore 3 demo_waiting tt)
    as [[r s'] e'] eqn:Hp.
  destruct (resolve_object (E := unit) demo_handles (Some 0) demo_semaphore KERNEL_HANDLE_TYPE_SEMAPHORE
    demo_waiting tt) as [[id s0] e0] eqn:Hres.
  assert (id = Some (make_object_id 1 1)) as ->.
  { change id with ((id, s0, e0).1.1). rewrite <- Hres. vm_compute. reflexivity. }
  exists r, s', e'. split; [reflexivity|]. split.
  { change r with ((r, s', e').1.1). rewrite <- Hp. vm_compute. reflexivity. }
  refine (semaphore_post_conserves (LL := quiet_laws) demo_handles 0 demo_semaphore 3 demo_waiting tt
    (make_object_id 1 1) s0 e0 1 r s' e' demo_waiting_inv _ I _ Hres _ Hp); [split; exact I | lia |].
  vm_compute. reflexivity.
Defined.

Lemma identity_nonzero s i : th_tid (thread_at s i) <> 0 -> thread_identity s (Some i) <> (0, 0).
Proof. intros Ht He. apply Ht. by injection He. Qed.

Lemma mutex_unlock_hands_over_witness : exists s' e',
  kernel_mutex_unlock (E := unit) demo_handles 1 (Some 0) (Some 0) demo_mutex demo_contended tt
  = Some (0, s', e') /\ mutex_owner (sync_at s' 0) <> (0, 0).
Proof.
  destruct (resolve_object (E := unit) demo_handles (Some 0) demo_mutex KERNEL_HANDLE_TYPE_MUTEX
    demo_contended tt) as [[id s0] e0] eqn:Hres.
  assert (id = Some (make_object_id 0 1)) as ->.
  { change id with ((id, s0, e0).1.1). rewrite <- Hres. vm_compute. reflexivity. }
  assert (waiters (Some 0) PROCESS_WAIT_MUTEX (make_object_id 0 1) (sync_sched demo_contended) = [1; 2]) as HW
    by (vm_compute; reflexivity).
  assert (forall i, i ∈ [1; 2] -> th_tid (thread_at (sync_sched demo_contended) i) <> 0) as Htid.
  { intros i. rewrite !elem_of_cons, elem_of_nil. intros [->|[->|[]]]; vm_compute; discriminate. }
  destruct (mutex_unlock_hands_over (LL := quiet_laws) demo_handles 0 0 0 demo_mutex demo_contended tt
    (make_object_id 0 1) s0 e0 0 demo_contended_inv) as (s' & e' & Hu & [(Hno & _)|(i & Hi & _ & Ho & _)]);
    [split; exact I | exact I | exact Hres | vm_compute; reflexivity | vm_compute; reflexivity
    | vm_compute; reflexivity | rewrite HW; exact Htid | rewrite HW in Hno; discriminate |].
  exists s', e'. split; [exact Hu|]. rewrite Ho. rewrite HW in Hi. exact (identity_nonzero _ _ (Htid i Hi)).
Defined.

Lemma condition_broadcast_ends_witness : exists s' e',
  kernel_condition_signal (E := unit) demo_handles 129 (Some 0) demo_condition true demo_conditions tt
  = Some (0, s', e') /\
  waiters (Some 0) PROCESS_WAIT_CONDITION (make_object_id 2 1) (sync_sched demo_conditions) = [1; 2] /\
  waiters (Some 0) PROCESS_WAIT_CONDITION (make_object_id 2 1) (sync_sched s') = [].
Proof.
  destruct (resolve_object (E := unit) demo_handles (Some 0) demo_condition KERNEL_HANDLE_TYPE_CONDITION
    demo_conditions tt) as [[id s0] e0] eqn:Hres.
  assert (id = Some (make_object_id 2 1)) as ->.
  { change id with ((id, s0, e0).1.1). rewrite <- Hres. vm_compute. reflexivity. }
  destruct (condition_broadcast_ends (LL := quiet_laws) demo_handles 129 0 demo_condition demo_conditions tt
    (make_object_id 2 1) s0 e0 demo_conditions_inv) as (s' & e' & Hx & Hno & _);
    [split; exact I | exact I | apply Nat.ltb_lt; reflexivity | exact Hres |].
  exists s', e'. split; [exact Hx|]. split; [vm_compute; reflexivity | exact Hno].
Defined.

(** ** Two units for one wait

    [kernel_semaphore_wait] looks at the count again after the thread has begun
    to wait.  When two units are posted in between, the first goes straight to
    the waiting thread and the second to the count; the second look then takes
    that unit too.  Both posts succeed, one wait is served, and no unit is
    left. *)
Theorem semaphore_wait_takes_two_units :
  let s := demo_after demo_creates sync_boot in
  let begun := semaphore_wait_begin (E := unit) demo_handles (Some 0) (Some 1) demo_semaphore 0 0 s tt in
  let posted1 := kernel_semaphore_post (E := unit) demo_handles (Some 0) demo_semaphore 1 begun.1.2 tt in
  let posted2 := kernel_semaphore_post (E := unit) demo_handles (Some 0) demo_semaphore 1 posted1.1.2 tt in
  let ended := semaphore_wait_retry (E := unit) (Some 1) (make_object_id 1 1) SYS_ERR_WOULD_BLOCK posted2.1.2 tt in
  begun.1.1 = inr (make_object_id 1 1, SYS_ERR_WOULD_BLOCK) /\
  posted1.1.1 = 0 /\ posted2.1.1 = 0 /\ ended.1.1 = SYSCALL_WAIT_TO_KERNEL /\
  semaphore_count (sync_at s 1) = 0 /\ semaphore_count (sync_at posted2.1.2 1) = 1 /\
  semaphore_count (sync_at ended.1.2 1) = 0 /\
  wait_pending (context_at (sync_sched posted1.1.2) 1) = 0 /\
  waiters (Some 0) PROCESS_WAIT_SEMAPHORE (make_object_id 1 1) (sync_sched ended.1.2) = [].
Proof. vm_compute. done. Qed.
