(* ===== verification/Paging.v ===== *)
(** * Page tables ([arch/x86_64/mm/paging.cpp])

    Four levels of 512-entry tables in physical memory, which the kernel sees at
    its physical addresses.  [words] is that memory as 64-bit words by address;
    a word that was never written reads as 0.  [table[index]] is [rd] and an
    assignment to it is [wr].  [cr3], the EFER register and the pages whose
    translations were flushed with [invlpg] are part of the state; table pages
    come from the physical memory manager.

    The walks of [arch_vm_get_phys], [arch_vm_get_flags] and
    [arch_vm_unmap_page] are written out twice in the source, once from the
    kernel's root and once from a given one; here they are one definition each,
    with the root as argument ([walk_phys], [walk_flags], [walk_unmap]). *)

From S2P Require Import Prelude KernelEnv Pmm.

Definition VM_PAGE_SIZE : Z := 4096.
Definition VM_FLAG_PRESENT : Z := 0x001.
Definition VM_FLAG_WRITABLE : Z := 0x002.
Definition VM_FLAG_USER : Z := 0x004.
Definition VM_FLAG_HUGE : Z := 0x080.
Definition VM_FLAG_NO_EXECUTE : Z := Z.shiftl 1 63.
Definition ENTRY_ADDRESS : Z := 0x000FFFFFFFFFF000.
Definition HUGE_2M_ADDRESS : Z := 0x000FFFFFFFE00000.
Definition HUGE_1G_ADDRESS : Z := 0x000FFFFFC0000000.
Definition IA32_EFER_NXE : Z := Z.shiftl 1 11.
(** [0xFFFULL | VM_FLAG_NO_EXECUTE] *)
Definition ENTRY_FLAGS : Z := Z.lor 0xFFF VM_FLAG_NO_EXECUTE.

Record PagingState := {
  words : gmap Z Z;
  pml4_table : Z; pml4_phys : Z;
  cr3 : Z; efer : Z;
  flushed : list Z;
  pmm : PmmState }.
#[export] Instance PagingState_settable : Settable PagingState := {| eta_expand s := {|
  words := words s; pml4_table := pml4_table s; pml4_phys := pml4_phys s; cr3 := cr3 s;
  efer := efer s; flushed := flushed s; pmm := pmm s |} |}.

(** [table[index]] and [table[index] = value]. *)
Definition rd (s : PagingState) (table index : Z) : Z := words s !!! (table + 8 * index).
Definition wr (table index value : Z) (s : PagingState) : PagingState :=
  s <| words := <[table + 8 * index := value]> (words s) |>.

(** [entry & flag] as a condition. *)
Definition has (flag entry : Z) : bool := nonzero (Z.land entry flag).

Definition pml4_index (virt : Z) : Z := Z.land (Z.shiftr virt 39) 0x1FF.
Definition pdpt_index (virt : Z) : Z := Z.land (Z.shiftr virt 30) 0x1FF.
Definition pd_index (virt : Z) : Z := Z.land (Z.shiftr virt 21) 0x1FF.
Definition pt_index (virt : Z) : Z := Z.land (Z.shiftr virt 12) 0x1FF.

Definition zero_table (table : Z) (s : PagingState) : PagingState :=
  for_range 0 512 (fun i s => wr table i 0 s) s.

Definition entry_to_table (entry : Z) : Z := Z.land entry ENTRY_ADDRESS.
Definition entry_to_phys (entry : Z) : Z := Z.land entry ENTRY_ADDRESS.

(** A table entry for the child at [phys]. *)
Definition child_entry (phys flags : Z) : Z :=
  Z.lor (Z.lor (Z.lor (Z.lor phys VM_FLAG_PRESENT) VM_FLAG_WRITABLE)
    (Z.land flags VM_FLAG_USER)) (Z.land flags VM_FLAG_NO_EXECUTE).

Definition relax_table_entry_for_flags (table index flags : Z) (s : PagingState) : PagingState :=
  let entry := rd s table index in
  if negb (has VM_FLAG_PRESENT entry) || has VM_FLAG_HUGE entry then s
  else
    let updated := entry in
    let updated := if has VM_FLAG_USER flags then Z.lor updated VM_FLAG_USER else updated in
    let updated := if negb (has VM_FLAG_NO_EXECUTE flags)
                   then Z.land updated (not64 VM_FLAG_NO_EXECUTE) else updated in
    wr table index updated s.

Definition kernel_child (table index : Z) (s : PagingState) : Z :=
  if table =? 0 then 0
  else
    let entry := rd s table index in
    if negb (has VM_FLAG_PRESENT entry) || has VM_FLAG_HUGE entry then 0
    else entry_to_table entry.

Definition arch_vm_flush_page (virt : Z) (s : PagingState) : PagingState :=
  s <| flushed := virt :: flushed s |>.

Definition arch_vm_init (s : PagingState) : PagingState :=
  let s := s <| pml4_phys := cr3 s |> in
  let s := s <| pml4_phys := Z.land (pml4_phys s) ENTRY_ADDRESS |> in
  s <| pml4_table := pml4_phys s |>.

(** [if (pml4_table == 0) { arch_vm_init(); }] *)
Definition ensure_init (s : PagingState) : PagingState :=
  if pml4_table s =? 0 then arch_vm_init s else s.

Definition root_table (root_phys : Z) (s : PagingState) : Z * PagingState :=
  let s := ensure_init s in
  let root_phys := if root_phys =? 0 then pml4_phys s else root_phys in
  (Z.land root_phys ENTRY_ADDRESS, s).

Definition arch_vm_enable_execute_disable (s : PagingState) : PagingState :=
  if negb (has IA32_EFER_NXE (efer s)) then s <| efer := Z.lor (efer s) IA32_EFER_NXE |> else s.
Definition arch_vm_is_execute_disable_enabled (s : PagingState) : Z :=
  if has IA32_EFER_NXE (efer s) then 1 else 0.

(** ** Walks *)

Definition walk_phys (root virt : Z) (s : PagingState) : Z :=
  let pml4e := rd s root (pml4_index virt) in
  if negb (has VM_FLAG_PRESENT pml4e) then 0
  else
    let pdpt := entry_to_table pml4e in
    let pdpte := rd s pdpt (pdpt_index virt) in
    if negb (has VM_FLAG_PRESENT pdpte) then 0
    else if has VM_FLAG_HUGE pdpte then
      let base := Z.land pdpte HUGE_1G_ADDRESS in
      Z.lor base (Z.land virt 0x3FFFFFFF)
    else
      let pd := entry_to_table pdpte in
      let pde := rd s pd (pd_index virt) in
      if negb (has VM_FLAG_PRESENT pde) then 0
      else if has VM_FLAG_HUGE pde then
        let base := Z.land pde HUGE_2M_ADDRESS in
        Z.lor base (Z.land virt 0x1FFFFF)
      else
        let pt := entry_to_table pde in
        let pte := rd s pt (pt_index virt) in
        if negb (has VM_FLAG_PRESENT pte) then 0
        else Z.lor (Z.land pte ENTRY_ADDRESS) (Z.land virt 0xFFF).

Definition walk_flags (root virt : Z) (s : PagingState) : Z :=
  let pml4e := rd s root (pml4_index virt) in
  if negb (has VM_FLAG_PRESENT pml4e) then 0
  else
    let access := Z.lor VM_FLAG_USER VM_FLAG_WRITABLE in
    let access := Z.land access pml4e in
    let pdpt := entry_to_table pml4e in
    let pdpte := rd s pdpt (pdpt_index virt) in
    if negb (has VM_FLAG_PRESENT pdpte) then 0
    else
      let access := Z.land access pdpte in
      if has VM_FLAG_HUGE pdpte then
        Z.lor (Z.lor VM_FLAG_PRESENT access) (Z.land pdpte VM_FLAG_NO_EXECUTE)
      else
        let pd := entry_to_table pdpte in
        let pde := rd s pd (pd_index virt) in
        if negb (has VM_FLAG_PRESENT pde) then 0
        else
          let access := Z.land access pde in
          if has VM_FLAG_HUGE pde then
            Z.lor (Z.lor VM_FLAG_PRESENT access) (Z.land pde VM_FLAG_NO_EXECUTE)
          else
            let pt := entry_to_table pde in
            let pte := rd s pt (pt_index virt) in
            if negb (has VM_FLAG_PRESENT pte) then 0
            else
              let access := Z.land access pte in
              Z.lor (Z.lor VM_FLAG_PRESENT access) (Z.land pte VM_FLAG_NO_EXECUTE).

Definition walk_unmap (root virt : Z) (s : PagingState) : Z * PagingState :=
  let pml4e := rd s root (pml4_index virt) in
  if negb (has VM_FLAG_PRESENT pml4e) then (0, s)
  else
    let pdpt := entry_to_table pml4e in
    let pdpte := rd s pdpt (pdpt_index virt) in
    if negb (has VM_FLAG_PRESENT pdpte) || has VM_FLAG_HUGE pdpte then (0, s)
    else
      let pd := entry_to_table pdpte in
      let pde := rd s pd (pd_index virt) in
      if negb (has VM_FLAG_PRESENT pde) || has VM_FLAG_HUGE pde then (0, s)
      else
        let pt := entry_to_table pde in
        let pte := rd s pt (pt_index virt) in
        if negb (has VM_FLAG_PRESENT pte) then (0, s)
        else
          let s := wr pt (pt_index virt) 0 s in
          (1, arch_vm_flush_page virt s).

Definition arch_vm_get_phys (virt : Z) (s : PagingState) : Z * PagingState :=
  let s := ensure_init s in (walk_phys (pml4_table s) virt s, s).
Definition arch_vm_get_phys_in_root (root_phys virt : Z) (s : PagingState) : Z * PagingState :=
  let '(root, s) := root_table root_phys s in
  if root =? pml4_table s then arch_vm_get_phys virt s else (walk_phys root virt s, s).

Definition arch_vm_get_flags (virt : Z) (s : PagingState) : Z * PagingState :=
  let s := ensure_init s in (walk_flags (pml4_table s) virt s, s).
Definition arch_vm_get_flags_in_root (root_phys virt : Z) (s : PagingState) : Z * PagingState :=
  let '(root, s) := root_table root_phys s in
  if root =? pml4_table s then arch_vm_get_flags virt s else (walk_flags root virt s, s).

Definition arch_vm_unmap_page (virt : Z) (s : PagingState) : Z * PagingState :=
  let s := ensure_init s in walk_unmap (pml4_table s) virt s.
Definition arch_vm_unmap_page_in_root (root_phys virt : Z) (s : PagingState) : Z * PagingState :=
  let '(root, s) := root_table root_phys s in
  if root =? pml4_table s then arch_vm_unmap_page virt s else walk_unmap root virt s.

Definition arch_vm_get_root_phys (s : PagingState) : Z * PagingState :=
  let s := ensure_init s in (pml4_phys s, s).
Definition arch_vm_switch_root (root_phys : Z) (s : PagingState) : PagingState :=
  let s := ensure_init s in
  let root_phys := if root_phys =? 0 then pml4_phys s else root_phys in
  s <| cr3 := Z.land root_phys ENTRY_ADDRESS |>.

(** ** Operations that allocate tables *)

Section Operations.
Context {E : Type} `{KernelEnv E}.

Definition allocate_table (s : PagingState) (e : E) : Z * PagingState * E :=
  let '(phys, p, e) := pmm_alloc_block (pmm s) e in
  let s := s <| pmm := p |> in
  if phys =? 0 then (0, s, e) else (phys, zero_table phys s, e).

Definition clone_table (source_phys : Z) (s : PagingState) (e : E) : Z * PagingState * E :=
  let '(clone_phys, s, e) := allocate_table s e in
  if clone_phys =? 0 then (0, s, e)
  else (clone_phys, for_range 0 512 (fun i s => wr clone_phys i (rd s source_phys i) s) s, e).

Definition split_huge_page (pd index : Z) (s : PagingState) (e : E) : Z * PagingState * E :=
  let entry := rd s pd index in
  if negb (has VM_FLAG_PRESENT entry) || negb (has VM_FLAG_HUGE entry) then (0, s, e)
  else
    let '(pt_phys, s, e) := allocate_table s e in
    if pt_phys =? 0 then (0, s, e)
    else
      let base := Z.land entry HUGE_2M_ADDRESS in
      let flags := Z.land entry ENTRY_FLAGS in
      let flags := Z.land flags (not64 VM_FLAG_HUGE) in
      let s := for_range 0 512
        (fun i s => wr pt_phys i (Z.lor (u64 (base + i * VM_PAGE_SIZE)) flags) s) s in
      (1, wr pd index (child_entry pt_phys entry) s, e).

Definition ensure_private_child (table kernel_table index : Z) (s : PagingState) (e : E)
    : Z * PagingState * E :=
  if kernel_table =? 0 then (1, s, e)
  else
    let entry := rd s table index in
    let kernel_entry := rd s kernel_table index in
    if negb (has VM_FLAG_PRESENT entry) || negb (has VM_FLAG_PRESENT kernel_entry)
       || has VM_FLAG_HUGE entry || has VM_FLAG_HUGE kernel_entry then (1, s, e)
    else if negb (entry_to_phys entry =? entry_to_phys kernel_entry) then (1, s, e)
    else
      let '(clone_phys, s, e) := clone_table (entry_to_phys entry) s e in
      if clone_phys =? 0 then (0, s, e)
      else (1, wr table index (Z.lor clone_phys (Z.land entry ENTRY_FLAGS)) s, e).

Definition get_or_create_next (table index flags : Z) (s : PagingState) (e : E)
    : Z * PagingState * E :=
  let entry := rd s table index in
  if has VM_FLAG_PRESENT entry then
    if has VM_FLAG_HUGE entry then (0, s, e)
    else
      let s := relax_table_entry_for_flags table index flags s in
      (entry_to_table (rd s table index), s, e)
  else
    let '(phys, s, e) := allocate_table s e in
    if phys =? 0 then (0, s, e)
    else (phys, wr table index (child_entry phys flags) s, e).

(** The write of the leaf entry that ends both mapping functions. *)
Definition map_leaf (pt virt phys flags : Z) (s : PagingState) : PagingState :=
  arch_vm_flush_page virt
    (wr pt (pt_index virt) (Z.lor (Z.lor (Z.land phys ENTRY_ADDRESS) flags) VM_FLAG_PRESENT) s).

(** The last table: an existing child of [pd], or a new one. *)
Definition last_table (pd index flags : Z) (s : PagingState) (e : E) : Z * PagingState * E :=
  let entry := rd s pd index in
  if has VM_FLAG_PRESENT entry then
    let s := relax_table_entry_for_flags pd index flags s in
    (entry_to_table (rd s pd index), s, e)
  else
    let '(pt_phys, s, e) := allocate_table s e in
    if pt_phys =? 0 then (0, s, e)
    else (pt_phys, wr pd index (child_entry pt_phys flags) s, e).

Definition arch_vm_map_page (virt phys flags : Z) (s : PagingState) (e : E) : Z * PagingState * E :=
  let s := ensure_init s in
  let '(pdpt, s, e) := get_or_create_next (pml4_table s) (pml4_index virt) flags s e in
  if pdpt =? 0 then (0, s, e)
  else
    let '(pd, s, e) := get_or_create_next pdpt (pdpt_index virt) flags s e in
    if pd =? 0 then (0, s, e)
    else
      let entry := rd s pd (pd_index virt) in
      let '(ok, s, e) :=
        if has VM_FLAG_PRESENT entry && has VM_FLAG_HUGE entry
        then split_huge_page pd (pd_index virt) s e else (1, s, e) in
      if ok =? 0 then (0, s, e)
      else
        let present := has VM_FLAG_PRESENT (rd s pd (pd_index virt)) in
        let '(pt, s, e) := last_table pd (pd_index virt) flags s e in
        if negb present && (pt =? 0) then (0, s, e)
        else (1, map_leaf pt virt phys flags s, e).

Definition arch_vm_map_page_in_root (root_phys virt phys flags : Z) (s : PagingState) (e : E)
    : Z * PagingState * E :=
  let '(root, s) := root_table root_phys s in
  if root =? pml4_table s then arch_vm_map_page virt phys flags s e
  else
    let pml4i := pml4_index virt in
    let pdpti := pdpt_index virt in
    let pdi := pd_index virt in
    let '(ok, s, e) := ensure_private_child root (pml4_table s) pml4i s e in
    if ok =? 0 then (0, s, e)
    else
      let '(pdpt, s, e) := get_or_create_next root pml4i flags s e in
      if pdpt =? 0 then (0, s, e)
      else
        let kernel_pdpt := kernel_child (pml4_table s) pml4i s in
        let '(ok, s, e) := ensure_private_child pdpt kernel_pdpt pdpti s e in
        if ok =? 0 then (0, s, e)
        else
          let '(pd, s, e) := get_or_create_next pdpt pdpti flags s e in
          if pd =? 0 then (0, s, e)
          else
            let kernel_pd := kernel_child kernel_pdpt pdpti s in
            let entry := rd s pd pdi in
            let '(ok, s, e) :=
              if has VM_FLAG_PRESENT entry then
                if has VM_FLAG_HUGE entry then split_huge_page pd pdi s e
                else ensure_private_child pd kernel_pd pdi s e
              else (1, s, e) in
            if ok =? 0 then (0, s, e)
            else
              let present := has VM_FLAG_PRESENT (rd s pd pdi) in
              let '(pt, s, e) := last_table pd pdi flags s e in
              if negb present && (pt =? 0) then (0, s, e)
              else (1, map_leaf pt virt phys flags s, e).

Definition arch_vm_create_root (s : PagingState) (e : E) : Z * PagingState * E :=
  let s := ensure_init s in clone_table (pml4_phys s) s e.
End Operations.
