(* ===== verification/PagingSpec.v ===== *)
(** * What the page tables guarantee

    Tables form a tree: a path of indices leads from the root to a table
    ([tab]), and in a well-formed state ([tables_ok]) different paths lead to
    different pages, none of which the physical memory manager would hand out.
    Over that: mapping a page changes the translation of that page only, also
    when it has to add tables or to split a 2 MiB page; unmapping removes
    exactly one translation; and mapping into another root leaves the kernel's
    translations alone. *)

From S2P Require Import Prelude KernelEnv Pmm PmmSpec Paging.

(** ** Fields of words *)

Lemma land_field x k n : 0 <= k -> 0 <= n ->
  Z.land x (Z.shiftl (Z.ones n) k) = (x / 2 ^ k) mod 2 ^ n * 2 ^ k.
Proof.
  intros Hk Hn. rewrite <- Z.shiftr_div_pow2, <- Z.land_ones, <- Z.shiftl_mul_pow2 by lia.
  apply Z.bits_inj'. intros m Hm. rewrite Z.land_spec. destruct (Z.lt_ge_cases m k).
  - rewrite !Z.shiftl_spec_low by lia. apply andb_false_r.
  - rewrite !Z.shiftl_spec_high, Z.land_spec, Z.shiftr_spec by lia. by replace (m - k + k) with m by lia.
Qed.
Lemma entry_address x : Z.land x ENTRY_ADDRESS = (x / 4096) mod 2 ^ 40 * 4096.
Proof. exact (land_field x 12 40 ltac:(lia) ltac:(lia)). Qed.
Lemma huge_address x : Z.land x HUGE_2M_ADDRESS = (x / 2 ^ 21) mod 2 ^ 31 * 2 ^ 21.
Proof. exact (land_field x 21 31 ltac:(lia) ltac:(lia)). Qed.

(** [lor] of words without common bits. *)
Lemma lor_add x y : Z.land x y = 0 -> Z.lor x y = x + y.
Proof. intros H. by rewrite <- Z.lxor_lor, Z.add_nocarry_lxor. Qed.

(** Addresses of tables. *)
Definition is_addr (t : Z) : Prop := Z.land t ENTRY_ADDRESS = t.
Lemma addr_range t : is_addr t -> 0 <= t < 2 ^ 52 /\ t mod 4096 = 0.
Proof.
  unfold is_addr. rewrite entry_address. intros <-. pose proof (Z.mod_pos_bound (t / 4096) (2 ^ 40) ltac:(lia)).
  split; [lia | apply Z_mod_mult].
Qed.
Lemma addr_of_range t : 0 <= t < 2 ^ 52 -> t mod 4096 = 0 -> is_addr t.
Proof.
  intros Ht H. unfold is_addr. rewrite entry_address. apply Z.mod_divide in H as [k ->]; [|lia].
  rewrite Z.div_mul, Z.mod_small by lia. done.
Qed.
Lemma entry_is_addr e : is_addr (entry_to_table e).
Proof. unfold is_addr, entry_to_table. by rewrite <- Z.land_assoc, Z.land_diag. Qed.

(** A field of a word given by its parts. *)
Lemma addr_land t m : is_addr t -> Z.land ENTRY_ADDRESS m = 0 -> Z.land t m = 0.
Proof. intros <- Hm. by rewrite <- Z.land_assoc, Hm, Z.land_0_r. Qed.
Lemma land_zero x a b : Z.land a b = 0 -> Z.land (Z.land x a) b = 0.
Proof. intros H. by rewrite <- Z.land_assoc, H, Z.land_0_r. Qed.

Lemma child_entry_fields t flags : is_addr t ->
  entry_to_table (child_entry t flags) = t /\ has VM_FLAG_PRESENT (child_entry t flags) = true /\
  has VM_FLAG_HUGE (child_entry t flags) = false.
Proof.
  intros Ht. unfold child_entry, entry_to_table, has. rewrite !Z.land_lor_distr_l. split_and!.
  - rewrite Ht, !land_zero by done. by rewrite !Z.lor_0_r.
  - rewrite (addr_land t VM_FLAG_PRESENT Ht), !land_zero by done. done.
  - rewrite (addr_land t VM_FLAG_HUGE Ht), !land_zero by done. done.
Qed.

(** Entries a walk does not tell apart. *)
Definition entry_like (x y : Z) : Prop :=
  Z.land x ENTRY_ADDRESS = Z.land y ENTRY_ADDRESS /\ has VM_FLAG_PRESENT x = has VM_FLAG_PRESENT y /\
  has VM_FLAG_HUGE x = has VM_FLAG_HUGE y.
Lemma entry_like_land x y m : entry_like x y -> Z.land ENTRY_ADDRESS m = m -> Z.land x m = Z.land y m.
Proof. intros (H & _) <-. by rewrite !Z.land_assoc, H. Qed.

Lemma relaxed_like e flags :
  let u := if has VM_FLAG_USER flags then Z.lor e VM_FLAG_USER else e in
  let u := if negb (has VM_FLAG_NO_EXECUTE flags) then Z.land u (not64 VM_FLAG_NO_EXECUTE) else u in
  entry_like u e.
Proof.
  assert (forall x, entry_like (Z.lor x VM_FLAG_USER) x) as H1.
  { intros x. unfold entry_like, has. rewrite !Z.land_lor_distr_l. cbn [Z.land]. by rewrite !Z.lor_0_r. }
  assert (forall x, entry_like (Z.land x (not64 VM_FLAG_NO_EXECUTE)) x) as H2.
  { intros x. unfold entry_like, has. by rewrite <- !Z.land_assoc. }
  cbv zeta. destruct (has VM_FLAG_USER flags), (negb _); try done; try apply H1; try apply H2.
  destruct (H1 e) as (A1 & A2 & A3), (H2 (Z.lor e VM_FLAG_USER)) as (B1 & B2 & B3).
  unfold entry_like. by rewrite B1, B2, B3.
Qed.

(** ** Cells *)

Definition is_index (i : Z) : Prop := 0 <= i < 512.
Lemma index_range x : is_index (Z.land x 0x1FF).
Proof.
  unfold is_index. change 0x1FF with (2 ^ 9 - 1). rewrite land_ones_mod by lia. apply Z.mod_pos_bound. lia.
Qed.
Lemma table_cell_inj t t' i j : is_addr t -> is_addr t' -> is_index i -> is_index j -> t + 8 * i = t' + 8 * j -> t = t' /\ i = j.
Proof.
  intros [_ H1]%addr_range [_ H2]%addr_range Hi Hj. unfold is_index in *.
  apply Z.mod_divide in H1 as [a ->]; [|lia]. apply Z.mod_divide in H2 as [b ->]; [|lia]. lia.
Qed.

Lemma rd_wr t i v s t' j : rd (wr t i v s) t' j = if decide (t' + 8 * j = t + 8 * i) then v else rd s t' j.
Proof. unfold rd, wr. cbn. rewrite lookup_total_insert. repeat case_decide; congruence. Qed.
Lemma rd_wr_addr t i v s t' j : is_addr t -> is_addr t' -> is_index i -> is_index j ->
  rd (wr t i v s) t' j = if decide (t' = t /\ j = i) then v else rd s t' j.
Proof.
  intros Ht Ht' Hi Hj. rewrite rd_wr. repeat case_decide; try done; exfalso.
  - match goal with H : ~ (_ /\ _) |- _ => apply H end. by apply table_cell_inj.
  - lia.
Qed.

(** ** Paths *)

Fixpoint tab (s : PagingState) (t : Z) (p : list Z) : option Z :=
  match p with
  | [] => Some t
  | i :: p =>
    let e := rd s t i in
    if has VM_FLAG_PRESENT e && negb (has VM_FLAG_HUGE e) then tab s (entry_to_table e) p else None
  end.
Lemma tab_app s t p q : tab s t (p ++ q) = match tab s t p with Some t' => tab s t' q | None => None end.
Proof.
  revert t. induction p as [|i p IH]; intros t; [done|]. cbn [app tab]. destruct (_ && _); [apply IH | done].
Qed.
Lemma tab_addr s t p t' : is_addr t -> tab s t p = Some t' -> is_addr t'.
Proof.
  revert t. induction p as [|i p IH]; intros t Ht; cbn [tab]; [by intros [= <-]|].
  destruct (_ && _); [|done]. apply IH, entry_is_addr.
Qed.

Definition path_ok (p : list Z) : Prop := (length p <= 3)%nat /\ Forall is_index p.
Lemma path_nil : path_ok [].
Proof. split; [cbn; lia | constructor]. Qed.
Lemma path_app p q : path_ok (p ++ q) -> path_ok p.
Proof. intros [H1 H2]. rewrite length_app in H1. apply Forall_app in H2 as [H2 _]. split; [lia | done]. Qed.

Record tables_ok (s : PagingState) (root : Z) : Prop := {
  to_root : is_addr root;
  to_inj : forall p q t, path_ok p -> path_ok q -> tab s root p = Some t -> tab s root q = Some t -> p = q;
  to_used : forall p t, path_ok p -> tab s root p = Some t -> t <> 0 /\ t / 4096 ∉ free_set (pmm s);
  to_top : forall i, is_index i -> has VM_FLAG_PRESENT (rd s root i) = true -> has VM_FLAG_HUGE (rd s root i) = false;
  to_pmm : pmm_core (pmm s);
}.

(** ** Walks *)

Definition wpath (w : Z) : list Z := [pml4_index w; pdpt_index w; pd_index w; pt_index w].
Lemma wpath_index w : Forall is_index (wpath w).
Proof. repeat constructor; apply index_range. Qed.

(** A walk only looks at the entries on its path. *)
Lemma walk_like s s' root w :
  (has VM_FLAG_PRESENT (rd s root (pml4_index w)) = true -> has VM_FLAG_HUGE (rd s root (pml4_index w)) = false) ->
  (forall p i q t, wpath w = p ++ i :: q -> tab s root p = Some t -> entry_like (rd s' t i) (rd s t i)) ->
  walk_phys root w s' = walk_phys root w s.
Proof.
  intros Htop Hl. unfold walk_phys, entry_to_table.
  pose proof (Hl [] (pml4_index w) _ root eq_refl eq_refl) as (A4 & P4 & H4). rewrite A4, P4.
  destruct (has VM_FLAG_PRESENT (rd s root (pml4_index w))) eqn:E4; [|done]. cbn [negb].
  set (pdpt := Z.land (rd s root (pml4_index w)) ENTRY_ADDRESS).
  assert (tab s root [pml4_index w] = Some pdpt) as T3 by (cbn [tab]; by rewrite E4, (Htop eq_refl)).
  pose proof (Hl [pml4_index w] (pdpt_index w) _ pdpt eq_refl T3) as L3. pose proof L3 as (A3 & P3 & H3). rewrite A3, P3, H3.
  destruct (has VM_FLAG_PRESENT (rd s pdpt (pdpt_index w))) eqn:E3; [|done]. cbn [negb].
  destruct (has VM_FLAG_HUGE (rd s pdpt (pdpt_index w))) eqn:F3; [by rewrite (entry_like_land _ _ _ L3)|].
  set (pd := Z.land (rd s pdpt (pdpt_index w)) ENTRY_ADDRESS).
  assert (tab s root [pml4_index w; pdpt_index w] = Some pd) as T2.
  { change [pml4_index w; pdpt_index w] with ([pml4_index w] ++ [pdpt_index w]). rewrite tab_app, T3. cbn [tab]. by rewrite E3, F3. }
  pose proof (Hl [pml4_index w; pdpt_index w] (pd_index w) _ pd eq_refl T2) as L2. pose proof L2 as (A2 & P2 & H2). rewrite A2, P2, H2.
  destruct (has VM_FLAG_PRESENT (rd s pd (pd_index w))) eqn:E2; [|done]. cbn [negb].
  destruct (has VM_FLAG_HUGE (rd s pd (pd_index w))) eqn:F2; [by rewrite (entry_like_land _ _ _ L2)|].
  set (pt := Z.land (rd s pd (pd_index w)) ENTRY_ADDRESS).
  assert (tab s root [pml4_index w; pdpt_index w; pd_index w] = Some pt) as T1.
  { change [pml4_index w; pdpt_index w; pd_index w] with ([pml4_index w; pdpt_index w] ++ [pd_index w]).
    rewrite tab_app, T2. cbn [tab]. by rewrite E2, F2. }
  pose proof (Hl [pml4_index w; pdpt_index w; pd_index w] (pt_index w) [] pt eq_refl T1) as (A1 & P1 & H1). by rewrite A1, P1.
Qed.

Lemma entry_like_refl x : entry_like x x.
Proof. done. Qed.
Lemma entry_like_trans x y z : entry_like x y -> entry_like y z -> entry_like x z.
Proof. intros (A & B & C) (A' & B' & C'). unfold entry_like. by rewrite A, B, C. Qed.
#[export] Hint Resolve entry_like_refl : kernel.

(** The prefixes of a walk's path are paths. *)
Lemma wpath_prefix w p i q : wpath w = p ++ i :: q -> path_ok p /\ is_index i.
Proof.
  intros Hw. pose proof (wpath_index w) as Hi. rewrite Hw in Hi. apply Forall_app in Hi as [H1 H2].
  apply Forall_cons in H2 as [H2 _]. split; [|done]. split; [|done].
  assert (length (p ++ i :: q) = 4%nat) as Hlen by (by rewrite <- Hw). rewrite length_app in Hlen. cbn [length] in Hlen. lia.
Qed.

(** *** A write to an entry *)

Section Write.
Context (s : PagingState) (root : Z) (Hok : tables_ok s root).
Context (p : list Z) (t i v : Z) (Hp : path_ok p) (Ht : tab s root p = Some t) (Hi : is_index i).
Let s' := wr t i v s.

Lemma write_elsewhere q t' j : path_ok q -> tab s root q = Some t' -> is_index j -> (q, j) <> (p, i) ->
  rd s' t' j = rd s t' j.
Proof using All.
  intros Hq Ht' Hj Hne. pose proof (tab_addr _ _ _ _ (to_root _ _ Hok) Ht). pose proof (tab_addr _ _ _ _ (to_root _ _ Hok) Ht').
  unfold s'. rewrite rd_wr_addr by done. rewrite decide_False; [done|]. intros [-> ->]. apply Hne. f_equal.
  by eapply (to_inj _ _ Hok).
Qed.

(** Paths that do not pass through the entry. *)
Lemma write_tab_from q1 q2 t1 : path_ok (q1 ++ q2) -> tab s root q1 = Some t1 -> ~ (p ++ [i] `prefix_of` q1 ++ q2) ->
  tab s' t1 q2 = tab s t1 q2.
Proof using All.
  revert q1 t1. induction q2 as [|j q2 IH]; intros q1 t1 Hq Ht1 Hpre; [done|]. cbn [tab].
  assert (is_index j) as Hj by (destruct Hq as [_ [_ [H _]%Forall_cons]%Forall_app]; done).
  rewrite (write_elsewhere q1 t1 j); [| by eapply path_app | done | done |].
  2: { intros [= -> ->]. apply Hpre. exists q2. by rewrite <- app_assoc. }
  destruct (_ && _) eqn:Hc; [|done]. apply (IH (q1 ++ [j])).
  - by rewrite <- app_assoc.
  - rewrite tab_app, Ht1. cbn [tab]. by rewrite Hc.
  - by rewrite <- app_assoc.
Qed.
Lemma write_tab q : path_ok q -> ~ (p ++ [i] `prefix_of` q) -> tab s' root q = tab s root q.
Proof using All. intros Hq Hpre. by apply (write_tab_from [] q root). Qed.
Lemma write_tab_here : tab s' root p = Some t.
Proof using All.
  rewrite write_tab; [done | done |]. intros [k Hk]. apply (f_equal length) in Hk. rewrite !length_app in Hk. cbn [length] in Hk. lia.
Qed.
Lemma write_rd_here : rd s' t i = v.
Proof using All. unfold s'. by rewrite rd_wr, decide_True. Qed.
Lemma write_tab_through r : tab s' root (p ++ i :: r) =
  if has VM_FLAG_PRESENT v && negb (has VM_FLAG_HUGE v) then tab s' (entry_to_table v) r else None.
Proof using All. rewrite tab_app, write_tab_here. cbn [tab]. by rewrite write_rd_here. Qed.

(** Walks that do not pass through the entry. *)
Lemma write_walk w : ~ (p ++ [i] `prefix_of` wpath w) -> walk_phys root w s' = walk_phys root w s.
Proof using All.
  intros Hpre. apply walk_like; [apply (to_top _ _ Hok), index_range|]. intros p1 j q1 t1 Hw Ht1.
  destruct (wpath_prefix w p1 j q1 Hw) as [Hp1 Hj]. rewrite (write_elsewhere p1 t1 j); [auto with kernel | done | done | done |].
  intros [= -> ->]. apply Hpre. exists q1. by rewrite <- app_assoc.
Qed.
End Write.

(** ** Steps that change no translation *)

Definition same_walks (s s' : PagingState) (root : Z) : Prop := forall w, walk_phys root w s' = walk_phys root w s.
Lemma same_walks_refl s root : same_walks s s root.
Proof. done. Qed.
Lemma same_walks_trans s1 s2 s3 root : same_walks s1 s2 root -> same_walks s2 s3 root -> same_walks s1 s3 root.
Proof. intros H1 H2 w. by rewrite H2, H1. Qed.
#[export] Hint Resolve same_walks_refl : kernel.

(** Registers and the like that only a few operations change. *)
Definition same_regs (s s' : PagingState) : Prop :=
  pml4_table s' = pml4_table s /\ pml4_phys s' = pml4_phys s /\ cr3 s' = cr3 s /\ flushed s' = flushed s.
(** Tables stay, and new ones are blocks that were free; blocks are only
    taken. *)
Definition is_table (s : PagingState) (root u : Z) : Prop := exists q, path_ok q /\ tab s root q = Some u.
Record grows (s : PagingState) (root : Z) (s' : PagingState) : Prop := {
  gr_stay : forall q u, path_ok q -> tab s root q = Some u -> tab s' root q = Some u;
  gr_new : forall u, is_table s' root u -> is_table s root u \/ u / 4096 ∈ free_set (pmm s);
  gr_free : free_set (pmm s') ⊆ free_set (pmm s);
}.
Lemma grows_trans s1 s2 s3 root : grows s1 root s2 -> grows s2 root s3 -> grows s1 root s3.
Proof.
  intros [A1 B1 C1] [A2 B2 C2]. constructor; [auto | | set_solver].
  intros u Hu. destruct (B2 u Hu) as [Hu'|Hu']; [by apply B1 | right; set_solver].
Qed.
Lemma grows_same s s' root : (forall q, path_ok q -> tab s' root q = tab s root q) ->
  free_set (pmm s') ⊆ free_set (pmm s) -> grows s root s'.
Proof.
  intros Ht Hf. constructor; [|intros u (q & Hq & Hu)|done]; [intros q u Hq; by rewrite Ht|].
  left. exists q. by rewrite <- Ht.
Qed.

Lemma grows_install s s' root p c : (forall q, path_ok q -> tab s' root q = if decide (q = p) then Some c else tab s root q) ->
  tab s root p = None -> c / 4096 ∈ free_set (pmm s) -> free_set (pmm s') ⊆ free_set (pmm s) -> grows s root s'.
Proof.
  intros Ht Hn Hc Hf. constructor; [| |done].
  - intros q u Hq Hu. rewrite Ht by done. rewrite decide_False; [done | congruence].
  - intros u (q & Hq & Hu). rewrite Ht in Hu by done. destruct (decide (q = p)); [injection Hu as <-; by right|].
    left. by exists q.
Qed.

(** Steps that change no translation and only take blocks. *)
Definition quiet (s : PagingState) (root : Z) (s' : PagingState) : Prop :=
  tables_ok s' root /\ same_walks s s' root /\ same_regs s s' /\ grows s root s'.
Lemma quiet_refl s root : tables_ok s root -> quiet s root s.
Proof. intros Hok. split; [done|]. split; [done|]. split; [done|]. by apply grows_same. Qed.

(** *** Entries replaced by like ones *)

Lemma tab_like s s' t p : (forall t i, entry_like (rd s' t i) (rd s t i)) -> tab s' t p = tab s t p.
Proof.
  intros Hl. revert t. induction p as [|i p IH]; intros t; [done|]. cbn [tab].
  destruct (Hl t i) as (A & P & H). unfold entry_to_table. rewrite A, P, H. destruct (_ && _); [apply IH | done].
Qed.
Lemma tables_like s s' root : tables_ok s root -> (forall t i, entry_like (rd s' t i) (rd s t i)) -> pmm s' = pmm s ->
  tables_ok s' root /\ same_walks s s' root.
Proof.
  intros Hok Hl Hpmm. split.
  - destruct Hok as [H1 H2 H3 H4 H5]. constructor; try done; intros.
    + rewrite !(tab_like s s') in * by done. by eapply H2.
    + rewrite (tab_like s s') in * by done. rewrite Hpmm. by eapply H3.
    + destruct (Hl root i) as (_ & P & Hh). rewrite Hh. apply H4; [done | congruence].
    + by rewrite Hpmm.
  - intros w. apply walk_like; [apply (to_top _ _ Hok), index_range | auto].
Qed.

Lemma relax_ok s root t i flags : tables_ok s root ->
  let s' := relax_table_entry_for_flags t i flags s in
  quiet s root s' /\ (forall t j, entry_like (rd s' t j) (rd s t j)).
Proof.
  intros Hok. cbv zeta.
  assert ((pmm (relax_table_entry_for_flags t i flags s) = pmm s /\ same_regs s (relax_table_entry_for_flags t i flags s)) /\
    forall t' j, entry_like (rd (relax_table_entry_for_flags t i flags s) t' j) (rd s t' j)) as [[Hpmm Hrg] Hl].
  { unfold relax_table_entry_for_flags. destruct (_ || _); [by split; [|auto with kernel]|]. split; [done|]. intros t' j.
    rewrite rd_wr. case_decide as Hc; [|auto with kernel].
    assert (rd s t' j = rd s t i) as -> by (unfold rd; by rewrite Hc). apply relaxed_like. }
  destruct (tables_like _ _ _ Hok Hl Hpmm). split; [|done]. split; [done|]. split; [done|]. split; [done|].
  apply grows_same; [|by rewrite Hpmm]. intros q _. by apply tab_like.
Qed.

(** *** A page that is no table *)

Record page_only (t0 : Z) (s s' : PagingState) : Prop := {
  po_words : forall t j, is_addr t -> is_index j -> t <> t0 -> rd s' t j = rd s t j;
  po_free : free_set (pmm s') ⊆ free_set (pmm s);
  po_pmm : pmm_core (pmm s) -> pmm_core (pmm s');
  po_top : same_regs s s';
}.
Definition no_table (s : PagingState) (root t0 : Z) : Prop := forall p t, path_ok p -> tab s root p = Some t -> t <> t0.

(** A state whose tables read as before. *)
Section Outside.
Context (s s' : PagingState) (root : Z) (Hok : tables_ok s root).
Context (Hrd : forall p t j, path_ok p -> tab s root p = Some t -> is_index j -> rd s' t j = rd s t j).
Context (Hfree : free_set (pmm s') ⊆ free_set (pmm s)) (Hpmm : pmm_core (pmm s')).

Lemma outside_tab_from q1 q2 t1 : path_ok (q1 ++ q2) -> tab s root q1 = Some t1 -> tab s' t1 q2 = tab s t1 q2.
Proof using All.
  revert q1 t1. induction q2 as [|j q2 IH]; intros q1 t1 Hq Ht1; [done|]. cbn [tab].
  assert (is_index j) as Hj by (destruct Hq as [_ [_ [H _]%Forall_cons]%Forall_app]; done).
  rewrite (Hrd q1 t1 j); [| by eapply path_app | done | done]. destruct (_ && _) eqn:Hc; [|done].
  apply (IH (q1 ++ [j])); [by rewrite <- app_assoc|]. rewrite tab_app, Ht1. cbn [tab]. by rewrite Hc.
Qed.
Lemma outside_tab q : path_ok q -> tab s' root q = tab s root q.
Proof using All. intros Hq. by apply (outside_tab_from [] q root). Qed.
Lemma outside_tables : tables_ok s' root /\ same_walks s s' root /\ grows s root s'.
Proof using All.
  split; [|split; [|by apply grows_same; [apply outside_tab|]]].
  - destruct Hok as [H1 H2 H3 H4 H5]. constructor; try done.
    + intros p q t Hp Hq. rewrite !outside_tab by done. by apply H2.
    + intros p t Hp. rewrite outside_tab by done. intros Ht. destruct (H3 p t Hp Ht) as [Hn Hu]. split; [done | set_solver].
    + intros i Hi. rewrite (Hrd [] root i path_nil eq_refl Hi). by apply H4.
  - intros w. apply walk_like; [apply (to_top _ _ Hok), index_range|]. intros p i q t Hw Ht.
    destruct (wpath_prefix _ _ _ _ Hw) as [Hp Hi]. rewrite (Hrd p) by done. auto with kernel.
Qed.
End Outside.

Section PageOnly.
Context (s s' : PagingState) (root t0 : Z).
Context (Hok : tables_ok s root) (Hno : no_table s root t0) (Hpo : page_only t0 s s').

Lemma page_rd p t j : path_ok p -> tab s root p = Some t -> is_index j -> rd s' t j = rd s t j.
Proof using All.
  intros Hp Ht Hj. apply (po_words _ _ _ Hpo); [by eapply tab_addr; [apply Hok|] | done | by eapply Hno].
Qed.
Lemma page_tab q : path_ok q -> tab s' root q = tab s root q.
Proof using All. apply (outside_tab s s' root Hok page_rd); [apply Hpo | apply Hpo, Hok]. Qed.
Lemma page_tables : quiet s root s'.
Proof using All.
  destruct (outside_tables s s' root Hok page_rd) as (T & W & G); [apply Hpo | apply Hpo, Hok|].
  split; [done|]. split; [done|]. split; [apply Hpo | done].
Qed.
End PageOnly.

(** *** A new table put under an entry that had none *)

Section Install.
Context (s : PagingState) (root : Z) (Hok : tables_ok s root).
Context (p : list Z) (t i v t0 : Z) (Hp : path_ok (p ++ [i])) (Ht : tab s root p = Some t).
Context (Hnone : tab s root (p ++ [i]) = None).
Context (Ha : is_addr t0) (H0 : t0 <> 0) (Hused : t0 / 4096 ∉ free_set (pmm s)) (Hno : no_table s root t0).
Context (Hv1 : has VM_FLAG_PRESENT v = true) (Hv2 : has VM_FLAG_HUGE v = false) (Hv3 : entry_to_table v = t0).
Context (Hempty : (length p = 2)%nat \/ forall j, is_index j -> has VM_FLAG_PRESENT (rd s t0 j) = false).
Let s' := wr t i v s.

Lemma install_index : path_ok p /\ is_index i.
Proof using All. split; [by eapply path_app|]. destruct Hp as [_ [_ [H _]%Forall_cons]%Forall_app]. done. Qed.
Lemma install_under r : path_ok (p ++ i :: r) -> tab s' root (p ++ i :: r) = if decide (r = []) then Some t0 else None.
Proof using All.
  intros Hr. destruct install_index as [Hp' Hi]. unfold s'. rewrite (write_tab_through s root Hok p t i v Hp' Ht Hi).
  rewrite Hv1, Hv2, Hv3. cbn [andb negb]. destruct r as [|j r]; [done|]. rewrite decide_False by done.
  destruct Hempty as [H2|Hz].
  - exfalso. destruct Hr as [Hr _]. rewrite length_app in Hr. cbn [length] in Hr. lia.
  - assert (is_index j) as Hj.
    { destruct Hr as [_ [_ [_ [Hr _]%Forall_cons]%Forall_cons]%Forall_app]. done. }
    cbn [tab]. rewrite rd_wr_addr, decide_False; [by rewrite Hz | | by eapply tab_addr; [apply Hok|] | done | done | done].
    intros [E _]. by apply (Hno p t Hp' Ht).
Qed.
Lemma install_tab q : path_ok q -> tab s' root q = (if decide (q = p ++ [i]) then Some t0 else tab s root q).
Proof using All.
  intros Hq. destruct install_index as [Hp' Hi]. destruct (decide (p ++ [i] `prefix_of` q)) as [[r ->]|Hpre].
  - rewrite <- app_assoc in *. cbn [app] in *. rewrite install_under by done. destruct (decide (r = [])) as [->|Hr].
    + by rewrite decide_True.
    + rewrite decide_False by (intros E; apply app_inv_head in E; congruence).
      change (p ++ i :: r) with (p ++ [i] ++ r). by rewrite app_assoc, tab_app, Hnone.
  - rewrite decide_False by (intros ->; by apply Hpre). by apply (write_tab s root Hok p t i v Hp' Ht Hi).
Qed.
Lemma install_tables : tables_ok s' root.
Proof using All.
  destruct install_index as [Hp' Hi]. destruct Hok as [H1 H2 H3 H4 H5]. constructor; try done.
  - intros q1 q2 u Hq1 Hq2. rewrite !install_tab by done.
    destruct (decide (q1 = p ++ [i])) as [->|], (decide (q2 = p ++ [i])) as [->|]; try done.
    + intros [= <-] Hu. by destruct (Hno q2 t0 Hq2 Hu).
    + intros Hu [= <-]. by destruct (Hno q1 t0 Hq1 Hu).
    + by apply H2.
  - intros q u Hq. rewrite install_tab by done. destruct (decide _); [by intros [= <-] | by apply H3].
  - intros j Hj. unfold s'. rewrite rd_wr. case_decide; [done | by apply H4].
Qed.
Lemma install_walks : (forall w, p ++ [i] `prefix_of` wpath w -> walk_phys root w s' = walk_phys root w s) ->
  same_walks s s' root.
Proof using All.
  intros Hw w. destruct (decide (p ++ [i] `prefix_of` wpath w)); [by apply Hw|].
  destruct install_index as [Hp' Hi]. by apply (write_walk s root Hok p t i v Hp' Ht Hi).
Qed.
End Install.

(** A walk that meets an absent entry. *)
Lemma walk_absent s root w q j r u : wpath w = q ++ j :: r -> tab s root q = Some u ->
  has VM_FLAG_PRESENT (rd s u j) = false -> walk_phys root w s = 0.
Proof.
  unfold wpath. intros Hw Ht He. unfold walk_phys.
  destruct q as [|i4 q]; cbn [app tab] in *; injection Hw as <- Hw; [injection Ht as <-; by rewrite He|].
  destruct (has VM_FLAG_PRESENT (rd s root (pml4_index w))); [|done]. destruct (has VM_FLAG_HUGE (rd s root _)); [done|].
  cbn [negb andb] in *.
  destruct q as [|i3 q]; cbn [app tab] in *; injection Hw as <- Hw; [injection Ht as <-; by rewrite He|].
  destruct (has VM_FLAG_PRESENT (rd s _ (pdpt_index w))); [|done]. destruct (has VM_FLAG_HUGE (rd s _ (pdpt_index w))); [done|].
  cbn [negb andb] in *.
  destruct q as [|i2 q]; cbn [app tab] in *; injection Hw as <- Hw; [injection Ht as <-; by rewrite He|].
  destruct (has VM_FLAG_PRESENT (rd s _ (pd_index w))); [|done]. destruct (has VM_FLAG_HUGE (rd s _ (pd_index w))); [done|].
  cbn [negb andb] in *.
  destruct q as [|i1 q]; cbn [app tab] in *; injection Hw as <- Hw; [injection Ht as <-; by rewrite He|].
  by destruct q.
Qed.

(** ** Allocating tables *)

(** Filling a table with [f], which may read other tables. *)
Lemma fill_rd t s f : is_addr t ->
  (forall i s', is_index i -> (forall t' j, is_addr t' -> is_index j -> t' <> t -> rd s' t' j = rd s t' j) -> f s' i = f s i) ->
  let s' := for_range 0 512 (fun i s => wr t i (f s i) s) s in
  (forall j, is_index j -> rd s' t j = f s j) /\
  (forall t' j, is_addr t' -> is_index j -> t' <> t -> rd s' t' j = rd s t' j) /\
  s' = s <| words := words s' |>.
Proof.
  intros Ht Hf. cbv zeta.
  apply (for_range_inv (fun n s' => (forall j, 0 <= j < n -> rd s' t j = f s j) /\
    (forall t' j, is_addr t' -> is_index j -> t' <> t -> rd s' t' j = rd s t' j) /\ s' = s <| words := words s' |>)).
  - lia.
  - split_and!; [intros; lia | done | by destruct s].
  - intros i s1 Hi (A & B & C). split_and!.
    + intros j Hj. rewrite rd_wr. case_decide; [|apply A; lia]. assert (j = i) as -> by lia. by apply Hf.
    + intros t' j Ht' Hj Hne. unfold is_index in *. rewrite rd_wr_addr, decide_False by (unfold is_index; naive_solver lia). by apply B.
    + rewrite C. done.
Qed.

(** A loop that fills a new page. *)
Lemma fill_page_only c s s1 f : page_only c s s1 -> is_addr c ->
  (forall i s', is_index i -> (forall t' j, is_addr t' -> is_index j -> t' <> c -> rd s' t' j = rd s1 t' j) -> f s' i = f s1 i) ->
  let s2 := for_range 0 512 (fun i s => wr c i (f s i) s) s1 in
  page_only c s s2 /\ pmm s2 = pmm s1 /\ forall j, is_index j -> rd s2 c j = f s1 j.
Proof.
  intros Hpo Ha Hf. cbv zeta. destruct (fill_rd c s1 f Ha Hf) as (A & B & C). cbv zeta in A, B, C.
  set (s2 := for_range 0 512 _ s1) in *. assert (pmm s2 = pmm s1) as Hpm by (by rewrite C). split; [|done].
  constructor; [| by rewrite Hpm; apply Hpo | by rewrite Hpm; apply Hpo | rewrite C; exact (po_top _ _ _ Hpo)].
  intros t j Hta Hj Hne. rewrite B by done. by apply (po_words _ _ _ Hpo).
Qed.

Section Alloc.
Context {E : Type} `{KernelEnv E}.
Implicit Type e : E.

(** What [pmm_alloc_block] returns, whether or not a fault fires. *)
Lemma alloc_block_fresh s e : pmm_core s -> let r := pmm_alloc_block s e in
  pmm_core r.1.2 /\ free_set r.1.2 ⊆ free_set s /\
  (r.1.1 <> 0 -> exists k, r.1.1 = k * 4096 /\ k ∈ free_set s /\ 0 < k < PMM_TOTAL_BLOCKS /\ free_set r.1.2 = free_set s ∖ {[k]}).
Proof.
  intros Hc. cbv zeta. destruct (pmm_alloc_block s e) as [[addr s'] e'] eqn:Ha. cbn [fst snd].
  destruct (kernel_fault_injection_should_fail KERNEL_FAULT_POINT_PMM e) as [[] e1] eqn:Hf.
  - destruct (alloc_refused s e addr s' e' e1 Hf) as (-> & Hs & _); [by left|].
    destruct (same_blocks_ok _ _ Hs Hc) as [[Hc' _] ->]. done.
  - destruct (alloc_block_result s e e1 addr s' e' Hc Hf Ha) as [(_ & -> & Hs)|(k & _ & Hk & -> & (Hok & Hin & Hset) & _)].
    + destruct (same_blocks_ok _ _ Hs Hc) as [[Hc' _] ->]. done.
    + set (i := (next_free_hint64 s + k) mod PMM_TOTAL_BLOCKS) in *. split; [apply Hok|]. rewrite Hset.
      assert (blocks i (i + 1) = {[i]}) as Hb by (apply set_eq; intros x; rewrite elem_of_blocks, elem_of_singleton; lia).
      split; [set_solver|]. intros Hne. exists i. rewrite Hb. pose proof (proj1 (elem_of_free_set i s) Hk) as [Hr _].
      unfold PMM_PAGE_SIZE in *. split_and!; try done; lia.
Qed.

Lemma allocate_table_ok s e : pmm_core (pmm s) -> let r := allocate_table s e in
  page_only r.1.1 s r.1.2 /\
  (r.1.1 <> 0 -> is_addr r.1.1 /\ r.1.1 / 4096 ∈ free_set (pmm s) /\ (r.1.1 / 4096 ∉ free_set (pmm r.1.2)) /\
     forall j, is_index j -> rd r.1.2 r.1.1 j = 0).
Proof.
  intros Hc. cbv zeta. unfold allocate_table. pose proof (alloc_block_fresh (pmm s) e Hc) as Hf. cbv zeta in Hf.
  destruct (pmm_alloc_block (pmm s) e) as [[t0 p] e1]. cbn [fst snd] in Hf. destruct Hf as (Hc' & Hsub & Hnew).
  destruct (t0 =? 0) eqn:E0; [apply Z.eqb_eq in E0 | apply Z.eqb_neq in E0]; cbn [fst snd].
  - subst t0. split; [|done]. by constructor.
  - destruct (Hnew E0) as (k & -> & Hk & Hr & Hset). clear Hnew. rewrite PMM_TOTAL_val in Hr.
    assert (is_addr (k * 4096)) as Ha by (apply addr_of_range; [lia | apply Z_mod_mult]).
    destruct (fill_rd (k * 4096) (s <| pmm := p |>) (fun _ _ => 0) Ha ltac:(done)) as (A & B & C).
    fold (zero_table (k * 4096) (s <| pmm := p |>)) in A, B, C. set (s' := zero_table _ _) in *. clearbody s'.
    assert (pmm s' = p) as Hp by (by rewrite C). split.
    + constructor; [exact B | by rewrite Hp | by rewrite Hp |]. by rewrite C.
    + intros _. rewrite Hp, Hset, Z.div_mul by lia. split_and!; [done | done | set_solver | exact A].
Qed.

Lemma free_no_table s root t0 : tables_ok s root -> t0 / 4096 ∈ free_set (pmm s) -> no_table s root t0.
Proof. intros Hok Hf p t Hp Ht ->. destruct (to_used _ _ Hok p t0 Hp Ht). done. Qed.

(** A failed allocation of a table changes no word. *)
Lemma page_only_zero s s' root : tables_ok s root -> page_only 0 s s' -> quiet s root s'.
Proof. intros Hok Hpo. apply (page_tables s s' root 0 Hok); [|done]. intros p t Hp Ht. by destruct (to_used _ _ Hok p t Hp Ht). Qed.

(** What a step of the mapping functions leaves: [c] is the table at path [q],
    or null if the step failed. *)
Definition steps_to (s : PagingState) (root : Z) (q : list Z) (c : Z) (s' : PagingState) : Prop :=
  quiet s root s' /\ (c <> 0 -> tab s' root q = Some c).

(** Adding an empty table under an absent entry. *)
Lemma create_ok s root p t i flags e : tables_ok s root -> path_ok (p ++ [i]) -> tab s root p = Some t ->
  has VM_FLAG_PRESENT (rd s t i) = false ->
  let '(c, s1, e1) := allocate_table s e in
  let s2 := if c =? 0 then s1 else wr t i (child_entry c flags) s1 in
  steps_to s root (p ++ [i]) c s2.
Proof.
  intros Hok Hp Ht Hab. pose proof (allocate_table_ok s e (to_pmm _ _ Hok)) as Hal. cbv zeta in Hal.
  destruct (allocate_table s e) as [[c s1] e1]. cbn [fst snd] in Hal. destruct Hal as [Hpo Hnew]. 
  destruct (c =? 0) eqn:E0; [apply Z.eqb_eq in E0 | apply Z.eqb_neq in E0]; cbv zeta.
  - subst c. split; [by apply page_only_zero | done].
  - destruct (Hnew E0) as (Ha & Hfree & Hused & Hz). pose proof (free_no_table s root c Hok Hfree) as Hno.
    destruct (page_tables s s1 root c Hok Hno Hpo) as (Hok1 & Hw1 & Hr1 & Hg1).
    assert (path_ok p) as Hp' by (by eapply path_app).
    assert (is_index i) as Hi by (destruct Hp as [_ [_ [H' _]%Forall_cons]%Forall_app]; done).
    pose proof (page_tab s s1 root c Hok Hno Hpo) as Htab. rewrite <- Htab in Ht by done.
    assert (rd s1 t i = rd s t i) as Hrd by (apply (page_rd s s1 root c Hok Hno Hpo p); [done | by rewrite <- Htab | done]).
    destruct (child_entry_fields c flags Ha) as (V3 & V1 & V2).
    assert (no_table s1 root c) as Hno1 by (intros q u Hq; rewrite Htab by done; by apply Hno).
    assert (tab s1 root (p ++ [i]) = None) as Hnone by (rewrite tab_app, Ht; cbn [tab]; by rewrite Hrd, Hab).
    assert (forall j, is_index j -> has VM_FLAG_PRESENT (rd s1 c j) = false) as Hempty by (intros j Hj; by rewrite Hz).
    pose proof (install_tables s1 root Hok1 p t i _ c Hp Ht Hnone Ha E0 Hused Hno1 V1 V2 V3 (or_intror Hempty)) as Hok2.
    pose proof (install_tab s1 root Hok1 p t i _ c Hp Ht Hnone Ha E0 Hused Hno1 V1 V2 V3 (or_intror Hempty)) as Htab2.
    assert (grows s root (wr t i (child_entry c flags) s1)) as Hg2.
    { apply (grows_install _ _ _ (p ++ [i]) c); [| by rewrite <- Htab | done | apply Hg1].
      intros q Hq. by rewrite Htab2, Htab. }
    split; [split; [exact Hok2|]; split; [|by split]|].
    + eapply same_walks_trans; [exact Hw1|].
      apply (install_walks s1 root Hok1 p t i _ c Hp Ht Hnone Ha E0 Hused Hno1 V1 V2 V3 (or_intror Hempty)).
      intros w [r Hr]. rewrite <- app_assoc in Hr. cbn [app] in Hr.
      rewrite (walk_absent s1 root w p i r t Hr Ht) by (by rewrite Hrd).
      destruct r as [|j r].
      * exfalso. apply (f_equal length) in Hr. rewrite length_app in Hr. destruct Hp as [Hp _]. rewrite length_app in Hp. cbn in *. lia.
      * assert (is_index j) as Hj.
        { pose proof (wpath_index w) as Hi4. rewrite Hr in Hi4. apply Forall_app in Hi4 as [_ [_ [Hj _]%Forall_cons]%Forall_cons]. done. }
        apply (walk_absent _ root w (p ++ [i]) j r c); [by rewrite <- app_assoc | by rewrite Htab2, decide_True |].
        rewrite rd_wr_addr, decide_False; [by apply Hempty | | by eapply tab_addr; [apply Hok1|] | done | done | done].
        intros [-> _]. by apply (Hno1 p t Hp' Ht).
    + intros _. by rewrite Htab2, decide_True.
Qed.

Lemma get_or_create_ok s root p t i flags e : tables_ok s root -> path_ok (p ++ [i]) -> tab s root p = Some t ->
  let r := get_or_create_next t i flags s e in steps_to s root (p ++ [i]) r.1.1 r.1.2.
Proof.
  intros Hok Hp Ht. cbv zeta. unfold get_or_create_next.
  destruct (has VM_FLAG_PRESENT (rd s t i)) eqn:Hpr.
  - destruct (has VM_FLAG_HUGE (rd s t i)) eqn:Hh; cbn [fst snd]; [split; [by apply quiet_refl | done]|].
    destruct (relax_ok s root t i flags Hok) as (Hq & Hl). split; [done|].
    intros _. rewrite (tab_like _ _ _ _ Hl), tab_app, Ht. cbn [tab]. rewrite Hpr, Hh. cbn [andb negb].
    destruct (Hl t i) as (A & _). unfold entry_to_table. by rewrite A.
  - pose proof (create_ok s root p t i flags e Hok Hp Ht Hpr) as Hcr.
    destruct (allocate_table s e) as [[c s1] e1]. cbv zeta in Hcr. by destruct (c =? 0) eqn:E0; cbn [fst snd] in *;
      [apply Z.eqb_eq in E0; subst c|].
Qed.

(** The last table, where the entry is not a 2 MiB page. *)
Lemma last_table_ok s root p t i flags e : tables_ok s root -> path_ok (p ++ [i]) -> tab s root p = Some t ->
  has VM_FLAG_PRESENT (rd s t i) && has VM_FLAG_HUGE (rd s t i) = false ->
  let r := last_table t i flags s e in
  steps_to s root (p ++ [i]) r.1.1 r.1.2 /\ (has VM_FLAG_PRESENT (rd s t i) = true -> r.1.1 <> 0).
Proof.
  intros Hok Hp Ht Hnh. cbv zeta. pose proof (get_or_create_ok s root p t i flags e Hok Hp Ht) as Hg. cbv zeta in Hg.
  unfold last_table. unfold get_or_create_next in Hg. destruct (has VM_FLAG_PRESENT (rd s t i)) eqn:Hpr.
  - cbn [andb] in Hnh. rewrite Hnh in Hg. cbn [fst snd] in *. split; [done|]. intros _.
    destruct (relax_ok s root t i flags Hok) as (_ & Hl). destruct (Hl t i) as (A & _). unfold entry_to_table. rewrite A.
    apply (to_used _ _ Hok (p ++ [i])); [done|]. rewrite tab_app, Ht. cbn [tab]. by rewrite Hpr, Hnh.
  - split; [exact Hg | done].
Qed.
End Alloc.

(** ** Splitting a 2 MiB page *)

Lemma mod_21 w : w mod 2 ^ 21 = pt_index w * 4096 + w mod 4096.
Proof.
  unfold pt_index. change 0x1FF with (2 ^ 9 - 1). rewrite land_ones_mod, Z.shiftr_div_pow2 by lia.
  replace (2 ^ 21) with (2 ^ 12 * 2 ^ 9) by lia. rewrite Z.rem_mul_r by lia. change (2 ^ 12) with 4096. lia.
Qed.

Section SplitEntry.
Context (e : Z).
Let base := Z.land e HUGE_2M_ADDRESS.
Let flags := Z.land (Z.land e ENTRY_FLAGS) (not64 VM_FLAG_HUGE).
Definition split_pte (entry i : Z) : Z :=
  Z.lor (u64 (Z.land entry HUGE_2M_ADDRESS + i * VM_PAGE_SIZE))
    (Z.land (Z.land entry ENTRY_FLAGS) (not64 VM_FLAG_HUGE)).

Lemma split_base i : is_index i -> u64 (base + i * VM_PAGE_SIZE) = base + i * 4096 /\ is_addr (base + i * 4096).
Proof.
  intros Hi. unfold base, is_index, VM_PAGE_SIZE in *. rewrite huge_address.
  pose proof (Z.mod_pos_bound (e / 2 ^ 21) (2 ^ 31) ltac:(lia)) as Hb. set (k := (e / 2 ^ 21) mod 2 ^ 31) in *.
  split; [apply u64_small; unfold is_u64; lia|]. apply addr_of_range; [lia|].
  replace (k * 2 ^ 21 + i * 4096) with ((k * 512 + i) * 4096) by lia. apply Z_mod_mult.
Qed.
Lemma split_pte_fields i : is_index i ->
  Z.land (split_pte e i) ENTRY_ADDRESS = base + i * 4096 /\
  has VM_FLAG_PRESENT (split_pte e i) = has VM_FLAG_PRESENT e.
Proof.
  intros Hi. destruct (split_base i Hi) as [Eb Ha]. unfold split_pte, has. fold base. rewrite Eb, !Z.land_lor_distr_l. split.
  - rewrite Ha, <- (Z.land_assoc (Z.land e ENTRY_FLAGS)), land_zero by done. by rewrite Z.lor_0_r.
  - rewrite (addr_land _ _ Ha) by done. by rewrite <- !Z.land_assoc.
Qed.
(** The translation of an address in the page, before and after. *)
Lemma split_translation w :
  Z.lor (Z.land (split_pte e (pt_index w)) ENTRY_ADDRESS) (Z.land w 0xFFF) = Z.lor base (Z.land w 0x1FFFFF).
Proof.
  destruct (split_pte_fields (pt_index w) (index_range _)) as [-> _].
  change 0xFFF with (2 ^ 12 - 1). change 0x1FFFFF with (2 ^ 21 - 1). rewrite !land_ones_mod by lia.
  unfold base. rewrite huge_address. set (k := (e / 2 ^ 21) mod 2 ^ 31).
  replace (k * 2 ^ 21 + pt_index w * 4096) with ((k * 512 + pt_index w) * 2 ^ 12) by lia.
  rewrite !lor_shifted by (first [lia | apply Z.mod_pos_bound; lia]). rewrite mod_21. change (2 ^ 12) with 4096. lia.
Qed.
End SplitEntry.

(** Walks by where they end. *)
Lemma tab_step s t i p c : tab s t (i :: p) = Some c ->
  has VM_FLAG_PRESENT (rd s t i) = true /\ has VM_FLAG_HUGE (rd s t i) = false /\ tab s (entry_to_table (rd s t i)) p = Some c.
Proof. cbn [tab]. destruct (has VM_FLAG_PRESENT _), (has VM_FLAG_HUGE _); done. Qed.
Lemma walk_huge s root w pd : tab s root [pml4_index w; pdpt_index w] = Some pd ->
  has VM_FLAG_PRESENT (rd s pd (pd_index w)) = true -> has VM_FLAG_HUGE (rd s pd (pd_index w)) = true ->
  walk_phys root w s = Z.lor (Z.land (rd s pd (pd_index w)) HUGE_2M_ADDRESS) (Z.land w 0x1FFFFF).
Proof.
  intros (A & _ & (C & D & [= <-])%tab_step)%tab_step Hp Hh. unfold walk_phys. by rewrite A, C, D, Hp, Hh.
Qed.
Lemma walk_leaf s root w pt : tab s root [pml4_index w; pdpt_index w; pd_index w] = Some pt ->
  walk_phys root w s = if has VM_FLAG_PRESENT (rd s pt (pt_index w))
    then Z.lor (Z.land (rd s pt (pt_index w)) ENTRY_ADDRESS) (Z.land w 0xFFF) else 0.
Proof.
  intros (A & _ & (C & D & (F & G & [= <-])%tab_step)%tab_step)%tab_step. unfold walk_phys. rewrite A, C, D, F, G.
  cbn [negb]. by destruct (has VM_FLAG_PRESENT (rd s _ (pt_index w))).
Qed.

Lemma wpath_deep w p i : length p = 2%nat -> p ++ [i] `prefix_of` wpath w -> p = [pml4_index w; pdpt_index w] /\ i = pd_index w.
Proof.
  intros Hl [r Hr]. destruct p as [|a [|b [|? ?]]]; try done. unfold wpath in Hr. cbn [app] in Hr. by injection Hr as <- <- <- _.
Qed.

Lemma path_1 virt : path_ok [pml4_index virt].
Proof. split; [cbn; lia | repeat constructor; apply index_range]. Qed.
Lemma path_2 virt : path_ok [pml4_index virt; pdpt_index virt].
Proof. split; [cbn; lia | repeat constructor; apply index_range]. Qed.
Lemma path_3 virt : path_ok [pml4_index virt; pdpt_index virt; pd_index virt].
Proof. split; [cbn; lia | repeat constructor; apply index_range]. Qed.

Section Map.
Context {E : Type} `{KernelEnv E}.
Implicit Type e : E.

Lemma split_huge_ok s root p pd i e : tables_ok s root -> path_ok (p ++ [i]) -> length p = 2%nat -> tab s root p = Some pd ->
  has VM_FLAG_PRESENT (rd s pd i) = true -> has VM_FLAG_HUGE (rd s pd i) = true ->
  let r := split_huge_page pd i s e in let s' := r.1.2 in
  quiet s root s' /\ tab s' root p = Some pd /\ (r.1.1 <> 0 -> has VM_FLAG_HUGE (rd s' pd i) = false).
Proof.
  intros Hok Hp Hlen Ht Hpr Hh. cbv zeta. unfold split_huge_page. rewrite Hpr, Hh. cbn [negb orb].
  pose proof (allocate_table_ok s e (to_pmm _ _ Hok)) as Hal. cbv zeta in Hal.
  destruct (allocate_table s e) as [[c s1] e1]. cbn [fst snd] in Hal. destruct Hal as [Hpo Hnew].
  assert (path_ok p) as Hp' by (by eapply path_app).
  assert (is_index i) as Hi by (destruct Hp as [_ [_ [H' _]%Forall_cons]%Forall_app]; done).
  destruct (c =? 0) eqn:E0; [apply Z.eqb_eq in E0 | apply Z.eqb_neq in E0]; cbn [fst snd].
  - subst c. split; [by apply page_only_zero|]. split; [|done].
    rewrite (page_tab s s1 root 0 Hok); try done. intros q u Hq Hu. by destruct (to_used _ _ Hok q u Hq Hu).
  - destruct (Hnew E0) as (Ha & Hfree & Hused & _). clear Hnew. pose proof (free_no_table s root c Hok Hfree) as Hno.
    set (en := rd s pd i) in *. set (s2 := for_range 0 512 _ s1).
    assert ((forall j, is_index j -> rd s2 c j = split_pte en j) /\
      (forall t' j, is_addr t' -> is_index j -> t' <> c -> rd s2 t' j = rd s1 t' j) /\ s2 = s1 <| words := words s2 |>)
      as (A & B & C) by exact (fill_rd c s1 (fun _ => split_pte en) Ha ltac:(done)).
    clearbody s2.
    assert (pmm s2 = pmm s1) as Hpm by (by rewrite C).
    assert (page_only c s s2) as Hpo2.
    { constructor; [|by rewrite Hpm; apply (po_free _ _ _ Hpo) | by rewrite Hpm; apply (po_pmm _ _ _ Hpo) | rewrite C; exact (po_top _ _ _ Hpo)].
      intros t j Hta Hj Hne. rewrite B by done. by apply (po_words _ _ _ Hpo). }
    destruct (page_tables s s2 root c Hok Hno Hpo2) as (Hok2 & Hw2 & Hr2 & Hg2). pose proof (page_tab s s2 root c Hok Hno Hpo2) as Htab.
    assert (rd s2 pd i = en) as Hrd by (apply (page_rd s s2 root c Hok Hno Hpo2 p); done).
    rewrite <- Htab in Ht by done. destruct (child_entry_fields c en Ha) as (V3 & V1 & V2).
    assert (no_table s2 root c) as Hno2 by (intros q u Hq; rewrite Htab by done; by apply Hno).
    assert (tab s2 root (p ++ [i]) = None) as Hnone by (rewrite tab_app, Ht; cbn [tab]; by rewrite Hrd, Hh, andb_false_r).
    rewrite <- Hpm in Hused.
    pose proof (install_tables s2 root Hok2 p pd i _ c Hp Ht Hnone Ha E0 Hused Hno2 V1 V2 V3 (or_introl Hlen)) as Hok3.
    pose proof (install_tab s2 root Hok2 p pd i _ c Hp Ht Hnone Ha E0 Hused Hno2 V1 V2 V3 (or_introl Hlen)) as Htab3.
    assert (grows s root (wr pd i (child_entry c en) s2)) as Hg3.
    { apply (grows_install _ _ _ (p ++ [i]) c); [| by rewrite <- Htab | done | apply Hg2].
      intros q Hq. by rewrite Htab3, Htab. }
    split; [split; [exact Hok3|]; split; [|by split]|].
    { eapply same_walks_trans; [exact Hw2|].
      apply (install_walks s2 root Hok2 p pd i _ c Hp Ht Hnone Ha E0 Hused Hno2 V1 V2 V3 (or_introl Hlen)).
      intros w Hw. destruct (wpath_deep w p i Hlen Hw) as [-> ->].
      rewrite (walk_huge s2 root w pd Ht), Hrd by (by rewrite Hrd).
      rewrite (walk_leaf _ root w c) by (rewrite Htab3, decide_True by done; done).
      rewrite rd_wr_addr, decide_False; [| | by eapply tab_addr; [apply Hok2|] | done | done | apply index_range].
      2: { intros [-> _]. by apply (Hno2 _ _ Hp' Ht). }
      rewrite A by apply index_range. destruct (split_pte_fields en (pt_index w) (index_range _)) as [_ ->]. rewrite Hpr.
      apply split_translation. }
    split; [rewrite Htab3 by done; rewrite decide_False; [done|]; intros E'; apply (f_equal length) in E';
      rewrite length_app in E'; cbn in E'; lia|]. intros _. by rewrite rd_wr, decide_True.
Qed.

(** ** Mapping and unmapping *)

(** Two addresses of the same page: their walks use the same entries. *)
Definition same_page (v w : Z) : Prop := wpath v = wpath w.
#[export] Instance same_page_dec v w : Decision (same_page v w) := decide (wpath v = wpath w).

(** Writing a leaf entry. *)
Lemma leaf_ok s root v pt x : tables_ok s root -> tab s root [pml4_index v; pdpt_index v; pd_index v] = Some pt ->
  let s' := wr pt (pt_index v) x s in
  tables_ok s' root /\ (forall q, path_ok q -> tab s' root q = tab s root q) /\
  (forall w, walk_phys root w s' = if decide (same_page v w)
     then (if has VM_FLAG_PRESENT x then Z.lor (Z.land x ENTRY_ADDRESS) (Z.land w 0xFFF) else 0)
     else walk_phys root w s).
Proof.
  intros Hok Ht. cbv zeta. set (p := [pml4_index v; pdpt_index v; pd_index v]) in *.
  assert (path_ok p) as Hp by (split; [cbn; lia | repeat constructor; apply index_range]).
  pose proof (index_range (Z.shiftr v 12)) as Hi. fold (pt_index v) in Hi.
  assert (forall q, path_ok q -> ~ (p ++ [pt_index v] `prefix_of` q)) as Hshort.
  { intros q [Hq _] [r ->]. rewrite !length_app in Hq. cbn in Hq. lia. }
  pose proof (write_tab s root Hok p pt (pt_index v) x Hp Ht Hi) as Htab. split; [|split; [by auto|]].
  - destruct Hok as [H1 H2 H3 H4 H5]. constructor; try done.
    + intros q1 q2 u Hq1 Hq2. rewrite !Htab by auto. by apply H2.
    + intros q u Hq. rewrite Htab by auto. by apply H3.
    + intros j Hj. rewrite (write_elsewhere s root ltac:(by constructor) p pt (pt_index v) x Hp Ht Hi [] root j path_nil eq_refl Hj ltac:(done)).
      by apply H4.
  - intros w. destruct (decide (same_page v w)) as [Hs|Hs].
    + unfold same_page, wpath in Hs. injection Hs as E4 E3 E2 E1.
      rewrite (walk_leaf _ root w pt) by (rewrite <- E4, <- E3, <- E2; fold p; rewrite Htab by auto; done).
      rewrite <- E1, rd_wr, decide_True by done. done.
    + apply (write_walk s root Hok p pt (pt_index v) x Hp Ht Hi). intros [r Hr]. apply Hs. unfold same_page, wpath in *.
      unfold p in Hr. cbn [app] in Hr. injection Hr as -> -> -> -> _. done.
Qed.

(** What mapping [virt] to [phys] leaves. *)
Definition mapped_exactly (s : PagingState) (root virt phys : Z) (s' : PagingState) : Prop :=
  forall w, walk_phys root w s' =
    if decide (same_page virt w) then Z.lor (Z.land phys ENTRY_ADDRESS) (Z.land w 0xFFF) else walk_phys root w s.

Lemma leaf_entry phys flags : Z.land flags ENTRY_ADDRESS = 0 ->
  let x := Z.lor (Z.lor (Z.land phys ENTRY_ADDRESS) flags) VM_FLAG_PRESENT in
  has VM_FLAG_PRESENT x = true /\ Z.land x ENTRY_ADDRESS = Z.land phys ENTRY_ADDRESS.
Proof.
  intros Hf. cbv zeta. unfold has. rewrite !Z.land_lor_distr_l, Hf, <- !Z.land_assoc. cbn [Z.land Pos.land]. split.
  - unfold nonzero. apply negb_true_iff, Z.eqb_neq. intros Hz. apply Z.lor_eq_0_iff in Hz as [_ Hz]. done.
  - by rewrite !Z.lor_0_r.
Qed.

(** The page of [virt] is mapped by a last-level entry. *)
Definition leaf_mapped (s : PagingState) (root virt : Z) : Prop :=
  exists pt, tab s root [pml4_index virt; pdpt_index virt; pd_index virt] = Some pt /\
    has VM_FLAG_PRESENT (rd s pt (pt_index virt)) = true.

(** The outcome of a mapping function. *)
Definition map_effect (s : PagingState) (root virt phys ok : Z) (s' : PagingState) : Prop :=
  tables_ok s' root /\ pml4_table s' = pml4_table s /\ pml4_phys s' = pml4_phys s /\ cr3 s' = cr3 s /\
  ((ok = 0 /\ same_walks s s' root /\ flushed s' = flushed s) \/
   (ok = 1 /\ mapped_exactly s root virt phys s' /\ flushed s' = virt :: flushed s /\ leaf_mapped s' root virt)).
Definition map_outcome (s : PagingState) (root virt phys ok : Z) (s' : PagingState) : Prop :=
  map_effect s root virt phys ok s' /\ grows s root s'.
Lemma effect_refused s root virt phys s' : tables_ok s' root -> same_walks s s' root -> same_regs s s' ->
  map_effect s root virt phys 0 s'.
Proof. intros T W (R1 & R2 & R3 & R4). do 4 (split; [done|]). by left. Qed.
Lemma effect_trans s1 s2 root virt phys ok s3 : same_walks s1 s2 root -> same_regs s1 s2 ->
  map_effect s2 root virt phys ok s3 -> map_effect s1 root virt phys ok s3.
Proof.
  intros W (R1 & R2 & R3 & R4) (T & P1 & P2 & P3 & Hc). split; [done|]. split; [congruence|].
  split; [congruence|]. split; [congruence|]. destruct Hc as [(-> & Hw & Hfl)|(-> & Hm & Hfl & Hlf)].
  - left. split; [done|]. split; [by eapply same_walks_trans | congruence].
  - right. split; [done|]. split; [|by split; [congruence|]]. intros w. by rewrite Hm, W.
Qed.
Lemma outcome_refused s root virt phys s' : quiet s root s' -> map_outcome s root virt phys 0 s'.
Proof. intros (T & W & R & G). split; [by apply effect_refused | done]. Qed.
Lemma outcome_trans s1 s2 root virt phys ok s3 : quiet s1 root s2 -> map_outcome s2 root virt phys ok s3 ->
  map_outcome s1 root virt phys ok s3.
Proof. intros (T & W & R & G) [Hm G']. split; [by eapply effect_trans | by eapply grows_trans]. Qed.
Lemma outcome_leaf s root virt phys flags pt : tables_ok s root -> Z.land flags ENTRY_ADDRESS = 0 ->
  tab s root [pml4_index virt; pdpt_index virt; pd_index virt] = Some pt ->
  map_outcome s root virt phys 1 (map_leaf pt virt phys flags s).
Proof.
  intros Hok Hf Ht. unfold map_leaf, arch_vm_flush_page. destruct (leaf_entry phys flags Hf) as [Hp Ha].
  set (x := Z.lor (Z.lor (Z.land phys ENTRY_ADDRESS) flags) VM_FLAG_PRESENT) in *.
  destruct (leaf_ok s root virt pt x Hok Ht) as (Hok' & Htab & Hw).
  set (s1 := wr pt (pt_index virt) x s) in *. set (s2 := s1 <| flushed := virt :: flushed s1 |>).
  assert (forall q, tab s2 root q = tab s1 root q) as Htab2 by (intros q; apply tab_like; auto with kernel).
  destruct (tables_like s1 s2 root Hok') as [Hok2 Hw2]; [auto with kernel | done |].
  split; [|apply grows_same; [intros q Hq; by rewrite Htab2, Htab | done]].
  do 4 (split; [done|]). right. split; [done|]. split; [intros w; by rewrite Hw2, Hw, Hp, Ha|]. split; [done|].
  exists pt. rewrite Htab2, Htab by apply path_3. split; [done|]. change (rd s2) with (rd s1). unfold s1. by rewrite rd_wr, decide_True.
Qed.

(** The end of both mapping functions: find or make the last table, write the
    leaf. *)
Definition map_last (pd virt phys flags ok : Z) (s : PagingState) (e : E) : Z * PagingState * E :=
  if ok =? 0 then (0, s, e)
  else
    let present := has VM_FLAG_PRESENT (rd s pd (pd_index virt)) in
    let '(pt, s, e) := last_table pd (pd_index virt) flags s e in
    if negb present && (pt =? 0) then (0, s, e) else (1, map_leaf pt virt phys flags s, e).
Lemma map_last_ok s root virt phys flags pd ok e : tables_ok s root -> Z.land flags ENTRY_ADDRESS = 0 ->
  tab s root [pml4_index virt; pdpt_index virt] = Some pd ->
  (ok <> 0 -> has VM_FLAG_PRESENT (rd s pd (pd_index virt)) && has VM_FLAG_HUGE (rd s pd (pd_index virt)) = false) ->
  let r := map_last pd virt phys flags ok s e in map_outcome s root virt phys r.1.1 r.1.2.
Proof.
  intros Hok Hfl Ht Hnh. cbv zeta. unfold map_last.
  destruct (ok =? 0) eqn:E3; [by apply outcome_refused, quiet_refl|]. apply Z.eqb_neq in E3.
  pose proof (last_table_ok s root [pml4_index virt; pdpt_index virt] pd (pd_index virt) flags e Hok (path_3 virt) Ht (Hnh E3)) as H4.
  cbv zeta in H4. destruct (last_table pd (pd_index virt) flags s e) as [[pt s4] e4]. cbn [fst snd app] in H4.
  destruct H4 as [[Q4 T4] Hpt]. destruct (negb _ && _) eqn:E4; [by apply outcome_refused|]. cbn [fst snd].
  assert (pt <> 0) as Hpt0.
  { destruct (has VM_FLAG_PRESENT (rd s pd (pd_index virt))); [by apply Hpt|]. cbn [negb andb] in E4. by apply Z.eqb_neq in E4. }
  eapply outcome_trans; [exact Q4|]. apply outcome_leaf; [apply Q4 | done | by apply T4].
Qed.

Lemma map_page_ok s virt phys flags e : pml4_table s <> 0 -> tables_ok s (pml4_table s) -> Z.land flags ENTRY_ADDRESS = 0 ->
  let r := arch_vm_map_page virt phys flags s e in map_outcome s (pml4_table s) virt phys r.1.1 r.1.2.
Proof.
  intros Hinit Hok Hfl. cbv zeta. unfold arch_vm_map_page, ensure_init. rewrite (proj2 (Z.eqb_neq _ 0)) by done. cbv zeta.
  set (root := pml4_table s) in *.
  pose proof (get_or_create_ok s root [] root (pml4_index virt) flags e Hok (path_1 virt) eq_refl) as H1. cbv zeta in H1.
  destruct (get_or_create_next root (pml4_index virt) flags s e) as [[pdpt s1] e1]. cbn [fst snd app] in H1. destruct H1 as [Q1 T1].
  destruct (pdpt =? 0) eqn:E1; [by apply outcome_refused|]. apply Z.eqb_neq in E1. specialize (T1 E1).
  eapply outcome_trans; [exact Q1|]. clear Hok. pose proof (proj1 Q1) as Hok1.
  pose proof (get_or_create_ok s1 root [pml4_index virt] pdpt (pdpt_index virt) flags e1 Hok1 (path_2 virt) T1) as H2. cbv zeta in H2.
  destruct (get_or_create_next pdpt (pdpt_index virt) flags s1 e1) as [[pd s2] e2]. cbn [fst snd app] in H2. destruct H2 as [Q2 T2].
  destruct (pd =? 0) eqn:E2; [by apply outcome_refused|]. apply Z.eqb_neq in E2. specialize (T2 E2).
  eapply outcome_trans; [exact Q2|]. pose proof (proj1 Q2) as Hok2. clear Hok1 Q1 Q2 T1.
  destruct (has VM_FLAG_PRESENT (rd s2 pd (pd_index virt)) && has VM_FLAG_HUGE (rd s2 pd (pd_index virt))) eqn:Hh.
  - apply andb_true_iff in Hh as [Hpr Hh].
    destruct (split_huge_ok s2 root [pml4_index virt; pdpt_index virt] pd (pd_index virt) e2 Hok2 (path_3 virt) eq_refl T2 Hpr Hh) as (Q3 & T3 & Hnh).
    destruct (split_huge_page pd (pd_index virt) s2 e2) as [[ok s3] e3]. cbn [fst snd] in *.
    eapply outcome_trans; [exact Q3|]. apply (map_last_ok s3 root virt phys flags pd ok e3 (proj1 Q3) Hfl T3).
    intros Hne. by rewrite (Hnh Hne), andb_false_r.
  - by apply (map_last_ok s2 root virt phys flags pd 1 e2).
Qed.
End Map.

Definition unmap_outcome (s : PagingState) (root virt ok : Z) (s' : PagingState) : Prop :=
  (ok = 0 /\ s' = s /\ ~ leaf_mapped s root virt) \/
  (ok = 1 /\ leaf_mapped s root virt /\ tables_ok s' root /\ (forall q, path_ok q -> tab s' root q = tab s root q) /\
   pmm s' = pmm s /\ pml4_table s' = pml4_table s /\ pml4_phys s' = pml4_phys s /\ cr3 s' = cr3 s /\
   flushed s' = virt :: flushed s /\
   forall w, walk_phys root w s' = if decide (same_page virt w) then 0 else walk_phys root w s).

Lemma unmap_ok s root virt : tables_ok s root ->
  let r := walk_unmap root virt s in unmap_outcome s root virt r.1 r.2.
Proof.
  intros Hok. cbv zeta. unfold walk_unmap.
  assert (~ leaf_mapped s root virt -> unmap_outcome s root virt 0 s) as Hno by (intros Hn; by left).
  destruct (has VM_FLAG_PRESENT (rd s root (pml4_index virt))) eqn:P4; cbn [negb].
  2: { apply Hno. intros (pt & (A & _)%tab_step & _). congruence. }
  pose proof (to_top _ _ Hok (pml4_index virt) (index_range _) P4) as F4. set (pdpt := entry_to_table _).
  destruct (negb (has VM_FLAG_PRESENT (rd s pdpt (pdpt_index virt))) || has VM_FLAG_HUGE (rd s pdpt (pdpt_index virt))) eqn:C3.
  { apply Hno. intros (pt & (_ & _ & (A & B & _)%tab_step)%tab_step & _). fold pdpt in A, B. by rewrite A, B in C3. }
  apply orb_false_iff in C3 as [P3%negb_false_iff F3]. set (pd := entry_to_table (rd s pdpt _)).
  destruct (negb (has VM_FLAG_PRESENT (rd s pd (pd_index virt))) || has VM_FLAG_HUGE (rd s pd (pd_index virt))) eqn:C2.
  { apply Hno. intros (pt & (_ & _ & (_ & _ & (A & B & _)%tab_step)%tab_step)%tab_step & _). fold pdpt pd in A, B. by rewrite A, B in C2. }
  apply orb_false_iff in C2 as [P2%negb_false_iff F2]. set (pt := entry_to_table (rd s pd _)).
  assert (tab s root [pml4_index virt; pdpt_index virt; pd_index virt] = Some pt) as Ht.
  { cbn [tab]. rewrite P4, F4. fold pdpt. cbn [andb negb]. rewrite P3, F3. fold pd. cbn [andb negb]. rewrite P2, F2. done. }
  destruct (has VM_FLAG_PRESENT (rd s pt (pt_index virt))) eqn:P1; cbn [negb fst snd].
  2: { apply Hno. intros (pt' & Ht' & Hp'). rewrite Ht in Ht'. injection Ht' as <-. congruence. }
  right. destruct (leaf_ok s root virt pt 0 Hok Ht) as (Hok' & Htab & Hw). set (s1 := wr pt (pt_index virt) 0 s) in *.
  set (s2 := arch_vm_flush_page virt s1). destruct (tables_like s1 s2 root Hok') as [Hok2 Hw2]; [auto with kernel | done |].
  split; [done|]. split; [by exists pt|]. split; [done|].
  split; [intros q Hq; rewrite <- Htab by done; apply tab_like; auto with kernel|].
  do 5 (split; [done|]). intros w. rewrite Hw2, Hw. done.
Qed.
