(* ===== verification/PagingMemory.v ===== *)
(** * The memory of page tables

    Where the pages of new tables come from and what becomes of them: a block
    that a mapping takes is a table afterwards ([accounted]), and with three
    free blocks, no injected fault and no 1 GiB page in the way a mapping
    succeeds.  With the effects of [PagingSpec] this gives the contracts of
    [arch_vm_map_page] and [arch_vm_unmap_page]. *)

From S2P Require Import Prelude KernelEnv Pmm PmmSpec Paging PagingSpec.

(** A block that is no longer free has become a table. *)
Definition accounted (s : PagingState) (root : Z) (s' : PagingState) : Prop :=
  forall k, 0 < k -> k ∈ free_set (pmm s) -> k ∈ free_set (pmm s') \/ is_table s' root (k * 4096).
Lemma accounted_same s root s' : pmm s' = pmm s -> accounted s root s'.
Proof. intros Hp k _ Hk. left. by rewrite Hp. Qed.
Lemma accounted_trans s1 s2 s3 root : accounted s1 root s2 -> accounted s2 root s3 -> grows s2 root s3 -> accounted s1 root s3.
Proof.
  intros H1 H2 G k H0 Hk. destruct (H1 k H0 Hk) as [Hk2|(q & Hq & Ht)]; [by apply H2|].
  right. exists q. split; [done | by apply (gr_stay _ _ _ G)].
Qed.
(** At most [n] blocks are taken. *)
Definition takes_at_most (n : nat) (s s' : PagingState) : Prop :=
  0 ∉ free_set (pmm s) -> (size (free_set (pmm s)) <= size (free_set (pmm s')) + n)%nat.

(** A 1 GiB page: an entry of a page-directory-pointer table that is present
    and huge.  Mapping adds none. *)
Definition giant (s : PagingState) (u j : Z) : bool := has VM_FLAG_PRESENT (rd s u j) && has VM_FLAG_HUGE (rd s u j).
Definition keeps_small (s : PagingState) (root : Z) (s' : PagingState) : Prop :=
  forall q u j, path_ok q -> length q = 1%nat -> tab s' root q = Some u -> is_index j -> giant s' u j = true ->
    tab s root q = Some u /\ giant s u j = true.
(** What a step that needs memory costs. *)
Definition spends (n : nat) (s : PagingState) (root : Z) (s' : PagingState) : Prop :=
  accounted s root s' /\ takes_at_most n s s' /\ keeps_small s root s'.
Lemma spends_trans n m s1 s2 s3 root : spends n s1 root s2 -> spends m s2 root s3 -> grows s1 root s2 -> grows s2 root s3 ->
  spends (n + m) s1 root s3.
Proof.
  intros (A1 & T1 & K1) (A2 & T2 & K2) G1 G2. split; [by eapply accounted_trans|]. split.
  - intros H0. pose proof (gr_free _ _ _ G1). specialize (T1 H0). assert (0 ∉ free_set (pmm s2)) as H0' by set_solver. specialize (T2 H0'). lia.
  - intros q u j Hq Hl Ht Hj Hg. destruct (K2 q u j) as [Ht2 Hg2]; try done. by apply (K1 q u j).
Qed.
Lemma spends_more n m s root s' : (n <= m)%nat -> spends n s root s' -> spends m s root s'.
Proof. intros Hnm (A & T & K). split; [done|]. split; [|done]. intros H0. specialize (T H0). lia. Qed.
(** Entries replaced by like ones cost nothing. *)
Lemma spends_like s root s' : pmm s' = pmm s -> (forall t i, entry_like (rd s' t i) (rd s t i)) -> spends 0 s root s'.
Proof.
  intros Hp Hl. split; [by apply accounted_same|]. split; [intros _; rewrite Hp; lia|].
  intros q u j Hq _ Ht _. rewrite (tab_like s s') in Ht by done. unfold giant. destruct (Hl u j) as (_ & -> & ->). done.
Qed.
(** A step whose new table, if any, is [c] at path [p ++ [i]], where it writes
    one entry, and which leaves all else of the tables alone. *)
Lemma keeps_small_at s s' root p t i c : tables_ok s root -> path_ok p -> tab s root p = Some t ->
  (forall q u, path_ok q -> tab s' root q = Some u -> tab s root q = Some u \/ u = c) ->
  (forall u j, is_table s root u -> is_index j -> (u, j) <> (t, i) -> giant s' u j = giant s u j) ->
  (length p = 1%nat -> giant s' t i = false) ->
  (forall q, length q = 1%nat -> tab s' root q = Some c -> forall j, is_index j -> giant s' c j = false) -> keeps_small s root s'.
Proof.
  intros Hok Hp Ht Htab Hold Hwr Hnew q u j Hq Hl Hu Hj Hg. destruct (decide (u = c)) as [->|Hne].
  { by rewrite (Hnew q Hl Hu j Hj) in Hg. }
  destruct (Htab q u Hq Hu) as [Hu'|?]; [|done]. split; [done|]. rewrite <- Hg. symmetry. apply Hold; [by exists q | done |].
  intros [= -> ->]. rewrite Hwr in Hg; [done|]. rewrite <- Hl. f_equal. by apply (to_inj _ _ Hok p q t).
Qed.

Lemma relax_pmm t i flags s : pmm (relax_table_entry_for_flags t i flags s) = pmm s.
Proof. unfold relax_table_entry_for_flags. by destruct (_ || _). Qed.

(** The last table is found like the ones above it. *)
Lemma last_table_eq {E : Type} `{KernelEnv E} t i flags s (e : E) :
  has VM_FLAG_PRESENT (rd s t i) && has VM_FLAG_HUGE (rd s t i) = false ->
  last_table t i flags s e = get_or_create_next t i flags s e.
Proof. unfold last_table, get_or_create_next. destruct (has VM_FLAG_PRESENT _); [|done]. cbn [andb]. by intros ->. Qed.

Section Memory.
Context {E : Type} `{KernelEnv E}.
Implicit Type e : E.

Lemma alloc_block_taken s e : pmm_core s -> let r := pmm_alloc_block s e in
  forall k, 0 < k -> k ∈ free_set s -> k ∈ free_set r.1.2 \/ k * 4096 = r.1.1.
Proof.
  intros Hc. cbv zeta. destruct (pmm_alloc_block s e) as [[addr s'] e'] eqn:Ha. cbn [fst snd]. intros k H0 Hk.
  destruct (kernel_fault_injection_should_fail KERNEL_FAULT_POINT_PMM e) as [[] e1] eqn:Hf.
  - destruct (alloc_refused s e addr s' e' e1 Hf) as (-> & Hs & _); [by left|].
    left. by destruct (same_blocks_ok _ _ Hs Hc) as [_ ->].
  - destruct (alloc_block_result s e e1 addr s' e' Hc Hf Ha) as [(_ & -> & Hs)|(j & _ & _ & -> & (_ & _ & Hset) & _)].
    + left. by destruct (same_blocks_ok _ _ Hs Hc) as [_ ->].
    + rewrite Hset, elem_of_difference, elem_of_blocks. unfold PMM_PAGE_SIZE.
      destruct (decide (k = (next_free_hint64 s + j) mod PMM_TOTAL_BLOCKS)) as [->|]; [by right | left; split; [done | lia]].
Qed.
Lemma alloc_block_works s e : pmm_core s -> 0 ∉ free_set s -> free_set s <> ∅ ->
  (kernel_fault_injection_should_fail KERNEL_FAULT_POINT_PMM e).1 = false -> (pmm_alloc_block s e).1.1 <> 0.
Proof.
  intros Hc H0 Hne. destruct (kernel_fault_injection_should_fail KERNEL_FAULT_POINT_PMM e) as [b e1] eqn:Hf. cbn [fst]. intros ->.
  destruct (pmm_alloc_block s e) as [[addr s'] e'] eqn:Ha. cbn [fst snd].
  destruct (alloc_block_result s e e1 addr s' e' Hc Hf Ha) as [(? & _)|(j & _ & Hk & -> & _)]; [done|].
  unfold PMM_PAGE_SIZE. intros Hz. apply H0. by replace 0 with ((next_free_hint64 s + j) mod PMM_TOTAL_BLOCKS) by lia.
Qed.

Lemma allocate_pmm s e : (allocate_table s e).1.1 = (pmm_alloc_block (pmm s) e).1.1 /\
  pmm (allocate_table s e).1.2 = (pmm_alloc_block (pmm s) e).1.2.
Proof.
  unfold allocate_table. destruct (pmm_alloc_block (pmm s) e) as [[c p] e1]. cbn [fst snd].
  destruct (c =? 0) eqn:E0; cbn [fst snd]; [apply Z.eqb_eq in E0; by subst c|]. split; [done|].
  unfold zero_table. by apply (for_range_inv (fun _ s' => pmm s' = p)); [lia | done | intros i s' _ <-].
Qed.
Lemma allocate_taken s e : pmm_core (pmm s) -> let r := allocate_table s e in
  (forall k, 0 < k -> k ∈ free_set (pmm s) -> k ∈ free_set (pmm r.1.2) \/ k * 4096 = r.1.1) /\ takes_at_most 1 s r.1.2.
Proof.
  intros Hc. cbv zeta. destruct (allocate_pmm s e) as [-> E2]. unfold takes_at_most. rewrite E2.
  pose proof (alloc_block_taken (pmm s) e Hc) as Ht. cbv zeta in Ht. split; [done|]. intros H0.
  set (s' := (pmm_alloc_block (pmm s) e).1.2) in *. set (a := (pmm_alloc_block (pmm s) e).1.1) in *.
  assert (free_set (pmm s) ⊆ free_set s' ∪ {[a / 4096]}) as Hsub.
  { intros k Hk. pose proof Hk as [Hr _]%elem_of_free_set. assert (k <> 0) by (by intros ->).
    destruct (Ht k ltac:(lia) Hk) as [?|<-]; [set_solver|]. rewrite Z.div_mul by lia. set_solver. }
  apply subseteq_size in Hsub. pose proof (size_union_alt (free_set s') {[a / 4096]}) as Hu.
  assert ({[a / 4096]} ∖ free_set s' ⊆ ({[a / 4096]} : gset Z)) as Hd by set_solver.
  apply subseteq_size in Hd. rewrite (size_singleton (C := gset Z)) in Hd. lia.
Qed.

Definition no_fault : Prop := forall e, (kernel_fault_injection_should_fail KERNEL_FAULT_POINT_PMM e).1 = false.
(** There is a block to take. *)
Definition has_room (s : PagingState) : Prop := (0 ∉ free_set (pmm s)) /\ free_set (pmm s) <> ∅.

Lemma allocate_works s e : no_fault -> has_room s -> pmm_core (pmm s) -> (allocate_table s e).1.1 <> 0.
Proof. intros Hnf [H0 Hne] Hc. rewrite (proj1 (allocate_pmm s e)). by apply alloc_block_works. Qed.

(** A page that is no table, and an entry below the first two levels. *)
Lemma keeps_small_page s s' root c : tables_ok s root -> no_table s root c -> page_only c s s' -> keeps_small s root s'.
Proof.
  intros Hok Hno Hpo q u j Hq _ Hu Hj. rewrite (page_tab s s' root c Hok Hno Hpo) in Hu by done. unfold giant.
  by rewrite (page_rd s s' root c Hok Hno Hpo q u j).
Qed.

Lemma keeps_small_below s s2 root p t i v c : tables_ok s root -> path_ok p -> tab s root p = Some t -> (2 <= length p)%nat ->
  page_only c s s2 -> no_table s root c -> is_index i -> keeps_small s root (wr t i v s2).
Proof.
  intros Hok Hp Ht Hl Hpo Hno Hi q u j Hq Hlq Hu Hj. destruct (page_tables s s2 root c Hok Hno Hpo) as (Hok2 & _).
  pose proof (page_tab s s2 root c Hok Hno Hpo) as Htab. rewrite <- Htab in Ht by done.
  rewrite (write_tab s2 root Hok2 p t i v Hp Ht Hi q Hq) in Hu.
  2: { intros [r Hr]. apply (f_equal length) in Hr. rewrite !length_app in Hr. cbn in Hr. lia. }
  unfold giant. rewrite (write_elsewhere s2 root Hok2 p t i v Hp Ht Hi q u j Hq Hu Hj) by (intros [= -> _]; lia).
  rewrite Htab in Hu by done. by rewrite (page_rd s s2 root c Hok Hno Hpo q u j).
Qed.

Section Next.
Context (s : PagingState) (root : Z) (p : list Z) (t i flags : Z) (e : E).
Context (Hok : tables_ok s root) (Hp : path_ok (p ++ [i])) (Ht : tab s root p = Some t).
Let r := get_or_create_next t i flags s e.

Lemma next_took : spends (if has VM_FLAG_PRESENT (rd s t i) then 0 else 1) s root r.1.2.
Proof using All.
  destruct (get_or_create_ok s root p t i flags e Hok Hp Ht) as [Hq Hc]. fold r in Hq, Hc. unfold r, get_or_create_next in *.
  destruct (has VM_FLAG_PRESENT (rd s t i)) eqn:Hpr.
  { destruct (has VM_FLAG_HUGE _); apply spends_like; [done | auto with kernel | apply relax_pmm | by apply (relax_ok s root)]. }
  destruct (allocate_taken s e (to_pmm _ _ Hok)) as [Htk Hm]. destruct (allocate_table_ok s e (to_pmm _ _ Hok)) as [Hpo Hnew].
  destruct (allocate_table s e) as [[c s1] e1]. cbn [fst snd] in *. assert (path_ok p) as Hp' by (by eapply path_app).
  destruct (c =? 0) eqn:E0; [apply Z.eqb_eq in E0 | apply Z.eqb_neq in E0]; cbn [fst snd] in *.
  { subst c. split; [intros k H0 Hk; destruct (Htk k H0 Hk) as [?|?]; [by left | lia]|]. split; [done|].
    apply (keeps_small_page s s1 root 0 Hok); [|done]. intros q u Hq' Hu. by destruct (to_used _ _ Hok q u Hq' Hu). }
  destruct (Hnew E0) as (Ha & Hf & _ & Hz). destruct (child_entry_fields c flags Ha) as (_ & _ & V2).
  assert (is_addr t) as Hta by (by eapply tab_addr; [apply Hok|]). pose proof (free_no_table s root c Hok Hf) as Hno.
  assert (is_index i) as Hi by (by destruct Hp as [_ [_ [Hx _]%Forall_cons]%Forall_app]).
  split; [|split; [done|]].
  - intros k H0 Hk. destruct (Htk k H0 Hk) as [?|?]; [by left|]. right. exists (p ++ [i]). split; [done|]. rewrite Hc by done. congruence.
  - apply (keeps_small_at _ _ _ p t i c Hok Hp' Ht).
    + intros q u Hq' Hu. destruct (decide (u = c)) as [->|Hne]; [by right|]. left.
      destruct (gr_new _ _ _ (proj2 (proj2 (proj2 Hq))) u) as [(q' & Hq1 & Hu')|Hfu]; [by exists q | |].
      * assert (q = q') as -> by (apply (to_inj _ _ (proj1 Hq)) with u; try done; by apply (gr_stay _ _ _ (proj2 (proj2 (proj2 Hq))))). done.
      * exfalso. destruct (to_used _ _ (proj1 Hq) q u Hq' Hu) as [Hu0 Hnu].
        pose proof (tab_addr _ _ _ _ (to_root _ _ (proj1 Hq)) Hu) as [Hur Hum]%addr_range. pose proof (Z.div_mod u 4096 ltac:(lia)).
        destruct (Htk (u / 4096) ltac:(lia) Hfu); [done | lia].
    + intros u j (q & Hq' & Hu) Hj Hne. unfold giant. rewrite rd_wr_addr; [| done | by eapply tab_addr; [apply Hok|] | done | done].
      rewrite decide_False by naive_solver. by rewrite (page_rd s s1 root c Hok Hno Hpo q u j).
    + intros _. unfold giant. by rewrite rd_wr, decide_True, V2, andb_false_r.
    + intros _ _ _ j Hj. unfold giant. rewrite rd_wr_addr, decide_False; [by rewrite Hz | | done..].
      intros [Hx _]. by apply (Hno p t Hp' Ht).
Qed.
Lemma next_took_one : spends 1 s root r.1.2.
Proof using All. eapply spends_more, next_took. by destruct (has _ _); lia. Qed.
Lemma next_works : has VM_FLAG_PRESENT (rd s t i) && has VM_FLAG_HUGE (rd s t i) = false ->
  has VM_FLAG_PRESENT (rd s t i) = true \/ (no_fault /\ has_room s) -> r.1.1 <> 0.
Proof using All.
  intros Hnh Hor. unfold r, get_or_create_next. destruct (has VM_FLAG_PRESENT (rd s t i)) eqn:Hpr.
  - cbn [andb] in Hnh. rewrite Hnh. cbn [fst snd]. destruct (relax_ok s root t i flags Hok) as (_ & Hl).
    destruct (Hl t i) as (A & _). unfold entry_to_table. rewrite A. apply (to_used _ _ Hok (p ++ [i])); [done|].
    rewrite tab_app, Ht. cbn [tab]. by rewrite Hpr, Hnh.
  - destruct Hor as [?|[Hnf Hroom]]; [done|]. pose proof (allocate_works s e Hnf Hroom (to_pmm _ _ Hok)) as Hw.
    destruct (allocate_table s e) as [[c s1] e1]. cbn [fst] in Hw. by rewrite (proj2 (Z.eqb_neq c 0) Hw).
Qed.
(** The entries of the child: as they were, or none. *)
Lemma next_entries j : is_index j -> r.1.1 <> 0 ->
  (tab s root (p ++ [i]) = Some r.1.1 /\ entry_like (rd r.1.2 r.1.1 j) (rd s r.1.1 j)) \/ rd r.1.2 r.1.1 j = 0.
Proof using All.
  intros Hj. assert (path_ok p) as Hp' by (by eapply path_app). unfold r, get_or_create_next.
  destruct (has VM_FLAG_PRESENT (rd s t i)) eqn:Hpr.
  - destruct (has VM_FLAG_HUGE (rd s t i)) eqn:Hh; [done|]. cbn [fst snd]. intros _. left.
    destruct (relax_ok s root t i flags Hok) as (_ & Hl). split; [|apply Hl]. rewrite tab_app, Ht. cbn [tab]. rewrite Hpr, Hh.
    destruct (Hl t i) as (A & _). unfold entry_to_table. by rewrite A.
  - destruct (allocate_table_ok s e (to_pmm _ _ Hok)) as [Hpo Hnew]. destruct (allocate_table s e) as [[c s1] e1].
    destruct (c =? 0); cbn [fst snd] in *; [done|]. intros Hne. right. destruct (Hnew Hne) as (Ha & Hf & _ & Hz).
    rewrite rd_wr_addr, decide_False; [by apply Hz | | by eapply tab_addr; [apply Hok|] | done | | done].
    + intros [-> _]. by apply (free_no_table s root t Hok Hf p t).
    + by destruct Hp as [_ [_ [Hi _]%Forall_cons]%Forall_app].
Qed.
End Next.

Lemma split_took s root p pd i e : tables_ok s root -> path_ok (p ++ [i]) -> length p = 2%nat -> tab s root p = Some pd ->
  has VM_FLAG_PRESENT (rd s pd i) = true -> has VM_FLAG_HUGE (rd s pd i) = true ->
  let r := split_huge_page pd i s e in
  spends 1 s root r.1.2 /\ (r.1.1 <> 0 -> has VM_FLAG_PRESENT (rd r.1.2 pd i) = true) /\ (no_fault -> has_room s -> r.1.1 <> 0).
Proof.
  intros Hok Hp Hlen Ht Hpr Hh. cbv zeta. destruct (split_huge_ok s root p pd i e Hok Hp Hlen Ht Hpr Hh) as (Q & T & _).
  pose proof (fun Hnf Hr => allocate_works s e Hnf Hr (to_pmm _ _ Hok)) as Hw. destruct (allocate_taken s e (to_pmm _ _ Hok)) as [Htk Hm].
  destruct (allocate_table_ok s e (to_pmm _ _ Hok)) as [Hpo Hnew]. assert (path_ok p) as Hp' by (by eapply path_app).
  unfold split_huge_page in *. rewrite Hpr, Hh in *. cbn [negb orb] in *. destruct (allocate_table s e) as [[c s1] e1]. cbn [fst snd] in *.
  destruct (c =? 0) eqn:E0; [apply Z.eqb_eq in E0 | apply Z.eqb_neq in E0]; cbn [fst snd] in *.
  { split; [|split; [done|intros Hnf Hr; by destruct (Hw Hnf Hr)]]. subst c.
    split; [intros k H0 Hk; destruct (Htk k H0 Hk); [by left | lia]|]. split; [done|].
    apply (keeps_small_page s s1 root 0 Hok); [|done]. intros q u Hq Hu. by destruct (to_used _ _ Hok q u Hq Hu). }
  destruct (Hnew E0) as (Ha & Hf & _). destruct (child_entry_fields c (rd s pd i) Ha) as (V3 & V1 & V2).
  split; [|split; [intros _; by rewrite rd_wr, decide_True | done]].
  set (s2 := for_range 0 512 _ s1) in *. assert (page_only c s s2 /\ pmm s2 = pmm s1) as [Hpo2 Hp2].
  { destruct (fill_page_only c s s1 (fun _ => split_pte (rd s pd i)) Hpo Ha) as (? & ? & _); done. }
  assert (pmm (wr pd i (child_entry c (rd s pd i)) s2) = pmm s1) as Hp3 by exact Hp2.
  split; [|split; [intros H0; rewrite Hp3; by apply Hm|]].
  - intros k H0 Hk. rewrite Hp3. destruct (Htk k H0 Hk) as [Hk'|Hkc]; [by left|].
    right. exists (p ++ [i]). split; [done|]. rewrite tab_app, T. cbn [tab]. rewrite rd_wr, decide_True by done. by rewrite V1, V2, V3, Hkc.
  - apply (keeps_small_below s s2 root p pd i _ c Hok Hp' Ht); [lia | done | by apply free_no_table |].
    by destruct Hp as [_ [_ [Hx _]%Forall_cons]%Forall_app].
Qed.

(** [n] blocks to take, none of them block 0. *)
Definition room (n : nat) (s : PagingState) : Prop := (0 ∉ free_set (pmm s)) /\ (n <= size (free_set (pmm s)))%nat.
Lemma room_has n s : room (S n) s -> has_room s.
Proof. intros [H0 Hn]. split; [done|]. intros He. rewrite He, size_empty in Hn. lia. Qed.
Lemma room_step n m s s' root : room (m + n) s -> takes_at_most m s s' -> grows s root s' -> room n s'.
Proof. intros [H0 Hn] Ht G. pose proof (gr_free _ _ _ G). specialize (Ht H0). split; [set_solver | lia]. Qed.

(** No 1 GiB page on the way to [virt]. *)
Definition no_giant (s : PagingState) (root virt : Z) : Prop :=
  forall pdpt, tab s root [pml4_index virt] = Some pdpt -> giant s pdpt (pdpt_index virt) = false.
Lemma no_giant_keeps s s' root virt : keeps_small s root s' -> no_giant s root virt -> no_giant s' root virt.
Proof.
  intros Hk Hn pdpt Ht. destruct (giant s' pdpt (pdpt_index virt)) eqn:Hg; [|done].
  destruct (Hk [pml4_index virt] pdpt (pdpt_index virt) (path_1 virt) eq_refl Ht (index_range _) Hg) as [Ht' Hg'].
  by rewrite Hn in Hg'.
Qed.

Lemma map_last_took s root virt phys flags pd ok e : tables_ok s root -> Z.land flags ENTRY_ADDRESS = 0 ->
  tab s root [pml4_index virt; pdpt_index virt] = Some pd ->
  (ok <> 0 -> has VM_FLAG_PRESENT (rd s pd (pd_index virt)) && has VM_FLAG_HUGE (rd s pd (pd_index virt)) = false) ->
  let r := map_last pd virt phys flags ok s e in
  spends (if (ok =? 0) || has VM_FLAG_PRESENT (rd s pd (pd_index virt)) then 0 else 1) s root r.1.2 /\
  (ok <> 0 -> has VM_FLAG_PRESENT (rd s pd (pd_index virt)) = true \/ (no_fault /\ has_room s) -> r.1.1 = 1).
Proof.
  intros Hok Hfl Ht Hnh. cbv zeta. unfold map_last.
  destruct (ok =? 0) eqn:E3; [apply Z.eqb_eq in E3 | apply Z.eqb_neq in E3]; [split; [apply spends_like; auto with kernel | done]|].
  specialize (Hnh E3). rewrite last_table_eq by done. set (p := [pml4_index virt; pdpt_index virt]) in *. cbn [orb].
  destruct (get_or_create_ok s root p pd (pd_index virt) flags e Hok (path_3 virt) Ht) as [Q T].
  pose proof (next_took s root p pd (pd_index virt) flags e Hok (path_3 virt) Ht) as Hsp.
  pose proof (next_works s root p pd (pd_index virt) flags e Hok (path_3 virt) Ht Hnh) as Hw.
  destruct (get_or_create_next pd (pd_index virt) flags s e) as [[pt s4] e4]. cbn [fst snd] in *. split.
  - destruct (negb _ && _) eqn:E4; [done|]. cbn [fst snd]. assert (pt <> 0) as Hne.
    { destruct (has VM_FLAG_PRESENT (rd s pd (pd_index virt))); [by apply Hw; left|]. cbn [negb andb] in E4. by apply Z.eqb_neq in E4. }
    destruct (outcome_leaf s4 root virt phys flags pt (proj1 Q) Hfl (T Hne)) as [_ G].
    assert (spends 0 s4 root (map_leaf pt virt phys flags s4)) as Hl.
    { split; [by apply accounted_same|]. split; [intros _; cbn; lia|]. unfold map_leaf, arch_vm_flush_page. intros q u j Hq Hlq Hu Hj Hg.
      rewrite (tab_like (wr pt (pt_index virt) (Z.lor (Z.lor (Z.land phys ENTRY_ADDRESS) flags) VM_FLAG_PRESENT) s4)) in Hu by auto with kernel.
      apply (keeps_small_below s4 s4 root (p ++ [pd_index virt]) pt (pt_index virt) _ 0 (proj1 Q) (path_3 virt) (T Hne) ltac:(cbn; lia)
        ltac:(done) ltac:(intros q' u' Hq' Hu'; by destruct (to_used _ _ (proj1 Q) q' u' Hq' Hu')) (index_range _) q u j Hq Hlq Hu Hj Hg). }
    rewrite <- (Nat.add_0_r (if has _ _ then _ else _)). eapply spends_trans; [exact Hsp | exact Hl | apply Q | exact G].
  - intros _ Hor. by rewrite (proj2 (Z.eqb_neq pt 0) (Hw Hor)), andb_false_r.
Qed.

(** Below the page directory: split a 2 MiB page if there is one, then map. *)
Lemma map_pd_took s root virt phys flags pd e : tables_ok s root -> Z.land flags ENTRY_ADDRESS = 0 ->
  tab s root [pml4_index virt; pdpt_index virt] = Some pd ->
  let entry := rd s pd (pd_index virt) in
  let '(ok, s1, e1) := if has VM_FLAG_PRESENT entry && has VM_FLAG_HUGE entry
                       then split_huge_page pd (pd_index virt) s e else (1, s, e) in
  let r := map_last pd virt phys flags ok s1 e1 in
  spends 1 s root r.1.2 /\ grows s root r.1.2 /\ (no_fault -> has_room s -> r.1.1 = 1).
Proof.
  intros Hok Hfl Ht. cbv zeta. set (p := [pml4_index virt; pdpt_index virt]) in *.
  destruct (has VM_FLAG_PRESENT (rd s pd (pd_index virt)) && has VM_FLAG_HUGE (rd s pd (pd_index virt))) eqn:Hh.
  - apply andb_true_iff in Hh as [Hpr Hh].
    destruct (split_huge_ok s root p pd (pd_index virt) e Hok (path_3 virt) eq_refl Ht Hpr Hh) as (Q3 & T3 & Hnh).
    destruct (split_took s root p pd (pd_index virt) e Hok (path_3 virt) eq_refl Ht Hpr Hh) as (A3 & P3 & W3).
    destruct (split_huge_page pd (pd_index virt) s e) as [[ok s3] e3]. cbn [fst snd] in *.
    assert (ok <> 0 -> has VM_FLAG_PRESENT (rd s3 pd (pd_index virt)) && has VM_FLAG_HUGE (rd s3 pd (pd_index virt)) = false) as Hn3
      by (intros Hne; by rewrite (Hnh Hne), andb_false_r).
    destruct (map_last_took s3 root virt phys flags pd ok e3 (proj1 Q3) Hfl T3 Hn3) as [A4 W4].
    destruct (map_last_ok s3 root virt phys flags pd ok e3 (proj1 Q3) Hfl T3 Hn3) as [_ G4]. destruct Q3 as (_ & _ & _ & G3).
    split; [|split; [by eapply grows_trans|]].
    + apply (spends_trans 1 0 s s3 _ root A3); [|done|done]. eapply spends_more; [|exact A4].
      destruct (ok =? 0) eqn:E0; [done|]. apply Z.eqb_neq in E0. by rewrite (P3 E0).
    + intros Hnf Hr. apply W4; [by apply W3 | left; by apply P3, W3].
  - destruct (map_last_took s root virt phys flags pd 1 e Hok Hfl Ht (fun _ => Hh)) as [A4 W4].
    destruct (map_last_ok s root virt phys flags pd 1 e Hok Hfl Ht (fun _ => Hh)) as [_ G4].
    split; [eapply spends_more, A4; by destruct (_ || _); lia|]. split; [done|]. intros Hnf Hr. by apply W4; [|right].
Qed.

Lemma map_page_took s virt phys flags e : tables_ok s (pml4_table s) -> Z.land flags ENTRY_ADDRESS = 0 ->
  let r := arch_vm_map_page virt phys flags s e in
  spends 3 s (pml4_table s) r.1.2 /\
  (no_fault -> room 3 s -> no_giant s (pml4_table s) virt -> r.1.1 = 1).
Proof.
  intros Hok Hfl. cbv zeta. unfold arch_vm_map_page, ensure_init.
  rewrite (proj2 (Z.eqb_neq _ 0)) by apply (to_used _ _ Hok [] (pml4_table s) path_nil eq_refl). cbv zeta.
  set (root := pml4_table s) in *.
  destruct (get_or_create_ok s root [] root (pml4_index virt) flags e Hok (path_1 virt) eq_refl) as [Q1 T1].
  pose proof (next_took_one s root [] root (pml4_index virt) flags e Hok (path_1 virt) eq_refl) as A1.
  pose proof (next_works s root [] root (pml4_index virt) flags e Hok (path_1 virt) eq_refl) as W1.
  destruct (get_or_create_next root (pml4_index virt) flags s e) as [[pdpt s1] e1]. cbn [fst snd app] in *.
  assert (no_fault -> room 3 s -> pdpt <> 0) as G1.
  { intros Hnf Hr. apply W1; [|right; split; [done | by eapply room_has]].
    destruct (has VM_FLAG_PRESENT _) eqn:Hp; [|done]. by apply (to_top _ _ Hok), Hp; apply index_range. }
  destruct (pdpt =? 0) eqn:E1; [apply Z.eqb_eq in E1|].
  { split; [eapply spends_more, A1; lia | intros Hnf Hr; by destruct (G1 Hnf Hr)]. }
  apply Z.eqb_neq in E1. specialize (T1 E1). destruct Q1 as (Hok1 & _ & _ & Gr1).
  destruct (get_or_create_ok s1 root [pml4_index virt] pdpt (pdpt_index virt) flags e1 Hok1 (path_2 virt) T1) as [Q2 T2].
  pose proof (next_took_one s1 root [pml4_index virt] pdpt (pdpt_index virt) flags e1 Hok1 (path_2 virt) T1) as A2.
  pose proof (next_works s1 root [pml4_index virt] pdpt (pdpt_index virt) flags e1 Hok1 (path_2 virt) T1) as W2.
  destruct (get_or_create_next pdpt (pdpt_index virt) flags s1 e1) as [[pd s2] e2]. cbn [fst snd app] in *.
  destruct Q2 as (Hok2 & _ & _ & Gr2). pose proof (spends_trans 1 1 s s1 s2 root A1 A2 Gr1 Gr2) as A12.
  assert (room 3 s -> room 2 s1) as R1 by (intros Hr; by apply (room_step 2 1 s s1 root Hr); [apply A1|]).
  destruct (pd =? 0) eqn:E2; [apply Z.eqb_eq in E2 | apply Z.eqb_neq in E2].
  { split; [eapply spends_more, A12; lia|]. intros Hnf Hr Hng.
    destruct W2; [by apply (no_giant_keeps s s1 root virt (proj2 (proj2 A1)) Hng) | right; split; [done | by eapply room_has, R1] | done]. }
  specialize (T2 E2).
  assert (room 3 s -> has_room s2) as R2 by (intros Hr; by eapply room_has, (room_step 1 1 s1 s2 root (R1 Hr)); [apply A2|]).
  pose proof (map_pd_took s2 root virt phys flags pd e2 Hok2 Hfl T2) as H3. cbv zeta in H3. unfold map_last in H3.
  destruct (if has VM_FLAG_PRESENT (rd s2 pd (pd_index virt)) && _ then _ else _) as [[ok s3] e3]. destruct H3 as (A3 & G3 & W3).
  split; [apply (spends_trans 2 1 s s2 _ root A12 A3); [by eapply grows_trans | done]|]. intros Hnf Hr _. by apply W3; [|apply R2].
Qed.
End Memory.
Arguments no_fault E {_}.

(** ** The contracts *)

Lemma init_done s : tables_ok s (pml4_table s) -> ensure_init s = s.
Proof.
  intros Hok. unfold ensure_init. rewrite (proj2 (Z.eqb_neq _ 0)); [done|].
  apply (to_used _ _ Hok [] (pml4_table s) path_nil eq_refl).
Qed.
Lemma get_phys_walk s w : tables_ok s (pml4_table s) -> arch_vm_get_phys w s = (walk_phys (pml4_table s) w s, s).
Proof. intros Hok. unfold arch_vm_get_phys. by rewrite init_done. Qed.

(** C13: mapping a page of the kernel's address space, in well-formed tables and with flags that have no address bits.  It keeps the tables well
    formed, takes blocks for tables only, and either fails with every
    translation as it was or answers 1 with the page of [virt] translated to
    [phys], every other address translated as before (a 2 MiB page in the way is
    split without moving), the page mapped by a last-level entry and the TLB
    told.  With three free blocks, no injected fault and no 1 GiB page in the
    way it succeeds. *)
Theorem arch_vm_map_page_exact {E : Type} `{KernelEnv E} s (e : E) virt phys flags :
  tables_ok s (pml4_table s) -> Z.land flags ENTRY_ADDRESS = 0 ->
  let r := arch_vm_map_page virt phys flags s e in let ok := r.1.1 in let s' := r.1.2 in
  tables_ok s' (pml4_table s') /\ accounted s (pml4_table s) s' /\
  ((ok = 0 /\ forall w, (arch_vm_get_phys w s').1 = (arch_vm_get_phys w s).1) \/
   (ok = 1 /\ flushed s' = virt :: flushed s /\ leaf_mapped s' (pml4_table s') virt /\
    forall w, (arch_vm_get_phys w s').1 =
      if decide (same_page virt w) then Z.lor (Z.land phys ENTRY_ADDRESS) (Z.land w 0xFFF)
      else (arch_vm_get_phys w s).1)) /\
  (no_fault E -> room 3 s -> no_giant s (pml4_table s) virt -> ok = 1).
Proof.
  intros Hok Hfl. cbv zeta. destruct (map_page_took s virt phys flags e Hok Hfl) as [(Hacc & _) Hworks].
  assert (pml4_table s <> 0) as Hn by apply (to_used _ _ Hok [] (pml4_table s) path_nil eq_refl).
  destruct (map_page_ok s virt phys flags e Hn Hok Hfl) as [(Hok' & Hp & _ & _ & Hc) _].
  set (r := arch_vm_map_page virt phys flags s e) in *. rewrite Hp. split; [done|]. split; [done|]. split; [|done].
  assert (forall w, (arch_vm_get_phys w r.1.2).1 = walk_phys (pml4_table s) w r.1.2) as Hg
    by (intros w; rewrite get_phys_walk; [by rewrite Hp | by rewrite Hp]).
  destruct Hc as [(H0 & Hw & _)|(H1 & Hm & Hfl' & Hlf)]; [left | right].
  - split; [done|]. intros w. by rewrite Hg, get_phys_walk, Hw.
  - do 3 (split; [done|]). intros w. by rewrite Hg, get_phys_walk, Hm.
Qed.

(** Unmapping a page of the kernel's address space.  It answers 1 exactly if
    a last-level entry maps the page; then that translation is gone, every other
    is as before, no block is freed or taken and the TLB is told.  Otherwise (no
    entry, or a 2 MiB or 1 GiB page) it answers 0 and changes nothing. *)
Theorem arch_vm_unmap_page_exact s virt : tables_ok s (pml4_table s) ->
  let r := arch_vm_unmap_page virt s in let ok := r.1 in let s' := r.2 in
  (ok = 0 /\ s' = s /\ ~ leaf_mapped s (pml4_table s) virt) \/
  (ok = 1 /\ leaf_mapped s (pml4_table s) virt /\ tables_ok s' (pml4_table s') /\ pmm s' = pmm s /\
   flushed s' = virt :: flushed s /\
   forall w, (arch_vm_get_phys w s').1 = if decide (same_page virt w) then 0 else (arch_vm_get_phys w s).1).
Proof.
  intros Hok. cbv zeta. unfold arch_vm_unmap_page. rewrite init_done by done.
  destruct (unmap_ok s (pml4_table s) virt Hok) as [H0|(H1 & Hlf & Hok' & _ & Hpm & Hp & _ & _ & Hfl & Hw)]; [by left|].
  right. rewrite Hp. do 5 (split; [done|]). intros w. by rewrite !get_phys_walk, Hp, Hw by (by rewrite ?Hp).
Qed.

(** ** Witnesses: an empty root and the six-page machine *)

Lemma empty_tables s root : is_addr root -> root <> 0 -> root / 4096 ∉ free_set (pmm s) -> pmm_core (pmm s) ->
  (forall i, is_index i -> rd s root i = 0) -> tables_ok s root.
Proof.
  intros Ha H0 Hf Hc Hz.
  assert (forall p t, path_ok p -> tab s root p = Some t -> p = [] /\ t = root) as Ht.
  { intros [|i p] t [_ Hp]; cbn [tab]; [by intros [= <-]|]. apply Forall_cons in Hp as [Hi _]. by rewrite Hz. }
  constructor; [done | | | intros i Hi; by rewrite Hz | done].
  - intros p q t Hp Hq Hpt Hqt. destruct (Ht p t Hp Hpt) as [-> _], (Ht q t Hq Hqt) as [-> _]. done.
  - intros p t Hp Hpt. by destruct (Ht p t Hp Hpt) as [_ ->].
Qed.
Lemma demo_low i : i < 512 -> i ∉ free_set demo_state.
Proof.
  intros Hi Hin. apply (pmm_init_free_set demo_boot pmm_bss demo_boot_ok eq_refl pmm_bss_len) in Hin as (_ & Hlow & _).
  unfold LOW_MEMORY_RESERVE_SIZE, PMM_PAGE_SIZE in Hlow. lia.
Qed.
Lemma demo_room : (4 <= size (free_set demo_state))%nat.
Proof.
  assert (({[512; 513; 515; 516]} : gset Z) ⊆ free_set demo_state) as Hs.
  { intros i Hi. rewrite !elem_of_union, !elem_of_singleton in Hi. apply demo_free; lia. }
  apply subseteq_size in Hs. change (size ({[512; 513; 515; 516]} : gset Z)) with 4%nat in Hs. done.
Qed.

Definition demo_paging : PagingState := {|
  words := ∅; pml4_table := 0x1000; pml4_phys := 0x1000; cr3 := 0x1000; efer := 0; flushed := []; pmm := demo_state |}.
Lemma demo_words root i : rd demo_paging root i = 0.
Proof. unfold rd, demo_paging. cbn [words]. by rewrite lookup_total_empty. Qed.
Lemma demo_tables root : is_addr root -> root <> 0 -> root / 4096 < 512 -> tables_ok demo_paging root.
Proof. intros Ha H0 Hl. apply empty_tables; [done | done | by apply demo_low | apply demo_wf | intros; apply demo_words]. Qed.
#[local] Opaque demo_state.
Lemma demo_ready n virt : (n <= 4)%nat -> room n demo_paging /\ no_giant demo_paging 0x1000 virt.
Proof.
  intros Hn. split; [split; change (pmm demo_paging) with demo_state; [by apply demo_low | pose proof demo_room; lia]|].
  intros pdpt. cbn [tab]. by rewrite demo_words.
Qed.

Lemma arch_vm_map_page_exact_witness :
  let r := arch_vm_map_page 0x400000 0x203000 VM_FLAG_WRITABLE demo_paging tt in
  r.1.1 = 1 /\ (arch_vm_get_phys 0x400123 r.1.2).1 = 0x203123.
Proof.
  pose proof (demo_tables 0x1000 eq_refl ltac:(done) eq_refl) as Hok. destruct (demo_ready 3 0x400000 ltac:(lia)) as [Hr Hg].
  pose proof (arch_vm_map_page_exact demo_paging tt 0x400000 0x203000 VM_FLAG_WRITABLE Hok eq_refl) as Ht. revert Ht.
  generalize (arch_vm_map_page 0x400000 0x203000 VM_FLAG_WRITABLE demo_paging tt). intros r. cbv zeta.
  intros (_ & _ & Hc & Hw). specialize (Hw (fun _ => eq_refl) Hr Hg). split; [done|].
  destruct Hc as [(H0 & _)|(_ & _ & _ & Hm)]; [congruence|]. by rewrite Hm.
Defined.

Lemma arch_vm_unmap_page_exact_witness :
  let s := (arch_vm_map_page 0x400000 0x203000 VM_FLAG_WRITABLE demo_paging tt).1.2 in
  let r := arch_vm_unmap_page 0x400000 s in r.1 = 1 /\ (arch_vm_get_phys 0x400123 r.2).1 = 0.
Proof.
  pose proof (demo_tables 0x1000 eq_refl ltac:(done) eq_refl) as Hok. destruct (demo_ready 3 0x400000 ltac:(lia)) as [Hr Hg].
  pose proof (map_page_ok demo_paging 0x400000 0x203000 VM_FLAG_WRITABLE tt ltac:(done) Hok eq_refl) as Ho.
  pose proof (map_page_took demo_paging 0x400000 0x203000 VM_FLAG_WRITABLE tt Hok eq_refl) as Hw. revert Ho Hw.
  generalize (arch_vm_map_page 0x400000 0x203000 VM_FLAG_WRITABLE demo_paging tt). intros [[ok s] e]. cbv zeta. cbn [fst snd].
  intros [(Hok' & Hp & _ & _ & Hc) _] [_ Hw]. specialize (Hw (fun _ => eq_refl) Hr Hg). subst ok.
  destruct Hc as [(H0 & _)|(_ & _ & _ & Hlf)]; [done|]. rewrite <- Hp in Hok', Hlf.
  destruct (arch_vm_unmap_page_exact s 0x400000 Hok') as [(_ & _ & Hn)|(H1 & _ & _ & _ & _ & Hu)]; [done|].
  split; [done | by rewrite Hu].
Defined.
