(* ===== verification/PagingRoots.v ===== *)
(** * Several roots

    A process has a root of its own, made as a copy of the kernel's: at first it
    shares every lower table with the kernel ([roots_ok]), and mapping into it
    copies the tables on the way before it writes to them
    ([ensure_private_child]).  Shown: the copy translates as the kernel does,
    and mapping into it changes one translation there and none in the kernel. *)

From S2P Require Import Prelude KernelEnv Pmm PmmSpec Paging PagingSpec PagingMemory.

Record roots_ok (s : PagingState) (K R : Z) : Prop := {
  ro_kernel : tables_ok s K;
  ro_root : tables_ok s R;
  ro_ne : R <> K;
  (** a table both use is at the same place in both *)
  ro_share : forall p q u, path_ok p -> path_ok q -> tab s K p = Some u -> tab s R q = Some u -> p = q;
}.

(** ** Walks through different tables *)

(** A walk in one tree that meets, entry by entry, what a walk in another
    meets; where it goes on, the tables may be different ones. *)
Lemma walk_match s s' root root' w :
  (has VM_FLAG_PRESENT (rd s root (pml4_index w)) = true -> has VM_FLAG_HUGE (rd s root (pml4_index w)) = false) ->
  (forall p i q t, wpath w = p ++ i :: q -> tab s root p = Some t -> exists t', tab s' root' p = Some t' /\
     has VM_FLAG_PRESENT (rd s' t' i) = has VM_FLAG_PRESENT (rd s t i) /\
     has VM_FLAG_HUGE (rd s' t' i) = has VM_FLAG_HUGE (rd s t i) /\
     (q = [] \/ has VM_FLAG_HUGE (rd s t i) = true ->
        Z.land (rd s' t' i) ENTRY_ADDRESS = Z.land (rd s t i) ENTRY_ADDRESS)) ->
  walk_phys root' w s' = walk_phys root w s.
Proof.
  intros Htop Hl. unfold walk_phys.
  destruct (Hl [] (pml4_index w) [pdpt_index w; pd_index w; pt_index w] root eq_refl eq_refl) as (t4 & [= <-] & P4 & H4 & _). rewrite P4.
  destruct (has VM_FLAG_PRESENT (rd s root (pml4_index w))) eqn:E4; [|done]. cbn [negb]. rewrite (Htop eq_refl) in H4.
  set (pdpt := entry_to_table (rd s root (pml4_index w))). set (pdpt' := entry_to_table (rd s' root' (pml4_index w))).
  assert (tab s root [pml4_index w] = Some pdpt) as T3 by (cbn [tab]; by rewrite E4, (Htop eq_refl)).
  destruct (Hl [pml4_index w] (pdpt_index w) [pd_index w; pt_index w] pdpt eq_refl T3) as (t3 & T3' & P3 & H3 & A3).
  pose proof T3' as (_ & _ & [= <-])%tab_step. fold pdpt' in T3', P3, H3, A3. rewrite P3, H3.
  destruct (has VM_FLAG_PRESENT (rd s pdpt (pdpt_index w))) eqn:E3; [|done]. cbn [negb].
  destruct (has VM_FLAG_HUGE (rd s pdpt (pdpt_index w))) eqn:F3.
  { f_equal. transitivity (Z.land (Z.land (rd s' pdpt' (pdpt_index w)) ENTRY_ADDRESS) HUGE_1G_ADDRESS);
      [by rewrite <- Z.land_assoc | rewrite A3 by (by right); by rewrite <- Z.land_assoc]. }
  set (pd := entry_to_table (rd s pdpt (pdpt_index w))). set (pd' := entry_to_table (rd s' pdpt' (pdpt_index w))).
  assert (tab s root [pml4_index w; pdpt_index w] = Some pd) as T2.
  { change [pml4_index w; pdpt_index w] with ([pml4_index w] ++ [pdpt_index w]). rewrite tab_app, T3. cbn [tab]. by rewrite E3, F3. }
  destruct (Hl [pml4_index w; pdpt_index w] (pd_index w) [pt_index w] pd eq_refl T2) as (t2 & T2' & P2 & H2 & A2).
  pose proof T2' as (_ & _ & (_ & _ & [= <-])%tab_step)%tab_step. fold pdpt' pd' in T2', P2, H2, A2. rewrite P2, H2.
  destruct (has VM_FLAG_PRESENT (rd s pd (pd_index w))) eqn:E2; [|done]. cbn [negb].
  destruct (has VM_FLAG_HUGE (rd s pd (pd_index w))) eqn:F2.
  { f_equal. transitivity (Z.land (Z.land (rd s' pd' (pd_index w)) ENTRY_ADDRESS) HUGE_2M_ADDRESS);
      [by rewrite <- Z.land_assoc | rewrite A2 by (by right); by rewrite <- Z.land_assoc]. }
  set (pt := entry_to_table (rd s pd (pd_index w))). set (pt' := entry_to_table (rd s' pd' (pd_index w))).
  assert (tab s root [pml4_index w; pdpt_index w; pd_index w] = Some pt) as T1.
  { change [pml4_index w; pdpt_index w; pd_index w] with ([pml4_index w; pdpt_index w] ++ [pd_index w]).
    rewrite tab_app, T2. cbn [tab]. by rewrite E2, F2. }
  destruct (Hl [pml4_index w; pdpt_index w; pd_index w] (pt_index w) [] pt eq_refl T1) as (t1 & T1' & P1 & _ & A1).
  pose proof T1' as (_ & _ & (_ & _ & (_ & _ & [= <-])%tab_step)%tab_step)%tab_step. fold pdpt' pd' pt' in P1, A1.
  rewrite P1, A1 by (by left). done.
Qed.

(** ** Footprints *)

(** Only table [t] and free blocks are written, and blocks are only taken. *)
Record footprint (t : Z) (s s' : PagingState) : Prop := {
  fp_words : forall u j, is_addr u -> is_index j -> u <> 0 -> u <> t -> u / 4096 ∉ free_set (pmm s) -> rd s' u j = rd s u j;
  fp_free : free_set (pmm s') ⊆ free_set (pmm s);
  fp_pmm : pmm_core (pmm s) -> pmm_core (pmm s');
  fp_regs : same_regs s s';
}.
Lemma footprint_refl t s : footprint t s s.
Proof. by constructor. Qed.
#[export] Hint Resolve footprint_refl : kernel.
Lemma footprint_trans t s1 s2 s3 : footprint t s1 s2 -> footprint t s2 s3 -> footprint t s1 s3.
Proof.
  intros [A1 B1 C1 D1] [A2 B2 C2 D2]. constructor; [| set_solver | auto |].
  - intros u j Hu Hj H0 Hne Hf. rewrite A2, A1 by (done || set_solver). done.
  - unfold same_regs in *. intuition congruence.
Qed.
Lemma footprint_wr t i v s : is_addr t -> is_index i -> footprint t s (wr t i v s).
Proof.
  intros Ht Hi. constructor; try done. intros u j Hu Hj _ Hne _. rewrite rd_wr_addr by done. rewrite decide_False; [done|].
  by intros [-> _].
Qed.
Lemma footprint_page t t0 s s' : page_only t0 s s' -> (t0 <> 0 -> t0 / 4096 ∈ free_set (pmm s)) -> footprint t s s'.
Proof.
  intros Hpo Hf. constructor; [| apply Hpo | apply Hpo | apply Hpo]. intros u j Hu Hj H0 _ Hnf.
  apply Hpo; [done | done |]. intros ->. by apply Hnf, Hf.
Qed.

(** The kernel's tables are neither. *)
Lemma footprint_kernel t s s' K : footprint t s s' -> tables_ok s K -> no_table s K t ->
  tables_ok s' K /\ same_walks s s' K /\ forall q, path_ok q -> tab s' K q = tab s K q.
Proof.
  intros Hfp Hok Hno.
  assert (forall p u j, path_ok p -> tab s K p = Some u -> is_index j -> rd s' u j = rd s u j) as Hrd.
  { intros p u j Hp Hu Hj. destruct (to_used _ _ Hok p u Hp Hu).
    apply (fp_words _ _ _ Hfp); [by eapply tab_addr; [apply Hok|] | done | done | by eapply Hno | done]. }
  destruct (outside_tables s s' K Hok Hrd (fp_free _ _ _ Hfp) (fp_pmm _ _ _ Hfp (to_pmm _ _ Hok))) as (T & W & _).
  split; [done|]. split; [done|]. apply (outside_tab s s' K Hok Hrd (fp_free _ _ _ Hfp) (fp_pmm _ _ _ Hfp (to_pmm _ _ Hok))).
Qed.

Lemma relax_fp t i flags s : is_addr t -> is_index i -> footprint t s (relax_table_entry_for_flags t i flags s).
Proof. intros Ht Hi. unfold relax_table_entry_for_flags. destruct (_ || _); [auto with kernel | by apply footprint_wr]. Qed.

Section Operations.
Context {E : Type} `{KernelEnv E}.
Implicit Type e : E.

Lemma allocate_fp t s e : pmm_core (pmm s) -> footprint t s (allocate_table s e).1.2.
Proof.
  intros Hc. destruct (allocate_table_ok s e Hc) as [Hpo Hnew]. eapply footprint_page; [exact Hpo|].
  intros Hne. by destruct (Hnew Hne) as (_ & ? & _).
Qed.
Lemma get_or_create_fp t i flags s e : pmm_core (pmm s) -> is_addr t -> is_index i ->
  footprint t s (get_or_create_next t i flags s e).1.2.
Proof.
  intros Hc Ht Hi. unfold get_or_create_next. destruct (has VM_FLAG_PRESENT _).
  - destruct (has VM_FLAG_HUGE _); cbn [fst snd]; [auto with kernel | by apply relax_fp].
  - pose proof (allocate_fp t s e Hc) as Hal. destruct (allocate_table s e) as [[c s1] e1]. cbn [fst snd] in Hal.
    destruct (c =? 0); cbn [fst snd]; [done|]. eapply footprint_trans; [exact Hal | by apply footprint_wr].
Qed.
Lemma last_table_fp t i flags s e : pmm_core (pmm s) -> is_addr t -> is_index i ->
  footprint t s (last_table t i flags s e).1.2.
Proof.
  intros Hc Ht Hi. unfold last_table. destruct (has VM_FLAG_PRESENT _); cbn [fst snd]; [by apply relax_fp|].
  pose proof (allocate_fp t s e Hc) as Hal. destruct (allocate_table s e) as [[c s1] e1]. cbn [fst snd] in Hal.
  destruct (c =? 0); cbn [fst snd]; [done|]. eapply footprint_trans; [exact Hal | by apply footprint_wr].
Qed.

Lemma split_fp pd i s e : pmm_core (pmm s) -> is_addr pd -> is_index i -> footprint pd s (split_huge_page pd i s e).1.2.
Proof.
  intros Hc Ht Hi. unfold split_huge_page. destruct (_ || _); [auto with kernel|].
  destruct (allocate_table_ok s e Hc) as [Hpo Hnew]. destruct (allocate_table s e) as [[c s1] e1]. cbn [fst snd] in *.
  destruct (c =? 0) eqn:E0; [apply Z.eqb_eq in E0 | apply Z.eqb_neq in E0]; cbn [fst snd]; [by eapply footprint_page|].
  destruct (Hnew E0) as (Ha & Hf & _). eapply footprint_trans; [|by apply footprint_wr].
  eapply footprint_page; [|intros _; exact Hf]. by apply (fill_page_only c s s1 (fun _ => split_pte (rd s pd i))).
Qed.

Lemma clone_table_ok u s e : pmm_core (pmm s) -> is_addr u -> u / 4096 ∉ free_set (pmm s) -> let r := clone_table u s e in
  page_only r.1.1 s r.1.2 /\
  (r.1.1 <> 0 -> is_addr r.1.1 /\ r.1.1 / 4096 ∈ free_set (pmm s) /\ (r.1.1 / 4096 ∉ free_set (pmm r.1.2)) /\
     forall j, is_index j -> rd r.1.2 r.1.1 j = rd s u j).
Proof.
  intros Hc Hu Hnf. cbv zeta. unfold clone_table. destruct (allocate_table_ok s e Hc) as [Hpo Hnew].
  destruct (allocate_table s e) as [[c s1] e1]. cbn [fst snd] in *.
  destruct (c =? 0) eqn:E0; [apply Z.eqb_eq in E0 | apply Z.eqb_neq in E0]; cbn [fst snd]; [by subst c|].
  destruct (Hnew E0) as (Ha & Hf & Hn & _). assert (u <> c) as Huc by (by intros ->).
  destruct (fill_page_only c s s1 (fun s => rd s u) Hpo Ha) as (Hpo2 & Hpm & Hrd).
  { intros i s' Hi Hs. by apply Hs. }
  split; [done|]. intros _. rewrite Hpm. split; [done|]. split; [done|]. split; [done|].
  intros j Hj. rewrite Hrd by done. by apply (po_words _ _ _ Hpo).
Qed.
End Operations.

(** ** Replacing a table by a copy *)

Lemma tab_below s s' root q1 q2 t1 : tab s root q1 = Some t1 -> path_ok (q1 ++ q2) ->
  (forall q u j, path_ok (q1 ++ q) -> tab s root (q1 ++ q) = Some u -> is_index j -> rd s' u j = rd s u j) ->
  tab s' t1 q2 = tab s t1 q2.
Proof.
  revert q1 t1. induction q2 as [|j q2 IH]; intros q1 t1 Ht1 Hq Hrd; [done|]. cbn [tab].
  assert (is_index j) as Hj by (destruct Hq as [_ [_ [H _]%Forall_cons]%Forall_app]; done).
  rewrite (Hrd [] t1 j); [| rewrite app_nil_r; by eapply path_app | by rewrite app_nil_r | done].
  destruct (_ && _) eqn:Hc; [|done]. apply (IH (q1 ++ [j])).
  - rewrite tab_app, Ht1. cbn [tab]. by rewrite Hc.
  - by rewrite <- app_assoc.
  - intros q u k. rewrite <- app_assoc. apply Hrd.
Qed.

Section Replace.
Context (s : PagingState) (R : Z) (Hok : tables_ok s R).
Context (p : list Z) (t i u c v : Z) (Hp : path_ok (p ++ [i])) (Ht : tab s R p = Some t) (Hu : tab s R (p ++ [i]) = Some u).
Context (Ha : is_addr c) (H0 : c <> 0) (Hused : c / 4096 ∉ free_set (pmm s)) (Hno : no_table s R c).
Context (Hcopy : forall j, is_index j -> rd s c j = rd s u j).
Context (Hv1 : has VM_FLAG_PRESENT v = true) (Hv2 : has VM_FLAG_HUGE v = false) (Hv3 : entry_to_table v = c).
Let s' := wr t i v s.

Lemma replace_facts : path_ok p /\ is_index i /\ is_addr t /\ t <> c.
Proof using All.
  assert (path_ok p) as Hp' by (by eapply path_app). split; [done|]. split; [by destruct Hp as [_ [_ [H _]%Forall_cons]%Forall_app]|].
  split; [by eapply tab_addr; [apply Hok|]|]. by eapply Hno.
Qed.
Lemma replace_rd_copy j : is_index j -> rd s' c j = rd s u j.
Proof using All.
  intros Hj. destruct replace_facts as (_ & Hi & Hta & Hne). unfold s'. rewrite rd_wr_addr by done.
  rewrite decide_False by naive_solver. by apply Hcopy.
Qed.
Lemma replace_tab q : path_ok q -> tab s' R q = (if decide (q = p ++ [i]) then Some c else tab s R q).
Proof using All.
  intros Hq. destruct replace_facts as (Hp' & Hi & Hta & Hne). destruct (decide (p ++ [i] `prefix_of` q)) as [[r ->]|Hpre].
  2: { rewrite decide_False by (intros ->; by apply Hpre). by apply (write_tab s R Hok p t i v Hp' Ht Hi). }
  rewrite <- app_assoc in Hq |- *. cbn [app] in *. unfold s'. rewrite (write_tab_through s R Hok p t i v Hp' Ht Hi).
  fold s'. rewrite Hv1, Hv2, Hv3. cbn [andb negb]. destruct r as [|j r]; [by rewrite decide_True|].
  rewrite decide_False by (intros E; apply app_inv_head in E; congruence).
  assert (is_index j) as Hj by (destruct Hq as [_ [_ [_ [H _]%Forall_cons]%Forall_cons]%Forall_app]; done).
  change (p ++ i :: j :: r) with (p ++ [i] ++ (j :: r)). rewrite (app_assoc p), (tab_app s R (p ++ [i])), Hu. cbn [tab].
  rewrite replace_rd_copy by done. destruct (_ && _) eqn:Hc; [|done].
  apply (tab_below s s' R (p ++ [i; j]) r).
  - change [i; j] with ([i] ++ [j]). rewrite app_assoc, tab_app, Hu. cbn [tab]. by rewrite Hc.
  - by rewrite <- app_assoc.
  - intros q w k Hq' Hw Hk. unfold s'. apply (write_elsewhere s R Hok p t i v Hp' Ht Hi _ w k Hq' Hw Hk).
    intros E. injection E as E _. rewrite <- app_assoc in E. apply (f_equal length) in E. rewrite length_app in E. cbn in E. lia.
Qed.
Lemma replace_tables : tables_ok s' R.
Proof using All.
  destruct replace_facts as (Hp' & Hi & Hta & Hne). destruct Hok as [H1 H2 H3 H4 H5]. constructor; try done.
  - intros q1 q2 w Hq1 Hq2. rewrite !replace_tab by done.
    destruct (decide (q1 = p ++ [i])) as [->|], (decide (q2 = p ++ [i])) as [->|]; try done.
    + intros [= <-] Hw. by destruct (Hno q2 c Hq2 Hw).
    + intros Hw [= <-]. by destruct (Hno q1 c Hq1 Hw).
    + by apply H2.
  - intros q w Hq. rewrite replace_tab by done. destruct (decide _); [by intros [= <-] | by apply H3].
  - intros j Hj. unfold s'. rewrite rd_wr. case_decide; [done | by apply H4].
Qed.
Lemma replace_walks : same_walks s s' R.
Proof using All.
  destruct replace_facts as (Hp' & Hi & Hta & Hne). intros w. apply walk_match; [apply (to_top _ _ Hok), index_range|].
  intros pp ii q t1 Hw Ht1. destruct (wpath_prefix w pp ii q Hw) as [Hpp Hii]. destruct (decide (pp = p ++ [i])) as [->|Hd].
  - exists c. rewrite replace_tab, decide_True by done. split; [done|]. rewrite Hu in Ht1. injection Ht1 as <-.
    by rewrite replace_rd_copy.
  - exists t1. rewrite replace_tab, decide_False by done. split; [done|]. destruct (decide ((pp, ii) = (p, i))) as [E|E].
    + injection E as -> ->. rewrite Ht in Ht1. injection Ht1 as <-. unfold s'. rewrite rd_wr, decide_True by done.
      pose proof Hu as Hu'. rewrite tab_app, Ht in Hu'. apply tab_step in Hu' as (A & B & _). rewrite A, B, Hv1, Hv2.
      split; [done|]. split; [done|]. intros [->|[=]]. exfalso. apply (f_equal length) in Hw. rewrite length_app in Hw.
      destruct Hp as [Hl _]. rewrite length_app in Hl. cbn in *. lia.
    + unfold s'. rewrite (write_elsewhere s R Hok p t i v Hp' Ht Hi pp t1 ii) by done. done.
Qed.
End Replace.

(** ** Copy on write *)

(** Words outside a root's own tables and the free blocks are as they were, and
    the root's new tables were free blocks. *)
Record stays_out (s : PagingState) (K R : Z) (s' : PagingState) : Prop := {
  so_words : forall u j, is_addr u -> is_index j -> u <> 0 -> u / 4096 ∉ free_set (pmm s) ->
    (is_table s R u -> is_table s K u) -> rd s' u j = rd s u j;
  so_new : forall u, is_table s' R u -> is_table s R u \/ u / 4096 ∈ free_set (pmm s);
  so_free : free_set (pmm s') ⊆ free_set (pmm s);
}.
Lemma stays_out_refl s K R : stays_out s K R s.
Proof. constructor; [done | by left | done]. Qed.
Lemma stays_out_trans s1 s2 s3 K R : (forall q, path_ok q -> tab s2 K q = tab s1 K q) ->
  stays_out s1 K R s2 -> stays_out s2 K R s3 -> stays_out s1 K R s3.
Proof.
  intros Ht [A1 B1 C1] [A2 B2 C2]. constructor; [| |set_solver].
  - intros u j Hu Hj H0 Hf Hor. rewrite A2; [by apply A1 | done | done | done | set_solver |].
    intros Hu2. destruct (B1 u Hu2) as [Hu1|?]; [|done]. destruct (Hor Hu1) as (q & Hq & Hk). exists q. by rewrite Ht.
  - intros u Hu. destruct (B2 u Hu) as [Hu2|Hf]; [by apply B1 | right; set_solver].
Qed.

(** Both trees after a step that writes only to table [t], which is not the
    kernel's: the kernel's is as it was. *)
Record private_step (s : PagingState) (K R : Z) (s' : PagingState) : Prop := {
  ps_roots : roots_ok s' K R;
  ps_kernel : same_walks s s' K;
  ps_tabs : forall q, path_ok q -> tab s' K q = tab s K q;
  ps_regs : same_regs s s';
  ps_out : stays_out s K R s';
}.
Lemma private_refl s K R : roots_ok s K R -> private_step s K R s.
Proof. constructor; [done | done | done | done | apply stays_out_refl]. Qed.
Lemma private_trans s1 s2 s3 K R : private_step s1 K R s2 -> private_step s2 K R s3 -> private_step s1 K R s3.
Proof.
  intros [A1 B1 C1 D1 E1] [A2 B2 C2 D2 E2]. constructor; [done | by eapply same_walks_trans | | | by eapply stays_out_trans].
  - intros q Hq. by rewrite C2, C1.
  - unfold same_regs in *. intuition congruence.
Qed.
Lemma private_no_table s s' K R t : private_step s K R s' -> no_table s K t -> no_table s' K t.
Proof. intros Hs Hno q u Hq. rewrite (ps_tabs _ _ _ _ Hs) by done. by apply Hno. Qed.

(** From a footprint and the state of the other tree. *)
Lemma footprint_out s s' K R t : footprint t s s' -> is_table s R t -> no_table s K t ->
  (forall q u, path_ok q -> tab s' R q = Some u -> tab s R q = Some u \/ u / 4096 ∈ free_set (pmm s)) -> stays_out s K R s'.
Proof.
  intros Hfp HtR Hno Htab. constructor; [| | apply Hfp].
  - intros u j Hu Hj H0 Hf Hor. apply (fp_words _ _ _ Hfp); try done. intros ->. destruct (Hor HtR) as (q & Hq & Hk). by apply (Hno q t).
  - intros u (q & Hq & Hu). destruct (Htab q u Hq Hu); [left; by exists q | by right].
Qed.
Lemma private_intro s s' K R t : roots_ok s K R -> footprint t s s' -> is_table s R t -> no_table s K t -> tables_ok s' R ->
  (forall q u, path_ok q -> tab s' R q = Some u -> tab s R q = Some u \/ u / 4096 ∈ free_set (pmm s)) ->
  private_step s K R s'.
Proof.
  intros Hr Hfp HtR Hno HokR Htab. destruct (footprint_kernel t s s' K Hfp (ro_kernel _ _ _ Hr) Hno) as (T & W & Ht).
  constructor; [constructor; [done | done | apply Hr |] | done | done | apply Hfp | by eapply footprint_out].
  intros p q u Hp Hq. rewrite Ht by done. intros HK HR. destruct (Htab q u Hq HR) as [HR'|Hf]; [by eapply (ro_share _ _ _ Hr)|].
  by destruct (to_used _ _ (ro_kernel _ _ _ Hr) p u Hp HK).
Qed.
(** A table found after a step was at that place before, or was a free block. *)
Lemma grows_at s R s' q u : grows s R s' -> tables_ok s' R -> path_ok q -> tab s' R q = Some u ->
  tab s R q = Some u \/ u / 4096 ∈ free_set (pmm s).
Proof.
  intros Hg Hok Hq Hu. destruct (gr_new _ _ _ Hg u) as [(q' & Hq' & Hu')|Hf]; [by exists q | | by right]. left.
  assert (q = q') as -> by (apply (to_inj _ _ Hok) with u; [done | done | done | by apply (gr_stay _ _ _ Hg)]). done.
Qed.
Lemma private_quiet s s' K R t : roots_ok s K R -> footprint t s s' -> is_table s R t -> no_table s K t -> quiet s R s' ->
  private_step s K R s'.
Proof. intros Hr Hfp HtR Hno (T & _ & _ & G). apply (private_intro s s' K R t); try done. intros q u. by apply grows_at. Qed.
(** A table stays private, and a new one is private. *)
Lemma private_new s s' K R q c : private_step s K R s' -> quiet s R s' -> roots_ok s K R -> path_ok q -> tab s' R q = Some c ->
  (tab s R q = Some c -> no_table s K c) -> no_table s' K c.
Proof.
  intros Hs (T & _ & _ & G) Hr Hq Hc Hold. apply (private_no_table s s' K R c Hs).
  destruct (grows_at s R s' q c G T Hq Hc) as [Hc'|Hf]; [by apply Hold|]. apply free_no_table; [apply Hr | done].
Qed.

Lemma root_private s K R : roots_ok s K R -> no_table s K R.
Proof.
  intros Hr q u Hq Hu ->. assert (q = []) as -> by (by eapply (ro_share _ _ _ Hr); [| apply path_nil | |]).
  injection Hu as ->. by apply (ro_ne _ _ _ Hr).
Qed.

(** A table that the kernel does not have at that place is not the kernel's. *)
Lemma private_child s K R q c : roots_ok s K R -> path_ok q -> tab s R q = Some c -> tab s K q <> Some c -> no_table s K c.
Proof. intros Hr Hq Hc Hk q' u Hq' Hu ->. assert (q' = q) as -> by (by eapply (ro_share _ _ _ Hr)). done. Qed.

Lemma copied_entry c entry : is_addr c -> has VM_FLAG_PRESENT entry = true -> has VM_FLAG_HUGE entry = false ->
  let v := Z.lor c (Z.land entry ENTRY_FLAGS) in
  has VM_FLAG_PRESENT v = true /\ has VM_FLAG_HUGE v = false /\ entry_to_table v = c.
Proof.
  intros Ha Hp Hh. cbv zeta. unfold has, entry_to_table in *. rewrite !Z.land_lor_distr_l.
  rewrite (addr_land c VM_FLAG_PRESENT Ha), (addr_land c VM_FLAG_HUGE Ha), Ha by done. rewrite <- !Z.land_assoc.
  change (Z.land ENTRY_FLAGS VM_FLAG_PRESENT) with VM_FLAG_PRESENT. change (Z.land ENTRY_FLAGS VM_FLAG_HUGE) with VM_FLAG_HUGE.
  change (Z.land ENTRY_FLAGS ENTRY_ADDRESS) with 0. by rewrite !Z.lor_0_l, Z.land_0_r, Z.lor_0_r.
Qed.

Section Private.
Context {E : Type} `{KernelEnv E}.
Implicit Type e : E.

(** The kernel's table at path [p], or null. *)
Definition kernel_at (s : PagingState) (K : Z) (p : list Z) (kt : Z) : Prop :=
  (kt = 0 /\ tab s K p = None) \/ tab s K p = Some kt.

(** What [ensure_private_child] leaves at path [p ++ [i]]. *)
Definition made_private (s : PagingState) (K R : Z) (p : list Z) (t i ok : Z) (s' : PagingState) : Prop :=
  private_step s K R s' /\ same_walks s s' R /\ tab s' R p = Some t /\
  (ok <> 0 -> (forall c, tab s' R (p ++ [i]) = Some c -> no_table s' K c) /\
     (has VM_FLAG_HUGE (rd s t i) = false -> has VM_FLAG_HUGE (rd s' t i) = false)).

Lemma ensure_private_clone s K R p t i e : roots_ok s K R -> path_ok (p ++ [i]) -> tab s R p = Some t -> no_table s K t ->
  let entry := rd s t i in has VM_FLAG_PRESENT entry = true -> has VM_FLAG_HUGE entry = false ->
  let r := (let '(clone_phys, s, e) := clone_table (entry_to_phys entry) s e in
    if clone_phys =? 0 then (0, s, e) else (1, wr t i (Z.lor clone_phys (Z.land entry ENTRY_FLAGS)) s, e)) in
  made_private s K R p t i r.1.1 r.1.2.
Proof.
  intros Hr Hp Ht Hno entry Hpr Hh. cbv zeta. pose proof (ro_root _ _ _ Hr) as HokR. set (u := entry_to_phys entry).
  assert (tab s R (p ++ [i]) = Some u) as Hu by (rewrite tab_app, Ht; cbn [tab]; fold entry; by rewrite Hpr, Hh).
  destruct (to_used _ _ HokR _ _ Hp Hu) as [_ Hunf].
  pose proof (clone_table_ok u s e (to_pmm _ _ HokR) (entry_is_addr _) Hunf) as Hcl. cbv zeta in Hcl.
  destruct (clone_table u s e) as [[c s1] e1]. cbn [fst snd] in Hcl. destruct Hcl as [Hpo Hnew].
  assert (path_ok p) as Hp' by (by eapply path_app). assert (is_addr t) as Hta by (by eapply tab_addr; [apply HokR|]).
  assert (is_index i) as Hi by (destruct Hp as [_ [_ [Hx _]%Forall_cons]%Forall_app]; done).
  assert (footprint t s s1) as Hfp1 by (eapply footprint_page; [exact Hpo|]; intros Hne; by destruct (Hnew Hne) as (_ & ? & _)).
  assert (no_table s R c) as HnoR.
  { destruct (decide (c = 0)) as [->|Hne]; [intros q w Hq Hw; by destruct (to_used _ _ HokR q w Hq Hw)|].
    apply free_no_table; [done|]. by destruct (Hnew Hne) as (_ & ? & _). }
  destruct (page_tables s s1 R c HokR HnoR Hpo) as (HokR1 & HwR1 & _ & _). pose proof (page_tab s s1 R c HokR HnoR Hpo) as Htab1.
  destruct (c =? 0) eqn:E0; [apply Z.eqb_eq in E0 | apply Z.eqb_neq in E0]; cbn [fst snd].
  - split; [|split; [done|]; split; [by rewrite Htab1 | done]].
    apply (private_intro s s1 K R t); try done; [by exists p|]. intros q w Hq. rewrite Htab1 by done. by left.
  - destruct (Hnew E0) as (Ha & Hf & Hnf & Hcopy). destruct (copied_entry c entry Ha Hpr Hh) as (V1 & V2 & V3).
    set (v := Z.lor c (Z.land entry ENTRY_FLAGS)) in *.
    assert (no_table s1 R c) as HnoR1 by (intros q w Hq; rewrite Htab1 by done; by apply HnoR).
    rewrite <- Htab1 in Ht, Hu by done.
    assert (forall j, is_index j -> rd s1 c j = rd s1 u j) as Hcopy1.
    { intros j Hj. rewrite Hcopy by done. symmetry. apply (page_rd s s1 R c HokR HnoR Hpo (p ++ [i])); [done | by rewrite <- Htab1 | done]. }
    pose proof (replace_tab s1 R HokR1 p t i u c v Hp Ht Hu Ha E0 Hnf HnoR1 Hcopy1 V1 V2 V3) as Htab2.
    pose proof (replace_tables s1 R HokR1 p t i u c v Hp Ht Hu Ha E0 Hnf HnoR1 Hcopy1 V1 V2 V3) as HokR2.
    pose proof (replace_walks s1 R HokR1 p t i u c v Hp Ht Hu Ha E0 Hnf HnoR1 Hcopy1 V1 V2 V3) as HwR2.
    set (s2 := wr t i v s1) in *.
    assert (private_step s K R s2) as Hps.
    { apply (private_intro s s2 K R t); try done.
      - eapply footprint_trans; [exact Hfp1 | by apply footprint_wr].
      - exists p. by rewrite <- Htab1.
      - intros q w Hq. rewrite Htab2 by done. destruct (decide _); [intros [= <-]; by right|]. rewrite Htab1 by done. by left. }
    split; [done|]. split; [by eapply same_walks_trans|]. split.
    + rewrite Htab2 by done. rewrite decide_False; [done|]. intros Ex. apply (f_equal length) in Ex.
      rewrite length_app in Ex. cbn in Ex. lia.
    + intros _. split; [|intros _; unfold s2; by rewrite rd_wr, decide_True].
      intros c'. rewrite Htab2, decide_True by done. intros [= <-]. apply (private_no_table s s2 K R c Hps).
      by apply free_no_table; [apply Hr|].
Qed.

Lemma ensure_private_ok s K R p t kt i e : roots_ok s K R -> path_ok (p ++ [i]) -> tab s R p = Some t -> no_table s K t ->
  kernel_at s K p kt ->
  let r := ensure_private_child t kt i s e in made_private s K R p t i r.1.1 r.1.2.
Proof.
  intros Hr Hp Ht Hno Hkt. cbv zeta. unfold ensure_private_child.
  assert ((forall c, tab s R (p ++ [i]) = Some c -> tab s K (p ++ [i]) <> Some c) -> made_private s K R p t i 1 s) as Hkeep.
  { intros Hc. split; [by apply private_refl|]. split; [done|]. split; [done|]. intros _. split; [|done].
    intros c Hc'. apply (private_child s K R (p ++ [i])); auto. }
  destruct (kt =? 0) eqn:E0; [apply Z.eqb_eq in E0 | apply Z.eqb_neq in E0].
  { apply Hkeep. intros c _ HK. destruct Hkt as [[_ HN]|HS].
    - by rewrite tab_app, HN in HK.
    - subst kt. destruct (to_used _ _ (ro_kernel _ _ _ Hr) p 0 ltac:(by eapply path_app) HS). done. }
  destruct Hkt as [[? _]|Hkt]; [done|].
  destruct (has VM_FLAG_PRESENT (rd s t i)) eqn:P1; cbn [negb orb].
  2: { apply Hkeep. intros c Hc. rewrite tab_app, Ht in Hc. apply tab_step in Hc as (Hx & _). congruence. }
  destruct (has VM_FLAG_PRESENT (rd s kt i)) eqn:P2; cbn [negb orb].
  2: { apply Hkeep. intros c _ HK. rewrite tab_app, Hkt in HK. apply tab_step in HK as (Hx & _). congruence. }
  destruct (has VM_FLAG_HUGE (rd s t i)) eqn:F1; cbn [orb].
  { apply Hkeep. intros c Hc. rewrite tab_app, Ht in Hc. apply tab_step in Hc as (_ & Hx & _). congruence. }
  destruct (has VM_FLAG_HUGE (rd s kt i)) eqn:F2.
  { apply Hkeep. intros c _ HK. rewrite tab_app, Hkt in HK. apply tab_step in HK as (_ & Hx & _). congruence. }
  destruct (entry_to_phys (rd s t i) =? entry_to_phys (rd s kt i)) eqn:Eq; cbn [negb].
  - by apply (ensure_private_clone s K R p t i e Hr Hp Ht Hno).
  - apply Z.eqb_neq in Eq. apply Hkeep. intros c Hc HK. rewrite tab_app, Ht in Hc. rewrite tab_app, Hkt in HK.
    apply tab_step in Hc as (_ & _ & [= <-]). apply tab_step in HK as (_ & _ & [= HK]). by apply Eq.
Qed.

(** ** Mapping into a root *)

(** One step down: make the child private, then find or create it. *)
Lemma private_next s K R p t i flags e : roots_ok s K R -> path_ok (p ++ [i]) -> tab s R p = Some t -> no_table s K t ->
  (forall c, tab s R (p ++ [i]) = Some c -> no_table s K c) ->
  let r := get_or_create_next t i flags s e in
  private_step s K R r.1.2 /\ same_walks s r.1.2 R /\
  (r.1.1 <> 0 -> tab r.1.2 R (p ++ [i]) = Some r.1.1 /\ no_table r.1.2 K r.1.1).
Proof.
  intros Hr Hp Ht Hno Hch. cbv zeta. pose proof (ro_root _ _ _ Hr) as HokR.
  destruct (get_or_create_ok s R p t i flags e HokR Hp Ht) as [Hq Hc].
  pose proof (get_or_create_fp t i flags s e (to_pmm _ _ HokR) ltac:(by eapply tab_addr; [apply HokR|])
    ltac:(by destruct Hp as [_ [_ [H' _]%Forall_cons]%Forall_app])) as Hfp.
  destruct (get_or_create_next t i flags s e) as [[c s1] e1]. cbn [fst snd] in *.
  assert (private_step s K R s1) as Hps by (apply (private_quiet s s1 K R t); try done; exists p; split; [by eapply path_app | done]).
  split; [done|]. split; [apply Hq|]. intros Hne. split; [by apply Hc|].
  apply (private_new s s1 K R (p ++ [i])); try done; [by apply Hc | apply Hch].
Qed.

(** The kernel's child at the next level. *)
Lemma kernel_child_at s K p kt i : tables_ok s K -> path_ok p -> kernel_at s K p kt -> kernel_at s K (p ++ [i]) (kernel_child kt i s).
Proof.
  intros Hok Hp Hkt. unfold kernel_at, kernel_child. rewrite tab_app. destruct Hkt as [[-> ->]|Hkt]; [by left|].
  rewrite Hkt. destruct (to_used _ _ Hok p kt Hp Hkt) as [H0 _]. rewrite (proj2 (Z.eqb_neq kt 0) H0). cbn [tab].
  destruct (has VM_FLAG_PRESENT (rd s kt i)), (has VM_FLAG_HUGE (rd s kt i)); cbn [negb andb orb]; auto.
Qed.
Lemma private_kernel_at s s' K R p kt : private_step s K R s' -> path_ok p -> kernel_at s K p kt -> kernel_at s' K p kt.
Proof. intros Hs Hp. unfold kernel_at. by rewrite (ps_tabs _ _ _ _ Hs). Qed.

(** What mapping into [R] leaves: both trees are well formed, the kernel's
    translations are as they were, and [R]'s have changed by one page. *)
Definition private_leaf (s : PagingState) (K R virt : Z) : Prop :=
  forall pt, tab s R [pml4_index virt; pdpt_index virt; pd_index virt] = Some pt -> no_table s K pt.
Definition isolated (s : PagingState) (K R virt phys ok : Z) (s' : PagingState) : Prop :=
  roots_ok s' K R /\ same_walks s s' K /\ map_effect s R virt phys ok s' /\
  (ok <> 0 -> private_leaf s' K R virt) /\ stays_out s K R s'.
Lemma isolated_refused s s' K R virt phys : private_step s K R s' -> same_walks s s' R -> isolated s K R virt phys 0 s'.
Proof.
  intros [A B C D F] Hw. split; [done|]. split; [done|]. split; [|done]. apply effect_refused; [apply A | done | done].
Qed.
Lemma isolated_trans s1 s2 s3 K R virt phys ok : private_step s1 K R s2 -> same_walks s1 s2 R ->
  isolated s2 K R virt phys ok s3 -> isolated s1 K R virt phys ok s3.
Proof.
  intros [A B C D F] Hw (Hr & Hk & He & Hp & Ho). split; [done|]. split; [by eapply same_walks_trans|]. split; [by eapply effect_trans|].
  split; [done | by eapply stays_out_trans].
Qed.

Lemma isolated_leaf s K R virt phys flags pt : roots_ok s K R -> Z.land flags ENTRY_ADDRESS = 0 ->
  tab s R [pml4_index virt; pdpt_index virt; pd_index virt] = Some pt -> no_table s K pt ->
  isolated s K R virt phys 1 (map_leaf pt virt phys flags s).
Proof.
  intros Hr Hfl Ht Hno. pose proof (ro_root _ _ _ Hr) as HokR.
  destruct (outcome_leaf s R virt phys flags pt HokR Hfl Ht) as [He HgR].
  unfold map_leaf, arch_vm_flush_page in *. set (x := Z.lor _ VM_FLAG_PRESENT) in *. set (s1 := wr pt (pt_index virt) x s) in *.
  assert (footprint pt s s1) as Hfp by (apply footprint_wr; [by eapply tab_addr; [apply HokR|] | apply index_range]).
  destruct (footprint_kernel pt s s1 K Hfp (ro_kernel _ _ _ Hr) Hno) as (T & W & Htab). set (s2 := s1 <| flushed := _ |>) in *.
  destruct (tables_like s1 s2 K T) as [T2 W2]; [auto with kernel | done |].
  split; [|split; [by eapply same_walks_trans|]; split; [done|]].
  2: { split.
    - intros _ c Hc q u Hq. rewrite (tab_like s1 s2), Htab by auto with kernel. rewrite (gr_stay _ _ _ HgR _ _ (path_3 virt) Ht) in Hc.
      injection Hc as <-. by apply Hno.
    - constructor; [|apply HgR | apply HgR]. intros u j Hu Hj H0 Hf Hor. change (rd s2 u j) with (rd s1 u j).
      apply (fp_words _ _ _ Hfp); try done. intros ->. destruct Hor as (q & Hq & Hk); [|by apply (Hno q pt)].
      exists [pml4_index virt; pdpt_index virt; pd_index virt]. split; [apply path_3 | done]. }
  constructor; [done | apply He | apply Hr |].
  intros p q u Hp Hq. rewrite (tab_like s1 s2), Htab by auto with kernel. intros HK HR.
  destruct (grows_at s R s2 q u HgR (proj1 He) Hq HR) as [HR'|Hf]; [by apply (ro_share _ _ _ Hr p q u)|].
  by destruct (to_used _ _ (ro_kernel _ _ _ Hr) p u Hp HK).
Qed.

Lemma map_last_isolated s K R virt phys flags pd ok e : roots_ok s K R -> Z.land flags ENTRY_ADDRESS = 0 ->
  tab s R [pml4_index virt; pdpt_index virt] = Some pd -> no_table s K pd ->
  (ok <> 0 -> has VM_FLAG_PRESENT (rd s pd (pd_index virt)) && has VM_FLAG_HUGE (rd s pd (pd_index virt)) = false /\
     forall c, tab s R [pml4_index virt; pdpt_index virt; pd_index virt] = Some c -> no_table s K c) ->
  let r := map_last pd virt phys flags ok s e in isolated s K R virt phys r.1.1 r.1.2.
Proof.
  intros Hr Hfl Ht Hno Hok. cbv zeta. unfold map_last. pose proof (ro_root _ _ _ Hr) as HokR.
  destruct (ok =? 0) eqn:E3; [by apply isolated_refused; [apply private_refl|]|]. apply Z.eqb_neq in E3.
  destruct (Hok E3) as [Hnh Hch].
  pose proof (last_table_ok s R [pml4_index virt; pdpt_index virt] pd (pd_index virt) flags e HokR (path_3 virt) Ht Hnh) as H4.
  pose proof (last_table_fp pd (pd_index virt) flags s e (to_pmm _ _ HokR) ltac:(by eapply tab_addr; [apply HokR|]) (index_range _)) as Hfp.
  cbv zeta in H4. destruct (last_table pd (pd_index virt) flags s e) as [[pt s4] e4]. cbn [fst snd app] in H4, Hfp.
  destruct H4 as [[Q4 T4] Hpt]. pose proof (private_quiet s s4 K R pd Hr Hfp (ex_intro _ _ (conj (path_2 virt) Ht)) Hno Q4) as Hps.
  destruct (negb _ && _) eqn:E4; [by apply isolated_refused; [|apply Q4]|]. cbn [fst snd].
  assert (pt <> 0) as Hpt0.
  { destruct (has VM_FLAG_PRESENT (rd s pd (pd_index virt))); [by apply Hpt|]. cbn [negb andb] in E4. by apply Z.eqb_neq in E4. }
  eapply isolated_trans; [exact Hps | apply Q4 |]. apply isolated_leaf; [apply Hps | done | by apply T4 |].
  eapply (private_new s s4 K R); [done | done | done | apply path_3 | by apply T4 | apply Hch].
Qed.

(** One level of [arch_vm_map_page_in_root]: make the child private, then find
    or create it. *)
Definition private_level (table kernel_table index flags : Z) (s : PagingState) (e : E) : Z * PagingState * E :=
  let '(ok, s, e) := ensure_private_child table kernel_table index s e in
  if ok =? 0 then (0, s, e) else get_or_create_next table index flags s e.
Lemma private_level_ok s K R p t kt i flags e : roots_ok s K R -> path_ok (p ++ [i]) -> tab s R p = Some t -> no_table s K t ->
  kernel_at s K p kt ->
  let r := private_level t kt i flags s e in
  private_step s K R r.1.2 /\ same_walks s r.1.2 R /\
  (r.1.1 <> 0 -> tab r.1.2 R (p ++ [i]) = Some r.1.1 /\ no_table r.1.2 K r.1.1).
Proof.
  intros Hr Hp Ht Hno Hkt. cbv zeta. unfold private_level.
  pose proof (ensure_private_ok s K R p t kt i e Hr Hp Ht Hno Hkt) as H1. cbv zeta in H1.
  destruct (ensure_private_child t kt i s e) as [[ok s1] e1]. cbn [fst snd] in H1. destruct H1 as (S1 & W1 & T1 & C1).
  destruct (ok =? 0) eqn:E1; [done|]. apply Z.eqb_neq in E1. destruct (C1 E1) as [Hch _].
  destruct (private_next s1 K R p t i flags e1 (ps_roots _ _ _ _ S1) Hp T1 (private_no_table _ _ _ _ _ S1 Hno) Hch) as (S2 & W2 & C2).
  split; [by eapply private_trans|]. split; [by eapply same_walks_trans | done].
Qed.

(** The entry for the last table, made ready to be written through. *)
Lemma private_last s K R virt phys flags pd kpd e : roots_ok s K R -> Z.land flags ENTRY_ADDRESS = 0 ->
  tab s R [pml4_index virt; pdpt_index virt] = Some pd -> no_table s K pd ->
  kernel_at s K [pml4_index virt; pdpt_index virt] kpd ->
  let entry := rd s pd (pd_index virt) in
  let '(ok, s1, e1) := if has VM_FLAG_PRESENT entry then
      if has VM_FLAG_HUGE entry then split_huge_page pd (pd_index virt) s e
      else ensure_private_child pd kpd (pd_index virt) s e
    else (1, s, e) in
  let r := map_last pd virt phys flags ok s1 e1 in isolated s K R virt phys r.1.1 r.1.2.
Proof.
  intros Hr Hfl Ht Hno Hkt. cbv zeta. pose proof (ro_root _ _ _ Hr) as HokR. set (p := [pml4_index virt; pdpt_index virt]) in *.
  destruct (has VM_FLAG_PRESENT (rd s pd (pd_index virt))) eqn:Hpr.
  2: { apply (map_last_isolated s K R virt phys flags pd 1 e Hr Hfl Ht Hno). intros _. rewrite Hpr. split; [done|]. intros c Hc.
    change (tab s R (p ++ [pd_index virt]) = Some c) in Hc. rewrite tab_app, Ht in Hc. apply tab_step in Hc as (Hx & _). congruence. }
  destruct (has VM_FLAG_HUGE (rd s pd (pd_index virt))) eqn:Hh.
  - destruct (split_huge_ok s R p pd (pd_index virt) e HokR (path_3 virt) eq_refl Ht Hpr Hh) as (Q3 & T3 & Hnh).
    pose proof (split_fp pd (pd_index virt) s e (to_pmm _ _ HokR) ltac:(by eapply tab_addr; [apply HokR|]) (index_range _)) as Hfp.
    destruct (split_huge_page pd (pd_index virt) s e) as [[ok s3] e3]. cbn [fst snd] in *.
    pose proof (private_quiet s s3 K R pd Hr Hfp (ex_intro _ _ (conj (path_2 virt) Ht)) Hno Q3) as Hps. eapply isolated_trans; [exact Hps | apply Q3 |].
    apply (map_last_isolated s3 K R virt phys flags pd ok e3 (ps_roots _ _ _ _ Hps) Hfl T3 (private_no_table _ _ _ _ _ Hps Hno)).
    intros Hne. rewrite (Hnh Hne), andb_false_r. split; [done|]. intros c Hc.
    apply (private_new s s3 K R (p ++ [pd_index virt]) c Hps Q3 Hr (path_3 virt) Hc). intros Hc'. exfalso.
    rewrite tab_app, Ht in Hc'. apply tab_step in Hc' as (_ & Hx & _). congruence.
  - pose proof (ensure_private_ok s K R p pd kpd (pd_index virt) e Hr (path_3 virt) Ht Hno Hkt) as H3. cbv zeta in H3.
    destruct (ensure_private_child pd kpd (pd_index virt) s e) as [[ok s3] e3]. cbn [fst snd] in H3. destruct H3 as (S3 & W3 & T3 & C3).
    eapply isolated_trans; [exact S3 | exact W3 |].
    apply (map_last_isolated s3 K R virt phys flags pd ok e3 (ps_roots _ _ _ _ S3) Hfl T3 (private_no_table _ _ _ _ _ S3 Hno)).
    intros Hne. destruct (C3 Hne) as [Hch Hhu]. rewrite (Hhu Hh), andb_false_r. done.
Qed.

Lemma map_in_root_ok s K R root_phys virt phys flags e : roots_ok s K R -> pml4_table s = K -> (root_table root_phys s).1 = R ->
  Z.land flags ENTRY_ADDRESS = 0 ->
  let r := arch_vm_map_page_in_root root_phys virt phys flags s e in isolated s K R virt phys r.1.1 r.1.2.
Proof.
  intros Hr HK HR Hfl. cbv zeta. unfold arch_vm_map_page_in_root. pose proof (ro_kernel _ _ _ Hr) as HokK.
  assert (ensure_init s = s) as Hi.
  { unfold ensure_init. rewrite (proj2 (Z.eqb_neq _ 0)); [done|]. rewrite HK. apply (to_used _ _ HokK [] K path_nil eq_refl). }
  assert (root_table root_phys s = (R, s)) as -> by (rewrite <- HR; unfold root_table; by rewrite Hi).
  rewrite HK, (proj2 (Z.eqb_neq R K)) by apply Hr. cbv zeta.
  pose proof (private_level_ok s K R [] R K (pml4_index virt) flags e Hr (path_1 virt) eq_refl (root_private _ _ _ Hr) (or_intror eq_refl)) as H1.
  cbv zeta in H1. unfold private_level in H1.
  destruct (ensure_private_child R K (pml4_index virt) s e) as [[ok s0] e0].
  destruct (ok =? 0); [by apply isolated_refused; apply H1|].
  destruct (get_or_create_next R (pml4_index virt) flags s0 e0) as [[pdpt s1] e1]. cbn [fst snd app] in H1. destruct H1 as (S1 & W1 & C1).
  destruct (pdpt =? 0) eqn:E1; [by apply isolated_refused|]. apply Z.eqb_neq in E1. destruct (C1 E1) as [T1 N1].
  eapply isolated_trans; [exact S1 | exact W1|]. assert (pml4_table s1 = K) as -> by (by rewrite (proj1 (ps_regs _ _ _ _ S1))).
  pose proof (ps_roots _ _ _ _ S1) as Hr1. clear Hr HokK Hi HR HK W1 C1.
  pose proof (kernel_child_at s1 K [] K (pml4_index virt) (ro_kernel _ _ _ Hr1) path_nil (or_intror eq_refl)) as K1.
  set (kpdpt := kernel_child K (pml4_index virt) s1) in *. clear S1.
  pose proof (private_level_ok s1 K R [pml4_index virt] pdpt kpdpt (pdpt_index virt) flags e1 Hr1 (path_2 virt) T1 N1 K1) as H2.
  cbv zeta in H2. unfold private_level in H2.
  destruct (ensure_private_child pdpt kpdpt (pdpt_index virt) s1 e1) as [[ok2 s2] e2].
  destruct (ok2 =? 0); [by apply isolated_refused; apply H2|].
  destruct (get_or_create_next pdpt (pdpt_index virt) flags s2 e2) as [[pd s3] e3]. cbn [fst snd app] in H2. destruct H2 as (S3 & W3 & C3).
  destruct (pd =? 0) eqn:E3; [by apply isolated_refused|]. apply Z.eqb_neq in E3. destruct (C3 E3) as [T3 N3].
  eapply isolated_trans; [exact S3 | exact W3|]. pose proof (ps_roots _ _ _ _ S3) as Hr3.
  apply (private_kernel_at _ _ _ _ _ _ S3 (path_1 virt)) in K1.
  pose proof (kernel_child_at s3 K _ kpdpt (pdpt_index virt) (ro_kernel _ _ _ Hr3) (path_1 virt) K1) as K3.
  pose proof (private_last s3 K R virt phys flags pd _ e3 Hr3 Hfl T3 N3 K3) as H4. cbv zeta in H4. unfold map_last in H4.
  destruct (if has VM_FLAG_PRESENT (rd s3 pd (pd_index virt)) then _ else _) as [[ok4 s4] e4]. exact H4.
Qed.
End Private.

(** ** Enough memory *)

Section Works.
Context {E : Type} `{KernelEnv E}.
Implicit Type e : E.

Lemma clone_taken u s e : pmm_core (pmm s) -> let r := clone_table u s e in
  takes_at_most 1 s r.1.2 /\ (no_fault E -> has_room s -> r.1.1 <> 0).
Proof.
  intros Hc. cbv zeta. unfold clone_table. destruct (allocate_taken s e Hc) as [_ Hm].
  pose proof (fun Hnf Hr => allocate_works s e Hnf Hr Hc) as Hw. destruct (allocate_table s e) as [[c s1] e1]. cbn [fst snd] in *.
  destruct (c =? 0) eqn:E0; [apply Z.eqb_eq in E0; subst c; done | apply Z.eqb_neq in E0]. cbn [fst snd]. split; [|done].
  set (s2 := for_range 0 512 _ s1). assert (pmm s2 = pmm s1) as Hs2; [|unfold takes_at_most; by rewrite Hs2].
  by apply (for_range_inv (fun _ s' => pmm s' = pmm s1)); [lia | done | intros j s' _ <-].
Qed.

(** The entries of a child that was made private, through its old table. *)
Definition entries_from (s : PagingState) (R : Z) (q : list Z) (c : Z) (s' : PagingState) : Prop :=
  forall j, is_index j -> (exists u, tab s R q = Some u /\ entry_like (rd s' c j) (rd s u j)) \/ entry_like (rd s' c j) 0.

Lemma ensure_private_took s K R p t kt i e : roots_ok s K R -> path_ok (p ++ [i]) -> tab s R p = Some t ->
  let r := ensure_private_child t kt i s e in
  r = (1, s, e) \/
  (takes_at_most 1 s r.1.2 /\ free_set (pmm r.1.2) ⊆ free_set (pmm s) /\ (no_fault E -> has_room s -> r.1.1 <> 0) /\
   (r.1.1 <> 0 -> has VM_FLAG_PRESENT (rd r.1.2 t i) = true /\ has VM_FLAG_HUGE (rd r.1.2 t i) = false /\
      entries_from s R (p ++ [i]) (entry_to_table (rd r.1.2 t i)) r.1.2)).
Proof.
  intros Hr Hp Ht. cbv zeta. unfold ensure_private_child. destruct (kt =? 0); [by left|]. pose proof (ro_root _ _ _ Hr) as HokR.
  destruct (has VM_FLAG_PRESENT (rd s t i)) eqn:P1; cbn [negb orb]; [|by left].
  destruct (has VM_FLAG_PRESENT (rd s kt i)); cbn [negb orb]; [|by left].
  destruct (has VM_FLAG_HUGE (rd s t i)) eqn:F1; cbn [orb]; [by left|]. destruct (has VM_FLAG_HUGE (rd s kt i)); [by left|].
  destruct (_ =? _); cbn [negb]; [right | by left]. set (u := entry_to_phys (rd s t i)).
  assert (tab s R (p ++ [i]) = Some u) as Hu by (rewrite tab_app, Ht; cbn [tab]; by rewrite P1, F1).
  destruct (to_used _ _ HokR _ _ Hp Hu) as [_ Hunf].
  destruct (clone_taken u s e (to_pmm _ _ HokR)) as [Hm Hw].
  pose proof (clone_table_ok u s e (to_pmm _ _ HokR) (entry_is_addr _) Hunf) as Hcl. cbv zeta in Hcl.
  destruct (clone_table u s e) as [[c s1] e1]. cbn [fst snd] in *. destruct Hcl as [Hpo Hnew].
  destruct (c =? 0) eqn:E0; [apply Z.eqb_eq in E0 | apply Z.eqb_neq in E0]; cbn [fst snd].
  - subst c. split; [done|]. split; [apply Hpo|]. split; [|done]. intros Hnf Hrm. by apply Hw.
  - split; [done|]. split; [apply Hpo|]. split; [done|]. intros _. destruct (Hnew E0) as (Ha & Hf & _ & Hcopy).
    destruct (copied_entry c (rd s t i) Ha P1 F1) as (V1 & V2 & V3). rewrite rd_wr, decide_True, V1, V2, V3 by done.
    do 2 (split; [done|]). intros j Hj. left. exists u. split; [done|].
    rewrite rd_wr_addr, decide_False; [rewrite Hcopy by done; auto with kernel | | by eapply tab_addr; [apply HokR|] | done | | done].
    + intros [-> _]. apply (free_no_table s R t HokR Hf p t); [by eapply path_app | done | done].
    + by destruct Hp as [_ [_ [Hi _]%Forall_cons]%Forall_app].
Qed.

Lemma next_present t i flags s e : has VM_FLAG_PRESENT (rd s t i) = true -> has VM_FLAG_HUGE (rd s t i) = false ->
  let r := get_or_create_next t i flags s e in
  pmm r.1.2 = pmm s /\ (forall t j, entry_like (rd r.1.2 t j) (rd s t j)) /\ r.1.1 = entry_to_table (rd s t i).
Proof.
  intros Hp Hh. cbv zeta. unfold get_or_create_next. rewrite Hp, Hh. cbn [fst snd]. split; [apply relax_pmm|].
  assert (forall t' j, entry_like (rd (relax_table_entry_for_flags t i flags s) t' j) (rd s t' j)) as Hl.
  { intros t' j. unfold relax_table_entry_for_flags. destruct (_ || _); [auto with kernel|]. rewrite rd_wr.
    case_decide as Hc; [|auto with kernel]. assert (rd s t' j = rd s t i) as -> by (unfold rd; by rewrite Hc). apply relaxed_like. }
  split; [done|]. unfold entry_to_table. by destruct (Hl t i) as (-> & _).
Qed.

Lemma private_level_works s K R p t kt i flags e n : roots_ok s K R -> path_ok (p ++ [i]) -> tab s R p = Some t -> no_table s K t ->
  kernel_at s K p kt -> no_fault E -> room (S n) s ->
  has VM_FLAG_PRESENT (rd s t i) && has VM_FLAG_HUGE (rd s t i) = false ->
  let r := private_level t kt i flags s e in r.1.1 <> 0 /\ room n r.1.2 /\ entries_from s R (p ++ [i]) r.1.1 r.1.2.
Proof.
  intros Hr Hp Ht Hno Hkt Hnf Hroom Hnh. cbv zeta. unfold private_level. pose proof (room_has _ _ Hroom) as Hhas.
  pose proof (ensure_private_ok s K R p t kt i e Hr Hp Ht Hno Hkt) as Hmp. cbv zeta in Hmp.
  destruct (ensure_private_took s K R p t kt i e Hr Hp Ht) as [-> | (Hm & Hsub & Hw & Hent)].
  - pose proof (ro_root _ _ _ Hr) as HokR. change (1 =? 0) with false. cbv iota.
    pose proof (next_works s R p t i flags e HokR Hp Ht Hnh (or_intror (conj Hnf Hhas))) as Hne. split; [done|].
    destruct (get_or_create_ok s R p t i flags e HokR Hp Ht) as [Hq _]. split.
    + apply (room_step n 1 s _ R Hroom); [by eapply next_took_one | apply Hq].
    + intros j Hj. destruct (next_entries s R p t i flags e HokR Hp Ht j Hj Hne) as [[Hx Hl]|Hx]; [left; eauto | right; rewrite Hx; auto with kernel].
  - destruct (ensure_private_child t kt i s e) as [[ok s1] e1]. cbn [fst snd] in *. specialize (Hw Hnf Hhas).
    rewrite (proj2 (Z.eqb_neq ok 0) Hw). destruct (Hent Hw) as (P1 & F1 & Hfrom).
    destruct Hmp as (S1 & _ & T1 & _). destruct (next_present t i flags s1 e1 P1 F1) as (Hpm & Hl & ->).
    assert (tab s1 R (p ++ [i]) = Some (entry_to_table (rd s1 t i))) as Hc by (rewrite tab_app, T1; cbn [tab]; by rewrite P1, F1).
    split; [by apply (to_used _ _ (ro_root _ _ _ (ps_roots _ _ _ _ S1)) _ _ Hp Hc)|]. destruct Hroom as [H0 Hn]. split.
    + specialize (Hm H0). unfold room. rewrite Hpm. split; [set_solver | lia].
    + intros j Hj. destruct (Hfrom j Hj) as [(u & Hu & Hlu)|Hz]; [left; exists u; split; [done|] | right];
        (eapply entry_like_trans; [apply Hl | done]).
Qed.

(** At the page directory. *)
Lemma private_last_works s K R virt phys flags pd kpd e : roots_ok s K R -> Z.land flags ENTRY_ADDRESS = 0 ->
  tab s R [pml4_index virt; pdpt_index virt] = Some pd -> no_table s K pd ->
  kernel_at s K [pml4_index virt; pdpt_index virt] kpd -> no_fault E -> has_room s ->
  let entry := rd s pd (pd_index virt) in
  let '(ok, s1, e1) := if has VM_FLAG_PRESENT entry then
      if has VM_FLAG_HUGE entry then split_huge_page pd (pd_index virt) s e
      else ensure_private_child pd kpd (pd_index virt) s e
    else (1, s, e) in
  (map_last pd virt phys flags ok s1 e1).1.1 = 1.
Proof.
  intros Hr Hfl Ht Hno Hkt Hnf Hroom. cbv zeta. pose proof (ro_root _ _ _ Hr) as HokR. set (p := [pml4_index virt; pdpt_index virt]) in *.
  destruct (has VM_FLAG_PRESENT (rd s pd (pd_index virt))) eqn:Hpr.
  2: { apply (map_last_took s R virt phys flags pd 1 e HokR Hfl Ht); [by rewrite Hpr | done | by right]. }
  destruct (has VM_FLAG_HUGE (rd s pd (pd_index virt))) eqn:Hh.
  - destruct (split_huge_ok s R p pd (pd_index virt) e HokR (path_3 virt) eq_refl Ht Hpr Hh) as (Q3 & T3 & Hnh).
    destruct (split_took s R p pd (pd_index virt) e HokR (path_3 virt) eq_refl Ht Hpr Hh) as (_ & P3 & W3).
    destruct (split_huge_page pd (pd_index virt) s e) as [[ok s3] e3]. cbn [fst snd] in *. pose proof (W3 Hnf Hroom) as Hne. pose proof (P3 Hne) as Hp3.
    apply (map_last_took s3 R virt phys flags pd ok e3 (proj1 Q3) Hfl T3); [|done | by left].
    intros _. by rewrite (Hnh Hne), andb_false_r.
  - destruct (ensure_private_ok s K R p pd kpd (pd_index virt) e Hr (path_3 virt) Ht Hno Hkt) as (S3 & _ & T3 & _).
    destruct (ensure_private_took s K R p pd kpd (pd_index virt) e Hr (path_3 virt) Ht) as [-> | (_ & _ & Hw & Hent)].
    + apply (map_last_took s R virt phys flags pd 1 e HokR Hfl Ht); [by rewrite Hh, andb_false_r | done | by left].
    + destruct (ensure_private_child pd kpd (pd_index virt) s e) as [[ok s3] e3]. cbn [fst snd] in *. specialize (Hw Hnf Hroom).
      destruct (Hent Hw) as (P3 & F3 & _).
      apply (map_last_took s3 R virt phys flags pd ok e3 (ro_root _ _ _ (ps_roots _ _ _ _ S3)) Hfl T3); [|done | by left].
      intros _. by rewrite F3, andb_false_r.
Qed.

Lemma map_in_root_works s K R root_phys virt phys flags e : roots_ok s K R -> pml4_table s = K -> (root_table root_phys s).1 = R ->
  Z.land flags ENTRY_ADDRESS = 0 -> no_fault E -> room 3 s -> no_giant s R virt ->
  (arch_vm_map_page_in_root root_phys virt phys flags s e).1.1 = 1.
Proof.
  intros Hr HK HR Hfl Hnf Hroom Hng. unfold arch_vm_map_page_in_root. pose proof (ro_kernel _ _ _ Hr) as HokK.
  assert (root_table root_phys s = (R, s)) as -> by (rewrite <- HR; unfold root_table; by rewrite init_done by (by rewrite HK)).
  rewrite HK, (proj2 (Z.eqb_neq R K)) by apply Hr. cbv zeta.
  assert (has VM_FLAG_PRESENT (rd s R (pml4_index virt)) && has VM_FLAG_HUGE (rd s R (pml4_index virt)) = false) as Hh0.
  { destruct (has VM_FLAG_PRESENT _) eqn:Hp; [|done]. by apply (to_top _ _ (ro_root _ _ _ Hr)), Hp; apply index_range. }
  destruct (private_level_ok s K R [] R K (pml4_index virt) flags e Hr (path_1 virt) eq_refl (root_private _ _ _ Hr) (or_intror eq_refl)) as (S1 & _ & C1).
  destruct (private_level_works s K R [] R K (pml4_index virt) flags e 2 Hr (path_1 virt) eq_refl (root_private _ _ _ Hr) (or_intror eq_refl) Hnf Hroom Hh0)
    as (W1 & R1 & F1). specialize (C1 W1). unfold private_level in *.
  destruct (ensure_private_child R K (pml4_index virt) s e) as [[ok s0] e0]. destruct (ok =? 0); [done|].
  destruct (get_or_create_next R (pml4_index virt) flags s0 e0) as [[pdpt s1] e1]. cbn [fst snd app] in *. destruct C1 as [T1 N1].
  rewrite (proj2 (Z.eqb_neq pdpt 0)) by done. assert (pml4_table s1 = K) as -> by (by rewrite (proj1 (ps_regs _ _ _ _ S1))).
  pose proof (ps_roots _ _ _ _ S1) as Hr1.
  pose proof (kernel_child_at s1 K [] K (pml4_index virt) (ro_kernel _ _ _ Hr1) path_nil (or_intror eq_refl)) as K1.
  set (kpdpt := kernel_child K (pml4_index virt) s1) in *.
  assert (has VM_FLAG_PRESENT (rd s1 pdpt (pdpt_index virt)) && has VM_FLAG_HUGE (rd s1 pdpt (pdpt_index virt)) = false) as Hh1.
  { destruct (F1 (pdpt_index virt) (index_range _)) as [(u & Hu & (_ & -> & ->))|(_ & -> & ->)]; [by apply Hng | done]. }
  destruct (private_level_ok s1 K R [pml4_index virt] pdpt kpdpt (pdpt_index virt) flags e1 Hr1 (path_2 virt) T1 N1 K1) as (S3 & _ & C3).
  destruct (private_level_works s1 K R [pml4_index virt] pdpt kpdpt (pdpt_index virt) flags e1 1 Hr1 (path_2 virt) T1 N1 K1 Hnf R1 Hh1)
    as (W3 & R3 & _). specialize (C3 W3). unfold private_level in *.
  destruct (ensure_private_child pdpt kpdpt (pdpt_index virt) s1 e1) as [[ok2 s2] e2]. destruct (ok2 =? 0); [done|].
  destruct (get_or_create_next pdpt (pdpt_index virt) flags s2 e2) as [[pd s3] e3]. cbn [fst snd app] in *. destruct C3 as [T3 N3].
  rewrite (proj2 (Z.eqb_neq pd 0)) by done. pose proof (ps_roots _ _ _ _ S3) as Hr3.
  apply (private_kernel_at _ _ _ _ _ _ S3 (path_1 virt)) in K1.
  pose proof (kernel_child_at s3 K _ kpdpt (pdpt_index virt) (ro_kernel _ _ _ Hr3) (path_1 virt) K1) as K3.
  pose proof (private_last_works s3 K R virt phys flags pd _ e3 Hr3 Hfl T3 N3 K3 Hnf (room_has _ _ R3)) as H4. cbv zeta in H4. unfold map_last in H4.
  destruct (if has VM_FLAG_PRESENT (rd s3 pd (pd_index virt)) then _ else _) as [[ok4 s4] e4]. exact H4.
Qed.
End Works.

(** ** Creating and unmapping *)

(** A copy of the kernel's root shares all of the kernel's tables but itself. *)
Lemma copied_root s K R : tables_ok s K -> is_addr R -> R <> 0 -> no_table s K R -> R / 4096 ∉ free_set (pmm s) ->
  (forall j, is_index j -> rd s R j = rd s K j) ->
  roots_ok s K R /\ forall w, walk_phys R w s = walk_phys K w s.
Proof.
  intros Hok Ha H0 Hno Hf Hcopy.
  assert (forall q, path_ok q -> q <> [] -> tab s R q = tab s K q) as Htab.
  { intros [|i q] [_ Hq] Hne; [done|]. apply Forall_cons in Hq as [Hi _]. cbn [tab]. by rewrite Hcopy. }
  split; [|intros w; unfold walk_phys; by rewrite Hcopy by apply index_range].
  assert (forall p q u, path_ok p -> path_ok q -> tab s K p = Some u -> tab s R q = Some u -> p = q) as Hsh.
  { intros p q u Hp Hq HK HR. destruct (decide (q = [])) as [->|Hq']; [injection HR as <-; by destruct (Hno p R Hp HK)|].
    rewrite Htab in HR by done. by eapply (to_inj _ _ Hok). }
  constructor; [done | | | done].
  2: { intros ->. by apply (Hno [] K path_nil). }
  constructor; [done | | | intros j Hj; rewrite Hcopy by done; by apply (to_top _ _ Hok) | apply Hok].
  - intros p q u Hp Hq HpR HqR. destruct (decide (p = [])) as [->|Hp'].
    + injection HpR as <-. destruct (decide (q = [])) as [->|Hq']; [done|]. rewrite Htab in HqR by done. by destruct (Hno q R Hq HqR).
    + rewrite Htab in HpR by done. by apply (Hsh p q u).
  - intros p u Hp HpR. destruct (decide (p = [])) as [->|Hp']; [by injection HpR as <-|].
    rewrite Htab in HpR by done. by apply (to_used _ _ Hok p u).
Qed.

Lemma unmap_isolated s K R virt : roots_ok s K R -> private_leaf s K R virt ->
  let r := walk_unmap R virt s in
  unmap_outcome s R virt r.1 r.2 /\ roots_ok r.2 K R /\ same_walks s r.2 K /\ stays_out s K R r.2.
Proof.
  intros Hr Hpl. cbv zeta. pose proof (ro_root _ _ _ Hr) as HokR. pose proof (unmap_ok s R virt HokR) as Hu. cbv zeta in Hu.
  split; [done|]. destruct Hu as [(_ & -> & _)|(_ & (pt & Hpt & _) & HokR' & HtabR & Hpm & _ & _ & _ & _ & _)]; [split; [done|]; split; [done | apply stays_out_refl]|].
  assert (forall u j, is_addr u -> is_index j -> (is_table s R u -> is_table s K u) -> rd (walk_unmap R virt s).2 u j = rd s u j) as Hrd.
  { intros u j Hu Hj Hor. pose proof (Hpl pt Hpt) as Hno. assert (is_table s R pt) as HtR by (eexists; split; [apply path_3 | exact Hpt]).
    destruct (tab_step _ _ _ _ _ Hpt) as (P4 & F4 & (P3 & F3 & (P2 & F2 & [= <-])%tab_step)%tab_step).
    unfold walk_unmap. rewrite P4, P3, F3, P2, F2. cbn [negb orb].
    set (pt := entry_to_table (rd s _ (pd_index virt))) in *. destruct (has VM_FLAG_PRESENT (rd s pt _)); [cbn [negb snd] | done].
    change (rd (wr pt (pt_index virt) 0 s) u j = rd s u j).
    rewrite rd_wr_addr, decide_False; [done | | apply entry_is_addr | done | apply index_range | done].
    intros [-> _]. destruct (Hor HtR) as (q & Hq & Hk). by apply (Hno q pt). }
  assert (stays_out s K R (walk_unmap R virt s).2) as Hout.
  { constructor; [by auto | | by rewrite Hpm]. intros u (q & Hq & Hu). left. exists q. by rewrite <- HtabR. }
  assert (forall q u j, path_ok q -> tab s K q = Some u -> is_index j -> rd (walk_unmap R virt s).2 u j = rd s u j) as HrdK.
  { intros q u j Hq Hu Hj. apply Hrd; [by eapply tab_addr; [apply Hr|] | done | intros _; by exists q]. }
  destruct (outside_tables s (walk_unmap R virt s).2 K (ro_kernel _ _ _ Hr) HrdK) as (T & W & _); [by rewrite Hpm | rewrite Hpm; apply Hr |].
  pose proof (outside_tab s (walk_unmap R virt s).2 K (ro_kernel _ _ _ Hr) HrdK ltac:(by rewrite Hpm) ltac:(rewrite Hpm; apply Hr)) as HtabK.
  split; [|done]. constructor; [done | done | apply Hr |]. intros p q u Hp Hq. rewrite HtabK, HtabR by done. by apply (ro_share _ _ _ Hr).
Qed.

(** ** The contracts *)

Lemma root_table_is s root_phys : tables_ok s (pml4_table s) ->
  root_table root_phys s = (Z.land (if root_phys =? 0 then pml4_phys s else root_phys) ENTRY_ADDRESS, s).
Proof. intros Hok. unfold root_table. by rewrite init_done. Qed.
Lemma get_phys_root s R root_phys w : roots_ok s (pml4_table s) R -> (root_table root_phys s).1 = R ->
  arch_vm_get_phys_in_root root_phys w s = (walk_phys R w s, s).
Proof.
  intros Hr HR. unfold arch_vm_get_phys_in_root. rewrite root_table_is in HR |- * by apply Hr. cbn [fst] in HR. rewrite HR.
  by rewrite (proj2 (Z.eqb_neq R _)) by apply Hr.
Qed.

(** A new root ([arch_vm_create_root]) is the copy of the kernel's table on a
    block that was free: it translates every address as the kernel does, and
    the two trees share tables only at equal places.  If no block can be had
    the answer is 0; the kernel's translations are the same in any case. *)
Theorem arch_vm_create_root_copies {E : Type} `{KernelEnv E} s (e : E) :
  tables_ok s (pml4_table s) -> pml4_phys s = pml4_table s ->
  let r := arch_vm_create_root s e in let R := r.1.1 in let s' := r.1.2 in
  tables_ok s' (pml4_table s') /\ (forall w, (arch_vm_get_phys w s').1 = (arch_vm_get_phys w s).1) /\
  (R <> 0 -> roots_ok s' (pml4_table s') R /\ R / 4096 ∈ free_set (pmm s) /\
     forall w, (arch_vm_get_phys_in_root R w s').1 = (arch_vm_get_phys w s').1) /\
  (no_fault E -> has_room s -> R <> 0).
Proof.
  intros Hok Hphys. cbv zeta. unfold arch_vm_create_root. rewrite init_done, Hphys by done. set (K := pml4_table s) in *.
  destruct (to_used _ _ Hok [] K path_nil eq_refl) as [HK0 HKf].
  pose proof (clone_table_ok K s e (to_pmm _ _ Hok) (to_root _ _ Hok) HKf) as Hcl. cbv zeta in Hcl.
  destruct (clone_taken K s e (to_pmm _ _ Hok)) as [_ Hw]. destruct (clone_table K s e) as [[R s1] e1]. cbn [fst snd] in *.
  destruct Hcl as [Hpo Hnew]. assert (no_table s K R) as Hno.
  { destruct (decide (R = 0)) as [->|Hne]; [intros q u Hq Hu; by destruct (to_used _ _ Hok q u Hq Hu)|].
    apply free_no_table; [done | by apply Hnew]. }
  destruct (page_tables s s1 K R Hok Hno Hpo) as (T & W & (HK & _) & _). pose proof (page_tab s s1 K R Hok Hno Hpo) as Htab.
  fold K in HK. rewrite HK. split; [done|]. split; [intros w; rewrite !get_phys_walk by (by rewrite ?HK); by rewrite HK, W|].
  split; [|done]. intros Hne. destruct (Hnew Hne) as (Ha & Hf & Hnf & Hcopy).
  destruct (copied_root s1 K R T Ha Hne) as [Hr Hwalk]; [| done | |].
  - intros q u Hq. rewrite Htab by done. by apply Hno.
  - intros j Hj. rewrite Hcopy by done. symmetry. exact (page_rd s s1 K R Hok Hno Hpo [] K j path_nil eq_refl Hj).
  - split; [done|]. split; [done|]. intros w. assert ((root_table R s1).1 = R) as HR.
    { rewrite root_table_is by (by rewrite HK). by rewrite (proj2 (Z.eqb_neq R 0)). }
    rewrite (get_phys_root s1 R R w ltac:(by rewrite HK) HR), get_phys_walk by (by rewrite HK). cbn [fst]. by rewrite HK, Hwalk.
Qed.

(** C14: mapping a page into another root ([arch_vm_map_page_in_root]), which may
    share tables with the kernel.  The kernel's translations do not change: the
    tables on the way are copied before they are written to.  In the root
    itself either nothing changes (answer 0) or the page of [virt] is translated
    to [phys] and every other address as before (answer 1), and the page's last
    table is then the root's own.  The flags have no address bits.  With three free blocks, no injected fault
    and no 1 GiB page in the way it succeeds. *)
Theorem arch_vm_map_in_root_isolated {E : Type} `{KernelEnv E} s (e : E) R root_phys virt phys flags :
  roots_ok s (pml4_table s) R -> (root_table root_phys s).1 = R -> Z.land flags ENTRY_ADDRESS = 0 ->
  let r := arch_vm_map_page_in_root root_phys virt phys flags s e in let ok := r.1.1 in let s' := r.1.2 in
  roots_ok s' (pml4_table s') R /\ (forall w, (arch_vm_get_phys w s').1 = (arch_vm_get_phys w s).1) /\
  ((ok = 0 /\ forall w, walk_phys R w s' = walk_phys R w s) \/
   (ok = 1 /\ flushed s' = virt :: flushed s /\ leaf_mapped s' R virt /\ private_leaf s' (pml4_table s') R virt /\
    forall w, walk_phys R w s' =
      if decide (same_page virt w) then Z.lor (Z.land phys ENTRY_ADDRESS) (Z.land w 0xFFF) else walk_phys R w s)) /\
  (no_fault E -> room 3 s -> no_giant s R virt -> ok = 1).
Proof.
  intros Hr HR Hfl. cbv zeta. pose proof (map_in_root_works s _ R root_phys virt phys flags e Hr eq_refl HR Hfl) as Hw.
  destruct (map_in_root_ok s _ R root_phys virt phys flags e Hr eq_refl HR Hfl) as (Hr' & Hk & (_ & Hp & _ & _ & Hc) & Hpl & _).
  set (r := arch_vm_map_page_in_root root_phys virt phys flags s e) in *. rewrite Hp. split; [done|].
  split; [intros w; rewrite !get_phys_walk by (rewrite ?Hp; apply Hr || apply Hr'); by rewrite Hp, Hk|]. split; [|done].
  destruct Hc as [(H0 & Hws & _)|(H1 & Hm & Hfl' & Hlf)]; [by left | right]. do 3 (split; [done|]). split; [|exact Hm].
  apply Hpl. by rewrite H1.
Qed.

(** Unmapping a page of another root ([arch_vm_unmap_page_in_root]) whose
    last table is the root's own, as it is after mapping there: exactly that
    translation goes, and the kernel's stay as they are. *)
Theorem arch_vm_unmap_in_root_isolated s R root_phys virt :
  roots_ok s (pml4_table s) R -> (root_table root_phys s).1 = R -> private_leaf s (pml4_table s) R virt ->
  let r := arch_vm_unmap_page_in_root root_phys virt s in let ok := r.1 in let s' := r.2 in
  roots_ok s' (pml4_table s') R /\ (forall w, (arch_vm_get_phys w s').1 = (arch_vm_get_phys w s).1) /\
  ((ok = 0 /\ s' = s /\ ~ leaf_mapped s R virt) \/
   (ok = 1 /\ leaf_mapped s R virt /\ pmm s' = pmm s /\
    forall w, walk_phys R w s' = if decide (same_page virt w) then 0 else walk_phys R w s)).
Proof.
  intros Hr HR Hpl. cbv zeta. unfold arch_vm_unmap_page_in_root. rewrite root_table_is in HR |- * by apply Hr. cbn [fst] in HR.
  rewrite HR, (proj2 (Z.eqb_neq R _)) by apply Hr. destruct (unmap_isolated s _ R virt Hr Hpl) as (Hu & Hr' & Hk & _).
  set (r := walk_unmap R virt s) in *. assert (pml4_table r.2 = pml4_table s) as Hp.
  { destruct Hu as [(_ & -> & _)|(_ & _ & _ & _ & _ & Hp & _)]; done. }
  rewrite Hp. split; [done|]. split; [intros w; rewrite !get_phys_walk by (rewrite ?Hp; apply Hr || apply Hr'); by rewrite Hp, Hk|].
  destruct Hu as [Hu|(H1 & Hlf & _ & _ & Hpm & _ & _ & _ & _ & Hw)]; [by left | by right].
Qed.

(** ** Witnesses *)

#[local] Opaque demo_state.
Lemma demo_roots : roots_ok demo_paging 0x1000 0x2000.
Proof.
  constructor; [by apply demo_tables | by apply demo_tables | done |].
  intros [|i p] [|j q] u; cbn [tab]; by rewrite ?demo_words.
Qed.

Lemma arch_vm_create_root_copies_witness :
  let r := arch_vm_create_root demo_paging tt in
  r.1.1 <> 0 /\ (arch_vm_get_phys_in_root r.1.1 0x400000 r.1.2).1 = (arch_vm_get_phys 0x400000 demo_paging).1.
Proof.
  pose proof (demo_tables 0x1000 eq_refl ltac:(done) eq_refl) as Hok. destruct (demo_ready 3 0 ltac:(lia)) as [Hr _].
  pose proof (arch_vm_create_root_copies demo_paging tt Hok eq_refl) as Ht. revert Ht.
  generalize (arch_vm_create_root demo_paging tt). intros r. cbv zeta. intros (_ & Hk & Hc & Hw).
  specialize (Hw (fun _ => eq_refl) (room_has _ _ Hr)). split; [done|]. destruct (Hc Hw) as (_ & _ & Hg). by rewrite Hg, Hk.
Defined.

Lemma arch_vm_map_in_root_isolated_witness :
  let r := arch_vm_map_page_in_root 0x2000 0x400000 0x203000 VM_FLAG_USER demo_paging tt in
  r.1.1 = 1 /\ walk_phys 0x2000 0x400123 r.1.2 = 0x203123 /\
  (arch_vm_get_phys 0x400123 r.1.2).1 = (arch_vm_get_phys 0x400123 demo_paging).1.
Proof.
  destruct (demo_ready 3 0x400000 ltac:(lia)) as [Hr _]. assert (no_giant demo_paging 0x2000 0x400000) as Hg.
  { intros pdpt. cbn [tab]. by rewrite demo_words. }
  pose proof (arch_vm_map_in_root_isolated demo_paging tt 0x2000 0x2000 0x400000 0x203000 VM_FLAG_USER demo_roots eq_refl eq_refl) as Ht.
  revert Ht. generalize (arch_vm_map_page_in_root 0x2000 0x400000 0x203000 VM_FLAG_USER demo_paging tt). intros r. cbv zeta.
  intros (_ & Hk & Hc & Hw). specialize (Hw (fun _ => eq_refl) Hr Hg). split; [done|].
  destruct Hc as [(H0 & _)|(_ & _ & _ & _ & Hm)]; [congruence|]. by rewrite Hm, Hk.
Defined.

Lemma arch_vm_unmap_in_root_isolated_witness :
  let s := (arch_vm_map_page_in_root 0x2000 0x400000 0x203000 VM_FLAG_USER demo_paging tt).1.2 in
  let r := arch_vm_unmap_page_in_root 0x2000 0x400000 s in r.1 = 1 /\ walk_phys 0x2000 0x400123 r.2 = 0.
Proof.
  destruct (demo_ready 3 0x400000 ltac:(lia)) as [Hr _]. assert (no_giant demo_paging 0x2000 0x400000) as Hg.
  { intros pdpt. cbn [tab]. by rewrite demo_words. }
  pose proof (map_in_root_ok demo_paging _ 0x2000 0x2000 0x400000 0x203000 VM_FLAG_USER tt demo_roots eq_refl eq_refl eq_refl) as Ho.
  pose proof (map_in_root_works demo_paging _ 0x2000 0x2000 0x400000 0x203000 VM_FLAG_USER tt demo_roots eq_refl eq_refl eq_refl (fun _ => eq_refl) Hr Hg) as Hw.
  revert Ho Hw. generalize (arch_vm_map_page_in_root 0x2000 0x400000 0x203000 VM_FLAG_USER demo_paging tt). intros [[ok s] e]. cbv zeta. cbn [fst snd].
  intros (Hr' & _ & (_ & Hp & _ & _ & Hc) & Hpl & _) ->. specialize (Hpl ltac:(done)). cbn [pml4_table demo_paging] in Hp.
  destruct Hc as [(H0 & _)|(_ & _ & _ & Hlf)]; [done|]. rewrite <- Hp in Hr', Hpl.
  assert ((root_table 0x2000 s).1 = 0x2000) as HR by (rewrite root_table_is by apply Hr'; done).
  destruct (arch_vm_unmap_in_root_isolated s 0x2000 0x2000 0x400000 Hr' HR Hpl) as (_ & _ & [(_ & _ & Hn)|(H1 & _ & _ & Hu)]); [done|].
  split; [done | by rewrite Hu].
Defined.
