(* ===== verification/PagingFamily.v ===== *)
(** * The roots of several processes

    Every process has a root of its own; the roots share tables with the kernel
    and with each other only through the kernel ([family_ok]).  Shown: creating
    a root, mapping into one and unmapping from one changes no translation of
    the kernel or of another root, and keeps the roots apart. *)

From S2P Require Import Prelude KernelEnv Pmm PmmSpec Paging PagingSpec PagingMemory PagingRoots.

Record family_ok (s : PagingState) (K : Z) (Rs : gset Z) : Prop := {
  fo_kernel : tables_ok s K;
  fo_roots : forall R, R ∈ Rs -> roots_ok s K R;
  fo_apart : forall R1 R2 u, R1 ∈ Rs -> R2 ∈ Rs -> R1 <> R2 -> is_table s R1 u -> is_table s R2 u -> is_table s K u;
}.

(** The translations of the other roots. *)
Definition others_keep (s : PagingState) (Rs : gset Z) (R : Z) (s' : PagingState) : Prop :=
  forall R2, R2 ∈ Rs -> R2 <> R -> same_walks s s' R2.

Section Step.
Context (s s' : PagingState) (K R : Z) (Rs : gset Z).
Context (Hf : family_ok s K Rs) (HR : R ∈ Rs) (Hr' : roots_ok s' K R) (Hout : stays_out s K R s').

Lemma other_rd R2 q u j : R2 ∈ Rs -> R2 <> R -> path_ok q -> tab s R2 q = Some u -> is_index j -> rd s' u j = rd s u j.
Proof using All.
  intros H2 Hne Hq Hu Hj. pose proof (ro_root _ _ _ (fo_roots _ _ _ Hf R2 H2)) as Hok. destruct (to_used _ _ Hok q u Hq Hu).
  apply (so_words _ _ _ _ Hout); [by eapply tab_addr; [apply Hok|] | done | done | done |].
  intros Ht. apply (fo_apart _ _ _ Hf R2 R); try done. by exists q.
Qed.
Lemma kernel_rd q u j : path_ok q -> tab s K q = Some u -> is_index j -> rd s' u j = rd s u j.
Proof using All.
  intros Hq Hu Hj. destruct (to_used _ _ (fo_kernel _ _ _ Hf) q u Hq Hu).
  apply (so_words _ _ _ _ Hout); [by eapply tab_addr; [apply Hf|] | done | done | done | intros _; by exists q].
Qed.
Lemma family_step : family_ok s' K Rs /\ others_keep s Rs R s'.
Proof using All.
  pose proof (to_pmm _ _ (ro_kernel _ _ _ Hr')) as Hc. pose proof (so_free _ _ _ _ Hout) as Hfree.
  assert (forall R2, R2 ∈ Rs -> R2 <> R -> tables_ok s' R2 /\ same_walks s s' R2 /\ forall q, path_ok q -> tab s' R2 q = tab s R2 q) as Hother.
  { intros R2 H2 Hne. pose proof (ro_root _ _ _ (fo_roots _ _ _ Hf R2 H2)) as Hok.
    destruct (outside_tables s s' R2 Hok (fun q u j => other_rd R2 q u j H2 Hne) Hfree Hc) as (T & W & _). split; [done|]. split; [done|].
    apply (outside_tab s s' R2 Hok (fun q u j => other_rd R2 q u j H2 Hne) Hfree Hc). }
  pose proof (outside_tab s s' K (fo_kernel _ _ _ Hf) kernel_rd Hfree Hc) as HtK.
  assert (forall u, is_table s K u -> is_table s' K u) as Hk' by (intros u (q & Hq & Hu); exists q; by rewrite HtK).
  split; [|intros R2 H2 Hne; by apply Hother]. constructor; [apply Hr' | |].
  - intros R2 H2. destruct (decide (R2 = R)) as [->|Hne]; [done|]. destruct (Hother R2 H2 Hne) as (T & _ & Ht).
    pose proof (fo_roots _ _ _ Hf R2 H2) as Hr2. constructor; [apply Hr' | done | apply Hr2 |].
    intros p q u Hp Hq. rewrite HtK, Ht by done. by apply (ro_share _ _ _ Hr2).
  - assert (forall R2 u, R2 ∈ Rs -> R2 <> R -> is_table s' R u -> is_table s' R2 u -> is_table s' K u) as Hap.
    { intros R2 u H2 Hne Hu (q & Hq & Hu2). destruct (Hother R2 H2 Hne) as (_ & _ & Ht). rewrite Ht in Hu2 by done. apply Hk'.
      destruct (so_new _ _ _ _ Hout u Hu) as [HuR|Hfu]; [apply (fo_apart _ _ _ Hf R R2); try done; by exists q|].
      by destruct (to_used _ _ (ro_root _ _ _ (fo_roots _ _ _ Hf R2 H2)) q u Hq Hu2). }
    intros R1 R2 u H1 H2 Hne Hu1 Hu2. destruct (decide (R1 = R)) as [->|Hn1]; [by apply (Hap R2 u)|].
    destruct (decide (R2 = R)) as [->|Hn2]; [by apply (Hap R1 u)|].
    destruct Hu1 as (q1 & Hq1 & Hu1), Hu2 as (q2 & Hq2 & Hu2). destruct (Hother R1 H1 Hn1) as (_ & _ & Ht1), (Hother R2 H2 Hn2) as (_ & _ & Ht2).
    rewrite Ht1 in Hu1 by done. rewrite Ht2 in Hu2 by done. apply Hk', (fo_apart _ _ _ Hf R1 R2 u); try done; [by exists q1 | by exists q2].
Qed.
End Step.

(** A new root that shares everything with the kernel joins the family. *)
Lemma family_join s s' K R Rs : family_ok s K Rs -> page_only R s s' -> (R <> 0 -> R / 4096 ∈ free_set (pmm s)) ->
  let Rs' := if R =? 0 then Rs else {[R]} ∪ Rs in
  (R <> 0 -> roots_ok s' K R /\ forall u, is_table s' R u -> u = R \/ is_table s' K u) ->
  family_ok s' K Rs' /\ (R ∉ Rs) /\ forall R2, R2 ∈ Rs -> same_walks s s' R2.
Proof.
  intros Hf Hpo Hfree. cbv zeta. intros Hnew.
  assert (forall root, tables_ok s root -> no_table s root R) as Hno.
  { intros root Hok. destruct (decide (R = 0)) as [->|Hne]; [intros q u Hq Hu; by destruct (to_used _ _ Hok q u Hq Hu)|].
    apply free_no_table; [done | by apply Hfree]. }
  pose proof (fo_kernel _ _ _ Hf) as HokK. pose proof (page_tab s s' K R HokK (Hno K HokK) Hpo) as HtK.
  assert (forall u, is_table s K u -> is_table s' K u) as Hk' by (intros u (q & Hq & Hu); exists q; by rewrite HtK).
  assert (forall R2, R2 ∈ Rs -> quiet s R2 s' /\ no_table s R2 R /\ forall q, path_ok q -> tab s' R2 q = tab s R2 q) as Hold.
  { intros R2 H2. pose proof (ro_root _ _ _ (fo_roots _ _ _ Hf R2 H2)) as Hok. split; [apply (page_tables s s' R2 R); auto|].
    split; [by apply Hno | apply (page_tab s s' R2 R); auto]. }
  assert (family_ok s' K Rs) as Hf'.
  { constructor; [by apply (page_tables s s' K R HokK (Hno K HokK)) | |].
    - intros R2 H2. destruct (Hold R2 H2) as ((T & _) & _ & Ht). pose proof (fo_roots _ _ _ Hf R2 H2) as Hr.
      constructor; [by apply (page_tables s s' K R HokK (Hno K HokK)) | done | apply Hr |].
      intros p q u Hp Hq. rewrite HtK, Ht by done. by apply (ro_share _ _ _ Hr).
    - intros R1 R2 u H1 H2 Hne (q1 & Hq1 & Hu1) (q2 & Hq2 & Hu2).
      destruct (Hold R1 H1) as (_ & _ & Ht1), (Hold R2 H2) as (_ & _ & Ht2). rewrite Ht1 in Hu1 by done. rewrite Ht2 in Hu2 by done.
      apply Hk', (fo_apart _ _ _ Hf R1 R2 u); try done; [by exists q1 | by exists q2]. }
  assert (R ∉ Rs) as HnR by (intros HR; destruct (Hold R HR) as (_ & Hn & _); by apply (Hn [] R path_nil)).
  split; [|split; [done | intros R2 H2; by apply (Hold R2 H2)]].
  destruct (R =? 0) eqn:E0; [done|]. apply Z.eqb_neq in E0. destruct (Hnew E0) as [Hr Hsh].
  assert (forall R2 u, R2 ∈ Rs -> is_table s' R u -> is_table s' R2 u -> is_table s' K u) as Hap.
  { intros R2 u H2 Hu (q & Hq & Hu2). destruct (Hsh u Hu) as [->|?]; [|done]. exfalso.
    destruct (Hold R2 H2) as (_ & Hn & Ht). rewrite Ht in Hu2 by done. by apply (Hn q R Hq). }
  constructor; [apply Hf' | |].
  - intros R2 [->%elem_of_singleton|H2]%elem_of_union; [done | by apply Hf'].
  - intros R1 R2 u [->%elem_of_singleton|H1]%elem_of_union [->%elem_of_singleton|H2]%elem_of_union Hne Hu1 Hu2;
      [done | by eapply Hap | by eapply Hap | by apply (fo_apart _ _ _ Hf' R1 R2 u)].
Qed.

Section Operations.
Context {E : Type} `{KernelEnv E}.
Implicit Type e : E.

Lemma family_create s e Rs : family_ok s (pml4_table s) Rs -> pml4_phys s = pml4_table s ->
  let r := arch_vm_create_root s e in let R := r.1.1 in let s' := r.1.2 in
  family_ok s' (pml4_table s) (if R =? 0 then Rs else {[R]} ∪ Rs) /\ (R ∉ Rs) /\ same_regs s s' /\ same_walks s s' (pml4_table s) /\
  (forall R2, R2 ∈ Rs -> same_walks s s' R2) /\ (R <> 0 -> is_addr R /\ forall w, walk_phys R w s' = walk_phys (pml4_table s) w s).
Proof.
  intros Hf Hphys. cbv zeta. pose proof (fo_kernel _ _ _ Hf) as Hok. unfold arch_vm_create_root. rewrite init_done, Hphys by done.
  set (K := pml4_table s) in *. destruct (to_used _ _ Hok [] K path_nil eq_refl) as [HK0 HKf].
  pose proof (clone_table_ok K s e (to_pmm _ _ Hok) (to_root _ _ Hok) HKf) as Hcl. cbv zeta in Hcl.
  destruct (clone_table K s e) as [[R s1] e1]. cbn [fst snd] in *. destruct Hcl as [Hpo Hnew].
  assert (no_table s K R) as Hno.
  { destruct (decide (R = 0)) as [->|Hne]; [intros q u Hq Hu; by destruct (to_used _ _ Hok q u Hq Hu)|].
    apply free_no_table; [done | by apply Hnew]. }
  destruct (page_tables s s1 K R Hok Hno Hpo) as (T & W & Hregs & _). pose proof (page_tab s s1 K R Hok Hno Hpo) as Htab.
  assert (R <> 0 -> is_addr R /\ (forall j, is_index j -> rd s1 R j = rd s1 K j) /\ roots_ok s1 K R /\ forall w, walk_phys R w s1 = walk_phys K w s1) as Hroot.
  { intros Hne. destruct (Hnew Hne) as (Ha & Hfr & Hnf & Hcopy).
    assert (forall j, is_index j -> rd s1 R j = rd s1 K j) as Hc.
    { intros j Hj. rewrite Hcopy by done. symmetry. exact (page_rd s s1 K R Hok Hno Hpo [] K j path_nil eq_refl Hj). }
    destruct (copied_root s1 K R T Ha Hne) as [Hr Hw]; try done. intros q u Hq. rewrite Htab by done. by apply Hno. }
  destruct (family_join s s1 K R Rs Hf Hpo) as (Hf' & HnR & Hw'); [intros Hne; by apply Hnew | |].
  - intros Hne. destruct (Hroot Hne) as (_ & Hc & Hr & _). split; [done|]. intros u (q & Hq & Hu).
    destruct q as [|i q]; [left; by injection Hu|]. right. exists (i :: q). split; [done|]. rewrite <- Hu. cbn [tab]. rewrite Hc; [done|].
    by destruct Hq as [_ [Hi _]%Forall_cons].
  - do 5 (split; [done|]). intros Hne. destruct (Hroot Hne) as (Ha & _ & _ & Hw). split; [done|]. intros w. by rewrite Hw, W.
Qed.

Lemma family_map s e Rs R root_phys virt phys flags : family_ok s (pml4_table s) Rs -> R ∈ Rs -> (root_table root_phys s).1 = R ->
  Z.land flags ENTRY_ADDRESS = 0 ->
  let r := arch_vm_map_page_in_root root_phys virt phys flags s e in let s' := r.1.2 in
  family_ok s' (pml4_table s) Rs /\ others_keep s Rs R s' /\ isolated s (pml4_table s) R virt phys r.1.1 s'.
Proof.
  intros Hf HR Hrt Hfl. cbv zeta.
  pose proof (map_in_root_ok s _ R root_phys virt phys flags e (fo_roots _ _ _ Hf R HR) eq_refl Hrt Hfl) as Hi. cbv zeta in Hi.
  destruct (family_step s _ _ R Rs Hf HR (proj1 Hi)) as [Hf' Ho]; [by apply Hi | done].
Qed.
End Operations.

Lemma family_unmap s Rs R root_phys virt : family_ok s (pml4_table s) Rs -> R ∈ Rs -> (root_table root_phys s).1 = R ->
  private_leaf s (pml4_table s) R virt ->
  let r := arch_vm_unmap_page_in_root root_phys virt s in let s' := r.2 in
  family_ok s' (pml4_table s) Rs /\ others_keep s Rs R s' /\ same_walks s s' (pml4_table s) /\ unmap_outcome s R virt r.1 s'.
Proof.
  intros Hf HR Hrt Hpl. cbv zeta. pose proof (fo_roots _ _ _ Hf R HR) as Hr. unfold arch_vm_unmap_page_in_root.
  rewrite root_table_is in Hrt |- * by apply Hr. cbn [fst] in Hrt. rewrite Hrt, (proj2 (Z.eqb_neq R _)) by apply Hr.
  destruct (unmap_isolated s _ R virt Hr Hpl) as (Hu & Hr' & Hk & Hout).
  by destruct (family_step s _ _ R Rs Hf HR Hr' Hout).
Qed.
