(* ===== verification/Vm.v ===== *)
(** * Virtual memory ranges ([kernel/mm/vm.cpp])

    Mapping, protecting and releasing ranges of pages, over the page tables of
    [Paging] and the physical memory manager.  A loop over the pages
    [addr = begin; addr < end; addr += VM_PAGE_SIZE] with both ends aligned runs
    [page_span begin end] times.  The TLB shoot-down of [kernel/cpu/smp.cpp] is
    reached through the class [TlbHost]. *)

From S2P Require Import Prelude KernelEnv Pmm Paging.

Definition VM_TLB_RETIRE_CHUNK_PAGES : Z := 64.

Class TlbHost (E : Type) := {
  (** [smp_kernel_tlb_shootdown(virt, page_count)]: whether every CPU answered. *)
  smp_kernel_tlb_shootdown : Z -> Z -> E -> Z * E;
}.

(** [~(VM_PAGE_SIZE - 1ULL)] *)
Definition PAGE_MASK : Z := not64 (VM_PAGE_SIZE - 1).
Definition align_down_page (value : Z) : Z := Z.land value PAGE_MASK.
Definition align_up_page (value : Z) : Z := Z.land (u64 (value + VM_PAGE_SIZE - 1)) PAGE_MASK.
Definition page_span (begin end_ : Z) : nat := Z.to_nat ((end_ - begin) / VM_PAGE_SIZE).

(** ** Wrappers *)

Definition vm_get_phys := arch_vm_get_phys.
Definition vm_get_phys_in_root := arch_vm_get_phys_in_root.
Definition vm_get_flags := arch_vm_get_flags.
Definition vm_get_flags_in_root := arch_vm_get_flags_in_root.
Definition vm_unmap_page := arch_vm_unmap_page.
Definition vm_unmap_page_in_root := arch_vm_unmap_page_in_root.
Definition vm_flush_page := arch_vm_flush_page.
Definition vm_get_root_phys := arch_vm_get_root_phys.
Definition vm_switch_root := arch_vm_switch_root.
Definition vm_init := arch_vm_init.
Definition vm_enable_execute_disable := arch_vm_enable_execute_disable.
Definition vm_is_execute_disable_enabled := arch_vm_is_execute_disable_enabled.

Definition free_phys (phys : Z) (s : PagingState) : PagingState := s <| pmm := pmm_free_block phys (pmm s) |>.

(** ** Releasing ranges *)

(** One page: the number of pages unmapped (0 or 1). *)
Definition unmap_free_one (addr : Z) (s : PagingState) : Z * PagingState :=
  let '(phys, s) := vm_get_phys addr s in
  let phys := Z.land phys PAGE_MASK in
  let '(ok, s) := vm_unmap_page addr s in
  if ok =? 0 then (0, s) else (1, if nonzero phys then free_phys phys s else s).
Fixpoint unmap_free_loop (n : nat) (addr unmapped : Z) (s : PagingState) : Z * PagingState :=
  match n with
  | O => (unmapped, s)
  | S n =>
    let '(k, s) := unmap_free_one addr s in
    unmap_free_loop n (u64 (addr + VM_PAGE_SIZE)) (u32 (unmapped + k)) s
  end.
Definition vm_unmap_free_range (virt page_count : Z) (s : PagingState) : Z * PagingState :=
  unmap_free_loop (Z.to_nat page_count) (align_down_page virt) 0 s.

Definition unmap_free_one_in_root (root_phys addr : Z) (s : PagingState) : Z * PagingState :=
  let '(phys, s) := vm_get_phys_in_root root_phys addr s in
  let phys := Z.land phys PAGE_MASK in
  let '(ok, s) := vm_unmap_page_in_root root_phys addr s in
  if ok =? 0 then (0, s) else (1, if nonzero phys then free_phys phys s else s).
Fixpoint unmap_free_loop_in_root (root_phys : Z) (n : nat) (addr unmapped : Z) (s : PagingState) : Z * PagingState :=
  match n with
  | O => (unmapped, s)
  | S n =>
    let '(k, s) := unmap_free_one_in_root root_phys addr s in
    unmap_free_loop_in_root root_phys n (u64 (addr + VM_PAGE_SIZE)) (u32 (unmapped + k)) s
  end.
Definition vm_unmap_free_range_in_root (root_phys virt page_count : Z) (s : PagingState) : Z * PagingState :=
  unmap_free_loop_in_root root_phys (Z.to_nat page_count) (align_down_page virt) 0 s.

Section Operations.
Context {E : Type} `{KernelEnv E}.

Definition vm_map_page := arch_vm_map_page (E := E).
Definition vm_map_page_in_root := arch_vm_map_page_in_root (E := E).
Definition vm_create_root := arch_vm_create_root (E := E).

(** ** Mapping ranges *)

(** The range of pages of [[virt, virt + size)], or nothing if it wraps. *)
Definition range_pages (virt size : Z) : option (Z * Z) :=
  let begin := align_down_page virt in
  let end_ := align_up_page (u64 (virt + size)) in
  if end_ <? begin then None else Some (begin, end_).

Fixpoint map_identity_loop (n : nat) (addr flags : Z) (s : PagingState) (e : E) : Z * PagingState * E :=
  match n with
  | O => (1, s, e)
  | S n =>
    let '(ok, s, e) := vm_map_page addr addr flags s e in
    if ok =? 0 then (0, s, e) else map_identity_loop n (addr + VM_PAGE_SIZE) flags s e
  end.
Definition vm_map_identity (start size flags : Z) (s : PagingState) (e : E) : Z * PagingState * E :=
  if size =? 0 then (1, s, e)
  else
    match range_pages start size with
    | None => (0, s, e)
    | Some (begin, end_) => map_identity_loop (page_span begin end_) begin flags s e
    end.

(** [for (rollback = 0; rollback < mapped; rollback++) vm_unmap_page(...)]. *)
Definition unmap_mapped (begin mapped : Z) (s : PagingState) : PagingState :=
  for_range 0 mapped (fun k s => (vm_unmap_page (u64 (begin + k * VM_PAGE_SIZE)) s).2) s.
Fixpoint map_range_loop (n : nat) (begin phys_begin addr mapped flags : Z) (s : PagingState) (e : E)
    : Z * PagingState * E :=
  match n with
  | O => (1, s, e)
  | S n =>
    let page_phys := u64 (phys_begin + mapped * VM_PAGE_SIZE) in
    let '(ok, s, e) := vm_map_page addr page_phys flags s e in
    if ok =? 0 then (0, unmap_mapped begin mapped s, e)
    else map_range_loop n begin phys_begin (addr + VM_PAGE_SIZE) (u32 (mapped + 1)) flags s e
  end.
Definition vm_map_range (virt phys size flags : Z) (s : PagingState) (e : E) : Z * PagingState * E :=
  if size =? 0 then (1, s, e)
  else
    match range_pages virt size with
    | None => (0, s, e)
    | Some (begin, end_) =>
      map_range_loop (page_span begin end_) begin (align_down_page phys) begin 0 flags s e
    end.

Fixpoint protect_loop (n : nat) (addr flags : Z) (s : PagingState) (e : E) : Z * PagingState * E :=
  match n with
  | O => (1, s, e)
  | S n =>
    let '(phys, s) := vm_get_phys addr s in
    let phys := Z.land phys PAGE_MASK in
    if phys =? 0 then (0, s, e)
    else
      let '(ok, s, e) := vm_map_page addr phys flags s e in
      if ok =? 0 then (0, s, e) else protect_loop n (addr + VM_PAGE_SIZE) flags s e
  end.
Definition vm_protect_range (virt size flags : Z) (s : PagingState) (e : E) : Z * PagingState * E :=
  if size =? 0 then (1, s, e)
  else
    match range_pages virt size with
    | None => (0, s, e)
    | Some (begin, end_) => protect_loop (page_span begin end_) begin flags s e
    end.

Fixpoint protect_loop_in_root (root_phys : Z) (n : nat) (addr flags : Z) (s : PagingState) (e : E)
    : Z * PagingState * E :=
  match n with
  | O => (1, s, e)
  | S n =>
    let '(phys, s) := vm_get_phys_in_root root_phys addr s in
    let phys := Z.land phys PAGE_MASK in
    if phys =? 0 then (0, s, e)
    else
      let '(ok, s, e) := vm_map_page_in_root root_phys addr phys flags s e in
      if ok =? 0 then (0, s, e) else protect_loop_in_root root_phys n (addr + VM_PAGE_SIZE) flags s e
  end.
Definition vm_protect_range_in_root (root_phys virt size flags : Z) (s : PagingState) (e : E)
    : Z * PagingState * E :=
  if size =? 0 then (1, s, e)
  else
    match range_pages virt size with
    | None => (0, s, e)
    | Some (begin, end_) => protect_loop_in_root root_phys (page_span begin end_) begin flags s e
    end.

(** ** Allocating ranges *)

(** The answer and the number of pages mapped. *)
Fixpoint alloc_map_loop (n : nat) (begin addr mapped flags : Z) (s : PagingState) (e : E)
    : (Z * Z) * PagingState * E :=
  match n with
  | O => ((1, mapped), s, e)
  | S n =>
    let '(phys, p, e) := pmm_alloc_block (pmm s) e in
    let s := s <| pmm := p |> in
    if phys =? 0 then ((0, 0), (vm_unmap_free_range begin mapped s).2, e)
    else
      let '(ok, s, e) := vm_map_page addr phys flags s e in
      if ok =? 0 then
        let s := free_phys phys s in ((0, 0), (vm_unmap_free_range begin mapped s).2, e)
      else alloc_map_loop n begin (addr + VM_PAGE_SIZE) (u32 (mapped + 1)) flags s e
  end.
Definition vm_alloc_map_range (virt size flags : Z) (s : PagingState) (e : E) : (Z * Z) * PagingState * E :=
  if size =? 0 then ((1, 0), s, e)
  else
    match range_pages virt size with
    | None => ((0, 0), s, e)
    | Some (begin, end_) => alloc_map_loop (page_span begin end_) begin begin 0 flags s e
    end.

Fixpoint alloc_map_loop_in_root (root_phys : Z) (n : nat) (begin addr mapped flags : Z)
    (s : PagingState) (e : E) : (Z * Z) * PagingState * E :=
  match n with
  | O => ((1, mapped), s, e)
  | S n =>
    let '(phys, p, e) := pmm_alloc_block (pmm s) e in
    let s := s <| pmm := p |> in
    if phys =? 0 then ((0, 0), (vm_unmap_free_range_in_root root_phys begin mapped s).2, e)
    else
      let '(ok, s, e) := vm_map_page_in_root root_phys addr phys flags s e in
      if ok =? 0 then
        let s := free_phys phys s in
        ((0, 0), (vm_unmap_free_range_in_root root_phys begin mapped s).2, e)
      else alloc_map_loop_in_root root_phys n begin (addr + VM_PAGE_SIZE) (u32 (mapped + 1)) flags s e
  end.
Definition vm_alloc_map_range_in_root (root_phys virt size flags : Z) (s : PagingState) (e : E)
    : (Z * Z) * PagingState * E :=
  if size =? 0 then ((1, 0), s, e)
  else
    match range_pages virt size with
    | None => ((0, 0), s, e)
    | Some (begin, end_) =>
      alloc_map_loop_in_root root_phys (page_span begin end_) begin begin 0 flags s e
    end.

(** ** Releasing ranges after a TLB shoot-down *)

Context `{TlbHost E}.

(** The inner loop: pages unmapped and their physical addresses. *)
Fixpoint unmap_chunk (n : nat) (addr : Z) (s : PagingState) : list Z * PagingState :=
  match n with
  | O => ([], s)
  | S n =>
    let '(phys, s) := vm_get_phys addr s in
    let phys := Z.land phys PAGE_MASK in
    if phys =? 0 then ([], s)
    else
      let '(ok, s) := vm_unmap_page addr s in
      if ok =? 0 then ([], s)
      else let '(l, s) := unmap_chunk n (u64 (addr + VM_PAGE_SIZE)) s in (phys :: l, s)
  end.

(** The outer loop; each round retires at least one page, so [page_count]
    rounds are enough. *)
Fixpoint retire_loop (fuel : nat) (begin page_count retired : Z) (s : PagingState) (e : E)
    : Z * PagingState * E :=
  match fuel with
  | O => (retired, s, e)
  | S fuel =>
    if page_count <=? retired then (retired, s, e)
    else
      let chunk := u32 (page_count - retired) in
      let chunk := if VM_TLB_RETIRE_CHUNK_PAGES <? chunk then VM_TLB_RETIRE_CHUNK_PAGES else chunk in
      let chunk_begin := u64 (begin + retired * VM_PAGE_SIZE) in
      let '(physical, s) := unmap_chunk (Z.to_nat chunk) chunk_begin s in
      let unmapped := alen physical in
      if unmapped =? 0 then (retired, s, e)
      else
        let '(ok, e) := smp_kernel_tlb_shootdown chunk_begin unmapped e in
        if ok =? 0 then (retired, s, e)
        else
          let s := foldl (fun s phys => free_phys phys s) s physical in
          let retired := u32 (retired + unmapped) in
          if negb (unmapped =? chunk) then (retired, s, e)
          else retire_loop fuel begin page_count retired s e
  end.
Definition vm_unmap_free_range_tlb_safe (virt page_count : Z) (s : PagingState) (e : E) : Z * PagingState * E :=
  retire_loop (Z.to_nat page_count) (align_down_page virt) page_count 0 s e.

Fixpoint unmap_chunk_only (n : nat) (addr unmapped : Z) (s : PagingState) : Z * PagingState :=
  match n with
  | O => (unmapped, s)
  | S n =>
    let '(phys, s) := vm_get_phys addr s in
    if phys =? 0 then (unmapped, s)
    else
      let '(ok, s) := vm_unmap_page addr s in
      if ok =? 0 then (unmapped, s)
      else unmap_chunk_only n (u64 (addr + VM_PAGE_SIZE)) (unmapped + 1) s
  end.
Fixpoint retire_loop_only (fuel : nat) (begin page_count retired : Z) (s : PagingState) (e : E)
    : Z * PagingState * E :=
  match fuel with
  | O => (retired, s, e)
  | S fuel =>
    if page_count <=? retired then (retired, s, e)
    else
      let chunk := u32 (page_count - retired) in
      let chunk := if VM_TLB_RETIRE_CHUNK_PAGES <? chunk then VM_TLB_RETIRE_CHUNK_PAGES else chunk in
      let chunk_begin := u64 (begin + retired * VM_PAGE_SIZE) in
      let '(unmapped, s) := unmap_chunk_only (Z.to_nat chunk) chunk_begin 0 s in
      if unmapped =? 0 then (retired, s, e)
      else
        let '(ok, e) := smp_kernel_tlb_shootdown chunk_begin unmapped e in
        if ok =? 0 then (retired, s, e)
        else
          let retired := u32 (retired + unmapped) in
          if negb (unmapped =? chunk) then (retired, s, e)
          else retire_loop_only fuel begin page_count retired s e
  end.
Definition vm_unmap_range_tlb_safe (virt page_count : Z) (s : PagingState) (e : E) : Z * PagingState * E :=
  retire_loop_only (Z.to_nat page_count) (align_down_page virt) page_count 0 s e.
End Operations.
