(* ===== verification/VmSpec.v ===== *)
(** * What the range operations guarantee

    [vm_alloc_map_range] maps a fresh block at every page of a range or leaves
    every translation as it was, with the blocks it had taken for pages given
    back: what it keeps are the tables it had to add.  The proof carries which
    page of the range holds which block ([range_inv]); mapping a page inserts
    into that map, rolling back deletes from it. *)

From S2P Require Import Prelude KernelEnv Pmm PmmSpec Paging PagingSpec PagingMemory Vm.

(** ** Pages *)

Definition vpn (w : Z) : Z := (w / 4096) mod 2 ^ 36.

Lemma field_mod w k : 0 <= k -> Z.land (Z.shiftr w k) 0x1FF = (w / 2 ^ k) mod 512.
Proof. intros Hk. change 0x1FF with (2 ^ 9 - 1). by rewrite land_ones_mod, Z.shiftr_div_pow2 by lia. Qed.
Lemma vpn_fields w : vpn w = ((pml4_index w * 512 + pdpt_index w) * 512 + pd_index w) * 512 + pt_index w.
Proof.
  unfold vpn, pml4_index, pdpt_index, pd_index, pt_index. rewrite !field_mod by lia.
  replace (w / 2 ^ 21) with (w / 4096 / 512) by (rewrite Z.div_div by lia; done).
  replace (w / 2 ^ 30) with (w / 4096 / (512 * 512)) by (rewrite Z.div_div by lia; done).
  replace (w / 2 ^ 39) with (w / 4096 / (512 * 512 * 512)) by (rewrite Z.div_div by lia; done).
  change (2 ^ 12) with 4096. change (2 ^ 36) with (512 * 512 * 512 * 512). set (x := w / 4096).
  rewrite !Z.rem_mul_r by lia. lia.
Qed.
Lemma same_page_vpn v w : same_page v w <-> vpn v = vpn w.
Proof.
  unfold same_page, wpath. rewrite !vpn_fields.
  pose proof (index_range (Z.shiftr v 39)); pose proof (index_range (Z.shiftr w 39)).
  pose proof (index_range (Z.shiftr v 30)); pose proof (index_range (Z.shiftr w 30)).
  pose proof (index_range (Z.shiftr v 21)); pose proof (index_range (Z.shiftr w 21)).
  pose proof (index_range (Z.shiftr v 12)); pose proof (index_range (Z.shiftr w 12)).
  fold (pml4_index v) (pml4_index w) (pdpt_index v) (pdpt_index w) (pd_index v) (pd_index w) (pt_index v) (pt_index w) in *.
  unfold is_index in *. split; [by intros [= -> -> -> ->]|]. intros Heq.
  assert (pml4_index v = pml4_index w) as -> by lia. assert (pdpt_index v = pdpt_index w) as -> by lia.
  assert (pd_index v = pd_index w) as -> by lia. by assert (pt_index v = pt_index w) as -> by lia.
Qed.

(** Page [i] of the range that starts at the page address [b]. *)
Definition page (b i : Z) : Z := b + i * 4096.
Lemma page_same b i j : 0 <= i < 2 ^ 36 -> 0 <= j < 2 ^ 36 -> same_page (page b i) (page b j) -> i = j.
Proof.
  intros Hi Hj. rewrite same_page_vpn. unfold vpn, page. rewrite !Z.div_add by lia. intros Heq.
  assert ((i - j) mod 2 ^ 36 = 0) as Hm.
  { replace (i - j) with ((b / 4096 + i) - (b / 4096 + j)) by lia. rewrite Zminus_mod, Heq, Z.sub_diag. done. }
  apply Z.mod_divide in Hm as [k Hk]; lia.
Qed.
Lemma same_page_sym v w : same_page v w -> same_page w v.
Proof. unfold same_page. congruence. Qed.
Lemma same_page_trans u v w : same_page u v -> same_page v w -> same_page u w.
Proof. unfold same_page. congruence. Qed.

(** ** A range that is being mapped *)

(** A block that has left the free ones but is no table. *)
Definition taken (s0 s : PagingState) (f : Z) : Prop :=
  0 < f < PMM_TOTAL_BLOCKS /\ f ∈ free_set (pmm s0) /\ (f ∉ free_set (pmm s)) /\ ~ is_table s (pml4_table s0) (f * 4096).

(** [fm] tells which block each mapped page of the range holds, [h] is a block
    that is allocated and not mapped. *)
Record range_inv (s0 : PagingState) (b : Z) (fm : gmap Z Z) (h : option Z) (s : PagingState) : Prop := {
  ri_top : pml4_table s = pml4_table s0;
  ri_tables : tables_ok s (pml4_table s0);
  ri_page : forall i f, fm !! i = Some f -> 0 <= i < 2 ^ 36 /\ leaf_mapped s (pml4_table s0) (page b i) /\
    forall w, same_page (page b i) w -> walk_phys (pml4_table s0) w s = Z.lor (f * 4096) (Z.land w 0xFFF);
  ri_other : forall w, (forall i f, fm !! i = Some f -> ~ same_page (page b i) w) ->
    walk_phys (pml4_table s0) w s = walk_phys (pml4_table s0) w s0;
  ri_frame : forall i f, fm !! i = Some f -> taken s0 s f;
  ri_held : forall f, h = Some f -> taken s0 s f /\ forall i, fm !! i <> Some f;
  ri_inj : forall i j f, fm !! i = Some f -> fm !! j = Some f -> i = j;
  ri_free : free_set (pmm s) ⊆ free_set (pmm s0);
  ri_acc : forall k, 0 < k -> k ∈ free_set (pmm s0) ->
    k ∈ free_set (pmm s) \/ is_table s (pml4_table s0) (k * 4096) \/ h = Some k \/ exists i, fm !! i = Some k;
}.

Lemma range_start s b : tables_ok s (pml4_table s) -> range_inv s b ∅ None s.
Proof. intros Hok. constructor; try done. intros k _ Hk. by left. Qed.

(** The end of a roll-back. *)
Lemma range_rolled s0 b s : range_inv s0 b ∅ None s ->
  same_walks s0 s (pml4_table s0) /\ accounted s0 (pml4_table s0) s.
Proof.
  intros Hi. split; [intros w; by apply (ri_other _ _ _ _ _ Hi)|]. intros k H0 Hk.
  destruct (ri_acc _ _ _ _ _ Hi k H0 Hk) as [?|[?|[?|[i ?]]]]; [by left | by right | done | done].
Qed.

Lemma frame_addr f : 0 < f < PMM_TOTAL_BLOCKS -> is_addr (f * 4096).
Proof. rewrite PMM_TOTAL_val. intros Hf. apply addr_of_range; [lia | apply Z_mod_mult]. Qed.
Lemma table_block s root u f : tables_ok s root -> is_table s root u -> u / 4096 = f -> is_table s root (f * 4096).
Proof.
  intros Hok Hu <-. destruct Hu as (q & Hq & Ht). pose proof (tab_addr _ _ _ _ (to_root _ _ Hok) Ht) as [_ Hm]%addr_range.
  replace (u / 4096 * 4096) with u; [by exists q|]. pose proof (Z.div_mod u 4096 ltac:(lia)). lia.
Qed.

(** A change of the free blocks only. *)
Lemma pmm_only_tables s p root : tables_ok s root -> pmm_core p ->
  (forall u, is_table s root u -> u / 4096 ∉ free_set p) ->
  tables_ok (s <| pmm := p |>) root /\ same_walks s (s <| pmm := p |>) root /\
  forall q, tab (s <| pmm := p |>) root q = tab s root q.
Proof.
  intros Hok Hc Hf. set (s' := s <| pmm := p |>).
  assert (forall q, tab s' root q = tab s root q) as Ht by (intros q; apply tab_like; auto with kernel).
  split; [|split; [done|done]]. destruct Hok as [H1 H2 H3 H4 H5]. constructor; try done.
  - intros q1 q2 t Hq1 Hq2. rewrite !Ht. by apply H2.
  - intros q t Hq. rewrite Ht. intros Htq. split; [by eapply H3 | apply Hf; by exists q].
Qed.
Lemma same_is_table s s' root u : (forall q, tab s' root q = tab s root q) -> is_table s' root u <-> is_table s root u.
Proof. intros Ht. unfold is_table. by setoid_rewrite Ht. Qed.

(** A page of the range is unmapped when its entry is a leaf: by its walk. *)
Lemma leaf_by_walk s root virt pt : tab s root [pml4_index virt; pdpt_index virt; pd_index virt] = Some pt ->
  walk_phys root virt s <> 0 -> leaf_mapped s root virt.
Proof. intros Ht Hw. exists pt. split; [done|]. rewrite (walk_leaf _ _ _ _ Ht) in Hw. by destruct (has _ _). Qed.
Lemma frame_walk f w : 0 < f < PMM_TOTAL_BLOCKS -> Z.lor (f * 4096) (Z.land w 0xFFF) = f * 4096 + w mod 4096.
Proof.
  intros Hf. change 0xFFF with (2 ^ 12 - 1). rewrite land_ones_mod by lia. change 4096 with (2 ^ 12) at 1.
  rewrite lor_shifted by (first [lia | apply Z.mod_pos_bound; lia]). done.
Qed.

Lemma leaf_by_frame s root virt pt f : tab s root [pml4_index virt; pdpt_index virt; pd_index virt] = Some pt ->
  0 < f < PMM_TOTAL_BLOCKS -> walk_phys root virt s = Z.lor (f * 4096) (Z.land virt 0xFFF) -> leaf_mapped s root virt.
Proof.
  intros Ht Hf Hw. apply (leaf_by_walk _ _ _ pt Ht). rewrite Hw, frame_walk by done.
  pose proof (Z.mod_pos_bound virt 4096 ltac:(lia)). lia.
Qed.

Section Steps.
Context (s0 : PagingState) (b : Z).

(** Giving back the block that is held. *)
Lemma range_give_back fm f s : range_inv s0 b fm (Some f) s -> range_inv s0 b fm None (free_phys (f * 4096) s).
Proof.
  intros [H1 H2 H3 H4 H5 H6 H7 H8 H9]. destruct (H6 f eq_refl) as [(Hf & Hf0 & Hnf & Hnt) Hnm]. unfold free_phys.
  destruct (free_block_ok (f * 4096) f (pmm s) (to_pmm _ _ H2)) as [Hc Hset].
  { unfold PMM_PAGE_SIZE. rewrite Z.div_mul by lia. apply u32_small. rewrite PMM_TOTAL_val in Hf. unfold is_u32. lia. }
  { lia. }
  destruct (pmm_only_tables s (pmm_free_block (f * 4096) (pmm s)) (pml4_table s0) H2 Hc) as (T & W & Ht).
  { intros u Hu. rewrite Hset, elem_of_union, elem_of_singleton. intros [Hx|Hx].
    - destruct Hu as (q & Hq & Hu). by destruct (to_used _ _ H2 q u Hq Hu).
    - apply Hnt. by eapply table_block. }
  set (s' := s <| pmm := _ |>) in *. assert (free_set (pmm s') = free_set (pmm s) ∪ {[f]}) as Hfs by done.
  assert (forall g, taken s0 s g -> g <> f -> taken s0 s' g) as Htk.
  { intros g (A & B & C & D) Hne. unfold taken. rewrite Hfs, (same_is_table s s') by done. split_and!; [lia | lia | done | set_solver | done]. }
  constructor; try done.
  - intros i g Hg. apply Htk; [by eapply H5|]. intros ->. by apply (Hnm i).
  - rewrite Hfs. set_solver.
  - intros k H0 Hk. rewrite Hfs, (same_is_table s s') by done. destruct (H9 k H0 Hk) as [?|[?|[[= ->]|?]]]; [set_solver | auto | set_solver | auto].
Qed.

(** Unmapping a page of the range makes its block the one that is held. *)
Lemma range_unmap fm i f s : range_inv s0 b fm None s -> fm !! i = Some f ->
  (forall w, same_page (page b i) w -> walk_phys (pml4_table s0) w s0 = 0) ->
  let r := walk_unmap (pml4_table s0) (page b i) s in r.1 = 1 /\ range_inv s0 b (delete i fm) (Some f) r.2.
Proof.
  intros [H1 H2 H3 H4 H5 H6 H7 H8 H9] Hf Hz. cbv zeta. destruct (H3 i f Hf) as (Hi & Hlf & _).
  destruct (unmap_ok s (pml4_table s0) (page b i) H2) as [(_ & _ & Hn)|(-> & _ & T & Ht & Hpm & Hp & _ & _ & _ & Hw)]; [done|].
  split; [done|]. set (s' := (walk_unmap (pml4_table s0) (page b i) s).2) in *.
  assert (forall g, taken s0 s g -> taken s0 s' g) as Htk.
  { intros g (A & B & C & D). unfold taken. rewrite Hpm. split_and!; try done; try lia.
    intros (q & Hq & Hu). apply D. exists q. by rewrite <- Ht. }
  assert (forall j g, delete i fm !! j = Some g -> fm !! j = Some g /\ ~ same_page (page b i) (page b j)) as Hdel.
  { intros j g [Hne Hg]%lookup_delete_Some. split; [done|]. intros Hs. apply Hne. apply (page_same b); [done | by apply (H3 j g) | done]. }
  constructor; try done.
  - by rewrite Hp.
  - intros j g [Hg Hne]%Hdel. destruct (H3 j g Hg) as (A & (pt & B1 & B2) & C). split; [exact A|]. split.
    + apply (leaf_by_frame _ _ _ pt g); [by rewrite Ht by apply path_3 | apply (H5 j g Hg)|]. rewrite Hw, decide_False by done. by apply C.
    + intros w Hsw. rewrite Hw, decide_False; [by apply C|]. intros Hs. apply Hne. by eapply same_page_trans, same_page_sym.
  - intros w Hn. rewrite Hw. destruct (decide (same_page (page b i) w)) as [Hs|Hs]; [by rewrite Hz|].
    apply H4. intros j g Hg. destruct (decide (j = i)) as [->|Hne]; [done|]. apply (Hn j g). by apply lookup_delete_Some.
  - intros j g [Hg _]%Hdel. apply Htk. by eapply H5.
  - intros g [= <-]. split; [by apply Htk, (H5 i)|]. intros j Hj. apply lookup_delete_Some in Hj as [Hne Hj]. apply Hne. by apply (H7 i j f).
  - intros j1 j2 g [Hg1 _]%Hdel [Hg2 _]%Hdel. by eapply H7.
  - by rewrite Hpm.
  - intros k H0 Hk. rewrite Hpm. destruct (H9 k H0 Hk) as [?|[(q & Hq & Hu)|[?|[j Hj]]]]; [by left | | done |].
    + right. left. exists q. by rewrite Ht.
    + right. right. destruct (decide (j = i)) as [->|Hne]; [left; congruence|]. right. exists j. by apply lookup_delete_Some.
Qed.

Context {E : Type} `{KernelEnv E}.
Implicit Type e : E.

(** Taking a block. *)
Lemma range_take fm s e : range_inv s0 b fm None s -> let r := pmm_alloc_block (pmm s) e in
  let s1 := s <| pmm := r.1.2 |> in
  (r.1.1 = 0 /\ range_inv s0 b fm None s1) \/ exists f, r.1.1 = f * 4096 /\ f <> 0 /\ range_inv s0 b fm (Some f) s1.
Proof.
  intros [H1 H2 H3 H4 H5 H6 H7 H8 H9]. cbv zeta. destruct (alloc_block_fresh (pmm s) e (to_pmm _ _ H2)) as (Hc & Hsub & Hnew).
  pose proof (alloc_block_taken (pmm s) e (to_pmm _ _ H2)) as Htk. cbv zeta in Htk.
  destruct (pmm_alloc_block (pmm s) e) as [[addr p] e1]. cbn [fst snd] in *.
  destruct (pmm_only_tables s p (pml4_table s0) H2 Hc) as (T & W & Ht).
  { intros u (q & Hq & Hu). destruct (to_used _ _ H2 q u Hq Hu). set_solver. }
  set (s1 := s <| pmm := p |>) in *. assert (pmm s1 = p) as Hp by done.
  assert (forall g, taken s0 s g -> taken s0 s1 g) as Hkeep.
  { intros g (A & B & C & D). unfold taken. rewrite (same_is_table s s1), Hp by done. split_and!; try done; try lia. set_solver. }
  destruct (decide (addr = 0)) as [->|Hne].
  - left. split; [done|]. constructor; try done; [by eauto | set_solver |]. intros k H0 Hk. rewrite (same_is_table s s1), Hp by done.
    destruct (H9 k H0 Hk) as [Hk'|?]; [|by right]. destruct (Htk k H0 Hk'); [by left | lia].
  - right. destruct (Hnew Hne) as (f & -> & Hf & Hr & Hset). exists f. split; [done|]. split; [lia|].
    assert (taken s0 s1 f) as Hfk.
    { split; [lia|]. split; [set_solver|]. rewrite (same_is_table s s1), Hp by done. split; [set_solver|].
      intros (q & Hq & Hu). destruct (to_used _ _ H2 q _ Hq Hu) as [_ Hnf]. rewrite Z.div_mul in Hnf by lia. done. }
    constructor; try done; [by eauto | | set_solver |].
    + intros g [= <-]. split; [done|]. intros i Hi. by destruct (H5 i f Hi) as (_ & _ & ? & _).
    + intros k H0 Hk. rewrite (same_is_table s s1), Hp by done. destruct (H9 k H0 Hk) as [Hk'|[?|[?|?]]]; [| auto | done | auto].
      destruct (Htk k H0 Hk') as [?|?]; [by left|]. right. right. left. f_equal. lia.
Qed.

(** Across a mapping, which takes blocks for tables only. *)
Lemma taken_grows s s' g : grows s (pml4_table s0) s' -> taken s0 s g -> taken s0 s' g.
Proof.
  intros G (A & B & C & D). pose proof (gr_free _ _ _ G). split; [done|]. split; [done|]. split; [set_solver|].
  intros Hu. destruct (gr_new _ _ _ G _ Hu) as [?|Hx]; [done|]. rewrite Z.div_mul in Hx by lia. done.
Qed.
Lemma range_grows fm h s s' : range_inv s0 b fm h s -> pml4_table s' = pml4_table s -> tables_ok s' (pml4_table s0) ->
  grows s (pml4_table s0) s' -> accounted s (pml4_table s0) s' -> same_walks s s' (pml4_table s0) -> range_inv s0 b fm h s'.
Proof.
  intros [H1 H2 H3 H4 H5 H6 H7 H8 H9] Hp T G Hacc Hw. constructor; try done.
  - by rewrite Hp.
  - intros j g Hg. destruct (H3 j g Hg) as (A & (pt & B1 & B2) & C). split; [exact A|]. split; [|intros w Hsw; rewrite Hw; by apply C].
    apply (leaf_by_frame _ _ _ pt g); [by apply (gr_stay _ _ _ G), B1; apply path_3 | apply (H5 j g Hg) | rewrite Hw; by apply C].
  - intros w Hn. rewrite Hw. by apply H4.
  - intros j g Hg. eapply taken_grows; eauto.
  - intros g Hg. destruct (H6 g Hg). split; [by eapply taken_grows | done].
  - pose proof (gr_free _ _ _ G). set_solver.
  - intros k H0 Hk. destruct (H9 k H0 Hk) as [Hx|[(q & Hq & Hu)|Hx]]; [| |auto].
    + destruct (Hacc k H0 Hx); auto.
    + right. left. exists q. split; [done | by apply (gr_stay _ _ _ G)].
Qed.
Lemma range_grows_page fm f i s s' : range_inv s0 b fm (Some f) s -> fm !! i = None -> 0 <= i < 2 ^ 36 ->
  pml4_table s' = pml4_table s -> tables_ok s' (pml4_table s0) -> grows s (pml4_table s0) s' -> accounted s (pml4_table s0) s' ->
  mapped_exactly s (pml4_table s0) (page b i) (f * 4096) s' -> leaf_mapped s' (pml4_table s0) (page b i) ->
  range_inv s0 b (<[i := f]> fm) None s'.
Proof.
  intros [H1 H2 H3 H4 H5 H6 H7 H8 H9] Hfm Hi Hp T G Hacc Hm Hlf. destruct (H6 f eq_refl) as [Htf Hnf].
  assert (forall j g, fm !! j = Some g -> ~ same_page (page b i) (page b j)) as Hne.
  { intros j g Hg Hs. apply page_same in Hs as ->; [congruence | done | by apply (H3 j g)]. }
  constructor; try done.
  - by rewrite Hp.
  - intros j g [[<- <-]|[Hij Hg]]%lookup_insert_Some.
    + split; [done|]. split; [done|]. intros w Hsw. rewrite Hm, decide_True, (frame_addr f) by (done || apply Htf). done.
    + destruct (H3 j g Hg) as (A & (pt & B1 & B2) & C). split; [exact A|].
      assert (forall w, same_page (page b j) w -> walk_phys (pml4_table s0) w s' = Z.lor (g * 4096) (Z.land w 0xFFF)) as Hwj.
      { intros w Hsw. rewrite Hm, decide_False; [by apply C|]. intros Hs. apply (Hne j g Hg). by eapply same_page_trans, same_page_sym. }
      split; [|done]. apply (leaf_by_frame _ _ _ pt g); [by apply (gr_stay _ _ _ G), B1; apply path_3 | apply (H5 j g Hg) | by apply Hwj].
  - intros w Hn. rewrite Hm, decide_False; [|by apply (Hn i f), lookup_insert_eq].
    apply H4. intros j g Hg. apply (Hn j g). rewrite lookup_insert_ne; [done | congruence].
  - intros j g [[<- <-]|[_ Hg]]%lookup_insert_Some; eapply taken_grows; eauto.
  - intros j1 j2 g [[<- <-]|[_ Hg1]]%lookup_insert_Some [[<- Hx]|[_ Hg2]]%lookup_insert_Some; try done;
      [by destruct (Hnf j2) | subst; by destruct (Hnf j1) | by eapply H7].
  - pose proof (gr_free _ _ _ G). set_solver.
  - intros k H0 Hk. destruct (H9 k H0 Hk) as [Hx|[(q & Hq & Hu)|[[= <-]|[j Hj]]]].
    + destruct (Hacc k H0 Hx); auto.
    + right. left. exists q. split; [done | by apply (gr_stay _ _ _ G)].
    + do 3 right. exists i. apply lookup_insert_eq.
    + do 3 right. exists j. rewrite lookup_insert_ne; [done | congruence].
Qed.

(** Mapping the block that is held. *)
Lemma range_map fm f i s flags e : range_inv s0 b fm (Some f) s -> fm !! i = None -> 0 <= i < 2 ^ 36 -> Z.land flags ENTRY_ADDRESS = 0 ->
  let r := vm_map_page (page b i) (f * 4096) flags s e in
  (r.1.1 = 0 /\ range_inv s0 b fm (Some f) r.1.2) \/ (r.1.1 = 1 /\ range_inv s0 b (<[i := f]> fm) None r.1.2).
Proof.
  intros Hr Hfm Hi Hfl. cbv zeta. pose proof (ri_top _ _ _ _ _ Hr) as H1. pose proof (ri_tables _ _ _ _ _ Hr) as H2.
  assert (pml4_table s <> 0) as H0 by (rewrite H1; apply (to_used _ _ H2 [] _ path_nil eq_refl)). rewrite <- H1 in H2.
  pose proof (map_page_ok s (page b i) (f * 4096) flags e H0 H2 Hfl) as Ho.
  pose proof (map_page_took s (page b i) (f * 4096) flags e H2 Hfl) as [(Hacc & _) _]. cbv zeta in Ho.
  change (arch_vm_map_page (page b i)) with (vm_map_page (page b i)) in *. revert Ho Hacc.
  generalize (vm_map_page (page b i) (f * 4096) flags s e). intros [[ok s'] e']. cbn [fst snd]. rewrite H1.
  intros [(T & Hp & _ & _ & Hc) G] Hacc. destruct Hc as [(-> & Hw & _)|(-> & Hm & _ & Hlf)]; [left | right]; (split; [done|]).
  - eapply range_grows; [exact Hr | congruence | done..].
  - eapply range_grows_page; [exact Hr | done | done | congruence | done..].
Qed.

(** One round of [vm_alloc_map_range]: taking a block, and mapping it. *)
Lemma pmm_only_spends s p root n : pmm_core p -> (forall q, tab (s <| pmm := p |>) root q = tab s root q) ->
  (0 ∉ free_set (pmm s) -> (size (free_set (pmm s)) <= size (free_set p) + n)%nat) -> keeps_small s root (s <| pmm := p |>) /\ takes_at_most n s (s <| pmm := p |>).
Proof. intros Hc Ht Hm. split; [|done]. intros q u j _ _. rewrite Ht. done. Qed.
Lemma take_round fm s e : range_inv s0 b fm None s -> let r := pmm_alloc_block (pmm s) e in let s1 := s <| pmm := r.1.2 |> in
  (r.1.1 = 0 /\ range_inv s0 b fm None s1 /\ (no_fault E -> ~ has_room s)) \/
  exists f, r.1.1 = f * 4096 /\ f <> 0 /\ range_inv s0 b fm (Some f) s1 /\ (forall n, room (1 + n) s -> room n s1) /\
    forall v, no_giant s (pml4_table s0) v -> no_giant s1 (pml4_table s0) v.
Proof.
  intros Hr. cbv zeta. pose proof (ri_tables _ _ _ _ _ Hr) as H2.
  pose proof (fun Hnf Hrm => alloc_block_works (pmm s) e (to_pmm _ _ H2) (proj1 Hrm) (proj2 Hrm) (Hnf e)) as Hworks.
  pose proof (proj2 (allocate_taken s e (to_pmm _ _ H2))) as Hm. unfold takes_at_most in Hm. rewrite (proj2 (allocate_pmm s e)) in Hm.
  destruct (alloc_block_fresh (pmm s) e (to_pmm _ _ H2)) as (Hc & Hsub & _). destruct (range_take fm s e Hr) as [[E0 Hr1]|(f & E0 & Hf0 & Hr1)].
  - left. split; [done|]. split; [done|]. intros Hnf Hrm. by destruct (Hworks Hnf Hrm).
  - right. exists f. destruct (pmm_alloc_block (pmm s) e) as [[addr p] e1]. cbn [fst snd] in *. subst addr. split; [done|]. split; [done|]. split; [done|].
    set (s1 := s <| pmm := p |>) in *.
    assert (forall q, tab s1 (pml4_table s0) q = tab s (pml4_table s0) q) as Ht by (intros q; apply tab_like; auto with kernel).
    destruct (pmm_only_spends s p (pml4_table s0) 1 Hc Ht Hm) as [Hk1 Hm1]. fold s1 in Hk1, Hm1.
    assert (grows s (pml4_table s0) s1) as G1 by (by apply grows_same). split; [|intros v; by apply no_giant_keeps].
    intros n Hrm. by apply (room_step n 1 s s1 (pml4_table s0)).
Qed.
Lemma map_round fm f j s flags e : range_inv s0 b fm (Some f) s -> fm !! j = None -> 0 <= j < 2 ^ 36 -> Z.land flags ENTRY_ADDRESS = 0 ->
  let r := vm_map_page (page b j) (f * 4096) flags s e in let s2 := r.1.2 in
  (r.1.1 = 0 /\ range_inv s0 b fm None (free_phys (f * 4096) s2) /\ (no_fault E -> room 3 s -> ~ no_giant s (pml4_table s0) (page b j))) \/
  (r.1.1 = 1 /\ range_inv s0 b (<[j := f]> fm) None s2 /\ (forall n, room (3 + n) s -> room n s2) /\ forall v, no_giant s (pml4_table s0) v -> no_giant s2 (pml4_table s0) v).
Proof.
  intros Hr Hfm Hj Hfl. cbv zeta. pose proof (ri_top _ _ _ _ _ Hr) as T1. pose proof (ri_tables _ _ _ _ _ Hr) as T2.
  rewrite <- T1 in T2. pose proof (map_page_took s (page b j) (f * 4096) flags e T2 Hfl) as Htook.
  assert (pml4_table s <> 0) as H0 by apply (to_used _ _ T2 [] _ path_nil eq_refl).
  pose proof (map_page_ok s (page b j) (f * 4096) flags e H0 T2 Hfl) as [_ G2].
  pose proof (range_map fm f j s flags e Hr Hfm Hj Hfl) as Hmap. cbv zeta in Htook, Hmap. unfold vm_map_page in *.
  revert Htook G2 Hmap. generalize (arch_vm_map_page (page b j) (f * 4096) flags s e). intros [[ok s2] e2]. cbn [fst snd]. rewrite T1.
  intros [(_ & Hm2 & Hk2) Hw] G2 Hmap. destruct Hmap as [[-> Hr2]|[-> Hr2]]; [left | right]; (split; [done|]).
  - split; [by apply range_give_back|]. intros Hnf Hrm Hng. assert (0 = 1) as Hx; [by apply Hw | done].
  - split; [done|]. split; [|intros v Hv; by eapply no_giant_keeps]. intros n Hrm. by apply (room_step n 3 s s2 (pml4_table s0)).
Qed.
Lemma alloc_round fm j s flags e : range_inv s0 b fm None s -> fm !! j = None -> 0 <= j < 2 ^ 36 -> Z.land flags ENTRY_ADDRESS = 0 ->
  let r := pmm_alloc_block (pmm s) e in let s1 := s <| pmm := r.1.2 |> in
  if r.1.1 =? 0 then range_inv s0 b fm None s1 /\ (no_fault E -> ~ has_room s)
  else
    let r' := vm_map_page (page b j) r.1.1 flags s1 r.2 in let s2 := r'.1.2 in
    if r'.1.1 =? 0 then range_inv s0 b fm None (free_phys r.1.1 s2) /\ (no_fault E -> room 4 s -> ~ no_giant s (pml4_table s0) (page b j))
    else (exists f, range_inv s0 b (<[j := f]> fm) None s2) /\ (forall n, room (4 + n) s -> room n s2) /\
      forall v, no_giant s (pml4_table s0) v -> no_giant s2 (pml4_table s0) v.
Proof.
  intros Hr Hfm Hj Hfl. cbv zeta. destruct (take_round fm s e Hr) as [(E0 & Hr1 & Hn)|(f & E0 & Hf0 & Hr1 & Hroom & Hg)]; rewrite E0; [done|].
  rewrite (proj2 (Z.eqb_neq _ 0)) by lia.
  destruct (map_round fm f j _ flags (pmm_alloc_block (pmm s) e).2 Hr1 Hfm Hj Hfl) as [(E1 & Hr2 & Hn)|(E1 & Hr2 & Hroom2 & Hg2)]; rewrite E1; cbn [Z.eqb].
  - split; [done|]. intros Hnf Hrm Hng. apply Hn; [done | by apply Hroom | by apply Hg].
  - split; [by exists f|]. split; [|intros v Hv; by apply Hg2, Hg]. intros n Hrm. by apply Hroom2, Hroom.
Qed.
End Steps.

(** ** Rolling back *)

Lemma page_mask x : is_u64 x -> Z.land x PAGE_MASK = x / 4096 * 4096.
Proof. intros Hx. exact (land_not64 x 12 Hx ltac:(lia)). Qed.
Lemma frame_of_walk f w : 0 < f < PMM_TOTAL_BLOCKS -> Z.land (Z.lor (f * 4096) (Z.land w 0xFFF)) PAGE_MASK = f * 4096.
Proof.
  intros Hf. rewrite frame_walk by done. pose proof (Z.mod_pos_bound w 4096 ltac:(lia)). rewrite PMM_TOTAL_val in Hf.
  rewrite page_mask by (unfold is_u64; lia). rewrite Z.div_add_l, (Z.div_small (w mod 4096)) by lia. lia.
Qed.

Section Range.
Context (s0 : PagingState) (b : Z).

Lemma unmap_free_page fm i f s : range_inv s0 b fm None s -> fm !! i = Some f ->
  (forall w, same_page (page b i) w -> walk_phys (pml4_table s0) w s0 = 0) ->
  let r := unmap_free_one (page b i) s in r.1 = 1 /\ range_inv s0 b (delete i fm) None r.2.
Proof.
  intros Hr Hf Hz. cbv zeta. unfold unmap_free_one, vm_get_phys, vm_unmap_page, arch_vm_unmap_page.
  pose proof (ri_tables _ _ _ _ _ Hr) as Hok. rewrite <- (ri_top _ _ _ _ _ Hr) in Hok.
  rewrite get_phys_walk, init_done, (ri_top _ _ _ _ _ Hr) by done.
  rewrite (proj2 (proj2 (ri_page _ _ _ _ _ Hr i f Hf))) by done. destruct (ri_frame _ _ _ _ _ Hr i f Hf) as [Hft _].
  rewrite frame_of_walk by done. pose proof (range_unmap s0 b fm i f s Hr Hf Hz) as Hu. cbv zeta in Hu.
  destruct (walk_unmap (pml4_table s0) (page b i) s) as [ok s']. cbn [fst snd] in Hu. destruct Hu as [-> Hr'].
  change (1 =? 0) with false. cbn [fst snd]. split; [done|]. unfold nonzero. rewrite (proj2 (Z.eqb_neq (f * 4096) 0)) by lia.
  by apply range_give_back.
Qed.

(** The pages whose blocks are mapped: [j] to [j + n]. *)
Definition covers (fm : gmap Z Z) (j : Z) (n : nat) : Prop := forall i, is_Some (fm !! i) <-> j <= i < j + Z.of_nat n.
Lemma covers_empty fm j : covers fm j 0 -> fm = ∅.
Proof. intros Hc. apply map_empty. intros i. apply eq_None_not_Some. rewrite (Hc i). lia. Qed.
Lemma covers_delete fm j n : covers fm j (S n) -> covers (delete j fm) (j + 1) n.
Proof.
  intros Hc i. destruct (decide (i = j)) as [->|Hne].
  - rewrite lookup_delete_eq. split; [by intros [? ?] | lia].
  - rewrite lookup_delete_ne, (Hc i) by done. lia.
Qed.
Lemma covers_insert fm f n : covers fm 0 n -> covers (<[Z.of_nat n := f]> fm) 0 (S n).
Proof.
  intros Hc i. destruct (decide (i = Z.of_nat n)) as [->|Hne].
  - rewrite lookup_insert_eq. split; [lia | by eauto].
  - rewrite lookup_insert_ne, (Hc i) by done. lia.
Qed.

Definition range_unmapped (j : Z) (n : nat) : Prop :=
  forall i w, j <= i < j + Z.of_nat n -> same_page (page b i) w -> walk_phys (pml4_table s0) w s0 = 0.

Lemma unmap_loop_ok n : forall fm j addr unmapped s, range_inv s0 b fm None s -> covers fm j n -> range_unmapped j n ->
  (n = 0%nat \/ addr = page b j) -> 0 <= b -> 0 <= j -> page b (j + Z.of_nat n) <= 2 ^ 64 ->
  let r := unmap_free_loop n addr unmapped s in range_inv s0 b ∅ None r.2 /\ (is_u32 unmapped -> r.1 = u32 (unmapped + Z.of_nat n)).
Proof.
  induction n as [|n IH]; intros fm j addr unmapped s Hr Hc Hz Ha Hb Hj Hle; cbn [unmap_free_loop].
  - rewrite (covers_empty fm j Hc) in Hr. split; [done|]. intros Hu. cbn [fst]. rewrite Z.add_0_r. by rewrite u32_small.
  - destruct Ha as [?| ->]; [done|]. destruct (proj2 (Hc j) ltac:(lia)) as [f Hf].
    pose proof (unmap_free_page fm j f s Hr Hf (fun w => Hz j w ltac:(lia))) as Hu. cbv zeta in Hu.
    destruct (unmap_free_one (page b j) s) as [k s1]. cbn [fst snd] in Hu. destruct Hu as [-> Hr1].
    destruct (IH (delete j fm) (j + 1) (u64 (page b j + VM_PAGE_SIZE)) (u32 (unmapped + 1)) s1 Hr1 (covers_delete _ _ _ Hc)) as [Hr2 Hu2]; [| | done | lia | |].
    + intros i w Hi. apply Hz. lia.
    + destruct n as [|n]; [by left | right]. unfold page, VM_PAGE_SIZE in *. rewrite u64_small; [lia | unfold is_u64; lia].
    + unfold page in *. lia.
    + split; [done|]. intros Hu. rewrite Hu2 by apply u32_range. unfold u32. rewrite Zplus_mod_idemp_l. f_equal. lia.
Qed.
Lemma unmap_range_ok fm s m : range_inv s0 b fm None s -> covers fm 0 (Z.to_nat m) -> range_unmapped 0 (Z.to_nat m) ->
  0 <= b -> b mod 4096 = 0 -> 0 <= m < 2 ^ 32 -> page b m <= 2 ^ 64 ->
  range_inv s0 b ∅ None (vm_unmap_free_range b m s).2 /\ (vm_unmap_free_range b m s).1 = m.
Proof.
  intros Hr Hc Hz Hb Ha Hm Hle. unfold vm_unmap_free_range, align_down_page. pose proof (Z.div_mod b 4096 ltac:(lia)) as Hk.
  destruct (decide (m = 0)) as [->|Hne].
  { cbn [Z.to_nat unmap_free_loop fst snd]. by rewrite (covers_empty fm 0 Hc) in Hr. }
  rewrite page_mask by (unfold is_u64, page in *; lia).
  destruct (unmap_loop_ok (Z.to_nat m) fm 0 (b / 4096 * 4096) 0 s Hr Hc Hz) as [H1 H2]; [right; unfold page; lia | lia | lia | by rewrite Z2Nat.id by lia|].
  split; [done|]. rewrite H2 by (unfold is_u32; lia). rewrite Z2Nat.id, u32_small by (unfold is_u32; lia). lia.
Qed.

Context {E : Type} `{KernelEnv E}.

(** The answers of [vm_alloc_map_range] for the pages [0] to [m]. *)
Definition alloc_answer (m : nat) (ok count : Z) (s : PagingState) : Prop :=
  (ok = 0 /\ count = 0 /\ range_inv s0 b ∅ None s) \/
  (ok = 1 /\ count = Z.of_nat m /\ exists fm, covers fm 0 m /\ range_inv s0 b fm None s).

Lemma alloc_loop_ok n : forall m fm flags s (e : E), range_inv s0 b fm None s -> covers fm 0 m -> range_unmapped 0 (m + n) ->
  Z.land flags ENTRY_ADDRESS = 0 -> 0 <= b -> b mod 4096 = 0 -> Z.of_nat (m + n) < 2 ^ 32 -> page b (Z.of_nat (m + n)) <= 2 ^ 64 ->
  let r := alloc_map_loop n b (page b (Z.of_nat m)) (Z.of_nat m) flags s e in
  alloc_answer (m + n) r.1.1.1 r.1.1.2 r.1.2 /\
  (no_fault E -> room (4 * n) s -> (forall i, 0 <= i < Z.of_nat (m + n) -> no_giant s (pml4_table s0) (page b i)) -> r.1.1.1 = 1).
Proof.
  induction n as [|n IH]; intros m fm flags s e Hr Hc Hz Hfl Hb Ha Hlt Hle; cbn [alloc_map_loop].
  { split; [right | done]. rewrite Nat.add_0_r. split; [done|]. split; [done|]. by exists fm. }
  assert (forall s', range_inv s0 b fm None s' -> alloc_answer (m + S n) 0 0 (vm_unmap_free_range b (Z.of_nat m) s').2) as Hback.
  { intros s' Hr'. left. split; [done|]. split; [done|].
    apply (unmap_range_ok fm s' (Z.of_nat m)); rewrite ?Nat2Z.id; try done; [| lia | unfold page in *; lia].
    intros i w Hi. apply Hz. lia. }
  assert (fm !! Z.of_nat m = None) as Hfm by (apply eq_None_not_Some; rewrite (Hc _); lia).
  pose proof (alloc_round s0 b fm (Z.of_nat m) s flags e Hr Hfm ltac:(lia) Hfl) as Hround. cbv zeta in Hround.
  destruct (pmm_alloc_block (pmm s) e) as [[phys p] e1]. cbn [fst snd] in Hround. set (s1 := s <| pmm := p |>) in *.
  destruct (phys =? 0). { destruct Hround as [Hr1 Hw]. split; [by apply Hback|]. intros Hnf Hrm. by destruct (Hw Hnf (room_has _ _ Hrm)). }
  destruct (vm_map_page (page b (Z.of_nat m)) phys flags s1 e1) as [[ok s2] e2]. cbn [fst snd] in Hround.
  destruct (ok =? 0).
  { destruct Hround as [Hr1 Hw]. split; [by apply Hback|]. intros Hnf Hrm Hng. exfalso. apply Hw; [done | | apply Hng; lia].
    destruct Hrm. split; [done | lia]. }
  destruct Hround as ((f & Hr2) & Hroom & Hgiant). replace (m + S n)%nat with (S m + n)%nat in * by lia.
  replace (page b (Z.of_nat m) + VM_PAGE_SIZE) with (page b (Z.of_nat (S m))) by (unfold page, VM_PAGE_SIZE; lia).
  rewrite u32_small by (unfold is_u32; lia). replace (Z.of_nat m + 1) with (Z.of_nat (S m)) by lia.
  destruct (IH (S m) _ flags s2 e2 Hr2 (covers_insert fm f m Hc) Hz Hfl Hb Ha Hlt Hle) as [Hans Hw]. split; [done|].
  intros Hnf Hrm Hng. apply Hw; [done | apply Hroom; by replace (4 + 4 * n)%nat with (4 * S n)%nat by lia |].
  intros i Hi. by apply Hgiant, Hng.
Qed.
End Range.

(** ** The contracts *)

(** The pages of [[virt, virt + size)], for a range that does not reach the end
    of the address space. *)
Definition first_page (virt : Z) : Z := virt / 4096 * 4096.
Definition page_count (virt size : Z) : Z := (virt + size + 4095) / 4096 - virt / 4096.
Record range_args (virt size : Z) : Prop := {
  ra_virt : 0 <= virt;
  ra_size : 0 < size;
  ra_end : virt + size + 4095 < 2 ^ 64;
  ra_count : page_count virt size < 2 ^ 32;
}.
Lemma range_pages_is virt size : range_args virt size -> 0 < page_count virt size /\
  range_pages virt size = Some (first_page virt, page (first_page virt) (page_count virt size)) /\
  page (first_page virt) (page_count virt size) <= 2 ^ 64 /\
  page_span (first_page virt) (page (first_page virt) (page_count virt size)) = Z.to_nat (page_count virt size).
Proof.
  intros [Hv Hs He Hc]. unfold range_pages, align_down_page, align_up_page, first_page, page, page_count, page_span, VM_PAGE_SIZE in *.
  rewrite (u64_small (virt + size)), u64_small, !page_mask by (unfold is_u64; lia).
  replace (virt + size + 4096 - 1) with (virt + size + 4095) by lia.
  set (x := virt / 4096) in *. set (y := (virt + size + 4095) / 4096) in *.
  assert (x < y) as Hxy by (unfold x, y; rewrite <- (Z.div_mul 4096 4096) at 1 by lia; Z.to_euclidean_division_equations; lia).
  assert (y * 4096 <= virt + size + 4095) as Hy by (unfold y; pose proof (Z.mul_div_le (virt + size + 4095) 4096 ltac:(lia)); lia).
  replace (x * 4096 + (y - x) * 4096) with (y * 4096) by lia. rewrite (proj2 (Z.ltb_ge _ _)) by lia.
  split; [lia|]. split; [done|]. split; [lia|]. f_equal. replace (y * 4096 - x * 4096) with ((y - x) * 4096) by lia. apply Z.div_mul. lia.
Qed.

(** No address of the range's pages is translated. *)
Definition unmapped_range (s : PagingState) (virt size : Z) : Prop :=
  forall i w, 0 <= i < page_count virt size -> same_page (page (first_page virt) i) w -> (arch_vm_get_phys w s).1 = 0.

Lemma alloc_range_answer {E : Type} `{KernelEnv E} s (e : E) virt size flags :
  tables_ok s (pml4_table s) -> range_args virt size -> unmapped_range s virt size -> Z.land flags ENTRY_ADDRESS = 0 ->
  let r := vm_alloc_map_range virt size flags s e in
  alloc_answer s (first_page virt) (Z.to_nat (page_count virt size)) r.1.1.1 r.1.1.2 r.1.2 /\
  (no_fault E -> room (4 * Z.to_nat (page_count virt size)) s ->
    (forall i, 0 <= i < page_count virt size -> no_giant s (pml4_table s) (page (first_page virt) i)) -> r.1.1.1 = 1).
Proof.
  intros Hok Hra Hz Hfl. cbv zeta. unfold vm_alloc_map_range. destruct (range_pages_is virt size Hra) as (Hpos & Hrp & Hle & Hsp).
  rewrite (proj2 (Z.eqb_neq size 0)), Hrp, Hsp by (destruct Hra; lia). set (n := Z.to_nat (page_count virt size)) in *.
  assert (Z.of_nat n = page_count virt size) as Hn by (unfold n; rewrite Z2Nat.id; lia).
  assert (0 <= first_page virt /\ first_page virt mod 4096 = 0) as [Hb Ha].
  { unfold first_page. split; [|apply Z_mod_mult]. destruct Hra. pose proof (Z.div_pos virt 4096 ltac:(lia) ltac:(lia)). lia. }
  destruct (alloc_loop_ok s (first_page virt) n 0 ∅ flags s e (range_start s (first_page virt) Hok)) as [Hans Hw]; try done.
  - intros i. rewrite lookup_empty. split; [by intros [? ?] | lia].
  - intros i w Hi Hs. rewrite <- (Hz i w ltac:(lia) Hs), get_phys_walk by done. done.
  - cbn [Nat.add]. rewrite Hn. apply Hra.
  - cbn [Nat.add]. by rewrite Hn.
  - replace (page (first_page virt) (Z.of_nat 0)) with (first_page virt) in Hans, Hw by (unfold page; lia). cbn [Z.of_nat Nat.add] in Hans, Hw.
    split; [done|]. intros Hnf Hrm Hng. apply Hw; [done | done |]. intros i Hi. apply Hng. lia.
Qed.

(** Translations after a range was mapped. *)
Definition range_mapped (s : PagingState) (virt size : Z) (frame : Z -> Z) (s' : PagingState) : Prop :=
  (forall i w, 0 <= i < page_count virt size -> same_page (page (first_page virt) i) w ->
     (arch_vm_get_phys w s').1 = Z.lor (frame i * 4096) (Z.land w 0xFFF)) /\
  (forall w, (forall i, 0 <= i < page_count virt size -> ~ same_page (page (first_page virt) i) w) ->
     (arch_vm_get_phys w s').1 = (arch_vm_get_phys w s).1).

(** Allocating and mapping a range of pages is all or nothing.  On success
    the count is the number of pages, every page of the range is translated to
    a block of its own that was free before, and every other address as before.
    On failure every translation is as it was and every block taken is free
    again or has become a page table.  Four free blocks a page, no injected
    fault and no 1 GiB page in the way suffice for success. *)
Theorem vm_alloc_map_range_all_or_nothing {E : Type} `{KernelEnv E} s (e : E) virt size flags :
  tables_ok s (pml4_table s) -> range_args virt size -> unmapped_range s virt size -> Z.land flags ENTRY_ADDRESS = 0 ->
  let r := vm_alloc_map_range virt size flags s e in let ok := r.1.1.1 in let count := r.1.1.2 in let s' := r.1.2 in
  tables_ok s' (pml4_table s') /\
  ((ok = 0 /\ count = 0 /\ (forall w, (arch_vm_get_phys w s').1 = (arch_vm_get_phys w s).1) /\ accounted s (pml4_table s) s') \/
   (ok = 1 /\ count = page_count virt size /\ exists frame,
      (forall i, 0 <= i < page_count virt size -> frame i ∈ free_set (pmm s) /\ (frame i ∉ free_set (pmm s'))) /\
      (forall i j, 0 <= i < page_count virt size -> 0 <= j < page_count virt size -> frame i = frame j -> i = j) /\
      range_mapped s virt size frame s')) /\
  (no_fault E -> room (4 * Z.to_nat (page_count virt size)) s ->
    (forall i, 0 <= i < page_count virt size -> no_giant s (pml4_table s) (page (first_page virt) i)) -> ok = 1).
Proof.
  intros Hok Hra Hz Hfl. cbv zeta. destruct (range_pages_is virt size Hra) as (Hpos & _).
  destruct (alloc_range_answer s e virt size flags Hok Hra Hz Hfl) as [Hans Hw].
  set (r := vm_alloc_map_range virt size flags s e) in *. set (b := first_page virt) in *.
  assert (exists fm, range_inv s b fm None r.1.2) as [fm0 Hr0] by (destruct Hans as [(_ & _ & Hr)|(_ & _ & fm & _ & Hr)]; eauto).
  assert (tables_ok r.1.2 (pml4_table r.1.2)) as Hok' by (rewrite (ri_top _ _ _ _ _ Hr0); apply Hr0).
  assert (forall w, (arch_vm_get_phys w r.1.2).1 = walk_phys (pml4_table s) w r.1.2) as Hg
    by (intros w; by rewrite get_phys_walk, (ri_top _ _ _ _ _ Hr0)). clear Hr0.
  split; [done|]. split; [|done]. destruct Hans as [(H0 & Hc & Hr)|(H1 & Hc & fm & Hcov & Hr)]; [left | right]; (split; [done|]).
  - destruct (range_rolled _ _ _ Hr) as [Hws Hacc]. split; [done|]. split; [|done]. intros w. by rewrite Hg, get_phys_walk, Hws.
  - rewrite Hc, Z2Nat.id by lia. split; [done|]. exists (fun i => fm !!! i).
    assert (forall i, 0 <= i < page_count virt size -> fm !! i = Some (fm !!! i)) as Hfm.
    { intros i Hi. destruct (proj2 (Hcov i) ltac:(lia)) as [f Hf]. by rewrite lookup_total_alt, Hf. }
    split; [|split; [|split]].
    + intros i Hi. by destruct (ri_frame _ _ _ _ _ Hr i _ (Hfm i Hi)) as (_ & ? & ? & _).
    + intros i j Hi Hj Heq. pose proof (Hfm j Hj) as Hfj. rewrite <- Heq in Hfj. by apply (ri_inj _ _ _ _ _ Hr i j (fm !!! i)); [apply Hfm|].
    + intros i w Hi Hs. rewrite Hg. by apply (ri_page _ _ _ _ _ Hr i _ (Hfm i Hi)).
    + intros w Hn. rewrite Hg, get_phys_walk by done. apply (ri_other _ _ _ _ _ Hr). intros i f Hf. apply Hn.
      pose proof (proj1 (Hcov i) (mk_is_Some _ _ Hf)). lia.
Qed.

(** C15: If the kernel's page tables are well formed, the range is not empty, does not wrap around the
    address space and has fewer than 2^32 pages, none of its pages was mapped before, and the flags have no address bits: a
    range that [vm_alloc_map_range] has allocated and mapped with success is given back by [vm_unmap_free_range]:
    it answers the number of pages, the translations are those from before the allocation, and every block the
    two calls took is free again or has become a page table.  ([vm_alloc_map_range] does not check that the range is
    unmapped; translations it replaces are not restored.) *)
Theorem vm_alloc_unmap_roundtrip {E : Type} `{KernelEnv E} s (e : E) virt size flags :
  tables_ok s (pml4_table s) -> range_args virt size -> unmapped_range s virt size -> Z.land flags ENTRY_ADDRESS = 0 ->
  let r := vm_alloc_map_range virt size flags s e in r.1.1.1 = 1 ->
  let r' := vm_unmap_free_range virt r.1.1.2 r.1.2 in
  r'.1 = page_count virt size /\ tables_ok r'.2 (pml4_table s) /\
  (forall w, (arch_vm_get_phys w r'.2).1 = (arch_vm_get_phys w s).1) /\ accounted s (pml4_table s) r'.2.
Proof.
  intros Hok Hra Hz Hfl. cbv zeta. destruct (range_pages_is virt size Hra) as (Hpos & _ & Hle & _).
  destruct (alloc_range_answer s e virt size flags Hok Hra Hz Hfl) as [Hans _]. cbv zeta in Hans.
  destruct (vm_alloc_map_range virt size flags s e) as [[[ok count] s1] e1]. cbn [fst snd] in *. intros ->.
  destruct Hans as [(? & _)|(_ & -> & fm & Hcov & Hr)]; [done|]. rewrite Z2Nat.id by lia.
  assert (vm_unmap_free_range virt (page_count virt size) s1 = vm_unmap_free_range (first_page virt) (page_count virt size) s1) as ->.
  { unfold vm_unmap_free_range, align_down_page, first_page. destruct Hra. rewrite !page_mask, Z.div_mul by
      (try (unfold is_u64; pose proof (Z.mul_div_le virt 4096 ltac:(lia)); pose proof (Z.div_pos virt 4096 ltac:(lia) ltac:(lia))); lia). done. }
  assert (0 <= first_page virt) by (unfold first_page; destruct Hra; pose proof (Z.div_pos virt 4096 ltac:(lia) ltac:(lia)); lia).
  destruct (unmap_range_ok s (first_page virt) fm s1 (page_count virt size) Hr Hcov) as [Hr' Hn]; try done.
  - intros i w Hi Hs. rewrite <- (Hz i w ltac:(lia) Hs), get_phys_walk by done. done.
  - apply Z_mod_mult.
  - destruct Hra. lia.
  - destruct (range_rolled _ _ _ Hr') as [Hws Hacc]. split; [done|]. split; [apply Hr'|]. split; [|done].
    intros w. rewrite !get_phys_walk by (rewrite ?(ri_top _ _ _ _ _ Hr'); apply Hr' || done). by rewrite (ri_top _ _ _ _ _ Hr'), Hws.
Qed.

(** ** Witnesses *)

#[local] Opaque demo_state.
Lemma demo_page_args : range_args 0x400010 0x20.
Proof. by constructor. Qed.
Lemma demo_unmapped : unmapped_range demo_paging 0x400010 0x20.
Proof.
  intros i w _ _. rewrite get_phys_walk by (by apply demo_tables). unfold walk_phys. by rewrite demo_words.
Qed.

Lemma vm_alloc_map_range_all_or_nothing_witness :
  let r := vm_alloc_map_range 0x400010 0x20 VM_FLAG_WRITABLE demo_paging tt in r.1.1.1 = 1 /\ r.1.1.2 = 1.
Proof.
  pose proof (demo_tables 0x1000 eq_refl ltac:(done) eq_refl) as Hok.
  pose proof (vm_alloc_map_range_all_or_nothing demo_paging tt 0x400010 0x20 VM_FLAG_WRITABLE Hok demo_page_args demo_unmapped eq_refl) as Ht.
  revert Ht. generalize (vm_alloc_map_range 0x400010 0x20 VM_FLAG_WRITABLE demo_paging tt). intros r. cbv zeta. intros (_ & Hc & Hw).
  assert (r.1.1.1 = 1) as H1.
  { apply Hw; [done | exact (proj1 (demo_ready 4 0 ltac:(lia))) | intros i _; exact (proj2 (demo_ready 0 _ ltac:(lia)))]. }
  split; [done|]. destruct Hc as [(H0 & _)|(_ & Hn & _)]; [congruence | done].
Defined.

Lemma vm_alloc_unmap_roundtrip_witness :
  let r := vm_alloc_map_range 0x400010 0x20 VM_FLAG_WRITABLE demo_paging tt in
  (vm_unmap_free_range 0x400010 r.1.1.2 r.1.2).1 = 1.
Proof.
  pose proof (demo_tables 0x1000 eq_refl ltac:(done) eq_refl) as Hok.
  pose proof (vm_alloc_unmap_roundtrip demo_paging tt 0x400010 0x20 VM_FLAG_WRITABLE Hok demo_page_args demo_unmapped eq_refl) as Ht.
  destruct (alloc_range_answer demo_paging tt 0x400010 0x20 VM_FLAG_WRITABLE Hok demo_page_args demo_unmapped eq_refl) as [_ Hw].
  revert Ht Hw. generalize (vm_alloc_map_range 0x400010 0x20 VM_FLAG_WRITABLE demo_paging tt). intros r. cbv zeta. intros Ht Hw.
  apply Ht, Hw; [done | exact (proj1 (demo_ready 4 0 ltac:(lia))) | intros i _; exact (proj2 (demo_ready 0 _ ltac:(lia)))].
Defined.
