(* ===== verification/SurfaceBacking.v ===== *)
(** * The pages behind graphics surfaces ([kernel/graphics/surface_backing.cpp])

    Each surface has a slot of the kernel's surface arena; its pixels are blocks
    of the physical memory manager, mapped into the slot one after the other.
    [surface_vm] is the state of the page tables and of the memory manager.  A call
    is modelled as running alone: the compare-exchange of a slot's [active] decides
    at once, and so does the loop that reserves pages. *)

From S2P Require Import Prelude KernelEnv Pmm Paging Vm.

Definition KERNEL_GRAPHICS_SURFACE_MAX_OBJECTS : Z := 16.
Definition KERNEL_GRAPHICS_SURFACE_MAX_PIXELS : Z := 1920 * 1080.
Definition KERNEL_GRAPHICS_SURFACE_BYTES_PER_PIXEL : Z := 4.
Definition KERNEL_GRAPHICS_SURFACE_MAX_PAGES : Z :=
  (KERNEL_GRAPHICS_SURFACE_MAX_PIXELS * KERNEL_GRAPHICS_SURFACE_BYTES_PER_PIXEL + VM_PAGE_SIZE - 1) / VM_PAGE_SIZE.
Definition KERNEL_GRAPHICS_SURFACE_MAX_TOTAL_PAGES : Z := 8192.
Definition VM_KERNEL_SURFACE_BASE : Z := 0x78000000.
Definition VM_FLAG_GLOBAL : Z := 0x100.
Definition SURFACE_SLOT_SIZE : Z := KERNEL_GRAPHICS_SURFACE_MAX_PAGES * VM_PAGE_SIZE.

Record SurfaceBackingSlot := { b_active : Z; b_page_count : Z; b_byte_size : Z; physical_pages : list Z }.
#[export] Instance SurfaceBackingSlot_settable : Settable SurfaceBackingSlot := {| eta_expand b := {|
  b_active := b_active b; b_page_count := b_page_count b; b_byte_size := b_byte_size b; physical_pages := physical_pages b |} |}.
Definition empty_backing : SurfaceBackingSlot := {|
  b_active := 0; b_page_count := 0; b_byte_size := 0; physical_pages := replicate (Z.to_nat KERNEL_GRAPHICS_SURFACE_MAX_PAGES) 0 |}.
#[export] Instance SurfaceBackingSlot_inhabited : Inhabited SurfaceBackingSlot := populate {| b_active := 0; b_page_count := 0; b_byte_size := 0; physical_pages := [] |}.

Record KernelGraphicsSurfaceBackingStats := {
  active_backings : Z; mapped_pages : Z; mapped_bytes : Z; allocation_attempts : Z; allocation_failures : Z; rollback_pages : Z; release_pages : Z; unmap_failures : Z }.
#[export] Instance KernelGraphicsSurfaceBackingStats_settable : Settable KernelGraphicsSurfaceBackingStats := {| eta_expand t := {|
  active_backings := active_backings t; mapped_pages := mapped_pages t; mapped_bytes := mapped_bytes t; allocation_attempts := allocation_attempts t;
  allocation_failures := allocation_failures t; rollback_pages := rollback_pages t; release_pages := release_pages t; unmap_failures := unmap_failures t |} |}.
Definition no_backing_stats : KernelGraphicsSurfaceBackingStats := {|
  active_backings := 0; mapped_pages := 0; mapped_bytes := 0; allocation_attempts := 0; allocation_failures := 0; rollback_pages := 0; release_pages := 0;
  unmap_failures := 0 |}.
Record KernelGraphicsSurfaceBackingInfo := { bi_active : Z; bi_page_count : Z; bi_byte_size : Z; bi_virtual_base : Z }.

Record SurfaceState := {
  backing_slots : list SurfaceBackingSlot; backing_stats : KernelGraphicsSurfaceBackingStats; backing_reserved_pages : Z; surface_vm : PagingState }.
#[export] Instance SurfaceState_settable : Settable SurfaceState := {| eta_expand s := {|
  backing_slots := backing_slots s; backing_stats := backing_stats s; backing_reserved_pages := backing_reserved_pages s; surface_vm := surface_vm s |} |}.

Definition backing_at (s : SurfaceState) (slot : Z) : SurfaceBackingSlot := aget (backing_slots s) slot.
Definition upd_backing (slot : Z) (f : SurfaceBackingSlot -> SurfaceBackingSlot) (s : SurfaceState) : SurfaceState :=
  s <| backing_slots := aset (backing_slots s) slot (f (backing_at s slot)) |>.
Definition upd_bstats (f : KernelGraphicsSurfaceBackingStats -> KernelGraphicsSurfaceBackingStats) (s : SurfaceState) : SurfaceState :=
  s <| backing_stats := f (backing_stats s) |>.
Definition set_page (slot page phys : Z) (s : SurfaceState) : SurfaceState :=
  upd_backing slot (fun b => b <| physical_pages := aset (physical_pages b) page phys |>) s.

Definition slot_virtual_base (slot : Z) : Z := VM_KERNEL_SURFACE_BASE + slot * SURFACE_SLOT_SIZE.
(** The bytes of a page, as words. *)
Definition clear_page (phys : Z) (s : PagingState) : PagingState := for_range 0 512 (fun i s => wr phys i 0 s) s.
Definition clear_slot_metadata (b : SurfaceBackingSlot) : SurfaceBackingSlot := b <| b_active := 0 |> <| b_page_count := 0 |> <| b_byte_size := 0 |>.

(** One page of the roll-back; the second component counts the pages that stay. *)
Definition rollback_page (slot_index page : Z) (r : SurfaceState * Z) : SurfaceState * Z :=
  let '(s, remaining) := r in
  let virt := slot_virtual_base slot_index + page * VM_PAGE_SIZE in
  let phys := aget (physical_pages (backing_at s slot_index)) page in
  let '(unmapped, vm) := vm_unmap_page virt (surface_vm s) in
  let s := s <| surface_vm := vm |> in
  let '(s, remaining) :=
    if nonzero unmapped
    then (upd_bstats (fun t => t <| rollback_pages := u64 (rollback_pages t + 1) |>) (s <| surface_vm := free_phys phys (surface_vm s) |>), remaining)
    else (upd_bstats (fun t => t <| unmap_failures := u64 (unmap_failures t + 1) |>) s, u32 (remaining + 1)) in
  let '(still, vm) := vm_get_phys virt (surface_vm s) in
  let s := s <| surface_vm := vm |> in
  (if still =? 0 then set_page slot_index page 0 s else s, remaining).
Definition rollback_allocation (slot_index page_count : Z) (s : SurfaceState) : SurfaceState :=
  let '(s, remaining) := for_range 0 page_count (rollback_page slot_index) (s, 0) in
  if nonzero remaining then
    let s := upd_backing slot_index (fun b => b <| b_active := 1 |> <| b_page_count := page_count |> <| b_byte_size := u32 (page_count * VM_PAGE_SIZE) |>) s in
    upd_bstats (fun t => t <| active_backings := u32 (active_backings t + 1) |> <| mapped_pages := u32 (mapped_pages t + remaining) |>
      <| mapped_bytes := u64 (mapped_bytes t + remaining * VM_PAGE_SIZE) |>) s
  else upd_backing slot_index clear_slot_metadata s.

(** One page of a release: the state, the pages released and the pages that stay. *)
Definition release_page (slot_index page : Z) (r : SurfaceState * Z * Z) : SurfaceState * Z * Z :=
  let '(s, released, remaining) := r in
  let virt := slot_virtual_base slot_index + page * VM_PAGE_SIZE in
  let phys := aget (physical_pages (backing_at s slot_index)) page in
  if phys =? 0 then (s, released, remaining)
  else
    let '(unmapped, vm) := vm_unmap_page virt (surface_vm s) in
    let s := s <| surface_vm := vm |> in
    if nonzero unmapped then
      let s := s <| surface_vm := free_phys phys (surface_vm s) |> in
      let s := upd_bstats (fun t => t <| release_pages := u64 (release_pages t + 1) |>) s in
      (set_page slot_index page 0 s, u32 (released + 1), remaining)
    else (upd_bstats (fun t => t <| unmap_failures := u64 (unmap_failures t + 1) |>) s, released, u32 (remaining + 1)).
Definition kernel_graphics_surface_backing_release (slot_index : Z) (s : SurfaceState) : SurfaceState :=
  if KERNEL_GRAPHICS_SURFACE_MAX_OBJECTS <=? slot_index then s
  else if negb (b_active (backing_at s slot_index) =? 1) then s
  else
    let s := upd_backing slot_index (fun b => b <| b_active := 2 |>) s in
    let '(s, released, remaining) := for_range 0 (b_page_count (backing_at s slot_index)) (release_page slot_index) (s, 0, 0) in
    let s := upd_bstats (fun t => t <| mapped_pages := u32 (mapped_pages t - released) |> <| mapped_bytes := u64 (mapped_bytes t - released * VM_PAGE_SIZE) |>) s in
    if nonzero remaining then upd_backing slot_index (fun b => b <| b_active := 1 |>) s
    else upd_backing slot_index clear_slot_metadata (upd_bstats (fun t => t <| active_backings := u32 (active_backings t - 1) |>) s).

Definition init_slot (slot : Z) (s : SurfaceState) : SurfaceState :=
  let s := if nonzero (b_active (backing_at s slot)) then kernel_graphics_surface_backing_release slot s else s in
  let s := for_range 0 KERNEL_GRAPHICS_SURFACE_MAX_PAGES (fun page s => set_page slot page 0 s) s in
  upd_backing slot clear_slot_metadata s.
Definition kernel_graphics_surface_backing_init (s : SurfaceState) : SurfaceState :=
  (for_range 0 KERNEL_GRAPHICS_SURFACE_MAX_OBJECTS init_slot s) <| backing_stats := no_backing_stats |> <| backing_reserved_pages := 0 |>.

Section Operations.
Context {E : Type} `{KernelEnv E}.
Implicit Types (s : SurfaceState) (e : E).

Definition surface_flags : Z := Z.lor (Z.lor (Z.lor VM_FLAG_PRESENT VM_FLAG_WRITABLE) VM_FLAG_GLOBAL) VM_FLAG_NO_EXECUTE.
(** What every failure after the reservation does. *)
Definition allocation_failed (slot_index page_count mapped : Z) s : SurfaceState :=
  let s := rollback_allocation slot_index mapped s in
  let s := s <| backing_reserved_pages := u32 (backing_reserved_pages s - page_count) |> in
  upd_bstats (fun t => t <| allocation_failures := u64 (allocation_failures t + 1) |>) s.
(** The loop over the pages; [n] are still to be mapped. *)
Fixpoint allocate_pages (n : nat) (slot_index page_count page mapped : Z) s e : bool * SurfaceState * E :=
  match n with
  | O => (true, s, e)
  | S n =>
    let '(phys, p, e) := pmm_alloc_block (pmm (surface_vm s)) e in
    let vm := (surface_vm s) <| pmm := p |> in
    let s := s <| surface_vm := vm |> in
    if phys =? 0 then (false, allocation_failed slot_index page_count mapped s, e)
    else
      let s := s <| surface_vm := clear_page phys (surface_vm s) |> in
      let virt := slot_virtual_base slot_index + page * VM_PAGE_SIZE in
      let '(ok, vm, e) := vm_map_page virt phys surface_flags (surface_vm s) e in
      let s := s <| surface_vm := vm |> in
      if ok =? 0 then (false, allocation_failed slot_index page_count mapped (s <| surface_vm := free_phys phys (surface_vm s) |>), e)
      else allocate_pages n slot_index page_count (page + 1) (u32 (mapped + 1)) (set_page slot_index page phys s) e
  end.

(** The answer: the address of the pixels and the number of pages, when it is 1.  [outputs]: both result pointers are given. *)
Definition kernel_graphics_surface_backing_allocate (slot_index byte_size : Z) (outputs : bool) s e : option (Z * Z) * SurfaceState * E :=
  let s := upd_bstats (fun t => t <| allocation_attempts := u64 (allocation_attempts t + 1) |>) s in
  let failed s := upd_bstats (fun t => t <| allocation_failures := u64 (allocation_failures t + 1) |>) s in
  let maximum_byte_size := KERNEL_GRAPHICS_SURFACE_MAX_PIXELS * KERNEL_GRAPHICS_SURFACE_BYTES_PER_PIXEL in
  if (KERNEL_GRAPHICS_SURFACE_MAX_OBJECTS <=? slot_index) || (byte_size =? 0) || (maximum_byte_size <? byte_size) || negb outputs then (None, failed s, e)
  else
    let page_count := u32 (byte_size + VM_PAGE_SIZE - 1) / VM_PAGE_SIZE in
    if (page_count =? 0) || (KERNEL_GRAPHICS_SURFACE_MAX_PAGES <? page_count) || negb (b_active (backing_at s slot_index) =? 0) then (None, failed s, e)
    else
      let s := upd_backing slot_index (fun b => b <| b_active := 2 |>) s in
      let reserved := backing_reserved_pages s in
      let mapped := mapped_pages (backing_stats s) in
      if (KERNEL_GRAPHICS_SURFACE_MAX_TOTAL_PAGES <? mapped) || (KERNEL_GRAPHICS_SURFACE_MAX_TOTAL_PAGES - mapped <? reserved)
         || (KERNEL_GRAPHICS_SURFACE_MAX_TOTAL_PAGES - mapped - reserved <? page_count)
      then (None, failed (upd_backing slot_index clear_slot_metadata s), e)
      else
        let s := s <| backing_reserved_pages := u32 (reserved + page_count) |> in
        let '(ok, s, e) := allocate_pages (Z.to_nat page_count) slot_index page_count 0 0 s e in
        if negb ok then (None, s, e)
        else
          let s := upd_backing slot_index (fun b => b <| b_page_count := page_count |> <| b_byte_size := byte_size |>) s in
          let s := s <| backing_reserved_pages := u32 (backing_reserved_pages s - page_count) |> in
          let s := upd_bstats (fun t => t <| active_backings := u32 (active_backings t + 1) |> <| mapped_pages := u32 (mapped_pages t + page_count) |>
                     <| mapped_bytes := u64 (mapped_bytes t + page_count * VM_PAGE_SIZE) |>) s in
          let s := upd_backing slot_index (fun b => b <| b_active := 1 |>) s in
          (Some (slot_virtual_base slot_index, page_count), s, e).
End Operations.

Definition kernel_graphics_surface_backing_get_info (slot_index : Z) (s : SurfaceState) : option KernelGraphicsSurfaceBackingInfo :=
  if (KERNEL_GRAPHICS_SURFACE_MAX_OBJECTS <=? slot_index) || negb (b_active (backing_at s slot_index) =? 1) then None
  else Some {| bi_active := 1; bi_page_count := b_page_count (backing_at s slot_index); bi_byte_size := b_byte_size (backing_at s slot_index);
               bi_virtual_base := slot_virtual_base slot_index |}.
Definition kernel_graphics_surface_backing_get_phys (slot_index page : Z) (s : SurfaceState) : Z :=
  if (KERNEL_GRAPHICS_SURFACE_MAX_OBJECTS <=? slot_index) || negb (b_active (backing_at s slot_index) =? 1) || (b_page_count (backing_at s slot_index) <=? page) then 0
  else aget (physical_pages (backing_at s slot_index)) page.
Definition kernel_graphics_surface_backing_get_stats (s : SurfaceState) : KernelGraphicsSurfaceBackingStats := backing_stats s.
