(* ===== verification/SurfaceSpec.v ===== *)
(** * Surfaces own their pages

    The blocks behind all surfaces together are one partly mapped range, the
    surface arena, so the lemmas of [VmSpec] about a range that is being mapped
    carry over: [fm] tells which block each page of the arena holds, counted from
    the base of the arena. *)

From S2P Require Import Prelude KernelEnv Pmm PmmSpec Paging PagingSpec PagingMemory Vm VmSpec SurfaceBacking.

Definition SLOT_PAGES : Z := 2025.
Lemma max_pages_val : KERNEL_GRAPHICS_SURFACE_MAX_PAGES = SLOT_PAGES.
Proof. reflexivity. Qed.
Definition MAX_SLOTS : Z := 16.
Definition ARENA_PAGES : Z := MAX_SLOTS * SLOT_PAGES.
Definition base : Z := VM_KERNEL_SURFACE_BASE.
(** Page [j] of slot [k]. *)
Definition idx (k j : Z) : Z := k * SLOT_PAGES + j.
Lemma slot_page k j : slot_virtual_base k + j * VM_PAGE_SIZE = page base (idx k j).
Proof. unfold slot_virtual_base, SURFACE_SLOT_SIZE, page, idx, base. rewrite max_pages_val. unfold VM_PAGE_SIZE. lia. Qed.
Lemma idx_range k j : 0 <= k < MAX_SLOTS -> 0 <= j < SLOT_PAGES -> 0 <= idx k j < ARENA_PAGES.
Proof. unfold idx, ARENA_PAGES, MAX_SLOTS, SLOT_PAGES. lia. Qed.
Lemma idx_inj k j k' j' : 0 <= j < SLOT_PAGES -> 0 <= j' < SLOT_PAGES -> idx k j = idx k' j' -> k = k' /\ j = j'.
Proof. unfold idx, SLOT_PAGES. intros. lia. Qed.

Section Arena.
Context (s0 : PagingState).
(** The arena is unmapped at boot. *)
Definition arena_unmapped : Prop := forall i w, 0 <= i < ARENA_PAGES -> same_page (page base i) w -> walk_phys (pml4_table s0) w s0 = 0.
Context (Hz : arena_unmapped).

(** Clearing the block that is held changes no table. *)
Lemma range_clear b fm f s : range_inv s0 b fm (Some f) s -> let s' := clear_page (f * 4096) s in
  range_inv s0 b fm (Some f) s' /\ (forall n, room n s -> room n s') /\ forall v, no_giant s (pml4_table s0) v -> no_giant s' (pml4_table s0) v.
Proof using Type.
  intros Hr. cbv zeta. pose proof (ri_tables _ _ _ _ _ Hr) as Hok. destruct (proj1 (ri_held _ _ _ _ _ Hr f eq_refl)) as (Hf & _ & _ & Hnt). rewrite PMM_TOTAL_val in Hf.
  assert (is_addr (f * 4096)) as Ha by (apply addr_of_range; [lia | apply Z_mod_mult]).
  destruct (fill_rd (f * 4096) s (fun _ _ => 0) Ha ltac:(done)) as (A & B & C). fold (clear_page (f * 4096) s) in A, B, C. set (s' := clear_page _ _) in *. clearbody s'.
  assert (pmm s' = pmm s) as Hp by (by rewrite C).
  assert (page_only (f * 4096) s s') as Hpo by (constructor; [exact B | by rewrite Hp | by rewrite Hp | by rewrite C]).
  assert (no_table s (pml4_table s0) (f * 4096)) as Hno by (intros p t Hpt Ht ->; apply Hnt; by exists p).
  destruct (page_tables s s' (pml4_table s0) (f * 4096) Hok Hno Hpo) as (T & W & Hregs & G). split; [|split].
  - apply (range_grows s0 b fm (Some f) s s'); try done; [by rewrite C|]. intros k _ Hk. left. by rewrite Hp.
  - intros n. unfold room. by rewrite Hp.
  - intros v. apply no_giant_keeps. by apply (keeps_small_page s s' (pml4_table s0) (f * 4096)).
Qed.

(** Unmapping a page of the arena and giving back its block. *)
Lemma unmap_step fm i f vm : range_inv s0 base fm None vm -> fm !! i = Some f -> 0 <= i < ARENA_PAGES ->
  exists vm1, vm_unmap_page (page base i) vm = (1, vm1) /\ range_inv s0 base (delete i fm) None (free_phys (f * 4096) vm1) /\
    vm_get_phys (page base i) (free_phys (f * 4096) vm1) = (0, free_phys (f * 4096) vm1).
Proof using All.
  intros Hr Hf Hi. pose proof (ri_tables _ _ _ _ _ Hr) as Hok. rewrite <- (ri_top _ _ _ _ _ Hr) in Hok.
  unfold vm_unmap_page, arch_vm_unmap_page, vm_get_phys. rewrite init_done, (ri_top _ _ _ _ _ Hr) by done.
  pose proof (range_unmap s0 base fm i f vm Hr Hf (fun w => Hz i w Hi)) as Hu. cbv zeta in Hu.
  destruct (walk_unmap (pml4_table s0) (page base i) vm) as [ok vm1]. cbn [fst snd] in Hu. destruct Hu as [-> Hr1]. exists vm1. split; [done|].
  pose proof (range_give_back s0 base _ f vm1 Hr1) as Hr2. split; [done|]. set (vm2 := free_phys _ _) in *. clearbody vm2.
  pose proof (ri_tables _ _ _ _ _ Hr2) as Hok2. rewrite <- (ri_top _ _ _ _ _ Hr2) in Hok2. rewrite get_phys_walk, (ri_top _ _ _ _ _ Hr2) by done. f_equal.
  rewrite (ri_other _ _ _ _ _ Hr2); [by apply (Hz i)|]. intros j g Hg Hs. destruct (decide (j = i)) as [->|Hne]; [by rewrite lookup_delete_eq in Hg|].
  apply page_same in Hs; [done | by apply (ri_page _ _ _ _ _ Hr2 j g Hg) | unfold ARENA_PAGES, MAX_SLOTS, SLOT_PAGES in Hi; lia].
Qed.

(** ** Loops over the pages of a slot *)

Definition counts (t : KernelGraphicsSurfaceBackingStats) : Z * Z * Z * Z := (active_backings t, mapped_pages t, mapped_bytes t, unmap_failures t).
(** Only the page list of slot [k], the tables and the other counters changed. *)
Record stepped (k : Z) (s s' : SurfaceState) : Prop := {
  sd_slot : exists pg, alen pg = alen (physical_pages (backing_at s k)) /\ backing_slots s' = aset (backing_slots s) k ((backing_at s k) <| physical_pages := pg |>);
  sd_reserved : backing_reserved_pages s' = backing_reserved_pages s;
  sd_counts : counts (backing_stats s') = counts (backing_stats s);
}.
Lemma at_upd_backing k f s : 0 <= k < alen (backing_slots s) -> backing_at (upd_backing k f s) k = f (backing_at s k).
Proof using Type. intros Hk. unfold backing_at at 1, upd_backing. by apply aget_aset_eq. Qed.
Lemma stepped_refl k s : 0 <= k < alen (backing_slots s) -> stepped k s s.
Proof using Type.
  intros Hk. constructor; [|done|done]. exists (physical_pages (backing_at s k)). split; [done|].
  assert ((backing_at s k) <| physical_pages := physical_pages (backing_at s k) |> = backing_at s k) as -> by (by destruct (backing_at s k)).
  unfold aset, backing_at. symmetry. apply list_insert_id. by apply lookup_aget.
Qed.
Lemma stepped_trans k s1 s2 s3 : 0 <= k < alen (backing_slots s1) -> stepped k s1 s2 -> stepped k s2 s3 -> stepped k s1 s3.
Proof using Type.
  intros Hk [(pg1 & L1 & S1) R1 C1] [(pg2 & L2 & S2) R2 C2]. constructor; [|congruence|congruence]. exists pg2. unfold backing_at in *. rewrite S1 in L2, S2.
  rewrite aget_aset_eq in L2, S2 by done. split; [cbn in L2; congruence|]. rewrite S2. unfold aset. by rewrite list_insert_insert_eq.
Qed.
Lemma stepped_vm k s s' : 0 <= k < alen (backing_slots s) -> backing_slots s' = backing_slots s -> backing_reserved_pages s' = backing_reserved_pages s ->
  counts (backing_stats s') = counts (backing_stats s) -> stepped k s s'.
Proof using Type. intros Hk Hs Hr Hc. destruct (stepped_refl k s Hk) as [(pg & L & S) _ _]. constructor; [|done|done]. exists pg. by rewrite Hs. Qed.
Lemma stepped_set_page k j v s : 0 <= k < alen (backing_slots s) -> stepped k s (set_page k j v s).
Proof using Type. intros Hk. constructor; [|done|done]. exists (aset (physical_pages (backing_at s k)) j v). split; [apply alen_aset | done]. Qed.
Lemma stepped_len k s s' : stepped k s s' -> alen (backing_slots s') = alen (backing_slots s).
Proof using Type. intros [(pg & _ & ->) _ _]. apply alen_aset. Qed.

(** Slot [k] holds blocks at the pages from [lo] to [hi] and at no other. *)
Definition slot_has (fm : gmap Z Z) (k lo hi : Z) (pages : list Z) : Prop :=
  forall j, 0 <= j < SLOT_PAGES -> if decide (lo <= j < hi) then exists f, fm !! idx k j = Some f /\ aget pages j = f * 4096 else fm !! idx k j = None.
(** The other slots are as they were. *)
Definition elsewhere (k : Z) (fm fm' : gmap Z Z) : Prop := forall i, (forall j, 0 <= j < SLOT_PAGES -> i <> idx k j) -> fm' !! i = fm !! i.
Lemma slot_has_at fm k lo hi pages j : slot_has fm k lo hi pages -> 0 <= lo <= j -> j < hi <= SLOT_PAGES -> exists f, fm !! idx k j = Some f /\ aget pages j = f * 4096.
Proof using Type. intros Hs H1 H2. specialize (Hs j ltac:(lia)). by rewrite decide_True in Hs by lia. Qed.
Lemma slot_has_drop fm k lo hi pages v : slot_has fm k lo hi pages -> 0 <= lo < hi -> hi <= SLOT_PAGES -> slot_has (delete (idx k lo) fm) k (lo + 1) hi (aset pages lo v).
Proof using Type.
  intros Hs H1 H2 j Hj. specialize (Hs j Hj). destruct (decide (j = lo)) as [->|Hne].
  - rewrite decide_False by lia. apply lookup_delete_eq.
  - rewrite lookup_delete_ne by (unfold idx; lia). repeat case_decide; try lia; [|done]. destruct Hs as (f & Hf & Hp). exists f. split; [done|].
    by rewrite aget_aset_ne by lia.
Qed.
Lemma slot_has_add fm k m pages f : slot_has fm k 0 m pages -> 0 <= m < SLOT_PAGES -> alen pages = SLOT_PAGES -> slot_has (<[idx k m := f]> fm) k 0 (m + 1) (aset pages m (f * 4096)).
Proof using Type.
  intros Hs Hm Hl j Hj. specialize (Hs j Hj). destruct (decide (j = m)) as [->|Hne].
  - rewrite decide_True by lia. exists f. rewrite aget_aset_eq by lia. split; [apply lookup_insert_eq | done].
  - rewrite lookup_insert_ne by (unfold idx; lia). repeat case_decide; try lia; [|done]. destruct Hs as (g & Hg & Hp). exists g. split; [done|].
    by rewrite aget_aset_ne by lia.
Qed.
Lemma elsewhere_delete k j fm : 0 <= j < SLOT_PAGES -> elsewhere k fm (delete (idx k j) fm).
Proof using Type. intros Hj i Hi. apply lookup_delete_ne. intros Hx. by apply (Hi j Hj). Qed.
Lemma elsewhere_insert k j f fm : 0 <= j < SLOT_PAGES -> elsewhere k fm (<[idx k j := f]> fm).
Proof using Type. intros Hj i Hi. apply lookup_insert_ne. intros Hx. by apply (Hi j Hj). Qed.
Lemma elsewhere_trans k fm1 fm2 fm3 : elsewhere k fm1 fm2 -> elsewhere k fm2 fm3 -> elsewhere k fm1 fm3.
Proof using Type. intros H1 H2 i Hi. by rewrite H2, H1. Qed.

(** A state of the arena: [fm] with slot [k] between [lo] and [hi]. *)
Definition arena_at (fm : gmap Z Z) (k lo hi : Z) (s : SurfaceState) : Prop :=
  range_inv s0 base fm None (surface_vm s) /\ slot_has fm k lo hi (physical_pages (backing_at s k)).

(** The common step of rolling back and releasing: page [lo] goes. *)
Lemma drop_page fm k lo hi s : arena_at fm k lo hi s -> 0 <= k < MAX_SLOTS -> 0 <= lo < hi -> hi <= SLOT_PAGES ->
  exists f vm1, aget (physical_pages (backing_at s k)) lo = f * 4096 /\ 0 < f /\ vm_unmap_page (page base (idx k lo)) (surface_vm s) = (1, vm1) /\
    vm_get_phys (page base (idx k lo)) (free_phys (f * 4096) vm1) = (0, free_phys (f * 4096) vm1) /\
    range_inv s0 base (delete (idx k lo) fm) None (free_phys (f * 4096) vm1).
Proof using All.
  intros [Hr Hs] Hk Hlo Hhi. destruct (slot_has_at _ _ _ _ _ lo Hs ltac:(lia) ltac:(lia)) as (f & Hf & Hp). destruct (ri_frame _ _ _ _ _ Hr _ _ Hf) as [Hf0 _].
  destruct (unmap_step fm (idx k lo) f _ Hr Hf) as (vm1 & Hu & Hr1 & Hg); [apply idx_range; lia|]. exists f, vm1. split_and!; (done || lia).
Qed.
(** A surface state that differs from [s] in its tables and its other counters only. *)
Definition same_slots (s s' : SurfaceState) : Prop :=
  backing_slots s' = backing_slots s /\ backing_reserved_pages s' = backing_reserved_pages s /\ counts (backing_stats s') = counts (backing_stats s).
Lemma dropped fm k lo hi s s' : arena_at fm k lo hi s -> 0 <= k < alen (backing_slots s) -> 0 <= lo < hi -> hi <= SLOT_PAGES -> same_slots s s' ->
  range_inv s0 base (delete (idx k lo) fm) None (surface_vm s') ->
  stepped k s (set_page k lo 0 s') /\ arena_at (delete (idx k lo) fm) k (lo + 1) hi (set_page k lo 0 s').
Proof using Type.
  intros [_ Hs] Hk Hlo Hhi (Es & Er & Ec) Hr. split.
  - apply (stepped_trans k s s'); [done | by apply stepped_vm | apply stepped_set_page; by rewrite Es].
  - split; [exact Hr|]. unfold set_page. rewrite at_upd_backing by (by rewrite Es). unfold backing_at. rewrite Es. by apply slot_has_drop.
Qed.

(** What a loop over the pages of slot [k] has done when it reaches page [j]. *)
Definition progress (fm : gmap Z Z) (k m : Z) (s : SurfaceState) (j : Z) (s1 : SurfaceState) : Prop :=
  stepped k s s1 /\ exists fm', arena_at fm' k j m s1 /\ elsewhere k fm fm'.
Lemma progress_start fm k m s : arena_at fm k 0 m s -> 0 <= k < alen (backing_slots s) -> progress fm k m s 0 s.
Proof using Type. intros Ha Hk. split; [by apply stepped_refl|]. exists fm. split; [done|]. by intros i. Qed.
Lemma progress_drop fm k m s j s1 : progress fm k m s j s1 -> 0 <= k < MAX_SLOTS -> alen (backing_slots s) = MAX_SLOTS -> 0 <= j < m -> m <= SLOT_PAGES ->
  exists f vm1, aget (physical_pages (backing_at s1 k)) j = f * 4096 /\ 0 < f /\ vm_unmap_page (page base (idx k j)) (surface_vm s1) = (1, vm1) /\
    vm_get_phys (page base (idx k j)) (free_phys (f * 4096) vm1) = (0, free_phys (f * 4096) vm1) /\
    forall s', same_slots s1 s' -> surface_vm s' = free_phys (f * 4096) vm1 -> progress fm k m s (j + 1) (set_page k j 0 s').
Proof using All.
  intros (Hst & fm' & Ha & He) Hk Hl Hj Hm. destruct (drop_page fm' k j m s1 Ha Hk Hj Hm) as (f & vm1 & Hp & Hf & Hu & Hg & Hr). exists f, vm1. split_and!; try done.
  intros s' Hs Hv. destruct (dropped fm' k j m s1 s' Ha) as [Hst' Ha']; [by rewrite (stepped_len k s s1 Hst), Hl | done | done | done | by rewrite Hv |].
  split; [eapply stepped_trans; [by rewrite Hl | done | done]|]. eexists. split; [done|]. eapply elsewhere_trans; [done|]. apply elsewhere_delete. lia.
Qed.

Lemma rollback_loop fm k m s : arena_at fm k 0 m s -> 0 <= k < MAX_SLOTS -> alen (backing_slots s) = MAX_SLOTS -> 0 <= m <= SLOT_PAGES ->
  exists s1, for_range 0 m (rollback_page k) (s, 0) = (s1, 0) /\ progress fm k m s m s1.
Proof using All.
  intros Ha Hk Hl Hm. enough ((for_range 0 m (rollback_page k) (s, 0)).2 = 0 /\ progress fm k m s m (for_range 0 m (rollback_page k) (s, 0)).1) as [H1 H2].
  { destruct (for_range _ _ _ _) as [s1 r]. cbn in *. subst r. by exists s1. }
  apply (for_range_inv (fun j r => r.2 = 0 /\ progress fm k m s j r.1)); [lia | split; [done | apply progress_start; [done | cbn [fst]; lia]] |].
  intros j [s1 r] Hj [Hr Hp]. cbn [fst snd] in *. subst r. destruct (progress_drop _ _ _ _ _ _ Hp Hk Hl Hj ltac:(lia)) as (f & vm1 & Hpg & Hf & Hu & Hg & Hnext).
  unfold rollback_page. rewrite slot_page, Hpg, Hu. change (nonzero 1) with true. cbn [surface_vm].
  set (s2 := upd_bstats _ _). change (surface_vm s2) with (free_phys (f * 4096) vm1). rewrite Hg. cbn [Z.eqb fst snd]. split; [done|]. by apply Hnext.
Qed.
Lemma release_loop fm k m s : arena_at fm k 0 m s -> 0 <= k < MAX_SLOTS -> alen (backing_slots s) = MAX_SLOTS -> 0 <= m <= SLOT_PAGES ->
  exists s1, for_range 0 m (release_page k) (s, 0, 0) = (s1, m, 0) /\ progress fm k m s m s1.
Proof using All.
  intros Ha Hk Hl Hm. enough ((for_range 0 m (release_page k) (s, 0, 0)).1.2 = m /\ (for_range 0 m (release_page k) (s, 0, 0)).2 = 0 /\
    progress fm k m s m (for_range 0 m (release_page k) (s, 0, 0)).1.1) as (H1 & H2 & H3).
  { destruct (for_range _ _ _ _) as [[s1 n] r]. cbn in *. subst. by exists s1. }
  apply (for_range_inv (fun j r => r.1.2 = j /\ r.2 = 0 /\ progress fm k m s j r.1.1)); [lia | split; [done | split; [done | apply progress_start; [done | cbn [fst]; lia]]] |].
  intros j [[s1 n] r] Hj (Hn & Hr & Hp). cbn [fst snd] in *. subst n r. destruct (progress_drop _ _ _ _ _ _ Hp Hk Hl Hj ltac:(lia)) as (f & vm1 & Hpg & Hf & Hu & Hg & Hnext).
  unfold release_page. rewrite slot_page, Hpg, Hu, (proj2 (Z.eqb_neq (f * 4096) 0)) by lia. change (nonzero 1) with true. cbn [fst snd].
  split; [apply u32_small; unfold is_u32, SLOT_PAGES in *; lia|]. split; [done|]. by apply Hnext.
Qed.

(** ** Allocation *)

Lemma slot_has_none fm k m pages : slot_has fm k m m pages -> forall pages', slot_has fm k 0 0 pages'.
Proof using Type. intros Hs pages' j Hj. specialize (Hs j Hj). rewrite decide_False in Hs by lia. by rewrite decide_False by lia. Qed.

Definition undone (k count : Z) (s : SurfaceState) : SurfaceState :=
  upd_bstats (fun t => t <| allocation_failures := u64 (allocation_failures t + 1) |>)
    ((upd_backing k clear_slot_metadata s) <| backing_reserved_pages := u32 (backing_reserved_pages s - count) |>).
(** A failure at page [m]: the pages before it are given back. *)
Lemma failed_ok fm k m count s : arena_at fm k 0 m s -> 0 <= k < MAX_SLOTS -> alen (backing_slots s) = MAX_SLOTS -> 0 <= m <= SLOT_PAGES ->
  exists s1 fm', allocation_failed k count m s = undone k count s1 /\ stepped k s s1 /\ arena_at fm' k 0 0 s1 /\ elsewhere k fm fm'.
Proof using All.
  intros Ha Hk Hl Hm. destruct (rollback_loop fm k m s Ha Hk Hl Hm) as (s1 & Hloop & Hst & fm' & [Hr Hs] & He). exists s1, fm'.
  unfold allocation_failed, rollback_allocation. rewrite Hloop. split; [done|]. split; [done|]. split; [|done]. split; [done|]. by eapply slot_has_none.
Qed.

Context {E : Type} `{KernelEnv E}.
Lemma surface_flags_ok : Z.land surface_flags ENTRY_ADDRESS = 0.
Proof using Type. reflexivity. Qed.

(** The outcome of the loop over the pages from page [m] on. *)
Definition allocated (ok : bool) (fm : gmap Z Z) (k count : Z) (s s' : SurfaceState) : Prop :=
  if ok then stepped k s s' /\ exists fm', arena_at fm' k 0 count s' /\ elsewhere k fm fm'
  else exists s1 fm', s' = undone k count s1 /\ stepped k s s1 /\ arena_at fm' k 0 0 s1 /\ elsewhere k fm fm'.
Lemma allocated_after ok fm fm1 k count s s1 s' : 0 <= k < alen (backing_slots s) -> stepped k s s1 -> elsewhere k fm fm1 -> allocated ok fm1 k count s1 s' -> allocated ok fm k count s s'.
Proof using Type.
  intros Hk Hst He. unfold allocated. destruct ok.
  - intros (Hst' & fm' & Ha & He'). split; [by eapply stepped_trans|]. exists fm'. split; [done | by eapply elsewhere_trans].
  - intros (s2 & fm' & -> & Hst' & Ha & He'). exists s2, fm'. split; [done|]. split; [by eapply stepped_trans|]. split; [done | by eapply elsewhere_trans].
Qed.

Lemma allocate_pages_ok n : forall fm k m s (e : E) count, arena_at fm k 0 m s -> 0 <= k < MAX_SLOTS -> alen (backing_slots s) = MAX_SLOTS ->
  alen (physical_pages (backing_at s k)) = SLOT_PAGES -> 0 <= m -> count = m + Z.of_nat n -> count <= SLOT_PAGES ->
  let r := allocate_pages n k count m m s e in allocated r.1.1 fm k count s r.1.2 /\
    (no_fault E -> room (4 * n) (surface_vm s) -> (forall j, 0 <= j < count -> no_giant (surface_vm s) (pml4_table s0) (page base (idx k j))) -> r.1.1 = true).
Proof using All.
  induction n as [|n IH]; intros fm k m s e count Ha Hk Hl Hpl Hm Hc Hle; cbn [allocate_pages].
  { split; [|done]. cbn [fst snd allocated]. split; [apply stepped_refl; lia|]. exists fm. replace count with m by lia. split; [done | by intros i]. }
  destruct Ha as [Hr Hs].
  assert (forall s', same_slots s s' -> range_inv s0 base fm None (surface_vm s') -> allocated false fm k count s (allocation_failed k count m s')) as Hfail.
  { intros s' (Es & Er & Ec) Hr'. assert (stepped k s s') as Hst by (apply stepped_vm; [lia | done..]).
    destruct (failed_ok fm k m count s') as (s1 & fm' & -> & Hst' & Ha' & He'); [split; [done|]; unfold backing_at; by rewrite Es | done | by rewrite Es | lia |].
    exists s1, fm'. split; [done|]. split; [eapply stepped_trans; [lia | done | done]|]. done. }
  destruct (take_round s0 base fm (surface_vm s) e Hr) as [(E0 & Hr1 & Hn)|(f & E0 & Hf0 & Hr1 & Hroom1 & Hg1)].
  { destruct (pmm_alloc_block (pmm (surface_vm s)) e) as [[phys p] e1]. cbn [fst snd] in *. subst phys. cbn [Z.eqb fst snd].
    split; [by apply Hfail|]. intros Hnf Hrm. by destruct (Hn Hnf (room_has _ _ Hrm)). }
  destruct (pmm_alloc_block (pmm (surface_vm s)) e) as [[phys p] e1]. cbn [fst snd] in *. subst phys. rewrite (proj2 (Z.eqb_neq _ 0)) by lia. cbn [surface_vm].
  destruct (range_clear base fm f _ Hr1) as (Hr2 & Hroom2 & Hg2). set (vm1 := (surface_vm s) <| pmm := p |>) in *.
  change (surface_vm (s <| surface_vm := vm1 |>)) with vm1. set (vm2 := clear_page (f * 4096) vm1) in *. clearbody vm2. rewrite slot_page.
  assert (fm !! idx k m = None) as Hfm by (specialize (Hs m ltac:(lia)); by rewrite decide_False in Hs by lia).
  assert (0 <= idx k m < 2 ^ 36) as Hidx by (pose proof (idx_range k m Hk ltac:(lia)); unfold ARENA_PAGES, MAX_SLOTS, SLOT_PAGES in *; lia).
  change (surface_vm (s <| surface_vm := vm1 |> <| surface_vm := vm2 |>)) with vm2.
  pose proof (map_round s0 base fm f (idx k m) vm2 surface_flags e1 Hr2 Hfm Hidx surface_flags_ok) as Hmap. cbv zeta in Hmap.
  destruct (vm_map_page (page base (idx k m)) (f * 4096) surface_flags vm2 e1) as [[ok vm3] e2]. cbn [fst snd] in Hmap.
  destruct Hmap as [(-> & Hr3 & Hn)|(-> & Hr3 & Hroom3 & Hg3)]; cbn [Z.eqb].
  { cbn [fst snd]. split; [by apply Hfail|]. intros Hnf Hrm Hng. exfalso. apply Hn; [done | | apply Hg2, Hg1, Hng; lia].
    apply Hroom2, Hroom1. destruct Hrm. split; [done | lia]. }
  set (s3 := s <| surface_vm := vm1 |> <| surface_vm := vm2 |> <| surface_vm := vm3 |>). assert (same_slots s s3) as (Es & Er & Ec) by done. assert (surface_vm s3 = vm3) as Ev by done. clearbody s3.
  assert (stepped k s (set_page k m (f * 4096) s3)) as Hst by (apply (stepped_trans k s s3); [lia | apply stepped_vm; (lia || done) | apply stepped_set_page; rewrite Es; lia]).
  assert (physical_pages (backing_at (set_page k m (f * 4096) s3) k) = aset (physical_pages (backing_at s k)) m (f * 4096)) as Hpg.
  { unfold set_page. rewrite at_upd_backing by (rewrite Es; lia). unfold backing_at. by rewrite Es. }
  rewrite u32_small by (unfold is_u32, SLOT_PAGES in *; lia).
  destruct (IH (<[idx k m := f]> fm) k (m + 1) (set_page k m (f * 4096) s3) e2 count) as [Hal Hw]; [split|..]; try lia.
  - change (surface_vm (set_page k m (f * 4096) s3)) with (surface_vm s3). by rewrite Ev.
  - rewrite Hpg. apply slot_has_add; [done | lia | done].
  - by rewrite (stepped_len k s _ Hst).
  - by rewrite Hpg, alen_aset.
  - split; [apply (allocated_after _ fm (<[idx k m := f]> fm) k count s (set_page k m (f * 4096) s3)); [lia | done | apply elsewhere_insert; lia | done]|]. change (surface_vm (set_page k m (f * 4096) s3)) with (surface_vm s3) in Hw. rewrite Ev in Hw.
    intros Hnf Hrm Hng. apply Hw; [done | | intros j Hj; by apply Hg3, Hg2, Hg1, Hng].
    apply Hroom3, Hroom2, Hroom1. by replace (1 + (3 + 4 * n))%nat with (4 * S n)%nat by lia.
Qed.
End Arena.
