(* ===== verification/SurfaceHistory.v ===== *)
(** * Histories of surface allocations

    The invariant over all slots ([surface_ok]), that every call keeps it, and what
    it means for the callers. *)

From S2P Require Import Prelude KernelEnv Pmm PmmSpec Paging PagingSpec PagingMemory Vm VmSpec SurfaceBacking SurfaceSpec.

Definition active_slot (b : SurfaceBackingSlot) : bool := b_active b =? 1.
Record slot_ok (b : SurfaceBackingSlot) : Prop := {
  sk_pages : alen (physical_pages b) = SLOT_PAGES;
  sk_state : (b_active b = 0 /\ b_page_count b = 0 /\ b_byte_size b = 0) \/
    (b_active b = 1 /\ 0 < b_byte_size b /\ b_page_count b = (b_byte_size b + 4095) / 4096 /\ b_page_count b <= SLOT_PAGES);
}.
Record surface_ok (s0 : PagingState) (fm : gmap Z Z) (s : SurfaceState) : Prop := {
  su_range : range_inv s0 base fm None (surface_vm s);
  su_len : alen (backing_slots s) = MAX_SLOTS;
  su_slots : forall k, 0 <= k < MAX_SLOTS -> slot_ok (backing_at s k);
  su_map : forall k, 0 <= k < MAX_SLOTS -> slot_has fm k 0 (b_page_count (backing_at s k)) (physical_pages (backing_at s k));
  su_only : forall i, is_Some (fm !! i) -> 0 <= i < ARENA_PAGES;
  su_reserved : backing_reserved_pages s = 0;
  su_counts : counts (backing_stats s) = (acount active_slot (backing_slots s), asum b_page_count (backing_slots s), asum b_page_count (backing_slots s) * 4096, 0);
  su_total : asum b_page_count (backing_slots s) <= KERNEL_GRAPHICS_SURFACE_MAX_TOTAL_PAGES;
}.

Lemma slot_ok_bounds b : slot_ok b -> 0 <= b_page_count b <= SLOT_PAGES.
Proof. intros [_ [(_ & -> & _)|(_ & Hb & -> & Hle)]]; [unfold SLOT_PAGES; lia|]. split; [|done]. apply Z.div_pos; lia. Qed.
Lemma only_in_slot k i : 0 <= i < ARENA_PAGES -> (forall j, 0 <= j < SLOT_PAGES -> i <> idx k j) \/ exists j, 0 <= j < SLOT_PAGES /\ i = idx k j.
Proof.
  intros Hi. destruct (decide (k * SLOT_PAGES <= i < (k + 1) * SLOT_PAGES)) as [Hin|Hout]; [right | left].
  - exists (i - k * SLOT_PAGES). unfold idx. lia.
  - intros j Hj. unfold idx. lia.
Qed.

(** One slot is replaced. *)
Lemma surface_replace s0 fm s k b fm' s' : surface_ok s0 fm s -> 0 <= k < MAX_SLOTS -> backing_slots s' = aset (backing_slots s) k b -> slot_ok b ->
  range_inv s0 base fm' None (surface_vm s') -> slot_has fm' k 0 (b_page_count b) (physical_pages b) -> elsewhere k fm fm' -> backing_reserved_pages s' = 0 ->
  counts (backing_stats s') = (acount active_slot (backing_slots s'), asum b_page_count (backing_slots s'), asum b_page_count (backing_slots s') * 4096, 0) ->
  asum b_page_count (backing_slots s') <= KERNEL_GRAPHICS_SURFACE_MAX_TOTAL_PAGES -> surface_ok s0 fm' s'.
Proof.
  intros [A1 A2 A3 A4 A5 A6 A7 A8] Hk Hs Hb Hr Hh He Hres Hc Ht.
  assert (forall q, 0 <= q < MAX_SLOTS -> backing_at s' q = if decide (q = k) then b else backing_at s q) as Hat.
  { intros q Hq. unfold backing_at. rewrite Hs. case_decide; [subst; by rewrite aget_aset_eq by lia | by rewrite aget_aset_ne by lia]. }
  constructor; try done.
  - by rewrite Hs, alen_aset.
  - intros q Hq. rewrite Hat by done. case_decide; [done | by apply A3].
  - intros q Hq. rewrite Hat by done. case_decide as Hqk; [by subst|]. intros j Hj. specialize (A4 q Hq j Hj).
    assert (fm' !! idx q j = fm !! idx q j) as ->; [|done]. apply He. intros j' Hj' Hx. by apply idx_inj in Hx as [-> _].
  - intros i Hi. destruct (decide (0 <= i < ARENA_PAGES)) as [|Hout]; [done|]. apply A5. rewrite <- He; [done|].
    intros j Hj ->. apply Hout. by apply idx_range.
Qed.

(** What the counters become. *)
Lemma counts_replace s k b : alen (backing_slots s) = MAX_SLOTS -> 0 <= k < MAX_SLOTS ->
  acount active_slot (aset (backing_slots s) k b) = acount active_slot (backing_slots s) - (if active_slot (backing_at s k) then 1 else 0) + (if active_slot b then 1 else 0) /\
  asum b_page_count (aset (backing_slots s) k b) = asum b_page_count (backing_slots s) - b_page_count (backing_at s k) + b_page_count b.
Proof. intros Hl Hk. split; [apply acount_aset; lia | apply asum_aset; lia]. Qed.

(** The slot after a loop over its pages, changed once more. *)
Lemma stepped_slot k s s1 f : stepped k s s1 -> 0 <= k < alen (backing_slots s) ->
  exists pg, alen pg = alen (physical_pages (backing_at s k)) /\ backing_at s1 k = (backing_at s k) <| physical_pages := pg |> /\
    backing_slots (upd_backing k f s1) = aset (backing_slots s) k (f ((backing_at s k) <| physical_pages := pg |>)).
Proof.
  intros [(pg & Hl & Hs) _ _] Hk. exists pg. split; [done|]. assert (backing_at s1 k = (backing_at s k) <| physical_pages := pg |>) as Hat.
  { unfold backing_at at 1. rewrite Hs. by apply aget_aset_eq. }
  split; [done|]. unfold upd_backing. rewrite Hat, Hs. cbn [backing_slots]. unfold aset. by rewrite list_insert_insert_eq.
Qed.

Section Operations.
Context (s0 : PagingState) (Hz : arena_unmapped s0).

(** ** Releasing *)

Lemma active_count fm s k : surface_ok s0 fm s -> 0 <= k < MAX_SLOTS -> active_slot (backing_at s k) = true -> 0 < acount active_slot (backing_slots s).
Proof using Type. intros Hs Hk Ha. apply (acount_pos _ _ k); [by rewrite (su_len _ _ _ Hs) | done]. Qed.
Lemma count_below fm s k : surface_ok s0 fm s -> 0 <= k < MAX_SLOTS -> b_page_count (backing_at s k) <= asum b_page_count (backing_slots s).
Proof using Type.
  intros Hs Hk. destruct (counts_replace s k (clear_slot_metadata (backing_at s k)) (su_len _ _ _ Hs) Hk) as [_ Hsum].
  change (b_page_count (clear_slot_metadata (backing_at s k))) with 0 in Hsum.
  assert (0 <= asum b_page_count (aset (backing_slots s) k (clear_slot_metadata (backing_at s k)))); [|lia].
  apply asum_nonneg. intros b Hb. apply list_elem_of_lookup in Hb as [i Hi]. pose proof (lookup_lt_Some _ _ _ Hi) as Hlt. unfold aset in Hlt. rewrite length_insert in Hlt.
  pose proof (su_len _ _ _ Hs) as Hlen. unfold alen in Hlen. rewrite <- (aget_lookup (aset (backing_slots s) k (clear_slot_metadata (backing_at s k))) (Z.of_nat i) b) by (by rewrite Nat2Z.id).
  destruct (decide (Z.of_nat i = k)) as [<-|Hne]; [rewrite aget_aset_eq by (unfold alen; lia); cbn; lia | rewrite aget_aset_ne by lia].
  apply (slot_ok_bounds _ (su_slots _ _ _ Hs (Z.of_nat i) ltac:(lia))).
Qed.

Lemma backing_release_ok fm s k : surface_ok s0 fm s -> 0 <= k -> let s' := kernel_graphics_surface_backing_release k s in
  exists fm', surface_ok s0 fm' s' /\ elsewhere k fm fm' /\ (forall q, 0 <= q -> q <> k -> backing_at s' q = backing_at s q) /\
    (0 <= k < MAX_SLOTS -> b_active (backing_at s' k) = 0).
Proof using All.
  intros Hs Hk. cbv zeta. unfold kernel_graphics_surface_backing_release. change KERNEL_GRAPHICS_SURFACE_MAX_OBJECTS with MAX_SLOTS.
  destruct (Z.leb_spec MAX_SLOTS k) as [|Hlt]; [exists fm; split_and!; [done | by intros i | done | lia]|]. assert (0 <= k < MAX_SLOTS) as Hkr by lia.
  pose proof (su_len _ _ _ Hs) as Hlen. destruct (Z.eqb_spec (b_active (backing_at s k)) 1) as [Hact|Hact]; cbn [negb].
  2: { exists fm. split_and!; [done | by intros i | done |]. intros _. by destruct (sk_state _ (su_slots _ _ _ Hs k Hkr)) as [(? & _)|(? & _)]. }
  pose proof (su_slots _ _ _ Hs k Hkr) as Hsk. pose proof (slot_ok_bounds _ Hsk) as Hbd.
  set (sA := upd_backing k (fun b => b <| b_active := 2 |>) s).
  assert (backing_at sA k = (backing_at s k) <| b_active := 2 |>) as HatA by (unfold sA; apply at_upd_backing; by rewrite Hlen).
  assert (alen (backing_slots sA) = MAX_SLOTS) as HlenA by (unfold sA, upd_backing; cbn [backing_slots]; by rewrite <- Hlen; apply alen_aset).
  rewrite HatA. change (b_page_count ((backing_at s k) <| b_active := 2 |>)) with (b_page_count (backing_at s k)). set (m := b_page_count (backing_at s k)) in *.
  destruct (release_loop s0 Hz fm k m sA) as (s1 & -> & Hst & fm' & [Hr1 Hh1] & He); [split; [exact (su_range _ _ _ Hs) | rewrite HatA; exact (su_map _ _ _ Hs k Hkr)] | done | done | lia |].
  change (nonzero 0) with false. cbv iota. set (s2 := upd_bstats _ (upd_bstats _ s1)).
  destruct (stepped_slot k sA s1 clear_slot_metadata Hst ltac:(by rewrite HlenA)) as (pg & Hpg & _ & Hslots).
  set (b := clear_slot_metadata ((backing_at s k) <| physical_pages := pg |>)).
  assert (backing_slots (upd_backing k clear_slot_metadata s2) = aset (backing_slots s) k b) as Hfinal.
  { change (backing_slots (upd_backing k clear_slot_metadata s2)) with (backing_slots (upd_backing k clear_slot_metadata s1)). rewrite Hslots, HatA.
    change (backing_slots sA) with (aset (backing_slots s) k ((backing_at s k) <| b_active := 2 |>)). unfold aset. by rewrite list_insert_insert_eq. }
  destruct (counts_replace s k b Hlen Hkr) as [Hca Hcs]. rewrite (proj2 (Z.eqb_eq _ 1) Hact : active_slot (backing_at s k) = true) in Hca.
  change (active_slot b) with false in Hca. change (b_page_count b) with 0 in Hcs. cbv iota in Hca. fold m in Hcs.
  pose proof (active_count fm s k Hs Hkr (proj2 (Z.eqb_eq _ 1) Hact)) as Hpos. pose proof (acount_bounds active_slot (backing_slots s)) as Hab.
  pose proof (count_below fm s k Hs Hkr) as Hbel. fold m in Hbel. pose proof (su_total _ _ _ Hs) as Htot.
  assert (counts (backing_stats s1) = counts (backing_stats s)) as Hc1 by (rewrite (sd_counts _ _ _ Hst); done).
  exists fm'. split; [|split; [done|split]].
  - apply (surface_replace s0 fm s k b); try done.
    + constructor; [cbn; rewrite Hpg, HatA; exact (sk_pages _ Hsk) | by left].
    + by eapply slot_has_none.
    + change (backing_reserved_pages (upd_backing k clear_slot_metadata s2)) with (backing_reserved_pages s1). rewrite (sd_reserved _ _ _ Hst). exact (su_reserved _ _ _ Hs).
    + rewrite Hfinal, Hca, Hcs. rewrite (su_counts _ _ _ Hs) in Hc1. unfold counts in *. injection Hc1 as C1 C2 C3 C4. cbn. rewrite C1, C2, C3, C4. unfold VM_PAGE_SIZE, KERNEL_GRAPHICS_SURFACE_MAX_TOTAL_PAGES, MAX_SLOTS in *.
      rewrite !u32_small, u64_small by (unfold is_u32, is_u64; lia). repeat f_equal; lia.
    + rewrite Hfinal, Hcs. lia.
  - intros q H0 Hq. unfold backing_at. rewrite Hfinal. apply aget_aset_ne; (done || lia).
  - intros _. unfold backing_at. rewrite Hfinal, aget_aset_eq by (by rewrite Hlen). done.
Qed.

(** ** Allocating *)

(** Counters that [counts] leaves out. *)
Lemma surface_restat fm s s' : surface_ok s0 fm s -> backing_slots s' = backing_slots s -> surface_vm s' = surface_vm s -> backing_reserved_pages s' = backing_reserved_pages s ->
  counts (backing_stats s') = counts (backing_stats s) -> surface_ok s0 fm s'.
Proof using Type.
  intros [A1 A2 A3 A4 A5 A6 A7 A8] E1 E2 E3 E4. constructor; unfold backing_at in *; rewrite ?E1, ?E2, ?E3, ?E4; done.
Qed.
Lemma same_map fm fm' k pages pages' : slot_has fm k 0 0 pages -> slot_has fm' k 0 0 pages' -> elsewhere k fm fm' ->
  (forall i, is_Some (fm !! i) -> 0 <= i < ARENA_PAGES) -> (forall i, is_Some (fm' !! i) -> 0 <= i < ARENA_PAGES) -> fm' = fm.
Proof using Type.
  intros H1 H2 He Hi Hi'. apply map_eq. intros i. destruct (decide (0 <= i < ARENA_PAGES)) as [Hin|Hout].
  - destruct (only_in_slot k i Hin) as [Hx|(j & Hj & ->)]; [by apply He|]. specialize (H1 j Hj). specialize (H2 j Hj). rewrite decide_False in H1, H2 by lia. congruence.
  - destruct (fm !! i) eqn:E1; [destruct Hout; by apply Hi|]. destruct (fm' !! i) eqn:E2; [destruct Hout; by apply Hi' | done].
Qed.
Definition pages_of (byte_size : Z) : Z := (byte_size + 4095) / 4096.
Lemma pages_of_bounds byte_size : 0 < byte_size <= 8294400 -> 0 < pages_of byte_size <= SLOT_PAGES.
Proof using Type. intros Hb. unfold pages_of, SLOT_PAGES. split; [apply Z.div_str_pos; lia | apply Z.lt_succ_r, Z.div_lt_upper_bound; lia]. Qed.

Context {E : Type} `{KernelEnv E}.

(** A request that can be met, and what then stands in the slot. *)
Definition requestable (k byte_size : Z) (s : SurfaceState) : Prop :=
  0 <= k < MAX_SLOTS /\ 0 < byte_size <= 8294400 /\ b_active (backing_at s k) = 0 /\
  asum b_page_count (backing_slots s) + pages_of byte_size <= KERNEL_GRAPHICS_SURFACE_MAX_TOTAL_PAGES.
Definition new_backing (byte_size : Z) (pages : list Z) : SurfaceBackingSlot := {| b_active := 1; b_page_count := pages_of byte_size; b_byte_size := byte_size; physical_pages := pages |}.

(** The state in which the loop over the pages starts. *)
Definition claimed (k byte_size : Z) (s : SurfaceState) : SurfaceState :=
  (upd_backing k (fun b => b <| b_active := 2 |>) (upd_bstats (fun t => t <| allocation_attempts := u64 (allocation_attempts t + 1) |>) s))
    <| backing_reserved_pages := pages_of byte_size |>.

(** The state after the last page. *)
Definition finished (k byte_size : Z) (s : SurfaceState) : SurfaceState := let count := pages_of byte_size in
  upd_backing k (fun b => b <| b_active := 1 |>)
    (upd_bstats (fun t => t <| active_backings := u32 (active_backings t + 1) |> <| mapped_pages := u32 (mapped_pages t + count) |> <| mapped_bytes := u64 (mapped_bytes t + count * VM_PAGE_SIZE) |>)
      ((upd_backing k (fun b => b <| b_page_count := count |> <| b_byte_size := byte_size |>) s) <| backing_reserved_pages := u32 (backing_reserved_pages s - count) |>)).

(** Either the request is refused at once, or the loop decides. *)
Lemma allocate_cases fm s k byte_size outputs (e : E) : surface_ok s0 fm s -> 0 <= k -> is_u32 byte_size ->
  (~ (outputs = true /\ requestable k byte_size s) /\ exists s', kernel_graphics_surface_backing_allocate k byte_size outputs s e = (None, s', e) /\
     (backing_slots s' = backing_slots s /\ surface_vm s' = surface_vm s /\ backing_reserved_pages s' = backing_reserved_pages s /\ counts (backing_stats s') = counts (backing_stats s))) \/
  (outputs = true /\ requestable k byte_size s /\
   let count := pages_of byte_size in let '(ok, s1, e1) := allocate_pages (Z.to_nat count) k count 0 0 (claimed k byte_size s) e in
   kernel_graphics_surface_backing_allocate k byte_size outputs s e =
   if ok : bool then (Some (slot_virtual_base k, count), finished k byte_size s1, e1) else (None, s1, e1)).
Proof using Type.
  intros Hs Hk Hb. unfold kernel_graphics_surface_backing_allocate. change KERNEL_GRAPHICS_SURFACE_MAX_OBJECTS with MAX_SLOTS.
  change (KERNEL_GRAPHICS_SURFACE_MAX_PIXELS * KERNEL_GRAPHICS_SURFACE_BYTES_PER_PIXEL) with 8294400. rewrite max_pages_val.
  set (sA := upd_bstats _ s). assert (backing_at sA k = backing_at s k) as HatA by done. unfold is_u32 in Hb.
  destruct (_ || negb outputs) eqn:Harg.
  { left. split; [|eexists; split; [done | done]]. intros [-> (H1 & H2 & _)]. revert Harg. rewrite (proj2 (Z.leb_gt MAX_SLOTS k)), (proj2 (Z.eqb_neq byte_size 0)), (proj2 (Z.ltb_ge _ byte_size)) by lia. done. }
  bprop. rewrite u32_small by (unfold is_u32, VM_PAGE_SIZE; lia). 
  replace ((byte_size + VM_PAGE_SIZE - 1) / VM_PAGE_SIZE) with (pages_of byte_size) by (unfold pages_of, VM_PAGE_SIZE; f_equal; lia).
  destruct (pages_of_bounds byte_size ltac:(lia)) as [Hp1 Hp2]. rewrite (proj2 (Z.eqb_neq (pages_of byte_size) 0)), (proj2 (Z.ltb_ge SLOT_PAGES (pages_of byte_size))) by lia. cbn [orb].
  rewrite HatA. destruct (Z.eqb_spec (b_active (backing_at s k)) 0) as [Hact|Hact]; cbn [negb].
  2: { left. split; [|eexists; split; [done | done]]. intros [_ (_ & _ & ? & _)]. done. }
  pose proof (su_counts _ _ _ Hs) as Hc. unfold counts in Hc. injection Hc as _ Hc _ _. pose proof (su_reserved _ _ _ Hs) as Hr. pose proof (su_total _ _ _ Hs) as Ht.
  set (sB := upd_backing k (fun b => b <| b_active := 2 |>) sA). change (backing_reserved_pages sB) with (backing_reserved_pages s).
  change (mapped_pages (backing_stats sB)) with (mapped_pages (backing_stats s)). rewrite Hc, Hr. destruct (_ || (_ - 0 <? pages_of byte_size)) eqn:Hlim.
  - left. split; [intros [_ (_ & _ & _ & Hx)]; bprop; lia|]. eexists. split; [done|]. split; [|done].
    change (aset (aset (backing_slots s) k ((backing_at s k) <| b_active := 2 |>)) k (clear_slot_metadata (backing_at sB k)) = backing_slots s).
    assert (backing_at sB k = (backing_at s k) <| b_active := 2 |>) as -> by (unfold sB; rewrite at_upd_backing; [done | change (backing_slots sA) with (backing_slots s); rewrite (su_len _ _ _ Hs); lia]).
    assert (clear_slot_metadata ((backing_at s k) <| b_active := 2 |>) = backing_at s k) as ->.
    { destruct (sk_state _ (su_slots _ _ _ Hs k ltac:(lia))) as [(? & ? & ?)|(? & _)]; [|congruence]. destruct (backing_at s k). cbn in *. by subst. }
    unfold aset. rewrite list_insert_insert_eq. apply list_insert_id, lookup_aget. rewrite (su_len _ _ _ Hs). lia.
  - right. split; [by destruct outputs|]. split; [split_and!; (done || lia || (bprop; lia))|]. cbv zeta.
    rewrite Z.add_0_l, u32_small by (unfold is_u32, SLOT_PAGES in *; lia). fold sA. change (sB <| backing_reserved_pages := pages_of byte_size |>) with (claimed k byte_size s).
    destruct (allocate_pages _ k _ 0 0 (claimed k byte_size s) e) as [[[] s1] e1]; done.
Qed.

Section Claimed.
Context (fm : gmap Z Z) (s : SurfaceState) (k byte_size : Z) (Hs : surface_ok s0 fm s) (Hq : requestable k byte_size s).
Let sC := claimed k byte_size s.
Lemma inactive_slot : b_active (backing_at s k) = 0 /\ b_page_count (backing_at s k) = 0 /\ b_byte_size (backing_at s k) = 0.
Proof using Hs Hq. destruct Hq as (Hk & _ & Ha & _). destruct (sk_state _ (su_slots _ _ _ Hs k Hk)) as [?|(? & _)]; [done | congruence]. Qed.
Lemma claimed_at : backing_at sC k = (backing_at s k) <| b_active := 2 |>.
Proof using Hs Hq.
  unfold backing_at at 1. change (backing_slots sC) with (aset (backing_slots s) k ((backing_at s k) <| b_active := 2 |>)). apply aget_aset_eq.
  rewrite (su_len _ _ _ Hs). apply Hq.
Qed.
Lemma claimed_arena : arena_at s0 fm k 0 0 sC.
Proof using Hs Hq.
  split; [exact (su_range _ _ _ Hs)|]. rewrite claimed_at. pose proof (su_map _ _ _ Hs k (proj1 Hq)) as Hm. by rewrite (proj1 (proj2 inactive_slot)) in Hm.
Qed.
Lemma claimed_slots : backing_slots sC = aset (backing_slots s) k ((backing_at s k) <| b_active := 2 |>).
Proof using Type. done. Qed.
Lemma claimed_len : alen (backing_slots sC) = MAX_SLOTS.
Proof using Hs. rewrite claimed_slots, alen_aset. apply Hs. Qed.
(** The slots after the loop and one more change of slot [k]. *)
Lemma claimed_slot s1 f : stepped k sC s1 -> exists pg, alen pg = SLOT_PAGES /\ backing_at s1 k = (backing_at s k) <| b_active := 2 |> <| physical_pages := pg |> /\
  forall s2, backing_slots s2 = backing_slots s1 -> backing_slots (upd_backing k f s2) = aset (backing_slots s) k (f ((backing_at s k) <| b_active := 2 |> <| physical_pages := pg |>)).
Proof using Hs Hq.
  intros Hst. destruct (stepped_slot k sC s1 f Hst ltac:(rewrite claimed_len; apply Hq)) as (pg & Hpg & Hat & Hsl). rewrite claimed_at in Hpg, Hat, Hsl. exists pg.
  split; [rewrite Hpg; exact (sk_pages _ (su_slots _ _ _ Hs k (proj1 Hq)))|]. split; [done|]. intros s2 E2. unfold upd_backing, backing_at in *. cbn [backing_slots] in *. rewrite E2.
  etransitivity; [exact Hsl|]. rewrite claimed_slots. unfold aset. by rewrite list_insert_insert_eq.
Qed.

(** All pages are there. *)
Lemma allocated_done fm' s1 : stepped k sC s1 -> arena_at s0 fm' k 0 (pages_of byte_size) s1 -> elsewhere k fm fm' -> let s' := finished k byte_size s1 in
  surface_ok s0 fm' s' /\ (forall q, 0 <= q -> q <> k -> backing_at s' q = backing_at s q) /\ exists pg, backing_at s' k = new_backing byte_size pg.
Proof using Hs Hq.
  intros Hst [Hr Hh] He. cbv zeta. pose proof (su_len _ _ _ Hs) as Hlen. pose proof Hq as (Hk & Hb & _ & Htot). destruct (pages_of_bounds byte_size Hb) as [Hp1 Hp2].
  destruct (claimed_slot s1 (fun b => b <| b_page_count := pages_of byte_size |> <| b_byte_size := byte_size |>) Hst) as (pg & Hpl & Hat & Hsl). specialize (Hsl s1 eq_refl).
  assert (backing_slots (finished k byte_size s1) = aset (backing_slots s) k (new_backing byte_size pg)) as Hfin.
  { unfold finished. set (s2 := upd_backing k _ s1) in *. set (s3 := upd_bstats _ _). assert (backing_slots s3 = backing_slots s2) as E3 by done. clearbody s3.
    unfold upd_backing, backing_at. cbn [backing_slots]. rewrite E3, Hsl. rewrite aget_aset_eq by (by rewrite Hlen). unfold aset. by rewrite list_insert_insert_eq. }
  rewrite Hat in Hh. destruct inactive_slot as (I1 & I2 & I3).
  destruct (counts_replace s k (new_backing byte_size pg) Hlen Hk) as [Hca Hcs]. unfold active_slot at 3 in Hca. rewrite I1 in Hca. rewrite I2 in Hcs.
  change (active_slot (new_backing byte_size pg)) with true in Hca. change (b_page_count (new_backing byte_size pg)) with (pages_of byte_size) in Hcs. cbn [Z.eqb] in Hca.
  split; [|split; [intros q H0 Hne; unfold backing_at; rewrite Hfin; apply aget_aset_ne; lia | exists pg; unfold backing_at; rewrite Hfin; apply aget_aset_eq; by rewrite Hlen]].
  apply (surface_replace s0 fm s k (new_backing byte_size pg)); try done.
  - constructor; [done | right]. split_and!; (done || apply Hb).
  - change (backing_reserved_pages (finished k byte_size s1)) with (u32 (backing_reserved_pages s1 - pages_of byte_size)). rewrite (sd_reserved _ _ _ Hst).
    change (backing_reserved_pages sC) with (pages_of byte_size). by rewrite Z.sub_diag.
  - rewrite Hfin, Hca, Hcs. pose proof (sd_counts _ _ _ Hst) as Hc. change (counts (backing_stats sC)) with (counts (backing_stats s)) in Hc. rewrite (su_counts _ _ _ Hs) in Hc.
    unfold counts in *. injection Hc as C1 C2 C3 C4. pose proof (acount_bounds active_slot (backing_slots s)) as Hab. pose proof (count_below fm s k Hs Hk) as Hcb. rewrite I2 in Hcb.
    unfold finished. cbn. rewrite C1, C2, C3, C4. unfold VM_PAGE_SIZE, KERNEL_GRAPHICS_SURFACE_MAX_TOTAL_PAGES, MAX_SLOTS in *.
    rewrite !u32_small, u64_small by (unfold is_u32, is_u64; lia). repeat f_equal; lia.
  - rewrite Hfin, Hcs. lia.
Qed.
(** A page was missing. *)
Lemma allocated_undone fm' s1 : stepped k sC s1 -> arena_at s0 fm' k 0 0 s1 -> elsewhere k fm fm' -> let s' := undone k (pages_of byte_size) s1 in
  surface_ok s0 fm s' /\ (forall q, 0 <= q -> q <> k -> backing_at s' q = backing_at s q) /\ exists pg, backing_at s' k = (backing_at s k) <| physical_pages := pg |>.
Proof using Hs Hq.
  intros Hst [Hr Hh] He. cbv zeta. pose proof (su_len _ _ _ Hs) as Hlen. pose proof Hq as (Hk & Hb & _ & Htot).
  destruct (claimed_slot s1 clear_slot_metadata Hst) as (pg & Hpl & Hat & Hsl). specialize (Hsl s1 eq_refl). destruct inactive_slot as (I1 & I2 & I3).
  assert (clear_slot_metadata ((backing_at s k) <| b_active := 2 |> <| physical_pages := pg |>) = (backing_at s k) <| physical_pages := pg |>) as Hb0.
  { destruct (backing_at s k). cbn in *. by subst. }
  rewrite Hb0 in Hsl. set (b := (backing_at s k) <| physical_pages := pg |>) in *.
  assert (backing_slots (undone k (pages_of byte_size) s1) = aset (backing_slots s) k b) as Hfin by exact Hsl.
  assert (active_slot b = false /\ b_page_count b = 0) as [Hb1 Hb2] by (unfold active_slot; cbn; by rewrite I1, I2).
  destruct (counts_replace s k b Hlen Hk) as [Hca Hcs]. unfold active_slot at 3 in Hca. rewrite I1, Hb1 in Hca. rewrite I2, Hb2 in Hcs. cbn [Z.eqb] in Hca.
  split; [|split; [intros q H0 Hne; unfold backing_at; rewrite Hfin; apply aget_aset_ne; lia | exists pg; unfold backing_at; rewrite Hfin; apply aget_aset_eq; by rewrite Hlen]].
  assert (surface_ok s0 fm' (undone k (pages_of byte_size) s1)) as Hs'.
  { apply (surface_replace s0 fm s k b); try done.
    - constructor; [done | left]. cbn. done.
    - rewrite Hb2. by eapply slot_has_none.
    - change (backing_reserved_pages (undone k (pages_of byte_size) s1)) with (u32 (backing_reserved_pages s1 - pages_of byte_size)). rewrite (sd_reserved _ _ _ Hst).
      change (backing_reserved_pages sC) with (pages_of byte_size). by rewrite Z.sub_diag.
    - rewrite Hfin, Hca, Hcs. pose proof (sd_counts _ _ _ Hst) as Hc. change (counts (backing_stats sC)) with (counts (backing_stats s)) in Hc. rewrite (su_counts _ _ _ Hs) in Hc.
      change (counts (backing_stats (undone k (pages_of byte_size) s1))) with (counts (backing_stats s1)). rewrite Hc. repeat f_equal; lia.
    - rewrite Hfin, Hcs. pose proof (su_total _ _ _ Hs). lia. }
  assert (fm' = fm) as <-; [|done]. apply (same_map fm fm' k (physical_pages (backing_at s k)) (physical_pages (backing_at s1 k))); try done.
  - pose proof (su_map _ _ _ Hs k Hk) as Hm. by rewrite I2 in Hm.
  - apply Hs.
  - apply Hs'.
Qed.
End Claimed.

(** What an allocation leaves: the new backing, or everything as it was. *)
Lemma allocate_ok fm s k byte_size outputs (e : E) : surface_ok s0 fm s -> 0 <= k -> is_u32 byte_size ->
  let r := kernel_graphics_surface_backing_allocate k byte_size outputs s e in
  (forall q, 0 <= q -> q <> k -> backing_at r.1.2 q = backing_at s q) /\
  ((r.1.1 = None /\ surface_ok s0 fm r.1.2 /\ b_active (backing_at r.1.2 k) = b_active (backing_at s k) /\ b_page_count (backing_at r.1.2 k) = b_page_count (backing_at s k) /\
      b_byte_size (backing_at r.1.2 k) = b_byte_size (backing_at s k)) \/
   (r.1.1 = Some (slot_virtual_base k, pages_of byte_size) /\ outputs = true /\ requestable k byte_size s /\
      (exists fm', surface_ok s0 fm' r.1.2 /\ elsewhere k fm fm') /\ exists pg, backing_at r.1.2 k = new_backing byte_size pg)) /\
  (outputs = true -> requestable k byte_size s -> no_fault E -> room (4 * Z.to_nat (pages_of byte_size)) (surface_vm s) ->
    (forall j, 0 <= j < pages_of byte_size -> no_giant (surface_vm s) (pml4_table s0) (page base (idx k j))) -> r.1.1 <> None).
Proof using Hz.
  intros Hs Hk Hb. cbv zeta.
  destruct (allocate_cases fm s k byte_size outputs e Hs Hk Hb) as [(Hno & s' & -> & E1 & E2 & E3 & E4)|(-> & Hq & Hal)].
  { cbn [fst snd]. unfold backing_at. rewrite E1. split; [done|]. split; [|intros ? ?; by destruct Hno]. left. split; [done|]. split; [by apply (surface_restat fm s) | done]. }
  cbv zeta in Hal. destruct (pages_of_bounds byte_size (proj1 (proj2 Hq))) as [Hp1 Hp2].
  destruct (allocate_pages_ok s0 Hz (Z.to_nat (pages_of byte_size)) fm k 0 (claimed k byte_size s) e (pages_of byte_size) (claimed_arena fm s k byte_size Hs Hq) (proj1 Hq)
    (claimed_len fm s k byte_size Hs)) as [Ho Hw]; [rewrite (claimed_at fm s k byte_size Hs Hq); exact (sk_pages _ (su_slots _ _ _ Hs k (proj1 Hq))) | lia | lia | lia |].
  destruct (allocate_pages _ k _ 0 0 (claimed k byte_size s) e) as [[ok s1] e1]. cbn [fst snd] in Ho, Hw. rewrite Hal. clear Hal.
  assert (ok = true \/ ok = false) as [-> | ->] by (by destruct ok; [left | right]); cbn [fst snd allocated] in *.
  - destruct Ho as (Hst & fm' & Ha & He). destruct (allocated_done fm s k byte_size Hs Hq fm' s1 Hst Ha He) as (Hs' & Hoth & Hnew). split; [done|]. split; [|done].
    right. split; [done|]. split; [done|]. split; [done|]. split; [by exists fm' | done].
  - destruct Ho as (s2 & fm' & -> & Hst & Ha & He). destruct (allocated_undone fm s k byte_size Hs Hq fm' s2 Hst Ha He) as (Hs' & Hoth & pg & Hpg). split; [done|]. split.
    + left. split; [done|]. split; [done|]. rewrite Hpg. done.
    + intros _ _ Hnf Hrm Hng. by specialize (Hw Hnf Hrm Hng).
Qed.

(** ** Initialising *)

Lemma zero_pages k n s : 0 <= k < alen (backing_slots s) -> 0 <= n -> let s' := for_range 0 n (fun page s => set_page k page 0 s) s in
  stepped k s s' /\ surface_vm s' = surface_vm s.
Proof using Type.
  intros Hk Hn. cbv zeta. apply (for_range_inv (fun _ s' => stepped k s s' /\ surface_vm s' = surface_vm s)); [done | split; [by apply stepped_refl | done] |].
  intros j s1 Hj [Hst Hv]. split; [|done]. apply (stepped_trans k s s1); [done | done|]. apply stepped_set_page. by rewrite (stepped_len k s s1 Hst).
Qed.
(** An inactive slot with other page entries, cleared. *)
Lemma cleared_ok fm1 s1 s2 k : surface_ok s0 fm1 s1 -> 0 <= k < MAX_SLOTS -> b_active (backing_at s1 k) = 0 -> stepped k s1 s2 -> surface_vm s2 = surface_vm s1 ->
  let s' := upd_backing k clear_slot_metadata s2 in
  surface_ok s0 fm1 s' /\ (forall q, 0 <= q -> q <> k -> backing_at s' q = backing_at s1 q) /\ b_active (backing_at s' k) = 0.
Proof using Type.
  intros Hs1 Hk Ha Hst Hv. cbv zeta. pose proof (su_len _ _ _ Hs1) as Hlen.
  destruct (stepped_slot k s1 s2 clear_slot_metadata Hst ltac:(by rewrite Hlen)) as (pg & Hpg & _ & Hsl).
  destruct (sk_state _ (su_slots _ _ _ Hs1 k Hk)) as [(I1 & I2 & I3)|(I1 & _)]; [|congruence].
  set (b := clear_slot_metadata ((backing_at s1 k) <| physical_pages := pg |>)) in *. destruct (counts_replace s1 k b Hlen Hk) as [Hca Hcs].
  unfold active_slot at 3 in Hca. rewrite I1 in Hca. rewrite I2 in Hcs. change (active_slot b) with false in Hca. change (b_page_count b) with 0 in Hcs. cbn [Z.eqb] in Hca.
  split; [|split].
  - apply (surface_replace s0 fm1 s1 k b); try done.
    + constructor; [cbn; rewrite Hpg; exact (sk_pages _ (su_slots _ _ _ Hs1 k Hk)) | by left].
    + change (surface_vm (upd_backing k clear_slot_metadata s2)) with (surface_vm s2). rewrite Hv. apply Hs1.
    + pose proof (su_map _ _ _ Hs1 k Hk) as Hm. rewrite I2 in Hm. by eapply slot_has_none.
    + change (backing_reserved_pages (upd_backing k clear_slot_metadata s2)) with (backing_reserved_pages s2). rewrite (sd_reserved _ _ _ Hst). apply Hs1.
    + rewrite Hsl, Hca, Hcs. change (counts (backing_stats (upd_backing k clear_slot_metadata s2))) with (counts (backing_stats s2)). rewrite (sd_counts _ _ _ Hst), (su_counts _ _ _ Hs1).
      repeat f_equal; lia.
    + rewrite Hsl, Hcs. pose proof (su_total _ _ _ Hs1). lia.
  - intros q H0 Hne. unfold backing_at. rewrite Hsl. apply aget_aset_ne; lia.
  - unfold backing_at. rewrite Hsl, aget_aset_eq by (by rewrite Hlen). done.
Qed.
Lemma released_if_active fm s k : surface_ok s0 fm s -> 0 <= k < MAX_SLOTS ->
  let s1 := if nonzero (b_active (backing_at s k)) then kernel_graphics_surface_backing_release k s else s in
  exists fm1, surface_ok s0 fm1 s1 /\ (forall q, 0 <= q -> q <> k -> backing_at s1 q = backing_at s q) /\ b_active (backing_at s1 k) = 0.
Proof using Hz.
  intros Hs Hk. cbv zeta. unfold nonzero. destruct (Z.eqb_spec (b_active (backing_at s k)) 0) as [H0|]; cbn [negb]; [by exists fm|].
  destruct (backing_release_ok fm s k Hs ltac:(lia)) as (fm1 & H1 & _ & H2 & H3). exists fm1. split; [done|]. split; [done|]. by apply H3.
Qed.
Lemma init_slot_ok fm s k : surface_ok s0 fm s -> 0 <= k < MAX_SLOTS -> let s' := init_slot k s in
  (exists fm', surface_ok s0 fm' s') /\ (forall q, 0 <= q -> q <> k -> backing_at s' q = backing_at s q) /\ b_active (backing_at s' k) = 0.
Proof using Hz.
  intros Hs Hk. cbv zeta. unfold init_slot. pose proof (released_if_active fm s k Hs Hk) as Hrel. cbv zeta in Hrel. revert Hrel.
  generalize (if nonzero (b_active (backing_at s k)) then kernel_graphics_surface_backing_release k s else s). intros s1 (fm1 & Hs1 & Hoth & Ha).
  pose proof (su_len _ _ _ Hs1) as Hlen. pose proof (zero_pages k KERNEL_GRAPHICS_SURFACE_MAX_PAGES s1 ltac:(by rewrite Hlen) ltac:(by rewrite max_pages_val)) as Hzp. cbv zeta in Hzp. revert Hzp.
  generalize (for_range 0 KERNEL_GRAPHICS_SURFACE_MAX_PAGES (fun page s => set_page k page 0 s) s1). intros s2 [Hst Hv].
  destruct (cleared_ok fm1 s1 s2 k Hs1 Hk Ha Hst Hv) as (A & B & C). split; [by exists fm1|]. split; [|done]. intros q H0 Hne. rewrite B by done. by apply Hoth.
Qed.
Lemma init_loop_ok fm s : surface_ok s0 fm s -> let s' := for_range 0 MAX_SLOTS init_slot s in
  (exists fm', surface_ok s0 fm' s') /\ forall k, 0 <= k < MAX_SLOTS -> b_active (backing_at s' k) = 0.
Proof using Hz.
  intros Hs. cbv zeta. apply (for_range_inv (fun j s' => (exists fm', surface_ok s0 fm' s') /\ forall k, 0 <= k < j -> b_active (backing_at s' k) = 0)); [done | split; [by exists fm | lia] |].
  intros j s1 Hj [[fm1 H1] H2]. destruct (init_slot_ok fm1 s1 j H1 Hj) as (A & B & C). split; [done|]. intros k Hk. destruct (decide (k = j)) as [->|]; [done|].
  rewrite B by lia. apply H2. lia.
Qed.
Lemma all_inactive fm s : surface_ok s0 fm s -> (forall k, 0 <= k < MAX_SLOTS -> b_active (backing_at s k) = 0) ->
  acount active_slot (backing_slots s) = 0 /\ asum b_page_count (backing_slots s) = 0.
Proof using Type.
  intros Hs Hin. pose proof (su_len _ _ _ Hs) as Hlen. split.
  - apply acount_none. intros i Hi. rewrite Hlen in Hi. unfold active_slot. change (aget (backing_slots s) i) with (backing_at s i). by rewrite Hin.
  - rewrite (asum_ext _ (fun _ => 0)); [clear; induction (backing_slots s); cbn; lia|]. intros b Hb. apply list_elem_of_lookup in Hb as [i Hi].
    pose proof (lookup_lt_Some _ _ _ Hi) as Hlt. unfold alen in Hlen. assert (0 <= Z.of_nat i < MAX_SLOTS) as Hr by lia.
    assert (backing_at s (Z.of_nat i) = b) as <- by (apply aget_lookup; by rewrite Nat2Z.id).
    by destruct (sk_state _ (su_slots _ _ _ Hs _ Hr)) as [(_ & ? & _)|(Hx & _)]; [|rewrite Hin in Hx].
Qed.
Lemma restarted_ok fm s : surface_ok s0 fm s -> (forall k, 0 <= k < MAX_SLOTS -> b_active (backing_at s k) = 0) ->
  surface_ok s0 fm (s <| backing_stats := no_backing_stats |> <| backing_reserved_pages := 0 |>).
Proof using Type.
  intros Hs Hin. destruct (all_inactive fm s Hs Hin) as [Hcnt Hsum]. destruct Hs as [A1 A2 A3 A4 A5 A6 A7 A8]. constructor; try done.
  change (counts no_backing_stats = (acount active_slot (backing_slots s), asum b_page_count (backing_slots s), asum b_page_count (backing_slots s) * 4096, 0)). by rewrite Hcnt, Hsum.
Qed.
Lemma backing_init_ok fm s : surface_ok s0 fm s -> let s' := kernel_graphics_surface_backing_init s in
  (exists fm', surface_ok s0 fm' s') /\ forall k, 0 <= k < MAX_SLOTS -> b_active (backing_at s' k) = 0.
Proof using Hz.
  intros Hs. cbv zeta. unfold kernel_graphics_surface_backing_init. change KERNEL_GRAPHICS_SURFACE_MAX_OBJECTS with MAX_SLOTS.
  pose proof (init_loop_ok fm s Hs) as Hl. cbv zeta in Hl. revert Hl. generalize (for_range 0 MAX_SLOTS init_slot s). intros s1 [[fm1 Hs1] Hin].
  split; [exists fm1; by apply restarted_ok | exact Hin].
Qed.
End Operations.

(** ** Histories *)

Inductive surface_call :=
| call_backing_init
| call_backing_allocate (slot byte_size : Z)
| call_backing_release (slot : Z).
Definition surface_args (c : surface_call) : Prop :=
  match c with call_backing_init => True | call_backing_allocate slot byte_size => is_u32 slot /\ is_u32 byte_size | call_backing_release slot => is_u32 slot end.

(** The static variables at boot. *)
Definition surface_start (s0 : PagingState) : SurfaceState := {|
  backing_slots := replicate 16 empty_backing; backing_stats := no_backing_stats; backing_reserved_pages := 0; surface_vm := s0 |}.
Lemma surface_start_ok s0 : tables_ok s0 (pml4_table s0) -> surface_ok s0 ∅ (surface_start s0).
Proof.
  intros Hok. assert (forall k, 0 <= k < MAX_SLOTS -> backing_at (surface_start s0) k = empty_backing) as Hat by (intros k Hk; apply aget_replicate; unfold MAX_SLOTS in Hk; lia).
  constructor; try done.
  - by apply range_start.
  - intros k Hk. rewrite Hat by done. constructor; [|by left]. unfold empty_backing. cbn [physical_pages]. by rewrite alen_replicate.
  - intros k Hk j Hj. rewrite Hat by done. change (b_page_count empty_backing) with 0. rewrite decide_False by lia. apply lookup_empty.
  - intros i [f Hf]. by rewrite lookup_empty in Hf.
Qed.

Section Histories.
Context {E : Type} `{KernelEnv E}.
Definition run_surface (c : surface_call) (x : SurfaceState * E) : SurfaceState * E :=
  match c with
  | call_backing_init => (kernel_graphics_surface_backing_init x.1, x.2)
  | call_backing_allocate slot byte_size => let '(_, s, e) := kernel_graphics_surface_backing_allocate slot byte_size true x.1 x.2 in (s, e)
  | call_backing_release slot => (kernel_graphics_surface_backing_release slot x.1, x.2)
  end.
Definition surface_history (s0 : PagingState) (e : E) (cs : list surface_call) : SurfaceState * E := foldl (fun x c => run_surface c x) (surface_start s0, e) cs.

Lemma surface_history_ok s0 e cs : tables_ok s0 (pml4_table s0) -> arena_unmapped s0 -> Forall surface_args cs -> exists fm, surface_ok s0 fm (surface_history s0 e cs).1.
Proof.
  intros Hok Hz Hcs. unfold surface_history. assert (exists fm, surface_ok s0 fm (surface_start s0, e).1) as Hs by (exists ∅; by apply surface_start_ok).
  revert Hs. generalize (surface_start s0, e). induction Hcs as [|c cs Hc Hcs IH]; intros x [fm Hs]; [by exists fm|]. cbn [foldl]. apply IH. destruct x as [s e1]. cbn [fst] in Hs.
  destruct c as [|slot byte_size|slot]; cbn [run_surface surface_args] in *.
  - exact (proj1 (backing_init_ok s0 Hz fm s Hs)).
  - destruct Hc as [H1 H2]. destruct (allocate_ok s0 Hz fm s slot byte_size true e1 Hs ltac:(unfold is_u32 in H1; lia) H2) as (_ & Ho & _). cbn [fst snd].
    destruct (kernel_graphics_surface_backing_allocate slot byte_size true s e1) as [[r s'] e']. cbn [fst snd] in *. destruct Ho as [(_ & Ho & _)|(_ & _ & _ & (fm' & Ho & _) & _)]; by eexists.
  - destruct (backing_release_ok s0 Hz fm s slot Hs ltac:(unfold is_u32 in Hc; lia)) as (fm' & Ho & _). by exists fm'.
Qed.

(** A page that the component reports. *)
Lemma reported_page s0 fm s k j : surface_ok s0 fm s -> 0 <= k -> 0 <= j -> let phys := kernel_graphics_surface_backing_get_phys k j s in phys <> 0 ->
  0 <= k < MAX_SLOTS /\ 0 <= j < SLOT_PAGES /\ exists f, fm !! idx k j = Some f /\ phys = f * 4096.
Proof.
  intros Hs Hk Hj. cbv zeta. unfold kernel_graphics_surface_backing_get_phys. change KERNEL_GRAPHICS_SURFACE_MAX_OBJECTS with MAX_SLOTS.
  destruct (_ || _) eqn:Hc; [done|]. intros _. bprop. assert (0 <= k < MAX_SLOTS) as Hkr by lia. pose proof (slot_ok_bounds _ (su_slots _ _ _ Hs k Hkr)) as Hbd. split; [done|]. split; [lia|].
  apply (slot_has_at _ _ _ _ _ j (su_map _ _ _ Hs k Hkr)); lia.
Qed.

(** C16: Surfaces own their memory, whatever is allocated and released.  After every history of calls, from boot tables in which the surface arena is unmapped:
    each page that a surface reports is a whole block that was free at boot, is not free now and is no page table; it is what the page tables give at its place in
    the slot of the surface, and no other page of any surface is the same block; every address outside the arena translates as at boot; no block is lost (a block
    that was free is free, a page table, or behind a page of the arena); and the statistics are exact: the active backings, the pages and bytes they have mapped,
    never more than the limit, and no failure to unmap. *)
Theorem surface_histories_safe s0 e cs : tables_ok s0 (pml4_table s0) -> arena_unmapped s0 -> Forall surface_args cs ->
  let s := (surface_history s0 e cs).1 in let phys k j := kernel_graphics_surface_backing_get_phys k j s in let vm := surface_vm s in
  (forall k j, 0 <= k -> 0 <= j -> phys k j <> 0 -> exists f, phys k j = f * 4096 /\ f ∈ free_set (pmm s0) /\ (f ∉ free_set (pmm vm)) /\ ~ is_table vm (pml4_table vm) (f * 4096) /\
    vm_get_phys (slot_virtual_base k + j * VM_PAGE_SIZE) vm = (phys k j, vm)) /\
  (forall k j k' j', 0 <= k -> 0 <= j -> 0 <= k' -> 0 <= j' -> phys k j <> 0 -> phys k j = phys k' j' -> k = k' /\ j = j') /\
  (forall w, (forall i, 0 <= i < ARENA_PAGES -> ~ same_page (page VM_KERNEL_SURFACE_BASE i) w) -> (vm_get_phys w vm).1 = (vm_get_phys w s0).1) /\
  (forall b, 0 < b -> b ∈ free_set (pmm s0) -> b ∈ free_set (pmm vm) \/ is_table vm (pml4_table vm) (b * 4096) \/
    exists i, 0 <= i < ARENA_PAGES /\ (vm_get_phys (page VM_KERNEL_SURFACE_BASE i) vm).1 = b * 4096) /\
  (let t := kernel_graphics_surface_backing_get_stats s in let pages k := match kernel_graphics_surface_backing_get_info k s with Some info => bi_page_count info | None => 0 end in
    active_backings t = acount (fun b => b_active b =? 1) (backing_slots s) /\ mapped_pages t = asum b_page_count (backing_slots s) /\ mapped_bytes t = mapped_pages t * VM_PAGE_SIZE /\
    mapped_pages t <= KERNEL_GRAPHICS_SURFACE_MAX_TOTAL_PAGES /\ unmap_failures t = 0 /\ forall k, 0 <= k < KERNEL_GRAPHICS_SURFACE_MAX_OBJECTS -> pages k = b_page_count (backing_at s k)).
Proof.
  intros Hok Hz Hcs. cbv zeta. destruct (surface_history_ok s0 e cs Hok Hz Hcs) as [fm Hs]. set (s := (surface_history s0 e cs).1) in *. clearbody s. pose proof (su_range _ _ _ Hs) as Hr.
  pose proof (ri_top _ _ _ _ _ Hr) as Htop. pose proof (ri_tables _ _ _ _ _ Hr) as Htab. rewrite <- Htop in Htab. unfold vm_get_phys.
  assert (forall i f w, fm !! i = Some f -> same_page (page base i) w -> arch_vm_get_phys w (surface_vm s) = (f * 4096 + w mod 4096, surface_vm s)) as Hget.
  { intros i f w Hf Hw. rewrite get_phys_walk, Htop by done. rewrite (proj2 (proj2 (ri_page _ _ _ _ _ Hr i f Hf)) w Hw). by rewrite frame_walk by apply (ri_frame _ _ _ _ _ Hr i f Hf). }
  assert (forall i, page base i mod 4096 = 0) as Hal by (intros i; unfold page; by rewrite Z.mod_add).
  split; [|split; [|split; [|split]]].
  - intros k j Hk Hj Hne. destruct (reported_page s0 fm s k j Hs Hk Hj Hne) as (Hkr & Hjr & f & Hf & Hp). exists f. destruct (ri_frame _ _ _ _ _ Hr _ f Hf) as (_ & F1 & F2 & F3).
    rewrite <- Htop in F3. split; [done|]. split; [done|]. split; [done|]. split; [done|]. rewrite slot_page, (Hget _ f _ Hf) by done. rewrite Hal, Hp. f_equal. lia.
  - intros k j k' j' Hk Hj Hk' Hj' Hne Heq. destruct (reported_page s0 fm s k j Hs Hk Hj Hne) as (Hkr & Hjr & f & Hf & Hp). rewrite Heq in Hne.
    destruct (reported_page s0 fm s k' j' Hs Hk' Hj' Hne) as (Hkr' & Hjr' & f' & Hf' & Hp'). assert (f' = f) as -> by lia. apply idx_inj; [done | done |]. by eapply (ri_inj _ _ _ _ _ Hr).
  - intros w Hw. rewrite !get_phys_walk, Htop by done. cbn [fst]. apply (ri_other _ _ _ _ _ Hr). intros i f Hf. apply Hw. apply (su_only _ _ _ Hs). by exists f.
  - intros b Hb Hfree. rewrite Htop. destruct (ri_acc _ _ _ _ _ Hr b Hb Hfree) as [?|[?|[?|[i Hi]]]]; [by left | by right; left | done |]. right. right. exists i.
    split; [apply (su_only _ _ _ Hs); by exists b|]. change VM_KERNEL_SURFACE_BASE with base. rewrite (Hget i b _ Hi) by done. cbn [fst]. rewrite Hal. lia.
  - pose proof (su_counts _ _ _ Hs) as Hc. unfold counts in Hc. injection Hc as C1 C2 C3 C4. unfold kernel_graphics_surface_backing_get_stats, VM_PAGE_SIZE. rewrite C2.
    split_and!; try done; [apply Hs|]. intros k Hk. unfold kernel_graphics_surface_backing_get_info. rewrite (proj2 (Z.leb_gt KERNEL_GRAPHICS_SURFACE_MAX_OBJECTS k)) by lia. cbn [orb].
    destruct (sk_state _ (su_slots _ _ _ Hs k Hk)) as [(Ha & Hn & _)|(Ha & _)]; rewrite Ha; [cbn; lia | done].
Qed.

Lemma phys_of_map s0 fm s k j : surface_ok s0 fm s -> 0 <= k < MAX_SLOTS -> 0 <= j ->
  kernel_graphics_surface_backing_get_phys k j s = if (b_active (backing_at s k) =? 1) && (j <? b_page_count (backing_at s k)) then default 0 (fm !! idx k j) * 4096 else 0.
Proof.
  intros Hs Hk Hj. unfold kernel_graphics_surface_backing_get_phys. change KERNEL_GRAPHICS_SURFACE_MAX_OBJECTS with MAX_SLOTS. rewrite (proj2 (Z.leb_gt MAX_SLOTS k)) by lia. cbn [orb].
  destruct (b_active (backing_at s k) =? 1); [|done]. cbn [negb orb andb]. rewrite Z.leb_antisym. destruct (Z.ltb_spec j (b_page_count (backing_at s k))); [|done]. cbn [negb].
  destruct (slot_has_at _ _ _ _ _ j (su_map _ _ _ Hs k Hk)) as (f & -> & ->); [lia | pose proof (slot_ok_bounds _ (su_slots _ _ _ Hs k Hk)); lia | done].
Qed.
Lemma phys_same s0 fm fm' s s' k j : surface_ok s0 fm s -> surface_ok s0 fm' s' -> 0 <= k -> 0 <= j -> b_active (backing_at s' k) = b_active (backing_at s k) ->
  b_page_count (backing_at s' k) = b_page_count (backing_at s k) -> (k < MAX_SLOTS -> j < SLOT_PAGES -> fm' !! idx k j = fm !! idx k j) -> kernel_graphics_surface_backing_get_phys k j s' = kernel_graphics_surface_backing_get_phys k j s.
Proof.
  intros Hs Hs' Hk Hj Ha Hc Hf. destruct (decide (k < MAX_SLOTS)) as [Hlt|Hge].
  { rewrite (phys_of_map s0 fm s k j Hs), (phys_of_map s0 fm' s' k j Hs'), Ha, Hc by lia. pose proof (slot_ok_bounds _ (su_slots _ _ _ Hs k ltac:(lia))) as Hbd.
    destruct (Z.ltb_spec j (b_page_count (backing_at s k))); [by rewrite Hf by lia | by rewrite andb_false_r]. }
  unfold kernel_graphics_surface_backing_get_phys. change KERNEL_GRAPHICS_SURFACE_MAX_OBJECTS with MAX_SLOTS. by rewrite (proj2 (Z.leb_le MAX_SLOTS k)) by lia.
Qed.

(** C17: Allocating the memory of a surface is all or nothing, and works when it can.  After any history: when the call fails, every slot reports the same size and
    the same pages as before.  When it succeeds, the answer is the base of the slot and the number of pages that hold the request, the slot was free, the slot
    reports just that and has a block behind each page, and the other slots report what they did.  It does succeed when the slot is free, the size and the total
    are within the limits, four blocks per page are free, no 1 GiB page is in the way and no fault is injected. *)
Theorem surface_backing_allocate_exact s0 e cs slot byte_size : tables_ok s0 (pml4_table s0) -> arena_unmapped s0 -> Forall surface_args cs -> is_u32 slot -> is_u32 byte_size ->
  let x := surface_history s0 e cs in let s := x.1 in let '(answer, s', _) := kernel_graphics_surface_backing_allocate slot byte_size true s x.2 in
  let phys k j := kernel_graphics_surface_backing_get_phys k j in let info := kernel_graphics_surface_backing_get_info in
  (answer = None -> forall k, 0 <= k -> info k s' = info k s /\ forall j, 0 <= j -> phys k j s' = phys k j s) /\
  (forall address n, answer = Some (address, n) -> address = slot_virtual_base slot /\ n = (byte_size + 4095) / 4096 /\ info slot s = None /\
    info slot s' = Some {| bi_active := 1; bi_page_count := n; bi_byte_size := byte_size; bi_virtual_base := address |} /\
    (forall j, 0 <= j < n -> phys slot j s' <> 0) /\ (forall k, 0 <= k -> k <> slot -> info k s' = info k s /\ forall j, 0 <= j -> phys k j s' = phys k j s)) /\
  (requestable slot byte_size s -> no_fault E -> room (4 * Z.to_nat (pages_of byte_size)) (surface_vm s) ->
    (forall j, 0 <= j < pages_of byte_size -> no_giant (surface_vm s) (pml4_table s0) (slot_virtual_base slot + j * VM_PAGE_SIZE)) -> answer <> None).
Proof.
  intros Hok Hz Hcs Hslot Hsize. cbv zeta. destruct (surface_history_ok s0 e cs Hok Hz Hcs) as [fm Hs]. destruct (surface_history s0 e cs) as [s e1]. cbn [fst snd] in *.
  destruct (allocate_ok s0 Hz fm s slot byte_size true e1 Hs ltac:(unfold is_u32 in Hslot; lia) Hsize) as (Hoth & Ho & Hw).
  destruct (kernel_graphics_surface_backing_allocate slot byte_size true s e1) as [[answer s'] e']. cbn [fst snd] in *.
  assert (forall k, b_active (backing_at s' k) = b_active (backing_at s k) -> b_page_count (backing_at s' k) = b_page_count (backing_at s k) ->
    b_byte_size (backing_at s' k) = b_byte_size (backing_at s k) -> kernel_graphics_surface_backing_get_info k s' = kernel_graphics_surface_backing_get_info k s) as Hinfo.
  { intros k A B C. unfold kernel_graphics_surface_backing_get_info. by rewrite A, B, C. }
  split; [|split].
  - intros ->. destruct Ho as [(_ & Hs' & A & B & C)|(? & _)]; [|done]. intros k Hk. destruct (decide (k = slot)) as [->|Hne].
    + split; [by apply Hinfo|]. intros j Hj. by apply (phys_same s0 fm fm).
    + specialize (Hoth k Hk Hne). split; [by apply Hinfo; rewrite Hoth|]. intros j Hj. by apply (phys_same s0 fm fm); rewrite ?Hoth.
  - intros address n ->. destruct Ho as [(? & _)|(Ha & _ & Hq & (fm' & Hs' & He) & pg & Hnew)]; [done|]. injection Ha as -> ->.
    destruct Hq as (Hk & Hb & Hact & _). split; [done|]. split; [done|]. unfold kernel_graphics_surface_backing_get_info at 1 2. change KERNEL_GRAPHICS_SURFACE_MAX_OBJECTS with MAX_SLOTS.
    rewrite (proj2 (Z.leb_gt MAX_SLOTS slot)), Hact, Hnew by lia. split; [done|]. split; [done|]. split.
    + intros j Hj. rewrite (phys_of_map s0 fm' s' slot j Hs' Hk) by lia. rewrite Hnew. cbn [new_backing b_active b_page_count Z.eqb andb]. rewrite (proj2 (Z.ltb_lt _ _)) by apply Hj.
      destruct (slot_has_at _ _ _ _ _ j (su_map _ _ _ Hs' slot Hk)) as (f & Hf & _); [lia | rewrite Hnew; pose proof (pages_of_bounds byte_size Hb); cbn [new_backing b_page_count]; lia |].
      rewrite Hf. destruct (ri_frame _ _ _ _ _ (su_range _ _ _ Hs') _ f Hf) as [? _]. cbn. lia.
    + intros k Hk0 Hne. specialize (Hoth k Hk0 Hne). split; [by apply Hinfo; rewrite Hoth|]. intros j Hj. apply (phys_same s0 fm fm'); rewrite ?Hoth; try done.
      intros Hkm Hjm. apply He. intros j' Hj' Hx. apply idx_inj in Hx as [Hx _]; [done | lia | done].
  - intros Hq Hnf Hrm Hng. apply Hw; try done. intros j Hj. rewrite <- slot_page. by apply Hng.
Qed.
End Histories.

(** ** Witnesses *)

Lemma demo_arena : arena_unmapped demo_paging.
Proof. intros i w _ _. unfold walk_phys. by rewrite demo_words. Qed.
Lemma demo_tables_top : tables_ok demo_paging (pml4_table demo_paging).
Proof. exact (demo_tables 0x1000 eq_refl ltac:(done) eq_refl). Qed.
Lemma surface_histories_safe_witness : let s := (surface_history demo_paging tt [call_backing_init; call_backing_allocate 3 5000; call_backing_release 3; call_backing_allocate 2 70000]).1 in
  mapped_pages (kernel_graphics_surface_backing_get_stats s) = asum b_page_count (backing_slots s) /\ unmap_failures (kernel_graphics_surface_backing_get_stats s) = 0.
Proof.
  destruct (surface_histories_safe demo_paging tt [call_backing_init; call_backing_allocate 3 5000; call_backing_release 3; call_backing_allocate 2 70000] demo_tables_top demo_arena)
    as (_ & _ & _ & _ & _ & Hm & _ & _ & Hu & _); [repeat constructor; unfold is_u32; lia|]. exact (conj Hm Hu).
Defined.
Lemma surface_backing_allocate_exact_witness :
  (kernel_graphics_surface_backing_allocate 1 100 true (surface_start demo_paging) tt).1.1 <> None.
Proof.
  pose proof (surface_backing_allocate_exact demo_paging tt [] 1 100 demo_tables_top demo_arena ltac:(by constructor) ltac:(by split) ltac:(by split)) as Ht.
  change (surface_history demo_paging tt []) with (surface_start demo_paging, tt) in Ht. cbv zeta in Ht. cbn [fst snd] in Ht. revert Ht.
  destruct (kernel_graphics_surface_backing_allocate 1 100 true (surface_start demo_paging) tt) as [[answer s'] e']. cbn [fst snd]. intros (_ & _ & Hw).
  apply Hw; [| done | exact (proj1 (demo_ready 4 0 ltac:(lia))) | intros j _; exact (proj2 (demo_ready 0 _ ltac:(lia)))].
  split_and!; (done || (vm_compute; (done || discriminate))).
Defined.
