(* ===== verification/AddressSpace.v ===== *)
(** * User address spaces ([kernel/mm/address_space.cpp])

    An address space has a root of page tables, a table of regions with their
    rights, and the state of its TLB protocol: a mutation first enters a gate
    that keeps user accesses out, changes tables or regions under the space's
    lock, then asks the other processors to flush and leaves the gate.

    Spaces live at addresses ([spaces]); 0 is the null pointer.  A call that has
    to wait for another processor in the gate does not return in the state it
    was called in: its result is [None] ([AccessGate] models that waiting as
    steps).  The fields [reserved0] and [reserved1] of a region, which are only
    ever zeroed, are left out. *)

From S2P Require Import Prelude KernelEnv Pmm Paging Vm.

Definition ADDRESS_SPACE_MAX_REGIONS : Z := 32.
Definition ADDRESS_SPACE_TLB_PAGE_LIMIT : Z := 32.
Definition ADDRESS_SPACE_QUARANTINE_LIMIT : Z := 64.
Definition ADDRESS_SPACE_REGION_READ : Z := 1.
Definition ADDRESS_SPACE_REGION_WRITE : Z := 2.
Definition ADDRESS_SPACE_REGION_EXECUTE : Z := 4.
Definition KERNEL_LOCK_CLASS_ADDRESS_SPACE : Z := 2.

Record AddressSpaceRegion := {
  region_active : Z; region_rights : Z; region_start : Z; region_end : Z }.
#[export] Instance AddressSpaceRegion_settable : Settable AddressSpaceRegion := {| eta_expand r := {|
  region_active := region_active r; region_rights := region_rights r; region_start := region_start r;
  region_end := region_end r |} |}.
#[export] Instance AddressSpaceRegion_inhabited : Inhabited AddressSpaceRegion :=
  populate {| region_active := 0; region_rights := 0; region_start := 0; region_end := 0 |}.

Record AddressSpace := {
  root_phys : Z;
  code_base : Z; elf_link_base : Z; stack_guard_base : Z; stack_base : Z;
  heap_base : Z; heap_break : Z; heap_mapped_end : Z; heap_limit : Z;
  code_page_count : Z; elf_alias_page_count : Z; stack_guard_page_count : Z; stack_page_count : Z; heap_page_count : Z;
  region_count : Z; regions : list AddressSpaceRegion;
  identity : Z; tlb_generation : Z; operation_token : Z;
  active_cpu_mask : Z; cached_cpu_mask : Z; shootdown_active : Z; active_user_accesses : Z;
  shootdown_count : Z; shootdown_timeout_count : Z; quarantined_page_count : Z; retired_page_count : Z }.
#[export] Instance AddressSpace_settable : Settable AddressSpace := {| eta_expand a := {|
  root_phys := root_phys a; code_base := code_base a; elf_link_base := elf_link_base a;
  stack_guard_base := stack_guard_base a; stack_base := stack_base a; heap_base := heap_base a;
  heap_break := heap_break a; heap_mapped_end := heap_mapped_end a; heap_limit := heap_limit a;
  code_page_count := code_page_count a; elf_alias_page_count := elf_alias_page_count a;
  stack_guard_page_count := stack_guard_page_count a; stack_page_count := stack_page_count a;
  heap_page_count := heap_page_count a; region_count := region_count a; regions := regions a;
  identity := identity a; tlb_generation := tlb_generation a; operation_token := operation_token a;
  active_cpu_mask := active_cpu_mask a; cached_cpu_mask := cached_cpu_mask a;
  shootdown_active := shootdown_active a; active_user_accesses := active_user_accesses a;
  shootdown_count := shootdown_count a; shootdown_timeout_count := shootdown_timeout_count a;
  quarantined_page_count := quarantined_page_count a; retired_page_count := retired_page_count a |} |}.
#[export] Instance AddressSpace_inhabited : Inhabited AddressSpace := populate {|
  root_phys := 0; code_base := 0; elf_link_base := 0; stack_guard_base := 0; stack_base := 0; heap_base := 0;
  heap_break := 0; heap_mapped_end := 0; heap_limit := 0; code_page_count := 0; elf_alias_page_count := 0;
  stack_guard_page_count := 0; stack_page_count := 0; heap_page_count := 0; region_count := 0; regions := [];
  identity := 0; tlb_generation := 0; operation_token := 0; active_cpu_mask := 0; cached_cpu_mask := 0;
  shootdown_active := 0; active_user_accesses := 0; shootdown_count := 0; shootdown_timeout_count := 0;
  quarantined_page_count := 0; retired_page_count := 0 |}.

(** What the current processor has loaded: fields of [CpuLocal]; [cpu_valid] is
    the answer of [cpu_local_validate]. *)
Record LoadedSpace := {
  cpu_valid : bool; logical_id : Z;
  loaded_address_space : Z; loaded_address_space_identity : Z; loaded_address_space_root : Z;
  observed_tlb_generation : Z; tlb_local_flush_count : Z }.
#[export] Instance LoadedSpace_settable : Settable LoadedSpace := {| eta_expand l := {|
  cpu_valid := cpu_valid l; logical_id := logical_id l; loaded_address_space := loaded_address_space l;
  loaded_address_space_identity := loaded_address_space_identity l;
  loaded_address_space_root := loaded_address_space_root l;
  observed_tlb_generation := observed_tlb_generation l; tlb_local_flush_count := tlb_local_flush_count l |} |}.

Record SpaceState := {
  spaces : gmap Z AddressSpace;
  next_address_space_identity : Z;
  local : LoadedSpace;
  paging : PagingState }.
#[export] Instance SpaceState_settable : Settable SpaceState := {| eta_expand s := {|
  spaces := spaces s; next_address_space_identity := next_address_space_identity s; local := local s;
  paging := paging s |} |}.

Definition space_at (s : SpaceState) (p : Z) : AddressSpace := spaces s !!! p.
Definition upd_space (p : Z) (f : AddressSpace -> AddressSpace) (s : SpaceState) : SpaceState :=
  s <| spaces := <[p := f (space_at s p)]> (spaces s) |>.
(** [&space->lock] *)
Definition space_lock (p : Z) : lock_ref := p + 864.

(** The processors, reached through [kernel/cpu/smp.cpp] and the lock services. *)
Class SpaceHost (E : Type) := {
  (** [smp_tlb_shootdown(space, address, page_count, full, generation, token, mask, &ack)]:
      whether it completed, and the processors that acknowledged. *)
  smp_tlb_shootdown : Z -> Z -> Z -> bool -> Z -> Z -> Z -> E -> (Z * Z) * E;
  kernel_tlb_wait_enter : E -> Z * E;
  kernel_spinlock_depth : E -> Z;
  kernel_in_tlb_wait : E -> Z;
}.

Record AddressSpaceInvalidation := {
  inv_generation : Z; inv_token : Z; inv_address : Z; inv_page_count : Z; inv_target_mask : Z; inv_full_flush : bool }.

(** ** Helpers *)

Definition flags_to_rights (flags : Z) : Z :=
  let rights := ADDRESS_SPACE_REGION_READ in
  let rights := if has VM_FLAG_WRITABLE flags then Z.lor rights ADDRESS_SPACE_REGION_WRITE else rights in
  if negb (has VM_FLAG_NO_EXECUTE flags) then Z.lor rights ADDRESS_SPACE_REGION_EXECUTE else rights.

Definition allocate_identity (s : SpaceState) : Z * SpaceState :=
  let identity := next_address_space_identity s in
  let s := s <| next_address_space_identity := u64 (identity + 1) |> in
  if identity =? 0 then
    let identity := next_address_space_identity s in
    (identity, s <| next_address_space_identity := u64 (identity + 1) |>)
  else (identity, s).

Definition no_region : AddressSpaceRegion :=
  {| region_active := 0; region_rights := 0; region_start := 0; region_end := 0 |}.
Definition reset_regions_unlocked (a : AddressSpace) : AddressSpace :=
  let a := a <| code_base := 0 |> <| elf_link_base := 0 |> <| stack_guard_base := 0 |> <| stack_base := 0 |>
    <| heap_base := 0 |> <| heap_break := 0 |> <| heap_mapped_end := 0 |> <| heap_limit := 0 |>
    <| code_page_count := 0 |> <| elf_alias_page_count := 0 |> <| stack_guard_page_count := 0 |>
    <| stack_page_count := 0 |> <| heap_page_count := 0 |> <| region_count := 0 |> in
  a <| regions := replicate (Z.to_nat ADDRESS_SPACE_MAX_REGIONS) no_region |>.

(** ** Regions *)

Definition region_contains (r : AddressSpaceRegion) (address : Z) : bool :=
  nonzero (region_active r) && (region_start r <=? address) && (address <? region_end r).
Definition find_region (a : AddressSpace) (address : Z) : option AddressSpaceRegion :=
  match find_first (fun i => region_contains (aget (regions a) i) address) 0 (Z.to_nat ADDRESS_SPACE_MAX_REGIONS) with
  | Some i => Some (aget (regions a) i)
  | None => None
  end.

(** The locked body of [address_space_add_region]. *)
Definition add_region_body (begin end_ rights : Z) (a : AddressSpace) : Z * AddressSpace :=
  let joins r := nonzero (region_active r) &&
    (((region_end r =? begin) || (region_start r =? end_)) && (region_rights r =? rights)) in
  match find_first (fun i => joins (aget (regions a) i)) 0 (Z.to_nat ADDRESS_SPACE_MAX_REGIONS) with
  | Some i =>
    let r := aget (regions a) i in
    let r := if (region_end r =? begin) && (region_rights r =? rights) then r <| region_end := end_ |>
             else r <| region_start := begin |> in
    (1, a <| regions := aset (regions a) i r |>)
  | None =>
    match find_first (fun i => negb (nonzero (region_active (aget (regions a) i)))) 0 (Z.to_nat ADDRESS_SPACE_MAX_REGIONS) with
    | Some i =>
      let r := {| region_active := 1; region_rights := rights; region_start := begin; region_end := end_ |} in
      (1, a <| regions := aset (regions a) i r |> <| region_count := u32 (region_count a + 1) |>)
    | None => (0, a)
    end
  end.

(** One round of the loop of [address_space_remove_region]: whether it stops. *)
Definition remove_step (begin end_ i : Z) (a : AddressSpace) : bool * AddressSpace :=
  let region := aget (regions a) i in
  let put r a := a <| regions := aset (regions a) i r |> in
  if negb (nonzero (region_active region)) || (region_end region <=? begin) || (end_ <=? region_start region) then (false, a)
  else if (begin <=? region_start region) && (region_end region <=? end_) then
    let a := put no_region a in
    (false, if 0 <? region_count a then a <| region_count := region_count a - 1 |> else a)
  else if begin <=? region_start region then (false, put (region <| region_start := end_ |>) a)
  else if region_end region <=? end_ then (false, put (region <| region_end := begin |>) a)
  else
    match find_first (fun j => negb (nonzero (region_active (aget (regions a) j)))) 0 (Z.to_nat ADDRESS_SPACE_MAX_REGIONS) with
    | Some j =>
      let split := {| region_active := 1; region_rights := region_rights region; region_start := end_;
                      region_end := region_end region |} in
      let a := a <| regions := aset (regions a) j split |> in
      (true, put (region <| region_end := begin |>) a <| region_count := u32 (region_count a + 1) |>)
    | None => (true, put (region <| region_end := begin |>) a)
    end.
Fixpoint remove_loop (n : nat) (begin end_ i : Z) (a : AddressSpace) : AddressSpace :=
  match n with
  | O => a
  | S n =>
    let '(stop, a) := remove_step begin end_ i a in
    if stop then a else remove_loop n begin end_ (i + 1) a
  end.
Definition remove_region_body (begin end_ : Z) (a : AddressSpace) : AddressSpace :=
  remove_loop (Z.to_nat ADDRESS_SPACE_MAX_REGIONS) begin end_ 0 a.

(** ** The mutation gate *)

Section Operations.
Context {E : Type} `{KernelEnv E} `{SpaceHost E}.
Implicit Types (s : SpaceState) (e : E).

Definition mutation_gate_release (p : Z) (s : SpaceState) : SpaceState :=
  upd_space p (fun a => a <| shootdown_active := 0 |>) s.

(** [None]: the gate is taken, or user accesses are in progress, and the call
    waits. *)
Definition mutation_gate_enter (p : Z) (s : SpaceState) (e : E) : option (Z * SpaceState * E) :=
  if (p =? 0) || nonzero (shootdown_timeout_count (space_at s p)) then Some (0, s, e)
  else if shootdown_active (space_at s p) =? 0 then
    let s := upd_space p (fun a => a <| shootdown_active := 1 |>) s in
    if shootdown_timeout_count (space_at s p) =? 0 then
      if nonzero (active_user_accesses (space_at s p)) then None else Some (1, s, e)
    else Some (0, mutation_gate_release p s, e)
  else
    let '(ok, e) := kernel_tlb_wait_enter e in
    if ok =? 0 then Some (0, s, e) else None.

Definition begin_invalidation_unlocked (p address page_count : Z) (full_flush : bool) (s : SpaceState)
    : AddressSpaceInvalidation * SpaceState :=
  let bump x := let x := u64 (x + 1) in if x =? 0 then u64 (x + 1) else x in
  let generation := bump (tlb_generation (space_at s p)) in
  let token := bump (operation_token (space_at s p)) in
  let s := upd_space p (fun a => a <| tlb_generation := generation |> <| operation_token := token |>) s in
  ({| inv_generation := generation; inv_token := token; inv_address := align_down_page address;
      inv_page_count := page_count; inv_target_mask := cached_cpu_mask (space_at s p);
      inv_full_flush := full_flush || (page_count =? 0) || (ADDRESS_SPACE_TLB_PAGE_LIMIT <? page_count) |}, s).

Definition complete_invalidation (p : Z) (inv : AddressSpaceInvalidation) (s : SpaceState) (e : E) : Z * SpaceState * E :=
  let '((completed, acknowledged), e) :=
    if nonzero (inv_target_mask inv) then
      smp_tlb_shootdown p (inv_address inv) (inv_page_count inv) (inv_full_flush inv) (inv_generation inv)
        (inv_token inv) (inv_target_mask inv) e
    else ((1, 0), e) in
  let '(locked, e) := kernel_spinlock_acquire (space_lock p) e in
  if negb locked then (0, mutation_gate_release p s, e)
  else
    let a := space_at s p in
    let token_valid := (operation_token a =? inv_token inv) && (tlb_generation a =? inv_generation inv) in
    let '(completed, s) :=
      if nonzero completed && token_valid && (Z.land acknowledged (inv_target_mask inv) =? inv_target_mask inv)
      then (completed, upd_space p (fun a => a <| shootdown_count := u64 (shootdown_count a + 1) |>) s)
      else (0, upd_space p (fun a => a <| shootdown_timeout_count := u64 (shootdown_timeout_count a + 1) |>) s) in
    let s := mutation_gate_release p s in
    (completed, s, kernel_spinlock_release (space_lock p) e).

(** The state a fresh space starts in; [address_space_recycle] keeps the root. *)
Definition fresh_space (root id : Z) (a : AddressSpace) : AddressSpace :=
  reset_regions_unlocked (a <| root_phys := root |> <| identity := id |> <| tlb_generation := 1 |> <| operation_token := 0 |>
    <| active_cpu_mask := 0 |> <| cached_cpu_mask := 0 |> <| shootdown_active := 0 |> <| active_user_accesses := 0 |>
    <| shootdown_count := 0 |> <| shootdown_timeout_count := 0 |> <| quarantined_page_count := 0 |>
    <| retired_page_count := 0 |>).
Definition address_space_init (p : Z) (s : SpaceState) (e : E) : SpaceState * E :=
  if p =? 0 then (s, e)
  else
    let e := kernel_spinlock_setup (space_lock p) KERNEL_LOCK_CLASS_ADDRESS_SPACE e in
    let '(id, s) := allocate_identity s in
    (upd_space p (fresh_space 0 id) s, e).
Definition address_space_recycle (p : Z) (s : SpaceState) (e : E) : SpaceState * E :=
  if p =? 0 then (s, e)
  else
    let root := root_phys (space_at s p) in
    let e := kernel_spinlock_setup (space_lock p) KERNEL_LOCK_CLASS_ADDRESS_SPACE e in
    let '(id, s) := allocate_identity s in
    (upd_space p (fresh_space root id) s, e).

Definition ensure_root_unlocked (p : Z) (s : SpaceState) (e : E) : Z * SpaceState * E :=
  if root_phys (space_at s p) =? 0 then
    let '(root, pg, e) := vm_create_root (paging s) e in
    let s := upd_space p (fun a => a <| root_phys := root |>) (s <| paging := pg |>) in
    (if root =? 0 then 0 else 1, s, e)
  else (1, s, e).
Definition address_space_ensure_root (p : Z) (s : SpaceState) (e : E) : Z * SpaceState * E :=
  if p =? 0 then (0, s, e) else with_lock_env (space_lock p) 0 (ensure_root_unlocked p) s e.

(** The frame of the mutating calls: enter the gate, lock, run [body], unlock.
    [body] answers [inl] to leave the gate at once, [inr] to go on with the gate
    held. *)
Definition with_gate {A B : Type} (p : Z) (fail : A) (body : SpaceState -> E -> (A + B) * SpaceState * E)
    (s : SpaceState) (e : E) : option ((A + B) * SpaceState * E) :=
  match mutation_gate_enter p s e with
  | None => None
  | Some (entered, s, e) =>
    if entered =? 0 then Some (inl fail, s, e)
    else
      let '(locked, e) := kernel_spinlock_acquire (space_lock p) e in
      if negb locked then Some (inl fail, mutation_gate_release p s, e)
      else
        let '(r, s, e) := body s e in
        let e := kernel_spinlock_release (space_lock p) e in
        match r with
        | inl a => Some (inl a, mutation_gate_release p s, e)
        | inr b => Some (inr b, s, e)
        end
  end.

Definition address_space_reset_user (p : Z) (s : SpaceState) (e : E) : option (SpaceState * E) :=
  if p =? 0 then Some (s, e)
  else
    match with_gate (B := unit) p tt (fun s e => (inl tt, upd_space p reset_regions_unlocked s, e)) s e with
    | None => None
    | Some (_, s, e) => Some (s, e)
    end.

(** ** Activation *)

Definition address_space_activate_kernel (s : SpaceState) : SpaceState :=
  let l := local s in
  let s :=
    if cpu_valid l then
      let previous := loaded_address_space l in
      let bit := u32 (Z.shiftl 1 (logical_id l)) in
      let s := if nonzero previous
               then upd_space previous (fun a => a <| active_cpu_mask := Z.land (active_cpu_mask a) (not32 bit) |>) s else s in
      s <| local := l <| loaded_address_space := 0 |> <| loaded_address_space_identity := 0 |>
             <| loaded_address_space_root := 0 |> <| observed_tlb_generation := 0 |> |>
    else s in
  let '(root, pg) := vm_get_root_phys (paging s) in
  s <| paging := vm_switch_root root pg |>.

Definition address_space_activate (p : Z) (s : SpaceState) : SpaceState :=
  if (p =? 0) || (root_phys (space_at s p) =? 0) then address_space_activate_kernel s
  else
    let l := local s in
    if cpu_valid l then
      let bit := u32 (Z.shiftl 1 (logical_id l)) in
      let previous := loaded_address_space l in
      let s := if nonzero previous && negb (previous =? p)
               then upd_space previous (fun a => a <| active_cpu_mask := Z.land (active_cpu_mask a) (not32 bit) |>) s else s in
      let s := upd_space p (fun a => a <| active_cpu_mask := Z.lor (active_cpu_mask a) bit |>) s in
      let s := upd_space p (fun a => a <| cached_cpu_mask := Z.lor (cached_cpu_mask a) bit |>) s in
      let generation := tlb_generation (space_at s p) in
      let s := s <| paging := vm_switch_root (root_phys (space_at s p)) (paging s) |> in
      s <| local := l <| loaded_address_space := p |> <| loaded_address_space_identity := identity (space_at s p) |>
             <| loaded_address_space_root := root_phys (space_at s p) |> <| observed_tlb_generation := generation |>
             <| tlb_local_flush_count := u64 (tlb_local_flush_count l + 1) |> |>
    else s <| paging := vm_switch_root (root_phys (space_at s p)) (paging s) |>.

(** ** Regions *)

Definition address_space_add_region (p start size rights : Z) (s : SpaceState) (e : E) : option (Z * SpaceState * E) :=
  if (p =? 0) || (size =? 0) then Some (1, s, e)
  else
    let begin := align_down_page start in
    let end_ := align_up_page (u64 (start + size)) in
    if end_ <=? begin then Some (0, s, e)
    else
      match with_gate (B := unit) p 0
              (fun s e => let '(r, a) := add_region_body begin end_ rights (space_at s p) in
                          (inl r, upd_space p (fun _ => a) s, e)) s e with
      | None => None
      | Some (inl r, s, e) => Some (r, s, e)
      | Some (inr _, s, e) => Some (0, s, e)
      end.

Definition address_space_remove_region (p start size : Z) (s : SpaceState) (e : E) : option (SpaceState * E) :=
  if (p =? 0) || (size =? 0) then Some (s, e)
  else
    let begin := align_down_page start in
    let end_ := align_up_page (u64 (start + size)) in
    match with_gate (B := unit) p tt (fun s e => (inl tt, upd_space p (remove_region_body begin end_) s, e)) s e with
    | None => None
    | Some (_, s, e) => Some (s, e)
    end.

Definition address_space_get_phys (p virt : Z) (s : SpaceState) : Z * SpaceState :=
  if (p =? 0) || (root_phys (space_at s p) =? 0) then (0, s)
  else let '(phys, pg) := vm_get_phys_in_root (root_phys (space_at s p)) virt (paging s) in (phys, s <| paging := pg |>).
Definition address_space_get_flags (p virt : Z) (s : SpaceState) : Z * SpaceState :=
  if (p =? 0) || (root_phys (space_at s p) =? 0) then (0, s)
  else let '(flags, pg) := vm_get_flags_in_root (root_phys (space_at s p)) virt (paging s) in (flags, s <| paging := pg |>).
Definition address_space_identity (p : Z) (s : SpaceState) : Z := if p =? 0 then 0 else identity (space_at s p).
Definition address_space_tlb_generation (p : Z) (s : SpaceState) : Z := if p =? 0 then 0 else tlb_generation (space_at s p).

Definition address_space_owns_address (p address : Z) (s : SpaceState) : Z :=
  if p =? 0 then 0 else match find_region (space_at s p) address with Some _ => 1 | None => 0 end.

Definition has_rights_body (p address rights : Z) (s : SpaceState) : Z * SpaceState :=
  let region := find_region (space_at s p) address in
  let '(flags, s) := address_space_get_flags p address s in
  let valid := match region with
               | Some r => (Z.land (region_rights r) rights =? rights) && has VM_FLAG_USER flags
               | None => false
               end in
  let valid := if has ADDRESS_SPACE_REGION_WRITE rights && negb (has VM_FLAG_WRITABLE flags) then false else valid in
  let valid := if has ADDRESS_SPACE_REGION_EXECUTE rights && has VM_FLAG_NO_EXECUTE flags then false else valid in
  (if valid then 1 else 0, s).
Definition address_space_address_has_rights (p address rights : Z) (s : SpaceState) (e : E) : Z * SpaceState * E :=
  let all := Z.lor (Z.lor ADDRESS_SPACE_REGION_READ ADDRESS_SPACE_REGION_WRITE) ADDRESS_SPACE_REGION_EXECUTE in
  if (p =? 0) || (address =? 0) || nonzero (Z.land rights (not32 all)) then (0, s, e)
  else with_lock (space_lock p) 0 (has_rights_body p address rights) s e.

(** The walk over the pages of a buffer; [fuel] is at least their number. *)
Fixpoint accessible_loop (fuel : nat) (p address end_ : Z) (writable : bool) (s : SpaceState) : bool * SpaceState :=
  match fuel with
  | O => (false, s)
  | S fuel =>
    match find_region (space_at s p) address with
    | None => (false, s)
    | Some region =>
      if negb (has ADDRESS_SPACE_REGION_READ (region_rights region)) ||
         (writable && negb (has ADDRESS_SPACE_REGION_WRITE (region_rights region))) then (false, s)
      else
        let '(flags, s) := address_space_get_flags p address s in
        if negb (has VM_FLAG_USER flags) || (writable && negb (has VM_FLAG_WRITABLE flags)) then (false, s)
        else if Z.land address PAGE_MASK =? Z.land end_ PAGE_MASK then (true, s)
        else accessible_loop fuel p (u64 (Z.land address PAGE_MASK + VM_PAGE_SIZE)) end_ writable s
    end
  end.
Definition buffer_body (p start end_ : Z) (writable : bool) (s : SpaceState) : Z * SpaceState :=
  let '(accessible, s) := accessible_loop (Z.to_nat (end_ / VM_PAGE_SIZE - start / VM_PAGE_SIZE + 1)) p start end_ writable s in
  let accessible := if accessible then match find_region (space_at s p) end_ with Some _ => true | None => false end else false in
  (if accessible then 1 else 0, s).
Definition address_space_buffer_accessible (p start size : Z) (writable : bool) (s : SpaceState) (e : E) : Z * SpaceState * E :=
  if size =? 0 then (1, s, e)
  else if (p =? 0) || (start =? 0) then (0, s, e)
  else
    let end_ := u64 (start + size - 1) in
    if end_ <? start then (0, s, e)
    else with_lock (space_lock p) 0 (buffer_body p start end_ writable) s e.

(** ** User accesses *)

Definition address_space_user_access_begin (p expected_identity : Z) (s : SpaceState) (e : E) : Z * SpaceState :=
  if (p =? 0) || (expected_identity =? 0) || negb (kernel_spinlock_depth e =? 0) || nonzero (kernel_in_tlb_wait e)
     || nonzero (shootdown_timeout_count (space_at s p)) then (0, s)
  else if nonzero (shootdown_active (space_at s p)) then (0, s)
  else
    let s := upd_space p (fun a => a <| active_user_accesses := u32 (active_user_accesses a + 1) |>) s in
    if nonzero (shootdown_active (space_at s p)) || negb (identity (space_at s p) =? expected_identity)
    then (0, upd_space p (fun a => a <| active_user_accesses := u32 (active_user_accesses a - 1) |>) s)
    else (1, s).
Definition address_space_user_access_end (p : Z) (s : SpaceState) : SpaceState :=
  if p =? 0 then s
  else if active_user_accesses (space_at s p) =? 0 then s
  else upd_space p (fun a => a <| active_user_accesses := active_user_accesses a - 1 |>) s.

(** ** Mapping *)

(** The part shared by the calls that change translations: a refusal leaves the
    gate, a change is followed by the invalidation it needs. *)
Definition mutate_tables (p : Z) (body : SpaceState -> E -> option (Z * Z * bool) * SpaceState * E) (s : SpaceState) (e : E)
    : option (Z * SpaceState * E) :=
  match with_gate p 0
          (fun s e => let '(r, s, e) := body s e in
             match r with
             | None => (inl 0, s, e)
             | Some (address, pages, full) =>
               let '(inv, s) := begin_invalidation_unlocked p address pages full s in (inr inv, s, e)
             end) s e with
  | None => None
  | Some (inl r, s, e) => Some (r, s, e)
  | Some (inr inv, s, e) => Some (complete_invalidation p inv s e)
  end.

Definition map_page_body (p virt phys flags : Z) (s : SpaceState) (e : E) : option (Z * Z * bool) * SpaceState * E :=
  let '(ok, s, e) := ensure_root_unlocked p s e in
  if ok =? 0 then (None, s, e)
  else
    let '(mapped, pg, e) := vm_map_page_in_root (root_phys (space_at s p)) virt phys flags (paging s) e in
    let s := s <| paging := pg |> in
    (if mapped =? 0 then None else Some (virt, 1, false), s, e).
Definition address_space_map_page (p virt phys flags : Z) (s : SpaceState) (e : E) : option (Z * SpaceState * E) :=
  if p =? 0 then Some (0, s, e) else mutate_tables p (map_page_body p virt phys flags) s e.

Definition unmap_page_body (p virt : Z) (s : SpaceState) (e : E) : option (Z * Z * bool) * SpaceState * E :=
  let '(unmapped, pg) := vm_unmap_page_in_root (root_phys (space_at s p)) virt (paging s) in
  let s := s <| paging := pg |> in
  (if unmapped =? 0 then None else Some (virt, 1, false), s, e).
Definition address_space_unmap_page (p virt : Z) (s : SpaceState) (e : E) : option (Z * SpaceState * E) :=
  if (p =? 0) || (root_phys (space_at s p) =? 0) then Some (0, s, e) else mutate_tables p (unmap_page_body p virt) s e.

Definition protect_body (p virt size flags : Z) (s : SpaceState) (e : E) : option (Z * Z * bool) * SpaceState * E :=
  let '(ok, s, e) := ensure_root_unlocked p s e in
  if ok =? 0 then (None, s, e)
  else
    let '(done_, pg, e) := vm_protect_range_in_root (root_phys (space_at s p)) virt size flags (paging s) e in
    let s := s <| paging := pg |> in
    if done_ =? 0 then (None, s, e)
    else
      let begin := align_down_page virt in
      let end_ := align_up_page (u64 (virt + size)) in
      let pages := if begin <? end_ then (end_ - begin) / VM_PAGE_SIZE else 0 in
      (Some (begin, if pages <=? 0xFFFFFFFF then pages else 0, ADDRESS_SPACE_TLB_PAGE_LIMIT <? pages), s, e).
Definition address_space_protect_range (p virt size flags : Z) (s : SpaceState) (e : E) : option (Z * SpaceState * E) :=
  if p =? 0 then Some (0, s, e) else mutate_tables p (protect_body p virt size flags) s e.

(** ** Releasing ranges *)

(** The inner loop: the physical pages taken out of the tables. *)
Fixpoint retire_pages (n : nat) (root address : Z) (pg : PagingState) : list Z * PagingState :=
  match n with
  | O => ([], pg)
  | S n =>
    let '(phys, pg) := vm_get_phys_in_root root address pg in
    let phys := Z.land phys PAGE_MASK in
    if phys =? 0 then ([], pg)
    else
      let '(ok, pg) := vm_unmap_page_in_root root address pg in
      if ok =? 0 then ([], pg)
      else let '(l, pg) := retire_pages n root (u64 (address + VM_PAGE_SIZE)) pg in (phys :: l, pg)
  end.
Definition retire_chunk_body (p chunk_begin chunk : Z) (s : SpaceState) (e : E)
    : (unit + list Z * AddressSpaceInvalidation) * SpaceState * E :=
  let '(physical, pg) := retire_pages (Z.to_nat chunk) (root_phys (space_at s p)) chunk_begin (paging s) in
  let s := s <| paging := pg |> in
  let unmapped := alen physical in
  if unmapped =? 0 then (inl tt, s, e)
  else
    let s := upd_space p (fun a => a <| quarantined_page_count := u64 (quarantined_page_count a + unmapped) |>) s in
    let '(inv, s) := begin_invalidation_unlocked p chunk_begin unmapped (ADDRESS_SPACE_TLB_PAGE_LIMIT <? unmapped) s in
    (inr (physical, inv), s, e).
Definition free_pages (physical : list Z) (s : SpaceState) : SpaceState :=
  s <| paging := foldl (fun pg phys => free_phys phys pg) (paging s) physical |>.
Definition retired_body (p unmapped : Z) (s : SpaceState) : unit * SpaceState :=
  (tt, upd_space p (fun a => a <| quarantined_page_count := u64 (quarantined_page_count a - unmapped) |>
                               <| retired_page_count := u64 (retired_page_count a + unmapped) |>) s).
(** Each round but the last retires a page, so [page_count] rounds are enough. *)
Fixpoint retire_range (fuel : nat) (p begin page_count total : Z) (s : SpaceState) (e : E) : option (Z * SpaceState * E) :=
  match fuel with
  | O => Some (total, s, e)
  | S fuel =>
    if page_count <=? total then Some (total, s, e)
    else
      let chunk := u32 (page_count - total) in
      let chunk := if ADDRESS_SPACE_QUARANTINE_LIMIT <? chunk then ADDRESS_SPACE_QUARANTINE_LIMIT else chunk in
      let chunk_begin := u64 (begin + total * VM_PAGE_SIZE) in
      match with_gate p tt (retire_chunk_body p chunk_begin chunk) s e with
      | None => None
      | Some (inl _, s, e) => Some (total, s, e)
      | Some (inr (physical, inv), s, e) =>
        let unmapped := alen physical in
        let '(ok, s, e) := complete_invalidation p inv s e in
        if ok =? 0 then Some (u32 (total + unmapped), s, e)
        else
          let s := free_pages physical s in
          let '(_, s, e) := with_lock (space_lock p) tt (retired_body p unmapped) s e in
          let total := u32 (total + unmapped) in
          if negb (unmapped =? chunk) then Some (total, s, e)
          else retire_range fuel p begin page_count total s e
      end
  end.
Definition address_space_unmap_free_range (p virt page_count : Z) (s : SpaceState) (e : E) : option (Z * SpaceState * E) :=
  if (p =? 0) || (root_phys (space_at s p) =? 0) || (page_count =? 0) then Some (0, s, e)
  else
    let begin := align_down_page virt in
    match retire_range (Z.to_nat page_count) p begin page_count 0 s e with
    | None => None
    | Some (total, s, e) =>
      if total =? 0 then Some (0, s, e)
      else
        match address_space_remove_region p begin (u64 (total * VM_PAGE_SIZE)) s e with
        | None => None
        | Some (s, e) => Some (total, s, e)
        end
    end.

(** ** Allocating ranges *)

Fixpoint map_fresh_pages (n : nat) (root address mapped flags : Z) (pg : PagingState) (e : E) : Z * PagingState * E :=
  match n with
  | O => (mapped, pg, e)
  | S n =>
    let '(phys, m, e) := pmm_alloc_block (pmm pg) e in
    let pg := pg <| pmm := m |> in
    if phys =? 0 then (mapped, pg, e)
    else
      let '(ok, pg, e) := vm_map_page_in_root root address phys flags pg e in
      if ok =? 0 then (mapped, free_phys phys pg, e)
      else map_fresh_pages n root (address + VM_PAGE_SIZE) (u32 (mapped + 1)) flags pg e
  end.
(** [inl None]: no root; [inl (Some expected)]: no page was mapped. *)
Definition alloc_range_body (p begin end_ flags : Z) (s : SpaceState) (e : E)
    : (option Z + Z * Z * AddressSpaceInvalidation) * SpaceState * E :=
  let '(ok, s, e) := ensure_root_unlocked p s e in
  if ok =? 0 then (inl None, s, e)
  else
    let n := if begin <? end_ then page_span begin end_ else 0%nat in
    let '(mapped, pg, e) := map_fresh_pages n (root_phys (space_at s p)) begin 0 flags (paging s) e in
    let s := s <| paging := pg |> in
    let expected := u32 (u64 (end_ - begin) / VM_PAGE_SIZE) in
    if mapped =? 0 then (inl (Some expected), s, e)
    else
      let '(inv, s) := begin_invalidation_unlocked p begin mapped (ADDRESS_SPACE_TLB_PAGE_LIMIT <? mapped) s in
      (inr (mapped, expected, inv), s, e).
(** After the pages are mapped and invalidated: the roll-back, or the region. *)
Definition finish_alloc (p virt size flags begin mapped expected : Z) (s : SpaceState) (e : E)
    : option ((Z * Z) * SpaceState * E) :=
  let undo s e := match address_space_unmap_free_range p begin mapped s e with
                  | None => None
                  | Some (_, s, e) => Some ((0, 0), s, e)
                  end in
  if negb (mapped =? expected) then undo s e
  else
    match address_space_add_region p virt size (flags_to_rights flags) s e with
    | None => None
    | Some (added, s, e) => if added =? 0 then undo s e else Some ((1, mapped), s, e)
    end.
(** The answer and [*out_page_count]. *)
Definition address_space_alloc_map_range (p virt size flags : Z) (s : SpaceState) (e : E) : option ((Z * Z) * SpaceState * E) :=
  if p =? 0 then Some ((0, 0), s, e)
  else if size =? 0 then Some ((1, 0), s, e)
  else
    let begin := align_down_page virt in
    let end_ := align_up_page (u64 (virt + size)) in
    match with_gate p None (alloc_range_body p begin end_ flags) s e with
    | None => None
    | Some (inl None, s, e) => Some ((0, 0), s, e)
    | Some (inl (Some expected), s, e) => finish_alloc p virt size flags begin 0 expected s e
    | Some (inr (mapped, expected, inv), s, e) =>
      let '(ok, s, e) := complete_invalidation p inv s e in
      if ok =? 0 then Some ((0, 0), s, e) else finish_alloc p virt size flags begin mapped expected s e
    end.
End Operations.
