(* ===== verification/AddressRegions.v ===== *)
(** * The region table of an address space

    The regions of a space are disjoint and made of whole pages ([regions_wf]);
    what they mean is the rights of each address ([rights_at]).  Adding a region
    of unclaimed addresses gives exactly those the rights, whether it joins a
    neighbour or takes a slot; removing a range takes the rights of exactly its
    addresses, with one exception: a range in the middle of a region, when no
    slot is free for the upper part, takes the upper part as well. *)

From S2P Require Import Prelude KernelEnv Pmm Paging Vm AddressSpace.

Definition is_active (r : AddressSpaceRegion) : bool := nonzero (region_active r).
Definition SLOTS : Z := ADDRESS_SPACE_MAX_REGIONS.

Record region_ok (r : AddressSpaceRegion) : Prop := {
  ro_order : 0 <= region_start r < region_end r;
  ro_start : region_start r mod 4096 = 0;
  ro_end : region_end r mod 4096 = 0;
}.
Record regions_wf (a : AddressSpace) : Prop := {
  rw_len : alen (regions a) = SLOTS;
  rw_each : forall i, 0 <= i < SLOTS -> is_active (aget (regions a) i) = true -> region_ok (aget (regions a) i);
  rw_apart : forall i j, 0 <= i < SLOTS -> 0 <= j < SLOTS -> i <> j -> is_active (aget (regions a) i) = true ->
    is_active (aget (regions a) j) = true ->
    region_end (aget (regions a) i) <= region_start (aget (regions a) j) \/
    region_end (aget (regions a) j) <= region_start (aget (regions a) i);
  rw_count : region_count a = acount is_active (regions a);
}.

(** ** Rights *)

Definition rights_at (a : AddressSpace) (address : Z) : option Z := region_rights <$> find_region a address.
Definition covered (a : AddressSpace) (address rights : Z) : Prop :=
  exists i, 0 <= i < SLOTS /\ region_contains (aget (regions a) i) address = true /\ region_rights (aget (regions a) i) = rights.

Lemma contains_iff r address : region_contains r address = true <->
  is_active r = true /\ region_start r <= address < region_end r.
Proof. unfold region_contains, is_active. rewrite !andb_true_iff, Z.leb_le, Z.ltb_lt. tauto. Qed.
Lemma contains_unique a i j address : regions_wf a -> 0 <= i < SLOTS -> 0 <= j < SLOTS ->
  region_contains (aget (regions a) i) address = true -> region_contains (aget (regions a) j) address = true -> i = j.
Proof.
  rewrite !contains_iff. intros Hw Hi Hj [Ai Hi'] [Aj Hj']. destruct (decide (i = j)) as [|Hne]; [done|].
  destruct (rw_apart _ Hw i j Hi Hj Hne Ai Aj); lia.
Qed.
Lemma rights_covered a address rights : regions_wf a -> rights_at a address = Some rights <-> covered a address rights.
Proof.
  intros Hw. unfold rights_at, find_region, covered. set (P := fun i => region_contains (aget (regions a) i) address).
  destruct (find_first P 0 _) as [i|] eqn:Hf.
  - apply find_first_Some in Hf as (Hi & Hc & _). unfold SLOTS. rewrite Z2Nat.id in Hi by done. split.
    + intros [= <-]. exists i. split; [lia | done].
    + intros (j & Hj & Hcj & <-). by rewrite (contains_unique a i j address Hw) by (done || unfold SLOTS; lia).
  - split; [done|]. intros (j & Hj & Hcj & _). pose proof (find_first_None _ _ _ Hf j) as Hn.
    unfold P in Hn. rewrite Hcj in Hn. discriminate Hn. unfold SLOTS in Hj. rewrite Z2Nat.id; [lia | done].
Qed.
Lemma rights_ext a a' address : regions_wf a -> regions_wf a' ->
  (forall r, covered a' address r <-> covered a address r) -> rights_at a' address = rights_at a address.
Proof. intros Hw Hw' Hc. apply option_eq. intros r. by rewrite !rights_covered, Hc. Qed.
Lemma rights_None a address : regions_wf a -> rights_at a address = None <-> forall r, ~ covered a address r.
Proof.
  intros Hw. split.
  - intros Hn r Hc. apply rights_covered in Hc; [congruence | done].
  - intros Hn. destruct (rights_at a address) as [r|] eqn:Hr; [|done]. by destruct (Hn r); apply rights_covered.
Qed.

(** A range none of whose addresses is claimed. *)
Definition unclaimed (a : AddressSpace) (begin end_ : Z) : Prop := forall x, begin <= x < end_ -> rights_at a x = None.
Lemma unclaimed_apart a begin end_ i : regions_wf a -> unclaimed a begin end_ -> begin < end_ -> 0 <= i < SLOTS ->
  is_active (aget (regions a) i) = true ->
  region_end (aget (regions a) i) <= begin \/ end_ <= region_start (aget (regions a) i).
Proof.
  intros Hw Hu Hlt Hi Ha. destruct (rw_each _ Hw i Hi Ha) as [Ho _ _].
  destruct (decide (region_end (aget (regions a) i) <= begin)) as [|Hn]; [by left | right].
  destruct (decide (end_ <= region_start (aget (regions a) i))) as [|Hn']; [done|]. exfalso.
  assert (begin <= Z.max begin (region_start (aget (regions a) i)) < end_) as Hx by lia. specialize (Hu _ Hx).
  apply (proj1 (rights_None a _ Hw) Hu (region_rights (aget (regions a) i))). exists i. split; [done|]. split; [|done].
  apply contains_iff. split; [done | lia].
Qed.

(** ** Adding *)

Lemma put_lookup a i r j : alen (regions a) = SLOTS -> 0 <= i < SLOTS -> 0 <= j < SLOTS ->
  aget (aset (regions a) i r) j = if decide (i = j) then r else aget (regions a) j.
Proof. intros Hl Hi Hj. apply aget_aset; lia. Qed.

(** A table with one slot replaced is well formed if the new region is apart
    from the others. *)
Lemma put_wf a i r c : regions_wf a -> 0 <= i < SLOTS -> (is_active r = true -> region_ok r) ->
  (forall j, 0 <= j < SLOTS -> j <> i -> is_active (aget (regions a) j) = true -> is_active r = true ->
     region_end (aget (regions a) j) <= region_start r \/ region_end r <= region_start (aget (regions a) j)) ->
  c = region_count a - (if is_active (aget (regions a) i) then 1 else 0) + (if is_active r then 1 else 0) ->
  regions_wf (a <| regions := aset (regions a) i r |> <| region_count := c |>).
Proof.
  intros [Hl He Hap Hc] Hi Hr Hapart Ec. set (a' := a <| regions := _ |> <| region_count := _ |>).
  assert (regions a' = aset (regions a) i r) as Er by done. assert (region_count a' = c) as Ecc by done. clearbody a'.
  constructor; rewrite ?Er.
  - by rewrite alen_aset.
  - intros j Hj. rewrite put_lookup by done. case_decide; [done | by apply He].
  - intros j k Hj Hk Hjk. rewrite !put_lookup by done. repeat case_decide; subst; try done; intros A1 A2.
    + destruct (Hapart k Hk ltac:(done) A2 A1); lia.
    + destruct (Hapart j Hj ltac:(done) A1 A2); lia.
    + by apply Hap.
  - rewrite acount_aset by (rewrite Hl; done). rewrite Ecc, Ec, Hc. lia.
Qed.
Lemma put_covered a i r c address rights : alen (regions a) = SLOTS -> 0 <= i < SLOTS ->
  let a' := a <| regions := aset (regions a) i r |> <| region_count := c |> in
  covered a' address rights <->
  (region_contains r address = true /\ region_rights r = rights) \/
  exists j, 0 <= j < SLOTS /\ j <> i /\ region_contains (aget (regions a) j) address = true /\ region_rights (aget (regions a) j) = rights.
Proof.
  intros Hl Hi. cbv zeta. set (a' := a <| regions := _ |> <| region_count := _ |>).
  assert (regions a' = aset (regions a) i r) as Er by done. clearbody a'. unfold covered. rewrite Er. split.
  - intros (j & Hj & Hc & Hr). rewrite put_lookup in Hc, Hr by done. case_decide; [by left | right; exists j; auto].
  - intros [[Hc Hr]|(j & Hj & Hne & Hc & Hr)]; [exists i | exists j]; (split; [done|]); rewrite put_lookup by done.
    + by rewrite decide_True.
    + by rewrite decide_False.
Qed.

(** The region that [address_space_add_region] writes, and where. *)
Lemma free_slot a i : find_first (fun i => negb (nonzero (region_active (aget (regions a) i)))) 0 (Z.to_nat ADDRESS_SPACE_MAX_REGIONS) = Some i ->
  0 <= i < SLOTS /\ is_active (aget (regions a) i) = false.
Proof.
  intros (Hi & Hn & _)%find_first_Some. unfold SLOTS. rewrite Z2Nat.id in Hi by done. split; [lia|].
  unfold is_active. by apply negb_true_iff.
Qed.
Lemma no_free_slot a : find_first (fun i => negb (nonzero (region_active (aget (regions a) i)))) 0 (Z.to_nat ADDRESS_SPACE_MAX_REGIONS) = None ->
  forall i, 0 <= i < SLOTS -> is_active (aget (regions a) i) = true.
Proof.
  intros Hn i Hi. pose proof (find_first_None _ _ _ Hn i) as Hx. cbv beta in Hx. unfold SLOTS in Hi. rewrite Z2Nat.id in Hx by done.
  specialize (Hx ltac:(lia)). unfold is_active. by apply negb_false_iff.
Qed.
(** All slots hold regions. *)
Definition full_table (a : AddressSpace) : Prop := forall i, 0 <= i < SLOTS -> is_active (aget (regions a) i) = true.

Lemma count_small a : regions_wf a -> 0 <= region_count a <= 32.
Proof.
  intros Hw. rewrite (rw_count _ Hw). pose proof (acount_bounds is_active (regions a)) as Hb. rewrite (rw_len _ Hw) in Hb. exact Hb.
Qed.

(** Rights after one slot was replaced by a region that covers its old addresses
    and the new range. *)
Lemma put_rights a i r c begin end_ rights : regions_wf a ->
  let a' := a <| regions := aset (regions a) i r |> <| region_count := c |> in regions_wf a' ->
  0 <= i < SLOTS -> is_active r = true -> region_rights r = rights ->
  (is_active (aget (regions a) i) = true -> region_rights (aget (regions a) i) = rights) ->
  (forall x, region_start r <= x < region_end r <-> begin <= x < end_ \/ region_contains (aget (regions a) i) x = true) ->
  unclaimed a begin end_ ->
  forall x, rights_at a' x = if decide (begin <= x < end_) then Some rights else rights_at a x.
Proof.
  intros Hw a' Hw' Hi Hact Hrr Hold Hspan Hun x. unfold a' in *. case_decide as Hx.
  - apply rights_covered; [done|]. apply put_covered; [apply Hw | done |]. left. split; [|done]. apply contains_iff. split; [done|].
    apply Hspan. by left.
  - apply rights_ext; [done | done |]. intros q. rewrite put_covered by (done || apply Hw). unfold covered. split.
    + intros [[Hc Hq]|(j & Hj & _ & Hc & Hq)]; [|by exists j]. apply contains_iff in Hc as [_ Hc]. apply Hspan in Hc as [?|Hc]; [done|].
      exists i. split; [done|]. split; [done|]. rewrite <- Hq, Hrr. apply Hold. by apply contains_iff in Hc as [? _].
    + intros (j & Hj & Hc & Hq). destruct (decide (j = i)) as [->|Hne]; [left | right; exists j; auto].
      split; [apply contains_iff; split; [done|]; apply Hspan; by right|]. rewrite Hrr, <- Hq. symmetry. apply Hold. by apply contains_iff in Hc as [? _].
Qed.

Lemma add_region_exact a begin end_ rights : regions_wf a -> 0 <= begin < end_ -> begin mod 4096 = 0 -> end_ mod 4096 = 0 ->
  unclaimed a begin end_ ->
  let r := add_region_body begin end_ rights a in
  regions_wf r.2 /\
  ((r.1 = 1 /\ forall x, rights_at r.2 x = if decide (begin <= x < end_) then Some rights else rights_at a x) \/
   (r.1 = 0 /\ r.2 = a /\ full_table a)).
Proof.
  intros Hw Hlt Hb He Hun. cbv zeta. unfold add_region_body.
  cbv zeta. destruct (find_first _ 0 _) as [i|] eqn:Hf.
  - apply find_first_Some in Hf as (Hi & Hj & _). rewrite Z2Nat.id in Hi by done. assert (0 <= i < SLOTS) as Hi' by (unfold SLOTS; lia).
    set (r := aget (regions a) i) in *. apply andb_true_iff in Hj as [Hact [Hj Hr]%andb_true_iff]. apply Z.eqb_eq in Hr.
    fold (is_active r) in Hact. destruct (rw_each _ Hw i Hi' Hact) as [Ho Hs Hen]. fold r in Ho, Hs, Hen. rewrite Hr, Z.eqb_refl, andb_true_r.
    set (r' := if region_end r =? begin then r <| region_end := end_ |> else r <| region_start := begin |>). cbn [fst snd].
    assert (is_active r' = true /\ region_rights r' = rights /\ region_ok r' /\
      forall x, region_start r' <= x < region_end r' <-> begin <= x < end_ \/ region_start r <= x < region_end r) as (Ha' & Hr' & Hok' & Hspan).
    { unfold r'. apply orb_true_iff in Hj as [Hj|Hj]; [rewrite Hj; apply Z.eqb_eq in Hj|].
      - split; [done|]. split; [done|]. split; [constructor; cbn; [lia | done | done]|]. cbn. lia.
      - apply Z.eqb_eq in Hj. destruct (region_end r =? begin) eqn:Hx; [apply Z.eqb_eq in Hx; lia|].
        split; [done|]. split; [done|]. split; [constructor; cbn; [lia | done | done]|]. cbn. lia. }
    assert (a <| regions := aset (regions a) i r' |> = a <| regions := aset (regions a) i r' |> <| region_count := region_count a |>) as -> by (by destruct a).
    assert (regions_wf (a <| regions := aset (regions a) i r' |> <| region_count := region_count a |>)) as Hw'.
    { apply put_wf; [done | done | done | | fold r; rewrite Hact, Ha'; lia]. intros j Hj' Hne Aj _.
      pose proof (unclaimed_apart a begin end_ j Hw Hun ltac:(lia) Hj' Aj) as U1. pose proof (rw_apart _ Hw j i Hj' Hi' Hne Aj Hact) as U2.
      fold r in U2. destruct (rw_each _ Hw j Hj' Aj) as [Hoj _ _]. destruct Hok' as [Ho' _ _].
      destruct (proj1 (Hspan (region_start r')) ltac:(lia)), (proj1 (Hspan (region_end r' - 1)) ltac:(lia)), U1, U2; lia. }
    split; [done|]. left. split; [done|].
    apply (put_rights a i r' (region_count a) begin end_ rights Hw Hw' Hi' Ha' Hr'); [done | | done].
    intros x. rewrite Hspan. fold r. rewrite contains_iff, Hact. tauto.
  - clear Hf. destruct (find_first _ 0 _) as [i|] eqn:Hs; cbn [fst snd].
    + apply free_slot in Hs as [Hi Hina]. set (r' := {| region_active := 1; region_rights := rights; region_start := begin; region_end := end_ |}).
      rewrite u32_small by (pose proof (count_small a Hw); unfold is_u32; lia).
      assert (regions_wf (a <| regions := aset (regions a) i r' |> <| region_count := region_count a + 1 |>)) as Hw'.
      { apply put_wf; [done | done | by constructor | | rewrite Hina; cbn; lia]. intros j Hj Hne Aj _. cbn.
        destruct (unclaimed_apart a begin end_ j Hw Hun ltac:(lia) Hj Aj); lia. }
      split; [done|]. left. split; [done|]. apply (put_rights a i r' _ begin end_ rights Hw Hw' Hi eq_refl eq_refl); [by rewrite Hina | | done].
      intros x. rewrite contains_iff, Hina. cbn. intuition congruence.
    + split; [done|]. right. split; [done|]. split; [done | exact (no_free_slot a Hs)].
Qed.

(** ** Removing *)

Section Remove.
Context (begin end_ : Z) (Hlt : begin < end_).

(** What is left of a region, where it does not split. *)
Definition trim (r : AddressSpaceRegion) : AddressSpaceRegion :=
  if negb (is_active r) || (region_end r <=? begin) || (end_ <=? region_start r) then r
  else if (begin <=? region_start r) && (region_end r <=? end_) then no_region
  else if begin <=? region_start r then r <| region_start := end_ |>
  else r <| region_end := begin |>.
Definition splits (r : AddressSpaceRegion) : bool :=
  is_active r && (region_start r <? begin) && (end_ <? region_end r).

Lemma trim_contains r x : region_ok r -> splits r = false ->
  region_contains (trim r) x = true <-> region_contains r x = true /\ ~ begin <= x < end_.
Proof using Hlt.
  intros [Ho _ _] Hs. unfold trim, splits in *. rewrite (contains_iff r). destruct (is_active r) eqn:Ha; cbn [negb orb andb] in *.
  2: { rewrite contains_iff, Ha. intuition congruence. }
  destruct (region_end r <=? begin) eqn:E1; [apply Z.leb_le in E1; cbn [orb]; rewrite contains_iff, Ha; intuition lia|].
  destruct (end_ <=? region_start r) eqn:E2; [apply Z.leb_le in E2; cbn [orb]; rewrite contains_iff, Ha; intuition lia|]. cbn [orb].
  apply Z.leb_gt in E1, E2. destruct (begin <=? region_start r) eqn:E3, (region_end r <=? end_) eqn:E4; cbn [andb];
    rewrite ?Z.leb_le, ?Z.leb_gt in E3, E4; rewrite contains_iff.
  - unfold is_active, no_region. cbn. intuition lia.
  - change (is_active (r <| region_start := end_ |>)) with (is_active r). rewrite Ha. cbn. intuition lia.
  - change (is_active (r <| region_end := begin |>)) with (is_active r). rewrite Ha. cbn. intuition lia.
  - exfalso. apply andb_false_iff in Hs as [Hs|Hs]; apply Z.ltb_ge in Hs; lia.
Qed.
Lemma trim_rights r : is_active (trim r) = true -> region_rights (trim r) = region_rights r /\ is_active r = true.
Proof using Hlt.
  unfold trim. destruct (is_active r) eqn:Ha; cbn [negb orb]; [|by rewrite Ha].
  destruct (_ || _); [done|]. destruct (_ && _); [done|]. by destruct (begin <=? _).
Qed.
Lemma trim_ok r : region_ok r -> splits r = false -> begin mod 4096 = 0 -> end_ mod 4096 = 0 -> is_active (trim r) = true -> region_ok (trim r).
Proof using Hlt.
  intros [Ho Hs He] Hsp Hb Hen. unfold trim, splits in *. destruct (is_active r) eqn:Ha; cbn [negb orb andb] in *; [|by rewrite Ha].
  destruct (region_end r <=? begin) eqn:E1; [by constructor|]. destruct (end_ <=? region_start r) eqn:E2; [by constructor|].
  cbn [orb]. apply Z.leb_gt in E1, E2. destruct (begin <=? region_start r) eqn:E3, (region_end r <=? end_) eqn:E4; cbn [andb];
    rewrite ?Z.leb_le, ?Z.leb_gt in E3, E4; intros Hact; try done; constructor; cbn; try done; lia.
Qed.

(** The step of the loop, as a function of the region. *)
Lemma remove_step_trim a i :
  splits (aget (regions a) i) = false -> alen (regions a) = SLOTS -> 0 <= i < SLOTS ->
  (is_active (aget (regions a) i) = true -> 0 < region_count a) ->
  remove_step begin end_ i a =
    (false, a <| regions := aset (regions a) i (trim (aget (regions a) i)) |>
              <| region_count := region_count a - (if is_active (aget (regions a) i) && negb (is_active (trim (aget (regions a) i))) then 1 else 0) |>).
Proof using Hlt.
  intros Hs Hl Hi Hpos. unfold remove_step, trim, splits in *. fold (is_active (aget (regions a) i)). set (r := aget (regions a) i) in *.
  assert (forall b : bool, b = false -> a = a <| regions := aset (regions a) i r |> <| region_count := region_count a - (if b then 1 else 0) |>) as Hid.
  { intros b ->. unfold r, aset. rewrite list_insert_id by (apply lookup_aget; lia). destruct a. cbn. by rewrite Z.sub_0_r. }
  destruct (is_active r) eqn:Ha; cbn [negb orb andb] in *; [|f_equal; exact (Hid false eq_refl)].
  destruct (region_end r <=? begin) eqn:E1; [cbn [orb]; f_equal; apply (Hid (negb (is_active r))); by rewrite Ha|].
  destruct (end_ <=? region_start r) eqn:E2; [cbn [orb]; f_equal; apply (Hid (negb (is_active r))); by rewrite Ha|]. cbn [orb].
  destruct (begin <=? region_start r) eqn:E3, (region_end r <=? end_) eqn:E4; cbn [andb].
  - cbn. rewrite (proj2 (Z.ltb_lt 0 _)) by auto. done.
  - change (is_active (r <| region_start := end_ |>)) with (is_active r). rewrite Ha. cbn [negb]. rewrite Z.sub_0_r. by destruct a.
  - change (is_active (r <| region_end := begin |>)) with (is_active r). rewrite Ha. cbn [negb]. rewrite Z.sub_0_r. by destruct a.
  - exfalso. apply Z.leb_gt in E3, E4. apply andb_false_iff in Hs as [Hs|Hs]; apply Z.ltb_ge in Hs; lia.
Qed.

(** Only the regions and their number change. *)
Definition only_regions (a a' : AddressSpace) : Prop := a' = a <| regions := regions a' |> <| region_count := region_count a' |>.
Lemma only_regions_put a rs c : only_regions a (a <| regions := rs |> <| region_count := c |>).
Proof. by destruct a. Qed.
Lemma only_regions_trans a1 a2 a3 : only_regions a1 a2 -> only_regions a2 a3 -> only_regions a1 a3.
Proof. unfold only_regions. intros H1 H2. rewrite H2, H1. by destruct a1. Qed.

Lemma remove_loop_trim n : forall i a, alen (regions a) = SLOTS -> region_count a = acount is_active (regions a) ->
  (forall j, i <= j < SLOTS -> splits (aget (regions a) j) = false) -> 0 <= i -> i + Z.of_nat n = SLOTS ->
  let a' := remove_loop n begin end_ i a in
  alen (regions a') = SLOTS /\ region_count a' = acount is_active (regions a') /\ only_regions a a' /\
  forall j, 0 <= j < SLOTS -> aget (regions a') j = if decide (j < i) then aget (regions a) j else trim (aget (regions a) j).
Proof using Hlt.
  induction n as [|n IH]; intros i a Hl Hc Hs Hi Hn; cbv zeta; cbn [remove_loop].
  - split; [done|]. split; [done|]. split; [by destruct a|]. intros j Hj. by rewrite decide_True by lia.
  - set (r := aget (regions a) i) in *. rewrite remove_step_trim; [| by apply Hs; lia | done | lia |].
    2: { intros Ha. rewrite Hc. by apply (acount_pos is_active (regions a) i); [lia|]. }
    fold r. set (a1 := a <| regions := _ |> <| region_count := _ |>). assert (regions a1 = aset (regions a) i (trim r)) as Er by done.
    assert (region_count a1 = region_count a - (if is_active r && negb (is_active (trim r)) then 1 else 0)) as Ec by done.
    destruct (IH (i + 1) a1) as (A & B & C & D); [by rewrite Er, alen_aset | | | lia | lia |].
    + rewrite Ec, Er, acount_aset, Hc by lia. fold r. destruct (is_active (trim r)) eqn:Ht; [|destruct (is_active r); cbn; lia].
      rewrite (proj2 (trim_rights r Ht)). cbn. lia.
    + intros j Hj. rewrite Er, put_lookup, decide_False by lia. apply Hs. lia.
    + split; [done|]. split; [done|]. split; [eapply only_regions_trans; [apply only_regions_put | exact C]|].
      intros j Hj. rewrite D, Er, !put_lookup by lia. repeat case_decide; subst; try lia; done.
Qed.

Lemma remove_loop_split n : forall i i0 a, regions_wf a -> 0 <= i -> i <= i0 < i + Z.of_nat n -> i0 < SLOTS -> i + Z.of_nat n <= SLOTS ->
  splits (aget (regions a) i0) = true -> (remove_step begin end_ i0 a).1 = true ->
  remove_loop n begin end_ i a = (remove_step begin end_ i0 a).2.
Proof using Hlt.
  induction n as [|n IH]; intros i i0 a Hw Hi Hi0 Hb Hn Hs Hstop; [lia|]. cbn [remove_loop].
  destruct (decide (i = i0)) as [->|Hne]; [destruct (remove_step begin end_ i0 a) as [st a']; cbn [fst] in Hstop; by subst st|].
  assert (remove_step begin end_ i a = (false, a)) as ->; [|apply IH; try done; lia].
  unfold remove_step. fold (is_active (aget (regions a) i)). destruct (is_active (aget (regions a) i)) eqn:Ha; [|done]. cbn [negb orb].
  unfold splits in Hs. apply andb_true_iff in Hs as [[Ha0 H1%Z.ltb_lt]%andb_true_iff H2%Z.ltb_lt].
  destruct (rw_apart _ Hw i i0 ltac:(lia) ltac:(lia) Hne Ha Ha0) as [?|?].
  - by rewrite (proj2 (Z.leb_le (region_end _) begin)) by lia.
  - rewrite (proj2 (Z.leb_le end_ (region_start _))) by lia. by rewrite orb_true_r.
Qed.

Context (Hb : begin mod 4096 = 0) (He : end_ mod 4096 = 0) (H0 : 0 <= begin).

(** The rights a removal leaves when [[begin, upto)] is taken away. *)
Definition removed (a : AddressSpace) (upto : Z) (a' : AddressSpace) : Prop :=
  forall x, rights_at a' x = if decide (begin <= x < upto) then None else rights_at a x.

Lemma remove_no_split a : regions_wf a -> (forall j, 0 <= j < SLOTS -> splits (aget (regions a) j) = false) ->
  let a' := remove_region_body begin end_ a in regions_wf a' /\ only_regions a a' /\ removed a end_ a'.
Proof using All.
  intros Hw Hs. cbv zeta. unfold remove_region_body.
  destruct (remove_loop_trim (Z.to_nat ADDRESS_SPACE_MAX_REGIONS) 0 a (rw_len _ Hw) (rw_count _ Hw) Hs ltac:(lia) eq_refl) as (A & B & C & D).
  set (a' := remove_loop _ begin end_ 0 a) in *.
  assert (forall j, 0 <= j < SLOTS -> aget (regions a') j = trim (aget (regions a) j)) as Hg by (intros j Hj; rewrite D, decide_False by lia; done).
  assert (forall j, 0 <= j < SLOTS -> forall x, region_contains (trim (aget (regions a) j)) x = true <->
    region_contains (aget (regions a) j) x = true /\ ~ begin <= x < end_) as Hc.
  { intros j Hj x. destruct (is_active (aget (regions a) j)) eqn:Ha; [apply trim_contains; [by apply (rw_each _ Hw) | by apply Hs]|].
    rewrite !contains_iff, Ha. split; [|intuition congruence]. intros [Hx _]. destruct (trim_rights _ Hx). congruence. }
  assert (regions_wf a') as Hw'.
  { constructor; [done | | | done].
    - intros i Hi. rewrite Hg by done. intros Ha. destruct (trim_rights _ Ha) as [_ Hr]. apply trim_ok; try done; [by apply (rw_each _ Hw) | by apply Hs].
    - intros i j Hi Hj Hij. rewrite !Hg by done. intros Ai Aj.
      pose proof (trim_ok _ (rw_each _ Hw i Hi (proj2 (trim_rights _ Ai))) (Hs i Hi) Hb He Ai) as [Oi _ _].
      pose proof (trim_ok _ (rw_each _ Hw j Hj (proj2 (trim_rights _ Aj))) (Hs j Hj) Hb He Aj) as [Oj _ _].
      set (x := Z.max (region_start (trim (aget (regions a) i))) (region_start (trim (aget (regions a) j)))).
      destruct (decide (region_end (trim (aget (regions a) i)) <= region_start (trim (aget (regions a) j)))) as [|N1]; [by left|].
      destruct (decide (region_end (trim (aget (regions a) j)) <= region_start (trim (aget (regions a) i)))) as [|N2]; [by right|]. exfalso. apply Hij.
      apply (contains_unique a i j x Hw Hi Hj); [apply (Hc i Hi) | apply (Hc j Hj)]; apply contains_iff; (split; [done | lia]). }
  split; [done|]. split; [done|]. intros x. case_decide as Hx.
  - apply rights_None; [done|]. intros r (j & Hj & Hcj & _). rewrite Hg in Hcj by done. by apply (Hc j Hj) in Hcj as [_ ?].
  - apply rights_ext; [done | done |]. intros r. unfold covered. split; intros (j & Hj & Hcj & Hr); exists j; (split; [done|]).
    + rewrite Hg in Hcj, Hr by done. pose proof Hcj as [Ha _]%contains_iff. destruct (trim_rights _ Ha) as [E _]. rewrite E in Hr.
      by apply (Hc j Hj) in Hcj as [? _].
    + rewrite Hg by done. assert (region_contains (trim (aget (regions a) j)) x = true) as Hx' by (by apply (Hc j Hj)). split; [done|].
      pose proof Hx' as [Ha _]%contains_iff. by destruct (trim_rights _ Ha) as [-> _].
Qed.

(** The region that is cut: its lower part stays. *)
Lemma remove_lower a i : regions_wf a -> 0 <= i < SLOTS -> splits (aget (regions a) i) = true ->
  let r := aget (regions a) i in
  let a' := a <| regions := aset (regions a) i (r <| region_end := begin |>) |> <| region_count := region_count a |> in
  regions_wf a' /\ removed a (region_end r) a'.
Proof using All.
  intros Hw Hi Hs. cbv zeta. set (r := aget (regions a) i) in *. set (lo := r <| region_end := begin |>).
  unfold splits in Hs. apply andb_true_iff in Hs as [[Ha H1%Z.ltb_lt]%andb_true_iff H2%Z.ltb_lt].
  destruct (rw_each _ Hw i Hi Ha) as [Ho Hst Hen]. fold r in Ho, Hst, Hen. assert (is_active lo = true) as Hlo by exact Ha.
  assert (regions_wf (a <| regions := aset (regions a) i lo |> <| region_count := region_count a |>)) as Hw'.
  { apply put_wf; [done | done | intros _; constructor; cbn; [lia | done | done] | | fold r; rewrite Ha, Hlo; lia].
    intros j Hj Hne Aj _. pose proof (rw_apart _ Hw j i Hj Hi Hne Aj Ha) as U. fold r in U. cbn. lia. }
  split; [done|]. intros x. case_decide as Hx.
  - apply rights_None; [done|]. intros q. rewrite put_covered by (done || apply Hw). intros [[Hc _]|(j & Hj & Hne & Hc & _)].
    + apply contains_iff in Hc as [_ Hc]. cbn in Hc. lia.
    + apply Hne, (contains_unique a j i x Hw Hj Hi); [done|]. apply contains_iff. fold r. split; [done | lia].
  - apply rights_ext; [done | done |]. intros q. rewrite put_covered by (done || apply Hw). unfold covered. split.
    + intros [[Hc Hq]|(j & Hj & _ & Hc & Hq)]; [|by exists j]. exists i. split; [done|]. fold r. split; [|done].
      apply contains_iff in Hc as [_ Hc]. cbn in Hc. apply contains_iff. split; [done | lia].
    + intros (j & Hj & Hc & Hq). destruct (decide (j = i)) as [->|Hne]; [left | right; by exists j].
      split; [|done]. fold r in Hc. apply contains_iff in Hc as [_ Hc]. apply contains_iff. split; [done|]. cbn. lia.
Qed.

Lemma remove_split a i : regions_wf a -> 0 <= i < SLOTS -> splits (aget (regions a) i) = true ->
  let a' := remove_region_body begin end_ a in
  regions_wf a' /\ only_regions a a' /\
  (removed a end_ a' \/ (full_table a /\ removed a (region_end (aget (regions a) i)) a')).
Proof using All.
  intros Hw Hi Hs. cbv zeta. destruct (remove_lower a i Hw Hi Hs) as [Hw2 Hrm]. set (r := aget (regions a) i) in *.
  assert (Hs' := Hs). unfold splits in Hs'. apply andb_true_iff in Hs' as [[Ha H1%Z.ltb_lt]%andb_true_iff H2%Z.ltb_lt].
  set (lo := r <| region_end := begin |>) in *.
  assert (remove_step begin end_ i a =
    match find_first (fun j => negb (nonzero (region_active (aget (regions a) j)))) 0 (Z.to_nat ADDRESS_SPACE_MAX_REGIONS) with
    | Some j => (true, a <| regions := aset (aset (regions a) j {| region_active := 1; region_rights := region_rights r;
          region_start := end_; region_end := region_end r |}) i lo |> <| region_count := u32 (region_count a + 1) |>)
    | None => (true, a <| regions := aset (regions a) i lo |>)
    end) as Estep.
  { unfold remove_step. fold r. fold (is_active r). rewrite Ha. cbn [negb orb].
    rewrite (proj2 (Z.leb_gt (region_end r) begin)), (proj2 (Z.leb_gt end_ (region_start r))) by lia. cbn [orb].
    rewrite (proj2 (Z.leb_gt begin (region_start r))), (proj2 (Z.leb_gt (region_end r) end_)) by lia. cbn [andb].
    destruct (find_first _ 0 _); [|done]. by destruct a. }
  unfold remove_region_body. rewrite (remove_loop_split _ 0 i a Hw); [| lia | unfold SLOTS in Hi; rewrite Z2Nat.id by done; lia | lia | done | done |];
    rewrite Estep; [|by destruct (find_first _ 0 _)].
  destruct (find_first _ 0 _) as [j|] eqn:Hf; cbn [snd].
  - apply free_slot in Hf as [Hj Hina]. assert (j <> i) as Hji by (intros ->; fold r in Hina; congruence).
    set (sp := {| region_active := 1; region_rights := region_rights r; region_start := end_; region_end := region_end r |}).
    assert (aset (aset (regions a) j sp) i lo = aset (aset (regions a) i lo) j sp) as -> by (unfold aset; apply list_insert_insert_ne; lia).
    rewrite u32_small by (pose proof (count_small a Hw); unfold is_u32; lia).
    set (a2 := a <| regions := aset (regions a) i lo |> <| region_count := region_count a |>) in *.
    assert (regions a2 = aset (regions a) i lo) as E2 by done.
    assert (a <| regions := aset (aset (regions a) i lo) j sp |> <| region_count := region_count a + 1 |> =
      a2 <| regions := aset (regions a2) j sp |> <| region_count := region_count a2 + 1 |>) as -> by (by destruct a).
    assert (is_active (aget (regions a2) j) = false) as Hina2 by (rewrite E2, put_lookup, decide_False by (done || apply Hw); done).
    assert (unclaimed a2 end_ (region_end r)) as Hun by (intros x Hx; rewrite Hrm, decide_True by lia; done).
    destruct (rw_each _ Hw i Hi Ha) as [Ho Hst Hen]. fold r in Ho, Hst, Hen.
    assert (regions_wf (a2 <| regions := aset (regions a2) j sp |> <| region_count := region_count a2 + 1 |>)) as Hw3.
    { apply put_wf; [done | done | intros _; constructor; cbn; [lia | done | done] | | rewrite Hina2; cbn; lia].
      intros k Hk Hne Ak _. cbn. by destruct (unclaimed_apart a2 end_ (region_end r) k Hw2 Hun ltac:(lia) Hk Ak); [left | right]. }
    split; [done|]. split; [by destruct a|]. left. intros x.
    rewrite (put_rights a2 j sp _ end_ (region_end r) (region_rights r) Hw2 Hw3 Hj eq_refl eq_refl); [| by rewrite Hina2 | | done].
    + rewrite Hrm. repeat case_decide; try lia; try done. symmetry. apply rights_covered; [done|]. exists i. split; [done|].
      fold r. split; [|done]. apply contains_iff. split; [done | lia].
    + intros y. rewrite contains_iff, Hina2. cbn. intuition congruence.
  - assert (a <| regions := aset (regions a) i lo |> = a <| regions := aset (regions a) i lo |> <| region_count := region_count a |>) as -> by (by destruct a).
    split; [done|]. split; [apply only_regions_put|]. right. split; [exact (no_free_slot a Hf) | done].
Qed.

Lemma remove_region_exact a : regions_wf a ->
  let a' := remove_region_body begin end_ a in
  regions_wf a' /\ only_regions a a' /\
  (removed a end_ a' \/
   (full_table a /\ exists i, 0 <= i < SLOTS /\ splits (aget (regions a) i) = true /\ removed a (region_end (aget (regions a) i)) a')).
Proof using All.
  intros Hw. cbv zeta. destruct (find_first (fun i => splits (aget (regions a) i)) 0 (Z.to_nat ADDRESS_SPACE_MAX_REGIONS)) as [i|] eqn:Hf.
  - apply find_first_Some in Hf as (Hi & Hs & _). rewrite Z2Nat.id in Hi by done. assert (0 <= i < SLOTS) as Hi' by (unfold SLOTS; lia).
    destruct (remove_split a i Hw Hi' Hs) as (A & B & [C|[C D]]); [by auto | split; [done|]; split; [done|]; right]. split; [done | by exists i].
  - destruct (remove_no_split a Hw) as (A & B & C); [|by auto]. intros j Hj. apply (find_first_None _ _ _ Hf). unfold SLOTS in Hj.
    rewrite Z2Nat.id by done. lia.
Qed.
End Remove.
