(* ===== verification/AddressSpaceSpec.v ===== *)
(** * What address spaces guarantee

    The calls that change a space run behind its gate ([with_gate_open]).
    Shown: adding and removing regions changes the rights of exactly the
    addresses of the range; a buffer is accessible when each of its bytes is;
    mapping into one space changes no translation of another space or of the
    kernel. *)

From S2P Require Import Prelude KernelEnv Pmm PmmSpec Paging PagingSpec PagingMemory PagingRoots PagingFamily Vm VmSpec.
From S2P Require Import AddressSpace AddressRegions.

(** ** The gate *)

Record gate_open (s : SpaceState) (p : Z) : Prop := {
  go_null : p <> 0;
  go_alive : shootdown_timeout_count (space_at s p) = 0;
  go_free : shootdown_active (space_at s p) = 0;
  go_users : active_user_accesses (space_at s p) = 0;
}.

Lemma at_upd p f s q : space_at (upd_space p f s) q = if decide (p = q) then f (space_at s p) else space_at s q.
Proof. unfold upd_space, space_at. cbn. case_decide; [subst; by rewrite lookup_total_insert_eq | by rewrite lookup_total_insert_ne]. Qed.
Lemma at_upd_eq p f s : space_at (upd_space p f s) p = f (space_at s p).
Proof. by rewrite at_upd, decide_True. Qed.
Lemma at_upd_ne p f s q : q <> p -> space_at (upd_space p f s) q = space_at s q.
Proof. intros Hne. by rewrite at_upd, decide_False. Qed.

(** Only space [p] changed. *)
Record only_space (p : Z) (s s' : SpaceState) : Prop := {
  os_others : forall q, q <> p -> space_at s' q = space_at s q;
  os_paging : paging s' = paging s;
  os_local : local s' = local s;
  os_identity : next_address_space_identity s' = next_address_space_identity s;
}.
Lemma only_space_refl p s : only_space p s s.
Proof. by constructor. Qed.
Lemma only_space_trans p s1 s2 s3 : only_space p s1 s2 -> only_space p s2 s3 -> only_space p s1 s3.
Proof. intros [A1 B1 C1 D1] [A2 B2 C2 D2]. constructor; try congruence. intros q Hq. by rewrite A2, A1. Qed.
Lemma only_space_upd p f s : only_space p s (upd_space p f s).
Proof. constructor; try done. intros q Hq. by apply at_upd_ne. Qed.
#[export] Hint Resolve only_space_refl only_space_upd : kernel.

Section Gate.
Context {E : Type} `{KernelEnv E} `{SpaceHost E}.
Implicit Types (s : SpaceState) (e : E).

(** The state inside the gate. *)
Definition entered (p : Z) (s : SpaceState) : SpaceState := upd_space p (fun a => a <| shootdown_active := 1 |>) s.
Lemma gate_enter_open p s e : gate_open s p -> mutation_gate_enter p s e = Some (1, entered p s, e).
Proof.
  intros [Hp Ha Hf Hu]. unfold mutation_gate_enter. rewrite (proj2 (Z.eqb_neq p 0) Hp), Ha, Hf. cbn [orb nonzero Z.eqb negb].
  fold (entered p s). unfold entered at 1 2. rewrite !at_upd_eq. cbn. by rewrite Ha, Hu.
Qed.

(** A call behind an open gate does not wait: it runs its body, or the lock is
    refused and nothing has happened. *)
Lemma with_gate_open {A B : Type} p (fail : A) (body : SpaceState -> E -> (A + B) * SpaceState * E) s e : gate_open s p ->
  let acq := kernel_spinlock_acquire (space_lock p) e in
  with_gate p fail body s e =
  if acq.1 then
    let r := body (entered p s) acq.2 in let e' := kernel_spinlock_release (space_lock p) r.2 in
    match r.1.1 with
    | inl a => Some (inl a, mutation_gate_release p r.1.2, e')
    | inr b => Some (inr b, r.1.2, e')
    end
  else Some (inl fail, mutation_gate_release p (entered p s), acq.2).
Proof.
  intros Hg. cbv zeta. unfold with_gate. rewrite gate_enter_open by done. cbn [Z.eqb].
  destruct (kernel_spinlock_acquire (space_lock p) e) as [[] e1]; [|done]. cbn [negb fst snd].
  by destruct (body (entered p s) e1) as [[[a|b] s1] e2].
Qed.

(** Behind a gate that opens and closes again, for a body on the space alone. *)
Lemma gated_space p s s' f : gate_open s p -> s' = mutation_gate_release p (upd_space p f (entered p s)) ->
  only_space p s s' /\ space_at s' p = (f ((space_at s p) <| shootdown_active := 1 |>)) <| shootdown_active := 0 |>.
Proof.
  intros _ ->. unfold mutation_gate_release, entered. rewrite !at_upd_eq. split; [|done].
  eapply only_space_trans; [eapply only_space_trans|]; auto with kernel.
Qed.
Lemma gated_closed p s : gate_open s p -> let s' := mutation_gate_release p (entered p s) in
  only_space p s s' /\ space_at s' p = space_at s p.
Proof.
  intros [_ _ Hf _]. cbv zeta. unfold mutation_gate_release, entered. rewrite !at_upd_eq. split; [eapply only_space_trans; auto with kernel|].
  destruct (space_at s p). cbn in *. by subst.
Qed.
Lemma open_again s s' p : gate_open s p -> shootdown_timeout_count (space_at s' p) = shootdown_timeout_count (space_at s p) ->
  active_user_accesses (space_at s' p) = active_user_accesses (space_at s p) -> shootdown_active (space_at s' p) = 0 -> gate_open s' p.
Proof. intros [A B C D] ? ? ?. constructor; congruence. Qed.
End Gate.

(** ** Regions *)

(** The region table sees only [regions] and [region_count]. *)
Lemma rights_gate a v : rights_at (a <| shootdown_active := v |>) = rights_at a.
Proof. done. Qed.
Lemma wf_gate a v : regions_wf a -> regions_wf (a <| shootdown_active := v |>).
Proof. intros [A B C D]. by constructor. Qed.

(** The pages of [[start, start + size)], for a range that does not reach the end
    of the address space. *)
Record range_fits (start size : Z) : Prop := {
  rf_start : 0 <= start; rf_size : 0 < size; rf_end : start + size + 4095 < 2 ^ 64 }.
Definition range_end (start size : Z) : Z := (start + size + 4095) / 4096 * 4096.
Lemma range_bounds start size : range_fits start size ->
  align_down_page start = first_page start /\ align_up_page (u64 (start + size)) = range_end start size /\
  0 <= first_page start < range_end start size /\ first_page start mod 4096 = 0 /\ range_end start size mod 4096 = 0.
Proof.
  intros [H0 Hs He]. unfold align_down_page, align_up_page, VM_PAGE_SIZE.
  rewrite (u64_small (start + size)), u64_small, !page_mask by (unfold is_u64; lia). unfold first_page, range_end.
  replace (start + size + 4096 - 1) with (start + size + 4095) by lia. do 2 (split; [done|]).
  split; [Z.to_euclidean_division_equations; lia | by rewrite !Z_mod_mult].
Qed.

Section Regions.
Context {E : Type} `{KernelEnv E} `{SpaceHost E} `{LL : !LockLaws E}.
Implicit Types (s : SpaceState) (e : E).

(** [address_space_add_region] on addresses nobody claims, behind an open
    gate with the lock free.  The call returns.  Either it gives the rights to
    exactly the pages of the range and keeps those of every other address,
    whether it extended a neighbour or took a slot, or all 32 slots are taken
    and the space is as it was.  No other space, table or processor state
    changes, the regions stay disjoint, and the gate is open again. *)
Theorem address_space_add_region_exact s e p start size rights :
  gate_open s p -> ready e (space_lock p) -> regions_wf (space_at s p) -> range_fits start size ->
  unclaimed (space_at s p) (first_page start) (range_end start size) ->
  exists r s' e', address_space_add_region p start size rights s e = Some (r, s', e') /\
    only_space p s s' /\ gate_open s' p /\ regions_wf (space_at s' p) /\ (forall l, ready e l -> ready e' l) /\
    ((r = 1 /\ forall x, rights_at (space_at s' p) x =
        if decide (first_page start <= x < range_end start size) then Some rights else rights_at (space_at s p) x) \/
     (r = 0 /\ space_at s' p = space_at s p /\ full_table (space_at s p))).
Proof using All.
  intros Hg Hr Hw Hfit Hun. destruct (range_bounds start size Hfit) as (Eb & Ee & Hlt & Mb & Me). unfold address_space_add_region.
  rewrite (proj2 (Z.eqb_neq p 0)), (proj2 (Z.eqb_neq size 0)) by (apply Hg || destruct Hfit; lia). cbn [orb].
  rewrite Eb, Ee, (proj2 (Z.leb_gt _ _)) by lia. rewrite with_gate_open by done. destruct (ready_acquire _ _ Hr) as (e1 & -> & Hl). cbn [fst snd].
  set (a1 := space_at (entered p s) p). assert (a1 = (space_at s p) <| shootdown_active := 1 |>) as Ea by apply at_upd_eq.
  destruct (add_region_exact a1 (first_page start) (range_end start size) rights) as (Hw' & Hc); try done; [by rewrite Ea; apply wf_gate | by rewrite Ea|].
  destruct (add_region_body _ _ rights a1) as [r a'] eqn:Hbody. cbn [fst snd] in *.
  assert (only_gate : shootdown_timeout_count a' = shootdown_timeout_count a1 /\ active_user_accesses a' = active_user_accesses a1).
  { revert Hbody. unfold add_region_body. by repeat (destruct (find_first _ _ _) || destruct (_ && _)); intros [= <- <-]. }
  destruct only_gate as [G1 G2]. destruct (gated_space p s _ (fun _ => a') Hg eq_refl) as [Ho Hsp].
  eexists _, _, _. split; [done|]. split; [done|]. rewrite Ea in *. split; [|split; [|split; [done|]]].
  - apply (open_again s _ p Hg); by rewrite Hsp.
  - rewrite Hsp. by apply wf_gate.
  - rewrite Hsp. destruct Hc as [[-> Hx]|(-> & -> & Hf)]; [left | right]; (split; [done|]); [done|]. split; [|done].
    destruct Hg as [_ _ Hf0 _]. revert Hf0. by destruct (space_at s p); cbn; intros ->.
Qed.

(** [address_space_remove_region] behind an open gate with the lock free:
    the call returns, and exactly the pages of the range lose their rights —
    with one exception.  Where the range lies strictly inside one region and
    all 32 slots are taken, there is no slot for the upper part, and everything
    up to the end of that region loses its rights too.  Nothing else of the
    state changes. *)
Theorem address_space_remove_region_exact s e p start size :
  gate_open s p -> ready e (space_lock p) -> regions_wf (space_at s p) -> range_fits start size ->
  exists s' e', address_space_remove_region p start size s e = Some (s', e') /\
    only_space p s s' /\ gate_open s' p /\ regions_wf (space_at s' p) /\ (forall l, ready e l -> ready e' l) /\
    (removed (first_page start) (space_at s p) (range_end start size) (space_at s' p) \/
     (full_table (space_at s p) /\ exists i, let r := aget (regions (space_at s p)) i in
        0 <= i < SLOTS /\ splits (first_page start) (range_end start size) r = true /\
        removed (first_page start) (space_at s p) (region_end r) (space_at s' p))).
Proof using All.
  intros Hg Hr Hw Hfit. destruct (range_bounds start size Hfit) as (Eb & Ee & Hlt & Mb & Me). unfold address_space_remove_region.
  rewrite (proj2 (Z.eqb_neq p 0)), (proj2 (Z.eqb_neq size 0)) by (apply Hg || destruct Hfit; lia). cbn [orb]. rewrite Eb, Ee.
  rewrite with_gate_open by done. destruct (ready_acquire _ _ Hr) as (e1 & -> & Hl). cbn [fst snd].
  destruct (gated_space p s _ (remove_region_body (first_page start) (range_end start size)) Hg eq_refl) as [Ho Hsp].
  set (a1 := (space_at s p) <| shootdown_active := 1 |>) in *.
  destruct (remove_region_exact (first_page start) (range_end start size) ltac:(lia) Mb Me ltac:(lia) a1 (wf_gate _ _ Hw)) as (Hw' & Hor & Hc).
  set (a' := remove_region_body _ _ a1) in *. eexists _, _. split; [done|]. split; [done|]. split; [|split; [|split; [done|]]].
  - apply (open_again s _ p Hg); rewrite Hsp; [| |done]; by rewrite Hor.
  - rewrite Hsp. by apply wf_gate.
  - rewrite Hsp. destruct Hc as [Hc|(Hf & i & Hi & Hs & Hc)]; [by left | right]. split; [done|]. by exists i.
Qed.
End Regions.

(** ** Buffers of user programs *)

Lemma walk_flags_page root v w s : same_page v w -> walk_flags root v s = walk_flags root w s.
Proof. unfold same_page, wpath. intros [= H4 H3 H2 H1]. unfold walk_flags. by rewrite H1, H2, H3, H4. Qed.
Lemma div_same_page v w : v / 4096 = w / 4096 -> same_page v w.
Proof. intros Hvw. apply same_page_vpn. unfold vpn. by rewrite Hvw. Qed.
Lemma get_flags_is p virt s : tables_ok (paging s) (pml4_table (paging s)) ->
  address_space_get_flags p virt s =
  (if (p =? 0) || (root_phys (space_at s p) =? 0) then 0
   else walk_flags (Z.land (root_phys (space_at s p)) ENTRY_ADDRESS) virt (paging s), s).
Proof.
  intros Hok. unfold address_space_get_flags. destruct (p =? 0), (root_phys (space_at s p) =? 0) eqn:E0; try done. cbn [orb].
  unfold vm_get_flags_in_root, arch_vm_get_flags_in_root. rewrite root_table_is, E0 by done.
  assert (s <| paging := paging s |> = s) as Es by (by destruct s).
  destruct (Z.eqb_spec (Z.land (root_phys (space_at s p)) ENTRY_ADDRESS) (pml4_table (paging s))) as [E1|]; [|by rewrite Es].
  unfold arch_vm_get_flags. by rewrite init_done, E1, Es.
Qed.
Lemma rights_page a x y : regions_wf a -> x / 4096 = y / 4096 -> rights_at a x = rights_at a y.
Proof.
  intros Hw Hxy. apply option_eq. intros r. rewrite !rights_covered by done.
  assert (forall u v, u / 4096 = v / 4096 -> covered a u r -> covered a v r) as Hc; [|split; by apply Hc].
  intros u v Huv (i & Hi & Hc & Hr). exists i. split; [done|]. split; [|done]. apply contains_iff in Hc as [Ha Hc]. apply contains_iff. split; [done|].
  destruct (rw_each _ Hw i Hi Ha) as [_ Hs He]. revert Hs He Hc Huv. generalize (region_start (aget (regions a) i)), (region_end (aget (regions a) i)).
  intros lo hi. Z.to_euclidean_division_equations. lia.
Qed.

(** What a user program may do at address [x]: the space claims it with the
    rights, and the page tables let user mode through. *)
Definition user_can (s : SpaceState) (p : Z) (writable : bool) (x : Z) : Prop :=
  exists r, rights_at (space_at s p) x = Some r /\ has ADDRESS_SPACE_REGION_READ r = true /\
    (writable = true -> has ADDRESS_SPACE_REGION_WRITE r = true) /\
    let flags := (address_space_get_flags p x s).1 in
    has VM_FLAG_USER flags = true /\ (writable = true -> has VM_FLAG_WRITABLE flags = true).

Section Buffer.
Context (s : SpaceState) (p : Z) (writable : bool).
Context (Hok : tables_ok (paging s) (pml4_table (paging s))) (Hw : regions_wf (space_at s p)).

Lemma user_can_page x y : x / 4096 = y / 4096 -> user_can s p writable x -> user_can s p writable y.
Proof using All.
  intros Hxy (r & Hr & A & B & C). exists r. rewrite <- (rights_page _ x y Hw Hxy). split; [done|]. split; [done|]. split; [done|].
  rewrite get_flags_is in C |- * by done. by rewrite <- (walk_flags_page _ x y) by (by apply div_same_page).
Qed.

Lemma accessible_loop_ok n : forall x end_, Z.of_nat n = end_ / 4096 - x / 4096 + 1 -> 0 <= x -> x / 4096 <= end_ / 4096 -> 0 <= end_ < 2 ^ 64 ->
  exists b, accessible_loop n p x end_ writable s = (b, s) /\
    (b = true <-> forall y, x / 4096 <= y / 4096 <= end_ / 4096 -> user_can s p writable y).
Proof using All.
  induction n as [|n IH]; intros x end_ Hn H0 Hle Hend; [lia|]. cbn [accessible_loop].
  assert (is_u64 x /\ is_u64 end_) as [Ux Ue] by (unfold is_u64; Z.to_euclidean_division_equations; lia).
  assert (~ user_can s p writable x -> exists b, (false, s) = (b, s) /\
    (b = true <-> forall y, x / 4096 <= y / 4096 <= end_ / 4096 -> user_can s p writable y)) as Hno.
  { intros Hn'. exists false. split; [done|]. split; [done|]. intros Ha. by destruct (Hn' (Ha x ltac:(lia))). }
  destruct (find_region (space_at s p) x) as [region|] eqn:Hf.
  2: { apply Hno. intros (r & Hr & _). unfold rights_at in Hr. by rewrite Hf in Hr. }
  destruct (negb _ || _) eqn:E1.
  { apply Hno. intros (r & Hr & A & B & _). unfold rights_at in Hr. rewrite Hf in Hr. injection Hr as <-. rewrite A in E1. cbn in E1.
    apply andb_true_iff in E1 as [Hwr Hn1]. by rewrite B in Hn1. }
  destruct (address_space_get_flags p x s) as [flags s'] eqn:Hfl. assert (s' = s) as -> by (rewrite get_flags_is in Hfl by done; by injection Hfl as _ <-).
  destruct (negb (has VM_FLAG_USER flags) || _) eqn:E2.
  { apply Hno. intros (r & _ & _ & _ & A & B). rewrite Hfl in A, B. cbn [fst] in *. rewrite A in E2. cbn in E2.
    apply andb_true_iff in E2 as [Hwr Hn1]. by rewrite B in Hn1. }
  assert (user_can s p writable x) as Hx.
  { exists (region_rights region). unfold rights_at. rewrite Hf, Hfl. apply orb_false_iff in E1 as [A1 B1], E2 as [A2 B2].
    apply negb_false_iff in A1, A2. split; [done|]. split; [done|]. split; [|split; [done|]]; intros Hwr; rewrite Hwr in B1, B2;
      [by apply negb_false_iff in B1 | by apply negb_false_iff in B2]. }
  rewrite !page_mask by done. destruct (Z.eqb_spec (x / 4096 * 4096) (end_ / 4096 * 4096)) as [Heq|Hne].
  - exists true. split; [done|]. split; [|done]. intros _ y Hy. apply (user_can_page x); [lia | done].
  - unfold VM_PAGE_SIZE. assert (is_u64 (x / 4096 * 4096 + 4096)) as Hu by (unfold is_u64 in *; Z.to_euclidean_division_equations; lia).
    rewrite u64_small by done. assert ((x / 4096 * 4096 + 4096) / 4096 = x / 4096 + 1) as Hd.
    { replace (x / 4096 * 4096 + 4096) with ((x / 4096 + 1) * 4096) by lia. by apply Z.div_mul. }
    destruct (IH (x / 4096 * 4096 + 4096) end_) as (b & Hb & Hiff); rewrite ?Hd; [lia | unfold is_u64 in Hu; lia | lia | done |].
    exists b. split; [done|]. rewrite Hiff, Hd. split; intros Ha y Hy; [|apply Ha; lia].
    destruct (decide (y / 4096 = x / 4096)) as [Hyx|]; [by apply (user_can_page x) | apply Ha; lia].
Qed.
Lemma buffer_body_exact start size : 0 < start -> 0 < size -> start + size <= 2 ^ 64 ->
  exists b : bool, buffer_body p start (start + size - 1) writable s = (if b then 1 else 0, s) /\
    (b = true <-> forall x, start <= x < start + size -> user_can s p writable x).
Proof using All.
  intros Hst Hsz Hfit. set (end_ := start + size - 1).
  unfold buffer_body, VM_PAGE_SIZE. assert (start / 4096 <= end_ / 4096) as Hle by (apply Z.div_le_mono; lia).
  destruct (accessible_loop_ok (Z.to_nat (end_ / 4096 - start / 4096 + 1)) start end_) as (b & -> & Hb); [lia.. |].
  assert (b = true <-> forall x, start <= x < start + size -> user_can s p writable x) as Hb'.
  { rewrite Hb. split; intros Ha x Hx; [apply Ha; split; apply Z.div_le_mono; lia|].
    assert (exists y, start <= y < start + size /\ y / 4096 = x / 4096) as (y & Hy & Hyx).
    { exists (Z.max start (Z.min end_ x)). unfold end_ in *. split; [lia|]. Z.to_euclidean_division_equations. lia. }
    apply (user_can_page y x Hyx). by apply Ha. }
  destruct b; [|by exists false]. destruct (proj1 Hb' eq_refl end_ ltac:(lia)) as (r & Hre & _). unfold rights_at in Hre.
  destruct (find_region (space_at s p) end_); [|done]. by exists true.
Qed.
End Buffer.

(** [address_space_buffer_accessible] is exact.  For a non-empty buffer that
    does not start at 0, with the space's lock free, the answer is 1 just when
    the buffer does not wrap around and a user program may read (and, if asked,
    write) every single byte of it: the region table grants the right and the
    page tables map the byte for user mode.  Nothing is changed.  (The call tests
    one address per page; regions and mappings are made of whole pages.) *)
Theorem address_space_buffer_accessible_exact {E : Type} `{LL : LockLaws E} s (e : E) p start size writable :
  tables_ok (paging s) (pml4_table (paging s)) -> regions_wf (space_at s p) -> p <> 0 -> ready e (space_lock p) ->
  0 < start < 2 ^ 64 -> 0 < size < 2 ^ 64 ->
  exists answer e', address_space_buffer_accessible p start size writable s e = (answer, s, e') /\ (answer = 0 \/ answer = 1) /\
    (answer = 1 <-> start + size <= 2 ^ 64 /\ forall x, start <= x < start + size -> user_can s p writable x).
Proof.
  intros Hok Hw Hp Hr Hst Hsz. unfold address_space_buffer_accessible.
  rewrite (proj2 (Z.eqb_neq size 0)), (proj2 (Z.eqb_neq p 0)), (proj2 (Z.eqb_neq start 0)) by lia. cbn [orb].
  destruct (decide (start + size <= 2 ^ 64)) as [Hfit|Hover].
  2: { rewrite (proj2 (Z.ltb_lt (u64 (start + size - 1)) start)) by (unfold u64; Z.to_euclidean_division_equations; lia).
    eexists 0, e. split; [done|]. split; [by left|]. split; [done | lia]. }
  rewrite u64_small by (unfold is_u64; lia). rewrite (proj2 (Z.ltb_ge _ _)) by lia.
  destruct (with_lock_ready (space_lock p) 0 (buffer_body p start (start + size - 1) writable) s e Hr) as (e' & -> & _).
  destruct (buffer_body_exact s p writable Hok Hw start size) as (b & -> & Hb); [lia.. |].
  exists (if b then 1 else 0), e'. split; [done|]. split; [destruct b; [by right | by left]|]. rewrite <- Hb. destruct b; split; (done || lia || by intros [_ ?]).
Qed.

(** ** Witnesses *)

#[export] Instance quiet_host : SpaceHost unit := {|
  smp_tlb_shootdown _ _ _ _ _ _ mask e := ((1, mask), e);
  kernel_tlb_wait_enter e := (1, e);
  kernel_spinlock_depth _ := 0;
  kernel_in_tlb_wait _ := 0;
|}.

(** Two spaces over the demonstration tables: one has a root, the other not yet. *)
Definition demo_spaces : SpaceState := {|
  spaces := <[0x9000 := fresh_space 0x2000 1 inhabitant]> (<[0xA000 := fresh_space 0 2 inhabitant]> ∅);
  next_address_space_identity := 3;
  local := {| cpu_valid := true; logical_id := 0; loaded_address_space := 0; loaded_address_space_identity := 0;
              loaded_address_space_root := 0; observed_tlb_generation := 0; tlb_local_flush_count := 0 |};
  paging := demo_paging |}.
Lemma demo_gate : gate_open demo_spaces 0x9000.
Proof. by constructor. Qed.
Lemma reset_slot a i : is_active (aget (regions (reset_regions_unlocked a)) i) = false.
Proof.
  change (is_active (aget (replicate (Z.to_nat ADDRESS_SPACE_MAX_REGIONS) no_region) i) = false). unfold aget. rewrite nth_lookup.
  set (o := replicate _ _ !! _). destruct o as [r|] eqn:Ho; [|done]. by apply lookup_replicate in Ho as [-> _].
Qed.
Lemma reset_wf a : regions_wf (reset_regions_unlocked a).
Proof. constructor; try done; intros i; by rewrite reset_slot. Qed.
Lemma reset_unclaimed a begin end_ : unclaimed (reset_regions_unlocked a) begin end_.
Proof.
  intros x _. apply rights_None; [apply reset_wf|]. intros r (i & _ & [Ha _]%contains_iff & _). by rewrite reset_slot in Ha.
Qed.

Lemma address_space_add_region_exact_witness :
  exists s', address_space_add_region 0x9000 0x400010 0x1000 3 demo_spaces tt = Some (1, s', tt) /\
    rights_at (space_at s' 0x9000) 0x401FFF = Some 3 /\ rights_at (space_at s' 0x9000) 0x402000 = None.
Proof.
  destruct (address_space_add_region_exact (LL := quiet_laws) demo_spaces tt 0x9000 0x400010 0x1000 3 demo_gate I (reset_wf _) ltac:(by constructor)
    (reset_unclaimed _ _ _)) as (r & s' & [] & Hr & _ & _ & _ & _ & [[-> Hx]|(_ & _ & Hf)]).
  - exists s'. split; [done|]. rewrite !Hx. done.
  - specialize (Hf 0 ltac:(done)). discriminate Hf.
Defined.

(** The demonstration space after adding two pages. *)
Definition demo_claimed : SpaceState :=
  upd_space 0x9000 (fun a => (add_region_body 0x400000 0x403000 3 a).2) demo_spaces.
Lemma demo_claimed_wf : regions_wf (space_at demo_claimed 0x9000).
Proof.
  unfold demo_claimed. rewrite at_upd_eq.
  apply (add_region_exact _ 0x400000 0x403000 3 (reset_wf _) ltac:(done) eq_refl eq_refl (reset_unclaimed _ _ _)).
Qed.
Lemma address_space_remove_region_exact_witness :
  exists s', address_space_remove_region 0x9000 0x401000 0x1000 demo_claimed tt = Some (s', tt) /\
    rights_at (space_at s' 0x9000) 0x401000 = None /\ rights_at (space_at s' 0x9000) 0x402000 = Some 3.
Proof.
  destruct (address_space_remove_region_exact (LL := quiet_laws) demo_claimed tt 0x9000 0x401000 0x1000 ltac:(by constructor) I demo_claimed_wf ltac:(by constructor))
    as (s' & [] & Hr & _ & _ & _ & _ & [Hx|[Hf _]]).
  - exists s'. split; [done|]. rewrite !Hx. done.
  - specialize (Hf 1 ltac:(done)). discriminate Hf.
Defined.

(** Tables for the space's root with two user pages, next to the kernel's. *)
Definition demo_mapped : SpaceState := demo_claimed <| paging := demo_paging <| words :=
  (words (wr 0x2000 0 0x3007 (wr 0x3000 0 0x4007 (wr 0x4000 2 0x5007 (wr 0x5000 0 0x203007 (wr 0x5000 1 0x204007 demo_paging)))))) |> |>.
Lemma demo_mapped_tables : tables_ok (paging demo_mapped) 0x1000.
Proof.
  apply empty_tables; [done | done | by apply demo_low | apply demo_wf |]. intros i Hi.
  change (rd (paging demo_mapped) 0x1000 i) with (rd (wr 0x2000 0 0x3007 (wr 0x3000 0 0x4007 (wr 0x4000 2 0x5007 (wr 0x5000 0 0x203007
    (wr 0x5000 1 0x204007 demo_paging))))) 0x1000 i).
  rewrite !rd_wr_addr, !decide_False by (done || naive_solver). apply demo_words.
Qed.
Lemma demo_mapped_space p : space_at demo_mapped p = space_at demo_claimed p.
Proof. reflexivity. Qed.
#[local] Opaque demo_state.
Lemma address_space_buffer_accessible_exact_witness :
  (address_space_buffer_accessible 0x9000 0x400FF0 0x20 true demo_mapped tt).1.1 = 1 /\
  (forall x, 0x400FF0 <= x < 0x401010 -> user_can demo_mapped 0x9000 true x).
Proof.
  assert ((address_space_buffer_accessible 0x9000 0x400FF0 0x20 true demo_mapped tt).1.1 = 1) as Ha by reflexivity.
  split; [done|].
  assert (regions_wf (space_at demo_mapped 0x9000)) as Hw by (rewrite demo_mapped_space; exact demo_claimed_wf).
  assert (pml4_table (paging demo_mapped) = 0x1000) as Ek by reflexivity. pose proof demo_mapped_tables as Hok. rewrite <- Ek in Hok.
  assert (0x9000 <> 0) as Hp by done. assert (0 < 0x400FF0 < 2 ^ 64) as H1 by lia. assert (0 < 0x20 < 2 ^ 64) as H2 by lia.
  pose proof (address_space_buffer_accessible_exact (LL := quiet_laws) demo_mapped tt 0x9000 0x400FF0 0x20 true Hok Hw Hp I H1 H2) as Ht.
  destruct Ht as (answer & e' & Hr & _ & Hiff).
  rewrite Hr in Ha. cbn [fst] in Ha. by apply Hiff in Ha as [_ ?].
Defined.
