(* ===== verification/AccessGate.v ===== *)
(** * The gate of an address space, access by access

    [AddressSpace] runs [mutation_gate_enter] and [address_space_user_access_begin]
    on their own.  Here any number of threads run them on one space at once:
    every atomic access is a step, and any thread may take the next one.  (The
    accesses that order the two sides are locked instructions, which are full
    barriers on the processor, so the steps interleave.)  Between init and recycle
    of the space, shown: while a thread holds the gate no other holds it and no user
    access is in progress, and no thread is ever stuck for good. *)

From S2P Require Import Prelude KernelEnv Pmm Paging Vm AddressSpace.

(** Where a thread is.  A mutator: before the compare-and-exchange of
    [shootdown_active]; waiting for it to become 0; before the load of
    [shootdown_timeout_count]; waiting for [active_user_accesses] to become 0;
    holding the gate; before the store that releases it.  A user access: before
    the first load of [shootdown_active]; before the increment; before the second
    load; before the load of [identity]; before the decrement that gives up;
    in progress; at the compare-and-exchange that ends it. *)
Inductive pc :=
| idle
| m_take | m_wait | m_test | m_drain | m_hold | m_release
| u_load (expected : Z) | u_enter (expected : Z) | u_check (expected : Z) | u_identity (expected : Z) | u_undo
| u_inside | u_leave (seen : Z).
#[export] Instance pc_inhabited : Inhabited pc := populate idle.
#[export] Instance pc_eq_dec : EqDecision pc.
Proof. solve_decision. Defined.

(** What a thread decides, or the processor for it. *)
Inductive choice :=
| mutate | access (expected : Z)  (** an idle thread starts one of the two *)
| go                              (** the thread goes on *)
| refuse                          (** [kernel_tlb_wait_enter] answers 0 *)
| time_out                        (** the shoot-down of the holder fails *)
.

(** The next atomic access of a thread. *)
Definition gate_thread (c : choice) (t : pc) (a : AddressSpace) : pc * AddressSpace :=
  match t with
  | idle =>
    match c with
    | mutate => (if nonzero (shootdown_timeout_count a) then idle else m_take, a)
    | access expected => (if (expected =? 0) || nonzero (shootdown_timeout_count a) then idle else u_load expected, a)
    | _ => (idle, a)
    end
  | m_take => if shootdown_active a =? 0 then (m_test, a <| shootdown_active := 1 |>)
              else match c with refuse => (idle, a) | _ => (m_wait, a) end
  | m_wait => (if nonzero (shootdown_active a) then m_wait else m_take, a)
  | m_test => (if shootdown_timeout_count a =? 0 then m_drain else m_release, a)
  | m_drain => (if nonzero (active_user_accesses a) then m_drain else m_hold, a)
  | m_hold =>
    match c with
    | time_out => (m_release, a <| shootdown_timeout_count := u64 (shootdown_timeout_count a + 1) |>)
    | _ => (m_release, a)
    end
  | m_release => (idle, a <| shootdown_active := 0 |>)
  | u_load expected => (if nonzero (shootdown_active a) then idle else u_enter expected, a)
  | u_enter expected => (u_check expected, a <| active_user_accesses := u32 (active_user_accesses a + 1) |>)
  | u_check expected => (if nonzero (shootdown_active a) then u_undo else u_identity expected, a)
  | u_identity expected => (if identity a =? expected then u_inside else u_undo, a)
  | u_undo => (idle, a <| active_user_accesses := u32 (active_user_accesses a - 1) |>)
  | u_inside => (u_leave (active_user_accesses a), a)
  | u_leave seen =>
    if seen =? 0 then (idle, a)
    else if active_user_accesses a =? seen then (idle, a <| active_user_accesses := seen - 1 |>)
    else (u_leave (active_user_accesses a), a)
  end.

(** The space and its threads. *)
Definition gate : Type := AddressSpace * list pc.
Definition gate_step (i : Z) (c : choice) (g : gate) : gate :=
  let '(t, a) := gate_thread c (aget g.2 i) g.1 in (a, aset g.2 i t).
Inductive reach (g : gate) : gate -> Prop :=
| reach_refl : reach g g
| reach_step g' i c : reach g g' -> 0 <= i < alen g'.2 -> reach g (gate_step i c g').

(** A space with open gate and threads that have not begun. *)
Record fresh_gate (g : gate) : Prop := {
  fg_active : shootdown_active g.1 = 0;
  fg_users : active_user_accesses g.1 = 0;
  fg_idle : forall i, 0 <= i < alen g.2 -> aget g.2 i = idle;
  fg_number : alen g.2 < 2 ^ 32;
}.

(** ** The invariant *)

Definition owns (t : pc) : bool := match t with m_test | m_drain | m_hold | m_release => true | _ => false end.
(** Threads that [active_user_accesses] counts. *)
Definition counts (t : pc) : bool := match t with u_check _ | u_identity _ | u_undo | u_inside | u_leave _ => true | _ => false end.
(** Threads that have found the gate open after they were counted. *)
Definition inside (t : pc) : bool := match t with u_identity _ | u_inside | u_leave _ => true | _ => false end.

Record gate_inv (g : gate) : Prop := {
  gi_owner : shootdown_active g.1 = acount owns g.2;
  gi_one : acount owns g.2 <= 1;
  gi_count : active_user_accesses g.1 = acount counts g.2;
  gi_apart : forall i j, 0 <= i < alen g.2 -> 0 <= j < alen g.2 -> aget g.2 i = m_hold -> inside (aget g.2 j) = false;
  gi_seen : forall i seen, 0 <= i < alen g.2 -> aget g.2 i = u_leave seen -> seen <> 0;
  gi_number : alen g.2 < 2 ^ 32;
}.

Lemma inside_counts t : inside t = true -> counts t = true.
Proof. by destruct t. Qed.
Lemma fresh_inv g : fresh_gate g -> gate_inv g.
Proof.
  intros [A B C D]. assert (forall (f : pc -> bool), f idle = false -> acount f g.2 = 0) as Hz.
  { intros f Hf. apply acount_none. intros i Hi. by rewrite C. }
  constructor; rewrite ?Hz by done; try done; intros i j Hi; by rewrite C.
Qed.

(** The counters after a step of thread [i]. *)
Lemma gate_step_inv i c g : gate_inv g -> 0 <= i < alen g.2 -> gate_inv (gate_step i c g).
Proof.
  intros [Ho H1 Hc Ha Hl Hn] Hi. destruct g as [a ts]. unfold gate_step. cbn [fst snd] in *.
  pose proof (acount_bounds counts ts) as Hb. pose proof (acount_bounds owns ts) as Hb'.
  pose proof (acount_pos counts ts i Hi) as Hp. pose proof (acount_pos owns ts i Hi) as Hp'.
  destruct (gate_thread c (aget ts i) a) as [t a'] eqn:Hs.
  assert (shootdown_active a' = acount owns (aset ts i t) /\ active_user_accesses a' = acount counts (aset ts i t) /\
    acount owns (aset ts i t) <= 1 /\ (t = m_hold -> aget ts i = m_hold \/ acount counts ts = 0) /\
    (inside t = true -> inside (aget ts i) = true \/ acount owns ts = 0) /\
    (forall seen, t = u_leave seen -> seen <> 0)) as (A & B & C & D & F & G).
  { pose proof (acount_bounds counts (aset ts i t)) as Hb2. rewrite alen_aset in Hb2.
    rewrite !acount_aset in * by done. pose proof (Hl i) as Hl. destruct (aget ts i) eqn:Et; cbn [gate_thread] in Hs; unfold nonzero in Hs;
      try (destruct c); repeat match type of Hs with context [if ?b then _ else _] => destruct b eqn:?; bprop end;
      injection Hs as <- <-; cbn [owns counts inside shootdown_active active_user_accesses] in *; cbn;
      try specialize (Hp eq_refl); try (specialize (Hl _ Hi eq_refl)); rewrite ?u32_small by (unfold is_u32; lia);
      split_and!; try lia; try done; try (by left); try (right; lia); try (specialize (Hp' eq_refl); lia); intros ? [= <-]; lia. }
  constructor; cbn [fst snd]; [done | done | done | | | by rewrite alen_aset].
  2: { intros j seen. rewrite alen_aset. intros Hj. rewrite aget_aset by lia. case_decide; [by apply G | by apply Hl]. }
  intros j k. rewrite alen_aset. intros Hj Hk. rewrite !aget_aset by lia.
  repeat case_decide; subst; intros Eh.
  - by rewrite Eh.
  - destruct (D Eh) as [Hm|Hz]; [by apply (Ha j)|]. destruct (inside (aget ts k)) eqn:Hin; [|done].
    apply inside_counts in Hin. pose proof (acount_pos counts ts k Hk Hin). lia.
  - destruct (inside t) eqn:Hin; [|done]. destruct (F eq_refl) as [Hi'|Hz]; [by rewrite (Ha j k) in Hi'|].
    pose proof (acount_pos owns ts j Hj). rewrite Eh in *. cbn in *. lia.
  - by apply (Ha j).
Qed.
Lemma reach_inv g g' : gate_inv g -> reach g g' -> gate_inv g' /\ alen g'.2 = alen g.2.
Proof.
  intros Hg. induction 1 as [|g' i c _ [IH Hl] Hi]; [done|]. split; [by apply gate_step_inv|].
  unfold gate_step. destruct (gate_thread _ _ _). cbn [snd]. by rewrite alen_aset.
Qed.

Lemma one_owner ts i j : 0 <= i < alen ts -> 0 <= j < alen ts -> owns (aget ts i) = true -> owns (aget ts j) = true ->
  acount owns ts <= 1 -> i = j.
Proof.
  intros Hi Hj Oi Oj H1. destruct (decide (i = j)) as [|Hne]; [done|].
  pose proof (acount_aset owns ts i idle Hi) as Hs. rewrite Oi in Hs. cbn in Hs.
  assert (0 < acount owns (aset ts i idle)); [|lia]. apply (acount_pos owns _ j); [by rewrite alen_aset|]. by rewrite aget_aset_ne by lia.
Qed.

(** C19: The gate excludes.  Whatever the schedule of any number of threads (fewer than 2^32) on a
    space whose gate nobody uses at the start, while one of them holds the gate no other holds it and no user access
    is in progress: user memory is never read or written through the space
    while its mappings change. *)
Theorem gate_excludes g g' i j : fresh_gate g -> reach g g' -> 0 <= i < alen g.2 -> 0 <= j < alen g.2 -> i <> j ->
  aget g'.2 i = m_hold -> aget g'.2 j <> m_hold /\ aget g'.2 j <> u_inside.
Proof.
  intros Hf Hr Hi Hj Hne Hh. destruct (reach_inv g g' (fresh_inv g Hf) Hr) as [Hg Hl]. rewrite <- Hl in Hi, Hj. split.
  - intros Hh'. apply Hne, (one_owner g'.2 i j Hi Hj); [by rewrite Hh | by rewrite Hh' | apply Hg].
  - intros Hin. pose proof (gi_apart _ Hg i j Hi Hj Hh) as Hx. by rewrite Hin in Hx.
Qed.

(** ** No deadlock *)

Lemma reach_trans g1 g2 g3 : reach g1 g2 -> reach g2 g3 -> reach g1 g3.
Proof. intros H12. induction 1 as [|g' i c _ IH Hi]; [done | by apply reach_step]. Qed.

(** What a thread needs to run to its end on its own, and in how many steps. *)
Definition can (t : pc) (a : AddressSpace) : Prop :=
  match t with
  | m_take | m_wait => shootdown_active a = 0 /\ active_user_accesses a = 0
  | m_test | m_drain => active_user_accesses a = 0
  | _ => True
  end.
Definition rank (t : pc) (a : AddressSpace) : nat :=
  match t with
  | idle => 0
  | m_release => 1 | m_hold => 2 | m_drain => 3 | m_test => 4 | m_take => 5 | m_wait => 6
  | u_undo => 1 | u_leave seen => if active_user_accesses a =? seen then 1 else 2
  | u_inside => 3 | u_identity _ => 4 | u_check _ => 5 | u_enter _ => 6 | u_load _ => 7
  end.
Lemma solo_step t a : t <> idle -> can t a -> let r := gate_thread go t a in can r.1 r.2 /\ (rank r.1 r.2 < rank t a)%nat.
Proof.
  intros Hne Hc. destruct t; cbn [gate_thread can] in *; unfold nonzero; try done;
    repeat match goal with |- context [if ?b then _ else _] => destruct b eqn:?; bprop end;
    cbn [fst snd can rank] in *; rewrite ?Z.eqb_refl; try (split; [tauto | lia]); try lia; try done; (split; [done|]); destruct (Z.eqb_spec (active_user_accesses a) seen); (lia || done).
Qed.
Lemma solo_run n : forall i g, 0 <= i < alen g.2 -> (rank (aget g.2 i) g.1 <= n)%nat -> can (aget g.2 i) g.1 ->
  exists g', reach g g' /\ alen g'.2 = alen g.2 /\ aget g'.2 i = idle /\ forall j, 0 <= j -> j <> i -> aget g'.2 j = aget g.2 j.
Proof.
  induction n as [|n IH]; intros i g Hi Hn Hc; (destruct (decide (aget g.2 i = idle)) as [He|He];
    [by exists g; split; [constructor|] |]); pose proof (solo_step _ _ He Hc) as [Hc' Hr]; [lia|].
  set (g1 := gate_step i go g). assert (g1 = ((gate_thread go (aget g.2 i) g.1).2, aset g.2 i (gate_thread go (aget g.2 i) g.1).1)) as E1.
  { unfold g1, gate_step. by destruct (gate_thread go _ _). }
  assert (alen g1.2 = alen g.2) as El by (rewrite E1; cbn [snd]; by rewrite alen_aset).
  assert (aget g1.2 i = (gate_thread go (aget g.2 i) g.1).1) as Ei by (rewrite E1; cbn [snd]; by rewrite aget_aset_eq).
  assert (g1.1 = (gate_thread go (aget g.2 i) g.1).2) as Ea by (by rewrite E1).
  destruct (IH i g1) as (g2 & Hreach & Hl & Hd & Ho); [by rewrite El | rewrite Ei, Ea; lia | by rewrite Ei, Ea |].
  exists g2. split; [eapply reach_trans; [apply reach_step; [constructor | done] | exact Hreach]|]. split; [lia|]. split; [done|].
  intros j H0 Hj. rewrite Ho, E1 by done. cbn [snd]. by rewrite aget_aset_ne by lia.
Qed.

(** All threads of one kind run to their end, one after the other, when each
    of them can. *)
Definition only (h : pc -> bool) (g : gate) : Prop := forall j, 0 <= j < alen g.2 -> h (aget g.2 j) = true.
Lemma finish (f h : pc -> bool) n : f idle = false -> h idle = true ->
  (forall g j, gate_inv g -> only h g -> 0 <= j < alen g.2 -> f (aget g.2 j) = true -> can (aget g.2 j) g.1) ->
  forall g, (Z.to_nat (acount f g.2) <= n)%nat -> gate_inv g -> only h g ->
  exists g', reach g g' /\ alen g'.2 = alen g.2 /\ gate_inv g' /\ only (fun t => h t && negb (f t)) g'.
Proof.
  intros Hf Hh Hcan. induction n as [|n IH]; intros g Hn Hg Ho;
    (destruct (find_first (fun i => f (aget g.2 i)) 0 (length g.2)) as [i|] eqn:Hff;
     [|exists g; split; [constructor|]; split; [done|]; split; [done|]; intros j Hj;
       rewrite Ho by done; cbn; apply negb_true_iff, (find_first_None _ _ _ Hff); unfold alen in Hj; lia]);
    apply find_first_Some in Hff as (Hi & Hfi & _); assert (0 <= i < alen g.2) as Hi' by (unfold alen; lia).
  { pose proof (acount_pos f g.2 i Hi' Hfi). lia. }
  destruct (solo_run _ i g Hi' (le_n _) (Hcan g i Hg Ho Hi' Hfi)) as (g1 & Hr & Hl & Hid & Hoth).
  destruct (reach_inv g g1 Hg Hr) as [Hg1 _].
  assert (g1.2 = aset g.2 i idle) as E1.
  { apply array_ext; [by rewrite alen_aset|]. intros j Hj. rewrite Hl in Hj. rewrite aget_aset by lia.
    case_decide; [by subst | apply Hoth; lia]. }
  destruct (IH g1) as (g2 & Hr2 & Hl2 & Hg2 & Ho2); [| done | |].
  - rewrite E1, acount_aset, Hfi, Hf by done. lia.
  - intros j Hj. rewrite Hl in Hj. rewrite E1, aget_aset by lia. case_decide; [done | by apply Ho].
  - exists g2. split; [by eapply reach_trans|]. split; [lia | done].
Qed.

Definition is_user (t : pc) : bool :=
  match t with u_load _ | u_enter _ | u_check _ | u_identity _ | u_undo | u_inside | u_leave _ => true | _ => false end.
Definition waits (t : pc) : bool := match t with m_take | m_wait => true | _ => false end.
Lemma none_counted g (h : pc -> bool) (f : pc -> bool) : only h g -> (forall t, h t = true -> f t = false) -> acount f g.2 = 0.
Proof. intros Ho Hf. apply acount_none. intros i Hi. by apply Hf, Ho. Qed.

(** C20: No deadlock.  From every state that threads (fewer than 2^32) can reach there is a
    schedule after which all of them have left the gate: user accesses end by
    themselves, then the owner of the gate drains and releases it, then those
    that wait for it take it one by one. *)
Theorem gate_never_stuck g g' : fresh_gate g -> reach g g' ->
  exists g'', reach g' g'' /\ shootdown_active g''.1 = 0 /\ active_user_accesses g''.1 = 0 /\
    forall i, 0 <= i < alen g.2 -> aget g''.2 i = idle.
Proof.
  intros Hf Hr. destruct (reach_inv g g' (fresh_inv g Hf) Hr) as [Hg Hl].
  destruct (finish is_user (fun _ => true) (Z.to_nat (acount is_user g'.2)) eq_refl eq_refl) with (g := g')
    as (g1 & R1 & L1 & I1 & O1); [intros g0 j _ _ _ Hu; by destruct (aget g0.2 j) | done | done | by intros j _ |].
  cbn beta in O1.
  destruct (finish owns (fun t => negb (is_user t)) (Z.to_nat (acount owns g1.2)) eq_refl eq_refl) with (g := g1)
    as (g2 & R2 & L2 & I2 & O2); [| done | done | done |].
  { intros g0 j I0 O0 Hj Hown. assert (active_user_accesses g0.1 = 0) as Hz.
    { rewrite (gi_count _ I0). apply (none_counted g0 _ counts O0). by intros []. }
    by destruct (aget g0.2 j). }
  destruct (finish waits (fun t => negb (is_user t) && negb (owns t)) (Z.to_nat (acount waits g2.2)) eq_refl eq_refl) with (g := g2)
    as (g3 & R3 & L3 & I3 & O3); [| done | done | done |].
  { intros g0 j I0 O0 Hj Hw. assert (active_user_accesses g0.1 = 0) as Hz.
    { rewrite (gi_count _ I0). apply (none_counted g0 _ counts O0). by intros []. }
    assert (shootdown_active g0.1 = 0) as Ha by (rewrite (gi_owner _ I0); apply (none_counted g0 _ owns O0); by intros []).
    by destruct (aget g0.2 j). }
  exists g3. split; [eapply reach_trans; [exact R1|]; by eapply reach_trans|].
  split; [rewrite (gi_owner _ I3); apply (none_counted g3 _ owns O3); by intros []|].
  split; [rewrite (gi_count _ I3); apply (none_counted g3 _ counts O3); by intros []|].
  intros i Hi. specialize (O3 i ltac:(lia)). cbn beta in O3. by destruct (aget g3.2 i).
Qed.

(** ** Witnesses *)

Definition demo_gate_threads : gate := (inhabitant <| identity := 7 |>, [idle; idle; idle]).
Lemma demo_fresh : fresh_gate demo_gate_threads.
Proof. constructor; try done. intros i Hi. unfold alen in Hi. cbn in Hi. by assert (i = 0 \/ i = 1 \/ i = 2) as [->|[->| ->]] by lia. Qed.
(** A thread begins a user access, a mutator takes the gate meanwhile, the user
    gives up, and the mutator holds the gate. *)
Definition demo_schedule : list (Z * choice) :=
  [(0, access 7); (0, go); (1, mutate); (1, go); (0, go); (1, go); (1, go); (0, go); (0, go); (1, go)].
Definition run_gate (l : list (Z * choice)) (g : gate) : gate := foldl (fun g x => gate_step x.1 x.2 g) g l.
Lemma run_reach l : forall g g0, reach g0 g -> Forall (fun x => 0 <= x.1 < alen g.2) l -> reach g0 (run_gate l g).
Proof.
  induction l as [|[i c] l IH]; intros g g0 Hr Hl; [done|]. apply Forall_cons in Hl as [Hi Hl]. cbn [run_gate foldl].
  apply IH; [by apply reach_step|]. eapply Forall_impl; [exact Hl|]. intros x. unfold gate_step. destruct (gate_thread _ _ _). cbn [snd]. by rewrite alen_aset.
Qed.
Lemma demo_run : reach demo_gate_threads (run_gate demo_schedule demo_gate_threads).
Proof. apply run_reach; [constructor|]. by repeat constructor. Qed.

Lemma gate_excludes_witness :
  aget (run_gate demo_schedule demo_gate_threads).2 1 = m_hold /\ aget (run_gate demo_schedule demo_gate_threads).2 0 <> u_inside.
Proof.
  split; [reflexivity|].
  exact (proj2 (gate_excludes _ _ 1 0 demo_fresh demo_run ltac:(done) ltac:(done) ltac:(done) eq_refl)).
Defined.
Lemma gate_never_stuck_witness : exists g, reach (run_gate (take 5 demo_schedule) demo_gate_threads) g /\ aget g.2 1 = idle.
Proof.
  assert (reach demo_gate_threads (run_gate (take 5 demo_schedule) demo_gate_threads)) as Hr by (apply run_reach; [constructor|]; by repeat constructor).
  destruct (gate_never_stuck _ _ demo_fresh Hr) as (g & Hg & _ & _ & Hi). exists g. split; [done|]. by apply Hi.
Defined.
