(* ===== verification/UserMemory.v ===== *)
(** * Access to user memory ([kernel/syscall/user_memory.cpp])

    System calls reach the memory of the calling process through leases: a lease
    is given only for a range that the process itself may access, and while it is
    held the translations of the process do not change.  A user byte is read and
    written through [UserHost]: other threads of the process may change it between
    any two reads, so a read also gives a new environment.  Buffers in the kernel
    are lists of bytes; [None] stands for a null pointer. *)

From S2P Require Import Prelude KernelEnv Results Pmm Paging Vm AddressSpace.

Definition USER_CANONICAL_LIMIT : Z := 0x0000800000000000.
Definition USER_MEMORY_ALLOW_EMPTY : Z := 1.
Definition USER_MEMORY_VALID_FLAGS : Z := USER_MEMORY_ALLOW_EMPTY.
Definition USER_MEMORY_STRUCT_MAX : Z := 512.
Definition USER_MEMORY_READ : Z := 1.
Definition USER_MEMORY_WRITE : Z := 2.
Definition USER_MEMORY_READ_WRITE : Z := 3.

Class UserHost (E : Type) := {
  (** [process->active], [current_process()] and [&process->address_space]. *)
  process_active : Z -> E -> Z;
  current_process : E -> Z;
  process_space : Z -> Z;
  (** A byte of user memory, at an address of the running process. *)
  user_load : Z -> E -> Z * E;
  user_store : Z -> Z -> E -> E }.

(** ** Arithmetic *)

Definition valid_alignment (alignment : Z) : bool := nonzero alignment && (Z.land alignment (u32 (alignment - 1)) =? 0).
(** The result with the output. *)
Definition user_checked_add_u64 (left right : Z) : Z * Z :=
  if 2 ^ 64 - 1 - left <? right then (SYS_ERR_OVERFLOW, 0) else (OS_SUCCESS, u64 (left + right)).
Definition user_checked_multiply_u64 (left right : Z) : Z * Z :=
  if nonzero left && ((2 ^ 64 - 1) / left <? right) then (SYS_ERR_OVERFLOW, 0) else (OS_SUCCESS, u64 (left * right)).
Definition user_address_is_canonical (address : Z) : bool := address <? USER_CANONICAL_LIMIT.

(** ** Leases *)

Record UserMemoryLease := {
  lease_process : Z; lease_space : Z; lease_address : Z; lease_size : Z; lease_end : Z; lease_identity : Z; lease_generation : Z;
  lease_access : Z; lease_active : Z }.
Definition zero_lease : UserMemoryLease := {|
  lease_process := 0; lease_space := 0; lease_address := 0; lease_size := 0; lease_end := 0; lease_identity := 0; lease_generation := 0;
  lease_access := 0; lease_active := 0 |}.

Section Operations.
Context {E : Type} `{KernelEnv E, SpaceHost E, UserHost E}.
Implicit Types (s : SpaceState) (e : E).

Definition user_memory_lease_begin (process address size alignment access flags : Z) (s : SpaceState) (e : E) : Z * UserMemoryLease * SpaceState * E :=
  let refuse r := (r, zero_lease, s, e) in
  if (process =? 0) || negb (nonzero (process_active process e)) || negb (current_process e =? process) || negb (valid_alignment alignment)
     || (negb (access =? USER_MEMORY_READ) && negb (access =? USER_MEMORY_WRITE) && negb (access =? USER_MEMORY_READ_WRITE))
     || nonzero (Z.land flags (not32 USER_MEMORY_VALID_FLAGS)) then refuse SYS_ERR_INVALID_ARGUMENT
  else if negb (kernel_spinlock_depth e =? 0) || nonzero (kernel_in_tlb_wait e) then refuse SYS_ERR_NOT_READY
  else if size =? 0 then refuse (if nonzero (Z.land flags USER_MEMORY_ALLOW_EMPTY) then OS_SUCCESS else SYS_ERR_INVALID_ARGUMENT)
  else if (address =? 0) || nonzero (Z.land address (u32 (alignment - 1))) then refuse SYS_ERR_BAD_BUFFER
  else
    let '(arithmetic, end_) := user_checked_add_u64 address (u64 (size - 1)) in
    if negb (arithmetic =? OS_SUCCESS) then refuse arithmetic
    else if negb (user_address_is_canonical address) || negb (user_address_is_canonical end_) then refuse SYS_ERR_BAD_BUFFER
    else
      let space := process_space process in
      let identity := address_space_identity space s in
      let '(begun, s1) := address_space_user_access_begin space identity s e in
      if begun =? 0 then (SYS_ERR_NOT_READY, zero_lease, s1, e)
      else
        let writable := negb (access =? USER_MEMORY_READ) in
        let '(ok, s2, e1) := address_space_buffer_accessible space address size writable s1 e in
        if ok =? 0 then (SYS_ERR_BAD_BUFFER, zero_lease, address_space_user_access_end space s2, e1)
        else (OS_SUCCESS, {| lease_process := process; lease_space := space; lease_address := address; lease_size := size; lease_end := end_;
                             lease_identity := identity; lease_generation := address_space_tlb_generation space s2; lease_access := access; lease_active := 1 |}, s2, e1).
Definition user_memory_lease_end (lease : UserMemoryLease) (s : SpaceState) : UserMemoryLease * SpaceState :=
  (zero_lease, if nonzero (lease_active lease) && negb (lease_space lease =? 0) then address_space_user_access_end (lease_space lease) s else s).

(** ** Copying *)

(** [copy_bytes] from user memory, [size] bytes, and to it. *)
Fixpoint load_bytes (size : nat) (address : Z) (e : E) : list Z * E :=
  match size with
  | O => ([], e)
  | S size =>
    let '(value, e) := user_load address e in
    let '(values, e) := load_bytes size (address + 1) e in (value :: values, e)
  end.
Fixpoint store_bytes (values : list Z) (address : Z) (e : E) : E :=
  match values with
  | [] => e
  | value :: values => store_bytes values (address + 1) (user_store address value e)
  end.

(** The result with the bytes copied to the destination; [present]: it is not null. *)
Definition user_memory_copy_in (process : Z) (present : bool) (user_address size alignment flags : Z) (s : SpaceState) (e : E) : Z * list Z * SpaceState * E :=
  if nonzero size && negb present then (SYS_ERR_INVALID_ARGUMENT, [], s, e)
  else
    let '(result, lease, s, e) := user_memory_lease_begin process user_address size alignment USER_MEMORY_READ flags s e in
    if negb (result =? OS_SUCCESS) || (size =? 0) then (result, [], s, e)
    else
      let '(bytes, e) := load_bytes (Z.to_nat size) user_address e in
      let '(_, s) := user_memory_lease_end lease s in (OS_SUCCESS, bytes, s, e).
(** [source] holds [size] bytes. *)
Definition user_memory_copy_out (process user_address : Z) (source : option (list Z)) (size alignment flags : Z) (s : SpaceState) (e : E) : Z * SpaceState * E :=
  if nonzero size && bool_decide (source = None) then (SYS_ERR_INVALID_ARGUMENT, s, e)
  else
    let '(result, lease, s, e) := user_memory_lease_begin process user_address size alignment USER_MEMORY_WRITE flags s e in
    if negb (result =? OS_SUCCESS) || (size =? 0) then (result, s, e)
    else
      let e := store_bytes (take (Z.to_nat size) (default [] source)) user_address e in
      let '(_, s) := user_memory_lease_end lease s in (OS_SUCCESS, s, e).
Definition user_memory_copy_array_in (process : Z) (present : bool) (user_address element_count element_size alignment : Z) (s : SpaceState) (e : E)
    : Z * list Z * SpaceState * E :=
  let '(result, byte_count) := user_checked_multiply_u64 element_count element_size in
  if negb (result =? OS_SUCCESS) then (result, [], s, e)
  else user_memory_copy_in process present user_address byte_count alignment USER_MEMORY_ALLOW_EMPTY s e.

(** The bytes of a chunk up to and with the first NUL; whether there is one. *)
Fixpoint load_until_nul (chunk : nat) (address : Z) (e : E) : list Z * bool * E :=
  match chunk with
  | O => ([], false, e)
  | S chunk =>
    let '(value, e) := user_load address e in
    if value =? 0 then ([value], true, e)
    else let '(values, found, e) := load_until_nul chunk (address + 1) e in (value :: values, found, e)
  end.
(** The loop over chunks; [fuel] bounds their number.  The result, the length, the bytes stored. *)
Fixpoint copy_cstring_loop (fuel : nat) (process user_address capacity copied : Z) (stored : list Z) (s : SpaceState) (e : E) : Z * Z * list Z * SpaceState * E :=
  match fuel with
  | O => (SYS_ERR_BUFFER_TOO_SMALL, 0, stored, s, e)
  | S fuel =>
    if copied <? capacity then
      let '(result, address) := user_checked_add_u64 user_address copied in
      if negb (result =? OS_SUCCESS) then (result, 0, stored, s, e)
      else
        let chunk := 4096 - Z.land address 4095 in
        let chunk := if capacity - copied <? chunk then capacity - copied else chunk in
        let '(result, lease, s, e) := user_memory_lease_begin process address chunk 1 USER_MEMORY_READ 0 s e in
        if negb (result =? OS_SUCCESS) then (result, 0, stored, s, e)
        else
          let '(bytes, found, e) := load_until_nul (Z.to_nat chunk) address e in
          let '(_, s) := user_memory_lease_end lease s in
          if found : bool then (OS_SUCCESS, copied + (alen bytes - 1), stored ++ bytes, s, e)
          else copy_cstring_loop fuel process user_address capacity (copied + chunk) (stored ++ bytes) s e
    else (SYS_ERR_BUFFER_TOO_SMALL, 0, stored, s, e)
  end.
Definition user_memory_copy_cstring (process user_address : Z) (present : bool) (capacity : Z) (s : SpaceState) (e : E) : Z * Z * list Z * SpaceState * E :=
  if negb present || (capacity <? 2) then (SYS_ERR_INVALID_ARGUMENT, 0, [], s, e)
  else copy_cstring_loop (Z.to_nat capacity) process user_address capacity 0 [] s e.

Definition read_u32 (bytes : list Z) : Z :=
  Z.lor (Z.lor (Z.lor (aget bytes 0) (u32 (Z.shiftl (aget bytes 1) 8))) (u32 (Z.shiftl (aget bytes 2) 16))) (u32 (Z.shiftl (aget bytes 3) 24)).

(** The result with the bytes of the destination, when there are any. *)
Definition user_memory_copy_versioned_struct_in (process user_address : Z) (present : bool) (destination_size minimum_size expected_version alignment : Z)
    (s : SpaceState) (e : E) : Z * list Z * SpaceState * E :=
  if negb present || (minimum_size <? 8) || (destination_size <? minimum_size) || (USER_MEMORY_STRUCT_MAX <? destination_size) then (SYS_ERR_INVALID_ARGUMENT, [], s, e)
  else
    let '(result, header, s, e) := user_memory_copy_in process true user_address 8 alignment 0 s e in
    if negb (result =? OS_SUCCESS) then (result, [], s, e)
    else
      let declared_size := read_u32 header in
      let version := read_u32 (drop 4 header) in
      if (declared_size <? minimum_size) || (destination_size <? declared_size) || negb (version =? expected_version) then (SYS_ERR_INVALID_ARGUMENT, [], s, e)
      else
        let '(result, snapshot, s, e) := user_memory_copy_in process true user_address declared_size alignment 0 s e in
        if negb (result =? OS_SUCCESS) then (result, [], s, e)
        else if negb (read_u32 snapshot =? declared_size) || negb (read_u32 (drop 4 snapshot) =? expected_version) then (SYS_ERR_INVALID_ARGUMENT, [], s, e)
        else (OS_SUCCESS, take (Z.to_nat declared_size) snapshot ++ replicate (Z.to_nat (destination_size - declared_size)) 0, s, e).
End Operations.

(** ** UTF-8 *)

(** How many bytes follow a first byte, and the bits it carries. *)
Definition utf8_first (first : Z) : option (nat * Z) :=
  if (0xC2 <=? first) && (first <=? 0xDF) then Some (1%nat, Z.land first 0x1F)
  else if (0xE0 <=? first) && (first <=? 0xEF) then Some (2%nat, Z.land first 0x0F)
  else if (0xF0 <=? first) && (first <=? 0xF4) then Some (3%nat, Z.land first 0x07)
  else None.
Fixpoint utf8_parts (count : nat) (codepoint : Z) (rest : list Z) : option (Z * list Z) :=
  match count, rest with
  | O, _ => Some (codepoint, rest)
  | S count, next :: rest =>
    if negb (Z.land next 0xC0 =? 0x80) then None else utf8_parts count (Z.lor (u32 (Z.shiftl codepoint 6)) (Z.land next 0x3F)) rest
  | S _, [] => None
  end.
Definition utf8_bad (count : nat) (codepoint : Z) : bool :=
  ((count =? 2)%nat && (codepoint <? 0x800)) || ((count =? 3)%nat && (codepoint <? 0x10000)) || (0x10FFFF <? codepoint) || ((0xD800 <=? codepoint) && (codepoint <=? 0xDFFF)).
(** [rest]: the bytes from [index] on. *)
Fixpoint utf8_loop (fuel : nat) (rest : list Z) : Z :=
  match fuel, rest with
  | _, [] => OS_SUCCESS
  | O, _ => SYS_ERR_INVALID_ARGUMENT
  | S fuel, first :: rest =>
    if first <? 0x80 then utf8_loop fuel rest
    else
      match utf8_first first with
      | None => SYS_ERR_INVALID_ARGUMENT
      | Some (continuation_count, codepoint) =>
        if alen rest <? Z.of_nat continuation_count then SYS_ERR_INVALID_ARGUMENT
        else
          match utf8_parts continuation_count codepoint rest with
          | None => SYS_ERR_INVALID_ARGUMENT
          | Some (codepoint, rest) => if utf8_bad continuation_count codepoint then SYS_ERR_INVALID_ARGUMENT else utf8_loop fuel rest
          end
      end
  end.
Definition user_memory_validate_utf8 (bytes : option (list Z)) (size : Z) : Z :=
  if nonzero size && bool_decide (bytes = None) then SYS_ERR_INVALID_ARGUMENT
  else let rest := take (Z.to_nat size) (default [] bytes) in utf8_loop (length rest) rest.
