(* ===== verification/Utf8Spec.v ===== *)
(** * The UTF-8 check is exact

    [user_memory_validate_utf8] accepts exactly the byte strings that are the
    encoding of a sequence of Unicode scalar values. *)

From S2P Require Import Prelude Results UserMemory.

(** ** The reference *)

Definition scalar (c : Z) : Prop := 0 <= c < 0xD800 \/ 0xE000 <= c <= 0x10FFFF.
Definition tail_byte (b : Z) : Z := 0x80 + b mod 64.
Definition utf8_encode (c : Z) : list Z :=
  if c <? 0x80 then [c]
  else if c <? 0x800 then [0xC0 + c / 64; tail_byte c]
  else if c <? 0x10000 then [0xE0 + c / 4096; tail_byte (c / 64); tail_byte c]
  else [0xF0 + c / 262144; tail_byte (c / 4096); tail_byte (c / 64); tail_byte c].
Definition utf8_string (bytes : list Z) : Prop := exists cs, Forall scalar cs /\ bytes = concat (utf8_encode <$> cs).

(** ** Bytes *)

(** A property of bytes that holds of all 256. *)
Lemma byte_cases (f : Z -> bool) : forallb f (seqZ 0 256) = true -> forall b, is_u8 b -> f b = true.
Proof. intros Hf b Hb. rewrite forallb_forall in Hf. apply Hf. apply list_elem_of_In, elem_of_seqZ. unfold is_u8 in Hb. lia. Qed.

Lemma tail_test b : is_u8 b -> (Z.land b 0xC0 =? 0x80) = (0x80 <=? b) && (b <? 0xC0).
Proof.
  intros Hb. apply eqb_prop. apply (byte_cases (fun b => Bool.eqb (Z.land b 0xC0 =? 0x80) ((0x80 <=? b) && (b <? 0xC0)))); [vm_compute; reflexivity | done].
Qed.
Lemma utf8_first_spec b : is_u8 b -> utf8_first b =
  if (0xC2 <=? b) && (b <=? 0xDF) then Some (1%nat, b - 0xC0) else if (0xE0 <=? b) && (b <=? 0xEF) then Some (2%nat, b - 0xE0)
  else if (0xF0 <=? b) && (b <=? 0xF4) then Some (3%nat, b - 0xF0) else None.
Proof.
  intros Hb. unfold utf8_first.
  assert ((negb ((0xC2 <=? b) && (b <=? 0xDF)) || (Z.land b 0x1F =? b - 0xC0)) && (negb ((0xE0 <=? b) && (b <=? 0xEF)) || (Z.land b 0x0F =? b - 0xE0))
    && (negb ((0xF0 <=? b) && (b <=? 0xF4)) || (Z.land b 0x07 =? b - 0xF0)) = true) as Hall.
  { apply (byte_cases (fun b => (negb ((0xC2 <=? b) && (b <=? 0xDF)) || (Z.land b 0x1F =? b - 0xC0)) && (negb ((0xE0 <=? b) && (b <=? 0xEF)) || (Z.land b 0x0F =? b - 0xE0))
    && (negb ((0xF0 <=? b) && (b <=? 0xF4)) || (Z.land b 0x07 =? b - 0xF0)))); [vm_compute; reflexivity | done]. }
  apply andb_true_iff in Hall as [Hall H3]. apply andb_true_iff in Hall as [H1 H2].
  destruct ((0xC2 <=? b) && (b <=? 0xDF)); [by apply Z.eqb_eq in H1 as ->|]. destruct ((0xE0 <=? b) && (b <=? 0xEF)); [by apply Z.eqb_eq in H2 as ->|].
  destruct ((0xF0 <=? b) && (b <=? 0xF4)); [by apply Z.eqb_eq in H3 as ->|]. done.
Qed.
(** One more byte: six more bits. *)
Lemma push_tail c b : 0 <= c < 2 ^ 26 -> 0x80 <= b < 0xC0 -> Z.lor (u32 (Z.shiftl c 6)) (Z.land b 0x3F) = c * 64 + (b - 0x80).
Proof.
  intros Hc Hb. rewrite Z.shiftl_mul_pow2 by lia. change 0x3F with (2 ^ 6 - 1). rewrite land_ones_mod by lia. change (2 ^ 6) with 64 in *.
  rewrite u32_small by (unfold is_u32; lia). replace (b mod 64) with (b - 0x80) by (apply (Z.mod_unique b 64 2); lia).
  change 64 with (2 ^ 6). apply lor_shifted; lia.
Qed.
Lemma utf8_parts_spec n c rest : 0 <= c -> (c + 1) * 64 ^ Z.of_nat n <= 2 ^ 32 -> Forall is_u8 rest ->
  forall c' rest', utf8_parts n c rest = Some (c', rest') <->
  exists ts, length ts = n /\ rest = ts ++ rest' /\ Forall (fun t => 0x80 <= t < 0xC0) ts /\ c' = foldl (fun c t => c * 64 + (t - 0x80)) c ts.
Proof.
  revert c rest. induction n as [|n IH]; intros c rest Hc Hb Hr c' rest'; cbn [utf8_parts].
  { split; [intros [= <- <-]; by exists []|]. intros (ts & Hl & -> & _ & ->). by destruct ts. }
  destruct rest as [|t rest]; [split; [done|]; intros (ts & Hl & He & _); destruct ts; done|].
  apply Forall_cons in Hr as [Ht Hr]. rewrite tail_test by done. rewrite Nat2Z.inj_succ, Z.pow_succ_r in Hb by lia.
  destruct ((0x80 <=? t) && (t <? 0xC0)) eqn:E; cbn [negb].
  - bprop. pose proof (Z.pow_pos_nonneg 64 (Z.of_nat n) ltac:(lia) ltac:(lia)) as Hpos. rewrite push_tail by nia. rewrite IH; [|lia|nia|done]. split.
    + intros (ts & Hl & -> & Hf & ->). exists (t :: ts). cbn. split_and!; [lia | done | by constructor | done].
    + intros ([|t' ts] & Hl & He & Hf & ->); [done|]. injection He as -> ->. inversion Hf. exists ts. cbn in *. split_and!; [lia | done | done | done].
  - split; [done|]. intros ([|t' ts] & Hl & He & Hf & _); [done|]. injection He as -> ->. inversion Hf. exfalso.
    apply andb_false_iff in E as [E|E]; bprop; lia.
Qed.

(** ** One character *)

(** What the loop does with the next bytes: the code point and the bytes behind it. *)
Definition utf8_next (rest : list Z) : option (Z * list Z) :=
  match rest with
  | [] => None
  | first :: rest =>
    if first <? 0x80 then Some (first, rest)
    else
      match utf8_first first with
      | None => None
      | Some (n, c) =>
        if alen rest <? Z.of_nat n then None
        else match utf8_parts n c rest with None => None | Some (c, rest) => if utf8_bad n c then None else Some (c, rest) end
      end
  end.
Lemma utf8_loop_next fuel b rest : utf8_loop (S fuel) (b :: rest) = match utf8_next (b :: rest) with Some (_, rest') => utf8_loop fuel rest' | None => SYS_ERR_INVALID_ARGUMENT end.
Proof. cbn [utf8_loop utf8_next]. repeat case_match; congruence. Qed.

Lemma tail_byte_range c : 0x80 <= tail_byte c < 0xC0.
Proof. unfold tail_byte. pose proof (Z.mod_pos_bound c 64). lia. Qed.
Lemma tail_byte_of t c : 0x80 <= t < 0xC0 -> tail_byte (c * 64 + (t - 0x80)) = t.
Proof. intros Ht. unfold tail_byte. rewrite (Z.add_comm (c * 64)), Z.mod_add by lia. rewrite Z.mod_small; lia. Qed.
Lemma push_div t c : 0x80 <= t < 0xC0 -> (c * 64 + (t - 0x80)) / 64 = c.
Proof. intros Ht. rewrite Z.add_comm, Z.div_add by lia. rewrite Z.div_small; lia. Qed.
Lemma push_back c : c / 64 * 64 + (tail_byte c - 0x80) = c.
Proof. unfold tail_byte. pose proof (Z.div_mod c 64). lia. Qed.

(** The encodings by length. *)
Lemma encode_2 c : 0x80 <= c < 0x800 -> utf8_encode c = [0xC0 + c / 64; tail_byte c].
Proof. intros. unfold utf8_encode. rewrite (proj2 (Z.ltb_ge c 0x80)), (proj2 (Z.ltb_lt c 0x800)) by lia. done. Qed.
Lemma encode_3 c : 0x800 <= c < 0x10000 -> utf8_encode c = [0xE0 + c / 4096; tail_byte (c / 64); tail_byte c].
Proof. intros. unfold utf8_encode. rewrite (proj2 (Z.ltb_ge c 0x80)), (proj2 (Z.ltb_ge c 0x800)), (proj2 (Z.ltb_lt c 0x10000)) by lia. done. Qed.
Lemma encode_4 c : 0x10000 <= c -> utf8_encode c = [0xF0 + c / 262144; tail_byte (c / 4096); tail_byte (c / 64); tail_byte c].
Proof. intros. unfold utf8_encode. rewrite (proj2 (Z.ltb_ge c 0x80)), (proj2 (Z.ltb_ge c 0x800)), (proj2 (Z.ltb_ge c 0x10000)) by lia. done. Qed.

Lemma utf8_bad_scalar n c : (n = 1%nat \/ n = 2%nat \/ n = 3%nat) -> 0 <= c -> (n = 1%nat -> 0x80 <= c < 0x800) -> (n = 2%nat -> c < 0x10000) ->
  utf8_bad n c = false <-> scalar c /\ (n = 2%nat -> 0x800 <= c) /\ (n = 3%nat -> 0x10000 <= c).
Proof.
  intros Hn H0 H1 H2. unfold utf8_bad, scalar. destruct Hn as [-> | [-> | ->]]; cbn [Nat.eqb andb orb];
    repeat match goal with |- context [?a <? ?b] => destruct (Z.ltb_spec a b) | |- context [?a <=? ?b] => destruct (Z.leb_spec a b) end; cbn;
    split; intros Hx; try done; try (split_and!; (done || lia)); exfalso; try (specialize (H1 eq_refl)); lia.
Qed.

(** Reading one character is the inverse of encoding one. *)
Lemma utf8_next_sound rest c rest' : Forall is_u8 rest -> utf8_next rest = Some (c, rest') -> scalar c /\ rest = utf8_encode c ++ rest'.
Proof.
  intros Hb Hn. destruct rest as [|b rest]; [done|]. apply Forall_cons in Hb as [Hb Hr]. cbn [utf8_next] in Hn.
  destruct (b <? 0x80) eqn:E0; [injection Hn as -> ->; unfold is_u8 in Hb; bprop; split; [unfold scalar; lia|]; unfold utf8_encode; by rewrite (proj2 (Z.ltb_lt c 0x80)) by lia|].
  rewrite utf8_first_spec in Hn by done. bprop.
  destruct ((0xC2 <=? b) && (b <=? 0xDF)) eqn:E1;
    [|clear E1; destruct ((0xE0 <=? b) && (b <=? 0xEF)) eqn:E2; [|clear E2; destruct ((0xF0 <=? b) && (b <=? 0xF4)) eqn:E3; [|done]]]; bprop;
    (destruct (alen rest <? _); [done|]); (match type of Hn with context [utf8_parts ?n ?c0 rest] => destruct (utf8_parts n c0 rest) as [[c1 rest1]|] eqn:Hp; [|done];
      apply utf8_parts_spec in Hp as (ts & Hl & -> & Hf & Hc); [|lia|cbn; lia|done]; destruct (utf8_bad n c1) eqn:Hbad; [done|]; injection Hn as -> -> end).
  - destruct ts as [|t1 [|]]; try done. inversion Hf as [|? ? Ht1]; subst. cbn [foldl app] in *. apply utf8_bad_scalar in Hbad as [Hs _]; [|lia..]. split; [done|].
    rewrite encode_2 by lia. rewrite push_div, tail_byte_of by done. cbn. f_equal. lia.
  - destruct ts as [|t1 [|t2 [|]]]; try done. inversion Hf as [|? ? Ht1 Hf1]; subst. inversion Hf1 as [|? ? Ht2]; subst. cbn [foldl app] in *.
    apply utf8_bad_scalar in Hbad as (Hs & Hlo & _); [|lia..]. split; [done|]. rewrite encode_3 by (specialize (Hlo eq_refl); lia).
    replace 4096 with (64 * 64) by lia. rewrite <- Z.div_div, !push_div, !tail_byte_of by (done || lia). cbn. f_equal. lia.
  - destruct ts as [|t1 [|t2 [|t3 [|]]]]; try done. inversion Hf as [|? ? Ht1 Hf1]; subst. inversion Hf1 as [|? ? Ht2 Hf2]; subst. inversion Hf2 as [|? ? Ht3]; subst. cbn [foldl app] in *.
    apply utf8_bad_scalar in Hbad as (Hs & _ & Hlo); [|lia..]. split; [done|]. rewrite encode_4 by (specialize (Hlo eq_refl); lia).
    replace 262144 with (64 * (64 * 64)) by lia. replace 4096 with (64 * 64) by lia. rewrite <- !Z.div_div, !push_div, !tail_byte_of by (done || lia). cbn. f_equal. lia.
Qed.

Lemma utf8_parts_tails n c ts rest : 0 <= c -> (c + 1) * 64 ^ Z.of_nat n <= 2 ^ 32 -> Forall is_u8 rest -> length ts = n -> Forall (fun t => 0x80 <= t < 0xC0) ts ->
  utf8_parts n c (ts ++ rest) = Some (foldl (fun c t => c * 64 + (t - 0x80)) c ts, rest).
Proof.
  intros Hc Hb Hr Hl Hf. apply utf8_parts_spec; [done|done| |by exists ts]. apply Forall_app. split; [|done].
  eapply Forall_impl; [exact Hf|]. unfold is_u8. intros. cbn in *. lia.
Qed.
(** A first byte, its continuation bytes, and a code point that is not overlong. *)
Lemma utf8_next_parts b n c0 ts c rest : is_u8 b -> utf8_first b = Some (n, c0) -> 0x80 <= b -> 0 <= c0 -> (c0 + 1) * 64 ^ Z.of_nat n <= 2 ^ 32 -> Forall is_u8 rest ->
  length ts = n -> Forall (fun t => 0x80 <= t < 0xC0) ts -> foldl (fun c t => c * 64 + (t - 0x80)) c0 ts = c -> utf8_bad n c = false ->
  utf8_next ((b :: ts) ++ rest) = Some (c, rest).
Proof.
  intros Hb Hfi Hlo H0 Hw Hr Hl Hf Hc Hbad. cbn [app utf8_next]. rewrite (proj2 (Z.ltb_ge b 0x80)), Hfi by lia.
  rewrite (proj2 (Z.ltb_ge _ _)) by (unfold alen; rewrite length_app; lia). rewrite utf8_parts_tails by done. by rewrite Hc, Hbad.
Qed.
Lemma between_true a b c : a <= b <= c -> (a <=? b) && (b <=? c) = true.
Proof. intros. apply andb_true_intro. split; apply Z.leb_le; lia. Qed.
Lemma between_false a b c : c < b -> (a <=? b) && (b <=? c) = false.
Proof. intros. apply andb_false_intro2. apply Z.leb_gt. lia. Qed.
Lemma utf8_first_2 k : 2 <= k < 32 -> utf8_first (0xC0 + k) = Some (1%nat, k).
Proof. intros. rewrite utf8_first_spec by (unfold is_u8; lia). rewrite between_true by lia. do 2 f_equal. lia. Qed.
Lemma utf8_first_3 k : 0 <= k < 16 -> utf8_first (0xE0 + k) = Some (2%nat, k).
Proof. intros. rewrite utf8_first_spec by (unfold is_u8; lia). rewrite between_false, between_true by lia. do 2 f_equal. lia. Qed.
Lemma utf8_first_4 k : 0 <= k < 5 -> utf8_first (0xF0 + k) = Some (3%nat, k).
Proof. intros. rewrite utf8_first_spec by (unfold is_u8; lia). rewrite !between_false, between_true by lia. do 2 f_equal. lia. Qed.

Ltac div_bounds := split; [apply Z.div_le_lower_bound | apply Z.div_lt_upper_bound]; lia.
Lemma utf8_next_encode c rest : scalar c -> Forall is_u8 rest -> utf8_next (utf8_encode c ++ rest) = Some (c, rest).
Proof.
  intros Hs Hr. assert (0 <= c <= 0x10FFFF) as Hc by (unfold scalar in Hs; lia).
  assert (forall n, (n = 1 \/ n = 2 \/ n = 3)%nat -> (n = 1%nat -> 0x80 <= c < 0x800) -> (n = 2%nat -> 0x800 <= c < 0x10000) -> (n = 3%nat -> 0x10000 <= c) -> utf8_bad n c = false) as Hbad.
  { intros n Hn H1 H2 H3. apply utf8_bad_scalar; [done | lia | done | by intros [_ ?]%H2 |]. split_and!; [done | by intros [? _]%H2 | done]. }
  assert (Forall (fun t => 0x80 <= t < 0xC0) [tail_byte (c / 64 / 64); tail_byte (c / 64); tail_byte c]) as Ht by (repeat constructor; apply tail_byte_range).
  destruct (Z.ltb_spec c 0x80) as [H1|H1].
  { unfold utf8_encode. rewrite (proj2 (Z.ltb_lt c 0x80)) by lia. cbn [app utf8_next]. by rewrite (proj2 (Z.ltb_lt c 0x80)) by lia. }
  destruct (Z.ltb_spec c 0x800) as [H2|H2]; [|destruct (Z.ltb_spec c 0x10000) as [H3|H3]].
  - rewrite encode_2 by lia. assert (2 <= c / 64 < 32) by div_bounds.
    eapply (utf8_next_parts _ 1 (c / 64)); try done; [unfold is_u8; lia | by apply utf8_first_2 | lia.. | by inversion_clear Ht as [|? ? _ Ht'']; inversion_clear Ht'' | apply push_back | apply Hbad; lia].
  - rewrite encode_3 by lia. change 4096 with (64 * 64). rewrite <- Z.div_div by lia. assert (32 <= c / 64 < 1024) by div_bounds. assert (0 <= c / 64 / 64 < 16) by div_bounds.
    eapply (utf8_next_parts _ 2 (c / 64 / 64)); try done; [unfold is_u8; lia | by apply utf8_first_3 | lia.. | by inversion_clear Ht | cbn [foldl]; by rewrite !push_back | apply Hbad; lia].
  - rewrite encode_4 by lia. change 262144 with (64 * 64 * 64). change 4096 with (64 * 64). rewrite <- !Z.div_div by lia.
    assert (1024 <= c / 64 < 17408) by div_bounds. assert (16 <= c / 64 / 64 < 272) by div_bounds. assert (0 <= c / 64 / 64 / 64 < 5) by div_bounds.
    eapply (utf8_next_parts _ 3 (c / 64 / 64 / 64)); try done; [unfold is_u8; lia | by apply utf8_first_4 | lia.. | cbn [foldl]; by rewrite !push_back | apply Hbad; lia].
Qed.

(** ** The whole string *)

Lemma utf8_next_length rest c rest' : utf8_next rest = Some (c, rest') -> (length rest' < length rest)%nat.
Proof.
  assert (forall n c rest c' rest', utf8_parts n c rest = Some (c', rest') -> (length rest' <= length rest)%nat) as Hp.
  { clear. induction n as [|n IH]; intros c rest c' rest'; cbn [utf8_parts]; [intros [= _ <-]; lia|]. destruct rest as [|t rest]; [done|].
    destruct (negb _); [done|]. intros Hn%IH. cbn. lia. }
  destruct rest as [|b rest]; [done|]. cbn [utf8_next]. repeat case_match; try done; intros [= <- <-]; cbn; [lia|].
  match goal with Hx : utf8_parts _ _ _ = Some _ |- _ => apply Hp in Hx; lia end.
Qed.
Lemma utf8_loop_iff fuel rest : Forall is_u8 rest -> (length rest <= fuel)%nat -> utf8_loop fuel rest = OS_SUCCESS <-> utf8_string rest.
Proof.
  revert rest. induction fuel as [|fuel IH]; intros rest Hb Hl.
  { destruct rest; [|cbn in Hl; lia]. split; [intros _; by exists []|done]. }
  destruct rest as [|b rest]; [split; [intros _; by exists []|done]|]. rewrite utf8_loop_next. split.
  - destruct (utf8_next (b :: rest)) as [[c rest']|] eqn:Hn; [|done]. pose proof (utf8_next_length _ _ _ Hn) as Hlt.
    apply utf8_next_sound in Hn as [Hs He]; [|done]. rewrite He in Hb. apply Forall_app in Hb as [_ Hb].
    intros (cs & Hcs & ->)%IH; [|done|cbn in *; lia]. exists (c :: cs). split; [by constructor|]. done.
  - intros ([|c cs] & Hcs & He); [done|]. apply Forall_cons in Hcs as [Hc Hcs]. cbn [fmap list_fmap concat] in He. pose proof Hb as Hb'. rewrite He in Hb'. apply Forall_app in Hb' as [_ Hb'].
    pose proof (utf8_next_encode c _ Hc Hb') as Hn. rewrite <- He in Hn. pose proof (utf8_next_length _ _ _ Hn) as Hlt. rewrite Hn.
    apply IH; [done | cbn in *; lia | by exists cs].
Qed.

Lemma utf8_loop_results fuel rest : utf8_loop fuel rest = OS_SUCCESS \/ utf8_loop fuel rest = SYS_ERR_INVALID_ARGUMENT.
Proof. revert rest. induction fuel as [|fuel IH]; intros [|b rest]; cbn [utf8_loop]; auto. repeat case_match; auto. Qed.

(** C24: The check of a string that a program hands to the kernel is exact: [user_memory_validate_utf8] accepts a buffer precisely when its bytes are the
    UTF-8 encoding of a sequence of Unicode scalar values, so overlong forms, surrogates, values above 0x10FFFF, stray and missing continuation bytes are all
    refused and nothing else is; and of the two results it can give, refusal is always [SYS_ERR_INVALID_ARGUMENT]. *)
Theorem user_memory_validate_utf8_exact (bytes : list Z) (size : Z) : Forall is_u8 bytes -> 0 <= size <= alen bytes ->
  (user_memory_validate_utf8 (Some bytes) size = OS_SUCCESS <-> utf8_string (take (Z.to_nat size) bytes)) /\
  (user_memory_validate_utf8 (Some bytes) size = OS_SUCCESS \/ user_memory_validate_utf8 (Some bytes) size = SYS_ERR_INVALID_ARGUMENT).
Proof.
  intros Hb Hs. unfold user_memory_validate_utf8. rewrite bool_decide_eq_false_2, andb_false_r by done. change (default [] (Some bytes)) with bytes. split.
  - apply utf8_loop_iff; [by apply Forall_take | done].
  - apply utf8_loop_results.
Qed.
Lemma user_memory_validate_utf8_exact_witness :
  user_memory_validate_utf8 (Some [0x41; 0xC3; 0xA9; 0xE2; 0x82; 0xAC; 0xF0; 0x9F; 0x98; 0x80; 0xED]) 10 = OS_SUCCESS /\
  utf8_string [0x41; 0xC3; 0xA9; 0xE2; 0x82; 0xAC; 0xF0; 0x9F; 0x98; 0x80] /\ ~ utf8_string [0xED; 0xA0; 0x80].
Proof.
  split; [reflexivity|]. split.
  - apply (user_memory_validate_utf8_exact [0x41; 0xC3; 0xA9; 0xE2; 0x82; 0xAC; 0xF0; 0x9F; 0x98; 0x80; 0xED] 10); [repeat constructor; unfold is_u8; lia | vm_compute; split; discriminate | reflexivity].
  - intros Hu. assert (user_memory_validate_utf8 (Some [0xED; 0xA0; 0x80]) 3 = OS_SUCCESS) as Hx; [|vm_compute in Hx; discriminate].
    apply user_memory_validate_utf8_exact; [repeat constructor; unfold is_u8; lia | vm_compute; split; discriminate | exact Hu].
Defined.
