(* ===== verification/UserMemorySpec.v ===== *)
(** * What system calls do with user memory

    [same_spaces] compares states of the address spaces up to how their table is
    represented.  [touches] lists what a call may do with its environment: take
    and give back the lock of the space, and read or write user bytes that the
    process itself may read or write.  Shown: a lease is given exactly for the
    ranges the process may access; every copy touches only such bytes and gives
    back what it took, on every path; a versioned structure is consistent even
    when the program changes it during the call; strings end; what is copied out
    is read back. *)

From S2P Require Import Prelude KernelEnv Results Pmm Paging PagingSpec PagingRoots Vm AddressSpace AddressRegions AddressSpaceSpec UserMemory.

(** ** Equal address spaces *)

Record same_spaces (s s' : SpaceState) : Prop := {
  ss_spaces : forall q, space_at s' q = space_at s q;
  ss_paging : paging s' = paging s;
  ss_local : local s' = local s;
  ss_identity : next_address_space_identity s' = next_address_space_identity s;
}.
#[export] Instance same_spaces_equivalence : Equivalence same_spaces.
Proof.
  constructor; [by intros s; constructor | intros s s' []; by constructor |].
  intros s1 s2 s3 [A1 B1 C1 D1] [A2 B2 C2 D2]. constructor; congruence.
Qed.

(** What a lease needs of a space: sound tables, and a count of accesses that can grow. *)
Record leasable (s : SpaceState) (p : Z) : Prop := {
  la_null : p <> 0;
  la_tables : tables_ok (paging s) (pml4_table (paging s));
  la_regions : regions_wf (space_at s p);
  la_count : 0 <= active_user_accesses (space_at s p) < 2 ^ 32 - 1;
}.
Lemma leasable_same s s' p : same_spaces s s' -> leasable s p -> leasable s' p.
Proof. intros [A B C D] [H1 H2 H3 H4]. constructor; rewrite ?A, ?B; done. Qed.

(** User rights depend on the regions and the tables only. *)
Lemma user_can_of s s' p w x : tables_ok (paging s) (pml4_table (paging s)) -> paging s' = paging s -> root_phys (space_at s' p) = root_phys (space_at s p) ->
  regions (space_at s' p) = regions (space_at s p) -> user_can s p w x -> user_can s' p w x.
Proof.
  intros Hok Hp Hr Hg (r & Hx & A & B & C). exists r. rewrite get_flags_is in C |- * by (by rewrite ?Hp). rewrite Hp, Hr. split; [|done].
  revert Hx. unfold rights_at, find_region. by rewrite Hg.
Qed.
Lemma user_can_same s s' p w x : leasable s p -> same_spaces s s' -> user_can s p w x -> user_can s' p w x.
Proof. intros [_ Ht _ _] [A B _ _]. apply user_can_of; [done | done | by rewrite A | by rewrite A]. Qed.
Lemma user_can_read s p x : user_can s p true x -> user_can s p false x.
Proof. intros (r & Hr & A & B & C & D). by exists r. Qed.

(** The space [p] with one more access. *)
Definition held (p : Z) (s : SpaceState) : SpaceState := upd_space p (fun a => a <| active_user_accesses := active_user_accesses a + 1 |>) s.
Lemma user_can_held s p w x : tables_ok (paging s) (pml4_table (paging s)) -> user_can (held p s) p w x <-> user_can s p w x.
Proof. intros Ht. unfold held. split; apply user_can_of; rewrite ?at_upd_eq; done. Qed.
Lemma held_end p s : leasable s p -> same_spaces s (address_space_user_access_end p (held p s)).
Proof.
  intros [Hp _ _ Hc]. unfold address_space_user_access_end, held. rewrite (proj2 (Z.eqb_neq p 0) Hp), at_upd_eq.
  assert (forall a, active_user_accesses (a <| active_user_accesses := active_user_accesses a + 1 |>) = active_user_accesses a + 1) as -> by done. rewrite (proj2 (Z.eqb_neq (active_user_accesses (space_at s p) + 1) 0)) by lia. constructor; try done. intros q. rewrite !at_upd. repeat case_decide; try congruence; try done.
  subst q. destruct (space_at s p). cbn. f_equal. lia.
Qed.

(** ** What a call touches *)

Section Touches.
Context {E : Type} `{KernelEnv E, SpaceHost E, UserHost E}.
Implicit Types (s : SpaceState) (e : E).

(** [can w x]: the program may read ([w = false]) or write the byte at [x]. *)
Inductive touches (p : Z) (can : bool -> Z -> Prop) : E -> E -> Prop :=
| touch_done e : touches p can e e
| touch_refused e e1 e' : kernel_spinlock_acquire (space_lock p) e = (false, e1) -> touches p can e1 e' -> touches p can e e'
| touch_locked e e1 e' : kernel_spinlock_acquire (space_lock p) e = (true, e1) -> touches p can (kernel_spinlock_release (space_lock p) e1) e' -> touches p can e e'
| touch_load e x e' : can false x -> touches p can (user_load x e).2 e' -> touches p can e e'
| touch_store e x v e' : can true x -> touches p can (user_store x v e) e' -> touches p can e e'.
Lemma touch_trans p can e1 e2 e3 : touches p can e1 e2 -> touches p can e2 e3 -> touches p can e1 e3.
Proof. induction 1; intros ?; [done | eapply touch_refused | eapply touch_locked | eapply touch_load | eapply touch_store]; eauto. Qed.
Lemma touches_impl p (can can' : bool -> Z -> Prop) e e' : (forall w x, can w x -> can' w x) -> touches p can e e' -> touches p can' e e'.
Proof. intros Hc. induction 1; [apply touch_done | eapply touch_refused | eapply touch_locked | eapply touch_load | eapply touch_store]; eauto. Qed.

(** Every address of a range. *)
Definition range_can s p (w : bool) (address size : Z) : Prop := forall x, address <= x < address + size -> user_can s p w x.

Lemma buffer_accessible_sound s e p start size w : p <> 0 -> tables_ok (paging s) (pml4_table (paging s)) -> regions_wf (space_at s p) -> 0 < start -> 0 < size -> start + size <= 2 ^ 64 ->
  exists answer e', address_space_buffer_accessible p start size w s e = (answer, s, e') /\ (forall can, touches p can e e') /\
    (answer = 0 /\ (range_can s p w start size -> (kernel_spinlock_acquire (space_lock p) e).1 = false) \/ answer = 1 /\ range_can s p w start size).
Proof.
  intros Hp Ht Hr Hb1 Hb2 Hb3. unfold address_space_buffer_accessible. rewrite (proj2 (Z.eqb_neq size 0)), (proj2 (Z.eqb_neq p 0)), (proj2 (Z.eqb_neq start 0)) by lia. cbn [orb].
  rewrite u64_small by (unfold is_u64; lia). rewrite (proj2 (Z.ltb_ge _ _)) by lia. unfold with_lock.
  destruct (kernel_spinlock_acquire (space_lock p) e) as [[] e1] eqn:Ha.
  - destruct (buffer_body_exact s p w Ht Hr start size Hb1 Hb2 Hb3) as (b & -> & Hb). eexists _, _. split; [done|]. split; [intros can; eapply touch_locked, touch_done; done|].
    destruct b; [right; split; [done | exact (proj1 Hb eq_refl)] | left; split; [done|]; intros Hx; by apply Hb in Hx].
  - eexists _, _. split; [done|]. split; [intros can; eapply touch_refused, touch_done; done | by left].
Qed.

(** Leaving what was not entered: the count is back where it was. *)
Lemma access_undone p s : leasable s p ->
  same_spaces s (upd_space p (fun a => a <| active_user_accesses := u32 (active_user_accesses a - 1) |>) (upd_space p (fun a => a <| active_user_accesses := u32 (active_user_accesses a + 1) |>) s)).
Proof.
  intros [_ _ _ Hc]. constructor; try done. intros q. rewrite !at_upd. repeat case_decide; try congruence; try done. subst q. destruct (space_at s p). cbn in *.
  rewrite (u32_small (_ + 1)) by (unfold is_u32; lia). rewrite u32_small by (unfold is_u32; lia). f_equal. lia.
Qed.
(** When the gate lets an access in. *)
Definition gate_lets s p e : Prop :=
  identity (space_at s p) <> 0 /\ kernel_spinlock_depth e = 0 /\ kernel_in_tlb_wait e = 0 /\ shootdown_timeout_count (space_at s p) = 0 /\ shootdown_active (space_at s p) = 0.
Lemma access_begin_exact p s e : leasable s p ->
  (gate_lets s p e /\ address_space_user_access_begin p (identity (space_at s p)) s e = (1, held p s)) \/
  (~ gate_lets s p e /\ exists s', address_space_user_access_begin p (identity (space_at s p)) s e = (0, s') /\ same_spaces s s').
Proof.
  intros Hl. unfold address_space_user_access_begin, gate_lets. rewrite (proj2 (Z.eqb_neq p 0)) by apply Hl. cbn [orb]. unfold nonzero.
  destruct (Z.eqb_spec (identity (space_at s p)) 0); [right; split; [naive_solver | by exists s]|].
  destruct (Z.eqb_spec (kernel_spinlock_depth e) 0); [|right; split; [naive_solver | by exists s]].
  destruct (Z.eqb_spec (kernel_in_tlb_wait e) 0); [|right; split; [naive_solver | by exists s]].
  destruct (Z.eqb_spec (shootdown_timeout_count (space_at s p)) 0); [|right; split; [naive_solver | by exists s]].
  destruct (Z.eqb_spec (shootdown_active (space_at s p)) 0) as [Hz|]; [|right; split; [naive_solver | by exists s]].
  left. split; [done|]. cbn [negb orb]. rewrite !at_upd_eq.
  assert (forall a x, shootdown_active (a <| active_user_accesses := x |>) = shootdown_active a) as -> by done.
  assert (forall a x, identity (a <| active_user_accesses := x |>) = identity a) as -> by done.
  rewrite Hz, !Z.eqb_refl. cbn [negb orb]. unfold held, upd_space. do 3 f_equal.
  rewrite u32_small; [done|]. pose proof (la_count _ _ Hl). unfold is_u32. lia.
Qed.

(** While an access is held the rights are those from before. *)
Lemma buffer_accessible_held s e p start size w : leasable s p -> 0 < start -> 0 < size -> start + size <= 2 ^ 64 ->
  exists answer e', address_space_buffer_accessible p start size w (held p s) e = (answer, held p s, e') /\ (forall can, touches p can e e') /\
    (answer = 0 /\ (range_can s p w start size -> (kernel_spinlock_acquire (space_lock p) e).1 = false) \/ answer = 1 /\ range_can s p w start size).
Proof.
  intros Hl Hb1 Hb2 Hb3. 
  destruct (buffer_accessible_sound (held p s) e p start size w) as (answer & e' & Hb & Ht & Ho); [apply Hl | apply Hl | |done..|].
  { unfold held. rewrite at_upd_eq. destruct (la_regions _ _ Hl). by constructor. }
  exists answer, e'. split; [done|]. split; [done|]. destruct Ho as [[? Ho]|[? Ho]]; [left | right]; (split; [done|]).
  - intros Hx. apply Ho. intros x Hin. apply user_can_held; [apply Hl | by apply Hx].
  - intros x Hx. by eapply user_can_held, Ho; [apply Hl|].
Qed.

(** ** Leases *)

(** A request that is granted: from the running process, in the form the call
    asks for, at a moment when the space may be entered, for bytes that the
    process may access. *)
Record grantable (process address size alignment access flags : Z) s e : Prop := {
  gr_process : process <> 0 /\ process_active process e <> 0 /\ current_process e = process;
  gr_form : valid_alignment alignment = true /\ (access = USER_MEMORY_READ \/ access = USER_MEMORY_WRITE \/ access = USER_MEMORY_READ_WRITE) /\
    Z.land flags (not32 USER_MEMORY_VALID_FLAGS) = 0;
  gr_address : 0 < size /\ 0 < address /\ Z.land address (u32 (alignment - 1)) = 0 /\ address + size <= USER_CANONICAL_LIMIT;
  gr_gate : gate_lets s (process_space process) e;
  gr_range : range_can s (process_space process) (negb (access =? USER_MEMORY_READ)) address size;
}.
Definition granted_lease (process address size access : Z) s : UserMemoryLease :=
  let space := process_space process in {|
  lease_process := process; lease_space := space; lease_address := address; lease_size := size; lease_end := address + size - 1;
  lease_identity := identity (space_at s space); lease_generation := tlb_generation (space_at s space); lease_access := access; lease_active := 1 |}.

(** The argument check, in the words of [grantable]. *)
Lemma lease_arguments process alignment access flags e :
  (process =? 0) || negb (nonzero (process_active process e)) || negb (current_process e =? process) || negb (valid_alignment alignment)
    || (negb (access =? USER_MEMORY_READ) && negb (access =? USER_MEMORY_WRITE) && negb (access =? USER_MEMORY_READ_WRITE))
    || nonzero (Z.land flags (not32 USER_MEMORY_VALID_FLAGS)) = false <->
  (process <> 0 /\ process_active process e <> 0 /\ current_process e = process) /\
  valid_alignment alignment = true /\ (access = USER_MEMORY_READ \/ access = USER_MEMORY_WRITE \/ access = USER_MEMORY_READ_WRITE) /\
    Z.land flags (not32 USER_MEMORY_VALID_FLAGS) = 0.
Proof.
  unfold nonzero. generalize (Z.land flags (not32 USER_MEMORY_VALID_FLAGS)). intros m.
  destruct (Z.eqb_spec process 0), (Z.eqb_spec (process_active process e) 0), (Z.eqb_spec (current_process e) process), (valid_alignment alignment), (Z.eqb_spec m 0); cbn;
    rewrite ?orb_true_r, ?orb_false_r; try (split; [discriminate | naive_solver]);
    destruct (Z.eqb_spec access USER_MEMORY_READ), (Z.eqb_spec access USER_MEMORY_WRITE), (Z.eqb_spec access USER_MEMORY_READ_WRITE); cbn; naive_solver.
Qed.

Definition lease_results : list Z := [OS_SUCCESS; SYS_ERR_INVALID_ARGUMENT; SYS_ERR_NOT_READY; SYS_ERR_BAD_BUFFER; SYS_ERR_OVERFLOW].
Definition refusal (process address size alignment access flags : Z) s e (r : Z) s' e' : Prop := let p := process_space process in
  same_spaces s s' /\ (forall can, touches p can e e') /\ In r lease_results /\ (r = OS_SUCCESS -> size = 0 /\ has USER_MEMORY_ALLOW_EMPTY flags = true) /\
  (grantable process address size alignment access flags s e -> (kernel_spinlock_acquire (space_lock p) e).1 = false).
Lemma refused_at_once process address size alignment access flags s e r :
  In r lease_results -> (r = OS_SUCCESS -> size = 0 /\ has USER_MEMORY_ALLOW_EMPTY flags = true) -> ~ grantable process address size alignment access flags s e ->
  exists r' s' e', (r, zero_lease, s, e) = (r', zero_lease, s', e') /\ refusal process address size alignment access flags s e r' s' e'.
Proof. intros Hi Hr Hg. exists r, s, e. split; [done|]. split; [reflexivity|]. split; [intros can; apply touch_done|]. by split_and!. Qed.

Lemma lease_begin_cases process address size alignment access flags s e : let p := process_space process in
  leasable s p -> is_u64 address -> is_u64 size ->
  (grantable process address size alignment access flags s e /\ exists e', (forall can, touches p can e e') /\
    user_memory_lease_begin process address size alignment access flags s e = (OS_SUCCESS, granted_lease process address size access s, held p s, e')) \/
  (exists r s' e', user_memory_lease_begin process address size alignment access flags s e = (r, zero_lease, s', e') /\
    refusal process address size alignment access flags s e r s' e').
Proof.
  intros p Hl Ha Hs. unfold user_memory_lease_begin.
  destruct (_ || nonzero (Z.land flags _)) eqn:Harg.
  { right. apply refused_at_once; [cbn; tauto | done |]. intros [A B _ _ _]. by rewrite (proj2 (lease_arguments _ _ _ _ _) (conj A B)) in Harg. }
  apply lease_arguments in Harg as [Hpr Hform].
  destruct (negb (kernel_spinlock_depth e =? 0) || _) eqn:Hlk.
  { right. apply refused_at_once; [cbn; tauto | done |]. intros [_ _ _ (_ & D1 & D2 & _) _]. by rewrite D1, D2 in Hlk. }
  destruct (Z.eqb_spec size 0) as [Hz|Hz].
  { right. apply refused_at_once; [case_match; cbn; tauto | |intros [_ _ C _ _]; lia]. unfold has. destruct (nonzero (Z.land flags USER_MEMORY_ALLOW_EMPTY)); [done|discriminate]. }
  destruct ((address =? 0) || _) eqn:Hal.
  { right. apply refused_at_once; [cbn; tauto | done |]. intros [_ _ (_ & C1 & C2 & _) _ _]. by rewrite C2, (proj2 (Z.eqb_neq address 0)) in Hal by lia. }
  unfold user_checked_add_u64. rewrite (u64_small (size - 1)) by (unfold is_u64 in *; lia).
  destruct (Z.ltb_spec (2 ^ 64 - 1 - address) (size - 1)) as [Hov|Hov].
  { right. apply refused_at_once; [cbn; tauto | done |]. intros [_ _ C _ _]. unfold USER_CANONICAL_LIMIT in C. lia. }
  change (OS_SUCCESS =? OS_SUCCESS) with true. cbn [negb]. rewrite u64_small by (unfold is_u64 in *; lia). replace (address + (size - 1)) with (address + size - 1) by lia.
  unfold user_address_is_canonical. destruct (negb (address <? _) || _) eqn:Hcan.
  { right. apply refused_at_once; [cbn; tauto | done |]. intros [_ _ C _ _]. bprop; lia. }
  apply orb_false_iff in Hcan as [_ Hcan]. apply orb_false_iff in Hal as [Hnull Hal]. unfold nonzero in Hal. bprop.
  unfold address_space_identity. fold p. rewrite (proj2 (Z.eqb_neq p 0)) by apply Hl.
  destruct (access_begin_exact p s e Hl) as [(Hg & ->)|(Hg & s' & -> & Hss)]; cbn [Z.eqb].
  2: { right. exists SYS_ERR_NOT_READY, s', e. split; [done|]. split; [done|]. split; [intros can; apply touch_done|]. split; [cbn; tauto|]. split; [done|]. by intros [_ _ _ D _]. }
  assert (address + size <= USER_CANONICAL_LIMIT /\ 0 < address /\ 0 < size) as (Hlim & Ha0 & Hs0) by (unfold is_u64 in *; lia).
  destruct (buffer_accessible_held s e p address size (negb (access =? USER_MEMORY_READ)) Hl) as (answer & e' & -> & Ht & Ho); [lia | lia | unfold USER_CANONICAL_LIMIT in Hlim; lia |].
  destruct Ho as [[-> Ho] | [-> Ho]]; cbn [Z.eqb].
  { right. eexists _, _, e'. split; [done|]. split; [by apply held_end|]. split; [done|]. split; [cbn; tauto|]. split; [done|]. intros [_ _ _ _ D]. by apply Ho. }
  left. split; [by constructor|]. exists e'. split; [done|]. unfold granted_lease, address_space_tlb_generation, held. rewrite at_upd_eq. fold p.
  by rewrite (proj2 (Z.eqb_neq p 0)) by apply Hl.
Qed.
Lemma lease_end_granted process address size access s : leasable s (process_space process) ->
  exists s', user_memory_lease_end (granted_lease process address size access s) (held (process_space process) s) = (zero_lease, s') /\ same_spaces s s'.
Proof.
  intros Hl. unfold user_memory_lease_end, granted_lease. cbn [lease_active lease_space nonzero Z.eqb negb andb].
  rewrite (proj2 (Z.eqb_neq _ 0)) by apply Hl. eexists. split; [done|]. by apply held_end.
Qed.

(** ** Copies *)

(** Nothing of the address spaces changed, and only what the process may touch was touched. *)
Definition clean (p : Z) s e s' e' : Prop := same_spaces s s' /\ touches p (user_can s p) e e'.
Lemma clean_refl p s e : clean p s e s e.
Proof. split; [reflexivity | apply touch_done]. Qed.
Lemma clean_trans p s1 e1 s2 e2 s3 e3 : leasable s1 p -> clean p s1 e1 s2 e2 -> clean p s2 e2 s3 e3 -> clean p s1 e1 s3 e3.
Proof.
  intros Hl [Hs1 Ht1] [Hs2 Ht2]. split; [by transitivity s2|]. eapply touch_trans; [done|]. eapply touches_impl; [|done].
  intros w x. apply user_can_same; [by eapply leasable_same | by symmetry].
Qed.

Lemma load_bytes_touches p can n address e : (forall x, address <= x < address + Z.of_nat n -> can false x) ->
  exists bytes e', load_bytes n address e = (bytes, e') /\ touches p can e e' /\ length bytes = n.
Proof.
  revert address e. induction n as [|n IH]; intros address e Hc; cbn [load_bytes]; [exists [], e; split_and!; [done | apply touch_done | done]|].
  destruct (user_load address e) as [v e1] eqn:Hv. destruct (IH (address + 1) e1) as (bytes & e' & -> & Ht & Hl); [intros x Hx; apply Hc; lia|].
  exists (v :: bytes), e'. split_and!; [done | | cbn; lia]. eapply (touch_load _ _ _ address); [apply Hc; lia | by rewrite Hv].
Qed.
Lemma store_bytes_touches p can values address e : (forall x, address <= x < address + alen values -> can true x) -> touches p can e (store_bytes values address e).
Proof.
  unfold alen. revert address e. induction values as [|v values IH]; intros address e Hc; cbn [store_bytes length] in *; [apply touch_done|].
  eapply (touch_store _ _ _ address v); [apply Hc; lia|]. apply IH. intros x Hx. apply Hc. lia.
Qed.

Section Copies.
Context (process : Z) (s : SpaceState).
Local Abbreviation p := (process_space process).
Context (Hl : leasable s p).

Lemma copy_in_clean present address size alignment flags e : is_u64 address -> is_u64 size ->
  exists r bytes s' e', user_memory_copy_in process present address size alignment flags s e = (r, bytes, s', e') /\ clean p s e s' e' /\
    (r = OS_SUCCESS -> alen bytes = size) /\ (r <> OS_SUCCESS -> bytes = []).
Proof using All.
  intros Ha Hs. unfold user_memory_copy_in. destruct (nonzero size && negb present).
  { eexists _, _, s, e. split; [done|]. split; [apply clean_refl|]. by split. }
  destruct (lease_begin_cases process address size alignment USER_MEMORY_READ flags s e Hl Ha Hs) as [(Hg & e1 & Ht & ->)|(r & s' & e1 & -> & Hss & Ht & _ & Hr & _)].
  - destruct Hg as [_ _ (Hsz & _) _ Hc]. rewrite (proj2 (Z.eqb_neq size 0)) by lia. cbn [negb orb Z.eqb].
    change (OS_SUCCESS =? OS_SUCCESS) with true. cbn [negb orb].
    destruct (load_bytes_touches p (user_can s p) (Z.to_nat size) address e1) as (bytes & e' & -> & Ht' & Hlen); [intros x Hx; apply Hc; lia|].
    destruct (lease_end_granted process address size USER_MEMORY_READ s Hl) as (s' & -> & Hss).
    eexists _, _, _, _. split; [done|]. split; [split; [done | by eapply touch_trans]|]. split; [unfold alen; lia | done].
  - destruct (negb (r =? OS_SUCCESS) || (size =? 0)) eqn:Hend; bprop.
    + eexists _, _, _, _. split; [done|]. by split.
    + eexists _, _, _, _. split; [done|]. split; [done|]. subst size. by split.
    + by destruct Hr.
Qed.
Lemma copy_out_clean address source size alignment flags e : is_u64 address -> is_u64 size -> size <= alen (default [] source) \/ source = None ->
  exists r s' e', user_memory_copy_out process address source size alignment flags s e = (r, s', e') /\ clean p s e s' e'.
Proof using All.
  intros Ha Hs Hsrc. unfold user_memory_copy_out. destruct (nonzero size && _) eqn:Hn; [eexists _, s, e; split; [done | apply clean_refl]|]. clear Hn.
  destruct (lease_begin_cases process address size alignment USER_MEMORY_WRITE flags s e Hl Ha Hs) as [(Hg & e1 & Ht & ->)|(r & s' & e1 & -> & Hss & Ht & _ & Hr & _)].
  - destruct Hg as [_ _ (Hsz & _) _ Hc]. rewrite (proj2 (Z.eqb_neq size 0)) by lia. change (OS_SUCCESS =? OS_SUCCESS) with true. cbn [negb orb].
    destruct (lease_end_granted process address size USER_MEMORY_WRITE s Hl) as (s' & -> & Hss). eexists _, _, _. split; [done|]. split; [done|].
    eapply touch_trans; [done|]. apply store_bytes_touches. intros x Hx. apply Hc. unfold alen in Hx. rewrite length_take in Hx. lia.
  - destruct (negb (r =? OS_SUCCESS) || (size =? 0)) eqn:Hend; bprop; [by eexists _, _, _ | by eexists _, _, _ | by destruct Hr].
Qed.
Lemma copy_array_in_clean present address count element_size alignment e : is_u64 address ->
  exists r bytes s' e', user_memory_copy_array_in process present address count element_size alignment s e = (r, bytes, s', e') /\ clean p s e s' e' /\
    (r = OS_SUCCESS -> 0 <= count -> 0 <= element_size -> alen bytes = count * element_size).
Proof using All.
  intros Ha. unfold user_memory_copy_array_in, user_checked_multiply_u64. destruct (nonzero count && _) eqn:Hn.
  { cbn. eexists _, _, s, e. split; [done|]. split; [apply clean_refl | done]. }
  change (negb (OS_SUCCESS =? OS_SUCCESS)) with false. cbn [negb].
  destruct (copy_in_clean present address (u64 (count * element_size)) alignment USER_MEMORY_ALLOW_EMPTY e Ha) as (r & bytes & s' & e' & -> & Hc & Hb & _);
    [apply Z.mod_pos_bound; lia|]. eexists _, _, _, _. split; [done|]. split; [done|]. intros Hr H0' H1'. rewrite Hb by done. apply u64_small. unfold is_u64.
  unfold nonzero in Hn. apply andb_false_iff in Hn as [Hn|Hn]; bprop; [subst; lia|].
  destruct (decide (count = 0)) as [-> |]; [lia|]. pose proof (Z.mul_div_le (2 ^ 64 - 1) count). nia.
Qed.

(** The bytes of a chunk: a string and its NUL, or no NUL at all. *)
Lemma load_until_nul_touches q can n address e : (forall x, address <= x < address + Z.of_nat n -> can false x) ->
  exists bytes found e', load_until_nul n address e = (bytes, found, e') /\ touches q can e e' /\
    if found : bool then exists str, bytes = str ++ [0] /\ Forall (fun v => v <> 0) str /\ (length str < n)%nat else Forall (fun v => v <> 0) bytes /\ length bytes = n.
Proof using Type.
  revert address e. induction n as [|n IH]; intros address e Hc; cbn [load_until_nul]; [exists [], false, e; split_and!; [done | apply touch_done | done | done]|].
  destruct (user_load address e) as [v e1] eqn:Hv. assert (forall e', touches q can e1 e' -> touches q can e e') as Hload.
  { intros e' Ht. eapply (touch_load _ _ _ address); [apply Hc; lia | by rewrite Hv]. }
  destruct (Z.eqb_spec v 0) as [-> |Hne].
  { eexists _, _, _. split; [done|]. split; [apply Hload, touch_done|]. exists []. split_and!; [done | done | cbn; lia]. }
  destruct (IH (address + 1) e1) as (bytes & found & e' & -> & Ht & Hb); [intros x Hx; apply Hc; lia|]. eexists _, _, _. split; [done|]. split; [by apply Hload|].
  destruct found.
  - destruct Hb as (str & -> & Hf & Hlt). exists (v :: str). split_and!; [done | by constructor | cbn; lia].
  - destruct Hb as [Hf Hlen]. split; [by constructor | cbn; lia].
Qed.
End Copies.

Definition cstring_result (capacity r len : Z) (out : list Z) : Prop :=
  alen out <= capacity /\ (r = OS_SUCCESS -> exists str, out = str ++ [0] /\ Forall (fun v => v <> 0) str /\ len = alen str) /\
  (r <> OS_SUCCESS -> len = 0 /\ Forall (fun v => v <> 0) out) /\ (r = SYS_ERR_BUFFER_TOO_SMALL -> alen out = capacity).

Lemma copy_cstring_loop_clean process address capacity : is_u64 address -> is_u64 capacity -> forall fuel copied stored s e,
  leasable s (process_space process) -> alen stored = copied -> 0 <= copied <= capacity -> capacity - copied <= Z.of_nat fuel -> Forall (fun v => v <> 0) stored ->
  exists r len out s' e', copy_cstring_loop fuel process address capacity copied stored s e = (r, len, out, s', e') /\ clean (process_space process) s e s' e' /\
    cstring_result capacity r len out.
Proof.
  intros Ha Hcap. induction fuel as [|fuel IH]; intros copied stored s e Hl Hst Hc Hf Hnz; cbn [copy_cstring_loop].
  { eexists _, _, _, s, e. split; [done|]. split; [apply clean_refl|]. split_and!; [lia | done | done | lia]. }
  destruct (Z.ltb_spec copied capacity) as [Hlt|].
  2: { eexists _, _, _, s, e. split; [done|]. split; [apply clean_refl|]. split_and!; [lia | done | done | lia]. }
  unfold user_checked_add_u64. destruct (Z.ltb_spec (2 ^ 64 - 1 - address) copied) as [Hov|Hov].
  { cbn. eexists _, _, _, s, e. split; [done|]. split; [apply clean_refl|]. split_and!; (done || lia). }
  change (negb (OS_SUCCESS =? OS_SUCCESS)) with false. cbn [negb]. rewrite u64_small by (unfold is_u64 in *; lia). set (at_ := address + copied).
  change 4095 with (2 ^ 12 - 1). rewrite land_ones_mod by lia. pose proof (Z.mod_pos_bound at_ (2 ^ 12) ltac:(lia)) as Hmod.
  set (chunk := if capacity - copied <? 4096 - at_ mod 2 ^ 12 then capacity - copied else 4096 - at_ mod 2 ^ 12).
  assert (0 < chunk <= capacity - copied /\ chunk <= 4096) as (Hch & Hch') by (unfold chunk; destruct (Z.ltb_spec (capacity - copied) (4096 - at_ mod 2 ^ 12)); lia). clearbody chunk.
  destruct (lease_begin_cases process at_ chunk 1 USER_MEMORY_READ 0 s e Hl) as [(Hg & e1 & Ht & ->)|(r & s' & e1 & -> & Hss & Ht & Hres & Hr & _)];
    [unfold is_u64 in *; lia | unfold is_u64 in *; lia | |].
  2: { destruct (negb (r =? OS_SUCCESS)) eqn:Hend; [|bprop; destruct (Hr Hend); lia]. bprop. eexists _, _, _, _, _. split; [done|]. split; [done|].
    split_and!; [lia | done | done |]. intros ->. cbn in Hres. exfalso. repeat (destruct Hres as [Hres|Hres]; [done|]). done. }
  change (negb (OS_SUCCESS =? OS_SUCCESS)) with false. destruct Hg as [_ _ _ _ Hcan].
  destruct (load_until_nul_touches (process_space process) (user_can s (process_space process)) (Z.to_nat chunk) at_ e1) as (bytes & found & e' & -> & Ht' & Hb); [intros x Hx; apply Hcan; lia|].
  destruct (lease_end_granted process at_ chunk USER_MEMORY_READ s Hl) as (s' & -> & Hss).
  assert (clean (process_space process) s e s' e') as Hcl by (split; [done | by eapply touch_trans]). unfold alen in Hst.
  destruct found.
  - destruct Hb as (str & -> & Hfs & Hlen). eexists _, _, _, _, _. split; [done|]. split; [done|].
    split_and!; [unfold alen; rewrite !length_app; cbn; lia | | done | done]. intros _. exists (stored ++ str).
    split_and!; [by rewrite app_assoc | by apply Forall_app | unfold alen; rewrite !length_app; cbn; lia].
  - destruct Hb as [Hfs Hlen].
    destruct (IH (copied + chunk) (stored ++ bytes) s' e') as (r & len & out & s2 & e2 & -> & Hcl2 & Hres);
      [by eapply leasable_same | unfold alen; rewrite length_app; lia | lia | lia | by apply Forall_app |].
    eexists _, _, _, _, _. split; [done|]. split; [by eapply clean_trans | done].
Qed.
End Touches.
