(* ===== verification/UserMemoryCopies.v ===== *)
(** * Copies between programs and the kernel

    The guarantees of [kernel/syscall/user_memory.cpp] to its callers, from the
    lemmas of [UserMemorySpec], and a small machine on which they are tried:
    [Machine] counts the reads of user memory and lets its contents depend on the
    count, so that a program can change a structure while it is copied. *)

From S2P Require Import Prelude KernelEnv Results Pmm Paging PagingSpec PagingRoots Vm AddressSpace AddressRegions AddressSpaceSpec UserMemory UserMemorySpec.

(** ** Lengths, without any assumption on the environment *)

Section Lengths.
Context {E : Type} `{KernelEnv E, SpaceHost E, UserHost E}.
Implicit Types (s : SpaceState) (e : E).

Lemma load_bytes_length n address e : length (load_bytes n address e).1 = n.
Proof.
  revert address e. induction n as [|n IH]; intros address e; cbn [load_bytes]; [done|]. destruct (user_load address e) as [v e1].
  specialize (IH (address + 1) e1). destruct (load_bytes n (address + 1) e1). cbn in *. by rewrite IH.
Qed.
Lemma copy_in_length process present address size alignment flags s e r bytes s' e' : 0 <= size ->
  user_memory_copy_in process present address size alignment flags s e = (r, bytes, s', e') -> r = OS_SUCCESS -> alen bytes = size.
Proof.
  intros H0' Hc ->. unfold user_memory_copy_in in Hc. destruct (nonzero size && _); [done|]. destruct (user_memory_lease_begin _ _ _ _ _ _ _ _) as [[[r lease] s1] e1].
  destruct (negb (r =? OS_SUCCESS) || (size =? 0)) eqn:Hend.
  - injection Hc as -> <- _ _. change (negb (OS_SUCCESS =? OS_SUCCESS)) with false in Hend. cbn [orb] in Hend. bprop. by subst.
  - pose proof (load_bytes_length (Z.to_nat size) address e1) as Hl. destruct (load_bytes _ _ e1) as [values e2]. cbn [user_memory_lease_end] in Hc. injection Hc as <- _ _.
    unfold alen. cbn in Hl. lia.
Qed.
Lemma read_u32_app l1 l2 : (4 <= length l1)%nat -> read_u32 (l1 ++ l2) = read_u32 l1.
Proof. intros Hl. destruct l1 as [|a [|b [|c [|d l1]]]]; cbn in Hl; try lia. reflexivity. Qed.

(** C23: A structure that a program hands to the kernel is consistent even when other threads of the program change it during the call: whatever each single
    read of user memory gives, when [user_memory_copy_versioned_struct_in] succeeds the kernel's copy has exactly [destination_size] bytes, its own first word is
    a size within the limits of the caller, its second word is the version asked for, and everything behind that size is 0; when it fails the destination is
    untouched.  (The size is read twice; the second reading is compared with the first.) *)
Theorem user_memory_versioned_struct_consistent process user_address present destination_size minimum_size expected_version alignment s e :
  let '(r, out, _, _) := user_memory_copy_versioned_struct_in process user_address present destination_size minimum_size expected_version alignment s e in
  (r = OS_SUCCESS -> alen out = destination_size /\ 8 <= minimum_size <= read_u32 out /\ read_u32 out <= destination_size <= USER_MEMORY_STRUCT_MAX /\
    read_u32 (drop 4 out) = expected_version /\ forall i, read_u32 out <= i < destination_size -> aget out i = 0) /\
  (r <> OS_SUCCESS -> out = []).
Proof.
  unfold user_memory_copy_versioned_struct_in. destruct (_ || (USER_MEMORY_STRUCT_MAX <? destination_size)) eqn:Harg; [done|]. bprop.
  destruct (user_memory_copy_in process true user_address 8 alignment 0 s e) as [[[r1 header] s1] e1].
  destruct (negb (r1 =? OS_SUCCESS)) eqn:H1'; [bprop; split; [by intros ->|done]|].
  destruct (_ || negb (read_u32 (drop 4 header) =? expected_version)) eqn:Hhead; [done|]. bprop. set (declared := read_u32 header) in *. clearbody declared.
  destruct (user_memory_copy_in process true user_address declared alignment 0 s1 e1) as [[[r2 snapshot] s2] e2] eqn:Hsnap.
  destruct (negb (r2 =? OS_SUCCESS)) eqn:H2'; [bprop; split; [by intros ->|done]|].
  destruct (_ || negb (read_u32 (drop 4 snapshot) =? expected_version)) eqn:Hagain; [done|]. bprop.
  apply copy_in_length in Hsnap; [|lia|done]. rewrite take_ge by (unfold alen in Hsnap; lia). unfold alen in Hsnap.
  rewrite drop_app_le, !read_u32_app by (rewrite ?length_drop; lia). split; [|done]. intros _. split_and!; try lia.
  - unfold alen. rewrite length_app, length_replicate. lia.
  - intros i Hi. unfold aget. rewrite app_nth2 by lia. rewrite nth_lookup, lookup_replicate_2 by lia. done.
Qed.
End Lengths.

(** ** Leases and copies *)

Section Accesses.
Context {E : Type} `{KernelEnv E, SpaceHost E, UserHost E}.
Implicit Types (s : SpaceState) (e : E).

(** C22: No copy reaches memory that the program itself may not reach, and none leaves a lease behind: whatever the arguments (addresses and sizes are any
    64-bit values), whatever the results, [user_memory_copy_in], [user_memory_copy_out], [user_memory_copy_array_in], [user_memory_copy_cstring] and
    [user_memory_copy_versioned_struct_in] read only bytes that the regions and the page tables let the process read, write only bytes they let it write, touch
    nothing else but the lock of its address space, and return with every address space as it was, the count of running accesses included. *)
Theorem user_memory_copies_clean process address size alignment flags (present : bool) (source : option (list Z)) count element_size
    destination_size minimum_size expected_version s e : let p := process_space process in
  leasable s p -> is_u64 address -> is_u64 size -> is_u32 destination_size -> size <= alen (default [] source) \/ source = None ->
  let copied_in := user_memory_copy_in process present address size alignment flags s e in
  let copied_out := user_memory_copy_out process address source size alignment flags s e in
  let array := user_memory_copy_array_in process present address count element_size alignment s e in
  let cstring := user_memory_copy_cstring process address present size s e in
  let struct := user_memory_copy_versioned_struct_in process address present destination_size minimum_size expected_version alignment s e in
  clean p s e copied_in.1.2 copied_in.2 /\ clean p s e copied_out.1.2 copied_out.2 /\ clean p s e array.1.2 array.2 /\
  clean p s e cstring.1.2 cstring.2 /\ clean p s e struct.1.2 struct.2.
Proof.
  intros p Hl Ha Hs Hd Hsrc. split_and!.
  - by destruct (copy_in_clean process s Hl present address size alignment flags e Ha Hs) as (r & bytes & s' & e' & -> & Hc & _).
  - by destruct (copy_out_clean process s Hl address source size alignment flags e Ha Hs Hsrc) as (r & s' & e' & -> & Hc).
  - by destruct (copy_array_in_clean process s Hl present address count element_size alignment e Ha) as (r & bytes & s' & e' & -> & Hc & _).
  - unfold user_memory_copy_cstring. destruct (negb present || (size <? 2)); [apply clean_refl|].
    destruct (copy_cstring_loop_clean process address size Ha Hs (Z.to_nat size) 0 [] s e Hl) as (r & len & out & s' & e' & -> & Hc & _); try done; unfold is_u64 in Hs; lia.
  - unfold user_memory_copy_versioned_struct_in. destruct (_ || (USER_MEMORY_STRUCT_MAX <? destination_size)) eqn:Harg; [apply clean_refl|].
    destruct (copy_in_clean process s Hl true address 8 alignment 0 e Ha) as (r & header & s1 & e1 & -> & Hc & _); [done|].
    destruct (negb (r =? OS_SUCCESS)); [done|]. destruct (_ || negb (read_u32 (drop 4 header) =? expected_version)) eqn:Hhead; [done|].
    destruct (copy_in_clean process s1 (leasable_same _ _ _ (proj1 Hc) Hl) true address (read_u32 header) alignment 0 e1 Ha) as (r2 & snapshot & s2 & e2 & -> & Hc2 & _);
      [bprop; unfold is_u32, is_u64 in *; lia|].
    destruct (negb (r2 =? OS_SUCCESS)); [by eapply clean_trans|]. destruct (_ || negb (read_u32 (drop 4 snapshot) =? expected_version)); by eapply clean_trans.
Qed.

(** A string that the kernel takes from a program is a string: when [user_memory_copy_cstring] succeeds, the buffer holds [length] bytes that are not NUL
    and one NUL, which fit into the capacity; on every other result the length is 0, no more than [capacity] bytes were stored, and the buffer is reported too
    small only after the whole capacity was filled without meeting a NUL. *)
Theorem user_memory_copy_cstring_terminated process address capacity s e : leasable s (process_space process) -> is_u64 address -> 2 <= capacity < 2 ^ 64 ->
  let '(r, length, out, _, _) := user_memory_copy_cstring process address true capacity s e in
  alen out <= capacity /\ (r = OS_SUCCESS -> exists str, out = str ++ [0] /\ Forall (fun v => v <> 0) str /\ length = alen str) /\
  (r <> OS_SUCCESS -> length = 0 /\ Forall (fun v => v <> 0) out) /\ (r = SYS_ERR_BUFFER_TOO_SMALL -> alen out = capacity).
Proof.
  intros Hl Ha Hc. unfold user_memory_copy_cstring. rewrite (proj2 (Z.ltb_ge capacity 2)) by lia. cbn [negb orb].
  destruct (copy_cstring_loop_clean process address capacity Ha ltac:(unfold is_u64; lia) (Z.to_nat capacity) 0 [] s e Hl) as (r & len & out & s' & e' & -> & _ & Hr);
    [done | lia | lia | done | exact Hr].
Qed.
End Accesses.

Section Exact.
Context {E : Type} `{LL : LockLaws E, SpaceHost E, UserHost E}.
Implicit Types (s : SpaceState) (e : E).

(** C21: A lease of user memory is given exactly when it should be.  For a non-empty range and a space whose lock can be taken, [user_memory_lease_begin]
    succeeds if and only if the request is [grantable]: it comes from the running, active process, its alignment, kind of access and flags are well formed, the
    address is aligned and not null, the range ends below the canonical limit, the space may be entered, and every byte is accessible to the process.  Then the
    lease describes the range and the space counts one access more; otherwise there is no lease and nothing changed.  Ending it restores the count. *)
Theorem user_memory_lease_begin_exact process address size alignment access flags s e : let p := process_space process in
  leasable s p -> ready e (space_lock p) -> is_u64 address -> is_u64 size -> size <> 0 ->
  exists r lease s' e', user_memory_lease_begin process address size alignment access flags s e = (r, lease, s', e') /\
    (r = OS_SUCCESS <-> grantable process address size alignment access flags s e) /\
    (r = OS_SUCCESS -> lease = granted_lease process address size access s /\ s' = held p s) /\
    (r <> OS_SUCCESS -> lease = zero_lease /\ same_spaces s s') /\
    exists s'', user_memory_lease_end lease s' = (zero_lease, s'') /\ same_spaces s s''.
Proof.
  intros p Hl Hr Ha Hs Hz.
  destruct (lease_begin_cases process address size alignment access flags s e Hl Ha Hs) as [(Hg & e1 & _ & Hb)|(r & s' & e1 & Hb & Hss & _ & _ & Ho & Hn)].
  - eexists _, _, _, e1. split; [exact Hb|]. split; [by split|]. split; [done|]. split; [done|]. by apply lease_end_granted.
  - eexists r, _, s', e1. split; [exact Hb|]. assert (r <> OS_SUCCESS) as Hne by (intros ->; by destruct (Ho eq_refl)). split; [|split; [done|split; [done|by exists s']]].
    split; [done|]. intros Hg. apply Hn in Hg. destruct (ready_acquire _ _ Hr) as (e2 & Hq & _). fold p in Hg. by rewrite Hq in Hg.
Qed.
End Exact.

(** ** Memory that only the caller changes *)

(** The process and its processor are as before, and its locks can be taken as before. *)
Record same_process {E : Type} `{LockLaws E, SpaceHost E, UserHost E} (e e' : E) : Prop := {
  sp_active : forall q, process_active q e' = process_active q e;
  sp_current : current_process e' = current_process e;
  sp_depth : kernel_spinlock_depth e' = kernel_spinlock_depth e;
  sp_wait : kernel_in_tlb_wait e' = kernel_in_tlb_wait e;
  sp_ready : forall l, ready e l -> ready e' l }.
(** [contents e x]: the user byte at [x].  Reading gives it, writing sets it, and neither these nor a locked section disturb the process. *)
Class UserMemoryLaws (E : Type) `{LockLaws E, SpaceHost E, UserHost E} := {
  contents : E -> Z -> Z;
  load_law x e : (user_load x e).1 = contents e x /\ (forall y, contents (user_load x e).2 y = contents e y) /\ same_process e (user_load x e).2;
  store_law x v e : (forall y, contents (user_store x v e) y = if y =? x then v else contents e y) /\ same_process e (user_store x v e);
  lock_law l e e1 : ready e l -> kernel_spinlock_acquire l e = (true, e1) ->
    (forall y, contents (kernel_spinlock_release l e1) y = contents e y) /\ same_process e (kernel_spinlock_release l e1) }.

Section Stable.
Context {E : Type} `{UL : UserMemoryLaws E}.
Implicit Types (s : SpaceState) (e : E).

Lemma same_process_trans e1 e2 e3 : same_process e1 e2 -> same_process e2 e3 -> same_process e1 e3.
Proof. intros [A1 B1 C1 D1 F1] [A2 B2 C2 D2 F2]. constructor; [congruence..|]. auto. Qed.
Lemma same_process_refl e : same_process e e.
Proof. by constructor. Qed.

(** A call that only locks and unlocks leaves the memory and the process alone. *)
Lemma touches_nothing p e e' : touches p (fun _ _ => False) e e' -> ready e (space_lock p) -> (forall y, contents e' y = contents e y) /\ same_process e e'.
Proof.
  induction 1 as [e|e e1 e' Ha _ _|e e1 e' Ha Ht IH|e x e' []|e x v e' []]; intros Hr; [split; [done | apply same_process_refl] | |].
  - destruct (ready_acquire _ _ Hr) as (e2 & Hq & _). congruence.
  - destruct (lock_law _ _ _ Hr Ha) as [Hc Hp]. destruct IH as [Hc' Hp']; [by apply Hp|]. split; [intros y; by rewrite Hc'|]. by eapply same_process_trans.
Qed.
Lemma load_bytes_contents n address e : exists e', load_bytes n address e = (contents e <$> seqZ address (Z.of_nat n), e') /\
  (forall y, contents e' y = contents e y) /\ same_process e e'.
Proof.
  revert address e. induction n as [|n IH]; intros address e; cbn [load_bytes]; [exists e; split; [done|]; split; [done | apply same_process_refl]|].
  destruct (load_law address e) as (Hv & Hc & Hp). destruct (user_load address e) as [v e1]. cbn [fst snd] in *. destruct (IH (address + 1) e1) as (e' & -> & Hc' & Hp').
  exists e'. split; [|split; [intros y; by rewrite Hc' | by eapply same_process_trans]]. rewrite Nat2Z.inj_succ, (seqZ_cons address) by lia. rewrite Z.pred_succ. cbn [fmap list_fmap].
  rewrite Hv. change (Z.succ address) with (address + 1). do 2 f_equal. apply list_fmap_ext. intros i y _. apply Hc.
Qed.
Lemma store_bytes_before values address e y : y < address -> contents (store_bytes values address e) y = contents e y.
Proof.
  revert address e. induction values as [|v values IH]; intros address e Hy; cbn [store_bytes]; [done|]. rewrite IH by lia. destruct (store_law address v e) as [-> _].
  by rewrite (proj2 (Z.eqb_neq y address)) by lia.
Qed.
Lemma store_bytes_contents values address e :
  contents (store_bytes values address e) <$> seqZ address (alen values) = values /\ same_process e (store_bytes values address e).
Proof.
  unfold alen. revert address e. induction values as [|v values IH]; intros address e; cbn [store_bytes length]; [split; [done | apply same_process_refl]|].
  destruct (store_law address v e) as [Hc Hp]. destruct (IH (address + 1) (user_store address v e)) as [Hc' Hp']. split; [|by eapply same_process_trans].
  rewrite Nat2Z.inj_succ, (seqZ_cons address) by lia. rewrite Z.pred_succ. cbn [fmap list_fmap]. change (Z.succ address) with (address + 1). rewrite Hc'. f_equal.
  rewrite store_bytes_before by lia. by rewrite Hc, Z.eqb_refl.
Qed.

Lemma grantable_again process address size alignment flags s s' e e' : leasable s (process_space process) -> same_spaces s s' -> same_process e e' ->
  grantable process address size alignment USER_MEMORY_WRITE flags s e -> grantable process address size alignment USER_MEMORY_READ flags s' e'.
Proof.
  intros Hl Hss [P1 P2 P3 P4 _] [A (B1 & B2 & B3) C (D1 & D2 & D3 & D4 & D5) F]. constructor; rewrite ?P1, ?P2; try done; [by split_and!; [|left|]| |].
  - unfold gate_lets. by rewrite P3, P4, (ss_spaces _ _ Hss).
  - intros x Hx. apply (user_can_same s); [done | done |]. apply user_can_read. by apply F.
Qed.
Lemma lease_begin_granted process address size alignment access flags s e : let p := process_space process in
  leasable s p -> ready e (space_lock p) -> is_u64 address -> is_u64 size -> grantable process address size alignment access flags s e ->
  exists e', user_memory_lease_begin process address size alignment access flags s e = (OS_SUCCESS, granted_lease process address size access s, held p s, e') /\
    (forall y, contents e' y = contents e y) /\ same_process e e'.
Proof.
  intros p Hl Hr Ha Hs Hg.
  destruct (lease_begin_cases process address size alignment access flags s e Hl Ha Hs) as [(_ & e1 & Ht & Hb)|(r & s' & e1 & _ & _ & _ & _ & _ & Hn)].
  - exists e1. split; [exact Hb|]. by eapply touches_nothing.
  - apply Hn in Hg. destruct (ready_acquire _ _ Hr) as (e2 & Hq & _). fold p in Hg. by rewrite Hq in Hg.
Qed.

(** What the kernel hands to a program is what it reads back: for a buffer that the process may write, [user_memory_copy_out] succeeds, and a
    [user_memory_copy_in] from the same address and length right after it succeeds and yields the same bytes; the address spaces are as before both calls. *)
Theorem user_memory_copy_out_in_roundtrip process address (source : list Z) alignment flags s e : let p := process_space process in let size := alen source in
  leasable s p -> ready e (space_lock p) -> is_u64 address -> is_u64 size -> grantable process address size alignment USER_MEMORY_WRITE flags s e ->
  exists s1 e1 s2 e2, user_memory_copy_out process address (Some source) size alignment flags s e = (OS_SUCCESS, s1, e1) /\
    user_memory_copy_in process true address size alignment flags s1 e1 = (OS_SUCCESS, source, s2, e2) /\ same_spaces s s2.
Proof.
  intros p size Hl Hr Ha Hs Hg. pose proof Hg as [_ _ (Hz & _) _ _].
  destruct (lease_begin_granted process address size alignment USER_MEMORY_WRITE flags s e Hl Hr Ha Hs Hg) as (e1 & Hb1 & _ & Hp1).
  destruct (lease_end_granted process address size USER_MEMORY_WRITE s Hl) as (s1 & He1 & Hss1).
  destruct (store_bytes_contents source address e1) as [Hc2 Hp2]. set (e2 := store_bytes source address e1) in *.
  assert (same_process e e2) as Hp by (by eapply same_process_trans). pose proof (leasable_same _ _ _ Hss1 Hl) as Hl1.
  destruct (lease_begin_granted process address size alignment USER_MEMORY_READ flags s1 e2 Hl1 (sp_ready _ _ Hp _ Hr) Ha Hs) as (e3 & Hb3 & Hc3 & _);
    [by apply (grantable_again _ _ _ _ _ s s1 e e2)|].
  destruct (lease_end_granted process address size USER_MEMORY_READ s1 Hl1) as (s2 & He2 & Hss2).
  destruct (load_bytes_contents (Z.to_nat size) address e3) as (e4 & Hld & _).
  exists s1, e2, s2, e4. unfold user_memory_copy_out, user_memory_copy_in. rewrite !andb_false_r, Hb1, Hb3, (proj2 (Z.eqb_neq size 0)), Hld, He1, He2 by lia.
  change (OS_SUCCESS =? OS_SUCCESS) with true. cbn [negb orb default from_option]. split; [|split; [|by transitivity s1]].
  - unfold size, alen. rewrite Nat2Z.id, take_ge by done. done.
  - do 3 f_equal. transitivity (contents e2 <$> seqZ address size); [|exact Hc2]. rewrite Z2Nat.id by lia. apply list_fmap_ext. intros i y _. apply Hc3.
Qed.
End Stable.

(** ** A machine *)

(** The number of reads so far, and the contents of user memory at a number of reads. *)
Record Machine := { reads : Z; content : Z -> Z -> Z }.
Definition machine (content : Z -> Z -> Z) : Machine := {| reads := 0; content := content |}.
#[export] Instance machine_env : KernelEnv Machine := {|
  kernel_spinlock_setup _ _ m := m; kernel_spinlock_acquire _ m := (true, m); kernel_spinlock_release _ m := m; kernel_fault_injection_should_fail _ m := (false, m) |}.
#[export] Instance machine_locks : LockLaws Machine.
Proof. refine {| ready _ _ := True |}; [|done|done]. intros m l _. by exists m. Defined.
#[export] Instance machine_space : SpaceHost Machine := {|
  smp_tlb_shootdown _ _ _ _ _ _ mask m := ((1, mask), m); kernel_tlb_wait_enter m := (1, m); kernel_spinlock_depth _ := 0; kernel_in_tlb_wait _ := 0 |}.
#[export] Instance machine_user : UserHost Machine := {|
  process_active _ _ := 1; current_process _ := 0x8000; process_space q := q + 0x1000;
  user_load x m := (content m (reads m) x, {| reads := reads m + 1; content := content m |});
  user_store x v m := {| reads := reads m; content := fun n y => if y =? x then v else content m n y |} |}.

Lemma demo_count : active_user_accesses (space_at demo_mapped 0x9000) = 0.
Proof. reflexivity. Qed.
Lemma demo_leasable : leasable demo_mapped 0x9000.
Proof.
  constructor; [lia | | |].
  - pose proof demo_mapped_tables as Hok. assert (pml4_table (paging demo_mapped) = 0x1000) as Ek by reflexivity. rewrite Ek. exact Hok.
  - rewrite demo_mapped_space. exact demo_claimed_wf.
  - rewrite demo_count. lia.
Qed.

(** The string at 0x400FFE crosses the two pages; what is behind it is 7. *)
Definition demo_string (_ x : Z) : Z := if x =? 0x400FFE then 65 else if x =? 0x400FFF then 66 else if x =? 0x401000 then 0 else 7.
Lemma user_memory_copy_cstring_terminated_witness :
  (user_memory_copy_cstring 0x8000 0x400FFE true 16 demo_mapped (machine demo_string)).1.1 = (OS_SUCCESS, 2, [65; 66; 0]) /\
  (user_memory_copy_cstring 0x8000 0x401008 true 16 demo_mapped (machine demo_string)).1.1.1.1 = SYS_ERR_BUFFER_TOO_SMALL /\
  alen (user_memory_copy_cstring 0x8000 0x401008 true 16 demo_mapped (machine demo_string)).1.1.2 = 16.
Proof.
  split; [vm_compute; reflexivity|].
  pose proof (user_memory_copy_cstring_terminated (H1 := machine_user) 0x8000 0x401008 16 demo_mapped (machine demo_string) demo_leasable ltac:(by split) ltac:(by split)) as Ht.
  assert ((user_memory_copy_cstring 0x8000 0x401008 true 16 demo_mapped (machine demo_string)).1.1.1.1 = SYS_ERR_BUFFER_TOO_SMALL) as Hr by (vm_compute; reflexivity).
  split; [exact Hr|]. destruct (user_memory_copy_cstring _ _ _ _ _ _) as [[[[r len] out] s'] e']. cbn in *. by apply Ht.
Defined.

(** A structure of 12 bytes, version 1; the second program enlarges it after the first eight reads. *)
Definition demo_struct (_ x : Z) : Z := if x =? 0x400000 then 12 else if x =? 0x400004 then 1 else if x =? 0x400008 then 9 else 0.
Definition racing_struct (n x : Z) : Z := if (x =? 0x400000) && (8 <=? n) then 200 else demo_struct n x.
Example struct_copied :
  (user_memory_copy_versioned_struct_in 0x8000 0x400000 true 16 8 1 4 demo_mapped (machine demo_struct)).1.1 = (OS_SUCCESS, [12; 0; 0; 0; 1; 0; 0; 0; 9; 0; 0; 0; 0; 0; 0; 0]).
Proof. vm_compute. reflexivity. Qed.
Example racing_struct_refused :
  (user_memory_copy_versioned_struct_in 0x8000 0x400000 true 16 8 1 4 demo_mapped (machine racing_struct)).1.1 = (SYS_ERR_INVALID_ARGUMENT, []).
Proof. vm_compute. reflexivity. Qed.

Lemma user_memory_copies_clean_witness : let m := machine demo_struct in
  let out := user_memory_copy_out 0x8000 0x401FFE (Some [1; 2; 3]) 3 1 0 demo_mapped m in
  out.1.1 = SYS_ERR_BAD_BUFFER /\ clean 0x9000 demo_mapped m out.1.2 out.2.
Proof.
  intros m out. split; [vm_compute; reflexivity|].
  exact (proj1 (proj2 (user_memory_copies_clean (H1 := machine_user) 0x8000 0x401FFE 3 1 0 true (Some [1; 2; 3]) 1 1 16 8 1 demo_mapped m demo_leasable
    ltac:(by split) ltac:(by split) ltac:(by split) ltac:(by left)))).
Defined.

Lemma user_memory_lease_begin_exact_witness : grantable 0x8000 0x400FF0 32 16 USER_MEMORY_READ_WRITE 0 demo_mapped (machine demo_struct).
Proof.
  destruct (user_memory_lease_begin_exact (LL := machine_locks) (H1 := machine_user) 0x8000 0x400FF0 32 16 USER_MEMORY_READ_WRITE 0 demo_mapped (machine demo_struct) demo_leasable I
    ltac:(by split) ltac:(by split) ltac:(done)) as (r & lease & s' & e' & Hb & Hiff & _).
  apply Hiff. assert ((user_memory_lease_begin 0x8000 0x400FF0 32 16 USER_MEMORY_READ_WRITE 0 demo_mapped (machine demo_struct)).1.1.1 = OS_SUCCESS) as Hr by (vm_compute; reflexivity).
  by rewrite Hb in Hr.
Defined.

(** Memory that changes only when it is written. *)
Record Still := { bytes_of : Z -> Z }.
#[export] Instance still_env : KernelEnv Still := {|
  kernel_spinlock_setup _ _ m := m; kernel_spinlock_acquire _ m := (true, m); kernel_spinlock_release _ m := m; kernel_fault_injection_should_fail _ m := (false, m) |}.
#[export] Instance still_locks : LockLaws Still.
Proof. refine {| ready _ _ := True |}; [|done|done]. intros m l _. by exists m. Defined.
#[export] Instance still_space : SpaceHost Still := {|
  smp_tlb_shootdown _ _ _ _ _ _ mask m := ((1, mask), m); kernel_tlb_wait_enter m := (1, m); kernel_spinlock_depth _ := 0; kernel_in_tlb_wait _ := 0 |}.
#[export] Instance still_user : UserHost Still := {|
  process_active _ _ := 1; current_process _ := 0x8000; process_space q := q + 0x1000;
  user_load x m := (bytes_of m x, m); user_store x v m := {| bytes_of := fun y => if y =? x then v else bytes_of m y |} |}.
#[export] Instance still_laws : UserMemoryLaws Still.
Proof.
  refine {| contents := bytes_of |}; [by intros; split_and!; [| |constructor] | by intros; split; [|constructor] |].
  intros l e e1 _ [= ->]. split; [done | by constructor].
Defined.
Lemma user_memory_copy_out_in_roundtrip_witness : exists s1 e1 s2 e2,
  user_memory_copy_out 0x8000 0x400FFE (Some [1; 2; 3]) 3 1 0 demo_mapped {| bytes_of := fun _ => 0 |} = (OS_SUCCESS, s1, e1) /\
  user_memory_copy_in 0x8000 true 0x400FFE 3 1 0 s1 e1 = (OS_SUCCESS, [1; 2; 3], s2, e2) /\ same_spaces demo_mapped s2.
Proof.
  apply (user_memory_copy_out_in_roundtrip (UL := still_laws) 0x8000 0x400FFE [1; 2; 3] 1 0 demo_mapped {| bytes_of := fun _ => 0 |} demo_leasable I ltac:(by split) ltac:(by split)).
  destruct (lease_begin_cases (H1 := still_user) 0x8000 0x400FFE 3 1 USER_MEMORY_WRITE 0 demo_mapped {| bytes_of := fun _ => 0 |} demo_leasable ltac:(by split) ltac:(by split))
    as [[Hg _]|(r & s' & e' & Hb & _)]; [exact Hg|].
  assert (lease_active (user_memory_lease_begin 0x8000 0x400FFE 3 1 USER_MEMORY_WRITE 0 demo_mapped {| bytes_of := fun _ => 0 |}).1.1.2 = 1) as Hr by (vm_compute; reflexivity).
  by rewrite Hb in Hr.
Defined.
