(* ===== verification/DriverRecords.v ===== *)
(** * Driver records and resources ([kernel/driver/driver_manager.cpp],
    [kernel/driver/driver_resource.cpp])

    The table of drivers with their life cycle and their quiesce counters, and
    the registry of the resources that drivers own.  A C string is the list of its
    characters without the final NUL; an identity is a slot with the generation
    the slot had.  Loads and stores of the quiesce counters run one after the
    other here; [DriverQuiesce] interleaves them.  The initialisation of the other
    parts of the driver subsystem is reached through [DriverHost]. *)

From S2P Require Import Prelude KernelEnv.

Definition DRIVER_MAX_RECORDS : Z := 32.
Definition DRIVER_MAX_RESOURCES : Z := 128.
Definition DRIVER_STATE_EMPTY : Z := 0.
Definition DRIVER_STATE_REGISTERED : Z := 1.
Definition DRIVER_STATE_READY : Z := 2.
Definition DRIVER_STATE_FAILED : Z := 3.
Definition DRIVER_STATE_REJECTED : Z := 4.
Definition DRIVER_STATE_LOADING : Z := 5.
Definition DRIVER_STATE_LINKED : Z := 6.
Definition DRIVER_STATE_QUIESCING : Z := 7.
Definition DRIVER_KIND_CORE : Z := 1.
Definition DRIVER_KIND_BUS : Z := 2.
Definition DRIVER_KIND_BLOCK : Z := 3.
Definition DRIVER_KIND_INPUT : Z := 4.
Definition DRIVER_KIND_TIMER : Z := 5.
Definition DRIVER_KIND_FS : Z := 6.
Definition DRIVER_KIND_DISPLAY : Z := 7.
Definition DRIVER_KIND_MODULE : Z := 8.
Definition DRIVER_LOAD_OK : Z := 0.
Definition DRIVER_LOAD_BAD_HEADER : Z := -1.
Definition DRIVER_LOAD_NO_SLOT : Z := -5.
Definition DRIVER_LOAD_DUPLICATE : Z := -6.
Definition DRIVER_LOAD_OUT_OF_MEMORY : Z := -7.
Definition DRIVER_LOAD_STATE_DENIED : Z := -18.
Definition DRIVER_LOAD_STALE_IDENTITY : Z := -19.
Definition DRIVER_LOAD_RESOURCE_DENIED : Z := -20.
Definition DRIVER_LOAD_CONTEXT_DENIED : Z := -21.
Definition DRIVER_LOAD_QUIESCE_TIMEOUT : Z := -31.
Definition DRIVER_ACTIVITY_CALL : Z := 1.
Definition DRIVER_ACTIVITY_IRQ : Z := 2.
Definition DRIVER_ACTIVITY_WORK : Z := 3.
Definition DRIVER_ACTIVITY_DMA : Z := 4.
Definition DRIVER_RESOURCE_NONE : Z := 0.
Definition DRIVER_RESOURCE_DMA : Z := 7.
Definition DRIVER_IDENTITY_INVALID_SLOT : Z := 0xFFFFFFFF.
Definition KERNEL_FAULT_POINT_DRIVER_IRQ_DRAIN : Z := 29.
Definition KERNEL_FAULT_POINT_DRIVER_QUIESCE : Z := 30.
Definition KERNEL_LOCK_CLASS_VFS_DEVICE : Z := 5.

(** The static lock [g_driver_resource_lock]. *)
Definition driver_resource_lock : lock_ref := -6.

(** ** Strings ([kernel/util/kutil64.cpp]) *)

Definition text : Type := list Z.
(** The characters that [copy_string64] leaves in a buffer of [capacity] bytes. *)
Definition copy_string64 (capacity : Z) (src : text) : text := take (Z.to_nat (capacity - 1)) src.
Fixpoint strcmp64 (a b : text) : Z :=
  match a, b with
  | x :: a, y :: b => if x =? y then strcmp64 a b else x - y
  | x :: _, [] => x
  | [], y :: _ => - y
  | [], [] => 0
  end.

(** ** The state *)

Record DriverIdentity := { id_slot : Z; id_generation : Z }.
#[export] Instance DriverIdentity_eq_dec : EqDecision DriverIdentity.
Proof. solve_decision. Defined.

Record DriverRecord := {
  d_active : Z; d_state : Z; d_kind : Z; d_slot : Z; d_generation : Z; d_permissions : Z;
  d_name : text; d_version : text; d_instance : Z }.
#[export] Instance DriverRecord_settable : Settable DriverRecord := {| eta_expand r := {|
  d_active := d_active r; d_state := d_state r; d_kind := d_kind r; d_slot := d_slot r; d_generation := d_generation r;
  d_permissions := d_permissions r; d_name := d_name r; d_version := d_version r; d_instance := d_instance r |} |}.
#[export] Instance DriverRecord_inhabited : Inhabited DriverRecord := populate {|
  d_active := 0; d_state := 0; d_kind := 0; d_slot := 0; d_generation := 0; d_permissions := 0; d_name := []; d_version := []; d_instance := 0 |}.

Record DriverQuiesceSlot := {
  q_generation : Z; accepting : Z; in_flight : Z; q_calls : Z; q_irqs : Z; q_work : Z; q_dma : Z; q_quarantined : Z }.
#[export] Instance DriverQuiesceSlot_settable : Settable DriverQuiesceSlot := {| eta_expand q := {|
  q_generation := q_generation q; accepting := accepting q; in_flight := in_flight q; q_calls := q_calls q; q_irqs := q_irqs q;
  q_work := q_work q; q_dma := q_dma q; q_quarantined := q_quarantined q |} |}.
#[export] Instance DriverQuiesceSlot_inhabited : Inhabited DriverQuiesceSlot := populate {|
  q_generation := 0; accepting := 0; in_flight := 0; q_calls := 0; q_irqs := 0; q_work := 0; q_dma := 0; q_quarantined := 0 |}.

Record DriverResourceRecord := {
  r_active : Z; r_kind : Z; r_flags : Z; r_slot : Z; r_generation : Z; r_owner : DriverIdentity; r_device : DriverIdentity;
  r_value : Z; r_size : Z; r_tag : text }.
#[export] Instance DriverResourceRecord_settable : Settable DriverResourceRecord := {| eta_expand r := {|
  r_active := r_active r; r_kind := r_kind r; r_flags := r_flags r; r_slot := r_slot r; r_generation := r_generation r;
  r_owner := r_owner r; r_device := r_device r; r_value := r_value r; r_size := r_size r; r_tag := r_tag r |} |}.
#[export] Instance DriverResourceRecord_inhabited : Inhabited DriverResourceRecord := populate {|
  r_active := 0; r_kind := 0; r_flags := 0; r_slot := 0; r_generation := 0; r_owner := {| id_slot := 0; id_generation := 0 |};
  r_device := {| id_slot := 0; id_generation := 0 |}; r_value := 0; r_size := 0; r_tag := [] |}.

Record DriverResourceStats := {
  rs_active : Z; rs_high_water : Z; rs_by_kind : list Z; rs_registrations : Z; rs_releases : Z; rs_stale_rejections : Z;
  rs_owner_rejections : Z; rs_state_rejections : Z; rs_exhaustion_failures : Z }.
#[export] Instance DriverResourceStats_settable : Settable DriverResourceStats := {| eta_expand r := {|
  rs_active := rs_active r; rs_high_water := rs_high_water r; rs_by_kind := rs_by_kind r; rs_registrations := rs_registrations r;
  rs_releases := rs_releases r; rs_stale_rejections := rs_stale_rejections r; rs_owner_rejections := rs_owner_rejections r;
  rs_state_rejections := rs_state_rejections r; rs_exhaustion_failures := rs_exhaustion_failures r |} |}.
Definition no_resource_stats : DriverResourceStats := {|
  rs_active := 0; rs_high_water := 0; rs_by_kind := replicate 8 0; rs_registrations := 0; rs_releases := 0; rs_stale_rejections := 0;
  rs_owner_rejections := 0; rs_state_rejections := 0; rs_exhaustion_failures := 0 |}.

Record DriverLoadDiagnostics := { e_result : Z; e_index : Z; e_detail : Z; e_stage : text; e_module : text; e_name : text }.

Record DriverState := {
  drivers : list DriverRecord; last_error : DriverLoadDiagnostics; lifecycle_driver : text; quiesce : list DriverQuiesceSlot;
  quiesce_pins : Z; quiesce_unpins : Z; quiesce_rejections : Z; quiesce_waits : Z; quiesce_timeouts : Z; quiesce_quarantines : Z;
  resources : list DriverResourceRecord; resource_stats : DriverResourceStats }.
#[export] Instance DriverState_settable : Settable DriverState := {| eta_expand s := {|
  drivers := drivers s; last_error := last_error s; lifecycle_driver := lifecycle_driver s; quiesce := quiesce s;
  quiesce_pins := quiesce_pins s; quiesce_unpins := quiesce_unpins s; quiesce_rejections := quiesce_rejections s;
  quiesce_waits := quiesce_waits s; quiesce_timeouts := quiesce_timeouts s; quiesce_quarantines := quiesce_quarantines s;
  resources := resources s; resource_stats := resource_stats s |} |}.

Definition driver_at (s : DriverState) (i : Z) : DriverRecord := aget (drivers s) i.
Definition upd_driver (i : Z) (f : DriverRecord -> DriverRecord) (s : DriverState) : DriverState :=
  s <| drivers := aset (drivers s) i (f (driver_at s i)) |>.
Definition quiesce_at (s : DriverState) (i : Z) : DriverQuiesceSlot := aget (quiesce s) i.
Definition upd_quiesce (i : Z) (f : DriverQuiesceSlot -> DriverQuiesceSlot) (s : DriverState) : DriverState :=
  s <| quiesce := aset (quiesce s) i (f (quiesce_at s i)) |>.
Definition resource_at (s : DriverState) (i : Z) : DriverResourceRecord := aget (resources s) i.
Definition upd_resource (i : Z) (f : DriverResourceRecord -> DriverResourceRecord) (s : DriverState) : DriverState :=
  s <| resources := aset (resources s) i (f (resource_at s i)) |>.
Definition upd_rstats (f : DriverResourceStats -> DriverResourceStats) (s : DriverState) : DriverState :=
  s <| resource_stats := f (resource_stats s) |>.

(** ** Identities *)

Definition driver_next_generation (generation : Z) : Z :=
  let generation := u32 (generation + 1) in if nonzero generation then generation else 1.
Definition driver_identity_invalid : DriverIdentity := {| id_slot := DRIVER_IDENTITY_INVALID_SLOT; id_generation := 0 |}.
Definition driver_identity_is_valid (id : DriverIdentity) : bool := (id_slot id <? DRIVER_MAX_RECORDS) && nonzero (id_generation id).
Definition driver_identity_equal (a b : DriverIdentity) : bool := (id_slot a =? id_slot b) && (id_generation a =? id_generation b).
Definition driver_manager_identity_is_live (id : DriverIdentity) (s : DriverState) : bool :=
  driver_identity_is_valid id && (nonzero (d_active (driver_at s (id_slot id))) && (d_generation (driver_at s (id_slot id)) =? id_generation id)).
Definition driver_manager_identity_accepts_resources (id : DriverIdentity) (s : DriverState) : bool :=
  driver_manager_identity_is_live id s &&
  (let state := d_state (driver_at s (id_slot id)) in
   (state =? DRIVER_STATE_REGISTERED) || (state =? DRIVER_STATE_LOADING) || (state =? DRIVER_STATE_LINKED) || (state =? DRIVER_STATE_READY)).

(** ** Records *)

(** [quiesce[slot].accepting = 0] is done when the slot field is in range. *)
Definition clear_driver_record (i : Z) (s : DriverState) : DriverState :=
  let s := upd_driver i (fun r => r <| d_active := 0 |> <| d_state := DRIVER_STATE_EMPTY |> <| d_kind := 0 |> <| d_permissions := 0 |>
             <| d_name := [] |> <| d_version := [] |> <| d_instance := 0 |>) s in
  let slot := d_slot (driver_at s i) in
  if slot <? DRIVER_MAX_RECORDS then upd_quiesce slot (fun q => q <| accepting := 0 |>) s else s.
Definition activate_driver_record (i : Z) (s : DriverState) : DriverState :=
  let s := upd_driver i (fun r => r <| d_generation := driver_next_generation (d_generation r) |>) s in
  let r := driver_at s i in
  let s := upd_quiesce (d_slot r) (fun q => q <| q_generation := d_generation r |> <| in_flight := 0 |> <| q_calls := 0 |> <| q_irqs := 0 |>
             <| q_work := 0 |> <| q_dma := 0 |> <| q_quarantined := 0 |> <| accepting := 1 |>) s in
  upd_driver i (fun r => r <| d_active := 1 |> <| d_state := DRIVER_STATE_REGISTERED |>) s.

Definition driver_name_matches (r : DriverRecord) (name : text) : bool := nonzero (d_active r) && (strcmp64 (d_name r) name =? 0).
Definition find_driver_by_name (name : option text) (s : DriverState) : option Z :=
  match name with
  | None => None
  | Some name => find_first (fun i => driver_name_matches (driver_at s i) name) 0 (Z.to_nat DRIVER_MAX_RECORDS)
  end.
Definition alloc_driver_record (s : DriverState) : option Z :=
  find_first (fun i => negb (nonzero (d_active (driver_at s i)))) 0 (Z.to_nat DRIVER_MAX_RECORDS).
Definition driver_record_can_be_reused (r : DriverRecord) : bool :=
  negb (nonzero (d_active r)) || ((d_state r =? DRIVER_STATE_FAILED) || (d_state r =? DRIVER_STATE_REJECTED)).

Definition driver_manager_identity_from_name (name : option text) (s : DriverState) : DriverIdentity :=
  match find_driver_by_name name s with
  | None => driver_identity_invalid
  | Some i => {| id_slot := d_slot (driver_at s i); id_generation := d_generation (driver_at s i) |}
  end.

(** ** States *)

Definition legal_state_transition (from to : Z) : bool :=
  if from =? to then true
  else if from =? DRIVER_STATE_REGISTERED then
    (to =? DRIVER_STATE_LOADING) || (to =? DRIVER_STATE_LINKED) || (to =? DRIVER_STATE_READY) || (to =? DRIVER_STATE_FAILED) || (to =? DRIVER_STATE_REJECTED)
  else if from =? DRIVER_STATE_LOADING then (to =? DRIVER_STATE_LINKED) || (to =? DRIVER_STATE_FAILED) || (to =? DRIVER_STATE_REJECTED)
  else if from =? DRIVER_STATE_LINKED then
    (to =? DRIVER_STATE_READY) || (to =? DRIVER_STATE_FAILED) || (to =? DRIVER_STATE_REJECTED) || (to =? DRIVER_STATE_QUIESCING)
  else if from =? DRIVER_STATE_READY then (to =? DRIVER_STATE_QUIESCING) || (to =? DRIVER_STATE_FAILED)
  else if from =? DRIVER_STATE_QUIESCING then to =? DRIVER_STATE_FAILED
  else false.

(** "registered", "ready", ... as character codes. *)
Definition driver_state_name (state : Z) : text :=
  if state =? DRIVER_STATE_REGISTERED then [114; 101; 103; 105; 115; 116; 101; 114; 101; 100]
  else if state =? DRIVER_STATE_READY then [114; 101; 97; 100; 121]
  else if state =? DRIVER_STATE_FAILED then [102; 97; 105; 108; 101; 100]
  else if state =? DRIVER_STATE_REJECTED then [114; 101; 106; 101; 99; 116; 101; 100]
  else if state =? DRIVER_STATE_LOADING then [108; 111; 97; 100; 105; 110; 103]
  else if state =? DRIVER_STATE_LINKED then [108; 105; 110; 107; 101; 100]
  else if state =? DRIVER_STATE_QUIESCING then [113; 117; 105; 101; 115; 99; 105; 110; 103]
  else [101; 109; 112; 116; 121].

(** The names of the kinds, as character codes. *)
Definition driver_kind_name (kind : Z) : text :=
  if kind =? DRIVER_KIND_CORE then [99; 111; 114; 101]
  else if kind =? DRIVER_KIND_BUS then [98; 117; 115]
  else if kind =? DRIVER_KIND_BLOCK then [98; 108; 111; 99; 107]
  else if kind =? DRIVER_KIND_INPUT then [105; 110; 112; 117; 116]
  else if kind =? DRIVER_KIND_TIMER then [116; 105; 109; 101; 114]
  else if kind =? DRIVER_KIND_FS then [102; 115]
  else if kind =? DRIVER_KIND_DISPLAY then [100; 105; 115; 112; 108; 97; 121]
  else if kind =? DRIVER_KIND_MODULE then [109; 111; 100; 117; 108; 101]
  else [117; 110; 107; 110; 111; 119; 110].
Definition driver_manager_last_error (s : DriverState) : DriverLoadDiagnostics := last_error s.
Definition driver_manager_set_last_error (result : Z) (stage module name : option text) (index detail : Z) (s : DriverState) : DriverState :=
  s <| last_error := {| e_result := result; e_index := index; e_detail := detail; e_stage := copy_string64 32 (default [] stage);
                        e_module := copy_string64 32 (default [] module); e_name := copy_string64 48 (default [] name) |} |>.
Definition driver_manager_clear_last_error (s : DriverState) : DriverState :=
  s <| last_error := {| e_result := DRIVER_LOAD_OK; e_index := 0; e_detail := 0; e_stage := []; e_module := []; e_name := [] |} |>.
Definition driver_manager_set_lifecycle_driver (name : option text) (s : DriverState) : DriverState :=
  s <| lifecycle_driver := copy_string64 32 (default [] name) |>.
Definition driver_manager_current_lifecycle_driver (s : DriverState) : option text :=
  if alen (lifecycle_driver s) =? 0 then None else Some (lifecycle_driver s).

Definition driver_manager_set_state_identity (id : DriverIdentity) (state : Z) (s : DriverState) : Z * DriverState :=
  if negb (driver_manager_identity_is_live id s) then (DRIVER_LOAD_STALE_IDENTITY, s)
  else
    let r := driver_at s (id_slot id) in
    if negb (legal_state_transition (d_state r) state) then
      (DRIVER_LOAD_STATE_DENIED,
       driver_manager_set_last_error DRIVER_LOAD_STATE_DENIED (Some [115; 116; 97; 116; 101]) (Some (d_name r)) (Some (driver_state_name state)) (d_state r) state s)
    else (DRIVER_LOAD_OK, upd_driver (id_slot id) (fun r => r <| d_state := u8 state |>) s).
Definition driver_manager_set_state (name : option text) (state : Z) (s : DriverState) : Z * DriverState :=
  let id := driver_manager_identity_from_name name s in
  if negb (driver_identity_is_valid id) then (DRIVER_LOAD_BAD_HEADER, s) else driver_manager_set_state_identity id state s.
Definition driver_manager_set_instance (name : option text) (instance : Z) (s : DriverState) : Z * DriverState :=
  match find_driver_by_name name s with
  | None => (DRIVER_LOAD_BAD_HEADER, s)
  | Some i => (DRIVER_LOAD_OK, upd_driver i (fun r => r <| d_instance := instance |>) s)
  end.
Definition driver_manager_count (s : DriverState) : Z :=
  for_range 0 DRIVER_MAX_RECORDS (fun i count => if nonzero (d_active (driver_at s i)) then u32 (count + 1) else count) 0.
Definition driver_manager_get_step (index : Z) (s : DriverState) (i : Z) (st : Z * option Z) : Z * option Z :=
  match st with
  | (_, Some _) => st
  | (seen, None) => if negb (nonzero (d_active (driver_at s i))) then st else if seen =? index then (seen, Some i) else (u32 (seen + 1), None)
  end.
Definition driver_manager_get (index : Z) (s : DriverState) : option Z := (for_range 0 DRIVER_MAX_RECORDS (driver_manager_get_step index s) (0, None)).2.
Definition driver_manager_find (name : option text) (s : DriverState) : option Z := find_driver_by_name name s.

(** ** Resources ([driver_resource.cpp]) *)

Definition clear_record (r : DriverResourceRecord) : DriverResourceRecord :=
  r <| r_active := 0 |> <| r_kind := DRIVER_RESOURCE_NONE |> <| r_flags := 0 |> <| r_owner := driver_identity_invalid |>
    <| r_device := driver_identity_invalid |> <| r_value := 0 |> <| r_size := 0 |> <| r_tag := [] |>.
Definition driver_resource_handle_is_valid (h : DriverIdentity) : bool := (id_slot h <? DRIVER_MAX_RESOURCES) && nonzero (id_generation h).
Definition resource_kind_valid (kind : Z) : bool := (DRIVER_RESOURCE_NONE <? kind) && (kind <=? DRIVER_RESOURCE_DMA).
Definition update_high_water_locked (st : DriverResourceStats) : DriverResourceStats :=
  if rs_high_water st <? rs_active st then st <| rs_high_water := rs_active st |> else st.

(** The slot of the record, or none. *)
Definition resolve_resource (owner handle : DriverIdentity) (expected_kind : Z) (s : DriverState) : option Z :=
  if negb (driver_resource_handle_is_valid handle) then None
  else
    let r := resource_at s (id_slot handle) in
    if negb (nonzero (r_active r)) || negb (r_generation r =? id_generation handle) then None
    else if negb (driver_identity_equal (r_owner r) owner) then None
    else if negb (expected_kind =? DRIVER_RESOURCE_NONE) && negb (r_kind r =? expected_kind) then None
    else Some (id_slot handle).
(** Clearing an active record, with the counters. *)
Definition drop_resource (i : Z) (s : DriverState) : DriverState :=
  let kind := r_kind (resource_at s i) in
  let s := upd_resource i clear_record s in
  upd_rstats (fun st =>
    let st := if nonzero (rs_active st) then st <| rs_active := u32 (rs_active st - 1) |> else st in
    let st := if (kind <? 8) && nonzero (aget (rs_by_kind st) kind)
              then st <| rs_by_kind := aset (rs_by_kind st) kind (u32 (aget (rs_by_kind st) kind - 1)) |> else st in
    st <| rs_releases := u64 (rs_releases st + 1) |>) s.

Definition register_body (owner device : DriverIdentity) (kind flags value size : Z) (tag : option text) (s : DriverState) : (Z * DriverIdentity) * DriverState :=
  match find_first (fun i => negb (nonzero (r_active (resource_at s i)))) 0 (Z.to_nat DRIVER_MAX_RESOURCES) with
  | None => ((DRIVER_LOAD_NO_SLOT, driver_identity_invalid),
             upd_rstats (fun st => st <| rs_exhaustion_failures := u64 (rs_exhaustion_failures st + 1) |>) s)
  | Some i =>
    let s := upd_resource i (fun r => r <| r_generation := driver_next_generation (r_generation r) |> <| r_active := 1 |> <| r_kind := u8 kind |>
               <| r_flags := u16 flags |> <| r_owner := owner |> <| r_device := device |> <| r_value := value |> <| r_size := size |>
               <| r_tag := copy_string64 24 (default [] tag) |>) s in
    let s := upd_rstats (fun st => update_high_water_locked
               (st <| rs_active := u32 (rs_active st + 1) |> <| rs_by_kind := aset (rs_by_kind st) kind (u32 (aget (rs_by_kind st) kind + 1)) |>
                   <| rs_registrations := u64 (rs_registrations st + 1) |>)) s in
    ((DRIVER_LOAD_OK, {| id_slot := r_slot (resource_at s i); id_generation := r_generation (resource_at s i) |}), s)
  end.
Definition release_body (owner handle : DriverIdentity) (expected_kind : Z) (s : DriverState) : Z * DriverState :=
  match resolve_resource owner handle expected_kind s with
  | None =>
    let c := resource_at s (id_slot handle) in
    (DRIVER_LOAD_RESOURCE_DENIED,
     if (id_slot handle <? DRIVER_MAX_RESOURCES) && nonzero (r_active c) && (r_generation c =? id_generation handle) && negb (driver_identity_equal (r_owner c) owner)
     then upd_rstats (fun st => st <| rs_owner_rejections := u64 (rs_owner_rejections st + 1) |>) s
     else upd_rstats (fun st => st <| rs_stale_rejections := u64 (rs_stale_rejections st + 1) |>) s)
  | Some i => (DRIVER_LOAD_OK, drop_resource i s)
  end.
Definition release_owner_step (owner : DriverIdentity) (i : Z) (st : Z * DriverState) : Z * DriverState :=
  let '(released, s) := st in
  if negb (nonzero (r_active (resource_at s i))) || negb (driver_identity_equal (r_owner (resource_at s i)) owner) then st
  else (u32 (released + 1), drop_resource i s).
Definition release_owner_body (owner : DriverIdentity) (s : DriverState) : Z * DriverState :=
  for_range 0 DRIVER_MAX_RESOURCES (release_owner_step owner) (0, s).

Class DriverHost (E : Type) := {
  (** [driver_manager_binding_init], [driver_irq_init], [driver_export_init]. *)
  driver_parts_init : E -> E }.

Section Operations.
Context {E : Type} `{KernelEnv E}.
Implicit Types (s : DriverState) (e : E).

Definition driver_resource_init (s : DriverState) (e : E) : DriverState * E :=
  let e := kernel_spinlock_setup driver_resource_lock KERNEL_LOCK_CLASS_VFS_DEVICE e in
  let s := for_range 0 DRIVER_MAX_RESOURCES (fun i s => upd_resource i (fun r => clear_record (r <| r_slot := i |> <| r_generation := 0 |>)) s) s in
  (s <| resource_stats := no_resource_stats |>, e).

Definition driver_resource_release (owner handle : DriverIdentity) (expected_kind : Z) (s : DriverState) (e : E) : Z * DriverState * E :=
  if negb (driver_identity_is_valid owner) || negb (driver_resource_handle_is_valid handle) then (DRIVER_LOAD_BAD_HEADER, s, e)
  else with_lock driver_resource_lock DRIVER_LOAD_RESOURCE_DENIED (release_body owner handle expected_kind) s e.
Definition driver_resource_release_owner (owner : DriverIdentity) (s : DriverState) (e : E) : Z * DriverState * E :=
  if negb (driver_identity_is_valid owner) then (0, s, e)
  else with_lock driver_resource_lock 0 (release_owner_body owner) s e.
Definition driver_resource_register (owner device : DriverIdentity) (kind flags value size : Z) (tag : option text) (present : bool)
    (s : DriverState) (e : E) : Z * DriverIdentity * DriverState * E :=
  if negb (driver_identity_is_valid owner) || negb (resource_kind_valid kind) || negb present then (DRIVER_LOAD_BAD_HEADER, driver_identity_invalid, s, e)
  else if negb (driver_manager_identity_is_live owner s) then
    (DRIVER_LOAD_STALE_IDENTITY, driver_identity_invalid, upd_rstats (fun st => st <| rs_owner_rejections := u64 (rs_owner_rejections st + 1) |>) s, e)
  else if negb (driver_manager_identity_accepts_resources owner s) then
    (DRIVER_LOAD_STATE_DENIED, driver_identity_invalid, upd_rstats (fun st => st <| rs_state_rejections := u64 (rs_state_rejections st + 1) |>) s, e)
  else
    let '(result, handle, s, e) := with_lock driver_resource_lock (DRIVER_LOAD_RESOURCE_DENIED, driver_identity_invalid)
      (register_body owner device kind flags value size tag) s e in
    if negb (result =? DRIVER_LOAD_OK) then (result, driver_identity_invalid, s, e)
    else if negb (driver_manager_identity_is_live owner s) || negb (driver_manager_identity_accepts_resources owner s) then
      let '(_, s, e) := driver_resource_release owner handle kind s e in (DRIVER_LOAD_STALE_IDENTITY, driver_identity_invalid, s, e)
    else (DRIVER_LOAD_OK, handle, s, e).
Definition driver_resource_resolve (owner handle : DriverIdentity) (expected_kind : Z) (s : DriverState) (e : E) : option Z * DriverState * E :=
  if negb (driver_manager_identity_is_live owner s) then (None, s, e)
  else with_lock driver_resource_lock None (fun s => (resolve_resource owner handle expected_kind s, s)) s e.
Definition driver_resource_get_stats (s : DriverState) (e : E) : DriverResourceStats * DriverState * E :=
  with_lock driver_resource_lock no_resource_stats (fun s => (resource_stats s, s)) s e.

(** ** Registering and removing drivers *)

Definition driver_manager_register_builtin (name version : option text) (kind permissions instance : Z) (s : DriverState) (e : E) : Z * DriverState * E :=
  if alen (default [] name) =? 0 then (DRIVER_LOAD_BAD_HEADER, s, e)
  else
    let found := find_driver_by_name name s in
    let fill i s := upd_driver i (fun r => r <| d_kind := u16 kind |> <| d_permissions := permissions |> <| d_instance := instance |>
                      <| d_name := copy_string64 32 (default [] name) |>
                      <| d_version := copy_string64 16 (default [98; 117; 105; 108; 116; 105; 110] version) |>) (activate_driver_record i s) in
    match found with
    | Some i =>
      if negb (driver_record_can_be_reused (driver_at s i)) then (DRIVER_LOAD_DUPLICATE, s, e)
      else
        let '(_, s, e) := driver_resource_release_owner {| id_slot := d_slot (driver_at s i); id_generation := d_generation (driver_at s i) |} s e in
        (DRIVER_LOAD_OK, fill i (clear_driver_record i s), e)
    | None => match alloc_driver_record s with None => (DRIVER_LOAD_NO_SLOT, s, e) | Some i => (DRIVER_LOAD_OK, fill i s, e) end
    end.
(** A manifest: its name, its version and the permissions it asks for. *)
Definition driver_manager_register_package_manifest (manifest : option (text * text * Z)) (instance : Z) (s : DriverState) (e : E) : Z * DriverState * E :=
  match manifest with
  | None | Some ([], _, _) => (DRIVER_LOAD_BAD_HEADER, s, e)
  | Some (name, version, permissions) =>
    let found := find_driver_by_name (Some name) s in
    let reusable := match found with Some i => driver_record_can_be_reused (driver_at s i) | None => true end in
    if negb reusable then (DRIVER_LOAD_DUPLICATE, s, e)
    else
      let '(s, e) :=
        match found with
        | Some i =>
          let '(_, s, e) := driver_resource_release_owner {| id_slot := d_slot (driver_at s i); id_generation := d_generation (driver_at s i) |} s e in
          (clear_driver_record i s, e)
        | None => (s, e)
        end in
      match alloc_driver_record s with
      | None => (DRIVER_LOAD_NO_SLOT, s, e)
      | Some i =>
        (DRIVER_LOAD_OK, upd_driver i (fun r => r <| d_kind := DRIVER_KIND_MODULE |> <| d_permissions := permissions |> <| d_instance := instance |>
           <| d_name := copy_string64 32 name |> <| d_version := copy_string64 16 version |>) (activate_driver_record i s), e)
      end
  end.
Definition driver_manager_unregister (name : option text) (s : DriverState) (e : E) : Z * DriverState * E :=
  match find_driver_by_name name s with
  | None => (DRIVER_LOAD_BAD_HEADER, s, e)
  | Some i =>
    let '(_, s, e) := driver_resource_release_owner {| id_slot := d_slot (driver_at s i); id_generation := d_generation (driver_at s i) |} s e in
    (DRIVER_LOAD_OK, clear_driver_record i s, e)
  end.
End Operations.

(** ** Quiescing *)

(** The counter of an activity, or none. *)
Definition activity_counter (kind : Z) : option ((DriverQuiesceSlot -> Z) * (Z -> DriverQuiesceSlot -> DriverQuiesceSlot)) :=
  if kind =? DRIVER_ACTIVITY_CALL then Some (q_calls, fun v q => q <| q_calls := v |>)
  else if kind =? DRIVER_ACTIVITY_IRQ then Some (q_irqs, fun v q => q <| q_irqs := v |>)
  else if kind =? DRIVER_ACTIVITY_WORK then Some (q_work, fun v q => q <| q_work := v |>)
  else if kind =? DRIVER_ACTIVITY_DMA then Some (q_dma, fun v q => q <| q_dma := v |>)
  else None.
Definition bump_activity (kind d : Z) (q : DriverQuiesceSlot) : DriverQuiesceSlot :=
  match activity_counter kind with Some (get, put) => put (u32 (get q + d)) q | None => q end.

Record DriverActivityToken := { t_owner : DriverIdentity; t_kind : Z; t_active : Z }.

Definition pinnable_state (state : Z) : bool := (state =? DRIVER_STATE_LOADING) || (state =? DRIVER_STATE_LINKED) || (state =? DRIVER_STATE_READY).
Definition driver_manager_activity_pin (owner : DriverIdentity) (kind : Z) (present : bool) (s : DriverState) : Z * DriverActivityToken * DriverState :=
  let none := {| t_owner := driver_identity_invalid; t_kind := 0; t_active := 0 |} in
  if negb present || negb (driver_identity_is_valid owner) || (kind <? DRIVER_ACTIVITY_CALL) || (DRIVER_ACTIVITY_DMA <? kind) then (DRIVER_LOAD_CONTEXT_DENIED, none, s)
  else
    let slot := id_slot owner in
    let reject s := (DRIVER_LOAD_STATE_DENIED, none, s <| quiesce_rejections := u64 (quiesce_rejections s + 1) |>) in
    if negb (q_generation (quiesce_at s slot) =? id_generation owner) || (accepting (quiesce_at s slot) =? 0) then reject s
    else
      let s := upd_quiesce slot (fun q => bump_activity kind 1 (q <| in_flight := u32 (in_flight q + 1) |>)) s in
      if (accepting (quiesce_at s slot) =? 0) || negb (driver_manager_identity_is_live owner s) || negb (pinnable_state (d_state (driver_at s slot))) then
        reject (upd_quiesce slot (fun q => (bump_activity kind (-1) q) <| in_flight := u32 (in_flight q - 1) |>) s)
      else (DRIVER_LOAD_OK, {| t_owner := owner; t_kind := kind; t_active := 1 |}, s <| quiesce_pins := u64 (quiesce_pins s + 1) |>).
Definition driver_manager_activity_unpin (token : option DriverActivityToken) (s : DriverState) : option DriverActivityToken * DriverState :=
  match token with
  | None => (None, s)
  | Some t =>
    if negb (nonzero (t_active t)) || negb (driver_identity_is_valid (t_owner t)) then (token, s)
    else
      let slot := id_slot (t_owner t) in
      let s := if bool_decide (is_Some (activity_counter (t_kind t))) && (q_generation (quiesce_at s slot) =? id_generation (t_owner t))
               then (upd_quiesce slot (fun q => (bump_activity (t_kind t) (-1) q) <| in_flight := u32 (in_flight q - 1) |>) s)
                      <| quiesce_unpins := u64 (quiesce_unpins s + 1) |>
               else s in
      (Some {| t_owner := t_owner t; t_kind := t_kind t; t_active := 0 |}, s)
  end.
Definition set_accepting (slot v : Z) (s : DriverState) : DriverState := upd_quiesce slot (fun q => q <| accepting := v |>) s.
Definition driver_manager_begin_quiesce (owner : DriverIdentity) (s : DriverState) : Z * DriverState :=
  let slot := id_slot owner in
  if negb (driver_manager_identity_is_live owner s) then (DRIVER_LOAD_STALE_IDENTITY, s)
  else if negb (q_generation (quiesce_at s slot) =? id_generation owner) then (DRIVER_LOAD_STALE_IDENTITY, s)
  else
    let s := set_accepting slot 0 s in
    let state := d_state (driver_at s slot) in
    if (state =? DRIVER_STATE_QUIESCING) || (state =? DRIVER_STATE_FAILED) || (state =? DRIVER_STATE_REJECTED) then (DRIVER_LOAD_OK, s)
    else if negb (state =? DRIVER_STATE_READY) && negb (state =? DRIVER_STATE_LINKED) then (DRIVER_LOAD_STATE_DENIED, set_accepting slot 1 s)
    else
      let '(result, s) := driver_manager_set_state_identity owner DRIVER_STATE_QUIESCING s in
      (result, if negb (result =? DRIVER_LOAD_OK) then set_accepting slot 1 s else s).
Definition driver_manager_abort_load (owner : DriverIdentity) (failure_state : Z) (s : DriverState) : Z * DriverState :=
  let slot := id_slot owner in
  if negb (driver_manager_identity_is_live owner s) then (DRIVER_LOAD_STALE_IDENTITY, s)
  else if negb (q_generation (quiesce_at s slot) =? id_generation owner) then (DRIVER_LOAD_STALE_IDENTITY, s)
  else
    let s := set_accepting slot 0 s in
    let state := d_state (driver_at s slot) in
    let target := if negb (failure_state =? DRIVER_STATE_FAILED) && negb (failure_state =? DRIVER_STATE_REJECTED) then DRIVER_STATE_FAILED else failure_state in
    let target := if (state =? DRIVER_STATE_LINKED) || (state =? DRIVER_STATE_READY) || (state =? DRIVER_STATE_QUIESCING) then DRIVER_STATE_FAILED else target in
    if state =? target then (DRIVER_LOAD_OK, s) else driver_manager_set_state_identity owner target s.

(** Whether one of [spins] loads of [in_flight] finds it 0; nothing else runs. *)
Definition drained_within (spins : Z) (slot : Z) (s : DriverState) : bool := (0 <? spins) && (in_flight (quiesce_at s slot) =? 0).
Definition driver_manager_wait_quiesced {E : Type} `{KernelEnv E} (owner : DriverIdentity) (spin_limit : Z) (s : DriverState) (e : E) : Z * DriverState * E :=
  if negb (driver_manager_identity_is_live owner s) then (DRIVER_LOAD_STALE_IDENTITY, s, e)
  else
    let slot := id_slot owner in
    let s := s <| quiesce_waits := u64 (quiesce_waits s + 1) |> in
    let '(injected, e) := kernel_fault_injection_should_fail KERNEL_FAULT_POINT_DRIVER_QUIESCE e in
    let '(injected, e) := if injected then (true, e)
                          else if nonzero (q_irqs (quiesce_at s slot)) then kernel_fault_injection_should_fail KERNEL_FAULT_POINT_DRIVER_IRQ_DRAIN e
                          else (false, e) in
    let spin_limit := if injected then 0 else spin_limit in
    if drained_within spin_limit slot s then (DRIVER_LOAD_OK, s, e)
    else if negb injected && (in_flight (quiesce_at s slot) =? 0) then (DRIVER_LOAD_OK, s, e)
    else
      let s := upd_quiesce slot (fun q => q <| q_quarantined := 1 |>) s in
      (DRIVER_LOAD_QUIESCE_TIMEOUT, s <| quiesce_timeouts := u64 (quiesce_timeouts s + 1) |> <| quiesce_quarantines := u64 (quiesce_quarantines s + 1) |>, e).

Record DriverQuiesceStats := {
  qs_in_flight : Z; qs_calls : Z; qs_irqs : Z; qs_work : Z; qs_dma : Z; qs_quiescing : Z; qs_pins : Z; qs_unpins : Z;
  qs_rejected_entries : Z; qs_waits : Z; qs_timeouts : Z; qs_quarantines : Z }.
Definition driver_manager_quiesce_get_stats (s : DriverState) : DriverQuiesceStats :=
  let sum f := for_range 0 DRIVER_MAX_RECORDS (fun i n => u32 (n + f (quiesce_at s i))) 0 in
  {| qs_in_flight := sum in_flight; qs_calls := sum q_calls; qs_irqs := sum q_irqs; qs_work := sum q_work; qs_dma := sum q_dma;
     qs_quiescing := for_range 0 DRIVER_MAX_RECORDS (fun i n =>
       if (accepting (quiesce_at s i) =? 0) && nonzero (d_active (driver_at s i)) then u32 (n + 1) else n) 0;
     qs_pins := quiesce_pins s; qs_unpins := quiesce_unpins s; qs_rejected_entries := quiesce_rejections s;
     qs_waits := quiesce_waits s; qs_timeouts := quiesce_timeouts s; qs_quarantines := quiesce_quarantines s |}.
