(* ===== verification/DriverVa.v ===== *)
(** * Addresses for driver images ([kernel/driver/driver_va.cpp])

    An arena of kernel addresses from which the driver loader reserves ranges of
    pages, each with guard pages at both ends.  What is free is a sorted array of
    extents; what is reserved is a table of records that generational handles
    name.  The arrays are updated in place as the source does: one element at a
    time, by loops that shift the elements behind the one added or removed.
    [driver_manager_init] is here because it sets up this part too. *)

From S2P Require Import Prelude KernelEnv DriverRecords.

Definition DRIVER_VA_PAGE_SIZE : Z := 4096.
Definition DRIVER_IMAGE_VA_BASE : Z := 0x70000000.
Definition DRIVER_IMAGE_VA_LIMIT : Z := 0x78000000.
Definition DRIVER_IMAGE_VA_GUARD_PAGES : Z := 1.
Definition DRIVER_IMAGE_VA_MAX_ALLOCATIONS : Z := DRIVER_MAX_RESOURCES.
Definition DRIVER_IMAGE_VA_MAX_EXTENTS : Z := DRIVER_IMAGE_VA_MAX_ALLOCATIONS + 1.
Definition KERNEL_FAULT_POINT_DRIVER_VA_RECORD : Z := 20.

(** The static lock [g_va_lock]. *)
Definition driver_va_lock : lock_ref := -7.

Record DriverVaExtent := { x_base : Z; x_pages : Z }.
#[export] Instance DriverVaExtent_settable : Settable DriverVaExtent := {| eta_expand x := {| x_base := x_base x; x_pages := x_pages x |} |}.
#[export] Instance DriverVaExtent_inhabited : Inhabited DriverVaExtent := populate {| x_base := 0; x_pages := 0 |}.

Record DriverVaRecord := {
  v_active : Z; v_quarantined : Z; v_guard_pages : Z; v_slot : Z; v_generation : Z; v_owner : DriverIdentity;
  v_reserved_base : Z; v_usable_base : Z; v_reserved_pages : Z; v_usable_pages : Z }.
#[export] Instance DriverVaRecord_settable : Settable DriverVaRecord := {| eta_expand v := {|
  v_active := v_active v; v_quarantined := v_quarantined v; v_guard_pages := v_guard_pages v; v_slot := v_slot v;
  v_generation := v_generation v; v_owner := v_owner v; v_reserved_base := v_reserved_base v; v_usable_base := v_usable_base v;
  v_reserved_pages := v_reserved_pages v; v_usable_pages := v_usable_pages v |} |}.
Definition no_va_record : DriverVaRecord := {|
  v_active := 0; v_quarantined := 0; v_guard_pages := 0; v_slot := 0; v_generation := 0; v_owner := {| id_slot := 0; id_generation := 0 |};
  v_reserved_base := 0; v_usable_base := 0; v_reserved_pages := 0; v_usable_pages := 0 |}.
#[export] Instance DriverVaRecord_inhabited : Inhabited DriverVaRecord := populate no_va_record.

Record DriverVaStats := {
  vs_arena_pages : Z; vs_free_pages : Z; vs_largest_free_pages : Z; vs_allocations : Z; vs_releases : Z; vs_reused_allocations : Z;
  vs_guard_pages : Z; vs_active : Z; vs_quarantined : Z; vs_free_extents : Z; vs_high_water : Z; vs_exhaustion_failures : Z;
  vs_stale_rejections : Z; vs_owner_rejections : Z }.
#[export] Instance DriverVaStats_settable : Settable DriverVaStats := {| eta_expand v := {|
  vs_arena_pages := vs_arena_pages v; vs_free_pages := vs_free_pages v; vs_largest_free_pages := vs_largest_free_pages v;
  vs_allocations := vs_allocations v; vs_releases := vs_releases v; vs_reused_allocations := vs_reused_allocations v;
  vs_guard_pages := vs_guard_pages v; vs_active := vs_active v; vs_quarantined := vs_quarantined v; vs_free_extents := vs_free_extents v;
  vs_high_water := vs_high_water v; vs_exhaustion_failures := vs_exhaustion_failures v; vs_stale_rejections := vs_stale_rejections v;
  vs_owner_rejections := vs_owner_rejections v |} |}.
Definition no_va_stats : DriverVaStats := {|
  vs_arena_pages := 0; vs_free_pages := 0; vs_largest_free_pages := 0; vs_allocations := 0; vs_releases := 0; vs_reused_allocations := 0;
  vs_guard_pages := 0; vs_active := 0; vs_quarantined := 0; vs_free_extents := 0; vs_high_water := 0; vs_exhaustion_failures := 0;
  vs_stale_rejections := 0; vs_owner_rejections := 0 |}.

Record DriverVaState := {
  free_extents : list DriverVaExtent; allocations : list DriverVaRecord; va_stats : DriverVaStats; arena_base : Z; arena_limit : Z;
  highest_reserved_end : Z; va_guard_pages : Z; free_extent_count : Z; initialized : Z }.
#[export] Instance DriverVaState_settable : Settable DriverVaState := {| eta_expand v := {|
  free_extents := free_extents v; allocations := allocations v; va_stats := va_stats v; arena_base := arena_base v;
  arena_limit := arena_limit v; highest_reserved_end := highest_reserved_end v; va_guard_pages := va_guard_pages v;
  free_extent_count := free_extent_count v; initialized := initialized v |} |}.

Definition extent_at (s : DriverVaState) (i : Z) : DriverVaExtent := aget (free_extents s) i.
Definition upd_extent (i : Z) (f : DriverVaExtent -> DriverVaExtent) (s : DriverVaState) : DriverVaState :=
  s <| free_extents := aset (free_extents s) i (f (extent_at s i)) |>.
Definition allocation_at (s : DriverVaState) (i : Z) : DriverVaRecord := aget (allocations s) i.
Definition upd_allocation (i : Z) (f : DriverVaRecord -> DriverVaRecord) (s : DriverVaState) : DriverVaState :=
  s <| allocations := aset (allocations s) i (f (allocation_at s i)) |>.
Definition upd_vstats (f : DriverVaStats -> DriverVaStats) (s : DriverVaState) : DriverVaState := s <| va_stats := f (va_stats s) |>.

Definition va_next_generation (generation : Z) : Z :=
  let generation := u32 (generation + 1) in if nonzero generation then generation else 1.
Definition extent_end (x : DriverVaExtent) : Z := u64 (x_base x + u64 (x_pages x * DRIVER_VA_PAGE_SIZE)).

Definition refresh_free_stats_locked (s : DriverVaState) : DriverVaState :=
  let s := upd_vstats (fun st => st <| vs_free_pages := 0 |> <| vs_largest_free_pages := 0 |> <| vs_free_extents := free_extent_count s |>) s in
  for_range 0 (free_extent_count s) (fun i => upd_vstats (fun st =>
    let pages := x_pages (extent_at s i) in
    let st := st <| vs_free_pages := u64 (vs_free_pages st + pages) |> in
    if vs_largest_free_pages st <? pages then st <| vs_largest_free_pages := pages |> else st)) s.

(** ** Handles *)

Definition driver_image_va_invalid : DriverIdentity := {| id_slot := DRIVER_IDENTITY_INVALID_SLOT; id_generation := 0 |}.
Definition driver_image_va_handle_is_valid (handle : DriverIdentity) : bool :=
  (id_slot handle <? DRIVER_IMAGE_VA_MAX_ALLOCATIONS) && nonzero (id_generation handle).
(** The slot of the record, or none. *)
Definition va_resolve (owner handle : DriverIdentity) (s : DriverVaState) : option Z :=
  if negb (driver_image_va_handle_is_valid handle) then None
  else
    let r := allocation_at s (id_slot handle) in
    if negb (nonzero (v_active r)) || negb (v_generation r =? id_generation handle) || negb (driver_identity_equal (v_owner r) owner) then None
    else Some (id_slot handle).

(** ** The extents *)

(** [for (i = from; i < count; i++) extents[i - 1] = extents[i]]. *)
Definition shift_down (from count : Z) (l : list DriverVaExtent) : list DriverVaExtent :=
  for_range from count (fun i l => aset l (i - 1) (aget l i)) l.
(** [for (i = count; i > index; i--) extents[i] = extents[i - 1]]. *)
Definition shift_up (index count : Z) (l : list DriverVaExtent) : list DriverVaExtent :=
  for_range 0 (count - index) (fun k l => aset l (count - k) (aget l (count - k - 1))) l.
(** Removing the extent before [from]. *)
Definition remove_before (from : Z) (s : DriverVaState) : DriverVaState :=
  s <| free_extents := shift_down from (free_extent_count s) (free_extents s) |> <| free_extent_count := u32 (free_extent_count s - 1) |>.

Definition merge_left (index : Z) (s : DriverVaState) : Z * DriverVaState :=
  if (0 <? index) && (extent_end (extent_at s (index - 1)) =? x_base (extent_at s index)) then
    let s := upd_extent (index - 1) (fun x => x <| x_pages := u32 (x_pages x + x_pages (extent_at s index)) |>) s in
    (index - 1, remove_before (index + 1) s)
  else (index, s).
Definition merge_right (index : Z) (s : DriverVaState) : DriverVaState :=
  if (index + 1 <? free_extent_count s) && (extent_end (extent_at s index) =? x_base (extent_at s (index + 1))) then
    let s := upd_extent index (fun x => x <| x_pages := u32 (x_pages x + x_pages (extent_at s (index + 1))) |>) s in
    remove_before (index + 2) s
  else s.
Definition insert_extent_locked (base page_count : Z) (s : DriverVaState) : bool * DriverVaState :=
  if (page_count =? 0) || (DRIVER_IMAGE_VA_MAX_EXTENTS <=? free_extent_count s) then (false, s)
  else
    let size := u64 (page_count * DRIVER_VA_PAGE_SIZE) in
    if (base <? arena_base s) || (arena_limit s <? base) || (u64 (arena_limit s - base) <? size) then (false, s)
    else
      let count := free_extent_count s in
      let index := default count (find_first (fun i => negb (x_base (extent_at s i) <? base)) 0 (Z.to_nat count)) in
      if ((0 <? index) && (base <? extent_end (extent_at s (index - 1))))
         || ((index <? count) && (x_base (extent_at s index) <? u64 (base + size))) then (false, s)
      else
        let s := s <| free_extents := shift_up index count (free_extents s) |> in
        let s := upd_extent index (fun x => x <| x_base := base |> <| x_pages := page_count |>) s in
        let s := s <| free_extent_count := u32 (count + 1) |> in
        let '(index, s) := merge_left index s in
        (true, merge_right index s).

(** ** Operations *)

(** The first record that is not in use, unless the fault point is armed, and the
    first extent that is large enough. *)
Definition find_va_record (s : DriverVaState) : option Z :=
  find_first (fun i => negb (nonzero (v_active (allocation_at s i)))) 0 (Z.to_nat DRIVER_IMAGE_VA_MAX_ALLOCATIONS).
Definition find_va_extent (reserved : Z) (s : DriverVaState) : option Z :=
  find_first (fun i => reserved <=? x_pages (extent_at s i)) 0 (Z.to_nat (free_extent_count s)).
(** Taking [reserved] pages from the front of an extent. *)
Definition carve_extent (j reserved : Z) (s : DriverVaState) : DriverVaState :=
  let s := upd_extent j (fun x => x <| x_base := u64 (x_base x + u64 (reserved * DRIVER_VA_PAGE_SIZE)) |> <| x_pages := u32 (x_pages x - u32 reserved) |>) s in
  if x_pages (extent_at s j) =? 0 then remove_before (j + 1) s else s.
Definition reserve_record (i : Z) (owner : DriverIdentity) (page_count reserved reserved_base : Z) (s : DriverVaState) : DriverVaState :=
  upd_allocation i (fun r => r <| v_generation := va_next_generation (v_generation r) |> <| v_active := 1 |> <| v_quarantined := 0 |>
    <| v_guard_pages := u16 (va_guard_pages s) |> <| v_owner := owner |> <| v_reserved_base := reserved_base |>
    <| v_usable_base := u64 (reserved_base + u64 (va_guard_pages s * DRIVER_VA_PAGE_SIZE)) |>
    <| v_reserved_pages := u32 reserved |> <| v_usable_pages := page_count |>) s.
Definition count_reservation (reserved reserved_base : Z) (s : DriverVaState) : DriverVaState :=
  let s := upd_vstats (fun st =>
    let st := st <| vs_active := u32 (vs_active st + 1) |> <| vs_allocations := u64 (vs_allocations st + 1) |>
                 <| vs_guard_pages := u64 (vs_guard_pages st + u64 (va_guard_pages s * 2)) |> in
    if vs_high_water st <? vs_active st then st <| vs_high_water := vs_active st |> else st) s in
  let reserved_end := u64 (reserved_base + u64 (reserved * DRIVER_VA_PAGE_SIZE)) in
  let s := if reserved_base <? highest_reserved_end s
           then upd_vstats (fun st => st <| vs_reused_allocations := u64 (vs_reused_allocations st + 1) |>) s else s in
  if highest_reserved_end s <? reserved_end then s <| highest_reserved_end := reserved_end |> else s.

(** The locked part of [driver_image_va_allocate]: the result with the handle and the base. *)
Definition allocate_body (owner : DriverIdentity) (page_count reserved : Z) (injected : bool) (s : DriverVaState) : (Z * DriverIdentity * Z) * DriverVaState :=
  match (if injected then None else find_va_record s) with
  | None => ((DRIVER_LOAD_OUT_OF_MEMORY, driver_image_va_invalid, 0), upd_vstats (fun st => st <| vs_exhaustion_failures := u64 (vs_exhaustion_failures st + 1) |>) s)
  | Some i =>
    match find_va_extent reserved s with
    | None => ((DRIVER_LOAD_OUT_OF_MEMORY, driver_image_va_invalid, 0), upd_vstats (fun st => st <| vs_exhaustion_failures := u64 (vs_exhaustion_failures st + 1) |>) s)
    | Some j =>
      let reserved_base := x_base (extent_at s j) in
      let s := carve_extent j reserved s in
      let s := reserve_record i owner page_count reserved reserved_base s in
      let r := allocation_at s i in
      let s := refresh_free_stats_locked (count_reservation reserved reserved_base s) in
      ((DRIVER_LOAD_OK, {| id_slot := v_slot r; id_generation := v_generation r |}, v_usable_base r), s)
    end
  end.
Definition free_record (i : Z) (s : DriverVaState) : DriverVaState :=
  upd_allocation i (fun r => r <| v_active := 0 |> <| v_owner := driver_identity_invalid |> <| v_reserved_base := 0 |> <| v_usable_base := 0 |>
    <| v_reserved_pages := 0 |> <| v_usable_pages := 0 |>) s.
Definition va_release_body (owner handle : DriverIdentity) (s : DriverVaState) : Z * DriverVaState :=
  match va_resolve owner handle s with
  | None =>
    let c := allocation_at s (id_slot handle) in
    (DRIVER_LOAD_RESOURCE_DENIED,
     if (id_slot handle <? DRIVER_IMAGE_VA_MAX_ALLOCATIONS) && nonzero (v_active c) && (v_generation c =? id_generation handle) && negb (driver_identity_equal (v_owner c) owner)
     then upd_vstats (fun st => st <| vs_owner_rejections := u64 (vs_owner_rejections st + 1) |>) s
     else upd_vstats (fun st => st <| vs_stale_rejections := u64 (vs_stale_rejections st + 1) |>) s)
  | Some i =>
    let r := allocation_at s i in
    if nonzero (v_quarantined r) then (DRIVER_LOAD_RESOURCE_DENIED, s)
    else
      let '(inserted, s) := insert_extent_locked (v_reserved_base r) (v_reserved_pages r) s in
      if negb inserted then (DRIVER_LOAD_RESOURCE_DENIED, s)
      else
        let s := upd_vstats (fun st =>
          let st := if nonzero (vs_active st) then st <| vs_active := u32 (vs_active st - 1) |> else st in
          st <| vs_releases := u64 (vs_releases st + 1) |>) (free_record i s) in
        (DRIVER_LOAD_OK, refresh_free_stats_locked s)
  end.
Definition quarantine_body (owner handle : DriverIdentity) (s : DriverVaState) : Z * DriverVaState :=
  match va_resolve owner handle s with
  | None => (DRIVER_LOAD_RESOURCE_DENIED, s)
  | Some i =>
    (DRIVER_LOAD_OK,
     if nonzero (v_quarantined (allocation_at s i)) then s
     else upd_vstats (fun st => st <| vs_quarantined := u32 (vs_quarantined st + 1) |>) (upd_allocation i (fun r => r <| v_quarantined := 1 |>) s))
  end.

Section Operations.
Context {E : Type} `{KernelEnv E}.
Implicit Types (s : DriverVaState) (e : E).

(** Whether the arena is acceptable, the new state and the environment. *)
Definition initialize_arena (base limit guard_pages : Z) (s : DriverVaState) (e : E) : bool * DriverVaState * E :=
  if nonzero (Z.land base (DRIVER_VA_PAGE_SIZE - 1)) || nonzero (Z.land limit (DRIVER_VA_PAGE_SIZE - 1)) || (limit <=? base) then (false, s, e)
  else
    let pages := u64 (limit - base) / DRIVER_VA_PAGE_SIZE in
    if (pages =? 0) || (0xFFFFFFFF <? pages) || (0x7FFF <? guard_pages) then (false, s, e)
    else
      let e := kernel_spinlock_setup driver_va_lock KERNEL_LOCK_CLASS_VFS_DEVICE e in
      let s := s <| arena_base := base |> <| arena_limit := limit |> <| highest_reserved_end := base |> <| va_guard_pages := guard_pages |>
                 <| free_extent_count := 1 |> in
      let s := upd_extent 0 (fun x => x <| x_base := base |> <| x_pages := u32 pages |>) s in
      let s := for_range 1 DRIVER_IMAGE_VA_MAX_EXTENTS (fun i => upd_extent i (fun _ => {| x_base := 0; x_pages := 0 |})) s in
      let s := for_range 0 DRIVER_IMAGE_VA_MAX_ALLOCATIONS (fun i => upd_allocation i (fun r =>
                 no_va_record <| v_slot := i |> <| v_generation := v_generation r |>)) s in
      let s := s <| va_stats := no_va_stats <| vs_arena_pages := pages |> |> in
      (true, (refresh_free_stats_locked s) <| initialized := 1 |>, e).
Definition driver_image_va_init (s : DriverVaState) (e : E) : DriverVaState * E :=
  let '(_, s, e) := initialize_arena DRIVER_IMAGE_VA_BASE DRIVER_IMAGE_VA_LIMIT DRIVER_IMAGE_VA_GUARD_PAGES s e in (s, e).

(** [present]: neither output pointer is null. *)
Definition driver_image_va_allocate (owner : DriverIdentity) (page_count : Z) (present : bool) (ds : DriverState) (s : DriverVaState) (e : E)
    : (Z * DriverIdentity * Z) * DriverVaState * E :=
  let refuse r := (r, driver_image_va_invalid, 0) in
  if negb (nonzero (initialized s)) || negb (driver_identity_is_valid owner) || (page_count =? 0) || negb present then (refuse DRIVER_LOAD_BAD_HEADER, s, e)
  else if negb (driver_manager_identity_is_live owner ds) then (refuse DRIVER_LOAD_STALE_IDENTITY, s, e)
  else if negb (driver_manager_identity_accepts_resources owner ds) then (refuse DRIVER_LOAD_STATE_DENIED, s, e)
  else
    let reserved64 := u64 (page_count + u64 (va_guard_pages s * 2)) in
    if 0xFFFFFFFF <? reserved64 then (refuse DRIVER_LOAD_OUT_OF_MEMORY, s, e)
    else with_lock_env driver_va_lock (refuse DRIVER_LOAD_RESOURCE_DENIED) (fun s e =>
      let '(injected, e) := kernel_fault_injection_should_fail KERNEL_FAULT_POINT_DRIVER_VA_RECORD e in
      let '(r, s) := allocate_body owner page_count reserved64 injected s in (r, s, e)) s e.
Definition driver_image_va_release (owner handle : DriverIdentity) (s : DriverVaState) (e : E) : Z * DriverVaState * E :=
  if negb (driver_identity_is_valid owner) || negb (driver_image_va_handle_is_valid handle) then (DRIVER_LOAD_BAD_HEADER, s, e)
  else with_lock driver_va_lock DRIVER_LOAD_RESOURCE_DENIED (va_release_body owner handle) s e.
Definition driver_image_va_quarantine (owner handle : DriverIdentity) (s : DriverVaState) (e : E) : Z * DriverVaState * E :=
  with_lock driver_va_lock DRIVER_LOAD_RESOURCE_DENIED (quarantine_body owner handle) s e.
Definition driver_image_va_get_stats (s : DriverVaState) (e : E) : DriverVaStats * DriverVaState * E :=
  with_lock driver_va_lock no_va_stats (fun s => (va_stats s, s)) s e.

(** ** Initialising the driver subsystem *)

Definition driver_manager_init `{DriverHost E} (ds : DriverState) (s : DriverVaState) (e : E) : DriverState * DriverVaState * E :=
  let ds := ds <| quiesce_pins := 0 |> <| quiesce_unpins := 0 |> <| quiesce_rejections := 0 |> <| quiesce_waits := 0 |>
               <| quiesce_timeouts := 0 |> <| quiesce_quarantines := 0 |> in
  let ds := for_range 0 DRIVER_MAX_RECORDS (fun i ds =>
              let ds := upd_quiesce i (fun _ => inhabitant) ds in
              clear_driver_record i (upd_driver i (fun r => r <| d_slot := i |> <| d_generation := 0 |>) ds)) ds in
  let '(ds, e) := driver_resource_init ds e in
  let '(s, e) := driver_image_va_init s e in
  let e := driver_parts_init e in
  (driver_manager_clear_last_error (ds <| lifecycle_driver := [] |>), s, e).
End Operations.
