(* ===== verification/DriverExtents.v ===== *)
(** * The extents of the driver image arena

    The in-place loops of [DriverVa] as operations on a list: an array holds the
    list of its free extents followed by unused elements; removing and inserting
    by shifting are removing and inserting in the list.  A sorted list without
    touching extents is determined by the addresses it covers. *)

From S2P Require Import Prelude KernelEnv DriverRecords DriverVa.

Implicit Types (s : DriverVaState) (x : DriverVaExtent) (l p q r : list DriverVaExtent).

(** ** Shifting *)

Lemma for_range_shift {S} lo hi (body : Z -> S -> S) st :
  for_range (lo + 1) (hi + 1) body st = for_range lo hi (fun k => body (k + 1)) st.
Proof.
  remember (Z.to_nat (hi - lo)) as n eqn:Hn. revert lo st Hn. induction n as [|n IH]; intros lo st Hn.
  - by rewrite !for_range_done by lia.
  - rewrite (for_range_step (lo + 1)), (for_range_step lo) by lia. apply IH. lia.
Qed.

Lemma for_range_ext {S} lo hi (f g : Z -> S -> S) st :
  (forall i st, lo <= i < hi -> f i st = g i st) -> for_range lo hi f st = for_range lo hi g st.
Proof.
  remember (Z.to_nat (hi - lo)) as n eqn:Hn. revert lo st Hn. induction n as [|n IH]; intros lo st Hn Hfg.
  - by rewrite !for_range_done by lia.
  - rewrite !(for_range_step lo) by lia. rewrite Hfg by lia. apply IH; [lia|]. intros. apply Hfg. lia.
Qed.

Lemma alen_app {A} (p q : list A) : alen (p ++ q) = alen p + alen q.
Proof. unfold alen. rewrite length_app. lia. Qed.
Lemma alen_cons {A} (x : A) (q : list A) : alen (x :: q) = 1 + alen q.
Proof. unfold alen. rewrite length_cons. lia. Qed.
Lemma alen_nil {A} : alen (@nil A) = 0.
Proof. done. Qed.
Lemma alen_snoc {A} (p : list A) (x : A) : alen (p ++ [x]) = alen p + 1.
Proof. rewrite alen_app. done. Qed.
Section Middle.
Context {A : Type} `{Inhabited A}.
Lemma aget_middle (p q : list A) (x : A) i : i = alen p -> aget (p ++ x :: q) i = x.
Proof. intros ->. apply aget_lookup. unfold alen. rewrite Nat2Z.id. by apply list_lookup_middle. Qed.
Lemma aset_middle (p q : list A) (x y : A) i : i = alen p -> aset (p ++ x :: q) i y = p ++ y :: q.
Proof. intros ->. unfold aset, alen. rewrite Nat2Z.id. replace (length p) with (length p + 0)%nat by lia. by rewrite insert_app_r. Qed.
End Middle.
#[export] Hint Rewrite @alen_app @alen_cons @alen_nil : kernel_rw.
Ltac max_extents := unfold DRIVER_IMAGE_VA_MAX_EXTENTS, DRIVER_IMAGE_VA_MAX_ALLOCATIONS, DRIVER_MAX_RESOURCES in *.
Ltac len := autorewrite with kernel_rw in *; try lia.

Lemma shift_down_list p x q r : exists z,
  shift_down (alen p + 1) (alen p + 1 + alen q) (p ++ x :: q ++ r) = p ++ q ++ z :: r.
Proof.
  revert p x. induction q as [|y q IH]; intros p x.
  - exists x. unfold shift_down. rewrite for_range_done by (rewrite alen_nil; lia). done.
  - destruct (IH (p ++ [y]) y) as [z Hz]. exists z. unfold shift_down in *.
    rewrite for_range_step by (rewrite alen_cons; pose proof (alen_nonneg q); lia).
    assert (aget (p ++ x :: (y :: q) ++ r) (alen p + 1) = y) as ->.
    { change (p ++ x :: (y :: q) ++ r) with (p ++ [x] ++ y :: q ++ r). rewrite app_assoc. apply aget_middle. rewrite alen_app. done. }
    rewrite aset_middle by lia. rewrite alen_app, alen_cons, alen_nil, <- !app_assoc in Hz. cbn in Hz.
    replace (alen p + (1 + 0) + 1) with (alen p + 1 + 1) in Hz by lia.
    rewrite alen_cons. replace (alen p + 1 + (1 + alen q)) with (alen p + 1 + 1 + alen q) by lia. exact Hz.
Qed.

Lemma shift_up_list p q y r : exists z, shift_up (alen p) (alen p + alen q) (p ++ q ++ y :: r) = p ++ z :: q ++ r.
Proof.
  revert y r. induction q as [|a q IH] using rev_ind; intros y r.
  - exists y. unfold shift_up. rewrite for_range_done by (rewrite alen_nil; lia). done.
  - destruct (IH a (a :: r)) as [z Hz]. exists z. unfold shift_up in *. pose proof (alen_nonneg q).
    rewrite alen_app, alen_cons. change (alen (@nil DriverVaExtent)) with 0. rewrite for_range_step by lia.
    replace (p ++ (q ++ [a]) ++ y :: r) with (((p ++ q) ++ [a]) ++ y :: r) by (by rewrite <- !app_assoc).
    rewrite aset_middle by (len). rewrite <- !app_assoc. cbn [app].
    replace (p ++ q ++ a :: y :: r) with ((p ++ q) ++ a :: y :: r) by (by rewrite <- app_assoc).
    rewrite aget_middle by len.
    replace (alen p + (alen q + (1 + 0)) - alen p) with (alen q + 1) by lia. rewrite for_range_shift.
    rewrite <- Hz. replace (alen p + alen q - alen p) with (alen q) by lia.
    apply for_range_ext. intros k l' _. by replace (alen p + (alen q + (1 + 0)) - (k + 1)) with (alen p + alen q - k) by lia.
Qed.

(** ** The list that an array holds *)

Definition holds s l : Prop := exists r, free_extents s = l ++ r /\ free_extent_count s = alen l /\ alen l + alen r = DRIVER_IMAGE_VA_MAX_EXTENTS.

Lemma holds_at s p x q : holds s (p ++ x :: q) -> extent_at s (alen p) = x.
Proof. intros (r & He & _). unfold extent_at. rewrite He, <- app_assoc. by apply aget_middle. Qed.
Lemma holds_count s l : holds s l -> free_extent_count s = alen l /\ 0 <= alen l <= DRIVER_IMAGE_VA_MAX_EXTENTS.
Proof. intros (r & _ & Hc & Hl). pose proof (alen_nonneg l). pose proof (alen_nonneg r). split; [done | lia]. Qed.
Lemma holds_unique s l l' : holds s l -> holds s l' -> l = l'.
Proof.
  intros (r & He & Hc & _) (r' & He' & Hc' & _). unfold alen in *. assert (length l = length l') as Hlen by lia.
  rewrite He in He'. by destruct (app_inj_1 _ _ _ _ Hlen He').
Qed.

Lemma remove_before_holds s p x q from :
  holds s (p ++ x :: q) -> from = alen p + 1 -> holds (remove_before from s) (p ++ q).
Proof.
  intros (r & He & Hc & Hl) ->. rewrite <- app_assoc in He. cbn [app] in He.
  destruct (shift_down_list p x q r) as [z Hz]. unfold remove_before. max_extents.
  rewrite alen_app, alen_cons in Hc, Hl. pose proof (alen_nonneg p). pose proof (alen_nonneg q). pose proof (alen_nonneg r).
  exists (z :: r). cbn. rewrite He, Hc. split_and!.
  - rewrite <- app_assoc, <- Hz. by replace (alen p + (1 + alen q)) with (alen p + 1 + alen q) by lia.
  - rewrite alen_app. unwrap. lia.
  - rewrite alen_app, alen_cons. max_extents. lia.
Qed.
Lemma upd_extent_holds s p x q f i : holds s (p ++ x :: q) -> i = alen p -> holds (upd_extent i f s) (p ++ f x :: q).
Proof.
  intros Hh ->. pose proof (holds_at _ _ _ _ Hh) as Hx. destruct Hh as (r & He & Hc & Hl). exists r. unfold upd_extent. cbn. rewrite Hx, He.
  rewrite <- !app_assoc. cbn [app]. rewrite aset_middle by done. rewrite !alen_app, !alen_cons in *. done.
Qed.
(** Inserting: the shift, the two stores and the new count. *)
Lemma insert_holds s p q x i : holds s (p ++ q) -> alen (p ++ q) < DRIVER_IMAGE_VA_MAX_EXTENTS -> i = alen p ->
  holds ((upd_extent i (fun y => y <| x_base := x_base x |> <| x_pages := x_pages x |>)
           (s <| free_extents := shift_up i (free_extent_count s) (free_extents s) |>))
         <| free_extent_count := u32 (free_extent_count s + 1) |>) (p ++ x :: q).
Proof.
  intros (r & He & Hc & Hl) Hlt ->. max_extents.
  destruct r as [|y r]; [rewrite alen_nil in Hl; lia|]. rewrite <- app_assoc in He.
  destruct (shift_up_list p q y r) as [z Hz]. rewrite alen_app in Hc, Hl, Hlt.
  pose proof (alen_nonneg p). pose proof (alen_nonneg q). pose proof (alen_nonneg r). rewrite alen_cons in Hl.
  exists r. unfold upd_extent. cbn. rewrite He, Hc, Hz. unfold extent_at. cbn. rewrite aset_middle by done. split_and!.
  - rewrite <- app_assoc. cbn. destruct x. done.
  - rewrite alen_app, alen_cons. unwrap. lia.
  - rewrite alen_app, alen_cons. max_extents. lia.
Qed.

(** ** Addresses *)

Definition xend x : Z := x_base x + x_pages x * DRIVER_VA_PAGE_SIZE.
Definition in_extent x (a : Z) : Prop := x_base x <= a < xend x.
Definition covers l (a : Z) : Prop := Exists (fun x => in_extent x a) l.

(** Nonempty, aligned extents up to [limit] with a gap before each but the first;
    [lo] bounds the first. *)
Fixpoint sorted_from (limit lo : Z) l : Prop :=
  match l with
  | [] => True
  | x :: l => (0 <= x_base x /\ lo <= x_base x) /\ 0 < x_pages x < 2 ^ 32 /\ x_base x mod DRIVER_VA_PAGE_SIZE = 0 /\ xend x <= limit /\ sorted_from limit (xend x + 1) l
  end.
(** The bound after a list. *)
Fixpoint next_from (lo : Z) l : Z := match l with [] => lo | x :: l => next_from (xend x + 1) l end.

Lemma sorted_app limit lo p q : sorted_from limit lo (p ++ q) <-> sorted_from limit lo p /\ sorted_from limit (next_from lo p) q.
Proof. revert lo. induction p as [|x p IH]; intros lo; cbn; [tauto|]. rewrite IH. tauto. Qed.
Lemma next_snoc lo p x : next_from lo (p ++ [x]) = xend x + 1.
Proof. revert lo. induction p as [|y p IH]; intros lo; cbn; [done | apply IH]. Qed.
Lemma sorted_weaken limit lo lo' l : lo' <= lo -> sorted_from limit lo l -> sorted_from limit lo' l.
Proof. destruct l; cbn; [done|]. intros. intuition lia. Qed.
Lemma xend_le x : 0 < x_pages x < 2 ^ 32 -> x_base x < xend x.
Proof. unfold xend, DRIVER_VA_PAGE_SIZE. lia. Qed.
Lemma covers_from limit lo l a : sorted_from limit lo l -> covers l a -> lo <= a < limit.
Proof.
  revert lo. induction l as [|x l IH]; intros lo Hs Hc; [by inversion Hc|]. cbn in Hs. destruct Hs as (H1 & H2 & _ & H3 & H4).
  apply Exists_cons in Hc as [Hc|Hc]; [unfold in_extent in Hc; lia|]. apply (IH _ H4) in Hc. pose proof (xend_le x H2). lia.
Qed.
Lemma next_from_ge limit lo p : sorted_from limit lo p -> lo <= next_from lo p.
Proof.
  revert lo. induction p as [|x p IH]; intros lo Hs; [cbn; lia|]. cbn in Hs |- *. destruct Hs as (H1 & H2 & _ & _ & Hs).
  apply IH in Hs. pose proof (xend_le x H2). lia.
Qed.
Lemma covers_next limit lo p a : sorted_from limit lo p -> covers p a -> a < next_from lo p.
Proof.
  revert lo. induction p as [|x p IH]; intros lo Hs Hc; [by inversion Hc|]. cbn in Hs |- *. destruct Hs as (H1 & H2 & _ & _ & Hs).
  apply Exists_cons in Hc as [Hc|Hc]; [|by eapply IH]. apply next_from_ge in Hs. unfold in_extent in Hc. lia.
Qed.
Lemma covers_cons x l a : covers (x :: l) a <-> in_extent x a \/ covers l a.
Proof. apply Exists_cons. Qed.
Lemma covers_app p q a : covers (p ++ q) a <-> covers p a \/ covers q a.
Proof. apply Exists_app. Qed.

Lemma extent_end_xend x limit : 0 <= x_base x -> 0 < x_pages x < 2 ^ 32 -> xend x <= limit -> limit < 2 ^ 64 -> extent_end x = xend x.
Proof. unfold extent_end, xend, DRIVER_VA_PAGE_SIZE. intros. by unwrap. Qed.

(** The sorted list is determined by its addresses. *)
Lemma sorted_unique limit lo lo' l l' :
  sorted_from limit lo l -> sorted_from limit lo' l' -> (forall a, covers l a <-> covers l' a) -> l = l'.
Proof.
  revert lo lo' l'. induction l as [|x l IH]; intros lo lo' [|y l'] Hs Hs' Hc; [done| | |].
  - cbn in Hs'. destruct Hs' as (_ & Hp & _). pose proof (xend_le y Hp). exfalso. eapply Exists_nil, (Hc (x_base y)), Exists_cons_hd. unfold in_extent. lia.
  - cbn in Hs. destruct Hs as (_ & Hp & _). pose proof (xend_le x Hp). exfalso. eapply Exists_nil, (Hc (x_base x)), Exists_cons_hd. unfold in_extent. lia.
  - cbn in Hs, Hs'. destruct Hs as (H1 & H2 & H3 & H4 & H5), Hs' as (H1' & H2' & H3' & H4' & H5').
    pose proof (xend_le x H2) as Hx. pose proof (xend_le y H2') as Hy.
    assert (forall a, in_extent x a \/ covers l a <-> in_extent y a \/ covers l' a) as Hc' by (intros a; by rewrite <- !covers_cons).
    pose proof (fun a => covers_from _ _ _ a H5) as Hl. pose proof (fun a => covers_from _ _ _ a H5') as Hl'. unfold in_extent in Hc'.
    assert (x_base x = x_base y) as Hb.
    { destruct (Hc' (x_base x)) as [[?|?%Hl'] _]; [lia| |]; destruct (Hc' (x_base y)) as [_ [?|?%Hl]]; lia. }
    assert (xend x = xend y) as He.
    { destruct (Hc' (xend x)) as [_ Hn], (Hc' (xend y)) as [Hn' _]. destruct (Z.lt_total (xend x) (xend y)) as [?|[?|?]]; [|done|].
      - destruct Hn as [?|?%Hl]; lia.
      - destruct Hn' as [?|?%Hl']; lia. }
    assert (x = y) as -> by (destruct x, y; unfold xend, DRIVER_VA_PAGE_SIZE in *; cbn in *; f_equal; lia). f_equal.
    apply (IH (xend y + 1) (xend y + 1)); [done | done |]. intros a. split; intros Ha.
    + destruct (proj1 (Hc' a) (or_intror Ha)) as [?|?]; [|done]. apply Hl in Ha. lia.
    + destruct (proj2 (Hc' a) (or_intror Ha)) as [?|?]; [|done]. apply Hl' in Ha. lia.
Qed.

(** ** Merging and inserting *)

(** A change of the extents alone. *)
Definition extents_only s s' : Prop := exists l c, s' = s <| free_extents := l |> <| free_extent_count := c |>.
Lemma extents_only_refl s : extents_only s s.
Proof. exists (free_extents s), (free_extent_count s). by destruct s. Qed.
Lemma extents_only_trans s1 s2 s3 : extents_only s1 s2 -> extents_only s2 s3 -> extents_only s1 s3.
Proof. intros (l & c & ->) (l' & c' & ->). by exists l', c'. Qed.
Lemma upd_extent_only i f s : extents_only s (upd_extent i f s).
Proof. exists (aset (free_extents s) i (f (extent_at s i))), (free_extent_count s). by destruct s. Qed.
Lemma remove_before_only from s : extents_only s (remove_before from s).
Proof. by eexists _, _. Qed.
#[export] Hint Resolve extents_only_refl extents_only_trans upd_extent_only remove_before_only : kernel.

Definition extent_ok (limit : Z) x : Prop := 0 <= x_base x /\ 0 < x_pages x < 2 ^ 32 /\ x_base x mod DRIVER_VA_PAGE_SIZE = 0 /\ xend x <= limit.
Lemma extent_ok_end limit x : limit < 2 ^ 64 -> extent_ok limit x -> extent_end x = xend x.
Proof. intros Hl (H1 & H2 & _ & H3). by eapply extent_end_xend. Qed.
Lemma sorted_cons limit lo x l : sorted_from limit lo (x :: l) <-> lo <= x_base x /\ extent_ok limit x /\ sorted_from limit (xend x + 1) l.
Proof. cbn. unfold extent_ok. tauto. Qed.
Lemma sorted_snoc limit lo p x : sorted_from limit lo (p ++ [x]) <-> sorted_from limit lo p /\ next_from lo p <= x_base x /\ extent_ok limit x.
Proof. rewrite sorted_app, sorted_cons. cbn. tauto. Qed.
Lemma next_from_lo limit lo p x : sorted_from limit lo (p ++ [x]) -> lo <= x_base x.
Proof.
  intros Hs. apply (covers_from _ _ _ _ Hs). apply covers_app. right. apply covers_cons. left.
  apply sorted_snoc in Hs as (_ & _ & _ & Hp & _). pose proof (xend_le x Hp). unfold in_extent. lia.
Qed.

Definition join x y : DriverVaExtent := {| x_base := x_base x; x_pages := x_pages x + x_pages y |}.
Lemma join_end x y : xend x = x_base y -> xend (join x y) = xend y.
Proof. unfold xend, join. cbn. lia. Qed.
Lemma join_in x y a : 0 < x_pages x < 2 ^ 32 -> 0 < x_pages y < 2 ^ 32 -> xend x = x_base y -> in_extent (join x y) a <-> in_extent x a \/ in_extent y a.
Proof.
  intros Hx Hy He. pose proof (xend_le x Hx). pose proof (xend_le y Hy). unfold in_extent. rewrite join_end by done. cbn [join x_base]. lia.
Qed.
Lemma join_ok limit lo x y : extent_ok limit x -> extent_ok limit y -> xend x = x_base y ->
  lo <= x_base x -> limit - lo <= (2 ^ 32 - 1) * DRIVER_VA_PAGE_SIZE -> extent_ok limit (join x y) /\ u32 (x_pages x + x_pages y) = x_pages x + x_pages y.
Proof.
  intros (H1 & H2 & H3 & H4) (K1 & K2 & K3 & K4) He Hlo Hl. unfold extent_ok. rewrite join_end by done. cbn [join x_base x_pages].
  unfold xend, DRIVER_VA_PAGE_SIZE in *.
  assert (x_pages x + x_pages y < 2 ^ 32) by lia. split; [split_and!; (done || lia)|]. apply u32_small. unfold is_u32. lia.
Qed.

(** What a merge leaves: the same addresses and pages, with the merged end apart. *)
Lemma merge_left_spec limit lo s p x q :
  holds s (p ++ x :: q) -> sorted_from limit lo p -> extent_ok limit x -> next_from lo p <= x_base x + (if decide (p = []) then 0 else 1) ->
  limit < 2 ^ 64 -> limit - lo <= (2 ^ 32 - 1) * DRIVER_VA_PAGE_SIZE ->
  exists p' x', (merge_left (alen p) s).1 = alen p' /\ holds (merge_left (alen p) s).2 (p' ++ x' :: q) /\
    sorted_from limit lo (p' ++ [x']) /\ xend x' = xend x /\ alen p' <= alen p /\
    (forall a, covers p' a \/ in_extent x' a <-> covers p a \/ in_extent x a) /\
    asum x_pages p' + x_pages x' = asum x_pages p + x_pages x /\ extents_only s (merge_left (alen p) s).2.
Proof.
  intros Hh Hs Hx Hn Hlim Hsz. pose proof (holds_at _ _ _ _ Hh) as Hat. unfold merge_left. rewrite Hat.
  destruct p as [|b p _] using rev_ind.
  { exists [], x. change (alen (@nil DriverVaExtent)) with 0 in *. change (0 <? 0) with false. cbn [andb fst snd app next_from] in *. rewrite decide_True in Hn by done.
    assert (sorted_from limit lo [x]) by (apply sorted_cons; split_and!; [lia | done | done]). split_and!; eauto with kernel; lia. }
  rewrite decide_False in Hn by (by destruct p). rewrite next_snoc in Hn. pose proof (next_from_lo _ _ _ _ Hs) as Hlo.
  pose proof Hs as (Hp & Hnp & Hb)%sorted_snoc. rewrite <- app_assoc in Hh. cbn [app] in Hh.
  assert (extent_at s (alen (p ++ [b]) - 1) = b) as Hatb.
  { rewrite alen_snoc. replace (alen p + 1 - 1) with (alen p) by lia. by eapply holds_at. }
  rewrite Hatb, (extent_ok_end limit) by done.
  replace (0 <? alen (p ++ [b])) with true by (rewrite alen_snoc; pose proof (alen_nonneg p); symmetry; apply Z.ltb_lt; lia).
  destruct (xend b =? x_base x) eqn:He; bprop; cbn [andb fst snd].
  - destruct (join_ok limit lo b x Hb Hx He Hlo Hsz) as [Hj Hu].
    exists p, (join b x). rewrite alen_snoc. split_and!.
    + lia.
    + replace (p ++ join b x :: q) with ((p ++ [join b x]) ++ q) by (by rewrite <- app_assoc).
      apply (remove_before_holds _ (p ++ [join b x]) x); [|rewrite alen_snoc; lia].
      rewrite <- app_assoc. cbn [app]. replace (join b x) with (b <| x_pages := u32 (x_pages b + x_pages x) |>) by (by rewrite Hu).
      apply (upd_extent_holds s p b (x :: q) (fun y => y <| x_pages := u32 (x_pages y + x_pages x) |>)); [done | lia].
    + apply sorted_snoc. done.
    + by apply join_end.
    + lia.
    + intros a. rewrite join_in, covers_app, covers_cons by apply Hb || apply Hx || done. unfold covers. rewrite Exists_nil. tauto.
    + rewrite asum_app. cbn. lia.
    + eauto with kernel.
  - exists (p ++ [b]), x. split_and!; try done; eauto with kernel.
    + by rewrite <- app_assoc.
    + apply sorted_snoc. rewrite next_snoc. split_and!; [done | lia | done].
Qed.

Lemma merge_right_spec limit lo s p x q :
  holds s (p ++ x :: q) -> lo <= x_base x -> extent_ok limit x -> sorted_from limit (xend x) q -> limit < 2 ^ 64 ->
  limit - lo <= (2 ^ 32 - 1) * DRIVER_VA_PAGE_SIZE ->
  exists x' q', holds (merge_right (alen p) s) (p ++ x' :: q') /\ x_base x' = x_base x /\ extent_ok limit x' /\
    sorted_from limit (xend x' + 1) q' /\ alen q' <= alen q /\ (forall a, in_extent x' a \/ covers q' a <-> in_extent x a \/ covers q a) /\
    x_pages x' + asum x_pages q' = x_pages x + asum x_pages q /\ extents_only s (merge_right (alen p) s).
Proof.
  intros Hh Hlo Hx Hq Hlim Hsz. pose proof (holds_at _ _ _ _ Hh) as Hat. pose proof (holds_count _ _ Hh) as [Hc _].
  unfold merge_right. rewrite Hc, Hat, alen_app, alen_cons, (extent_ok_end limit) by done. destruct q as [|b q].
  { exists x, []. change (alen (@nil DriverVaExtent)) with 0. replace (alen p + 1 <? alen p + (1 + 0)) with false by (symmetry; apply Z.ltb_ge; lia).
    cbn [andb]. split_and!; eauto with kernel; (done || lia). }
  rewrite alen_cons. pose proof (alen_nonneg q). replace (alen p + 1 <? alen p + (1 + (1 + alen q))) with true by (symmetry; apply Z.ltb_lt; lia).
  cbn [andb]. pose proof Hh as Hh'. replace (p ++ x :: b :: q) with ((p ++ [x]) ++ b :: q) in Hh' by (by rewrite <- app_assoc).
  pose proof (holds_at _ _ _ _ Hh') as Hatb. rewrite alen_snoc in Hatb. rewrite Hatb. apply sorted_cons in Hq as (Hxb & Hb & Hq).
  destruct (xend x =? x_base b) eqn:He; bprop.
  - destruct (join_ok limit lo x b Hx Hb He Hlo Hsz) as [Hj Hu]. exists (join x b), q. split_and!; eauto with kernel.
    + replace (p ++ join x b :: q) with ((p ++ [join x b]) ++ q) by (by rewrite <- app_assoc).
      apply (remove_before_holds _ (p ++ [join x b]) b); [|rewrite alen_snoc; lia].
      rewrite <- app_assoc. cbn [app]. replace (join x b) with (x <| x_pages := u32 (x_pages x + x_pages b) |>) by (by rewrite Hu).
      by apply (upd_extent_holds s p x (b :: q) (fun y => y <| x_pages := u32 (x_pages y + x_pages b) |>)).
    + by rewrite join_end.
    + lia.
    + intros a. rewrite join_in, covers_cons by apply Hb || apply Hx || done. tauto.
    + cbn. lia.
  - assert (sorted_from limit (xend x + 1) (b :: q)) by (apply sorted_cons; split_and!; [lia | done | done]).
    exists x, (b :: q). split_and!; eauto with kernel; rewrite ?alen_cons; (done || lia).
Qed.

(** Where a new extent goes: behind those with a smaller base. *)
Lemma insert_position limit lo s l base :
  holds s l -> sorted_from limit lo l ->
  exists p q, l = p ++ q /\
    default (free_extent_count s) (find_first (fun i => negb (x_base (extent_at s i) <? base)) 0 (Z.to_nat (free_extent_count s))) = alen p /\
    (forall p' b, p = p' ++ [b] -> x_base b < base) /\ (forall b q', q = b :: q' -> base <= x_base b).
Proof.
  intros Hh Hs. destruct (holds_count _ _ Hh) as [Hc _]. rewrite Hc. unfold alen at 2. rewrite Nat2Z.id.
  destruct (find_first _ _ _) as [i|] eqn:Hf; cbn [default from_option id].
  - apply find_first_Some in Hf as (Hi & Hp & Hlt). exists (take (Z.to_nat i) l), (drop (Z.to_nat i) l).
    rewrite take_drop. assert (alen (take (Z.to_nat i) l) = i) as Hlen by (unfold alen; rewrite length_take; lia).
    split_and!; [done | done | |].
    + intros p' b Hpb. specialize (Hlt (alen p')). rewrite Hpb, alen_snoc in Hlen.
      rewrite <- (take_drop (Z.to_nat i) l), Hpb, <- app_assoc in Hh. apply holds_at in Hh. rewrite Hh in Hlt.
      pose proof (alen_nonneg p'). ospecialize (Hlt _); [lia|]. bprop. lia.
    + intros b q' Hq. rewrite <- (take_drop (Z.to_nat i) l), Hq in Hh. apply holds_at in Hh. rewrite Hlen in Hh. rewrite Hh in Hp. bprop. lia.
  - exists l, []. rewrite app_nil_r. split_and!; [done | done | | done]. intros p' b ->. pose proof (holds_at _ _ _ _ Hh) as Hb.
    apply find_first_None with (j := alen p') in Hf; [|pose proof (alen_nonneg p'); unfold alen in *; rewrite length_app; cbn; lia].
    rewrite Hb in Hf. bprop. lia.
Qed.

(** Inserting an extent that overlaps none keeps the list sorted and adds its addresses. *)
Lemma insert_extent_spec s l x :
  holds s l -> sorted_from (arena_limit s) (arena_base s) l -> alen l < DRIVER_IMAGE_VA_MAX_EXTENTS ->
  extent_ok (arena_limit s) x -> arena_base s <= x_base x -> arena_limit s < 2 ^ 64 ->
  arena_limit s - arena_base s <= (2 ^ 32 - 1) * DRIVER_VA_PAGE_SIZE -> (forall a, in_extent x a -> ~ covers l a) ->
  exists s' l', insert_extent_locked (x_base x) (x_pages x) s = (true, s') /\ holds s' l' /\ sorted_from (arena_limit s) (arena_base s) l' /\
    (forall a, covers l' a <-> covers l a \/ in_extent x a) /\ asum x_pages l' = asum x_pages l + x_pages x /\ alen l' <= alen l + 1 /\ extents_only s s'.
Proof.
  intros Hh Hs Hlt Hx Hlo Hlim Hsz Hd. destruct (holds_count _ _ Hh) as [Hc _]. pose proof Hx as (Hx1 & Hx2 & Hx3 & Hx4).
  destruct (insert_position _ _ s l (x_base x) Hh Hs) as (p & q & -> & Hi & Hp & Hq). pose proof (xend_le x Hx2) as Hxe.
  unfold insert_extent_locked. rewrite Hi, Hc.
  replace (x_pages x =? 0) with false by (symmetry; apply Z.eqb_neq; lia).
  replace (DRIVER_IMAGE_VA_MAX_EXTENTS <=? alen (p ++ q)) with false by (symmetry; apply Z.leb_gt; lia). cbn [orb].
  assert (u64 (x_pages x * DRIVER_VA_PAGE_SIZE) = x_pages x * DRIVER_VA_PAGE_SIZE) as Hu by (unfold DRIVER_VA_PAGE_SIZE; by unwrap).
  rewrite Hu. fold (xend x). unfold xend in Hx4, Hxe.
  replace (x_base x <? arena_base s) with false by (symmetry; apply Z.ltb_ge; lia).
  replace (arena_limit s <? x_base x) with false by (symmetry; apply Z.ltb_ge; lia).
  replace (u64 (arena_limit s - x_base x) <? x_pages x * DRIVER_VA_PAGE_SIZE) with false by (symmetry; apply Z.ltb_ge; unwrap; lia).
  cbn [orb]. replace (u64 (xend x)) with (xend x) by (unfold xend; by unwrap).
  fold (xend x) in Hx4, Hxe. pose proof Hs as (Hsp & Hsq)%sorted_app.
  assert (next_from (arena_base s) p <= x_base x + (if decide (p = []) then 0 else 1)) as Hnp.
  { destruct p as [|b p _] using rev_ind; [cbn; rewrite decide_True by done; lia|]. rewrite decide_False by (by destruct p). rewrite next_snoc.
    specialize (Hp p b eq_refl). destruct (Z.le_gt_cases (xend b) (x_base x)); [lia|]. exfalso. apply (Hd (x_base x)); [unfold in_extent; lia|].
    apply covers_app. left. apply covers_app. right. apply covers_cons. left. unfold in_extent. lia. }
  assert (sorted_from (arena_limit s) (xend x) q) as Hxq.
  { destruct q as [|b q]; [done|]. specialize (Hq b q eq_refl). apply sorted_cons in Hsq as (_ & Hb & Hsq). apply sorted_cons. split_and!; [|done|done].
    destruct (Z.le_gt_cases (xend x) (x_base b)); [lia|]. exfalso. apply (Hd (x_base b)); [unfold in_extent; lia|].
    apply covers_app. right. apply covers_cons. left. pose proof (xend_le b). unfold in_extent, extent_ok in *. lia. }
  match goal with |- context [if ?c then _ else _] => assert (c = false) as -> end.
  { apply orb_false_iff. split.
    - destruct p as [|b p _] using rev_ind; [done|]. apply andb_false_iff. right. apply Z.ltb_ge. rewrite decide_False in Hnp by (by destruct p).
      rewrite next_snoc in Hnp. rewrite alen_snoc. replace (alen p + 1 - 1) with (alen p) by lia. rewrite <- app_assoc in Hh. apply holds_at in Hh. rewrite Hh.
      apply sorted_snoc in Hsp as (_ & _ & Hb). rewrite (extent_ok_end (arena_limit s)) by done. lia.
    - destruct q as [|b q]; [apply andb_false_iff; left; rewrite app_nil_r; apply Z.ltb_irrefl|]. apply andb_false_iff. right. apply Z.ltb_ge.
      apply holds_at in Hh. rewrite Hh. apply sorted_cons in Hxq as [Hxq _]. exact Hxq. }
  pose proof (insert_holds s p q x _ Hh Hlt eq_refl) as H1. rewrite Hc in H1.
  set (s1 := set_field free_extent_count _ _) in *.
  destruct (merge_left_spec _ _ s1 p x q H1 Hsp Hx Hnp Hlim Hsz) as (p' & x' & He & H2 & Hs2 & Hx' & Hl2 & Hc2 & Ha2 & Ho2).
  destruct (merge_left (alen p) s1) as [i s2]. cbn [fst snd] in *. subst i. pose proof (next_from_lo _ _ _ _ Hs2) as Hlo'.
  pose proof Hs2 as (Hsp' & Hn' & Hok')%sorted_snoc.
  destruct (merge_right_spec (arena_limit s) (arena_base s) s2 p' x' q H2 Hlo' Hok' ltac:(by rewrite Hx') Hlim Hsz)
    as (x'' & q' & H3 & Hb3 & Hok3 & Hs3 & Hl3 & Hc3 & Ha3 & Ho3).
  eexists _, (p' ++ x'' :: q'). split_and!; [reflexivity | done | | | | |].
  - apply sorted_app. split; [done|]. apply sorted_cons. split_and!; [lia | done | done].
  - intros a. rewrite !covers_app, covers_cons. specialize (Hc2 a). specialize (Hc3 a). tauto.
  - rewrite !asum_app. cbn. lia.
  - rewrite !alen_app, !alen_cons. lia.
  - eapply extents_only_trans; [|exact Ho3]. eapply extents_only_trans; [|exact Ho2]. by eexists _, _.
Qed.

(** Carving from the front of an extent: its other addresses stay. *)
Lemma carve_spec s p x q reserved :
  holds s (p ++ x :: q) -> sorted_from (arena_limit s) (arena_base s) (p ++ x :: q) -> 0 < reserved <= x_pages x -> arena_limit s < 2 ^ 64 ->
  exists l', holds (carve_extent (alen p) reserved s) l' /\ sorted_from (arena_limit s) (arena_base s) l' /\
    (forall a, covers l' a <-> covers (p ++ x :: q) a /\ ~ (x_base x <= a < x_base x + reserved * DRIVER_VA_PAGE_SIZE)) /\
    asum x_pages l' = asum x_pages (p ++ x :: q) - reserved /\ alen l' <= alen (p ++ x :: q) /\ extents_only s (carve_extent (alen p) reserved s).
Proof.
  intros Hh Hs Hr Hlim. pose proof Hs as (Hp & Hs')%sorted_app. apply sorted_cons in Hs' as (Hn & Hx & Hq). pose proof Hx as (H1 & H2 & H3 & H4).
  unfold carve_extent. set (f := fun y : DriverVaExtent => set_field x_pages _ _). pose proof (upd_extent_holds s p x q f _ Hh eq_refl) as Hh1. rewrite (holds_at _ _ _ _ Hh1).
  assert (f x = {| x_base := x_base x + reserved * DRIVER_VA_PAGE_SIZE; x_pages := x_pages x - reserved |}) as Hf.
  { unfold f. unfold xend, DRIVER_VA_PAGE_SIZE in *. cbn. f_equal; by unwrap. }
  assert (forall a, covers p a -> a < x_base x) as Hlow.
  { intros a Ha%(covers_next _ _ _ _ Hp). lia. }
  assert (forall a, covers q a -> xend x < a) as Hhigh by (intros a Ha%(covers_from _ _ _ _ Hq); lia).
  rewrite Hf in Hh1 |- *. cbn [x_pages]. destruct (x_pages x - reserved =? 0) eqn:Hz; bprop.
  - exists (p ++ q). split_and!.
    + eapply remove_before_holds; [done | lia].
    + apply sorted_app. split; [done|]. eapply sorted_weaken; [|done]. pose proof (xend_le x H2). lia.
    + intros a. rewrite !covers_app, covers_cons. specialize (Hlow a). specialize (Hhigh a). unfold in_extent. unfold xend in *.
      replace (x_pages x) with reserved in * by lia. split; [|tauto]. intros [?|?]; split; intuition lia.
    + rewrite !asum_app. cbn. lia.
    + rewrite !alen_app, alen_cons. lia.
    + eauto with kernel.
  - eexists. split_and!; [done | | | | |eauto with kernel].
    + apply sorted_app. split; [done|]. apply sorted_cons. unfold extent_ok, xend in *. cbn. unfold DRIVER_VA_PAGE_SIZE in *. split_and!; try lia.
      * rewrite Z.mod_add by lia. done.
      * replace (_ + _ + 1) with (x_base x + x_pages x * 4096 + 1) by lia. done.
    + intros a. rewrite !covers_app, !covers_cons. specialize (Hlow a). specialize (Hhigh a). unfold in_extent, xend in *. cbn. unfold DRIVER_VA_PAGE_SIZE in *.
      split; [|intuition lia]. intros [?|[?|?]]; split; intuition lia.
    + rewrite !asum_app. cbn. lia.
    + rewrite !alen_app, !alen_cons. lia.
Qed.
