(* ===== verification/DriverVaSpec.v ===== *)
(** * Driver image addresses: the arena is partitioned

    At every time the arena is cut into the free extents and the reservations of
    the live records; the extents are sorted and never touch.  So there are never
    more extents than live records and one, the array of extents never runs out,
    and a release cannot fail for lack of a slot. *)

From S2P Require Import Prelude KernelEnv DriverRecords DriverVa DriverExtents.

Implicit Types (s : DriverVaState) (i j a : Z).

(** ** The invariant *)

Definition frees s : list DriverVaExtent := take (Z.to_nat (free_extent_count s)) (free_extents s).
Definition live_record (r : DriverVaRecord) : bool := nonzero (v_active r).
Definition reservation (r : DriverVaRecord) : DriverVaExtent := {| x_base := v_reserved_base r; x_pages := v_reserved_pages r |}.
(** The record [i] is live and address [a] is in what it reserves. *)
Definition reserves s i a : Prop :=
  0 <= i < DRIVER_IMAGE_VA_MAX_ALLOCATIONS /\ live_record (allocation_at s i) = true /\ in_extent (reservation (allocation_at s i)) a.
Definition held_pages (r : DriverVaRecord) : Z := if live_record r then v_reserved_pages r else 0.

Record record_ok s (r : DriverVaRecord) : Prop := {
  rec_extent : extent_ok (arena_limit s) (reservation r);
  rec_base : arena_base s <= v_reserved_base r;
  rec_usable : v_usable_base r = v_reserved_base r + va_guard_pages s * DRIVER_VA_PAGE_SIZE;
  rec_pages : v_reserved_pages r = v_usable_pages r + va_guard_pages s * 2 /\ 0 < v_usable_pages r }.

Record arena_ok s : Prop := {
  arena_range : 0 <= arena_base s < arena_limit s /\ arena_limit s < 2 ^ 64;
  arena_aligned : arena_base s mod DRIVER_VA_PAGE_SIZE = 0;
  arena_size : arena_limit s - arena_base s <= (2 ^ 32 - 1) * DRIVER_VA_PAGE_SIZE;
  arena_guards : 0 <= va_guard_pages s <= 0x7FFF;
  arena_records : alen (allocations s) = DRIVER_IMAGE_VA_MAX_ALLOCATIONS }.

Record va_shape s : Prop := {
  va_arena : arena_ok s;
  va_holds : holds s (frees s);
  va_sorted : sorted_from (arena_limit s) (arena_base s) (frees s);
  va_slots : forall i, 0 <= i < DRIVER_IMAGE_VA_MAX_ALLOCATIONS -> v_slot (allocation_at s i) = i;
  va_records : forall i, 0 <= i < DRIVER_IMAGE_VA_MAX_ALLOCATIONS -> live_record (allocation_at s i) = true -> record_ok s (allocation_at s i);
  va_total : forall a, arena_base s <= a < arena_limit s -> covers (frees s) a \/ exists i, reserves s i a;
  va_apart : forall i a, reserves s i a -> ~ covers (frees s) a;
  va_disjoint : forall i j a, reserves s i a -> reserves s j a -> i = j;
  va_pages : (asum x_pages (frees s) + asum held_pages (allocations s)) * DRIVER_VA_PAGE_SIZE = arena_limit s - arena_base s;
  va_active : vs_active (va_stats s) = acount live_record (allocations s) }.

(** The counters of free space that [refresh_free_stats_locked] recomputes. *)
Record free_stats_ok s : Prop := {
  fs_pages : vs_free_pages (va_stats s) = asum x_pages (frees s);
  fs_extents : vs_free_extents (va_stats s) = free_extent_count s;
  fs_largest : forall n, 0 < n -> n <= vs_largest_free_pages (va_stats s) <-> exists x, x ∈ frees s /\ n <= x_pages x }.

Record va_ok s : Prop := {
  ok_shape : va_shape s;
  ok_count : free_extent_count s <= DRIVER_IMAGE_VA_MAX_ALLOCATIONS;
  ok_stats : free_stats_ok s;
  ok_init : initialized s = 1 }.

Lemma holds_frees s l : holds s l -> frees s = l.
Proof.
  intros (r & He & Hc & _). unfold frees. rewrite He, Hc. unfold alen. rewrite Nat2Z.id. by rewrite take_app_length.
Qed.
Lemma holds_set_allocations s l v : holds (s <| allocations := v |>) l <-> holds s l.
Proof. done. Qed.

(** ** Counting: never more extents than live records and one *)

Lemma nodup_count (ks : list Z) (l : list DriverVaRecord) :
  NoDup ks -> (forall i, i ∈ ks -> 0 <= i < alen l /\ live_record (aget l i) = true) -> alen ks <= acount live_record l.
Proof.
  revert l. induction ks as [|i ks IH]; intros l Hnd Hl; [rewrite alen_nil; apply acount_bounds|].
  apply NoDup_cons in Hnd as [Hi Hnd]. destruct (Hl i) as [Hr Hp]; [by left|].
  specialize (IH (aset l i no_va_record) Hnd). rewrite acount_aset, Hp in IH by done. rewrite alen_cons.
  enough (alen ks <= acount live_record l - 1 + (if live_record no_va_record then 1 else 0)) by (cbn in *; lia).
  apply IH. intros j Hj. destruct (Hl j) as [Hr' Hp']; [by right|]. rewrite alen_aset. split; [done|].
  rewrite aget_aset_ne; [done | lia | lia |]. by intros ->.
Qed.

(** Behind each extent but the last the gap is reserved, by different records. *)
Lemma gap_records s x l : va_shape s -> (exists p, frees s = p ++ x :: l) ->
  exists ks : list Z, alen ks = alen l /\ NoDup ks /\ forall i, i ∈ ks -> exists a, reserves s i a /\ xend x <= a.
Proof.
  intros Hok. revert x. induction l as [|y l IH]; intros x (p & Hf).
  { exists []. split_and!; [done | by constructor | by intros i Hi%elem_of_nil]. }
  destruct (IH y) as (ks & Hlen & Hnd & His). { exists (p ++ [x]). by rewrite <- app_assoc. }
  pose proof (va_sorted s Hok) as Hs. rewrite Hf in Hs. apply sorted_app in Hs as [Hp Hs].
  apply sorted_cons in Hs as (Hx & Hxo & Hs). apply sorted_cons in Hs as (Hy & Hyo & Hs).
  destruct Hxo as (Hx0 & Hxp & _ & Hxe), Hyo as (Hy0 & Hyp & _ & Hye).
  pose proof (xend_le x Hxp). pose proof (xend_le y Hyp). pose proof (next_from_ge _ _ _ Hp).
  destruct (va_total s Hok (xend x)) as [Hc|[i Hi]]; [lia| |].
  - rewrite Hf in Hc. apply covers_app in Hc as [Hc|Hc]; [apply (covers_next _ _ _ _ Hp) in Hc; lia|].
    apply covers_cons in Hc as [Hc|Hc]; [unfold in_extent in Hc; lia|]. apply covers_cons in Hc as [Hc|Hc]; [unfold in_extent in Hc; lia|].
    apply (covers_from _ _ _ _ Hs) in Hc. lia.
  - exists (i :: ks). rewrite !alen_cons. split_and!; [lia | | ].
    + apply NoDup_cons. split; [|done]. intros (a & (Hr & Hl & Ha) & Hae)%His. destruct Hi as (_ & _ & Hi).
      apply (va_apart s Hok i (x_base y)).
      * split; [done|]. split; [done|]. unfold in_extent in *. lia.
      * rewrite Hf. apply covers_app. right. apply covers_cons. right. apply covers_cons. left. unfold in_extent. lia.
    + intros j [->|Hj]%elem_of_cons; [exists (xend x); split; [done | lia]|]. destruct (His j Hj) as (a & Ha & Hae). exists a. split; [done | lia].
Qed.
Lemma extents_bounded s : va_shape s -> free_extent_count s <= acount live_record (allocations s) + 1.
Proof.
  intros Hok. destruct (holds_count _ _ (va_holds s Hok)) as [-> _]. pose proof (acount_bounds live_record (allocations s)).
  destruct (frees s) as [|x l] eqn:Hf; [rewrite alen_nil; lia|]. rewrite alen_cons.
  destruct (gap_records s x l Hok) as (ks & <- & Hnd & His); [by exists []|].
  enough (alen ks <= acount live_record (allocations s)) by lia. apply nodup_count; [done|].
  intros i (a & (Hi & Hl & _) & _)%His. by rewrite (arena_records s (va_arena s Hok)).
Qed.

(** ** Recomputing the counters *)

Lemma frees_at s i : holds s (frees s) -> 0 <= i < free_extent_count s -> aget (frees s) i = extent_at s i.
Proof.
  intros (r & He & Hc & _) Hi. unfold extent_at. rewrite He. unfold aget. rewrite app_nth1; [done|]. unfold alen in Hc. lia.
Qed.

Lemma refresh_spec s : holds s (frees s) -> (forall x, x ∈ frees s -> 0 < x_pages x) -> asum x_pages (frees s) < 2 ^ 64 ->
  exists st, refresh_free_stats_locked s = s <| va_stats := st |> /\ free_stats_ok (s <| va_stats := st |>) /\ vs_active st = vs_active (va_stats s).
Proof.
  intros Hh Hpos Hsum. unfold refresh_free_stats_locked. set (s0 := upd_vstats _ s).
  change (free_extent_count s0) with (free_extent_count s). destruct (holds_count _ _ Hh) as [Hc Hb].
  pose (I := fun i s1 => exists st, s1 = s <| va_stats := st |> /\ vs_active st = vs_active (va_stats s) /\ vs_free_extents st = free_extent_count s /\
    vs_free_pages st = asum x_pages (take (Z.to_nat i) (frees s)) /\
    (forall n, 0 < n -> n <= vs_largest_free_pages st <-> exists x, x ∈ take (Z.to_nat i) (frees s) /\ n <= x_pages x)).
  assert (I (free_extent_count s) (for_range 0 (free_extent_count s) (fun i => upd_vstats (fun st =>
    let pages := x_pages (extent_at s0 i) in
    let st := st <| vs_free_pages := u64 (vs_free_pages st + pages) |> in
    if vs_largest_free_pages st <? pages then st <| vs_largest_free_pages := pages |> else st)) s0)) as (st & He & Hact & Hext & Hp & Hl).
  - apply (for_range_inv I); [lia| |].
    + eexists. split_and!; [reflexivity | done | done | done |]. cbn. intros n Hn. split; [lia|]. by intros (x & Hx%elem_of_nil & _).
    + intros i s1 Hi (st & -> & Hact & Hext & Hp & Hl). pose proof (frees_at s i Hh Hi) as Hat. change (extent_at s0 i) with (extent_at s i). rewrite <- Hat.
      assert (0 <= i < alen (frees s)) as Hi' by lia. pose proof (lookup_aget _ _ Hi') as Hlk.
      assert (take (Z.to_nat (i + 1)) (frees s) = take (Z.to_nat i) (frees s) ++ [aget (frees s) i]) as Htk.
      { replace (Z.to_nat (i + 1)) with (S (Z.to_nat i)) by lia. by apply take_S_r. }
      set (x := aget (frees s) i) in *. assert (x ∈ frees s) as Hx by (by eapply list_elem_of_lookup_2).
      assert (asum x_pages (take (Z.to_nat i) (frees s)) + x_pages x <= asum x_pages (frees s) /\ 0 <= asum x_pages (take (Z.to_nat i) (frees s))) as [Hsx Hs0].
      { rewrite <- (take_drop_middle _ _ _ Hlk) at 2. rewrite asum_app. cbn [asum]. split.
        - enough (0 <= asum x_pages (drop (S (Z.to_nat i)) (frees s))) by lia. apply asum_nonneg. intros y Hy.
          enough (0 < x_pages y) by lia. apply Hpos. by apply (subseteq_drop (S (Z.to_nat i))).
        - apply asum_nonneg. intros y Hy. enough (0 < x_pages y) by lia. apply Hpos. by apply (subseteq_take (Z.to_nat i)). }
      pose proof (Hpos x Hx). eexists. split_and!; [reflexivity | | | |].
      * cbn. by destruct (_ <? _).
      * cbn. by destruct (_ <? _).
      * rewrite Htk, asum_app. cbn. rewrite Hp. destruct (_ <? _); cbn; unwrap; lia.
      * intros n Hn. rewrite Htk. setoid_rewrite elem_of_app. setoid_rewrite list_elem_of_singleton.
        cbn. destruct (vs_largest_free_pages st <? x_pages x) eqn:Hlt; bprop; cbn.
        -- split; [intros; exists x; tauto|]. intros (y & [Hy| ->] & Hny); [|done].
           enough (n <= vs_largest_free_pages st) by lia. apply Hl; [done|]. by exists y.
        -- rewrite Hl by done. split; [intros (y & ? & ?); exists y; tauto|]. intros (y & [Hy| ->] & Hny); [by exists y|]. apply Hl; [done | lia].
  - exists st. split_and!; [exact He | | done]. assert (take (Z.to_nat (free_extent_count s)) (frees s) = frees s) as Htk.
    { unfold frees. rewrite take_take. f_equal. lia. }
    rewrite Htk in Hp, Hl. by constructor.
Qed.

(** ** Replacing one record *)

(** The state after an operation: other extents, record [i] replaced, other counters. *)
Definition with_record s1 i (r : DriverVaRecord) (st : DriverVaStats) (he : Z) : DriverVaState :=
  s1 <| allocations := aset (allocations s1) i r |> <| va_stats := st |> <| highest_reserved_end := he |>.

Lemma extents_only_fields s s1 : extents_only s s1 ->
  allocations s1 = allocations s /\ arena_limit s1 = arena_limit s /\ arena_base s1 = arena_base s /\ va_guard_pages s1 = va_guard_pages s /\
  va_stats s1 = va_stats s /\ highest_reserved_end s1 = highest_reserved_end s /\ initialized s1 = initialized s.
Proof. by intros (l & c & ->). Qed.

Section Replace.
Context s s1 i (r : DriverVaRecord) (st : DriverVaStats) (he : Z) (l' : list DriverVaExtent).
Hypotheses (Hok : va_shape s) (Hext : extents_only s s1) (Hh : holds s1 l') (Hs : sorted_from (arena_limit s) (arena_base s) l').
Hypotheses (Hi : 0 <= i < DRIVER_IMAGE_VA_MAX_ALLOCATIONS) (Hslot : v_slot r = i).

Lemma replaced_at k : 0 <= k -> allocation_at (with_record s1 i r st he) k = if decide (i = k) then r else allocation_at s k.
Proof using Hok Hext Hi.
  intros Hk. destruct (extents_only_fields _ _ Hext) as (Ha & _). unfold allocation_at.
  change (allocations (with_record s1 i r st he)) with (aset (allocations s1) i r). rewrite Ha. apply aget_aset; [|done].
  by rewrite (arena_records s (va_arena s Hok)).
Qed.
Lemma replaced_reserves k a : reserves (with_record s1 i r st he) k a <->
  (k = i /\ live_record r = true /\ in_extent (reservation r) a) \/ (k <> i /\ reserves s k a).
Proof using Hok Hext Hi.
  unfold reserves. split.
  - intros (Hk & Hl & Ha). rewrite replaced_at in Hl, Ha by lia. case_decide; [left; split; [by symmetry | done] | right; split; [by intros -> | done]].
  - intros [(-> & Hl & Ha)|(Hne & Hk & Hl & Ha)]; (split; [done|]); rewrite replaced_at by lia; [by rewrite decide_True | by rewrite decide_False].
Qed.

Lemma replaced_shape :
  (live_record r = true -> record_ok s r) ->
  (forall a, arena_base s <= a < arena_limit s -> covers l' a \/ (live_record r = true /\ in_extent (reservation r) a) <-> covers (frees s) a \/ reserves s i a) ->
  (forall a, live_record r = true -> in_extent (reservation r) a -> covers (frees s) a \/ reserves s i a) ->
  (forall a, live_record r = true -> in_extent (reservation r) a -> ~ covers l' a) ->
  asum x_pages l' + held_pages r = asum x_pages (frees s) + held_pages (allocation_at s i) ->
  vs_active st = vs_active (va_stats s) + (if live_record r then 1 else 0) - (if live_record (allocation_at s i) then 1 else 0) ->
  va_shape (with_record s1 i r st he) /\ frees (with_record s1 i r st he) = l'.
Proof using All.
  intros Hr Hcov Hold Hnew Hsum Hact. set (s' := with_record s1 i r st he).
  assert (holds s' l') as Hh' by exact Hh. pose proof (holds_frees _ _ Hh') as Hf. split; [|done].
  pose proof (fun k a => replaced_reserves k a) as Hres. fold s' in Hres. pose proof replaced_at as Hat. fold s' in Hat.
  assert (arena_limit s' = arena_limit s /\ arena_base s' = arena_base s /\ va_guard_pages s' = va_guard_pages s /\ allocations s' = aset (allocations s) i r /\ va_stats s' = st) as (El & Eb & Eg & Ea & Est).
  { destruct (extents_only_fields _ _ Hext) as (E1 & E2 & E3 & E4 & _). rewrite <- E1, <- E2, <- E3, <- E4. done. }
  pose proof (arena_records s (va_arena s Hok)) as Hlen.
  assert (forall k a, k <> i -> reserves s k a -> arena_base s <= a < arena_limit s) as Hin.
  { intros k a _ (Hk & Hl & Ha). destruct (va_records s Hok k Hk Hl) as [(_ & _ & _ & Hle) Hb _ _]. unfold in_extent in Ha. cbn in Ha. lia. }
  assert (forall k, record_ok s k <-> record_ok s' k) as Hrec.
  { intros k. split; intros [R1 R2 R3 R4]; constructor; rewrite ?El, ?Eb, ?Eg in *; done. }
  constructor; rewrite ?Hf, ?El, ?Eb, ?Ea, ?Est.
  - destruct (va_arena s Hok) as [A1 A2 A3 A4 A5]. constructor; rewrite ?El, ?Eb, ?Eg, ?Ea, ?alen_aset; done.
  - done.
  - done.
  - intros k Hk. rewrite Hat by lia. case_decide; [congruence | by apply (va_slots s Hok)].
  - intros k Hk. rewrite Hat by lia. intros Hl. apply Hrec. case_decide; [by apply Hr | by apply (va_records s Hok)].
  - intros a Ha. destruct (va_total s Hok a Ha) as [Hc|[k Hk]].
    + destruct (proj2 (Hcov a Ha)) as [?|?]; [by left | by left |]. right. exists i. apply Hres. by left.
    + destruct (decide (k = i)) as [->|Hne]; [|right; exists k; apply Hres; by right].
      destruct (proj2 (Hcov a Ha)) as [?|?]; [by right | by left |]. right. exists i. apply Hres. by left.
  - intros k a [(_ & Hl & Ha)|(Hne & Hk)]%Hres; [by apply Hnew|]. intros Hc. pose proof (Hin k a Hne Hk) as Ha.
    destruct (proj1 (Hcov a Ha) (or_introl Hc)) as [Hc'|Hi']; [by apply (va_apart s Hok k a) | by apply Hne, (va_disjoint s Hok k i a)].
  - intros k m a [(-> & Hl & Ha)|(Hne & Hk)]%Hres [(-> & Hl' & Ha')|(Hne' & Hm)]%Hres; [done | | |by apply (va_disjoint s Hok k m a)].
    + destruct (Hold a Hl Ha) as [Hc|Hi']; [by destruct (va_apart s Hok m a) | by apply (va_disjoint s Hok i m a)].
    + destruct (Hold a Hl' Ha') as [Hc|Hi']; [by destruct (va_apart s Hok k a) | by apply (va_disjoint s Hok k i a)].
  - rewrite asum_aset by (by rewrite Hlen). fold (allocation_at s i). rewrite <- (va_pages s Hok). f_equal. lia.
  - rewrite acount_aset by (by rewrite Hlen). fold (allocation_at s i). rewrite Hact, (va_active s Hok). lia.
Qed.
End Replace.

(** ** Allocating *)

Lemma sorted_pages limit lo l x : sorted_from limit lo l -> x ∈ l -> 0 < x_pages x.
Proof.
  intros Hs Hx. apply list_elem_of_split in Hx as (p & q & ->). apply sorted_app in Hs as [_ Hs]. cbn in Hs. lia.
Qed.
Lemma record_in s (r : DriverVaRecord) : alen (allocations s) = DRIVER_IMAGE_VA_MAX_ALLOCATIONS -> r ∈ allocations s ->
  exists k, 0 <= k < DRIVER_IMAGE_VA_MAX_ALLOCATIONS /\ allocation_at s k = r.
Proof.
  intros Hlen (k & Hk)%list_elem_of_lookup. exists (Z.of_nat k). pose proof (lookup_lt_Some _ _ _ Hk). unfold alen in Hlen.
  split; [lia|]. unfold allocation_at. apply aget_lookup. by rewrite Nat2Z.id.
Qed.
Lemma frees_sum s : va_shape s -> 0 <= asum x_pages (frees s) < 2 ^ 32.
Proof.
  intros Hok. pose proof (va_pages s Hok). pose proof (arena_size s (va_arena s Hok)). unfold DRIVER_VA_PAGE_SIZE in *.
  assert (0 <= asum x_pages (frees s)).
  { apply asum_nonneg. intros x Hx. pose proof (sorted_pages _ _ _ _ (va_sorted s Hok) Hx). lia. }
  assert (0 <= asum held_pages (allocations s)); [|lia]. apply asum_nonneg. intros r (k & Hk & <-)%(record_in s); [|apply (va_arena s Hok)].
  unfold held_pages. destruct (live_record _) eqn:Hl; [|lia]. destruct (va_records s Hok k Hk Hl) as [(_ & Hp & _) _ _ _]. cbn in Hp. lia.
Qed.

(** Replacing a record and recomputing the counters. *)
Lemma refreshed s s1 i r st he l' : extents_only s s1 -> holds s1 l' -> sorted_from (arena_limit s) (arena_base s) l' -> asum x_pages l' < 2 ^ 64 ->
  exists st', refresh_free_stats_locked (with_record s1 i r st he) = with_record s1 i r st' he /\ free_stats_ok (with_record s1 i r st' he) /\ vs_active st' = vs_active st.
Proof.
  intros Hext Hh Hs Hsum. assert (holds (with_record s1 i r st he) l') as Hh' by exact Hh. pose proof (holds_frees _ _ Hh') as Hf.
  destruct (refresh_spec (with_record s1 i r st he)) as (st' & He & Hst & Ha).
  - by rewrite Hf.
  - rewrite Hf. intros x Hx. by eapply sorted_pages.
  - by rewrite Hf.
  - by exists st'.
Qed.

Lemma count_reservation_form reserved base s : exists st he,
  count_reservation reserved base s = s <| va_stats := st |> <| highest_reserved_end := he |> /\ vs_active st = u32 (vs_active (va_stats s) + 1).
Proof.
  destruct s as [? ? [] ? ? he0 ? ? ?]. unfold count_reservation. cbn. repeat case_match; cbn; (eexists _, _; split; [reflexivity | reflexivity]).
Qed.

(** What a successful allocation does: the reserved range, guards included, was
    free, is the range of the record of the handle, and was the first that fits. *)
Record allocated s s' (owner : DriverIdentity) (pages : Z) (h : DriverIdentity) (base : Z) : Prop := {
  al_ok : va_ok s';
  al_base : base mod DRIVER_VA_PAGE_SIZE = 0;
  al_free : forall a, base - va_guard_pages s * DRIVER_VA_PAGE_SIZE <= a < base + (pages + va_guard_pages s) * DRIVER_VA_PAGE_SIZE -> covers (frees s) a;
  al_frees : forall a, covers (frees s') a <->
    covers (frees s) a /\ ~ (base - va_guard_pages s * DRIVER_VA_PAGE_SIZE <= a < base + (pages + va_guard_pages s) * DRIVER_VA_PAGE_SIZE);
  al_resolves : va_resolve owner h s' = Some (id_slot h) /\ va_resolve owner h s = None;
  al_record : forall a, reserves s' (id_slot h) a <->
    base - va_guard_pages s * DRIVER_VA_PAGE_SIZE <= a < base + (pages + va_guard_pages s) * DRIVER_VA_PAGE_SIZE;
  al_usable : v_quarantined (allocation_at s' (id_slot h)) = 0 /\ v_usable_base (allocation_at s' (id_slot h)) = base /\ v_usable_pages (allocation_at s' (id_slot h)) = pages;
  al_others : forall k, 0 <= k -> k <> id_slot h -> allocation_at s' k = allocation_at s k;
  al_first : forall x, x ∈ frees s -> x_base x < base - va_guard_pages s * DRIVER_VA_PAGE_SIZE -> x_pages x < pages + va_guard_pages s * 2;
  al_arena : arena_base s' = arena_base s /\ arena_limit s' = arena_limit s /\ va_guard_pages s' = va_guard_pages s }.

Lemma find_va_extent_spec reserved s : holds s (frees s) ->
  match find_va_extent reserved s with
  | None => forall x, x ∈ frees s -> x_pages x < reserved
  | Some j => exists p x q, frees s = p ++ x :: q /\ j = alen p /\ reserved <= x_pages x /\ forall y, y ∈ p -> x_pages y < reserved
  end.
Proof.
  intros Hh. destruct (holds_count _ _ Hh) as [Hc _]. destruct (find_va_extent reserved s) as [j|] eqn:Hf; unfold find_va_extent in Hf.
  - apply find_first_Some in Hf as (Hj & Hp & Hlt). bprop. assert (0 <= j < alen (frees s)) as Hj' by lia.
    pose proof (take_drop_middle _ _ _ (lookup_aget _ _ Hj')) as Hsplit. eexists _, _, _. split_and!.
    + by symmetry.
    + unfold alen in *. rewrite length_take. lia.
    + rewrite frees_at by (done || lia). done.
    + intros y (k & Hk & Hkj)%elem_of_take. specialize (Hlt (Z.of_nat k) ltac:(lia)). bprop.
      rewrite <- frees_at in Hlt by (done || lia). rewrite (aget_lookup _ _ y) in Hlt; [lia|]. by rewrite Nat2Z.id.
  - intros x (k & Hk)%list_elem_of_lookup. pose proof (lookup_lt_Some _ _ _ Hk). unfold alen in Hc.
    apply find_first_None with (j := Z.of_nat k) in Hf; [|lia]. bprop. rewrite <- frees_at in Hf by (done || lia).
    rewrite (aget_lookup _ _ x) in Hf; [lia|]. by rewrite Nat2Z.id.
Qed.

Lemma va_next_generation_range g : nonzero (va_next_generation g) = true.
Proof. unfold va_next_generation. by destruct (nonzero (u32 (g + 1))) eqn:Hz. Qed.

Definition new_record s i (owner : DriverIdentity) (pages base : Z) : DriverVaRecord :=
  (allocation_at s i) <| v_generation := va_next_generation (v_generation (allocation_at s i)) |> <| v_active := 1 |> <| v_quarantined := 0 |>
    <| v_guard_pages := u16 (va_guard_pages s) |> <| v_owner := owner |> <| v_reserved_base := base |>
    <| v_usable_base := base + va_guard_pages s * DRIVER_VA_PAGE_SIZE |>
    <| v_reserved_pages := pages + va_guard_pages s * 2 |> <| v_usable_pages := pages |>.

(** The state that the steps after the carving build. *)
Lemma reserve_form s s1 i owner pages base :
  arena_ok s -> extents_only s s1 -> 0 <= i < DRIVER_IMAGE_VA_MAX_ALLOCATIONS -> 0 < pages -> pages + va_guard_pages s * 2 < 2 ^ 32 ->
  0 <= base -> base + va_guard_pages s * DRIVER_VA_PAGE_SIZE < 2 ^ 64 ->
  let reserved := pages + va_guard_pages s * 2 in
  allocation_at (reserve_record i owner pages reserved base s1) i = new_record s i owner pages base /\
  exists st he, count_reservation reserved base (reserve_record i owner pages reserved base s1) = with_record s1 i (new_record s i owner pages base) st he /\
    vs_active st = u32 (vs_active (va_stats s) + 1).
Proof.
  intros Hok Hext Hi Hp Hr Hb Hu. destruct (extents_only_fields _ _ Hext) as (Ea & _ & _ & Eg & Est & _).
  pose proof (arena_guards s Hok). assert (reserve_record i owner pages (pages + va_guard_pages s * 2) base s1 = s1 <| allocations := aset (allocations s1) i (new_record s i owner pages base) |>) as Hres.
  { unfold reserve_record, upd_allocation. rewrite Eg. replace (allocation_at s1 i) with (allocation_at s i) by (unfold allocation_at; by rewrite Ea). unfold new_record, DRIVER_VA_PAGE_SIZE in *. by unwrap. }
  cbv zeta. rewrite Hres. split.
  - unfold allocation_at. cbn [allocations set_field]. change (aget (aset (allocations s1) i (new_record s i owner pages base)) i = new_record s i owner pages base).
    apply aget_aset_eq. by rewrite Ea, (arena_records s Hok).
  - edestruct count_reservation_form as (st & he & Hc & Hact). rewrite Hc. exists st, he. split; [done|]. rewrite Hact. cbn. by rewrite Est.
Qed.

Lemma dead_record_room s i : arena_ok s -> 0 <= i < DRIVER_IMAGE_VA_MAX_ALLOCATIONS -> live_record (allocation_at s i) = false ->
  acount live_record (allocations s) < DRIVER_IMAGE_VA_MAX_ALLOCATIONS.
Proof.
  intros Har Hi Hd. pose proof (acount_bounds live_record (allocations s)) as Hb. pose proof (arena_records s Har) as Hlen.
  destruct (decide (acount live_record (allocations s) = alen (allocations s))) as [Hf|]; [|lia].
  rewrite acount_full in Hf. rewrite Hlen in Hf. specialize (Hf i Hi). unfold allocation_at in Hd. congruence.
Qed.

(** An allocation that finds record [i] unused and extent [x] large enough. *)
Section Allocation.
Context s i (owner : DriverIdentity) (pages : Z) (p q : list DriverVaExtent) (x : DriverVaExtent).
Hypotheses (Hva : va_ok s) (Hp : 0 < pages) (Hr : pages + va_guard_pages s * 2 < 2 ^ 32) (Hi : 0 <= i < DRIVER_IMAGE_VA_MAX_ALLOCATIONS).
Hypotheses (Hdl : live_record (allocation_at s i) = false) (Hf : frees s = p ++ x :: q) (Hfit : pages + va_guard_pages s * 2 <= x_pages x).
Local Abbreviation reserved := (pages + va_guard_pages s * 2).
Local Abbreviation r := (new_record s i owner pages (x_base x)).
Local Abbreviation s1 := (carve_extent (alen p) reserved s).

Lemma alloc_extent : extent_ok (arena_limit s) x /\ arena_base s <= x_base x.
Proof using Hva Hf.
  pose proof (va_sorted s (ok_shape s Hva)) as Hs. rewrite Hf in Hs. apply sorted_app in Hs as [Hsp Hsx]. apply sorted_cons in Hsx as (Hn & Hx & _).
  apply next_from_ge in Hsp. split; [done | lia].
Qed.
Lemma alloc_range a : in_extent (reservation r) a <-> x_base x <= a < x_base x + reserved * DRIVER_VA_PAGE_SIZE.
Proof using. done. Qed.
Lemma alloc_covered a : in_extent (reservation r) a -> covers (frees s) a.
Proof using Hf Hfit.
  intros Ha. pose proof (proj1 (alloc_range a) Ha) as Ha'. rewrite Hf. apply covers_app. right. apply covers_cons. left. unfold in_extent, xend, DRIVER_VA_PAGE_SIZE in *. lia.
Qed.
Lemma alloc_record_ok : record_ok s r.
Proof using Hva Hp Hr Hf Hfit.
  destruct alloc_extent as [(Hx1 & Hx2 & Hx3 & Hx4) Hlo]. pose proof (arena_guards s (va_arena s (ok_shape s Hva))). constructor; [|done|done|done].
  unfold extent_ok, xend in *. cbn. unfold DRIVER_VA_PAGE_SIZE in *. split_and!; (lia || done).
Qed.
Lemma alloc_first y : (forall z, z ∈ p -> x_pages z < reserved) -> y ∈ frees s -> x_base y < x_base x -> x_pages y < reserved.
Proof using Hva Hf.
  intros Hfirst Hy Hlt. rewrite Hf in Hy. apply elem_of_app in Hy as [Hy|Hy]; [by apply Hfirst|]. exfalso. apply elem_of_cons in Hy as [->|Hy]; [lia|].
  pose proof (va_sorted s (ok_shape s Hva)) as Hs. rewrite Hf in Hs. apply sorted_app in Hs as [_ Hs]. apply sorted_cons in Hs as (_ & (_ & Hx & _) & Hs).
  assert (covers q (x_base y)) as Hc%(covers_from _ _ _ _ Hs).
  { apply Exists_exists. exists y. split; [done|]. pose proof (sorted_pages _ _ _ _ Hs Hy). unfold in_extent, xend, DRIVER_VA_PAGE_SIZE. lia. }
  pose proof (xend_le x Hx). lia.
Qed.
(** The handle made for the new record. *)
Lemma alloc_resolves s' : allocation_at s' i = r ->
  let h := {| id_slot := i; id_generation := v_generation r |} in va_resolve owner h s' = Some i /\ va_resolve owner h s = None.
Proof using Hi Hdl.
  intros Hati. unfold va_resolve, driver_image_va_handle_is_valid. cbn [id_slot id_generation]. rewrite Hati.
  replace (i <? DRIVER_IMAGE_VA_MAX_ALLOCATIONS) with true by (symmetry; apply Z.ltb_lt; lia).
  replace (nonzero (v_generation r)) with true by (symmetry; apply va_next_generation_range). cbn [andb negb].
  unfold live_record in Hdl. rewrite Hdl. cbn [negb orb]. split; [|done]. rewrite Z.eqb_refl. replace (v_owner r) with owner by done.
  unfold driver_identity_equal. rewrite !Z.eqb_refl. done.
Qed.

Lemma alloc_shape st he l' : holds s1 l' -> sorted_from (arena_limit s) (arena_base s) l' -> extents_only s s1 ->
  (forall a, covers l' a <-> covers (frees s) a /\ ~ (x_base x <= a < x_base x + reserved * DRIVER_VA_PAGE_SIZE)) -> asum x_pages l' = asum x_pages (frees s) - reserved ->
  vs_active st = vs_active (va_stats s) + 1 -> va_shape (with_record s1 i r st he) /\ frees (with_record s1 i r st he) = l'.
Proof using Hva Hp Hr Hi Hdl Hf Hfit.
  intros Hh1 Hs1 Hext Hc1 Ha1 Hact. pose proof (ok_shape s Hva) as Hok. apply (replaced_shape s s1 i r st he l'); try done.
  - by apply (va_slots s Hok).
  - intros _. apply alloc_record_ok.
  - intros a Ha. rewrite Hc1, <- alloc_range. split; [intros [[? _]|[_ ?]]; left; [done | by apply alloc_covered]|].
    intros [Hc|(_ & Hl & _)]; [|congruence]. destruct (decide (x_base x <= a < x_base x + reserved * DRIVER_VA_PAGE_SIZE)); [right; done | left; done].
  - intros a _ Ha. left. by apply alloc_covered.
  - intros a _ Ha Hc%Hc1. by destruct Hc.
  - unfold held_pages. rewrite Hdl, Ha1. cbn. lia.
  - rewrite Hact, Hdl. cbn. lia.
Qed.

Lemma alloc_allocated st he l' : holds s1 l' -> sorted_from (arena_limit s) (arena_base s) l' -> extents_only s s1 ->
  (forall a, covers l' a <-> covers (frees s) a /\ ~ (x_base x <= a < x_base x + reserved * DRIVER_VA_PAGE_SIZE)) -> asum x_pages l' = asum x_pages (frees s) - reserved ->
  alen l' <= alen (frees s) -> vs_active st = vs_active (va_stats s) + 1 -> free_stats_ok (with_record s1 i r st he) -> (forall z, z ∈ p -> x_pages z < reserved) ->
  allocated s (with_record s1 i r st he) owner pages {| id_slot := v_slot r; id_generation := v_generation r |} (v_usable_base r).
Proof using Hva Hp Hr Hi Hdl Hf Hfit.
  intros Hh1 Hs1 Hext Hc1 Ha1 Hl1 Hact Hfs Hfirst. pose proof (ok_shape s Hva) as Hok. destruct (alloc_shape st he l') as [Hshape Hfr]; try done.
  pose proof (fun k Hk => replaced_at s s1 i r st he Hok Hext Hi k Hk) as Hat. set (s' := with_record s1 i r st he) in *.
  destruct (extents_only_fields _ _ Hext) as (Ea & El & Eb & Eg & Est & _ & Ei). replace (v_slot r) with i by (symmetry; by apply (va_slots s Hok)).
  replace (v_usable_base r) with (x_base x + va_guard_pages s * DRIVER_VA_PAGE_SIZE) by done.
  assert (forall a, in_extent (reservation r) a <->
    x_base x + va_guard_pages s * DRIVER_VA_PAGE_SIZE - va_guard_pages s * DRIVER_VA_PAGE_SIZE <= a
      < x_base x + va_guard_pages s * DRIVER_VA_PAGE_SIZE + (pages + va_guard_pages s) * DRIVER_VA_PAGE_SIZE) as Hrange.
  { intros a. rewrite alloc_range. unfold DRIVER_VA_PAGE_SIZE. lia. }
  assert (allocation_at s' i = r) as Hati by (rewrite Hat, decide_True by (done || lia); done).
  constructor; cbn [id_slot].
  - split; [done | | done | rewrite <- (ok_init s Hva); exact Ei]. change (free_extent_count s') with (free_extent_count s1).
    destruct (holds_count _ _ Hh1) as [-> _]. destruct (holds_count _ _ (va_holds s Hok)) as [Hc _]. pose proof (ok_count s Hva). lia.
  - destruct alloc_extent as [(_ & _ & Hx3 & _) _]. unfold DRIVER_VA_PAGE_SIZE in *. by rewrite Z.mod_add by lia.
  - intros a Ha%Hrange. by apply alloc_covered.
  - intros a. rewrite Hfr, Hc1, <- Hrange, alloc_range. done.
  - by apply alloc_resolves.
  - intros a. rewrite <- Hrange. unfold reserves. rewrite Hati. split; [tauto|]. intros Ha. split; [done|]. split; [done | exact Ha].
  - by rewrite Hati.
  - intros k Hk Hne. rewrite Hat, decide_False by (done || congruence). done.
  - intros y Hy Hlt. apply alloc_first; [done | done | lia].
  - split_and!; [exact Eb | exact El | exact Eg].
Qed.
End Allocation.

Lemma allocate_body_ok s owner pages injected : va_ok s -> 0 < pages -> pages + va_guard_pages s * 2 < 2 ^ 32 ->
  let '((res, h, base), s') := allocate_body owner pages (pages + va_guard_pages s * 2) injected s in
  (res = DRIVER_LOAD_OK /\ injected = false /\ acount live_record (allocations s) < DRIVER_IMAGE_VA_MAX_ALLOCATIONS /\
   (exists x, x ∈ frees s /\ pages + va_guard_pages s * 2 <= x_pages x) /\ allocated s s' owner pages h base) \/
  (res = DRIVER_LOAD_OUT_OF_MEMORY /\ h = driver_image_va_invalid /\ base = 0 /\
   s' = upd_vstats (fun st => st <| vs_exhaustion_failures := u64 (vs_exhaustion_failures st + 1) |>) s /\
   (injected = true \/ acount live_record (allocations s) = DRIVER_IMAGE_VA_MAX_ALLOCATIONS \/ forall x, x ∈ frees s -> x_pages x < pages + va_guard_pages s * 2)).
Proof.
  intros Hva Hp Hr. pose proof (ok_shape s Hva) as Hok. unfold allocate_body. pose proof (va_arena s Hok) as Har. pose proof (arena_guards s Har) as Hg. pose proof (va_holds s Hok) as Hh.
  destruct injected; [right; split_and!; by eauto|]. destruct (find_va_record s) as [i|] eqn:Hi.
  2: { right. split_and!; try done. right. left. rewrite <- (arena_records s Har). apply acount_full. rewrite (arena_records s Har). intros k Hk.
       apply find_first_None with (j := k) in Hi; [|exact Hk]. by apply negb_false_iff in Hi. }
  apply find_first_Some in Hi as (Hi & Hdl & _). change (0 <= i < DRIVER_IMAGE_VA_MAX_ALLOCATIONS) in Hi. apply negb_true_iff in Hdl. change (live_record (allocation_at s i) = false) in Hdl.
  set (reserved := pages + va_guard_pages s * 2) in *. pose proof (find_va_extent_spec reserved s Hh) as Hfit. destruct (find_va_extent reserved s) as [j|]; [|right; split_and!; by eauto].
  destruct Hfit as (p & x & q & Hf & -> & Hfit & Hfirst). destruct (alloc_extent s p q x Hva Hf) as [(Hx1 & Hx2 & Hx3 & Hx4) Hlo]. destruct (arena_range s Har) as [Hrng Hlim].
  pose proof (va_sorted s Hok) as Hs. destruct (carve_spec s p x q reserved) as (l' & Hh1 & Hs1 & Hc1 & Ha1 & Hl1 & Hext); [by rewrite <- Hf | by rewrite <- Hf | lia | done |].
  rewrite <- Hf in Hc1, Ha1, Hl1. rewrite (holds_at s p x q) by (by rewrite <- Hf). cbv zeta.
  destruct (reserve_form s (carve_extent (alen p) reserved s) i owner pages (x_base x) Har Hext Hi Hp Hr Hx1) as (Hat & st & he & Hcr & Hact); [unfold xend, DRIVER_VA_PAGE_SIZE in *; lia|].
  fold reserved in Hat, Hcr. rewrite Hat, Hcr. pose proof (frees_sum s Hok) as Hsum.
  destruct (refreshed s _ i (new_record s i owner pages (x_base x)) st he l' Hext Hh1 Hs1 ltac:(lia)) as (st' & -> & Hfs & Hact').
  left. split_and!; [done | done | by apply dead_record_room with (i := i) | exists x; rewrite Hf; split; [set_solver | done] |].
  apply (alloc_allocated s i owner pages p q x) with l'; try done. rewrite Hact', Hact, (va_active s Hok).
  pose proof (acount_bounds live_record (allocations s)) as Hac. rewrite (arena_records s Har) in Hac. max_extents. by unwrap.
Qed.

(** ** Releasing and quarantining *)

(** Counters that the invariant does not mention may change. *)
Lemma va_ok_stats f s : va_ok s -> vs_active (f (va_stats s)) = vs_active (va_stats s) -> vs_free_pages (f (va_stats s)) = vs_free_pages (va_stats s) ->
  vs_free_extents (f (va_stats s)) = vs_free_extents (va_stats s) -> vs_largest_free_pages (f (va_stats s)) = vs_largest_free_pages (va_stats s) ->
  va_ok (upd_vstats f s).
Proof.
  intros [[V1 V2 V3 V4 V5 V6 V7 V8 V9 V10] Hc [F1 F2 F3] Hi] E1 E2 E3 E4. constructor; [|done| |done].
  - destruct V1 as [A1 A2 A3 A4 A5]. constructor; try done.
    + intros i Hi' Hl. destruct (V5 i Hi' Hl) as [R1 R2 R3 R4]. by constructor.
    + cbn. by rewrite E1.
  - constructor; cbn.
    + by rewrite E2.
    + by rewrite E3.
    + intros n. rewrite E4. apply F3.
Qed.

Record released s s' i (owner handle : DriverIdentity) : Prop := {
  rl_ok : va_ok s';
  rl_frees : forall a, covers (frees s') a <-> covers (frees s) a \/ reserves s i a;
  rl_gone : live_record (allocation_at s' i) = false;
  rl_stale : forall o, va_resolve o handle s' = None;
  rl_others : forall k, 0 <= k -> k <> i -> allocation_at s' k = allocation_at s k;
  rl_arena : arena_base s' = arena_base s /\ arena_limit s' = arena_limit s /\ va_guard_pages s' = va_guard_pages s }.

Lemma va_resolve_Some owner handle s i : va_resolve owner handle s = Some i ->
  i = id_slot handle /\ i < DRIVER_IMAGE_VA_MAX_ALLOCATIONS /\ live_record (allocation_at s i) = true /\
  v_generation (allocation_at s i) = id_generation handle /\ v_owner (allocation_at s i) = owner.
Proof.
  unfold va_resolve, driver_image_va_handle_is_valid. destruct (negb (_ && _)) eqn:H1; [done|]. destruct (negb _ || _ || _) eqn:H2; [done|]. intros [= <-].
  unfold driver_identity_equal in H2. apply negb_false_iff, andb_true_iff in H1 as [H1 _]. apply Z.ltb_lt in H1.
  apply orb_false_iff in H2 as [H2 H3]. apply orb_false_iff in H2 as [H2 H4]. rewrite negb_false_iff in H2, H3, H4. apply Z.eqb_eq in H4.
  apply andb_true_iff in H3 as [H3%Z.eqb_eq H5%Z.eqb_eq]. split_and!; try done. destruct (v_owner _), owner; cbn in *. congruence.
Qed.

(** The states of a release after the extent is back. *)
Definition freed_record s i : DriverVaRecord :=
  (allocation_at s i) <| v_active := 0 |> <| v_owner := driver_identity_invalid |> <| v_reserved_base := 0 |> <| v_usable_base := 0 |>
    <| v_reserved_pages := 0 |> <| v_usable_pages := 0 |>.

Lemma release_ok s owner handle i : va_ok s -> 0 <= id_slot handle -> va_resolve owner handle s = Some i ->
  nonzero (v_quarantined (allocation_at s i)) = false ->
  exists s', va_release_body owner handle s = (DRIVER_LOAD_OK, s') /\ released s s' i owner handle.
Proof.
  intros [Hok Hcnt Hst Hinit] Hpos Hres Hq. destruct (va_resolve_Some _ _ _ _ Hres) as (-> & Hlt & Hl & Hg & Ho). set (i := id_slot handle) in *.
  assert (0 <= i < DRIVER_IMAGE_VA_MAX_ALLOCATIONS) as Hi by lia. pose proof (va_records s Hok i Hi Hl) as Hrec. pose proof (va_arena s Hok) as Har.
  pose proof (va_holds s Hok) as Hh. destruct (holds_count _ _ Hh) as [Hc _]. destruct (arena_range s Har) as [Hrng Hlim].
  set (x := reservation (allocation_at s i)).
  assert (forall a, in_extent x a <-> reserves s i a) as Hin by (intros a; unfold reserves; tauto).
  destruct (insert_extent_spec s (frees s) x Hh (va_sorted s Hok)) as (s1 & l' & Hins & Hh1 & Hs1 & Hc1 & Ha1 & Hl1 & Hext).
  { max_extents. lia. } { apply Hrec. } { apply Hrec. } { done. } { apply Har. } { intros a Ha%Hin. by apply (va_apart s Hok i). }
  unfold va_release_body. rewrite Hres. fold i. rewrite Hq. change (insert_extent_locked (v_reserved_base (allocation_at s i)) (v_reserved_pages (allocation_at s i)) s) with (insert_extent_locked (x_base x) (x_pages x) s).
  rewrite Hins. cbn [negb]. destruct (extents_only_fields _ _ Hext) as (Ea & El & Eb & Eg & Est & Ehe & Ei).
  set (f := fun st : DriverVaStats => set_field vs_releases _ _).
  assert (upd_vstats f (free_record i s1) = with_record s1 i (freed_record s i) (f (va_stats s)) (highest_reserved_end s)) as ->.
  { unfold free_record, upd_allocation, upd_vstats, with_record, freed_record. rewrite <- Est, <- Ehe. unfold allocation_at. rewrite Ea. destruct s1; reflexivity. }
  assert (held_pages (allocation_at s i) = x_pages x) as Hheld by (unfold held_pages; by rewrite Hl).
  pose proof (acount_bounds live_record (allocations s)) as Hac. pose proof (acount_pos live_record (allocations s) i ltac:(rewrite (arena_records s Har); lia) Hl) as Hap.
  rewrite (arena_records s Har) in Hac. pose proof (va_active s Hok) as Hact. pose proof (frees_sum s Hok) as Hsum.
  assert (x_pages x < 2 ^ 32) as Hxp by (destruct Hrec as [(_ & Hp & _) _ _ _]; fold x in Hp; lia).
  destruct (refreshed s s1 i (freed_record s i) (f (va_stats s)) (highest_reserved_end s) l' Hext Hh1 Hs1 ltac:(lia)) as (st' & Href & Hfs & Hact').
  assert (vs_active st' = vs_active (va_stats s) - 1) as Hact1.
  { rewrite Hact'. unfold f. cbn. rewrite Hact. unfold nonzero. destruct (acount live_record (allocations s) =? 0) eqn:Hz; bprop; [lia|]. cbn. max_extents. unwrap. lia. }
  destruct (replaced_shape s s1 i (freed_record s i) st' (highest_reserved_end s) l' Hok Hext Hh1 Hs1 Hi) as [Hshape Hfr]; try done.
  { by apply (va_slots s Hok). }
  { intros a Ha. rewrite Hc1, Hin. cbn. intuition discriminate. }
  { rewrite Hheld, Ha1. cbn. lia. }
  { rewrite Hl, Hact1. cbn. lia. }
  set (s' := with_record s1 i (freed_record s i) st' (highest_reserved_end s)) in *.
  pose proof (fun k Hk => replaced_at s s1 i (freed_record s i) st' (highest_reserved_end s) Hok Hext Hi k Hk) as Hat'. fold s' in Hat'.
  assert (allocation_at s' i = freed_record s i) as Hati by (rewrite Hat', decide_True by (done || lia); done).
  eexists. split; [rewrite Href; reflexivity|]. fold s'. constructor.
  - constructor; [done | | done | by rewrite <- Hinit, <- Ei]. pose proof (extents_bounded s' Hshape) as Hb. rewrite <- (va_active s' Hshape) in Hb.
    change (vs_active (va_stats s')) with (vs_active st') in Hb. max_extents. lia.
  - intros a. by rewrite Hfr, Hc1, Hin.
  - by rewrite Hati.
  - intros o. unfold va_resolve. fold i. rewrite Hati. cbn. by destruct (negb _).
  - intros k Hk Hne. rewrite Hat', decide_False by (done || congruence). done.
  - rewrite <- El, <- Eb, <- Eg. done.
Qed.

Lemma quarantine_ok s owner handle : va_ok s -> 0 <= id_slot handle -> va_ok (quarantine_body owner handle s).2.
Proof.
  intros Hva Hpos. unfold quarantine_body. destruct (va_resolve owner handle s) as [i|] eqn:Hres; [|done]. cbn [snd].
  destruct (nonzero (v_quarantined _)); [done|]. apply va_ok_stats; [|done..]. destruct Hva as [Hok Hcnt Hst Hinit].
  destruct (va_resolve_Some _ _ _ _ Hres) as (-> & Hlt & Hl & _). set (i := id_slot handle) in *. set (r := (allocation_at s i) <| v_quarantined := 1 |>).
  assert (0 <= i < DRIVER_IMAGE_VA_MAX_ALLOCATIONS) as Hi by lia. pose proof (va_records s Hok i Hi Hl) as Hrec.
  assert (upd_allocation i (fun r => r <| v_quarantined := 1 |>) s = with_record s i r (va_stats s) (highest_reserved_end s)) as -> by (by destruct s).
  assert (forall a, in_extent (reservation r) a <-> reserves s i a) as Hin by (intros a; unfold reserves; change (reservation r) with (reservation (allocation_at s i)); tauto).
  destruct (replaced_shape s s i r (va_stats s) (highest_reserved_end s) (frees s) Hok (extents_only_refl s) (va_holds s Hok) (va_sorted s Hok) Hi) as [Hshape Hfr].
  - by apply (va_slots s Hok).
  - intros _. destruct Hrec as [R1 R2 R3 R4]. by constructor.
  - intros a _. rewrite Hin. change (live_record r) with (live_record (allocation_at s i)). rewrite Hl. tauto.
  - intros a _ Ha. right. by apply Hin.
  - intros a _ Ha%Hin. by apply (va_apart s Hok i).
  - done.
  - change (live_record r) with (live_record (allocation_at s i)). lia.
  - constructor; [done | done | | done]. destruct Hst as [F1 F2 F3]. by constructor.
Qed.

Lemma release_body_cases s owner handle : va_ok s -> 0 <= id_slot handle ->
  va_ok (va_release_body owner handle s).2 /\ ((va_release_body owner handle s).1 <> DRIVER_LOAD_OK ->
    frees (va_release_body owner handle s).2 = frees s /\ allocations (va_release_body owner handle s).2 = allocations s).
Proof.
  intros Hok Hpos. destruct (va_resolve owner handle s) as [i|] eqn:Hres.
  - destruct (nonzero (v_quarantined (allocation_at s i))) eqn:Hq.
    + unfold va_release_body. rewrite Hres, Hq. done.
    + destruct (release_ok s owner handle i Hok Hpos Hres Hq) as (s' & -> & Hrl). split; [apply Hrl | done].
  - unfold va_release_body. rewrite Hres. cbn [fst snd]. destruct (_ && _); (split; [by apply va_ok_stats | done]).
Qed.

(** ** Initialising *)

Lemma for_range_extents_tail s : alen (free_extents s) = DRIVER_IMAGE_VA_MAX_EXTENTS ->
  exists r, for_range 1 DRIVER_IMAGE_VA_MAX_EXTENTS (fun i => upd_extent i (fun _ => {| x_base := 0; x_pages := 0 |})) s
  = s <| free_extents := extent_at s 0 :: r |> /\ alen r = DRIVER_IMAGE_VA_MAX_ALLOCATIONS.
Proof.
  intros Hlen. pose (I := fun (i : Z) s1 => exists l, s1 = s <| free_extents := l |> /\ alen l = DRIVER_IMAGE_VA_MAX_EXTENTS /\ aget l 0 = extent_at s 0).
  assert (I DRIVER_IMAGE_VA_MAX_EXTENTS (for_range 1 DRIVER_IMAGE_VA_MAX_EXTENTS (fun i => upd_extent i (fun _ => {| x_base := 0; x_pages := 0 |})) s)) as (l & -> & Hl & H0).
  - apply (for_range_inv I); [max_extents; lia | exists (free_extents s); split_and!; [by destruct s | done | done] |].
    intros i s1 Hi (l & -> & Hl & H0). exists (aset l i {| x_base := 0; x_pages := 0 |}). split_and!; [done | by rewrite alen_aset |].
    rewrite aget_aset_ne by lia. done.
  - destruct l as [|x l]; [rewrite alen_nil in Hl; max_extents; lia|]. exists l. rewrite alen_cons in Hl. split; [|max_extents; lia].
    change (aget (x :: l) 0) with x in H0. by rewrite H0.
Qed.

Definition blank_record i (g : Z) : DriverVaRecord := no_va_record <| v_slot := i |> <| v_generation := g |>.
Lemma for_range_records s : alen (allocations s) = DRIVER_IMAGE_VA_MAX_ALLOCATIONS ->
  exists l, for_range 0 DRIVER_IMAGE_VA_MAX_ALLOCATIONS (fun i => upd_allocation i (fun r => blank_record i (v_generation r))) s = s <| allocations := l |> /\
    alen l = DRIVER_IMAGE_VA_MAX_ALLOCATIONS /\ forall i, 0 <= i < DRIVER_IMAGE_VA_MAX_ALLOCATIONS -> aget l i = blank_record i (v_generation (allocation_at s i)).
Proof.
  intros Hlen. pose (I := fun (i : Z) s1 => exists l, s1 = s <| allocations := l |> /\ alen l = DRIVER_IMAGE_VA_MAX_ALLOCATIONS /\
    (forall k, 0 <= k < i -> aget l k = blank_record k (v_generation (allocation_at s k))) /\ forall k, i <= k -> aget l k = allocation_at s k).
  assert (I DRIVER_IMAGE_VA_MAX_ALLOCATIONS (for_range 0 DRIVER_IMAGE_VA_MAX_ALLOCATIONS (fun i => upd_allocation i (fun r => blank_record i (v_generation r))) s)) as (l & -> & Hl & Hlt & _); [|by exists l].
  apply (for_range_inv I); [max_extents; lia | exists (allocations s); split_and!; [by destruct s | done | lia | done] |].
  intros i s1 Hi (l & -> & Hl & Hlt & Hge). exists (aset l i (blank_record i (v_generation (allocation_at s i)))). split_and!.
  - unfold upd_allocation. change (allocation_at (s <| allocations := l |>) i) with (aget l i). by rewrite Hge by lia.
  - by rewrite alen_aset.
  - intros k Hk. rewrite aget_aset by lia. case_decide; [by subst | apply Hlt; lia].
  - intros k Hk. rewrite aget_aset_ne by lia. apply Hge. lia.
Qed.

Section Initialise.
Context {E : Type} `{KernelEnv E}.

(** The arena the loader works on, before anything is reserved. *)
Lemma initial_shape s (base limit guard pages : Z) (r : list DriverVaExtent) :
  free_extents s = {| x_base := base; x_pages := pages |} :: r -> alen r = DRIVER_IMAGE_VA_MAX_ALLOCATIONS -> free_extent_count s = 1 ->
  arena_base s = base -> arena_limit s = limit -> va_guard_pages s = guard -> 0 <= base < limit -> limit < 2 ^ 64 -> base mod DRIVER_VA_PAGE_SIZE = 0 ->
  pages * DRIVER_VA_PAGE_SIZE = limit - base -> 0 < pages < 2 ^ 32 -> 0 <= guard <= 0x7FFF -> alen (allocations s) = DRIVER_IMAGE_VA_MAX_ALLOCATIONS ->
  (forall i, 0 <= i < DRIVER_IMAGE_VA_MAX_ALLOCATIONS -> exists g, allocation_at s i = blank_record i g) -> vs_active (va_stats s) = 0 ->
  va_shape s /\ frees s = [{| x_base := base; x_pages := pages |}].
Proof.
  intros He Hr Hc Hb Hl Hg Hrng Hlim Hal Hpg Hp Hgr Hlen Hblank Hact. set (x := {| x_base := base; x_pages := pages |}) in *.
  assert (frees s = [x]) as Hf by (unfold frees; by rewrite He, Hc). split; [|done].
  assert (forall k a, ~ reserves s k a) as Hnone.
  { intros k a (Hk & Hlive & _). destruct (Hblank k Hk) as [g Hg']. rewrite Hg' in Hlive. done. }
  constructor; rewrite ?Hf.
  - constructor; rewrite ?Hb, ?Hl, ?Hg; unfold DRIVER_VA_PAGE_SIZE in *; try done; lia.
  - exists r. rewrite He, Hc. split_and!; [done | done |]. change (alen [x]) with 1. max_extents. lia.
  - rewrite Hb, Hl. cbn. unfold xend, DRIVER_VA_PAGE_SIZE in *. cbn. split_and!; try done; lia.
  - intros k Hk. destruct (Hblank k Hk) as [g ->]. done.
  - intros k Hk. destruct (Hblank k Hk) as [g ->]. done.
  - intros a Ha. left. apply covers_cons. left. unfold in_extent, xend. rewrite Hb, Hl in Ha. cbn. lia.
  - intros k a Hka. by destruct (Hnone k a).
  - intros k m a Hka. by destruct (Hnone k a).
  - replace (asum held_pages (allocations s)) with 0; [rewrite Hb, Hl; cbn; lia|]. symmetry. transitivity (asum (fun _ : DriverVaRecord => 0) (allocations s)).
    + apply asum_ext. intros c (k & Hk & <-)%(record_in s); [|done]. destruct (Hblank k Hk) as [g ->]. done.
    + clear. induction (allocations s); [done | cbn; lia].
  - rewrite Hact. symmetry. apply acount_none. rewrite Hlen. intros k Hk. fold (allocation_at s k). destruct (Hblank k Hk) as [g ->]. done.
Qed.

Lemma initialize_arena_ok (base limit guard : Z) s (e : E) :
  alen (free_extents s) = DRIVER_IMAGE_VA_MAX_EXTENTS -> alen (allocations s) = DRIVER_IMAGE_VA_MAX_ALLOCATIONS -> 0 <= base -> limit < 2 ^ 64 -> 0 <= guard ->
  (initialize_arena base limit guard s e).1.1 = true -> va_ok (initialize_arena base limit guard s e).1.2.
Proof using.
  intros Hle Hla Hb Hl Hg. unfold initialize_arena. destruct (_ || _ || (limit <=? base)) eqn:H1; [done|]. destruct (_ || _ || (0x7FFF <? guard)) eqn:H2; [done|]. intros _.
  bprop. rewrite u64_small in * by (unfold is_u64; lia). set (pages := (limit - base) / DRIVER_VA_PAGE_SIZE) in *.
  unfold DRIVER_VA_PAGE_SIZE in *. change (4096 - 1) with (2 ^ 12 - 1) in *. rewrite land_ones_mod in * by lia. change (2 ^ 12) with 4096 in *.
  assert (pages * 4096 = limit - base) as Hpg.
  { unfold pages. rewrite Z.mul_comm. symmetry. apply Z.div_exact; [lia|]. assert (limit mod 4096 = 0 /\ base mod 4096 = 0) as [Hlm Hbm] by done. by rewrite Zminus_mod, Hlm, Hbm. }
  assert (0 < pages < 2 ^ 32) as Hp by lia. rewrite (u32_small pages) by (unfold is_u32; lia). cbn [fst snd].
  set (s0 := upd_extent 0 _ _). assert (free_extents s0 = aset (free_extents s) 0 {| x_base := base; x_pages := pages |}) as Hs0 by done.
  destruct (for_range_extents_tail s0) as (r & -> & Hr). { by rewrite Hs0, alen_aset. }
  assert (extent_at s0 0 = {| x_base := base; x_pages := pages |}) as Hx0. { unfold extent_at. rewrite Hs0. apply aget_aset_eq. rewrite Hle. max_extents. lia. }
  rewrite Hx0. set (s1 := set_field free_extents _ s0).
  destruct (for_range_records s1 Hla) as (l & Hrec & Hlen & Hblank). unfold blank_record in Hrec at 1. rewrite Hrec. clear Hrec.
  set (s2 := set_field va_stats _ _).
  destruct (initial_shape s2 base limit guard pages r) as [Hshape Hf]; try done; try lia.
  { intros i Hi. eexists. by apply Hblank. }
  destruct (refresh_spec s2) as (st & Href & Hst & Hact); [apply Hshape | rewrite Hf; intros x ->%list_elem_of_singleton; cbn; lia | rewrite Hf; cbn; lia |].
  rewrite Href. assert (va_shape (s2 <| va_stats := st |>)) as Hs2.
  { destruct (initial_shape (s2 <| va_stats := st |>) base limit guard pages r) as [? _]; try done; try lia.
    intros i Hi. eexists. by apply Hblank. }
  constructor; [|cbn; max_extents; lia| |done].
  - destruct Hs2 as [[A1 A2 A3 A4 A5] V2 V3 V4 V5 V6 V7 V8 V9 V10]. constructor; try done. intros i Hi Hlv. destruct (V5 i Hi Hlv). by constructor.
  - destruct Hst as [F1 F2 F3]. by constructor.
Qed.
End Initialise.
