(* ===== verification/DriverVaHistory.v ===== *)
(** * Driver image addresses: histories and the contract of each operation

    Whatever calls are made, with whatever arguments, owners and lock or fault
    answers, the arena stays partitioned.  Allocation is first fit and succeeds
    exactly when a record and an extent are left; a release always succeeds on a
    handle that resolves; allocating and releasing restores the extents. *)

From S2P Require Import Prelude KernelEnv DriverRecords DriverVa DriverExtents DriverVaSpec.

Inductive va_call :=
| VaAllocate (owner : DriverIdentity) (page_count : Z) (present : bool) (ds : DriverState)
| VaRelease (owner handle : DriverIdentity)
| VaQuarantine (owner handle : DriverIdentity)
| VaStats.

(** Arguments at their width. *)
Definition va_args_ok (c : va_call) : Prop :=
  match c with
  | VaAllocate _ pages _ _ => is_u32 pages
  | VaRelease _ h | VaQuarantine _ h => is_u32 (id_slot h)
  | VaStats => True
  end.

Section History.
Context {E : Type} `{KernelEnv E}.
Implicit Types (s : DriverVaState) (e : E).

Definition va_run1 (c : va_call) (st : DriverVaState * E) : DriverVaState * E :=
  let '(s, e) := st in
  match c with
  | VaAllocate owner pages present ds => let '(_, s, e) := driver_image_va_allocate owner pages present ds s e in (s, e)
  | VaRelease owner handle => let '(_, s, e) := driver_image_va_release owner handle s e in (s, e)
  | VaQuarantine owner handle => let '(_, s, e) := driver_image_va_quarantine owner handle s e in (s, e)
  | VaStats => let '(_, s, e) := driver_image_va_get_stats s e in (s, e)
  end.
Definition va_run (cs : list va_call) (st : DriverVaState * E) : DriverVaState * E := foldl (fun st c => va_run1 c st) st cs.

Lemma reserved_width s (pages : Z) : arena_ok s -> is_u32 pages -> u64 (pages + u64 (va_guard_pages s * 2)) = pages + va_guard_pages s * 2.
Proof using. intros Har Hp. pose proof (arena_guards s Har). unfold is_u32 in Hp. by unwrap. Qed.

Lemma allocate_keeps owner pages present ds s e : is_u32 pages -> va_ok s -> va_ok (driver_image_va_allocate owner pages present ds s e).1.2.
Proof using.
  intros Hp Hok. unfold driver_image_va_allocate. pose proof (va_arena s (ok_shape s Hok)) as Har.
  cbv zeta. destruct (_ || negb present) eqn:Hz; [exact Hok|]. apply orb_false_iff in Hz as [Hz _]. apply orb_false_iff in Hz as [_ Hz%Z.eqb_neq]. do 2 (destruct (negb _); [exact Hok|]). rewrite reserved_width by done.
  destruct (0xFFFFFFFF <? _) eqn:H2; [exact Hok|]. bprop. unfold with_lock_env. destruct (kernel_spinlock_acquire _ e) as [[] e1]; [|exact Hok].
  destruct (kernel_fault_injection_should_fail _ e1) as [inj e2]. pose proof (allocate_body_ok s owner pages inj Hok) as Hb. unfold is_u32 in Hp.
  destruct (allocate_body owner pages _ inj s) as [[[res h] base] s'].
  destruct Hb as [(_ & _ & _ & _ & Ha)|(_ & _ & _ & -> & _)]; [lia | lia | apply Ha | by apply va_ok_stats].
Qed.
Lemma release_keeps owner handle s e : is_u32 (id_slot handle) -> va_ok s -> va_ok (driver_image_va_release owner handle s e).1.2.
Proof using.
  intros Hp Hok. unfold driver_image_va_release. destruct (_ || _); [exact Hok|]. apply (with_lock_inv (fun _ s => va_ok s)); [done|].
  apply release_body_cases; [done|]. unfold is_u32 in Hp. lia.
Qed.
Lemma va_run1_ok c s e : va_args_ok c -> va_ok s -> va_ok (va_run1 c (s, e)).1.
Proof using.
  intros Hc Hok. destruct c as [owner pages present ds|owner handle|owner handle|]; cbn [va_run1 va_args_ok] in *.
  - pose proof (allocate_keeps owner pages present ds s e Hc Hok). by destruct (driver_image_va_allocate _ _ _ _ _ _) as [[? ?] ?].
  - pose proof (release_keeps owner handle s e Hc Hok). by destruct (driver_image_va_release _ _ _ _) as [[? ?] ?].
  - unfold driver_image_va_quarantine. pose proof (with_lock_inv (fun _ s => va_ok s) driver_va_lock DRIVER_LOAD_RESOURCE_DENIED (quarantine_body owner handle) s e Hok) as Hq.
    destruct (with_lock _ _ _ _ _) as [[? ?] ?]. apply Hq. apply quarantine_ok; [done|]. unfold is_u32 in Hc. lia.
  - unfold driver_image_va_get_stats. pose proof (with_lock_inv (fun _ s => va_ok s) driver_va_lock no_va_stats (fun s => (va_stats s, s)) s e Hok Hok) as Hq.
    by destruct (with_lock _ _ _ _ _) as [[? ?] ?].
Qed.

(** C32: From any arena that [initialize_arena] accepts, after any calls of the allocator (by any owner, with any handle, whatever the lock
    and the fault point answer) the arena is partitioned: every address of it is in a free extent or reserved by a live record, never both and
    never by two records; the extents are sorted, do not touch and are at most 128, and the counters of free pages, extents and live records are exact. *)
Theorem driver_va_arena_partitioned (base limit guard : Z) s (e : E) (calls : list va_call) :
  alen (free_extents s) = DRIVER_IMAGE_VA_MAX_EXTENTS -> alen (allocations s) = DRIVER_IMAGE_VA_MAX_ALLOCATIONS ->
  0 <= base -> is_u64 limit -> 0 <= guard -> Forall va_args_ok calls ->
  (initialize_arena base limit guard s e).1.1 = true ->
  let '(_, s1, e1) := initialize_arena base limit guard s e in va_ok (va_run calls (s1, e1)).1.
Proof using.
  intros Hle Hla Hb [_ Hl] Hg Hcs Hi. pose proof (initialize_arena_ok base limit guard s e Hle Hla Hb Hl Hg Hi) as Hok.
  destruct (initialize_arena base limit guard s e) as [[b s1] e1]. cbn [fst snd] in *. clear Hi. unfold va_run.
  revert s1 e1 Hok. induction Hcs as [|c cs Hc Hcs IH]; intros s1 e1 Hok; [done|]. cbn [foldl].
  pose proof (va_run1_ok c s1 e1 Hc Hok) as H1. destruct (va_run1 c (s1, e1)) as [s2 e2]. by apply IH.
Qed.
End History.

Section Contracts.
Context {E : Type} `{LockLaws E}.
Implicit Types (s : DriverVaState) (e : E).

(** With its lock free and no fault injected, [driver_image_va_allocate] for a driver that may own resources succeeds exactly when one of the 128
    records is unused and some free extent has room for the pages and two guards.  It then takes the front of the first such extent: the whole range, guards
    included, was free and becomes the new record's; the handle resolves for its owner alone from then on, and every other record keeps its range.  Otherwise it
    answers out-of-memory and nothing is reserved. *)
Theorem driver_image_va_allocate_first_fit owner pages ds s e :
  va_ok s -> ready e driver_va_lock -> (forall e, (kernel_fault_injection_should_fail KERNEL_FAULT_POINT_DRIVER_VA_RECORD e).1 = false) ->
  driver_manager_identity_accepts_resources owner ds = true -> 0 < pages < 2 ^ 32 ->
  let '((res, h, base), s', _) := driver_image_va_allocate owner pages true ds s e in
  (res = DRIVER_LOAD_OK <-> acount live_record (allocations s) < DRIVER_IMAGE_VA_MAX_ALLOCATIONS /\ exists x, x ∈ frees s /\ pages + va_guard_pages s * 2 <= x_pages x) /\
  (res = DRIVER_LOAD_OK -> allocated s s' owner pages h base) /\
  (res <> DRIVER_LOAD_OK -> res = DRIVER_LOAD_OUT_OF_MEMORY /\ va_ok s' /\ frees s' = frees s /\ allocations s' = allocations s).
Proof using.
  intros Hok Hrd Hnf Hacc Hp. unfold driver_image_va_allocate. pose proof (va_arena s (ok_shape s Hok)) as Har. rewrite (ok_init s Hok).
  pose proof Hacc as Hacc'. unfold driver_manager_identity_accepts_resources in Hacc'. apply andb_true_iff in Hacc' as [Hlive _].
  pose proof Hlive as Hlive'. unfold driver_manager_identity_is_live in Hlive'. apply andb_true_iff in Hlive' as [Hvalid _].
  rewrite Hacc, Hlive, Hvalid, reserved_width by (done || (unfold is_u32; lia)). replace (pages =? 0) with false by (symmetry; apply Z.eqb_neq; lia). cbn [nonzero negb orb].
  change (negb (nonzero 1)) with false. cbn [orb]. destruct (0xFFFFFFFF <? pages + va_guard_pages s * 2) eqn:Hw; bprop.
  { split_and!; [|done..]. split; [done|]. intros (_ & x & Hx & Hle). pose proof (frees_sum s (ok_shape s Hok)) as Hsum.
    apply list_elem_of_split in Hx as (p & q & Hf). pose proof (va_sorted s (ok_shape s Hok)) as Hs. rewrite Hf in Hs. apply sorted_app in Hs as [_ Hs]. cbn in Hs. lia. }
  apply ready_acquire in Hrd as (e1 & Ha & _). unfold with_lock_env. rewrite Ha. specialize (Hnf e1).
  destruct (kernel_fault_injection_should_fail KERNEL_FAULT_POINT_DRIVER_VA_RECORD e1) as [inj e2]. cbn in Hnf. subst inj.
  pose proof (allocate_body_ok s owner pages false Hok ltac:(lia) ltac:(lia)) as Hb. destruct (allocate_body owner pages _ false s) as [[[res h] base] s'].
  destruct Hb as [(-> & _ & Hroom & Hfit & Hall)|(-> & _ & _ & -> & Hwhy)].
  - done.
  - split_and!; [|done | by auto using va_ok_stats]. split; [done|]. intros (Hroom & x & Hx & Hle). destruct Hwhy as [?|[?|Hno]]; [done | lia | specialize (Hno x Hx); lia].
Qed.

(** [driver_image_va_release] cannot fail for lack of an extent slot: with the lock free, a handle that resolves for its owner and is not quarantined is
    always released.  Exactly the reserved addresses, guards included, become free, the handle is stale from then on for every owner, other records stay. *)
Theorem driver_image_va_release_total owner handle s e :
  va_ok s -> ready e driver_va_lock -> is_u32 (id_slot handle) -> driver_identity_is_valid owner = true -> va_resolve owner handle s = Some (id_slot handle) ->
  v_quarantined (allocation_at s (id_slot handle)) = 0 ->
  let '(res, s', _) := driver_image_va_release owner handle s e in res = DRIVER_LOAD_OK /\ released s s' (id_slot handle) owner handle.
Proof using.
  intros Hok Hrd Hslot Hown Hres Hq. unfold driver_image_va_release. rewrite Hown.
  assert (driver_image_va_handle_is_valid handle = true) as -> by (unfold va_resolve in Hres; by destruct (driver_image_va_handle_is_valid handle)). cbn [negb orb].
  destruct (release_ok s owner handle (id_slot handle) Hok) as (s' & Hb & Hrl); [unfold is_u32 in Hslot; lia | done | by rewrite Hq |].
  destruct (with_lock_ready driver_va_lock DRIVER_LOAD_RESOURCE_DENIED (va_release_body owner handle) s e Hrd) as (e' & -> & _). by rewrite Hb.
Qed.

(** What a success tells, with the lock given back. *)
Lemma allocate_success owner pages ds s e : va_ok s -> ready e driver_va_lock -> 0 < pages < 2 ^ 32 ->
  let '((res, h, base), s', e') := driver_image_va_allocate owner pages true ds s e in
  res = DRIVER_LOAD_OK -> allocated s s' owner pages h base /\ driver_identity_is_valid owner = true /\ ready e' driver_va_lock.
Proof using.
  intros Hok Hrd Hp. unfold driver_image_va_allocate. pose proof (va_arena s (ok_shape s Hok)) as Har. cbv zeta.
  destruct (_ || negb true) eqn:Hz; [done|]. apply orb_false_iff in Hz as [Hz _]. apply orb_false_iff in Hz as [Hz _]. apply orb_false_iff in Hz as [_ Hz%negb_false_iff].
  do 2 (destruct (negb _); [done|]). rewrite reserved_width by (done || (unfold is_u32; lia)). destruct (0xFFFFFFFF <? _) eqn:Hw; [done|]. bprop.
  pose proof (ready_acquire _ _ Hrd) as (e1 & Ha & Hkeep). unfold with_lock_env. rewrite Ha. pose proof (ready_fault_held e1 driver_va_lock KERNEL_FAULT_POINT_DRIVER_VA_RECORD _ (Hkeep _ Hrd)) as Hrd'.
  destruct (kernel_fault_injection_should_fail KERNEL_FAULT_POINT_DRIVER_VA_RECORD e1) as [inj e2]. cbn in Hrd'.
  pose proof (allocate_body_ok s owner pages inj Hok ltac:(lia) ltac:(lia)) as Hb. destruct (allocate_body owner pages _ inj s) as [[[res h] base] s'].
  destruct Hb as [(-> & _ & _ & _ & Hall)|(-> & _)]; done.
Qed.

(** Two operations that undo each other on the addresses restore the extents. *)
Lemma released_restores s s1 s2 owner pages h base : va_ok s -> 0 < pages -> allocated s s1 owner pages h base -> released s1 s2 (id_slot h) owner h -> frees s2 = frees s.
Proof using.
  intros Hok Hp [A1 A2 A3 A4 A5 A6 A7 A8 A9 (Ab & Al & Ag)] [R1 R2 R3 R4 R5 (Rb & Rl & Rg)].
  pose proof (va_sorted s2 (ok_shape s2 R1)) as Hs2. rewrite Rl, Rb, Al, Ab in Hs2.
  apply (sorted_unique _ _ _ _ _ Hs2 (va_sorted s (ok_shape s Hok))). intros a. rewrite R2, A4, A6. specialize (A3 a).
  destruct (decide (base - va_guard_pages s * DRIVER_VA_PAGE_SIZE <= a < base + (pages + va_guard_pages s) * DRIVER_VA_PAGE_SIZE)); tauto.
Qed.

(** Allocating and then releasing what was allocated succeeds and gives back the very same list of free extents: the extent that the allocation cut,
    or removed, is whole again. *)
Theorem driver_va_allocate_release_roundtrip owner pages ds s e :
  va_ok s -> ready e driver_va_lock -> 0 < pages < 2 ^ 32 ->
  let '((res, h, base), s1, e1) := driver_image_va_allocate owner pages true ds s e in
  res = DRIVER_LOAD_OK ->
  let '(res', s2, _) := driver_image_va_release owner h s1 e1 in res' = DRIVER_LOAD_OK /\ va_ok s2 /\ frees s2 = frees s.
Proof using.
  intros Hok Hrd Hp. pose proof (allocate_success owner pages ds s e Hok Hrd Hp) as Hsucc.
  destruct (driver_image_va_allocate owner pages true ds s e) as [[[[res h] base] s1] e1]. intros Hres. destruct (Hsucc Hres) as (Hall & Hown & Hrd1).
  pose proof (va_arena s (ok_shape s Hok)) as Har. pose proof (arena_guards s Har).
  assert (0 <= id_slot h) as Hslot. { destruct (proj2 (al_record _ _ _ _ _ _ Hall base)) as [[? _] _]; [unfold DRIVER_VA_PAGE_SIZE; lia | done]. }
  destruct (al_resolves _ _ _ _ _ _ Hall) as [Hr _]. unfold driver_image_va_release. rewrite Hown.
  assert (driver_image_va_handle_is_valid h = true) as -> by (unfold va_resolve in Hr; by destruct (driver_image_va_handle_is_valid h)). cbn [negb orb].
  destruct (al_usable _ _ _ _ _ _ Hall) as [Hq _]. destruct (release_ok s1 owner h (id_slot h) (al_ok _ _ _ _ _ _ Hall) Hslot Hr) as (s2 & Hb & Hrl); [by rewrite Hq|].
  destruct (with_lock_ready driver_va_lock DRIVER_LOAD_RESOURCE_DENIED (va_release_body owner h) s1 e1 Hrd1) as (e' & -> & _). rewrite Hb.
  split_and!; [done | apply Hrl | exact (released_restores s s1 s2 owner pages h base Hok ltac:(lia) Hall Hrl)].
Qed.
End Contracts.

(** ** The arena of the kernel *)

Definition va0 : DriverVaState := {|
  free_extents := replicate 129 inhabitant; allocations := replicate 128 inhabitant; va_stats := no_va_stats; arena_base := 0; arena_limit := 0;
  highest_reserved_end := 0; va_guard_pages := 0; free_extent_count := 0; initialized := 0 |}.
(** [driver_image_va_init] accepts its arena. *)
Definition va_start : DriverVaState := (initialize_arena DRIVER_IMAGE_VA_BASE DRIVER_IMAGE_VA_LIMIT DRIVER_IMAGE_VA_GUARD_PAGES va0 tt).1.2.
Lemma va_start_ok : va_ok va_start.
Proof. apply initialize_arena_ok; [done | done | done | done | done | vm_compute; reflexivity]. Qed.

Definition driver_a : DriverIdentity := {| id_slot := 3; id_generation := 1 |}.
Definition one_driver : DriverState := {|
  drivers := <[3%nat := (inhabitant : DriverRecord) <| d_active := 1 |> <| d_state := DRIVER_STATE_LOADING |> <| d_slot := 3 |> <| d_generation := 1 |>]> (replicate 32 inhabitant);
  last_error := {| e_result := 0; e_index := 0; e_detail := 0; e_stage := []; e_module := []; e_name := [] |}; lifecycle_driver := [];
  quiesce := replicate 32 inhabitant; quiesce_pins := 0; quiesce_unpins := 0; quiesce_rejections := 0; quiesce_waits := 0; quiesce_timeouts := 0;
  quiesce_quarantines := 0; resources := replicate 128 inhabitant; resource_stats := no_resource_stats |}.

(** The second of three reservations is released and then a smaller one made in its place. *)
Definition sample_calls : list va_call :=
  [VaAllocate driver_a 2 true one_driver; VaAllocate driver_a 3 true one_driver; VaAllocate driver_a 4 true one_driver;
   VaRelease driver_a {| id_slot := 1; id_generation := 1 |}; VaAllocate driver_a 1 true one_driver].
Lemma driver_va_arena_partitioned_witness :
  (let '(_, s1, e1) := initialize_arena DRIVER_IMAGE_VA_BASE DRIVER_IMAGE_VA_LIMIT DRIVER_IMAGE_VA_GUARD_PAGES va0 tt in va_ok (va_run sample_calls (s1, e1)).1)
  /\ frees (va_run sample_calls (va_start, tt)).1 = [{| x_base := 0x70007000; x_pages := 2 |}; {| x_base := 0x7000F000; x_pages := 32753 |}].
Proof.
  split; [|vm_compute; reflexivity]. apply driver_va_arena_partitioned; [done | done | done | done | done | | vm_compute; reflexivity].
  repeat constructor; unfold is_u32; cbn; lia.
Defined.
Lemma driver_image_va_allocate_first_fit_witness :
  driver_manager_identity_accepts_resources driver_a one_driver = true /\
  (driver_image_va_allocate driver_a 2 true one_driver va_start tt).1.1 = (DRIVER_LOAD_OK, {| id_slot := 0; id_generation := 1 |}, 0x70001000) /\
  let '((res, h, base), s', _) := driver_image_va_allocate driver_a 2 true one_driver va_start tt in res = DRIVER_LOAD_OK -> allocated va_start s' driver_a 2 h base.
Proof.
  split; [reflexivity|]. split; [vm_compute; reflexivity|].
  pose proof (driver_image_va_allocate_first_fit driver_a 2 one_driver va_start tt va_start_ok I (fun _ => eq_refl) eq_refl ltac:(lia)) as Hff.
  destruct (driver_image_va_allocate driver_a 2 true one_driver va_start tt) as [[[[res h] base] s'] e']. apply Hff.
Defined.
(** After that allocation. *)
Definition va_held : DriverVaState := (driver_image_va_allocate driver_a 2 true one_driver va_start tt).1.2.
Lemma va_held_ok : va_ok va_held.
Proof. apply allocate_keeps; [by unfold is_u32 | apply va_start_ok]. Qed.
Lemma driver_image_va_release_total_witness :
  let '(res, s', _) := driver_image_va_release driver_a {| id_slot := 0; id_generation := 1 |} va_held tt in
  res = DRIVER_LOAD_OK /\ released va_held s' 0 driver_a {| id_slot := 0; id_generation := 1 |}.
Proof.
  apply (driver_image_va_release_total driver_a {| id_slot := 0; id_generation := 1 |} va_held tt va_held_ok); [exact I | by unfold is_u32 | reflexivity | |]; vm_compute; reflexivity.
Defined.
Lemma driver_va_allocate_release_roundtrip_witness :
  let '((res, h, base), s1, e1) := driver_image_va_allocate driver_a 2 true one_driver va_start tt in
  res = DRIVER_LOAD_OK -> let '(res', s2, _) := driver_image_va_release driver_a h s1 e1 in res' = DRIVER_LOAD_OK /\ va_ok s2 /\ frees s2 = frees va_start.
Proof. apply (driver_va_allocate_release_roundtrip driver_a 2 one_driver va_start tt va_start_ok); [exact I | lia]. Defined.
