(* ===== verification/DriverQuiesce.v ===== *)
(** * Pinning and quiescing a driver, access by access

    [DriverRecords] runs [driver_manager_activity_pin], [driver_manager_activity_unpin]
    and [driver_manager_begin_quiesce] on their own.  Here any number of threads pin and
    unpin activities of one driver slot while the driver manager takes the driver
    through its life: every access to a shared field is a step, and any thread may take the next
    one.  (Between the store that closes the slot and the load of [in_flight] that
    ends the wait lies the locked increment of [g_quiesce_waits], and the pinners
    count themselves with locked instructions; on the processor these are full
    barriers, so the steps interleave.)  The life-cycle operations are not locked
    and are run by one thread, the manager, which may make any call at any time.  The counters [g_quiesce_pins], [g_quiesce_unpins],
    [g_quiesce_rejections] and so on, which nothing reads back but the statistics, are left out. *)

From S2P Require Import Prelude KernelEnv DriverRecords.

(** Where a pinner is, with the generation [g] of its identity and the kind [k] of its activity: before
    the load of the slot's generation; of [accepting]; before the two increments; before the loads of the state,
    of [accepting], of the record's [active] and of its generation; before the two decrements that give up;
    holding the pin; before the load of the generation and the two decrements that end it. *)
Inductive tpc :=
| t_idle
| p_generation (g k : Z) | p_accepting (g k : Z) | p_count (g k : Z) | p_category (g k : Z) | p_state (g k : Z)
| p_recheck (g k state : Z) | p_active (g k state : Z) | p_live (g k state : Z)
| p_undo_category (k : Z) | p_undo_count
| pinned (g k : Z)
| u_generation (g k : Z) | u_category (k : Z) | u_count.
#[export] Instance tpc_inhabited : Inhabited tpc := populate t_idle.

(** An idle thread may start to pin; any other goes on. *)
Inductive tchoice := t_pin (g k : Z) | t_go.

Definition pin_args_ok (g k : Z) : bool := nonzero g && negb ((k <? DRIVER_ACTIVITY_CALL) || (DRIVER_ACTIVITY_DMA <? k)).
Definition pinner_step (c : tchoice) (t : tpc) (d : DriverRecord) (q : DriverQuiesceSlot) : tpc * DriverQuiesceSlot :=
  match t with
  | t_idle => (match c with t_pin g k => if pin_args_ok g k then p_generation g k else t_idle | t_go => t_idle end, q)
  | p_generation g k => (if negb (q_generation q =? g) then t_idle else p_accepting g k, q)
  | p_accepting g k => (if accepting q =? 0 then t_idle else p_count g k, q)
  | p_count g k => (p_category g k, q <| in_flight := u32 (in_flight q + 1) |>)
  | p_category g k => (p_state g k, bump_activity k 1 q)
  | p_state g k => (p_recheck g k (d_state d), q)
  | p_recheck g k state => (if accepting q =? 0 then p_undo_category k else p_active g k state, q)
  | p_active g k state => (if nonzero (d_active d) then p_live g k state else p_undo_category k, q)
  | p_live g k state => (if (d_generation d =? g) && pinnable_state state then pinned g k else p_undo_category k, q)
  | p_undo_category k => (p_undo_count, bump_activity k (-1) q)
  | p_undo_count => (t_idle, q <| in_flight := u32 (in_flight q - 1) |>)
  | pinned g k => (u_generation g k, q)
  | u_generation g k => (if q_generation q =? g then u_category k else t_idle, q)
  | u_category k => (u_count, bump_activity k (-1) q)
  | u_count => (t_idle, q <| in_flight := u32 (in_flight q - 1) |>)
  end.

(** Where the manager is: between calls; in [begin_quiesce] before the store that closes the slot, the decision by the
    state, the store of the state, the store that opens it again; in [abort_load] before its two stores; in
    [wait_quiesced] before a load of [in_flight] and before the store of [quarantined]; in [clear_driver_record] and in
    [activate_driver_record] before the n-th store. *)
Inductive mpc :=
| m_idle
| m_close | m_decide | m_quiesce | m_reopen
| m_abort (failure_state : Z) | m_fail (failure_state : Z)
| m_wait | m_quarantine
| m_clear (n : nat) | m_activate (n : nat).

(** The manager's calls, with the generation of the identity they are given, and, within a call, to go on or (in [wait_quiesced]) to stop
    looking: the spin limit is reached, or a fault was injected. *)
Inductive mchoice := c_begin (g : Z) | c_abort (g failure_state : Z) | c_set_state (state : Z) | c_wait (g : Z) | c_give_up | c_unregister | c_register | c_go.
(** What [begin_quiesce], [abort_load] and [wait_quiesced] answer. *)
Inductive manswer := a_begin (result : Z) | a_abort (result : Z) | a_wait (result : Z).

Definition record_is_live (g : Z) (d : DriverRecord) : bool := nonzero g && (nonzero (d_active d) && (d_generation d =? g)).
(** [driver_manager_set_state_identity] of the live driver. *)
Definition change_state (state : Z) (d : DriverRecord) : DriverRecord :=
  if nonzero (d_active d) && legal_state_transition (d_state d) state then d <| d_state := u8 state |> else d.
(** The stores of [clear_driver_record] and of [activate_driver_record], in order. *)
Definition clear_store (n : nat) (d : DriverRecord) (q : DriverQuiesceSlot) : DriverRecord * DriverQuiesceSlot :=
  match n with
  | 0%nat => (d <| d_active := 0 |>, q)
  | 1%nat => (d <| d_state := DRIVER_STATE_EMPTY |>, q)
  | 2%nat => (d <| d_kind := 0 |> <| d_permissions := 0 |> <| d_name := [] |> <| d_version := [] |> <| d_instance := 0 |>, q)
  | _ => (d, q <| accepting := 0 |>)
  end.
Definition activate_store (n : nat) (d : DriverRecord) (q : DriverQuiesceSlot) : DriverRecord * DriverQuiesceSlot :=
  match n with
  | 0%nat => (d <| d_generation := driver_next_generation (d_generation d) |>, q)
  | 1%nat => (d, q <| q_generation := d_generation d |>)
  | 2%nat => (d, q <| in_flight := 0 |>)
  | 3%nat => (d, q <| q_calls := 0 |>)
  | 4%nat => (d, q <| q_irqs := 0 |>)
  | 5%nat => (d, q <| q_work := 0 |>)
  | 6%nat => (d, q <| q_dma := 0 |>)
  | 7%nat => (d, q <| q_quarantined := 0 |>)
  | 8%nat => (d, q <| accepting := 1 |>)
  | 9%nat => (d <| d_active := 1 |>, q)
  | _ => (d <| d_state := DRIVER_STATE_REGISTERED |>, q)
  end.

(** The states in which a driver takes no more work, and the state [abort_load] chooses. *)
Definition ended_state (state : Z) : bool := (state =? DRIVER_STATE_QUIESCING) || (state =? DRIVER_STATE_FAILED) || (state =? DRIVER_STATE_REJECTED).
Definition abort_target (failure_state state : Z) : Z :=
  let target := if negb (failure_state =? DRIVER_STATE_FAILED) && negb (failure_state =? DRIVER_STATE_REJECTED) then DRIVER_STATE_FAILED else failure_state in
  if (state =? DRIVER_STATE_LINKED) || (state =? DRIVER_STATE_READY) || (state =? DRIVER_STATE_QUIESCING) then DRIVER_STATE_FAILED else target.

(** One access of the manager, and the answer of the call it ends, if any.  Between calls any call may come, whatever the slot's state: a call with a stale
    identity is refused, [wait_quiesced] does not look at [accepting], a second [begin_quiesce] closes the slot again.  A registration of the slot finds it inactive:
    one that takes over a failed driver's record clears it first, as [c_unregister] does. *)
Definition manager_step (c : mchoice) (m : mpc) (d : DriverRecord) (q : DriverQuiesceSlot) : mpc * DriverRecord * DriverQuiesceSlot * option manswer :=
  let state := d_state d in
  match m with
  | m_idle =>
    match c with
    | c_begin g => if record_is_live g d && (q_generation q =? g) then (m_close, d, q, None) else (m_idle, d, q, Some (a_begin DRIVER_LOAD_STALE_IDENTITY))
    | c_abort g f => if record_is_live g d && (q_generation q =? g) then (m_abort f, d, q, None) else (m_idle, d, q, Some (a_abort DRIVER_LOAD_STALE_IDENTITY))
    | c_wait g => if record_is_live g d then (m_wait, d, q, None) else (m_idle, d, q, Some (a_wait DRIVER_LOAD_STALE_IDENTITY))
    | c_set_state st => (m_idle, change_state st d, q, None)
    | c_unregister => (if nonzero (d_active d) then m_clear 0 else m_idle, d, q, None)
    | c_register => (if nonzero (d_active d) then m_idle else m_activate 0, d, q, None)
    | _ => (m_idle, d, q, None)
    end
  | m_close => (m_decide, d, q <| accepting := 0 |>, None)
  | m_decide =>
    if ended_state state then (m_idle, d, q, Some (a_begin DRIVER_LOAD_OK))
    else (if negb (state =? DRIVER_STATE_READY) && negb (state =? DRIVER_STATE_LINKED) then m_reopen else m_quiesce, d, q, None)
  | m_quiesce =>
    if nonzero (d_active d) && legal_state_transition state DRIVER_STATE_QUIESCING
    then (m_idle, change_state DRIVER_STATE_QUIESCING d, q, Some (a_begin DRIVER_LOAD_OK)) else (m_reopen, d, q, None)
  | m_reopen => (m_idle, d, q <| accepting := 1 |>, Some (a_begin DRIVER_LOAD_STATE_DENIED))
  | m_abort f => (m_fail f, d, q <| accepting := 0 |>, None)
  | m_fail f =>
    let target := abort_target f state in
    (m_idle, change_state target d, q, Some (a_abort (if legal_state_transition state target then DRIVER_LOAD_OK else DRIVER_LOAD_STATE_DENIED)))
  | m_wait =>
    match c with
    | c_give_up => (m_quarantine, d, q, None)
    | _ => if in_flight q =? 0 then (m_idle, d, q, Some (a_wait DRIVER_LOAD_OK)) else (m_wait, d, q, None)
    end
  | m_quarantine => (m_idle, d, q <| q_quarantined := 1 |>, Some (a_wait DRIVER_LOAD_QUIESCE_TIMEOUT))
  | m_clear n => let '(d, q) := clear_store n d q in (if (3 <=? n)%nat then m_idle else m_clear (S n), d, q, None)
  | m_activate n => let '(d, q) := activate_store n d q in (if (10 <=? n)%nat then m_idle else m_activate (S n), d, q, None)
  end.
Definition registering (m : mpc) : bool := match m with m_activate _ => true | _ => false end.

(** The record and the counters of a slot, the manager and the pinners; and, for the statements, the answers of the manager's calls since the slot was last registered,
    the latest first. *)
Record slot_state := { sl_record : DriverRecord; sl_quiesce : DriverQuiesceSlot; sl_manager : mpc; sl_pinners : list tpc; sl_answers : list manswer }.
Definition slot_pin (i : Z) (c : tchoice) (s : slot_state) : slot_state :=
  let '(t, q) := pinner_step c (aget (sl_pinners s) i) (sl_record s) (sl_quiesce s) in
  {| sl_record := sl_record s; sl_quiesce := q; sl_manager := sl_manager s; sl_pinners := aset (sl_pinners s) i t; sl_answers := sl_answers s |}.
Definition slot_manage (c : mchoice) (s : slot_state) : slot_state :=
  let '(m, d, q, a) := manager_step c (sl_manager s) (sl_record s) (sl_quiesce s) in
  {| sl_record := d; sl_quiesce := q; sl_manager := m; sl_pinners := sl_pinners s;
     sl_answers := if registering m then [] else option_list a ++ sl_answers s |}.

(** A call has closed the slot; after that, a call of [wait_quiesced] has found it quiet. *)
Definition closes (a : manswer) : bool := match a with a_begin r | a_abort r => r =? DRIVER_LOAD_OK | a_wait _ => false end.
Definition was_closed (l : list manswer) : bool := existsb closes l.
Fixpoint was_quiet (l : list manswer) : bool :=
  match l with
  | [] => false
  | a_wait r :: l => ((r =? DRIVER_LOAD_OK) && was_closed l) || was_quiet l
  | _ :: l => was_quiet l
  end.

(** One life of the driver: everything up to the next registration in the slot. *)
Inductive one_life (s : slot_state) : slot_state -> Prop :=
| life_refl : one_life s s
| life_pin s' i c : one_life s s' -> 0 <= i < alen (sl_pinners s') -> one_life s (slot_pin i c s')
| life_manage s' c : one_life s s' -> c <> c_register -> one_life s (slot_manage c s').
(** Schedules, registrations included. *)
Inductive slot_move := mv_pin (i : Z) (c : tchoice) | mv_manage (c : mchoice).
Definition run_move (s : slot_state) (mv : slot_move) : slot_state :=
  match mv with mv_pin i c => slot_pin i c s | mv_manage c => slot_manage c s end.

(** ** The invariant of one life *)

(** Threads that [in_flight] counts. *)
Definition in_count (t : tpc) : bool :=
  match t with
  | p_category _ _ | p_state _ _ | p_recheck _ _ _ | p_active _ _ _ | p_live _ _ _ | p_undo_category _ | p_undo_count
  | pinned _ _ | u_generation _ _ | u_category _ | u_count => true
  | _ => false
  end.
(** Threads that have found the slot open after they were counted. *)
Definition let_in (t : tpc) : bool :=
  match t with p_active _ _ _ | p_live _ _ _ | pinned _ _ | u_generation _ _ | u_category _ | u_count => true | _ => false end.
(** Threads that work for the driver. *)
Definition at_work (t : tpc) : bool := match t with pinned _ _ | u_generation _ _ => true | _ => false end.
(** The generation of a thread past its first check. *)
Definition checked_generation (t : tpc) : option Z :=
  match t with
  | p_accepting g _ | p_count g _ | p_category g _ | p_state g _ | p_recheck g _ _ | p_active g _ _ | p_live g _ _ | pinned g _ | u_generation g _ => Some g
  | _ => None
  end.
(** The calls of the manager that work on a live driver. *)
Definition on_live (m : mpc) : bool := match m with m_close | m_decide | m_quiesce | m_abort _ | m_fail _ => true | _ => false end.
Definition closing (m : mpc) : bool := match m with m_decide | m_quiesce | m_fail _ => true | _ => false end.
Definition reopening (m : mpc) : bool := match m with m_quiesce | m_reopen => true | _ => false end.

Record life_inv (s : slot_state) : Prop := {
  li_count : in_flight (sl_quiesce s) = acount in_count (sl_pinners s);
  li_generation : forall i g, 0 <= i < alen (sl_pinners s) -> checked_generation (aget (sl_pinners s) i) = Some g -> g = q_generation (sl_quiesce s);
  li_closing : closing (sl_manager s) = true -> accepting (sl_quiesce s) = 0;
  li_closed : was_closed (sl_answers s) = true ->
    accepting (sl_quiesce s) = 0 /\ (d_active (sl_record s) = 0 \/ ended_state (d_state (sl_record s)) = true) /\ reopening (sl_manager s) = false;
  li_live : on_live (sl_manager s) = true -> d_active (sl_record s) <> 0;
  li_clear : forall n, sl_manager s = m_clear (S n) -> d_active (sl_record s) = 0;
  li_quiet : was_quiet (sl_answers s) = true -> forall i, 0 <= i < alen (sl_pinners s) -> let_in (aget (sl_pinners s) i) = false;
  li_life : registering (sl_manager s) = false;
  li_number : alen (sl_pinners s) < 2 ^ 32 }.

(** A registered driver whose pinners have not begun. *)
Record fresh_slot (s : slot_state) : Prop := {
  fs_flight : in_flight (sl_quiesce s) = 0;
  fs_manager : sl_manager s = m_idle;
  fs_answers : sl_answers s = [];
  fs_idle : forall i, 0 <= i < alen (sl_pinners s) -> aget (sl_pinners s) i = t_idle;
  fs_number : alen (sl_pinners s) < 2 ^ 32 }.
Lemma fresh_life s : fresh_slot s -> life_inv s.
Proof.
  intros [A B B' C D]. constructor; rewrite ?B, ?B'; try done.
  - rewrite A. symmetry. apply acount_none. intros i Hi. by rewrite C.
  - intros i g Hi. by rewrite C.
Qed.

(** Adding to the counter of an activity changes nothing else that matters here. *)
Lemma bump_activity_frame k d q : in_flight (bump_activity k d q) = in_flight q /\ q_generation (bump_activity k d q) = q_generation q /\ accepting (bump_activity k d q) = accepting q.
Proof. unfold bump_activity, activity_counter. by repeat (destruct (k =? _)). Qed.

Lemma let_in_count t : let_in t = true -> in_count t = true.
Proof. by destruct t. Qed.

(** What a pinner's step does to the counters, where the count is exact and its generation is the slot's. *)
Lemma pinner_step_spec c t d q t' q' n : pinner_step c t d q = (t', q') ->
  in_flight q = n -> 0 <= n < 2 ^ 32 -> (in_count t = true -> 0 < n) -> (in_count t = false -> n + 1 < 2 ^ 32) ->
  (forall g, checked_generation t = Some g -> g = q_generation q) ->
  in_flight q' = n - (if in_count t then 1 else 0) + (if in_count t' then 1 else 0) /\
  q_generation q' = q_generation q /\ accepting q' = accepting q /\
  (let_in t' = true -> let_in t = true \/ accepting q <> 0) /\
  (forall g, checked_generation t' = Some g -> g = q_generation q).
Proof.
  intros Hs Hn Hr Hp Hq Hg.
  destruct t; cbn [pinner_step] in Hs; try (destruct c);
    repeat match type of Hs with context [if ?b then _ else _] => destruct b eqn:?; bprop end;
    try (exfalso; match goal with Hx : q_generation q <> _ |- _ => apply Hx; symmetry; by apply Hg end);
    injection Hs as <- <-; cbn [in_count let_in checked_generation] in *; try specialize (Hp eq_refl); try specialize (Hq eq_refl);
    rewrite ?(proj1 (bump_activity_frame _ _ _)), ?(proj1 (proj2 (bump_activity_frame _ _ _))), ?(proj2 (proj2 (bump_activity_frame _ _ _)));
    cbn; rewrite ?Hn; rewrite ?u32_small by (unfold is_u32; lia); split_and!; try done; try lia; try (by left); try (by right); try (intros ? [= <-]; congruence).
Qed.

Lemma was_quiet_closed l : was_quiet l = true -> was_closed l = true.
Proof.
  induction l as [|[r|r|r] l IH]; cbn [was_quiet was_closed existsb closes]; [done| | |];
    [intros Hq; rewrite (IH Hq : existsb closes l = true); by rewrite orb_true_r .. |].
  intros [[_ Hq]%andb_true_iff|Hq]%orb_true_iff; [exact Hq | exact (IH Hq)].
Qed.

Lemma slot_pin_inv i c s : life_inv s -> 0 <= i < alen (sl_pinners s) -> life_inv (slot_pin i c s).
Proof.
  intros [Hc Hg Hs Hcl Hlv Hclr Ho Hl Hn] Hi. unfold slot_pin. destruct (pinner_step _ _ _ _) as [t q] eqn:Ht.
  pose proof (acount_bounds in_count (sl_pinners s)) as Hb. pose proof (acount_pos in_count (sl_pinners s) i Hi) as Hp.
  pose proof (acount_bounds in_count (aset (sl_pinners s) i (p_count 0 0))) as Hb'. rewrite acount_aset, alen_aset in Hb' by done.
  destruct (pinner_step_spec _ _ _ _ _ _ _ Ht Hc) as (Hf & Hgen & Hacc & Hin & Hch); [lia | done | | by intros g; apply Hg |].
  { intros Hz. pose proof (acount_bounds (fun t => negb (in_count t)) (sl_pinners s)). pose proof (acount_full in_count (sl_pinners s)) as Hfull.
    destruct (decide (acount in_count (sl_pinners s) = alen (sl_pinners s))) as [He|]; [|lia]. rewrite Hfull in He. rewrite (He i Hi) in Hz. done. }
  constructor; cbn [sl_quiesce sl_pinners sl_manager sl_record sl_answers]; rewrite ?alen_aset, ?Hgen, ?Hacc; try done.
  - by rewrite Hf, acount_aset.
  - intros j g Hj. rewrite aget_aset by lia. case_decide; [apply Hch | by apply Hg].
  - intros Hw j Hj. rewrite aget_aset by lia. case_decide; [|by apply Ho]. destruct (let_in t) eqn:Hlt; [|done].
    destruct (Hin eq_refl) as [Hx|Hx]; [by rewrite (Ho Hw i Hi) in Hx|]. destruct Hx. by apply Hcl, was_quiet_closed.
Qed.

(** A driver that has ended stays so, and the state [abort_load] reaches is an end. *)
Lemma ended_state_iff st : ended_state st = true <-> st = DRIVER_STATE_QUIESCING \/ st = DRIVER_STATE_FAILED \/ st = DRIVER_STATE_REJECTED.
Proof. unfold ended_state. rewrite !orb_true_iff, !Z.eqb_eq. tauto. Qed.
Lemma change_state_ended st d : ended_state (d_state d) = true -> ended_state (d_state (change_state st d)) = true.
Proof.
  intros He. unfold change_state. destruct (_ && _) eqn:Hc; [|done]. apply andb_true_iff in Hc as [_ Hc]. cbn.
  assert (d_state d = st \/ st = DRIVER_STATE_FAILED) as [<- | ->]; [|apply ended_state_iff in He as [-> | [-> | ->]]; done | done].
  apply ended_state_iff in He. unfold legal_state_transition in Hc. destruct (d_state d =? st) eqn:E; [left; by apply Z.eqb_eq | right].
  destruct He as [He | [He | He]]; rewrite He in Hc; cbn in Hc; [by apply Z.eqb_eq | done ..].
Qed.
Lemma change_state_active st d : d_active (change_state st d) = d_active d.
Proof. unfold change_state. by destruct (_ && _). Qed.
Lemma change_state_reaches st d : d_active d <> 0 -> legal_state_transition (d_state d) st = true -> d_state (change_state st d) = u8 st.
Proof. intros Ha Hl. unfold change_state, nonzero. rewrite Hl. by apply Z.eqb_neq in Ha as ->. Qed.
Lemma abort_target_ended f st : ended_state (u8 (abort_target f st)) = true.
Proof. unfold abort_target. repeat match goal with |- context [if ?b then _ else _] => destruct b eqn:?; bprop end; subst; done. Qed.

Lemma live_active g d : record_is_live g d = true -> d_active d <> 0.
Proof. unfold record_is_live. intros. bprop. done. Qed.
(** The cases of a step of the manager. *)
Ltac manager_cases m c Hm :=
  destruct m as [| | | | | | | | |n|n]; cbn [manager_step] in Hm; try match type of Hm with context [c] => destruct c end; try done;
  repeat match type of Hm with context [if ?b then _ else _] => let Hb := fresh "Hb" in destruct b eqn:Hb end;
  try (destruct n as [|[|[|n]]]); try done; injection Hm as; subst.

(** What a step of the manager leaves alone within one life. *)
Lemma manager_step_frame c m d q m' d' q' a : manager_step c m d q = (m', d', q', a) -> c <> c_register -> registering m = false ->
  (closing m = true -> accepting q = 0) -> (on_live m = true -> d_active d <> 0) -> (forall n, m = m_clear (S n) -> d_active d = 0) ->
  in_flight q' = in_flight q /\ q_generation q' = q_generation q /\ registering m' = false /\
  (closing m' = true -> accepting q' = 0) /\ (on_live m' = true -> d_active d' <> 0) /\ (forall n, m' = m_clear (S n) -> d_active d' = 0).
Proof.
  intros Hm Hc Hr Hcl Hlv Hcr.
  manager_cases m c Hm; cbn in *; rewrite ?change_state_active; split_and!; try done; try (by apply Hcl); try (by apply Hlv);
    try (intros _; bprop; by eapply live_active); intros; by eapply Hcr.
Qed.
(** The slot is closed, and no call can open it again. *)
Definition shut_for_good (m : mpc) (d : DriverRecord) (q : DriverQuiesceSlot) : Prop :=
  accepting q = 0 /\ (d_active d = 0 \/ ended_state (d_state d) = true) /\ reopening m = false.
Lemma manager_step_shut c m d q m' d' q' a : manager_step c m d q = (m', d', q', a) -> c <> c_register -> registering m = false ->
  (on_live m = true -> d_active d <> 0) -> (forall n, m = m_clear (S n) -> d_active d = 0) -> shut_for_good m d q -> shut_for_good m' d' q'.
Proof.
  intros Hm Hc Hr Hlv Hcr (Ha & Hd & Hre).
  assert (forall st, d_active (change_state st d) = 0 \/ ended_state (d_state (change_state st d)) = true) as Hst.
  { intros st. rewrite change_state_active. destruct Hd as [Hd|Hd]; [by left | right; by apply change_state_ended]. }
  assert (on_live m = true -> ended_state (d_state d) = true) as Hend by (intros Hx; destruct Hd as [Hd|]; [by destruct (Hlv Hx) | done]).
  manager_cases m c Hm; unfold shut_for_good; cbn; split_and!; try done; try (by left); try apply Hst; try (left; by eapply Hcr); try (right; by apply Hend); specialize (Hend eq_refl); congruence.
Qed.
Lemma manager_step_closes c m d q m' d' q' a : manager_step c m d q = (m', d', q', Some a) -> closes a = true -> registering m = false ->
  (closing m = true -> accepting q = 0) -> (on_live m = true -> d_active d <> 0) -> shut_for_good m' d' q'.
Proof.
  intros Hm Ha Hr Hcl Hlv. manager_cases m c Hm; cbn in Ha; try done; split_and!; try done; try (by apply Hcl); right; try done.
  - bprop. by rewrite change_state_reaches.
  - rewrite change_state_reaches; [apply abort_target_ended | by apply Hlv | done].
Qed.

Lemma manager_step_quiet c m d q m' d' q' r : manager_step c m d q = (m', d', q', Some (a_wait r)) -> r = DRIVER_LOAD_OK -> registering m = false -> in_flight q = 0.
Proof.
  intros Hm -> Hr. manager_cases m c Hm; by bprop.
Qed.

Lemma slot_manage_inv c s : c <> c_register -> life_inv s -> life_inv (slot_manage c s).
Proof.
  intros Hc [H1 H2 H3 H4 H5 H6 H7 H8 H9]. unfold slot_manage. destruct (manager_step c _ _ _) as [[[m d] q] a] eqn:Hm.
  destruct (manager_step_frame _ _ _ _ _ _ _ _ Hm Hc H8 H3 H5 H6) as (A & B & C & D & F & G). rewrite C.
  constructor; cbn [sl_quiesce sl_pinners sl_manager sl_record sl_answers]; rewrite ?A, ?B; try done.
  - intros Hw. destruct (was_closed (sl_answers s)) eqn:Hws; [exact (manager_step_shut _ _ _ _ _ _ _ _ Hm Hc H8 H5 H6 (H4 eq_refl))|].
    unfold was_closed in Hw, Hws. destruct a as [a|]; cbn in Hw; rewrite Hws in Hw; [|done]. rewrite orb_false_r in Hw. by apply (manager_step_closes _ _ _ _ _ _ _ _ Hm).
  - intros Hw. destruct (was_quiet (sl_answers s)) eqn:Hws; [by apply H7|].
    assert (in_flight (sl_quiesce s) = 0) as H0.
    { destruct a as [[r|r|r]|]; cbn in Hw; try congruence. rewrite Hws, orb_false_r in Hw. bprop. by apply (manager_step_quiet _ _ _ _ _ _ _ _ Hm). }
    intros i Hi. destruct (let_in _) eqn:Hl; [|done]. apply let_in_count in Hl. pose proof (acount_pos in_count (sl_pinners s) i Hi Hl). lia.
Qed.
Lemma one_life_inv s s' : life_inv s -> one_life s s' -> life_inv s' /\ alen (sl_pinners s') = alen (sl_pinners s).
Proof.
  intros Hs. induction 1 as [|s' i c _ [IH Hl] Hi|s' c _ [IH Hl] Hc]; [done | |].
  - split; [by apply slot_pin_inv|]. unfold slot_pin. destruct (pinner_step _ _ _ _). cbn. by rewrite alen_aset.
  - split; [by apply slot_manage_inv|]. unfold slot_manage. by destruct (manager_step _ _ _ _) as [[[? ?] ?] ?].
Qed.

(** C33: Within one life of a driver, from a registered driver in whose slot no thread is pinning yet up to the next registration of the slot, with one thread making the
    manager's calls in any order and any number of threads (fewer than 2^32) pinning and unpinning, in whatever order their accesses interleave: [in_flight] is at all
    times exactly the number of threads that are between their increment and their decrement; once a call of [begin_quiesce] or [abort_load] has answered OK the slot stays
    closed for the rest of that life, whatever is called after that, a second [begin_quiesce] included; and once a call of [wait_quiesced] that came after such a call has
    answered OK, no thread holds a pin and none can get one for the rest of that life.  (A [wait_quiesced] that answers OK on a slot nobody has closed promises nothing, since it
    does not look at [accepting]; and a thread still pinning from the life before breaks the count.) *)
Theorem driver_quiesce_excludes_activity (s s' : slot_state) : fresh_slot s -> one_life s s' ->
  in_flight (sl_quiesce s') = acount in_count (sl_pinners s') /\
  (was_closed (sl_answers s') = true -> accepting (sl_quiesce s') = 0) /\
  (was_quiet (sl_answers s') = true -> forall i, 0 <= i < alen (sl_pinners s') -> let_in (aget (sl_pinners s') i) = false).
Proof. intros Hf Hl. destruct (one_life_inv s s' (fresh_life s Hf) Hl) as [[H1 _ _ H4 _ _ H7 _ _] _]. split_and!; [done | apply H4 | done]. Qed.

(** ** The wait ends *)

(** How many steps of its own a thread is from being idle, once its holder lets go. *)
Definition steps_left (t : tpc) : nat :=
  match t with
  | t_idle => 0 | u_count | p_undo_count => 1 | u_category _ | p_undo_category _ => 2 | u_generation _ _ => 3 | pinned _ _ => 4
  | p_live _ _ _ => 5 | p_active _ _ _ => 6 | p_recheck _ _ _ => 7 | p_state _ _ => 8 | p_category _ _ => 9 | p_count _ _ => 10
  | p_accepting _ _ => 11 | p_generation _ _ => 12
  end%nat.
Lemma pinner_go t d q : (steps_left (pinner_step t_go t d q).1 <= pred (steps_left t))%nat.
Proof. destruct t; cbn; repeat case_match; cbn; lia. Qed.

(** Thread [i] runs on by itself; then every thread in turn. *)
Definition let_run (i : Z) (s : slot_state) : slot_state := Nat.iter 12 (slot_pin i t_go) s.
Definition let_all_run (s : slot_state) : slot_state := for_range 0 (alen (sl_pinners s)) let_run s.

Lemma slot_pin_at i c s j : 0 <= i < alen (sl_pinners s) -> 0 <= j ->
  aget (sl_pinners (slot_pin i c s)) j = if decide (i = j) then (pinner_step c (aget (sl_pinners s) i) (sl_record s) (sl_quiesce s)).1 else aget (sl_pinners s) j.
Proof. intros Hi Hj. unfold slot_pin. destruct (pinner_step _ _ _ _) as [t q]. cbn [sl_pinners fst]. by apply aget_aset. Qed.
Lemma slot_pin_frame i c s : alen (sl_pinners (slot_pin i c s)) = alen (sl_pinners s) /\ sl_manager (slot_pin i c s) = sl_manager s /\ sl_answers (slot_pin i c s) = sl_answers s.
Proof. unfold slot_pin. destruct (pinner_step _ _ _ _) as [t q]. cbn. by rewrite alen_aset. Qed.

Lemma let_run_spec n i s : 0 <= i < alen (sl_pinners s) -> life_inv s -> let s' := Nat.iter n (slot_pin i t_go) s in
  life_inv s' /\ alen (sl_pinners s') = alen (sl_pinners s) /\ (sl_manager s' = sl_manager s /\ sl_answers s' = sl_answers s) /\
  (steps_left (aget (sl_pinners s') i) <= steps_left (aget (sl_pinners s) i) - n)%nat /\
  forall j, 0 <= j -> j <> i -> aget (sl_pinners s') j = aget (sl_pinners s) j.
Proof.
  intros Hi Hok. induction n as [|n IH]; [change (Nat.iter 0 (slot_pin i t_go) s) with s; split_and!; (done || lia)|]. destruct IH as (I1 & I2 & [I3 I3'] & I4 & I5). cbv zeta.
  rewrite Nat.iter_succ. set (s1 := Nat.iter n (slot_pin i t_go) s) in *. destruct (slot_pin_frame i t_go s1) as (F1 & F2 & F3).
  split_and!; [apply slot_pin_inv; [done | lia] | lia | congruence | congruence | |].
  - rewrite slot_pin_at, decide_True by (done || lia). pose proof (pinner_go (aget (sl_pinners s1) i) (sl_record s1) (sl_quiesce s1)). lia.
  - intros j Hj Hne. rewrite slot_pin_at, decide_False by (congruence || lia). by apply I5.
Qed.
Lemma idle_iff t : (steps_left t <= 0)%nat -> t = t_idle.
Proof. destruct t; cbn; (done || lia). Qed.
Lemma let_all_run_spec s : life_inv s ->
  life_inv (let_all_run s) /\ (sl_manager (let_all_run s) = sl_manager s /\ sl_answers (let_all_run s) = sl_answers s) /\ forall j, 0 <= j < alen (sl_pinners (let_all_run s)) -> aget (sl_pinners (let_all_run s)) j = t_idle.
Proof.
  intros Hok. unfold let_all_run.
  pose proof (for_range_inv (fun i s' => life_inv s' /\ alen (sl_pinners s') = alen (sl_pinners s) /\ (sl_manager s' = sl_manager s /\ sl_answers s' = sl_answers s) /\ forall j, 0 <= j < i -> aget (sl_pinners s') j = t_idle)
    0 (alen (sl_pinners s)) let_run s (alen_nonneg _)) as Hloop.
  destruct Hloop as (A & B & C & D); [split_and!; (done || lia) | | split_and!; [done | apply C | apply C | by rewrite B]].
  intros i s1 Hi (A & B & [C1 C2] & D). destruct (let_run_spec 12 i s1 ltac:(lia) A) as (A' & B' & [C1' C2'] & F & G). unfold let_run. split_and!; [done | lia | congruence | congruence |].
  intros j Hj. destruct (decide (j = i)) as [->|Hne]; [|rewrite G by lia; apply D; lia]. apply idle_iff.
  assert (steps_left (aget (sl_pinners s1) i) <= 12)%nat by (destruct (aget (sl_pinners s1) i); cbn; lia). lia.
Qed.

(** [wait_quiesced] does not wait for threads that come late: within one life, once the slot is being waited on, when the holders of pins have let go and every
    thread has run at most twelve steps of its own, nobody is counted and the manager's next load of [in_flight] ends the wait. *)
Theorem driver_quiesce_wait_ends (s s' : slot_state) : fresh_slot s -> one_life s s' -> sl_manager s' = m_wait ->
  let s'' := let_all_run s' in
  (forall j, 0 <= j < alen (sl_pinners s'') -> aget (sl_pinners s'') j = t_idle) /\ in_flight (sl_quiesce s'') = 0 /\ sl_answers (slot_manage c_go s'') = a_wait DRIVER_LOAD_OK :: sl_answers s'.
Proof.
  intros Hf Hl Hm. destruct (one_life_inv s s' (fresh_life s Hf) Hl) as [Hok _]. destruct (let_all_run_spec s' Hok) as (A & [B B'] & C). cbv zeta.
  assert (in_flight (sl_quiesce (let_all_run s')) = 0) as H0. { rewrite (li_count _ A). apply acount_none. intros i Hi. by rewrite C. }
  split_and!; [done | done |]. unfold slot_manage. rewrite B, Hm. cbn [manager_step]. rewrite H0. cbn. by rewrite B'.
Qed.

(** ** One thread alone is [driver_manager_activity_pin] *)

Definition settled (t : tpc) : bool := match t with t_idle | pinned _ _ => true | _ => false end.
Definition pin_alone_step (d : DriverRecord) (tq : tpc * DriverQuiesceSlot) : tpc * DriverQuiesceSlot :=
  if settled tq.1 then tq else pinner_step t_go tq.1 d tq.2.
Definition pin_alone (g k : Z) (d : DriverRecord) (q : DriverQuiesceSlot) : tpc * DriverQuiesceSlot := Nat.iter 10 (pin_alone_step d) (p_generation g k, q).

Lemma settled_stays n d tq : settled tq.1 = true -> Nat.iter n (pin_alone_step d) tq = tq.
Proof. intros Ht. induction n as [|n IH]; [done|]. rewrite Nat.iter_succ, IH. unfold pin_alone_step. by rewrite Ht. Qed.
Ltac next_step := rewrite Nat.iter_succ_r; unfold pin_alone_step at 2; cbn [settled pinner_step fst snd].
Lemma pin_alone_eq g k d q : pin_alone g k d q =
  if negb (q_generation q =? g) || (accepting q =? 0) then (t_idle, q)
  else
    let q1 := bump_activity k 1 (q <| in_flight := u32 (in_flight q + 1) |>) in
    if nonzero (d_active d) && ((d_generation d =? g) && pinnable_state (d_state d)) then (pinned g k, q1)
    else (t_idle, (bump_activity k (-1) q1) <| in_flight := u32 (in_flight q1 - 1) |>).
Proof.
  unfold pin_alone. next_step. destruct (q_generation q =? g); cbn [negb orb]; [|by rewrite settled_stays].
  next_step. destruct (accepting q =? 0) eqn:E2; [by rewrite settled_stays|]. do 3 next_step. set (q1 := bump_activity k 1 _).
  assert ((accepting q1 =? 0) = false) as Ha by (unfold q1; by rewrite (proj2 (proj2 (bump_activity_frame _ _ _)))). next_step. rewrite Ha. cbv zeta.
  assert (forall n, Nat.iter (S (S n)) (pin_alone_step d) (p_undo_category k, q1) = (t_idle, (bump_activity k (-1) q1) <| in_flight := u32 (in_flight q1 - 1) |>)) as Hundo.
  { intros n. do 2 next_step. rewrite settled_stays by done. by rewrite (proj1 (bump_activity_frame k (-1) q1)). }
  next_step. destruct (nonzero (d_active d)); cbn [andb]; [|by rewrite Hundo]. next_step. destruct (_ && _); [by rewrite settled_stays | by rewrite Hundo].
Qed.

(** The stepwise model is the code: a thread that runs its steps undisturbed does to the slot's counters exactly what [driver_manager_activity_pin]
    does, and ends up holding the pin exactly when that call succeeds. *)
Theorem driver_pin_steps_refine_call (owner : DriverIdentity) (k : Z) (s : DriverState) :
  0 <= id_slot owner -> alen (quiesce s) = DRIVER_MAX_RECORDS -> driver_identity_is_valid owner = true -> pin_args_ok (id_generation owner) k = true ->
  let '(res, token, s') := driver_manager_activity_pin owner k true s in
  let '(t, q) := pin_alone (id_generation owner) k (driver_at s (id_slot owner)) (quiesce_at s (id_slot owner)) in
  q = quiesce_at s' (id_slot owner) /\ (res = DRIVER_LOAD_OK <-> t = pinned (id_generation owner) k) /\ (res <> DRIVER_LOAD_OK -> t = t_idle).
Proof.
  intros H0 Hlen Hv Hk. unfold driver_manager_activity_pin. rewrite Hv. unfold pin_args_ok in Hk. apply andb_true_iff in Hk as [Hg Hk%negb_true_iff]. cbn [negb orb]. rewrite Hk.
  set (slot := id_slot owner) in *. set (d := driver_at s slot). set (g := id_generation owner) in *. set (q := quiesce_at s slot).
  assert (0 <= slot < alen (quiesce s)) as Hslot. { unfold driver_identity_is_valid in Hv. apply andb_true_iff in Hv as [Hv%Z.ltb_lt _]. rewrite Hlen. split; [done | exact Hv]. }
  assert (forall f s1, alen (quiesce s1) = alen (quiesce s) -> quiesce_at (upd_quiesce slot f s1) slot = f (quiesce_at s1 slot)) as Hupd.
  { intros f s1 Hq. unfold quiesce_at. change (quiesce (upd_quiesce slot f s1)) with (aset (quiesce s1) slot (f (aget (quiesce s1) slot))). apply aget_aset_eq. by rewrite Hq. }
  rewrite pin_alone_eq. destruct (negb (q_generation q =? g) || (accepting q =? 0)) eqn:E1; [done|].
  set (s1 := upd_quiesce slot _ s). assert (quiesce_at s1 slot = bump_activity k 1 (q <| in_flight := u32 (in_flight q + 1) |>)) as Hq1 by (by apply Hupd).
  assert (alen (quiesce s1) = alen (quiesce s)) as Hl1 by apply alen_aset.
  apply orb_false_iff in E1 as [_ E1]. rewrite Hq1, (proj2 (proj2 (bump_activity_frame _ _ _))). change (accepting (set_field in_flight _ q)) with (accepting q). rewrite E1. cbn [orb].
  unfold driver_manager_identity_is_live. rewrite Hv. fold slot. change (driver_at s1 slot) with d. fold g. cbn [andb].
  destruct (nonzero (d_active d)); cbn [andb negb orb]; [destruct (d_generation d =? g); cbn [andb negb orb]; [destruct (pinnable_state (d_state d)); cbn [negb]|]|];
    (split_and!; [|done|done]); try (symmetry; exact Hq1);
    (match goal with |- _ = quiesce_at ?s2 slot => change (quiesce_at s2 slot) with (quiesce_at (upd_quiesce slot (fun q => (bump_activity k (-1) q) <| in_flight := u32 (in_flight q - 1) |>) s1) slot) end;
     by rewrite Hupd, Hq1).
Qed.

(** ** The manager alone is [driver_manager_begin_quiesce] and [driver_manager_abort_load] *)

(** The manager makes one call and takes its steps until it answers. *)
Fixpoint manager_alone (n : nat) (c : mchoice) (m : mpc) (d : DriverRecord) (q : DriverQuiesceSlot) : DriverRecord * DriverQuiesceSlot * option manswer :=
  match n with
  | 0%nat => (d, q, None)
  | S n => let '(m, d, q, a) := manager_step c m d q in match a with Some a => (d, q, Some a) | None => manager_alone n c_go m d q end
  end.

Lemma change_state_same st d : d_state d = st -> u8 st = st -> change_state st d = d.
Proof. intros <- Hu. unfold change_state. rewrite Hu. destruct d. by destruct (_ && _). Qed.
Lemma abort_target_u8 f st : u8 (abort_target f st) = abort_target f st.
Proof. unfold abort_target. repeat match goal with |- context [if ?b then _ else _] => destruct b eqn:?; bprop end; subst; done. Qed.

Section manager_calls.
  Context (owner : DriverIdentity) (s : DriverState) (Hslot : 0 <= id_slot owner < DRIVER_MAX_RECORDS)
    (Hd : alen (drivers s) = DRIVER_MAX_RECORDS) (Hq : alen (quiesce s) = DRIVER_MAX_RECORDS).
Lemma live_is_record_is_live s1 : driver_manager_identity_is_live owner s1 = record_is_live (id_generation owner) (driver_at s1 (id_slot owner)).
Proof using Hslot. unfold driver_manager_identity_is_live, record_is_live, driver_identity_is_valid. by rewrite (proj2 (Z.ltb_lt _ _) (proj2 Hslot)). Qed.
Lemma set_accepting_at v s1 : alen (quiesce s1) = DRIVER_MAX_RECORDS ->
  quiesce_at (set_accepting (id_slot owner) v s1) (id_slot owner) = (quiesce_at s1 (id_slot owner)) <| accepting := v |> /\
  driver_at (set_accepting (id_slot owner) v s1) (id_slot owner) = driver_at s1 (id_slot owner).
Proof using Hslot.
  intros Hl. split; [|done]. unfold quiesce_at. change (quiesce (set_accepting (id_slot owner) v s1)) with (aset (quiesce s1) (id_slot owner) ((aget (quiesce s1) (id_slot owner)) <| accepting := v |>)).
  apply aget_aset_eq. by rewrite Hl.
Qed.
Lemma set_state_identity_at st s1 : alen (drivers s1) = DRIVER_MAX_RECORDS -> driver_manager_identity_is_live owner s1 = true ->
  let '(res, s2) := driver_manager_set_state_identity owner st s1 in
  res = (if legal_state_transition (d_state (driver_at s1 (id_slot owner))) st then DRIVER_LOAD_OK else DRIVER_LOAD_STATE_DENIED) /\
  driver_at s2 (id_slot owner) = change_state st (driver_at s1 (id_slot owner)) /\ quiesce s2 = quiesce s1.
Proof using Hslot.
  intros Hl Hlive. unfold driver_manager_set_state_identity. rewrite Hlive. rewrite live_is_record_is_live in Hlive. cbn [negb]. unfold change_state.
  assert (nonzero (d_active (driver_at s1 (id_slot owner))) = true) as -> by (apply negb_true_iff, Z.eqb_neq, (live_active _ _ Hlive)).
  destruct (legal_state_transition _ _); cbn [negb andb]; [|done]. split_and!; [done | | done].
  apply (aget_aset_eq (drivers s1)). by rewrite Hl.
Qed.

(** The manager's steps are the code: undisturbed, they do to the slot what the calls do to it, and give their answers. *)
Theorem driver_begin_steps_refine_call :
  let '(res, s') := driver_manager_begin_quiesce owner s in
  manager_alone 5 (c_begin (id_generation owner)) m_idle (driver_at s (id_slot owner)) (quiesce_at s (id_slot owner)) =
    (driver_at s' (id_slot owner), quiesce_at s' (id_slot owner), Some (a_begin res)).
Proof using Hslot Hd Hq.
  unfold driver_manager_begin_quiesce. rewrite live_is_record_is_live. cbn [manager_alone manager_step]. set (slot := id_slot owner). set (d := driver_at s slot).
  destruct (record_is_live (id_generation owner) d) eqn:Hl; cbn [negb andb]; [|done]. destruct (q_generation (quiesce_at s slot) =? id_generation owner) eqn:Hg; cbn [negb]; [|done].
  destruct (set_accepting_at 0 s Hq) as [A1 A2]. fold slot in A1, A2. fold d in A2. rewrite A2. cbn [manager_step].
  destruct (ended_state (d_state d)) eqn:He; unfold ended_state in He; rewrite He; [by rewrite A1, A2|].
  assert (alen (quiesce (set_accepting slot 0 s)) = DRIVER_MAX_RECORDS) as Hq1 by (etransitivity; [apply alen_aset | exact Hq]).
  destruct (set_accepting_at 1 (set_accepting slot 0 s) Hq1) as [B1 B2]. fold slot in B1, B2. rewrite A1 in B1. rewrite A2 in B2.
  destruct (negb (d_state d =? _) && _) eqn:Hrl; cbn [manager_step]; [by rewrite B1, B2|].
  pose proof (set_state_identity_at DRIVER_STATE_QUIESCING (set_accepting slot 0 s) Hd) as Hst. rewrite live_is_record_is_live in Hst. fold slot in Hst. rewrite A2 in Hst. specialize (Hst Hl).
  destruct (driver_manager_set_state_identity owner _ _) as [res s2]. destruct Hst as (R1 & R2 & R3).
  assert (nonzero (d_active d) = true) as Hact by (apply negb_true_iff, Z.eqb_neq, (live_active _ _ Hl)).
  assert (legal_state_transition (d_state d) DRIVER_STATE_QUIESCING = true) as Hleg.
  { bprop; match goal with Hx : d_state d = _ |- _ => by rewrite Hx end. }
  rewrite Hact, Hleg. rewrite Hleg in R1. subst res. rewrite Z.eqb_refl. cbn [andb negb]. rewrite R2. unfold quiesce_at at 2. rewrite R3. by rewrite <- A1.
Qed.
Theorem driver_abort_steps_refine_call failure_state :
  let '(res, s') := driver_manager_abort_load owner failure_state s in
  manager_alone 3 (c_abort (id_generation owner) failure_state) m_idle (driver_at s (id_slot owner)) (quiesce_at s (id_slot owner)) =
    (driver_at s' (id_slot owner), quiesce_at s' (id_slot owner), Some (a_abort res)).
Proof using Hslot Hd Hq.
  unfold driver_manager_abort_load. rewrite live_is_record_is_live. cbn [manager_alone manager_step]. set (slot := id_slot owner). set (d := driver_at s slot).
  destruct (record_is_live (id_generation owner) d) eqn:Hl; cbn [negb andb]; [|done]. destruct (q_generation (quiesce_at s slot) =? id_generation owner) eqn:Hg; cbn [negb]; [|done].
  destruct (set_accepting_at 0 s Hq) as [A1 A2]. fold slot in A1, A2. fold d in A2. rewrite A2. cbn [manager_step]. fold (abort_target failure_state (d_state d)).
  pose proof (set_state_identity_at (abort_target failure_state (d_state d)) (set_accepting slot 0 s) Hd) as Hst. rewrite live_is_record_is_live in Hst. fold slot in Hst. rewrite A2 in Hst. specialize (Hst Hl).
  destruct (d_state d =? _) eqn:Heq.
  - unfold legal_state_transition. rewrite Heq. apply Z.eqb_eq in Heq. by rewrite change_state_same, A1, A2 by (done || apply abort_target_u8).
  - destruct (driver_manager_set_state_identity owner _ _) as [res s2]. destruct Hst as (-> & -> & R3). unfold quiesce_at at 2. rewrite R3. by rewrite <- A1.
Qed.
End manager_calls.

(** ** Concrete runs *)

Definition ready_slot : slot_state := {|
  sl_record := (inhabitant : DriverRecord) <| d_active := 1 |> <| d_state := DRIVER_STATE_READY |> <| d_generation := 1 |>;
  sl_quiesce := (inhabitant : DriverQuiesceSlot) <| q_generation := 1 |> <| accepting := 1 |>;
  sl_manager := m_idle; sl_pinners := [t_idle; t_idle]; sl_answers := [] |}.
Lemma ready_slot_fresh : fresh_slot ready_slot.
Proof.
  constructor; [done | done | done | | done]. intros i Hi. change (alen (sl_pinners ready_slot)) with 2 in Hi. assert (i = 0 \/ i = 1) as [-> | ->] by lia; done.
Qed.

Definition move_in_life (n : Z) (mv : slot_move) : bool :=
  match mv with mv_pin i _ => (0 <=? i) && (i <? n) | mv_manage c_register => false | mv_manage _ => true end.
Lemma run_in_life s mvs : forallb (move_in_life (alen (sl_pinners s))) mvs = true -> one_life s (foldl run_move s mvs).
Proof.
  induction mvs as [|mv mvs IH] using rev_ind; intros Hm; [constructor|]. rewrite forallb_app in Hm. apply andb_true_iff in Hm as [Hms Hm]. cbn in Hm. rewrite andb_true_r in Hm.
  rewrite foldl_app. cbn. pose proof (IH Hms) as Hl. assert (alen (sl_pinners (foldl run_move s mvs)) = alen (sl_pinners s)) as Hlen.
  { clear. generalize s. induction mvs as [|mv mvs IH]; intros s0; [done|]. cbn. rewrite IH. destruct mv; cbn; [apply slot_pin_frame|].
    unfold slot_manage. by destruct (manager_step _ _ _ _) as [[[? ?] ?] ?]. }
  destruct mv as [i c|c]; cbn in *.
  - apply andb_true_iff in Hm as [H1%Z.leb_le H2%Z.ltb_lt]. apply life_pin; [done | lia].
  - apply life_manage; [done|]. by intros ->.
Qed.

Definition go (i : Z) (n : nat) : list slot_move := replicate n (mv_pin i t_go).
Definition manage_go (n : nat) : list slot_move := replicate n (mv_manage c_go).
(** A pin, the begin of a quiesce while it is held, its end, a late pinner, the wait; then a second [begin_quiesce] and another attempt to pin. *)
Definition quiet_moves : list slot_move :=
  [mv_pin 0 (t_pin 1 DRIVER_ACTIVITY_CALL)] ++ go 0 8 ++ [mv_pin 1 (t_pin 1 DRIVER_ACTIVITY_IRQ)] ++ go 1 3 ++ [mv_manage (c_begin 1)] ++ manage_go 3 ++ [mv_manage (c_wait 1)] ++
  manage_go 2 ++ go 0 4 ++ go 1 6 ++ manage_go 1 ++ [mv_manage (c_begin 1)] ++ manage_go 2 ++ [mv_pin 1 (t_pin 1 DRIVER_ACTIVITY_IRQ)] ++ go 1 2.
Lemma driver_quiesce_excludes_activity_witness : let s := foldl run_move ready_slot quiet_moves in
  sl_answers s = [a_begin DRIVER_LOAD_OK; a_wait DRIVER_LOAD_OK; a_begin DRIVER_LOAD_OK] /\
  in_flight (sl_quiesce s) = acount in_count (sl_pinners s) /\ accepting (sl_quiesce s) = 0 /\ let_in (aget (sl_pinners s) 1) = false.
Proof.
  cbv zeta. destruct (driver_quiesce_excludes_activity ready_slot (foldl run_move ready_slot quiet_moves) ready_slot_fresh) as (H1 & H2 & H3); [apply run_in_life; vm_compute; reflexivity|].
  split; [vm_compute; reflexivity|]. split; [exact H1|]. split; [apply H2; vm_compute; reflexivity|].
  apply H3; [vm_compute; reflexivity | vm_compute; split; [discriminate | reflexivity]].
Defined.
Lemma driver_quiesce_wait_ends_witness :
  sl_answers (slot_manage c_go (let_all_run (foldl run_move ready_slot (take 20 quiet_moves)))) = [a_wait DRIVER_LOAD_OK; a_begin DRIVER_LOAD_OK].
Proof.
  apply (driver_quiesce_wait_ends ready_slot (foldl run_move ready_slot (take 20 quiet_moves)) ready_slot_fresh); [apply run_in_life; vm_compute; reflexivity | vm_compute; reflexivity].
Defined.

(** Without a close before it the answer of [wait_quiesced] says nothing: on an open slot it answers OK, and a thread takes a pin right after. *)
Definition open_moves : list slot_move := [mv_manage (c_wait 1)] ++ manage_go 1 ++ [mv_pin 0 (t_pin 1 DRIVER_ACTIVITY_CALL)] ++ go 0 8.
Theorem driver_wait_on_open_slot : let s := foldl run_move ready_slot open_moves in
  sl_answers s = [a_wait DRIVER_LOAD_OK] /\ was_quiet (sl_answers s) = false /\ aget (sl_pinners s) 0 = pinned 1 DRIVER_ACTIVITY_CALL.
Proof. vm_compute. done. Qed.
(** A [begin_quiesce] that is refused opens the slot again: here the driver is still loading. *)
Theorem driver_refused_quiesce_reopens :
  let s := foldl run_move (slot_manage (c_set_state DRIVER_STATE_LOADING) (foldl run_move ready_slot ([mv_manage c_unregister] ++ manage_go 4 ++ [mv_manage c_register] ++ manage_go 11)))
    ([mv_manage (c_begin 2)] ++ manage_go 3) in
  sl_answers s = [a_begin DRIVER_LOAD_STATE_DENIED] /\ accepting (sl_quiesce s) = 1.
Proof. vm_compute. done. Qed.

(** A thread that is delayed between its check of [accepting] and its increment, while the driver is unloaded and another is registered in the slot:
    [activate_driver_record] sets [in_flight] back to 0 after the increment and the thread decrements afterwards. *)
Definition late_moves : list slot_move :=
  [mv_pin 0 (t_pin 1 DRIVER_ACTIVITY_CALL)] ++ go 0 2 ++
  [mv_manage (c_begin 1)] ++ manage_go 3 ++ [mv_manage (c_wait 1)] ++ manage_go 1 ++ [mv_manage c_unregister] ++ manage_go 4 ++
  go 0 1 ++ [mv_manage c_register] ++ manage_go 11 ++ [mv_manage (c_set_state DRIVER_STATE_READY)].
Definition new_activity : list slot_move := [mv_pin 1 (t_pin 2 DRIVER_ACTIVITY_CALL)] ++ go 1 8.
Definition late_undo : list slot_move := go 0 7.
Definition unload_again : list slot_move := [mv_manage (c_begin 2)] ++ manage_go 3 ++ [mv_manage (c_wait 2)] ++ manage_go 1.

(** Across a re-registration the counting fails: a thread that loses the race with an unload and a new registration of the slot takes one away from the new
    driver's [in_flight].  The manager then finds the new driver quiet, and goes on to unload it, while a thread holds a pin on it; with no such pin the counter is 4294967295 and
    the driver can never be found quiet. *)
Theorem driver_quiesce_fails_after_reregistration :
  (let s := foldl run_move ready_slot (late_moves ++ new_activity ++ late_undo ++ unload_again) in
   was_quiet (sl_answers s) = true /\ d_generation (sl_record s) = 2 /\ aget (sl_pinners s) 1 = pinned 2 DRIVER_ACTIVITY_CALL) /\
  in_flight (sl_quiesce (foldl run_move ready_slot (late_moves ++ late_undo))) = 0xFFFFFFFF.
Proof. vm_compute. done. Qed.

Definition pin_state : DriverState := {|
  drivers := replicate 32 (sl_record ready_slot); last_error := {| e_result := 0; e_index := 0; e_detail := 0; e_stage := []; e_module := []; e_name := [] |};
  lifecycle_driver := []; quiesce := replicate 32 (sl_quiesce ready_slot); quiesce_pins := 0; quiesce_unpins := 0; quiesce_rejections := 0; quiesce_waits := 0;
  quiesce_timeouts := 0; quiesce_quarantines := 0; resources := replicate 128 inhabitant; resource_stats := no_resource_stats |}.
Lemma driver_pin_steps_refine_call_witness :
  (pin_alone 1 DRIVER_ACTIVITY_CALL (driver_at pin_state 2) (quiesce_at pin_state 2)).1 = pinned 1 DRIVER_ACTIVITY_CALL /\
  let '(res, token, s') := driver_manager_activity_pin {| id_slot := 2; id_generation := 1 |} DRIVER_ACTIVITY_CALL true pin_state in
  let '(t, q) := pin_alone 1 DRIVER_ACTIVITY_CALL (driver_at pin_state 2) (quiesce_at pin_state 2) in
  q = quiesce_at s' 2 /\ (res = DRIVER_LOAD_OK <-> t = pinned 1 DRIVER_ACTIVITY_CALL) /\ (res <> DRIVER_LOAD_OK -> t = t_idle).
Proof.
  split; [vm_compute; reflexivity|].
  apply (driver_pin_steps_refine_call {| id_slot := 2; id_generation := 1 |} DRIVER_ACTIVITY_CALL pin_state); [done | done | reflexivity | reflexivity].
Defined.
