(* ===== verification/DriverSpec.v ===== *)
(** * Drivers and the resources they own

    Every active resource belongs to a driver that is registered now, whatever is registered, failed, unregistered or
    registered again; the resource counters are exact, and no two drivers share a name. *)

From S2P Require Import Prelude KernelEnv DriverRecords.

Implicit Types (s : DriverState) (i j k : Z) (o : DriverIdentity).

(** ** The resource table *)

Definition res_active (r : DriverResourceRecord) : bool := nonzero (r_active r).
Definition res_of_kind k (r : DriverResourceRecord) : bool := res_active r && (r_kind r =? k).

Record resources_ok s : Prop := {
  rt_length : alen (resources s) = DRIVER_MAX_RESOURCES /\ alen (rs_by_kind (resource_stats s)) = 8;
  rt_slots : forall i, 0 <= i < DRIVER_MAX_RESOURCES -> r_slot (resource_at s i) = i;
  rt_kinds : forall i, 0 <= i < DRIVER_MAX_RESOURCES -> res_active (resource_at s i) = true -> resource_kind_valid (r_kind (resource_at s i)) = true;
  rt_active : rs_active (resource_stats s) = acount res_active (resources s);
  rt_by_kind : forall k, 0 <= k < 8 -> aget (rs_by_kind (resource_stats s)) k = acount (res_of_kind k) (resources s) }.

(** Every active resource has an owner that satisfies [P]. *)
Definition owners_in (P : DriverIdentity -> Prop) s : Prop :=
  forall i, 0 <= i < DRIVER_MAX_RESOURCES -> res_active (resource_at s i) = true -> P (r_owner (resource_at s i)).

(** Operations on resources leave the drivers alone. *)
Definition same_drivers s s' : Prop := drivers s' = drivers s /\ quiesce s' = quiesce s.
Lemma same_drivers_refl s : same_drivers s s.
Proof. done. Qed.
Lemma same_drivers_trans s1 s2 s3 : same_drivers s1 s2 -> same_drivers s2 s3 -> same_drivers s1 s3.
Proof. intros [] []. split; congruence. Qed.
Lemma same_drivers_live o s s' : same_drivers s s' -> driver_manager_identity_is_live o s' = driver_manager_identity_is_live o s.
Proof. intros [Hd _]. unfold driver_manager_identity_is_live, driver_at. by rewrite Hd. Qed.
Lemma same_drivers_accepts o s s' : same_drivers s s' -> driver_manager_identity_accepts_resources o s' = driver_manager_identity_accepts_resources o s.
Proof. intros Hs. unfold driver_manager_identity_accepts_resources. rewrite (same_drivers_live _ _ _ Hs). destruct Hs as [Hd _]. unfold driver_at. by rewrite Hd. Qed.

Lemma resource_upd_at i f s j : alen (resources s) = DRIVER_MAX_RESOURCES -> 0 <= i < DRIVER_MAX_RESOURCES -> 0 <= j ->
  resource_at (upd_resource i f s) j = if decide (i = j) then f (resource_at s i) else resource_at s j.
Proof.
  intros Hlen Hi Hj. unfold resource_at. change (resources (upd_resource i f s)) with (aset (resources s) i (f (resource_at s i))).
  apply aget_aset; [by rewrite Hlen | done].
Qed.

Lemma by_kind_bound s k : resources_ok s -> 0 <= k < 8 -> 0 <= aget (rs_by_kind (resource_stats s)) k <= DRIVER_MAX_RESOURCES.
Proof. intros [[Hl _] _ _ _ Hk] Hr. rewrite Hk, <- Hl by done. apply acount_bounds. Qed.

Lemma identity_equal_iff a b : driver_identity_equal a b = true <-> a = b.
Proof.
  unfold driver_identity_equal. split; [|intros ->; by rewrite !Z.eqb_refl]. intros [H1%Z.eqb_eq H2%Z.eqb_eq]%andb_true_iff. destruct a, b. cbn in *. congruence.
Qed.
Lemma identity_equal_neq a b : driver_identity_equal a b = false <-> a <> b.
Proof. rewrite <- identity_equal_iff. destruct (driver_identity_equal a b); naive_solver. Qed.

(** ** Dropping one resource *)

Record dropped i s s' : Prop := {
  dr_ok : resources_ok s';
  dr_drivers : same_drivers s s';
  dr_at : forall j, 0 <= j -> resource_at s' j = if decide (i = j) then clear_record (resource_at s i) else resource_at s j }.

Lemma drop_resource_spec i s : resources_ok s -> 0 <= i < DRIVER_MAX_RESOURCES -> res_active (resource_at s i) = true -> dropped i s (drop_resource i s).
Proof.
  intros Hok Hi Ha. pose proof Hok as [[Hl Hlk] Hs Hk Hc Hb]. pose proof (Hk i Hi Ha) as Hkind. unfold resource_kind_valid, DRIVER_RESOURCE_NONE, DRIVER_RESOURCE_DMA in Hkind. bprop.
  set (kd := r_kind (resource_at s i)) in *. assert (0 <= kd < 8) as Hkd by lia.
  pose proof (acount_pos res_active (resources s) i ltac:(by rewrite Hl) Ha) as Hp.
  pose proof (acount_pos (res_of_kind kd) (resources s) i ltac:(by rewrite Hl) ltac:(unfold res_of_kind; fold (resource_at s i); by rewrite Ha, Z.eqb_refl)) as Hpk.
  pose proof (acount_bounds res_active (resources s)) as Hbd. pose proof (acount_bounds (res_of_kind kd) (resources s)) as Hbk. rewrite Hl in Hbd, Hbk. unfold DRIVER_MAX_RESOURCES in *.
  assert (forall j, 0 <= j -> resource_at (drop_resource i s) j = if decide (i = j) then clear_record (resource_at s i) else resource_at s j) as Hat.
  { intros j Hj. change (resource_at (drop_resource i s) j) with (resource_at (upd_resource i clear_record s) j). by apply resource_upd_at. }
  constructor; [|done|done].
  assert (resources (drop_resource i s) = aset (resources s) i (clear_record (resource_at s i))) as Hr1 by done.
  assert (rs_active (resource_stats (drop_resource i s)) = acount res_active (resources s) - 1 /\
    rs_by_kind (resource_stats (drop_resource i s)) = aset (rs_by_kind (resource_stats s)) kd (acount (res_of_kind kd) (resources s) - 1)) as [Hr2 Hr3].
  { unfold drop_resource. fold kd. set (s1 := upd_resource i clear_record s). unfold upd_rstats. change (resource_stats s1) with (resource_stats s). cbv zeta.
    rewrite Hc. replace (nonzero (acount res_active (resources s))) with true by (symmetry; unfold nonzero; apply negb_true_iff, Z.eqb_neq; lia).
    change (rs_by_kind ((resource_stats s) <| rs_active := u32 (acount res_active (resources s) - 1) |>)) with (rs_by_kind (resource_stats s)). rewrite (Hb kd Hkd).
    replace ((kd <? 8) && nonzero (acount (res_of_kind kd) (resources s))) with true.
    2: { symmetry. apply andb_true_iff. split; [apply Z.ltb_lt; lia|]. unfold nonzero. apply negb_true_iff, Z.eqb_neq. lia. }
    cbn. unwrap. done. }
  constructor.
  - rewrite Hr1, Hr3, !alen_aset. done.
  - intros j Hj. rewrite Hat by lia. case_decide; [subst; apply Hs; done | by apply Hs].
  - intros j Hj. rewrite Hat by lia. case_decide; [done | by apply Hk].
  - rewrite Hr1, Hr2, acount_aset by (by rewrite Hl). fold (resource_at s i). rewrite Ha. cbn. lia.
  - intros k Hk'. rewrite Hr1, Hr3, acount_aset, aget_aset by (rewrite ?Hl, ?Hlk; lia). fold (resource_at s i). unfold res_of_kind at 3 4. rewrite Ha. fold kd. cbn.
    case_decide; [subst k; rewrite Z.eqb_refl; lia|]. replace (kd =? k) with false by (symmetry; by apply Z.eqb_neq). rewrite Hb by done. lia.
Qed.

(** ** Releasing all resources of an owner *)

Lemma release_owner_spec o s : resources_ok s ->
  let '(n, s') := release_owner_body o s in
  n = acount (fun r => res_active r && driver_identity_equal (r_owner r) o) (resources s) /\
  resources_ok s' /\ same_drivers s s' /\
  forall j, 0 <= j < DRIVER_MAX_RESOURCES -> resource_at s' j = (if res_active (resource_at s j) && driver_identity_equal (r_owner (resource_at s j)) o then clear_record (resource_at s j) else resource_at s j).
Proof.
  intros Hok. unfold release_owner_body. set (mine := fun r => res_active r && driver_identity_equal (r_owner r) o).
  pose proof (for_range_inv (fun i st => st.1 = acount mine (take (Z.to_nat i) (resources s)) /\ resources_ok st.2 /\ same_drivers s st.2 /\
    (forall j, 0 <= j < i -> resource_at st.2 j = if mine (resource_at s j) then clear_record (resource_at s j) else resource_at s j) /\
    (forall j, i <= j -> resource_at st.2 j = resource_at s j)) 0 DRIVER_MAX_RESOURCES (release_owner_step o) (0, s)) as Hloop.
  destruct (rt_length s Hok) as [Hl _].
  destruct Hloop as (A & B & C & D & _); [unfold DRIVER_MAX_RESOURCES; lia | split_and!; (done || lia) | |].
  - intros i [n s1] Hi (A & B & C & D & F). cbn [fst snd] in *. unfold release_owner_step. rewrite (F i) by lia.
    rewrite (acount_take mine) by lia. fold (resource_at s i). pose proof (acount_bounds mine (take (Z.to_nat i) (resources s))) as Hbd.
    assert (alen (take (Z.to_nat i) (resources s)) <= DRIVER_MAX_RESOURCES) as Hlt by (rewrite <- Hl; unfold alen; rewrite length_take; lia). unfold DRIVER_MAX_RESOURCES in *.
    assert (mine (resource_at s i) = negb (negb (nonzero (r_active (resource_at s i))) || negb (driver_identity_equal (r_owner (resource_at s i)) o))) as Hm
      by (unfold mine, res_active; by rewrite negb_orb, !negb_involutive).
    destruct (negb (nonzero _) || _) eqn:Hif; cbn [negb] in Hm; rewrite Hm; cbn [fst snd].
    + split_and!; [lia | done | done | | intros; apply F; lia]. intros j Hj. destruct (decide (j = i)) as [->|]; [rewrite Hm; apply F; lia | apply D; lia].
    + assert (res_active (resource_at s1 i) = true) as Hact by (rewrite F by lia; unfold mine in Hm; by apply andb_true_iff in Hm as [? _]).
      destruct (drop_resource_spec i s1 B Hi Hact) as [K1 K2 K3]. split_and!; [unwrap; lia | done | by eapply same_drivers_trans | |].
      * intros j Hj. rewrite K3 by lia. case_decide; [subst; rewrite Hm, F by lia; done | apply D; lia].
      * intros j Hj. rewrite K3 by lia. rewrite decide_False by lia. apply F. lia.
  - destruct (for_range _ _ _ _) as [n s']. cbn [fst snd] in *. split_and!; try done. rewrite A. apply acount_take_all. lia.
Qed.

(** ** Registering one resource *)

Lemma register_body_spec o dev k flags value size tag s : resources_ok s -> resource_kind_valid k = true ->
  let '((res, h), s') := register_body o dev k flags value size tag s in
  resources_ok s' /\ same_drivers s s' /\
  ((res = DRIVER_LOAD_NO_SLOT /\ acount res_active (resources s) = DRIVER_MAX_RESOURCES /\ resources s' = resources s) \/
   (res = DRIVER_LOAD_OK /\ 0 <= id_slot h < DRIVER_MAX_RESOURCES /\ res_active (resource_at s (id_slot h)) = false /\
    resolve_resource o h k s' = Some (id_slot h) /\ r_owner (resource_at s' (id_slot h)) = o /\
    forall j, 0 <= j -> j <> id_slot h -> resource_at s' j = resource_at s j)).
Proof.
  intros Hok Hkv. pose proof Hok as [[Hl Hlk] Hs Hk Hc Hb]. unfold register_body.
  destruct (find_first _ _ _) as [i|] eqn:Hf.
  2: { split; [by constructor|]. split; [done|]. left. split_and!; [done | | done]. rewrite <- Hl. apply acount_full. rewrite Hl. intros j Hj.
       apply find_first_None with (j := j) in Hf; [|exact Hj]. by apply negb_false_iff in Hf. }
  apply find_first_Some in Hf as (Hi & Hdead & _). apply negb_true_iff in Hdead. change (0 <= i < DRIVER_MAX_RESOURCES) in Hi. set (f := fun r : DriverResourceRecord => set_field r_tag _ _).
  pose proof (fun j Hj => resource_upd_at i f s j Hl Hi Hj) as Hat. set (s1 := upd_resource i f s) in *.
  assert (u8 k = k /\ 0 <= k < 8) as [Hu8 Hk8]. { unfold resource_kind_valid, DRIVER_RESOURCE_NONE, DRIVER_RESOURCE_DMA in Hkv. bprop. unwrap. lia. }
  assert (res_active (f (resource_at s i)) = true /\ r_kind (f (resource_at s i)) = k /\ r_slot (f (resource_at s i)) = i) as (F1 & F2 & F3).
  { split_and!; [done | exact Hu8 | by apply Hs]. }
  pose proof (acount_bounds res_active (resources s)) as Hbd. pose proof (acount_bounds (res_of_kind k) (resources s)) as Hbk. rewrite Hl in Hbd, Hbk. unfold DRIVER_MAX_RESOURCES in *.
  set (g := fun st : DriverResourceStats => update_high_water_locked _).
  assert (rs_active (g (resource_stats s)) = acount res_active (resources s) + 1 /\
    rs_by_kind (g (resource_stats s)) = aset (rs_by_kind (resource_stats s)) k (acount (res_of_kind k) (resources s) + 1)) as [G1 G2].
  { unfold g, update_high_water_locked. rewrite <- (Hb k Hk8), <- Hc. rewrite Hc, (Hb k Hk8). destruct (_ <? _); cbn; unwrap; done. }
  assert (resources (upd_rstats g s1) = aset (resources s) i (f (resource_at s i))) as Hr by done.
  assert (resource_stats (upd_rstats g s1) = g (resource_stats s)) as Hst by done.
  assert (forall j, 0 <= j -> resource_at (upd_rstats g s1) j = if decide (i = j) then f (resource_at s i) else resource_at s j) as Hat' by exact Hat.
  set (s' := upd_rstats g s1) in *. assert (resource_at s' i = f (resource_at s i)) as Hati by (rewrite Hat', decide_True by (done || lia); done).
  cbv beta iota zeta. split_and!.
  - constructor; rewrite ?Hr, ?Hst, ?G1, ?G2, ?alen_aset.
    + done.
    + intros j Hj. rewrite Hat' by lia. case_decide; [congruence | by apply Hs].
    + intros j Hj. rewrite Hat' by lia. case_decide; [by rewrite F2 | by apply Hk].
    + rewrite acount_aset by (rewrite Hl; lia). fold (resource_at s i). rewrite F1. unfold res_active at 3. rewrite Hdead. lia.
    + intros j Hj. rewrite aget_aset, acount_aset by (rewrite ?Hl, ?Hlk; lia). fold (resource_at s i). unfold res_of_kind at 3 4. rewrite F1, F2. unfold res_active at 1. rewrite Hdead. cbn [andb].
      case_decide; [subst j; rewrite Z.eqb_refl; lia|]. replace (k =? j) with false by (symmetry; by apply Z.eqb_neq). rewrite Hb by done. lia.
  - done.
  - right. rewrite Hati, F3. cbn [id_slot id_generation]. rewrite Hati. split_and!; try done; try lia.
    + unfold resolve_resource, driver_resource_handle_is_valid. cbn [id_slot id_generation]. rewrite Hati.
      replace (i <? DRIVER_MAX_RESOURCES) with true by (symmetry; apply Z.ltb_lt; unfold DRIVER_MAX_RESOURCES; lia).
      assert (nonzero (r_generation (f (resource_at s i))) = true) as Hg.
      { change (nonzero (driver_next_generation (r_generation (resource_at s i))) = true). unfold driver_next_generation. by destruct (nonzero (u32 _)) eqn:Hz. }
      rewrite Hg, Z.eqb_refl. change (nonzero (r_active (f (resource_at s i)))) with true. cbn [andb negb orb].
      assert (driver_identity_equal (r_owner (f (resource_at s i))) o = true) as -> by (by apply identity_equal_iff). rewrite F2, Z.eqb_refl. cbn [negb]. by rewrite andb_false_r.
    + intros j Hj Hne. rewrite Hat', decide_False by (congruence || lia). done.
Qed.

(** ** The driver table *)

Definition name_ok (n : text) : Prop := Forall (fun c => c <> 0) n /\ alen n < 32.
Definition drv_active (r : DriverRecord) : bool := nonzero (d_active r).
Record drivers_ok s : Prop := {
  dt_length : alen (drivers s) = DRIVER_MAX_RECORDS /\ alen (quiesce s) = DRIVER_MAX_RECORDS;
  dt_slots : forall i, 0 <= i < DRIVER_MAX_RECORDS -> d_slot (driver_at s i) = i;
  dt_live : forall i, 0 <= i < DRIVER_MAX_RECORDS -> drv_active (driver_at s i) = true ->
    nonzero (d_generation (driver_at s i)) = true /\ q_generation (quiesce_at s i) = d_generation (driver_at s i) /\ name_ok (d_name (driver_at s i));
  dt_names : forall i j, 0 <= i < DRIVER_MAX_RECORDS -> 0 <= j < DRIVER_MAX_RECORDS -> drv_active (driver_at s i) = true -> drv_active (driver_at s j) = true ->
    d_name (driver_at s i) = d_name (driver_at s j) -> i = j }.
Definition live s o : Prop := driver_manager_identity_is_live o s = true.
Record driver_ok s : Prop := { ok_drivers : drivers_ok s; ok_resources : resources_ok s; ok_owners : owners_in (fun o => 0 <= id_slot o /\ live s o) s }.

Lemma strcmp64_eq a b : Forall (fun c => c <> 0) a -> Forall (fun c => c <> 0) b -> strcmp64 a b = 0 <-> a = b.
Proof.
  intros Ha. revert b. induction Ha as [|x a Hx Ha IH]; intros [|y b] Hb; cbn; [done | | |].
  - inversion Hb. split; [lia | done].
  - split; [lia | done].
  - inversion Hb. destruct (x =? y) eqn:E; bprop; [subst; rewrite IH by done; split; congruence|]. split; [lia | congruence].
Qed.
Lemma copy_string64_short n : name_ok n -> copy_string64 32 n = n.
Proof. intros [_ Hl]. unfold copy_string64, alen in *. apply take_ge. lia. Qed.

Lemma find_driver_Some n s i : drivers_ok s -> name_ok n -> find_driver_by_name (Some n) s = Some i ->
  0 <= i < DRIVER_MAX_RECORDS /\ drv_active (driver_at s i) = true /\ d_name (driver_at s i) = n.
Proof.
  intros Hok [Hn _] Hf. apply find_first_Some in Hf as (Hi & Hp & _). change (0 <= i < DRIVER_MAX_RECORDS) in Hi. unfold driver_name_matches in Hp. apply andb_true_iff in Hp as [Ha Hc%Z.eqb_eq].
  destruct (dt_live s Hok i Hi Ha) as (_ & _ & Hn' & _). apply strcmp64_eq in Hc; done.
Qed.
Lemma find_driver_None n s : drivers_ok s -> name_ok n -> find_driver_by_name (Some n) s = None ->
  forall i, 0 <= i < DRIVER_MAX_RECORDS -> drv_active (driver_at s i) = true -> d_name (driver_at s i) <> n.
Proof.
  intros Hok [Hn _] Hf i Hi Ha He. apply find_first_None with (j := i) in Hf; [|exact Hi]. unfold driver_name_matches in Hf. change (nonzero (d_active (driver_at s i))) with (drv_active (driver_at s i)) in Hf.
  rewrite Ha, He in Hf. cbn in Hf. bprop. apply Hf. by apply strcmp64_eq.
Qed.

(** A change that keeps who is registered under which name. *)
Record same_registrations s s' : Prop := {
  sr_length : alen (drivers s') = alen (drivers s) /\ alen (quiesce s') = alen (quiesce s);
  sr_driver : forall j, 0 <= j -> d_active (driver_at s' j) = d_active (driver_at s j) /\ d_generation (driver_at s' j) = d_generation (driver_at s j) /\
    d_name (driver_at s' j) = d_name (driver_at s j) /\ d_slot (driver_at s' j) = d_slot (driver_at s j);
  sr_quiesce : forall j, 0 <= j -> q_generation (quiesce_at s' j) = q_generation (quiesce_at s j);
  sr_resources : resources s' = resources s /\ resource_stats s' = resource_stats s }.
#[export] Instance same_registrations_refl : Reflexive same_registrations.
Proof. by constructor. Qed.
#[export] Instance same_registrations_trans : Transitive same_registrations.
Proof.
  intros s1 s2 s3 [[A1 A2] B C [D1 D2]] [[A1' A2'] B' C' [D1' D2']]. constructor; [split; congruence | | | split; congruence].
  - intros j Hj. specialize (B j Hj). specialize (B' j Hj). naive_solver congruence.
  - intros j Hj. specialize (C j Hj). specialize (C' j Hj). congruence.
Qed.
Lemma same_registrations_live s s' o : same_registrations s s' -> 0 <= id_slot o -> driver_manager_identity_is_live o s' = driver_manager_identity_is_live o s.
Proof. intros Hs Ho. unfold driver_manager_identity_is_live. destruct (sr_driver _ _ Hs (id_slot o) Ho) as (-> & -> & _). done. Qed.
Lemma resources_ok_same s s' : resources s' = resources s -> resource_stats s' = resource_stats s -> resources_ok s -> resources_ok s'.
Proof. intros Hr Hst [A B C D F]. constructor; unfold resource_at in *; rewrite ?Hr, ?Hst; done. Qed.
Lemma live_slot s o : live s o -> id_slot o < DRIVER_MAX_RECORDS.
Proof. unfold live, driver_manager_identity_is_live, driver_identity_is_valid. intros [[H _]%andb_true_iff _]%andb_true_iff. by apply Z.ltb_lt. Qed.

Lemma same_registrations_drivers s s' : same_registrations s s' -> drivers_ok s -> drivers_ok s'.
Proof.
  intros [[L1 L2] B C _] [[A1 A2] D F G]. constructor.
  - by rewrite L1, L2.
  - intros i Hi. destruct (B i) as (_ & _ & _ & ->); [lia|]. by apply D.
  - intros i Hi. destruct (B i) as (Ea & Eg & En & _); [lia|]. unfold drv_active. rewrite Ea, Eg, En, C by lia. by apply F.
  - intros i j Hi Hj. destruct (B i) as (Ea & _ & En & _); [lia|]. destruct (B j) as (Ea' & _ & En' & _); [lia|]. unfold drv_active. rewrite Ea, Ea', En, En'. by apply G.
Qed.
Lemma same_registrations_ok s s' : same_registrations s s' -> driver_ok s -> driver_ok s'.
Proof.
  intros Hs [Hd Hr Ho]. destruct (sr_resources _ _ Hs) as [E1 E2]. constructor.
  - by eapply same_registrations_drivers.
  - by eapply resources_ok_same.
  - intros i Hi Ha. unfold resource_at in *. rewrite E1 in *. destruct (Ho i Hi Ha) as [H0 Hl]. split; [done|].
    unfold live. by rewrite (same_registrations_live s).
Qed.

Lemma driver_upd_at i f s j : alen (drivers s) = DRIVER_MAX_RECORDS -> 0 <= i < DRIVER_MAX_RECORDS -> 0 <= j ->
  driver_at (upd_driver i f s) j = if decide (i = j) then f (driver_at s i) else driver_at s j.
Proof.
  intros Hlen Hi Hj. unfold driver_at. change (drivers (upd_driver i f s)) with (aset (drivers s) i (f (driver_at s i))). apply aget_aset; [by rewrite Hlen | done].
Qed.
Lemma quiesce_upd_at i f s j : alen (quiesce s) = DRIVER_MAX_RECORDS -> 0 <= i < DRIVER_MAX_RECORDS -> 0 <= j ->
  quiesce_at (upd_quiesce i f s) j = if decide (i = j) then f (quiesce_at s i) else quiesce_at s j.
Proof.
  intros Hlen Hi Hj. unfold quiesce_at. change (quiesce (upd_quiesce i f s)) with (aset (quiesce s) i (f (quiesce_at s i))). apply aget_aset; [by rewrite Hlen | done].
Qed.
Lemma upd_driver_same i f s : drivers_ok s -> 0 <= i < DRIVER_MAX_RECORDS ->
  (forall r, d_active (f r) = d_active r /\ d_generation (f r) = d_generation r /\ d_name (f r) = d_name r /\ d_slot (f r) = d_slot r) -> same_registrations s (upd_driver i f s).
Proof.
  intros Hok Hi Hf. destruct (dt_length s Hok) as [L1 L2]. constructor; [|intros j Hj|done|done].
  - split; [apply alen_aset | done].
  - rewrite driver_upd_at by done. case_decide; [subst; apply Hf | done].
Qed.
Lemma upd_quiesce_same i f s : drivers_ok s -> 0 <= i < DRIVER_MAX_RECORDS -> (forall q, q_generation (f q) = q_generation q) -> same_registrations s (upd_quiesce i f s).
Proof.
  intros Hok Hi Hf. destruct (dt_length s Hok) as [L1 L2]. constructor; [|done|intros j Hj|done].
  - split; [done | apply alen_aset].
  - rewrite quiesce_upd_at by done. case_decide; [subst; apply Hf | done].
Qed.

(** ** Changing states and pinning *)

Lemma live_range s o : 0 <= id_slot o -> driver_manager_identity_is_live o s = true -> 0 <= id_slot o < DRIVER_MAX_RECORDS.
Proof. intros H0 Hl%live_slot. lia. Qed.
Lemma set_state_same o st s : drivers_ok s -> 0 <= id_slot o -> same_registrations s (driver_manager_set_state_identity o st s).2.
Proof.
  intros Hok H0. unfold driver_manager_set_state_identity. destruct (driver_manager_identity_is_live o s) eqn:Hl; cbn [negb]; [|done].
  destruct (negb _); [by constructor|]. cbn [snd]. apply upd_driver_same; [done | by apply live_range with s | done].
Qed.
Lemma bump_generation k d q : q_generation (bump_activity k d q) = q_generation q.
Proof. unfold bump_activity, activity_counter. by repeat (destruct (k =? _)). Qed.
Lemma valid_range o : 0 <= id_slot o -> driver_identity_is_valid o = true -> 0 <= id_slot o < DRIVER_MAX_RECORDS.
Proof. unfold driver_identity_is_valid. intros H0 [H1%Z.ltb_lt _]%andb_true_iff. done. Qed.

(** Counters of the subsystem that are not in the tables. *)
Definition only_counters s s' : Prop := drivers s' = drivers s /\ quiesce s' = quiesce s /\ resources s' = resources s /\ resource_stats s' = resource_stats s.
Lemma only_counters_same s s' : only_counters s s' -> same_registrations s s'.
Proof. intros (A & B & C & D). constructor; unfold driver_at, quiesce_at; rewrite ?A, ?B; done. Qed.

Lemma activity_pin_same o k p s : drivers_ok s -> 0 <= id_slot o -> same_registrations s (driver_manager_activity_pin o k p s).2.
Proof.
  intros Hok H0. unfold driver_manager_activity_pin. destruct (_ || _ || _ || _) eqn:Hv; [done|]. apply orb_false_iff in Hv as [Hv _]. apply orb_false_iff in Hv as [Hv _].
  apply orb_false_iff in Hv as [_ Hv%negb_false_iff]. pose proof (valid_range o H0 Hv) as Hr. cbv zeta. destruct (_ || _); [by apply only_counters_same|].
  set (s1 := upd_quiesce _ _ s). assert (same_registrations s s1) as H1 by (apply upd_quiesce_same; [done | done | intros q; by rewrite bump_generation]).
  destruct (_ || _ || _); cbn [snd].
  - match goal with |- same_registrations _ (set_field _ _ ?s2) => transitivity s2; [|by apply only_counters_same] end.
    etransitivity; [exact H1|]. apply upd_quiesce_same; [by eapply same_registrations_drivers | done |].
    intros q. change (q_generation (bump_activity k (-1) q) = q_generation q). apply bump_generation.
  - etransitivity; [exact H1 | by apply only_counters_same].
Qed.
Lemma activity_unpin_same t s : drivers_ok s -> 0 <= id_slot (t_owner t) -> same_registrations s (driver_manager_activity_unpin (Some t) s).2.
Proof.
  intros Hok H0. unfold driver_manager_activity_unpin. destruct (_ || _) eqn:Hv; [done|]. apply orb_false_iff in Hv as [_ Hv%negb_false_iff]. pose proof (valid_range _ H0 Hv) as Hr.
  destruct (_ && _); cbn [snd]; [|done].
  match goal with |- same_registrations _ (set_field _ _ ?s2) => transitivity s2; [|by apply only_counters_same] end. apply upd_quiesce_same; [done | done |].
  intros q. change (q_generation (bump_activity (t_kind t) (-1) q) = q_generation q). apply bump_generation.
Qed.
Lemma set_accepting_same i v s : drivers_ok s -> 0 <= i < DRIVER_MAX_RECORDS -> same_registrations s (set_accepting i v s).
Proof. intros. by apply upd_quiesce_same. Qed.
Lemma begin_quiesce_same o s : drivers_ok s -> 0 <= id_slot o -> same_registrations s (driver_manager_begin_quiesce o s).2.
Proof.
  intros Hok H0. unfold driver_manager_begin_quiesce. destruct (driver_manager_identity_is_live o s) eqn:Hl; cbn [negb]; [|done]. destruct (negb _); [done|].
  pose proof (live_range s o H0 Hl) as Hr. pose proof (set_accepting_same _ 0 s Hok Hr) as H1. pose proof (same_registrations_drivers _ _ H1 Hok) as Hok1. cbv zeta.
  set (s1 := set_accepting _ 0 s) in *. destruct (_ || _ || _); [done|]. destruct (_ && _); [etransitivity; [exact H1 | by apply set_accepting_same]|].
  pose proof (set_state_same o DRIVER_STATE_QUIESCING s1 Hok1 H0) as H2. destruct (driver_manager_set_state_identity _ _ s1) as [res s2]. cbn [snd] in *.
  etransitivity; [exact H1|]. etransitivity; [exact H2|]. destruct (negb _); [|done]. apply set_accepting_same; [by eapply same_registrations_drivers | done].
Qed.
Lemma abort_load_same o f s : drivers_ok s -> 0 <= id_slot o -> same_registrations s (driver_manager_abort_load o f s).2.
Proof.
  intros Hok H0. unfold driver_manager_abort_load. destruct (driver_manager_identity_is_live o s) eqn:Hl; cbn [negb]; [|done]. destruct (negb _); [done|].
  pose proof (live_range s o H0 Hl) as Hr. pose proof (set_accepting_same _ 0 s Hok Hr) as H1. pose proof (same_registrations_drivers _ _ H1 Hok) as Hok1. cbv zeta.
  set (s1 := set_accepting _ 0 s) in *. match goal with |- same_registrations _ (if ?c then _ else _).2 => destruct c; [done|] end. etransitivity; [exact H1|]. by apply set_state_same.
Qed.

(** ** Registering and removing drivers *)

(** Replacing the record of slot [i]. *)
Lemma drivers_replace i r s s' : drivers_ok s -> 0 <= i < DRIVER_MAX_RECORDS -> drivers s' = aset (drivers s) i r -> alen (quiesce s') = DRIVER_MAX_RECORDS ->
  (forall j, 0 <= j -> j <> i -> q_generation (quiesce_at s' j) = q_generation (quiesce_at s j)) -> d_slot r = i ->
  (drv_active r = true -> nonzero (d_generation r) = true /\ q_generation (quiesce_at s' i) = d_generation r /\ name_ok (d_name r) /\
    forall j, 0 <= j < DRIVER_MAX_RECORDS -> j <> i -> drv_active (driver_at s j) = true -> d_name (driver_at s j) <> d_name r) ->
  drivers_ok s' /\ forall j, 0 <= j -> driver_at s' j = if decide (i = j) then r else driver_at s j.
Proof.
  intros [[L1 L2] A B C] Hi Hd Hq Hqg Hslot Hr.
  assert (forall j, 0 <= j -> driver_at s' j = if decide (i = j) then r else driver_at s j) as Hat.
  { intros j Hj. unfold driver_at. rewrite Hd. apply aget_aset; [by rewrite L1 | done]. }
  split; [|done]. constructor.
  - by rewrite Hd, alen_aset.
  - intros j Hj. rewrite Hat by lia. case_decide; [congruence | by apply A].
  - intros j Hj. rewrite Hat by lia. case_decide; [subst j; intros Ha; destruct (Hr Ha) as (? & ? & ? & _); done|]. intros Ha. rewrite Hqg by (lia || congruence). by apply B.
  - intros j k Hj Hk. rewrite !Hat by lia. repeat case_decide; subst.
    + done.
    + intros Ha Hb He. destruct (Hr Ha) as (_ & _ & _ & Hn). by destruct (Hn k Hk ltac:(congruence) Hb).
    + intros Ha Hb He. destruct (Hr Hb) as (_ & _ & _ & Hn). by destruct (Hn j Hj ltac:(congruence) Ha).
    + by apply C.
Qed.

Definition cleared (r : DriverRecord) : DriverRecord :=
  r <| d_active := 0 |> <| d_state := DRIVER_STATE_EMPTY |> <| d_kind := 0 |> <| d_permissions := 0 |> <| d_name := [] |> <| d_version := [] |> <| d_instance := 0 |>.
Lemma clear_spec i s : drivers_ok s -> 0 <= i < DRIVER_MAX_RECORDS ->
  let s' := clear_driver_record i s in
  drivers_ok s' /\ resources s' = resources s /\ resource_stats s' = resource_stats s /\
  forall j, 0 <= j -> driver_at s' j = if decide (i = j) then cleared (driver_at s i) else driver_at s j.
Proof.
  intros Hok Hi. pose proof Hok as [[L1 L2] A _ _]. unfold clear_driver_record. set (s1 := upd_driver i _ s).
  assert (driver_at s1 i = cleared (driver_at s i)) as Hati by (unfold s1; rewrite driver_upd_at, decide_True by (done || lia); done).
  rewrite Hati. change (d_slot (cleared (driver_at s i))) with (d_slot (driver_at s i)). rewrite A by done.
  replace (i <? DRIVER_MAX_RECORDS) with true by (symmetry; apply Z.ltb_lt; lia). cbv zeta.
  destruct (drivers_replace i (cleared (driver_at s i)) s (upd_quiesce i (fun q => q <| accepting := 0 |>) s1) Hok Hi) as [H1 H2]; try done.
  - change (alen (aset (quiesce s) i ((quiesce_at s i) <| accepting := 0 |>)) = DRIVER_MAX_RECORDS). by rewrite alen_aset.
  - intros j Hj Hne. rewrite quiesce_upd_at by done. by rewrite decide_False by congruence.
  - by apply A.
Qed.

(** Activating an unused slot and filling in its record. *)
Lemma activate_spec i f n s : drivers_ok s -> 0 <= i < DRIVER_MAX_RECORDS -> name_ok n ->
  (forall j, 0 <= j < DRIVER_MAX_RECORDS -> j <> i -> drv_active (driver_at s j) = true -> d_name (driver_at s j) <> n) ->
  (forall r, d_name (f r) = n /\ d_active (f r) = d_active r /\ d_generation (f r) = d_generation r /\ d_slot (f r) = d_slot r /\ d_state (f r) = d_state r) ->
  let s' := upd_driver i f (activate_driver_record i s) in
  drivers_ok s' /\ resources s' = resources s /\ resource_stats s' = resource_stats s /\
  (forall j, 0 <= j -> j <> i -> driver_at s' j = driver_at s j) /\
  exists r, driver_at s' i = f r /\ d_active r = 1 /\ d_state r = DRIVER_STATE_REGISTERED /\ d_generation r = driver_next_generation (d_generation (driver_at s i)).
Proof.
  intros Hok Hi Hn Huniq Hf. pose proof Hok as [[L1 L2] A _ _]. unfold activate_driver_record. set (s1 := upd_driver i _ s).
  assert (driver_at s1 i = (driver_at s i) <| d_generation := driver_next_generation (d_generation (driver_at s i)) |>) as Hati by (unfold s1; rewrite driver_upd_at, decide_True by (done || lia); done).
  cbv zeta. rewrite Hati. change (d_slot (set_field d_generation _ (driver_at s i))) with (d_slot (driver_at s i)). rewrite A by done.
  change (d_generation (set_field d_generation (fun _ => ?g) _)) with g. set (g := driver_next_generation _).
  set (fq := fun q : DriverQuiesceSlot => set_field accepting _ _). set (s2 := upd_quiesce i fq s1). set (fr := fun r : DriverRecord => set_field d_state _ _).
  set (r := fr (driver_at s1 i)). assert (driver_at s2 i = driver_at s1 i) as E2 by done.
  assert (drivers (upd_driver i f (upd_driver i fr s2)) = aset (drivers s) i (f r)) as Hd.
  { change (aset (aset (aset (drivers s) i ((driver_at s i) <| d_generation := g |>)) i (fr (driver_at s2 i))) i (f (driver_at (upd_driver i fr s2) i)) = aset (drivers s) i (f r)).
    unfold aset. rewrite !list_insert_insert_eq. f_equal. f_equal. rewrite driver_upd_at, decide_True; [done | done | | done | lia]. change (alen (aset (drivers s) i ((driver_at s i) <| d_generation := g |>)) = DRIVER_MAX_RECORDS). by rewrite alen_aset. }
  destruct (Hf r) as (F1 & F2 & F3 & F4 & F5).
  assert (d_generation r = g /\ d_slot r = d_slot (driver_at s i)) as [Hg Hsl] by (unfold r, fr; cbn [d_generation d_slot set_field]; rewrite Hati; done).
  destruct (drivers_replace i (f r) s (upd_driver i f (upd_driver i fr s2)) Hok Hi Hd) as [H1 H2].
  - change (alen (aset (quiesce s) i (fq (quiesce_at s i))) = DRIVER_MAX_RECORDS). by rewrite alen_aset.
  - intros j Hj Hne. change (quiesce_at (upd_driver i f (upd_driver i fr s2)) j) with (quiesce_at (upd_quiesce i fq s1) j). rewrite quiesce_upd_at by done. by rewrite decide_False by congruence.
  - rewrite F4, Hsl. by apply A.
  - intros _. rewrite F1, F3, Hg. split_and!; [| | done | done].
    + unfold g, driver_next_generation. by destruct (nonzero (u32 _)) eqn:Hz.
    + change (quiesce_at (upd_driver i f (upd_driver i fr s2)) i) with (quiesce_at (upd_quiesce i fq s1) i). rewrite quiesce_upd_at, decide_True by (done || lia). done.
  - split_and!; [done | done | done | |].
    + intros j Hj Hne. rewrite H2 by done. by rewrite decide_False by congruence.
    + exists r. rewrite H2, decide_True by (done || lia). done.
Qed.

Section Registered.
Context {E : Type} `{LockLaws E}.
Implicit Types e : E.

(** The identity of a registered driver owns exactly the resources of its slot. *)
Lemma release_slot_spec i s e : driver_ok s -> ready e driver_resource_lock -> 0 <= i < DRIVER_MAX_RECORDS -> drv_active (driver_at s i) = true ->
  let '(_, s', e') := driver_resource_release_owner {| id_slot := d_slot (driver_at s i); id_generation := d_generation (driver_at s i) |} s e in
  ready e' driver_resource_lock /\ same_drivers s s' /\ resources_ok s' /\ owners_in (fun o => (0 <= id_slot o /\ live s o) /\ id_slot o <> i) s'.
Proof using.
  intros [Hd Hr Ho] Hrd Hi Ha. destruct (dt_live s Hd i Hi Ha) as (Hg & _ & _). rewrite (dt_slots s Hd i Hi). set (o := {| id_slot := i; id_generation := _ |}).
  unfold driver_resource_release_owner. assert (driver_identity_is_valid o = true) as ->.
  { unfold driver_identity_is_valid. cbn. rewrite Hg, andb_true_r. apply Z.ltb_lt. lia. } cbn [negb].
  destruct (with_lock_ready driver_resource_lock 0 (release_owner_body o) s e Hrd) as (e' & -> & Hkeep). pose proof (release_owner_spec o s Hr) as Hrel.
  destruct (release_owner_body o s) as [n s']. destruct Hrel as (_ & H1 & H2 & H3). split_and!; [by apply Hkeep | done | done |].
  intros j Hj. rewrite H3 by done. destruct (res_active (resource_at s j) && driver_identity_equal (r_owner (resource_at s j)) o) eqn:Hm; [done|].
  intros Haj. rewrite Haj in Hm. cbn [andb] in Hm. apply identity_equal_neq in Hm. destruct (Ho j Hj Haj) as [Hps Hl]. split; [done|]. intros He. apply Hm.
  unfold live, driver_manager_identity_is_live in Hl. rewrite He in Hl. apply andb_true_iff in Hl as [_ [_ Hl%Z.eqb_eq]%andb_true_iff].
  unfold o. rewrite Hl, <- He. by destruct (r_owner (resource_at s j)).
Qed.

(** Liveness after slot [i] changed, for the identities of other slots. *)
Lemma live_elsewhere i s s' o : 0 <= id_slot o -> id_slot o <> i -> (forall j, 0 <= j -> j <> i -> driver_at s' j = driver_at s j) -> live s o -> live s' o.
Proof using. intros Hps Hne Hat Hl. unfold live, driver_manager_identity_is_live in *. by rewrite Hat. Qed.

(** Releasing a registered driver's resources and clearing its record. *)
Lemma remove_spec i s e : driver_ok s -> ready e driver_resource_lock -> 0 <= i < DRIVER_MAX_RECORDS -> drv_active (driver_at s i) = true ->
  let '(_, s1, e1) := driver_resource_release_owner {| id_slot := d_slot (driver_at s i); id_generation := d_generation (driver_at s i) |} s e in
  let s2 := clear_driver_record i s1 in
  ready e1 driver_resource_lock /\ driver_ok s2 /\ owners_in (fun o => id_slot o <> i) s2 /\
  (forall j, 0 <= j -> driver_at s2 j = if decide (i = j) then cleared (driver_at s i) else driver_at s j).
Proof using.
  intros Hok Hrd Hi Ha. pose proof (release_slot_spec i s e Hok Hrd Hi Ha) as Hrel. destruct (driver_resource_release_owner _ s e) as [[n s1] e1].
  destruct Hrel as (Hrd1 & Hsame & Hr1 & Ho1). assert (drivers_ok s1) as Hd1.
  { destruct Hok as [[A B C D] _ _]. destruct Hsame as [E1 E2]. constructor; unfold driver_at, quiesce_at in *; rewrite ?E1, ?E2; done. }
  destruct (clear_spec i s1 Hd1 Hi) as (K1 & K2 & K3 & K4). cbv zeta. set (s2 := clear_driver_record i s1) in *.
  assert (forall j, driver_at s1 j = driver_at s j) as Hdr by (intros j; unfold driver_at; by destruct Hsame as [-> _]).
  assert (forall j, 0 <= j -> driver_at s2 j = if decide (i = j) then cleared (driver_at s i) else driver_at s j) as Hat by (intros j Hj; rewrite K4, !Hdr by done; done).
  assert (forall j, resource_at s2 j = resource_at s1 j) as Hres by (intros j; unfold resource_at; by rewrite K2).
  split_and!; [done | | | done].
  - constructor; [done | by eapply resources_ok_same |]. intros j Hj. rewrite Hres. intros Haj. destruct (Ho1 j Hj Haj) as [[Hps Hl] Hne]. split; [done|].
    apply (live_elsewhere i s); [done | done | | done]. intros k Hk Hnk. rewrite Hat by done. by rewrite decide_False by congruence.
  - intros j Hj. rewrite Hres. intros Haj. by destruct (Ho1 j Hj Haj) as [_ ?].
Qed.

(** Filling an unused slot that owns nothing. *)
Lemma fill_spec i f n s : driver_ok s -> 0 <= i < DRIVER_MAX_RECORDS -> drv_active (driver_at s i) = false -> name_ok n ->
  (forall j, 0 <= j < DRIVER_MAX_RECORDS -> drv_active (driver_at s j) = true -> d_name (driver_at s j) <> n) ->
  (forall r, d_name (f r) = n /\ d_active (f r) = d_active r /\ d_generation (f r) = d_generation r /\ d_slot (f r) = d_slot r /\ d_state (f r) = d_state r) ->
  driver_ok (upd_driver i f (activate_driver_record i s)).
Proof using.
  intros [Hd Hr Ho] Hi Hdead Hn Huniq Hf. destruct (activate_spec i f n s Hd Hi Hn) as (K1 & K2 & K3 & K4 & _); [intros j Hj _; by apply Huniq | done |].
  constructor; [done | by eapply resources_ok_same |]. intros j Hj. unfold resource_at. rewrite K2. intros Haj. destruct (Ho j Hj Haj) as [Hps Hl]. split; [done|].
  apply (live_elsewhere i s); [done | | done | done]. intros He. unfold live, driver_manager_identity_is_live in Hl. fold (resource_at s j) in *. rewrite He in Hl. unfold drv_active in Hdead. rewrite Hdead in Hl.
  by rewrite andb_false_r in Hl.
Qed.

Lemma alloc_driver_Some s i : alloc_driver_record s = Some i -> 0 <= i < DRIVER_MAX_RECORDS /\ drv_active (driver_at s i) = false.
Proof using. intros (Hi & Hp & _)%find_first_Some. split; [exact Hi|]. by apply negb_true_iff in Hp. Qed.

Lemma cleared_names i n s s2 : drivers_ok s -> 0 <= i < DRIVER_MAX_RECORDS -> drv_active (driver_at s i) = true -> d_name (driver_at s i) = n ->
  (forall j, 0 <= j -> driver_at s2 j = if decide (i = j) then cleared (driver_at s i) else driver_at s j) ->
  drv_active (driver_at s2 i) = false /\ forall j, 0 <= j < DRIVER_MAX_RECORDS -> drv_active (driver_at s2 j) = true -> d_name (driver_at s2 j) <> n.
Proof using.
  intros Hd Hi Ha Hn Hat. split; [rewrite Hat, decide_True by (done || lia); done|]. intros j Hj. rewrite Hat by lia. case_decide; [done|]. intros Haj He.
  assert (j = i) by (apply (dt_names s Hd j i); congruence). congruence.
Qed.

Lemma register_builtin_ok n version kind perms inst s e : name_ok n -> driver_ok s -> ready e driver_resource_lock ->
  let '(_, s', e') := driver_manager_register_builtin (Some n) version kind perms inst s e in driver_ok s' /\ ready e' driver_resource_lock.
Proof using.
  intros Hn Hok Hrd. unfold driver_manager_register_builtin. cbn [default from_option id]. destruct (alen n =? 0); [done|]. cbv zeta. rewrite (copy_string64_short n Hn).
  destruct (find_driver_by_name (Some n) s) as [i|] eqn:Hf.
  - destruct (find_driver_Some n s i (ok_drivers s Hok) Hn Hf) as (Hi & Ha & Hnm). destruct (negb _); [done|]. pose proof (remove_spec i s e Hok Hrd Hi Ha) as Hrem.
    destruct (driver_resource_release_owner _ s e) as [[m s1] e1]. cbv zeta in Hrem. destruct Hrem as (Hrd1 & Hok2 & _ & Hat). split; [|done].
    destruct (cleared_names i n s _ (ok_drivers s Hok) Hi Ha Hnm Hat) as [Hdead Huniq]. by apply (fill_spec i _ n).
  - destruct (alloc_driver_record s) as [i|] eqn:Hal; [|done]. apply alloc_driver_Some in Hal as [Hi Hdead]. split; [|done].
    apply (fill_spec i _ n); try done. by apply find_driver_None; [apply Hok|..].
Qed.
Lemma register_manifest_ok n version perms inst s e : name_ok n -> driver_ok s -> ready e driver_resource_lock ->
  let '(_, s', e') := driver_manager_register_package_manifest (Some (n, version, perms)) inst s e in driver_ok s' /\ ready e' driver_resource_lock.
Proof using.
  intros Hn Hok Hrd. unfold driver_manager_register_package_manifest. destruct n as [|c n0] eqn:En; [done|]. rewrite <- En in *. clear En c n0. cbv zeta. rewrite (copy_string64_short n Hn).
  destruct (find_driver_by_name (Some n) s) as [i|] eqn:Hf.
  - destruct (find_driver_Some n s i (ok_drivers s Hok) Hn Hf) as (Hi & Ha & Hnm). destruct (negb _); [done|]. pose proof (remove_spec i s e Hok Hrd Hi Ha) as Hrem.
    destruct (driver_resource_release_owner _ s e) as [[m s1] e1]. cbv zeta in Hrem. destruct Hrem as (Hrd1 & Hok2 & _ & Hat).
    destruct (cleared_names i n s _ (ok_drivers s Hok) Hi Ha Hnm Hat) as [_ Huniq].
    destruct (alloc_driver_record _) as [k|] eqn:Hal; [|done]. apply alloc_driver_Some in Hal as [Hk Hdead]. split; [|done]. by apply (fill_spec k _ n).
  - cbn [negb]. destruct (alloc_driver_record s) as [i|] eqn:Hal; [|done]. apply alloc_driver_Some in Hal as [Hi Hdead]. split; [|done].
    apply (fill_spec i _ n); try done. by apply find_driver_None; [apply Hok|..].
Qed.
Lemma driver_unregister_ok n s e : name_ok n -> driver_ok s -> ready e driver_resource_lock ->
  let '(_, s', e') := driver_manager_unregister (Some n) s e in driver_ok s' /\ ready e' driver_resource_lock.
Proof using.
  intros Hn Hok Hrd. unfold driver_manager_unregister. destruct (find_driver_by_name (Some n) s) as [i|] eqn:Hf; [|done].
  destruct (find_driver_Some n s i (ok_drivers s Hok) Hn Hf) as (Hi & Ha & Hnm). pose proof (remove_spec i s e Hok Hrd Hi Ha) as Hrem.
  destruct (driver_resource_release_owner _ s e) as [[m s1] e1]. cbv zeta in Hrem. destruct Hrem as (? & ? & _). done.
Qed.
End Registered.
