(* ===== verification/DriverHistory.v ===== *)
(** * Histories of the driver manager

    From [driver_manager_init] on, under any calls: registering and unregistering drivers, moving them through their states, pinning and quiescing them,
    registering and releasing their resources. *)

From S2P Require Import Prelude KernelEnv DriverRecords DriverVa DriverSpec.

Implicit Types (s : DriverState) (i j : Z) (o : DriverIdentity).

Inductive drv_call :=
| DRegister (name : text) (version : option text) (kind permissions instance : Z)
| DRegisterPackage (name version : text) (permissions instance : Z)
| DUnregister (name : text)
| DSetState (name : text) (state : Z)
| DSetStateOf (id : DriverIdentity) (state : Z)
| DSetInstance (name : text) (instance : Z)
| DPin (owner : DriverIdentity) (kind : Z)
| DUnpin (token : DriverActivityToken)
| DBeginQuiesce (owner : DriverIdentity)
| DAbortLoad (owner : DriverIdentity) (failure_state : Z)
| DWaitQuiesced (owner : DriverIdentity) (spins : Z)
| DOwn (owner device : DriverIdentity) (kind flags value size : Z) (tag : option text)
| DDisown (owner handle : DriverIdentity) (kind : Z)
| DDisownAll (owner : DriverIdentity)
| DResolve (owner handle : DriverIdentity) (kind : Z).

(** Names are C strings that fit the records; slots and kinds are unsigned. *)
Definition drv_args_ok (c : drv_call) : Prop :=
  match c with
  | DRegister n _ _ _ _ | DRegisterPackage n _ _ _ | DUnregister n | DSetState n _ | DSetInstance n _ => name_ok n
  | DSetStateOf o _ | DPin o _ | DBeginQuiesce o | DAbortLoad o _ | DWaitQuiesced o _ | DDisownAll o => 0 <= id_slot o
  | DUnpin t => 0 <= id_slot (t_owner t)
  | DOwn o _ _ _ _ _ _ => 0 <= id_slot o
  | DDisown o h _ | DResolve o h _ => 0 <= id_slot o /\ 0 <= id_slot h
  end.

Section History.
Context {E : Type} `{LockLaws E}.
Implicit Types e : E.

Definition drv_run1 (c : drv_call) (st : DriverState * E) : DriverState * E :=
  let '(s, e) := st in
  match c with
  | DRegister n v k p inst => let '(_, s, e) := driver_manager_register_builtin (Some n) v k p inst s e in (s, e)
  | DRegisterPackage n v p inst => let '(_, s, e) := driver_manager_register_package_manifest (Some (n, v, p)) inst s e in (s, e)
  | DUnregister n => let '(_, s, e) := driver_manager_unregister (Some n) s e in (s, e)
  | DSetState n st => ((driver_manager_set_state (Some n) st s).2, e)
  | DSetStateOf o st => ((driver_manager_set_state_identity o st s).2, e)
  | DSetInstance n inst => ((driver_manager_set_instance (Some n) inst s).2, e)
  | DPin o k => ((driver_manager_activity_pin o k true s).2, e)
  | DUnpin t => ((driver_manager_activity_unpin (Some t) s).2, e)
  | DBeginQuiesce o => ((driver_manager_begin_quiesce o s).2, e)
  | DAbortLoad o f => ((driver_manager_abort_load o f s).2, e)
  | DWaitQuiesced o n => let '(_, s, e) := driver_manager_wait_quiesced o n s e in (s, e)
  | DOwn o d k f v sz t => let '(_, _, s, e) := driver_resource_register o d k f v sz t true s e in (s, e)
  | DDisown o h k => let '(_, s, e) := driver_resource_release o h k s e in (s, e)
  | DDisownAll o => let '(_, s, e) := driver_resource_release_owner o s e in (s, e)
  | DResolve o h k => let '(_, s, e) := driver_resource_resolve o h k s e in (s, e)
  end.
Definition drv_run (cs : list drv_call) (st : DriverState * E) : DriverState * E := foldl (fun st c => drv_run1 c st) st cs.
Definition kept (st : DriverState * E) : Prop := driver_ok st.1 /\ ready st.2 driver_resource_lock.

(** A change of the resources that keeps the drivers and adds no owner but [o]. *)
Lemma resources_change_ok s s' : driver_ok s -> resources_ok s' -> same_drivers s s' ->
  (forall j, 0 <= j < DRIVER_MAX_RESOURCES -> res_active (resource_at s' j) = true ->
    (res_active (resource_at s j) = true /\ r_owner (resource_at s' j) = r_owner (resource_at s j)) \/ (0 <= id_slot (r_owner (resource_at s' j)) /\ live s (r_owner (resource_at s' j)))) -> driver_ok s'.
Proof using.
  intros [[A B C D] Hr Ho] Hr' Hs Hres. pose proof Hs as [E1 E2]. constructor; [|done|].
  - constructor; unfold driver_at, quiesce_at in *; rewrite ?E1, ?E2; done.
  - intros j Hj Ha. unfold live. rewrite (same_drivers_live _ _ _ Hs). destruct (Hres j Hj Ha) as [[Ha' ->]|?]; [by apply Ho | done].
Qed.
Lemma stats_only_ok f s : driver_ok s -> rs_active (f (resource_stats s)) = rs_active (resource_stats s) -> rs_by_kind (f (resource_stats s)) = rs_by_kind (resource_stats s) -> driver_ok (upd_rstats f s).
Proof using.
  intros Hok Ha Hk. destruct (ok_resources s Hok) as [[R1 R2] R3 R4 R5 R6]. apply (resources_change_ok s); [done | | done | by left].
  constructor; change (resource_stats (upd_rstats f s)) with (f (resource_stats s)); rewrite ?Ha, ?Hk; done.
Qed.

Lemma resolve_resource_Some o h k s i : 0 <= id_slot h -> resolve_resource o h k s = Some i ->
  i = id_slot h /\ 0 <= i < DRIVER_MAX_RESOURCES /\ res_active (resource_at s i) = true /\ r_owner (resource_at s i) = o /\ r_generation (resource_at s i) = id_generation h /\
  (k <> DRIVER_RESOURCE_NONE -> r_kind (resource_at s i) = k).
Proof using.
  intros Hps. unfold resolve_resource. destruct (driver_resource_handle_is_valid h) eqn:Hv; cbn [negb]; [|done].
  destruct (negb _ || negb _) eqn:H1; [done|]. destruct (negb (driver_identity_equal _ _)) eqn:H2; [done|]. destruct (_ && _) eqn:H3; [done|]. intros [= <-].
  apply orb_false_iff in H1 as [H1%negb_false_iff H4%negb_false_iff]. apply negb_false_iff, identity_equal_iff in H2. apply Z.eqb_eq in H4.
  unfold driver_resource_handle_is_valid in Hv. apply andb_true_iff in Hv as [Hv%Z.ltb_lt _]. split_and!; try done; try lia.
Qed.

Lemma resource_release_kept o h k s e : 0 <= id_slot h -> kept (s, e) ->
  let '(_, s', e') := driver_resource_release o h k s e in kept (s', e') /\ same_drivers s s'.
Proof using.
  intros Hps [Hok Hrd]. unfold driver_resource_release. destruct (_ || _); [done|]. cbn [fst snd] in *.
  destruct (with_lock_ready driver_resource_lock DRIVER_LOAD_RESOURCE_DENIED (release_body o h k) s e Hrd) as (e' & -> & Hkeep).
  unfold release_body. destruct (resolve_resource o h k s) as [i|] eqn:Hres.
  - destruct (resolve_resource_Some o h k s i Hps Hres) as (-> & Hi & Ha & _). destruct (drop_resource_spec (id_slot h) s (ok_resources s Hok) Hi Ha) as [D1 D2 D3].
    split; [|done]. split; [|by apply Hkeep]. cbn [fst]. apply (resources_change_ok s); [done | done | done |]. intros j Hj. rewrite D3 by lia. case_decide; [done | by left].
  - cbv zeta. destruct (_ && _); (split; [|done]); (split; [by apply stats_only_ok | by apply Hkeep]).
Qed.
Lemma release_owner_kept o s e : kept (s, e) -> let '(_, s', e') := driver_resource_release_owner o s e in kept (s', e').
Proof using.
  intros [Hok Hrd]. unfold driver_resource_release_owner. destruct (negb _); [done|]. cbn [fst snd] in *.
  destruct (with_lock_ready driver_resource_lock 0 (release_owner_body o) s e Hrd) as (e' & -> & Hkeep). pose proof (release_owner_spec o s (ok_resources s Hok)) as Hrel.
  destruct (release_owner_body o s) as [n s']. destruct Hrel as (_ & R1 & R2 & R3). split; [|by apply Hkeep]. cbn [fst]. apply (resources_change_ok s); [done | done | done |].
  intros j Hj. rewrite R3 by done. destruct (_ && _); [done | by left].
Qed.
Lemma resource_register_kept o d k f v sz t s e : 0 <= id_slot o -> kept (s, e) ->
  let '(_, _, s', e') := driver_resource_register o d k f v sz t true s e in kept (s', e').
Proof using.
  intros Hps [Hok Hrd]. unfold driver_resource_register. destruct (negb (driver_identity_is_valid o) || _ || _) eqn:Hv; [done|]. cbn [fst snd] in *.
  destruct (negb (driver_manager_identity_is_live o s)) eqn:Hl; [split; [by apply stats_only_ok | done]|].
  destruct (negb (driver_manager_identity_accepts_resources o s)) eqn:Hacc; [split; [by apply stats_only_ok | done]|].
  apply orb_false_iff in Hv as [Hv _]. apply orb_false_iff in Hv as [_ Hkv%negb_false_iff]. apply negb_false_iff in Hl, Hacc.
  destruct (with_lock_ready driver_resource_lock (DRIVER_LOAD_RESOURCE_DENIED, driver_identity_invalid) (register_body o d k f v sz t) s e Hrd) as (e1 & -> & Hkeep).
  pose proof (register_body_spec o d k f v sz t s (ok_resources s Hok) Hkv) as Hb. destruct (register_body o d k f v sz t s) as [[res h] s1]. destruct Hb as (R1 & R2 & R3).
  assert (driver_ok s1) as Hok1.
  { apply (resources_change_ok s); [done | done | done |]. intros j Hj Ha. destruct R3 as [(_ & _ & Heq)|(_ & _ & _ & _ & Hown & Hoth)].
    - unfold resource_at in *. rewrite Heq in *. by left.
    - destruct (decide (j = id_slot h)) as [->|Hne]; [right; by rewrite Hown|]. rewrite Hoth in * by (done || lia). by left. }
  destruct (negb (res =? DRIVER_LOAD_OK)); [split; [done | by apply Hkeep]|]. rewrite (same_drivers_live _ _ _ R2), (same_drivers_accepts _ _ _ R2), Hl, Hacc. cbn [negb orb].
  split; [done | by apply Hkeep].
Qed.
Lemma wait_quiesced_kept o n s e : 0 <= id_slot o -> kept (s, e) -> let '(_, s', e') := driver_manager_wait_quiesced o n s e in kept (s', e').
Proof using.
  intros Hps [Hok Hrd]. unfold driver_manager_wait_quiesced. destruct (driver_manager_identity_is_live o s) eqn:Hl; cbn [negb]; [|done]. cbn [fst snd] in *. cbv zeta.
  pose proof (live_range s o Hps Hl) as Hr. set (s1 := set_field quiesce_waits _ s). assert (same_registrations s s1) as H1 by (by apply only_counters_same).
  pose proof (same_registrations_ok s s1 H1 Hok) as Hok1.
  pose proof (ready_fault e driver_resource_lock KERNEL_FAULT_POINT_DRIVER_QUIESCE Hrd) as Hrd1. destruct (kernel_fault_injection_should_fail _ e) as [inj1 e1]. cbn [snd] in Hrd1.
  assert (forall inj e2, ready e2 driver_resource_lock -> let '(_, s', e') := (if drained_within (if inj : bool then 0 else n) (id_slot o) s1 then (DRIVER_LOAD_OK, s1, e2)
      else if negb inj && (in_flight (quiesce_at s1 (id_slot o)) =? 0) then (DRIVER_LOAD_OK, s1, e2)
      else (DRIVER_LOAD_QUIESCE_TIMEOUT, (upd_quiesce (id_slot o) (fun q => q <| q_quarantined := 1 |>) s1) <| quiesce_timeouts := u64 (quiesce_timeouts (upd_quiesce (id_slot o) (fun q => q <| q_quarantined := 1 |>) s1) + 1) |>
             <| quiesce_quarantines := u64 (quiesce_quarantines (upd_quiesce (id_slot o) (fun q => q <| q_quarantined := 1 |>) s1) + 1) |>, e2)) in kept (s', e')) as Hrest.
  { intros inj e2 Hrd2. destruct (drained_within _ _ _); [done|]. destruct (_ && _); [done|]. split; [|done]. cbn [fst].
    eapply same_registrations_ok; [|exact Hok1]. transitivity (upd_quiesce (id_slot o) (fun q => q <| q_quarantined := 1 |>) s1); [by apply upd_quiesce_same; [apply Hok1|..] | by apply only_counters_same]. }
  destruct inj1; [exact (Hrest true e1 Hrd1)|]. destruct (nonzero _); [|exact (Hrest false e1 Hrd1)].
  pose proof (ready_fault e1 driver_resource_lock KERNEL_FAULT_POINT_DRIVER_IRQ_DRAIN Hrd1) as Hrd2. destruct (kernel_fault_injection_should_fail _ e1) as [inj2 e2]. exact (Hrest inj2 e2 Hrd2).
Qed.

Lemma identity_from_name_slot n s : drivers_ok s -> name_ok n -> driver_identity_is_valid (driver_manager_identity_from_name (Some n) s) = true ->
  0 <= id_slot (driver_manager_identity_from_name (Some n) s).
Proof using.
  intros Hd Hn. unfold driver_manager_identity_from_name. destruct (find_driver_by_name (Some n) s) as [i|] eqn:Hf; [|done]. intros _.
  destruct (find_driver_Some n s i Hd Hn Hf) as (Hi & _). cbn [id_slot]. rewrite (dt_slots s Hd i Hi). lia.
Qed.
Lemma drv_run1_kept c s e : drv_args_ok c -> kept (s, e) -> kept (drv_run1 c (s, e)).
Proof using.
  intros Hc Hk. pose proof Hk as [Hok Hrd]. cbn [fst snd] in Hok, Hrd. pose proof (ok_drivers s Hok) as Hd.
  assert (forall s', same_registrations s s' -> kept (s', e)) as Hsame by (intros s' Hs; split; [by eapply same_registrations_ok | done]).
  destruct c as [n v k p inst|n v p inst|n|n st|o st|n inst|o k|t|o|o f|o sp|o d k f v sz t|o h k|o|o h k]; cbn [drv_run1 drv_args_ok] in *.
  - pose proof (register_builtin_ok n v k p inst s e Hc Hok Hrd). by destruct (driver_manager_register_builtin _ _ _ _ _ _ _) as [[? ?] ?].
  - pose proof (register_manifest_ok n v p inst s e Hc Hok Hrd). by destruct (driver_manager_register_package_manifest _ _ _ _) as [[? ?] ?].
  - pose proof (driver_unregister_ok n s e Hc Hok Hrd). by destruct (driver_manager_unregister _ _ _) as [[? ?] ?].
  - apply Hsame. unfold driver_manager_set_state. destruct (driver_identity_is_valid _) eqn:Hv; cbn [negb]; [|done]. apply set_state_same; [done|]. by apply identity_from_name_slot.
  - apply Hsame. by apply set_state_same.
  - apply Hsame. unfold driver_manager_set_instance. destruct (find_driver_by_name (Some n) s) as [i|] eqn:Hf; [|done]. destruct (find_driver_Some n s i Hd Hc Hf) as (Hi & _). by apply upd_driver_same.
  - apply Hsame. by apply activity_pin_same.
  - apply Hsame. by apply activity_unpin_same.
  - apply Hsame. by apply begin_quiesce_same.
  - apply Hsame. by apply abort_load_same.
  - pose proof (wait_quiesced_kept o sp s e Hc Hk). by destruct (driver_manager_wait_quiesced _ _ _ _) as [[? ?] ?].
  - pose proof (resource_register_kept o d k f v sz t s e Hc Hk). by destruct (driver_resource_register _ _ _ _ _ _ _ _ _ _) as [[[? ?] ?] ?].
  - pose proof (resource_release_kept o h k s e (proj2 Hc) Hk) as Hrel. destruct (driver_resource_release _ _ _ _ _) as [[? ?] ?]. apply Hrel.
  - pose proof (release_owner_kept o s e Hk). by destruct (driver_resource_release_owner _ _ _) as [[? ?] ?].
  - unfold driver_resource_resolve. destruct (negb _); [done|].
    destruct (with_lock_ready driver_resource_lock None (fun s => (resolve_resource o h k s, s)) s e Hrd) as (e' & -> & Hkeep). split; [done | by apply Hkeep].
Qed.

(** ** Initialisation *)

Lemma driver_at_quiesce i f s j : driver_at (upd_quiesce i f s) j = driver_at s j.
Proof using. done. Qed.
Lemma driver_table_init s : alen (drivers s) = DRIVER_MAX_RECORDS -> alen (quiesce s) = DRIVER_MAX_RECORDS ->
  let s' := for_range 0 DRIVER_MAX_RECORDS (fun i s =>
    let s := upd_quiesce i (fun _ => inhabitant) s in clear_driver_record i (upd_driver i (fun r => r <| d_slot := i |> <| d_generation := 0 |>) s)) s in
  alen (drivers s') = DRIVER_MAX_RECORDS /\ alen (quiesce s') = DRIVER_MAX_RECORDS /\ resources s' = resources s /\
  forall i, 0 <= i < DRIVER_MAX_RECORDS -> d_slot (driver_at s' i) = i /\ drv_active (driver_at s' i) = false.
Proof using.
  intros Hl Hq. cbv zeta. set (body := fun i s => _).
  apply (for_range_inv (fun i s' => alen (drivers s') = DRIVER_MAX_RECORDS /\ alen (quiesce s') = DRIVER_MAX_RECORDS /\ resources s' = resources s /\
    forall j, 0 <= j < i -> d_slot (driver_at s' j) = j /\ drv_active (driver_at s' j) = false) 0 DRIVER_MAX_RECORDS body s); [by unfold DRIVER_MAX_RECORDS | split_and!; (done || lia) |].
  intros i s1 Hi (L1 & L2 & R & Hat). unfold body. set (s2 := upd_driver i _ _).
  assert (alen (drivers s2) = DRIVER_MAX_RECORDS /\ alen (quiesce s2) = DRIVER_MAX_RECORDS) as [M1 M2].
  { split; [change (alen (aset (drivers s1) i ((driver_at s1 i) <| d_slot := i |> <| d_generation := 0 |>)) = DRIVER_MAX_RECORDS); by rewrite alen_aset |
      change (alen (aset (quiesce s1) i inhabitant) = DRIVER_MAX_RECORDS); by rewrite alen_aset]. }
  assert (forall j, 0 <= j -> driver_at s2 j = if decide (i = j) then (driver_at s1 i) <| d_slot := i |> <| d_generation := 0 |> else driver_at s1 j) as Hat2.
  { intros j Hj. unfold s2. rewrite driver_upd_at; done. }
  unfold clear_driver_record. set (s3 := upd_driver i _ s2).
  assert (forall j, 0 <= j -> driver_at s3 j = if decide (i = j) then cleared (driver_at s2 i) else driver_at s2 j) as Hat3.
  { intros j Hj. unfold s3. rewrite driver_upd_at; done. }
  rewrite Hat3, decide_True by (done || lia). change (d_slot (cleared (driver_at s2 i))) with (d_slot (driver_at s2 i)). rewrite Hat2, decide_True by (done || lia).
  change (d_slot (set_field d_generation _ (set_field d_slot (fun _ => i) _))) with i. replace (i <? DRIVER_MAX_RECORDS) with true by (symmetry; apply Z.ltb_lt; lia).
  split_and!.
  - change (alen (aset (drivers s2) i (cleared (driver_at s2 i))) = DRIVER_MAX_RECORDS). by rewrite alen_aset.
  - change (alen (aset (quiesce s2) i ((quiesce_at s2 i) <| accepting := 0 |>)) = DRIVER_MAX_RECORDS). by rewrite alen_aset.
  - done.
  - intros j Hj. rewrite driver_at_quiesce, Hat3 by lia. case_decide as He; [subst j; rewrite Hat2, decide_True by (done || lia); done|].
    rewrite Hat2, decide_False by (done || lia). apply Hat. lia.
Qed.
Lemma resource_loop_init s : alen (resources s) = DRIVER_MAX_RESOURCES ->
  let s' := for_range 0 DRIVER_MAX_RESOURCES (fun i s => upd_resource i (fun r => clear_record (r <| r_slot := i |> <| r_generation := 0 |>)) s) s in
  alen (resources s') = DRIVER_MAX_RESOURCES /\ same_drivers s s' /\ forall j, 0 <= j < DRIVER_MAX_RESOURCES -> r_slot (resource_at s' j) = j /\ res_active (resource_at s' j) = false.
Proof using.
  intros Hl. apply (for_range_inv (fun i s' => alen (resources s') = DRIVER_MAX_RESOURCES /\ same_drivers s s' /\
    forall j, 0 <= j < i -> r_slot (resource_at s' j) = j /\ res_active (resource_at s' j) = false) 0 DRIVER_MAX_RESOURCES); [by unfold DRIVER_MAX_RESOURCES | split_and!; (done || lia) |].
  intros i s1 Hi (L1 & D1 & Hat). split_and!; [by etransitivity; [apply alen_aset|] | exact D1 |].
  intros j Hj. rewrite resource_upd_at by (done || lia). case_decide; [by subst | apply Hat; lia].
Qed.
(** An empty table with cleared counters. *)
Lemma empty_resources_ok s : alen (resources s) = DRIVER_MAX_RESOURCES -> (forall j, 0 <= j < DRIVER_MAX_RESOURCES -> r_slot (resource_at s j) = j /\ res_active (resource_at s j) = false) ->
  resources_ok (s <| resource_stats := no_resource_stats |>).
Proof using.
  intros L1 Hat. assert (forall p, (forall r, res_active r = false -> p r = false) -> acount p (resources s) = 0) as Hz.
  { intros p Hp. apply acount_none. rewrite L1. intros i Hi. apply Hp. by apply Hat. }
  constructor.
  - done.
  - intros i Hi. by apply Hat.
  - intros i Hi Ha. destruct (Hat i Hi) as [_ Hn]. change (res_active (resource_at s i) = true) in Ha. congruence.
  - change (0 = acount res_active (resources s)). by rewrite Hz.
  - intros k Hk. change (aget (replicate 8 0) k = acount (res_of_kind k) (resources s)). rewrite Hz by (intros r Hr; unfold res_of_kind; by rewrite Hr). by apply aget_replicate.
Qed.
Lemma resource_table_init s e : alen (resources s) = DRIVER_MAX_RESOURCES ->
  let '(s', _) := driver_resource_init s e in resources_ok s' /\ same_drivers s s' /\ forall i, 0 <= i < DRIVER_MAX_RESOURCES -> res_active (resource_at s' i) = false.
Proof using.
  intros Hl. unfold driver_resource_init. pose proof (resource_loop_init s Hl) as Hloop. cbv zeta in Hloop |- *. revert Hloop. generalize (for_range 0 DRIVER_MAX_RESOURCES
    (fun i s => upd_resource i (fun r => clear_record (r <| r_slot := i |> <| r_generation := 0 |>)) s) s). intros s' (L1 & D1 & Hat).
  split_and!; [by apply empty_resources_ok | done | intros i Hi; by apply Hat].
Qed.
Lemma driver_manager_init_ok `{DriverHost E} s va e : alen (drivers s) = DRIVER_MAX_RECORDS -> alen (quiesce s) = DRIVER_MAX_RECORDS -> alen (resources s) = DRIVER_MAX_RESOURCES ->
  driver_ok (driver_manager_init s va e).1.1.
Proof using.
  intros L1 L2 L3. unfold driver_manager_init. set (s0 := set_field quiesce_quarantines _ _).
  pose proof (driver_table_init s0 L1 L2) as Ht. cbv zeta in Ht |- *. revert Ht. match goal with |- context [for_range ?a ?b ?c s0] => generalize (for_range a b c s0) end.
  intros s1 (K1 & K2 & K3 & K4). pose proof (resource_table_init s1 e ltac:(by rewrite K3)) as Hr.
  destruct (driver_resource_init s1 e) as [s2 e2]. destruct Hr as (R1 & [E1 E2] & R3). destruct (driver_image_va_init va e2) as [va' e3]. cbn [fst].
  assert (forall i, 0 <= i < DRIVER_MAX_RECORDS -> d_slot (driver_at s2 i) = i /\ drv_active (driver_at s2 i) = false) as Hat by (intros i Hi; unfold driver_at; rewrite E1; by apply K4).
  apply (same_registrations_ok s2); [by apply only_counters_same|]. constructor; [|done|].
  - constructor; [by rewrite E1, E2 | intros i Hi; by apply Hat | |].
    + intros i Hi Ha. destruct (Hat i Hi). congruence.
    + intros i j Hi Hj Ha. destruct (Hat i Hi). congruence.
  - intros i Hi Ha. rewrite R3 in Ha by done. done.
Qed.

(** C34: From [driver_manager_init] on, after any calls of the driver manager (drivers registered, failed, unregistered and registered again, states set,
    activities pinned, drivers quiesced, resources registered, released and looked up under any handles) in which the names given are shorter than 32 bytes, the
    size of a record's name (longer ones are cut off and can be registered twice, [driver_long_name_twice]), with the lock free when it is wanted: every active resource belongs to a
    driver that is registered now, under its present generation; the counts of active resources, in all and of each kind, are exact; no two registered drivers have the same
    name; and the quiesce slot of each carries its generation. *)
Theorem driver_histories_safe `{DriverHost E} s va e (calls : list drv_call) :
  alen (drivers s) = DRIVER_MAX_RECORDS -> alen (quiesce s) = DRIVER_MAX_RECORDS -> alen (resources s) = DRIVER_MAX_RESOURCES -> Forall drv_args_ok calls ->
  let '(s1, _, e1) := driver_manager_init s va e in ready e1 driver_resource_lock -> driver_ok (drv_run calls (s1, e1)).1.
Proof using.
  intros L1 L2 L3 Hcs. pose proof (driver_manager_init_ok s va e L1 L2 L3) as Hok. destruct (driver_manager_init s va e) as [[s1 va1] e1]. cbn [fst] in Hok. intros Hrd.
  enough (kept (drv_run calls (s1, e1))) as [Hk _] by exact Hk. unfold drv_run. assert (kept (s1, e1)) as Hk by done. revert Hk. generalize (s1, e1).
  induction Hcs as [|c cs Hc Hcs IH]; intros [s2 e2] Hk; [done|]. cbn [foldl]. apply IH. by apply drv_run1_kept.
Qed.
End History.

(** ** Registering and finding *)

Lemma next_generation_new g : driver_next_generation g <> g.
Proof.
  unfold driver_next_generation, nonzero. pose proof (Z.div_mod (g + 1) (2 ^ 32) ltac:(lia)) as Hd. pose proof (u32_range (g + 1)) as Hr. unfold u32, is_u32 in *.
  destruct (negb _) eqn:Hz; intros He; [|subst g; done]. set (d := (g + 1) / 2 ^ 32) in *. lia.
Qed.
Lemma find_registered n s i : drivers_ok s -> name_ok n -> 0 <= i < DRIVER_MAX_RECORDS -> drv_active (driver_at s i) = true -> d_name (driver_at s i) = n -> find_driver_by_name (Some n) s = Some i.
Proof.
  intros Hd Hn Hi Ha He. destruct (find_driver_by_name (Some n) s) as [j|] eqn:Hf.
  - destruct (find_driver_Some n s j Hd Hn Hf) as (Hj & Hja & Hjn). f_equal. by apply (dt_names s Hd); [..|congruence].
  - by destruct (find_driver_None n s Hd Hn Hf i Hi Ha).
Qed.
Lemma reused_record s i : drv_active (driver_at s i) = true -> negb (driver_record_can_be_reused (driver_at s i)) = negb ((d_state (driver_at s i) =? DRIVER_STATE_FAILED) || (d_state (driver_at s i) =? DRIVER_STATE_REJECTED)).
Proof. intros Ha. unfold driver_record_can_be_reused. unfold drv_active in Ha. by rewrite Ha. Qed.

(** What finding the new driver gives. *)
Record registered (n : text) (version : option text) (kind perms inst : Z) s s' : Prop := {
  rg_found : exists i, driver_manager_find (Some n) s' = Some i /\ d_name (driver_at s' i) = n /\ d_kind (driver_at s' i) = u16 kind /\ d_permissions (driver_at s' i) = perms /\
    d_instance (driver_at s' i) = inst /\ d_version (driver_at s' i) = copy_string64 16 (default [98; 117; 105; 108; 116; 105; 110] version) /\ d_state (driver_at s' i) = DRIVER_STATE_REGISTERED;
  rg_new : let id := driver_manager_identity_from_name (Some n) s' in live s' id /\ ~ live s id;
  rg_others : forall o, 0 <= id_slot o -> live s o -> id_slot o <> id_slot (driver_manager_identity_from_name (Some n) s') -> live s' o }.

Lemma fill_registered i n version kind perms inst s0 s : driver_ok s -> 0 <= i < DRIVER_MAX_RECORDS -> name_ok n -> drv_active (driver_at s i) = false ->
  (forall j, 0 <= j < DRIVER_MAX_RECORDS -> drv_active (driver_at s j) = true -> d_name (driver_at s j) <> n) ->
  d_generation (driver_at s i) = d_generation (driver_at s0 i) -> (forall j, 0 <= j -> j <> i -> driver_at s j = driver_at s0 j) ->
  registered n version kind perms inst s0 (upd_driver i (fun r => r <| d_kind := u16 kind |> <| d_permissions := perms |> <| d_instance := inst |>
    <| d_name := n |> <| d_version := copy_string64 16 (default [98; 117; 105; 108; 116; 105; 110] version) |>) (activate_driver_record i s)).
Proof.
  intros Hok Hi Hn Hdead Huniq Hg0 Hat0. set (f := fun r : DriverRecord => set_field d_version _ _).
  destruct (activate_spec i f n s (ok_drivers s Hok) Hi Hn) as (K1 & K2 & K3 & K4 & r & Hr & Ha & Hst & Hg); [intros j Hj _; by apply Huniq | done |].
  set (s' := upd_driver i f (activate_driver_record i s)) in *. clearbody s'.
  assert (drv_active (driver_at s' i) = true) as Hact by (rewrite Hr; unfold drv_active, f; cbn; by rewrite Ha).
  assert (find_driver_by_name (Some n) s' = Some i) as Hf by (apply find_registered; [done | done | done | done | by rewrite Hr]).
  destruct (dt_live s' K1 i Hi Hact) as (Hgn & _ & _). pose proof (dt_slots s' K1 i Hi) as Hsl.
  assert (driver_manager_identity_from_name (Some n) s' = {| id_slot := i; id_generation := d_generation (driver_at s' i) |}) as Hid by (unfold driver_manager_identity_from_name; by rewrite Hf, Hsl).
  assert (d_generation (driver_at s' i) = driver_next_generation (d_generation (driver_at s0 i))) as Hgen by (rewrite Hr, <- Hg0; exact Hg).
  constructor.
  - exists i. unfold driver_manager_find. rewrite Hf, Hr. split_and!; try done.
  - rewrite Hid. split.
    + unfold live, driver_manager_identity_is_live, driver_identity_is_valid. cbn [id_slot id_generation]. unfold drv_active in Hact. rewrite Hgn, Hact, Z.eqb_refl.
      replace (i <? DRIVER_MAX_RECORDS) with true by (symmetry; apply Z.ltb_lt; lia). done.
    + unfold live, driver_manager_identity_is_live. cbn [id_slot id_generation]. rewrite Hgen. intros [_ [_ He%Z.eqb_eq]%andb_true_iff]%andb_true_iff. by apply (next_generation_new (d_generation (driver_at s0 i))).
  - rewrite Hid. cbn [id_slot]. intros o H0 Hl Hne. unfold live, driver_manager_identity_is_live in *. rewrite K4, Hat0 by done. done.
Qed.

Section RegisterFind.
Context {E : Type} `{LockLaws E}.

(** Registering a built-in driver under a name that fits: it succeeds exactly when the name is free, or its driver has failed or been rejected, and a slot is left; the new driver is
    then found under the name with what was given, in state registered, under an identity that was never live at that moment, and the identities of all other drivers stay live.  If the name is
    taken by a working driver, or no slot is left, nothing changes. *)
Theorem driver_register_find_roundtrip (n : text) version kind perms inst s (e : E) :
  n <> [] -> name_ok n -> driver_ok s -> ready e driver_resource_lock ->
  let '(res, s', _) := driver_manager_register_builtin (Some n) version kind perms inst s e in
  (res = DRIVER_LOAD_OK /\ registered n version kind perms inst s s') \/
  (res = DRIVER_LOAD_DUPLICATE /\ s' = s /\ exists i, 0 <= i < DRIVER_MAX_RECORDS /\ drv_active (driver_at s i) = true /\ d_name (driver_at s i) = n /\
     d_state (driver_at s i) <> DRIVER_STATE_FAILED /\ d_state (driver_at s i) <> DRIVER_STATE_REJECTED) \/
  (res = DRIVER_LOAD_NO_SLOT /\ s' = s /\ forall i, 0 <= i < DRIVER_MAX_RECORDS -> drv_active (driver_at s i) = true /\ d_name (driver_at s i) <> n).
Proof using.
  intros Hne Hn Hok Hrd. unfold driver_manager_register_builtin. cbn [default from_option id]. pose proof (ok_drivers s Hok) as Hd.
  replace (alen n =? 0) with false by (symmetry; apply Z.eqb_neq; destruct n; [done|]; unfold alen; cbn [length]; lia). cbv zeta. rewrite (copy_string64_short n Hn).
  destruct (find_driver_by_name (Some n) s) as [i|] eqn:Hf.
  - destruct (find_driver_Some n s i Hd Hn Hf) as (Hi & Ha & Hnm). rewrite (reused_record s i Ha). destruct (_ || _) eqn:Hst; cbn [negb].
    + pose proof (remove_spec i s e Hok Hrd Hi Ha) as Hrem. destruct (driver_resource_release_owner _ s e) as [[m s1] e1]. left. cbv zeta in Hrem. destruct Hrem as (_ & Hok2 & _ & Hat).
      destruct (cleared_names i n s _ Hd Hi Ha Hnm Hat) as [Hdead Huniq]. split; [done|]. apply fill_registered; try done.
      * rewrite Hat, decide_True by (done || lia). done.
      * intros j Hj Hji. rewrite Hat by done. by rewrite decide_False by congruence.
    + right. left. split_and!; try done. exists i. bprop. split_and!; (done || lia).
  - destruct (alloc_driver_record s) as [i|] eqn:Hal.
    + left. apply alloc_driver_Some in Hal as [Hi Hdead]. split; [done|]. apply fill_registered; try done. by apply find_driver_None.
    + right. right. split_and!; try done. intros i Hi. pose proof (find_first_None _ _ _ Hal i Hi) as Ha. apply negb_false_iff in Ha. split; [done|]. by apply (find_driver_None n s Hd Hn Hf).
Qed.
End RegisterFind.

(** ** Concrete runs *)

#[export] Instance quiet_driver_host : DriverHost unit := {| driver_parts_init e := e |}.
Definition driver0 : DriverState := {|
  drivers := replicate 32 inhabitant; last_error := {| e_result := 0; e_index := 0; e_detail := 0; e_stage := []; e_module := []; e_name := [] |};
  lifecycle_driver := []; quiesce := replicate 32 inhabitant; quiesce_pins := 0; quiesce_unpins := 0; quiesce_rejections := 0; quiesce_waits := 0;
  quiesce_timeouts := 0; quiesce_quarantines := 0; resources := replicate 128 inhabitant; resource_stats := no_resource_stats |}.
Definition arena0 : DriverVaState := {|
  free_extents := replicate 129 inhabitant; allocations := replicate 128 inhabitant; va_stats := no_va_stats; arena_base := 0; arena_limit := 0;
  highest_reserved_end := 0; va_guard_pages := 0; free_extent_count := 0; initialized := 0 |}.
Definition kbd : text := [107; 98; 100].
(** A keyboard driver that owns an interrupt fails and is registered again. *)
Definition kbd_calls : list drv_call :=
  let id := {| id_slot := 0; id_generation := 1 |} in
  [DRegister kbd None 2 0 0; DOwn id id 1 0 33 1 None; DSetState kbd DRIVER_STATE_FAILED; DRegister kbd None 2 0 0; DOwn id id 1 0 33 1 None].
Lemma driver_histories_safe_witness :
  (let '(s1, _, e1) := driver_manager_init driver0 arena0 tt in ready e1 driver_resource_lock -> driver_ok (drv_run kbd_calls (s1, e1)).1) /\
  (let '(s1, _, e1) := driver_manager_init driver0 arena0 tt in
   let s2 := (drv_run kbd_calls (s1, e1)).1 in
   (rs_active (resource_stats s2), rs_registrations (resource_stats s2), rs_owner_rejections (resource_stats s2), d_generation (driver_at s2 0))) = (0, 1, 1, 2).
Proof.
  split; [|vm_compute; reflexivity]. apply driver_histories_safe; [done | done | done |]. repeat constructor; try done; cbn; lia.
Defined.
Definition drivers_up : DriverState := (driver_manager_init driver0 arena0 tt).1.1.
Lemma drivers_up_ok : driver_ok drivers_up.
Proof. by apply driver_manager_init_ok. Qed.
Lemma driver_register_find_roundtrip_witness :
  let '(res, s', _) := driver_manager_register_builtin (Some kbd) None 2 0 0 drivers_up tt in
  (res = DRIVER_LOAD_OK /\ registered kbd None 2 0 0 drivers_up s') \/
  (res = DRIVER_LOAD_DUPLICATE /\ s' = drivers_up /\ exists i, 0 <= i < DRIVER_MAX_RECORDS /\ drv_active (driver_at drivers_up i) = true /\ d_name (driver_at drivers_up i) = kbd /\
     d_state (driver_at drivers_up i) <> DRIVER_STATE_FAILED /\ d_state (driver_at drivers_up i) <> DRIVER_STATE_REJECTED) \/
  (res = DRIVER_LOAD_NO_SLOT /\ s' = drivers_up /\ forall i, 0 <= i < DRIVER_MAX_RECORDS -> drv_active (driver_at drivers_up i) = true /\ d_name (driver_at drivers_up i) <> kbd).
Proof.
  apply (driver_register_find_roundtrip kbd None 2 0 0 drivers_up tt); [done | split; [by repeat constructor | reflexivity] | apply drivers_up_ok | exact I].
Defined.
Lemma kbd_registered : (driver_manager_register_builtin (Some kbd) None 2 0 0 drivers_up tt).1.1 = DRIVER_LOAD_OK.
Proof. vm_compute. reflexivity. Qed.

(** A name that does not fit: registered twice, it makes two records of the same name, and looking it up finds neither. *)
Definition long_name : text := replicate 40 120.
Lemma driver_long_name_twice :
  let s2 := (drv_run [DRegister long_name None 2 0 0; DRegister long_name None 2 0 0] (drivers_up, tt)).1 in
  d_active (driver_at s2 0) = 1 /\ d_active (driver_at s2 1) = 1 /\ d_name (driver_at s2 0) = d_name (driver_at s2 1) /\ driver_manager_find (Some long_name) s2 = None.
Proof. vm_compute. done. Qed.
