(* ===== verification/LinkedList.v ===== *)
(** * Doubly linked lists and tilings

    Shapes the heap's invariant is made of.  [dseg nx pv p l n] says that the
    cells [l] are linked by the pointer functions [nx] and [pv], that the
    first one points back to [p] and the last one on to [n]; a whole list is
    [dseg nx pv 0 l 0].  [tiled sz a l z] says that the blocks [l], of sizes
    [sz], lie one after the other from address [a] to address [z]. *)

From S2P Require Import Prelude.

(** The first and last cells, or what a pointer is when there is none. *)
Definition first_or (n : Z) (l : list Z) : Z := match l with [] => n | b :: _ => b end.
Definition last_or (p : Z) (l : list Z) : Z := List.last l p.

Lemma first_or_app n l1 l2 : first_or n (l1 ++ l2) = first_or (first_or n l2) l1.
Proof. by destruct l1. Qed.
Lemma last_or_snoc p l b : last_or p (l ++ [b]) = b.
Proof. apply List.last_last. Qed.
Lemma last_or_cons p b l : last_or p (b :: l) = last_or b l.
Proof. unfold last_or. revert b. induction l as [|c l IH]; intros b; [done|]. simpl in *. by destruct l. Qed.
Lemma last_or_app p l1 l2 : last_or p (l1 ++ l2) = last_or (last_or p l1) l2.
Proof. revert p. induction l1 as [|b l1 IH]; intros p; [done|]. rewrite <- app_comm_cons, !last_or_cons. apply IH. Qed.
Lemma last_or_elem p l : last_or p l = p \/ last_or p l ∈ l.
Proof.
  induction l as [|b l IH] using rev_ind; [by left | right]. rewrite last_or_snoc. apply elem_of_app. right. by left.
Qed.
Lemma last_or_nonempty p q l : l <> [] -> last_or p l = last_or q l.
Proof. destruct l as [|b l]; [done|]. intros _. by rewrite !last_or_cons. Qed.
Lemma last_or_zero l : (forall c, c ∈ l -> c <> 0) -> last_or 0 l = 0 -> l = [].
Proof.
  destruct l as [|c l]; [done|]. rewrite last_or_cons. intros Hz E. exfalso.
  destruct (last_or_elem c l) as [E'|E']; [apply (Hz c); [by left | congruence] | by apply (Hz (last_or c l)); [right|]].
Qed.
Lemma first_or_elem n l : first_or n l = n \/ first_or n l ∈ l.
Proof. destruct l; [by left | right; by left]. Qed.
Lemma first_or_nonempty n m l : l <> [] -> first_or n l = first_or m l.
Proof. by destruct l. Qed.

(** ** Linked segments *)

Fixpoint dseg (nx pv : Z -> Z) (p : Z) (l : list Z) (n : Z) : Prop :=
  match l with
  | [] => True
  | b :: l => pv b = p /\ nx b = first_or n l /\ dseg nx pv b l n
  end.

Lemma dseg_app nx pv p l1 l2 n :
  dseg nx pv p (l1 ++ l2) n <-> dseg nx pv p l1 (first_or n l2) /\ dseg nx pv (last_or p l1) l2 n.
Proof.
  revert p. induction l1 as [|b l1 IH]; intros p; cbn [app dseg]; [unfold last_or; simpl; tauto|].
  rewrite IH, first_or_app, last_or_cons. tauto.
Qed.

Lemma dseg_ext nx pv nx' pv' p l n : (forall b, b ∈ l -> nx' b = nx b /\ pv' b = pv b) ->
  dseg nx pv p l n -> dseg nx' pv' p l n.
Proof.
  revert p. induction l as [|b l IH]; intros p He; [done|]. intros (Hp & Hn & Hd).
  cbn [dseg]. destruct (He b ltac:(by left)) as [-> ->]. split_and!; [done | done |].
  apply IH; [|done]. intros c Hc. apply He. by right.
Qed.

(** Where the cells of a segment point. *)
Lemma dseg_at nx pv p l1 b l2 n : dseg nx pv p (l1 ++ b :: l2) n ->
  pv b = last_or p l1 /\ nx b = first_or n l2.
Proof. rewrite dseg_app. by intros [_ (? & ? & _)]. Qed.

(** Changing what the last cell points on to. *)
Lemma dseg_end nx pv nx' pv' p l n n' : NoDup l -> dseg nx pv p l n ->
  (forall b, b ∈ l -> pv' b = pv b) ->
  (forall b, b ∈ l -> nx' b = if decide (b = last_or p l) then n' else nx b) ->
  dseg nx' pv' p l n'.
Proof.
  destruct l as [|b l] using rev_ind; [done|]. clear IHl. rewrite !dseg_app, last_or_snoc.
  intros Hnd [Hd (Hp & _ & _)] Hpv Hnx. apply NoDup_app in Hnd as (_ & Hnb & _).
  assert (b ∈ l ++ [b]) as Hb by (apply elem_of_app; right; by left). split.
  - eapply dseg_ext; [|exact Hd]. intros c Hc. assert (c ∈ l ++ [b]) as Hc' by (apply elem_of_app; by left).
    rewrite Hpv, Hnx by done. rewrite decide_False; [done|]. intros ->. apply (Hnb b Hc). by left.
  - simpl. rewrite Hpv, Hnx by done. by rewrite decide_True.
Qed.

(** Changing what the first cell points back to. *)
Lemma dseg_start nx pv nx' pv' p p' l n : NoDup l -> dseg nx pv p l n ->
  (forall b, b ∈ l -> nx' b = nx b) ->
  (forall b, b ∈ l -> pv' b = if decide (b = first_or n l) then p' else pv b) ->
  dseg nx' pv' p' l n.
Proof.
  destruct l as [|b l]; [done|]. intros Hnd (Hp & Hn & Hd) Hnx Hpv. apply NoDup_cons in Hnd as [Hb Hnd].
  simpl in Hpv. simpl. rewrite Hnx, Hpv by (by left). rewrite decide_True by done. split_and!; [done | done |].
  eapply dseg_ext; [|exact Hd]. intros c Hc. rewrite Hnx, Hpv by (by right). rewrite decide_False; [done|].
  by intros ->.
Qed.

Section Whole.
Context (l1 l2 : list Z) (b : Z).
Context (Hnd : NoDup (l1 ++ b :: l2)) (Hnz : forall c, c ∈ l1 ++ b :: l2 -> c <> 0).

Lemma whole_parts : NoDup l1 /\ NoDup l2 /\ (b ∉ l1) /\ (b ∉ l2) /\ (forall c, c ∈ l1 -> c ∉ l2) /\
  (forall c, c ∈ l1 -> c <> 0) /\ (forall c, c ∈ l2 -> c <> 0) /\ b <> 0.
Proof.
  apply NoDup_app in Hnd as (H1 & H2 & H3). apply NoDup_cons in H3 as [H3 H4].
  split_and!; try done.
  - intros Hb. apply (H2 b Hb). by left.
  - intros c Hc Hc'. apply (H2 c Hc). by right.
  - intros c Hc. apply Hnz. set_solver.
  - intros c Hc. apply Hnz. set_solver.
  - apply Hnz. set_solver.
Qed.

(** Unlinking a cell. *)
Lemma dseg_remove nx pv nx' pv' : dseg nx pv 0 (l1 ++ b :: l2) 0 ->
  (forall c, c ∈ l1 ++ l2 -> nx' c = if decide (c = pv b) then nx b else nx c) ->
  (forall c, c ∈ l1 ++ l2 -> pv' c = if decide (c = nx b) then pv b else pv c) ->
  dseg nx' pv' 0 (l1 ++ l2) 0.
Proof.
  destruct whole_parts as (N1 & N2 & B1 & B2 & D & Z1 & Z2 & Zb). intros Hd Hnx Hpv.
  destruct (dseg_at _ _ _ _ _ _ _ Hd) as [Hp Hn]. rewrite Hp, Hn in *.
  apply dseg_app in Hd as [Hd1 (_ & _ & Hd2)]. apply dseg_app. split.
  - eapply dseg_end; [done | exact Hd1 | |]; intros c Hc; rewrite ?Hnx, ?Hpv by set_solver.
    + rewrite decide_False; [done|]. intros ->. destruct (first_or_elem 0 l2) as [E|E]; [by apply (Z1 _ Hc)|].
      by apply (D _ Hc).
    + done.
  - eapply dseg_start; [done | exact Hd2 | |]; intros c Hc; rewrite ?Hnx, ?Hpv by set_solver.
    + rewrite decide_False; [done|]. intros ->. destruct (last_or_elem 0 l1) as [E|E]; [by apply (Z2 _ Hc)|].
      by apply (D _ E).
    + done.
Qed.

(** Linking a new cell [b] between [l1] and [l2]. *)
Lemma dseg_insert nx pv nx' pv' : dseg nx pv 0 (l1 ++ l2) 0 ->
  pv' b = last_or 0 l1 -> nx' b = first_or 0 l2 ->
  (forall c, c ∈ l1 ++ l2 -> nx' c = if decide (c = last_or 0 l1) then b else nx c) ->
  (forall c, c ∈ l1 ++ l2 -> pv' c = if decide (c = first_or 0 l2) then b else pv c) ->
  dseg nx' pv' 0 (l1 ++ b :: l2) 0.
Proof.
  destruct whole_parts as (N1 & N2 & B1 & B2 & D & Z1 & Z2 & Zb). intros Hd Hpb Hnb Hnx Hpv.
  apply dseg_app in Hd as [Hd1 Hd2]. apply dseg_app. split; [|split_and!; [done | done |]].
  - eapply dseg_end; [done | exact Hd1 | |]; intros c Hc; rewrite ?Hnx, ?Hpv by set_solver.
    + rewrite decide_False; [done|]. intros ->. destruct (first_or_elem 0 l2) as [E|E]; [by apply (Z1 _ Hc)|].
      by apply (D _ Hc).
    + done.
  - eapply dseg_start; [done | exact Hd2 | |]; intros c Hc; rewrite ?Hnx, ?Hpv by set_solver.
    + rewrite decide_False; [done|]. intros ->. destruct (last_or_elem 0 l1) as [E|E]; [by apply (Z2 _ Hc)|].
      by apply (D _ E).
    + done.
Qed.
End Whole.

(** ** Tilings *)

Fixpoint tiled (sz : Z -> Z) (a : Z) (l : list Z) (z : Z) : Prop :=
  match l with
  | [] => a = z
  | b :: l => b = a /\ tiled sz (b + sz b) l z
  end.

Lemma tiled_app sz a l1 l2 z : tiled sz a (l1 ++ l2) z <-> exists m, tiled sz a l1 m /\ tiled sz m l2 z.
Proof.
  revert a. induction l1 as [|b l1 IH]; intros a; simpl.
  - split; [intros H; by exists a | by intros (m & -> & ?)].
  - rewrite IH. naive_solver.
Qed.
Lemma tiled_ext sz sz' a l z : (forall b, b ∈ l -> sz' b = sz b) -> tiled sz a l z -> tiled sz' a l z.
Proof.
  revert a. induction l as [|b l IH]; intros a He; [done|]. intros [-> Hd].
  split; [done|]. rewrite He by (by left). apply IH; [|done]. intros c Hc. apply He. by right.
Qed.

(** The blocks of a tiling with positive sizes are inside it, in order and
    disjoint. *)
Lemma tiled_range sz a l z : tiled sz a l z -> (forall b, b ∈ l -> 0 < sz b) ->
  a <= z /\ forall b, b ∈ l -> a <= b /\ b + sz b <= z.
Proof.
  revert a. induction l as [|b l IH]; intros a; simpl.
  - intros -> _. split; [lia|]. intros b Hb. by apply elem_of_nil in Hb.
  - intros [-> Hd] Hpos. pose proof (Hpos a ltac:(by left)).
    destruct (IH _ Hd) as [Ha Hin]; [intros c Hc; apply Hpos; by right|]. split; [lia|].
    intros c [->|Hc]%elem_of_cons; [lia|]. specialize (Hin c Hc). lia.
Qed.
Lemma tiled_apart sz a l z b c : tiled sz a l z -> (forall b, b ∈ l -> 0 < sz b) -> b ∈ l -> c ∈ l -> b < c ->
  b + sz b <= c.
Proof.
  intros Ht Hpos Hb Hc Hlt. apply list_elem_of_split in Hb as (l1 & l2 & ->).
  apply tiled_app in Ht as (m & H1 & [-> H2]).
  apply elem_of_app in Hc as [Hc|[->|Hc]%elem_of_cons]; [|lia|].
  - assert (0 < sz c) by (apply Hpos, elem_of_app; by left).
    apply (tiled_range _ _ _ _ H1) in Hc; [lia | intros; apply Hpos; set_solver].
  - apply (tiled_range _ _ _ _ H2); [intros; apply Hpos; set_solver | done].
Qed.
Lemma tiled_nodup sz a l z : tiled sz a l z -> (forall b, b ∈ l -> 0 < sz b) -> NoDup l.
Proof.
  revert a. induction l as [|b l IH]; intros a; [constructor|]. intros [-> Hd] Hpos.
  assert (forall c, c ∈ l -> 0 < sz c) as Hpos' by (intros; apply Hpos; by right).
  constructor; [|by eapply IH]. intros Hb. destruct (tiled_range _ _ _ _ Hd Hpos') as [_ Hin].
  specialize (Hin a Hb). specialize (Hpos a ltac:(by left)). lia.
Qed.
