(* ===== verification/MemFs.v ===== *)
(** * The memory file system ([kernel/vfs/vfs_common.cpp], [kernel/vfs/vfs_memfs.cpp])

    A table of 16 nodes; a directory links its children through [first_child]
    and [next_sibling], a node names its directory in [parent], and -1 ends a
    chain.  A string is the list of its bytes before the terminating 0, and a
    path that is being read is what is left of it.  Node pointers are node
    indices; [memfs_get_node] answers [None] for the null pointer.

    Walks along links carry fuel ([chain_fuel], one more than the number of
    nodes); in a well-formed table no walk uses it up. *)

From S2P Require Import Prelude.

Definition VFS_OK : Z := 0.
Definition VFS_ERR_NOT_READY : Z := -1.
Definition VFS_ERR_INVALID_PATH : Z := -2.
Definition VFS_ERR_NOT_FOUND : Z := -3.
Definition VFS_ERR_BUFFER_TOO_SMALL : Z := -4.
Definition VFS_ERR_IO : Z := -5.
Definition VFS_ERR_ALREADY_MOUNTED : Z := -6.
Definition VFS_ERR_NO_SLOT : Z := -7.
Definition VFS_ERR_UNSUPPORTED : Z := -8.
Definition VFS_NODE_NONE : Z := 0.
Definition VFS_NODE_FILE : Z := 1.
Definition VFS_NODE_DIR : Z := 2.
Definition VFS_NAME_MAX : Z := 64.
Definition MEMFS_MAX_NODES : Z := 16.
Definition MEMFS_MAX_NAME : Z := 16.
Definition MEMFS_MAX_FILE_SIZE : Z := 256.

(** ** Strings ([vfs_common.cpp]) *)

Definition str : Type := list Z.
Definition SLASH : Z := 47.
Definition DOT : Z := 46.

Definition vfs_strlen_local (text : str) : Z := alen text.
Fixpoint vfs_str_eq (a b : str) : bool :=
  match a, b with
  | x :: a, y :: b => if x =? y then vfs_str_eq a b else false
  | [], [] => true
  | _, _ => false
  end.
(** What the destination holds afterwards. *)
Fixpoint copy_loop (room : nat) (src : str) : str :=
  match room, src with
  | S room, c :: src => c :: copy_loop room src
  | _, _ => []
  end.
Definition vfs_copy_string (capacity : Z) (src : str) : str := copy_loop (Z.to_nat (capacity - 1)) src.

(** ** Nodes *)

Record MemFSNode := {
  node_active : Z; node_type : Z; node_parent : Z; first_child : Z; next_sibling : Z;
  node_name : str; node_size : Z; node_data : list Z }.
#[export] Instance MemFSNode_settable : Settable MemFSNode := {| eta_expand n := {|
  node_active := node_active n; node_type := node_type n; node_parent := node_parent n; first_child := first_child n;
  next_sibling := next_sibling n; node_name := node_name n; node_size := node_size n; node_data := node_data n |} |}.
#[export] Instance MemFSNode_inhabited : Inhabited MemFSNode := populate {|
  node_active := 0; node_type := 0; node_parent := 0; first_child := 0; next_sibling := 0; node_name := [];
  node_size := 0; node_data := [] |}.
(** [g_memfs_nodes] *)
Definition MemFs : Type := list MemFSNode.
Definition upd_node (i : Z) (f : MemFSNode -> MemFSNode) (s : MemFs) : MemFs := aset s i (f (aget s i)).
Definition chain_fuel : nat := Z.to_nat (MEMFS_MAX_NODES + 1).

Definition memfs_get_node (index : Z) (s : MemFs) : option MemFSNode :=
  if (index <? 0) || (MEMFS_MAX_NODES <=? index) then None
  else if node_active (aget s index) =? 0 then None else Some (aget s index).

Definition memfs_is_reserved_segment (name : str) : bool := vfs_str_eq name [DOT] || vfs_str_eq name [DOT; DOT].

Fixpoint find_child_loop (fuel : nat) (child_index : Z) (name : str) (s : MemFs) : Z :=
  match fuel with
  | O => -1
  | S fuel =>
    if child_index <? 0 then -1
    else
      match memfs_get_node child_index s with
      | Some child => if vfs_str_eq (node_name child) name then child_index else find_child_loop fuel (next_sibling child) name s
      | None => -1
      end
  end.
Definition memfs_find_child (dir_index : Z) (name : str) (s : MemFs) : Z :=
  match memfs_get_node dir_index s with
  | Some dir => if negb (node_type dir =? VFS_NODE_DIR) then -1 else find_child_loop chain_fuel (first_child dir) name s
  | None => -1
  end.

(** The index of the new node, or -1. *)
Definition memfs_alloc_node (type parent : Z) (name : str) (s : MemFs) : Z * MemFs :=
  if (alen name =? 0) || (MEMFS_MAX_NAME <=? vfs_strlen_local name) || memfs_is_reserved_segment name then (-1, s)
  else
    match find_first (fun i => node_active (aget s i) =? 0) 1 (Z.to_nat (MEMFS_MAX_NODES - 1)) with
    | None => (-1, s)
    | Some i =>
      let s := upd_node i (fun n => n <| node_active := 1 |> <| node_type := type |> <| node_parent := parent |>
                 <| first_child := -1 |> <| next_sibling := -1 |> <| node_size := 0 |>
                 <| node_name := vfs_copy_string MEMFS_MAX_NAME name |>) s in
      let s := match memfs_get_node parent s with
               | Some parent_node =>
                 let s := upd_node i (fun n => n <| next_sibling := first_child parent_node |>) s in
                 upd_node parent (fun n => n <| first_child := i |>) s
               | None => s
               end in
      (i, s)
    end.

Fixpoint unlink_loop (fuel : nat) (parent_index child_index current previous : Z) (s : MemFs) : MemFs :=
  match fuel with
  | O => s
  | S fuel =>
    if current <? 0 then s
    else
      let next := match memfs_get_node current s with Some node => next_sibling node | None => -1 end in
      if current =? child_index then
        if previous <? 0 then upd_node parent_index (fun n => n <| first_child := next |>) s
        else match memfs_get_node previous s with
             | Some _ => upd_node previous (fun n => n <| next_sibling := next |>) s
             | None => s
             end
      else unlink_loop fuel parent_index child_index next current s
  end.
Definition memfs_unlink_child (parent_index child_index : Z) (s : MemFs) : MemFs :=
  match memfs_get_node parent_index s with
  | Some parent => unlink_loop chain_fuel parent_index child_index (first_child parent) (-1) s
  | None => s
  end.

Definition clear_node (n : MemFSNode) : MemFSNode :=
  n <| node_active := 0 |> <| node_type := VFS_NODE_NONE |> <| node_parent := -1 |> <| first_child := -1 |>
    <| next_sibling := -1 |> <| node_name := [] |> <| node_size := 0 |>.
Definition memfs_reset_node (index : Z) (s : MemFs) : MemFs :=
  match memfs_get_node index s with
  | Some node =>
    let s := if 0 <=? node_parent node then memfs_unlink_child (node_parent node) index s else s in
    upd_node index clear_node s
  | None => s
  end.

(** ** Paths *)

(** The bytes up to the next slash or the end, or nothing if there are too many. *)
Fixpoint segment_loop (length : Z) (cursor : str) : option (str * str) :=
  match cursor with
  | [] => Some ([], [])
  | c :: rest =>
    if c =? SLASH then Some ([], cursor)
    else if MEMFS_MAX_NAME <=? length + 1 then None
    else match segment_loop (length + 1) rest with
         | Some (segment, cursor) => Some (c :: segment, cursor)
         | None => None
         end
  end.

(** [inl step] for a step of -1 or 0; a segment and the rest of the path for a
    step of 1. *)
Definition memfs_next_segment (cursor : str) : Z + str * str :=
  match cursor with
  | [] => inl 0
  | c :: _ =>
    if c =? SLASH then inl (-1)
    else
      match segment_loop 0 cursor with
      | None => inl (-1)
      | Some (segment, cursor) =>
        if (alen segment =? 0) || memfs_is_reserved_segment segment then inl (-1)
        else
          match cursor with
          | _ :: rest => match rest with [] => inl (-1) | _ => inr (segment, rest) end
          | [] => inr (segment, [])
          end
      end
  end.

(** The code and the node; each step reads at least one byte of the path. *)
Fixpoint lookup_loop (fuel : nat) (cursor : str) (current : Z) (s : MemFs) : Z * Z :=
  match fuel with
  | O => (VFS_ERR_INVALID_PATH, 0)
  | S fuel =>
    match memfs_next_segment cursor with
    | inl step => if step <? 0 then (VFS_ERR_INVALID_PATH, 0) else (VFS_OK, current)
    | inr (segment, cursor) =>
      let child := memfs_find_child current segment s in
      if child <? 0 then (VFS_ERR_NOT_FOUND, 0) else lookup_loop fuel cursor child s
    end
  end.
Definition memfs_lookup_path (relative_path : str) (s : MemFs) : Z * Z :=
  match relative_path with
  | [] => (VFS_OK, 0)
  | _ => lookup_loop (S (length relative_path)) relative_path 0 s
  end.

(** The code, the directory and the name in it. *)
Fixpoint parent_loop (fuel : nat) (cursor : str) (current : Z) (s : MemFs) : Z * Z * str :=
  match fuel with
  | O => (VFS_ERR_INVALID_PATH, 0, [])
  | S fuel =>
    match memfs_next_segment cursor with
    | inl _ => (VFS_ERR_INVALID_PATH, 0, [])
    | inr (segment, next_cursor) =>
      match next_cursor with
      | [] => (VFS_OK, current, vfs_copy_string MEMFS_MAX_NAME segment)
      | _ =>
        let child := memfs_find_child current segment s in
        if child <? 0 then (VFS_ERR_NOT_FOUND, 0, [])
        else
          match memfs_get_node child s with
          | None => (VFS_ERR_NOT_FOUND, 0, [])
          | Some child_node =>
            if negb (node_type child_node =? VFS_NODE_DIR) then (VFS_ERR_NOT_FOUND, 0, [])
            else parent_loop fuel next_cursor child s
          end
      end
    end
  end.
Definition memfs_lookup_parent (relative_path : str) (s : MemFs) : Z * Z * str :=
  match relative_path with
  | [] => (VFS_ERR_INVALID_PATH, 0, [])
  | _ => parent_loop (S (length relative_path)) relative_path 0 s
  end.

(** ** The operations of the backend *)

Record VFSDirEntry := { entry_type : Z; entry_size : Z; entry_name : str }.
Record VFSFileInfo := { info_type : Z; info_size : Z }.

(** The names a listing prints, directories with a slash. *)
Fixpoint list_loop (fuel : nat) (child_index : Z) (s : MemFs) : list str :=
  match fuel with
  | O => []
  | S fuel =>
    if child_index <? 0 then []
    else
      match memfs_get_node child_index s with
      | Some child =>
        (node_name child ++ (if node_type child =? VFS_NODE_DIR then [SLASH] else [])) :: list_loop fuel (next_sibling child) s
      | None => []
      end
  end.
Definition memfs_backend_list_files (relative_path : str) (s : MemFs) : Z * list str :=
  let '(result, dir_index) := memfs_lookup_path relative_path s in
  if negb (result =? VFS_OK) then (result, [])
  else
    match memfs_get_node dir_index s with
    | Some dir => if negb (node_type dir =? VFS_NODE_DIR) then (VFS_ERR_INVALID_PATH, [])
                  else (VFS_OK, list_loop chain_fuel (first_child dir) s)
    | None => (VFS_ERR_INVALID_PATH, [])
    end.

Fixpoint skip_loop (fuel : nat) (skip child_index : Z) (s : MemFs) : Z :=
  match fuel with
  | O => child_index
  | S fuel =>
    if (0 <? skip) && (0 <=? child_index) then
      skip_loop fuel (skip - 1) (match memfs_get_node child_index s with Some child => next_sibling child | None => -1 end) s
    else child_index
  end.
Definition memfs_backend_read_dir_entry (relative_path : str) (cursor : Z) (s : MemFs) : Z * option VFSDirEntry :=
  let '(result, dir_index) := memfs_lookup_path relative_path s in
  if negb (result =? VFS_OK) then (result, None)
  else
    match memfs_get_node dir_index s with
    | None => (VFS_ERR_INVALID_PATH, None)
    | Some dir =>
      if negb (node_type dir =? VFS_NODE_DIR) then (VFS_ERR_INVALID_PATH, None)
      else
        let child_index := skip_loop chain_fuel cursor (first_child dir) s in
        if child_index <? 0 then (0, None)
        else
          match memfs_get_node child_index s with
          | None => (0, None)
          | Some child =>
            (1, Some {| entry_type := node_type child;
                        entry_size := if node_type child =? VFS_NODE_FILE then node_size child else 0;
                        entry_name := vfs_copy_string VFS_NAME_MAX (node_name child) |})
          end
    end.

Definition memfs_backend_get_file_info (relative_path : str) (s : MemFs) : Z * option VFSFileInfo :=
  let '(result, node_index) := memfs_lookup_path relative_path s in
  if negb (result =? VFS_OK) then (result, None)
  else
    match memfs_get_node node_index s with
    | None => (VFS_ERR_NOT_FOUND, None)
    | Some node =>
      (VFS_OK, Some {| info_type := node_type node; info_size := if node_type node =? VFS_NODE_FILE then node_size node else 0 |})
    end.

(** The code and the bytes put into the buffer; their number is [*bytes_read_out]. *)
Definition memfs_backend_read_file (relative_path : str) (buffer_size : Z) (s : MemFs) : Z * option (list Z) :=
  let '(result, node_index) := memfs_lookup_path relative_path s in
  if negb (result =? VFS_OK) then (result, None)
  else
    match memfs_get_node node_index s with
    | None => (VFS_ERR_INVALID_PATH, None)
    | Some node =>
      if negb (node_type node =? VFS_NODE_FILE) then (VFS_ERR_INVALID_PATH, None)
      else if buffer_size <? (if 0 <? node_size node then node_size node else 1) then (VFS_ERR_BUFFER_TOO_SMALL, None)
      else (VFS_OK, Some (aget (node_data node) <$> seqZ 0 (node_size node)))
    end.

(** [size] bytes of [buffer]; [None] is the null pointer. *)
Definition memfs_backend_write_file (relative_path : str) (buffer : option (list Z)) (size : Z) (s : MemFs) : Z * MemFs :=
  if (MEMFS_MAX_FILE_SIZE <? size) || ((0 <? size) && negb (bool_decide (is_Some buffer))) then (VFS_ERR_IO, s)
  else
    let '(result, parent_index, leaf_name) := memfs_lookup_parent relative_path s in
    if negb (result =? VFS_OK) then (result, s)
    else
      let child := memfs_find_child parent_index leaf_name s in
      let store i s :=
        upd_node i (fun n => n <| node_data := for_range 0 size (fun k d => aset d k (aget (default [] buffer) k)) (node_data n) |>
                               <| node_size := u16 size |>) s in
      match (if 0 <=? child then memfs_get_node child s else None) with
      | None =>
        let '(allocated, s) := memfs_alloc_node VFS_NODE_FILE parent_index leaf_name s in
        if allocated <? 0 then (VFS_ERR_IO, s) else (VFS_OK, store allocated s)
      | Some node => if negb (node_type node =? VFS_NODE_FILE) then (VFS_ERR_INVALID_PATH, s) else (VFS_OK, store child s)
      end.
Definition memfs_backend_touch_file (relative_path : str) (s : MemFs) : Z * MemFs :=
  memfs_backend_write_file relative_path None 0 s.

Definition memfs_backend_delete_file (relative_path : str) (s : MemFs) : Z * MemFs :=
  let '(result, node_index) := memfs_lookup_path relative_path s in
  if negb (result =? VFS_OK) then (result, s)
  else
    match memfs_get_node node_index s with
    | None => (VFS_ERR_INVALID_PATH, s)
    | Some node => if negb (node_type node =? VFS_NODE_FILE) then (VFS_ERR_INVALID_PATH, s) else (VFS_OK, memfs_reset_node node_index s)
    end.

Definition memfs_backend_mkdir (relative_path : str) (s : MemFs) : Z * MemFs :=
  let '(result, parent_index, leaf_name) := memfs_lookup_parent relative_path s in
  if negb (result =? VFS_OK) then (result, s)
  else if 0 <=? memfs_find_child parent_index leaf_name s then (VFS_ERR_ALREADY_MOUNTED, s)
  else let '(allocated, s) := memfs_alloc_node VFS_NODE_DIR parent_index leaf_name s in
       (if 0 <=? allocated then VFS_OK else VFS_ERR_IO, s).

Definition memfs_backend_rmdir (relative_path : str) (s : MemFs) : Z * MemFs :=
  let '(result, node_index) := memfs_lookup_path relative_path s in
  if negb (result =? VFS_OK) then (result, s)
  else if node_index =? 0 then (VFS_ERR_UNSUPPORTED, s)
  else
    match memfs_get_node node_index s with
    | None => (VFS_ERR_INVALID_PATH, s)
    | Some node =>
      if negb (node_type node =? VFS_NODE_DIR) then (VFS_ERR_INVALID_PATH, s)
      else if 0 <=? first_child node then (VFS_ERR_IO, s)
      else (VFS_OK, memfs_reset_node node_index s)
    end.

Fixpoint descendant_loop (fuel : nat) (current possible_ancestor : Z) (s : MemFs) : bool :=
  match fuel with
  | O => false
  | S fuel =>
    if current <? 0 then false
    else if current =? possible_ancestor then true
    else match memfs_get_node current s with Some node => descendant_loop fuel (node_parent node) possible_ancestor s | None => false end
  end.
Definition memfs_is_descendant (node_index possible_ancestor : Z) (s : MemFs) : bool :=
  descendant_loop chain_fuel node_index possible_ancestor s.

(** The last part of [memfs_backend_rename_path]: link the node elsewhere, then
    give it its new name. *)
Definition relink (node_index new_parent_index : Z) (s : MemFs) : Z * MemFs :=
  let node := aget s node_index in
  if negb (node_parent node =? new_parent_index) then
    let s := memfs_unlink_child (node_parent node) node_index s in
    match memfs_get_node new_parent_index s with
    | None => (VFS_ERR_INVALID_PATH, s)
    | Some new_parent =>
      if negb (node_type new_parent =? VFS_NODE_DIR) then (VFS_ERR_INVALID_PATH, s)
      else
        let s := upd_node node_index (fun n => n <| next_sibling := first_child new_parent |>) s in
        let s := upd_node new_parent_index (fun n => n <| first_child := node_index |>) s in
        (VFS_OK, upd_node node_index (fun n => n <| node_parent := new_parent_index |>) s)
    end
  else (VFS_OK, s).
Definition memfs_backend_rename_path (old_relative_path new_relative_path : str) (s : MemFs) : Z * MemFs :=
  let '(result, node_index) := memfs_lookup_path old_relative_path s in
  if negb (result =? VFS_OK) then (result, s)
  else if node_index =? 0 then (VFS_ERR_UNSUPPORTED, s)
  else
    let '(result, new_parent_index, new_leaf_name) := memfs_lookup_parent new_relative_path s in
    if negb (result =? VFS_OK) then (result, s)
    else
      match memfs_get_node node_index s with
      | None => (VFS_ERR_NOT_FOUND, s)
      | Some node =>
        if (node_parent node =? new_parent_index) && vfs_str_eq (node_name node) new_leaf_name then (VFS_OK, s)
        else if 0 <=? memfs_find_child new_parent_index new_leaf_name s then (VFS_ERR_ALREADY_MOUNTED, s)
        else if (node_type node =? VFS_NODE_DIR) &&
                ((new_parent_index =? node_index) || memfs_is_descendant new_parent_index node_index s) then (VFS_ERR_INVALID_PATH, s)
        else
          let '(result, s) := relink node_index new_parent_index s in
          if negb (result =? VFS_OK) then (result, s)
          else (VFS_OK, upd_node node_index (fun n => n <| node_name := vfs_copy_string MEMFS_MAX_NAME new_leaf_name |>) s)
      end.

(** The table [vfs_mount_memfs] starts with. *)
Definition memfs_reset_table (s : MemFs) : MemFs :=
  let s := for_range 0 MEMFS_MAX_NODES (fun i s => upd_node i clear_node s) s in
  upd_node 0 (fun n => n <| node_active := 1 |> <| node_type := VFS_NODE_DIR |> <| node_parent := -1 |>
                         <| first_child := -1 |> <| next_sibling := -1 |> <| node_name := [] |> <| node_size := 0 |>) s.
