(* ===== verification/MemFsTree.v ===== *)
(** * The node table as a tree

    [at_path s i p]: node [i] is found from the root by the names [p]; it depends
    on [active], [parent] and [name] only.  [kids s d l]: the links of directory
    [d] run through [l], which are all its children.  A well-formed table
    ([fs_wf]) is a tree whose links agree with its parents; then looking a path
    up finds the node at that path. *)

From S2P Require Import Prelude MemFs.

Definition is_node (i : Z) : Prop := 0 <= i < MEMFS_MAX_NODES.
Definition active (s : MemFs) (i : Z) : bool := negb (node_active (aget s i) =? 0).
Definition par (s : MemFs) (i : Z) : Z := node_parent (aget s i).
Definition nam (s : MemFs) (i : Z) : str := node_name (aget s i).
Definition typ (s : MemFs) (i : Z) : Z := node_type (aget s i).
Definition nxt (s : MemFs) (i : Z) : Z := next_sibling (aget s i).
Definition fst_child (s : MemFs) (i : Z) : Z := first_child (aget s i).

Inductive at_path (s : MemFs) : Z -> list str -> Prop :=
| at_root : at_path s 0 []
| at_child i p : is_node i -> active s i = true -> i <> 0 -> at_path s (par s i) p -> at_path s i (p ++ [nam s i]).

Definition child (s : MemFs) (d i : Z) : Prop := is_node i /\ active s i = true /\ i <> 0 /\ par s i = d.
Fixpoint chain (s : MemFs) (i : Z) (l : list Z) : Prop :=
  match l with
  | [] => i < 0
  | j :: l => i = j /\ is_node j /\ active s j = true /\ chain s (nxt s j) l
  end.
Definition kids (s : MemFs) (d : Z) (l : list Z) : Prop :=
  chain s (fst_child s d) l /\ NoDup l /\ forall i, i ∈ l <-> child s d i.

Definition good_name (n : str) : Prop := n <> [] /\ alen n < MEMFS_MAX_NAME /\ memfs_is_reserved_segment n = false.

Record fs_wf (s : MemFs) : Prop := {
  fw_len : alen s = MEMFS_MAX_NODES;
  fw_data : forall i, is_node i -> alen (node_data (aget s i)) = MEMFS_MAX_FILE_SIZE;
  fw_root : active s 0 = true /\ typ s 0 = VFS_NODE_DIR /\ par s 0 < 0;
  fw_type : forall i, is_node i -> active s i = true -> typ s i = VFS_NODE_DIR \/
    (typ s i = VFS_NODE_FILE /\ 0 <= node_size (aget s i) <= MEMFS_MAX_FILE_SIZE);
  fw_parent : forall i, is_node i -> active s i = true -> i <> 0 ->
    is_node (par s i) /\ active s (par s i) = true /\ typ s (par s i) = VFS_NODE_DIR;
  fw_name : forall i, is_node i -> active s i = true -> i <> 0 -> good_name (nam s i);
  fw_uniq : forall d i j, child s d i -> child s d j -> nam s i = nam s j -> i = j;
  fw_kids : forall d, is_node d -> active s d = true -> typ s d = VFS_NODE_DIR -> exists l, kids s d l;
  fw_reach : forall i, is_node i -> active s i = true -> exists p, at_path s i p;
}.

(** ** Helpers *)

Lemma root_node : is_node 0.
Proof. done. Qed.
#[export] Hint Resolve root_node : kernel.
Lemma str_eq_iff a b : vfs_str_eq a b = true <-> a = b.
Proof.
  revert b. induction a as [|x a IH]; intros [|y b]; cbn [vfs_str_eq]; try done.
  destruct (Z.eqb_spec x y) as [->|Hne]; [rewrite IH; split; congruence | split; congruence].
Qed.
Lemma get_node_iff i s n : memfs_get_node i s = Some n <-> is_node i /\ active s i = true /\ n = aget s i.
Proof.
  unfold memfs_get_node, is_node, active. destruct (Z.ltb_spec i 0), (Z.leb_spec MEMFS_MAX_NODES i); cbn [orb]; try (split; [done | lia]).
  destruct (node_active (aget s i) =? 0); cbn [negb]; split; try done; [by intros (_ & ? & _) | by intros [= <-] | by intros (_ & _ & ->)].
Qed.
Lemma get_node_some i s : is_node i -> active s i = true -> memfs_get_node i s = Some (aget s i).
Proof. intros Hi Ha. by apply get_node_iff. Qed.
Lemma node_len (l : list Z) : NoDup l -> (forall i, i ∈ l -> is_node i) -> (length l <= 16)%nat.
Proof.
  intros Hnd Hl. assert (length l <= length (seqZ 0 16))%nat as Hle; [|by rewrite length_seqZ in Hle].
  apply submseteq_length, NoDup_submseteq; [done|]. intros i Hi. apply elem_of_seqZ. specialize (Hl i Hi). unfold is_node, MEMFS_MAX_NODES in Hl. lia.
Qed.
Lemma chain_elem s i l j : chain s i l -> j ∈ l -> is_node j /\ active s j = true.
Proof.
  revert i. induction l as [|k l IH]; intros i; [intros _ Hj; by apply elem_of_nil in Hj|]. intros (-> & Hk & Ha & Hc) [->|Hj]%elem_of_cons; [done | by eapply IH].
Qed.
Lemma chain_ext s s' i l : (forall j, j ∈ l -> active s' j = active s j /\ nxt s' j = nxt s j) -> chain s i l -> chain s' i l.
Proof.
  revert i. induction l as [|k l IH]; intros i He; [done|]. intros (-> & Hk & Ha & Hc). destruct (He k ltac:(by left)) as [Ea En].
  split; [done|]. split; [done|]. split; [by rewrite Ea|]. rewrite En. apply IH; [|done]. intros j Hj. apply He. by right.
Qed.

(** ** Looking up a name *)

Lemma find_loop_spec s l : forall fuel i name, chain s i l -> (length l < fuel)%nat ->
  let r := find_child_loop fuel i name s in
  (r ∈ l /\ nam s r = name) \/ (r = -1 /\ forall j, j ∈ l -> nam s j <> name).
Proof.
  induction l as [|k l IH]; intros fuel i name Hc Hf; destruct fuel as [|fuel]; cbn [length] in Hf; try lia; cbv zeta; cbn [find_child_loop].
  - rewrite (proj2 (Z.ltb_lt i 0)) by exact Hc. right. split; [done|]. intros j Hj. by apply elem_of_nil in Hj.
  - destruct Hc as (-> & Hk & Ha & Hc). rewrite (proj2 (Z.ltb_ge k 0)) by apply Hk. rewrite get_node_some by done. fold (nam s k).
    destruct (vfs_str_eq (nam s k) name) eqn:He.
    + apply str_eq_iff in He. left. split; [by left | done].
    + destruct (IH fuel (nxt s k) name Hc ltac:(lia)) as [[Hr Hn]|[Hr Hn]]; [left | right]; fold (nxt s k).
      * split; [by right | done].
      * split; [done|]. intros j [->|Hj]%elem_of_cons; [|by apply Hn]. intros Hx. apply str_eq_iff in Hx. congruence.
Qed.
Lemma find_child_spec s d name : fs_wf s -> is_node d -> active s d = true -> typ s d = VFS_NODE_DIR ->
  let r := memfs_find_child d name s in
  (child s d r /\ nam s r = name) \/ (r = -1 /\ forall j, child s d j -> nam s j <> name).
Proof.
  intros Hw Hd Ha Ht. cbv zeta. unfold memfs_find_child. rewrite get_node_some by done. fold (typ s d). rewrite Ht. cbn [Z.eqb negb].
  destruct (fw_kids _ Hw d Hd Ha Ht) as (l & Hc & Hnd & Hl).
  assert (length l < chain_fuel)%nat as Hf.
  { pose proof (node_len l Hnd) as Hx. assert (length l <= 16)%nat by (apply Hx; intros i Hi; by apply Hl in Hi as [? _]). by change chain_fuel with 17%nat; lia. }
  destruct (find_loop_spec s l chain_fuel (fst_child s d) name Hc Hf) as [[Hr Hn]|[Hr Hn]]; [left | right].
  - split; [by apply Hl | done].
  - split; [done|]. intros j Hj. by apply Hn, Hl.
Qed.
(** A node that is not a directory has no children. *)
Lemma find_child_file s d name : ~ typ s d = VFS_NODE_DIR -> memfs_find_child d name s = -1.
Proof.
  intros Ht. unfold memfs_find_child. destruct (memfs_get_node d s) as [n|] eqn:Hg; [|done]. apply get_node_iff in Hg as (_ & _ & ->).
  fold (typ s d). by rewrite (proj2 (Z.eqb_neq _ _) Ht).
Qed.

(** ** Paths and nodes *)

Fixpoint resolve (s : MemFs) (current : Z) (p : list str) : option Z :=
  match p with
  | [] => Some current
  | name :: p => let c := memfs_find_child current name s in if c <? 0 then None else resolve s c p
  end.
Lemma resolve_app s i p q : resolve s i (p ++ q) = match resolve s i p with Some j => resolve s j q | None => None end.
Proof. revert i. induction p as [|n p IH]; intros i; [done|]. cbn [app resolve]. destruct (_ <? 0); [done | apply IH]. Qed.

Lemma at_path_active s i p : fs_wf s -> at_path s i p -> is_node i /\ active s i = true.
Proof. intros Hw. destruct 1; [split; [auto with kernel | apply Hw] | done]. Qed.
Lemma at_path_node s i p : fs_wf s -> at_path s i p -> is_node i.
Proof. intros Hw Hi. by destruct (at_path_active s i p Hw Hi). Qed.
Lemma resolve_at s p i : fs_wf s -> resolve s 0 p = Some i <-> at_path s i p.
Proof.
  intros Hw. revert i. induction p as [|n p IH] using rev_ind; intros i.
  - cbn. split; [by intros [= <-]; constructor|]. inversion 1 as [|? q ? ? ? ? Hx]; [done|]. by destruct q.
  - rewrite resolve_app. split.
    + destruct (resolve s 0 p) as [d|]; [|done]. specialize (IH d) as [IH _]. specialize (IH eq_refl). destruct (at_path_active _ _ _ Hw IH) as [Hd Ha].
      cbn [resolve]. destruct (decide (typ s d = VFS_NODE_DIR)) as [Ht|Ht]; [|by rewrite find_child_file].
      pose proof (find_child_spec s d n Hw Hd Ha Ht) as Hs. cbv zeta in Hs. revert Hs. generalize (memfs_find_child d n s). intros c.
      intros [[(Hi & Hai & Hne & Hp) <-]|[-> _]]; [|done].
      destruct (Z.ltb_spec c 0) as [Hlt|_]; [unfold is_node in Hi; lia|]. intros [= <-].
      apply at_child; [done | done | done | by rewrite Hp].
    + intros Hat. inversion Hat as [Hx|j q Hj Haj Hne Hpar Ej Hx]; [by destruct p|]. apply app_inj_tail in Hx as [-> <-]. subst j.
      apply IH in Hpar as Hr. rewrite Hr. destruct (fw_parent _ Hw i Hj Haj Hne) as (Hd & Had & Ht). cbn [resolve].
      destruct (find_child_spec s (par s i) (nam s i) Hw Hd Had Ht) as [[Hc Hn]|[_ Hn]].
      * rewrite (fw_uniq _ Hw (par s i) (memfs_find_child (par s i) (nam s i) s) i Hc) by done.
        by rewrite (proj2 (Z.ltb_ge i 0)) by apply Hj.
      * by destruct (Hn i).
Qed.
Lemma at_path_inj s i j p : fs_wf s -> at_path s i p -> at_path s j p -> i = j.
Proof. intros Hw Hi Hj. apply (resolve_at s p) in Hi, Hj; [congruence | done | done]. Qed.
Lemma at_path_fun s i p q : at_path s i p -> at_path s i q -> p = q.
Proof.
  intros Hp. revert q. induction Hp as [|i p Hi Ha Hne Hp IH]; intros q Hq.
  - inversion Hq; [done | done].
  - inversion Hq as [|j q' Hj Haj Hnej Hq' Ej Hx]; [done|]. subst. by rewrite (IH q').
Qed.
(** The nodes on the way down. *)
Lemma at_path_prefix s i p q : fs_wf s -> at_path s i (p ++ q) -> exists j, at_path s j p.
Proof.
  intros Hw Hi. apply resolve_at in Hi; [|done]. rewrite resolve_app in Hi. destruct (resolve s 0 p) as [j|] eqn:Hj; [|done].
  exists j. by apply resolve_at.
Qed.
Lemma at_path_snoc s i p n : at_path s i (p ++ [n]) -> n = nam s i /\ at_path s (par s i) p /\ is_node i /\ active s i = true /\ i <> 0.
Proof. inversion 1 as [Hx|j q Hj Ha Hne Hq Ej Hx]; [by destruct p|]. apply app_inj_tail in Hx as [-> <-]. by subst. Qed.

(** ** Ancestors *)

Inductive lineage (s : MemFs) : Z -> list Z -> Prop :=
| lin_root : lineage s 0 [0]
| lin_child i l : is_node i -> active s i = true -> i <> 0 -> lineage s (par s i) l -> lineage s i (i :: l).

Lemma lineage_path s i p : at_path s i p -> exists l, lineage s i l.
Proof. induction 1 as [|i p Hi Ha Hne _ [l Hl]]; [exists [0]; constructor | exists (i :: l); by constructor]. Qed.
Lemma lineage_fun s i l l' : lineage s i l -> lineage s i l' -> l = l'.
Proof.
  intros Hl. revert l'. induction Hl as [|i l Hi Ha Hne Hl IH]; intros l' Hl'; inversion Hl'; subst; try done. f_equal. by apply IH.
Qed.
Lemma lineage_suffix s i l j : lineage s i l -> j ∈ l -> exists l1 l2, l = l1 ++ l2 /\ lineage s j l2.
Proof.
  induction 1 as [|i l Hi Ha Hne Hl IH]; intros Hj.
  - apply list_elem_of_singleton in Hj as ->. exists [], [0]. split; [done | constructor].
  - apply elem_of_cons in Hj as [->|Hj]; [exists [], (i :: l); split; [done | by constructor]|].
    destruct (IH Hj) as (l1 & l2 & -> & H2). by exists (i :: l1), l2.
Qed.
Lemma lineage_nodup s i l : lineage s i l -> NoDup l.
Proof.
  induction 1 as [|i l Hi Ha Hne Hl IH]; [apply NoDup_singleton|]. constructor; [|done]. intros Hin.
  destruct (lineage_suffix _ _ _ _ Hl Hin) as (l1 & l2 & -> & H2).
  pose proof (lineage_fun s i (i :: l1 ++ l2) l2 (lin_child s i _ Hi Ha Hne Hl) H2) as Hx. apply (f_equal length) in Hx.
  cbn in Hx. rewrite length_app in Hx. lia.
Qed.
Lemma lineage_len s i l : lineage s i l -> (length l <= 16)%nat.
Proof.
  intros Hl. apply node_len; [by eapply lineage_nodup|]. induction Hl as [|i l Hi Ha Hne Hl IH]; intros j Hj.
  - apply list_elem_of_singleton in Hj as ->. apply root_node.
  - apply elem_of_cons in Hj as [->|Hj]; [done | by apply IH].
Qed.
(** The ancestors of a node are the nodes at the prefixes of its path. *)
Lemma lineage_prefix s i l p a q : fs_wf s -> lineage s i l -> at_path s i p -> at_path s a q -> a ∈ l <-> exists r, p = q ++ r.
Proof.
  intros Hw Hl. revert p. induction Hl as [|i l Hi Ha Hne Hl IH]; intros p Hp Hq.
  - assert (p = []) as -> by (eapply at_path_fun; [done | constructor]). rewrite list_elem_of_singleton. split.
    + intros ->. exists []. eapply at_path_fun; [constructor|]. by rewrite app_nil_r.
    + intros [r Hr]. symmetry in Hr. apply app_eq_nil in Hr as [-> ->]. by apply (at_path_inj s a 0 []).
  - inversion Hp as [|j p' Hj Haj Hnej Hp' Ej Hx]; [congruence|]. subst j p. rewrite elem_of_cons, (IH p') by done. split.
    + intros [->|[r ->]]; [exists [] | exists (r ++ [nam s i]); by rewrite app_assoc]. rewrite app_nil_r. by eapply at_path_fun.
    + intros [r Hr]. destruct r as [|n r _] using rev_ind; [left | right].
      * rewrite app_nil_r in Hr. apply (at_path_inj s a i q Hw Hq). rewrite <- Hr. by constructor.
      * rewrite app_assoc in Hr. apply app_inj_tail in Hr as [-> _]. by exists r.
Qed.
Lemma descendant_loop_spec s i l a : fs_wf s -> lineage s i l -> forall fuel, (length l < fuel)%nat ->
  descendant_loop fuel i a s = bool_decide (a ∈ l).
Proof.
  intros Hw. induction 1 as [|i l Hi Ha Hne Hl IH]; intros fuel Hf; (destruct fuel as [|fuel]; [cbn in Hf; lia|]); cbn [descendant_loop length] in *.
  - cbn [Z.ltb]. rewrite get_node_some by (apply root_node || apply Hw). destruct (Z.eqb_spec 0 a) as [<-|Hne].
    + symmetry. apply bool_decide_eq_true. by left.
    + destruct fuel as [|fuel]; [lia|]. cbn [descendant_loop]. fold (par s 0). destruct (fw_root _ Hw) as (_ & _ & Hp0). rewrite (proj2 (Z.ltb_lt (par s 0) 0) Hp0).
      symmetry. apply bool_decide_eq_false. rewrite list_elem_of_singleton. congruence.
  - rewrite (proj2 (Z.ltb_ge i 0)) by apply Hi. rewrite get_node_some by done. fold (par s i). destruct (Z.eqb_spec i a) as [<-|Hna].
    + symmetry. apply bool_decide_eq_true. by left.
    + rewrite IH by lia. apply bool_decide_ext. rewrite elem_of_cons. naive_solver.
Qed.
Lemma is_descendant_spec s i p a q : fs_wf s -> at_path s i p -> at_path s a q ->
  memfs_is_descendant i a s = true <-> exists r, p = q ++ r.
Proof.
  intros Hw Hp Hq. destruct (lineage_path _ _ _ Hp) as [l Hl]. unfold memfs_is_descendant.
  pose proof (lineage_len _ _ _ Hl) as Hlen. change chain_fuel with 17%nat. rewrite (descendant_loop_spec s i l a Hw Hl) by lia.
  rewrite bool_decide_eq_true. by apply (lineage_prefix s i).
Qed.

(** ** Unlinking a child *)

(** Nodes that differ in their links at most. *)
Definition same_info (s s' : MemFs) : Prop := alen s' = alen s /\ forall j, is_node j ->
  node_active (aget s' j) = node_active (aget s j) /\ typ s' j = typ s j /\ par s' j = par s j /\ nam s' j = nam s j /\
  node_size (aget s' j) = node_size (aget s j) /\ node_data (aget s' j) = node_data (aget s j).

Lemma aget_upd s i f j : alen s = MEMFS_MAX_NODES -> is_node i -> is_node j ->
  aget (upd_node i f s) j = if decide (i = j) then f (aget s j) else aget s j.
Proof. intros Hl Hi Hj. unfold upd_node. unfold is_node in *. rewrite aget_aset by lia. case_decide; [by subst | done]. Qed.
Lemma alen_upd s i f : alen (upd_node i f s) = alen s.
Proof. apply alen_aset. Qed.

(** Taking [i] out of a chain. *)
Definition last_link (a : list Z) : Z := List.last a (-1).
Lemma last_link_cons k a : a <> [] -> last_link (k :: a) = last_link a.
Proof. by destruct a. Qed.
Lemma chain_unlink s s' i b : forall a x, chain s x (a ++ i :: b) -> NoDup (a ++ i :: b) ->
  (forall j, j ∈ a ++ b -> active s' j = active s j) ->
  (forall j, j ∈ a ++ b -> nxt s' j = if decide (a <> [] /\ j = last_link a) then nxt s i else nxt s j) ->
  chain s' (if decide (a = []) then nxt s i else x) (a ++ b).
Proof.
  induction a as [|k a IH]; intros x Hc Hnd Hact Hn.
  - rewrite decide_True by done. destruct Hc as (_ & _ & _ & Hc). apply (chain_ext s); [|done]. intros j Hj. split; [by apply Hact|].
    rewrite Hn by done. rewrite decide_False; [done | tauto].
  - rewrite decide_False by done. cbn [app chain] in *. destruct Hc as (-> & Hk & Ha & Hc). apply NoDup_cons in Hnd as [Hki Hnd].
    split; [done|]. split; [done|]. split; [by rewrite Hact by (by left)|].
    assert (chain s' (if decide (a = []) then nxt s i else nxt s k) (a ++ b)) as Hc'.
    { apply IH; [done | done | intros j Hj; apply Hact; by right |]. intros j Hj. rewrite Hn by (by right). destruct (decide (a = [])) as [->|Hne].
      - rewrite decide_False; [rewrite decide_False by tauto; done|]. intros [_ ->]. apply Hki. cbn. by right.
      - rewrite last_link_cons by done. apply decide_ext. naive_solver. }
    rewrite Hn by (by left). destruct (decide (a = [])) as [->|Hne].
    + by rewrite decide_True.
    + rewrite decide_False; [done|]. rewrite last_link_cons by done. intros [_ Hx]. apply Hki, elem_of_app. left. rewrite Hx.
      unfold last_link. destruct a as [|m a _] using rev_ind; [done|]. rewrite List.last_last. apply elem_of_app. right. by left.
Qed.
