(* ===== verification/MemFsEdit.v ===== *)
(** * How the operations change the tree

    Four edits cover all operations of the memory file system: a node is
    unlinked and cleared ([remove_edit]), a node is taken and linked
    ([insert_edit]), a node is linked elsewhere under another name
    ([move_edit]), and the bytes of a file change ([data_edit]).  Each keeps
    the table well formed and has a known effect on paths. *)

From S2P Require Import Prelude MemFs MemFsTree.

Lemma same_info_refl s : same_info s s.
Proof. by split. Qed.
Lemma same_info_trans s1 s2 s3 : same_info s1 s2 -> same_info s2 s3 -> same_info s1 s3.
Proof.
  intros [L1 H1] [L2 H2]. split; [congruence|]. intros j Hj. destruct (H1 j Hj) as (A1 & B1 & C1 & D1 & E1 & F1), (H2 j Hj) as (A2 & B2 & C2 & D2 & E2 & F2).
  split_and!; congruence.
Qed.
Lemma same_active s s' j : same_info s s' -> is_node j -> active s' j = active s j.
Proof. intros [_ H] Hj. unfold active. by destruct (H j Hj) as (-> & _). Qed.
Lemma same_child s s' d i : same_info s s' -> child s' d i <-> child s d i.
Proof.
  intros Hs. unfold child. split; intros (Hi & Ha & Hne & Hp); pose proof (same_active _ _ _ Hs Hi) as Ea; destruct Hs as [_ Hs];
    destruct (Hs i Hi) as (_ & _ & Ep & _); split_and!; try done; congruence.
Qed.
(** Paths see [active], [parent] and [name] only. *)
Lemma at_path_ext s s' i p : (forall j, is_node j -> j <> 0 -> active s j = true -> active s' j = true /\ par s' j = par s j /\ nam s' j = nam s j) ->
  at_path s i p -> at_path s' i p.
Proof.
  intros He. induction 1 as [|i p Hi Ha Hne Hp IH]; [constructor|]. destruct (He i Hi Hne Ha) as (Ha' & Ep & En).
  rewrite <- En. apply at_child; [done | done | done | by rewrite Ep].
Qed.
Lemma upd_links_same s i f : alen s = MEMFS_MAX_NODES -> is_node i ->
  (forall n, node_active (f n) = node_active n /\ node_type (f n) = node_type n /\ node_parent (f n) = node_parent n /\
     node_name (f n) = node_name n /\ node_size (f n) = node_size n /\ node_data (f n) = node_data n) -> same_info s (upd_node i f s).
Proof.
  intros Hl Hi Hf. split; [apply alen_upd|]. intros j Hj. unfold typ, par, nam. rewrite aget_upd by done. case_decide; [apply Hf | done].
Qed.

(** ** Unlinking *)

Lemma unlink_loop_is s d i l2 : forall l1 cur fuel, chain s cur l2 -> i ∈ l2 -> NoDup (l1 ++ l2) ->
  (forall j, j ∈ l1 -> is_node j /\ active s j = true) -> (length l2 < fuel)%nat ->
  exists a b, l2 = a ++ i :: b /\ unlink_loop fuel d i cur (last_link l1) s =
    (if last_link (l1 ++ a) <? 0 then upd_node d (fun n => n <| first_child := nxt s i |>) s
     else upd_node (last_link (l1 ++ a)) (fun n => n <| next_sibling := nxt s i |>) s).
Proof.
  induction l2 as [|k l2 IH]; intros l1 cur fuel Hc Hi Hnd Hl1 Hf; [by apply elem_of_nil in Hi|].
  destruct fuel as [|fuel]; [lia|]. destruct Hc as (-> & Hk & Ha & Hc). cbn [unlink_loop length] in *.
  rewrite (proj2 (Z.ltb_ge k 0)) by apply Hk. rewrite get_node_some by done. cbv zeta. fold (nxt s k). destruct (Z.eqb_spec k i) as [->|Hne].
  - exists [], l2. split; [done|]. rewrite app_nil_r. destruct (last_link l1 <? 0) eqn:Hlt; [done|]. apply Z.ltb_ge in Hlt.
    rewrite (get_node_some (last_link l1)); [done| |]; (apply Hl1; destruct l1 as [|m l1 _] using rev_ind; [done|];
      unfold last_link in *; rewrite List.last_last in *; apply elem_of_app; right; by left).
  - apply elem_of_cons in Hi as [->|Hi]; [done|]. assert (last_link (l1 ++ [k]) = k) as Ek by apply List.last_last.
    destruct (IH (l1 ++ [k]) (nxt s k) fuel Hc Hi) as (a & b & -> & Hu); [by rewrite <- app_assoc | | lia |].
    + intros j [Hj|Hj]%elem_of_app; [by apply Hl1|]. by apply list_elem_of_singleton in Hj as ->.
    + exists (k :: a), b. split; [done|]. rewrite Ek, <- app_assoc in Hu. exact Hu.
Qed.

Record unlinked (s : MemFs) (d i : Z) (l : list Z) (s' : MemFs) : Prop := {
  ul_info : same_info s s';
  ul_chain : exists a b, l = a ++ i :: b /\ chain s' (fst_child s' d) (a ++ b);
  ul_first : forall j, is_node j -> j <> d -> fst_child s' j = fst_child s j;
  ul_next : forall j, is_node j -> j ∉ l -> nxt s' j = nxt s j;
}.
Lemma unlink_spec s d i l : alen s = MEMFS_MAX_NODES -> is_node d -> active s d = true -> kids s d l -> child s d i ->
  unlinked s d i l (memfs_unlink_child d i s).
Proof.
  intros Hlen Hd Had (Hc & Hnd & Hl) Hch. unfold memfs_unlink_child. rewrite get_node_some by done. fold (fst_child s d).
  assert (i ∈ l) as Hi by (by apply Hl).
  assert (length l < chain_fuel)%nat as Hf.
  { change chain_fuel with 17%nat. assert (length l <= 16)%nat by (apply node_len; [done|]; intros j Hj; by apply Hl in Hj as [? _]). lia. }
  destruct (unlink_loop_is s d i l [] (fst_child s d) chain_fuel Hc Hi Hnd ltac:(intros j Hj; by apply elem_of_nil in Hj) Hf) as (a & b & -> & Hs').
  cbn [app] in Hs'. change (last_link []) with (-1) in Hs'. rewrite Hs'. clear Hs'. set (m := last_link a).
  assert (a <> [] -> m ∈ a) as Hm.
  { intros Hne. unfold m, last_link. destruct a as [|k a _] using rev_ind; [done|]. rewrite List.last_last. apply elem_of_app. right. by left. }
  assert (forall j, j ∈ a ++ i :: b -> is_node j) as Hnode by (intros j Hj; by apply (chain_elem s _ _ j Hc)).
  destruct (decide (a = [])) as [Ha0|Ha0].
  - subst a. change (m <? 0) with true. cbn [app] in *. constructor.
    + apply upd_links_same; done.
    + exists [], b. split; [done|]. unfold fst_child. rewrite aget_upd, decide_True by done. cbn.
      destruct Hc as (_ & _ & _ & Hc). eapply chain_ext; [|exact Hc]. intros j Hj. assert (is_node j) by (apply Hnode; by right).
      unfold active, nxt. rewrite aget_upd by done. by case_decide.
    + intros j Hj Hne. unfold fst_child. by rewrite aget_upd, decide_False by done.
    + intros j Hj _. unfold nxt. rewrite aget_upd by done. by case_decide.
  - assert (is_node m) as Hmn by (apply Hnode, elem_of_app; left; by apply Hm).
    rewrite (proj2 (Z.ltb_ge m 0)) by apply Hmn. constructor.
    + apply upd_links_same; done.
    + exists a, b. split; [done|].
      pose proof (chain_unlink s (upd_node m (fun n => n <| next_sibling := nxt s i |>) s) i b a (fst_child s d) Hc Hnd) as Hx.
      rewrite decide_False in Hx by done. unfold fst_child in *. rewrite aget_upd by done.
      assert (first_child (if decide (m = d) then (aget s d) <| next_sibling := nxt s i |> else aget s d) = first_child (aget s d)) as -> by (by case_decide).
      apply Hx; intros j Hj; (assert (is_node j) as Hjn by (apply Hnode; set_solver)).
      * unfold active. rewrite aget_upd by done. by case_decide.
      * unfold nxt. rewrite aget_upd by done. fold m. destruct (decide (m = j)) as [->|Hmj]; [by rewrite decide_True|].
        rewrite decide_False; [done|]. intros [_ ->]. by apply Hmj.
    + intros j Hj Hne. unfold fst_child. rewrite aget_upd by done. by case_decide.
    + intros j Hj Hnl. unfold nxt. rewrite aget_upd by done. case_decide as Hmj; [|done]. subst j. exfalso. apply Hnl, elem_of_app. left. by apply Hm.
Qed.

(** The other directories keep their links. *)
Lemma unlinked_others s d i l s' d' l' : unlinked s d i l s' -> kids s d l -> is_node d' -> d' <> d -> kids s d' l' -> kids s' d' l'.
Proof.
  intros Hu (_ & _ & Hl) Hd' Hne (Hc & Hnd & Hl'). split; [|split; [done|]].
  - rewrite (ul_first _ _ _ _ _ Hu) by done. eapply chain_ext; [|exact Hc]. intros j Hj. assert (is_node j) by (by apply Hl' in Hj as [? _]).
    split; [apply (same_active s); [apply Hu | done]|]. apply (ul_next _ _ _ _ _ Hu); [done|]. intros Hjl. apply Hl in Hjl as (_ & _ & _ & E1).
    apply Hl' in Hj as (_ & _ & _ & E2). congruence.
  - intros j. rewrite Hl'. symmetry. apply same_child, Hu.
Qed.
Lemma unlinked_kids s d i l s' : unlinked s d i l s' -> kids s d l ->
  exists l', chain s' (fst_child s' d) l' /\ NoDup l' /\ forall j, j ∈ l' <-> child s d j /\ j <> i.
Proof.
  intros Hu (_ & Hnd & Hl). destruct (ul_chain _ _ _ _ _ Hu) as (a & b & -> & Hc). exists (a ++ b). split; [done|].
  assert (NoDup (i :: a ++ b)) as Hnd' by (by rewrite Permutation_middle). apply NoDup_cons in Hnd' as [Hi Hnd']. split; [done|].
  intros j. rewrite <- Hl, !elem_of_app, elem_of_cons. split; [|naive_solver]. intros Hj. split; [naive_solver|]. intros ->. apply Hi, elem_of_app, Hj.
Qed.

(** ** Removing a node without children *)

(** Nodes [j] that the edit leaves with the same contents. *)
Definition same_node (s s' : MemFs) (j : Z) : Prop :=
  typ s' j = typ s j /\ node_size (aget s' j) = node_size (aget s j) /\ node_data (aget s' j) = node_data (aget s j).

Section Remove.
Context (s : MemFs) (i : Z) (Hw : fs_wf s) (Hi : is_node i) (Ha : active s i = true) (Hne : i <> 0) (Hleaf : forall j, ~ child s i j).
Let d := par s i.
Let s1 := memfs_unlink_child d i s.
Let s' := upd_node i clear_node s1.

Lemma remove_is : memfs_reset_node i s = s'.
Proof using All.
  unfold memfs_reset_node. rewrite get_node_some by done. fold (par s i). destruct (fw_parent _ Hw i Hi Ha Hne) as ([Hd _] & _).
  by rewrite (proj2 (Z.leb_le 0 (par s i))).
Qed.
Lemma remove_unlinked : exists l, kids s d l /\ unlinked s d i l s1.
Proof using All.
  destruct (fw_parent _ Hw i Hi Ha Hne) as (Hd & Had & Ht). destruct (fw_kids _ Hw d Hd Had Ht) as [l Hl]. exists l. split; [done|].
  by apply unlink_spec; [apply Hw | | | | split_and!].
Qed.
Lemma remove_len : alen s1 = MEMFS_MAX_NODES.
Proof using All. destruct remove_unlinked as (l & _ & [[-> _] _ _ _]). apply Hw. Qed.
Lemma remove_at j : is_node j -> aget s' j = if decide (i = j) then clear_node (aget s1 j) else aget s1 j.
Proof using All. intros Hj. apply aget_upd; [apply remove_len | done | done]. Qed.
Lemma remove_node j : is_node j -> j <> i -> active s' j = active s j /\ par s' j = par s j /\ nam s' j = nam s j /\ same_node s s' j.
Proof using All.
  intros Hj Hji. destruct remove_unlinked as (l & _ & [[_ Hs] _ _ _]). destruct (Hs j Hj) as (A & B & C & D & F & G).
  unfold active, same_node, par, nam, typ in *. rewrite remove_at, decide_False by done. by rewrite A.
Qed.
Lemma remove_gone : active s' i = false.
Proof using All. unfold active. by rewrite remove_at, decide_True. Qed.
Lemma remove_active j : is_node j -> active s' j = true -> j <> i /\ active s j = true.
Proof using All.
  intros Hj Haj. destruct (decide (j = i)) as [->|Hji]; [by rewrite remove_gone in Haj|]. split; [done|]. by destruct (remove_node j Hj Hji) as [<- _].
Qed.
Lemma remove_child e j : child s' e j <-> child s e j /\ j <> i.
Proof using All.
  split.
  - intros (Hj & Haj & H0 & Hp). destruct (remove_active j Hj Haj) as [Hji Haj']. split; [|done]. split_and!; try done.
    by destruct (remove_node j Hj Hji) as (_ & <- & _).
  - intros ((Hj & Haj & H0 & Hp) & Hji). destruct (remove_node j Hj Hji) as (E1 & E2 & _). split_and!; try done; congruence.
Qed.
Lemma remove_paths j p : at_path s' j p <-> at_path s j p /\ j <> i.
Proof using All.
  split.
  - intros Hp. split; [|destruct Hp as [|j p Hj Haj _ _]; [congruence | by apply remove_active]].
    revert Hp. apply at_path_ext. intros k Hk H0 Hak. destruct (remove_active k Hk Hak) as [Hki Hak'].
    destruct (remove_node k Hk Hki) as (_ & E2 & E3 & _). by rewrite E2, E3.
  - intros [Hp Hji]. induction Hp as [|j p Hj Haj H0 Hp IH]; [constructor|]. destruct (remove_node j Hj Hji) as (E1 & E2 & E3 & _).
    rewrite <- E3. apply at_child; [done | congruence | done |]. rewrite E2. apply IH. intros Hx. apply (Hleaf j). by split_and!.
Qed.
Lemma remove_chain x l : (forall j, j ∈ l -> is_node j /\ j <> i) -> chain s1 x l -> chain s' x l.
Proof using All.
  intros Hl. apply chain_ext. intros j Hj. destruct (Hl j Hj) as [Hjn Hji]. unfold active, nxt. by rewrite remove_at, decide_False.
Qed.
Lemma remove_kids e : is_node e -> active s' e = true -> typ s' e = VFS_NODE_DIR -> exists l, kids s' e l.
Proof using All.
  intros He Hae Ht. destruct (remove_active e He Hae) as [Hei Hae']. destruct (remove_node e He Hei) as (_ & _ & _ & Ht' & _).
  rewrite Ht' in Ht. destruct remove_unlinked as (l & Hl & Hu).
  assert (fst_child s' e = fst_child s1 e) as Ef by (unfold fst_child; by rewrite remove_at, decide_False).
  destruct (decide (e = d)) as [->|Hed].
  - destruct (unlinked_kids _ _ _ _ _ Hu Hl) as (l' & Hc & Hnd & Hl'). exists l'. split; [|split; [done|]].
    + rewrite Ef. apply remove_chain; [|done]. intros j Hj. apply Hl' in Hj as [[? _] ?]. done.
    + intros j. by rewrite Hl', remove_child.
  - destruct (fw_kids _ Hw e He Hae' Ht) as [l' Hl']. pose proof (unlinked_others _ _ _ _ _ e l' Hu Hl He Hed Hl') as (Hc & Hnd & Hx).
    assert (forall j, j ∈ l' -> is_node j /\ j <> i) as Hm.
    { intros j Hj. apply Hl' in Hj as (? & _ & _ & Hp). split; [done|]. intros ->. by apply Hed. }
    exists l'. split; [|split; [done|]].
    + rewrite Ef. by apply remove_chain.
    + intros j. rewrite remove_child. destruct Hl' as (_ & _ & Hl'). rewrite <- Hl'. split; [|tauto]. intros Hj. split; [done | by apply Hm].
Qed.
Lemma remove_edit : fs_wf s' /\ (forall j p, at_path s' j p <-> at_path s j p /\ j <> i) /\
  forall j, is_node j -> j <> i -> same_node s s' j.
Proof using All.
  split; [|split; [apply remove_paths | intros j Hj Hji; by apply remove_node]].
  assert (forall j, is_node j -> active s' j = true -> j <> 0 -> par s' j = par s j /\ par s j <> i) as Hpar.
  { intros j Hj Haj H0. destruct (remove_active j Hj Haj) as [Hji Haj']. split; [by apply remove_node|]. intros Hx. apply (Hleaf j). by split_and!. }
  constructor.
  - unfold s'. rewrite alen_upd. apply remove_len.
  - intros j Hj. destruct (decide (j = i)) as [->|Hji].
    + rewrite remove_at, decide_True by done. destruct remove_unlinked as (l & _ & [[_ Hs] _ _ _]). destruct (Hs i Hi) as (_ & _ & _ & _ & _ & G).
      change (alen (node_data (aget s1 i)) = MEMFS_MAX_FILE_SIZE). rewrite G. by apply Hw.
    + destruct (remove_node j Hj Hji) as (_ & _ & _ & _ & _ & ->). by apply Hw.
  - destruct (remove_node 0 root_node ltac:(done)) as (-> & -> & _ & -> & _). apply Hw.
  - intros j Hj Haj. destruct (remove_active j Hj Haj) as [Hji Haj']. destruct (remove_node j Hj Hji) as (_ & _ & _ & -> & -> & _). by apply Hw.
  - intros j Hj Haj H0. destruct (Hpar j Hj Haj H0) as [-> Hpi]. destruct (remove_active j Hj Haj) as [Hji Haj'].
    destruct (fw_parent _ Hw j Hj Haj' H0) as (A & B & C). destruct (remove_node _ A Hpi) as (-> & _ & _ & -> & _). done.
  - intros j Hj Haj H0. destruct (remove_active j Hj Haj) as [Hji Haj']. destruct (remove_node j Hj Hji) as (_ & _ & -> & _). by apply Hw.
  - intros e j k [Hj Hji]%remove_child [Hk Hki]%remove_child.
    destruct (remove_node j (proj1 Hj) Hji) as (_ & _ & -> & _), (remove_node k (proj1 Hk) Hki) as (_ & _ & -> & _). by apply (fw_uniq _ Hw e).
  - apply remove_kids.
  - intros j Hj Haj. destruct (remove_active j Hj Haj) as [Hji Haj']. destruct (fw_reach _ Hw j Hj Haj') as [p Hp]. exists p. by apply remove_paths.
Qed.
End Remove.

(** ** Taking a node *)

Lemma copy_short capacity (n : str) : alen n < capacity -> vfs_copy_string capacity n = n.
Proof.
  intros Hn. unfold vfs_copy_string. assert (length n <= Z.to_nat (capacity - 1))%nat as Hle by (unfold alen in Hn; lia). clear Hn.
  revert Hle. generalize (Z.to_nat (capacity - 1)). induction n as [|c n IH]; intros [|room] Hle; cbn [copy_loop length] in *; try done; [lia|].
  f_equal. apply IH. lia.
Qed.

Section Insert.
Context (s : MemFs) (i d type : Z) (name : str) (Hw : fs_wf s) (Hi : is_node i) (H0 : i <> 0) (Hfree : active s i = false).
Context (Hd : is_node d) (Had : active s d = true) (Htd : typ s d = VFS_NODE_DIR).
Context (Hname : good_name name) (Hnew : forall j, child s d j -> nam s j <> name) (Hty : type = VFS_NODE_FILE \/ type = VFS_NODE_DIR).
Let fill (n : MemFSNode) : MemFSNode :=
  n <| node_active := 1 |> <| node_type := type |> <| node_parent := d |> <| first_child := -1 |> <| next_sibling := -1 |>
    <| node_size := 0 |> <| node_name := vfs_copy_string MEMFS_MAX_NAME name |>.
Let s' := upd_node d (fun n => n <| first_child := i |>) (upd_node i (fun n => n <| next_sibling := fst_child s d |>) (upd_node i fill s)).

Lemma insert_ne : d <> i.
Proof using All. intros ->. congruence. Qed.
Lemma insert_at j : is_node j -> aget s' j =
  if decide (j = i) then (fill (aget s i)) <| next_sibling := fst_child s d |>
  else if decide (j = d) then (aget s d) <| first_child := i |> else aget s j.
Proof using All.
  intros Hj. pose proof insert_ne as Hdi. pose proof (fw_len _ Hw) as Hl. unfold s'.
  rewrite !aget_upd by (rewrite ?alen_upd; done). repeat case_decide; subst; done.
Qed.
Lemma insert_old j : is_node j -> j <> i -> active s' j = active s j /\ par s' j = par s j /\ nam s' j = nam s j /\ nxt s' j = nxt s j /\ same_node s s' j.
Proof using All.
  intros Hj Hji. unfold active, par, nam, nxt, same_node, typ. rewrite insert_at, decide_False by done. case_decide; [by subst | done].
Qed.
Lemma insert_new : active s' i = true /\ par s' i = d /\ nam s' i = name /\ typ s' i = type /\ nxt s' i = fst_child s d /\ fst_child s' i = -1 /\
  node_size (aget s' i) = 0 /\ node_data (aget s' i) = node_data (aget s i).
Proof using All.
  unfold active, par, nam, typ, nxt, fst_child. rewrite insert_at, decide_True by done. cbn. split_and!; try done. apply copy_short, Hname.
Qed.
Lemma insert_child e j : child s' e j <-> (j = i /\ e = d) \/ child s e j.
Proof using All.
  destruct insert_new as (A & B & _). split.
  - intros (Hj & Haj & Hj0 & Hp). destruct (decide (j = i)) as [->|Hji]; [left; split; congruence | right].
    destruct (insert_old j Hj Hji) as (E1 & E2 & _). split_and!; try done; congruence.
  - intros [[-> ->]|(Hj & Haj & Hj0 & Hp)]; [by split_and!|]. assert (j <> i) as Hji by congruence.
    destruct (insert_old j Hj Hji) as (E1 & E2 & _). split_and!; try done; congruence.
Qed.
Lemma insert_paths j p : at_path s' j p <-> at_path s j p \/ (j = i /\ exists pd, at_path s d pd /\ p = pd ++ [name]).
Proof using All.
  destruct insert_new as (A & B & C & _). pose proof insert_ne as Hdi.
  assert (forall k q, at_path s k q -> at_path s' k q) as Hext.
  { intros k q. apply at_path_ext. intros m Hm Hm0 Hma. assert (m <> i) as Hmi by congruence. destruct (insert_old m Hm Hmi) as (E1 & E2 & E3 & _). split_and!; congruence. }
  split.
  - induction 1 as [|j p Hj Haj Hj0 Hp IH]; [left; constructor|]. destruct (decide (j = i)) as [->|Hji].
    + right. split; [done|]. exists p. rewrite C. split; [|done]. rewrite B in IH. destruct IH as [?|[? _]]; done.
    + left. destruct (insert_old j Hj Hji) as (E1 & E2 & E3 & _). rewrite E1 in Haj. rewrite E3. apply at_child; [done | done | done |].
      rewrite E2 in IH. destruct IH as [?|[Hx _]]; [done|]. exfalso. destruct (fw_parent _ Hw j Hj Haj Hj0) as (_ & Hpa & _). congruence.
  - intros [?|[-> (pd & Hpd & ->)]]; [by apply Hext|]. rewrite <- C. apply at_child; [done | done | done | rewrite B; by apply Hext].
Qed.
Lemma insert_kids e : is_node e -> active s' e = true -> typ s' e = VFS_NODE_DIR -> exists l, kids s' e l.
Proof using All.
  intros He Hae Hte. destruct insert_new as (A & B & C & D & F & G & _). pose proof insert_ne as Hdi.
  destruct (decide (e = i)) as [->|Hei].
  { exists []. split; [cbn [chain]; rewrite G; done|]. split; [constructor|]. intros j. rewrite insert_child. split; [intros Hj; by apply elem_of_nil in Hj|].
    intros [[_ Hx]|(Hj & Haj & Hj0 & Hp)]; [congruence|]. destruct (fw_parent _ Hw j Hj Haj Hj0) as (_ & Hpa & _). congruence. }
  destruct (insert_old e He Hei) as (E1 & _ & _ & _ & E4 & _). rewrite E1 in Hae. rewrite E4 in Hte.
  destruct (fw_kids _ Hw e He Hae Hte) as (l & Hc & Hnd & Hl).
  assert (forall j, j ∈ l -> is_node j /\ j <> i) as Hm by (intros j Hj; apply Hl in Hj as (? & ? & _); split; congruence).
  assert (forall x, chain s x l -> chain s' x l) as Hx.
  { intros x. apply chain_ext. intros j Hj. destruct (Hm j Hj) as [Hjn Hji]. by destruct (insert_old j Hjn Hji) as (? & _ & _ & ? & _). }
  destruct (decide (e = d)) as [->|Hed].
  - exists (i :: l). split; [|split; [constructor; [intros Hx'; by destruct (Hm i Hx') | done]|]].
    + unfold fst_child at 1. rewrite insert_at, decide_False, decide_True by done. cbn [chain]. split; [done|]. split; [done|]. split; [done|].
      rewrite F. by apply Hx.
    + intros j. rewrite elem_of_cons, Hl, insert_child. naive_solver.
  - exists l. split; [|split; [done|]].
    + unfold fst_child. rewrite insert_at, decide_False, decide_False by done. by apply Hx.
    + intros j. rewrite Hl, insert_child. naive_solver.
Qed.
Lemma insert_edit : fs_wf s' /\ (forall j p, at_path s' j p <-> at_path s j p \/ (j = i /\ exists pd, at_path s d pd /\ p = pd ++ [name])) /\
  (forall j, is_node j -> j <> i -> same_node s s' j) /\ typ s' i = type /\ node_size (aget s' i) = 0.
Proof using All.
  destruct insert_new as (A & B & C & D & F & G & S0 & Dt). pose proof insert_ne as Hdi.
  split; [|split; [apply insert_paths | split; [intros j Hj Hji; by apply insert_old | done]]].
  constructor.
  - unfold s'. rewrite !alen_upd. apply Hw.
  - intros j Hj. destruct (decide (j = i)) as [->|Hji]; [rewrite Dt; by apply Hw|]. destruct (insert_old j Hj Hji) as (_ & _ & _ & _ & _ & _ & ->). by apply Hw.
  - destruct (insert_old 0 root_node ltac:(done)) as (-> & -> & _ & _ & -> & _). apply Hw.
  - intros j Hj Haj. destruct (decide (j = i)) as [->|Hji].
    + rewrite D, S0. destruct Hty as [-> | ->]; [right; done | by left].
    + destruct (insert_old j Hj Hji) as (E1 & _ & _ & _ & -> & -> & _). rewrite E1 in Haj. by apply Hw.
  - intros j Hj Haj Hj0. destruct (decide (j = i)) as [->|Hji].
    + rewrite B. destruct (insert_old d Hd Hdi) as (-> & _ & _ & _ & -> & _). done.
    + destruct (insert_old j Hj Hji) as (E1 & -> & _). rewrite E1 in Haj. destruct (fw_parent _ Hw j Hj Haj Hj0) as (P1 & P2 & P3).
      assert (par s j <> i) as Hpi by congruence. destruct (insert_old _ P1 Hpi) as (-> & _ & _ & _ & -> & _). done.
  - intros j Hj Haj Hj0. destruct (decide (j = i)) as [->|Hji]; [by rewrite C|]. destruct (insert_old j Hj Hji) as (E1 & _ & -> & _). rewrite E1 in Haj. by apply Hw.
  - assert (forall j k, child s d k -> j = i -> nam s' j = nam s' k -> False) as Hcl.
    { intros j k Hk -> Hx. assert (k <> i) as Hki by (destruct Hk as (_ & ? & _); congruence).
      destruct (insert_old k (proj1 Hk) Hki) as (_ & _ & E3 & _). rewrite C, E3 in Hx. by apply (Hnew k Hk). }
    intros e j k [[-> ->]|Hj]%insert_child [[-> Hke]|Hk]%insert_child Hn; try done.
    + by destruct (Hcl i k Hk).
    + subst e. by destruct (Hcl i j Hj).
    + assert (j <> i /\ k <> i) as [Hji Hki] by (destruct Hj as (_ & ? & _), Hk as (_ & ? & _); split; congruence).
      destruct (insert_old j (proj1 Hj) Hji) as (_ & _ & Ej & _), (insert_old k (proj1 Hk) Hki) as (_ & _ & Ek & _). apply (fw_uniq _ Hw e); congruence.
  - apply insert_kids.
  - intros j Hj Haj. destruct (decide (j = i)) as [->|Hji].
    + destruct (fw_reach _ Hw d Hd Had) as [pd Hpd]. exists (pd ++ [name]). apply insert_paths. right. split; [done | by exists pd].
    + destruct (insert_old j Hj Hji) as (E1 & _). rewrite E1 in Haj. destruct (fw_reach _ Hw j Hj Haj) as [p Hp]. exists p. apply insert_paths. by left.
Qed.
End Insert.

(** ** Moving a node *)

Section Move.
Context (s s' : MemFs) (i d : Z) (x : str) (Hw : fs_wf s) (Hi : is_node i) (Ha : active s i = true) (H0 : i <> 0).
Context (Hd : is_node d) (Had : active s d = true) (Htd : typ s d = VFS_NODE_DIR).
Context (Hx : good_name x) (Hnew : forall j, child s d j -> nam s j <> x).
Context (pi pd : list str) (Hpi : at_path s i pi) (Hpd : at_path s d pd) (Hout : forall r, pd <> pi ++ r).
Context (Hlen : alen s' = MEMFS_MAX_NODES).
Context (Hsame : forall j, is_node j -> active s' j = active s j /\ same_node s s' j).
Context (Hother : forall j, is_node j -> j <> i -> par s' j = par s j /\ nam s' j = nam s j).
Context (Hpar : par s' i = d) (Hnam : nam s' i = x).

Lemma move_keeps j p : at_path s j p -> (forall r, p <> pi ++ r) -> at_path s' j p.
Proof using All.
  induction 1 as [|j p Hj Haj Hj0 Hp IH]; intros Hn; [constructor|].
  assert (j <> i) as Hji.
  { intros ->. apply (Hn []). rewrite app_nil_r. eapply at_path_fun; [by apply at_child | done]. }
  destruct (Hother j Hj Hji) as [E1 E2]. rewrite <- E2. destruct (Hsame j Hj) as [Ea _]. apply at_child; [done | by rewrite Ea | done |].
  rewrite E1. apply IH. intros r ->. apply (Hn (r ++ [nam s j])). by rewrite app_assoc.
Qed.
Lemma move_below r : forall j, at_path s j (pi ++ r) -> at_path s' j (pd ++ x :: r).
Proof using All.
  induction r as [|n r IH] using rev_ind; intros j Hj.
  - rewrite app_nil_r in Hj. rewrite (at_path_inj s j i pi Hw Hj Hpi). rewrite <- Hnam. destruct (Hsame i Hi) as [Ea _].
    apply at_child; [done | by rewrite Ea | done |]. rewrite Hpar. by apply move_keeps.
  - pose proof Hj as Hj'. rewrite app_assoc in Hj. apply at_path_snoc in Hj as (-> & Hp & Hjn & Haj & Hj0).
    assert (j <> i) as Hji.
    { intros ->. pose proof (at_path_fun s i _ _ Hj' Hpi) as E. apply (f_equal length) in E. rewrite !length_app in E. cbn in E. lia. }
    destruct (Hother j Hjn Hji) as [E1 E2]. destruct (Hsame j Hjn) as [Ea _].
    change (x :: r ++ [nam s j]) with ((x :: r) ++ [nam s j]). rewrite app_assoc, <- E2. apply at_child; [done | by rewrite Ea | done |].
    rewrite E1. by apply IH.
Qed.
(** What was below the node's old path is now below its new one. *)
Lemma move_paths j p : at_path s' j p <->
  (exists r, at_path s j (pi ++ r) /\ p = pd ++ x :: r) \/ (at_path s j p /\ forall r, p <> pi ++ r).
Proof using All.
  split; [|intros [(r & Hj & ->)|[Hj Hn]]; [by apply move_below | by apply move_keeps]].
  intros Hp. assert (exists q, at_path s j q) as [q Hq].
  { destruct Hp as [|j p Hj Haj Hj0 Hp]; [exists []; constructor|]. apply (fw_reach _ Hw); [done|]. by destruct (Hsame j Hj) as [<- _]. }
  destruct (decide (pi `prefix_of` q)) as [[r ->]|Hn].
  - left. exists r. split; [done|]. eapply at_path_fun; [done | by apply move_below].
  - assert (forall r, q <> pi ++ r) as Hn' by (intros r ->; apply Hn; by exists r).
    right. rewrite (at_path_fun s' j p q Hp (move_keeps j q Hq Hn')). done.
Qed.
Lemma move_child e j : child s' e j <-> (j = i /\ e = d) \/ (j <> i /\ child s e j).
Proof using All.
  split.
  - intros (Hj & Haj & Hj0 & Hp). destruct (Hsame j Hj) as [Ea _]. destruct (decide (j = i)) as [->|Hji]; [left; split; congruence | right].
    destruct (Hother j Hj Hji) as [E1 _]. split; [done|]. split_and!; try done; congruence.
  - intros [[-> ->]|(Hji & Hj & Haj & Hj0 & Hp)].
    + destruct (Hsame i Hi) as [Ea _]. split_and!; try done; congruence.
    + destruct (Hsame j Hj) as [Ea _]. destruct (Hother j Hj Hji) as [E1 _]. split_and!; try done; congruence.
Qed.
Lemma move_wf : (forall e, is_node e -> active s e = true -> typ s e = VFS_NODE_DIR -> exists l, kids s' e l) -> par s' 0 < 0 -> fs_wf s'.
Proof using All.
  intros Hk Hp0. constructor.
  - done.
  - intros j Hj. destruct (Hsame j Hj) as (_ & _ & _ & ->). by apply Hw.
  - destruct (Hsame 0 root_node) as (-> & -> & _). split_and!; [apply Hw | apply Hw | done].
  - intros j Hj Haj. destruct (Hsame j Hj) as (Ea & -> & -> & _). rewrite Ea in Haj. by apply Hw.
  - intros j Hj Haj Hj0. destruct (Hsame j Hj) as (Ea & _). rewrite Ea in Haj.
    assert (is_node (par s' j) /\ active s (par s' j) = true /\ typ s (par s' j) = VFS_NODE_DIR) as (P1 & P2 & P3).
    { destruct (decide (j = i)) as [->|Hji]; [by rewrite Hpar|]. destruct (Hother j Hj Hji) as [-> _]. by apply Hw. }
    destruct (Hsame _ P1) as (-> & -> & _). done.
  - intros j Hj Haj Hj0. destruct (Hsame j Hj) as (Ea & _). rewrite Ea in Haj. destruct (decide (j = i)) as [->|Hji]; [by rewrite Hnam|].
    destruct (Hother j Hj Hji) as [_ ->]. by apply Hw.
  - assert (forall k, k <> i -> child s d k -> nam s' k <> x) as Hcl.
    { intros k Hki Hk'. destruct (Hother k (proj1 Hk') Hki) as [_ ->]. by apply Hnew. }
    intros e j k [[-> ->]|[Hji Hj]]%move_child [[-> Hke]|[Hki Hk']]%move_child Hn; try done.
    + destruct (Hcl k Hki Hk'). congruence.
    + subst e. destruct (Hcl j Hji Hj). congruence.
    + destruct (Hother j (proj1 Hj) Hji) as [_ Ej], (Hother k (proj1 Hk') Hki) as [_ Ek]. apply (fw_uniq _ Hw e); congruence.
  - intros e He Hae Hte. destruct (Hsame e He) as (Ea & Et & _). apply Hk; congruence.
  - intros j Hj Haj. destruct (Hsame j Hj) as (Ea & _). rewrite Ea in Haj. destruct (fw_reach _ Hw j Hj Haj) as [q Hq].
    destruct (decide (pi `prefix_of` q)) as [[r ->]|Hn]; [exists (pd ++ x :: r); by apply move_below|].
    exists q. apply move_keeps; [done|]. intros r ->. apply Hn. by exists r.
Qed.
End Move.

(** The code of [memfs_backend_rename_path] is such a move. *)
Section Relink.
Context (s : MemFs) (i d : Z) (x : str) (Hw : fs_wf s) (Hi : is_node i) (Ha : active s i = true) (H0 : i <> 0).
Context (Hd : is_node d) (Had : active s d = true) (Htd : typ s d = VFS_NODE_DIR).
Context (Hx : good_name x) (Hnew : forall j, child s d j -> nam s j <> x).
Context (pi pd : list str) (Hpi : at_path s i pi) (Hpd : at_path s d pd) (Hout : forall r, pd <> pi ++ r).
Let rename (s : MemFs) : MemFs := upd_node i (fun n => n <| node_name := vfs_copy_string MEMFS_MAX_NAME x |>) s.

(** What both ways of moving have to show. *)
Definition moved (s' : MemFs) : Prop :=
  fs_wf s' /\ (forall j, is_node j -> same_node s s' j) /\
  forall j p, at_path s' j p <-> (exists r, at_path s j (pi ++ r) /\ p = pd ++ x :: r) \/ (at_path s j p /\ forall r, p <> pi ++ r).
Lemma moved_intro s' : alen s' = MEMFS_MAX_NODES ->
  (forall j, is_node j -> active s' j = active s j /\ same_node s s' j) ->
  (forall j, is_node j -> j <> i -> par s' j = par s j /\ nam s' j = nam s j) -> par s' i = d -> nam s' i = x ->
  (forall e, is_node e -> active s e = true -> typ s e = VFS_NODE_DIR -> exists l, kids s' e l) -> moved s'.
Proof using All.
  intros Hl Hs Ho Hp Hn Hk. split; [|split; [intros j Hj; by apply Hs|]].
  - apply (move_wf s s' i d x Hw Hi Ha H0 Hd Had Htd Hx Hnew pi pd Hpi Hpd Hout Hl Hs Ho Hp Hn Hk).
    destruct (Ho 0 root_node ltac:(done)) as [-> _]. apply Hw.
  - apply (move_paths s s' i d x Hw Hi Ha H0 Hd Had Htd Hx Hnew pi pd Hpi Hpd Hout Hl Hs Ho Hp Hn).
Qed.

Lemma rename_in_place : par s i = d -> moved (rename s).
Proof using All.
  intros Hp. assert (forall j, is_node j -> aget (rename s) j = if decide (i = j) then (aget s j) <| node_name := vfs_copy_string MEMFS_MAX_NAME x |> else aget s j) as Hat.
  { intros j Hj. apply aget_upd; [apply Hw | done | done]. }
  assert (forall j, is_node j -> par (rename s) j = par s j /\ active (rename s) j = active s j /\ nxt (rename s) j = nxt s j /\ fst_child (rename s) j = fst_child s j) as Hf.
  { intros j Hj. unfold par, active, nxt, fst_child. rewrite Hat by done. by case_decide. }
  apply moved_intro.
  - unfold rename. rewrite alen_upd. apply Hw.
  - intros j Hj. split; [by apply Hf|]. unfold same_node, typ. rewrite Hat by done. by case_decide.
  - intros j Hj Hji. split; [by apply Hf|]. unfold nam. by rewrite Hat, decide_False.
  - destruct (Hf i Hi) as [-> _]. done.
  - unfold nam. rewrite Hat, decide_True by done. cbn. apply copy_short, Hx.
  - intros e He Hae Hte. destruct (fw_kids _ Hw e He Hae Hte) as (l & Hc & Hnd & Hl). exists l. split; [|split; [done|]].
    + destruct (Hf e He) as (_ & _ & _ & ->). eapply chain_ext; [|exact Hc]. intros j Hj. apply Hl in Hj as [Hj _]. by destruct (Hf j Hj) as (_ & ? & ? & _).
    + intros j. rewrite Hl. unfold child. split; intros (Hj & Haj & Hj0 & Hpj); destruct (Hf j Hj) as (E1 & E2 & _); split_and!; try done; congruence.
Qed.

Lemma rename_elsewhere : par s i <> d -> let s1 := memfs_unlink_child (par s i) i s in
  moved (rename (upd_node i (fun n => n <| node_parent := d |>) (upd_node d (fun n => n <| first_child := i |>)
    (upd_node i (fun n => n <| next_sibling := fst_child s1 d |>) s1)))) /\ active s1 d = true /\ typ s1 d = VFS_NODE_DIR.
Proof using All.
  intros Hpd'. cbv zeta. destruct (fw_parent _ Hw i Hi Ha H0) as (Hp & Hap & Htp). destruct (fw_kids _ Hw _ Hp Hap Htp) as [l Hl].
  assert (child s (par s i) i) as Hch by (by split_and!).
  pose proof (unlink_spec s (par s i) i l (fw_len _ Hw) Hp Hap Hl Hch) as Hu. set (s1 := memfs_unlink_child (par s i) i s) in *.
  pose proof (ul_info _ _ _ _ _ Hu) as Hinfo. assert (alen s1 = MEMFS_MAX_NODES) as Hlen by (destruct Hinfo as [-> _]; apply Hw).
  assert (d <> i) as Hdi by (intros ->; apply (Hout []); rewrite app_nil_r; by eapply at_path_fun).
  set (s5 := rename _).
  assert (forall j, is_node j -> aget s5 j =
    if decide (j = i) then (aget s1 i) <| next_sibling := fst_child s1 d |> <| node_parent := d |> <| node_name := vfs_copy_string MEMFS_MAX_NAME x |>
    else if decide (j = d) then (aget s1 d) <| first_child := i |> else aget s1 j) as Hat.
  { intros j Hj. unfold s5, rename. rewrite !aget_upd by (rewrite ?alen_upd; done). repeat case_decide; subst; done. }
  assert (forall j, is_node j -> active s5 j = active s1 j /\ typ s5 j = typ s1 j /\ node_size (aget s5 j) = node_size (aget s1 j) /\ node_data (aget s5 j) = node_data (aget s1 j)) as Hf.
  { intros j Hj. unfold active, typ. rewrite Hat by done. repeat case_decide; subst; done. }
  assert (forall j, is_node j -> j <> i -> par s5 j = par s1 j /\ nam s5 j = nam s1 j /\ nxt s5 j = nxt s1 j) as Hg.
  { intros j Hj Hji. unfold par, nam, nxt. rewrite Hat, decide_False by done. case_decide; subst; done. }
  assert (forall j, is_node j -> fst_child s5 j = if decide (j = d) then i else fst_child s1 j) as Hfst.
  { intros j Hj. unfold fst_child. rewrite Hat by done. repeat case_decide; subst; done. }
  assert (forall y l', (forall j, j ∈ l' -> is_node j /\ j <> i) -> chain s1 y l' -> chain s5 y l') as Hchain.
  { intros y l' Hm. apply chain_ext. intros j Hj. destruct (Hm j Hj) as [Hjn Hji]. destruct (Hg j Hjn Hji) as (_ & _ & ->). by destruct (Hf j Hjn) as [-> _]. }
  assert (par s5 i = d /\ nam s5 i = x /\ nxt s5 i = fst_child s1 d) as (P5 & N5 & X5).
  { unfold par, nam, nxt. rewrite Hat, decide_True by done. cbn. split; [done|]. split; [apply copy_short, Hx | done]. }
  assert (forall j, is_node j -> active s5 j = active s j /\ same_node s s5 j) as Hsame.
  { intros j Hj. destruct (Hf j Hj) as (A & B & C & D). pose proof (same_active _ _ _ Hinfo Hj) as Ea. destruct Hinfo as [_ Hin].
    destruct (Hin j Hj) as (_ & B' & _ & _ & C' & D'). unfold same_node. split_and!; congruence. }
  assert (forall j, is_node j -> j <> i -> par s5 j = par s j /\ nam s5 j = nam s j) as Hother.
  { intros j Hj Hji. destruct (Hg j Hj Hji) as (A & B & _). destruct Hinfo as [_ Hin]. destruct (Hin j Hj) as (_ & _ & A' & B' & _). split; congruence. }
  split; [|split; [by rewrite (same_active _ _ _ Hinfo Hd) | destruct Hinfo as [_ Hin]; by destruct (Hin d Hd) as (_ & -> & _)]].
  apply moved_intro; [unfold s5, rename; by rewrite !alen_upd | done | done | done | done |].
  intros e He Hae Hte.
  pose proof (move_child s s5 i d x Hw Hi Ha H0 Hd Had Htd Hx Hnew pi pd Hpi Hpd Hout ltac:(unfold s5, rename; by rewrite !alen_upd) Hsame Hother P5 N5) as Hmc.
  destruct (decide (e = par s i)) as [->|Hep].
  - destruct (unlinked_kids _ _ _ _ _ Hu Hl) as (l' & Hc & Hnd & Hl'). exists l'. split; [|split; [done|]].
    + rewrite Hfst, decide_False by done. apply Hchain; [|done]. intros j Hj. apply Hl' in Hj as [[? _] ?]. done.
    + intros j. rewrite Hl', Hmc. naive_solver.
  - destruct (fw_kids _ Hw e He Hae Hte) as [l' Hl']. pose proof (unlinked_others _ _ _ _ _ e l' Hu Hl He Hep Hl') as (Hc & Hnd & _).
    destruct Hl' as (_ & _ & Hl'). assert (forall j, j ∈ l' -> is_node j /\ j <> i) as Hm.
    { intros j Hj. apply Hl' in Hj as (? & _ & _ & Hpj). split; [done|]. intros ->. by apply Hep. }
    destruct (decide (e = d)) as [->|Hed].
    + exists (i :: l'). split; [|split; [constructor; [intros Hx'; by destruct (Hm i Hx') | done]|]].
      * rewrite Hfst, decide_True by done. cbn [chain]. split; [done|]. split; [done|]. split; [by destruct (Hsame i Hi) as [-> _]|].
        rewrite X5. by apply Hchain.
      * intros j. rewrite elem_of_cons, Hl', Hmc. split; [|naive_solver]. intros [->|Hj]; [by left|]. right. split; [|done]. by apply Hm, Hl'.
    + exists l'. split; [|split; [done|]].
      * rewrite Hfst, decide_False by done. by apply Hchain.
      * intros j. rewrite Hl', Hmc. split; [|naive_solver]. intros Hj. right. split; [|done]. by apply Hm, Hl'.
Qed.
End Relink.

(** ** Changing the bytes of a file *)

Lemma copy_into n (b d : list Z) : 0 <= n <= alen d -> let r := for_range 0 n (fun k d => aset d k (aget b k)) d in
  alen r = alen d /\ forall j, 0 <= j < n -> aget r j = aget b j.
Proof.
  intros Hn. cbv zeta. apply (for_range_inv (fun m r => alen r = alen d /\ forall j, 0 <= j < m -> aget r j = aget b j)); [lia | split; [done | lia] |].
  intros m r Hm [Hl Hr]. split; [by rewrite alen_aset|]. intros j Hj. rewrite aget_aset by lia. case_decide; [by subst | apply Hr; lia].
Qed.

Section Data.
Context (s : MemFs) (i size : Z) (d : list Z) (Hw : fs_wf s) (Hi : is_node i) (Ha : active s i = true) (Ht : typ s i = VFS_NODE_FILE).
Context (Hsize : 0 <= size <= MEMFS_MAX_FILE_SIZE) (Hd : alen d = MEMFS_MAX_FILE_SIZE).
Let s' := upd_node i (fun n => n <| node_data := d |> <| node_size := size |>) s.

Lemma data_at j : is_node j -> aget s' j = if decide (i = j) then (aget s j) <| node_data := d |> <| node_size := size |> else aget s j.
Proof using All. intros Hj. apply aget_upd; [apply Hw | done | done]. Qed.
Lemma data_info j : is_node j -> active s' j = active s j /\ typ s' j = typ s j /\ par s' j = par s j /\ nam s' j = nam s j /\
  nxt s' j = nxt s j /\ fst_child s' j = fst_child s j.
Proof using All. intros Hj. unfold active, typ, par, nam, nxt, fst_child. rewrite data_at by done. by case_decide. Qed.
Lemma data_child e j : child s' e j <-> child s e j.
Proof using All. unfold child. split; intros (Hj & Haj & H0 & Hp); destruct (data_info j Hj) as (E1 & _ & E2 & _); split_and!; try done; congruence. Qed.
Lemma data_paths j p : at_path s' j p <-> at_path s j p.
Proof using All. split; apply at_path_ext; intros k Hk H0 Hak; destruct (data_info k Hk) as (E1 & _ & E2 & E3 & _); split_and!; congruence. Qed.
Lemma data_edit : fs_wf s' /\ (forall j p, at_path s' j p <-> at_path s j p) /\ (forall j, is_node j -> j <> i -> same_node s s' j) /\
  typ s' i = VFS_NODE_FILE /\ node_size (aget s' i) = size /\ node_data (aget s' i) = d.
Proof using All.
  split; [|split; [apply data_paths|]; split; [intros j Hj Hji; unfold same_node, typ; by rewrite data_at, decide_False|]].
  2: { unfold typ. rewrite !data_at, !decide_True by done. by split_and!. }
  constructor.
  - unfold s'. rewrite alen_upd. apply Hw.
  - intros j Hj. rewrite data_at by done. case_decide; [done | by apply Hw].
  - destruct (data_info 0 root_node) as (-> & -> & -> & _). apply Hw.
  - intros j Hj Haj. destruct (data_info j Hj) as (E1 & -> & _). rewrite E1 in Haj. rewrite data_at by done.
    case_decide; [subst j; right; done | by apply Hw].
  - intros j Hj Haj H0. destruct (data_info j Hj) as (E1 & _ & -> & _). rewrite E1 in Haj. destruct (fw_parent _ Hw j Hj Haj H0) as (P1 & P2 & P3).
    destruct (data_info _ P1) as (-> & -> & _). done.
  - intros j Hj Haj H0. destruct (data_info j Hj) as (E1 & _ & _ & -> & _). rewrite E1 in Haj. by apply Hw.
  - intros e j k Hj%data_child Hk%data_child. destruct (data_info j (proj1 Hj)) as (_ & _ & _ & -> & _), (data_info k (proj1 Hk)) as (_ & _ & _ & -> & _).
    by apply (fw_uniq _ Hw e).
  - intros e He Hae Hte. destruct (data_info e He) as (E1 & E2 & _). rewrite E1 in Hae. rewrite E2 in Hte.
    destruct (fw_kids _ Hw e He Hae Hte) as (l & Hc & Hnd & Hl). exists l. split; [|split; [done|]].
    + destruct (data_info e He) as (_ & _ & _ & _ & _ & ->). eapply chain_ext; [|exact Hc]. intros j Hj. apply Hl in Hj as [Hj _].
      by destruct (data_info j Hj) as (? & _ & _ & _ & ? & _).
    + intros j. by rewrite Hl, data_child.
  - intros j Hj Haj. destruct (data_info j Hj) as (E1 & _). rewrite E1 in Haj. destruct (fw_reach _ Hw j Hj Haj) as [p Hp]. exists p. by apply data_paths.
Qed.
End Data.
