(* ===== verification/MemFsSpec.v ===== *)
(** * The memory file system refines a tree of files

    Seen from outside, a memory file system is a map from paths (lists of names)
    to directories and files ([fs_view]).  Every operation on a well-formed node
    table keeps it well formed and does to that map what its name says, with
    the codes the tree prescribes ([tree_step]). *)

From S2P Require Import Prelude MemFs MemFsTree MemFsEdit.

(** ** Paths *)

Fixpoint parse_loop (fuel : nat) (cursor : str) : option (list str) :=
  match fuel with
  | O => None
  | S fuel =>
    match memfs_next_segment cursor with
    | inl step => if step <? 0 then None else Some []
    | inr (segment, cursor) => cons segment <$> parse_loop fuel cursor
    end
  end.
(** The names of a path, or nothing if it is not a path. *)
Definition parse (path : str) : option (list str) := parse_loop (S (length path)) path.

Lemma segment_loop_spec cursor : forall len seg rest, segment_loop len cursor = Some (seg, rest) -> 0 <= len < MEMFS_MAX_NAME ->
  cursor = seg ++ rest /\ len + alen seg < MEMFS_MAX_NAME /\ (rest = [] \/ exists r, rest = SLASH :: r).
Proof.
  induction cursor as [|c cursor IH]; intros len seg rest; cbn [segment_loop].
  - intros [= <- <-] Hl. split; [done|]. split; [unfold alen; cbn [length]; lia | by left].
  - destruct (Z.eqb_spec c SLASH) as [->|Hc]; [intros [= <- <-] Hl; split; [done|]; split; [unfold alen; cbn [length]; lia | right; by exists cursor]|].
    destruct (Z.leb_spec MEMFS_MAX_NAME (len + 1)) as [|Hlt]; [done|]. destruct (segment_loop (len + 1) cursor) as [[seg' rest']|] eqn:Hs; [|done].
    intros [= <- <-] Hl. destruct (IH _ _ _ Hs ltac:(lia)) as (-> & Hb & Hr). split; [done|]. split; [|done]. unfold alen in *. cbn [length]. lia.
Qed.
Lemma next_segment_some cursor seg rest : memfs_next_segment cursor = inr (seg, rest) -> good_name seg /\ (length rest < length cursor)%nat.
Proof.
  unfold memfs_next_segment. destruct cursor as [|c cursor0] eqn:Hc; [done|]. rewrite <- Hc. destruct (c =? SLASH); [done|].
  destruct (segment_loop 0 cursor) as [[sg rs]|] eqn:Hs; [|done]. apply segment_loop_spec in Hs as (E & Hl & Hr); [|done].
  destruct (alen sg =? 0) eqn:H0; [done|]. cbn [orb]. destruct (memfs_is_reserved_segment sg) eqn:Hrv; [done|]. apply Z.eqb_neq in H0.
  assert (good_name sg) as Hg by (split_and!; [intros ->; by apply H0 | lia | done]).
  assert (0 < length sg)%nat as Hpos by (unfold alen in H0; lia). rewrite E, length_app.
  destruct rs as [|c0 [|c1 rs]]; [| done |]; intros [= <- <-]; (split; [done|]); cbn [length]; lia.
Qed.
Lemma next_segment_none cursor step : memfs_next_segment cursor = inl step -> step = -1 \/ (step = 0 /\ cursor = []).
Proof.
  unfold memfs_next_segment. destruct cursor as [|c cursor0]; [intros [= <-]; by right|]. destruct (c =? SLASH); [intros [= <-]; by left|].
  destruct (segment_loop 0 (c :: cursor0)) as [[sg rs]|]; [|intros [= <-]; by left]. destruct (_ || _); [intros [= <-]; by left|].
  destruct rs as [|c0 [|c1 rs]]; try done. intros [= <-]. by left.
Qed.
Lemma parse_names fuel : forall cursor p, parse_loop fuel cursor = Some p -> Forall good_name p.
Proof.
  induction fuel as [|fuel IH]; intros cursor p; [done|]. cbn [parse_loop]. destruct (memfs_next_segment cursor) as [step|[seg rest]] eqn:Hn.
  - destruct (step <? 0); [done|]. by intros [= <-].
  - destruct (parse_loop fuel rest) as [q|] eqn:Hq; [|done]. intros [= <-]. constructor; [by eapply next_segment_some | by eapply IH].
Qed.
(** Names that are not there or not names. *)
Definition bad_path (code : Z) : Prop := code = VFS_ERR_INVALID_PATH \/ code = VFS_ERR_NOT_FOUND.

Lemma lookup_loop_spec s fuel : forall cursor cur, (length cursor < fuel)%nat ->
  match parse_loop fuel cursor with
  | Some p => lookup_loop fuel cursor cur s = match resolve s cur p with Some i => (VFS_OK, i) | None => (VFS_ERR_NOT_FOUND, 0) end
  | None => bad_path (lookup_loop fuel cursor cur s).1
  end.
Proof.
  induction fuel as [|fuel IH]; intros cursor cur Hf; [lia|]. cbn [parse_loop lookup_loop].
  destruct (memfs_next_segment cursor) as [step|[seg rest]] eqn:Hn.
  - destruct (next_segment_none _ _ Hn) as [->|[-> ->]]; [by left | done].
  - apply next_segment_some in Hn as [_ Hlen]. set (c := memfs_find_child cur seg s). specialize (IH rest c ltac:(lia)).
    destruct (parse_loop fuel rest) as [p|]; cbn [fmap option_fmap option_map resolve]; fold c; destruct (c <? 0); try done. by right.
Qed.
Lemma lookup_spec s path : match parse path with
  | Some p => memfs_lookup_path path s = match resolve s 0 p with Some i => (VFS_OK, i) | None => (VFS_ERR_NOT_FOUND, 0) end
  | None => bad_path (memfs_lookup_path path s).1
  end.
Proof. unfold parse, memfs_lookup_path. destruct path as [|c path]; [done|]. apply lookup_loop_spec. lia. Qed.

Lemma parent_loop_spec s fuel : fs_wf s -> forall cursor cur, (length cursor < fuel)%nat -> is_node cur -> active s cur = true -> typ s cur = VFS_NODE_DIR ->
  match parse_loop fuel cursor with
  | Some [] | None => bad_path (parent_loop fuel cursor cur s).1.1
  | Some p => parent_loop fuel cursor cur s =
      match resolve s cur (removelast p) with
      | Some i => if decide (typ s i = VFS_NODE_DIR) then (VFS_OK, i, List.last p []) else (VFS_ERR_NOT_FOUND, 0, [])
      | None => (VFS_ERR_NOT_FOUND, 0, [])
      end
  end.
Proof.
  intros Hw. induction fuel as [|fuel IH]; intros cursor cur Hf Hc Hac Htc; [lia|]. cbn [parse_loop parent_loop].
  destruct (memfs_next_segment cursor) as [step|[seg rest]] eqn:Hn.
  - destruct (next_segment_none _ _ Hn) as [->|[-> ->]]; by left.
  - apply next_segment_some in Hn as [(_ & Hseg & _) Hlen]. destruct rest as [|c rest].
    + destruct fuel as [|fuel]; [lia|]. cbn [parse_loop memfs_next_segment]. cbn. rewrite decide_True by done. by rewrite copy_short.
    + set (k := memfs_find_child cur seg s). pose proof (find_child_spec s cur seg Hw Hc Hac Htc) as Hk. cbv zeta in Hk. fold k in Hk.
      assert (parse_loop fuel (c :: rest) <> Some []) as Hne.
      { destruct fuel as [|fuel]; [cbn in Hlen; lia|]. cbn [parse_loop]. destruct (memfs_next_segment (c :: rest)) as [st|[sg rs]] eqn:Hx.
        - destruct (next_segment_none _ _ Hx) as [->|[_ ?]]; done.
        - destruct (parse_loop fuel rs); done. }
      destruct Hk as [[(Hkn & Hka & Hk0 & Hkp) _]|[Hk1 _]].
      * rewrite (proj2 (Z.ltb_ge k 0)) by apply Hkn. rewrite get_node_some by done. fold (typ s k).
        destruct (Z.eqb_spec (typ s k) VFS_NODE_DIR) as [Htk|Htk]; cbn [negb].
        -- specialize (IH (c :: rest) k ltac:(lia) Hkn Hka Htk). destruct (parse_loop fuel (c :: rest)) as [[|n p]|]; [done | | done].
           cbn [fmap option_fmap option_map]. rewrite IH. change (removelast (seg :: n :: p)) with (seg :: removelast (n :: p)). cbn [resolve]. fold k.
           by rewrite (proj2 (Z.ltb_ge k 0)) by apply Hkn.
        -- destruct (parse_loop fuel (c :: rest)) as [[|n p]|] eqn:Hp; [done | | by right]. cbn [fmap option_fmap option_map].
           change (removelast (seg :: n :: p)) with (seg :: removelast (n :: p)). cbn [resolve]. fold k. rewrite (proj2 (Z.ltb_ge k 0)) by apply Hkn.
           destruct p as [|m p]; [cbn; by rewrite decide_False|]. change (removelast (n :: m :: p)) with (n :: removelast (m :: p)). cbn [resolve].
           by rewrite find_child_file.
      * rewrite Hk1. cbn [Z.ltb]. destruct (parse_loop fuel (c :: rest)) as [[|n p]|]; [done | | by right].
        cbn [fmap option_fmap option_map]. change (removelast (seg :: n :: p)) with (seg :: removelast (n :: p)). cbn [resolve]. fold k. by rewrite Hk1.
Qed.
Lemma parent_spec s path : fs_wf s -> match parse path with
  | Some [] | None => bad_path (memfs_lookup_parent path s).1.1
  | Some p => memfs_lookup_parent path s =
      match resolve s 0 (removelast p) with
      | Some i => if decide (typ s i = VFS_NODE_DIR) then (VFS_OK, i, List.last p []) else (VFS_ERR_NOT_FOUND, 0, [])
      | None => (VFS_ERR_NOT_FOUND, 0, [])
      end
  end.
Proof.
  intros Hw. unfold parse, memfs_lookup_parent. destruct path as [|c path]; [by left|]. destruct (fw_root _ Hw) as (A & B & _).
  apply parent_loop_spec; [done | lia | apply root_node | done | done].
Qed.

(** ** What the table shows *)

Inductive Entry := Dir | File (bytes : list Z).
#[export] Instance Entry_eq_dec : EqDecision Entry.
Proof. solve_decision. Defined.
Definition tree : Type := list str -> option Entry.

Definition node_bytes (n : MemFSNode) : list Z := aget (node_data n) <$> seqZ 0 (node_size n).
Definition entry_of (n : MemFSNode) : Entry := if node_type n =? VFS_NODE_DIR then Dir else File (node_bytes n).
Definition fs_view (s : MemFs) : tree := fun p => match resolve s 0 p with Some i => Some (entry_of (aget s i)) | None => None end.

Lemma view_iff s p e : fs_wf s -> fs_view s p = Some e <-> exists i, at_path s i p /\ entry_of (aget s i) = e.
Proof.
  intros Hw. unfold fs_view. split.
  - destruct (resolve s 0 p) as [i|] eqn:Hr; [|done]. intros [= <-]. exists i. split; [by apply resolve_at | done].
  - intros (i & Hi & <-). apply resolve_at in Hi; [|done]. by rewrite Hi.
Qed.
Lemma view_at s p i : fs_wf s -> at_path s i p -> fs_view s p = Some (entry_of (aget s i)).
Proof. intros Hw Hi. apply view_iff; [done | by exists i]. Qed.
Lemma view_none s p : fs_wf s -> (forall i, ~ at_path s i p) <-> fs_view s p = None.
Proof.
  intros Hw. unfold fs_view. split.
  - intros Hn. destruct (resolve s 0 p) as [i|] eqn:Hr; [|done]. destruct (Hn i). by apply resolve_at.
  - intros Hv i Hi. apply resolve_at in Hi; [|done]. by rewrite Hi in Hv.
Qed.
Lemma same_entry s s' j : same_node s s' j -> entry_of (aget s' j) = entry_of (aget s j).
Proof. unfold same_node, typ, entry_of, node_bytes. by intros (-> & -> & ->). Qed.
Lemma entry_dir s i : typ s i = VFS_NODE_DIR <-> entry_of (aget s i) = Dir.
Proof. unfold entry_of, typ. destruct (Z.eqb_spec (node_type (aget s i)) VFS_NODE_DIR); split; done. Qed.
Lemma view_dir s p i : fs_wf s -> at_path s i p -> fs_view s p = Some Dir <-> typ s i = VFS_NODE_DIR.
Proof. intros Hw Hi. rewrite (view_at s p i Hw Hi), entry_dir. split; [by intros [= ->] | by intros ->]. Qed.
(** From path to path: two views agree where the nodes do. *)
Lemma view_eq s s' p q : fs_wf s -> fs_wf s' -> (forall i, at_path s' i q <-> at_path s i p) ->
  (forall i, at_path s i p -> entry_of (aget s' i) = entry_of (aget s i)) -> fs_view s' q = fs_view s p.
Proof.
  intros Hw Hw' Hp He. apply option_eq. intros e. rewrite !view_iff by done. split; intros (i & Hi & <-); exists i.
  - apply Hp in Hi. split; [done | symmetry; by apply He].
  - split; [by apply Hp | by apply He].
Qed.

(** The parent directory of an entry is a directory. *)
Lemma view_parent s p : fs_wf s -> p <> [] -> fs_view s p <> None -> fs_view s (removelast p) = Some Dir.
Proof.
  intros Hw Hp Hv. destruct (fs_view s p) as [e|] eqn:He; [|done]. apply view_iff in He as (i & Hi & _); [|done].
  rewrite (app_removelast_last [] Hp) in Hi. apply at_path_snoc in Hi as (_ & Hd & Hi & Ha & H0).
  apply (view_dir s _ _ Hw Hd). by apply Hw.
Qed.

(** ** The abstract file system *)

Definition put (t : tree) (p : list str) (e : Entry) : tree := fun q => if decide (q = p) then Some e else t q.
Definition del (t : tree) (p : list str) : tree := fun q => if decide (q = p) then None else t q.
(** The subtree at [p] goes to [p']. *)
Definition move (t : tree) (p p' : list str) : tree := fun q =>
  if decide (p' `prefix_of` q) then t (p ++ drop (length p') q)
  else if decide (p `prefix_of` q) then None else t q.

Inductive fs_op :=
| op_write (path : str) (bytes : list Z) | op_touch (path : str) | op_delete (path : str) | op_mkdir (path : str)
| op_rmdir (path : str) | op_rename (old_path new_path : str).
Definition run_op (o : fs_op) (s : MemFs) : Z * MemFs :=
  match o with
  | op_write path bytes => memfs_backend_write_file path (Some bytes) (alen bytes) s
  | op_touch path => memfs_backend_touch_file path s
  | op_delete path => memfs_backend_delete_file path s
  | op_mkdir path => memfs_backend_mkdir path s
  | op_rmdir path => memfs_backend_rmdir path s
  | op_rename old_path new_path => memfs_backend_rename_path old_path new_path s
  end.

(** The tree afterwards. *)
Definition becomes (t t' : tree) : Prop := forall q, t' q = t q.

(** What an operation answers and leaves, on the tree; [full] says that no node
    is left. *)
Definition create_step (full : Prop) (t : tree) (p : list str) (e : Entry) (code : Z) (t' : tree) : Prop :=
  (code = VFS_OK /\ becomes (put t p e) t') \/ (code = VFS_ERR_IO /\ full /\ becomes t t').
Definition write_step (full : Prop) (t : tree) (path : str) (bytes : list Z) (code : Z) (t' : tree) : Prop :=
  match parse path with
  | None | Some [] => bad_path code /\ becomes t t'
  | Some p =>
    match t (removelast p) with
    | Some Dir =>
      match t p with
      | Some Dir => code = VFS_ERR_INVALID_PATH /\ becomes t t'
      | Some (File _) => code = VFS_OK /\ becomes (put t p (File bytes)) t'
      | None => create_step full t p (File bytes) code t'
      end
    | _ => code = VFS_ERR_NOT_FOUND /\ becomes t t'
    end
  end.
Definition mkdir_step (full : Prop) (t : tree) (path : str) (code : Z) (t' : tree) : Prop :=
  match parse path with
  | None | Some [] => bad_path code /\ becomes t t'
  | Some p =>
    match t (removelast p) with
    | Some Dir =>
      match t p with
      | Some _ => code = VFS_ERR_ALREADY_MOUNTED /\ becomes t t'
      | None => create_step full t p Dir code t'
      end
    | _ => code = VFS_ERR_NOT_FOUND /\ becomes t t'
    end
  end.
Definition delete_step (t : tree) (path : str) (code : Z) (t' : tree) : Prop :=
  match parse path with
  | None => bad_path code /\ becomes t t'
  | Some p =>
    match t p with
    | Some (File _) => code = VFS_OK /\ becomes (del t p) t'
    | Some Dir => code = VFS_ERR_INVALID_PATH /\ becomes t t'
    | None => code = VFS_ERR_NOT_FOUND /\ becomes t t'
    end
  end.
Definition rmdir_step (t : tree) (path : str) (code : Z) (t' : tree) : Prop :=
  match parse path with
  | None => bad_path code /\ becomes t t'
  | Some [] => code = VFS_ERR_UNSUPPORTED /\ becomes t t'
  | Some p =>
    match t p with
    | Some Dir =>
      (code = VFS_OK /\ (forall n, t (p ++ [n]) = None) /\ becomes (del t p) t') \/
      (code = VFS_ERR_IO /\ (exists n, t (p ++ [n]) <> None) /\ becomes t t')
    | Some (File _) => code = VFS_ERR_INVALID_PATH /\ becomes t t'
    | None => code = VFS_ERR_NOT_FOUND /\ becomes t t'
    end
  end.
Definition rename_step (t : tree) (old_path new_path : str) (code : Z) (t' : tree) : Prop :=
  match parse old_path with
  | None => bad_path code /\ becomes t t'
  | Some [] => code = VFS_ERR_UNSUPPORTED /\ becomes t t'
  | Some p =>
    if decide (t p = None) then code = VFS_ERR_NOT_FOUND /\ becomes t t'
    else
      match parse new_path with
      | None | Some [] => bad_path code /\ becomes t t'
      | Some p' =>
        if decide (t (removelast p') = Some Dir) then
          if decide (p' = p) then code = VFS_OK /\ becomes t t'
          else if decide (t p' = None) then
            if decide (p `prefix_of` removelast p') then code = VFS_ERR_INVALID_PATH /\ becomes t t'
            else code = VFS_OK /\ becomes (move t p p') t'
          else code = VFS_ERR_ALREADY_MOUNTED /\ becomes t t'
        else code = VFS_ERR_NOT_FOUND /\ becomes t t'
      end
  end.
Definition tree_step (full : Prop) (t : tree) (o : fs_op) (code : Z) (t' : tree) : Prop :=
  match o with
  | op_write path bytes =>
    if decide (MEMFS_MAX_FILE_SIZE < alen bytes) then code = VFS_ERR_IO /\ becomes t t' else write_step full t path bytes code t'
  | op_touch path => write_step full t path [] code t'
  | op_delete path => delete_step t path code t'
  | op_mkdir path => mkdir_step full t path code t'
  | op_rmdir path => rmdir_step t path code t'
  | op_rename old_path new_path => rename_step t old_path new_path code t'
  end.
Definition table_full (s : MemFs) : Prop := forall i, is_node i -> active s i = true.

(** ** The edits on the tree *)

Section Views.
Context (s s' : MemFs) (Hw : fs_wf s) (Hw' : fs_wf s').

Lemma view_removed i p : at_path s i p -> (forall j q, at_path s' j q <-> at_path s j q /\ j <> i) ->
  (forall j, is_node j -> j <> i -> same_node s s' j) -> becomes (del (fs_view s) p) (fs_view s').
Proof using All.
  intros Hi Hp Hs q. unfold del. case_decide as Hq.
  - subst q. apply view_none; [done|]. intros j [Hj Hji]%Hp. by apply Hji, (at_path_inj s j i p).
  - apply view_eq; [done | done | |].
    + intros j. rewrite Hp. split; [tauto|]. intros Hj. split; [done|]. intros ->. apply Hq. by eapply at_path_fun.
    + intros j Hj. apply same_entry, Hs; [by eapply (at_path_node s)|]. intros ->. apply Hq. by eapply at_path_fun.
Qed.
Lemma view_inserted i d pd n : at_path s d pd -> (forall q, ~ at_path s i q) ->
  (forall j q, at_path s' j q <-> at_path s j q \/ (j = i /\ exists pd, at_path s d pd /\ q = pd ++ [n])) ->
  (forall j, is_node j -> j <> i -> same_node s s' j) -> fs_view s (pd ++ [n]) = None ->
  at_path s' i (pd ++ [n]) /\ becomes (put (fs_view s) (pd ++ [n]) (entry_of (aget s' i))) (fs_view s').
Proof using All.
  intros Hd Hni Hp Hs Hn. assert (at_path s' i (pd ++ [n])) as Hi by (apply Hp; right; split; [done | by exists pd]). split; [done|].
  intros q. unfold put. case_decide as Hq; [subst q; by apply view_at|]. apply view_eq; [done | done | |].
  - intros j. rewrite Hp. split; [|tauto]. intros [?|(_ & pd' & Hd' & ->)]; [done|]. destruct Hq. by rewrite (at_path_fun s d pd' pd).
  - intros j Hj. apply same_entry, Hs; [by eapply (at_path_node s)|]. intros ->. by apply (Hni q).
Qed.
Lemma view_data i p : at_path s i p -> (forall j q, at_path s' j q <-> at_path s j q) -> (forall j, is_node j -> j <> i -> same_node s s' j) ->
  becomes (put (fs_view s) p (entry_of (aget s' i))) (fs_view s').
Proof using All.
  intros Hi Hp Hs q. unfold put. case_decide as Hq; [subst q; apply view_at; [done | by apply Hp]|]. apply view_eq; [done | done | apply (fun j => Hp j q) |].
  intros j Hj. apply same_entry, Hs; [by eapply (at_path_node s)|]. intros ->. apply Hq. by eapply at_path_fun.
Qed.
Lemma view_moved p pd x : (forall j, is_node j -> same_node s s' j) -> fs_view s (pd ++ [x]) = None ->
  (forall j q, at_path s' j q <-> (exists r, at_path s j (p ++ r) /\ q = pd ++ x :: r) \/ (at_path s j q /\ forall r, q <> p ++ r)) ->
  becomes (move (fs_view s) p (pd ++ [x])) (fs_view s').
Proof using All.
  intros Hs Hn Hp q. unfold move. assert (forall j q', at_path s j q' -> entry_of (aget s' j) = entry_of (aget s j)) as He.
  { intros j q' Hj. apply same_entry, Hs. by eapply (at_path_node s). }
  assert (forall r, pd ++ x :: r = (pd ++ [x]) ++ r) as Hap by (intros r; by rewrite <- app_assoc).
  destruct (decide (pd ++ [x] `prefix_of` q)) as [[r ->]|Hq].
  - rewrite drop_app_length. apply view_eq; [done | done | | by intros j; apply He]. intros j. rewrite Hp. split.
    + intros [(r' & Hj & E)|[Hj _]]; [rewrite (Hap r') in E; apply app_inv_head in E as ->; done|].
      destruct (at_path_prefix s j _ _ Hw Hj) as [k Hk]. by apply (view_at s _ k Hw) in Hk; rewrite Hn in Hk.
    + intros Hj. left. exists r. by rewrite (Hap r).
  - destruct (decide (p `prefix_of` q)) as [[r ->]|Hq'].
    + apply view_none; [done|]. intros j [(r' & _ & E)|[_ Hx]]%Hp; [apply Hq; exists r'; by rewrite E, (Hap r') | by apply (Hx r)].
    + apply view_eq; [done | done | | by intros j; apply He]. intros j. rewrite Hp. split.
      * intros [(r' & _ & ->)|[? _]]; [destruct Hq; exists r'; by rewrite (Hap r') | done].
      * intros Hj. right. split; [done|]. intros r ->. apply Hq'. by exists r.
Qed.
End Views.

(** ** Finding nodes *)

Lemma lookup_cases s path p : fs_wf s -> parse path = Some p ->
  (fs_view s p = None /\ memfs_lookup_path path s = (VFS_ERR_NOT_FOUND, 0)) \/
  (exists i, at_path s i p /\ is_node i /\ active s i = true /\ memfs_lookup_path path s = (VFS_OK, i) /\ fs_view s p = Some (entry_of (aget s i))).
Proof.
  intros Hw Hp. pose proof (lookup_spec s path) as Hl. rewrite Hp in Hl. destruct (resolve s 0 p) as [i|] eqn:Hr.
  - right. exists i. apply resolve_at in Hr; [|done]. destruct (at_path_active _ _ _ Hw Hr). split_and!; try done. by apply view_at.
  - left. split; [|done]. unfold fs_view. by rewrite Hr.
Qed.
Lemma parent_cases s path p : fs_wf s -> parse path = Some p -> p <> [] ->
  (fs_view s (removelast p) <> Some Dir /\ memfs_lookup_parent path s = (VFS_ERR_NOT_FOUND, 0, [])) \/
  (fs_view s (removelast p) = Some Dir /\ exists d, at_path s d (removelast p) /\ is_node d /\ active s d = true /\ typ s d = VFS_NODE_DIR /\
     memfs_lookup_parent path s = (VFS_OK, d, List.last p [])).
Proof.
  intros Hw Hp Hne. pose proof (parent_spec s path Hw) as Hl. rewrite Hp in Hl. destruct p as [|n p]; [done|].
  destruct (resolve s 0 (removelast (n :: p))) as [d|] eqn:Hr.
  - apply resolve_at in Hr as Hd; [|done]. destruct (at_path_active _ _ _ Hw Hd) as [Hdn Had]. pose proof (view_dir s _ d Hw Hd) as Hv.
    destruct (decide (typ s d = VFS_NODE_DIR)) as [Ht|Ht]; [right; split; [by apply Hv | exists d; by split_and!] | left; split; [by rewrite Hv | done]].
  - left. split; [|done]. unfold fs_view. by rewrite Hr.
Qed.
Lemma child_cases s d pd n : fs_wf s -> at_path s d pd -> typ s d = VFS_NODE_DIR ->
  (exists k, memfs_find_child d n s = k /\ 0 <= k /\ is_node k /\ active s k = true /\ at_path s k (pd ++ [n]) /\
     fs_view s (pd ++ [n]) = Some (entry_of (aget s k))) \/
  (memfs_find_child d n s = -1 /\ fs_view s (pd ++ [n]) = None /\ forall j, child s d j -> nam s j <> n).
Proof.
  intros Hw Hd Ht. destruct (at_path_active _ _ _ Hw Hd) as [Hdn Had]. pose proof (find_child_spec s d n Hw Hdn Had Ht) as Hf. cbv zeta in Hf.
  revert Hf. generalize (memfs_find_child d n s). intros k [[(Hk & Hak & Hk0 & Hpk) <-]|[-> Hno]]; [left | right].
  - exists k. assert (at_path s k (pd ++ [nam s k])) as Hat by (apply at_child; [done | done | done | by rewrite Hpk]).
    split_and!; try done; [apply Hk | by apply view_at].
  - split; [done|]. split; [|done]. apply view_none; [done|]. intros j Hj. apply at_path_snoc in Hj as (-> & Hp & Hjn & Haj & Hj0).
    apply (Hno j); [|done]. split_and!; try done. by apply (at_path_inj s (par s j) d pd).
Qed.
Lemma last_good path p : parse path = Some p -> p <> [] -> good_name (List.last p []).
Proof.
  intros Hp Hne. apply parse_names in Hp. rewrite (app_removelast_last [] Hne) in Hp. apply Forall_app in Hp as [_ Hp]. by apply Forall_cons in Hp as [? _].
Qed.

Lemma split_last path p : parse path = Some p -> p <> [] ->
  exists pd n, p = pd ++ [n] /\ removelast p = pd /\ List.last p [] = n /\ good_name n.
Proof.
  intros Hp Hne. exists (removelast p), (List.last p []). split; [by apply app_removelast_last|]. do 2 (split; [done|]). by eapply last_good.
Qed.
Lemma match_cons {A B : Type} (p : list A) (a b : B) : p <> [] -> match p with [] => a | _ => b end = b.
Proof. by destruct p. Qed.

(** ** Taking a node *)

Lemma alloc_cases s type d pd n : fs_wf s -> at_path s d pd -> typ s d = VFS_NODE_DIR -> good_name n -> fs_view s (pd ++ [n]) = None ->
  (forall j, child s d j -> nam s j <> n) -> type = VFS_NODE_FILE \/ type = VFS_NODE_DIR ->
  (memfs_alloc_node type d n s = (-1, s) /\ table_full s) \/
  exists i s', memfs_alloc_node type d n s = (i, s') /\ 0 <= i /\ is_node i /\ fs_wf s' /\ at_path s' i (pd ++ [n]) /\ active s' i = true /\ typ s' i = type /\
    node_size (aget s' i) = 0 /\ becomes (put (fs_view s) (pd ++ [n]) (entry_of (aget s' i))) (fs_view s').
Proof.
  intros Hw Hd Ht Hg Hv Hno Hty. destruct (at_path_active _ _ _ Hw Hd) as [Hdn Had]. unfold memfs_alloc_node, vfs_strlen_local. destruct Hg as (Hg1 & Hg2 & Hg3) eqn:Eg.
  rewrite (proj2 (Z.eqb_neq (alen n) 0)) by (destruct n; [done | unfold alen; cbn; lia]). rewrite (proj2 (Z.leb_gt _ _) Hg2), Hg3. cbn [orb].
  destruct (find_first _ 1 _) as [i|] eqn:Hf.
  - right. apply find_first_Some in Hf as (Hi & Hfree & _). rewrite Z2Nat.id in Hi by done.
    assert (is_node i) as Hin by (unfold is_node, MEMFS_MAX_NODES in *; lia). assert (active s i = false) as Hai by (unfold active; by rewrite Hfree).
    assert (d <> i) as Hdi by congruence. set (s0 := upd_node i _ s).
    assert (aget s0 d = aget s d) as Ed by (unfold s0; rewrite aget_upd, decide_False by (apply Hw || done); done).
    rewrite get_node_some by (done || (unfold active; rewrite Ed; exact Had)). cbv zeta. rewrite Ed.
    pose proof (insert_edit s i d type n Hw Hin ltac:(lia) Hai Hdn Had Ht (conj Hg1 (conj Hg2 Hg3)) Hno Hty) as (Hw' & Hp & Hs & Hti & Hsz).
    fold (fst_child s d). set (s' := upd_node d _ _) in *. exists i, s'. destruct (view_inserted s s' Hw Hw' i d pd n Hd) as [Hpi Hb]; try done.
    { intros q Hq. destruct (at_path_active _ _ _ Hw Hq). congruence. }
    split_and!; try done; [apply Hin | by apply (at_path_active _ _ _ Hw' Hpi)].
  - left. split; [done|]. intros i Hi. pose proof (find_first_None _ _ _ Hf i) as Hx. cbv beta in Hx. rewrite Z2Nat.id in Hx by done.
    destruct (decide (i = 0)) as [->|Hi0]; [apply Hw|]. unfold active. rewrite Hx; [done|]. unfold is_node, MEMFS_MAX_NODES in *. lia.
Qed.

(** ** The operations *)

Lemma aget_seq (l : list Z) : aget l <$> seqZ 0 (alen l) = l.
Proof.
  apply list_eq. intros i. rewrite list_lookup_fmap. destruct (decide (i < length l)%nat) as [Hi|Hi].
  - rewrite lookup_seqZ_lt by (unfold alen; lia). cbn [fmap option_fmap option_map]. rewrite <- (lookup_aget l (0 + Z.of_nat i)) by (unfold alen; lia).
    f_equal. lia.
  - rewrite lookup_seqZ_ge by (unfold alen; lia). by rewrite lookup_ge_None_2 by lia.
Qed.
Lemma becomes_refl t : becomes t t.
Proof. by intros q. Qed.
#[export] Hint Resolve becomes_refl : kernel.

(** The bytes a store leaves. *)
Lemma stored s i size buffer : fs_wf s -> is_node i -> active s i = true -> typ s i = VFS_NODE_FILE -> 0 <= size <= MEMFS_MAX_FILE_SIZE ->
  let s' := upd_node i (fun n => n <| node_data := for_range 0 size (fun k d => aset d k (aget buffer k)) (node_data n) |> <| node_size := u16 size |>) s in
  fs_wf s' /\ forall p, at_path s i p -> becomes (put (fs_view s) p (File (aget buffer <$> seqZ 0 size))) (fs_view s').
Proof.
  intros Hw Hi Ha Ht Hsz. cbv zeta. assert (u16 size = size) as -> by (unfold u16; apply Z.mod_small; unfold MEMFS_MAX_FILE_SIZE in Hsz; lia).
  set (d := for_range 0 size (fun k d => aset d k (aget buffer k)) (node_data (aget s i))).
  pose proof (fw_data _ Hw i Hi) as Hlen.
  assert (0 <= size <= alen (node_data (aget s i))) as Hle by (by rewrite Hlen). destruct (copy_into size buffer _ Hle) as [Hl Hd]. fold d in Hl, Hd. rewrite Hlen in Hl.
  assert (upd_node i (fun n => n <| node_data := for_range 0 size (fun k d => aset d k (aget buffer k)) (node_data n) |> <| node_size := size |>) s =
    upd_node i (fun n => n <| node_data := d |> <| node_size := size |>) s) as -> by done.
  destruct (data_edit s i size d Hw Hi Ha Ht Hsz Hl) as (Hw' & Hp & Hs & Ht' & Hsize & Hdata). set (s' := upd_node i _ s) in *.
  split; [done|]. intros p Hip. pose proof (view_data s s' Hw Hw' i p Hip Hp Hs) as Hv.
  assert (entry_of (aget s' i) = File (aget buffer <$> seqZ 0 size)) as He; [|by rewrite He in Hv].
  unfold entry_of, node_bytes. fold (typ s' i). rewrite Ht', Hsize, Hdata. cbn [Z.eqb]. f_equal.
  apply list_fmap_ext. intros k y Hk. apply lookup_seqZ in Hk as [-> Hk]. apply Hd. lia.
Qed.

Lemma put_put t p e e' t1 t2 : becomes (put t p e) t1 -> becomes (put t1 p e') t2 -> becomes (put t p e') t2.
Proof. intros H1 H2 q. rewrite H2. unfold put. case_decide as Hq; [done|]. rewrite H1. unfold put. by rewrite decide_False. Qed.

Lemma write_sound s path buffer size : fs_wf s -> 0 <= size <= MEMFS_MAX_FILE_SIZE -> (0 < size -> is_Some buffer) ->
  let r := memfs_backend_write_file path buffer size s in
  fs_wf r.2 /\ write_step (table_full s) (fs_view s) path (aget (default [] buffer) <$> seqZ 0 size) r.1 (fs_view r.2).
Proof.
  intros Hw Hsz Hb. cbv zeta. unfold memfs_backend_write_file, write_step. rewrite (proj2 (Z.ltb_ge _ _)) by lia.
  assert ((0 <? size) && negb (bool_decide (is_Some buffer)) = false) as ->.
  { destruct (Z.ltb_spec 0 size); [|done]. rewrite bool_decide_eq_true_2 by auto. done. }
  cbn [orb]. pose proof (parent_spec s path Hw) as Hps. destruct (parse path) as [p|] eqn:Hp.
  2: { destruct (memfs_lookup_parent path s) as [[code d] leaf]. cbn [fst] in Hps. destruct Hps as [-> | ->]; (split; [done|]; split; [by constructor | auto with kernel]). }
  destruct (decide (p = [])) as [->|Hne].
  { destruct (memfs_lookup_parent path s) as [[code d] leaf]. cbn [fst] in Hps. destruct Hps as [-> | ->]; (split; [done|]; split; [by constructor | auto with kernel]). }
  destruct (split_last path p Hp Hne) as (pd & n & Ep & Er & En & Hleaf). rewrite (match_cons p) by done. rewrite Er. clear Hps.
  destruct (parent_cases s path p Hw Hp Hne) as [[Hv Hl]|(Hv & d & Hd & Hdn & Had & Ht & Hl)]; rewrite Hl; clear Hl; rewrite Er in Hv.
  { cbn. split; [done|]. destruct (fs_view s pd) as [[|]|]; try done; (split; [done | auto with kernel]). }
  change (VFS_OK =? VFS_OK) with true. cbn [negb]. rewrite Hv, En. rewrite Er in Hd. subst p.
  destruct (child_cases s d pd n Hw Hd Ht) as [(k & -> & Hk0 & Hkn & Hka & Hk & Hkv)|(-> & Hkv & Hno)]; rewrite Hkv.
  - rewrite (proj2 (Z.leb_le 0 k) Hk0), get_node_some by done. fold (typ s k).
    destruct (fw_type _ Hw k Hkn Hka) as [Hty|[Hty _]]; rewrite Hty; cbn [Z.eqb negb]; unfold entry_of; fold (typ s k); rewrite Hty; cbn [Z.eqb].
    + split; [done|]. split; [done | auto with kernel].
    + destruct (stored s k size (default [] buffer) Hw Hkn Hka Hty Hsz) as [Hw' Hb']. split; [done|]. split; [done|]. by apply Hb'.
  - cbn [Z.leb Z.compare]. destruct (alloc_cases s VFS_NODE_FILE d pd n Hw Hd Ht Hleaf Hkv Hno (or_introl eq_refl))
      as [[-> Hfull]|(i & s' & -> & Hi0 & Hin & Hw' & Hi & Hai & Hti & _ & Hb1)].
    + cbn. split; [done|]. right. split; [done|]. split; [done | auto with kernel].
    + rewrite (proj2 (Z.ltb_ge i 0) Hi0). destruct (stored s' i size (default [] buffer) Hw' Hin Hai Hti Hsz) as [Hw2 Hb2]. split; [done|]. left.
      split; [done|]. eapply put_put; [exact Hb1 | by apply Hb2].
Qed.

Lemma delete_sound s path : fs_wf s -> let r := memfs_backend_delete_file path s in
  fs_wf r.2 /\ delete_step (fs_view s) path r.1 (fs_view r.2).
Proof.
  intros Hw. cbv zeta. unfold memfs_backend_delete_file, delete_step. pose proof (lookup_spec s path) as Hls. destruct (parse path) as [p|] eqn:Hp.
  2: { destruct (memfs_lookup_path path s) as [code i]. cbn [fst] in Hls. destruct Hls as [-> | ->]; (split; [done|]; split; [by constructor | auto with kernel]). }
  destruct (lookup_cases s path p Hw Hp) as [[Hv Hl]|(i & Hi & Hin & Hai & Hl & Hv)]; rewrite Hl, Hv; cbn [Z.eqb negb VFS_OK VFS_ERR_NOT_FOUND].
  - split; [done|]. split; [done | auto with kernel].
  - change (VFS_OK =? VFS_OK) with true. cbn [negb]. rewrite get_node_some by done. fold (typ s i). unfold entry_of. fold (typ s i).
    destruct (fw_type _ Hw i Hin Hai) as [Hty|[Hty _]]; rewrite Hty; cbn [Z.eqb negb].
    + split; [done|]. split; [done | auto with kernel].
    + assert (i <> 0) as Hi0 by (intros ->; destruct (fw_root _ Hw) as (_ & Hr & _); by rewrite Hr in Hty).
      assert (forall j, ~ child s i j) as Hleaf by (intros j (Hj & Haj & Hj0 & Hpj); destruct (fw_parent _ Hw j Hj Haj Hj0) as (_ & _ & Hd); by rewrite Hpj, Hty in Hd).
      cbn [fst snd]. rewrite (remove_is s i Hw Hin Hai Hi0 Hleaf).
      destruct (remove_edit s i Hw Hin Hai Hi0 Hleaf) as (Hw' & Hpp & Hs). split; [done|]. split; [done|]. by apply (view_removed s _ Hw Hw' i).
Qed.

Lemma mkdir_sound s path : fs_wf s -> let r := memfs_backend_mkdir path s in
  fs_wf r.2 /\ mkdir_step (table_full s) (fs_view s) path r.1 (fs_view r.2).
Proof.
  intros Hw. cbv zeta. unfold memfs_backend_mkdir, mkdir_step. pose proof (parent_spec s path Hw) as Hps. destruct (parse path) as [p|] eqn:Hp.
  2: { destruct (memfs_lookup_parent path s) as [[code d] leaf]. cbn [fst] in Hps. destruct Hps as [-> | ->]; (split; [done|]; split; [by constructor | auto with kernel]). }
  destruct (decide (p = [])) as [->|Hne].
  { destruct (memfs_lookup_parent path s) as [[code d] leaf]. cbn [fst] in Hps. destruct Hps as [-> | ->]; (split; [done|]; split; [by constructor | auto with kernel]). }
  destruct (split_last path p Hp Hne) as (pd & n & Ep & Er & En & Hleaf). rewrite (match_cons p) by done. rewrite Er. clear Hps.
  destruct (parent_cases s path p Hw Hp Hne) as [[Hv Hl]|(Hv & d & Hd & Hdn & Had & Ht & Hl)]; rewrite Hl; clear Hl; rewrite Er in Hv.
  { cbn. split; [done|]. destruct (fs_view s pd) as [[|]|]; try done; (split; [done | auto with kernel]). }
  change (VFS_OK =? VFS_OK) with true. cbn [negb]. rewrite Hv, En. rewrite Er in Hd. subst p.
  destruct (child_cases s d pd n Hw Hd Ht) as [(k & -> & Hk0 & Hkn & Hka & Hk & Hkv)|(-> & Hkv & Hno)]; rewrite Hkv.
  - rewrite (proj2 (Z.leb_le 0 k) Hk0). split; [done|]. split; [done | auto with kernel].
  - cbn [Z.leb Z.compare]. destruct (alloc_cases s VFS_NODE_DIR d pd n Hw Hd Ht Hleaf Hkv Hno (or_intror eq_refl))
      as [[-> Hfull]|(i & s' & -> & Hi0 & Hin & Hw' & Hi & Hai & Hti & _ & Hb)]; cbn [fst snd].
    + split; [done|]. right. split; [done|]. split; [done | auto with kernel].
    + rewrite (proj2 (Z.leb_le 0 i) Hi0). split; [done|]. left. split; [done|]. by apply entry_dir in Hti as <-.
Qed.

(** The links of a directory show whether it is empty. *)
Lemma empty_dir s i p : fs_wf s -> at_path s i p -> typ s i = VFS_NODE_DIR ->
  (fst_child s i < 0 /\ (forall j, ~ child s i j) /\ forall n, fs_view s (p ++ [n]) = None) \/
  (0 <= fst_child s i /\ exists n, fs_view s (p ++ [n]) <> None).
Proof.
  intros Hw Hi Ht. destruct (at_path_active _ _ _ Hw Hi) as [Hin Hai]. destruct (fw_kids _ Hw i Hin Hai Ht) as ([|j l] & Hc & _ & Hl).
  - left. split; [exact Hc|]. assert (forall j, ~ child s i j) as Hno by (intros j Hj%Hl; by apply elem_of_nil in Hj). split; [done|].
    intros n. apply view_none; [done|]. intros j Hj. apply at_path_snoc in Hj as (-> & Hp & Hjn & Haj & Hj0). apply (Hno j). split_and!; try done.
    by apply (at_path_inj s (par s j) i p).
  - right. destruct Hc as (Hf & Hjn & _). split; [rewrite Hf; apply Hjn|]. assert (child s i j) as (_ & Haj & Hj0 & Hpj) by (apply Hl; by left).
    exists (nam s j). rewrite (view_at s _ j Hw); [done|]. apply at_child; [done | done | done | by rewrite Hpj].
Qed.
Lemma rmdir_sound s path : fs_wf s -> let r := memfs_backend_rmdir path s in
  fs_wf r.2 /\ rmdir_step (fs_view s) path r.1 (fs_view r.2).
Proof.
  intros Hw. cbv zeta. unfold memfs_backend_rmdir, rmdir_step. pose proof (lookup_spec s path) as Hls. destruct (parse path) as [p|] eqn:Hp.
  2: { destruct (memfs_lookup_path path s) as [code i]. cbn [fst] in Hls. destruct Hls as [-> | ->]; (split; [done|]; split; [by constructor | auto with kernel]). }
  destruct (decide (p = [])) as [->|Hne]; [rewrite Hls; cbn; split; [done|]; split; [done | auto with kernel]|]. clear Hls. rewrite (match_cons p) by done.
  destruct (lookup_cases s path p Hw Hp) as [[Hv Hl]|(i & Hi & Hin & Hai & Hl & Hv)]; rewrite Hl, Hv.
  - cbn. split; [done|]. split; [done | auto with kernel].
  - change (VFS_OK =? VFS_OK) with true. cbn [negb].
    assert (i <> 0) as Hi0 by (intros ->; apply Hne; eapply at_path_fun; [done | constructor]). rewrite (proj2 (Z.eqb_neq i 0) Hi0).
    rewrite get_node_some by done. fold (typ s i) (fst_child s i). unfold entry_of. fold (typ s i).
    destruct (fw_type _ Hw i Hin Hai) as [Hty|[Hty _]]; rewrite Hty; cbn [Z.eqb negb].
    + destruct (empty_dir s i p Hw Hi Hty) as [(Hf & Hleaf & Hno)|[Hf Hsome]].
      * rewrite (proj2 (Z.leb_gt 0 _) Hf). cbn [fst snd]. rewrite (remove_is s i Hw Hin Hai Hi0 Hleaf).
        destruct (remove_edit s i Hw Hin Hai Hi0 Hleaf) as (Hw' & Hpp & Hs). split; [done|]. left. split; [done|]. split; [done|]. by apply (view_removed s _ Hw Hw' i).
      * rewrite (proj2 (Z.leb_le 0 _) Hf). split; [done|]. right. split; [done|]. split; [done | auto with kernel].
    + split; [done|]. split; [done | auto with kernel].
Qed.

(** ** Renaming *)

Lemma moved_sound s i d pi pd x : fs_wf s -> at_path s i pi -> i <> 0 -> at_path s d pd -> typ s d = VFS_NODE_DIR -> good_name x ->
  (forall j, child s d j -> nam s j <> x) -> (forall r, pd <> pi ++ r) -> fs_view s (pd ++ [x]) = None ->
  let r := relink i d s in
  let s' := upd_node i (fun n => n <| node_name := vfs_copy_string MEMFS_MAX_NAME x |>) r.2 in
  r.1 = VFS_OK /\ fs_wf s' /\ becomes (move (fs_view s) pi (pd ++ [x])) (fs_view s').
Proof.
  intros Hw Hi Hi0 Hd Ht Hx Hno Hout Hv. cbv zeta. destruct (at_path_active _ _ _ Hw Hi) as [Hin Hai], (at_path_active _ _ _ Hw Hd) as [Hdn Had].
  assert (forall s', moved s x pi pd s' -> fs_wf s' /\ becomes (move (fs_view s) pi (pd ++ [x])) (fs_view s')) as Hm.
  { intros s' (Hw' & Hs & Hp). split; [done|]. by apply view_moved. }
  unfold relink. fold (par s i). destruct (Z.eqb_spec (par s i) d) as [Hpar|Hpar]; cbn [negb].
  - split; [done|]. apply Hm. by apply (rename_in_place s i d x Hw Hin Hai Hi0 Hdn Had Ht Hx Hno pi pd Hi Hd Hout).
  - destruct (rename_elsewhere s i d x Hw Hin Hai Hi0 Hdn Had Ht Hx Hno pi pd Hi Hd Hout Hpar) as (Hmv & Hda & Hdt).
    rewrite (get_node_some d) by done. fold (typ (memfs_unlink_child (par s i) i s) d). rewrite Hdt. cbn [Z.eqb negb fst snd]. split; [done|]. by apply Hm.
Qed.
(** The two guards of a rename, on paths: the node is there already, and the
    new place is below the node. *)
Lemma same_place s i p d pd x : fs_wf s -> at_path s i p -> p <> [] -> at_path s d pd ->
  (par s i =? d) && vfs_str_eq (nam s i) x = true <-> pd ++ [x] = p.
Proof.
  intros Hw Hi Hne Hd. pose proof Hi as Hi'. rewrite (app_removelast_last [] Hne) in Hi'. apply at_path_snoc in Hi' as (Hn & Hpi & _).
  rewrite andb_true_iff, Z.eqb_eq, str_eq_iff. split.
  - intros [Hpar <-]. rewrite (app_removelast_last [] Hne), Hn. f_equal. rewrite Hpar in Hpi. by eapply at_path_fun.
  - intros E. rewrite <- E in Hn, Hpi. rewrite List.last_last in Hn. rewrite removelast_last in Hpi. split; [by eapply at_path_inj | done].
Qed.
Lemma below_place s i p d pd : fs_wf s -> at_path s i p -> at_path s d pd -> typ s d = VFS_NODE_DIR ->
  (typ s i =? VFS_NODE_DIR) && ((d =? i) || memfs_is_descendant d i s) = true <-> p `prefix_of` pd.
Proof.
  intros Hw Hi Hd Ht. destruct (at_path_active _ _ _ Hw Hi) as [Hin Hai]. rewrite andb_true_iff, orb_true_iff, !Z.eqb_eq, (is_descendant_spec s d pd i p Hw Hd Hi). unfold prefix. split.
  - intros [_ [->|?]]; [|done]. exists []. rewrite app_nil_r. by eapply at_path_fun.
  - intros [r ->]. split; [|right; by exists r]. destruct r as [|n r]; [rewrite app_nil_r in Hd; by rewrite (at_path_inj s i d p)|].
    destruct (fw_type _ Hw i Hin Hai) as [|[Hf _]]; [done|]. exfalso. change (n :: r) with ([n] ++ r) in Hd. rewrite app_assoc in Hd.
    destruct (at_path_prefix s d _ _ Hw Hd) as [j Hj]. apply at_path_snoc in Hj as (_ & Hj & Hjn & Haj & Hj0).
    rewrite (at_path_inj s i (par s j) p Hw Hi Hj) in Hf. destruct (fw_parent _ Hw j Hjn Haj Hj0) as (_ & _ & Htj). by rewrite Htj in Hf.
Qed.
Lemma rename_sound s old_path new_path : fs_wf s -> let r := memfs_backend_rename_path old_path new_path s in
  fs_wf r.2 /\ rename_step (fs_view s) old_path new_path r.1 (fs_view r.2).
Proof.
  intros Hw. cbv zeta. unfold memfs_backend_rename_path, rename_step. pose proof (lookup_spec s old_path) as Hls. destruct (parse old_path) as [p|] eqn:Hp.
  2: { destruct (memfs_lookup_path old_path s) as [code i]. cbn [fst] in Hls. destruct Hls as [-> | ->]; (split; [done|]; split; [by constructor | auto with kernel]). }
  destruct (decide (p = [])) as [->|Hne]; [rewrite Hls; cbn; split; [done|]; split; [done | auto with kernel]|]. clear Hls. rewrite (match_cons p) by done.
  destruct (lookup_cases s old_path p Hw Hp) as [[Hv Hl]|(i & Hi & Hin & Hai & Hl & Hv)]; rewrite Hl.
  { rewrite decide_True by done. cbn. split; [done|]. split; [done | auto with kernel]. }
  rewrite decide_False by (by rewrite Hv). change (VFS_OK =? VFS_OK) with true. cbn [negb].
  assert (i <> 0) as Hi0 by (intros ->; apply Hne; eapply at_path_fun; [done | constructor]). rewrite (proj2 (Z.eqb_neq i 0) Hi0).
  pose proof (parent_spec s new_path Hw) as Hps. destruct (parse new_path) as [p'|] eqn:Hp'.
  2: { destruct (memfs_lookup_parent new_path s) as [[code d] leaf]. cbn [fst] in Hps. destruct Hps as [-> | ->]; (split; [done|]; split; [by constructor | auto with kernel]). }
  destruct (decide (p' = [])) as [->|Hne'].
  { destruct (memfs_lookup_parent new_path s) as [[code d] leaf]. cbn [fst] in Hps. destruct Hps as [-> | ->]; (split; [done|]; split; [by constructor | auto with kernel]). }
  destruct (split_last new_path p' Hp' Hne') as (pd & x & Ep & Er & En & Hleaf). rewrite (match_cons p') by done. rewrite Er. clear Hps.
  destruct (parent_cases s new_path p' Hw Hp' Hne') as [[Hvd Hl']|(Hvd & d & Hd & Hdn & Had & Ht & Hl')]; rewrite Hl'; clear Hl'; rewrite Er in Hvd.
  { rewrite decide_False by done. cbn. split; [done|]. split; [done | auto with kernel]. }
  rewrite decide_True by done. change (VFS_OK =? VFS_OK) with true. cbn [negb]. rewrite En. rewrite Er in Hd. subst p'.
  rewrite get_node_some by done. fold (par s i) (nam s i) (typ s i).
  pose proof (same_place s i p d pd x Hw Hi Hne Hd) as Hsame.
  destruct ((par s i =? d) && vfs_str_eq (nam s i) x) eqn:Es.
  { rewrite decide_True by (by apply Hsame). split; [done|]. split; [done | auto with kernel]. }
  rewrite decide_False by (intros E; apply Hsame in E; discriminate E).
  destruct (child_cases s d pd x Hw Hd Ht) as [(k & -> & Hk0 & Hkn & Hka & Hk & Hkv)|(-> & Hkv & Hno)].
  { rewrite (proj2 (Z.leb_le 0 k) Hk0), decide_False by (by rewrite Hkv). split; [done|]. split; [done | auto with kernel]. }
  rewrite decide_True by done. cbn [Z.leb Z.compare].
  pose proof (below_place s i p d pd Hw Hi Hd Ht) as Hpre.
  destruct ((typ s i =? VFS_NODE_DIR) && _) eqn:Ed.
  { rewrite decide_True by (by apply Hpre). split; [done|]. split; [done | auto with kernel]. }
  assert (~ p `prefix_of` pd) as Hnp by (intros E; apply Hpre in E; discriminate E). rewrite decide_False by done.
  destruct (moved_sound s i d p pd x Hw Hi Hi0 Hd Ht Hleaf Hno) as (Hr & Hw' & Hb); [intros r ->; apply Hnp; by exists r | done |].
  destruct (relink i d s) as [code s1]. cbn [fst snd] in *. subst code. change (VFS_OK =? VFS_OK) with true. cbn [negb fst snd]. split; [done|]. by split.
Qed.

(** ** The contracts *)

Lemma run_op_sound s o : fs_wf s -> let r := run_op o s in
  fs_wf r.2 /\ tree_step (table_full s) (fs_view s) o r.1 (fs_view r.2).
Proof.
  intros Hw. cbv zeta. destruct o as [path bytes|path|path|path|path|old_path new_path]; cbn [run_op tree_step].
  - pose proof (alen_nonneg bytes) as H0. case_decide as Hbig.
    + unfold memfs_backend_write_file. rewrite (proj2 (Z.ltb_lt _ _) Hbig). cbn. split; [done|]. split; [done | auto with kernel].
    + destruct (write_sound s path (Some bytes) (alen bytes) Hw ltac:(lia) ltac:(done)) as [Hw' Hst]. cbn [default] in Hst. by rewrite aget_seq in Hst.
  - exact (write_sound s path None 0 Hw ltac:(done) ltac:(done)).
  - by apply delete_sound.
  - by apply mkdir_sound.
  - by apply rmdir_sound.
  - by apply rename_sound.
Qed.

(** C25: The memory file system refines a tree of files.  On a well-formed node
    table every operation keeps the table well formed, and what it answers and
    what it does to the files is what the operation says on a map from paths to
    directories and files: writing creates or replaces one file, [mkdir]
    creates one directory, deleting removes one file, [rmdir] removes one empty
    directory, renaming moves a node with everything below it; every refusal
    (bad path, missing or wrong kind of node, name taken, moving a directory into
    itself, file too large, no node left) leaves the tree as it was. *)
Theorem memfs_refines_tree s o : fs_wf s -> let r := run_op o s in
  fs_wf r.2 /\ tree_step (table_full s) (fs_view s) o r.1 (fs_view r.2).
Proof. apply run_op_sound. Qed.

Lemma read_spec s path p n : fs_wf s -> parse path = Some p -> memfs_backend_read_file path n s =
  match fs_view s p with
  | Some (File bytes) => if n <? Z.max 1 (alen bytes) then (VFS_ERR_BUFFER_TOO_SMALL, None) else (VFS_OK, Some bytes)
  | Some Dir => (VFS_ERR_INVALID_PATH, None)
  | None => (VFS_ERR_NOT_FOUND, None)
  end.
Proof.
  intros Hw Hp. unfold memfs_backend_read_file. destruct (lookup_cases s path p Hw Hp) as [[-> ->]|(i & Hi & Hin & Hai & -> & ->)]; [done|].
  change (VFS_OK =? VFS_OK) with true. cbn [negb]. rewrite get_node_some by done. unfold entry_of. fold (typ s i).
  destruct (fw_type _ Hw i Hin Hai) as [Ht|[Ht Hsz]]; rewrite Ht; [done|].
  change (VFS_NODE_FILE =? VFS_NODE_DIR) with false. change (VFS_NODE_FILE =? VFS_NODE_FILE) with true. cbn [negb]. cbv iota. unfold node_bytes.
  replace (alen (aget (node_data (aget s i)) <$> seqZ 0 (node_size (aget s i)))) with (node_size (aget s i))
    by (unfold alen; rewrite length_fmap, length_seqZ; lia).
  destruct (Z.ltb_spec 0 (node_size (aget s i))); [by rewrite Z.max_r by lia | by rewrite Z.max_l by lia].
Qed.

Lemma write_effect s path bytes : fs_wf s -> (run_op (op_write path bytes) s).1 = VFS_OK -> let s' := (run_op (op_write path bytes) s).2 in
  fs_wf s' /\ exists p, parse path = Some p /\ becomes (put (fs_view s) p (File bytes)) (fs_view s').
Proof.
  intros Hw Hok. cbv zeta. destruct (decide (MEMFS_MAX_FILE_SIZE < alen bytes)) as [Hbig|Hfit].
  { cbn [run_op] in Hok. unfold memfs_backend_write_file in Hok. by rewrite (proj2 (Z.ltb_lt _ _) Hbig) in Hok. }
  pose proof (alen_nonneg bytes) as H0. destruct (write_sound s path (Some bytes) (alen bytes) Hw ltac:(lia) ltac:(done)) as [Hw' Hst].
  cbn [default] in Hst. rewrite aget_seq in Hst. change (memfs_backend_write_file path (Some bytes) (alen bytes) s) with (run_op (op_write path bytes) s) in *.
  rewrite Hok in Hst. set (s' := (run_op (op_write path bytes) s).2) in *. unfold write_step in Hst. split; [done|].
  destruct (parse path) as [[|p0 p]|]; [by destruct Hst as [[?|?] _] | | by destruct Hst as [[?|?] _]]. exists (p0 :: p). split; [done|].
  destruct (fs_view s (removelast (p0 :: p))) as [[|]|]; [| by destruct Hst as [? _] | by destruct Hst as [? _]].
  destruct (fs_view s (p0 :: p)) as [[|]|]; [by destruct Hst as [? _] | by destruct Hst | by destruct Hst as [[_ ?]|[? _]]].
Qed.

(** What was written is what is read.  After a write that answered [VFS_OK],
    reading the path with a buffer that is large enough gives exactly the bytes
    written, and reading any other path gives what it gave before. *)
Theorem memfs_write_read s path bytes n : fs_wf s -> alen bytes <= n -> 1 <= n ->
  (run_op (op_write path bytes) s).1 = VFS_OK -> let s' := (run_op (op_write path bytes) s).2 in
  memfs_backend_read_file path n s' = (VFS_OK, Some bytes) /\
  forall path' q m, parse path' = Some q -> parse path <> Some q -> memfs_backend_read_file path' m s' = memfs_backend_read_file path' m s.
Proof.
  intros Hw Hn H1 Hok. cbv zeta. destruct (write_effect s path bytes Hw Hok) as (Hw' & p & Hp & Hb). set (s' := (run_op (op_write path bytes) s).2) in *. split.
  - rewrite (read_spec s' path p n Hw' Hp), Hb. unfold put. rewrite decide_True by done. by rewrite (proj2 (Z.ltb_ge _ _)) by lia.
  - intros path' q m Hq Hne. rewrite !(read_spec _ path' q m) by done. rewrite Hb. unfold put. rewrite decide_False; [done|]. intros ->. congruence.
Qed.

(** ** Listing a directory *)

Lemma skip_loop_spec s l : forall fuel skip i, chain s i l -> 0 <= skip -> (length l <= fuel)%nat ->
  let r := skip_loop fuel skip i s in match l !! Z.to_nat skip with Some k => r = k | None => r < 0 end.
Proof.
  induction l as [|k l IH]; intros fuel skip i Hc Hs Hf; cbv zeta.
  - cbn [chain] in Hc. rewrite lookup_nil. destruct fuel as [|fuel]; cbn [skip_loop]; [done|]. by rewrite (proj2 (Z.leb_gt 0 i) Hc), andb_false_r.
  - destruct Hc as (-> & Hk & Ha & Hc). cbn [length] in Hf. destruct fuel as [|fuel]; [lia|]. cbn [skip_loop].
    rewrite (proj2 (Z.leb_le 0 k)) by apply Hk. rewrite andb_true_r. destruct (Z.ltb_spec 0 skip) as [Hpos|Hz].
    + rewrite get_node_some by done. fold (nxt s k). replace (Z.to_nat skip) with (S (Z.to_nat (skip - 1))) by lia. cbn [lookup list_lookup].
      apply IH; [done | lia | lia].
    + by assert (skip = 0) as -> by lia.
Qed.
Definition dir_entry (n : str) (e : Entry) : VFSDirEntry := {|
  entry_type := match e with Dir => VFS_NODE_DIR | File _ => VFS_NODE_FILE end;
  entry_size := match e with Dir => 0 | File bytes => alen bytes end;
  entry_name := n |}.
Lemma entry_shown s i : fs_wf s -> is_node i -> active s i = true -> i <> 0 ->
  {| entry_type := node_type (aget s i); entry_size := if node_type (aget s i) =? VFS_NODE_FILE then node_size (aget s i) else 0;
     entry_name := vfs_copy_string VFS_NAME_MAX (node_name (aget s i)) |} = dir_entry (nam s i) (entry_of (aget s i)).
Proof.
  intros Hw Hi Ha H0. destruct (fw_name _ Hw i Hi Ha H0) as (_ & Hn & _). fold (nam s i) (typ s i).
  rewrite copy_short by (unfold VFS_NAME_MAX, MEMFS_MAX_NAME in *; lia). unfold entry_of. fold (typ s i).
  destruct (fw_type _ Hw i Hi Ha) as [Ht|[Ht Hsz]]; rewrite Ht; [done|]. unfold dir_entry. cbn. f_equal. unfold node_bytes, alen.
  rewrite length_fmap, length_seqZ. lia.
Qed.

(** Listing a directory is complete.  The entries that
    [memfs_backend_read_dir_entry] gives for the cursors 0, 1, 2, ... of a
    directory are, each once, the names in it with their kind and size, and
    then the answer 0. *)
Theorem memfs_readdir_complete s path p : fs_wf s -> parse path = Some p -> fs_view s p = Some Dir ->
  exists names, NoDup names /\ (forall n, n ∈ names <-> fs_view s (p ++ [n]) <> None) /\
    forall cursor, 0 <= cursor ->
      match names !! Z.to_nat cursor with
      | Some n => exists e, fs_view s (p ++ [n]) = Some e /\ memfs_backend_read_dir_entry path cursor s = (1, Some (dir_entry n e))
      | None => memfs_backend_read_dir_entry path cursor s = (0, None)
      end.
Proof.
  intros Hw Hp Hv. unfold memfs_backend_read_dir_entry. destruct (lookup_cases s path p Hw Hp) as [[? _]|(i & Hi & Hin & Hai & -> & _)]; [congruence|].
  change (VFS_OK =? VFS_OK) with true. cbn [negb]. rewrite get_node_some by done. fold (typ s i) (fst_child s i). apply (view_dir s p i Hw Hi) in Hv as Ht.
  rewrite Ht. change (VFS_NODE_DIR =? VFS_NODE_DIR) with true. cbn [negb]. destruct (fw_kids _ Hw i Hin Hai Ht) as (l & Hc & Hnd & Hl).
  assert (forall k, k ∈ l -> is_node k /\ active s k = true /\ k <> 0 /\ at_path s k (p ++ [nam s k])) as Hk.
  { intros k (Hkn & Hka & Hk0 & Hkp)%Hl. split_and!; try done. apply at_child; [done | done | done | by rewrite Hkp]. }
  exists (nam s <$> l). split; [|split].
  - apply NoDup_fmap_2_strong; [|done]. intros x y Hx Hy. apply (fw_uniq _ Hw i); by apply Hl.
  - intros n. rewrite list_elem_of_fmap. split.
    + intros (k & -> & (Hkn & Hka & Hk0 & Hkp)%Hk). by rewrite (view_at s _ k Hw Hkp).
    + intros Hn. destruct (fs_view s (p ++ [n])) as [e|] eqn:He; [|done]. apply view_iff in He as (k & Hkp & _); [|done].
      apply at_path_snoc in Hkp as (-> & Hkp & Hkn & Hka & Hk0). exists k. split; [done|]. apply Hl. split_and!; try done. by apply (at_path_inj s (par s k) i p).
  - intros cursor Hcur. assert (length l <= 16)%nat as Hlen by (apply node_len; [done|]; intros k Hkl; by apply Hk in Hkl as [? _]).
    pose proof (skip_loop_spec s l chain_fuel cursor (fst_child s i) Hc Hcur) as Hsk. cbv zeta in Hsk. change chain_fuel with 17%nat in *.
    specialize (Hsk ltac:(lia)). rewrite list_lookup_fmap. revert Hsk. generalize (skip_loop 17 cursor (fst_child s i) s). intros c Hsk.
    destruct (l !! Z.to_nat cursor) as [k|] eqn:Hlk; cbn [fmap option_fmap option_map].
    + subst c. apply list_elem_of_lookup_2 in Hlk. destruct (Hk k Hlk) as (Hkn & Hka & Hk0 & Hkp). exists (entry_of (aget s k)). split; [by apply view_at|].
      rewrite (proj2 (Z.ltb_ge k 0)) by apply Hkn. rewrite get_node_some by done. by rewrite entry_shown.
    + by rewrite (proj2 (Z.ltb_lt c 0) Hsk).
Qed.

(** ** From the empty file system on *)

Definition table_shape (s : MemFs) : Prop := alen s = MEMFS_MAX_NODES /\ forall i, is_node i -> alen (node_data (aget s i)) = MEMFS_MAX_FILE_SIZE.
Lemma reset_at s : table_shape s -> let s' := for_range 0 MEMFS_MAX_NODES (fun i s => upd_node i clear_node s) s in
  alen s' = MEMFS_MAX_NODES /\ forall j, is_node j -> aget s' j = clear_node (aget s j).
Proof.
  intros [Hl _]. cbv zeta.
  assert (let s' := for_range 0 MEMFS_MAX_NODES (fun i s => upd_node i clear_node s) s in
    alen s' = MEMFS_MAX_NODES /\ forall j, is_node j -> aget s' j = if j <? MEMFS_MAX_NODES then clear_node (aget s j) else aget s j) as [Hl' Hj].
  { apply (for_range_inv (fun m s' => alen s' = MEMFS_MAX_NODES /\ forall j, is_node j -> aget s' j = if j <? m then clear_node (aget s j) else aget s j)).
    - done.
    - split; [done|]. intros j Hj. rewrite (proj2 (Z.ltb_ge j 0)); [done | apply Hj].
    - intros m s' Hm [Hl' Hs']. split; [by rewrite alen_upd|]. intros j Hj. rewrite aget_upd, Hs' by done.
      destruct (Z.ltb_spec j m), (Z.ltb_spec j (m + 1)); case_decide; subst; try lia; done. }
  split; [done|]. intros j Hjn. rewrite Hj, (proj2 (Z.ltb_lt j _)) by (done || apply Hjn). done.
Qed.
Lemma reset_ok s : table_shape s -> fs_wf (memfs_reset_table s) /\ becomes (fun p => if decide (p = []) then Some Dir else None) (fs_view (memfs_reset_table s)).
Proof.
  intros Hs. destruct (reset_at s Hs) as [Hl Hat]. unfold memfs_reset_table. cbv zeta. set (s0 := for_range _ _ _ s) in *. set (s' := upd_node 0 _ s0).
  assert (forall j, is_node j -> j <> 0 -> aget s' j = clear_node (aget s j)) as Hj.
  { intros j Hj H0. unfold s'. rewrite aget_upd, decide_False by (done || congruence). by apply Hat. }
  assert (active s' 0 = true /\ typ s' 0 = VFS_NODE_DIR /\ par s' 0 = -1 /\ fst_child s' 0 = -1 /\ node_data (aget s' 0) = node_data (aget s 0)) as (A & B & C & D & F).
  { unfold active, typ, par, fst_child, s'. rewrite aget_upd, decide_True by done. cbn. rewrite Hat by done. done. }
  assert (forall j, is_node j -> active s' j = true -> j = 0) as Hone.
  { intros j Hjn Ha. destruct (decide (j = 0)) as [|H0]; [done|]. unfold active in Ha. by rewrite (Hj j Hjn H0) in Ha. }
  assert (fs_wf s') as Hw'.
  { constructor.
    - unfold s'. by rewrite alen_upd.
    - intros j Hjn. destruct (decide (j = 0)) as [->|H0]; [rewrite F | rewrite Hj by done]; by apply Hs.
    - rewrite C. by split_and!.
    - intros j Hjn Ha. left. by rewrite (Hone j Hjn Ha).
    - intros j Hjn Ha H0. by destruct H0; apply Hone.
    - intros j Hjn Ha H0. by destruct H0; apply Hone.
    - intros d j k (Hjn & Ha & H0 & _). by destruct H0; apply Hone.
    - intros d Hd Ha _. rewrite (Hone d Hd Ha). exists []. split; [cbn; lia|]. split; [constructor|]. intros j. split; [intros Hx; by apply elem_of_nil in Hx|].
      intros (Hjn & Haj & H0 & _). by destruct H0; apply Hone.
    - intros j Hjn Ha. rewrite (Hone j Hjn Ha). exists []. constructor. }
  split; [done|]. intros p. destruct (decide (p = [])) as [->|Hp].
  - rewrite (view_at s' [] 0 Hw' (at_root s')). f_equal. by apply entry_dir.
  - apply view_none; [done|]. intros j Hjp. destruct (at_path_active _ _ _ Hw' Hjp) as [Hjn Ha]. pose proof (Hone j Hjn Ha) as ->. apply Hp.
    eapply at_path_fun; [done | constructor].
Qed.

Definition run_ops (ops : list fs_op) (s : MemFs) : MemFs := foldl (fun s o => (run_op o s).2) s ops.

(** Whatever operations are run on a fresh memory file system, its node table
    is well formed: every node in use hangs in the child list of its directory
    exactly once, names in a directory are distinct and legal, every node is
    reached from the root (so all walks along links end), sizes are in bounds;
    and what it shows is a tree: the root is a directory, and so is the parent of
    every entry. *)
Theorem memfs_histories_wf s ops : table_shape s -> let s' := run_ops ops (memfs_reset_table s) in
  fs_wf s' /\ fs_view s' [] = Some Dir /\ forall p, p <> [] -> fs_view s' p <> None -> fs_view s' (removelast p) = Some Dir.
Proof.
  intros Hs. cbv zeta. assert (fs_wf (run_ops ops (memfs_reset_table s))) as Hw.
  { unfold run_ops. destruct (reset_ok s Hs) as [Hw _]. revert Hw. generalize (memfs_reset_table s). induction ops as [|o ops IH]; intros t Hw; [done|].
    cbn [foldl]. apply IH. by apply run_op_sound. }
  split; [done|]. split; [|intros p; by apply view_parent].
  rewrite (view_at _ [] 0 Hw (at_root _)). f_equal. apply entry_dir. apply Hw.
Qed.

(** ** Witnesses *)

Definition demo_table : MemFs := replicate 16 (inhabitant <| node_data := replicate 256 0 |>).
Lemma demo_shape : table_shape demo_table.
Proof.
  split; [done|]. intros i Hi. unfold demo_table. rewrite aget_replicate; [done|]. unfold is_node, MEMFS_MAX_NODES in Hi. lia.
Qed.
(** [a/b] holds three bytes, [c] is an empty directory. *)
Definition demo_files : MemFs := run_ops [op_mkdir [97]; op_write [97; 47; 98] [1; 2; 3]; op_mkdir [99]] (memfs_reset_table demo_table).
Lemma demo_files_wf : fs_wf demo_files.
Proof. unfold demo_files, run_ops. cbn [foldl]. do 3 apply run_op_sound. apply reset_ok, demo_shape. Qed.

Lemma memfs_refines_tree_witness : let r := run_op (op_rename [97] [99; 47; 100]) demo_files in
  fs_wf r.2 /\ r.1 = VFS_OK /\ fs_view r.2 [[99]; [100]; [98]] = Some (File [1; 2; 3]).
Proof.
  destruct (memfs_refines_tree demo_files (op_rename [97] [99; 47; 100]) demo_files_wf) as [Hw Hs].
  assert ((run_op (op_rename [97] [99; 47; 100]) demo_files).1 = VFS_OK) as Hr by (vm_compute; reflexivity).
  split; [done|]. split; [done|]. vm_compute. reflexivity.
Defined.
Lemma memfs_write_read_witness :
  memfs_backend_read_file [99; 47; 120] 16 (run_op (op_write [99; 47; 120] [7; 8]) demo_files).2 = (VFS_OK, Some [7; 8]).
Proof.
  apply (memfs_write_read demo_files [99; 47; 120] [7; 8] 16 demo_files_wf); [done | done | vm_compute; reflexivity].
Defined.
Lemma memfs_readdir_complete_witness : exists names : list str, NoDup names /\ ([97] ∈ names) /\ ([99] ∈ names).
Proof.
  destruct (memfs_readdir_complete demo_files [] [] demo_files_wf eq_refl ltac:(vm_compute; reflexivity)) as (names & Hnd & Hn & _).
  exists names. split; [done|]. split; apply Hn; vm_compute; discriminate.
Defined.
Lemma memfs_histories_wf_witness : fs_wf (run_ops [op_mkdir [97]; op_rename [97] [98]] (memfs_reset_table demo_table)).
Proof. apply (memfs_histories_wf demo_table [op_mkdir [97]; op_rename [97] [98]] demo_shape). Defined.
