(* ===== verification/Vfs.v ===== *)
(** * The virtual file system ([kernel/vfs/vfs_core.cpp], [kernel/vfs/vfs_open.cpp])

    Four mount slots, eight slots for open files.  An open file has a buffer on
    the kernel heap that holds the whole file; closing it writes the buffer
    back.  The bytes of the buffers are memory cells ([memory]), not zeroed when
    they are allocated.  Buffers of the callers are lists of bytes, and a null
    pointer is [None].

    The memory file system is modelled in [MemFs]; the operations of any other
    backend, the heap and the lock-free host are reached through the class
    [VfsHost].  A call that never returns has the result [None]
    ([vfs_growth_capacity]).  Not modelled here: the two listing functions, which
    print on the terminal. *)

From S2P Require Import Prelude MemFs.

Definition VFS_MAX_MOUNTS : Z := 4.
Definition VFS_MAX_OPEN_FILES : Z := 8.
Definition VFS_PATH_MAX : Z := 160.
Definition VFS_BACKEND_NONE : Z := 0.
Definition VFS_BACKEND_MEMFS : Z := 2.
Definition VFS_OPEN_READ : Z := 1.
Definition VFS_OPEN_WRITE : Z := 2.
Definition VFS_OPEN_CREATE : Z := 4.
Definition VFS_OPEN_TRUNCATE : Z := 8.
Definition VFS_OPEN_APPEND : Z := 16.
Definition VFS_SEEK_SET : Z := 0.
Definition VFS_SEEK_CUR : Z := 1.
Definition VFS_SEEK_END : Z := 2.
Definition VFS_HANDLE_NONE : Z := 0.
Definition VFS_HANDLE_FILE : Z := 1.
Definition VFS_HANDLE_DIR : Z := 2.

Record VFSMount := {
  m_active : Z; mount_path : str; fs_name : str; backend_kind : Z; m_ops : Z; backend_ctx : Z }.
#[export] Instance VFSMount_settable : Settable VFSMount := {| eta_expand m := {|
  m_active := m_active m; mount_path := mount_path m; fs_name := fs_name m; backend_kind := backend_kind m;
  m_ops := m_ops m; backend_ctx := backend_ctx m |} |}.
#[export] Instance VFSMount_inhabited : Inhabited VFSMount := populate {|
  m_active := 0; mount_path := []; fs_name := []; backend_kind := 0; m_ops := 0; backend_ctx := 0 |}.

Record VFSOpenFile := {
  f_active : Z; f_dirty : Z; f_kind : Z; f_mode : Z; f_owner_pid : Z; position : Z; f_size : Z; capacity : Z;
  dir_cursor : Z; f_path : str; f_buffer : Z }.
#[export] Instance VFSOpenFile_settable : Settable VFSOpenFile := {| eta_expand f := {|
  f_active := f_active f; f_dirty := f_dirty f; f_kind := f_kind f; f_mode := f_mode f; f_owner_pid := f_owner_pid f;
  position := position f; f_size := f_size f; capacity := capacity f; dir_cursor := dir_cursor f; f_path := f_path f;
  f_buffer := f_buffer f |} |}.
#[export] Instance VFSOpenFile_inhabited : Inhabited VFSOpenFile := populate {|
  f_active := 0; f_dirty := 0; f_kind := 0; f_mode := 0; f_owner_pid := 0; position := 0; f_size := 0; capacity := 0;
  dir_cursor := 0; f_path := []; f_buffer := 0 |}.

Record VfsState := {
  mounts : list VFSMount; open_files : list VFSOpenFile; memfs : MemFs; memory : gmap Z Z }.
#[export] Instance VfsState_settable : Settable VfsState := {| eta_expand s := {|
  mounts := mounts s; open_files := open_files s; memfs := memfs s; memory := memory s |} |}.

(** A table of backend operations; [None] is a null function pointer. *)
Record VFSBackendOps (E : Type) := {
  read_dir_entry : option (Z -> str -> Z -> E -> Z * option VFSDirEntry * E);
  get_file_info : option (Z -> str -> E -> Z * option VFSFileInfo * E);
  read_file : option (Z -> str -> Z -> E -> Z * option (list Z) * E);
  write_file : option (Z -> str -> list Z -> E -> Z * E);
  touch_file : option (Z -> str -> E -> Z * E);
  delete_file : option (Z -> str -> E -> Z * E);
  mkdir : option (Z -> str -> E -> Z * E);
  rmdir : option (Z -> str -> E -> Z * E);
  rename_path : option (Z -> str -> str -> E -> Z * E) }.
Arguments read_dir_entry {E}. Arguments get_file_info {E}. Arguments read_file {E}. Arguments write_file {E}.
Arguments touch_file {E}. Arguments delete_file {E}. Arguments mkdir {E}. Arguments rmdir {E}. Arguments rename_path {E}.

Class VfsHost (E : Type) := {
  (** The table at a pointer other than 0 and [&g_memfs_backend_ops]. *)
  backend_ops : Z -> VFSBackendOps E;
  vfs_kmalloc : Z -> E -> Z * E;
  vfs_kfree : Z -> E -> E;
}.
(** [&g_memfs_backend_ops] and [g_memfs_nodes] *)
Definition g_memfs_backend_ops : Z := 1.
Definition g_memfs_nodes : Z := 1.

(** ** Mounts *)

Definition vfs_reset_mount (m : VFSMount) : VFSMount :=
  m <| m_active := 0 |> <| mount_path := [] |> <| fs_name := [] |> <| backend_kind := VFS_BACKEND_NONE |> <| m_ops := 0 |> <| backend_ctx := 0 |>.

(** What follows [prefix] in [path]. *)
Fixpoint after_prefix (prefix path : str) : option str :=
  match prefix, path with
  | [], _ => Some path
  | c :: prefix, d :: path => if c =? d then after_prefix prefix path else None
  | _ :: _, [] => None
  end.
(** The path relative to a mount, if the mount covers it. *)
Definition mount_relative (m : VFSMount) (path : str) : option str :=
  if vfs_str_eq (mount_path m) [SLASH] then Some (match path with c :: rest => if c =? SLASH then rest else path | [] => path end)
  else
    match after_prefix (mount_path m) path with
    | None => None
    | Some [] => Some []
    | Some (c :: rest) => if c =? SLASH then Some rest else None
    end.
(** The best mount so far: its slot, the length of its path, the relative path. *)
Definition find_mount_step (path : str) (s : VfsState) (i : Z) (best : option (Z * Z * str)) : option (Z * Z * str) :=
  let m := aget (mounts s) i in
  if m_active m =? 0 then best
  else
    match mount_relative m path with
    | None => best
    | Some relative =>
      let best_length := match best with Some (_, n, _) => n | None => 0 end in
      if best_length <=? vfs_strlen_local (mount_path m) then Some (i, vfs_strlen_local (mount_path m), relative) else best
    end.
Definition vfs_find_mount (path : option str) (s : VfsState) : option (Z * str) :=
  match path with
  | None | Some [] => None
  | Some path =>
    match for_range 0 VFS_MAX_MOUNTS (find_mount_step path s) None with
    | Some (i, _, relative) => Some (i, relative)
    | None => None
    end
  end.

Definition vfs_mount (path name : option str) (kind ops ctx : Z) (s : VfsState) : Z * VfsState :=
  if (ops =? 0) || (ctx =? 0) then (VFS_ERR_INVALID_PATH, s)
  else
    match path with
    | None | Some [] => (VFS_ERR_INVALID_PATH, s)
    | Some (c :: _ as path) =>
      if negb (c =? SLASH) then (VFS_ERR_INVALID_PATH, s)
      else if bool_decide (is_Some (find_first (fun i => negb (m_active (aget (mounts s) i) =? 0) && vfs_str_eq (mount_path (aget (mounts s) i)) path)
                0 (Z.to_nat VFS_MAX_MOUNTS))) then (VFS_ERR_ALREADY_MOUNTED, s)
      else
        match find_first (fun i => m_active (aget (mounts s) i) =? 0) 0 (Z.to_nat VFS_MAX_MOUNTS) with
        | None => (VFS_ERR_NO_SLOT, s)
        | Some i =>
          let m := {| m_active := 1; mount_path := vfs_copy_string 16 path;
                      fs_name := vfs_copy_string 16 (default [117; 110; 107; 110; 111; 119; 110] name);
                      backend_kind := kind; m_ops := ops; backend_ctx := ctx |} in
          (VFS_OK, s <| mounts := aset (mounts s) i m |>)
        end
    end.
Definition vfs_mount_root (name : option str) (kind ops ctx : Z) (s : VfsState) : Z * VfsState :=
  vfs_mount (Some [SLASH]) name kind ops ctx s.
Definition vfs_mount_memfs (path : option str) (s : VfsState) : Z * VfsState :=
  let s := s <| memfs := memfs_reset_table (memfs s) |> in
  vfs_mount path (Some [109; 101; 109; 102; 115]) VFS_BACKEND_MEMFS g_memfs_backend_ops g_memfs_nodes s.

Definition vfs_mount_count (s : VfsState) : Z :=
  for_range 0 VFS_MAX_MOUNTS (fun i count => if m_active (aget (mounts s) i) =? 0 then count else u32 (count + 1)) 0.
Definition mount_info_step (index : Z) (s : VfsState) (i : Z) (st : Z * option (str * str * Z)) : Z * option (str * str * Z) :=
  let m := aget (mounts s) i in
  match st with
  | (current, Some info) => st
  | (current, None) =>
    if m_active m =? 0 then st
    else if current =? index then (current, Some (vfs_copy_string 16 (mount_path m), vfs_copy_string 16 (fs_name m), backend_kind m))
    else (current + 1, None)
  end.
Definition vfs_get_mount_info (index : Z) (s : VfsState) : Z * option (str * str * Z) :=
  match (for_range 0 VFS_MAX_MOUNTS (mount_info_step index s) (0, None)).2 with
  | Some info => (VFS_OK, Some info)
  | None => (VFS_ERR_NOT_FOUND, None)
  end.

Fixpoint descendant_of (prefix path : str) (last : Z) : bool :=
  match prefix, path with
  | c :: prefix, d :: path => if c =? d then descendant_of prefix path c else false
  | _ :: _, [] => false
  | [], [] => true
  | [], d :: _ => (last =? SLASH) || (d =? SLASH)
  end.
Definition vfs_path_is_descendant_or_same (path prefix : str) : bool := descendant_of prefix path 0.

(** ** Open files *)

Definition file_at (s : VfsState) (fd : Z) : VFSOpenFile := aget (open_files s) fd.
Definition upd_file (fd : Z) (f : VFSOpenFile -> VFSOpenFile) (s : VfsState) : VfsState :=
  s <| open_files := aset (open_files s) fd (f (file_at s fd)) |>.
Definition vfs_get_open_file (fd : Z) (s : VfsState) : option VFSOpenFile :=
  if (fd <? 0) || (VFS_MAX_OPEN_FILES <=? fd) then None
  else if f_active (file_at s fd) =? 0 then None else Some (file_at s fd).
Definition vfs_alloc_open_slot (s : VfsState) : Z :=
  match find_first (fun fd => f_active (file_at s fd) =? 0) 0 (Z.to_nat VFS_MAX_OPEN_FILES) with
  | Some fd => fd
  | None => VFS_ERR_NO_SLOT
  end.
Definition vfs_has_open_descendant_path (path : str) (s : VfsState) : bool :=
  bool_decide (is_Some (find_first (fun fd => negb (f_active (file_at s fd) =? 0) && vfs_path_is_descendant_or_same (f_path (file_at s fd)) path)
    0 (Z.to_nat VFS_MAX_OPEN_FILES))).

(** [capacity *= 2] at 32 bits; [None] when the fuel ends. *)
Fixpoint growth_loop (fuel : nat) (cap required : Z) : option Z :=
  if cap <? required then match fuel with O => None | S fuel => growth_loop fuel (u32 (cap * 2)) required end else Some cap.
(** [None]: the loop does not end. *)
Definition vfs_growth_capacity (required : Z) : option Z := growth_loop 32 64 required.

(** The bytes at an address. *)
Definition read_mem (m : gmap Z Z) (address size : Z) : list Z := (fun k => m !!! (address + k)) <$> seqZ 0 size.
Definition write_mem (address : Z) (bytes : list Z) (m : gmap Z Z) : gmap Z Z :=
  for_range 0 (alen bytes) (fun k m => <[address + k := aget bytes k]> m) m.
(** [vfs_mem_copy] from one place in memory to another. *)
Definition vfs_mem_copy (dest src size : Z) (m : gmap Z Z) : gmap Z Z :=
  for_range 0 size (fun k m => <[dest + k := m !!! (src + k)]> m) m.

Section Operations.
Context {E : Type} `{VfsHost E}.
Implicit Types (s : VfsState) (e : E).

Definition vfs_reset_open_file (fd : Z) (s : VfsState) (e : E) : VfsState * E :=
  let buffer := f_buffer (file_at s fd) in
  let s := upd_file fd (fun f => f <| f_active := 0 |> <| f_dirty := 0 |> <| f_kind := VFS_HANDLE_NONE |> <| f_mode := 0 |>
             <| f_owner_pid := 0 |> <| position := 0 |> <| f_size := 0 |> <| capacity := 0 |> <| dir_cursor := 0 |> <| f_path := [] |>) s in
  if buffer =? 0 then (s, e) else (upd_file fd (fun f => f <| f_buffer := 0 |>) s, vfs_kfree buffer e).

Definition vfs_ensure_open_file_capacity (fd required : Z) (s : VfsState) (e : E) : option (Z * VfsState * E) :=
  let file := file_at s fd in
  if required <=? capacity file then Some (VFS_OK, s, e)
  else
    match vfs_growth_capacity required with
    | None => None
    | Some new_capacity =>
      let '(new_buffer, e) := vfs_kmalloc new_capacity e in
      if new_buffer =? 0 then Some (VFS_ERR_IO, s, e)
      else
        let '(s, e) := if negb (f_buffer file =? 0) && (0 <? f_size file)
                       then (s <| memory := vfs_mem_copy new_buffer (f_buffer file) (f_size file) (memory s) |>, vfs_kfree (f_buffer file) e)
                       else (s, e) in
        Some (VFS_OK, upd_file fd (fun f => f <| f_buffer := new_buffer |> <| capacity := new_capacity |>) s, e)
    end.

Definition vfs_init (s : VfsState) (e : E) : VfsState * E :=
  let s := s <| mounts := for_range 0 VFS_MAX_MOUNTS (fun i l => aset l i (vfs_reset_mount (aget l i))) (mounts s) |> in
  let '(s, e) := for_range 0 VFS_MAX_OPEN_FILES (fun fd st => vfs_reset_open_file fd (upd_file fd (fun f => f <| f_buffer := 0 |>) st.1) st.2) (s, e) in
  (s <| memfs := for_range 0 MEMFS_MAX_NODES (fun i l => upd_node i clear_node l) (memfs s) |>, e).

(** ** Calling a backend

    [None] is a null function pointer. *)

Definition ops_get_file_info (m : VFSMount) (path : str) (s : VfsState) (e : E) : option (Z * option VFSFileInfo * E) :=
  if m_ops m =? g_memfs_backend_ops then Some (memfs_backend_get_file_info path (memfs s), e)
  else match get_file_info (backend_ops (m_ops m)) with Some f => Some (f (backend_ctx m) path e) | None => None end.
Definition ops_read_dir_entry (m : VFSMount) (path : str) (cursor : Z) (s : VfsState) (e : E) : option (Z * option VFSDirEntry * E) :=
  if m_ops m =? g_memfs_backend_ops then Some (memfs_backend_read_dir_entry path cursor (memfs s), e)
  else match read_dir_entry (backend_ops (m_ops m)) with Some f => Some (f (backend_ctx m) path cursor e) | None => None end.
Definition ops_read_file (m : VFSMount) (path : str) (size : Z) (s : VfsState) (e : E) : option (Z * option (list Z) * E) :=
  if m_ops m =? g_memfs_backend_ops then Some (memfs_backend_read_file path size (memfs s), e)
  else match read_file (backend_ops (m_ops m)) with Some f => Some (f (backend_ctx m) path size e) | None => None end.
(** The operations that change files. *)
Definition change (m : VFSMount) (mem : MemFs -> Z * MemFs) (other : option (Z -> E -> Z * E)) (s : VfsState) (e : E) : option (Z * VfsState * E) :=
  if m_ops m =? g_memfs_backend_ops then let '(r, fs) := mem (memfs s) in Some (r, s <| memfs := fs |>, e)
  else match other with Some f => let '(r, e) := f (backend_ctx m) e in Some (r, s, e) | None => None end.
Definition on_ctx {A : Type} (f : option (Z -> A -> E -> Z * E)) (a : A) : option (Z -> E -> Z * E) :=
  match f with Some f => Some (fun ctx e => f ctx a e) | None => None end.

Definition vfs_get_file_info (path : option str) (s : VfsState) (e : E) : Z * option VFSFileInfo * E :=
  match vfs_find_mount path s with
  | None => (VFS_ERR_NOT_READY, None, e)
  | Some (i, relative) =>
    let m := aget (mounts s) i in
    if m_ops m =? 0 then (VFS_ERR_NOT_READY, None, e)
    else
      match relative with
      | [] => if negb (m_ops m =? g_memfs_backend_ops) && negb (bool_decide (is_Some (get_file_info (backend_ops (m_ops m)))))
              then (VFS_ERR_NOT_READY, None, e) else (VFS_OK, Some {| info_type := VFS_NODE_DIR; info_size := 0 |}, e)
      | _ => match ops_get_file_info m relative s e with Some r => r | None => (VFS_ERR_NOT_READY, None, e) end
      end
  end.
Definition vfs_read_file (path : option str) (buffer_size : Z) (s : VfsState) (e : E) : Z * option (list Z) * E :=
  match vfs_find_mount path s with
  | None => (VFS_ERR_NOT_READY, None, e)
  | Some (i, relative) =>
    let m := aget (mounts s) i in
    if m_ops m =? 0 then (VFS_ERR_NOT_READY, None, e)
    else
      match relative with
      | [] => (if negb (m_ops m =? g_memfs_backend_ops) && negb (bool_decide (is_Some (read_file (backend_ops (m_ops m)))))
               then VFS_ERR_NOT_READY else VFS_ERR_INVALID_PATH, None, e)
      | _ => match ops_read_file m relative buffer_size s e with Some r => r | None => (VFS_ERR_NOT_READY, None, e) end
      end
  end.
(** The calls that change one path; [missing] is the code for a null pointer. *)
Definition vfs_change (missing : Z) (present : VFSMount -> bool) (run : VFSMount -> str -> VfsState -> E -> option (Z * VfsState * E))
    (path : option str) (s : VfsState) (e : E) : Z * VfsState * E :=
  match vfs_find_mount path s with
  | None => (missing, s, e)
  | Some (i, relative) =>
    let m := aget (mounts s) i in
    if (m_ops m =? 0) || negb (present m) then (missing, s, e)
    else
      match relative with
      | [] => (VFS_ERR_INVALID_PATH, s, e)
      | _ => match run m relative s e with Some r => r | None => (missing, s, e) end
      end
  end.
Definition has_op {A : Type} (f : VFSBackendOps E -> option A) (m : VFSMount) : bool :=
  (m_ops m =? g_memfs_backend_ops) || bool_decide (is_Some (f (backend_ops (m_ops m)))).

Definition vfs_write_file (path : option str) (buffer : list Z) (s : VfsState) (e : E) : Z * VfsState * E :=
  vfs_change VFS_ERR_NOT_READY (has_op write_file)
    (fun m rel => change m (memfs_backend_write_file rel (Some buffer) (alen buffer)) (match write_file (backend_ops (m_ops m)) with
       Some f => Some (fun ctx e => f ctx rel buffer e) | None => None end)) path s e.
Definition vfs_touch_file (path : option str) (s : VfsState) (e : E) : Z * VfsState * E :=
  vfs_change VFS_ERR_NOT_READY (has_op touch_file)
    (fun m rel => change m (memfs_backend_touch_file rel) (on_ctx (touch_file (backend_ops (m_ops m))) rel)) path s e.
Definition vfs_delete_file (path : option str) (s : VfsState) (e : E) : Z * VfsState * E :=
  vfs_change VFS_ERR_NOT_READY (has_op delete_file)
    (fun m rel => change m (memfs_backend_delete_file rel) (on_ctx (delete_file (backend_ops (m_ops m))) rel)) path s e.
Definition vfs_mkdir (path : option str) (s : VfsState) (e : E) : Z * VfsState * E :=
  vfs_change VFS_ERR_UNSUPPORTED (has_op mkdir)
    (fun m rel => change m (memfs_backend_mkdir rel) (on_ctx (mkdir (backend_ops (m_ops m))) rel)) path s e.
Definition vfs_rmdir (path : option str) (s : VfsState) (e : E) : Z * VfsState * E :=
  vfs_change VFS_ERR_UNSUPPORTED (has_op rmdir)
    (fun m rel => change m (memfs_backend_rmdir rel) (on_ctx (rmdir (backend_ops (m_ops m))) rel)) path s e.
Definition vfs_rename (old_path new_path : option str) (s : VfsState) (e : E) : Z * VfsState * E :=
  match vfs_find_mount old_path s, vfs_find_mount new_path s with
  | Some (i, old_relative), Some (j, new_relative) =>
    let m := aget (mounts s) i in
    if negb (i =? j) then (VFS_ERR_UNSUPPORTED, s, e)
    else if (m_ops m =? 0) || negb (has_op rename_path m) then (VFS_ERR_UNSUPPORTED, s, e)
    else if (alen old_relative =? 0) || (alen new_relative =? 0) then (VFS_ERR_INVALID_PATH, s, e)
    else if vfs_has_open_descendant_path (default [] old_path) s then (VFS_ERR_UNSUPPORTED, s, e)
    else
      match change m (memfs_backend_rename_path old_relative new_relative)
              (match rename_path (backend_ops (m_ops m)) with Some f => Some (fun ctx e => f ctx old_relative new_relative e) | None => None end) s e with
      | Some r => r
      | None => (VFS_ERR_UNSUPPORTED, s, e)
      end
  | _, _ => (VFS_ERR_UNSUPPORTED, s, e)
  end.

(** ** Open files ([vfs_open.cpp])

    [None] as the result of a whole call: it does not return. *)

Definition has_flag (mode flag : Z) : bool := negb (Z.land mode flag =? 0).
(** What [info] holds after a call that did not fill it is not used. *)
Definition no_info : VFSFileInfo := {| info_type := 0; info_size := 0 |}.

Definition vfs_open_for_owner (path : option str) (mode owner_pid : Z) (s : VfsState) (e : E) : option (Z * VfsState * E) :=
  if alen (default [] path) =? 0 then Some (VFS_ERR_INVALID_PATH, s, e)
  else if Z.land mode (Z.lor VFS_OPEN_READ VFS_OPEN_WRITE) =? 0 then Some (VFS_ERR_INVALID_PATH, s, e)
  else
    let '(info_result, info, e) := vfs_get_file_info path s e in
    let info := default no_info info in
    let exists_ := info_result =? VFS_OK in
    if negb exists_ && negb (has_flag mode VFS_OPEN_CREATE) then Some (info_result, s, e)
    else if exists_ && negb (info_type info =? VFS_NODE_FILE) then Some (VFS_ERR_INVALID_PATH, s, e)
    else
      let fd := vfs_alloc_open_slot s in
      if fd <? 0 then Some (VFS_ERR_NO_SLOT, s, e)
      else
        let initial_size := if exists_ && negb (has_flag mode VFS_OPEN_TRUNCATE) then info_size info else 0 in
        match vfs_growth_capacity (if 0 <? initial_size then initial_size else 1) with
        | None => None
        | Some initial_capacity =>
          let '(buffer, e) := vfs_kmalloc initial_capacity e in
          let s := upd_file fd (fun f => f <| f_buffer := buffer |>) s in
          if buffer =? 0 then Some (VFS_ERR_IO, s, e)
          else
            let dirty := (negb exists_ && has_flag mode VFS_OPEN_CREATE) || (has_flag mode VFS_OPEN_WRITE && has_flag mode VFS_OPEN_TRUNCATE) in
            let s := upd_file fd (fun f => f <| f_active := 1 |> <| f_dirty := Z.b2z dirty |> <| f_kind := VFS_HANDLE_FILE |>
                       <| f_mode := u16 mode |> <| f_owner_pid := owner_pid |> <| position := 0 |> <| f_size := initial_size |>
                       <| capacity := initial_capacity |> <| dir_cursor := 0 |> <| f_path := vfs_copy_string VFS_PATH_MAX (default [] path) |>) s in
            let '(ok, s, e) :=
              if 0 <? initial_size then
                let '(r, bytes, e) := vfs_read_file path initial_capacity s e in
                if negb (r =? VFS_OK) then let '(s, e) := vfs_reset_open_file fd s e in (false, s, e)
                else
                  let bytes := default [] bytes in
                  (true, upd_file fd (fun f => f <| f_size := alen bytes |>) (s <| memory := write_mem buffer bytes (memory s) |>), e)
              else (true, s, e) in
            if negb ok then Some (VFS_ERR_IO, s, e)
            else
              let s := if has_flag mode VFS_OPEN_APPEND then upd_file fd (fun f => f <| position := f_size f |>) s else s in
              Some (fd, s, e)
        end.
Definition vfs_open (path : option str) (mode : Z) (s : VfsState) (e : E) : option (Z * VfsState * E) := vfs_open_for_owner path mode 0 s e.

(** The bytes that [vfs_read] copies to the caller's buffer ([present]: the pointer is not null). *)
Definition vfs_read (fd : Z) (present : bool) (buffer_size : Z) (s : VfsState) : Z * option (list Z) * VfsState :=
  match vfs_get_open_file fd s with
  | None => (VFS_ERR_INVALID_PATH, None, s)
  | Some file =>
    if negb (f_kind file =? VFS_HANDLE_FILE) || negb present then (VFS_ERR_INVALID_PATH, None, s)
    else if negb (has_flag (f_mode file) VFS_OPEN_READ) then (VFS_ERR_UNSUPPORTED, None, s)
    else
      let available := if position file <? f_size file then u32 (f_size file - position file) else 0 in
      let count := if buffer_size <? available then buffer_size else available in
      if 0 <? count then
        (VFS_OK, Some (read_mem (memory s) (f_buffer file + position file) count),
         upd_file fd (fun f => f <| position := u32 (position f + count) |>) s)
      else (VFS_OK, Some [], s)
  end.

Definition vfs_write (fd : Z) (buffer : option (list Z)) (size : Z) (s : VfsState) (e : E) : option (Z * option Z * VfsState * E) :=
  match vfs_get_open_file fd s with
  | None => Some (VFS_ERR_INVALID_PATH, None, s, e)
  | Some file =>
    if negb (f_kind file =? VFS_HANDLE_FILE) || ((0 <? size) && bool_decide (buffer = None)) then Some (VFS_ERR_INVALID_PATH, None, s, e)
    else if negb (has_flag (f_mode file) VFS_OPEN_WRITE) then Some (VFS_ERR_UNSUPPORTED, None, s, e)
    else
      let required := u32 (position file + size) in
      match vfs_ensure_open_file_capacity fd (if 0 <? required then required else 1) s e with
      | None => None
      | Some (r, s, e) =>
        if negb (r =? VFS_OK) then Some (VFS_ERR_IO, None, s, e)
        else
          let file := file_at s fd in
          let s :=
            if 0 <? size then
              let s := s <| memory := write_mem (f_buffer file + position file) (take (Z.to_nat size) (default [] buffer)) (memory s) |> in
              let s := upd_file fd (fun f => f <| position := u32 (position f + size) |>) s in
              if f_size (file_at s fd) <? position (file_at s fd) then upd_file fd (fun f => f <| f_size := position f |>) s else s
            else s in
          Some (VFS_OK, Some size, upd_file fd (fun f => f <| f_dirty := 1 |>) s, e)
      end
  end.

Definition vfs_seek (fd offset whence : Z) (s : VfsState) : Z * option Z * VfsState :=
  match vfs_get_open_file fd s with
  | None => (VFS_ERR_INVALID_PATH, None, s)
  | Some file =>
    if negb (f_kind file =? VFS_HANDLE_FILE) then (VFS_ERR_INVALID_PATH, None, s)
    else
      let base := if whence =? VFS_SEEK_SET then Some 0 else if whence =? VFS_SEEK_CUR then Some (position file)
                  else if whence =? VFS_SEEK_END then Some (f_size file) else None in
      match base with
      | None => (VFS_ERR_INVALID_PATH, None, s)
      | Some base =>
        let next := base + offset in
        if (next <? 0) || (0x7FFFFFFF <? next) then (VFS_ERR_INVALID_PATH, None, s)
        else (VFS_OK, Some (u32 next), upd_file fd (fun f => f <| position := u32 next |>) s)
      end
  end.
Definition vfs_tell (fd : Z) (present : bool) (s : VfsState) : Z * option Z :=
  match vfs_get_open_file fd s with
  | None => (VFS_ERR_INVALID_PATH, None)
  | Some file =>
    if negb (f_kind file =? VFS_HANDLE_FILE) || negb present then (VFS_ERR_INVALID_PATH, None) else (VFS_OK, Some (position file))
  end.

Definition vfs_close (fd : Z) (s : VfsState) (e : E) : Z * VfsState * E :=
  match vfs_get_open_file fd s with
  | None => (VFS_ERR_INVALID_PATH, s, e)
  | Some file =>
    if f_kind file =? VFS_HANDLE_DIR then let '(s, e) := vfs_reset_open_file fd s e in (VFS_OK, s, e)
    else
      let '(result, s, e) := if f_dirty file =? 0 then (VFS_OK, s, e)
                             else vfs_write_file (Some (f_path file)) (read_mem (memory s) (f_buffer file) (f_size file)) s e in
      if negb (result =? VFS_OK) then (result, s, e)
      else let '(s, e) := vfs_reset_open_file fd s e in (VFS_OK, s, e)
  end.

Definition vfs_opendir_for_owner (path : option str) (owner_pid : Z) (s : VfsState) (e : E) : Z * VfsState * E :=
  if alen (default [] path) =? 0 then (VFS_ERR_INVALID_PATH, s, e)
  else
    match vfs_find_mount path s with
    | None => (VFS_ERR_NOT_READY, s, e)
    | Some (i, _) =>
      let m := aget (mounts s) i in
      if (m_ops m =? 0) || negb (has_op read_dir_entry m) then (VFS_ERR_NOT_READY, s, e)
      else
        let '(r, info, e) := vfs_get_file_info path s e in
        if negb (r =? VFS_OK) || negb (info_type (default no_info info) =? VFS_NODE_DIR) then (VFS_ERR_INVALID_PATH, s, e)
        else
          let fd := vfs_alloc_open_slot s in
          if fd <? 0 then (VFS_ERR_NO_SLOT, s, e)
          else
            (fd, upd_file fd (fun f => f <| f_active := 1 |> <| f_dirty := 0 |> <| f_kind := VFS_HANDLE_DIR |> <| f_mode := 0 |>
                   <| f_owner_pid := owner_pid |> <| position := 0 |> <| f_size := 0 |> <| capacity := 0 |> <| dir_cursor := 0 |>
                   <| f_buffer := 0 |> <| f_path := vfs_copy_string VFS_PATH_MAX (default [] path) |>) s, e)
    end.
Definition vfs_opendir (path : option str) (s : VfsState) (e : E) : Z * VfsState * E := vfs_opendir_for_owner path 0 s e.

Definition vfs_readdir (fd : Z) (present : bool) (s : VfsState) (e : E) : Z * option VFSDirEntry * VfsState * E :=
  match vfs_get_open_file fd s with
  | None => (VFS_ERR_INVALID_PATH, None, s, e)
  | Some file =>
    if negb (f_kind file =? VFS_HANDLE_DIR) || negb present then (VFS_ERR_INVALID_PATH, None, s, e)
    else
      match vfs_find_mount (Some (f_path file)) s with
      | None => (VFS_ERR_UNSUPPORTED, None, s, e)
      | Some (i, relative) =>
        let m := aget (mounts s) i in
        if (m_ops m =? 0) then (VFS_ERR_UNSUPPORTED, None, s, e)
        else
          match ops_read_dir_entry m relative (dir_cursor file) s e with
          | None => (VFS_ERR_UNSUPPORTED, None, s, e)
          | Some (result, entry, e) =>
            (result, entry, if 0 <? result then upd_file fd (fun f => f <| dir_cursor := u32 (dir_cursor f + 1) |>) s else s, e)
          end
      end
  end.
Definition vfs_closedir (fd : Z) (s : VfsState) (e : E) : Z * VfsState * E := vfs_close fd s e.

Definition close_step (owner_pid fd : Z) (st : Z * VfsState * E) : Z * VfsState * E :=
  let '(count, s, e) := st in
  if (f_active (file_at s fd) =? 0) || negb (f_owner_pid (file_at s fd) =? owner_pid) then st
  else let '(_, s, e) := vfs_close fd s e in (u32 (count + 1), s, e).
Definition vfs_close_all_for_owner (owner_pid : Z) (s : VfsState) (e : E) : Z * VfsState * E :=
  for_range 0 VFS_MAX_OPEN_FILES (close_step owner_pid) (0, s, e).
Definition vfs_count_open_for_owner (owner_pid : Z) (s : VfsState) : Z :=
  for_range 0 VFS_MAX_OPEN_FILES (fun fd count =>
    if negb (f_active (file_at s fd) =? 0) && (f_owner_pid (file_at s fd) =? owner_pid) then u32 (count + 1) else count) 0.
End Operations.
