(* ===== verification/VfsSpec.v ===== *)
(** * Properties of the virtual file system

    The growth of a buffer, the choice of a mount, open files as byte sequences
    with a position, and what closing a file leaves in the memory file system. *)

From S2P Require Import Prelude MemFs MemFsTree MemFsEdit MemFsSpec Vfs.

(** ** The capacity of a buffer *)

Lemma growth_doubles required : 0 <= required <= 2 ^ 31 -> forall fuel k, 0 <= k <= 25 -> 25 - k <= Z.of_nat fuel ->
  (k = 0 \/ 2 ^ (k + 5) < required) ->
  exists j, k <= j <= 25 /\ growth_loop fuel (2 ^ (k + 6)) required = Some (2 ^ (j + 6)) /\ required <= 2 ^ (j + 6) /\ (j = 0 \/ 2 ^ (j + 5) < required).
Proof.
  intros Hr. induction fuel as [|fuel IH]; intros k Hk Hf Hlow; cbn [growth_loop].
  - assert (k = 25) as -> by lia. change (2 ^ (25 + 6)) with (2 ^ 31). rewrite (proj2 (Z.ltb_ge _ _)) by lia. exists 25. split_and!; (lia || done).
  - destruct (Z.ltb_spec (2 ^ (k + 6)) required) as [Hlt|Hge]; [|exists k; split_and!; (lia || done)].
    assert (k < 25) by (destruct (decide (k = 25)) as [->|]; [change (2 ^ (25 + 6)) with (2 ^ 31) in Hlt; lia | lia]).
    assert (2 ^ (k + 6) * 2 = 2 ^ (k + 1 + 6)) as E by (replace (k + 1 + 6) with (Z.succ (k + 6)) by lia; rewrite Z.pow_succ_r by lia; lia).
    rewrite E. assert (2 ^ (k + 1 + 6) <= 2 ^ 31) by (apply Z.pow_le_mono_r; lia).
    assert (0 < 2 ^ (k + 1 + 6)) by (apply Z.pow_pos_nonneg; lia).
    unfold u32. rewrite Z.mod_small by lia. destruct (IH (k + 1)) as (j & Hj & Hrest); [lia | lia | right; by replace (k + 1 + 5) with (k + 6) by lia|].
    exists j. split; [lia | done].
Qed.
Lemma growth_stuck required : 2 ^ 31 < required < 2 ^ 32 -> forall fuel cap,
  (cap = 0 \/ exists k, 0 <= k <= 25 /\ cap = 2 ^ (k + 6)) -> growth_loop fuel cap required = None.
Proof.
  intros Hr. induction fuel as [|fuel IH]; intros cap Hc.
  - cbn. rewrite (proj2 (Z.ltb_lt _ _)); [done|]. destruct Hc as [->|(k & Hk & ->)]; [lia|]. assert (2 ^ (k + 6) <= 2 ^ 31) by (apply Z.pow_le_mono_r; lia). lia.
  - cbn. rewrite (proj2 (Z.ltb_lt _ _)) by (destruct Hc as [->|(k & Hk & ->)]; [lia | assert (2 ^ (k + 6) <= 2 ^ 31) by (apply Z.pow_le_mono_r; lia); lia]).
    apply IH. destruct Hc as [->|(k & Hk & ->)]; [by left|]. destruct (decide (k = 25)) as [->|]; [by left|]. right. exists (k + 1). split; [lia|].
    replace (k + 1 + 6) with (Z.succ (k + 6)) by lia. rewrite Z.pow_succ_r by lia. assert (2 ^ (k + 6) <= 2 ^ 30) by (apply Z.pow_le_mono_r; lia).
    assert (0 < 2 ^ (k + 6)) by (apply Z.pow_pos_nonneg; lia). unfold u32. rewrite Z.mod_small; lia.
Qed.
Lemma growth_capacity required : 0 <= required <= 2 ^ 31 ->
  exists c, vfs_growth_capacity required = Some c /\ 64 <= c <= 2 ^ 31 /\ required <= c /\ (c = 64 \/ c < 2 * required).
Proof.
  intros Hr. destruct (growth_doubles required Hr 32 0) as (j & Hj & Hg & Hle & Hlow); [lia | lia | by left|].
  exists (2 ^ (j + 6)). split; [exact Hg|]. split.
  - split; [apply (Z.pow_le_mono_r 2 6) | apply Z.pow_le_mono_r]; lia.
  - split; [done|]. destruct Hlow as [->|Hlow]; [by left | right]. replace (j + 6) with (Z.succ (j + 5)) by lia. rewrite Z.pow_succ_r by lia. lia.
Qed.

(** C31: The loop that doubles a capacity from 64 ends exactly for requests up to
    2^31 bytes.  It then gives a capacity that holds the request and is less than
    twice as large (or 64); for every larger 32-bit request the capacity wraps to
    0 and no number of iterations ends the loop. *)
Theorem vfs_growth_ends required : 0 <= required < 2 ^ 32 ->
  ((exists fuel c, growth_loop fuel 64 required = Some c) <-> required <= 2 ^ 31) /\
  (required <= 2 ^ 31 -> exists c, vfs_growth_capacity required = Some c /\ required <= c <= 2 ^ 31 /\ (c = 64 \/ c < 2 * required)) /\
  (2 ^ 31 < required -> vfs_growth_capacity required = None).
Proof.
  intros Hr. assert (2 ^ 31 < required -> forall fuel, growth_loop fuel 64 required = None) as Hbad.
  { intros Hb fuel. apply growth_stuck; [lia|]. right. by exists 0. }
  assert (required <= 2 ^ 31 -> exists c, vfs_growth_capacity required = Some c /\ required <= c <= 2 ^ 31 /\ (c = 64 \/ c < 2 * required)) as Hok.
  { intros Hle. destruct (growth_capacity required) as (c & Hc & H1 & H2 & H3); [lia|]. exists c. split_and!; (lia || done). }
  split; [|by split; [|intros Hb; apply Hbad]]. split.
  - intros (fuel & c & Hc). destruct (decide (required <= 2 ^ 31)) as [|Hn]; [done|]. rewrite Hbad in Hc by lia. done.
  - intros (c & Hc & _)%Hok. by exists 32%nat, c.
Qed.

Lemma vfs_growth_ends_witness : vfs_growth_capacity 0x80000001 = None /\ exists c, vfs_growth_capacity 100 = Some c /\ 100 <= c.
Proof.
  split; [apply (vfs_growth_ends 0x80000001); lia|]. destruct (vfs_growth_ends 100) as (_ & Hok & _); [lia|]. destruct Hok as (c & Hc & Hle & _); [lia|].
  exists c. split; [exact Hc | lia].
Defined.

(** ** The mount of a path *)

(** The mount at [mp] covers [path], whose rest is [rel]. *)
Definition covers (mp path rel : str) : Prop :=
  if decide (mp = [SLASH]) then path = SLASH :: rel \/ (path = rel /\ head path <> Some SLASH)
  else (path = mp /\ rel = []) \/ path = mp ++ SLASH :: rel.
Definition is_mount (s : VfsState) (i : Z) : Prop := 0 <= i < VFS_MAX_MOUNTS /\ m_active (aget (mounts s) i) <> 0.

Lemma after_prefix_spec prefix : forall path rest, after_prefix prefix path = Some rest <-> path = prefix ++ rest.
Proof.
  induction prefix as [|c prefix IH]; intros path rest; cbn; [by split; [intros [= ->] | intros ->]|].
  destruct path as [|d path]; [done|]. destruct (Z.eqb_spec c d) as [->|Hcd]; [rewrite IH; split; [by intros -> | by intros [= ->]]|].
  split; [done|]. by intros [= ->].
Qed.
Lemma mount_relative_spec m path rel : mount_relative m path = Some rel <-> covers (mount_path m) path rel.
Proof.
  unfold mount_relative, covers. destruct (decide (mount_path m = [SLASH])) as [E|E].
  - rewrite (proj2 (str_eq_iff _ _) E). destruct path as [|c rest]; cbn.
    { split; [intros [= <-]; by right | intros [?|[? _]]; [done | congruence]]. }
    destruct (Z.eqb_spec c SLASH) as [->|Hc]; split.
    + intros [= ->]. by left.
    + intros [[= ->]|[_ ?]]; done.
    + intros [= <-]. right. split; [done | congruence].
    + intros [[= -> _]|[-> _]]; done.
  - destruct (vfs_str_eq (mount_path m) [SLASH]) eqn:Hs; [by apply str_eq_iff in Hs|].
    destruct (after_prefix (mount_path m) path) as [rest|] eqn:Ha.
    + apply after_prefix_spec in Ha as ->. destruct rest as [|c rest].
      * rewrite app_nil_r. split; [intros [= <-]; by left|]. intros [[_ ->]|Hx]; [done|]. apply (f_equal length) in Hx. rewrite length_app in Hx. cbn in Hx. lia.
      * destruct (Z.eqb_spec c SLASH) as [->|Hc]; split.
        -- intros [= ->]. by right.
        -- intros [[Hx _]|Hx]; [apply (f_equal length) in Hx; rewrite length_app in Hx; cbn in Hx; lia|]. apply app_inv_head in Hx. by injection Hx as ->.
        -- done.
        -- intros [[Hx _]|Hx]; [apply (f_equal length) in Hx; rewrite length_app in Hx; cbn in Hx; lia|]. apply app_inv_head in Hx. by injection Hx as ->.
    + split; [done|]. intros Hx. assert (exists rest, path = mount_path m ++ rest) as [rest Hp].
      { destruct Hx as [[-> ->]| ->]; [exists []; by rewrite app_nil_r | by eexists]. }
      apply after_prefix_spec in Hp. congruence.
Qed.

(** The best mount among the slots below [i]. *)
Definition best_below (s : VfsState) (path : str) (i : Z) (best : option (Z * Z * str)) : Prop :=
  match best with
  | None => forall j, j < i -> is_mount s j -> forall rel, ~ covers (mount_path (aget (mounts s) j)) path rel
  | Some (k, n, rel) => k < i /\ is_mount s k /\ n = alen (mount_path (aget (mounts s) k)) /\ covers (mount_path (aget (mounts s) k)) path rel /\
      forall j rel', j < i -> is_mount s j -> covers (mount_path (aget (mounts s) j)) path rel' -> alen (mount_path (aget (mounts s) j)) <= n
  end.
Lemma find_mount_step_ok s path i best : 0 <= i < VFS_MAX_MOUNTS -> best_below s path i best -> best_below s path (i + 1) (find_mount_step path s i best).
Proof.
  intros Hi Hb. unfold find_mount_step. set (m := aget (mounts s) i).
  destruct (Z.eqb_spec (m_active m) 0) as [Ha|Ha].
  { assert (~ is_mount s i) as Hni by (intros [_ ?]; done). destruct best as [[[k n] rel]|].
    - destruct Hb as (Hk & Hm & Hn & Hc & Hmax). split_and!; try done; [lia|]. intros j rel' Hj Hjm. destruct (decide (j = i)) as [->|]; [done|]. apply Hmax; [lia | done].
    - cbn in *. intros j Hj Hjm. destruct (decide (j = i)) as [->|]; [done|]. apply Hb; [lia | done]. }
  assert (is_mount s i) as Him by done. destruct (mount_relative m path) as [rel'|] eqn:Hr.
  - apply mount_relative_spec in Hr. destruct best as [[[k n] rel]|]; unfold vfs_strlen_local.
    + destruct Hb as (Hk & Hm & Hn & Hc & Hmax). destruct (Z.leb_spec n (alen (mount_path m))) as [Hle|Hlt]; cbn.
      * split_and!; try done; [lia|]. intros j rel'' Hj Hjm Hc'. destruct (decide (j = i)) as [->|]; [done|]. specialize (Hmax j rel'' ltac:(lia) Hjm Hc'). lia.
      * split_and!; try done; [lia|]. intros j rel'' Hj Hjm Hc'. destruct (decide (j = i)) as [->|]; [fold m; lia|]. by apply (Hmax j rel''); [lia|..].
    + rewrite (proj2 (Z.leb_le _ _) (alen_nonneg _)). cbn. split_and!; try done; [lia|]. intros j rel'' Hj Hjm Hc'. destruct (decide (j = i)) as [->|]; [done|].
      exfalso. apply (Hb j) with rel''; [lia | done | done].
  - assert (forall rel, ~ covers (mount_path m) path rel) as Hno by (intros rel Hc; apply mount_relative_spec in Hc; congruence).
    destruct best as [[[k n] rel]|].
    + destruct Hb as (Hk & Hm & Hn & Hc & Hmax). split_and!; try done; [lia|]. intros j rel'' Hj Hjm Hc'. destruct (decide (j = i)) as [->|]; [by apply Hno in Hc'|]. by apply (Hmax j rel''); [lia|..].
    + intros j Hj Hjm. destruct (decide (j = i)) as [->|]; [done|]. apply Hb; [lia | done].
Qed.

Lemma find_mount_spec (path : str) s : path <> [] ->
  match vfs_find_mount (Some path) s with
  | Some (i, rel) => is_mount s i /\ covers (mount_path (aget (mounts s) i)) path rel /\
      forall j rel', is_mount s j -> covers (mount_path (aget (mounts s) j)) path rel' -> alen (mount_path (aget (mounts s) j)) <= alen (mount_path (aget (mounts s) i))
  | None => forall j rel, is_mount s j -> ~ covers (mount_path (aget (mounts s) j)) path rel
  end.
Proof.
  intros Hne. unfold vfs_find_mount. destruct path as [|c rest]; [done|]. set (path := c :: rest) in *.
  pose proof (for_range_inv (best_below s path) 0 VFS_MAX_MOUNTS (find_mount_step path s) None) as Hinv.
  assert (best_below s path VFS_MAX_MOUNTS (for_range 0 VFS_MAX_MOUNTS (find_mount_step path s) None)) as Hb.
  { apply Hinv; [done | | intros i b Hi; by apply find_mount_step_ok]. intros j Hj [? _]. lia. }
  destruct (for_range 0 VFS_MAX_MOUNTS (find_mount_step path s) None) as [[[k n] rel]|].
  - destruct Hb as (_ & Hm & -> & Hc & Hmax). split_and!; [done | done |]. intros j rel' Hj. apply Hmax; [apply Hj | done].
  - intros j rel Hj. apply (Hb j); [apply Hj | done].
Qed.

Lemma covers_prefix mp rest rel : covers mp (SLASH :: rest) rel -> mp `prefix_of` SLASH :: rest.
Proof.
  unfold covers. case_decide as E; [intros _; rewrite E; by exists rest|]. intros [[<- _]|Hx]; [done | rewrite Hx; by exists (SLASH :: rel)].
Qed.
Lemma covers_fun mp path rel rel' : covers mp path rel -> covers mp path rel' -> rel = rel'.
Proof.
  set (m := inhabitant <| mount_path := mp |>). intros H1 H2. change mp with (mount_path m) in H1, H2. apply mount_relative_spec in H1, H2. congruence.
Qed.
Lemma prefix_len {A} (l k q : list A) : l `prefix_of` q -> k `prefix_of` q -> length l = length k -> l = k.
Proof. intros [x ->] [y Hy] Hlen. by apply app_inj_1 in Hy as [-> _]. Qed.

(** C30: The mount that serves an absolute path is the one with the longest
    mount path that covers it, on whole path components, and the path handed to
    its backend is what follows; the order of the slots does not matter: every
    other mount that covers the path has the same path or a shorter one.  The
    search fails only when no mount covers the path. *)
Theorem vfs_find_mount_longest s rest :
  match vfs_find_mount (Some (SLASH :: rest)) s with
  | Some (i, rel) => is_mount s i /\ covers (mount_path (aget (mounts s) i)) (SLASH :: rest) rel /\
      forall j rel', is_mount s j -> covers (mount_path (aget (mounts s) j)) (SLASH :: rest) rel' ->
        (mount_path (aget (mounts s) j) = mount_path (aget (mounts s) i) /\ rel' = rel) \/
        alen (mount_path (aget (mounts s) j)) < alen (mount_path (aget (mounts s) i))
  | None => forall j rel, is_mount s j -> ~ covers (mount_path (aget (mounts s) j)) (SLASH :: rest) rel
  end.
Proof.
  pose proof (find_mount_spec (SLASH :: rest) s ltac:(done)) as Hf. destruct (vfs_find_mount _ s) as [[i rel]|]; [|done].
  destruct Hf as (Hm & Hc & Hmax). split_and!; [done | done |]. intros j rel' Hj Hc'. specialize (Hmax j rel' Hj Hc').
  destruct (decide (alen (mount_path (aget (mounts s) j)) = alen (mount_path (aget (mounts s) i)))) as [E|]; [left | right; lia].
  assert (mount_path (aget (mounts s) j) = mount_path (aget (mounts s) i)) as Emp.
  { eapply prefix_len; [by eapply covers_prefix | by eapply covers_prefix | unfold alen in E; lia]. }
  split; [done|]. rewrite Emp in Hc'. by eapply covers_fun.
Qed.

(** ** Memory *)

Lemma length_read_mem m a n : 0 <= n -> alen (read_mem m a n) = n.
Proof. intros. unfold read_mem, alen. rewrite length_fmap, length_seqZ. lia. Qed.
Lemma read_mem_app m a n k : 0 <= n -> 0 <= k -> read_mem m a (n + k) = read_mem m a n ++ read_mem m (a + n) k.
Proof.
  intros. unfold read_mem. rewrite seqZ_app, fmap_app by done. f_equal.
  rewrite (Z.add_comm 0 n), <- (fmap_add_seqZ n 0 k), <- list_fmap_compose. apply list_fmap_ext. intros i y _. cbn. f_equal. lia.
Qed.
Lemma read_mem_ext m m' a a' n : (forall k, 0 <= k < n -> m !!! (a + k) = m' !!! (a' + k)) -> read_mem m a n = read_mem m' a' n.
Proof. intros Hx. unfold read_mem. apply list_fmap_ext. intros i y Hy. apply lookup_seqZ in Hy as [-> Hy]. apply Hx. lia. Qed.
Lemma read_mem_nil m a n : n <= 0 -> read_mem m a n = [].
Proof. intros. unfold read_mem. by rewrite seqZ_nil by lia. Qed.
Lemma take_read_mem m a n k : 0 <= k <= n -> take (Z.to_nat k) (read_mem m a n) = read_mem m a k.
Proof.
  intros. replace n with (k + (n - k)) by lia. rewrite read_mem_app by lia. pose proof (length_read_mem m a k) as Hl. unfold alen in Hl.
  rewrite take_app_le by lia. apply take_ge. lia.
Qed.
Lemma drop_read_mem m a n k : 0 <= k <= n -> drop (Z.to_nat k) (read_mem m a n) = read_mem m (a + k) (n - k).
Proof.
  intros. replace n with (k + (n - k)) at 1 by lia. rewrite read_mem_app by lia. pose proof (length_read_mem m a k) as Hl. unfold alen in Hl.
  rewrite drop_app_ge by lia. replace (Z.to_nat k - length (read_mem m a k))%nat with 0%nat by lia. done.
Qed.
Lemma read_mem_all m a l : (forall k, 0 <= k < alen l -> m !!! (a + k) = aget l k) -> read_mem m a (alen l) = l.
Proof. intros Hx. rewrite <- (aget_seq l) at 2. unfold read_mem. apply list_fmap_ext. intros i y Hy. apply lookup_seqZ in Hy as [-> Hy]. apply Hx. lia. Qed.

Lemma stores_spec (f : Z -> Z) dest n (m : gmap Z Z) x : 0 <= n ->
  for_range 0 n (fun k m => <[dest + k := f k]> m) m !!! x = if decide (dest <= x < dest + n) then f (x - dest) else m !!! x.
Proof.
  intros Hn. set (I := fun (i : Z) (m' : gmap Z Z) => m' !!! x = if decide (dest <= x < dest + i) then f (x - dest) else m !!! x).
  apply (for_range_inv I); [done | |]; unfold I.
  - by rewrite decide_False by lia.
  - intros i m' Hi IH. destruct (decide (x = dest + i)) as [->|Hx].
    + rewrite lookup_total_insert_eq, decide_True by lia. f_equal. lia.
    + rewrite lookup_total_insert_ne, IH by lia. repeat case_decide; lia || done.
Qed.
Lemma write_mem_spec a bytes m x : write_mem a bytes m !!! x = if decide (a <= x < a + alen bytes) then aget bytes (x - a) else m !!! x.
Proof. apply (stores_spec (aget bytes)), alen_nonneg. Qed.
Lemma mem_copy_spec dest src n m x : 0 <= n -> dest + n <= src \/ src + n <= dest ->
  vfs_mem_copy dest src n m !!! x = if decide (dest <= x < dest + n) then m !!! (src + (x - dest)) else m !!! x.
Proof.
  intros Hn Hd. set (I := fun (i : Z) (m' : gmap Z Z) => forall x, m' !!! x = if decide (dest <= x < dest + i) then m !!! (src + (x - dest)) else m !!! x).
  revert x. apply (for_range_inv I); [done | |]; unfold I.
  - intros y. by rewrite decide_False by lia.
  - intros i m' Hi IH y. destruct (decide (y = dest + i)) as [->|Hy].
    + rewrite lookup_total_insert_eq, IH, decide_False, decide_True by lia. f_equal. lia.
    + rewrite lookup_total_insert_ne, IH by lia. repeat case_decide; lia || done.
Qed.
