(* ===== verification/VfsFiles.v ===== *)
(** * Open files as byte sequences

    What the virtual file system needs of the heap and of the backends
    ([VfsLaws]), the invariant of the table of open files ([vfs_inv]), and the
    view of an open file as bytes with a position, on which the calls act as the
    usual file operations. *)

From S2P Require Import Prelude MemFs MemFsTree MemFsEdit MemFsSpec Vfs VfsSpec.

(** The heap hands out blocks that do not overlap; a backend leaves the blocks
    alone, reports files of at most 2^31 bytes and reads no more than asked. *)
Class VfsLaws (E : Type) `{VfsHost E} := {
  host_ok : E -> Prop;
  blocks : E -> gmap Z Z;
  quiet (e e' : E) : Prop := host_ok e' /\ blocks e' = blocks e;
  blocks_apart : forall e p n q m, host_ok e -> blocks e !! p = Some n -> blocks e !! q = Some m -> p <> q -> p + n <= q \/ q + m <= p;
  kmalloc_law : forall n e, host_ok e -> 0 < n <= 2 ^ 31 -> let '(p, e') := vfs_kmalloc n e in
    host_ok e' /\ ((p = 0 /\ blocks e' = blocks e) \/ (p <> 0 /\ blocks e !! p = None /\ blocks e' = <[p := n]> (blocks e)));
  kfree_law : forall p e, host_ok e -> is_Some (blocks e !! p) -> host_ok (vfs_kfree p e) /\ blocks (vfs_kfree p e) = delete p (blocks e);
  info_law : forall o f ctx path e, host_ok e -> get_file_info (backend_ops o) = Some f -> let '(_, info, e') := f ctx path e in
    quiet e e' /\ 0 <= info_size (default no_info info) <= 2 ^ 31;
  read_law : forall o f ctx path size e, host_ok e -> read_file (backend_ops o) = Some f -> let '(_, bytes, e') := f ctx path size e in
    quiet e e' /\ alen (default [] bytes) <= size;
  entry_law : forall o f ctx path cursor e, host_ok e -> read_dir_entry (backend_ops o) = Some f -> quiet e (f ctx path cursor e).2;
  write_law : forall o f ctx path bytes e, host_ok e -> write_file (backend_ops o) = Some f -> quiet e (f ctx path bytes e).2;
  change_law : forall o f ctx path e, host_ok e ->
    Some f ∈ [touch_file (backend_ops o); delete_file (backend_ops o); mkdir (backend_ops o); rmdir (backend_ops o)] -> quiet e (f ctx path e).2;
  rename_law : forall o f ctx path path' e, host_ok e -> rename_path (backend_ops o) = Some f -> quiet e (f ctx path path' e).2;
}.

Definition is_slot (fd : Z) : Prop := 0 <= fd < VFS_MAX_OPEN_FILES.
(** A slot that holds an open file. *)
Definition holds_file (f : VFSOpenFile) : bool := negb (f_active f =? 0) && (f_kind f =? VFS_HANDLE_FILE).
Definition file_ok (b : gmap Z Z) (f : VFSOpenFile) : Prop :=
  f_buffer f <> 0 /\ b !! f_buffer f = Some (capacity f) /\ 0 <= f_size f <= capacity f /\ 64 <= capacity f <= 2 ^ 31 /\ 0 <= position f <= 2 ^ 31.
Definition slot_ok (b : gmap Z Z) (f : VFSOpenFile) : Prop := if holds_file f then file_ok b f else f_buffer f = 0.

Record vfs_inv (b : gmap Z Z) (s : VfsState) : Prop := {
  vi_len : alen (open_files s) = VFS_MAX_OPEN_FILES;
  vi_slot : forall fd, is_slot fd -> slot_ok b (file_at s fd);
  vi_apart : forall fd fd', is_slot fd -> is_slot fd' -> fd <> fd' -> f_buffer (file_at s fd) <> 0 ->
    f_buffer (file_at s fd) <> f_buffer (file_at s fd') }.

(** ** Changing one slot *)

Lemma file_at_upd s fd f fd' : alen (open_files s) = VFS_MAX_OPEN_FILES -> is_slot fd -> is_slot fd' ->
  file_at (upd_file fd f s) fd' = if decide (fd = fd') then f (file_at s fd) else file_at s fd'.
Proof. intros Hl Hf Hf'. apply (aget_aset (open_files s)); [by rewrite Hl | apply Hf']. Qed.
Lemma files_len_upd s fd f : alen (open_files (upd_file fd f s)) = alen (open_files s).
Proof. apply (alen_aset (open_files s)). Qed.

(** Every slot but [fd] and its buffer is as before. *)
Definition one_slot (s s' : VfsState) (fd : Z) (f : VFSOpenFile) : Prop :=
  alen (open_files s') = alen (open_files s) /\ forall k, is_slot k -> file_at s' k = if decide (fd = k) then f else file_at s k.
Lemma one_slot_upd s s' fd f g : alen (open_files s) = VFS_MAX_OPEN_FILES -> is_slot fd -> one_slot s s' fd f -> one_slot s (upd_file fd g s') fd (g f).
Proof.
  intros Hl Hfd [Hl' Ha]. split; [by rewrite files_len_upd|]. intros k Hk. rewrite file_at_upd by (done || congruence).
  case_decide as E; [subst k|]; rewrite (Ha _ ltac:(done)); [by rewrite decide_True | by rewrite decide_False].
Qed.
Lemma one_slot_refl s fd : is_slot fd -> one_slot s s fd (file_at s fd).
Proof. intros Hfd. split; [done|]. intros k Hk. by case_decide; subst. Qed.
Lemma one_slot_memory s s' fd f m : one_slot s s' fd f -> one_slot s (s' <| memory := m |>) fd f.
Proof. done. Qed.
Lemma one_slot_memfs s s' fd f m : one_slot s s' fd f -> one_slot s (s' <| memfs := m |>) fd f.
Proof. done. Qed.

Lemma slot_ok_ext b b' f : (f_buffer f <> 0 -> b' !! f_buffer f = b !! f_buffer f) -> slot_ok b f -> slot_ok b' f.
Proof. unfold slot_ok, file_ok. intros Hx. destruct (holds_file f); [|done]. intros (H1 & H2 & ?). split; [done|]. by rewrite Hx. Qed.
Lemma slot_live b f : slot_ok b f -> f_buffer f <> 0 -> file_ok b f.
Proof. unfold slot_ok. by destruct (holds_file f). Qed.

Lemma inv_slot b b' s s' fd f : vfs_inv b s -> is_slot fd -> one_slot s s' fd f -> slot_ok b' f ->
  (forall p n, b !! p = Some n -> p <> f_buffer (file_at s fd) -> b' !! p = Some n) ->
  (f_buffer f = 0 \/ f_buffer f = f_buffer (file_at s fd) \/ b !! f_buffer f = None) -> vfs_inv b' s'.
Proof.
  intros Hv Hfd [Hl Ha] Hf Hb Hnew.
  assert (forall k, is_slot k -> k <> fd -> f_buffer (file_at s k) <> 0 -> f_buffer (file_at s k) <> f_buffer (file_at s fd) /\ is_Some (b !! f_buffer (file_at s k))) as Hother.
  { intros k Hk Hne H0. split; [by apply (vi_apart _ _ Hv)|]. destruct (slot_live _ _ (vi_slot _ _ Hv k Hk) H0) as (_ & Hx & _). by eexists. }
  assert (forall k, is_slot k -> k <> fd -> f_buffer (file_at s k) <> 0 -> f_buffer (file_at s k) <> f_buffer f) as Hdiff.
  { intros k Hk Hne H0. destruct (Hother k Hk Hne H0) as [H1 [n Hn]]. destruct Hnew as [E|[E|E]]; [by rewrite E | by rewrite E | congruence]. }
  split.
  - rewrite Hl. apply Hv.
  - intros k Hk. rewrite (Ha k Hk). case_decide as E; [done|]. eapply slot_ok_ext; [|by apply (vi_slot _ _ Hv)]. intros H0.
    destruct (Hother k Hk) as [Hne [n Hn]]; [congruence | done |]. rewrite Hn. by apply Hb.
  - intros k k' Hk Hk' Hne. rewrite (Ha k Hk), (Ha k' Hk'). repeat case_decide; subst; intros Hz.
    + done.
    + destruct (decide (f_buffer (file_at s k') = 0)) as [E|E]; [congruence|]. intros E'. by apply (Hdiff k'); [done | congruence | done | congruence].
    + apply Hdiff; [done | congruence | done].
    + by apply (vi_apart _ _ Hv).
Qed.

(** ** Files as byte sequences *)

Record AFile := { a_bytes : list Z; a_pos : Z; a_mode : Z }.
Definition view_of (m : gmap Z Z) (f : VFSOpenFile) : option AFile :=
  if holds_file f then Some {| a_bytes := read_mem m (f_buffer f) (f_size f); a_pos := position f; a_mode := f_mode f |} else None.
Definition file_view (s : VfsState) (fd : Z) : option AFile := view_of (memory s) (file_at s fd).
Definition keeps_others (s s' : VfsState) (fd : Z) : Prop := forall k, is_slot k -> k <> fd -> file_view s' k = file_view s k.

Inductive file_op := FRead (n : Z) | FWrite (data : list Z) | FSeek (offset whence : Z) | FTell.
Inductive file_res := RBytes (code : Z) (bytes : option (list Z)) | RNum (code : Z) (n : option Z).

(** The usual file operations.  A write past the end leaves a gap of bytes that
    the file system does not determine; [refused]: the heap has no memory. *)
Definition seek_base (a : AFile) (whence : Z) : option Z :=
  if whence =? VFS_SEEK_SET then Some 0 else if whence =? VFS_SEEK_CUR then Some (a_pos a)
  else if whence =? VFS_SEEK_END then Some (alen (a_bytes a)) else None.
Definition written (a a' : AFile) (data : list Z) : Prop :=
  a_mode a' = a_mode a /\
  match data with
  | [] => a' = a
  | _ => a_pos a' = a_pos a + alen data /\ exists gap, alen gap = Z.max 0 (a_pos a - alen (a_bytes a)) /\
           a_bytes a' = take (Z.to_nat (a_pos a)) (a_bytes a ++ gap) ++ data ++ drop (Z.to_nat (a_pos a + alen data)) (a_bytes a)
  end.
Definition file_step (refused : Prop) (o : file_op) (a : AFile) (r : file_res) (a' : AFile) : Prop :=
  match o with
  | FRead n =>
    let bytes := take (Z.to_nat n) (drop (Z.to_nat (a_pos a)) (a_bytes a)) in
    if has_flag (a_mode a) VFS_OPEN_READ
    then r = RBytes VFS_OK (Some bytes) /\ a' = {| a_bytes := a_bytes a; a_pos := a_pos a + alen bytes; a_mode := a_mode a |}
    else r = RBytes VFS_ERR_UNSUPPORTED None /\ a' = a
  | FWrite data =>
    if has_flag (a_mode a) VFS_OPEN_WRITE
    then (r = RNum VFS_OK (Some (alen data)) /\ written a a' data) \/ (r = RNum VFS_ERR_IO None /\ a' = a /\ refused)
    else r = RNum VFS_ERR_UNSUPPORTED None /\ a' = a
  | FSeek offset whence =>
    match seek_base a whence with
    | None => r = RNum VFS_ERR_INVALID_PATH None /\ a' = a
    | Some base =>
      if decide (0 <= base + offset < 2 ^ 31)
      then r = RNum VFS_OK (Some (base + offset)) /\ a' = {| a_bytes := a_bytes a; a_pos := base + offset; a_mode := a_mode a |}
      else r = RNum VFS_ERR_INVALID_PATH None /\ a' = a
    end
  | FTell => r = RNum VFS_OK (Some (a_pos a)) /\ a' = a
  end.

Section Files.
Context {E : Type} `{VL : VfsLaws E}.
Implicit Types (s : VfsState) (e : E).

Definition vfs_safe (e : E) (s : VfsState) : Prop := host_ok e /\ vfs_inv (blocks e) s.

Definition run_file_op (fd : Z) (o : file_op) (s : VfsState) (e : E) : option (file_res * VfsState * E) :=
  match o with
  | FRead n => let '(r, bytes, s) := vfs_read fd true n s in Some (RBytes r bytes, s, e)
  | FWrite data => match vfs_write fd (Some data) (alen data) s e with Some (r, n, s, e) => Some (RNum r n, s, e) | None => None end
  | FSeek offset whence => let '(r, n, s) := vfs_seek fd offset whence s in Some (RNum r n, s, e)
  | FTell => let '(r, n) := vfs_tell fd true s in Some (RNum r n, s, e)
  end.

Lemma get_file fd s : is_slot fd -> holds_file (file_at s fd) = true -> vfs_get_open_file fd s = Some (file_at s fd) /\ (f_kind (file_at s fd) =? VFS_HANDLE_FILE) = true.
Proof.
  intros [H1 H2] Hf. unfold vfs_get_open_file. rewrite (proj2 (Z.ltb_ge _ _) H1), (proj2 (Z.leb_gt _ _) H2). cbn.
  apply andb_true_iff in Hf as [Ha Hk]. apply negb_true_iff in Ha. by rewrite Ha.
Qed.
Lemma inv_file b fd s : vfs_inv b s -> is_slot fd -> holds_file (file_at s fd) = true -> file_ok b (file_at s fd).
Proof. intros Hv Hfd Hf. pose proof (vi_slot _ _ Hv fd Hfd) as Hs. unfold slot_ok in Hs. by rewrite Hf in Hs. Qed.

(** Memory outside [p .. p + n) is as before. *)
Definition only_in (p n : Z) (m m' : gmap Z Z) : Prop := forall x, ~ (p <= x < p + n) -> m' !!! x = m !!! x.

Lemma others_kept b s s' fd f p n e1 : vfs_inv b s -> one_slot s s' fd f -> only_in p n (memory s) (memory s') -> host_ok e1 -> blocks e1 !! p = Some n ->
  (forall k, is_slot k -> k <> fd -> holds_file (file_at s k) = true -> blocks e1 !! f_buffer (file_at s k) = Some (capacity (file_at s k)) /\ f_buffer (file_at s k) <> p) ->
  keeps_others s s' fd.
Proof.
  intros Hv [_ Ha] Hm Hok Hp Ho k Hk Hne. unfold file_view. rewrite (Ha k Hk), decide_False by congruence. unfold view_of.
  destruct (holds_file (file_at s k)) eqn:Hf; [|done]. destruct (Ho k Hk Hne Hf) as [Hb Hnp]. destruct (inv_file b k s Hv Hk Hf) as (_ & _ & Hsz & _).
  do 2 f_equal. apply read_mem_ext. intros i Hi. apply Hm. destruct (blocks_apart e1 _ _ _ _ Hok Hb Hp Hnp); lia.
Qed.
(** The live blocks of the other files. *)
Lemma other_blocks b s fd : vfs_inv b s -> is_slot fd -> holds_file (file_at s fd) = true -> forall k, is_slot k -> k <> fd -> holds_file (file_at s k) = true ->
  b !! f_buffer (file_at s k) = Some (capacity (file_at s k)) /\ f_buffer (file_at s k) <> f_buffer (file_at s fd).
Proof.
  intros Hv Hfd Hf k Hk Hne Hfk. destruct (inv_file b k s Hv Hk Hfk) as (H0 & Hb & _). split; [done|]. by apply (vi_apart _ _ Hv).
Qed.
Lemma one_slot_at s s' fd f : is_slot fd -> one_slot s s' fd f -> file_at s' fd = f.
Proof. intros Hfd [_ Ha]. by rewrite (Ha fd Hfd), decide_True. Qed.

(** A change of the position, the size or the flags. *)
Lemma inv_update b s fd g : vfs_inv b s -> is_slot fd -> slot_ok b (g (file_at s fd)) -> f_buffer (g (file_at s fd)) = f_buffer (file_at s fd) ->
  vfs_inv b (upd_file fd g s) /\ keeps_others s (upd_file fd g s) fd /\ file_at (upd_file fd g s) fd = g (file_at s fd).
Proof.
  intros Hv Hfd Hg Hb. pose proof (one_slot_upd s s fd _ g (vi_len _ _ Hv) Hfd (one_slot_refl s fd Hfd)) as Ho. split_and!.
  - apply (inv_slot b b s _ fd (g (file_at s fd))); auto.
  - intros k Hk Hne. unfold file_view. destruct Ho as [_ Ha]. rewrite (Ha k Hk), decide_False by congruence. done.
  - by eapply one_slot_at.
Qed.

(** ** The calls on an open file *)

Definition refused_by (e : E) : Prop := exists c, (vfs_kmalloc c e).1 = 0.

Lemma read_ok s e fd n : vfs_safe e s -> is_slot fd -> holds_file (file_at s fd) = true -> 0 <= n < 2 ^ 32 ->
  let '(r, bytes, s') := vfs_read fd true n s in
  vfs_safe e s' /\ keeps_others s s' fd /\
  exists a a', file_view s fd = Some a /\ file_view s' fd = Some a' /\ file_step (refused_by e) (FRead n) a (RBytes r bytes) a'.
Proof using All.
  intros [Hok Hv] Hfd Hf Hn. destruct (get_file fd s Hfd Hf) as [Hg Hk]. destruct (inv_file _ _ _ Hv Hfd Hf) as (Hb0 & Hb & Hsz & Hcap & Hpos).
  unfold vfs_read. rewrite Hg, Hk. cbn [negb orb]. set (f := file_at s fd) in *.
  assert (file_view s fd = Some {| a_bytes := read_mem (memory s) (f_buffer f) (f_size f); a_pos := position f; a_mode := f_mode f |}) as Hvw
    by (unfold file_view, view_of; fold f; by rewrite Hf).
  destruct (has_flag (f_mode f) VFS_OPEN_READ) eqn:Hr; cbn [negb].
  2: { do 2 (split; [done|]). do 2 eexists. split; [exact Hvw|]. split; [exact Hvw|]. cbn. by rewrite Hr. }
  cbv zeta. set (count := if n <? _ then _ else _).
  assert (count = Z.min n (Z.max 0 (f_size f - position f))) as Hc.
  { unfold count, u32. destruct (Z.ltb_spec (position f) (f_size f)) as [Hlt|Hge]; [rewrite Z.mod_small by lia|]; case_match; lia. }
  assert (take (Z.to_nat n) (drop (Z.to_nat (position f)) (read_mem (memory s) (f_buffer f) (f_size f))) = read_mem (memory s) (f_buffer f + position f) count) as Hbytes.
  { destruct (decide (position f <= f_size f)) as [Hle|Hgt].
    - rewrite drop_read_mem by lia. destruct (decide (n <= f_size f - position f)); [rewrite take_read_mem by lia; f_equal; lia|].
      rewrite take_ge; [f_equal; lia|]. pose proof (length_read_mem (memory s) (f_buffer f + position f) (f_size f - position f)) as Hl. unfold alen in Hl. lia.
    - rewrite drop_ge, take_nil; [by rewrite read_mem_nil by lia|]. pose proof (length_read_mem (memory s) (f_buffer f) (f_size f)) as Hl. unfold alen in Hl. lia. }
  destruct (Z.ltb_spec 0 count) as [Hpos'|Hz].
  - assert (u32 (position f + count) = position f + count) as Hu by (unfold u32; apply Z.mod_small; lia).
    destruct (inv_update (blocks e) s fd (fun f => f <| position := u32 (position f + count) |>) Hv Hfd) as (Hv' & Ho & Ha); [|done|].
    { unfold slot_ok. change (holds_file _) with (holds_file f). rewrite Hf. unfold file_ok. cbn. fold f. rewrite Hu. split_and!; try done; lia. }
    do 2 (split; [done|]). do 2 eexists. split; [exact Hvw|]. split.
    { unfold file_view, view_of. rewrite Ha. change (holds_file _) with (holds_file f). rewrite Hf. reflexivity. }
    cbn. rewrite Hr, Hbytes, length_read_mem by lia. fold f. by rewrite Hu.
  - do 2 (split; [done|]). do 2 eexists. split; [exact Hvw|]. split; [exact Hvw|]. cbn. rewrite Hr, Hbytes, read_mem_nil by lia.
    split; [done|]. unfold alen. cbn. by rewrite Z.add_0_r.
Qed.

Lemma seek_ok s e fd offset whence : vfs_safe e s -> is_slot fd -> holds_file (file_at s fd) = true ->
  let '(r, n, s') := vfs_seek fd offset whence s in
  vfs_safe e s' /\ keeps_others s s' fd /\
  exists a a', file_view s fd = Some a /\ file_view s' fd = Some a' /\ file_step (refused_by e) (FSeek offset whence) a (RNum r n) a'.
Proof using All.
  intros [Hok Hv] Hfd Hf. destruct (get_file fd s Hfd Hf) as [Hg Hk]. destruct (inv_file _ _ _ Hv Hfd Hf) as (Hb0 & Hb & Hsz & Hcap & Hpos).
  unfold vfs_seek. rewrite Hg, Hk. cbn [negb]. set (f := file_at s fd) in *. set (a := {| a_bytes := read_mem (memory s) (f_buffer f) (f_size f); a_pos := position f; a_mode := f_mode f |}).
  assert (file_view s fd = Some a) as Hvw by (unfold file_view, view_of; fold f; by rewrite Hf).
  assert ((if whence =? VFS_SEEK_SET then Some 0 else if whence =? VFS_SEEK_CUR then Some (position f) else if whence =? VFS_SEEK_END then Some (f_size f) else None) = seek_base a whence) as ->.
  { unfold seek_base, a. cbn [a_pos a_bytes]. by rewrite length_read_mem by lia. }
  cbv zeta. cbn [file_step]. destruct (seek_base a whence) as [base|] eqn:Hbase.
  2: { split; [done|]. split; [done|]. exists a, a. split_and!; try done. by rewrite Hbase. }
  destruct (Z.ltb_spec (base + offset) 0); [|destruct (Z.ltb_spec 0x7FFFFFFF (base + offset))]; cbn [orb].
  1, 2: split; [done|]; split; [done|]; exists a, a; split_and!; try done; rewrite Hbase, decide_False by lia; done.
  assert (u32 (base + offset) = base + offset) as Hu by (unfold u32; apply Z.mod_small; lia). rewrite Hu.
  destruct (inv_update (blocks e) s fd (fun f => f <| position := base + offset |>) Hv Hfd) as (Hv' & Ho & Ha); [|done|].
  { unfold slot_ok. change (holds_file _) with (holds_file f). rewrite Hf. unfold file_ok. cbn. fold f. split_and!; try done; lia. }
  split; [done|]. split; [done|]. exists a. eexists. split; [done|]. split.
  { unfold file_view, view_of. rewrite Ha. change (holds_file _) with (holds_file f). rewrite Hf. reflexivity. }
  rewrite Hbase, decide_True by lia. done.
Qed.

Lemma same_buffer (f : VFSOpenFile) : f = f <| f_buffer := f_buffer f |> <| capacity := capacity f |>.
Proof using. by destruct f. Qed.
(** A larger buffer holds the same bytes. *)
Lemma ensure_ok s e fd required : vfs_safe e s -> is_slot fd -> holds_file (file_at s fd) = true -> 0 <= required <= 2 ^ 31 ->
  exists r s' e', vfs_ensure_open_file_capacity fd required s e = Some (r, s', e') /\
    ((r = VFS_ERR_IO /\ s' = s /\ quiet e e' /\ refused_by e) \/
     (r = VFS_OK /\ vfs_safe e' s' /\ keeps_others s s' fd /\ required <= capacity (file_at s' fd) /\ memfs s' = memfs s /\ mounts s' = mounts s /\
      (exists b c, file_at s' fd = (file_at s fd) <| f_buffer := b |> <| capacity := c |>) /\
      read_mem (memory s') (f_buffer (file_at s' fd)) (f_size (file_at s fd)) = read_mem (memory s) (f_buffer (file_at s fd)) (f_size (file_at s fd)))).
Proof using All.
  intros [Hok Hv] Hfd Hf Hr. destruct (inv_file _ _ _ Hv Hfd Hf) as (Hb0 & Hb & Hsz & Hcap & Hpos). unfold vfs_ensure_open_file_capacity. set (f := file_at s fd) in *.
  destruct (Z.leb_spec required (capacity f)) as [Hle|Hgt].
  { do 3 eexists. split; [reflexivity|]. right. split_and!; try done. exists (f_buffer f), (capacity f). apply same_buffer. }
  destruct (growth_capacity required Hr) as (c & -> & Hc & Hrc & _). destruct (vfs_kmalloc c e) as [q e1] eqn:Hk.
  pose proof (kmalloc_law c e Hok ltac:(lia)) as Hm. rewrite Hk in Hm. destruct Hm as [Hok1 [[-> Hbl]|(Hq0 & Hq & Hbl)]].
  { rewrite Z.eqb_refl. do 3 eexists. split; [reflexivity|]. left. split_and!; try done. exists c. by rewrite Hk. }
  rewrite (proj2 (Z.eqb_neq _ _) Hq0), (proj2 (Z.eqb_neq _ _) Hb0). cbn [negb andb].
  assert (q <> f_buffer f) as Hqf by congruence. assert (blocks e1 !! q = Some c) as Hq1 by (rewrite Hbl; by rewrite lookup_insert_eq).
  assert (blocks e1 !! f_buffer f = Some (capacity f)) as Hb1 by (rewrite Hbl, lookup_insert_ne by done; done).
  assert (q + c <= f_buffer f \/ f_buffer f + capacity f <= q) as Hap by (by apply (blocks_apart e1)).
  set (g := fun f0 : VFSOpenFile => f0 <| f_buffer := q |> <| capacity := c |>).
  set (s1e2 := if 0 <? f_size f then _ else _). assert (exists s1 e2, s1e2 = (s1, e2) /\ host_ok e2 /\ open_files s1 = open_files s /\ memfs s1 = memfs s /\ mounts s1 = mounts s /\
     blocks e2 !! q = Some c /\ (forall p n, blocks e !! p = Some n -> p <> f_buffer f -> blocks e2 !! p = Some n) /\ only_in q c (memory s) (memory s1) /\
     read_mem (memory s1) q (f_size f) = read_mem (memory s) (f_buffer f) (f_size f)) as (s1 & e2 & -> & Hok2 & Hof & Hmf & Hmt & Hq2 & Hkeep & Honly & Hread).
  { unfold s1e2. destruct (Z.ltb_spec 0 (f_size f)) as [Hp|Hz].
    - destruct (kfree_law (f_buffer f) e1 Hok1 ltac:(by eexists)) as [Hok2 Hfree]. do 2 eexists. split; [reflexivity|]. do 4 (split; [done|]). rewrite Hfree. split; [by rewrite lookup_delete_ne by done|]. split.
      { intros p n Hpn Hne. rewrite lookup_delete_ne, Hbl by congruence. by rewrite lookup_insert_ne by congruence. }
      cbn. split.
      + intros x Hx. rewrite mem_copy_spec, decide_False by lia. done.
      + apply read_mem_ext. intros i Hi. rewrite mem_copy_spec, decide_True by lia. f_equal. lia.
    - do 2 eexists. split; [reflexivity|]. do 5 (split; [done|]). split; [|by split; [|rewrite !read_mem_nil by lia]].
      intros p n Hpn Hne. rewrite Hbl. by rewrite lookup_insert_ne by congruence. }
  assert (one_slot s (upd_file fd g s1) fd (g f)) as Ho.
  { apply one_slot_upd; [apply Hv | done |]. unfold one_slot, file_at. rewrite Hof. by apply one_slot_refl. }
  do 3 eexists. split; [reflexivity|]. right. rewrite (one_slot_at _ _ _ _ Hfd Ho). split; [done|]. split_and!; try done.
  - split; [done|]. apply (inv_slot (blocks e) _ s _ fd (g f)); auto. unfold slot_ok. change (holds_file (g f)) with (holds_file f). rewrite Hf. unfold file_ok. cbn. split_and!; try done; lia.
  - apply (others_kept (blocks e) s _ fd (g f) q c e1); try done. intros k Hk' Hne Hfk. destruct (other_blocks _ s fd Hv Hfd Hf k Hk' Hne Hfk) as [Hbk Hnk].
    split; [rewrite Hbl; by rewrite lookup_insert_ne by congruence | congruence].
  - by exists q, c.
Qed.

(** What a write leaves in memory. *)
Lemma splice_ok m p size pos data : 0 <= size -> 0 <= pos -> data <> [] ->
  let bytes := read_mem m p size in let m' := write_mem (p + pos) data m in
  exists gap, alen gap = Z.max 0 (pos - alen bytes) /\
    read_mem m' p (Z.max size (pos + alen data)) = take (Z.to_nat pos) (bytes ++ gap) ++ data ++ drop (Z.to_nat (pos + alen data)) bytes.
Proof using.
  intros Hs Hp Hd bytes m'. exists (read_mem m (p + size) (pos - size)). unfold bytes. rewrite (length_read_mem m p size) by done.
  pose proof (alen_nonneg data) as Hn. assert (alen (read_mem m (p + size) (pos - size)) = Z.max 0 (pos - size)) as Hl.
  { destruct (decide (0 <= pos - size)); [rewrite length_read_mem; lia | rewrite read_mem_nil by lia; unfold alen; cbn; lia]. }
  split; [done|]. assert (read_mem m p size ++ read_mem m (p + size) (pos - size) = read_mem m p (Z.max size pos)) as ->.
  { destruct (decide (0 <= pos - size)); [rewrite <- read_mem_app by lia | rewrite (read_mem_nil m (p + size)), app_nil_r by lia]; f_equal; lia. }
  rewrite take_read_mem by lia.
  replace (Z.max size (pos + alen data)) with (pos + (alen data + Z.max 0 (size - (pos + alen data)))) by lia. rewrite read_mem_app, read_mem_app by lia.
  f_equal; [|f_equal].
  - apply read_mem_ext. intros k Hk. unfold m'. rewrite write_mem_spec, decide_False by lia. done.
  - apply read_mem_all. intros k Hk. unfold m'. rewrite write_mem_spec, decide_True by lia. f_equal. lia.
  - destruct (decide (pos + alen data <= size)) as [Hle|Hgt].
    + rewrite drop_read_mem by lia. replace (Z.max 0 (size - (pos + alen data))) with (size - (pos + alen data)) by lia.
      rewrite <- Z.add_assoc. apply read_mem_ext. intros k Hk. unfold m'. rewrite write_mem_spec, decide_False by lia. done.
    + rewrite read_mem_nil by lia. rewrite drop_ge; [done|]. pose proof (length_read_mem m p size Hs) as Hz. unfold alen in Hz |- *. unfold alen in Hgt. lia.
Qed.

(** The state after the bytes are stored. *)
Definition stored_state (fd size : Z) (bytes : list Z) (s : VfsState) : VfsState :=
  let s := if 0 <? size then
      let file := file_at s fd in
      let s := s <| memory := write_mem (f_buffer file + position file) bytes (memory s) |> in
      let s := upd_file fd (fun f => f <| position := u32 (position f + size) |>) s in
      if f_size (file_at s fd) <? position (file_at s fd) then upd_file fd (fun f => f <| f_size := position f |>) s else s
    else s in
  upd_file fd (fun f => f <| f_dirty := 1 |>) s.

Lemma stored_ok s e fd data : vfs_safe e s -> is_slot fd -> holds_file (file_at s fd) = true -> position (file_at s fd) + alen data <= capacity (file_at s fd) ->
  let s' := stored_state fd (alen data) data s in
  vfs_safe e s' /\ keeps_others s s' fd /\
  exists a a', file_view s fd = Some a /\ file_view s' fd = Some a' /\ written a a' data.
Proof using All.
  intros [Hok Hv] Hfd Hf Hfit. destruct (inv_file _ _ _ Hv Hfd Hf) as (Hb0 & Hb & Hsz & Hcap & Hpos). pose proof (alen_nonneg data) as Hn. cbv zeta. unfold stored_state.
  set (f := file_at s fd) in *. set (a := {| a_bytes := read_mem (memory s) (f_buffer f) (f_size f); a_pos := position f; a_mode := f_mode f |}).
  assert (file_view s fd = Some a) as Hvw by (unfold file_view, view_of; fold f; by rewrite Hf).
  destruct (Z.ltb_spec 0 (alen data)) as [Hpos'|Hz].
  2: { assert (data = []) as -> by (destruct data; [done | unfold alen in Hz; cbn in Hz; lia]).
       destruct (inv_update (blocks e) s fd (fun f => f <| f_dirty := 1 |>) Hv Hfd) as (Hv' & Ho & Ha); [|done|].
       { unfold slot_ok. change (holds_file _) with (holds_file f). by rewrite Hf. }
       split; [done|]. split; [done|]. exists a, a. split_and!; try done. unfold file_view, view_of. rewrite Ha. change (holds_file _) with (holds_file f). by rewrite Hf. }
  set (m' := write_mem _ data (memory s)). set (s2 := upd_file fd _ (s <| memory := m' |>)).
  assert (one_slot s s2 fd (f <| position := position f + alen data |>)) as Ho2.
  { replace (f <| position := position f + alen data |>) with (f <| position := u32 (position f + alen data) |>) by (unfold u32; by rewrite Z.mod_small by lia).
    apply (one_slot_upd s (s <| memory := m' |>) fd f (fun f => f <| position := u32 (position f + alen data) |>)); [apply Hv | done |]. apply one_slot_memory. by apply one_slot_refl. }
  rewrite (one_slot_at _ _ _ _ Hfd Ho2). cbn [f_size position set_field].
  set (f' := f <| position := position f + alen data |> <| f_size := Z.max (f_size f) (position f + alen data) |> <| f_dirty := 1 |>).
  set (s3 := if _ <? _ then _ else _). assert (one_slot s (upd_file fd (fun f => f <| f_dirty := 1 |>) s3) fd f' /\ memory s3 = m') as [Ho Hm].
  { assert (s3 = if f_size f <? position f + alen data then upd_file fd (fun f => f <| f_size := position f |>) s2 else s2) as -> by done.
    unfold f'. destruct (Z.ltb_spec (f_size f) (position f + alen data)) as [Hlt|Hge].
    - rewrite (Z.max_r (f_size f)) by lia. split; [|done].
      apply (one_slot_upd s _ fd (f <| position := position f + alen data |> <| f_size := position f + alen data |>)); [apply Hv | done |].
      pose proof (one_slot_upd s s2 fd (f <| position := position f + alen data |>) (fun f => f <| f_size := position f |>) (vi_len _ _ Hv) Hfd Ho2) as Hx.
      assert (position (f <| position := position f + alen data |>) = position f + alen data) as Hy by done. cbv beta in Hx. rewrite Hy in Hx. exact Hx.
    - rewrite (Z.max_l (f_size f)) by lia. split; [|done].
      replace (f <| position := position f + alen data |> <| f_size := f_size f |>) with (f <| position := position f + alen data |>) by (clear; by destruct f).
      by apply (one_slot_upd s s2 fd (f <| position := position f + alen data |>) (fun f => f <| f_dirty := 1 |>)); [apply Hv|..]. }
  clearbody s3. set (s' := upd_file fd _ s3) in *. assert (memory s' = m') as Hms by done.
  assert (holds_file f' = true) as Hf' by (change (holds_file f') with (holds_file f); done). split_and!.
  - split; [done|]. apply (inv_slot (blocks e) _ s _ fd f'); auto. unfold slot_ok. rewrite Hf'. unfold file_ok, f'. cbn. split_and!; try done; lia.
  - apply (others_kept (blocks e) s _ fd f' (f_buffer f) (capacity f) e); try done; [|by apply other_blocks].
    intros x Hx. rewrite Hms. unfold m'. rewrite write_mem_spec, decide_False by (fold f; lia). done.
  - exists a. eexists. split; [done|]. split; [unfold file_view, view_of; rewrite (one_slot_at _ _ _ _ Hfd Ho), Hf'; reflexivity|]. rewrite Hms.
    assert (data <> []) as Hd by (intros ->; unfold alen in Hpos'; cbn in Hpos'; lia). split; [done|]. rewrite (match_cons data) by done. split; [done|].
    apply (splice_ok (memory s) (f_buffer f) (f_size f) (position f) data); [lia | lia | done].
Qed.

Lemma write_ok s e fd data : vfs_safe e s -> is_slot fd -> holds_file (file_at s fd) = true -> position (file_at s fd) + alen data <= 2 ^ 31 ->
  exists r n s' e', vfs_write fd (Some data) (alen data) s e = Some (r, n, s', e') /\ vfs_safe e' s' /\ keeps_others s s' fd /\
  exists a a', file_view s fd = Some a /\ file_view s' fd = Some a' /\ file_step (refused_by e) (FWrite data) a (RNum r n) a'.
Proof using All.
  intros [Hok Hv] Hfd Hf Hfit. destruct (get_file fd s Hfd Hf) as [Hg Hk]. destruct (inv_file _ _ _ Hv Hfd Hf) as (Hb0 & Hb & Hsz & Hcap & Hpos). pose proof (alen_nonneg data) as Hn.
  assert (file_view s fd = Some {| a_bytes := read_mem (memory s) (f_buffer (file_at s fd)) (f_size (file_at s fd)); a_pos := position (file_at s fd); a_mode := f_mode (file_at s fd) |})
    as Hvw by (unfold file_view, view_of; by rewrite Hf).
  unfold vfs_write. rewrite Hg, Hk. rewrite (bool_decide_eq_false_2 (Some data = None)), andb_false_r by done. cbn [negb orb].
  destruct (has_flag (f_mode (file_at s fd)) VFS_OPEN_WRITE) eqn:Hw; cbn [negb].
  2: { do 4 eexists. split; [reflexivity|]. do 2 (split; [done|]). do 2 eexists. split; [exact Hvw|]. split; [exact Hvw|]. cbn. by rewrite Hw. }
  assert (u32 (position (file_at s fd) + alen data) = position (file_at s fd) + alen data) as -> by (unfold u32; apply Z.mod_small; lia). cbv zeta.
  set (required := if 0 <? _ then _ else 1). assert (1 <= required <= 2 ^ 31 /\ position (file_at s fd) + alen data <= required) as [Hreq Hle].
  { unfold required. destruct (Z.ltb_spec 0 (position (file_at s fd) + alen data)); lia. }
  destruct (ensure_ok s e fd required (conj Hok Hv) Hfd Hf ltac:(lia)) as (r & s1 & e1 & -> & [(-> & -> & [Hok1 Hbl] & Href)|(-> & Hv1 & Ho1 & Hcap1 & _ & _ & (b & c & Hf1) & Hread)]).
  { cbn. do 4 eexists. split; [reflexivity|]. split; [split; [done | by rewrite Hbl]|]. split; [done|]. do 2 eexists. split; [exact Hvw|]. split; [exact Hvw|]. cbn. rewrite Hw. by right. }
  change (negb (VFS_OK =? VFS_OK)) with false. cbv iota. do 4 eexists. split; [reflexivity|]. cbn [default]. rewrite (take_ge data) by (unfold alen; lia).
  fold (stored_state fd (alen data) data s1).
  assert (holds_file (file_at s1 fd) = true) as Hh1 by (rewrite Hf1; exact Hf). assert (position (file_at s1 fd) = position (file_at s fd)) as Hp1 by (by rewrite Hf1).
  destruct (stored_ok s1 e1 fd data Hv1 Hfd Hh1) as (Hv2 & Ho2 & a & a' & Ha & Ha' & Hwr); [lia|].
  split; [done|]. split; [intros k Hk1 Hk2; rewrite (Ho2 k Hk1 Hk2); by apply Ho1|]. exists a, a'.
  assert (file_view s fd = Some a) as Hva.
  { rewrite <- Ha, Hvw. unfold file_view, view_of. rewrite Hh1, Hp1. do 2 f_equal; [|by rewrite Hf1].
    assert (f_size (file_at s1 fd) = f_size (file_at s fd)) as -> by (by rewrite Hf1). by rewrite Hread. }
  assert (a_mode a = f_mode (file_at s fd)) as Hmode by (rewrite Hvw in Hva; by injection Hva as <-).
  split; [done|]. split; [done|]. cbn. rewrite Hmode, Hw. by left.
Qed.
End Files.
