(* ===== verification/VfsOps.v ===== *)
(** * Every operation of the virtual file system keeps its invariant

    [vfs_good] joins the invariant of the open files, the state of the heap and
    the node table of the memory file system.  The operations on paths, opening,
    closing and the operations on open files are shown to keep it, first each on
    its own and then in any order. *)

From S2P Require Import Prelude MemFs MemFsTree MemFsEdit MemFsSpec Vfs VfsSpec VfsFiles.

Definition memfs_mounted (s : VfsState) : Prop := exists i, is_mount s i /\ m_ops (aget (mounts s) i) = g_memfs_backend_ops.
Definition memfs_ready (s : VfsState) : Prop := table_shape (memfs s) /\ (memfs_mounted s -> fs_wf (memfs s)).
Definition files_same (s s' : VfsState) : Prop := open_files s' = open_files s /\ memory s' = memory s /\ mounts s' = mounts s.

Lemma wf_shape t : fs_wf t -> table_shape t.
Proof. intros Hw. split; apply Hw. Qed.
Lemma find_mount_mount path s i rel : vfs_find_mount path s = Some (i, rel) -> is_mount s i.
Proof.
  intros Hf. destruct path as [path|]; [|done]. assert (path <> []) as Hne by (by intros ->).
  pose proof (find_mount_spec path s Hne) as Hs. rewrite Hf in Hs. apply Hs.
Qed.
Lemma files_inv b s s' : files_same s s' -> vfs_inv b s -> vfs_inv b s'.
Proof. intros (Hf & _ & _) [H1 H2 H3]. split; unfold file_at in *; by rewrite Hf. Qed.
Lemma files_view s s' fd : files_same s s' -> file_view s' fd = file_view s fd.
Proof. intros (Hf & Hm & _). unfold file_view, file_at. by rewrite Hf, Hm. Qed.
Lemma mounted_same s s' : mounts s' = mounts s -> memfs_mounted s' -> memfs_mounted s.
Proof. unfold memfs_mounted, is_mount. by intros ->. Qed.
Lemma ready_same s s' : mounts s' = mounts s -> memfs s' = memfs s -> memfs_ready s -> memfs_ready s'.
Proof. intros Hm Hf [H1 H2]. split; [by rewrite Hf | intros Hx; rewrite Hf; apply H2; by eapply mounted_same]. Qed.

Inductive path_op :=
| PWrite (path : str) (bytes : list Z) | PTouch (path : str) | PDelete (path : str) | PMkdir (path : str) | PRmdir (path : str) | PRename (old new : str).

Section Ops.
Context {E : Type} `{VL : VfsLaws E}.
Implicit Types (s : VfsState) (e : E).

Definition vfs_good (e : E) (s : VfsState) : Prop := vfs_safe e s /\ memfs_ready s.
(** What a call into a backend may change. *)
Definition backend_step (e : E) (s : VfsState) (e' : E) (s' : VfsState) : Prop :=
  quiet e e' /\ files_same s s' /\ (memfs s' = memfs s \/ (memfs_mounted s /\ exists o, memfs s' = (run_op o (memfs s)).2)).

Lemma host_quiet_refl e : host_ok e -> quiet e e.
Proof using. done. Qed.
Lemma step_refl e s : host_ok e -> backend_step e s e s.
Proof using. intros. split; [by apply host_quiet_refl|]. split; [done | by left]. Qed.
Lemma backend_good e s e' s' : vfs_good e s -> backend_step e s e' s' -> vfs_good e' s' /\ forall fd, file_view s' fd = file_view s fd.
Proof using.
  intros [[Hok Hv] [Hsh Hr]] ([Hok' Hb] & Hf & Hm). split; [|intros fd; by apply files_view]. split; [split; [done | rewrite Hb; by eapply files_inv]|].
  destruct Hm as [Hm|[Hmt [o Hm]]].
  - apply (ready_same s); [apply Hf | done | done].
  - assert (fs_wf (memfs s')) as Hw by (rewrite Hm; apply run_op_sound; auto). split; [by apply wf_shape | done].
Qed.

Lemma info_ok path s e : vfs_good e s -> let '(_, info, e') := vfs_get_file_info path s e in quiet e e' /\ 0 <= info_size (default no_info info) <= 2 ^ 31.
Proof using.
  intros [[Hok _] [_ Hr]]. unfold vfs_get_file_info. destruct (vfs_find_mount path s) as [[i rel]|] eqn:Hf; [|done]. apply find_mount_mount in Hf.
  destruct (m_ops (aget (mounts s) i) =? 0); [done|]. destruct rel as [|c rel]; [by destruct (negb _ && _)|]. unfold ops_get_file_info.
  destruct (Z.eqb_spec (m_ops (aget (mounts s) i)) g_memfs_backend_ops) as [Hm|Hm].
  - assert (fs_wf (memfs s)) as Hw by (apply Hr; by exists i). destruct (memfs_backend_get_file_info (c :: rel) (memfs s)) as [r info] eqn:Hi. split; [by apply host_quiet_refl|].
    unfold memfs_backend_get_file_info in Hi. destruct (memfs_lookup_path (c :: rel) (memfs s)) as [code k]. destruct (negb _); [by injection Hi as <- <-|].
    destruct (memfs_get_node k (memfs s)) as [node|] eqn:Hg; [|by injection Hi as <- <-]. injection Hi as <- <-. cbn. apply get_node_iff in Hg as (Hk & Ha & ->).
    destruct (fw_type _ Hw k Hk Ha) as [Ht|[Ht Hsz]]; unfold typ in Ht; rewrite Ht; [done|]. cbn. unfold MEMFS_MAX_FILE_SIZE in Hsz. lia.
  - destruct (get_file_info (backend_ops _)) as [f|] eqn:Ho; [|done]. exact (info_law _ f (backend_ctx (aget (mounts s) i)) (c :: rel) e Hok Ho).
Qed.
Lemma read_file_ok path n s e : vfs_good e s -> 1 <= n -> let '(_, bytes, e') := vfs_read_file path n s e in quiet e e' /\ alen (default [] bytes) <= n.
Proof using.
  intros [[Hok _] [_ Hr]] Hn. assert (@alen Z [] <= n) as H0 by (unfold alen; cbn; lia).
  unfold vfs_read_file. destruct (vfs_find_mount path s) as [[i rel]|] eqn:Hf; [|done]. apply find_mount_mount in Hf.
  destruct (m_ops (aget (mounts s) i) =? 0); [done|]. destruct rel as [|c rel]; [done|]. unfold ops_read_file.
  destruct (Z.eqb_spec (m_ops (aget (mounts s) i)) g_memfs_backend_ops) as [Hm|Hm].
  - destruct (memfs_backend_read_file (c :: rel) n (memfs s)) as [r bytes] eqn:Hi. split; [by apply host_quiet_refl|].
    unfold memfs_backend_read_file in Hi. destruct (memfs_lookup_path (c :: rel) (memfs s)) as [code k]. destruct (negb _); [by injection Hi as <- <-|].
    destruct (memfs_get_node k (memfs s)) as [node|]; [|by injection Hi as <- <-]. destruct (negb _); [by injection Hi as <- <-|].
    destruct (Z.ltb_spec n (if 0 <? node_size node then node_size node else 1)) as [Hlt|Hge]; [by injection Hi as <- <-|]. injection Hi as <- <-. cbn.
    unfold alen. rewrite length_fmap, length_seqZ. destruct (Z.ltb_spec 0 (node_size node)); lia.
  - destruct (read_file (backend_ops _)) as [f|] eqn:Ho; [|done]. exact (read_law _ f (backend_ctx (aget (mounts s) i)) (c :: rel) n e Hok Ho).
Qed.

(** ** Operations on paths *)

Definition run_path_op (o : path_op) (s : VfsState) (e : E) : Z * VfsState * E :=
  match o with
  | PWrite path bytes => vfs_write_file (Some path) bytes s e
  | PTouch path => vfs_touch_file (Some path) s e
  | PDelete path => vfs_delete_file (Some path) s e
  | PMkdir path => vfs_mkdir (Some path) s e
  | PRmdir path => vfs_rmdir (Some path) s e
  | PRename old new => vfs_rename (Some old) (Some new) s e
  end.

Lemma change_step i mem other s e r s' e' : host_ok e -> is_mount s i -> (exists o, mem (memfs s) = run_op o (memfs s)) ->
  (forall f, other = Some f -> quiet e (f (backend_ctx (aget (mounts s) i)) e).2) ->
  change (aget (mounts s) i) mem other s e = Some (r, s', e') -> backend_step e s e' s'.
Proof using.
  intros Hok Hi [o Ho] Hq. unfold change. destruct (Z.eqb_spec (m_ops (aget (mounts s) i)) g_memfs_backend_ops) as [Hm|Hm].
  - rewrite Ho. destruct (run_op o (memfs s)) as [r0 fs] eqn:Hr. intros [= <- <- <-]. split; [by apply host_quiet_refl|]. split; [done|]. right.
    split; [by exists i|]. exists o. by rewrite Hr.
  - destruct other as [f|]; [|done]. specialize (Hq f eq_refl). destruct (f _ e) as [r0 e0]. intros [= <- <- <-]. split; [done|]. split; [done | by left].
Qed.
Lemma vfs_change_step missing present run path s e : vfs_good e s ->
  (forall i rel r s' e', is_mount s i -> run (aget (mounts s) i) rel s e = Some (r, s', e') -> backend_step e s e' s') ->
  let '(_, s', e') := vfs_change missing present run path s e in backend_step e s e' s'.
Proof using.
  intros [[Hok _] _] Hrun. unfold vfs_change. destruct (vfs_find_mount path s) as [[i rel]|] eqn:Hf; [|by apply step_refl]. apply find_mount_mount in Hf.
  destruct (_ || _); [by apply step_refl|]. destruct rel as [|c rel]; [by apply step_refl|].
  destruct (run (aget (mounts s) i) (c :: rel) s e) as [[[r s'] e']|] eqn:Hr; [by eapply Hrun | by apply step_refl].
Qed.
Lemma on_ctx_quiet o (f : option (Z -> str -> E -> Z * E)) rel e c : host_ok e ->
  f ∈ [touch_file (backend_ops o); delete_file (backend_ops o); mkdir (backend_ops o); rmdir (backend_ops o)] ->
  forall g, on_ctx f rel = Some g -> quiet e (g c e).2.
Proof using.
  intros Hok Hin g. destruct f as [h|]; [|done]. intros [= <-]. by apply (change_law o h c rel e).
Qed.
Lemma path_op_step o s e : vfs_good e s -> let '(_, s', e') := run_path_op o s e in backend_step e s e' s'.
Proof using.
  intros Hg. pose proof Hg as [[Hok _] _]. destruct o as [path bytes|path|path|path|path|old new]; cbn [run_path_op].
  1-5: apply vfs_change_step; [done|]; intros i rel r s' e' Hi; apply change_step; [done | done | |].
  - by exists (op_write rel bytes).
  - intros f. destruct (write_file (backend_ops _)) as [g|] eqn:Hw; [|done]. intros [= <-]. by eapply write_law.
  - by exists (op_touch rel).
  - apply (on_ctx_quiet (m_ops (aget (mounts s) i))); [done | set_solver].
  - by exists (op_delete rel).
  - apply (on_ctx_quiet (m_ops (aget (mounts s) i))); [done | set_solver].
  - by exists (op_mkdir rel).
  - apply (on_ctx_quiet (m_ops (aget (mounts s) i))); [done | set_solver].
  - by exists (op_rmdir rel).
  - apply (on_ctx_quiet (m_ops (aget (mounts s) i))); [done | set_solver].
  - unfold vfs_rename. destruct (vfs_find_mount (Some old) s) as [[i rel]|] eqn:Hf; [|by apply step_refl]. apply find_mount_mount in Hf.
    destruct (vfs_find_mount (Some new) s) as [[j rel']|]; [|by apply step_refl].
    repeat (match goal with |- context [if ?b then _ else _] => destruct b; [by apply step_refl|] end).
    destruct (change _ _ _ s e) as [[[r s'] e']|] eqn:Hc; [|by apply step_refl]. eapply change_step; [done | done | | | exact Hc].
    + by exists (op_rename rel rel').
    + intros f. destruct (rename_path (backend_ops _)) as [g|] eqn:Hw; [|done]. intros [= <-]. by eapply rename_law.
Qed.

(** ** Closing *)

Lemma one_slot_others s s' fd f : one_slot s s' fd f -> memory s' = memory s -> keeps_others s s' fd.
Proof using. intros [_ Ha] Hm k Hk Hne. unfold file_view. rewrite (Ha k Hk), decide_False by congruence. by rewrite Hm. Qed.
Lemma keeps_others_trans s s1 s2 fd : keeps_others s s1 fd -> keeps_others s1 s2 fd -> keeps_others s s2 fd.
Proof using. intros H1 H2 k Hk Hne. rewrite (H2 k Hk Hne). by apply H1. Qed.

Lemma slot_ok_empty b : slot_ok b inhabitant.
Proof using. done. Qed.
Lemma reset_open_slot fd s e : vfs_safe e s -> is_slot fd -> let '(s', e') := vfs_reset_open_file fd s e in
  vfs_safe e' s' /\ one_slot s s' fd inhabitant /\ memory s' = memory s /\ memfs s' = memfs s /\ mounts s' = mounts s.
Proof using.
  intros [Hok Hv] Hfd. unfold vfs_reset_open_file. set (f := file_at s fd). pose proof (vi_slot _ _ Hv fd Hfd) as Hs. fold f in Hs.
  set (g := fun f => _). pose proof (one_slot_upd s s fd f g (vi_len _ _ Hv) Hfd (one_slot_refl s fd Hfd)) as Ho.
  destruct (Z.eqb_spec (f_buffer f) 0) as [Hb|Hb].
  - assert (g f = inhabitant) as Hgf by (unfold g; destruct f; cbn in *; by rewrite Hb). rewrite Hgf in Ho. split_and!; try done.
    split; [done|]. apply (inv_slot (blocks e) _ s _ fd inhabitant); auto using slot_ok_empty.
  - destruct (slot_live _ _ Hs Hb) as (_ & Hlive & _). destruct (kfree_law (f_buffer f) e Hok ltac:(by eexists)) as [Hok' Hbl].
    pose proof (one_slot_upd s _ fd _ (fun f => f <| f_buffer := 0 |>) (vi_len _ _ Hv) Hfd Ho) as Ho'.
    assert ((g f) <| f_buffer := 0 |> = inhabitant) as Hgf by (unfold g; by destruct f). cbv beta in Ho'. rewrite Hgf in Ho'. split_and!; try done.
    split; [done|]. apply (inv_slot (blocks e) _ s _ fd inhabitant); auto using slot_ok_empty. intros p n Hp Hne. rewrite Hbl. by rewrite lookup_delete_ne by (unfold f; congruence).
Qed.

(** A failed write-back leaves the file open and everything as it was. *)
Lemma close_file_ok fd s e : vfs_good e s -> let '(r, s', e') := vfs_close fd s e in
  vfs_good e' s' /\ keeps_others s s' fd /\ mounts s' = mounts s /\
  (r = VFS_OK -> is_slot fd /\ f_active (file_at s' fd) = 0) /\ (r <> VFS_OK -> open_files s' = open_files s /\ memory s' = memory s).
Proof using.
  intros Hg. unfold vfs_close. destruct (vfs_get_open_file fd s) as [file|] eqn:Hf; [|by split_and!].
  assert (is_slot fd /\ file = file_at s fd) as [Hfd ->].
  { unfold vfs_get_open_file in Hf. destruct (Z.ltb_spec fd 0); [done|]. destruct (Z.leb_spec VFS_MAX_OPEN_FILES fd); [done|]. cbn in Hf.
    destruct (_ =? 0); [done|]. injection Hf as <-. done. }
  assert (forall s1 e1, vfs_good e1 s1 -> (forall k, file_view s1 k = file_view s k) -> mounts s1 = mounts s ->
    let '(s', e') := vfs_reset_open_file fd s1 e1 in vfs_good e' s' /\ keeps_others s s' fd /\ mounts s' = mounts s /\
      (VFS_OK = VFS_OK -> is_slot fd /\ f_active (file_at s' fd) = 0) /\ (VFS_OK <> VFS_OK -> open_files s' = open_files s /\ memory s' = memory s)) as Hreset.
  { intros s1 e1 [Hs1 Hr1] Hvw Hmt. pose proof (reset_open_slot fd s1 e1 Hs1 Hfd) as Hrs. destruct (vfs_reset_open_file fd s1 e1) as [s' e'].
    destruct Hrs as (Hs' & Ho & Hm & Hmf & Hmts). split; [split; [done | by apply (ready_same s1)]|]. split.
    { intros k Hk Hne. rewrite (one_slot_others _ _ _ _ Ho Hm k Hk Hne). apply Hvw. }
    split; [congruence|]. split; [|done]. intros _. split; [done|]. by rewrite (one_slot_at _ _ _ _ Hfd Ho). }
  destruct (f_kind (file_at s fd) =? VFS_HANDLE_DIR).
  { pose proof (Hreset s e Hg ltac:(done) eq_refl) as Hx. by destruct (vfs_reset_open_file fd s e). }
  set (w := if f_dirty (file_at s fd) =? 0 then _ else _). assert (let '(_, s1, e1) := w in backend_step e s e1 s1) as Hw.
  { unfold w. destruct (_ =? 0); [apply step_refl; apply Hg|].
    by apply (path_op_step (PWrite (f_path (file_at s fd)) (read_mem (memory s) (f_buffer (file_at s fd)) (f_size (file_at s fd))))). }
  destruct w as [[r s1] e1]. destruct (backend_good e s e1 s1 Hg Hw) as [Hg1 Hvw1]. destruct Hw as (_ & (Hof & Hmem & Hmt) & _).
  destruct (Z.eqb_spec r VFS_OK) as [->|Hr]; cbn [negb].
  - pose proof (Hreset s1 e1 Hg1 Hvw1 Hmt) as Hx. by destruct (vfs_reset_open_file fd s1 e1).
  - split_and!; try done. intros k Hk Hne. apply Hvw1.
Qed.

Lemma close_all_ok pid s e : vfs_good e s -> let '(_, s', e') := vfs_close_all_for_owner pid s e in vfs_good e' s' /\ mounts s' = mounts s.
Proof using.
  intros Hg. unfold vfs_close_all_for_owner.
  apply (for_range_inv (fun _ st => let '(_, s', e') := st in vfs_good e' s' /\ mounts s' = mounts s)); [done | done |].
  intros fd [[count s1] e1] Hfd [Hg1 Hm1]. unfold close_step. destruct (_ || _); [done|]. pose proof (close_file_ok fd s1 e1 Hg1) as Hc.
  destruct (vfs_close fd s1 e1) as [[r s2] e2]. destruct Hc as (Hg2 & _ & Hm2 & _). split; [done | congruence].
Qed.

(** ** Opening *)

Lemma find_mount_same path s s' : mounts s' = mounts s -> vfs_find_mount path s' = vfs_find_mount path s.
Proof using. intros Hm. unfold vfs_find_mount, find_mount_step. by rewrite Hm. Qed.
Lemma read_file_same path n s s' e : mounts s' = mounts s -> memfs s' = memfs s -> vfs_read_file path n s' e = vfs_read_file path n s e.
Proof using. intros Hm Hf. unfold vfs_read_file, ops_read_file. by rewrite (find_mount_same path s s' Hm), Hm, Hf. Qed.

Lemma alloc_slot s : vfs_alloc_open_slot s = VFS_ERR_NO_SLOT \/ (is_slot (vfs_alloc_open_slot s) /\ f_active (file_at s (vfs_alloc_open_slot s)) = 0).
Proof using.
  unfold vfs_alloc_open_slot. destruct (find_first _ 0 _) as [fd|] eqn:Hf; [right | by left]. apply find_first_Some in Hf as (Hr & Ha & _).
  rewrite Z2Nat.id in Hr by done. split; [unfold is_slot; lia | by apply Z.eqb_eq].
Qed.
Lemma unused_slot b s fd : vfs_inv b s -> is_slot fd -> f_active (file_at s fd) = 0 -> f_buffer (file_at s fd) = 0 /\ file_view s fd = None.
Proof using.
  intros Hv Hfd Ha. pose proof (vi_slot _ _ Hv fd Hfd) as Hs. unfold slot_ok in Hs. unfold file_view, view_of.
  assert (holds_file (file_at s fd) = false) as Hh by (unfold holds_file; by rewrite Ha). by rewrite Hh in *.
Qed.

(** A new open file in the slot: its block is fresh. *)
Lemma new_file b s s' fd f q c (e e1 : E) : vfs_inv b s -> is_slot fd -> f_active (file_at s fd) = 0 -> host_ok e1 -> b !! q = None -> blocks e1 = <[q := c]> b ->
  one_slot s s' fd f -> only_in q c (memory s) (memory s') -> f_buffer f = q -> slot_ok (blocks e1) f -> vfs_inv (blocks e1) s' /\ keeps_others s s' fd.
Proof using.
  intros Hv Hfd Ha Hok Hq Hbl Ho Hm Hb Hs. destruct (unused_slot _ _ _ Hv Hfd Ha) as [Hb0 _].
  assert (forall p n, b !! p = Some n -> blocks e1 !! p = Some n) as Hkeep by (intros p n Hp; rewrite Hbl; by rewrite lookup_insert_ne by congruence). split.
  - apply (inv_slot b _ s _ fd f); auto. right. right. by rewrite Hb.
  - apply (others_kept b s _ fd f q c e1); try done; [by rewrite Hbl, lookup_insert_eq|]. intros k Hk Hne Hf. destruct (inv_file b k s Hv Hk Hf) as (_ & Hx & _).
    split; [by apply Hkeep | congruence].
Qed.

(** What a file holds when it is opened: nothing, or what the backend reads. *)
Definition initial_bytes (path : option str) (s : VfsState) (bytes : list Z) : Prop :=
  bytes = [] \/ exists c (e0 e1 : E) read, vfs_read_file path c s e0 = (VFS_OK, read, e1) /\ bytes = default [] read.

(** The state once the slot is filled, and the bytes read into it. *)
Lemma fill_ok path s e e1 fd f q c size : vfs_good e s -> is_slot fd -> f_active (file_at s fd) = 0 -> host_ok e1 -> q <> 0 -> blocks e !! q = None -> blocks e1 = <[q := c]> (blocks e) ->
  holds_file f = true -> f_buffer f = q -> capacity f = c -> position f = 0 -> f_size f = size -> 0 <= size <= c -> 64 <= c <= 2 ^ 31 ->
  forall s1, one_slot s s1 fd f -> memory s1 = memory s -> mounts s1 = mounts s -> memfs s1 = memfs s ->
  let '(ok, s2, e2) :=
    if 0 <? size then
      let '(r, bytes, e) := vfs_read_file path c s1 e1 in
      if negb (r =? VFS_OK) then let '(s, e) := vfs_reset_open_file fd s1 e in (false, s, e)
      else
        let bytes := default [] bytes in
        (true, upd_file fd (fun f => f <| f_size := alen bytes |>) (s1 <| memory := write_mem q bytes (memory s1) |>), e)
    else (true, s1, e1) in
  vfs_good e2 s2 /\ mounts s2 = mounts s /\ memfs s2 = memfs s /\ keeps_others s s2 fd /\
  if ok : bool then exists bytes, (bytes = [] \/ exists read e', vfs_read_file path c s e1 = (VFS_OK, read, e') /\ bytes = default [] read) /\
    holds_file (file_at s2 fd) = true /\ file_view s2 fd = Some {| a_bytes := bytes; a_pos := 0; a_mode := f_mode f |} else file_view s2 fd = None.
Proof using.
  intros [[Hok Hv] Hr] Hfd Ha Hok1 Hq0 Hq Hbl Hf Hfb Hfc Hfp Hfs Hsz Hc s1 Ho Hm Hmt Hmf.
  assert (forall n, 0 <= n <= c -> slot_ok (blocks e1) (f <| f_size := n |>)) as Hslot.
  { intros n Hn. unfold slot_ok. change (holds_file _) with (holds_file f). rewrite Hf. unfold file_ok. cbn. rewrite Hfb, Hfc, Hfp, Hbl, lookup_insert_eq. split_and!; try done; lia. }
  assert (f <| f_size := size |> = f) as Hsame by (rewrite <- Hfs; clear; by destruct f).
  destruct (new_file (blocks e) s s1 fd f q c e e1 Hv Hfd Ha Hok1 Hq Hbl Ho ltac:(intros x _; by rewrite Hm) Hfb ltac:(rewrite <- Hsame; by apply Hslot)) as [Hv1 Hk1].
  assert (vfs_good e1 s1) as Hg1 by (split; [done | by apply (ready_same s)]).
  destruct (Z.ltb_spec 0 size) as [Hpos|Hz].
  2: { split; [done|]. split_and!; try done. exists []. split; [by left|]. rewrite (one_slot_at _ _ _ _ Hfd Ho). split; [done|]. unfold file_view, view_of.
       rewrite (one_slot_at _ _ _ _ Hfd Ho), Hf, Hfp, read_mem_nil by lia. done. }
  pose proof (read_file_ok path c s1 e1 Hg1 ltac:(lia)) as Hrd. pose proof (read_file_same path c s s1 e1 Hmt Hmf) as Hrs.
  destruct (vfs_read_file path c s1 e1) as [[r read] e2]. destruct Hrd as [[Hok2 Hb2] Hlen]. destruct (Z.eqb_spec r VFS_OK) as [->|Hne]; cbn [negb].
  2: { assert (vfs_safe e2 s1) as Hs1 by (split; [done | by rewrite Hb2]). pose proof (reset_open_slot fd s1 e2 Hs1 Hfd) as Hx. destruct (vfs_reset_open_file fd s1 e2) as [s2 e3].
       destruct Hx as (Hs2 & Ho2 & Hm2 & Hmf2 & Hmt2). split; [split; [done | by apply (ready_same s1); [| |apply Hg1]]|]. split; [congruence|]. split; [congruence|]. split.
       - eapply keeps_others_trans; [done | by eapply one_slot_others].
       - unfold file_view. by rewrite (one_slot_at _ _ _ _ Hfd Ho2). }
  set (bytes := default [] read) in *. cbv zeta. set (s2 := upd_file fd _ _). pose proof (alen_nonneg bytes) as H0.
  assert (one_slot s s2 fd (f <| f_size := alen bytes |>)) as Ho2.
  { apply (one_slot_upd s (s1 <| memory := write_mem q bytes (memory s1) |>) fd f (fun f => f <| f_size := alen bytes |>)); [apply Hv | done | done]. }
  assert (memory s2 = write_mem q bytes (memory s)) as Hm2 by (unfold s2, upd_file; cbn; by rewrite Hm).
  destruct (new_file (blocks e) s s2 fd (f <| f_size := alen bytes |>) q c e e1 Hv Hfd Ha Hok1 Hq Hbl Ho2) as [Hv2 Hk2]; [|done | by apply Hslot |].
  { intros x Hx. rewrite Hm2, write_mem_spec, decide_False by lia. done. }
  split; [split; [split; [done | by rewrite Hb2] | by apply (ready_same s)]|]. split_and!; try done. exists bytes. split; [right; by exists read, e2|].
  unfold file_view, view_of. rewrite (one_slot_at _ _ _ _ Hfd Ho2). change (holds_file _) with (holds_file f). rewrite Hf. split; [done|]. rewrite Hm2. clear Hm2. cbn. rewrite Hfp, Hfb. do 2 f_equal.
  apply read_mem_all. intros k Hk. rewrite write_mem_spec, decide_True by lia. f_equal. lia.
Qed.

(** The outcome of opening a file: a refusal that leaves every file, or a new one. *)
Definition open_result (path : option str) (mode : Z) (s : VfsState) (r : Z) (s' : VfsState) : Prop :=
  (forall k, is_slot k -> file_view s' k = file_view s k) \/
  (is_slot r /\ file_view s r = None /\ keeps_others s s' r /\ exists bytes, initial_bytes path s bytes /\
    file_view s' r = Some {| a_bytes := bytes; a_pos := if has_flag mode VFS_OPEN_APPEND then alen bytes else 0; a_mode := u16 mode |}).

Lemma opened path mode s fd s2 (e2 : E) bytes m : vfs_good e2 s2 -> is_slot fd -> keeps_others s s2 fd -> file_view s fd = None ->
  holds_file (file_at s2 fd) = true -> file_view s2 fd = Some {| a_bytes := bytes; a_pos := 0; a_mode := u16 mode |} ->
  initial_bytes path s bytes -> mounts s2 = mounts s -> memfs s2 = memfs s -> m = has_flag mode VFS_OPEN_APPEND ->
  let s3 := if m then upd_file fd (fun f => f <| position := f_size f |>) s2 else s2 in
  vfs_good e2 s3 /\ mounts s3 = mounts s /\ memfs s3 = memfs s /\ open_result path mode s fd s3.
Proof using.
  intros Hg Hfd Hk Hn Hh Hvw Hi Hmt Hmf -> s3. destruct (has_flag mode VFS_OPEN_APPEND) eqn:Hm; unfold s3.
  2: { split_and!; try done. right. split_and!; try done. exists bytes. by rewrite Hm. }
  pose proof Hg as [[Hok Hv] Hr]. destruct (inv_file _ _ _ Hv Hfd Hh) as (Hb0 & Hb & Hsz & Hcap & Hpos).
  destruct (inv_update (blocks e2) s2 fd (fun f => f <| position := f_size f |>) Hv Hfd) as (Hv' & Ho & Ha); [|done|].
  { unfold slot_ok. change (holds_file _) with (holds_file (file_at s2 fd)). rewrite Hh. unfold file_ok. cbn. split_and!; try done; lia. }
  split; [split; [done | by apply (ready_same s2)]|]. split_and!; try done. right. split_and!; try done; [by eapply keeps_others_trans|]. exists bytes. rewrite Hm. split; [done|].
  unfold file_view, view_of in Hvw |- *. rewrite Ha. change (holds_file _) with (holds_file (file_at s2 fd)). rewrite Hh in *. injection Hvw as Hbs Hp Hmd.
  cbn. rewrite Hbs, Hmd. do 2 f_equal. rewrite <- Hbs. rewrite length_read_mem by lia. done.
Qed.

Lemma open_ok path mode pid s e : vfs_good e s -> exists r s' e', vfs_open_for_owner path mode pid s e = Some (r, s', e') /\
  vfs_good e' s' /\ mounts s' = mounts s /\ memfs s' = memfs s /\ open_result path mode s r s'.
Proof using.
  intros Hg. unfold vfs_open_for_owner.
  destruct (_ =? 0). { do 3 eexists. split; [reflexivity|]. split_and!; try done. by left. }
  destruct (_ =? 0). { do 3 eexists. split; [reflexivity|]. split_and!; try done. by left. }
  pose proof (info_ok path s e Hg) as Hinfo. destruct (vfs_get_file_info path s e) as [[ir info] e0]. destruct Hinfo as [Hq0 Hsz].
  assert (vfs_good e0 s) as Hg0 by (destruct Hg as [[_ Hv] Hr], Hq0 as [Hok0 Hb0]; split; [split; [done | by rewrite Hb0] | done]).
  cbv zeta. destruct (negb _ && negb _). { do 3 eexists. split; [reflexivity|]. split_and!; try done. by left. }
  destruct (_ && negb _). { do 3 eexists. split; [reflexivity|]. split_and!; try done. by left. }
  destruct (alloc_slot s) as [->|[Hfd Hfree]]. { do 3 eexists. split; [reflexivity|]. split_and!; try done. by left. }
  set (fd := vfs_alloc_open_slot s) in *. rewrite (proj2 (Z.ltb_ge fd 0)) by apply Hfd. set (size := if _ && negb _ then info_size _ else 0).
  assert (0 <= size <= 2 ^ 31) as Hs by (unfold size; by destruct (_ && _)). destruct (growth_capacity (if 0 <? size then size else 1)) as (c & -> & Hc & Hle & _); [destruct (0 <? size); lia|].
  assert (size <= c) as Hsc by (destruct (Z.ltb_spec 0 size); lia). pose proof Hg0 as [[Hok0 Hv0] Hr0].
  pose proof (kmalloc_law c e0 Hok0 ltac:(lia)) as Hk. destruct (vfs_kmalloc c e0) as [q e1]. destruct Hk as [Hok1 Hk]. destruct (unused_slot _ _ _ Hv0 Hfd Hfree) as [Hb0 Hn0].
  pose proof (one_slot_upd s s fd _ (fun f => f <| f_buffer := q |>) (vi_len _ _ Hv0) Hfd (one_slot_refl s fd Hfd)) as Ho. cbv beta in Ho. set (s1 := upd_file fd _ s) in *.
  destruct Hk as [[-> Hbl]|(Hq & Hqn & Hbl)].
  { assert ((file_at s fd) <| f_buffer := 0 |> = file_at s fd) as Hsame by (rewrite <- Hb0; by destruct (file_at s fd)). rewrite Hsame in Ho.
    do 3 eexists. split; [reflexivity|]. split; [|split_and!; try done].
    - split; [split; [done|] | by apply (ready_same s)]. rewrite Hbl. apply (inv_slot (blocks e0) _ s _ fd (file_at s fd)); auto. apply Hv0, Hfd.
    - left. intros k Hk. unfold file_view. destruct Ho as [_ Ha]. rewrite (Ha k Hk). case_decide; [by subst | done]. }
  rewrite (proj2 (Z.eqb_neq _ _) Hq). set (g := fun f : VFSOpenFile => f <| f_active := 1 |> <| f_dirty := _ |> <| f_kind := _ |> <| f_mode := _ |> <| f_owner_pid := _ |> <| position := _ |>
     <| f_size := _ |> <| capacity := _ |> <| dir_cursor := _ |> <| f_path := _ |>).
  pose proof (one_slot_upd s s1 fd _ g (vi_len _ _ Hv0) Hfd Ho) as Ho2.
  pose proof (fill_ok path s e0 e1 fd (g ((file_at s fd) <| f_buffer := q |>)) q c size Hg0 Hfd Hfree Hok1 Hq Hqn Hbl eq_refl eq_refl eq_refl eq_refl eq_refl ltac:(lia) ltac:(lia) _ Ho2 eq_refl eq_refl eq_refl) as Hfill.
  clear Hle Hsc. clearbody size. set (filled := if 0 <? size then _ else _) in *. destruct filled as [[ok s2] e2]. destruct Hfill as (Hg2 & Hmt2 & Hmf2 & Hk2 & Hres). destruct ok; cbn [negb].
  - destruct Hres as (bytes & Hbytes & Hh & Hvw). do 3 eexists. split; [reflexivity|]. apply (opened path mode s fd s2 e2 bytes); try done.
    destruct Hbytes as [->|(read & e' & Hrd & ->)]; [by left|]. right. by exists c, e1, e', read.
  - do 3 eexists. split; [reflexivity|]. split_and!; try done. left. intros k Hk. destruct (decide (k = fd)) as [->|Hne]; [by rewrite Hn0 | by apply Hk2].
Qed.

(** ** Directories *)

Lemma opendir_ok path pid s e : vfs_good e s -> let '(_, s', e') := vfs_opendir_for_owner path pid s e in
  vfs_good e' s' /\ mounts s' = mounts s /\ memfs s' = memfs s /\ forall k, is_slot k -> file_view s' k = file_view s k.
Proof using.
  intros Hg. unfold vfs_opendir_for_owner. destruct (_ =? 0); [done|]. destruct (vfs_find_mount path s) as [[i rel]|]; [|done]. destruct (_ || _); [done|].
  pose proof (info_ok path s e Hg) as Hinfo. destruct (vfs_get_file_info path s e) as [[ir info] e0]. destruct Hinfo as [[Hok0 Hb0] _].
  assert (vfs_good e0 s) as Hg0 by (destruct Hg as [[_ Hv] Hr]; split; [split; [done | by rewrite Hb0] | done]). destruct (_ || _); [done|]. cbv zeta.
  destruct (alloc_slot s) as [->|[Hfd Hfree]]; [done|]. set (fd := vfs_alloc_open_slot s) in *. rewrite (proj2 (Z.ltb_ge fd 0)) by apply Hfd.
  pose proof Hg0 as [[_ Hv] Hr]. destruct (unused_slot _ _ _ Hv Hfd Hfree) as [Hbuf Hnone]. set (g := fun f : VFSOpenFile => _).
  pose proof (one_slot_upd s s fd _ g (vi_len _ _ Hv) Hfd (one_slot_refl s fd Hfd)) as Ho. split; [|split_and!; try done].
  - split; [split; [done|] | by apply (ready_same s)]. apply (inv_slot (blocks e0) _ s _ fd (g (file_at s fd))); auto. done.
  - intros k Hk. destruct (decide (k = fd)) as [->|Hne]; [|by apply (one_slot_others s _ fd _ Ho)]. rewrite Hnone. unfold file_view. by rewrite (one_slot_at _ _ _ _ Hfd Ho).
Qed.

Lemma readdir_ok fd s e : vfs_good e s -> let '(_, _, s', e') := vfs_readdir fd true s e in
  vfs_good e' s' /\ mounts s' = mounts s /\ memfs s' = memfs s /\ forall k, is_slot k -> file_view s' k = file_view s k.
Proof using.
  intros Hg. unfold vfs_readdir. destruct (vfs_get_open_file fd s) as [file|] eqn:Hf; [|done]. destruct (_ || _) eqn:Hk; [done|].
  destruct (vfs_find_mount _ s) as [[i rel]|]; [|done]. destruct (_ =? 0); [done|].
  assert (is_slot fd /\ file = file_at s fd) as [Hfd ->].
  { unfold vfs_get_open_file in Hf. destruct (Z.ltb_spec fd 0); [done|]. destruct (Z.leb_spec VFS_MAX_OPEN_FILES fd); [done|]. cbn in Hf.
    destruct (_ =? 0); [done|]. injection Hf as <-. done. }
  pose proof Hg as [[Hok Hv] Hr].
  assert (match ops_read_dir_entry (aget (mounts s) i) rel (dir_cursor (file_at s fd)) s e with Some (_, _, e') => quiet e e' | None => True end) as Hq.
  { unfold ops_read_dir_entry. destruct (m_ops (aget (mounts s) i) =? g_memfs_backend_ops); [destruct (memfs_backend_read_dir_entry _ _ _); by apply host_quiet_refl|]. destruct (read_dir_entry (backend_ops _)) as [f|] eqn:Hr'; [|done].
    pose proof (entry_law _ f (backend_ctx (aget (mounts s) i)) rel (dir_cursor (file_at s fd)) e Hok Hr') as Hx. by destruct (f _ _ _ e) as [[? ?] ?]. }
  destruct (ops_read_dir_entry _ _ _ s e) as [[[r entry] e']|]; [|done]. destruct Hq as [Hok' Hb'].
  destruct (0 <? r). 2: { split_and!; try done. split; [split; [done | by rewrite Hb'] | done]. }
  destruct (inv_update (blocks e) s fd (fun f => f <| dir_cursor := u32 (dir_cursor f + 1) |>) Hv Hfd) as (Hv' & Ho & Ha); [|done|].
  { exact (vi_slot _ _ Hv fd Hfd). }
  split; [split; [split; [done | by rewrite Hb'] | by apply (ready_same s)]|]. split_and!; try done. intros k Hk'. destruct (decide (k = fd)) as [->|Hne]; [|by apply Ho].
  unfold file_view. by rewrite Ha.
Qed.

(** ** Mounting *)

Lemma mounts_set s l : mounts (s <| mounts := l |>) = l.
Proof using. done. Qed.
Lemma mount_ok path name kind ops ctx s e : vfs_safe e s -> table_shape (memfs s) -> (memfs_mounted s \/ ops = g_memfs_backend_ops -> fs_wf (memfs s)) ->
  vfs_good e (vfs_mount path name kind ops ctx s).2 /\ forall k, file_view (vfs_mount path name kind ops ctx s).2 k = file_view s k.
Proof using.
  intros Hs Hsh Hw. assert (vfs_good e s) as Hg by (split; [done | split; [done | auto]]).
  unfold vfs_mount. destruct (_ || _); [done|]. destruct path as [[|c path]|]; [done | | done]. destruct (negb _); [done|].
  destruct (bool_decide _); [done|]. destruct (find_first _ 0 _) as [i|] eqn:Hf; [|done]. apply find_first_Some in Hf as (Hi & _ & _). cbn [snd].
  split; [|done]. split; [destruct Hs as [Hok [H1 H2 H3]]; by split|]. split; [done|]. intros (j & [Hj Hja] & Hjo). apply Hw. rewrite mounts_set in Hja, Hjo.
  destruct (decide (i = j)) as [->|Hne].
  - destruct (decide (j < alen (mounts s))) as [Hlt|Hge].
    + right. by rewrite aget_aset_eq in Hjo by lia.
    + left. exists j. unfold aset in Hja, Hjo. unfold alen in Hge. rewrite list_insert_ge in Hja, Hjo by lia. done.
  - left. exists j. rewrite aget_aset_ne in Hja, Hjo by (done || lia). done.
Qed.
Lemma mount_memfs_ok path s e : vfs_good e s -> vfs_good e (vfs_mount_memfs path s).2 /\ forall k, file_view (vfs_mount_memfs path s).2 k = file_view s k.
Proof using.
  intros [Hs [Hsh _]]. unfold vfs_mount_memfs. destruct (reset_ok _ Hsh) as [Hw _]. set (s0 := s <| memfs := _ |>).
  apply (mount_ok path _ _ _ _ s0 e); [destruct Hs as [Hok [H1 H2 H3]]; by split | by apply wf_shape | done].
Qed.
End Ops.
