(* ===== verification/VfsHistory.v ===== *)
(** * The contracts of the virtual file system

    Open files refine byte sequences with a position; closing a file hands its
    bytes to the memory file system; every history of calls keeps the invariants. *)

From S2P Require Import Prelude MemFs MemFsTree MemFsEdit MemFsSpec Vfs VfsSpec VfsFiles VfsOps.

Inductive vfs_op :=
| VMountMemfs (path : option str) | VPath (o : path_op) | VOpen (path : option str) (mode pid : Z) | VOpendir (path : option str) (pid : Z)
| VFile (fd : Z) (o : file_op) | VReaddir (fd : Z) | VClose (fd : Z) | VCloseAll (pid : Z).

(** The arguments fit their types, and a write ends within 2^31 bytes. *)
Definition op_fits (o : file_op) (f : VFSOpenFile) : Prop :=
  match o with FRead n => 0 <= n < 2 ^ 32 | FWrite data => position f + alen data <= 2 ^ 31 | _ => True end.
Definition vfs_op_fits (o : vfs_op) (s : VfsState) : Prop := match o with VFile fd o => op_fits o (file_at s fd) | _ => True end.

Section History.
Context {E : Type} `{VL : VfsLaws E}.
Implicit Types (s : VfsState) (e : E).

Lemma file_op_ok s e fd o : vfs_safe e s -> is_slot fd -> holds_file (file_at s fd) = true -> op_fits o (file_at s fd) ->
  exists r s' e', run_file_op fd o s e = Some (r, s', e') /\ vfs_safe e' s' /\ keeps_others s s' fd /\
  exists a a', file_view s fd = Some a /\ file_view s' fd = Some a' /\ file_step (refused_by e) o a r a'.
Proof using.
  intros Hs Hfd Hf Hfit. destruct o as [n|data|offset whence|]; cbn [run_file_op op_fits] in *.
  - pose proof (read_ok s e fd n Hs Hfd Hf Hfit) as Hx. destruct (vfs_read fd true n s) as [[r bytes] s']. by do 3 eexists.
  - destruct (write_ok s e fd data Hs Hfd Hf Hfit) as (r & n & s' & e' & -> & Hx). by do 3 eexists.
  - pose proof (seek_ok s e fd offset whence Hs Hfd Hf) as Hx. destruct (vfs_seek fd offset whence s) as [[r n] s']. by do 3 eexists.
  - destruct (get_file fd s Hfd Hf) as [Hg Hk]. unfold vfs_tell. rewrite Hg, Hk. cbn [negb orb]. do 3 eexists. split; [reflexivity|]. do 2 (split; [done|]).
    do 2 eexists. unfold file_view, view_of. rewrite Hf. split; [done|]. by split.
Qed.

(** C26: An open file is a byte sequence with a position, for every call but a write that would end
    past 2^31 bytes (position plus length; beyond that [vfs_write] does not return or the sum wraps).  Reading gives the bytes
    at the position, at most the number asked for, and moves past them; writing
    replaces bytes at the position, extends the file when it passes the end (only
    a gap left by seeking past the end is undetermined), or answers [VFS_ERR_IO] and
    changes nothing when the heap refuses a larger buffer; seeking sets the
    position within 31 bits.  A handle without the right is refused.  From a table that satisfies the invariant,
    with a heap and backends that keep [VfsLaws], the call returns, no other open file changes, and the invariant
    of the table holds again. *)
Theorem vfs_file_refines s e fd o : vfs_safe e s -> is_slot fd -> holds_file (file_at s fd) = true -> op_fits o (file_at s fd) ->
  exists r s' e', run_file_op fd o s e = Some (r, s', e') /\ vfs_safe e' s' /\ keeps_others s s' fd /\
  exists a a', file_view s fd = Some a /\ file_view s' fd = Some a' /\ file_step (refused_by e) o a r a'.
Proof using. apply file_op_ok. Qed.

Lemma ensure_frame s e fd required r s' e' : vfs_ensure_open_file_capacity fd required s e = Some (r, s', e') -> mounts s' = mounts s /\ memfs s' = memfs s.
Proof using.
  unfold vfs_ensure_open_file_capacity. destruct (_ <=? _); [by intros [= <- <- <-]|]. destruct (vfs_growth_capacity required) as [c|]; [|done].
  destruct (vfs_kmalloc c e) as [q e1]. destruct (q =? 0); [by intros [= <- <- <-]|]. destruct (_ && _); by intros [= <- <- <-].
Qed.
Lemma file_op_frame s e fd o r s' e' : run_file_op fd o s e = Some (r, s', e') -> mounts s' = mounts s /\ memfs s' = memfs s.
Proof using.
  destruct o as [n|data|offset whence|]; cbn [run_file_op].
  - unfold vfs_read. destruct (vfs_get_open_file fd s) as [f|]; [|by intros [= <- <- <-]].
    repeat case_match; simplify_eq; by intros [= <- <- <-].
  - destruct (vfs_write _ _ _ s e) as [[[[r0 n0] s0] e0]|] eqn:Hw; [|done]. intros [= <- <- <-]. revert Hw. unfold vfs_write.
    destruct (vfs_get_open_file fd s) as [f|]; [|by intros [= <- <- <- <-]]. destruct (_ || _); [by intros [= <- <- <- <-]|]. destruct (negb _); [by intros [= <- <- <- <-]|].
    cbv zeta. destruct (vfs_ensure_open_file_capacity _ _ s e) as [[[r1 s1] e1]|] eqn:He; [|done]. apply ensure_frame in He as [H1 H2].
    destruct (negb _); [by intros [= <- <- <- <-]|]. destruct (0 <? _); [destruct (_ <? _)|]; by intros [= <- <- <- <-].
  - unfold vfs_seek. destruct (vfs_get_open_file fd s) as [f|]; [|by intros [= <- <- <-]].
    repeat case_match; simplify_eq; by intros [= <- <- <-].
  - destruct (vfs_tell fd true s). by intros [= <- <- <-].
Qed.
Lemma file_op_bad s e fd o : ~ (is_slot fd /\ holds_file (file_at s fd) = true) -> exists r, run_file_op fd o s e = Some (r, s, e).
Proof using.
  intros Hno. assert (match vfs_get_open_file fd s with Some f => (f_kind f =? VFS_HANDLE_FILE) = false | None => True end) as Hg.
  { unfold vfs_get_open_file. destruct (Z.ltb_spec fd 0); [done|]. destruct (Z.leb_spec VFS_MAX_OPEN_FILES fd); [done|]. cbn.
    destruct (f_active (file_at s fd) =? 0) eqn:Ha; [done|]. destruct (f_kind _ =? _) eqn:Hk; [|done]. destruct Hno. split; [done|]. unfold holds_file. by rewrite Ha, Hk. }
  destruct o as [n|data|offset whence|]; cbn [run_file_op]; [unfold vfs_read | unfold vfs_write | unfold vfs_seek | unfold vfs_tell];
    destruct (vfs_get_open_file fd s) as [f|]; try (rewrite Hg; cbn [negb orb]); by eexists.
Qed.

(** ** Closing a file of the memory file system *)

Lemma read_memfs path n s e i rel : vfs_find_mount path s = Some (i, rel) -> rel <> [] -> m_ops (aget (mounts s) i) = g_memfs_backend_ops ->
  vfs_read_file path n s e = (memfs_backend_read_file rel n (memfs s), e).
Proof using.
  intros Hf Hne Hm. unfold vfs_read_file, ops_read_file. rewrite Hf, Hm. by destruct rel.
Qed.
Lemma write_memfs path bytes s e i rel : vfs_find_mount path s = Some (i, rel) -> m_ops (aget (mounts s) i) = g_memfs_backend_ops ->
  vfs_write_file path bytes s e = match rel with [] => (VFS_ERR_INVALID_PATH, s, e)
    | _ => let '(r, fs) := MemFsSpec.run_op (op_write rel bytes) (memfs s) in (r, s <| memfs := fs |>, e) end.
Proof using.
  intros Hf Hm. unfold vfs_write_file, vfs_change, has_op, change. rewrite Hf, Hm. cbn [Z.eqb orb negb g_memfs_backend_ops Pos.eqb].
  destruct rel as [|c rel]; [done|]. cbn [MemFsSpec.run_op]. by destruct (memfs_backend_write_file _ _ _ _).
Qed.
Lemma write_refused t path bytes : fs_wf t -> (run_op (op_write path bytes) t).1 <> VFS_OK -> becomes (fs_view t) (fs_view (run_op (op_write path bytes) t).2).
Proof using.
  intros Hw Hr. destruct (run_op_sound t (op_write path bytes) Hw) as [_ Hst]. cbn [tree_step] in Hst. case_decide; [by destruct Hst|]. unfold write_step in Hst.
  destruct (parse path) as [[|p0 p]|]; [by destruct Hst | | by destruct Hst]. destruct (fs_view t (removelast (p0 :: p))) as [[|]|]; [| by destruct Hst | by destruct Hst].
  destruct (fs_view t (p0 :: p)) as [[|]|]; [by destruct Hst | by destruct Hst | by destruct Hst as [[? _]|(? & ? & ?)]].
Qed.

(** C27: Closing writes back.  When a file of the memory file system is closed, a
    successful close frees the slot and, if the file was changed, reading its path
    gives exactly the bytes the open file showed (an unchanged file leaves the file
    system alone); a close that fails leaves the file open with its bytes and the
    tree of files as it was.  Other open files do not change. *)
Theorem vfs_close_writes_back s e fd a i rel : vfs_good e s -> is_slot fd -> file_view s fd = Some a ->
  vfs_find_mount (Some (f_path (file_at s fd))) s = Some (i, rel) -> m_ops (aget (mounts s) i) = g_memfs_backend_ops ->
  let '(r, s', e') := vfs_close fd s e in
  keeps_others s s' fd /\
  (r = VFS_OK -> file_view s' fd = None /\
     if f_dirty (file_at s fd) =? 0 then memfs s' = memfs s
     else forall n, Z.max 1 (alen (a_bytes a)) <= n -> vfs_read_file (Some (f_path (file_at s fd))) n s' e' = (VFS_OK, Some (a_bytes a), e')) /\
  (r <> VFS_OK -> file_view s' fd = Some a /\ becomes (fs_view (memfs s)) (fs_view (memfs s'))).
Proof using.
  intros Hg Hfd Ha Hf Hm. assert (fs_wf (memfs s)) as Hw by (apply Hg; exists i; split; [by eapply find_mount_mount | done]).
  pose proof (close_file_ok fd s e Hg) as Hc. unfold vfs_close in *. unfold file_view, view_of in Ha. destruct (holds_file (file_at s fd)) eqn:Hh; [|done]. injection Ha as Ha.
  destruct (get_file fd s Hfd Hh) as [Hgf Hk]. rewrite Hgf in *. apply Z.eqb_eq in Hk. rewrite Hk in *. change (VFS_HANDLE_FILE =? VFS_HANDLE_DIR) with false in *. cbv iota in *.
  assert (file_view s fd = Some a) as Hva by (unfold file_view, view_of; rewrite Hh; by f_equal).
  assert (read_mem (memory s) (f_buffer (file_at s fd)) (f_size (file_at s fd)) = a_bytes a) as Hbytes by (by rewrite <- Ha). rewrite Hbytes in *.
  assert (forall s', f_active (file_at s' fd) = 0 -> file_view s' fd = None) as Hfree by (intros s' Hx; unfold file_view, view_of, holds_file; by rewrite Hx).
  destruct (f_dirty (file_at s fd) =? 0).
  { change (negb (VFS_OK =? VFS_OK)) with false in *. cbv iota in *. pose proof (reset_open_slot fd s e (proj1 Hg) Hfd) as Hrs.
    destruct (vfs_reset_open_file fd s e) as [s' e']. destruct Hc as (_ & Hko & _ & Hok & _). destruct Hrs as (_ & _ & _ & Hmf & _). split; [done|]. split; [|done].
    intros _. split; [by apply Hfree, Hok | done]. }
  rewrite (write_memfs _ _ s e i rel Hf Hm) in *. destruct rel as [|c rel].
  { cbn in *. destruct Hc as (_ & Hko & _). split; [done|]. split; [done|]. intros _. by split. }
  pose proof (write_effect (memfs s) (c :: rel) (a_bytes a) Hw) as Heff. pose proof (write_refused (memfs s) (c :: rel) (a_bytes a) Hw) as Href.
  destruct (MemFsSpec.run_op (op_write (c :: rel) (a_bytes a)) (memfs s)) as [r fs]. cbn [fst snd] in Heff, Href. set (s1 := s <| memfs := fs |>) in *.
  destruct (Z.eqb_spec r VFS_OK) as [->|Hr]; cbn [negb] in *.
  - assert (vfs_safe e s1) as Hs1 by (destruct Hg as [[Hok [H1 H2 H3]] _]; by split). pose proof (reset_open_slot fd s1 e Hs1 Hfd) as Hrs.
    destruct (vfs_reset_open_file fd s1 e) as [s' e']. destruct Hc as (_ & Hko & _ & Hok & _). destruct Hrs as (_ & _ & _ & Hmf & Hmt). split; [done|]. split; [|done].
    intros _. split; [by apply Hfree, Hok|]. intros n Hn. destruct (Heff eq_refl) as (Hw' & p & Hp & Hb).
    rewrite (read_memfs _ n s' e' i (c :: rel)); [|by rewrite <- Hf; apply find_mount_same; rewrite Hmt | done | by rewrite Hmt].
    rewrite Hmf. change (memfs s1) with fs. rewrite (read_spec fs (c :: rel) p n Hw' Hp), Hb. unfold put. rewrite decide_True by done. by rewrite (proj2 (Z.ltb_ge _ _)) by lia.
  - destruct Hc as (_ & Hko & _ & _ & _). split; [done|]. split; [done|]. intros _. split; [done|]. by apply Href.
Qed.

(** ** Histories *)

Definition run_vfs_op (o : vfs_op) (s : VfsState) (e : E) : option (VfsState * E) :=
  match o with
  | VMountMemfs path => Some ((vfs_mount_memfs path s).2, e)
  | VPath o => let '(_, s, e) := run_path_op o s e in Some (s, e)
  | VOpen path mode pid => match vfs_open_for_owner path mode pid s e with Some (_, s, e) => Some (s, e) | None => None end
  | VOpendir path pid => let '(_, s, e) := vfs_opendir_for_owner path pid s e in Some (s, e)
  | VFile fd o => match run_file_op fd o s e with Some (_, s, e) => Some (s, e) | None => None end
  | VReaddir fd => let '(_, _, s, e) := vfs_readdir fd true s e in Some (s, e)
  | VClose fd => let '(_, s, e) := vfs_close fd s e in Some (s, e)
  | VCloseAll pid => let '(_, s, e) := vfs_close_all_for_owner pid s e in Some (s, e)
  end.

Lemma vfs_op_good o s e : vfs_good e s -> vfs_op_fits o s -> exists s' e', run_vfs_op o s e = Some (s', e') /\ vfs_good e' s'.
Proof using.
  intros Hg Hfit. destruct o as [path|o|path mode pid|path pid|fd o|fd|fd|pid]; cbn [run_vfs_op].
  - do 2 eexists. split; [reflexivity|]. by apply mount_memfs_ok.
  - pose proof (path_op_step o s e Hg) as Hx. destruct (run_path_op o s e) as [[r s'] e']. do 2 eexists. split; [reflexivity|]. by eapply backend_good.
  - destruct (open_ok path mode pid s e Hg) as (r & s' & e' & -> & Hg' & _). by do 2 eexists.
  - pose proof (opendir_ok path pid s e Hg) as Hx. destruct (vfs_opendir_for_owner path pid s e) as [[r s'] e']. do 2 eexists. split; [reflexivity | apply Hx].
  - destruct (decide (is_slot fd /\ holds_file (file_at s fd) = true)) as [[Hfd Hf]|Hno].
    + destruct (file_op_ok s e fd o (proj1 Hg) Hfd Hf Hfit) as (r & s' & e' & Hr & Hs' & _). rewrite Hr. do 2 eexists. split; [reflexivity|]. split; [done|].
      apply file_op_frame in Hr as [H1 H2]. apply (ready_same s); [done | done | apply Hg].
    + destruct (file_op_bad s e fd o Hno) as [r ->]. by do 2 eexists.
  - pose proof (readdir_ok fd s e Hg) as Hx. destruct (vfs_readdir fd true s e) as [[[r en] s'] e']. do 2 eexists. split; [reflexivity | apply Hx].
  - pose proof (close_file_ok fd s e Hg) as Hx. destruct (vfs_close fd s e) as [[r s'] e']. do 2 eexists. split; [reflexivity | apply Hx].
  - pose proof (close_all_ok pid s e Hg) as Hx. destruct (vfs_close_all_for_owner pid s e) as [[r s'] e']. do 2 eexists. split; [reflexivity | apply Hx].
Qed.

(** The zero-filled tables before [vfs_init]. *)
Definition vfs_shape (s : VfsState) : Prop :=
  alen (mounts s) = VFS_MAX_MOUNTS /\ alen (open_files s) = VFS_MAX_OPEN_FILES /\ table_shape (memfs s).
Inductive vfs_reachable : VfsState -> E -> Prop :=
| reach_init s e : vfs_shape s -> host_ok e -> vfs_reachable (vfs_init s e).1 (vfs_init s e).2
| reach_op s e o s' e' : vfs_reachable s e -> vfs_op_fits o s -> run_vfs_op o s e = Some (s', e') -> vfs_reachable s' e'.

Lemma reset_all_mounts l : alen l = VFS_MAX_MOUNTS -> forall i, 0 <= i < VFS_MAX_MOUNTS ->
  m_active (aget (for_range 0 VFS_MAX_MOUNTS (fun i l => aset l i (vfs_reset_mount (aget l i))) l) i) = 0.
Proof using.
  intros Hl. apply (for_range_inv (fun k l' => alen l' = VFS_MAX_MOUNTS /\ forall i, 0 <= i < k -> m_active (aget l' i) = 0)); [done | split; [done | lia] |].
  intros k l' Hk [Hl' Hi]. split; [by rewrite alen_aset|]. intros i Hik. destruct (decide (k = i)) as [->|Hne]; [by rewrite aget_aset_eq by lia|].
  rewrite aget_aset_ne by lia. apply Hi. lia.
Qed.
Lemma reset_all_files s e : alen (open_files s) = VFS_MAX_OPEN_FILES ->
  let r := for_range 0 VFS_MAX_OPEN_FILES (fun fd st => vfs_reset_open_file fd (upd_file fd (fun f => f <| f_buffer := 0 |>) st.1) st.2) (s, e) in
  r.2 = e /\ alen (open_files r.1) = VFS_MAX_OPEN_FILES /\ mounts r.1 = mounts s /\ memfs r.1 = memfs s /\ forall fd, is_slot fd -> file_at r.1 fd = inhabitant.
Proof using.
  intros Hl. apply (for_range_inv (fun k (r : VfsState * E) => r.2 = e /\ alen (open_files r.1) = VFS_MAX_OPEN_FILES /\ mounts r.1 = mounts s /\ memfs r.1 = memfs s /\
    forall fd, 0 <= fd < k -> file_at r.1 fd = inhabitant)); [done | split_and!; try done; lia |].
  intros k [s1 e1] Hk (He & Hl1 & Hm1 & Hf1 & Hat). cbn [fst snd] in *. assert (is_slot k) as Hks by done. set (s2 := upd_file k _ s1).
  assert (alen (open_files s2) = VFS_MAX_OPEN_FILES) as Hl2 by (unfold s2; by rewrite files_len_upd).
  assert (f_buffer (file_at s2 k) = 0) as Hb by (unfold s2; rewrite file_at_upd, decide_True by done; done).
  unfold vfs_reset_open_file. rewrite Hb. cbn [Z.eqb fst snd]. set (g := fun f : VFSOpenFile => _). split; [done|]. split; [by rewrite files_len_upd|]. do 2 (split; [done|]).
  intros fd Hfd. assert (is_slot fd) as Hs by (unfold is_slot; lia). rewrite file_at_upd by done. case_decide as Heq.
  - unfold g. revert Hb. generalize (file_at s2 k). intros [] Hb. cbn in *. by rewrite Hb.
  - unfold s2. rewrite file_at_upd, decide_False by done. apply Hat. lia.
Qed.
Lemma init_good s e : vfs_shape s -> host_ok e -> vfs_good (vfs_init s e).2 (vfs_init s e).1.
Proof using.
  intros (Hm & Hf & Ht) Hok. unfold vfs_init. set (s0 := s <| mounts := _ |>). pose proof (reset_all_files s0 e Hf) as Hr. cbv zeta in Hr.
  destruct (for_range 0 VFS_MAX_OPEN_FILES _ (s0, e)) as [s1 e1]. cbn [fst snd] in *. destruct Hr as (-> & Hl & Hmt & Hmf & Hat). split.
  - split; [done|]. assert (forall fd, is_slot fd -> file_at s1 fd = inhabitant) as Hat' by done. split; [done | |].
    + intros fd Hfd. change (file_at _ fd) with (file_at s1 fd). by rewrite Hat'.
    + intros fd fd' Hfd _ _. change (file_at (s1 <| memfs := _ |>) fd) with (file_at s1 fd). by rewrite (Hat' fd Hfd).
  - destruct (reset_at (memfs s) Ht) as [Hlen Hnode]. split.
    + change (memfs (s1 <| memfs := ?x |>)) with x. rewrite Hmf. change (memfs s0) with (memfs s). split; [done|]. intros i Hi. rewrite Hnode by done. by apply Ht.
    + intros (i & [Hi Ha] & _). change (mounts (s1 <| memfs := _ |>)) with (mounts s1) in Ha. rewrite Hmt in Ha. destruct Ha. by apply reset_all_mounts.
Qed.
Lemma reachable_good s e : vfs_reachable s e -> vfs_good e s.
Proof using.
  induction 1 as [s e Hs Hok|s e o s' e' _ IH Hfit Hrun]; [by apply init_good|]. destruct (vfs_op_good o s e IH Hfit) as (s1 & e1 & Hr & Hg). congruence.
Qed.

(** C28: After [vfs_init], with a heap that keeps [VfsLaws] and no backend mounted but the memory file system: whatever calls
    are made (mounting it, operations on paths, opening, reading, writing, seeking, listing, closing, in
    any order, on any handle), with no write that ends past 2^31 bytes in its file (position plus length; such a write may
    not return), every such call returns, every open file has a live
    buffer of its own on the heap that its bytes fit in, free slots hold no
    buffer, the positions stay below 2^31 + 1, and a mounted memory file system
    is a well-formed tree. *)
Theorem vfs_histories_safe s e : vfs_reachable s e ->
  (vfs_inv (blocks e) s /\ host_ok e /\ (memfs_mounted s -> fs_wf (memfs s))) /\
  forall o, vfs_op_fits o s -> exists s' e', run_vfs_op o s e = Some (s', e') /\ vfs_reachable s' e'.
Proof using.
  intros Hr. pose proof (reachable_good s e Hr) as Hg. split; [by destruct Hg as [[? ?] [? ?]]|]. intros o Hfit.
  destruct (vfs_op_good o s e Hg Hfit) as (s' & e' & Hrun & _). exists s', e'. split; [done|]. by eapply reach_op.
Qed.
End History.
