(* ===== verification/Heap.v ===== *)
(** * The kernel heap ([kernel/mm/heap.cpp])

    A block is a header followed by its payload; the headers form a doubly
    linked list in address order, and the free ones are also in one of eight
    doubly linked lists by size.  A header is the record at its address in
    [mem]; an address that was never written, or lies in a region that was
    zeroed, reads as all zeros, and headers that a merge absorbed stay where
    they were, as they do in memory.  Pointers are addresses, 0 the null
    pointer.  Mapping and unmapping pages is reached through [HeapVm].

    The loops that follow links carry fuel, one more than the number of headers
    ever written ([walk_fuel]); [None] is a walk that did not end, and
    [HeapSpec] shows that no walk runs out. *)

From S2P Require Import Prelude KernelEnv.

Definition HEAP_BLOCK_MAGIC : Z := 0x48454150.
Definition HEAP_FREE_BIN_COUNT : Z := 8.
Definition HEAP_PAGE_SIZE : Z := 4096.
Definition VM_KERNEL_HEAP_BASE : Z := 0x40000000.
Definition VM_KERNEL_HEAP_LIMIT : Z := 0x60000000.
(** [VM_FLAG_WRITABLE | VM_FLAG_GLOBAL | VM_FLAG_NO_EXECUTE] *)
Definition HEAP_VM_FLAGS : Z := Z.lor (Z.lor 0x002 0x100) (Z.shiftl 1 63).
(** [sizeof(struct heap_header)] *)
Definition HEADER_SIZE : Z := 48.

Record heap_header := {
  h_magic : Z; h_size : Z; h_requested_size : Z; h_is_free : Z; h_in_free_list : Z;
  h_next : Z; h_prev : Z; h_free_next : Z; h_free_prev : Z }.
#[export] Instance heap_header_settable : Settable heap_header := {| eta_expand h := {|
  h_magic := h_magic h; h_size := h_size h; h_requested_size := h_requested_size h;
  h_is_free := h_is_free h; h_in_free_list := h_in_free_list h; h_next := h_next h;
  h_prev := h_prev h; h_free_next := h_free_next h; h_free_prev := h_free_prev h |} |}.
#[export] Instance heap_header_inhabited : Inhabited heap_header := populate
  {| h_magic := 0; h_size := 0; h_requested_size := 0; h_is_free := 0; h_in_free_list := 0;
     h_next := 0; h_prev := 0; h_free_next := 0; h_free_prev := 0 |}.

(** The static variables of the file, and the memory of the heap. *)
Record HeapState := {
  mem : gmap Z heap_header;
  heap_free_bins : list Z; heap_tail : Z; heap_start : Z; heap_next_virtual : Z;
  heap_mapped_pages : Z; heap_alloc_requests : Z; heap_free_requests : Z;
  heap_alloc_failures : Z; heap_invalid_free_requests : Z; heap_double_free_requests : Z;
  heap_free_list_hits : Z; heap_free_list_misses : Z; heap_current_used_bytes : Z;
  heap_peak_used_bytes : Z; heap_grow_requests : Z }.
#[export] Instance HeapState_settable : Settable HeapState := {| eta_expand s := {|
  mem := mem s; heap_free_bins := heap_free_bins s; heap_tail := heap_tail s;
  heap_start := heap_start s; heap_next_virtual := heap_next_virtual s;
  heap_mapped_pages := heap_mapped_pages s; heap_alloc_requests := heap_alloc_requests s;
  heap_free_requests := heap_free_requests s; heap_alloc_failures := heap_alloc_failures s;
  heap_invalid_free_requests := heap_invalid_free_requests s;
  heap_double_free_requests := heap_double_free_requests s;
  heap_free_list_hits := heap_free_list_hits s; heap_free_list_misses := heap_free_list_misses s;
  heap_current_used_bytes := heap_current_used_bytes s;
  heap_peak_used_bytes := heap_peak_used_bytes s; heap_grow_requests := heap_grow_requests s |} |}.

(** [*block], and an assignment to fields of [*block]. *)
Definition hget (s : HeapState) (b : Z) : heap_header := mem s !!! b.
Definition hset (b : Z) (f : heap_header -> heap_header) (s : HeapState) : HeapState :=
  s <| mem := <[b := f (hget s b)]> (mem s) |>.

Definition walk_fuel (s : HeapState) : nat := S (size (mem s)).

(** The calls into [kernel/mm/vm.cpp]: whether the range was mapped and the
    number of pages mapped; the number of pages unmapped. *)
Class HeapVm (E : Type) := {
  vm_alloc_map_range : Z -> Z -> Z -> E -> (Z * Z) * E;
  vm_unmap_free_range : Z -> Z -> E -> Z * E;
}.

(** ** Helpers *)

Definition align_up_heap (value align : Z) : Z :=
  Z.land (u64 (value + align - 1)) (not64 (align - 1)).
Definition align_down_heap (value align : Z) : Z := Z.land value (not64 (align - 1)).

Definition heap_address_in_mapped_range (s : HeapState) (address size : Z) : bool :=
  if (address =? 0) || (size =? 0) then false
  else
    let end_ := u64 (address + size) in
    (address <=? end_) && (VM_KERNEL_HEAP_BASE <=? address) && (end_ <=? heap_next_virtual s).

Definition heap_block_valid (s : HeapState) (block : Z) : bool :=
  if negb (heap_address_in_mapped_range s block HEADER_SIZE) then false
  else if negb (h_magic (hget s block) =? HEAP_BLOCK_MAGIC) || (h_size (hget s block) <? HEADER_SIZE)
  then false
  else heap_address_in_mapped_range s block (h_size (hget s block)).

Definition heap_bin_index (size : Z) : Z :=
  if size <=? 64 then 0
  else if size <=? 128 then 1
  else if size <=? 256 then 2
  else if size <=? 512 then 3
  else if size <=? 1024 then 4
  else if size <=? 2048 then 5
  else if size <=? 4096 then 6
  else 7.

Definition heap_reset_free_bins (s : HeapState) : HeapState :=
  s <| heap_free_bins := for_range 0 HEAP_FREE_BIN_COUNT (fun i bins => aset bins i 0) (heap_free_bins s) |>.

Definition heap_init_block (block size is_free next prev : Z) (s : HeapState) : HeapState :=
  hset block (fun _ => {| h_magic := HEAP_BLOCK_MAGIC; h_size := size; h_requested_size := 0;
    h_is_free := is_free; h_in_free_list := 0; h_next := next; h_prev := prev; h_free_next := 0;
    h_free_prev := 0 |}) s.

(** ** Free lists *)

Definition heap_remove_free_block (block : Z) (s : HeapState) : HeapState :=
  if negb (heap_block_valid s block) || (h_in_free_list (hget s block) =? 0) then s
  else
    let bin := heap_bin_index (h_size (hget s block)) in
    let s :=
      if nonzero (h_free_prev (hget s block)) then
        hset (h_free_prev (hget s block))
          (fun h => h <| h_free_next := h_free_next (hget s block) |>) s
      else if (bin <? HEAP_FREE_BIN_COUNT) && (aget (heap_free_bins s) bin =? block) then
        s <| heap_free_bins := aset (heap_free_bins s) bin (h_free_next (hget s block)) |>
      else s in
    let s :=
      if nonzero (h_free_next (hget s block)) then
        hset (h_free_next (hget s block))
          (fun h => h <| h_free_prev := h_free_prev (hget s block) |>) s
      else s in
    hset block (fun h => h <| h_free_next := 0 |> <| h_free_prev := 0 |> <| h_in_free_list := 0 |>) s.

Definition heap_insert_free_block (block : Z) (s : HeapState) : HeapState :=
  if negb (heap_block_valid s block) || (h_is_free (hget s block) =? 0)
     || nonzero (h_in_free_list (hget s block)) then s
  else
    let bin := heap_bin_index (h_size (hget s block)) in
    let s := hset block (fun h => h <| h_free_prev := 0 |>
                                    <| h_free_next := aget (heap_free_bins s) bin |>) s in
    let s := if nonzero (aget (heap_free_bins s) bin)
             then hset (aget (heap_free_bins s) bin) (fun h => h <| h_free_prev := block |>) s else s in
    let s := s <| heap_free_bins := aset (heap_free_bins s) bin block |> in
    hset block (fun h => h <| h_in_free_list := 1 |>) s.

(** The walk along one list: the first block that is large enough. *)
Fixpoint find_in_bin (fuel : nat) (s : HeapState) (total_size current : Z) : option Z :=
  match fuel with
  | O => None
  | S fuel =>
    if current =? 0 then Some 0
    else if heap_block_valid s current && nonzero (h_is_free (hget s current))
            && (total_size <=? h_size (hget s current)) then Some current
    else find_in_bin fuel s total_size (h_free_next (hget s current))
  end.
(** The bins from [i] on, [n] of them. *)
Fixpoint find_from_bin (n : nat) (i : Z) (s : HeapState) (total_size : Z) : option Z :=
  match n with
  | O => Some 0
  | S n =>
    match find_in_bin (walk_fuel s) s total_size (aget (heap_free_bins s) i) with
    | None => None
    | Some b => if b =? 0 then find_from_bin n (i + 1) s total_size else Some b
    end
  end.
Definition heap_find_free_block (total_size : Z) (s : HeapState) : option (Z * HeapState) :=
  let bin := heap_bin_index total_size in
  match find_from_bin (Z.to_nat (HEAP_FREE_BIN_COUNT - bin)) bin s total_size with
  | None => None
  | Some b =>
    if b =? 0 then Some (0, s <| heap_free_list_misses := u64 (heap_free_list_misses s + 1) |>)
    else Some (b, s <| heap_free_list_hits := u64 (heap_free_list_hits s + 1) |>)
  end.

(** ** Accounting *)

Definition heap_update_peak_used (s : HeapState) : HeapState :=
  if heap_peak_used_bytes s <? heap_current_used_bytes s
  then s <| heap_peak_used_bytes := heap_current_used_bytes s |> else s.

Definition heap_mark_allocated (block requested : Z) (s : HeapState) : HeapState :=
  let s := hset block (fun h => h <| h_is_free := 0 |> <| h_requested_size := requested |>) s in
  heap_update_peak_used
    (s <| heap_current_used_bytes := u64 (heap_current_used_bytes s + requested) |>).

Definition heap_mark_free (block : Z) (s : HeapState) : HeapState :=
  let r := h_requested_size (hget s block) in
  let s := s <| heap_current_used_bytes :=
    if r <=? heap_current_used_bytes s then heap_current_used_bytes s - r else 0 |> in
  hset block (fun h => h <| h_is_free := 1 |> <| h_requested_size := 0 |>) s.

(** Every byte of the region becomes 0, so no header is left in it. *)
Definition heap_zero_region (region size : Z) (s : HeapState) : HeapState :=
  s <| mem := filter (fun x => ~ (region <= x.1 < region + size)) (mem s) |>.

(** ** Splitting and merging *)

Definition split_block (block total_size : Z) (s : HeapState) : HeapState :=
  if h_size (hget s block) <? total_size + HEADER_SIZE + 16 then s
  else
    let next_block := u64 (block + total_size) in
    let s := heap_remove_free_block block s in
    let s := heap_init_block next_block (u32 (h_size (hget s block) - total_size)) 1
               (h_next (hget s block)) block s in
    let s := if nonzero (h_next (hget s next_block))
             then hset (h_next (hget s next_block)) (fun h => h <| h_prev := next_block |>) s else s in
    let s := hset block (fun h => h <| h_size := total_size |> <| h_next := next_block |>) s in
    let s := if heap_tail s =? block then s <| heap_tail := next_block |> else s in
    heap_insert_free_block next_block s.

Definition heap_blocks_adjacent (s : HeapState) (left right : Z) : bool :=
  heap_block_valid s left && heap_block_valid s right
  && (u64 (left + h_size (hget s left)) =? right).

Definition merge_with_next (block : Z) (s : HeapState) : Z * HeapState :=
  if (block =? 0) || (h_next (hget s block) =? 0) then (block, s)
  else
    let next := h_next (hget s block) in
    if (h_is_free (hget s block) =? 0) || (h_is_free (hget s next) =? 0)
       || negb (heap_blocks_adjacent s block next) then (block, s)
    else
      let s := heap_remove_free_block block s in
      let s := heap_remove_free_block next s in
      let s := hset block (fun h => h <| h_size := u32 (h_size h + h_size (hget s next)) |>
        <| h_requested_size := 0 |> <| h_next := h_next (hget s next) |>) s in
      let s := if nonzero (h_next (hget s block))
               then hset (h_next (hget s block)) (fun h => h <| h_prev := block |>) s else s in
      let s := if heap_tail s =? next then s <| heap_tail := block |> else s in
      (block, heap_insert_free_block block s).

Definition coalesce_around (block : Z) (s : HeapState) : Z * HeapState :=
  if (block =? 0) || negb (heap_block_valid s block) || (h_is_free (hget s block) =? 0) then (block, s)
  else
    let s := heap_insert_free_block block s in
    let prev := h_prev (hget s block) in
    let '(block, s) :=
      if nonzero prev && nonzero (h_is_free (hget s prev)) && heap_blocks_adjacent s prev block
      then merge_with_next prev s else (block, s) in
    merge_with_next block s.

Section Operations.
Context {E : Type} `{KernelEnv E} `{HeapVm E}.

(** ** Growing and shrinking *)

Definition append_region (bytes : Z) (s : HeapState) (e : E) : Z * HeapState * E :=
  let s := s <| heap_grow_requests := u32 (heap_grow_requests s + 1) |> in
  let page_count := u32 (u32 (bytes + HEAP_PAGE_SIZE) - 1) / HEAP_PAGE_SIZE in
  let region := heap_next_virtual s in
  let region_size := page_count * HEAP_PAGE_SIZE in
  if VM_KERNEL_HEAP_LIMIT <? u64 (region + region_size) then (0, s, e)
  else
    let '((ok, mapped_pages), e) := vm_alloc_map_range region region_size HEAP_VM_FLAGS e in
    if ok =? 0 then (0, s, e)
    else
      let s := s <| heap_mapped_pages := u32 (heap_mapped_pages s + mapped_pages) |> in
      let s := s <| heap_next_virtual := u64 (heap_next_virtual s + region_size) |> in
      let s := heap_zero_region region region_size s in
      let s := heap_init_block region (u32 (page_count * HEAP_PAGE_SIZE)) 1 0 (heap_tail s) s in
      let s :=
        if heap_start s =? 0 then s <| heap_start := region |> <| heap_tail := region |>
        else (hset (heap_tail s) (fun h => h <| h_next := region |>) s) <| heap_tail := region |> in
      (region, heap_insert_free_block region s, e).

(** One iteration of [shrink_heap_tail]: whether the loop goes on. *)
Definition shrink_step (s : HeapState) (e : E) : bool * HeapState * E :=
  if (heap_tail s =? 0) || (h_is_free (hget s (heap_tail s)) =? 0) then (false, s, e)
  else
    let block_start := heap_tail s in
    let block_end := u64 (block_start + h_size (hget s block_start)) in
    if negb (block_end =? heap_next_virtual s) then (false, s, e)
    else
      let releasable_start :=
        if (block_start =? align_down_heap block_start HEAP_PAGE_SIZE)
           && (HEAP_PAGE_SIZE <=? h_size (hget s block_start))
        then block_start else align_up_heap (u64 (block_start + HEADER_SIZE)) HEAP_PAGE_SIZE in
      if block_end <=? releasable_start then (false, s, e)
      else
        let remove_entire_block := releasable_start =? block_start in
        let previous_tail := if remove_entire_block then h_prev (hget s block_start) else 0 in
        let s := heap_remove_free_block block_start s in
        let page_count := u32 ((block_end - releasable_start) / HEAP_PAGE_SIZE) in
        let '(unmapped, e) := vm_unmap_free_range releasable_start page_count e in
        let s := s <| heap_mapped_pages :=
          if heap_mapped_pages s <? unmapped then 0 else heap_mapped_pages s - unmapped |> in
        let s := s <| heap_next_virtual := releasable_start |> in
        if remove_entire_block then
          let s := if nonzero previous_tail
                   then hset previous_tail (fun h => h <| h_next := 0 |>) s
                   else s <| heap_start := 0 |> in
          (true, s <| heap_tail := previous_tail |>, e)
        else
          let s := hset block_start (fun h => h <| h_size := u32 (releasable_start - block_start) |>
                                                <| h_next := 0 |>) s in
          (false, heap_insert_free_block block_start s, e).

Fixpoint shrink_loop (fuel : nat) (s : HeapState) (e : E) : option (HeapState * E) :=
  match fuel with
  | O => None
  | S fuel =>
    let '(again, s, e) := shrink_step s e in
    if again : bool then shrink_loop fuel s e else Some (s, e)
  end.
Definition shrink_heap_tail (s : HeapState) (e : E) : option (HeapState * E) :=
  shrink_loop (walk_fuel s) s e.

(** ** Entry points *)

Definition heap_init (s : HeapState) (e : E) : HeapState * E :=
  let s := s <| heap_start := 0 |> <| heap_tail := 0 |> in
  let s := heap_reset_free_bins s in
  let s := s <| heap_next_virtual := VM_KERNEL_HEAP_BASE |> <| heap_mapped_pages := 0 |>
    <| heap_alloc_requests := 0 |> <| heap_free_requests := 0 |> <| heap_alloc_failures := 0 |>
    <| heap_invalid_free_requests := 0 |> <| heap_double_free_requests := 0 |>
    <| heap_free_list_hits := 0 |> <| heap_free_list_misses := 0 |>
    <| heap_current_used_bytes := 0 |> <| heap_peak_used_bytes := 0 |>
    <| heap_grow_requests := 0 |> in
  let '(_, s, e) := append_region (HEAP_PAGE_SIZE * 4) s e in
  (heap_update_peak_used s, e).

Definition alloc_failed (s : HeapState) : HeapState :=
  s <| heap_alloc_failures := u64 (heap_alloc_failures s + 1) |>.

(** Lines 378-381 and 395-398. *)
Definition take_block (current total_size size : Z) (s : HeapState) : Z * HeapState :=
  let s := split_block current total_size s in
  let s := heap_remove_free_block current s in
  (u64 (current + HEADER_SIZE), heap_mark_allocated current (u32 size) s).

Definition kmalloc (size : Z) (s : HeapState) (e : E) : option (Z * HeapState * E) :=
  let s := s <| heap_alloc_requests := u64 (heap_alloc_requests s + 1) |> in
  if size =? 0 then Some (0, alloc_failed s, e)
  else
    let '(fault, e) := kernel_fault_injection_should_fail KERNEL_FAULT_POINT_HEAP e in
    if fault then Some (0, alloc_failed s, e)
    else if 0xFFFFFFFF - HEADER_SIZE <? size then Some (0, alloc_failed s, e)
    else
      let aligned_total := align_up_heap (u64 (size + HEADER_SIZE)) 16 in
      if 0xFFFFFFFF <? aligned_total then Some (0, alloc_failed s, e)
      else
        let total_size := u32 aligned_total in
        match heap_find_free_block total_size s with
        | None => None
        | Some (current, s) =>
          if nonzero current then
            let '(p, s) := take_block current total_size size s in Some (p, s, e)
          else
            let grow_size := if total_size <? HEAP_PAGE_SIZE * 4 then HEAP_PAGE_SIZE * 4 else total_size in
            let '(current, s, e) := append_region grow_size s e in
            if current =? 0 then Some (0, alloc_failed s, e)
            else let '(p, s) := take_block current total_size size s in Some (p, s, e)
        end.

(** The loop of [heap_coalesce] at [curr]. *)
Fixpoint coalesce_loop (fuel : nat) (curr : Z) (s : HeapState) : option HeapState :=
  match fuel with
  | O => None
  | S fuel =>
    if (curr =? 0) || (h_next (hget s curr) =? 0) then Some s
    else
      let next := h_next (hget s curr) in
      let curr_end := u64 (curr + h_size (hget s curr)) in
      if heap_block_valid s curr && heap_block_valid s next && nonzero (h_is_free (hget s curr))
         && nonzero (h_is_free (hget s next)) && (curr_end =? next) then
        let s := heap_remove_free_block curr s in
        let s := heap_remove_free_block next s in
        let s := hset curr (fun h => h <| h_size := u32 (h_size h + h_size (hget s next)) |>
                                       <| h_requested_size := 0 |>) s in
        let s := if heap_tail s =? next then s <| heap_tail := curr |> else s in
        let s := hset curr (fun h => h <| h_next := h_next (hget s next) |>) s in
        let s := if nonzero (h_next (hget s curr))
                 then hset (h_next (hget s curr)) (fun h => h <| h_prev := curr |>) s else s in
        coalesce_loop fuel curr (heap_insert_free_block curr s)
      else coalesce_loop fuel next s
  end.
Definition heap_coalesce (s : HeapState) : option HeapState :=
  coalesce_loop (walk_fuel s) (heap_start s) s.

Definition kfree (ptr : Z) (s : HeapState) (e : E) : option (HeapState * E) :=
  if ptr =? 0 then Some (s, e)
  else
    let s := s <| heap_free_requests := u64 (heap_free_requests s + 1) |> in
    let header := u64 (ptr - HEADER_SIZE) in
    if negb (heap_block_valid s header) then
      Some (s <| heap_invalid_free_requests := u64 (heap_invalid_free_requests s + 1) |>, e)
    else if nonzero (h_is_free (hget s header)) then
      Some (s <| heap_double_free_requests := u64 (heap_double_free_requests s + 1) |>, e)
    else
      let s := heap_mark_free header s in
      let '(_, s) := coalesce_around header s in
      shrink_heap_tail s e.
End Operations.

(** ** Reports *)

(** The blocks from [current] on. *)
Fixpoint walk_blocks (fuel : nat) (s : HeapState) (current : Z) : option (list Z) :=
  match fuel with
  | O => None
  | S fuel =>
    if current =? 0 then Some []
    else
      match walk_blocks fuel s (h_next (hget s current)) with
      | None => None
      | Some l => Some (current :: l)
      end
  end.
Definition heap_walk (s : HeapState) : option (list Z) := walk_blocks (walk_fuel s) s (heap_start s).

Definition block_free_bytes (s : HeapState) (b : Z) : Z :=
  if heap_block_valid s b && nonzero (h_is_free (hget s b)) && (HEADER_SIZE <=? h_size (hget s b))
  then h_size (hget s b) - HEADER_SIZE else 0.

Definition heap_total_free (s : HeapState) : option Z :=
  foldl (fun total b => u64 (total + block_free_bytes s b)) 0 <$> heap_walk s.
Definition heap_total_used (s : HeapState) : Z := heap_current_used_bytes s.
Definition heap_total_mapped_bytes (s : HeapState) : Z := heap_mapped_pages s * HEAP_PAGE_SIZE.
Definition heap_mapped_page_count (s : HeapState) : Z := heap_mapped_pages s.
Definition heap_region_count (s : HeapState) : option Z :=
  foldl (fun count _ => u32 (count + 1)) 0 <$> heap_walk s.
(** The field [largest_free_bytes] of [heap_get_stats]. *)
Definition heap_largest_free (s : HeapState) : option Z :=
  foldl (fun largest b => if largest <? block_free_bytes s b then block_free_bytes s b else largest) 0
  <$> heap_walk s.

Record HeapStats := {
  st_used_bytes : Z; st_free_bytes : Z; st_mapped_bytes : Z; st_peak_used_bytes : Z;
  st_largest_free_bytes : Z; st_alloc_requests : Z; st_free_requests : Z; st_alloc_failures : Z;
  st_invalid_free_requests : Z; st_double_free_requests : Z; st_free_list_hits : Z;
  st_free_list_misses : Z; st_free_bin_count : Z; st_mapped_pages : Z; st_region_count : Z;
  st_grow_requests : Z }.
Definition heap_get_stats (s : HeapState) : option HeapStats :=
  match heap_largest_free s, heap_total_free s, heap_region_count s with
  | Some largest_free, Some free, Some regions => Some {|
      st_used_bytes := heap_current_used_bytes s; st_free_bytes := free;
      st_mapped_bytes := heap_total_mapped_bytes s; st_peak_used_bytes := heap_peak_used_bytes s;
      st_largest_free_bytes := largest_free; st_alloc_requests := heap_alloc_requests s;
      st_free_requests := heap_free_requests s; st_alloc_failures := heap_alloc_failures s;
      st_invalid_free_requests := heap_invalid_free_requests s;
      st_double_free_requests := heap_double_free_requests s;
      st_free_list_hits := heap_free_list_hits s; st_free_list_misses := heap_free_list_misses s;
      st_free_bin_count := HEAP_FREE_BIN_COUNT; st_mapped_pages := heap_mapped_pages s;
      st_region_count := regions; st_grow_requests := heap_grow_requests s |}
  | _, _, _ => None
  end.
