(* ===== verification/HeapBlocks.v ===== *)
(** * The block list and the bins of the kernel heap

    The invariant ([heap_ok]): the blocks lie one after the other from the base
    of the heap to its end, linked in that order in both directions; each bin
    is a doubly linked list of free blocks of its sizes.  Linking, unlinking
    and splitting keep it. *)

From S2P Require Import Prelude KernelEnv LinkedList Heap.

(** ** Reading and writing headers *)

Definition nxt (s : HeapState) (b : Z) : Z := h_next (hget s b).
Definition prv (s : HeapState) (b : Z) : Z := h_prev (hget s b).
Definition siz (s : HeapState) (b : Z) : Z := h_size (hget s b).
Definition fnx (s : HeapState) (b : Z) : Z := h_free_next (hget s b).
Definition fpv (s : HeapState) (b : Z) : Z := h_free_prev (hget s b).

Lemma hget_hset b f s c : hget (hset b f s) c = if decide (c = b) then f (hget s b) else hget s c.
Proof.
  unfold hget at 1, hset. simpl. rewrite lookup_total_insert. repeat case_decide; try congruence. done.
Qed.

(** The fields the block list is made of. *)
Definition core (h : heap_header) := (h_magic h, h_size h, h_requested_size h, h_is_free h, h_next h, h_prev h).
(** The fields the free lists are made of. *)
Definition links (h : heap_header) := (h_in_free_list h, h_free_next h, h_free_prev h).

(** ** The invariant *)

Record block_ok (h : heap_header) : Prop := {
  bo_magic : h_magic h = HEAP_BLOCK_MAGIC;
  bo_size : HEADER_SIZE <= h_size h;
  bo_align : h_size h mod 16 = 0;
  bo_free : h_is_free h = 0 \/ h_is_free h = 1;
  bo_requested : 0 <= h_requested_size h <= h_size h - HEADER_SIZE;
}.

Record chain_ok (s : HeapState) (L : list Z) : Prop := {
  co_start : heap_start s = first_or 0 L;
  co_tail : heap_tail s = last_or 0 L;
  co_links : dseg (nxt s) (prv s) 0 L 0;
  co_tiled : tiled (siz s) VM_KERNEL_HEAP_BASE L (heap_next_virtual s);
  co_top : heap_next_virtual s <= VM_KERNEL_HEAP_LIMIT;
  co_page : heap_next_virtual s mod HEAP_PAGE_SIZE = 0;
  co_blocks : forall b, b ∈ L -> block_ok (hget s b);
}.

Definition is_bin (i : Z) : Prop := 0 <= i < HEAP_FREE_BIN_COUNT.
Record bin_ok (s : HeapState) (L : list Z) (i : Z) (l : list Z) : Prop := {
  bi_links : dseg (fnx s) (fpv s) 0 l 0;
  bi_nodup : NoDup l;
  bi_head : aget (heap_free_bins s) i = first_or 0 l;
  bi_member : forall b, b ∈ l -> b ∈ L /\ h_is_free (hget s b) = 1 /\ h_in_free_list (hget s b) = 1 /\
    heap_bin_index (siz s b) = i;
}.
Record bins_ok (s : HeapState) (L : list Z) (F : Z -> list Z) : Prop := {
  bs_len : alen (heap_free_bins s) = HEAP_FREE_BIN_COUNT;
  bs_bin : forall i, is_bin i -> bin_ok s L i (F i);
  bs_out : forall b, b ∈ L -> b ∉ F (heap_bin_index (siz s b)) -> h_in_free_list (hget s b) = 0;
}.

(** [F i] is bin [i]. *)
Definition heap_ok (s : HeapState) (L : list Z) (F : Z -> list Z) : Prop := chain_ok s L /\ bins_ok s L F.

Lemma bin_index_range n : is_bin (heap_bin_index n).
Proof. unfold is_bin, heap_bin_index, HEAP_FREE_BIN_COUNT. repeat case_match; lia. Qed.

Lemma chain_range s L b : chain_ok s L -> b ∈ L ->
  VM_KERNEL_HEAP_BASE <= b /\ b + siz s b <= heap_next_virtual s /\ HEADER_SIZE <= siz s b.
Proof.
  intros Hc Hb. destruct (tiled_range _ _ _ _ (co_tiled _ _ Hc)) as [_ Hr].
  - intros c Hc'. pose proof (bo_size _ (co_blocks _ _ Hc c Hc')). unfold siz, HEADER_SIZE in *. lia.
  - specialize (Hr b Hb). pose proof (bo_size _ (co_blocks _ _ Hc b Hb)). unfold siz in *. lia.
Qed.
Lemma chain_pos s L : chain_ok s L -> forall b, b ∈ L -> 0 < siz s b.
Proof. intros Hc b Hb. pose proof (chain_range s L b Hc Hb). unfold HEADER_SIZE in *. lia. Qed.
Lemma chain_nodup s L : chain_ok s L -> NoDup L.
Proof. intros Hc. eapply tiled_nodup; [apply (co_tiled _ _ Hc) | by apply chain_pos]. Qed.
Lemma chain_nonzero s L : chain_ok s L -> forall b, b ∈ L -> b <> 0.
Proof. intros Hc b Hb. pose proof (chain_range s L b Hc Hb). unfold VM_KERNEL_HEAP_BASE in *. lia. Qed.

Ltac heap_consts := unfold VM_KERNEL_HEAP_BASE, VM_KERNEL_HEAP_LIMIT, HEADER_SIZE, HEAP_PAGE_SIZE,
  HEAP_FREE_BIN_COUNT in *.

Lemma chain_end s L b : chain_ok s L -> b ∈ L -> u64 (b + siz s b) = b + siz s b.
Proof.
  intros Hc Hb. pose proof (chain_range s L b Hc Hb). pose proof (co_top _ _ Hc). heap_consts.
  apply u64_small. unfold is_u64. lia.
Qed.

Lemma in_range_true s a n : 0 < n -> VM_KERNEL_HEAP_BASE <= a -> a + n <= heap_next_virtual s ->
  heap_next_virtual s <= VM_KERNEL_HEAP_LIMIT -> heap_address_in_mapped_range s a n = true.
Proof.
  intros Hn Ha He Hl. unfold heap_address_in_mapped_range. heap_consts.
  rewrite (proj2 (Z.eqb_neq a 0)), (proj2 (Z.eqb_neq n 0)) by lia. cbn [orb].
  rewrite u64_small by (unfold is_u64; lia). rewrite !andb_true_iff, !Z.leb_le. lia.
Qed.
Lemma valid_header s b : block_ok (hget s b) -> VM_KERNEL_HEAP_BASE <= b ->
  b + siz s b <= heap_next_virtual s -> heap_next_virtual s <= VM_KERNEL_HEAP_LIMIT ->
  heap_block_valid s b = true.
Proof.
  intros [Hm Hs _ _ _] Hb He Hl. unfold heap_block_valid. unfold siz in *.
  rewrite in_range_true by (heap_consts; lia). rewrite Hm, Z.eqb_refl. cbn [negb orb].
  rewrite (proj2 (Z.ltb_ge _ _)) by lia. apply in_range_true; heap_consts; lia.
Qed.
Lemma chain_valid s L b : chain_ok s L -> b ∈ L -> heap_block_valid s b = true.
Proof.
  intros Hc Hb. pose proof (chain_range s L b Hc Hb). apply valid_header; [by apply Hc | lia | lia | apply Hc].
Qed.

(** ** Framing *)

Lemma core_eq h h' : core h' = core h -> h_magic h' = h_magic h /\ h_size h' = h_size h /\
  h_requested_size h' = h_requested_size h /\ h_is_free h' = h_is_free h /\ h_next h' = h_next h /\
  h_prev h' = h_prev h.
Proof. unfold core. intros [=]. done. Qed.
Lemma links_eq h h' : links h' = links h -> h_in_free_list h' = h_in_free_list h /\
  h_free_next h' = h_free_next h /\ h_free_prev h' = h_free_prev h.
Proof. unfold links. intros [=]. done. Qed.

Lemma block_ok_core h h' : core h' = core h -> block_ok h -> block_ok h'.
Proof. intros (A & B & C & D & _)%core_eq []. constructor; congruence. Qed.

Lemma chain_frame s s' L : chain_ok s L -> heap_start s' = heap_start s -> heap_tail s' = heap_tail s ->
  heap_next_virtual s' = heap_next_virtual s ->
  (forall b, b ∈ L -> core (hget s' b) = core (hget s b)) -> chain_ok s' L.
Proof.
  intros [] H1 H2 H3 Hc. constructor; try congruence.
  - eapply dseg_ext; [|done]. intros b Hb. destruct (core_eq _ _ (Hc b Hb)) as (_ & _ & _ & _ & A & B).
    by unfold nxt, prv.
  - rewrite H3. eapply tiled_ext; [|done]. intros b Hb. by destruct (core_eq _ _ (Hc b Hb)) as (_ & A & _).
  - intros b Hb. eapply block_ok_core; [by apply Hc | by apply co_blocks0].
Qed.

(** Bins are framed by what they are made of: the members' links, flags and
    sizes. *)
Lemma bins_frame s s' L L' F : bins_ok s L F -> heap_free_bins s' = heap_free_bins s ->
  (forall b, b ∈ F (heap_bin_index (siz s b)) -> b ∈ L -> b ∈ L' /\ links (hget s' b) = links (hget s b) /\
     h_is_free (hget s' b) = h_is_free (hget s b) /\ siz s' b = siz s b) ->
  (forall b, b ∈ L' -> b ∉ F (heap_bin_index (siz s' b)) -> h_in_free_list (hget s' b) = 0) ->
  bins_ok s' L' F.
Proof.
  intros [Hl Hb Ho] He Hm Hout. constructor; [by rewrite He | | done].
  intros i Hi. destruct (Hb i Hi) as [Hd Hn Hh Hmem].
  assert (forall b, b ∈ F i -> b ∈ L' /\ links (hget s' b) = links (hget s b) /\
     h_is_free (hget s' b) = h_is_free (hget s b) /\ siz s' b = siz s b) as Hk.
  { intros b Hbi. destruct (Hmem b Hbi) as (HL & _ & _ & Hbin). apply Hm; [by rewrite Hbin | done]. }
  constructor; [| done | by rewrite He |].
  - eapply dseg_ext; [|exact Hd]. intros b Hbi. destruct (Hk b Hbi) as (_ & Hlk & _).
    apply links_eq in Hlk as (_ & A & B). by unfold fnx, fpv.
  - intros b Hbi. destruct (Hk b Hbi) as (HL & Hlk & Hf & Hs). destruct (Hmem b Hbi) as (_ & A & B & C).
    apply links_eq in Hlk as (Hin & _). rewrite Hf, Hin, Hs. done.
Qed.

(** ** Unlinking a free block *)

Ltac hsimpl := repeat rewrite hget_hset; repeat case_decide; subst; try done; try congruence.

(** [s'] differs from [s] in memory and bins only. *)
Definition same_statics (s s' : HeapState) : Prop :=
  exists m bins, s' = s <| mem := m |> <| heap_free_bins := bins |>.
Lemma same_statics_refl s : same_statics s s.
Proof. exists (mem s), (heap_free_bins s). by destruct s. Qed.
Lemma same_statics_trans s1 s2 s3 : same_statics s1 s2 -> same_statics s2 s3 -> same_statics s1 s3.
Proof. intros (m1 & b1 & ->) (m2 & b2 & ->). by exists m2, b2. Qed.
Lemma same_statics_hset b f s : same_statics s (hset b f s).
Proof. exists (<[b := f (hget s b)]> (mem s)), (heap_free_bins s). by destruct s. Qed.
Lemma same_statics_bins l s : same_statics s (s <| heap_free_bins := l |>).
Proof. exists (mem s), l. by destruct s. Qed.
#[export] Hint Resolve same_statics_refl same_statics_hset same_statics_bins : kernel.

Lemma hget_bins l s c : hget (s <| heap_free_bins := l |>) c = hget s c.
Proof. done. Qed.

(** What unlinking writes, field by field. *)
Lemma remove_fields s b : heap_block_valid s b = true -> h_in_free_list (hget s b) = 1 ->
  fpv s b <> b -> fnx s b <> b ->
  (fpv s b = 0 -> aget (heap_free_bins s) (heap_bin_index (siz s b)) = b) ->
  let s' := heap_remove_free_block b s in
  same_statics s s' /\ (forall c, core (hget s' c) = core (hget s c)) /\
  (forall c, h_in_free_list (hget s' c) = if decide (c = b) then 0 else h_in_free_list (hget s c)) /\
  (forall c, c <> b -> c <> 0 -> fnx s' c = if decide (c = fpv s b) then fnx s b else fnx s c) /\
  (forall c, c <> b -> c <> 0 -> fpv s' c = if decide (c = fnx s b) then fpv s b else fpv s c) /\
  heap_free_bins s' = if decide (fpv s b = 0)
    then aset (heap_free_bins s) (heap_bin_index (siz s b)) (fnx s b) else heap_free_bins s.
Proof.
  intros Hv Hin Hp Hn Hhead. cbv zeta. unfold heap_remove_free_block. rewrite Hv, Hin.
  cbn [negb orb Z.eqb]. fold (fpv s b) (fnx s b) (siz s b) in *.
  set (bin := heap_bin_index (siz s b)) in *.
  set (s1 := if nonzero (fpv s b) then _ else _).
  assert (same_statics s s1 /\ (forall c, core (hget s1 c) = core (hget s c)) /\
    (forall c, h_in_free_list (hget s1 c) = h_in_free_list (hget s c)) /\
    (forall c, c <> 0 -> fnx s1 c = if decide (c = fpv s b) then fnx s b else fnx s c) /\
    (forall c, fpv s1 c = fpv s c) /\
    heap_free_bins s1 = if decide (fpv s b = 0) then aset (heap_free_bins s) bin (fnx s b)
                        else heap_free_bins s) as (A1 & A2 & A3 & A4 & A5 & A6).
  { unfold s1, nonzero. destruct (fpv s b =? 0) eqn:Hz; cbn [negb].
    - apply Z.eqb_eq in Hz. rewrite (Hhead Hz), Z.eqb_refl.
      pose proof (bin_index_range (siz s b)) as [_ Hr]. fold bin in Hr. rewrite (proj2 (Z.ltb_lt _ _)) by done.
      cbn [andb]. rewrite decide_True by done. split_and!; try done; [apply same_statics_bins|].
      intros c Hc. rewrite Hz, decide_False by done. done.
    - apply Z.eqb_neq in Hz. rewrite (decide_False (P := fpv s b = 0)) by done. unfold fnx, fpv in *.
      split_and!; try (apply same_statics_hset); try done; intros c; hsimpl. }
  clearbody s1. unfold fnx in A4, Hn. unfold fpv in A5, Hp.
  assert (h_free_next (hget s1 b) = h_free_next (hget s b)) as En.
  { destruct (decide (b = 0)) as [->|Hb0].
    - exfalso. by unfold heap_block_valid, heap_address_in_mapped_range in Hv.
    - rewrite A4 by done. rewrite decide_False; [done|]. unfold fpv. congruence. }
  fold (fnx s1 b). unfold fnx. rewrite En. fold (fnx s b).
  set (s2 := if nonzero (fnx s b) then _ else s1).
  assert (same_statics s1 s2 /\ (forall c, core (hget s2 c) = core (hget s1 c)) /\
    (forall c, h_in_free_list (hget s2 c) = h_in_free_list (hget s1 c)) /\
    (forall c, h_free_next (hget s2 c) = h_free_next (hget s1 c)) /\
    (forall c, c <> 0 -> h_free_prev (hget s2 c) = if decide (c = fnx s b) then fpv s b else h_free_prev (hget s1 c)) /\
    heap_free_bins s2 = heap_free_bins s1) as (B1 & B2 & B3 & B4 & B5 & B6).
  { unfold s2, nonzero. destruct (fnx s b =? 0) eqn:Hz; cbn [negb].
    - apply Z.eqb_eq in Hz. split_and!; try done; [apply same_statics_refl|].
      intros c Hc. by rewrite Hz, decide_False.
    - split_and!; try done; [apply same_statics_hset| | | |]; intros c; hsimpl; simpl; done. }
  clearbody s2. split; [eapply same_statics_trans; [exact A1|]; eapply same_statics_trans; [exact B1|]; apply same_statics_hset|].
  split; [intros c; hsimpl; rewrite <- A2, <- B2; done|].
  split; [intros c; hsimpl; by rewrite B3, A3|].
  split; [intros c Hc Hc0; unfold fnx; rewrite hget_hset, decide_False by done; by rewrite B4, A4|].
  split; [intros c Hc Hc0; unfold fpv; rewrite hget_hset, decide_False by done; by rewrite B5, A5|].
  change (heap_free_bins (hset b _ s2)) with (heap_free_bins s2). by rewrite B6.
Qed.

Lemma bin_unique s L F b i j : bins_ok s L F -> is_bin i -> is_bin j -> b ∈ F i -> b ∈ F j -> i = j.
Proof.
  intros Hb Hi Hj H1 H2. destruct (bi_member _ _ _ _ (bs_bin _ _ _ Hb i Hi) b H1) as (_ & _ & _ & <-).
  by destruct (bi_member _ _ _ _ (bs_bin _ _ _ Hb j Hj) b H2) as (_ & _ & _ & <-).
Qed.

(** A bin none of whose links, flags and sizes change. *)
Lemma bin_frame s s' L i l : bin_ok s L i l -> aget (heap_free_bins s') i = aget (heap_free_bins s) i ->
  (forall c, c ∈ l -> fnx s' c = fnx s c /\ fpv s' c = fpv s c /\ h_is_free (hget s' c) = h_is_free (hget s c) /\
     h_in_free_list (hget s' c) = h_in_free_list (hget s c) /\ siz s' c = siz s c) ->
  bin_ok s' L i l.
Proof.
  intros [Hd Hnd Hh Hm] He Hk. constructor; [| done | by rewrite He |].
  - eapply dseg_ext; [|exact Hd]. intros c Hc. by destruct (Hk c Hc) as (? & ? & _).
  - intros c Hc. destruct (Hk c Hc) as (_ & _ & -> & -> & ->). by apply Hm.
Qed.

(** The bins without a block. *)
Definition bins_without (b : Z) (F : Z -> list Z) (i : Z) : list Z := filter (fun c => c <> b) (F i).

Lemma filter_absent (l : list Z) b : b ∉ l -> filter (fun c => c <> b) l = l.
Proof.
  induction l as [|c l IH]; [done|]. intros [Hc Hl]%not_elem_of_cons.
  rewrite filter_cons_True by done. by rewrite IH.
Qed.
Lemma filter_split (l1 l2 : list Z) b : b ∉ l1 -> b ∉ l2 ->
  filter (fun c => c <> b) (l1 ++ b :: l2) = l1 ++ l2.
Proof. intros H1 H2. rewrite filter_app, filter_cons_False by tauto. by rewrite !filter_absent. Qed.

Lemma unlink_ok s L F b : heap_ok s L F -> b ∈ F (heap_bin_index (siz s b)) ->
  let s' := heap_remove_free_block b s in
  heap_ok s' L (bins_without b F) /\ same_statics s s' /\ (forall c, core (hget s' c) = core (hget s c)) /\
  (b ∈ L /\ h_is_free (hget s b) = 1).
Proof.
  intros [Hc Hb] Hin. cbv zeta. set (i := heap_bin_index (siz s b)) in *.
  assert (is_bin i) as Hi by apply bin_index_range. pose proof (bs_bin _ _ _ Hb i Hi) as [Hd Hnd Hhead Hmem].
  destruct (Hmem b Hin) as (HbL & Hfree & Hlist & _).
  pose proof Hin as Hsplit. apply list_elem_of_split in Hsplit as (l1 & l2 & HF). rewrite HF in Hd, Hnd, Hhead.
  assert (forall c, c ∈ l1 ++ b :: l2 -> c <> 0) as Hnz.
  { intros c Hcl. apply (chain_nonzero s L Hc). apply Hmem. by rewrite HF. }
  destruct (whole_parts l1 l2 b Hnd Hnz) as (N1 & N2 & B1 & B2 & D & Z1 & Z2 & Zb).
  destruct (dseg_at _ _ _ _ _ _ _ Hd) as [Hp Hn].
  assert (fpv s b <> b) as Hpb.
  { rewrite Hp. destruct (last_or_elem 0 l1) as [E|E]; congruence. }
  assert (fnx s b <> b) as Hnb.
  { rewrite Hn. destruct (first_or_elem 0 l2) as [E|E]; congruence. }
  assert (fpv s b = 0 -> l1 = []) as Hl1 by (rewrite Hp; by apply last_or_zero).
  destruct (remove_fields s b (chain_valid s L b Hc HbL) Hlist Hpb Hnb) as (Hst & Hco & Hil & Hfn & Hfp & Hbins).
  { intros Hz. fold i. by rewrite Hhead, (Hl1 Hz). }
  fold i in Hbins. set (s' := heap_remove_free_block b s) in *. clearbody s'.
  assert (forall c, siz s' c = siz s c) as Hsz by (intros c; by destruct (core_eq _ _ (Hco c)) as (_ & ? & _)).
  assert (forall c, h_is_free (hget s' c) = h_is_free (hget s c)) as Hfr by (intros c; by destruct (core_eq _ _ (Hco c)) as (_ & _ & _ & ? & _)).
  split; [|by split_and!].
  split. { destruct Hst as (m & bins & ->). by eapply chain_frame. }
  constructor.
  - rewrite Hbins. case_decide; rewrite ?alen_aset; apply Hb.
  - intros j Hj. unfold bins_without. destruct (decide (j = i)) as [->|Hne].
    + rewrite HF, filter_split by done. constructor.
      * apply (dseg_remove l1 l2 b Hnd Hnz (fnx s) (fpv s)); [done | |]; intros c Hc'; [apply Hfn | apply Hfp];
          try (apply Hnz; set_solver); intros ->; set_solver.
      * apply NoDup_app in Hnd as (? & ? & [_ ?]%NoDup_cons). apply NoDup_app. split_and!; [done | | done]. set_solver.
      * rewrite Hbins. destruct (decide (fpv s b = 0)) as [Hz|Hz].
        -- rewrite aget_aset_eq by (rewrite (bs_len _ _ _ Hb); apply Hi). by rewrite Hn, (Hl1 Hz).
        -- rewrite Hhead, !first_or_app. apply first_or_nonempty. intros ->. apply Hz. by rewrite Hp.
      * intros c Hc'. assert (c <> b) as Hcb by (intros ->; set_solver).
        destruct (Hmem c) as (H1 & H2 & H3 & H4); [rewrite HF; set_solver|].
        rewrite Hfr, Hil, Hsz, decide_False by done. done.
    + pose proof (bs_bin _ _ _ Hb j Hj) as [Hdj Hndj Hhj Hmj].
      assert (b ∉ F j) as Hbj by (intros Hbj; apply Hne; by eapply bin_unique).
      rewrite filter_absent by done.
      assert (forall c, c ∈ F j -> c <> b /\ c <> 0 /\ c <> fpv s b /\ c <> fnx s b) as Hout.
      { intros c Hcj. split; [by intros ->|]. assert (c <> 0) as Hc0 by (apply (chain_nonzero s L Hc), Hmj, Hcj).
        assert (c ∉ F i) as Hci by (intros Hci; apply Hne; by eapply bin_unique).
        rewrite HF in Hci. split; [done|]. rewrite Hp, Hn. split; intros ->.
        - destruct (last_or_elem 0 l1) as [E|E]; [done | apply Hci; set_solver].
        - destruct (first_or_elem 0 l2) as [E|E]; [done | apply Hci; set_solver]. }
      apply (bin_frame s); [by apply Hb | |].
      * rewrite Hbins. case_decide; [|done]. rewrite aget_aset_ne; [done | apply Hi | apply Hj | congruence].
      * intros c Hcj. destruct (Hout c Hcj) as (O1 & O2 & O3 & O4).
        rewrite Hfn, Hfp, Hil, !decide_False by done. by split_and!.
  - intros c HcL Hcn. rewrite Hil. destruct (decide (c = b)) as [->|Hcb]; [reflexivity|]. apply (bs_out _ _ _ Hb c HcL). intros Hcf.
    apply Hcn. rewrite Hsz. unfold bins_without. by apply list_elem_of_filter.
Qed.

(** ** Linking a free block *)

Definition bins_with (b i : Z) (F : Z -> list Z) (j : Z) : list Z := if decide (j = i) then b :: F j else F j.

Lemma insert_fields s b : heap_block_valid s b = true -> h_is_free (hget s b) = 1 ->
  h_in_free_list (hget s b) = 0 ->
  let i := heap_bin_index (siz s b) in
  aget (heap_free_bins s) i <> b ->
  let s' := heap_insert_free_block b s in
  same_statics s s' /\ (forall c, core (hget s' c) = core (hget s c)) /\
  (forall c, h_in_free_list (hget s' c) = if decide (c = b) then 1 else h_in_free_list (hget s c)) /\
  (forall c, fnx s' c = if decide (c = b) then aget (heap_free_bins s) i else fnx s c) /\
  (forall c, c <> 0 -> fpv s' c = if decide (c = b) then 0
     else if decide (c = aget (heap_free_bins s) i) then b else fpv s c) /\
  heap_free_bins s' = aset (heap_free_bins s) i b.
Proof.
  intros Hv Hf Hin. cbv zeta. unfold heap_insert_free_block. rewrite Hv, Hf, Hin.
  cbn [negb orb Z.eqb nonzero]. fold (siz s b). set (i := heap_bin_index (siz s b)). intros Hh.
  set (s1 := hset b _ s).
  assert (heap_free_bins s1 = heap_free_bins s) as Eb by done. rewrite !Eb.
  set (old := aget (heap_free_bins s) i) in *. set (s2 := if nonzero old then _ else s1).
  assert (same_statics s1 s2 /\ (forall c, core (hget s2 c) = core (hget s1 c)) /\
    (forall c, h_in_free_list (hget s2 c) = h_in_free_list (hget s1 c)) /\
    (forall c, h_free_next (hget s2 c) = h_free_next (hget s1 c)) /\
    (forall c, c <> 0 -> h_free_prev (hget s2 c) = if decide (c = old) then b else h_free_prev (hget s1 c)) /\
    heap_free_bins s2 = heap_free_bins s) as (A1 & A2 & A3 & A4 & A5 & A6).
  { unfold s2, nonzero. destruct (old =? 0) eqn:Hz; cbn [negb].
    - apply Z.eqb_eq in Hz. split_and!; try done; [apply same_statics_refl|]. intros c Hc.
      by rewrite Hz, decide_False.
    - split_and!; try done; [apply same_statics_hset| | | |]; intros c; hsimpl. }
  clearbody s2.
  assert (same_statics s s1) as A0 by apply same_statics_hset.
  split. { eapply same_statics_trans; [exact A0|]. eapply same_statics_trans; [exact A1|].
    eapply same_statics_trans; [apply same_statics_bins | apply same_statics_hset]. }
  split. { intros c. rewrite hget_hset, !hget_bins. case_decide; subst; [|rewrite A2; unfold s1; hsimpl].
    etrans; [|etrans; [exact (A2 b)|]]; [done|]. unfold s1. hsimpl. }
  split. { intros c. rewrite hget_hset, !hget_bins. case_decide; [done|]. rewrite A3. unfold s1. hsimpl. }
  split. { intros c. unfold fnx. rewrite hget_hset, !hget_bins. case_decide; simpl.
    - subst. rewrite A4. unfold s1. hsimpl.
    - rewrite A4. unfold s1. hsimpl. }
  split; [|simpl; by rewrite A6].
  intros c Hc. unfold fpv. rewrite hget_hset, !hget_bins. case_decide; simpl.
  - subst. rewrite A5 by done. rewrite decide_False by congruence. unfold s1. hsimpl.
  - rewrite A5 by done. case_decide; [done|]. unfold s1. hsimpl.
Qed.

Lemma insert_ok s L F b : heap_ok s L F -> b ∈ L -> h_is_free (hget s b) = 1 ->
  b ∉ F (heap_bin_index (siz s b)) ->
  let s' := heap_insert_free_block b s in
  heap_ok s' L (bins_with b (heap_bin_index (siz s b)) F) /\ same_statics s s' /\
  (forall c, core (hget s' c) = core (hget s c)).
Proof.
  intros [Hc Hb] HbL Hfree Hin. cbv zeta. set (i := heap_bin_index (siz s b)) in *.
  assert (is_bin i) as Hi by apply bin_index_range. pose proof (bs_bin _ _ _ Hb i Hi) as [Hd Hnd Hhead Hmem].
  assert (b <> 0) as Hb0 by (by apply (chain_nonzero s L)).
  assert (forall c, c ∈ F i -> c <> 0) as Hnz by (intros c Hci; apply (chain_nonzero s L Hc), Hmem, Hci).
  destruct (insert_fields s b (chain_valid s L b Hc HbL) Hfree (bs_out _ _ _ Hb b HbL Hin))
    as (Hst & Hco & Hil & Hfn & Hfp & Hbins).
  { fold i. rewrite Hhead. destruct (first_or_elem 0 (F i)) as [E|E]; congruence. }
  fold i in Hfn, Hfp, Hbins. rewrite Hhead in Hfn, Hfp. set (s' := heap_insert_free_block b s) in *. clearbody s'.
  assert (forall c, siz s' c = siz s c) as Hsz by (intros c; by destruct (core_eq _ _ (Hco c)) as (_ & ? & _)).
  assert (forall c, h_is_free (hget s' c) = h_is_free (hget s c)) as Hfr by (intros c; by destruct (core_eq _ _ (Hco c)) as (_ & _ & _ & ? & _)).
  split; [|by split].
  split. { destruct Hst as (m & bins & ->). by eapply chain_frame. }
  constructor.
  - rewrite Hbins, alen_aset. apply Hb.
  - intros j Hj. unfold bins_with. destruct (decide (j = i)) as [->|Hne].
    + constructor.
      * apply (dseg_insert [] (F i) b) with (nx := fnx s) (pv := fpv s); [by constructor | set_solver | done | | | |].
        -- by rewrite Hfp, decide_True.
        -- by rewrite Hfn, decide_True.
        -- intros c Hci. cbn [app] in Hci. rewrite Hfn, !decide_False; [done | by apply Hnz | by intros ->].
        -- intros c Hci. cbn [app] in Hci. rewrite Hfp by (by apply Hnz). rewrite decide_False; [done | by intros ->].
      * by constructor.
      * rewrite Hbins. by rewrite aget_aset_eq by (rewrite (bs_len _ _ _ Hb); apply Hi).
      * intros c [->|Hci]%elem_of_cons.
        -- rewrite Hfr, Hil, Hsz, decide_True by done. done.
        -- assert (c <> b) by (by intros ->). destruct (Hmem c Hci) as (H1 & H2 & H3 & H4).
           rewrite Hfr, Hil, Hsz, decide_False by done. done.
    + pose proof (bs_bin _ _ _ Hb j Hj) as [Hdj Hndj Hhj Hmj].
      assert (forall c, c ∈ F j -> c <> b /\ c <> 0 /\ c <> first_or 0 (F i)) as Hout.
      { intros c Hcj. assert (c <> 0) as Hc0 by (apply (chain_nonzero s L Hc), Hmj, Hcj).
        split; [|split; [done|]].
        - intros ->. apply Hne. destruct (Hmj b Hcj) as (_ & _ & _ & <-). done.
        - intros ->. destruct (first_or_elem 0 (F i)) as [E|E]; [done|]. apply Hne. by eapply bin_unique. }
      apply (bin_frame s); [by apply Hb | |].
      * rewrite Hbins. rewrite aget_aset_ne; [done | apply Hi | apply Hj | congruence].
      * intros c Hcj. destruct (Hout c Hcj) as (O1 & O2 & O3). rewrite Hfn, Hfp, Hil, !decide_False by done. by split_and!.
  - intros c HcL Hcn. rewrite Hsz in Hcn. unfold bins_with in Hcn. rewrite Hil.
    destruct (decide (c = b)) as [->|Hcb].
    + exfalso. apply Hcn. fold i. rewrite decide_True by done. by left.
    + apply (bs_out _ _ _ Hb c HcL). intros Hcf. apply Hcn. case_decide; [by right | done].
Qed.

(** ** Splitting a block *)

(** A block list with one block more, and one with one block less. *)
Lemma chain_insert s s' l1 b l2 c :
  chain_ok s (l1 ++ b :: l2) -> c ∉ l1 ++ b :: l2 -> c <> 0 ->
  heap_start s' = heap_start s -> heap_next_virtual s' = heap_next_virtual s ->
  heap_tail s' = (if decide (heap_tail s = b) then c else heap_tail s) ->
  c = b + siz s' b -> siz s' b + siz s' c = siz s b ->
  block_ok (hget s' b) -> block_ok (hget s' c) ->
  nxt s' b = c -> prv s' b = prv s b -> nxt s' c = nxt s b -> prv s' c = b ->
  (forall d, d ∈ l1 ++ l2 -> block_ok (hget s' d) /\ siz s' d = siz s d /\ nxt s' d = nxt s d /\
     prv s' d = if decide (d = nxt s b) then c else prv s d) ->
  chain_ok s' (l1 ++ b :: c :: l2).
Proof.
  intros Hc Hcn Hc0 Hst Hnv Htail Hcb Hsum Hbb Hbc Hnb Hpb Hnc Hpc Hd.
  pose proof (chain_nodup _ _ Hc) as Hnd. pose proof (chain_nonzero _ _ Hc) as Hnz.
  destruct (whole_parts l1 l2 b Hnd Hnz) as (N1 & N2 & B1 & B2 & D & Z1 & Z2 & Zb).
  destruct (dseg_at _ _ _ _ _ _ _ (co_links _ _ Hc)) as [Hp Hn].
  assert (l1 ++ b :: c :: l2 = (l1 ++ [b]) ++ c :: l2) as EL by (by rewrite <- app_assoc).
  constructor.
  - rewrite Hst, (co_start _ _ Hc). by destruct l1.
  - rewrite Htail, (co_tail _ _ Hc), !last_or_app, !last_or_cons. destruct l2 as [|x l2].
    + by rewrite decide_True.
    + rewrite !last_or_cons. rewrite decide_False; [done|]. intros E.
      destruct (last_or_elem x l2) as [E'|E']; apply B2; rewrite <- E; [rewrite E'; by left | by right].
  - rewrite EL. apply (dseg_insert (l1 ++ [b]) l2 c) with (nx := nxt s) (pv := prv s).
    + rewrite <- app_assoc. cbn [app]. apply NoDup_app in Hnd as (H1 & H2 & H3). apply NoDup_cons in H3 as [H3 H4].
      apply NoDup_app. split; [done|]. split; [set_solver|]. apply NoDup_cons. split; [set_solver|]. constructor; [set_solver | done].
    + set_solver.
    + rewrite <- app_assoc. apply Hc.
    + rewrite last_or_snoc. done.
    + by rewrite Hnc, Hn.
    + rewrite last_or_snoc. intros d Hdl. destruct (decide (d = b)) as [->|Hdb]; [done|].
      apply Hd. set_solver.
    + intros d Hdl. destruct (decide (d = b)) as [->|Hdb].
      * rewrite Hpb. rewrite decide_False; [done|]. intros E. destruct (first_or_elem 0 l2) as [E'|E']; [congruence|].
        rewrite <- E in E'. done.
      * destruct (Hd d ltac:(set_solver)) as (_ & _ & _ & ->). by rewrite Hn.
  - pose proof (co_tiled _ _ Hc) as Ht. apply tiled_app in Ht as (m & H1 & Hm & H2). subst m. rewrite Hnv.
    apply tiled_app. exists b. split; [eapply tiled_ext; [|exact H1]; intros d Hdl; apply Hd; set_solver|].
    cbn [tiled]. split; [done|]. split; [done|].
    replace (c + siz s' c) with (b + siz s b) by lia. eapply tiled_ext; [|exact H2]. intros d Hdl. apply Hd. set_solver.
  - rewrite Hnv. apply Hc.
  - rewrite Hnv. apply Hc.
  - intros d Hdl. destruct (decide (d = b)) as [->|]; [done|]. destruct (decide (d = c)) as [->|]; [done|].
    apply Hd. set_solver.
Qed.

Lemma inside_fresh s L b c : chain_ok s L -> b ∈ L -> b < c < b + siz s b -> c ∉ L.
Proof.
  intros Hc Hb Hr HcL. pose proof (tiled_apart _ _ _ _ b c (co_tiled _ _ Hc) (chain_pos _ _ Hc) Hb HcL). lia.
Qed.

(** The fields that do not concern the lists. *)
Definition body (h : heap_header) := (h_size h, h_requested_size h, h_is_free h).
Lemma core_body h h' : core h' = core h -> body h' = body h.
Proof. unfold core, body. intros [=]. congruence. Qed.

(** The state that a step leaves, apart from memory, bins and the ends of the
    block list. *)
Definition same_numbers (s s' : HeapState) : Prop :=
  heap_next_virtual s' = heap_next_virtual s /\ heap_current_used_bytes s' = heap_current_used_bytes s.
Lemma statics_numbers s s' : same_statics s s' ->
  same_numbers s s' /\ heap_start s' = heap_start s /\ heap_tail s' = heap_tail s.
Proof. by intros (m & bins & ->). Qed.

(** The writes of [split_block] between taking the block out of its bin and
    putting the remainder into one. *)
Definition split_writes (b c n rest total : Z) (s : HeapState) : HeapState :=
  let s := heap_init_block c rest 1 n b s in
  let s := if nonzero n then hset n (fun h => h <| h_prev := c |>) s else s in
  let s := hset b (fun h => h <| h_size := total |> <| h_next := c |>) s in
  if heap_tail s =? b then s <| heap_tail := c |> else s.

Definition rest_header (rest n b : Z) : heap_header :=
  {| h_magic := HEAP_BLOCK_MAGIC; h_size := rest; h_requested_size := 0; h_is_free := 1; h_in_free_list := 0;
     h_next := n; h_prev := b; h_free_next := 0; h_free_prev := 0 |}.

Lemma split_fields s b c n rest total : b <> 0 -> c <> 0 -> c <> b -> n <> b -> n <> c ->
  let s' := split_writes b c n rest total s in
  heap_start s' = heap_start s /\ heap_free_bins s' = heap_free_bins s /\ same_numbers s s' /\
  heap_tail s' = (if decide (heap_tail s = b) then c else heap_tail s) /\
  hget s' b = (hget s b) <| h_size := total |> <| h_next := c |> /\ hget s' c = rest_header rest n b /\
  (forall d, d <> b -> d <> c -> d <> 0 ->
     hget s' d = if decide (d = n) then (hget s d) <| h_prev := c |> else hget s d).
Proof.
  intros Hb0 Hc0 Hcb Hnb Hnc. cbv zeta. unfold split_writes. set (s2 := heap_init_block c rest 1 n b s).
  assert (forall x, hget s2 x = if decide (x = c) then rest_header rest n b else hget s x) as G2
    by (intros x; unfold s2, heap_init_block; apply hget_hset).
  set (s3 := if nonzero n then _ else s2).
  assert (forall x, x <> 0 -> hget s3 x = if decide (x = n) then (hget s x) <| h_prev := c |> else hget s2 x) as G3.
  { intros x Hx. unfold s3, nonzero. destruct (n =? 0) eqn:Hz; cbn [negb].
    - apply Z.eqb_eq in Hz. rewrite decide_False; [done | congruence].
    - rewrite hget_hset. case_decide; [subst x|done]. by rewrite G2, decide_False. }
  assert (heap_start s3 = heap_start s /\ heap_tail s3 = heap_tail s /\ heap_free_bins s3 = heap_free_bins s /\
    same_numbers s s3) as (T1 & T2 & T3 & T4) by (unfold s3; by destruct (nonzero n)).
  clearbody s3. set (s4 := hset b _ s3).
  assert (forall x, x <> 0 -> hget s4 x = if decide (x = b) then (hget s b) <| h_size := total |> <| h_next := c |>
    else hget s3 x) as G4.
  { intros x Hx. unfold s4. rewrite hget_hset. case_decide; [|done]. by rewrite G3, !decide_False, G2, decide_False by done. }
  set (s5 := if heap_tail s4 =? b then s4 <| heap_tail := c |> else s4).
  assert (forall x, hget s5 x = hget s4 x) as G5 by (intros x; unfold s5; by destruct (_ =? b)).
  assert (heap_start s5 = heap_start s /\ heap_free_bins s5 = heap_free_bins s /\ same_numbers s s5 /\
    heap_tail s5 = if decide (heap_tail s = b) then c else heap_tail s) as (U1 & U2 & U3 & U4).
  { unfold s5. change (heap_tail s4) with (heap_tail s3). rewrite T2.
    destruct (heap_tail s =? b) eqn:Hz; [apply Z.eqb_eq in Hz | apply Z.eqb_neq in Hz];
      [rewrite decide_True by done | rewrite decide_False by done]; done. }
  clearbody s5. split_and!; try done.
  - by rewrite G5, G4, decide_True by done.
  - rewrite G5, G4, decide_False by done. rewrite G3, decide_False by (done || congruence). by rewrite G2, decide_True.
  - intros d Hdb Hdc Hd0. rewrite G5, G4, decide_False by done. rewrite G3 by done.
    destruct (decide (d = n)); [done|]. by rewrite G2, decide_False.
Qed.

(** The block list and the bins after these writes. *)
Section SplitWrites.
Context (s : HeapState) (F : Z -> list Z) (l1 l2 : list Z) (b total : Z).
Context (Hok : heap_ok s (l1 ++ b :: l2) F) (HbF : b ∉ F (heap_bin_index (siz s b))) (Hfree : h_is_free (hget s b) = 1).
Context (Ht : 64 <= total) (Ht16 : total mod 16 = 0) (Hbig : total + HEADER_SIZE + 16 <= siz s b).
Context (Hreq : h_requested_size (hget s b) = 0).
Let c := b + total.
Let n := nxt s b.
Let s' := split_writes b c n (siz s b - total) total s.

Lemma split_places : (b ∉ l1) /\ (b ∉ l2) /\ (c ∉ l1 ++ b :: l2) /\ b <> 0 /\ c <> 0 /\ c <> b /\ n <> b /\ n <> c.
Proof using All.
  pose proof (proj1 Hok) as Hc. assert (b ∈ l1 ++ b :: l2) as HbL by set_solver.
  pose proof (chain_range _ _ _ Hc HbL) as R. pose proof (chain_nonzero _ _ Hc) as Hnz.
  destruct (whole_parts l1 l2 b (chain_nodup _ _ Hc) Hnz) as (_ & _ & B1 & B2 & _).
  assert (c ∉ l1 ++ b :: l2) as HcL by (apply (inside_fresh s _ b c Hc HbL); unfold c; heap_consts; lia).
  destruct (dseg_at _ _ _ _ _ _ _ (co_links _ _ Hc)) as [_ Hn]. fold n in Hn.
  split_and!; [done | done | done | heap_consts; lia | unfold c; heap_consts; lia | unfold c; lia | |].
  - rewrite Hn. destruct (first_or_elem 0 l2) as [E|E]; [rewrite E; heap_consts; lia | intros E'; by rewrite E' in E].
  - rewrite Hn. destruct (first_or_elem 0 l2) as [E|E]; [rewrite E; unfold c; heap_consts; lia | intros E'; apply HcL; rewrite <- E'; set_solver].
Qed.

Lemma split_apart d : d ∈ l1 ++ l2 -> d <> b /\ d <> c /\ d <> 0.
Proof using All.
  destruct split_places as (B1 & B2 & HcL & _). intros Hd. split_and!; [intros ->; set_solver | intros ->; set_solver |].
  apply (chain_nonzero _ _ (proj1 Hok)). set_solver.
Qed.

Lemma split_chain : chain_ok s' (l1 ++ b :: c :: l2).
Proof using All.
  destruct split_places as (B1 & B2 & HcL & Hb0 & Hc0 & Hcb & Hnb & Hnc). pose proof (proj1 Hok) as Hc.
  destruct (split_fields s b c n (siz s b - total) total Hb0 Hc0 Hcb Hnb Hnc) as (U1 & _ & U3 & U4 & Gb & Gc & Gd).
  fold s' in U1, U3, U4, Gb, Gc, Gd. destruct (co_blocks _ _ Hc b ltac:(set_solver)) as [M1 M2 M3 M4 M5].
  apply (chain_insert s s' l1 b l2 c Hc HcL Hc0 U1 (proj1 U3) U4); try (unfold nxt, prv; by rewrite ?Gb, ?Gc).
  - unfold siz. by rewrite Gb.
  - unfold siz at 1 2. rewrite Gb, Gc. simpl. lia.
  - rewrite Gb. constructor; simpl; try done; heap_consts; lia.
  - rewrite Gc. constructor; cbn -[Z.modulo]; heap_consts; try lia. unfold siz. by rewrite Zminus_mod, M3, Ht16.
  - intros d Hd. destruct (split_apart d Hd) as (? & ? & ?). unfold siz, prv. unfold nxt at 1 2. rewrite (Gd d) by done. fold n.
    assert (block_ok (hget s d)) as Hbd by (apply Hc; set_solver).
    destruct (decide (d = n)) as [->|]; [|by split_and!]. split; [|by split_and!]. destruct Hbd. by constructor.
Qed.

Lemma split_bins : bins_ok s' (l1 ++ b :: c :: l2) F.
Proof using All.
  destruct split_places as (B1 & B2 & HcL & Hb0 & Hc0 & Hcb & Hnb & Hnc). pose proof (proj2 Hok) as Hb.
  destruct (split_fields s b c n (siz s b - total) total Hb0 Hc0 Hcb Hnb Hnc) as (_ & U2 & _ & _ & Gb & Gc & Gd).
  fold s' in U2, Gb, Gc, Gd. apply (bins_frame s s' (l1 ++ b :: l2)); [done | exact U2 | |].
  - intros d HdF HdL. assert (d <> b) as Hdb by (by intros ->). assert (d ∈ l1 ++ l2) as Hd by set_solver.
    destruct (split_apart d Hd) as (? & ? & ?). split; [set_solver|]. unfold siz. rewrite (Gd d) by done.
    by destruct (decide (d = n)).
  - intros d Hd Hdn. destruct (decide (d = c)) as [->|Hdc]; [by rewrite Gc|].
    destruct (decide (d = b)) as [->|Hdb].
    + rewrite Gb. simpl. apply (bs_out _ _ _ Hb b); [set_solver | done].
    + assert (d ∈ l1 ++ l2) as Hdl by set_solver. destruct (split_apart d Hdl) as (? & ? & ?).
      assert (siz s' d = siz s d /\ h_in_free_list (hget s' d) = h_in_free_list (hget s d)) as [Ed ->].
      { unfold siz. rewrite (Gd d) by done. by destruct (decide (d = n)). }
      rewrite Ed in Hdn. apply (bs_out _ _ _ Hb); [set_solver | done].
Qed.

Lemma split_bodies : same_numbers s s' /\ body (hget s' b) = (total, 0, 1) /\ body (hget s' c) = (siz s b - total, 0, 1) /\
  (forall d, d ∈ l1 ++ l2 -> body (hget s' d) = body (hget s d)).
Proof using All.
  destruct split_places as (B1 & B2 & HcL & Hb0 & Hc0 & Hcb & Hnb & Hnc).
  destruct (split_fields s b c n (siz s b - total) total Hb0 Hc0 Hcb Hnb Hnc) as (_ & _ & U3 & _ & Gb & Gc & Gd).
  fold s' in U3, Gb, Gc, Gd. split; [done|]. split; [rewrite Gb; unfold body; simpl; congruence|]. split; [by rewrite Gc|].
  intros d Hd. destruct (split_apart d Hd) as (? & ? & ?). rewrite (Gd d) by done. by destruct (decide (d = n)).
Qed.
End SplitWrites.

Lemma split_ok s F l1 b l2 total : heap_ok s (l1 ++ b :: l2) F -> b ∈ F (heap_bin_index (siz s b)) ->
  64 <= total -> total mod 16 = 0 -> total + HEADER_SIZE + 16 <= siz s b ->
  h_requested_size (hget s b) = 0 ->
  let s' := split_block b total s in let c := b + total in
  heap_ok s' (l1 ++ b :: c :: l2)
    (bins_with c (heap_bin_index (siz s b - total)) (bins_without b F)) /\
  same_numbers s s' /\
  body (hget s' b) = (total, 0, 1) /\ body (hget s' c) = (siz s b - total, 0, 1) /\
  (forall d, d ∈ l1 ++ l2 -> body (hget s' d) = body (hget s d)) /\ (b ∉ l1) /\ (b ∉ l2) /\ (c ∉ l1 ++ b :: l2).
Proof.
  intros Hok HbF Ht Ht16 Hbig Hreq. cbv zeta. unfold split_block. fold (siz s b).
  rewrite (proj2 (Z.ltb_ge _ _)) by lia.
  destruct (unlink_ok s _ F b Hok HbF) as (Hok1 & Hst1 & Hco1 & HbL & Hfree).
  set (s1 := heap_remove_free_block b s) in *. clearbody s1.
  pose proof (chain_range _ _ _ (proj1 Hok) HbL) as R. pose proof (co_top _ _ (proj1 Hok)) as Rtop.
  destruct (core_eq _ _ (Hco1 b)) as (_ & Esz & Erq & Efr & _). fold (siz s1 b) (siz s b) in Esz. fold (siz s1 b) (nxt s1 b).
  rewrite u64_small, u32_small, <- Esz by (unfold is_u64, is_u32; heap_consts; lia). rewrite <- Esz in Hbig.
  set (c := b + total). set (rest := siz s1 b - total). set (s2 := heap_init_block c rest 1 _ b s1).
  assert (h_next (hget s2 c) = nxt s1 b) as En by (unfold s2, heap_init_block; by rewrite hget_hset, decide_True).
  rewrite !En. change (if heap_tail _ =? b then _ else _) with (split_writes b c (nxt s1 b) rest total s1).
  assert (b ∉ bins_without b F (heap_bin_index (siz s1 b))) as HbF1 by (unfold bins_without; rewrite list_elem_of_filter; tauto).
  assert (h_is_free (hget s1 b) = 1) as Hfr1 by congruence. assert (h_requested_size (hget s1 b) = 0) as Hrq1 by congruence.
  pose proof (split_chain s1 _ l1 l2 b total Hok1 HbF1 Hfr1 Ht Ht16 Hbig Hrq1) as Hc5.
  pose proof (split_bins s1 _ l1 l2 b total Hok1 HbF1 Hfr1 Ht Ht16 Hbig Hrq1) as Hb5.
  destruct (split_bodies s1 _ l1 l2 b total Hok1 HbF1 Hfr1 Ht Ht16 Hbig Hrq1) as (X & Bb & Bc & Bd).
  destruct (split_places s1 _ l1 l2 b total Hok1 HbF1 Hfr1 Ht Ht16 Hbig Hrq1) as (B1 & B2 & HcL & _).
  fold c rest in Hc5, Hb5, X, Bb, Bc, Bd, HcL. set (s5 := split_writes b c (nxt s1 b) rest total s1) in *. clearbody s5.
  unfold body in Bb, Bc. injection Bb as Sb Qb Fb. injection Bc as Sc Qc Fc.
  destruct (insert_ok s5 _ _ c (conj Hc5 Hb5)) as (Hok6 & Hst6 & Hco6); [set_solver | done | |].
  - intros HcF. apply list_elem_of_filter in HcF as [_ HcF].
    destruct (bi_member _ _ _ _ (bs_bin _ _ _ (proj2 Hok) _ (bin_index_range _)) c HcF) as [? _]. done.
  - unfold siz at 1 in Hok6. rewrite Sc in Hok6. split; [exact Hok6|].
    destruct (statics_numbers _ _ Hst6) as ((V1 & V2) & _ & _). destruct (statics_numbers _ _ Hst1) as ((W1 & W2) & _ & _).
    destruct X as [X1 X2]. split; [split; congruence|].
    split; [rewrite (core_body _ _ (Hco6 b)); unfold body; congruence|].
    split; [rewrite (core_body _ _ (Hco6 c)); unfold body; congruence|]. split; [|done].
    intros d Hd. by rewrite (core_body _ _ (Hco6 d)), <- (core_body _ _ (Hco1 d)), Bd.
Qed.
