(* ===== verification/HeapSteps.v ===== *)
(** * Steps of the kernel heap

    Over the block list and the bins of [HeapBlocks]: between the steps of an
    operation some free blocks are out of the bins ([heap_mid s L X], the
    blocks [X]), between operations none is.  What each step of [Heap] does to
    that shape and to the live allocations ([alloc]): linking, unlinking,
    marking, splitting, merging, searching, growing and shrinking. *)

From S2P Require Import Prelude KernelEnv LinkedList Heap HeapBlocks.

Definition req (s : HeapState) (b : Z) : Z := h_requested_size (hget s b).
Definition is_free (s : HeapState) (b : Z) : Prop := h_is_free (hget s b) = 1.
#[export] Instance is_free_dec s b : Decision (is_free s b) := decide (h_is_free (hget s b) = 1).

(** The blocks of the heap are [L], their bytes in use are counted, and the
    bins hold the free blocks other than [X]. *)
Record heap_mid (s : HeapState) (L X : list Z) : Prop := {
  hm_ok : exists F, heap_ok s L F /\
    forall b, b ∈ L -> b ∈ F (heap_bin_index (siz s b)) <-> is_free s b /\ b ∉ X;
  hm_zero : forall b, b ∈ L -> is_free s b -> req s b = 0;
  hm_used : heap_current_used_bytes s = asum (req s) L;
}.

Lemma mid_chain s L X : heap_mid s L X -> chain_ok s L.
Proof. by intros [(F & [? _] & _) _ _]. Qed.
#[export] Hint Resolve mid_chain : kernel.

(** ** The bodies of the blocks *)

Lemma body_eq s s' b : body (hget s' b) = body (hget s b) ->
  siz s' b = siz s b /\ req s' b = req s b /\ (is_free s' b <-> is_free s b).
Proof. unfold body, siz, req, is_free. intros [= -> -> ->]. done. Qed.
Lemma same_bodies s s' L : (forall b, b ∈ L -> body (hget s' b) = body (hget s b)) ->
  asum (req s') L = asum (req s) L.
Proof. intros Hb. apply asum_ext. intros b HbL. by destruct (body_eq _ _ _ (Hb b HbL)) as (_ & ? & _). Qed.

(** The bytes asked for fit in the heap. *)
Lemma requested_fits s L a z : tiled (siz s) a L z -> (forall b, b ∈ L -> block_ok (hget s b)) ->
  0 <= asum (req s) L <= z - a /\ asum (req s) L + HEADER_SIZE * alen L <= z - a.
Proof.
  revert a. unfold alen. induction L as [|b L IH]; intros a; cbn [tiled asum length].
  - intros -> _. cbn. lia.
  - intros [-> Ht] Hb. destruct (Hb a ltac:(by left)) as [_ Hs _ _ Hr]. rewrite Nat2Z.inj_succ.
    destruct (IH _ Ht) as [H1 H2]; [intros; apply Hb; by right|]. unfold req, siz, HEADER_SIZE in *. lia.
Qed.
Lemma used_bound s L X : heap_mid s L X -> 0 <= heap_current_used_bytes s <= 0x20000000.
Proof.
  intros Hm. pose proof (mid_chain _ _ _ Hm) as Hc. rewrite (hm_used _ _ _ Hm).
  pose proof (requested_fits s L _ _ (co_tiled _ _ Hc) (co_blocks _ _ Hc)) as [? _].
  pose proof (co_top _ _ Hc). heap_consts. lia.
Qed.

(** States that agree on what the invariant speaks of. *)
Definition same_heap (s s' : HeapState) : Prop :=
  mem s' = mem s /\ heap_free_bins s' = heap_free_bins s /\ heap_tail s' = heap_tail s /\
  heap_start s' = heap_start s /\ heap_next_virtual s' = heap_next_virtual s /\
  heap_current_used_bytes s' = heap_current_used_bytes s.
Lemma same_heap_get s s' b : same_heap s s' -> hget s' b = hget s b.
Proof. intros (Hm & _). unfold hget. by rewrite Hm. Qed.

(** The invariant only speaks of the headers of the blocks. *)
Lemma mid_agree s s' L X : heap_free_bins s' = heap_free_bins s -> heap_tail s' = heap_tail s ->
  heap_start s' = heap_start s -> heap_next_virtual s' = heap_next_virtual s ->
  heap_current_used_bytes s' = heap_current_used_bytes s -> (forall b, b ∈ L -> hget s' b = hget s b) ->
  heap_mid s L X -> heap_mid s' L X.
Proof.
  intros H1 H2 H3 H4 H5 Hg [(F & [Hc Hb] & Hl) Hz Hu]. constructor.
  - exists F. split; [split|].
    + eapply chain_frame; try done. intros b HbL. by rewrite Hg.
    + eapply bins_frame; [exact Hb | done | |].
      * intros b _ HbL. unfold siz. by rewrite Hg.
      * intros b HbL. unfold siz. rewrite Hg by done. by apply (bs_out _ _ _ Hb).
    + intros b HbL. unfold siz, is_free. rewrite Hg by done. by apply Hl.
  - intros b HbL. unfold is_free, req. rewrite Hg by done. by apply Hz.
  - rewrite H5, Hu. apply asum_ext. intros b HbL. unfold req. by rewrite Hg.
Qed.
Lemma mid_same s s' L X : same_heap s s' -> heap_mid s L X -> heap_mid s' L X.
Proof.
  intros Hs. pose proof (fun b => same_heap_get s s' b Hs) as Hg. destruct Hs as (_ & H1 & H2 & H3 & H4 & H5).
  by apply mid_agree.
Qed.

(** ** Steps between the two shapes *)

Lemma mid_remove s L X b : heap_mid s L X -> b ∈ L -> is_free s b -> b ∉ X ->
  let s' := heap_remove_free_block b s in
  heap_mid s' L (b :: X) /\ same_statics s s' /\ (forall c, core (hget s' c) = core (hget s c)).
Proof.
  intros [(F & Hok & Hl) Hz Hu] HbL Hf HX. cbv zeta.
  destruct (unlink_ok s L F b Hok) as (Hok' & Hst & Hco & _); [by apply Hl|].
  set (s' := heap_remove_free_block b s) in *. clearbody s'. split; [|done].
  pose proof (fun c => body_eq s s' c (core_body _ _ (Hco c))) as Hbd.
  constructor.
  - exists (bins_without b F). split; [done|]. intros c HcL. destruct (Hbd c) as (-> & _ & ->).
    unfold bins_without. rewrite list_elem_of_filter, Hl, not_elem_of_cons by done. tauto.
  - intros c HcL. destruct (Hbd c) as (_ & -> & ->). by apply Hz.
  - destruct (statics_numbers _ _ Hst) as ((_ & ->) & _). rewrite Hu. apply asum_ext. intros c _. symmetry. apply Hbd.
Qed.

Lemma mid_unlisted s L X b : heap_mid s L X -> b ∈ L -> b ∈ X \/ ~ is_free s b ->
  h_in_free_list (hget s b) = 0.
Proof.
  intros [(F & [_ Hb] & Hl) _ _] HbL HX. apply (bs_out _ _ _ Hb b HbL). rewrite Hl by done. tauto.
Qed.
Lemma mid_listed s L X b : heap_mid s L X -> b ∈ L -> is_free s b -> b ∉ X ->
  h_in_free_list (hget s b) = 1.
Proof.
  intros [(F & [_ Hb] & Hl) _ _] HbL Hf HX.
  by destruct (bi_member _ _ _ _ (bs_bin _ _ _ Hb _ (bin_index_range _)) b (proj2 (Hl b HbL) (conj Hf HX))) as (_ & _ & ? & _).
Qed.
Lemma mid_remove_out s L X b : heap_mid s L X -> b ∈ L -> b ∈ X \/ ~ is_free s b ->
  heap_remove_free_block b s = s.
Proof.
  intros Hm HbL HX. unfold heap_remove_free_block. rewrite (mid_unlisted _ _ _ _ Hm HbL HX), orb_true_r. done.
Qed.
Lemma mid_insert_in s L X b : heap_mid s L X -> b ∈ L -> is_free s b -> b ∉ X ->
  heap_insert_free_block b s = s.
Proof.
  intros Hm HbL Hf HX. unfold heap_insert_free_block. rewrite (mid_listed _ _ _ _ Hm HbL Hf HX), orb_true_r. done.
Qed.

Lemma mid_insert s L X b : heap_mid s L (b :: X) -> b ∈ L -> is_free s b -> b ∉ X ->
  let s' := heap_insert_free_block b s in
  heap_mid s' L X /\ same_statics s s' /\ (forall c, core (hget s' c) = core (hget s c)).
Proof.
  intros [(F & Hok & Hl) Hz Hu] HbL Hf HX. cbv zeta.
  destruct (insert_ok s L F b Hok HbL Hf) as (Hok' & Hst & Hco); [rewrite Hl by done; set_solver|].
  set (s' := heap_insert_free_block b s) in *. clearbody s'. split; [|done].
  pose proof (fun c => body_eq s s' c (core_body _ _ (Hco c))) as Hbd.
  constructor.
  - eexists. split; [exact Hok'|]. intros c HcL. destruct (Hbd c) as (-> & _ & ->).
    unfold bins_with. destruct (decide (c = b)) as [->|Hcb].
    + rewrite decide_True by done. split; [done|]. intros _. by left.
    + case_decide; rewrite ?elem_of_cons, Hl, not_elem_of_cons by done; tauto.
  - intros c HcL. destruct (Hbd c) as (_ & -> & ->). by apply Hz.
  - destruct (statics_numbers _ _ Hst) as ((_ & ->) & _). rewrite Hu. apply asum_ext. intros c _. symmetry. apply Hbd.
Qed.

(** Marking a block that is in no bin. *)
Lemma mid_mark s s' L X X' b r f : heap_mid s L X -> b ∈ L -> b ∈ X \/ ~ is_free s b ->
  heap_free_bins s' = heap_free_bins s -> heap_tail s' = heap_tail s -> heap_start s' = heap_start s ->
  heap_next_virtual s' = heap_next_virtual s ->
  (forall c, c <> b -> hget s' c = hget s c) ->
  hget s' b = (hget s b) <| h_is_free := f |> <| h_requested_size := r |> ->
  (f = 0 /\ 0 <= r <= siz s b - HEADER_SIZE) \/ (f = 1 /\ r = 0 /\ b ∈ X') ->
  (forall c, c <> b -> c ∈ X' <-> c ∈ X) ->
  heap_current_used_bytes s' = heap_current_used_bytes s - req s b + r ->
  heap_mid s' L X'.
Proof.
  intros Hm HbL HX E1 E2 E3 E4 Hg Hgb Hf HX' Hused.
  pose proof (mid_unlisted _ _ _ _ Hm HbL HX) as Hun.
  destruct Hm as [(F & [Hc Hb] & Hl) Hz Hu]. pose proof (chain_nodup _ _ Hc) as Hnd.
  assert (b ∉ F (heap_bin_index (siz s b))) as HbF by (rewrite Hl by done; tauto).
  assert (forall c, siz s' c = siz s c) as Hsz.
  { intros c. unfold siz. destruct (decide (c = b)) as [->|]; [by rewrite Hgb | by rewrite Hg]. }
  constructor.
  - exists F. split; [split|].
    + destruct Hc as [C1 C2 C3 C4 C5 C6 C7]. constructor; try congruence.
      * eapply dseg_ext; [|exact C3]. intros c _. unfold nxt, prv.
        destruct (decide (c = b)) as [->|]; [by rewrite Hgb | by rewrite Hg].
      * rewrite E4. eapply tiled_ext; [|exact C4]. intros c _. apply Hsz.
      * intros c HcL. destruct (decide (c = b)) as [->|]; [|rewrite Hg by done; by apply C7].
        destruct (C7 b HbL) as [M1 M2 M3 M4 M5]. rewrite Hgb. unfold siz in Hf.
        constructor; cbn -[Z.modulo]; try done; heap_consts; lia.
    + eapply bins_frame; [exact Hb | done | |].
      * intros c HcF HcL. assert (c <> b) by (by intros ->). rewrite Hsz, Hg by done. done.
      * intros c HcL. rewrite Hsz. destruct (decide (c = b)) as [->|Hcb].
        -- intros _. by rewrite Hgb.
        -- rewrite Hg by done. by apply (bs_out _ _ _ Hb).
    + intros c HcL. rewrite Hsz. unfold is_free. destruct (decide (c = b)) as [->|Hcb].
      * rewrite Hgb. cbn. split; [done|]. intros [? ?]. exfalso. destruct Hf as [[? _]|(_ & _ & ?)]; [lia | done].
      * rewrite Hg, HX' by done. by apply Hl.
  - intros c HcL. unfold is_free, req. destruct (decide (c = b)) as [->|Hcb].
    + rewrite Hgb. cbn. lia.
    + rewrite Hg by done. by apply Hz.
  - rewrite Hused, Hu. apply list_elem_of_split in HbL as (l1 & l2 & ->).
    destruct (whole_parts l1 l2 b Hnd (chain_nonzero _ _ Hc)) as (N1 & N2 & B1 & B2 & _).
    rewrite !asum_app. cbn [asum].
    assert (forall l, b ∉ l -> asum (req s') l = asum (req s) l) as Hrest.
    { intros l Hbl. apply asum_ext. intros c Hcl. unfold req. rewrite Hg; [done|]. by intros ->. }
    assert (req s' b = r) as -> by (unfold req; by rewrite Hgb). rewrite !Hrest by done. lia.
Qed.

Lemma mid_mark_allocated s L b r : heap_mid s L [b] -> b ∈ L -> is_free s b ->
  0 <= r <= siz s b - HEADER_SIZE ->
  let s' := heap_mark_allocated b r s in
  heap_mid s' L [] /\ (forall c, c <> b -> hget s' c = hget s c) /\
  body (hget s' b) = (siz s b, r, 0).
Proof.
  intros Hm HbL Hf Hr. cbv zeta. pose proof (used_bound _ _ _ Hm) as Hub.
  pose proof (hm_zero _ _ _ Hm b HbL Hf) as Hrz.
  pose proof (chain_range _ _ _ (mid_chain _ _ _ Hm) HbL) as Hrg.
  pose proof (co_top _ _ (mid_chain _ _ _ Hm)) as Htop.
  unfold heap_mark_allocated, heap_update_peak_used.
  set (s1 := hset b _ s). set (s2 := s1 <| heap_current_used_bytes := _ |>).
  set (s' := if _ <? _ then _ else s2).
  assert (same_heap s2 s') as Hs by (unfold s'; by destruct (_ <? _)). clearbody s'.
  assert (forall c, hget s' c = hget s1 c) as Hg by (intros c; by rewrite (same_heap_get _ _ c Hs)).
  assert (forall c, c <> b -> hget s' c = hget s c) as Hgc.
  { intros c Hc. rewrite Hg. unfold s1. by rewrite hget_hset, decide_False. }
  assert (hget s' b = (hget s b) <| h_is_free := 0 |> <| h_requested_size := r |>) as Hgb.
  { rewrite Hg. unfold s1. by rewrite hget_hset, decide_True. }
  destruct Hs as (_ & H1 & H2 & H3 & H4 & H5).
  split; [|split; [done | by rewrite Hgb]].
  eapply (mid_mark s s' L [b] [] b r 0); try done; [left; by left | by left | set_solver |].
  rewrite H5, Hrz. unfold s2. cbn -[u64]. rewrite u64_small; [lia|]. unfold is_u64. heap_consts. lia.
Qed.

Lemma mid_mark_free s L b : heap_mid s L [] -> b ∈ L -> ~ is_free s b ->
  let s' := heap_mark_free b s in
  heap_mid s' L [b] /\ (forall c, c <> b -> hget s' c = hget s c) /\ body (hget s' b) = (siz s b, 0, 1).
Proof.
  intros Hm HbL Hf. cbv zeta. unfold heap_mark_free. fold (req s b).
  assert (0 <= req s b <= heap_current_used_bytes s) as Hle.
  { rewrite (hm_used _ _ _ Hm). pose proof (mid_chain _ _ _ Hm) as Hc.
    assert (forall c, c ∈ L -> 0 <= req s c) as Hn by (intros c HcL; apply (co_blocks _ _ Hc c HcL)).
    split; [by apply Hn|]. apply list_elem_of_split in HbL as (l1 & l2 & ->). rewrite asum_app. cbn [asum].
    pose proof (asum_nonneg (req s) l1 ltac:(set_solver)). pose proof (asum_nonneg (req s) l2 ltac:(set_solver)). lia. }
  rewrite (proj2 (Z.leb_le _ _)) by lia. set (s' := hset b _ _).
  assert (forall c, c <> b -> hget s' c = hget s c) as Hgc.
  { intros c Hc. unfold s'. by rewrite hget_hset, decide_False. }
  assert (hget s' b = (hget s b) <| h_is_free := 1 |> <| h_requested_size := 0 |>) as Hgb.
  { unfold s'. by rewrite hget_hset, decide_True. }
  split; [|split; [done | by rewrite Hgb]].
  eapply (mid_mark s s' L [] [b] b 0 1); try done; [by right | right; set_solver | set_solver |].
  unfold s'. cbn. lia.
Qed.

(** ** Splitting *)

Lemma mid_split s l1 b l2 total : heap_mid s (l1 ++ b :: l2) [] -> is_free s b ->
  64 <= total -> total mod 16 = 0 -> total + HEADER_SIZE + 16 <= siz s b ->
  let s' := split_block b total s in let c := b + total in
  heap_mid s' (l1 ++ b :: c :: l2) [b] /\
  body (hget s' b) = (total, 0, 1) /\ body (hget s' c) = (siz s b - total, 0, 1) /\
  (forall d, d ∈ l1 ++ l2 -> body (hget s' d) = body (hget s d)) /\ (c ∉ l1 ++ b :: l2).
Proof.
  intros [(F & Hok & Hl) Hz Hu] Hf Ht Ht16 Hbig. cbv zeta.
  assert (b ∈ l1 ++ b :: l2) as HbL by set_solver.
  destruct (split_ok s F l1 b l2 total Hok) as (Hok' & (_ & Hused) & Hbb & Hbc & Hbd & B1 & B2 & HcL); try done.
  { apply Hl; set_solver. } { by apply Hz. }
  set (s' := split_block b total s) in *. set (c := b + total) in *. clearbody s'.
  split; [|done]. unfold body in Hbb, Hbc. injection Hbb as S1 R1 F1. injection Hbc as S2 R2 F2.
  assert (c ∉ F (heap_bin_index (siz s' c))) as HcF.
  { intros HcF. apply HcL. apply (bi_member _ _ _ _ (bs_bin _ _ _ (proj2 Hok) _ (bin_index_range _)) c HcF). }
  constructor.
  - eexists. split; [exact Hok'|]. intros d Hd. unfold bins_with, bins_without.
    destruct (decide (d = c)) as [->|Hdc].
    + rewrite decide_True by (unfold siz at 1; by rewrite S2). unfold is_free. rewrite F2. set_solver.
    + destruct (decide (d = b)) as [->|Hdb]; [case_decide; rewrite ?elem_of_cons, list_elem_of_filter; set_solver|].
      destruct (body_eq _ _ _ (Hbd d ltac:(set_solver))) as (-> & _ & ->).
      case_decide; rewrite ?elem_of_cons, list_elem_of_filter, Hl; set_solver.
  - intros d Hd Hfd. destruct (decide (d = c)) as [->|Hdc]; [done|]. destruct (decide (d = b)) as [->|Hdb]; [done|].
    destruct (body_eq _ _ _ (Hbd d ltac:(set_solver))) as (_ & E & E'). rewrite E. apply Hz; [set_solver | by apply E'].
  - rewrite Hused, Hu, !asum_app. cbn [asum]. rewrite !(same_bodies s s') by set_solver.
    unfold req. rewrite R1, R2. fold (req s b). rewrite Hz by done. lia.
Qed.

(** ** Live allocations *)

(** What is allocated at header [b]: the bytes it holds and the bytes asked
    for. *)
Definition alloc (s : HeapState) (L : list Z) (b : Z) : option (Z * Z) :=
  if decide (b ∈ L) then if decide (is_free s b) then None else Some (siz s b - HEADER_SIZE, req s b)
  else None.
Definition same_allocs (s : HeapState) (L : list Z) (s' : HeapState) (L' : list Z) : Prop :=
  forall d, alloc s' L' d = alloc s L d.
Lemma same_allocs_trans s1 L1 s2 L2 s3 L3 :
  same_allocs s1 L1 s2 L2 -> same_allocs s2 L2 s3 L3 -> same_allocs s1 L1 s3 L3.
Proof. intros H1 H2 d. by rewrite H2, H1. Qed.
Lemma same_allocs_refl s L : same_allocs s L s L.
Proof. done. Qed.
#[export] Hint Resolve same_allocs_refl : kernel.

Lemma alloc_body s s' L L' d : (d ∈ L' <-> d ∈ L) -> (d ∈ L -> body (hget s' d) = body (hget s d)) ->
  alloc s' L' d = alloc s L d.
Proof.
  intros HL Hb. unfold alloc. destruct (decide (d ∈ L)) as [Hd|Hd].
  - rewrite decide_True by tauto. destruct (body_eq _ _ _ (Hb Hd)) as (-> & -> & Hf).
    repeat case_decide; tauto.
  - by rewrite decide_False by tauto.
Qed.
Lemma alloc_free s L d : is_free s d -> alloc s L d = None.
Proof. intros Hf. unfold alloc. repeat case_decide; done. Qed.
Lemma alloc_absent s L d : d ∉ L -> alloc s L d = None.
Proof. intros Hd. unfold alloc. by rewrite decide_False. Qed.
Lemma same_allocs_core s s' L : (forall b, b ∈ L -> core (hget s' b) = core (hget s b)) -> same_allocs s L s' L.
Proof. intros Hc d. apply alloc_body; [done|]. intros Hd. by apply core_body, Hc. Qed.
Lemma same_allocs_heap s s' L : same_heap s s' -> same_allocs s L s' L.
Proof. intros Hs d. apply alloc_body; [done|]. intros _. by rewrite (same_heap_get _ _ _ Hs). Qed.

(** ** Taking a block *)

Lemma take_ok s l1 b l2 total size : heap_mid s (l1 ++ b :: l2) [] -> is_free s b ->
  64 <= total -> total mod 16 = 0 -> 0 < size <= total - HEADER_SIZE -> total <= siz s b ->
  let s' := (take_block b total size s).2 in
  (take_block b total size s).1 = b + HEADER_SIZE /\
  exists L', heap_mid s' L' [] /\ b ∈ L' /\
    alloc s (l1 ++ b :: l2) b = None /\ (exists n, alloc s' L' b = Some (n, size) /\ size <= n) /\
    (forall d, d <> b -> alloc s' L' d = alloc s (l1 ++ b :: l2) d).
Proof.
  intros Hm Hf Ht Ht16 Hs Hfit. cbv zeta. unfold take_block. cbn [fst snd].
  assert (b ∈ l1 ++ b :: l2) as HbL by set_solver. pose proof (mid_chain _ _ _ Hm) as Hc.
  pose proof (chain_range _ _ _ Hc HbL) as Hr. pose proof (co_top _ _ Hc) as Htop.
  rewrite !u64_small by (unfold is_u64; heap_consts; lia).
  rewrite (u32_small size) by (unfold is_u32; heap_consts; lia). split; [done|].
  assert (exists s1 L1, heap_remove_free_block b (split_block b total s) = s1 /\ heap_mid s1 L1 [b] /\
    b ∈ L1 /\ is_free s1 b /\ total <= siz s1 b /\
    (forall d, d <> b -> alloc s1 L1 d = alloc s (l1 ++ b :: l2) d)) as (s1 & L1 & -> & Hm1 & Hb1 & Hf1 & Hs1 & Ha1).
  { destruct (decide (total + HEADER_SIZE + 16 <= siz s b)) as [Hbig|Hsmall].
    - destruct (mid_split s l1 b l2 total Hm Hf Ht Ht16 Hbig) as (Hm1 & Hbb & Hbc & Hbd & HcL).
      set (s1 := split_block b total s) in *. clearbody s1. injection Hbb as S1 R1 F1. injection Hbc as S2 R2 F2.
      eexists s1, _. split; [|split; [exact Hm1|]].
      { eapply mid_remove_out; [exact Hm1 | set_solver | left; by left]. }
      split; [set_solver|]. split; [done|]. split; [unfold siz; lia|].
      intros d Hd. destruct (decide (d = b + total)) as [->|Hdc].
      + rewrite alloc_free by done. by rewrite alloc_absent.
      + apply alloc_body; [set_solver|]. intros HdL. apply Hbd. set_solver.
    - assert (split_block b total s = s) as ->.
      { unfold split_block. fold (siz s b). by rewrite (proj2 (Z.ltb_lt _ _)) by lia. }
      destruct (mid_remove s _ [] b Hm HbL Hf ltac:(set_solver)) as (Hm1 & _ & Hco).
      eexists _, _. split; [done|]. split; [exact Hm1|]. split; [done|].
      destruct (body_eq _ _ _ (core_body _ _ (Hco b))) as (E1 & _ & E2). rewrite E1, E2.
      split; [done|]. split; [done|]. intros d _. by apply same_allocs_core. }
  destruct (mid_mark_allocated s1 L1 b size Hm1 Hb1 Hf1 ltac:(lia)) as (Hm2 & Hg & Hbb).
  exists L1. split; [done|]. split; [done|]. split; [by apply alloc_free|]. injection Hbb as S1 R1 F1. split.
  - exists (siz s1 b - HEADER_SIZE). split; [|lia]. unfold alloc. rewrite decide_True by done.
    rewrite decide_False by (unfold is_free; by rewrite F1). unfold siz at 1, req. by rewrite S1, R1.
  - intros d Hd. rewrite <- Ha1 by done. apply alloc_body; [done|]. intros _. by rewrite Hg.
Qed.

(** ** Merging *)

Lemma chain_absorb s s' l1 b n l2 : chain_ok s (l1 ++ b :: n :: l2) ->
  heap_start s' = heap_start s -> heap_next_virtual s' = heap_next_virtual s ->
  heap_tail s' = (if decide (heap_tail s = n) then b else heap_tail s) ->
  siz s' b = siz s b + siz s n -> nxt s' b = nxt s n -> prv s' b = prv s b ->
  block_ok (hget s' b) ->
  (forall d, d ∈ l1 ++ l2 -> block_ok (hget s' d) /\ siz s' d = siz s d /\ nxt s' d = nxt s d /\
     prv s' d = if decide (d = nxt s n) then b else prv s d) ->
  chain_ok s' (l1 ++ b :: l2).
Proof.
  intros Hc Hst Hnv Htail Hsum Hnb Hpb Hbb Hd. rewrite cons_middle, app_assoc in Hc.
  pose proof (chain_nodup _ _ Hc) as Hnd. pose proof (chain_nonzero _ _ Hc) as Hnz.
  destruct (whole_parts _ _ _ Hnd Hnz) as (N1 & N2 & B1 & B2 & D & Z1 & Z2 & Zb).
  destruct (dseg_at _ _ _ _ _ _ _ (co_links _ _ Hc)) as [Hp Hn]. rewrite last_or_snoc in Hp.
  assert (l1 ++ b :: l2 = (l1 ++ [b]) ++ l2) as EL by (by rewrite <- app_assoc).
  assert (b <> n) as Hbn by (intros ->; apply B1; set_solver).
  assert ((b ∉ l1) /\ (b ∉ l2)) as [Bl1 Bl2].
  { apply NoDup_app in N1 as (_ & H & _). split; [set_solver|]. apply D. set_solver. }
  constructor.
  - rewrite Hst, (co_start _ _ Hc). by destruct l1.
  - rewrite Htail, (co_tail _ _ Hc), !last_or_app, !last_or_cons. destruct l2 as [|x l2].
    + by rewrite decide_True.
    + rewrite !last_or_cons. rewrite decide_False; [done|]. intros E.
      destruct (last_or_elem x l2) as [E'|E']; apply B2; rewrite <- E; [rewrite E'; by left | by right].
  - rewrite EL. eapply (dseg_remove (l1 ++ [b]) l2 n Hnd Hnz (nxt s) (prv s)); [apply Hc | |].
    + intros d Hdl. rewrite Hp. destruct (decide (d = b)) as [->|Hdb]; [done|].
      apply Hd. set_solver.
    + intros d Hdl. rewrite Hp. destruct (decide (d = b)) as [->|Hdb].
      * rewrite Hpb, decide_False; [done|]. rewrite Hn. intros E.
        destruct (first_or_elem 0 l2) as [E'|E']; [|rewrite <- E in E'; done].
        apply (Z1 b); [set_solver | congruence].
      * apply Hd. set_solver.
  - pose proof (co_tiled _ _ Hc) as Ht. rewrite <- app_assoc in Ht.
    apply tiled_app in Ht as (m & H1 & Hm & Hn' & H2). subst m. rewrite Hnv.
    apply tiled_app. exists b. split; [eapply tiled_ext; [|exact H1]; intros d Hdl; apply Hd; set_solver|].
    cbn [tiled]. split; [done|]. replace (b + siz s' b) with (n + siz s n) by lia.
    eapply tiled_ext; [|exact H2]. intros d Hdl. apply Hd. set_solver.
  - rewrite Hnv. apply Hc.
  - rewrite Hnv. apply Hc.
  - intros d Hdl. destruct (decide (d = b)) as [->|]; [done|]. apply Hd. set_solver.
Qed.

Lemma mid_absorb s s' l1 b n l2 : heap_mid s (l1 ++ b :: n :: l2) [n; b] -> is_free s b -> is_free s n ->
  heap_free_bins s' = heap_free_bins s -> heap_start s' = heap_start s ->
  heap_next_virtual s' = heap_next_virtual s ->
  heap_current_used_bytes s' = heap_current_used_bytes s ->
  heap_tail s' = (if decide (heap_tail s = n) then b else heap_tail s) ->
  hget s' b = (hget s b) <| h_size := siz s b + siz s n |> <| h_requested_size := 0 |> <| h_next := nxt s n |> ->
  (forall d, d ∈ l1 ++ l2 -> hget s' d = if decide (d = nxt s n) then (hget s d) <| h_prev := b |> else hget s d) ->
  heap_mid s' (l1 ++ b :: l2) [b] /\ is_free s' b /\ same_allocs s (l1 ++ b :: n :: l2) s' (l1 ++ b :: l2).
Proof.
  intros Hm Hfb Hfn E1 E2 E3 E4 E5 Gb Gd. pose proof (mid_chain _ _ _ Hm) as Hc.
  pose proof (mid_unlisted _ _ _ b Hm ltac:(set_solver) ltac:(left; set_solver)) as Hun.
  assert (forall d, d ∈ l1 ++ l2 -> d <> b /\ d <> n) as Hother.
  { pose proof (chain_nodup _ _ Hc) as Hnd. apply NoDup_app in Hnd as (_ & H1 & H2).
    apply NoDup_cons in H2 as [H2 [H3 _]%NoDup_cons]. intros d Hd. set_solver. }
  assert (forall d, d ∈ l1 ++ l2 -> body (hget s' d) = body (hget s d) /\ links (hget s' d) = links (hget s d)) as Hbd.
  { intros d Hd. rewrite (Gd d Hd). by destruct (decide (d = nxt s n)). }
  destruct Hm as [(F & [_ Hb] & Hl) Hz Hu].
  assert (is_free s' b) as Hfb' by (unfold is_free; by rewrite Gb).
  assert (chain_ok s' (l1 ++ b :: l2)) as Hc'.
  { eapply (chain_absorb s s' l1 b n l2 Hc); try done; try (unfold siz, nxt, prv; by rewrite Gb).
    - destruct (co_blocks _ _ Hc b ltac:(set_solver)) as [M1 M2 M3 M4 M5].
      destruct (co_blocks _ _ Hc n ltac:(set_solver)) as [P1 P2 P3 P4 P5].
      rewrite Gb. unfold siz. constructor; cbn -[Z.modulo]; try done; heap_consts; try lia.
      by rewrite Zplus_mod, M3, P3.
    - intros d Hd. assert (block_ok (hget s d)) as Hbk by (apply Hc; set_solver). unfold siz, nxt, prv in *.
      rewrite (Gd d Hd). destruct (decide (d = h_next (hget s n))) as [E|E]; [|by split_and!].
      split; [|by split_and!]. destruct Hbk. by constructor. }
  split; [|split; [done|]].
  - constructor.
    + exists F. split; [split; [done|]|].
      * eapply bins_frame; [exact Hb | done | |].
        -- intros d HdF HdL. apply Hl in HdF as [Hdf HdX]; [|done]. assert (d ∈ l1 ++ l2) as Hd by set_solver.
           destruct (Hbd d Hd) as [B Lk]. split; [set_solver|]. split; [done|]. unfold body in B. injection B as S1 _ S3. by split.
        -- intros d HdL. destruct (decide (d = b)) as [->|Hdb]; [intros _; by rewrite Gb|].
           assert (d ∈ l1 ++ l2) as Hd by set_solver. destruct (Hbd d Hd) as [B Lk].
           apply links_eq in Lk as (-> & _). destruct (body_eq _ _ _ B) as (-> & _).
           apply (bs_out _ _ _ Hb). set_solver.
      * intros d HdL. destruct (decide (d = b)) as [->|Hdb].
        -- split; [|set_solver]. intros HbF. exfalso.
           destruct (bi_member _ _ _ _ (bs_bin _ _ _ Hb _ (bin_index_range _)) b HbF) as (HbL & _ & Hin & _). congruence.
        -- assert (d ∈ l1 ++ l2) as Hd by set_solver. destruct (Hbd d Hd) as [B _].
           destruct (body_eq _ _ _ B) as (-> & _ & ->). destruct (Hother d Hd). rewrite Hl by set_solver. set_solver.
    + intros d HdL Hfd. destruct (decide (d = b)) as [->|Hdb]; [unfold req; by rewrite Gb|].
      assert (d ∈ l1 ++ l2) as Hd by set_solver. destruct (Hbd d Hd) as [B _].
      destruct (body_eq _ _ _ B) as (_ & -> & Hf). apply Hz; [set_solver | tauto].
    + rewrite E4, Hu, !asum_app. cbn [asum]. rewrite (Hz b), (Hz n) by set_solver.
      rewrite !(same_bodies s s') by (intros; apply Hbd; set_solver). unfold req at 4. rewrite Gb. cbn. lia.
  - intros d. destruct (decide (d = b)) as [->|Hdb]; [by rewrite !alloc_free|].
    destruct (decide (d = n)) as [->|Hdn].
    + rewrite (alloc_free s) by done. apply alloc_absent. intros Hn. destruct (Hother n ltac:(set_solver)). done.
    + apply alloc_body; [set_solver|]. intros HdL. apply Hbd. set_solver.
Qed.

(** Two neighbours taken out of their bins, as both merges do first. *)
Lemma mid_two_out s l1 b n l2 : heap_mid s (l1 ++ b :: n :: l2) [] -> is_free s b -> is_free s n ->
  let s2 := heap_remove_free_block n (heap_remove_free_block b s) in
  heap_mid s2 (l1 ++ b :: n :: l2) [n; b] /\ same_statics s s2 /\ (forall c, core (hget s2 c) = core (hget s c)).
Proof.
  intros Hm Hfb Hfn. cbv zeta.
  destruct (mid_remove s _ [] b Hm ltac:(set_solver) Hfb ltac:(set_solver)) as (Hm1 & Hst1 & Hco1).
  set (s1 := heap_remove_free_block b s) in *. clearbody s1.
  assert (n <> b) as Hnb.
  { pose proof (chain_nodup _ _ (mid_chain _ _ _ Hm)) as Hnd. apply NoDup_app in Hnd as (_ & _ & [H _]%NoDup_cons).
    set_solver. }
  assert (is_free s1 n) as Hfn1 by (by apply (body_eq _ _ _ (core_body _ _ (Hco1 n)))).
  destruct (mid_remove s1 _ [b] n Hm1 ltac:(set_solver) Hfn1 ltac:(set_solver)) as (Hm2 & Hst2 & Hco2).
  split; [done|]. split; [by eapply same_statics_trans|]. intros c. by rewrite Hco2, Hco1.
Qed.

Lemma mem_hset b f s : mem (hset b f s) = <[b := f (hget s b)]> (mem s).
Proof. done. Qed.
Lemma next_apart s l1 b n l2 : chain_ok s (l1 ++ b :: n :: l2) -> nxt s n <> b /\ nxt s n <> n.
Proof.
  intros Hc. rewrite cons_middle, app_assoc in Hc.
  destruct (whole_parts _ _ _ (chain_nodup _ _ Hc) (chain_nonzero _ _ Hc)) as (_ & _ & B1 & B2 & D & Z1 & _ & Zn).
  destruct (dseg_at _ _ _ _ _ _ _ (co_links _ _ Hc)) as [_ ->].
  destruct (first_or_elem 0 l2) as [E|E]; split; try congruence.
  - rewrite E. intros <-. apply (Z1 0); set_solver.
  - intros E'. apply (D b); [set_solver | by rewrite <- E'].
Qed.

(** The writes of a merge, in either order. *)
Lemma merge_writes s l1 b n l2 s' : heap_mid s (l1 ++ b :: n :: l2) [n; b] -> is_free s b -> is_free s n ->
  same_numbers s s' -> heap_free_bins s' = heap_free_bins s -> heap_start s' = heap_start s ->
  heap_tail s' = (if heap_tail s =? n then b else heap_tail s) ->
  mem s' = (let m := <[b := (hget s b) <| h_size := u32 (siz s b + siz s n) |> <| h_requested_size := 0 |>
                              <| h_next := nxt s n |>]> (mem s) in
            if nonzero (nxt s n) then <[nxt s n := (hget s (nxt s n)) <| h_prev := b |>]> m else m) ->
  let s'' := heap_insert_free_block b s' in
  heap_mid s'' (l1 ++ b :: l2) [] /\ is_free s'' b /\
  same_allocs s (l1 ++ b :: n :: l2) s'' (l1 ++ b :: l2).
Proof.
  intros Hm Hfb Hfn [Hnv Hu] Hbins Hst Ht Hmem. cbv zeta. pose proof (mid_chain _ _ _ Hm) as Hc.
  pose proof (chain_nodup _ _ Hc) as Hnd. pose proof (chain_nonzero _ _ Hc) as Hnz.
  pose proof (chain_range _ _ b Hc ltac:(set_solver)) as Rb. pose proof (chain_range _ _ n Hc ltac:(set_solver)) as Rn.
  pose proof (co_top _ _ Hc) as Htop.
  rewrite u32_small in Hmem by (unfold is_u32; heap_consts; lia).
  destruct (next_apart _ _ _ _ _ Hc) as [Nb Nn].
  assert (forall c, c <> 0 -> hget s' c = if decide (c = nxt s n) then (hget s c) <| h_prev := b |>
    else if decide (c = b) then (hget s b) <| h_size := siz s b + siz s n |> <| h_requested_size := 0 |>
                              <| h_next := nxt s n |> else hget s c) as G.
  { intros c Hc0. unfold hget at 1. rewrite Hmem. cbv zeta. unfold nonzero.
    destruct (nxt s n =? 0) eqn:Hz; cbn [negb]; rewrite !lookup_total_insert.
    - apply Z.eqb_eq in Hz. rewrite (decide_False (P := c = nxt s n)) by congruence.
      repeat case_decide; try congruence; done.
    - repeat case_decide; subst; try congruence; done. }
  assert (b <> 0) as Hb0 by (apply Hnz; set_solver).
  destruct (mid_absorb s s' l1 b n l2 Hm Hfb Hfn Hbins Hst Hnv Hu) as (Hm' & Hf' & Ha').
  - rewrite Ht. destruct (heap_tail s =? n) eqn:E; [apply Z.eqb_eq in E; by rewrite decide_True|].
    apply Z.eqb_neq in E. by rewrite decide_False.
  - by rewrite G, decide_False, decide_True by congruence.
  - intros d Hd. rewrite G by (apply Hnz; set_solver). destruct (decide (d = nxt s n)); [done|].
    rewrite decide_False; [done|]. intros ->. apply NoDup_app in Hnd as (_ & H1 & [H2 _]%NoDup_cons). set_solver.
  - destruct (mid_insert s' _ [] b Hm' ltac:(set_solver) Hf' ltac:(set_solver)) as (Hm'' & _ & Hco).
    split; [done|]. split; [by apply (body_eq _ _ _ (core_body _ _ (Hco b)))|].
    eapply same_allocs_trans; [exact Ha' | by apply same_allocs_core].
Qed.

(** What a merge with the next block leaves. *)
Definition merged (s : HeapState) (l1 : list Z) (b : Z) (l2 : list Z) (s' : HeapState) : Prop :=
  exists l2', heap_mid s' (l1 ++ b :: l2') [] /\ (is_free s' b <-> is_free s b) /\
    same_allocs s (l1 ++ b :: l2) s' (l1 ++ b :: l2') /\ (l2' = l2 \/ exists n, l2 = n :: l2').

Lemma free_flag s L X b : heap_mid s L X -> b ∈ L -> h_is_free (hget s b) = 0 \/ h_is_free (hget s b) = 1.
Proof. intros Hm HbL. by apply (co_blocks _ _ (mid_chain _ _ _ Hm)). Qed.
Lemma not_free_flag s L X b : heap_mid s L X -> b ∈ L -> ~ is_free s b -> h_is_free (hget s b) = 0.
Proof. intros Hm HbL Hf. by destruct (free_flag _ _ _ _ Hm HbL). Qed.

(** Neighbours in the block list are adjacent. *)
Lemma chain_adjacent s l1 b n l2 : chain_ok s (l1 ++ b :: n :: l2) ->
  b + siz s b = n /\ heap_blocks_adjacent s b n = true.
Proof.
  intros Hc. pose proof (co_tiled _ _ Hc) as Ht. apply tiled_app in Ht as (m & _ & -> & Hn & _).
  split; [done|]. unfold heap_blocks_adjacent. rewrite !(chain_valid s _ _ Hc) by set_solver. fold (siz s m).
  rewrite (chain_end s _ m Hc) by set_solver. by rewrite Hn, Z.eqb_refl.
Qed.
Lemma chain_next s l1 b l2 : chain_ok s (l1 ++ b :: l2) -> nxt s b = first_or 0 l2 /\ prv s b = last_or 0 l1.
Proof. intros Hc. by destruct (dseg_at _ _ _ _ _ _ _ (co_links _ _ Hc)). Qed.

Lemma merge_next_ok s l1 b l2 : heap_mid s (l1 ++ b :: l2) [] ->
  (merge_with_next b s).1 = b /\ merged s l1 b l2 (merge_with_next b s).2.
Proof.
  intros Hm. pose proof (mid_chain _ _ _ Hm) as Hc. unfold merge_with_next.
  destruct (chain_next _ _ _ _ Hc) as [Hn _]. unfold nxt in Hn. rewrite Hn.
  assert (merged s l1 b l2 s) as Hsame by (exists l2; by split_and!; [| | |left]).
  destruct l2 as [|n l2]; cbn [first_or]; [by rewrite orb_true_r|].
  pose proof (chain_nonzero _ _ Hc) as Hnz.
  rewrite (proj2 (Z.eqb_neq b 0)), (proj2 (Z.eqb_neq n 0)) by (apply Hnz; set_solver). cbn [orb].
  destruct (decide (is_free s b)) as [Hfb|Hfb]; [|by rewrite (not_free_flag _ _ _ b Hm ltac:(set_solver) Hfb)].
  destruct (decide (is_free s n)) as [Hfn|Hfn]; [|by rewrite (not_free_flag _ _ _ n Hm ltac:(set_solver) Hfn), orb_true_r].
  rewrite (proj2 (chain_adjacent _ _ _ _ _ Hc)). unfold is_free in Hfb, Hfn. rewrite Hfb, Hfn. cbn [orb negb Z.eqb].
  destruct (mid_two_out s l1 b n l2 Hm Hfb Hfn) as (Hm2 & Hst2 & Hco2).
  set (s2 := heap_remove_free_block n (heap_remove_free_block b s)) in *. clearbody s2.
  assert (is_free s2 b /\ is_free s2 n) as [Fb Fn].
  { split; by apply (body_eq _ _ _ (core_body _ _ (Hco2 _))). }
  set (s3 := hset b _ s2). assert (h_next (hget s3 b) = nxt s2 n) as En by (unfold s3; by rewrite hget_hset, decide_True).
  rewrite !En. set (s4 := if nonzero _ then _ else s3). set (s5 := if heap_tail s4 =? n then _ else s4).
  assert (forall x, hget s3 x = if decide (x = b) then (hget s2 b) <| h_size := u32 (siz s2 b + siz s2 n) |>
    <| h_requested_size := 0 |> <| h_next := nxt s2 n |> else hget s2 x) as G3 by (intros x; unfold s3; apply hget_hset).
  destruct (merge_writes s2 l1 b n l2 s5 Hm2 Fb Fn) as (Hm6 & Hf6 & Ha6).
  - unfold s5, s4. destruct (nonzero _), (_ =? n); done.
  - unfold s5, s4. destruct (nonzero _), (_ =? n); done.
  - unfold s5, s4. destruct (nonzero _), (_ =? n); done.
  - assert (heap_tail s4 = heap_tail s2) as <- by (unfold s4; by destruct (nonzero _)).
    unfold s5. by destruct (_ =? n).
  - assert (mem s5 = mem s4) as -> by (unfold s5; by destruct (_ =? n)). unfold s4.
    destruct (nonzero (nxt s2 n)) eqn:Hz; [|done]. rewrite mem_hset, G3, decide_False; [done|].
    apply (next_apart _ _ _ _ _ (mid_chain _ _ _ Hm2)).
  - split; [done|]. exists l2. split; [done|]. split; [by unfold is_free; rewrite Hfb|]. split; [|right; by exists n].
    eapply same_allocs_trans; [|exact Ha6]. by apply same_allocs_core.
Qed.

(** An operation that keeps the invariant and every allocation. *)
Definition keeps (s : HeapState) (L : list Z) (s' : HeapState) : Prop :=
  exists L', heap_mid s' L' [] /\ same_allocs s L s' L'.
Lemma merged_keeps s l1 b l2 s' : merged s l1 b l2 s' -> keeps s (l1 ++ b :: l2) s'.
Proof. intros (l2' & Hm & _ & Ha & _). by eexists. Qed.
Lemma heap_keeps_trans s L s' L' s'' : same_allocs s L s' L' -> keeps s' L' s'' -> keeps s L s''.
Proof. intros Ha (L'' & Hm & Ha'). exists L''. split; [done|]. by eapply same_allocs_trans. Qed.

Lemma coalesce_around_ok s L b : heap_mid s L [b] -> b ∈ L -> is_free s b ->
  keeps s L (coalesce_around b s).2.
Proof.
  intros Hm HbL Hf. unfold coalesce_around.
  rewrite (proj2 (Z.eqb_neq b 0)) by (by apply (chain_nonzero _ _ (mid_chain _ _ _ Hm))).
  rewrite (chain_valid _ _ _ (mid_chain _ _ _ Hm) HbL). unfold is_free in Hf. rewrite Hf. cbn [negb orb Z.eqb].
  destruct (mid_insert s L [] b Hm HbL Hf ltac:(set_solver)) as (Hm1 & _ & Hco).
  eapply heap_keeps_trans; [apply same_allocs_core; intros; apply Hco|].
  assert (is_free (heap_insert_free_block b s) b) as Hf1 by (by apply (body_eq _ _ _ (core_body _ _ (Hco b)))).
  set (s1 := heap_insert_free_block b s) in *. clearbody s1. clear Hm Hf Hco s.
  apply list_elem_of_split in HbL as (l1 & l2 & ->). pose proof (mid_chain _ _ _ Hm1) as Hc.
  assert (keeps s1 (l1 ++ b :: l2) (merge_with_next b s1).2) as Hplain.
  { apply merged_keeps, merge_next_ok, Hm1. }
  destruct (chain_next _ _ _ _ Hc) as [_ Hp]. unfold prv in Hp. rewrite Hp.
  destruct l1 as [|p l1 _] using rev_ind; [exact Hplain|]. rewrite last_or_snoc.
  destruct (nonzero p && nonzero (h_is_free (hget s1 p)) && heap_blocks_adjacent s1 p b); [|exact Hplain].
  clear Hplain Hp. rewrite <- app_assoc in *. cbn [app] in *.
  destruct (merge_next_ok s1 l1 p (b :: l2) Hm1) as [Hp (l2' & Hm2 & _ & Ha2 & _)].
  destruct (merge_with_next p s1) as [p' s2]. cbn [fst snd] in Hp, Hm2, Ha2. subst p'.
  eapply heap_keeps_trans; [exact Ha2|]. apply merged_keeps, merge_next_ok, Hm2.
Qed.

(** ** Growing *)

Definition fresh_header (n p : Z) : heap_header :=
  {| h_magic := HEAP_BLOCK_MAGIC; h_size := n; h_requested_size := 0; h_is_free := 1; h_in_free_list := 0;
     h_next := 0; h_prev := p; h_free_next := 0; h_free_prev := 0 |}.

Lemma below_top s L b : chain_ok s L -> b ∈ L -> b < heap_next_virtual s.
Proof. intros Hc Hb. pose proof (chain_range _ _ _ Hc Hb). heap_consts. lia. Qed.
Lemma top_above s L : chain_ok s L -> VM_KERNEL_HEAP_BASE <= heap_next_virtual s.
Proof. intros Hc. by destruct (tiled_range _ _ _ _ (co_tiled _ _ Hc) (chain_pos _ _ Hc)). Qed.

Lemma chain_append s s' L r n : chain_ok s L -> r = heap_next_virtual s ->
  4096 <= n -> n mod 16 = 0 -> n mod HEAP_PAGE_SIZE = 0 -> heap_next_virtual s' = r + n -> r + n <= VM_KERNEL_HEAP_LIMIT ->
  heap_start s' = first_or r L -> heap_tail s' = r -> hget s' r = fresh_header n (last_or 0 L) ->
  (forall d, d ∈ L -> hget s' d = if decide (d = last_or 0 L) then (hget s d) <| h_next := r |> else hget s d) ->
  chain_ok s' (L ++ [r]).
Proof.
  intros Hc Er Hn Hn16 Hpg E1 Hlim E2 E3 Gr Gd. pose proof (chain_nodup _ _ Hc) as Hnd.
  destruct Hc as [C1 C2 C3 C4 C5 C6 C7]. constructor.
  - rewrite E2. by destruct L.
  - by rewrite last_or_snoc.
  - apply dseg_app. split; [|by cbn [dseg first_or]; unfold prv, nxt; rewrite Gr].
    eapply dseg_end; [done | exact C3 | |]; intros d Hd; unfold prv, nxt; rewrite (Gd d Hd); by case_decide.
  - apply tiled_app. exists r. split.
    + subst r. eapply tiled_ext; [|exact C4]. intros d Hd. unfold siz. rewrite (Gd d Hd). by case_decide.
    + cbn [tiled]. split; [done|]. rewrite E1. unfold siz. by rewrite Gr.
  - by rewrite E1.
  - rewrite E1, Er. by rewrite Zplus_mod, C6, Hpg.
  - intros d [Hd|[->|[]%elem_of_nil]%elem_of_cons]%elem_of_app.
    + rewrite (Gd d Hd). case_decide; [|by apply C7]. destruct (C7 d Hd). by constructor.
    + rewrite Gr. constructor; cbn -[Z.modulo]; try done; heap_consts; lia.
Qed.

Lemma mid_append s s' L r n : heap_mid s L [] -> r = heap_next_virtual s ->
  0 < n -> n mod HEAP_PAGE_SIZE = 0 -> heap_next_virtual s' = r + n -> r + n <= VM_KERNEL_HEAP_LIMIT ->
  heap_start s' = first_or r L -> heap_tail s' = r -> heap_free_bins s' = heap_free_bins s ->
  heap_current_used_bytes s' = heap_current_used_bytes s ->
  hget s' r = fresh_header n (last_or 0 L) ->
  (forall d, d ∈ L -> hget s' d = if decide (d = last_or 0 L) then (hget s d) <| h_next := r |> else hget s d) ->
  heap_mid s' (L ++ [r]) [r] /\ is_free s' r /\ same_allocs s L s' (L ++ [r]).
Proof.
  intros Hm Er Hn Hpg E1 Hlim E2 E3 E4 E5 Gr Gd. pose proof (mid_chain _ _ _ Hm) as Hc.
  assert (r ∉ L) as HrL by (intros Hr; pose proof (below_top _ _ _ Hc Hr); lia).
  pose proof (top_above _ _ Hc) as Hbase. pose proof (chain_nodup _ _ Hc) as Hnd.
  assert (forall d, d ∈ L -> body (hget s' d) = body (hget s d) /\ links (hget s' d) = links (hget s d) /\
    h_magic (hget s' d) = h_magic (hget s d) /\ h_prev (hget s' d) = h_prev (hget s d)) as Hbd.
  { intros d Hd. rewrite (Gd d Hd). by case_decide. }
  assert (forall d, d ∈ L -> siz s' d = siz s d) as Hsz by (intros d Hd; by destruct (body_eq _ _ _ (proj1 (Hbd d Hd))) as (? & _)).
  assert (4096 <= n /\ n mod 16 = 0) as [Hn1 Hn16].
  { apply Z.mod_divide in Hpg as [k ->]; [|heap_consts; lia]. heap_consts. split; [lia|].
    replace (k * 4096) with ((k * 256) * 16) by lia. apply Z_mod_mult. }
  destruct Hm as [(F & [_ Hb] & Hl) Hz Hu].
  assert (is_free s' r) as Hfr by (unfold is_free; by rewrite Gr).
  split; [|split; [done|]].
  - constructor.
    + exists F. split; [split|].
      * by eapply chain_append.
      * eapply bins_frame; [exact Hb | done | |].
        -- intros d _ Hd. split; [set_solver|]. destruct (Hbd d Hd) as (B & Lk & _). split; [done|].
           unfold body in B. injection B as B1 B2 B3. by split.
        -- intros d [Hd|[->|[]%elem_of_nil]%elem_of_cons]%elem_of_app; [|intros _; by rewrite Gr].
           rewrite (Hsz d Hd). destruct (Hbd d Hd) as (_ & Lk & _). apply links_eq in Lk as (-> & _).
           by apply (bs_out _ _ _ Hb).
      * intros d [Hd|[->|[]%elem_of_nil]%elem_of_cons]%elem_of_app.
        -- destruct (body_eq _ _ _ (proj1 (Hbd d Hd))) as (-> & _ & ->). rewrite Hl by done. set_solver.
        -- split; [|set_solver]. intros HrF. exfalso. apply HrL.
           apply (bi_member _ _ _ _ (bs_bin _ _ _ Hb _ (bin_index_range _)) r HrF).
    + intros d [Hd|[->|[]%elem_of_nil]%elem_of_cons]%elem_of_app.
      * destruct (body_eq _ _ _ (proj1 (Hbd d Hd))) as (_ & -> & ->). by apply Hz.
      * intros _. unfold req. by rewrite Gr.
    + rewrite E5, Hu, asum_app. cbn [asum]. rewrite (same_bodies s s') by (intros; by apply Hbd).
      unfold req at 3. rewrite Gr. cbn. lia.
  - intros d. destruct (decide (d = r)) as [->|Hdr]; [by rewrite alloc_free, alloc_absent|].
    apply alloc_body; [set_solver|]. intros Hd. by apply Hbd.
Qed.

Lemma hget_zero a n s d : ~ (a <= d < a + n) -> hget (heap_zero_region a n s) d = hget s d.
Proof.
  intros Hd. unfold hget, heap_zero_region. cbn [mem]. unfold lookup_total, map_lookup_total.
  f_equal. change (mem (s <| mem := ?m |>)) with m. rewrite map_lookup_filter.
  destruct (mem s !! d) as [h|]; [|done]. cbn. by rewrite option_guard_True.
Qed.

(** The pages a growth asks for, where the sum does not wrap. *)
Lemma region_bytes bytes : 0 < bytes <= 0xFFFFF000 ->
  let n := u32 (u32 (bytes + HEAP_PAGE_SIZE) - 1) / HEAP_PAGE_SIZE * HEAP_PAGE_SIZE in
  bytes <= n < 2 ^ 32 /\ n mod HEAP_PAGE_SIZE = 0.
Proof.
  intros Hb. cbv zeta. assert (u32 (u32 (bytes + HEAP_PAGE_SIZE) - 1) = bytes + 4095) as ->.
  { unfold u32 at 2. unfold u32. rewrite Zminus_mod_idemp_l. heap_consts.
    replace (bytes + 4096 - 1) with (bytes + 4095) by lia. apply Z.mod_small. lia. }
  heap_consts. split; [|apply Z_mod_mult]. pose proof (Z.div_mod (bytes + 4095) 4096 ltac:(lia)).
  pose proof (Z.mod_pos_bound (bytes + 4095) 4096 ltac:(lia)). lia.
Qed.

(** ** Searching *)

(** A walk never meets more blocks than there are headers. *)
Lemma walk_length s L l : chain_ok s L -> NoDup l -> (forall b, b ∈ l -> b ∈ L) -> (length l < walk_fuel s)%nat.
Proof.
  intros Hc Hnd Hl. unfold walk_fuel. enough (length l <= size (mem s))%nat by lia.
  rewrite <- (size_list_to_set (C := gset Z) l Hnd), <- (size_dom (D := gset Z)). apply subseteq_size.
  intros b Hb%elem_of_list_to_set. apply elem_of_dom. destruct (mem s !! b) as [h|] eqn:E; [by eexists|].
  pose proof (bo_magic _ (co_blocks _ _ Hc b (Hl b Hb))) as Hm. unfold hget in Hm.
  by rewrite (lookup_total_alt (M := gmap Z)), E in Hm.
Qed.

(** The first block of a list that is large enough. *)
Lemma find_in_bin_ok s L total p l fuel : chain_ok s L -> dseg (fnx s) (fpv s) p l 0 ->
  (forall b, b ∈ l -> b ∈ L /\ is_free s b) -> (length l < fuel)%nat ->
  exists b, find_in_bin fuel s total (first_or 0 l) = Some b /\
    ((b = 0 /\ forall c, c ∈ l -> siz s c < total) \/ (b ∈ l /\ total <= siz s b)).
Proof.
  intros Hc. revert p fuel. induction l as [|c l IH]; intros p [|fuel] Hd Hl Hfuel; cbn [length] in Hfuel; try lia.
  - exists 0. split; [done|]. left. split; [done|]. intros c Hcl. by apply elem_of_nil in Hcl.
  - destruct Hd as (_ & Hn & Hd). destruct (Hl c ltac:(by left)) as [HcL Hf]. cbn [first_or find_in_bin].
    rewrite (proj2 (Z.eqb_neq c 0)) by (by apply (chain_nonzero _ _ Hc)).
    rewrite (chain_valid _ _ _ Hc HcL). unfold is_free in Hf. rewrite Hf. cbn [nonzero negb andb Z.eqb].
    fold (siz s c) (fnx s c). destruct (total <=? siz s c) eqn:Hsz.
    + apply Z.leb_le in Hsz. exists c. split; [done|]. right. split; [by left | done].
    + apply Z.leb_gt in Hsz. rewrite Hn. destruct (IH c fuel Hd) as (b & -> & Hb); [intros; apply Hl; by right | lia |].
      exists b. split; [done|]. destruct Hb as [[-> Hb]|[Hb Hbt]]; [left | right; split; [by right | done]].
      split; [done|]. intros d [->|Hd']%elem_of_cons; [done | by apply Hb].
Qed.

Lemma find_from_bin_ok s L F total n i : heap_ok s L F -> 0 <= i -> i + Z.of_nat n = HEAP_FREE_BIN_COUNT ->
  exists b, find_from_bin n i s total = Some b /\
    ((b = 0 /\ forall j c, i <= j < HEAP_FREE_BIN_COUNT -> c ∈ F j -> siz s c < total) \/
     (exists j, is_bin j /\ b ∈ F j /\ total <= siz s b)).
Proof.
  intros [Hc Hb]. revert i. induction n as [|n IH]; intros i Hi Hn; cbn [find_from_bin].
  - exists 0. split; [done|]. left. split; [done|]. intros. lia.
  - assert (is_bin i) as Hbi by (unfold is_bin; lia). destruct (bs_bin _ _ _ Hb i Hbi) as [Hd Hnd Hh Hmem].
    destruct (find_in_bin_ok s L total 0 (F i) (walk_fuel s) Hc Hd) as (b & Hf & Hcase).
    { intros c Hcl. destruct (Hmem c Hcl) as (? & ? & _). done. }
    { eapply walk_length; [done | done |]. intros c Hcl. apply (Hmem c Hcl). }
    rewrite Hh, Hf. destruct Hcase as [[-> Hnone]|[HbF Hbt]].
    + cbn [Z.eqb]. destruct (IH (i + 1) ltac:(lia) ltac:(lia)) as (b & -> & Hb'). exists b. split; [done|].
      destruct Hb' as [[-> Hr]|Hr]; [left | by right]. split; [done|]. intros j c Hj Hcj.
      destruct (decide (j = i)) as [->|Hji]; [by apply Hnone|]. apply (Hr j c); [lia | done].
    + rewrite (proj2 (Z.eqb_neq b 0)) by (apply (chain_nonzero _ _ Hc), (Hmem b HbF)).
      exists b. split; [done|]. right. by exists i.
Qed.

Lemma bin_index_mono a b : a <= b -> heap_bin_index a <= heap_bin_index b.
Proof. intros Hab. unfold heap_bin_index. repeat case_match; bprop; lia. Qed.

(** The search ends, and finds a free block that is large enough if there is
    one. *)
Lemma find_ok s L total : heap_mid s L [] ->
  exists b s', heap_find_free_block total s = Some (b, s') /\ same_heap s s' /\
    ((b = 0 /\ forall c, c ∈ L -> is_free s c -> siz s c < total) \/ (b ∈ L /\ is_free s b /\ total <= siz s b)).
Proof.
  intros [(F & Hok & Hl) _ _]. unfold heap_find_free_block. pose proof (bin_index_range total) as Hr. unfold is_bin in Hr.
  destruct (find_from_bin_ok s L F total (Z.to_nat (HEAP_FREE_BIN_COUNT - heap_bin_index total)) (heap_bin_index total) Hok)
    as (b & -> & Hcase); [lia | lia |].
  destruct Hcase as [[-> Hnone]|(j & Hj & HbF & Hbt)].
  - eexists 0, _. split; [done|]. split; [done|]. left. split; [done|]. intros c HcL Hf.
    destruct (decide (siz s c < total)) as [|Hge]; [done|].
    apply (Hnone (heap_bin_index (siz s c)) c).
    + pose proof (bin_index_range (siz s c)) as Hr'. unfold is_bin in Hr'.
      pose proof (bin_index_mono total (siz s c) ltac:(lia)). lia.
    + apply Hl; [done|]. split; [done|]. set_solver.
  - destruct (bi_member _ _ _ _ (bs_bin _ _ _ (proj2 Hok) j Hj) b HbF) as (HbL & Hf & _).
    rewrite (proj2 (Z.eqb_neq b 0)) by (by apply (chain_nonzero _ _ (proj1 Hok))).
    eexists b, _. split; [done|]. split; [done|]. by right.
Qed.

(** ** Shrinking *)

Lemma tiled_aligned sz a l z : tiled sz a l z -> a mod 16 = 0 -> (forall b, b ∈ l -> sz b mod 16 = 0) ->
  forall b, b ∈ l -> b mod 16 = 0.
Proof.
  revert a. induction l as [|c l IH]; intros a Ht Ha Hs b Hb; [by apply elem_of_nil in Hb|].
  destruct Ht as [-> Ht]. apply elem_of_cons in Hb as [->|Hb]; [done|].
  apply (IH _ Ht); [|intros; apply Hs; by right | done]. by rewrite Zplus_mod, Ha, Hs by (by left).
Qed.
Lemma chain_aligned s L b : chain_ok s L -> b ∈ L -> b mod 16 = 0.
Proof.
  intros Hc. apply (tiled_aligned _ _ _ _ (co_tiled _ _ Hc)); [done|].
  intros c Hcl. by apply (co_blocks _ _ Hc).
Qed.

(** The last block goes with its pages. *)
Lemma mid_drop s s' l t : heap_mid s (l ++ [t]) [t] -> is_free s t -> t mod HEAP_PAGE_SIZE = 0 ->
  heap_next_virtual s' = t -> heap_start s' = first_or 0 l -> heap_tail s' = last_or 0 l ->
  heap_free_bins s' = heap_free_bins s -> heap_current_used_bytes s' = heap_current_used_bytes s ->
  (forall d, d ∈ l -> hget s' d = if decide (d = last_or 0 l) then (hget s d) <| h_next := 0 |> else hget s d) ->
  heap_mid s' l [] /\ same_allocs s (l ++ [t]) s' l.
Proof.
  intros Hm Hft Hpg E1 E2 E3 E4 E5 Gd. pose proof (mid_chain _ _ _ Hm) as Hc.
  pose proof (chain_nodup _ _ Hc) as Hnd. apply NoDup_app in Hnd as (Hnd & Htl & _).
  assert (t ∉ l) as Ht by (intros Ht; apply (Htl t Ht); by left). clear Htl.
  assert (forall d, d ∈ l -> body (hget s' d) = body (hget s d) /\ links (hget s' d) = links (hget s d) /\
    h_magic (hget s' d) = h_magic (hget s d) /\ h_prev (hget s' d) = h_prev (hget s d)) as Hbd.
  { intros d Hd. rewrite (Gd d Hd). by case_decide. }
  assert (forall d, d ∈ l -> siz s' d = siz s d) as Hsz by (intros d Hd; by destruct (body_eq _ _ _ (proj1 (Hbd d Hd))) as (? & _)).
  pose proof (chain_range _ _ t Hc ltac:(set_solver)) as Hrt. pose proof (co_top _ _ Hc) as Htop.
  destruct Hm as [(F & [_ Hb] & Hl) Hz Hu]. split.
  - constructor.
    + exists F. split; [split|].
      * destruct Hc as [C1 C2 C3 C4 C5 C6 C7]. apply dseg_app in C3 as [C3 _].
        apply tiled_app in C4 as (m & C4 & -> & _). constructor; try done.
        -- eapply dseg_end; [done | exact C3 | |]; intros d Hd; unfold prv, nxt; [apply Hbd, Hd|].
           rewrite (Gd d Hd). by case_decide.
        -- rewrite E1. by eapply tiled_ext.
        -- rewrite E1. heap_consts. lia.
        -- by rewrite E1.
        -- intros d Hd. destruct (Hbd d Hd) as (B & _ & Mg & _). unfold body in B. injection B as B1 B2 B3.
           destruct (C7 d ltac:(set_solver)). by constructor; rewrite ?Mg, ?B1, ?B2, ?B3.
      * eapply bins_frame; [exact Hb | done | |].
        -- intros d HdF Hd. apply Hl in HdF as [_ HdX]; [|done]. assert (d ∈ l) as Hdl by set_solver. split; [done|].
           destruct (Hbd d Hdl) as (B & Lk & _). split; [done|]. unfold body in B. injection B as B1 B2 B3. by split.
        -- intros d Hd. rewrite (Hsz d Hd). destruct (Hbd d Hd) as (_ & Lk & _). apply links_eq in Lk as (-> & _).
           apply (bs_out _ _ _ Hb). set_solver.
      * intros d Hd. destruct (body_eq _ _ _ (proj1 (Hbd d Hd))) as (-> & _ & ->). rewrite Hl by set_solver. set_solver.
    + intros d Hd. destruct (body_eq _ _ _ (proj1 (Hbd d Hd))) as (_ & -> & ->). apply Hz. set_solver.
    + rewrite E5, Hu, asum_app. cbn [asum]. rewrite (Hz t) by set_solver.
      rewrite (same_bodies s s') by (intros; by apply Hbd). lia.
  - intros d. destruct (decide (d = t)) as [->|Hdt]; [by rewrite (alloc_free s), alloc_absent|].
    apply alloc_body; [set_solver|]. intros Hd. apply Hbd. set_solver.
Qed.

(** The last block loses its last pages. *)
Lemma mid_trim s s' l t n : heap_mid s (l ++ [t]) [t] -> is_free s t ->
  HEADER_SIZE <= n -> n mod 16 = 0 -> (t + n) mod HEAP_PAGE_SIZE = 0 -> t + n <= heap_next_virtual s ->
  heap_next_virtual s' = t + n -> heap_start s' = heap_start s -> heap_tail s' = heap_tail s ->
  heap_free_bins s' = heap_free_bins s -> heap_current_used_bytes s' = heap_current_used_bytes s ->
  hget s' t = (hget s t) <| h_size := n |> <| h_next := 0 |> -> (forall d, d ∈ l -> hget s' d = hget s d) ->
  heap_mid s' (l ++ [t]) [t] /\ is_free s' t /\ same_allocs s (l ++ [t]) s' (l ++ [t]).
Proof.
  intros Hm Hft Hn Hn16 Hpg Hle E1 E2 E3 E4 E5 Gt Gd. pose proof (mid_chain _ _ _ Hm) as Hc.
  pose proof (chain_nodup _ _ Hc) as Hnd. apply NoDup_app in Hnd as (Hnd & Htl & _).
  assert (t ∉ l) as Ht by (intros Ht; apply (Htl t Ht); by left). clear Htl.
  pose proof (mid_unlisted _ _ _ t Hm ltac:(set_solver) ltac:(left; set_solver)) as Hun.
  pose proof (co_top _ _ Hc) as Htop.
  assert (is_free s' t) as Hft' by (unfold is_free; by rewrite Gt).
  assert (forall d, d ∈ l -> siz s' d = siz s d) as Hsz by (intros d Hd; unfold siz; by rewrite Gd).
  destruct Hm as [(F & [_ Hb] & Hl) Hz Hu]. split; [|split; [done|]].
  - constructor.
    + exists F. split; [split|].
      * destruct Hc as [C1 C2 C3 C4 C5 C6 C7]. apply dseg_app in C3 as [C3 (C3a & _ & _)].
        apply tiled_app in C4 as (m & C4 & -> & _). constructor; try congruence.
        -- apply dseg_app. split; [eapply dseg_ext; [|exact C3]; intros d Hd; unfold nxt, prv; by rewrite Gd|].
           cbn [dseg first_or]. unfold prv, nxt in *. by rewrite Gt.
        -- apply tiled_app. exists m. split; [by eapply tiled_ext|]. cbn [tiled]. split; [done|].
           rewrite E1. unfold siz. by rewrite Gt.
        -- rewrite E1. heap_consts. lia.
        -- intros d [Hd|[->|[]%elem_of_nil]%elem_of_cons]%elem_of_app; [rewrite Gd by done; apply C7; set_solver|].
           destruct (C7 m ltac:(set_solver)) as [M1 M2 M3 M4 M5]. pose proof (Hz m ltac:(set_solver) Hft) as Hrq.
           unfold req in Hrq. rewrite Gt. constructor; cbn -[Z.modulo]; try done; heap_consts; lia.
      * eapply bins_frame; [exact Hb | done | |].
        -- intros d HdF Hd. apply Hl in HdF as [_ HdX]; [|done]. assert (d ∈ l) as Hdl by set_solver. split; [done|].
           unfold siz. by rewrite Gd.
        -- intros d [Hd|[->|[]%elem_of_nil]%elem_of_cons]%elem_of_app; [|intros _; by rewrite Gt].
           rewrite (Hsz d Hd), Gd by done. apply (bs_out _ _ _ Hb). set_solver.
      * intros d [Hd|[->|[]%elem_of_nil]%elem_of_cons]%elem_of_app.
        -- rewrite (Hsz d Hd). unfold is_free. rewrite Gd by done. apply Hl. set_solver.
        -- split; [|set_solver]. intros HtF. exfalso.
           destruct (bi_member _ _ _ _ (bs_bin _ _ _ Hb _ (bin_index_range _)) t HtF) as (_ & _ & Hin & _). congruence.
    + intros d [Hd|[->|[]%elem_of_nil]%elem_of_cons]%elem_of_app; unfold is_free, req.
      * rewrite Gd by done. apply Hz. set_solver.
      * rewrite Gt. cbn. apply Hz. set_solver.
    + rewrite E5, Hu, !asum_app. cbn [asum]. f_equal.
      * apply asum_ext. intros d Hd. unfold req. by rewrite Gd.
      * f_equal. unfold req. by rewrite Gt.
  - intros d. destruct (decide (d = t)) as [->|Hdt]; [by rewrite !alloc_free|].
    apply alloc_body; [done|]. intros Hd. rewrite Gd; [done | set_solver].
Qed.
