(* ===== verification/HeapSpec.v ===== *)
(** * Theorems about the kernel heap

    Over the steps of [HeapSteps]: no walk runs out of fuel, every operation
    keeps the invariant, [kmalloc] hands out a block nobody has and touches no
    other allocation, [kfree] takes back exactly that block, and a request just
    below 4 GiB breaks the invariant. *)

From S2P Require Import Prelude KernelEnv LinkedList Heap HeapBlocks HeapSteps.

Section Operations.
Context {E : Type} `{KernelEnv E} `{HeapVm E}.
Implicit Type e : E.

(** Linking the header of a new region behind the last block. *)
Lemma region_linked s s5 L r n : chain_ok s L -> r = heap_next_virtual s ->
  heap_tail s5 = heap_tail s -> (forall d, d < r -> hget s5 d = hget s d) -> hget s5 r = fresh_header n (heap_tail s) ->
  let s6 := if heap_start s =? 0 then s5 <| heap_start := r |> <| heap_tail := r |>
            else (hset (heap_tail s) (fun h => h <| h_next := r |>) s5) <| heap_tail := r |> in
  heap_start s5 = heap_start s ->
  heap_start s6 = first_or r L /\ heap_tail s6 = r /\ heap_free_bins s6 = heap_free_bins s5 /\
  heap_next_virtual s6 = heap_next_virtual s5 /\ heap_current_used_bytes s6 = heap_current_used_bytes s5 /\
  hget s6 r = fresh_header n (last_or 0 L) /\
  forall d, d ∈ L -> hget s6 d = if decide (d = last_or 0 L) then (hget s d) <| h_next := r |> else hget s d.
Proof.
  intros Hc Er Et G5 G5r. cbv zeta. intros Es. rewrite <- (co_tail _ _ Hc), <- G5r. destruct L as [|x L'].
  - rewrite (co_start _ _ Hc). cbn [first_or Z.eqb]. split_and!; try done. intros d Hd. by apply elem_of_nil in Hd.
  - rewrite (co_start _ _ Hc). cbn [first_or]. rewrite (proj2 (Z.eqb_neq x 0)) by (apply (chain_nonzero _ _ Hc); by left).
    assert (heap_tail s ∈ x :: L') as Ht.
    { rewrite (co_tail _ _ Hc), last_or_cons. destruct (last_or_elem x L') as [->|]; [by left | by right]. }
    pose proof (below_top _ _ _ Hc Ht) as Htb. rewrite <- Er in Htb.
    assert (forall d, hget ((hset (heap_tail s) (fun h => h <| h_next := r |>) s5) <| heap_tail := r |>) d =
      if decide (d = heap_tail s) then (hget s5 (heap_tail s)) <| h_next := r |> else hget s5 d) as G6.
    { intros d. etrans; [|apply hget_hset]. done. }
    split_and!; try done.
    + etrans; [exact Es | apply (co_start _ _ Hc)].
    + rewrite G6, decide_False by lia. done.
    + intros d Hd. pose proof (below_top _ _ _ Hc Hd) as Hdb. rewrite <- Er in Hdb. rewrite G6, (G5 d), (G5 (heap_tail s)) by done.
      by destruct (decide (d = heap_tail s)) as [->|].
Qed.

Lemma append_region_ok s L bytes e : heap_mid s L [] -> 0 < bytes <= 0xFFFFF000 ->
  let r := append_region bytes s e in
  (r.1.1 = 0 /\ same_heap s r.1.2) \/
  (r.1.1 <> 0 /\ heap_mid r.1.2 (L ++ [r.1.1]) [] /\ is_free r.1.2 r.1.1 /\ bytes <= siz r.1.2 r.1.1 /\
   same_allocs s L r.1.2 (L ++ [r.1.1])).
Proof.
  intros Hm Hb. cbv zeta. unfold append_region.
  set (s1 := s <| heap_grow_requests := _ |>). cbv zeta. set (pages := u32 (u32 _ - 1) / HEAP_PAGE_SIZE).
  destruct (region_bytes bytes Hb) as [Hn Hpg]. fold pages in Hn, Hpg. set (n := pages * HEAP_PAGE_SIZE) in *.
  change (heap_next_virtual s1) with (heap_next_virtual s). pose proof (mid_chain _ _ _ Hm) as Hc.
  pose proof (co_top _ _ Hc) as Htop. pose proof (top_above _ _ Hc) as Hbase. set (r := heap_next_virtual s) in *.
  rewrite u64_small by (unfold is_u64; heap_consts; lia).
  destruct (VM_KERNEL_HEAP_LIMIT <? r + n) eqn:Hlim; [by left|]. apply Z.ltb_ge in Hlim.
  destruct (vm_alloc_map_range r n HEAP_VM_FLAGS e) as [[ok mp] e1]. destruct (ok =? 0); [by left|].
  right. cbn [fst snd]. rewrite (u32_small n) by (unfold is_u32; heap_consts; lia).
  set (s2 := s1 <| heap_mapped_pages := _ |>). set (s3 := s2 <| heap_next_virtual := _ |>).
  set (s4 := heap_zero_region r n s3). change (heap_tail s4) with (heap_tail s).
  set (s5 := heap_init_block r n 1 0 (heap_tail s) s4). change (heap_start s5) with (heap_start s).
  change (heap_tail s5) with (heap_tail s).
  assert (r <> 0) as Hr0 by (heap_consts; lia). split; [done|].
  assert (forall d, d < r -> hget s5 d = hget s d) as G5.
  { intros d Hd. unfold s5, heap_init_block. rewrite hget_hset, decide_False by lia.
    unfold s4. rewrite hget_zero by lia. done. }
  assert (hget s5 r = fresh_header n (heap_tail s)) as G5r.
  { unfold s5, heap_init_block. by rewrite hget_hset, decide_True. }
  assert (heap_next_virtual s5 = r + n) as En.
  { change (heap_next_virtual s5) with (u64 (r + n)). apply u64_small. unfold is_u64. heap_consts. lia. }
  destruct (region_linked s s5 L r n Hc eq_refl eq_refl G5 G5r eq_refl) as (T1 & T2 & T3 & T4 & T5 & T6 & T7).
  set (s6 := if heap_start s =? 0 then _ else _) in *. rewrite En in T4. change (heap_free_bins s5) with (heap_free_bins s) in T3.
  change (heap_current_used_bytes s5) with (heap_current_used_bytes s) in T5.
  clearbody s6. destruct (mid_append s s6 L r n Hm) as (Hm6 & Hf6 & Ha6); try done; [lia|].
  destruct (mid_insert s6 _ [] r Hm6 ltac:(set_solver) Hf6 ltac:(set_solver)) as (Hm7 & _ & Hco).
  destruct (body_eq _ _ _ (core_body _ _ (Hco r))) as (Es & _ & Ef). rewrite Ef, Es. split; [done|]. split; [done|].
  split; [unfold siz; rewrite T6; cbn; lia|]. eapply same_allocs_trans; [exact Ha6|]. by apply same_allocs_core.
Qed.

Lemma heap_align_down_page x : is_u64 x -> align_down_heap x HEAP_PAGE_SIZE = x / 4096 * 4096.
Proof. intros Hx. exact (land_not64 x 12 Hx ltac:(lia)). Qed.
Lemma heap_align_up_page x : 0 <= x < 2 ^ 63 -> align_up_heap x HEAP_PAGE_SIZE = (x + 4095) / 4096 * 4096.
Proof.
  intros Hx. unfold align_up_heap. rewrite u64_small by (unfold is_u64; heap_consts; lia).
  replace (x + HEAP_PAGE_SIZE - 1) with (x + 4095) by (heap_consts; lia).
  exact (land_not64 (x + 4095) 12 ltac:(unfold is_u64; lia) ltac:(lia)).
Qed.

(** Where the pages that [shrink_step] releases begin. *)
Lemma releasable s t : VM_KERNEL_HEAP_BASE <= t < VM_KERNEL_HEAP_LIMIT ->
  let rs := if (t =? align_down_heap t HEAP_PAGE_SIZE) && (HEAP_PAGE_SIZE <=? siz s t)
            then t else align_up_heap (u64 (t + HEADER_SIZE)) HEAP_PAGE_SIZE in
  rs mod HEAP_PAGE_SIZE = 0 /\ (rs = t \/ t + HEADER_SIZE <= rs).
Proof.
  intros Ht. cbv zeta. rewrite heap_align_down_page by (unfold is_u64; heap_consts; lia).
  rewrite u64_small by (unfold is_u64; heap_consts; lia). rewrite heap_align_up_page by (heap_consts; lia).
  destruct ((t =? t / 4096 * 4096) && _) eqn:Hw; heap_consts.
  - apply andb_true_iff in Hw as [Hw%Z.eqb_eq _]. split; [|by left]. rewrite Hw. apply Z_mod_mult.
  - split; [apply Z_mod_mult|]. right. pose proof (Z.div_mod (t + 48 + 4095) 4096 ltac:(lia)).
    pose proof (Z.mod_pos_bound (t + 48 + 4095) 4096 ltac:(lia)). lia.
Qed.

(** The two ways an iteration ends: [s1] is the heap with the last block [t] out
    of its bin and its pages from [rs] on unmapped. *)
Lemma shrink_whole s s1 l t : heap_mid s (l ++ [t]) [t] -> is_free s t -> t mod HEAP_PAGE_SIZE = 0 ->
  heap_start s1 = heap_start s -> heap_free_bins s1 = heap_free_bins s -> heap_next_virtual s1 = t ->
  heap_current_used_bytes s1 = heap_current_used_bytes s -> (forall d, hget s1 d = hget s d) ->
  let p := last_or 0 l in
  let s2 := if nonzero p then hset p (fun h => h <| h_next := 0 |>) s1 else s1 <| heap_start := 0 |> in
  heap_mid (s2 <| heap_tail := p |>) l [] /\ same_allocs s (l ++ [t]) (s2 <| heap_tail := p |>) l.
Proof.
  intros Hm Hf Hpg E1 E2 E3 E4 G. cbv zeta. pose proof (mid_chain _ _ _ Hm) as Hc.
  assert (forall d, d ∈ l -> d <> 0) as Hnz by (intros d Hd; apply (chain_nonzero _ _ Hc); set_solver).
  set (s2 := if nonzero _ then _ else _). apply (mid_drop s _ l t Hm Hf Hpg); try done.
  - unfold s2. by destruct (nonzero _).
  - unfold s2, nonzero. destruct (last_or 0 l =? 0) eqn:Hz; cbn [negb].
    + apply Z.eqb_eq, (last_or_zero l Hnz) in Hz. by subst l.
    + apply Z.eqb_neq in Hz. change (heap_start s1 = first_or 0 l). rewrite E1, (co_start _ _ Hc). by destruct l.
  - unfold s2. by destruct (nonzero _).
  - unfold s2. by destruct (nonzero _).
  - intros d Hd. change (hget (s2 <| heap_tail := last_or 0 l |>) d) with (hget s2 d). unfold s2, nonzero.
    destruct (last_or 0 l =? 0) eqn:Hz; cbn [negb].
    + apply Z.eqb_eq, (last_or_zero l Hnz) in Hz. subst l. by apply elem_of_nil in Hd.
    + rewrite hget_hset, !G. by destruct (decide (d = last_or 0 l)) as [->|].
Qed.

Lemma shrink_part s s1 l t rs : heap_mid s (l ++ [t]) [t] -> is_free s t -> rs mod HEAP_PAGE_SIZE = 0 ->
  t + HEADER_SIZE <= rs < heap_next_virtual s ->
  heap_start s1 = heap_start s -> heap_tail s1 = heap_tail s -> heap_free_bins s1 = heap_free_bins s ->
  heap_next_virtual s1 = rs -> heap_current_used_bytes s1 = heap_current_used_bytes s -> (forall d, hget s1 d = hget s d) ->
  let s2 := hset t (fun h => h <| h_size := u32 (rs - t) |> <| h_next := 0 |>) s1 in
  let s3 := heap_insert_free_block t s2 in
  heap_mid s3 (l ++ [t]) [] /\ same_allocs s (l ++ [t]) s3 (l ++ [t]).
Proof.
  intros Hm Hf Hrs Hr E1 E2 E3 E4 E5 G. cbv zeta. pose proof (mid_chain _ _ _ Hm) as Hc.
  assert (t ∈ l ++ [t]) as HtL by set_solver. pose proof (co_top _ _ Hc) as Htop.
  pose proof (chain_range _ _ _ Hc HtL) as Rt.
  rewrite u32_small by (unfold is_u32; heap_consts; lia). set (s2 := hset t _ s1).
  destruct (mid_trim s s2 l t (rs - t) Hm Hf) as (Hm2 & Hf2 & Ha2); try done; try lia.
  - rewrite Zminus_mod, (chain_aligned _ _ _ Hc HtL), Z.sub_0_r. apply Z.mod_divide in Hrs as [k ->]; [|heap_consts; lia].
    rewrite Z.mod_mod by lia. heap_consts. replace (k * 4096) with ((k * 256) * 16) by lia. apply Z_mod_mult.
  - by replace (t + (rs - t)) with rs by lia.
  - change (heap_next_virtual s2) with (heap_next_virtual s1). lia.
  - unfold s2. rewrite hget_hset, decide_True, G by done. done.
  - intros d Hd. unfold s2. rewrite hget_hset, decide_False, G; [done|]. intros ->.
    pose proof (chain_nodup _ _ Hc) as Hnd. apply NoDup_app in Hnd as (_ & Hnd & _). apply (Hnd t Hd). by left.
  - destruct (mid_insert s2 _ [] t Hm2 HtL Hf2 ltac:(set_solver)) as (Hm3 & _ & Hco3). split; [done|].
    eapply same_allocs_trans; [exact Ha2|]. by apply same_allocs_core.
Qed.

Lemma shrink_step_ok s L e : heap_mid s L [] -> let r := shrink_step s e in
  exists L', heap_mid r.1.2 L' [] /\ same_allocs s L r.1.2 L' /\ (r.1.1 = true -> exists t, L = L' ++ [t]).
Proof.
  intros Hm. cbv zeta. pose proof (mid_chain _ _ _ Hm) as Hc. unfold shrink_step.
  assert (exists L', heap_mid s L' [] /\ same_allocs s L s L' /\ (false = true -> exists t, L = L' ++ [t])) as Hstop
    by (by exists L).
  destruct L as [|t l _] using rev_ind; [by rewrite (co_tail _ _ Hc)|].
  assert (heap_tail s = t) as -> by (by rewrite (co_tail _ _ Hc), last_or_snoc).
  assert (t ∈ l ++ [t]) as HtL by set_solver.
  rewrite (proj2 (Z.eqb_neq t 0)) by (by apply (chain_nonzero _ _ Hc)). cbn [orb].
  destruct (decide (is_free s t)) as [Hf|Hf]; [|by rewrite (not_free_flag _ _ _ _ Hm HtL Hf)].
  unfold is_free in Hf. rewrite Hf. cbn [Z.eqb]. fold (siz s t). rewrite (chain_end _ _ _ Hc HtL).
  pose proof (chain_range _ _ _ Hc HtL) as Hr. pose proof (co_top _ _ Hc) as Htop.
  assert (t + siz s t = heap_next_virtual s) as Hend.
  { pose proof (co_tiled _ _ Hc) as Ht. by apply tiled_app in Ht as (m & _ & -> & ?). }
  rewrite Hend, Z.eqb_refl. cbn [negb]. destruct (releasable s t ltac:(heap_consts; lia)) as [Hrs Hcase].
  set (rs := if _ && _ then t else _) in *. clearbody rs.
  destruct (heap_next_virtual s <=? rs) eqn:Hlt; [done|]. apply Z.leb_gt in Hlt.
  destruct (mid_remove s _ [] t Hm HtL Hf ltac:(set_solver)) as (Hm1 & Hst1 & Hco1).
  assert (is_free (heap_remove_free_block t s) t) as Hf1 by (by apply (body_eq _ _ _ (core_body _ _ (Hco1 t)))).
  assert (h_prev (hget s t) = last_or 0 l) as Hp by apply (chain_next _ _ _ _ Hc). rewrite Hp.
  destruct (statics_numbers _ _ Hst1) as ((W1 & W2) & W3 & W4).
  set (s1 := heap_remove_free_block t s) in *. clearbody s1. pose proof (same_allocs_core s s1 (l ++ [t]) ltac:(done)) as Ha1.
  destruct (vm_unmap_free_range rs (u32 ((heap_next_virtual s - rs) / HEAP_PAGE_SIZE)) e) as [um e1].
  destruct (rs =? t) eqn:Hw; cbn [fst snd].
  - apply Z.eqb_eq in Hw. subst rs. edestruct (shrink_whole s1) as [Hm2 Ha2]; [exact Hm1 | done | done | ..|].
    6: { exists l. split; [exact Hm2|]. split; [|intros _; by exists t]. by eapply same_allocs_trans. }
    all: done.
  - apply Z.eqb_neq in Hw. destruct Hcase as [|Hge]; [done|]. edestruct (shrink_part s1) as [Hm2 Ha2]; [exact Hm1 | done | done | ..|].
    8: { exists (l ++ [t]). split; [exact Hm2|]. split; [|done]. by eapply same_allocs_trans. }
    all: try done. lia.
Qed.

Lemma shrink_loop_ok fuel s L e : heap_mid s L [] -> (length L < fuel)%nat ->
  exists s' e', shrink_loop fuel s e = Some (s', e') /\ keeps s L s'.
Proof.
  revert s L e. induction fuel as [|fuel IH]; intros s L e Hm Hlen; [lia|]. cbn [shrink_loop].
  destruct (shrink_step_ok s L e Hm) as (L' & Hm' & Ha' & Hagain).
  destruct (shrink_step s e) as [[again s'] e']. cbn [fst snd] in *. destruct again.
  - destruct (Hagain eq_refl) as [t ->]. rewrite length_app in Hlen. cbn [length] in Hlen.
    destruct (IH s' L' e' Hm' ltac:(lia)) as (s'' & e'' & -> & Hk). exists s'', e''. split; [done|].
    by eapply heap_keeps_trans.
  - exists s', e'. split; [done|]. by exists L'.
Qed.
Lemma shrink_ok s L e : heap_mid s L [] -> exists s' e', shrink_heap_tail s e = Some (s', e') /\ keeps s L s'.
Proof.
  intros Hm. apply shrink_loop_ok; [done|]. pose proof (mid_chain _ _ _ Hm) as Hc.
  by eapply walk_length; [exact Hc | by eapply chain_nodup |].
Qed.

(** ** Allocation *)

(** The requests the 32-bit page arithmetic of [append_region] can serve or
    refuse; [heap_grow_wraps] below is about the others. *)
Definition heap_request_ok (size : Z) : Prop := 0 <= size /\ ~ (0xFFFFEFD0 < size <= 0xFFFFFFC0).

Lemma align_16 x : 0 <= x < 2 ^ 40 -> align_up_heap (u64 x) 16 = (x + 15) / 16 * 16.
Proof.
  intros Hx. unfold align_up_heap. rewrite !u64_small by (unfold is_u64; rewrite ?u64_small; unfold is_u64; lia).
  replace (x + 16 - 1) with (x + 15) by lia. exact (land_not64 (x + 15) 4 ltac:(unfold is_u64; lia) ltac:(lia)).
Qed.
Lemma total_bytes size : 0 < size <= 0xFFFFFFCF ->
  let t := align_up_heap (u64 (size + HEADER_SIZE)) 16 in
  64 <= t /\ t mod 16 = 0 /\ size + HEADER_SIZE <= t < size + HEADER_SIZE + 16.
Proof.
  intros Hs. cbv zeta. rewrite align_16 by (heap_consts; lia). heap_consts.
  pose proof (Z.div_mod (size + 48 + 15) 16 ltac:(lia)). pose proof (Z.mod_pos_bound (size + 48 + 15) 16 ltac:(lia)).
  split_and!; [|apply Z_mod_mult| |]; lia.
Qed.

Lemma total_limit size total : heap_request_ok size -> total mod 16 = 0 ->
  size + HEADER_SIZE <= total < size + HEADER_SIZE + 16 -> total <= 0xFFFFFFFF -> total <= 0xFFFFF000.
Proof.
  intros [_ Hs] [k ->]%Z.mod_divide Ht Hm; [|lia]. heap_consts.
  destruct (decide (size <= 0xFFFFEFD0)) as [|Hbig]; [lia|]. exfalso. apply Hs. lia.
Qed.

(** A new allocation of [size] bytes at header [b], and nothing else. *)
Definition one_more (s : HeapState) (L : list Z) (b size : Z) (s' : HeapState) : Prop :=
  exists L', heap_mid s' L' [] /\ b ∈ L' /\ alloc s L b = None /\
    (exists n, alloc s' L' b = Some (n, size) /\ size <= n) /\
    (forall d, d <> b -> alloc s' L' d = alloc s L d).
Lemma one_more_trans s L s1 L1 b size s' : same_allocs s L s1 L1 -> one_more s1 L1 b size s' -> one_more s L b size s'.
Proof.
  intros Ha (L' & Hm & Hb & Hn & Hs & Ho). exists L'. split_and!; try done; [by rewrite <- Ha|].
  intros d Hd. by rewrite Ho, Ha.
Qed.

Lemma take_more s L s2 L2 b total size : heap_mid s2 L2 [] -> same_allocs s L s2 L2 -> b ∈ L2 -> is_free s2 b ->
  64 <= total -> total mod 16 = 0 -> 0 < size <= total - HEADER_SIZE -> total <= siz s2 b ->
  let r := take_block b total size s2 in r.1 <> 0 /\ one_more s L (r.1 - HEADER_SIZE) size r.2.
Proof.
  intros Hm2 Ha2 Hb2 Hf2 T1 T2 T3 Hsz2. cbv zeta. pose proof (chain_range _ _ _ (mid_chain _ _ _ Hm2) Hb2) as Hr.
  apply list_elem_of_split in Hb2 as (l1 & l2 & ->).
  destruct (take_ok s2 l1 b l2 total size Hm2 Hf2 T1 T2 T3 Hsz2) as (-> & Hmore).
  split; [heap_consts; lia|]. replace (b + HEADER_SIZE - HEADER_SIZE) with b by lia.
  eapply one_more_trans; [exact Ha2|]. exact Hmore.
Qed.

(** Why a request is refused: it is empty, a fault point fired, it is too
    large, or no free block has room for it (and no region was mapped). *)
Definition refusal (s : HeapState) (L : list Z) (size : Z) (e : E) : Prop :=
  size = 0 \/ (kernel_fault_injection_should_fail KERNEL_FAULT_POINT_HEAP e).1 = true \/ 0xFFFFFFC0 < size \/
  (forall c, c ∈ L -> is_free s c -> siz s c - HEADER_SIZE < size).

Lemma kmalloc_ok s L size e : heap_mid s L [] -> heap_request_ok size ->
  exists p s' e', kmalloc size s e = Some (p, s', e') /\
    ((p = 0 /\ same_heap s s' /\ refusal s L size e) \/
     (0 < size /\ p <> 0 /\ one_more s L (p - HEADER_SIZE) size s')).
Proof.
  intros Hm [Hs0 Hs]. unfold kmalloc. set (s1 := s <| heap_alloc_requests := _ |>).
  assert (same_heap s s1) as Hsame by done.
  assert (forall e0, refusal s L size e -> exists p s' e', Some (0, alloc_failed s1, e0) = Some (p, s', e') /\
    ((p = 0 /\ same_heap s s' /\ refusal s L size e) \/
     (0 < size /\ p <> 0 /\ one_more s L (p - HEADER_SIZE) size s'))) as Hfail.
  { intros e0 Href. eexists 0, _, _. split; [done|]. by left. }
  destruct (size =? 0) eqn:E0; [apply Z.eqb_eq in E0; apply Hfail; by left|]. apply Z.eqb_neq in E0.
  destruct (kernel_fault_injection_should_fail KERNEL_FAULT_POINT_HEAP e) as [fault e1] eqn:Ef.
  destruct fault; [apply Hfail; right; left; by rewrite Ef|].
  destruct (0xFFFFFFFF - HEADER_SIZE <? size) eqn:E1;
    [apply Z.ltb_lt in E1; apply Hfail; right; right; left; heap_consts; lia|].
  apply Z.ltb_ge in E1. destruct (total_bytes size ltac:(heap_consts; lia)) as (T1 & T2 & T3).
  set (total := align_up_heap (u64 (size + HEADER_SIZE)) 16) in *. clearbody total.
  destruct (0xFFFFFFFF <? total) eqn:E2.
  { apply Z.ltb_lt in E2. apply Hfail. right. right. left. heap_consts. lia. }
  clear Hfail. apply Z.ltb_ge in E2.
  rewrite (u32_small total) by (unfold is_u32; lia).
  pose proof (total_limit size total (conj Hs0 Hs) T2 T3 E2) as Htot.
  destruct (find_ok s1 L total (mid_same _ _ _ _ Hsame Hm)) as (b & s2 & -> & Hsame2 & Hcase).
  assert (heap_mid s2 L []) as Hm2 by (eapply mid_same; [exact Hsame2|]; by eapply mid_same).
  assert (same_allocs s L s2 L) as Ha2.
  { eapply same_allocs_trans; [by apply (same_allocs_heap s s1)|]. by apply same_allocs_heap. }
  assert (same_heap s s2) as Hsame02 by (by destruct Hsame2 as (? & ? & ? & ? & ? & ?)).
  destruct Hcase as [[-> Hnone]|(HbL & Hf & Hfit)].
  - assert (refusal s L size e) as Href.
    { right. right. right. intros c HcL Hfc. specialize (Hnone c HcL Hfc). change (siz s1 c) with (siz s c) in Hnone.
      pose proof (bo_align _ (co_blocks _ _ (mid_chain _ _ _ Hm) c HcL)) as Hal. fold (siz s c) in Hal.
      apply Z.mod_divide in Hal as [j Hj]; [|lia]. apply Z.mod_divide in T2 as [k Hk]; [|lia]. lia. }
    cbn [nonzero negb Z.eqb]. set (grow := if total <? _ then _ else total).
    assert (0 < grow <= 0xFFFFF000 /\ total <= grow) as [Hg Hgt].
    { unfold grow. destruct (total <? _) eqn:E3; bprop; heap_consts; lia. }
    destruct (append_region_ok s2 L grow e1 Hm2 Hg) as [[Hr Hsame3]|(Hr & Hm3 & Hf3 & Hfit3 & Ha3)];
      destruct (append_region grow s2 e1) as [[r s3] e2]; cbn [fst snd] in *.
    + subst r. eexists 0, _, _. split; [done|]. left. split; [done|]. split; [|done].
      destruct Hsame3 as (? & ? & ? & ? & ? & ?), Hsame02 as (? & ? & ? & ? & ? & ?). unfold same_heap. cbn. split_and!; congruence.
    + rewrite (proj2 (Z.eqb_neq r 0)) by done.
      destruct (take_more s L s3 (L ++ [r]) r total size Hm3) as [Hp Hmore]; try done; try lia; [by eapply same_allocs_trans | set_solver |].
      destruct (take_block r total size s3) as [p s']. eexists p, s', e2. split; [done|]. right. split; [lia|]. done.
  - unfold nonzero. rewrite (proj2 (Z.eqb_neq b 0)) by (by apply (chain_nonzero _ _ (mid_chain _ _ _ Hm))). cbn [negb].
    assert (is_free s2 b /\ total <= siz s2 b) as [Hf2 Hfit2].
    { unfold is_free, siz in *. by rewrite (same_heap_get _ _ b Hsame2). }
    destruct (take_more s L s2 L b total size Hm2) as [Hp Hmore]; try done; [lia|].
    destruct (take_block b total size s2) as [p s']. eexists p, s', e1. split; [done|]. right. split; [lia|]. done.
Qed.

(** ** Freeing *)

Lemma alloc_Some s L b n r : alloc s L b = Some (n, r) ->
  b ∈ L /\ ~ is_free s b /\ n = siz s b - HEADER_SIZE /\ r = req s b.
Proof. unfold alloc. repeat case_decide; intros [=]. done. Qed.

(** One allocation less. *)
Definition one_less (s : HeapState) (L : list Z) (b : Z) (s' : HeapState) : Prop :=
  exists L', heap_mid s' L' [] /\ alloc s' L' b = None /\ (forall d, d <> b -> alloc s' L' d = alloc s L d).

Lemma kfree_ok s L p n r e : heap_mid s L [] -> alloc s L (p - HEADER_SIZE) = Some (n, r) ->
  exists s' e', kfree p s e = Some (s', e') /\ one_less s L (p - HEADER_SIZE) s'.
Proof.
  intros Hm Ha. destruct (alloc_Some _ _ _ _ _ Ha) as (HbL & Hf & _). set (b := p - HEADER_SIZE) in *.
  pose proof (chain_range _ _ _ (mid_chain _ _ _ Hm) HbL) as Hr. pose proof (co_top _ _ (mid_chain _ _ _ Hm)) as Htop.
  unfold kfree. rewrite (proj2 (Z.eqb_neq p 0)) by (heap_consts; lia). set (s1 := s <| heap_free_requests := _ |>).
  fold b. rewrite (u64_small b) by (unfold is_u64; heap_consts; lia).
  assert (heap_mid s1 L []) as Hm1 by (apply (mid_same s s1); done).
  rewrite (chain_valid _ _ _ (mid_chain _ _ _ Hm1) HbL). cbn [negb].
  change (hget s1 b) with (hget s b). rewrite (not_free_flag _ _ _ _ Hm HbL Hf). cbn [nonzero negb Z.eqb].
  destruct (mid_mark_free s1 L b Hm1 HbL Hf) as (Hm2 & Hg2 & Hb2). set (s2 := heap_mark_free b s1) in *. clearbody s2.
  assert (is_free s2 b) as Hf2 by (by injection Hb2).
  destruct (coalesce_around_ok s2 L b Hm2 HbL Hf2) as (L3 & Hm3 & Ha3).
  destruct (coalesce_around b s2) as [b3 s3]. cbn [snd] in *.
  destruct (shrink_ok s3 L3 e Hm3) as (s4 & e4 & -> & L4 & Hm4 & Ha4).
  exists s4, e4. split; [done|]. exists L4. split; [done|]. split.
  - rewrite Ha4, Ha3. by apply alloc_free.
  - intros d Hd. rewrite Ha4, Ha3. apply alloc_body; [done|]. intros _. by rewrite Hg2.
Qed.

(** Frees the heap refuses. *)
Lemma kfree_refused s L p e : heap_mid s L [] ->
  p = 0 \/ heap_block_valid s (u64 (p - HEADER_SIZE)) = false \/
    (u64 (p - HEADER_SIZE) ∈ L /\ is_free s (u64 (p - HEADER_SIZE))) ->
  exists s', kfree p s e = Some (s', e) /\ same_heap s s'.
Proof.
  intros Hm Hp. unfold kfree. destruct (p =? 0) eqn:E0; [by exists s|]. apply Z.eqb_neq in E0.
  set (s1 := s <| heap_free_requests := _ |>). set (b := u64 (p - HEADER_SIZE)) in *.
  change (heap_block_valid s1 b) with (heap_block_valid s b). change (hget s1 b) with (hget s b).
  destruct Hp as [Hp|[->|[HbL Hf]]]; [done | eexists; by split |].
  destruct (heap_block_valid s b); [|eexists; by split]. unfold is_free in Hf. rewrite Hf. eexists. by split.
Qed.
End Operations.

(** ** Coalescing the whole heap *)

(** No two neighbours are free. *)
Fixpoint compact (s : HeapState) (L : list Z) : Prop :=
  match L with
  | a :: (b :: _) as l => ~ (is_free s a /\ is_free s b) /\ compact s l
  | _ => True
  end.
Lemma compact_snoc s l a b : compact s (l ++ [a]) -> ~ (is_free s a /\ is_free s b) -> compact s ((l ++ [a]) ++ [b]).
Proof.
  intros Hl Hab. induction l as [|x l IH]; [by split|]. destruct l as [|y l].
  - destruct Hl as [Hxy _]. by split_and!.
  - destruct Hl as [Hxy Hl]. split; [done|]. by apply IH.
Qed.
Lemma compact_ext s s' l : (forall b, b ∈ l -> is_free s' b <-> is_free s b) -> compact s l -> compact s' l.
Proof.
  induction l as [|x l IH]; [done|]. intros He. destruct l as [|y l]; [done|]. intros [Hxy Hl].
  split; [rewrite !He by set_solver; done|]. apply IH; [|done]. intros b Hb. apply He. by right.
Qed.

Lemma allocs_free s L s' L' d : same_allocs s L s' L' -> d ∈ L -> d ∈ L' -> is_free s' d <-> is_free s d.
Proof.
  intros Ha Hd Hd'. specialize (Ha d). unfold alloc in Ha. rewrite !decide_True in Ha by done.
  repeat case_decide; done.
Qed.

(** The body of the loop: a merge of [b] with its free neighbour. *)
Lemma coalesce_merge s l1 b n l2 : heap_mid s (l1 ++ b :: n :: l2) [] -> is_free s b -> is_free s n ->
  let s2 := heap_remove_free_block n (heap_remove_free_block b s) in
  let s3 := hset b (fun h => h <| h_size := u32 (h_size h + h_size (hget s2 n)) |> <| h_requested_size := 0 |>) s2 in
  let s4 := if heap_tail s3 =? n then s3 <| heap_tail := b |> else s3 in
  let s5 := hset b (fun h => h <| h_next := h_next (hget s4 n) |>) s4 in
  let s6 := if nonzero (h_next (hget s5 b)) then hset (h_next (hget s5 b)) (fun h => h <| h_prev := b |>) s5 else s5 in
  let s' := heap_insert_free_block b s6 in
  heap_mid s' (l1 ++ b :: l2) [] /\ is_free s' b /\ same_allocs s (l1 ++ b :: n :: l2) s' (l1 ++ b :: l2).
Proof.
  intros Hm Hfb Hfn s2. destruct (mid_two_out s l1 b n l2 Hm Hfb Hfn) as (Hm2 & Hst2 & Hco2). fold s2 in Hm2, Hst2, Hco2.
  clearbody s2. intros s3 s4 s5 s6 s'.
  assert (is_free s2 b /\ is_free s2 n) as [Fb Fn] by (split; by apply (body_eq _ _ _ (core_body _ _ (Hco2 _)))).
  pose proof (next_apart _ _ _ _ _ (mid_chain _ _ _ Hm2)) as [Nb Nn].
  assert (b <> n) as Hbn.
  { pose proof (chain_nodup _ _ (mid_chain _ _ _ Hm)) as Hnd. apply NoDup_app in Hnd as (_ & _ & [Hb _]%NoDup_cons). set_solver. }
  assert (mem s4 = mem s3 /\ heap_tail s4 = (if heap_tail s2 =? n then b else heap_tail s2) /\ same_numbers s2 s4 /\
    heap_free_bins s4 = heap_free_bins s2 /\ heap_start s4 = heap_start s2) as (M4 & T4 & N4 & B4 & S4).
  { unfold s4. change (heap_tail s3) with (heap_tail s2). by destruct (heap_tail s2 =? n). }
  assert (h_next (hget s4 n) = nxt s2 n) as En.
  { unfold hget. rewrite M4. change (mem s3 !!! n) with (hget s3 n). unfold s3. rewrite hget_hset, decide_False by done. done. }
  assert (mem s5 = <[b := (hget s2 b) <| h_size := u32 (siz s2 b + siz s2 n) |> <| h_requested_size := 0 |>
                              <| h_next := nxt s2 n |>]> (mem s2)) as M5.
  { unfold s5. rewrite mem_hset, En. unfold hget. rewrite M4. change (mem s3 !!! b) with (hget s3 b). unfold s3.
    rewrite mem_hset, hget_hset, decide_True by done. by rewrite insert_insert_eq. }
  assert (h_next (hget s5 b) = nxt s2 n) as En5 by (unfold hget; by rewrite M5, lookup_total_insert_eq).
  destruct (merge_writes s2 l1 b n l2 s6 Hm2 Fb Fn) as (Hm6 & Hf6 & Ha6).
  - unfold s6. by destruct (nonzero _).
  - unfold s6. by destruct (nonzero _).
  - unfold s6. by destruct (nonzero _).
  - unfold s6. by destruct (nonzero _).
  - unfold s6. rewrite En5. destruct (nonzero (nxt s2 n)); [|done]. rewrite mem_hset, M5. cbv zeta. f_equal.
    unfold hget at 1. by rewrite M5, lookup_total_insert_ne.
  - split; [done|]. split; [done|]. eapply same_allocs_trans; [by apply (same_allocs_core s s2) | exact Ha6].
Qed.

Lemma coalesce_loop_ok fuel s l1 b l2 : heap_mid s (l1 ++ b :: l2) [] -> compact s (l1 ++ [b]) ->
  (length l2 < fuel)%nat ->
  exists s' L', coalesce_loop fuel b s = Some s' /\ heap_mid s' L' [] /\ same_allocs s (l1 ++ b :: l2) s' L' /\ compact s' L'.
Proof.
  revert s l1 b l2. induction fuel as [|fuel IH]; intros s l1 b l2 Hm Hcp Hlen; [lia|]. cbn [coalesce_loop].
  pose proof (mid_chain _ _ _ Hm) as Hc. destruct (chain_next _ _ _ _ Hc) as [Hn _]. unfold nxt in Hn. rewrite Hn.
  rewrite (proj2 (Z.eqb_neq b 0)) by (apply (chain_nonzero _ _ Hc); set_solver). cbn [orb].
  destruct l2 as [|n l2]; cbn [first_or]; [by exists s, (l1 ++ [b])|].
  rewrite (proj2 (Z.eqb_neq n 0)) by (apply (chain_nonzero _ _ Hc); set_solver).
  fold (siz s b). rewrite (chain_end _ _ _ Hc), !(chain_valid _ _ _ Hc) by set_solver.
  rewrite (proj1 (chain_adjacent _ _ _ _ _ Hc)), Z.eqb_refl. cbn [andb]. cbn [length] in Hlen.
  assert (~ (is_free s b /\ is_free s n) -> exists s' L', coalesce_loop fuel n s = Some s' /\ heap_mid s' L' [] /\
    same_allocs s (l1 ++ b :: n :: l2) s' L' /\ compact s' L') as Hmove.
  { intros Hnf. rewrite cons_middle, app_assoc. apply IH; [by rewrite <- app_assoc | by apply compact_snoc | lia]. }
  destruct (decide (is_free s b)) as [Hfb|Hfb];
    [|rewrite (not_free_flag _ _ _ b Hm) by (done || set_solver); cbn [nonzero negb andb Z.eqb]; apply Hmove; tauto].
  destruct (decide (is_free s n)) as [Hfn|Hfn];
    [|rewrite (not_free_flag _ _ _ n Hm), andb_false_r by (done || set_solver); apply Hmove; tauto].
  unfold is_free in Hfb, Hfn. rewrite Hfb, Hfn. cbn [nonzero negb andb Z.eqb].
  destruct (coalesce_merge s l1 b n l2 Hm Hfb Hfn) as (Hm' & Hf' & Ha'). cbv zeta in Hm', Hf', Ha'.
  match type of Hm' with heap_mid ?x _ _ => set (s' := x) in * end. clearbody s'.
  destruct (IH s' l1 b l2 Hm') as (s'' & L'' & -> & Hm'' & Ha'' & Hc''); [|lia|].
  - eapply compact_ext; [|exact Hcp]. intros d Hd. eapply allocs_free; [exact Ha' | set_solver | set_solver].
  - exists s'', L''. split_and!; try done. by eapply same_allocs_trans.
Qed.

Lemma coalesce_ok s L : heap_mid s L [] -> exists s' L', heap_coalesce s = Some s' /\ heap_mid s' L' [] /\
  same_allocs s L s' L' /\ compact s' L'.
Proof.
  intros Hm. pose proof (mid_chain _ _ _ Hm) as Hc. unfold heap_coalesce. rewrite (co_start _ _ Hc).
  destruct L as [|b l]; [by exists s, []|]. cbn [first_or].
  apply (coalesce_loop_ok _ s [] b l); [done | done |].
  pose proof (walk_length s _ (b :: l) Hc (chain_nodup _ _ Hc) ltac:(done)) as Hlen. cbn [length] in Hlen. lia.
Qed.

(** ** The walk of the reports *)

Lemma walk_ok s L : chain_ok s L -> heap_walk s = Some L.
Proof.
  intros Hc. unfold heap_walk. rewrite (co_start _ _ Hc).
  pose proof (walk_length s L L Hc (chain_nodup _ _ Hc) ltac:(done)) as Hlen. revert Hlen.
  generalize (walk_fuel s). pose proof (co_links _ _ Hc) as Hd. pose proof (chain_nonzero _ _ Hc) as Hnz. clear Hc.
  revert Hd. generalize 0 at 1. induction L as [|b L IH]; intros p Hd [|fuel] Hlen; cbn [length] in Hlen; try lia; [done|].
  destruct Hd as (_ & Hn & Hd). cbn [first_or walk_blocks]. rewrite (proj2 (Z.eqb_neq b 0)) by (apply Hnz; by left).
  unfold nxt in Hn. rewrite Hn. by rewrite (IH ltac:(intros; apply Hnz; by right) b Hd fuel ltac:(lia)).
Qed.

(** ** The heap between operations *)

Definition heap_inv (s : HeapState) : Prop := exists L, heap_walk s = Some L /\ heap_mid s L [].
(** The allocation whose payload starts at [p]. *)
Definition allocation (s : HeapState) (p : Z) : option (Z * Z) :=
  match heap_walk s with Some L => alloc s L (p - HEADER_SIZE) | None => None end.

Lemma inv_mid s L : heap_mid s L [] -> heap_inv s.
Proof. intros Hm. exists L. split; [apply walk_ok; by eapply mid_chain | done]. Qed.
Lemma allocation_mid s L p : heap_mid s L [] -> allocation s p = alloc s L (p - HEADER_SIZE).
Proof. intros Hm. unfold allocation. by rewrite (walk_ok s L (mid_chain _ _ _ Hm)). Qed.

(** *** What the invariant says of the allocations *)

Definition allocations_apart (s : HeapState) : Prop :=
  (forall p n r, allocation s p = Some (n, r) ->
     p mod 16 = 0 /\ VM_KERNEL_HEAP_BASE <= p /\ p + n <= heap_next_virtual s <= VM_KERNEL_HEAP_LIMIT /\ 0 <= r <= n) /\
  (forall p q n r m t, allocation s p = Some (n, r) -> allocation s q = Some (m, t) -> p < q -> p + n <= q).
Definition used_exact (s : HeapState) : Prop := exists L, heap_walk s = Some L /\
  heap_total_used s = asum (fun b => match allocation s (b + HEADER_SIZE) with Some (_, r) => r | None => 0 end) L.

Lemma inv_apart s : heap_inv s -> allocations_apart s /\ used_exact s.
Proof.
  intros (L & Hw & Hm). pose proof (mid_chain _ _ _ Hm) as Hc. split; [split|].
  - intros p n r. rewrite (allocation_mid _ _ _ Hm). intros (HbL & _ & -> & ->)%alloc_Some.
    pose proof (chain_range _ _ _ Hc HbL) as Hr. pose proof (chain_aligned _ _ _ Hc HbL) as Hal.
    pose proof (bo_requested _ (co_blocks _ _ Hc _ HbL)) as Hq. fold (siz s (p - HEADER_SIZE)) (req s (p - HEADER_SIZE)) in Hq.
    pose proof (co_top _ _ Hc) as Htop. heap_consts. split; [|lia].
    replace p with ((p - 48) + 3 * 16) by lia. by rewrite Z_mod_plus_full.
  - intros p q n r m t. rewrite !(allocation_mid _ _ _ Hm).
    intros (HbL & _ & -> & _)%alloc_Some (HcL & _)%alloc_Some Hlt.
    pose proof (tiled_apart _ _ _ _ _ _ (co_tiled _ _ Hc) (chain_pos _ _ Hc) HbL HcL ltac:(lia)). heap_consts. lia.
  - exists L. split; [done|]. unfold heap_total_used. rewrite (hm_used _ _ _ Hm). apply asum_ext. intros b HbL.
    rewrite (allocation_mid _ _ _ Hm). replace (b + HEADER_SIZE - HEADER_SIZE) with b by lia. unfold alloc.
    rewrite decide_True by done. destruct (decide (is_free s b)); [by apply (hm_zero _ _ _ Hm) | done].
Qed.

(** *** Histories *)

(** The calls of the heap's clients; [HStore] is a client that writes into its
    own allocation, with bytes that may look like a header. *)
Inductive heap_op :=
| HMalloc (size : Z) | HFree (p : Z) | HCoalesce | HStore (a : Z) (h : heap_header).

(** A pointer [kfree] turns down. *)
Definition free_refused (s : HeapState) (p : Z) : Prop :=
  p = 0 \/ heap_block_valid s (u64 (p - HEADER_SIZE)) = false \/
  exists L, heap_walk s = Some L /\ u64 (p - HEADER_SIZE) ∈ L /\ is_free s (u64 (p - HEADER_SIZE)).
Definition op_ok (s : HeapState) (op : heap_op) : Prop :=
  match op with
  | HMalloc size => heap_request_ok size
  | HFree p => (exists a, allocation s p = Some a) \/ free_refused s p
  | HCoalesce => True
  | HStore a _ => exists p n r, allocation s p = Some (n, r) /\ p <= a < p + n
  end.

Section Histories.
Context {E : Type} `{KernelEnv E} `{HeapVm E}.
Implicit Type e : E.

Definition run_op (op : heap_op) (s : HeapState) (e : E) : option (HeapState * E) :=
  match op with
  | HMalloc size => match kmalloc size s e with Some (_, s, e) => Some (s, e) | None => None end
  | HFree p => kfree p s e
  | HCoalesce => match heap_coalesce s with Some s => Some (s, e) | None => None end
  | HStore a h => Some (hset a (fun _ => h) s, e)
  end.

Inductive heap_reachable : HeapState -> E -> Prop :=
| reach_boot s e : alen (heap_free_bins s) = HEAP_FREE_BIN_COUNT ->
    heap_reachable (heap_init s e).1 (heap_init s e).2
| reach_env s e e' : heap_reachable s e -> heap_reachable s e'
| reach_op s e op s' e' : heap_reachable s e -> op_ok s op -> run_op op s e = Some (s', e') ->
    heap_reachable s' e'.

Lemma reset_bins s : alen (heap_free_bins s) = HEAP_FREE_BIN_COUNT ->
  heap_free_bins (heap_reset_free_bins s) = replicate 8 0.
Proof.
  unfold heap_reset_free_bins. destruct s as [m bins]. cbn. unfold alen, HEAP_FREE_BIN_COUNT. intros Hl.
  do 8 (destruct bins as [|? bins]; [done|]). destruct bins as [|? bins]; [done | cbn [length] in Hl; lia].
Qed.
Lemma empty_ok s : heap_free_bins s = replicate 8 0 -> heap_start s = 0 -> heap_tail s = 0 ->
  heap_next_virtual s = VM_KERNEL_HEAP_BASE -> heap_current_used_bytes s = 0 -> heap_mid s [] [].
Proof.
  intros Hb Hs Ht Hn Hu. constructor; [|set_solver|done]. exists (fun _ => []). split; [split|set_solver].
  - constructor; try done; [by rewrite Hn | by rewrite Hn | set_solver].
  - constructor; [by rewrite Hb | | set_solver]. intros i Hi. constructor; [done | constructor | | set_solver].
    rewrite Hb. unfold is_bin in Hi. by apply aget_replicate.
Qed.
Lemma init_ok s e : alen (heap_free_bins s) = HEAP_FREE_BIN_COUNT -> heap_inv (heap_init s e).1.
Proof.
  intros Hl. unfold heap_init. set (s0 := s <| heap_start := 0 |> <| heap_tail := 0 |>).
  match goal with |- context [append_region _ ?x e] => set (s1 := x) end.
  assert (heap_mid s1 [] []) as Hm by (by apply empty_ok; [apply (reset_bins s0)| | | |]). clearbody s1.
  assert (forall s2, heap_inv s2 -> heap_inv (heap_update_peak_used s2)) as Hpeak.
  { intros s2 (L & _ & Hm2). apply (inv_mid _ L). unfold heap_update_peak_used. destruct (_ <? _); [|done].
    by apply (mid_same s2). }
  destruct (append_region_ok s1 [] (HEAP_PAGE_SIZE * 4) e Hm ltac:(heap_consts; lia)) as [[_ Hs]|(_ & Hm2 & _)];
    destruct (append_region (HEAP_PAGE_SIZE * 4) s1 e) as [[r s2] e2]; cbn [fst snd] in *; apply Hpeak.
  - apply (inv_mid _ []). by apply (mid_same s1).
  - by eapply inv_mid.
Qed.

Lemma store_ok s L a h p n r : heap_mid s L [] -> alloc s L (p - HEADER_SIZE) = Some (n, r) -> p <= a < p + n ->
  heap_mid (hset a (fun _ => h) s) L [].
Proof.
  intros Hm (HbL & _ & -> & _)%alloc_Some Ha. pose proof (mid_chain _ _ _ Hm) as Hc.
  assert (a ∉ L) as HaL by (apply (inside_fresh s L (p - HEADER_SIZE) a Hc HbL); heap_consts; lia).
  apply (mid_agree s); try done. intros b Hb. rewrite hget_hset, decide_False; [done|]. by intros ->.
Qed.

Lemma run_ok s e op : heap_inv s -> op_ok s op -> exists s' e', run_op op s e = Some (s', e') /\ heap_inv s'.
Proof.
  intros (L & Hw & Hm) Hop. destruct op as [size|p| |a h]; cbn [op_ok run_op] in *.
  - destruct (kmalloc_ok s L size e Hm Hop) as (p & s' & e' & -> & [(_ & Hs & _)|(_ & _ & L' & Hm' & _)]); exists s', e';
      (split; [done|]); [|by eapply inv_mid]. apply (inv_mid _ L). by apply (mid_same s).
  - destruct Hop as [[[n r] Ha]|Hr].
    + rewrite (allocation_mid _ _ _ Hm) in Ha. destruct (kfree_ok s L p n r e Hm Ha) as (s' & e' & -> & L' & Hm' & _).
      exists s', e'. split; [done|]. by eapply inv_mid.
    + destruct (kfree_refused s L p e Hm) as (s' & -> & Hs).
      * destruct Hr as [?|[?|(L' & Hw' & ?)]]; [by left | by right; left | right; right]. congruence.
      * exists s', e. split; [done|]. apply (inv_mid _ L). by apply (mid_same s).
  - destruct (coalesce_ok s L Hm) as (s' & L' & -> & Hm' & _). exists s', e. split; [done|]. by eapply inv_mid.
  - destruct Hop as (p & n & r & Ha & Hr). rewrite (allocation_mid _ _ _ Hm) in Ha. eexists _, e. split; [done|].
    eapply inv_mid. by eapply store_ok.
Qed.

Lemma heap_reachable_inv s e : heap_reachable s e -> heap_inv s.
Proof.
  induction 1 as [s e Hl|s e e' _ IH|s e op s' e' _ IH Hop Hrun]; [by apply init_ok | done |].
  destruct (run_ok s e op IH Hop) as (s'' & e'' & Hrun' & Hinv). congruence.
Qed.

(** C10: From [heap_init] on, after any history of calls of [kmalloc] for any number of bytes other
    than 0xFFFFEFD1 to 0xFFFFFFC0 (for which the 32-bit page count of the growth wraps and the heap is
    damaged, [heap_grow_wraps]), of [kfree] on live allocations, on null, on pointers without a valid
    header before them and on blocks of the heap that are free already (not on pointers to forged
    headers), of [heap_coalesce], and of stores by clients into their own live allocations: the live
    allocations are 16-byte aligned, inside the mapped heap, hold at least the bytes asked for and do not
    overlap; the heap's count of bytes in use is the sum of the live requests; and every further call
    with such an argument returns (no walk runs out of fuel). *)
Theorem heap_histories_safe s e : heap_reachable s e ->
  allocations_apart s /\ used_exact s /\
  forall op, op_ok s op -> exists s' e', run_op op s e = Some (s', e').
Proof.
  intros Hr. pose proof (heap_reachable_inv s e Hr) as Hinv. destruct (inv_apart s Hinv) as [Ha Hu].
  split; [done|]. split; [done|]. intros op Hop. destruct (run_ok s e op Hinv Hop) as (s' & e' & -> & _). by exists s', e'.
Qed.

Lemma kmalloc_effect s size e : heap_inv s -> heap_request_ok size ->
  exists p s' e', kmalloc size s e = Some (p, s', e') /\ heap_inv s' /\
    ((p = 0 /\ (forall q, allocation s' q = allocation s q) /\
      exists L, heap_walk s = Some L /\ refusal s L size e) \/
     (0 < size /\ p <> 0 /\ allocation s p = None /\ (exists n, allocation s' p = Some (n, size) /\ size <= n) /\
      forall q, q <> p -> allocation s' q = allocation s q)).
Proof.
  intros (L & Hw & Hm) Hreq. destruct (kmalloc_ok s L size e Hm Hreq) as (p & s' & e' & -> & Hcase). exists p, s', e'.
  split; [done|]. destruct Hcase as [(-> & Hs & Href)|(Hsz & Hp & L' & Hm' & _ & Hnone & Hnew & Hold)].
  - pose proof (mid_same _ _ _ _ Hs Hm) as Hm'. split; [by eapply inv_mid|]. left. split; [done|]. split; [|by exists L].
    intros q. rewrite !(allocation_mid _ L) by done. by apply same_allocs_heap.
  - split; [by eapply inv_mid|]. right. split; [done|]. split; [done|].
    rewrite (allocation_mid _ _ _ Hm), (allocation_mid _ _ _ Hm'). split; [done|]. split; [done|].
    intros q Hq. rewrite (allocation_mid _ _ _ Hm), (allocation_mid _ _ _ Hm'). apply Hold. lia.
Qed.

(** C11: On a heap that satisfies the invariant, [kmalloc] of any number of bytes other than 0xFFFFEFD1 to
    0xFFFFFFC0 (for those the 32-bit page count of the growth wraps, [heap_grow_wraps]) keeps the invariant and either
    returns null and leaves every allocation as it was, because the request was empty or too large, a fault
    point fired or no free block has room; or it returns a pointer nothing was allocated at, to at least the
    bytes asked for, and leaves every other allocation as it was. *)
Theorem kmalloc_spec s size e : heap_inv s -> heap_request_ok size ->
  exists p s' e', kmalloc size s e = Some (p, s', e') /\ heap_inv s' /\
    ((p = 0 /\ (forall q, allocation s' q = allocation s q) /\
      exists L, heap_walk s = Some L /\ refusal s L size e) \/
     (0 < size /\ p <> 0 /\ allocation s p = None /\ (exists n, allocation s' p = Some (n, size) /\ size <= n) /\
      forall q, q <> p -> allocation s' q = allocation s q)).
Proof. apply kmalloc_effect. Qed.

Lemma refused_none s p : heap_inv s -> free_refused s p -> allocation s p = None.
Proof.
  intros (L & Hw & Hm) Hr. rewrite (allocation_mid _ _ _ Hm). pose proof (mid_chain _ _ _ Hm) as Hc.
  destruct (decide (p - HEADER_SIZE ∈ L)) as [HbL|HbL]; [|by apply alloc_absent].
  pose proof (chain_range _ _ _ Hc HbL) as Hrg. pose proof (co_top _ _ Hc) as Htop.
  assert (u64 (p - HEADER_SIZE) = p - HEADER_SIZE) as Eu by (apply u64_small; unfold is_u64; heap_consts; lia).
  destruct Hr as [->|[Hv|(L' & _ & _ & Hf)]]; [heap_consts; lia | |].
  - by rewrite Eu, (chain_valid _ _ _ Hc HbL) in Hv.
  - rewrite Eu in Hf. by apply alloc_free.
Qed.

Lemma kfree_effect s p e : heap_inv s -> (exists a, allocation s p = Some a) \/ free_refused s p ->
  exists s' e', kfree p s e = Some (s', e') /\ heap_inv s' /\
    allocation s' p = None /\ forall q, q <> p -> allocation s' q = allocation s q.
Proof.
  intros (L & Hw & Hm) [[[n r] Ha]|Hr].
  - rewrite (allocation_mid _ _ _ Hm) in Ha. destruct (kfree_ok s L p n r e Hm Ha) as (s' & e' & -> & L' & Hm' & Hnone & Hold).
    exists s', e'. split; [done|]. split; [by eapply inv_mid|]. rewrite (allocation_mid _ _ _ Hm'). split; [done|].
    intros q Hq. rewrite (allocation_mid _ _ _ Hm), (allocation_mid _ _ _ Hm'). apply Hold. lia.
  - destruct (kfree_refused s L p e Hm) as (s' & -> & Hs).
    + destruct Hr as [?|[?|(L' & Hw' & ?)]]; [by left | by right; left | right; right]. congruence.
    + pose proof (mid_same _ _ _ _ Hs Hm) as Hm'. exists s', e. split; [done|]. split; [by eapply inv_mid|].
      assert (forall q, allocation s' q = allocation s q) as Hq.
      { intros q. rewrite !(allocation_mid _ L) by done. by apply same_allocs_heap. }
      split; [|intros q _; apply Hq]. rewrite Hq. apply refused_none; [by eapply inv_mid | done].
Qed.

(** C12: [kfree] of a live allocation ends it and leaves every other one as it
    was; a null, invalid or already free pointer changes no allocation. *)
Theorem kfree_spec s p e : heap_inv s -> (exists a, allocation s p = Some a) \/ free_refused s p ->
  exists s' e', kfree p s e = Some (s', e') /\ heap_inv s' /\
    allocation s' p = None /\ forall q, q <> p -> allocation s' q = allocation s q.
Proof. apply kfree_effect. Qed.

(** [heap_coalesce] ends, keeps every allocation and leaves no two
    neighbouring blocks free. *)
Theorem heap_coalesce_compact s : heap_inv s ->
  exists s' L, heap_coalesce s = Some s' /\ heap_inv s' /\ heap_walk s' = Some L /\ compact s' L /\
    forall q, allocation s' q = allocation s q.
Proof.
  intros (L & Hw & Hm). destruct (coalesce_ok s L Hm) as (s' & L' & -> & Hm' & Ha & Hc). exists s', L'.
  split; [done|]. split; [by eapply inv_mid|]. split; [apply walk_ok; by eapply mid_chain|]. split; [done|].
  intros q. rewrite (allocation_mid _ _ _ Hm), (allocation_mid _ _ _ Hm'). apply Ha.
Qed.
End Histories.

(** ** Witnesses *)

(** A memory manager that always maps. *)
#[export] Instance mapping_vm : HeapVm unit := {|
  vm_alloc_map_range _ size _ e := ((1, size / HEAP_PAGE_SIZE), e);
  vm_unmap_free_range _ count e := (count, e);
|}.
Definition heap_zero : HeapState := {|
  mem := ∅; heap_free_bins := replicate 8 0; heap_tail := 0; heap_start := 0; heap_next_virtual := 0;
  heap_mapped_pages := 0; heap_alloc_requests := 0; heap_free_requests := 0; heap_alloc_failures := 0;
  heap_invalid_free_requests := 0; heap_double_free_requests := 0; heap_free_list_hits := 0;
  heap_free_list_misses := 0; heap_current_used_bytes := 0; heap_peak_used_bytes := 0; heap_grow_requests := 0 |}.
(** The heap after [heap_init], and after a first [kmalloc(100)]. *)
Definition booted : HeapState := (heap_init heap_zero tt).1.
Definition booted_100 : HeapState :=
  match kmalloc 100 booted tt with Some (_, s, _) => s | None => booted end.

Lemma booted_reachable : heap_reachable booted tt.
Proof. exact (reach_boot heap_zero tt eq_refl). Qed.
Lemma booted_100_run : run_op (HMalloc 100) booted tt = Some (booted_100, tt).
Proof. vm_compute. reflexivity. Qed.
Lemma booted_100_reachable : heap_reachable booted_100 tt.
Proof.
  eapply reach_op; [exact booted_reachable | | exact booted_100_run]. cbn. unfold heap_request_ok. lia.
Qed.
Lemma booted_100_live : allocation booted_100 0x40000030 = Some (112, 100).
Proof. vm_compute. reflexivity. Qed.

Lemma heap_histories_safe_witness : heap_reachable booted_100 tt /\ allocations_apart booted_100 /\
  exists s' e', run_op (HFree 0x40000030) booted_100 tt = Some (s', e').
Proof.
  pose proof (heap_histories_safe booted_100 tt booted_100_reachable) as (Ha & _ & Hop).
  split; [exact booted_100_reachable|]. split; [exact Ha|]. apply Hop. left. eexists. exact booted_100_live.
Defined.
Lemma kmalloc_spec_witness : heap_request_ok 100 /\ exists p s' e', kmalloc 100 booted tt = Some (p, s', e') /\ heap_inv s'.
Proof.
  assert (heap_request_ok 100) as Hr by (unfold heap_request_ok; lia). split; [exact Hr|].
  destruct (kmalloc_spec booted 100 tt (heap_reachable_inv _ _ booted_reachable) Hr) as (p & s' & e' & Hk & Hi & _).
  exists p, s', e'. split; assumption.
Defined.
Lemma kfree_spec_witness : exists s' e', kfree 0x40000030 booted_100 tt = Some (s', e') /\ allocation s' 0x40000030 = None.
Proof.
  destruct (kfree_spec booted_100 0x40000030 tt (heap_reachable_inv _ _ booted_100_reachable)) as (s' & e' & Hk & _ & Hn & _).
  - left. eexists. exact booted_100_live.
  - exists s', e'. split; assumption.
Defined.
Lemma heap_coalesce_compact_witness : exists s' L, heap_coalesce booted_100 = Some s' /\ compact s' L.
Proof.
  destruct (heap_coalesce_compact booted_100 (heap_reachable_inv _ _ booted_100_reachable)) as (s' & L & Hc & _ & _ & Hp & _).
  exists s', L. split; assumption.
Defined.

(** ** A request just below 4 GiB

    For [0xFFFFEFD0 < size <= 0xFFFFFFC0] the sum [bytes + PMM_PAGE_SIZE - 1] of
    [append_region] wraps in 32 bits: no page is asked for, the call to
    [vm_alloc_map_range] for zero bytes succeeds, and a block of size zero is
    set up and handed out at the first address above the mapped heap. *)
Section Wrap.
Context {E : Type} `{KernelEnv E} `{HeapVm E}.

Lemma invalid_outside s b : heap_next_virtual s <= b -> 0 <= b -> b + HEADER_SIZE < 2 ^ 64 -> heap_block_valid s b = false.
Proof.
  intros Hb Hp Hm. unfold heap_block_valid, heap_address_in_mapped_range. rewrite u64_small by (unfold is_u64; heap_consts; lia).
  rewrite (proj2 (Z.leb_gt (b + HEADER_SIZE) _)) by (heap_consts; lia). rewrite andb_false_r. by destruct (_ || _).
Qed.

Theorem heap_grow_wraps s size (e e1 e2 : E) : heap_inv s -> 0xFFFFEFD0 < size <= 0xFFFFFFC0 ->
  kernel_fault_injection_should_fail KERNEL_FAULT_POINT_HEAP e = (false, e1) ->
  vm_alloc_map_range (heap_next_virtual s) 0 HEAP_VM_FLAGS e1 = ((1, 0), e2) ->
  exists s', kmalloc size s e = Some (heap_next_virtual s + HEADER_SIZE, s', e2) /\
    heap_next_virtual s' = heap_next_virtual s /\ heap_tail s' = heap_next_virtual s /\
    h_size (hget s' (heap_next_virtual s)) = 0 /\ h_requested_size (hget s' (heap_next_virtual s)) = size.
Proof.
  intros (L & _ & Hm) Hs Hf Hvm. pose proof (mid_chain _ _ _ Hm) as Hc. unfold kmalloc.
  rewrite (proj2 (Z.eqb_neq size 0)) by lia. rewrite Hf, (proj2 (Z.ltb_ge _ _)) by (heap_consts; lia).
  destruct (total_bytes size ltac:(lia)) as (T1 & T2 & T3). set (total := align_up_heap _ 16) in *. clearbody total.
  assert (0xFFFFF000 < total <= 0xFFFFFFF0) as Ht by (apply Z.mod_divide in T2 as [k ->]; [heap_consts; lia | lia]).
  rewrite (proj2 (Z.ltb_ge _ total)) by lia. rewrite (u32_small total) by (unfold is_u32; lia).
  set (s1 := s <| heap_alloc_requests := _ |>).
  destruct (find_ok s1 L total ltac:(by apply (mid_same s))) as (b & s2 & -> & Hs2 & [[-> _]|(HbL & _ & Hbig)]).
  2: { exfalso. change (siz s1 b) with (siz s b) in Hbig. pose proof (chain_range _ _ _ Hc HbL).
       pose proof (co_top _ _ Hc). heap_consts. lia. }
  cbn [nonzero negb Z.eqb]. rewrite (proj2 (Z.ltb_ge total _)) by (heap_consts; lia).
  destruct Hs2 as (_ & _ & St & Ss & Sn & _). pose proof (top_above _ _ Hc) as Hbase. pose proof (co_top _ _ Hc) as Htop.
  unfold append_region. set (s3 := s2 <| heap_grow_requests := _ |>).
  assert (heap_next_virtual s3 = heap_next_virtual s) as -> by exact Sn.
  assert (u32 (u32 (total + HEAP_PAGE_SIZE) - 1) / HEAP_PAGE_SIZE = 0) as ->.
  { unfold u32 at 1 2. rewrite Zminus_mod_idemp_l. apply Z.div_small. heap_consts.
    replace (total + 4096 - 1) with ((total + 4095 - 2 ^ 32) + 1 * 2 ^ 32) by lia. rewrite Z_mod_plus_full, Z.mod_small; lia. }
  rewrite Z.mul_0_l, Z.add_0_r, u64_small by (unfold is_u64; heap_consts; lia).
  rewrite (proj2 (Z.ltb_ge _ _)), Hvm by lia. cbn [Z.eqb]. set (r := heap_next_virtual s) in *.
  assert (r <> 0) as Hr0 by (heap_consts; lia).
  set (s4 := heap_init_block _ _ _ _ _ _). set (s5 := if heap_start s4 =? 0 then _ else _).
  assert (hget s4 r = fresh_header 0 (heap_tail s)) as G4.
  { rewrite <- (St : _ = heap_tail s). unfold s4, heap_init_block. by rewrite hget_hset, decide_True. }
  assert (heap_next_virtual s5 = r /\ heap_tail s5 = r /\ h_size (hget s5 r) = 0) as (N5 & T5 & G5).
  { assert (heap_next_virtual s4 = r) as N4.
    { change (heap_next_virtual s4) with (u64 (heap_next_virtual s2 + 0)). rewrite Z.add_0_r, Sn. apply u64_small.
      unfold is_u64. heap_consts. lia. }
    unfold s5. destruct (heap_start s4 =? 0); split_and!; try done; [change (h_size (hget s4 r) = 0); by rewrite G4|].
    change (hget (?x <| heap_tail := r |>) r) with (hget x r). rewrite hget_hset.
    destruct (decide (r = heap_tail s4)) as [Er|]; [rewrite <- Er, G4; done | by rewrite G4]. }
  clearbody s5. assert (heap_block_valid s5 r = false) as Hinv by (apply invalid_outside; heap_consts; lia).
  assert (heap_insert_free_block r s5 = s5) as -> by (unfold heap_insert_free_block; by rewrite Hinv).
  rewrite (proj2 (Z.eqb_neq r 0)) by done. unfold take_block.
  assert (split_block r total s5 = s5) as ->.
  { unfold split_block. rewrite G5, (proj2 (Z.ltb_lt _ _)) by (heap_consts; lia). done. }
  assert (heap_remove_free_block r s5 = s5) as -> by (unfold heap_remove_free_block; by rewrite Hinv).
  rewrite (u64_small (r + HEADER_SIZE)) by (unfold is_u64; heap_consts; lia).
  rewrite (u32_small size) by (unfold is_u32; lia). unfold heap_mark_allocated, heap_update_peak_used.
  eexists. split; [done|]. set (s6 := hset r _ s5).
  assert (hget s6 r = (hget s5 r) <| h_is_free := 0 |> <| h_requested_size := size |>) as G6
    by (unfold s6; by rewrite hget_hset, decide_True).
  destruct (_ <? _); (split; [exact N5|]; split; [exact T5|]; split;
    [change (h_size (hget s6 r) = 0) | change (h_requested_size (hget s6 r) = size)]; by rewrite G6).
Qed.
End Wrap.

(** Such a call on the heap after boot. *)
Lemma heap_grow_wraps_witness : exists s', kmalloc 0xFFFFFF00 booted tt = Some (0x40004030, s', tt) /\
  h_size (hget s' 0x40004000) = 0.
Proof.
  destruct (heap_grow_wraps booted 0xFFFFFF00 tt tt tt (heap_reachable_inv _ _ booted_reachable)) as (s' & Hk & _ & _ & Hz & _);
    [lia | reflexivity | reflexivity |].
  exists s'. assert (heap_next_virtual booted = 0x40004000) as Hn by (vm_compute; reflexivity). rewrite Hn in Hk, Hz.
  split; [exact Hk | exact Hz].
Defined.
