(* ===== verification/VfsHeap.v ===== *)
(** * The virtual file system on the kernel heap

    [VfsHost] and [VfsLaws] discharged by the model of the kernel heap: the
    theorems of [VfsHistory] hold of the file system and the heap together.  The
    memory file system is the only backend here. *)

From S2P Require Import Prelude KernelEnv Heap HeapBlocks HeapSteps HeapSpec.
From S2P Require Import MemFs MemFsTree MemFsSpec Vfs VfsSpec VfsFiles VfsOps VfsHistory.

Definition no_backend {E : Type} : VFSBackendOps E := {|
  read_dir_entry := None; get_file_info := None; read_file := None; write_file := None; touch_file := None;
  delete_file := None; mkdir := None; rmdir := None; rename_path := None |}.

(** The live allocations: the payload's address and the size asked for. *)
Definition heap_blocks (h : HeapState) : gmap Z Z :=
  kmap (Z.add HEADER_SIZE) (map_imap (fun b _ => snd <$> allocation h (HEADER_SIZE + b)) (mem h)).

Lemma heap_blocks_lookup h p : heap_inv h -> heap_blocks h !! p = snd <$> allocation h p.
Proof.
  intros Hi. unfold heap_blocks. replace p with (HEADER_SIZE + (p - HEADER_SIZE)) at 1 by lia. rewrite lookup_kmap by (intros x y ?; lia).
  rewrite map_lookup_imap. replace (HEADER_SIZE + (p - HEADER_SIZE)) with p by lia. destruct (mem h !! (p - HEADER_SIZE)) as [x|] eqn:Hx; [done|]. cbn.
  destruct (allocation h p) as [[n r]|] eqn:Ha; [|done]. destruct Hi as (L & Hw & Hm). rewrite (allocation_mid _ _ _ Hm) in Ha. apply alloc_Some in Ha as (Hb & _).
  pose proof (bo_magic _ (co_blocks _ _ (mid_chain _ _ _ Hm) _ Hb)) as Hmag. unfold hget in Hmag. rewrite lookup_total_alt, Hx in Hmag. done.
Qed.

Section OnHeap.
Context {E : Type} `{KernelEnv E} `{HeapVm E}.

Definition heap_kmalloc (n : Z) (e : HeapState * E) : Z * (HeapState * E) :=
  match kmalloc n e.1 e.2 with Some (p, h, e') => (p, (h, e')) | None => (0, e) end.
Definition heap_kfree (p : Z) (e : HeapState * E) : HeapState * E :=
  match kfree p e.1 e.2 with Some (h, e') => (h, e') | None => e end.
#[export] Instance heap_host : VfsHost (HeapState * E) := {|
  backend_ops _ := no_backend; vfs_kmalloc := heap_kmalloc; vfs_kfree := heap_kfree |}.

Lemma heap_block_alloc h p n : heap_inv h -> heap_blocks h !! p = Some n -> exists a, allocation h p = Some (a, n) /\ n <= a.
Proof using.
  intros Hi. rewrite heap_blocks_lookup by done. intros ([a r] & Ha & ->)%fmap_Some_1. exists a. split; [done|].
  destruct (inv_apart h Hi) as [[Hr _] _]. by destruct (Hr p a r Ha) as (_ & _ & _ & _ & ?).
Qed.
Lemma heap_apart h p n q m : heap_inv h -> heap_blocks h !! p = Some n -> heap_blocks h !! q = Some m -> p <> q -> p + n <= q \/ q + m <= p.
Proof using.
  intros Hi Hp Hq Hne. destruct (heap_block_alloc h p n Hi Hp) as (a & Ha & Hna), (heap_block_alloc h q m Hi Hq) as (b & Hb & Hmb).
  destruct (inv_apart h Hi) as [[_ Hap] _]. destruct (decide (p < q)) as [Hlt|Hge]; [left | right].
  - pose proof (Hap p q a n b m Ha Hb Hlt). lia.
  - pose proof (Hap q p b m a n Hb Ha ltac:(lia)). lia.
Qed.
Lemma heap_kmalloc_law n e : heap_inv e.1 -> 0 < n <= 2 ^ 31 -> let '(p, e') := heap_kmalloc n e in
  heap_inv e'.1 /\ ((p = 0 /\ heap_blocks e'.1 = heap_blocks e.1) \/ (p <> 0 /\ heap_blocks e.1 !! p = None /\ heap_blocks e'.1 = <[p := n]> (heap_blocks e.1))).
Proof using.
  intros Hi Hn. unfold heap_kmalloc. destruct (kmalloc_effect e.1 n e.2 Hi) as (p & h & e' & -> & Hi' & Hcase); [split; lia|]. cbn [fst snd]. split; [done|].
  destruct Hcase as [(-> & Hsame & _)|(_ & Hp & Hnone & (a & Hnew & _) & Hold)]; [left | right].
  - split; [done|]. apply map_eq. intros q. rewrite !heap_blocks_lookup by done. by rewrite Hsame.
  - split; [done|]. split; [rewrite heap_blocks_lookup by done; by rewrite Hnone|]. apply map_eq. intros q. rewrite heap_blocks_lookup by done.
    destruct (decide (q = p)) as [->|Hq]; [by rewrite lookup_insert_eq, Hnew|]. rewrite lookup_insert_ne by congruence. rewrite heap_blocks_lookup, Hold by done. done.
Qed.
Lemma heap_kfree_law p e : heap_inv e.1 -> is_Some (heap_blocks e.1 !! p) -> heap_inv (heap_kfree p e).1 /\ heap_blocks (heap_kfree p e).1 = delete p (heap_blocks e.1).
Proof using.
  intros Hi [n Hp]. destruct (heap_block_alloc e.1 p n Hi Hp) as (a & Ha & _). unfold heap_kfree.
  destruct (kfree_effect e.1 p e.2 Hi) as (h & e' & -> & Hi' & Hnone & Hold); [left; by eexists|]. cbn [fst]. split; [done|].
  apply map_eq. intros q. rewrite heap_blocks_lookup by done. destruct (decide (q = p)) as [->|Hq]; [by rewrite lookup_delete_eq, Hnone|].
  rewrite lookup_delete_ne by congruence. rewrite heap_blocks_lookup, Hold by done. done.
Qed.

#[export, refine] Instance heap_laws : VfsLaws (HeapState * E) := {|
  host_ok e := heap_inv e.1; blocks e := heap_blocks e.1 |}.
Proof.
  - intros e p n q m. apply heap_apart.
  - intros n e. apply heap_kmalloc_law.
  - intros p e. apply heap_kfree_law.
  - done.
  - done.
  - done.
  - done.
  - intros o f ctx path e _ Hin. cbn in Hin. set_solver.
  - done.
Defined.

(** C29: The virtual file system on the kernel heap, with the memory file system as its only backend.  After any history of file
    system calls from [vfs_init] on a sound heap, in which no write ends past 2^31 bytes in its file (position plus length; beyond
    that [vfs_write] may not return, [vfs_write_hangs], or the sum wraps), the heap is sound, every open file's buffer is a
    live allocation of the heap, large enough for the file's bytes and inside the
    heap's window, and the buffers of two open files do not overlap. *)
Theorem vfs_on_heap_safe s h (e : E) : vfs_reachable s (h, e) ->
  heap_inv h /\
  (forall fd, is_slot fd -> holds_file (file_at s fd) = true -> let f := file_at s fd in
     exists n, allocation h (f_buffer f) = Some (n, capacity f) /\ 0 <= f_size f <= capacity f /\ capacity f <= n /\
       VM_KERNEL_HEAP_BASE <= f_buffer f /\ f_buffer f + n <= VM_KERNEL_HEAP_LIMIT) /\
  (forall fd fd', is_slot fd -> is_slot fd' -> fd <> fd' -> holds_file (file_at s fd) = true -> holds_file (file_at s fd') = true ->
     f_buffer (file_at s fd) + capacity (file_at s fd) <= f_buffer (file_at s fd') \/ f_buffer (file_at s fd') + capacity (file_at s fd') <= f_buffer (file_at s fd)).
Proof using.
  intros Hr. destruct (reachable_good _ _ Hr) as [[Hok Hv] _]. cbn in Hok, Hv. split; [done|].
  assert (forall fd, is_slot fd -> holds_file (file_at s fd) = true -> file_ok (heap_blocks h) (file_at s fd)) as Hfile.
  { intros fd Hfd Hf. pose proof (vi_slot _ _ Hv fd Hfd) as Hs. unfold slot_ok in Hs. by rewrite Hf in Hs. }
  split.
  - intros fd Hfd Hf f. destruct (Hfile fd Hfd Hf) as (_ & Hb & Hsz & _). fold f in Hb, Hsz. destruct (heap_block_alloc h _ _ Hok Hb) as (n & Ha & Hn).
    exists n. destruct (inv_apart h Hok) as [[Hrange _] _]. destruct (Hrange _ _ _ Ha) as (_ & ? & ? & _). split; [done|]. lia.
  - intros fd fd' Hfd Hfd' Hne Hf Hf'. destruct (Hfile fd Hfd Hf) as (Hb0 & Hb & _), (Hfile fd' Hfd' Hf') as (_ & Hb' & _).
    apply (heap_apart h); [done | done | done |]. by apply (vi_apart _ _ Hv).
Qed.
End OnHeap.

(** ** Witnesses

    The root is the memory file system; [/a] is open for reading and writing, and
    three bytes have been written to it. *)

Definition no_files : VfsState := {|
  mounts := replicate 4 inhabitant; open_files := replicate 8 inhabitant; memfs := demo_table; memory := ∅ |}.
Lemma no_files_shape : vfs_shape no_files.
Proof. split; [done|]. split; [done | apply demo_shape]. Qed.
#[export] Instance op_fits_dec o f : Decision (op_fits o f).
Proof. destruct o; cbn; apply _. Defined.
#[export] Instance vfs_op_fits_dec o s : Decision (vfs_op_fits o s).
Proof. destruct o; cbn; apply _. Defined.
Fixpoint demo_from (ops : list vfs_op) (s : VfsState) (e : HeapState * unit) : option (VfsState * (HeapState * unit)) :=
  match ops with
  | [] => Some (s, e)
  | o :: ops => if decide (vfs_op_fits o s) then match run_vfs_op o s e with Some (s, e) => demo_from ops s e | None => None end else None
  end.
Lemma demo_from_reachable ops : forall s e s' e', vfs_reachable s e -> demo_from ops s e = Some (s', e') -> vfs_reachable s' e'.
Proof.
  induction ops as [|o ops IH]; intros s e s' e' Hr; cbn [demo_from]; [by intros [= <- <-]|]. case_decide as Hf; [|done].
  destruct (run_vfs_op o s e) as [[s1 e1]|] eqn:Ho; [|done]. apply IH. by eapply reach_op.
Qed.
Definition demo_ops : list vfs_op := [VMountMemfs (Some [SLASH]); VOpen (Some [SLASH; 97]) 7 1; VFile 0 (FWrite [1; 2; 3])].
Definition demo_run : option (VfsState * (HeapState * unit)) :=
  demo_from demo_ops (vfs_init no_files (booted, tt)).1 (vfs_init no_files (booted, tt)).2.
Definition demo_s : VfsState := match demo_run with Some (s, _) => s | None => no_files end.
Definition demo_e : HeapState * unit := match demo_run with Some (_, e) => e | None => (booted, tt) end.
Lemma booted_ok : @host_ok _ _ heap_laws (booted, tt).
Proof. exact (heap_reachable_inv _ _ booted_reachable). Qed.
Lemma demo_run_reachable s e : demo_run = Some (s, e) -> vfs_reachable s e.
Proof. unfold demo_run. apply demo_from_reachable. exact (reach_init no_files (booted, tt) no_files_shape booted_ok). Qed.
Lemma demo_runs : match demo_run with Some _ => true | None => false end = true.
Proof. vm_compute. reflexivity. Qed.
Lemma demo_reachable : vfs_reachable demo_s demo_e.
Proof.
  pose proof demo_runs as Hs. pose proof demo_run_reachable as Hr. unfold demo_s, demo_e. destruct demo_run as [[s e]|]; [|discriminate Hs]. by apply Hr.
Qed.
Lemma demo_view : file_view demo_s 0 = Some {| a_bytes := [1; 2; 3]; a_pos := 3; a_mode := 7 |}.
Proof. vm_compute. reflexivity. Qed.
Lemma demo_slot : is_slot 0.
Proof. done. Qed.

Lemma vfs_file_refines_witness : exists r s' e', run_file_op 0 (FSeek 1 VFS_SEEK_SET) demo_s demo_e = Some (r, s', e') /\ vfs_safe e' s' /\
  file_view s' 0 = Some {| a_bytes := [1; 2; 3]; a_pos := 1; a_mode := 7 |}.
Proof.
  assert (holds_file (file_at demo_s 0) = true) as Hf by (vm_compute; reflexivity).
  destruct (vfs_file_refines demo_s demo_e 0 (FSeek 1 VFS_SEEK_SET) (proj1 (reachable_good _ _ demo_reachable)) demo_slot Hf I) as (r & s' & e' & Hr & Hs & _ & a & a' & Ha & Ha' & Hst).
  exists r, s', e'. split; [done|]. split; [done|]. rewrite demo_view in Ha. injection Ha as <-. destruct Hst as [_ ->]. exact Ha'.
Defined.
Lemma vfs_close_writes_back_witness : let '(r, s', e') := vfs_close 0 demo_s demo_e in
  r = VFS_OK /\ vfs_read_file (Some [SLASH; 97]) 16 s' e' = (VFS_OK, Some [1; 2; 3], e').
Proof.
  assert (vfs_find_mount (Some (f_path (file_at demo_s 0))) demo_s = Some (0, [97])) as Hf by (vm_compute; reflexivity).
  assert (m_ops (aget (mounts demo_s) 0) = g_memfs_backend_ops) as Hm by (vm_compute; reflexivity).
  pose proof (vfs_close_writes_back demo_s demo_e 0 _ 0 [97] (reachable_good _ _ demo_reachable) demo_slot demo_view Hf Hm) as Hc.
  assert ((vfs_close 0 demo_s demo_e).1.1 = VFS_OK) as Hok by (vm_compute; reflexivity).
  assert ((f_dirty (file_at demo_s 0) =? 0) = false) as Hd by (vm_compute; reflexivity).
  assert (f_path (file_at demo_s 0) = [SLASH; 97]) as Hp by (vm_compute; reflexivity).
  destruct (vfs_close 0 demo_s demo_e) as [[r s'] e']. destruct Hc as (_ & Hc & _). split; [done|]. destruct (Hc Hok) as [_ Hrd]. rewrite Hd, Hp in Hrd. apply Hrd.
  vm_compute. discriminate.
Defined.
Lemma vfs_histories_safe_witness : vfs_reachable demo_s demo_e /\ vfs_inv (blocks demo_e) demo_s.
Proof. split; [exact demo_reachable|]. apply (vfs_histories_safe demo_s demo_e demo_reachable). Defined.
Lemma vfs_on_heap_safe_witness : heap_inv demo_e.1 /\ exists n, allocation demo_e.1 (f_buffer (file_at demo_s 0)) = Some (n, 64).
Proof.
  destruct (vfs_on_heap_safe demo_s demo_e.1 demo_e.2) as (Hi & Hf & _); [rewrite <- (surjective_pairing demo_e); exact demo_reachable|]. split; [done|].
  destruct (Hf 0 demo_slot ltac:(vm_compute; reflexivity)) as (n & Hn & _). exists n.
  assert (capacity (file_at demo_s 0) = 64) as Hc by (vm_compute; reflexivity). by rewrite Hn, Hc.
Defined.

(** ** Two consequences of a write-back that can fail or a capacity that cannot grow *)

(** A write that ends past 2^31 does not return. *)
Lemma vfs_write_hangs : let '(_, _, s) := vfs_seek 0 0x7FFFFFFF VFS_SEEK_SET demo_s in vfs_write 0 (Some [1; 2]) 2 s demo_e = None.
Proof. vm_compute. reflexivity. Qed.
(** A file of 300 bytes cannot be stored: closing all files of the process leaves it open. *)
Definition large_s : option (VfsState * (HeapState * unit)) := demo_from [VFile 0 (FWrite (replicate 300 7)); VCloseAll 1] demo_s demo_e.
Lemma vfs_close_all_leaves : match large_s with Some (s, _) => vfs_count_open_for_owner 1 s = 1 | None => False end.
Proof. vm_compute. reflexivity. Qed.
(** The first write of more than 64 bytes to an empty file loses the first buffer:
    no file is open and one allocation is left. *)
Definition leak_run : option (VfsState * (HeapState * unit)) :=
  demo_from [VMountMemfs (Some [SLASH]); VOpen (Some [SLASH; 97]) 7 1; VFile 0 (FWrite (replicate 65 7)); VClose 0]
    (vfs_init no_files (booted, tt)).1 (vfs_init no_files (booted, tt)).2.
Lemma vfs_growth_leaks : match leak_run with Some (s, (h, _)) => vfs_count_open_for_owner 1 s = 0 /\ map_to_list (heap_blocks h) = [(0x40000030, 64)] | None => False end.
Proof. vm_compute. split; reflexivity. Qed.
